(* ===== verification/_CoqProject ===== *)
-Q . S2P
Prelude.v
PyString.v
PyFloat.v
Domain.v
Validation.v
PyJson.v
Crypto.v
Store.v
ToolLoop.v
Segmenter.v
Runtime.v
Closure.v
Rendering.v
Records.v
Instances.v
TokenMetrics.v
Journal.v
Jobs.v
JobProperties.v
Views.v
Publish.v
PublishLemmas.v
Backfill.v
Refusals.v
Budget.v
BudgetProperties.v
Projection.v
Scheduler.v
Scaffold.v
ScaffoldProperties.v
Pressure.v
Tokenization.v
RequestBudget.v
RequestBudgetProperties.v
Compiler.v
ExtractiveBackend.v
ExtractiveProperties.v
Auditor.v
Reorganize.v
Worker.v
GraphTypes.v
Matrix.v
MatrixProperties.v
Backends.v
Constraints.v
ConstraintProperties.v
Solver.v
Engine.v
BackendProperties.v
EngineProperties.v
EngineTotality.v
GraphBuild.v
GraphBuildProperties.v
Retrieval.v
Live.v
LiveProperties.v
Adapter.v
AdapterProperties.v
Bridge.v
BridgeProperties.v
Thinking.v
ThinkingProperties.v
Wrapping.v
WrappingProperties.v
RetrievalProperties.v
Repository.v
RepositoryProperties.v
WorkerLogic.v
FrozenViews.v
CompactionProperties.v
CandidateVerification.v
VerificationProperties.v
WorkerProperties.v
ReorganizeProperties.v
