(* ===== verification/Prelude.v ===== *)
(** * AstrContinuum: a verified model of its core

    AstrContinuum is a chat-host plugin (Python, under [src/astrcontinuum/]) that
    keeps each conversation's events in an encrypted SQLite Journal, compacts old
    events into Capsules with a language model, publishes Snapshots of Capsules,
    and serves every request one consistent view - the active Snapshot plus the
    events after it - assembled within the model's budget.  This library models
    that core as executable functions over explicit state and proves what makes
    it correct.

    ** How the parts interact

    The adapter ([adapters/astrbot.py]) turns the host's callbacks into captures
    and reads of the repository ([storage/repository.py]).  For a request it reads
    the view, checks the durable tool loop, selects candidates, measures the
    context's pressure and assembles a projection, optionally guided by the
    context graph; the host's message list is projected and restored around the
    call, and provider wrappers keep opaque reasoning data from leaving.  In the
    background a worker claims a compaction Job, reads a frozen view, compiles
    and audits a candidate, verifies it on the context graph and publishes it.

    ** The files, and what they model

    Values and libraries
    - Prelude: the [result] type of fallible code, Python equality, ranges,
      [len], stable sorting, and the list lemmas every file uses.
    - PyString, PyFloat, PyJson: Python's values - text as UTF-8 bytes with [str]
      methods, binary64 arithmetic (SpecFloat), [json.dumps] and [json.loads].
    - Domain ([domain/*.py]): the frozen envelopes with every field constraint and
      validator, and the canonical JSON of a session key.  Validation
      ([domain/validation.py]): the permanent publication gate.

    Storage
    - Crypto ([storage/crypto.py]): key texts, associated data, the [acenc]
      envelope; the class [StorageCodec] with [StorageCodecLaws] is the interface
      the storage components are proved against, [secure_storage] its instance.
    - Store ([storage/migrations.py], the DDL of [storage/security.py],
      [storage/sqlite.py]): tables as lists of rows, their CHECK, UNIQUE and
      FOREIGN KEY constraints ([schema_ok]), and the transaction monad [tx].
    - TokenMetrics, Journal, Jobs, Views, Publish, Backfill
      ([storage/token_metrics.py], [storage/repository.py],
      [runtime/read_view.py]): one file per group of operations of
      [SQLiteRepository].  JobProperties, PublishLemmas and Refusals (where
      [StaleLeaseError] comes from) hold their contracts; Records and Rendering
      the audit records and the text of a Capsule.
    - Repository and RepositoryProperties: the repository as a transition
      system ([repo_step]), its invariant [store_inv], the order [store_advance]
      stores evolve in, and the end-to-end theorems.  Instances: a concrete
      environment that satisfies every hypothesis class.

    Requests
    - ToolLoop ([runtime/tool_loop.py]): the durable tool protocol as a machine,
      its grammar [unit_ok].  Segmenter ([compaction/segmenter.py]).
    - Runtime ([runtime/types.py]), Closure ([context_graph/closure.py]), Budget
      with BudgetProperties ([runtime/budget.py]), Retrieval with
      RetrievalProperties ([runtime/retrieval.py]), Projection
      ([runtime/projection.py]), Pressure ([runtime/pressure.py]).
    - Tokenization ([tokenization/types.py], [router.py], [context.py],
      [registry.py]) and RequestBudget with RequestBudgetProperties
      ([tokenization/request.py]): profiles, routing, context limits, the
      request-scoped counter and the atomic run with its byte fallback.
    - Adapter, AdapterProperties, Bridge, BridgeProperties
      ([adapters/astrbot.py]): host identities, event identifiers, tool metadata,
      and [AstrBotHookBridge].
    - Thinking, ThinkingProperties, Wrapping, WrappingProperties
      ([adapters/provider_thinking.py]): the egress projection of reasoning data,
      the rewriting of a call, and the wrappers on live providers.

    The context graph ([context_graph/])
    - GraphTypes, Matrix with MatrixProperties, Backends with BackendProperties,
      Constraints with ConstraintProperties, Solver ([solver.py],
      [reduction.py]), Engine with EngineProperties and EngineTotality, GraphBuild
      with GraphBuildProperties, Live with LiveProperties, CandidateVerification
      with VerificationProperties.

    Compaction
    - Compiler and Auditor ([compaction/compiler.py], [auditor.py]),
      ExtractiveBackend with ExtractiveProperties ([astrbot_backend.py]),
      Reorganize with ReorganizeProperties ([reorganization.py]).
    - Worker ([compaction/worker.py]) over the world of a shared store;
      WorkerLogic its weakest preconditions, FrozenViews what a lease protects,
      CompactionProperties and WorkerProperties the theorems.
    - Scheduler ([scheduler.py]), Scaffold with ScaffoldProperties (the in-memory
      pipeline of [models.py], [in_memory.py], [assembler.py], [service.py], ...).

    ** State and operations

    A store is the record [db] of the ten tables.  An operation is a function of
    its arguments and the store, returning a [result] and the next store; inside
    one, statements are composed in [tx], and [transaction] drops every write of
    a failed body.  A write statement succeeds exactly when the new table meets
    its constraints and fails with [IntegrityError] otherwise; [savepoint] models
    [SAVEPOINT]/[ROLLBACK TO].  Timestamps are instants in microseconds, with the
    naive or aware argument kept ([py_datetime]); nonces are an argument of each
    operation; the fault injector is a function of the boundary's name, so the
    theorems cover a fault at every boundary unless they say otherwise.
    Workers and the hook bridge are computations over a [World]: between any two
    of their calls others may change the store, a call may find it locked or
    unreadable, and the clock is read from outside ([Outside]).  Concurrency
    elsewhere is a step relation: the scaffold's tasks interleave at their awaits
    ([step]), the scheduler's operations are its lock's critical sections ([act]).
    Identity matters where the code compares with [is]: the messages of a
    projection and the functions on a provider are identities.

    ** Parameters and their hypotheses

    Code that is not in the repository is a parameter: [Sha256] ([Sha256Laws]: a
    digest is 64 lower-case hexadecimal digits), [AEAD] (AES-GCM, [AEADLaws]: what
    was encrypted decrypts under the same key, nonce and data, and the tag is
    sixteen bytes), [Environment] (pydantic's JSON of whole models,
    [EnvironmentLaws]: a valid model reads back), [ModelDump] and [ItemDump]
    (pydantic's dumps), [FloatRepr] and [PyRepr] (how values print), [Unicode] and
    [UnicodeCategories] (character tables), [TokenCounter], [TokenizerRuntime]
    (tiktoken), [ExtractionModel] and [generator] (the language model and
    pydantic's reading of its answer), [NumericLibraries] (NumPy and SciPy) and
    [FloatSum] (their order of summation; [FloatSumSigns]: a sum of non-negative
    floats is one), compiler and audit backends, and [ContextEngineSolver].  No
    theorem assumes that digests do not collide; where a collision matters the
    theorem says so.  The host's objects are values that answer or refuse the
    reads made of them.

    ** What the theorems show

    - Publication and repository (RepositoryProperties): what was published reads
      back exactly; a publication is all or nothing on every branch; pointer
      versions strictly increase; committed data is append-only over any run; a
      stale worker is refused for ever; no follow-up intent is lost; a request
      view is always available, consistent and accepted by the runtime.
    - Gate, codec, Journal, Jobs: the gate passes exactly the publishable
      candidates; encrypted values round-trip and are bound to their place;
      captures replay idempotently; claiming ends with the earliest Job.
    - Requests: the request budget always answers; assembly stays within every
      budget, keeps required blocks with their companions, and fails only on a
      required input; retrieval is its bounded reference list; a projection is
      restored; the tool-loop machine accepts exactly its grammar, and captured
      calls pair exactly when nothing was cut; a request delivered again writes
      nothing; contexts that leave carry no reasoning data, and the wrappers that
      see to it are reversible.
    - Context graph: constraints compile to systems with exactly their solutions;
      every backend keeps the solver's promise whatever the libraries return; the
      engine always answers and selects only under a certificate; live selection
      fails open; the closure is the least one.
    - Compaction: model answers become verbatim quotes of their own events; the
      preflight fits or defers; a worker's view compiles and what was compiled
      passes publication while the fence holds; an iteration settles its Job;
      reorganization accounts for every item and keeps the core; a candidate is
      accepted only with proved probes; interleaved in-memory compactions form
      one chain, and an accepted notification is served.

    ** Fuel

    [claim_loop] takes one more step than there are Jobs ([claim_job_correct]: it
    never runs out).  The JSON parser's fuel is twice the text's length plus one,
    enough for every text [json_dumps] prints ([json_loads_dumps]).  [close_loop]
    and [exact_loop] run once more than there are blocks, [find] once more than
    there are coordinates, [fit_loop] once more than the range it searches: each
    round shortens what bounds it, and the theorems of their files show that the
    fuel is enough.  [drain] takes one unit for each step that the scheduler's
    queue can still ask for ([drained]).  Reading through [call_reaches] a chain of
    wrappers takes one unit per wrapper.

    ** Not modelled

    - Key files, key rotation, encryption of an existing database and scrubbing
      ([storage/security.py] beyond its DDL, [keyctl.py]), the migration runner
      and the connection setup: file-system and SQLite effects.
    - [main.py], [adapters/sylanne.py], the package exports, and the creation of
      host message objects in [build_projection_objects]: glue that
      instantiates classes of the host.  [tokenization/assets.py] hashes vendored
      files.
    - Cancellation of asyncio tasks, deeply nested JSON, the interpreter's
      recursion limit, iterables that raise, and datetimes whose arithmetic
      leaves the years 1 to 9999. *)
From stdpp Require Export prelude gmap strings list sorting.
From Stdlib Require Export ZArith Lia.

(** ** Results

    Python code that raises is modelled by [result]: [Err e] is the exception
    that leaves the function, [Ok a] its return value. *)

Inductive result (E A : Type) : Type :=
| Ok (a : A)
| Err (e : E).
Arguments Ok {E A} a.
Arguments Err {E A} e.

#[export] Instance result_ret {E} : MRet (result E) := fun A a => Ok a.
#[export] Instance result_bind {E} : MBind (result E) :=
  fun A B f m => match m with Ok a => f a | Err e => Err e end.
#[export] Instance result_eq_dec {E A} `{EqDecision E, EqDecision A} :
  EqDecision (result E A).
Proof. solve_decision. Defined.

Definition is_ok {E A} (r : result E A) : bool :=
  match r with Ok _ => true | Err _ => false end.

Declare Scope ac_scope.
Delimit Scope ac_scope with ac.
Open Scope ac_scope.
Open Scope Z_scope.

(** [raise_if b e k] is [if b: raise e] followed by [k]. *)
Definition raise_if {E A} (b : bool) (e : E) (k : result E A) : result E A :=
  if b then Err e else k.
Notation "'raise' e 'when' b ;; k" := (raise_if b e k)
  (at level 100, e at level 0, b at level 99, k at level 200, right associativity) : ac_scope.

(** ** Python equality

    [==] on a model that holds floats is not Leibniz equality ([0.0 == -0.0]),
    so equality tests go through a class of boolean tests. *)

Class PyEq (A : Type) := py_eq : A -> A -> bool.
Notation "x ==? y" := (py_eq x y) (at level 70, no associativity) : ac_scope.
Notation "x !=? y" := (negb (py_eq x y)) (at level 70, no associativity) : ac_scope.

#[export] Instance py_eq_string : PyEq string := fun a b => bool_decide (a = b).
#[export] Instance py_eq_Z : PyEq Z := Z.eqb.
#[export] Instance py_eq_bool : PyEq bool := Bool.eqb.
#[export] Instance py_eq_option {A} `{PyEq A} : PyEq (option A) :=
  fun a b => match a, b with
             | Some x, Some y => x ==? y
             | None, None => true
             | _, _ => false
             end.
Fixpoint list_py_eq {A} `{PyEq A} (l m : list A) : bool :=
  match l, m with
  | [], [] => true
  | x :: l', y :: m' => (x ==? y) && list_py_eq l' m'
  | _, _ => false
  end.
#[export] Instance py_eq_list {A} `{PyEq A} : PyEq (list A) := list_py_eq.

(** Types whose [==] is Leibniz equality. *)
Class PyEqLeibniz (A : Type) `{PyEq A} :=
  py_eq_leibniz : forall x y : A, (x ==? y) = true <-> x = y.

#[export] Instance py_eq_string_leibniz : PyEqLeibniz string.
Proof. intros x y. apply bool_decide_eq_true. Qed.
#[export] Instance py_eq_Z_leibniz : PyEqLeibniz Z.
Proof. intros x y. apply Z.eqb_eq. Qed.
#[export] Instance py_eq_option_leibniz {A} `{PyEqLeibniz A} : PyEqLeibniz (option A).
Proof.
  intros [x|] [y|]; unfold py_eq; simpl; try (split; congruence).
  rewrite (py_eq_leibniz x y). split; congruence.
Qed.
#[export] Instance py_eq_list_leibniz {A} `{PyEqLeibniz A} : PyEqLeibniz (list A).
Proof.
  intros l. induction l as [|x l IH]; intros [|y m]; unfold py_eq; simpl;
    try (split; congruence).
  rewrite andb_true_iff, (py_eq_leibniz x y).
  specialize (IH m). unfold py_eq in IH; simpl in IH. rewrite IH.
  split; [intros [-> ->]; done | intros [= -> ->]; done].
Qed.

(** [value in values] *)
Definition py_in {A} `{PyEq A} (x : A) (l : list A) : bool := existsb (py_eq x) l.

(** ** Decidable equality on the ordinary equality *)
Definition eqb_of {A} `{EqDecision A} (x y : A) : bool := bool_decide (x = y).

(** ** Generic list and integer helpers *)

(** [sum(f(x) for x in l)] *)
Definition sumZ {A} (f : A -> Z) (l : list A) : Z := foldr (fun x acc => f x + acc) 0 l.
(** [range(a, b)] *)
Definition py_range (a b : Z) : list Z := seqZ a (b - a).
(** [enumerate(l)], from [i]. *)
Fixpoint enumerate_from {A} (i : Z) (l : list A) : list (Z * A) :=
  match l with
  | [] => []
  | x :: l' => (i, x) :: enumerate_from (i + 1) l'
  end.
Definition enumerate {A} (l : list A) : list (Z * A) := enumerate_from 0 l.
(** [len(l)] *)
Definition len {A} (l : list A) : Z := Z.of_nat (length l).
(** [bool(l)] *)
Definition nonempty {A} (l : list A) : bool := match l with [] => false | _ => true end.
(** [len(set(l)) == len(l)] for hashable values. *)
Definition no_duplicates {A} `{EqDecision A} (l : list A) : bool := bool_decide (NoDup l).
(** [set(l) <= set(m)] *)
Definition subset_of {A} `{EqDecision A} (l m : list A) : bool :=
  forallb (fun x => bool_decide (x ∈ m)) l.
(** Slices [l[:n]] of a list, for [n >= 0]. *)
Definition take_z {A} (n : Z) (l : list A) : list A := take (Z.to_nat n) l.

(** ** Hint database of the development *)
Create HintDb ac discriminated.
Create Rewrite HintDb ac_rw.

(** ** Tactics *)

(** Break a boolean conjunction or disjunction hypothesis into its parts. *)
Ltac bool_hyps :=
  repeat match goal with
  | H : _ && _ = true |- _ => apply andb_true_iff in H; destruct H
  | H : _ || _ = false |- _ => apply orb_false_iff in H; destruct H
  | H : negb _ = true |- _ => apply negb_true_iff in H
  | H : negb _ = false |- _ => apply negb_false_iff in H
  | H : bool_decide _ = true |- _ => apply bool_decide_eq_true in H
  | H : bool_decide _ = false |- _ => apply bool_decide_eq_false in H
  | H : (_ <=? _)%Z = true |- _ => apply Z.leb_le in H
  | H : (_ <=? _)%Z = false |- _ => apply Z.leb_gt in H
  | H : (_ <? _)%Z = true |- _ => apply Z.ltb_lt in H
  | H : (_ <? _)%Z = false |- _ => apply Z.ltb_ge in H
  | H : (_ =? _)%Z = true |- _ => apply Z.eqb_eq in H
  | H : (_ =? _)%Z = false |- _ => apply Z.eqb_neq in H
  end.

(** Linear arithmetic with quotients and remainders. *)
Ltac zdiv := Z.to_euclidean_division_equations; lia.

(** Case split on the scrutinee of a [match] or [if] in a hypothesis, dropping
    the branches in which the code raised. *)
Ltac step_in H :=
  match type of H with
  | context [match ?x with _ => _ end] => destruct x eqn:?; try discriminate H
  end.
Ltac steps_in H := repeat (step_in H).

(** ** Lemmas *)

Lemma result_bind_ok {E A B} (f : A -> result E B) (m : result E A) b :
  (m ≫= f) = Ok b -> exists a, m = Ok a /\ f a = Ok b.
Proof. destruct m as [a|e]; cbn; [eauto | discriminate]. Qed.

Lemma Ok_inj {E A} (a b : A) : @Ok E A a = Ok b -> a = b.
Proof. by intros [= ->]. Qed.

Lemma raise_if_ok {E A} (b : bool) (e : E) (k : result E A) a :
  raise_if b e k = Ok a <-> b = false /\ k = Ok a.
Proof. destruct b; cbn; split; [discriminate | intros [? ?]; discriminate | auto | tauto]. Qed.

Lemma raise_if_false {E A} (b : bool) (e : E) (k : result E A) :
  b = false -> raise_if b e k = k.
Proof. by intros ->. Qed.

Lemma raise_if_true {E A} (b : bool) (e : E) (k : result E A) :
  b = true -> raise_if b e k = Err e.
Proof. by intros ->. Qed.

Lemma sumZ_cons {A} (f : A -> Z) x l : sumZ f (x :: l) = f x + sumZ f l.
Proof. done. Qed.
Lemma sumZ_app {A} (f : A -> Z) l m : sumZ f (l ++ m) = sumZ f l + sumZ f m.
Proof. induction l as [|x l IH]; [done|]. cbn [app]. rewrite !sumZ_cons, IH. lia. Qed.

Lemma sumZ_nonneg {A} (f : A -> Z) l : (forall x, x ∈ l -> 0 <= f x) -> 0 <= sumZ f l.
Proof.
  induction l as [|x l IH]; intros H; [done|]. rewrite sumZ_cons.
  assert (0 <= f x) by (apply H; left).
  assert (0 <= sumZ f l) by (apply IH; intros; apply H; by right). lia.
Qed.

Lemma sumZ_zero {A} (f : A -> Z) l :
  (forall x, x ∈ l -> 0 <= f x) -> sumZ f l = 0 -> forall x, x ∈ l -> f x = 0.
Proof.
  induction l as [|y l IH]; intros Hnn H0 x Hx; [by apply elem_of_nil in Hx|].
  rewrite sumZ_cons in H0.
  assert (0 <= f y) by (apply Hnn; left).
  assert (0 <= sumZ f l) by (apply sumZ_nonneg; intros; apply Hnn; by right).
  apply elem_of_cons in Hx as [->|Hx]; [lia|].
  apply IH; [intros; apply Hnn; by right | lia | done].
Qed.

Lemma len_nonneg {A} (l : list A) : 0 <= len l.
Proof. unfold len. lia. Qed.
Lemma len_app {A} (l m : list A) : len (l ++ m) = len l + len m.
Proof. unfold len. rewrite length_app. lia. Qed.
Lemma len_cons {A} (x : A) l : len (x :: l) = len l + 1.
Proof. unfold len. cbn. lia. Qed.
Lemma len_nil {A} : len (@nil A) = 0.
Proof. done. Qed.
Lemma take_z_all {A} n (l : list A) : len l <= n -> take_z n l = l.
Proof. unfold take_z, len. intros. apply take_ge. lia. Qed.

Lemma length_py_range a b : length (py_range a b) = Z.to_nat (b - a).
Proof. apply length_seqZ. Qed.
Lemma py_range_nil a b : b <= a -> py_range a b = [].
Proof. intros H. unfold py_range. apply seqZ_nil. lia. Qed.
Lemma py_range_cons a b : a < b -> py_range a b = a :: py_range (a + 1) b.
Proof.
  intros H. unfold py_range. rewrite seqZ_cons by lia. f_equal. f_equal; lia.
Qed.
Lemma py_range_app a b c : a <= b <= c -> py_range a b ++ py_range b c = py_range a c.
Proof.
  intros H. unfold py_range.
  replace (c - a) with ((b - a) + (c - b)) by lia.
  rewrite seqZ_app by lia. f_equal. f_equal. lia.
Qed.
Lemma elem_of_py_range a b i : i ∈ py_range a b <-> a <= i < b.
Proof. unfold py_range. rewrite elem_of_seqZ. lia. Qed.
Lemma lookup_py_range a b (i : nat) x :
  py_range a b !! i = Some x <-> x = a + Z.of_nat i /\ (Z.of_nat i < b - a).
Proof.
  unfold py_range. split.
  - intros H%lookup_seqZ. done.
  - intros [-> H]. apply lookup_seqZ. done.
Qed.
Lemma NoDup_py_range a b : NoDup (py_range a b).
Proof. apply NoDup_seqZ. Qed.

Lemma filter_idem {A} (p : A -> bool) l : List.filter p (List.filter p l) = List.filter p l.
Proof.
  induction l as [|x l IH]; [done|]. cbn. destruct (p x) eqn:E; [|done]. cbn. by rewrite E, IH.
Qed.

Lemma find_app {A} (p : A -> bool) l m :
  List.find p (l ++ m) = match List.find p l with Some x => Some x | None => List.find p m end.
Proof. induction l as [|x l IH]; [done|]. cbn. destruct (p x); [done|apply IH]. Qed.

Lemma find_snoc {A} (p : A -> bool) l x : List.find p l = None -> p x = true ->
  List.find p (l ++ [x]) = Some x.
Proof. intros Hn Hp. rewrite find_app, Hn. cbn. by rewrite Hp. Qed.

Lemma find_some_elem {A} (p : A -> bool) l x : List.find p l = Some x -> x ∈ l /\ p x = true.
Proof. intros [H ?]%List.find_some. split; [by apply list_elem_of_In|done]. Qed.

Lemma existsb_false_iff {A} (f : A -> bool) l :
  existsb f l = false <-> forall x, x ∈ l -> f x = false.
Proof.
  induction l as [|y l IH]; cbn.
  - split; [intros _ x Hx; by apply elem_of_nil in Hx | done].
  - rewrite orb_false_iff, IH. split.
    + intros [Hy Hl] x [->|Hx]%elem_of_cons; auto.
    + intros H. split; [apply H; left | intros x Hx; apply H; by right].
Qed.
Lemma find_none_ext {A} (p : A -> bool) l : List.find p l = None <-> forall x, x ∈ l -> p x = false.
Proof.
  rewrite <- existsb_false_iff. induction l as [|x l IH]; [done|]. cbn.
  destruct (p x); cbn; [split; discriminate|apply IH].
Qed.
(** A search through an update that keeps what it looks at. *)
Lemma find_map {A} (p : A -> bool) (f : A -> A) l : (forall x, p (f x) = p x) ->
  List.find p (map f l) = option_map f (List.find p l).
Proof. intros H. induction l as [|x l IH]; [done|]. cbn. rewrite H. by destruct (p x). Qed.
Lemma existsb_true_iff {A} (f : A -> bool) l :
  existsb f l = true <-> exists x, x ∈ l /\ f x = true.
Proof.
  rewrite existsb_exists. split; intros (x & Hx & Hf); exists x;
    (split; [|done]); by apply list_elem_of_In.
Qed.
Lemma forallb_true_iff {A} (f : A -> bool) l :
  forallb f l = true <-> forall x, x ∈ l -> f x = true.
Proof.
  rewrite forallb_forall. split; intros H x Hx; apply H; by apply list_elem_of_In.
Qed.

(** In a list with distinct keys a predicate on one key selects one element. *)
Lemma filter_one {A K} (key : A -> K) (p : A -> bool) l x :
  NoDup (map key l) -> x ∈ l -> p x = true -> (forall y, p y = true -> key y = key x) ->
  List.filter p l = [x].
Proof.
  intros Hn Hx Hp Hk. induction l as [|y l IH]; [by apply elem_of_nil in Hx|].
  cbn in Hn. apply NoDup_cons in Hn as [Hy Hn]. cbn [List.filter].
  apply elem_of_cons in Hx as [<-|Hx].
  - rewrite Hp. f_equal. apply elem_of_nil_inv. intros z [Hz Hpz]%list_elem_of_In%filter_In.
    apply list_elem_of_In in Hz. apply Hy. rewrite <- (Hk _ Hpz). apply list_elem_of_fmap. eauto.
  - destruct (p y) eqn:E; [|by apply IH]. exfalso. apply Hy. rewrite (Hk _ E).
    apply list_elem_of_fmap. eauto.
Qed.

Lemma key_unique {A K} (key : A -> K) l x y :
  NoDup (map key l) -> x ∈ l -> y ∈ l -> key x = key y -> x = y.
Proof.
  intros Hn Hx Hy E. apply list_elem_of_lookup in Hx as [i Hi]. apply list_elem_of_lookup in Hy as [j Hj].
  assert (i = j) as ->; [|congruence].
  apply (NoDup_lookup (map key l) i j (key x)); [done|..];
    rewrite list_lookup_fmap; [by rewrite Hi | rewrite Hj; cbn; by rewrite E].
Qed.

Lemma find_key {A K} (key : A -> K) (p : A -> bool) l x :
  NoDup (map key l) -> x ∈ l -> p x = true -> (forall y, p y = true -> key y = key x) ->
  List.find p l = Some x.
Proof.
  intros Hn Hx Hp Hk. destruct (List.find p l) as [y|] eqn:E.
  - apply find_some_elem in E as [Hy Hpy]. f_equal. by apply (key_unique key l); auto.
  - rewrite find_none_ext in E. specialize (E _ Hx). congruence.
Qed.

Lemma elem_of_filter_bool {A} (p : A -> bool) l x : x ∈ List.filter p l <-> x ∈ l /\ p x = true.
Proof. by rewrite !list_elem_of_In, filter_In. Qed.

Lemma filter_all {A} (p : A -> bool) l : (forall x, x ∈ l -> p x = true) -> List.filter p l = l.
Proof.
  induction l as [|x l IH]; [done|]. intros Hp. cbn. rewrite (Hp x) by left. f_equal. apply IH.
  intros y Hy. apply Hp. by right.
Qed.
Lemma eqb_of_refl {A} `{EqDecision A} (a : A) : eqb_of a a = true.
Proof. unfold eqb_of. by apply bool_decide_eq_true. Qed.
Lemma Forall2_elem_r {A B} (P : A -> B -> Prop) l m y : Forall2 P l m -> y ∈ m -> exists x, x ∈ l /\ P x y.
Proof.
  induction 1 as [|x z l m Hp _ IH]; [by intros ?%elem_of_nil|]. intros [->|Hy]%elem_of_cons.
  - exists x. split; [left|done].
  - destruct (IH Hy) as (x' & ? & ?). exists x'. split; [by right|done].
Qed.
Lemma NoDup_map_filter {A B} (f : A -> B) (p : A -> bool) l : NoDup (map f l) -> NoDup (map f (List.filter p l)).
Proof.
  induction l as [|x l IH]; [done|]. cbn. intros [Hx Hl]%NoDup_cons. destruct (p x); [|by apply IH]. cbn. constructor; [|by apply IH].
  intros (y & E & Hy)%list_elem_of_fmap. apply Hx, list_elem_of_fmap. exists y. split; [done|]. by apply elem_of_filter_bool in Hy as [? _].
Qed.
Lemma NoDup_map_unique {A B} (f : A -> B) l x y : NoDup (map f l) -> x ∈ l -> y ∈ l -> f x = f y -> x = y.
Proof.
  induction l as [|z l IH]; [by intros _ ?%elem_of_nil|]. cbn. intros [Hz Hl]%NoDup_cons [->|Hx]%elem_of_cons [->|Hy]%elem_of_cons E; [done| | |by apply IH].
  - exfalso. apply Hz. rewrite E. by apply (list_elem_of_fmap_2 f).
  - exfalso. apply Hz. rewrite <- E. by apply (list_elem_of_fmap_2 f).
Qed.
Lemma filter_filter_and {A} (p q : A -> bool) l :
  List.filter (fun x => p x && q x) l = List.filter q (List.filter p l).
Proof. induction l as [|x l IH]; [done|]. cbn. destruct (p x); cbn; [destruct (q x)|]; by rewrite IH. Qed.
Lemma subset_of_spec {A} `{EqDecision A} (l m : list A) :
  subset_of l m = true <-> l ⊆ m.
Proof.
  unfold subset_of. rewrite forallb_true_iff. split.
  - intros H x Hx. specialize (H x Hx). by apply bool_decide_eq_true in H.
  - intros H x Hx. apply bool_decide_eq_true. by apply H.
Qed.

Lemma enumerate_from_length {A} i (l : list A) : length (enumerate_from i l) = length l.
Proof. revert i. induction l as [|x l IH]; intros i; cbn; [done|]. by rewrite IH. Qed.

Lemma elem_of_enumerate_from {A} i (l : list A) p :
  p ∈ enumerate_from i l <->
  exists k : nat, l !! k = Some p.2 /\ p.1 = i + Z.of_nat k.
Proof.
  revert i. induction l as [|x l IH]; intros i; cbn.
  - split; [by intros ?%elem_of_nil | intros (k & ? & _); by destruct k].
  - rewrite elem_of_cons, IH. split.
    + intros [->|(k & Hk & He)]; [exists 0%nat; cbn; split; [done|lia]|].
      exists (S k). split; [done|]. lia.
    + intros (k & Hk & He). destruct k as [|k]; cbn in Hk.
      * left. destruct p as [pi px]. cbn in *. injection Hk as ->. f_equal. lia.
      * right. exists k. split; [done|]. lia.
Qed.

Lemma filter_nil_iff {A} (p : A -> bool) l : List.filter p l = [] <-> forall x, x ∈ l -> p x = false.
Proof.
  split.
  - intros E x Hx. apply not_true_iff_false. intros Hp.
    assert (x ∈ List.filter p l) as Hin by (by apply elem_of_filter_bool). rewrite E in Hin.
    by apply elem_of_nil in Hin.
  - induction l as [|y l IH]; [done|]. intros Hn. cbn. rewrite (Hn y) by left. apply IH.
    intros x Hx. apply Hn. by right.
Qed.

(** ** Loops over fallible bodies, and [ORDER BY] *)

(** [tuple(f(x) for x in l)] where [f] may raise. *)
Fixpoint map_result {E A B} (f : A -> result E B) (l : list A) : result E (list B) :=
  match l with
  | [] => Ok []
  | x :: rest => y ← f x; ys ← map_result f rest; Ok (y :: ys)
  end.
(** A loop that raises: [for x in l: state = step(state, x)]. *)
Fixpoint fold_result {E S A} (step : S -> A -> result E S) (l : list A) (state : S) : result E S :=
  match l with
  | [] => Ok state
  | x :: l => state ← step state x; fold_result step l state
  end.
Lemma map_result_ok {E A B} (f : A -> result E B) l ys :
  map_result f l = Ok ys <-> Forall2 (fun x y => f x = Ok y) l ys.
Proof.
  revert ys. induction l as [|x l IH]; intros ys; cbn.
  - split; [intros [= <-]; constructor|]. by inversion 1.
  - split.
    + intros (y & Hy & (zs & Hzs & [= <-])%result_bind_ok)%result_bind_ok.
      constructor; [done|]. by apply IH.
    + inversion 1 as [|? y ? zs Hy Hzs]; subst. apply IH in Hzs. by rewrite Hy, Hzs.
Qed.
Lemma map_result_run {E A B} (f : A -> result E B) (g : A -> B) l :
  (forall x, x ∈ l -> f x = Ok (g x)) -> map_result f l = Ok (map g l).
Proof.
  intros Hf. apply map_result_ok. induction l as [|x l IH]; [constructor|].
  cbn. constructor; [apply Hf; by left|]. apply IH. intros y Hy. apply Hf. by right.
Qed.

(** [ORDER BY key]: rows with equal keys keep their order. *)
Fixpoint insert_by {A} (key : A -> Z) (x : A) (l : list A) : list A :=
  match l with
  | [] => [x]
  | y :: rest => if key x <=? key y then x :: l else y :: insert_by key x rest
  end.
Definition order_by {A} (key : A -> Z) (l : list A) : list A := foldr (insert_by key) [] l.

Lemma insert_by_perm {A} (key : A -> Z) x l : insert_by key x l ≡ₚ x :: l.
Proof.
  induction l as [|y l IH]; cbn; [done|]. destruct (_ <=? _); [done|]. rewrite IH. apply Permutation_swap.
Qed.
Lemma order_by_perm {A} (key : A -> Z) l : order_by key l ≡ₚ l.
Proof. induction l as [|x l IH]; cbn; [done|]. by rewrite insert_by_perm, IH. Qed.
Lemma elem_of_order_by {A} (key : A -> Z) l x : x ∈ order_by key l <-> x ∈ l.
Proof. by rewrite (order_by_perm key l). Qed.

(** Rows stored in the order of their keys are returned as they are. *)
Lemma order_by_sorted {A} (key : A -> Z) l : Sorted Z.le (map key l) -> order_by key l = l.
Proof.
  induction l as [|x l IH]; [done|]. change (order_by key (x :: l)) with (insert_by key x (order_by key l)).
  cbn [map]. intros [Hs Hh]%Sorted_inv. rewrite (IH Hs).
  destruct l as [|y l]; [done|]. cbn in *. inversion Hh; subst. by rewrite (proj2 (Z.leb_le _ _)).
Qed.
Lemma sorted_py_range a b : Sorted Z.le (py_range a b).
Proof.
  unfold py_range. generalize (b - a). intros n. destruct (Z.le_gt_cases n 0); [by rewrite seqZ_nil|].
  revert a. pattern n. apply natlike_ind; [done| |lia]. intros m Hm IH a.
  rewrite <- Z.add_1_r, seqZ_cons by lia. replace (Z.pred (m + 1)) with m by lia.
  constructor; [apply IH|]. destruct (Z.eq_dec m 0) as [->|]; [constructor|].
  rewrite seqZ_cons by lia. constructor. lia.
Qed.

#[export] Hint Resolve len_nonneg NoDup_py_range : ac.
#[export] Hint Rewrite @len_app @len_cons @len_nil @sumZ_app @sumZ_cons : ac_rw.

(** ** Loops that raise *)

(** A loop of raising steps keeps an invariant over the elements it has done,
    and what it raises was raised by a step from a state that satisfies it. *)
Lemma fold_result_inv {E S A} (step : S -> A -> result E S) (P : list A -> S -> Prop) l : forall before s,
  P before s ->
  (forall before x s s', x ∈ l -> P before s -> step s x = Ok s' -> P (before ++ [x]) s') ->
  match fold_result step l s with
  | Ok s' => P (before ++ l) s'
  | Err e => exists before x s', x ∈ l /\ P before s' /\ step s' x = Err e
  end.
Proof.
  induction l as [|x l IH]; intros before s Hs Hstep; cbn; [by rewrite app_nil_r|].
  destruct (step s x) as [s'|e] eqn:Er; cbn.
  - specialize (IH (before ++ [x]) s').
    replace (before ++ x :: l) with ((before ++ [x]) ++ l) by by rewrite <- app_assoc.
    assert (P (before ++ [x]) s') as Hs' by (apply (Hstep before x s s'); [left|done..]).
    specialize (IH Hs'). destruct (fold_result step l s').
    + apply IH. intros b y s1 s2 Hy. apply Hstep. by right.
    + destruct IH as (b & y & s1 & Hy & HP & He).
      { intros b y s1 s2 Hy. apply Hstep. by right. }
      exists b, y, s1. split; [by right|done].
  - exists before, x, s. split; [left|done].
Qed.

(** ** Keys in the order of their first use *)

(** [tuple(dict.fromkeys(l))] *)
Fixpoint fromkeys_after {A} `{EqDecision A} (seen l : list A) : list A :=
  match l with
  | [] => []
  | x :: l => if bool_decide (x ∈ seen) then fromkeys_after seen l else x :: fromkeys_after (x :: seen) l
  end.
Definition fromkeys {A} `{EqDecision A} (l : list A) : list A := fromkeys_after [] l.
Lemma elem_of_fromkeys_after {A} `{EqDecision A} (l : list A) x : forall seen, x ∈ fromkeys_after seen l <-> x ∈ l /\ (x ∉ seen).
Proof.
  induction l as [|y l IH]; intros seen; cbn; [rewrite elem_of_nil; tauto|].
  case_bool_decide as Hy; rewrite !elem_of_cons, IH, ?elem_of_cons.
  - split; [tauto|]. intros [[->|?] ?]; tauto.
  - destruct (decide (x = y)) as [->|]; tauto.
Qed.
Lemma NoDup_fromkeys_after {A} `{EqDecision A} (l : list A) : forall seen, NoDup (fromkeys_after seen l).
Proof.
  induction l as [|y l IH]; intros seen; cbn; [constructor|]. case_bool_decide; [apply IH|]. constructor; [|apply IH].
  rewrite elem_of_fromkeys_after, elem_of_cons. tauto.
Qed.
Lemma elem_of_fromkeys {A} `{EqDecision A} (l : list A) x : x ∈ fromkeys l <-> x ∈ l.
Proof. unfold fromkeys. rewrite elem_of_fromkeys_after. pose proof (not_elem_of_nil x). tauto. Qed.
Lemma NoDup_fromkeys {A} `{EqDecision A} (l : list A) : NoDup (fromkeys l).
Proof. apply NoDup_fromkeys_after. Qed.
