(* ===== verification/PyString.v ===== *)
(** Python strings, as their UTF-8 bytes.

    A Python [str] is modelled by the [string] of its UTF-8 encoding: equality
    and the code-point order of [str] are equality and byte order of the
    encoding.  Operations that count or test characters ([len], slices,
    [str.strip]) decode the bytes.  A [str] that holds a lone surrogate, which
    UTF-8 cannot encode, is a byte string that is not [utf8_valid]. *)
From S2P Require Import Prelude.
From Stdlib Require Import Ascii String NArith.
Open Scope string_scope.
Open Scope list_scope.
Open Scope Z_scope.

(** ** Code points *)

Definition bytes_of (s : string) : list N := map N_of_ascii (list_ascii_of_string s).

(** UTF-8 decoding; the widths follow the leading byte. *)
Fixpoint utf8_decode (bs : list N) : list N :=
  match bs with
  | [] => []
  | b0 :: r0 =>
      if (b0 <? 128)%N then b0 :: utf8_decode r0
      else match r0 with
      | [] => [b0]
      | b1 :: r1 =>
          if (b0 <? 224)%N then (N.land b0 31 * 64 + N.land b1 63)%N :: utf8_decode r1
          else match r1 with
          | [] => [b0]
          | b2 :: r2 =>
              if (b0 <? 240)%N
              then (N.land b0 15 * 4096 + N.land b1 63 * 64 + N.land b2 63)%N :: utf8_decode r2
              else match r2 with
              | [] => [b0]
              | b3 :: r3 =>
                  (N.land b0 7 * 262144 + N.land b1 63 * 4096
                   + N.land b2 63 * 64 + N.land b3 63)%N :: utf8_decode r3
              end
          end
      end
  end.

Definition code_points (s : string) : list N := utf8_decode (bytes_of s).

(** [str.isspace] of one character: the white space [str.strip] removes. *)
Definition py_isspace (c : N) : bool :=
  ((9 <=? c) && (c <=? 13))%N || ((28 <=? c) && (c <=? 32))%N
  || (c =? 133)%N || (c =? 160)%N || (c =? 5760)%N
  || ((8192 <=? c) && (c <=? 8202))%N
  || (c =? 8232)%N || (c =? 8233)%N || (c =? 8239)%N || (c =? 8287)%N || (c =? 12288)%N.

(** [not s.strip()] *)
Definition is_blank (s : string) : bool := forallb py_isspace (code_points s).

(** [not s] *)
Definition is_empty (s : string) : bool := match s with EmptyString => true | _ => false end.

(** SQLite's [length(trim(s)) > 0] is false; [trim] removes U+0020 only. *)
Definition sqlite_blank (s : string) : bool :=
  forallb (fun c => Ascii.eqb c " "%char) (list_ascii_of_string s).

(** [len(s.encode("utf-8"))] *)
Definition utf8_length (s : string) : Z := Z.of_nat (String.length s).

(** [len(s)]: the characters of [s]. *)
Definition py_len (s : string) : Z := len (code_points s).

(** A byte that continues a character. *)
Definition is_continuation (c : ascii) : bool := (N.land (N_of_ascii c) 192 =? 128)%N.

(** [s[:n]]: the bytes of the first [n] characters. *)
Fixpoint take_chars (n : nat) (s : string) : string :=
  match s with
  | EmptyString => EmptyString
  | String c s' =>
      if is_continuation c then String c (take_chars n s')
      else match n with
           | O => EmptyString
           | S n' => String c (take_chars n' s')
           end
  end.

(** [s.encode("utf-8")] succeeds, and [bytes.decode("utf-8")] succeeds: the
    well-formed byte sequences, without overlong forms and surrogates. *)
Definition continuation (b : N) : bool := ((128 <=? b) && (b <? 192))%N.
Fixpoint utf8_bytes_valid (bs : list N) : bool :=
  match bs with
  | [] => true
  | b0 :: r0 =>
      if (b0 <? 128)%N then utf8_bytes_valid r0
      else match r0 with
      | [] => false
      | b1 :: r1 =>
          if ((194 <=? b0) && (b0 <? 224))%N then continuation b1 && utf8_bytes_valid r1
          else match r1 with
          | [] => false
          | b2 :: r2 =>
              if ((224 <=? b0) && (b0 <? 240))%N
              then continuation b1 && continuation b2
                   && negb ((b0 =? 224) && (b1 <? 160))%N && negb ((b0 =? 237) && (160 <=? b1))%N
                   && utf8_bytes_valid r2
              else match r2 with
              | [] => false
              | b3 :: r3 =>
                  ((240 <=? b0) && (b0 <? 245))%N && continuation b1 && continuation b2
                  && continuation b3
                  && negb ((b0 =? 240) && (b1 <? 144))%N && negb ((b0 =? 244) && (144 <=? b1))%N
                  && utf8_bytes_valid r3
              end
          end
      end
  end.
Definition utf8_valid (s : string) : bool := utf8_bytes_valid (bytes_of s).

(** ** Separators *)

(** [s.split(sep)] on a one-character separator. *)
Fixpoint split_chars (sep : ascii) (acc s : list ascii) : list (list ascii) :=
  match s with
  | [] => [rev acc]
  | c :: r => if Ascii.eqb c sep then rev acc :: split_chars sep [] r else split_chars sep (c :: acc) r
  end.
Definition py_split (sep : ascii) (s : string) : list string :=
  map string_of_list_ascii (split_chars sep [] (list_ascii_of_string s)).

(** [sep.join(parts)] *)
Fixpoint py_join (sep : string) (parts : list string) : string :=
  match parts with
  | [] => ""
  | [p] => p
  | p :: rest => p +:+ sep +:+ py_join sep rest
  end.

(** The newline character, and Python's ["\n\n"]. *)
Definition newline : string := String "010"%char "".
Definition blank_line : string := newline +:+ newline.

(** ** Order *)

(** [a < b] on strings, [a <= b]: the order of the byte encodings is the order
    of the code points. *)
Definition str_ltb (a b : string) : bool :=
  match String.compare a b with Lt => true | _ => false end.
Definition str_leb (a b : string) : bool :=
  match String.compare a b with Gt => false | _ => true end.

(** ** Decimal rendering of integers, [f"{n}"] *)

Definition digit (d : Z) : ascii := ascii_of_N (Z.to_N (48 + d)).
Fixpoint show_pos (fuel : nat) (n : Z) (acc : string) : string :=
  match fuel with
  | O => acc
  | S fuel' =>
      let acc' := String (digit (n mod 10)) acc in
      if n / 10 =? 0 then acc' else show_pos fuel' (n / 10) acc'
  end.
(** The number of bits bounds the number of decimal digits. *)
Definition show_Z (n : Z) : string :=
  if n <? 0 then String "-"%char (show_pos (S (Z.to_nat (Z.log2 (- n)))) (- n) "")
  else show_pos (S (Z.to_nat (Z.log2 n))) n "".

(** ** Character tables

    [str.casefold] and [str.isalnum] read the Unicode tables of the interpreter,
    which change with its version: they are parameters. *)
Class Unicode := { casefold : string -> string; py_isalnum : N -> bool }.

(** ** Lemmas *)

Lemma is_empty_true s : is_empty s = true <-> s = "".
Proof. destruct s; cbn; split; congruence. Qed.

Lemma is_blank_empty : is_blank "" = true.
Proof. reflexivity. Qed.

Lemma is_blank_not_empty s : is_blank s = false -> is_empty s = false.
Proof. by destruct s. Qed.

(** SQLite's [trim] removes less than [str.strip]. *)
Lemma sqlite_blank_is_blank s : sqlite_blank s = true -> is_blank s = true.
Proof.
  unfold sqlite_blank, is_blank, code_points, bytes_of.
  induction (list_ascii_of_string s) as [|c l IH]; [done|]. cbn [forallb map]. intros H. bool_hyps.
  apply Ascii.eqb_eq in H as ->.
  change (py_isspace 32 && forallb py_isspace (utf8_decode (map N_of_ascii l)) = true).
  by rewrite (IH ltac:(done)).
Qed.

Lemma utf8_length_nonneg s : 0 <= utf8_length s.
Proof. unfold utf8_length. lia. Qed.

Lemma str_leb_refl s : str_leb s s = true.
Proof.
  unfold str_leb. pose proof (String.compare_antisym s s) as H.
  by destruct (String.compare s s).
Qed.

Lemma str_leb_total a b : str_leb a b = true \/ str_leb b a = true.
Proof.
  unfold str_leb. rewrite (String.compare_antisym a b).
  destruct (String.compare b a); cbn; auto.
Qed.

Lemma str_leb_antisym a b : str_leb a b = true -> str_leb b a = true -> a = b.
Proof.
  unfold str_leb. rewrite (String.compare_antisym b a). intros H1 H2.
  destruct (String.compare a b) eqn:E; cbn in *; try discriminate.
  by apply String.compare_eq_iff.
Qed.

Lemma str_ltb_leb a b : str_ltb a b = negb (str_leb b a).
Proof.
  unfold str_leb, str_ltb. rewrite (String.compare_antisym b a).
  by destruct (String.compare a b).
Qed.

Lemma ascii_compare_trans_lt x y z :
  Ascii.compare x y = Lt -> Ascii.compare y z = Lt -> Ascii.compare x z = Lt.
Proof.
  unfold Ascii.compare. rewrite !N.compare_lt_iff. lia.
Qed.

Lemma str_compare_le_trans a b c :
  String.compare a b <> Gt -> String.compare b c <> Gt -> String.compare a c <> Gt.
Proof.
  revert b c. induction a as [|x a IH]; intros [|y b] [|z c]; cbn; try congruence.
  destruct (Ascii.compare x y) eqn:E1; try congruence;
    destruct (Ascii.compare y z) eqn:E2; try congruence; intros H1 H2.
  - apply Ascii.compare_eq_iff in E1 as ->. rewrite E2. by eapply IH.
  - apply Ascii.compare_eq_iff in E1 as ->. by rewrite E2.
  - apply Ascii.compare_eq_iff in E2 as <-. by rewrite E1.
  - by rewrite (ascii_compare_trans_lt _ _ _ E1 E2).
Qed.

Lemma str_leb_trans a b c : str_leb a b = true -> str_leb b c = true -> str_leb a c = true.
Proof.
  unfold str_leb. intros H1 H2.
  assert (String.compare a b <> Gt) as G1 by (by destruct (String.compare a b)).
  assert (String.compare b c <> Gt) as G2 by (by destruct (String.compare b c)).
  pose proof (str_compare_le_trans _ _ _ G1 G2) as G3.
  by destruct (String.compare a c).
Qed.

(** Splitting what was joined, when no part holds the separator. *)
Lemma split_chars_app sep p acc r : sep ∉ p ->
  split_chars sep acc (p ++ sep :: r) = (rev acc ++ p) :: split_chars sep [] r.
Proof.
  revert acc. induction p as [|c p IH]; intros acc Hp; cbn.
  - by rewrite Ascii.eqb_refl, app_nil_r.
  - assert (Ascii.eqb c sep = false) as -> by (apply Ascii.eqb_neq; set_solver).
    rewrite IH by set_solver. cbn. by rewrite <- app_assoc.
Qed.

Lemma split_chars_end sep p acc : sep ∉ p -> split_chars sep acc p = [rev acc ++ p].
Proof.
  revert acc. induction p as [|c p IH]; intros acc Hp; cbn.
  - by rewrite app_nil_r.
  - assert (Ascii.eqb c sep = false) as -> by (apply Ascii.eqb_neq; set_solver).
    rewrite IH by set_solver. cbn. by rewrite <- app_assoc.
Qed.

Lemma list_ascii_of_string_app a b :
  list_ascii_of_string (a +:+ b) = list_ascii_of_string a ++ list_ascii_of_string b.
Proof. induction a as [|c a IH]; [done|]. simpl. f_equal. exact IH. Qed.

Definition chars (s : string) : list ascii := list_ascii_of_string s.

Lemma py_split_join sep parts : parts <> [] -> Forall (fun p => sep ∉ chars p) parts ->
  py_split sep (py_join (String sep "") parts) = parts.
Proof.
  intros Hne Hall. unfold py_split.
  enough (split_chars sep [] (chars (py_join (String sep "") parts)) = map chars parts) as E.
  { unfold chars in E at 1. rewrite E, map_map. rewrite <- (map_id parts) at 2.
    apply map_ext. intros p. apply string_of_list_ascii_of_string. }
  unfold chars in *. induction parts as [|p parts IH]; [done|].
  apply Forall_cons in Hall as [Hp Hall]. cbn [py_join].
  destruct parts as [|q parts].
  - by rewrite split_chars_end.
  - rewrite !list_ascii_of_string_app. cbn [app list_ascii_of_string].
    rewrite split_chars_app by done. by rewrite IH.
Qed.

#[export] Hint Resolve utf8_length_nonneg str_leb_refl : ac.

(** ** Characters and words *)

(** The characters of a string, each as its own bytes. *)
Fixpoint characters (s : string) : list string :=
  match s with
  | EmptyString => []
  | String c rest =>
      match characters rest with
      | (String d _ as ch) :: more => if is_continuation d then String c ch :: more else String c EmptyString :: ch :: more
      | more => String c EmptyString :: more
      end
  end.
(** [s.split()]: the runs of characters that are not white space. *)
Definition space_character (ch : string) : bool := forallb py_isspace (code_points ch).
Fixpoint split_words (current : string) (cs : list string) : list string :=
  match cs with
  | [] => if is_empty current then [] else [current]
  | ch :: cs =>
      if space_character ch then (if is_empty current then split_words EmptyString cs else current :: split_words EmptyString cs)
      else split_words (current +:+ ch) cs
  end.
Definition py_words (s : string) : list string := split_words EmptyString (characters s).
(** [sub in s] *)
Fixpoint contains_text (sub s : string) : bool :=
  String.prefix sub s || match s with EmptyString => false | String _ rest => contains_text sub rest end.
(** [s.strip()] *)
Fixpoint drop_spaces (cs : list string) : list string :=
  match cs with
  | ch :: rest => if space_character ch then drop_spaces rest else cs
  | [] => []
  end.
Definition py_strip (s : string) : string := foldr String.append EmptyString (rev (drop_spaces (rev (drop_spaces (characters s))))).
Example strips : py_strip " a b  " = "a b".
Proof. reflexivity. Qed.
