(* ===== verification/PyFloat.v ===== *)
(** Python floats: IEEE 754 binary64 with round to nearest even, computed by
    the Standard Library's [SpecFloat] at precision 53 and exponent bound 1024. *)
From S2P Require Import Prelude.
From Stdlib Require Import SpecFloat.
Open Scope Z_scope.

Abbreviation float := spec_float.
#[export] Instance float_eq_dec : EqDecision float.
Proof. solve_decision. Defined.

Definition f_zero : float := S754_zero false.
Definition f_one : float := S754_finite false 4503599627370496 (-52).

(** Comparisons: false whenever an operand is a NaN. *)
Definition f_lt : float -> float -> bool := SFltb.
Definition f_le : float -> float -> bool := SFleb.
#[export] Instance py_eq_float : PyEq float := SFeqb.

Definition f_is_finite (x : float) : bool :=
  match x with S754_zero _ | S754_finite _ _ _ => true | _ => false end.

Definition f_add : float -> float -> float := SFadd 53 1024.
Definition f_sub : float -> float -> float := SFsub 53 1024.
Definition f_mul : float -> float -> float := SFmul 53 1024.
Definition f_div : float -> float -> float := SFdiv 53 1024.
Definition f_neg : float -> float := SFopp.

(** [float(n)]: the nearest float ([OverflowError], an infinity here, beyond
    the range). *)
Definition f_of_Z (n : Z) : float := binary_normalize 53 1024 n 0 false.

(** True division [n / d] of two non-negative integers, [d > 0]: one correctly
    rounded quotient of the integers themselves. *)
Definition f_div_Z (n d : Z) : float :=
  match n, d with
  | Zpos p, Zpos q => SFdiv 53 1024 (S754_finite false p 0) (S754_finite false q 0)
  | _, _ => f_zero
  end.

(** [min(a, b)] and [max(a, b)] keep the first argument on ties. *)
Definition f_min (a b : float) : float := if f_lt b a then b else a.
Definition f_max (a b : float) : float := if f_lt a b then b else a.
(** [min(l, default=d)] *)
Definition f_min_list (d : float) (l : list float) : float :=
  match l with [] => d | x :: l' => foldl f_min x l' end.

(** [math.ceil(x)] of a finite float. *)
Definition f_ceil (x : float) : Z :=
  match x with
  | S754_finite s m e =>
      let n := if s then Zneg m else Zpos m in
      if e <? 0 then - ((- n) / 2 ^ (- e)) else n * 2 ^ e
  | _ => 0
  end.

(** The floats that satisfy [ge=0.0, le=1.0] ([UnitFloat]). *)
Definition is_unit_float (x : float) : bool := f_le f_zero x && f_le x f_one.

Example f_div_two_thirds : f_div_Z 2 3 = S754_finite false 6004799503160661 (-53).
Proof. vm_compute. reflexivity. Qed.
Example f_of_Z_three : f_of_Z 3 = S754_finite false 6755399441055744 (-51).
Proof. vm_compute. reflexivity. Qed.
Example f_ceil_three_halves : f_ceil (f_div_Z 3 2) = 2.
Proof. vm_compute. reflexivity. Qed.

(** ** Order lemmas *)

Definition is_nan (x : float) : bool := match x with S754_nan => true | _ => false end.

(** ** Seconds *)

(** [round] of [n / d] to the nearest integer, ties to even; [d > 0]. *)
Definition round_half_even (n d : Z) : Z :=
  let q := n / d in
  match 2 * (n mod d) ?= d with Lt => q | Gt => q + 1 | Eq => if Z.even q then q else q + 1 end.
Definition float_round_half_even (x : float) : Z :=
  match x with
  | S754_finite s m e =>
      let n := if s then Zneg m else Zpos m in
      if e <? 0 then round_half_even n (2 ^ (- e)) else n * 2 ^ e
  | _ => 0
  end.
(** [math.modf]: the integer part and the fraction of a finite float. *)
Definition whole_part (s : bool) (m : positive) (e : Z) : Z :=
  let n := if e <? 0 then Zpos m / 2 ^ (- e) else Zpos m * 2 ^ e in if s then - n else n.
Definition fraction_part (s : bool) (m : positive) (e : Z) : float :=
  if e <? 0 then let n := Zpos m mod 2 ^ (- e) in binary_normalize 53 1024 (if s then - n else n) e s
  else f_zero.
Definition US_PER_SECOND : Z := 1000000.

Lemma compare_antisym x y :
  SFcompare y x = option_map CompOpp (SFcompare x y).
Proof.
  destruct x as [s1|s1| |s1 m1 e1], y as [s2|s2| |s2 m2 e2]; cbn; try done;
    try (destruct s1; done); try (destruct s2; done); try (destruct s1, s2; done).
  rewrite (Z.compare_antisym e1 e2).
  change (Pos.compare_cont Eq m2 m1) with (Pos.compare m2 m1).
  change (Pos.compare_cont Eq m1 m2) with (Pos.compare m1 m2).
  rewrite (Pos.compare_antisym m1 m2).
  destruct s1, s2; destruct (e1 ?= e2); cbn; try done;
    by destruct (m1 ?= m2)%positive.
Qed.

Lemma compare_nan x y : SFcompare x y = None <-> is_nan x || is_nan y = true.
Proof.
  destruct x as [s1|s1| |s1 m1 e1], y as [s2|s2| |s2 m2 e2]; cbn; split; try congruence; done.
Qed.

Lemma f_lt_not_le x y : is_nan x = false -> is_nan y = false -> f_lt x y = negb (f_le y x).
Proof.
  intros Hx Hy. unfold f_lt, f_le, SFltb, SFleb. rewrite (compare_antisym x y).
  destruct (SFcompare x y) as [[]|] eqn:E; cbn; try done.
  apply compare_nan in E. by rewrite Hx, Hy in E.
Qed.

Lemma f_le_nan x y : f_le x y = true -> is_nan x = false /\ is_nan y = false.
Proof.
  unfold f_le, SFleb. destruct (SFcompare x y) as [c|] eqn:E; [|done]. intros _.
  destruct (is_nan x) eqn:Hx, (is_nan y) eqn:Hy; try done;
    assert (SFcompare x y = None) as E' by (apply compare_nan; by rewrite Hx, ?Hy); congruence.
Qed.

Lemma compare_pos_finite m1 e1 m2 e2 :
  SFcompare (S754_finite false m1 e1) (S754_finite false m2 e2)
  = Some (match e1 ?= e2 with Eq => Pos.compare m1 m2 | c => c end).
Proof. by cbn [SFcompare]; destruct (e1 ?= e2). Qed.

Lemma f_le_antisym_one x : is_unit_float x = true -> f_lt x f_one = false -> x = f_one.
Proof.
  unfold is_unit_float, f_le, f_lt, SFleb, SFltb.
  intros [H0 H1]%andb_true_iff H. revert H0 H1 H.
  destruct x as [s|s| |s m e].
  - cbn. discriminate.
  - destruct s; cbn; discriminate.
  - cbn. discriminate.
  - destruct s; [cbn; discriminate|]. intros _. unfold f_one.
    rewrite compare_pos_finite. destruct (e ?= -52) eqn:E; try discriminate.
    apply Z.compare_eq in E as ->.
    destruct (m ?= _)%positive eqn:E; try discriminate.
    by apply Pos.compare_eq in E as ->.
Qed.

(** ** True division of integers

    [f_div_Z n n] is [1.0], and a proper fraction of integers up to [2^53]
    stays below [1.0] after rounding: the quality gate's comparisons with
    [1.0] decide the exact ratios. *)

Lemma digits2_log2 p : Zpos (digits2_pos p) = Z.log2 (Zpos p) + 1.
Proof.
  induction p as [p IH|p IH|]; [| |done]; cbn [digits2_pos]; rewrite Pos2Z.inj_succ, IH.
  - rewrite Pos2Z.inj_xI, Z.log2_succ_double by lia. lia.
  - rewrite Pos2Z.inj_xO, Z.log2_double by lia. lia.
Qed.

Lemma digits_eq m d : 2 ^ (d - 1) <= m < 2 ^ d -> 1 <= d -> Zdigits2 m = d.
Proof.
  intros H Hd. assert (0 < 2 ^ (d - 1)) by (apply Z.pow_pos_nonneg; lia).
  destruct m as [|p|p]; try lia. cbn [Zdigits2]. rewrite digits2_log2.
  rewrite (Z.log2_unique (Zpos p) (d - 1)); [lia|lia|].
  split; [lia|]. replace (Z.succ (d - 1)) with d by lia. lia.
Qed.

Lemma fexp_normal x : -1021 <= x -> fexp 53 1024 x = x - 53.
Proof. intros H. unfold fexp, emin. lia. Qed.

Lemma shr_loc m l : loc_of_shr_record (shr_record_of_loc m l) = l /\ shr_m (shr_record_of_loc m l) = m.
Proof. by destruct l as [|[]]. Qed.

Lemma shr_fexp_same m e l d :
  2 ^ 52 <= m < 2 ^ 53 -> -1074 <= e -> d = 53 ->
  shr_fexp d 1024 m e l = (shr_record_of_loc m l, e).
Proof.
  intros Hm He ->. unfold shr_fexp. rewrite (digits_eq m 53) by (cbn; lia).
  rewrite fexp_normal by lia. replace (53 + e - 53 - e) with 0 by lia. done.
Qed.

Lemma shr_fexp_one m e l :
  2 ^ 53 <= m < 2 ^ 54 -> -1074 <= e ->
  shr_fexp 53 1024 m e l = (shr_1 (shr_record_of_loc m l), e + 1).
Proof.
  intros Hm He. unfold shr_fexp. rewrite (digits_eq m 54) by (cbn; lia).
  rewrite fexp_normal by lia. replace (54 + e - 53 - e) with 1 by lia. done.
Qed.

(** The second, normalising, half of a rounding. *)
Lemma round_finish m e :
  2 ^ 52 <= m <= 2 ^ 53 -> -1074 <= e <= 900 ->
  (let '(mrs'', e'') := shr_fexp 53 1024 m e loc_Exact in
   match shr_m mrs'' with
   | Z0 => S754_zero false
   | Zpos m => if e'' <=? 1024 - 53 then S754_finite false m e'' else S754_infinity false
   | _ => S754_nan
   end) = (if m =? 2 ^ 53 then S754_finite false 4503599627370496 (e + 1)
           else S754_finite false (Z.to_pos m) e).
Proof.
  intros Hm He. destruct (Z.eqb_spec m (2 ^ 53)) as [->|Hne].
  - rewrite shr_fexp_one by lia.
    change (shr_m (shr_1 (shr_record_of_loc (2 ^ 53) loc_Exact))) with (Zpos 4503599627370496).
    cbn iota. rewrite (proj2 (Z.leb_le _ _)) by lia. done.
  - rewrite shr_fexp_same by lia. rewrite (proj2 (shr_loc _ _)).
    destruct m as [|p|p]; try lia. rewrite (proj2 (Z.leb_le _ _)) by lia. done.
Qed.

Lemma round_up_bound m l : m <= round_nearest_even m l <= m + 1.
Proof. destruct l as [|[]]; cbn; try lia. destruct (Z.even m); lia. Qed.

Lemma shr_1_half m l (q := shr_m (shr_1 (shr_record_of_loc m l))) :
  0 <= m -> q = m / 2 /\ (m = 2 * q -> shr_r (shr_1 (shr_record_of_loc m l)) = false).
Proof.
  intros Hm. subst q.
  destruct m as [|[p|p|]|p]; [| | | |lia]; destruct l as [|[]];
    cbn [shr_record_of_loc shr_1 shr_m shr_r]; (split; [|done || lia]); zdiv.
Qed.

Lemma round_r_false mrs :
  shr_r mrs = false -> round_nearest_even (shr_m mrs) (loc_of_shr_record mrs) = shr_m mrs.
Proof. destruct mrs as [m r s]. cbn. intros ->. by destruct s. Qed.

(** A float in [[0, 1)]. *)
Definition is_fraction (x : float) : bool := f_le f_zero x && f_lt x f_one.

(** A float strictly between 0 and 1. *)
Definition is_proper_fraction (x : float) : bool := f_lt f_zero x && f_lt x f_one.
Lemma proper_fraction x : is_proper_fraction x = true -> is_fraction x = true.
Proof.
  unfold is_proper_fraction, is_fraction. intros [H ->]%andb_true_iff. rewrite andb_true_r.
  unfold f_lt, f_le, SFltb, SFleb in *. by destruct (SFcompare f_zero x) as [[]|].
Qed.
Lemma finite_fraction m e :
  f_lt (S754_finite false m e) f_one = true -> is_proper_fraction (S754_finite false m e) = true.
Proof. unfold is_proper_fraction. intros ->. done. Qed.

Lemma div_lt_one_53 q e l :
  2 ^ 52 <= q < 2 ^ 53 -> -1000 <= e <= -53 ->
  (e = -53 -> round_nearest_even q l < 2 ^ 53) ->
  is_proper_fraction (binary_round_aux 53 1024 false q e l) = true.
Proof.
  intros Hq He Hr. unfold binary_round_aux. rewrite shr_fexp_same by lia.
  pose proof (round_up_bound q l) as Hb. destruct (shr_loc q l) as [Hl Hm].
  cbv beta iota zeta. rewrite Hl, Hm, round_finish by lia.
  destruct (Z.eqb_spec (round_nearest_even q l) (2 ^ 53)) as [E|E]; apply finite_fraction;
    unfold f_lt, SFltb, f_one; rewrite compare_pos_finite.
  - assert (e <> -53) by (intros ?; lia).
    rewrite (proj2 (Z.compare_lt_iff (e + 1) (-52))) by lia. done.
  - rewrite (proj2 (Z.compare_lt_iff e (-52))) by lia. done.
Qed.

Lemma div_lt_one_54 q e l :
  2 ^ 53 <= q < 2 ^ 54 -> -1000 <= e <= -54 -> (e = -54 -> q <= 2 ^ 54 - 2) ->
  is_proper_fraction (binary_round_aux 53 1024 false q e l) = true.
Proof.
  intros Hq He Hr. unfold binary_round_aux. rewrite shr_fexp_one by lia.
  destruct (shr_1_half q l) as [Hh Hz]; [lia|].
  set (mrs := shr_1 (shr_record_of_loc q l)) in *.
  pose proof (round_up_bound (shr_m mrs) (loc_of_shr_record mrs)) as Hb.
  assert (2 ^ 52 <= shr_m mrs < 2 ^ 53 /\ 2 * shr_m mrs <= q <= 2 * shr_m mrs + 1) as [Hm Hqm] by zdiv.
  cbv beta iota zeta. rewrite round_finish by lia.
  destruct (Z.eqb_spec (round_nearest_even (shr_m mrs) (loc_of_shr_record mrs)) (2 ^ 53)) as [E|E];
    apply finite_fraction; unfold f_lt, SFltb, f_one; rewrite compare_pos_finite.
  - assert (e <> -54 \/ e = -54) as [Hne|Heq] by lia.
    + rewrite (proj2 (Z.compare_lt_iff (e + 1 + 1) (-52))) by lia. done.
    + rewrite round_r_false in E by (apply Hz; lia). lia.
  - rewrite (proj2 (Z.compare_lt_iff (e + 1) (-52))) by lia. done.
Qed.

Lemma pos_digits_bounds p (d := Zpos (digits2_pos p)) : 2 ^ (d - 1) <= Zpos p < 2 ^ d /\ 1 <= d.
Proof.
  subst d. rewrite digits2_log2. pose proof (Z.log2_nonneg (Zpos p)).
  pose proof (Z.log2_spec (Zpos p) eq_refl). replace (Z.log2 (Zpos p) + 1 - 1) with (Z.log2 (Zpos p)) by lia.
  replace (Z.log2 (Zpos p) + 1) with (Z.succ (Z.log2 (Zpos p))) by lia. lia.
Qed.

Lemma div_core p q (d1 := Zpos (digits2_pos p)) (d2 := Zpos (digits2_pos q)) (s := 53 + d2 - d1) :
  d1 <= d2 <= 60 ->
  SFdiv_core_binary 53 1024 (Zpos p) 0 (Zpos q) 0
  = (Zpos p * 2 ^ s / Zpos q, d1 - d2 - 53, new_location (Zpos q) ((Zpos p * 2 ^ s) mod Zpos q)).
Proof.
  intros Hd. unfold SFdiv_core_binary. cbn [Zdigits2]. fold d1 d2.
  assert (1 <= d1) by (subst d1; lia).
  rewrite fexp_normal by lia.
  replace (Z.min (d1 + 0 - (d2 + 0) - 53) (0 - 0)) with (d1 - d2 - 53) by lia.
  replace (0 - 0 - (d1 - d2 - 53)) with s by lia.
  destruct s as [|s'|s'] eqn:Es; try lia. rewrite Z.shiftl_mul_pow2 by lia.
  unfold Z.div, Z.modulo. by destruct (Z.div_eucl _ _).
Qed.

Lemma f_div_self p : f_div_Z (Zpos p) (Zpos p) = f_one.
Proof.
  cbn [f_div_Z]. unfold SFdiv. set (d := Zpos (digits2_pos p)).
  assert (SFdiv_core_binary 53 1024 (Zpos p) 0 (Zpos p) 0 = (2 ^ 53, -53, loc_Exact)) as ->.
  { unfold SFdiv_core_binary. cbn [Zdigits2]. fold d.
    replace (d + 0 - (d + 0)) with 0 by lia.
    replace (Z.min (fexp 53 1024 0) (0 - 0)) with (-53) by done.
    replace (0 - 0 - -53) with 53 by done. rewrite Z.shiftl_mul_pow2 by lia.
    pose proof (Z_div_mod (Zpos p * 2 ^ 53) (Zpos p) eq_refl) as Hdm.
    destruct (Z.div_eucl (Zpos p * 2 ^ 53) (Zpos p)) as [q r]. destruct Hdm as [Hq Hr].
    assert (q = 2 ^ 53) as -> by nia. assert (r = 0) as -> by lia.
    unfold new_location, new_location_even, new_location_odd. by destruct (Z.even _). }
  vm_compute. reflexivity.
Qed.

Lemma f_div_proper k n : 0 < k < n -> n <= 2 ^ 53 -> is_proper_fraction (f_div_Z k n) = true.
Proof.
  intros [H0 Hk] Hn. destruct k as [|p|p]; [lia| |lia]. destruct n as [|q|q]; try lia.
  cbn [f_div_Z]. unfold SFdiv. cbn [xorb].
  destruct (pos_digits_bounds p) as [Hp Hp1], (pos_digits_bounds q) as [Hq Hq1].
  set (d1 := Zpos (digits2_pos p)) in *. set (d2 := Zpos (digits2_pos q)) in *.
  assert (d1 <= d2). { apply Z.lt_succ_r, (Z.pow_lt_mono_r_iff 2); [lia..|].
    rewrite Z.pow_succ_r by lia. replace (2 ^ d1) with (2 * 2 ^ (d1 - 1)); [lia|].
    rewrite <- Z.pow_succ_r by lia. f_equal. lia. }
  assert (d2 <= 54). { assert (d2 - 1 < 54); [|lia]. apply (Z.pow_lt_mono_r_iff 2); [lia..|].
    assert (2 ^ 54 = 2 * 2 ^ 53) by done. lia. }
  rewrite div_core by (fold d1 d2; lia). fold d1 d2.
  set (s := 53 + d2 - d1). set (v := Zpos p * 2 ^ s).
  assert (Hs : 2 ^ d2 * 2 ^ 53 = 2 ^ d1 * 2 ^ s) by (rewrite <- !Z.pow_add_r by lia; f_equal; lia).
  assert (E1 : 2 ^ d1 = 2 * 2 ^ (d1 - 1)) by (rewrite <- Z.pow_succ_r by lia; f_equal; lia).
  assert (E2 : 2 ^ d2 = 2 * 2 ^ (d2 - 1)) by (rewrite <- Z.pow_succ_r by lia; f_equal; lia).
  assert (0 < 2 ^ s) by (apply Z.pow_pos_nonneg; lia).
  pose proof (Z.div_mod v (Zpos q)) as Hdm. pose proof (Z.mod_pos_bound v (Zpos q)) as Hr.
  set (Q := v / Zpos q) in *. set (r := v mod Zpos q) in *.
  assert (Hv1 : v < Zpos q * 2 ^ 54).
  { subst v. apply Z.lt_le_trans with (2 ^ d1 * 2 ^ s); [apply Z.mul_lt_mono_pos_r; lia|]. lia. }
  assert (Hv2 : Zpos q * 2 ^ 52 <= v).
  { subst v. apply Z.le_trans with (2 ^ (d1 - 1) * 2 ^ s); [lia | apply Z.mul_le_mono_nonneg_r; lia]. }
  assert (Hv3 : v <= (Zpos q - 1) * 2 ^ s) by (subst v; apply Z.mul_le_mono_nonneg_r; lia).
  clearbody v. clear Hs E1 E2 Hp Hq.
  assert (Hlo : 2 ^ 52 <= Q) by (apply Z.lt_succ_r, (Z.mul_lt_mono_pos_l (Zpos q)); lia).
  assert (Hhi : Q < 2 ^ 54) by (apply (Z.mul_lt_mono_pos_l (Zpos q)); lia).
  assert (d1 = d2 \/ d1 < d2) as [E|E] by lia.
  - assert (s = 53) as Es by lia. rewrite Es in *.
    assert (HQ : Q < 2 ^ 53) by (apply (Z.mul_lt_mono_pos_l (Zpos q)); lia).
    apply div_lt_one_53; [lia | lia |]. intros _.
    pose proof (round_up_bound Q (new_location (Zpos q) r)).
    assert (Q < 2 ^ 53 - 1 \/ Q = 2 ^ 53 - 1) as [?|HQ'] by lia; [lia|].
    rewrite HQ' in Hdm. assert (r = 0) as -> by lia.
    unfold new_location, new_location_even, new_location_odd.
    destruct (Z.even _); cbn; lia.
  - destruct (Z.lt_ge_cases Q (2 ^ 53)).
    + apply div_lt_one_53; lia.
    + apply div_lt_one_54; [lia|lia|]. intros He. assert (s = 54) as Es by lia. rewrite Es in *.
      apply Z.lt_succ_r. apply (Z.mul_lt_mono_pos_l (Zpos q)); lia.
Qed.

Lemma f_div_fraction k n : 0 <= k < n -> n <= 2 ^ 53 -> is_fraction (f_div_Z k n) = true.
Proof.
  intros [H0 Hk] Hn. assert (k = 0 \/ 0 < k) as [->|Hp] by lia; [done|]. by apply proper_fraction, f_div_proper.
Qed.
(** A ratio is positive exactly when its numerator is. *)
Lemma f_div_positive k n : 0 <= k <= n -> n <= 2 ^ 53 -> f_lt f_zero (f_div_Z k n) = true <-> 0 < k.
Proof.
  intros Hk Hn. split.
  - intros H. assert (k = 0 \/ 0 < k) as [->|?] by lia; [discriminate H|done].
  - intros Hp. assert (k < n \/ k = n) as [E| ->] by lia.
    + assert (is_proper_fraction (f_div_Z k n) = true) as [H _]%andb_true_iff by by apply f_div_proper. exact H.
    + destruct n as [|q|q]; try lia. rewrite f_div_self. reflexivity.
Qed.

Lemma fraction_unit x : is_fraction x = true -> is_unit_float x = true /\ f_lt x f_one = true.
Proof.
  unfold is_fraction, is_unit_float. intros [-> H]%andb_true_iff. split; [|done].
  unfold f_lt, f_le, SFltb, SFleb in *. by destruct (SFcompare x f_one) as [[]|].
Qed.

Lemma f_div_unit k n : 0 <= k <= n -> n <= 2 ^ 53 -> 0 < n -> is_unit_float (f_div_Z k n) = true.
Proof.
  intros Hk Hn Hp. assert (k < n \/ k = n) as [E| ->] by lia.
  - apply fraction_unit, f_div_fraction; lia.
  - destruct n as [|p|p]; try lia. rewrite f_div_self. reflexivity.
Qed.

(** The ratio [k / n] reaches [1.0] exactly when nothing is missing. *)
Lemma f_div_full k n : 0 <= k <= n -> n <= 2 ^ 53 -> 0 < n ->
  f_lt (f_div_Z k n) f_one = false <-> k = n.
Proof.
  intros Hk Hn Hp. split.
  - intros H. assert (k < n \/ k = n) as [E|E] by lia; [|done].
    assert (is_fraction (f_div_Z k n) = true) as E2 by (apply f_div_fraction; lia).
    apply fraction_unit in E2 as [_ E2]. congruence.
  - intros ->. destruct n as [|p|p]; try lia. rewrite f_div_self. reflexivity.
Qed.

Lemma unit_not_lt_one x : is_unit_float x = true -> f_lt x f_one = false <-> x = f_one.
Proof. intros H. split; [by apply f_le_antisym_one | intros ->; reflexivity]. Qed.

Lemma f_min_unit a b :
  is_unit_float a = true -> is_unit_float b = true -> is_unit_float (f_min a b) = true.
Proof. unfold f_min. by destruct (f_lt b a). Qed.

Lemma f_min_full a b : is_unit_float a = true -> is_unit_float b = true ->
  f_lt (f_min a b) f_one = false <-> a = f_one /\ b = f_one.
Proof.
  intros Ha Hb. unfold f_min. split.
  - destruct (f_lt b a) eqn:E; intros H.
    + apply f_le_antisym_one in H as ->; [|done]. apply andb_true_iff in Ha as [_ Ha].
      destruct (f_le_nan _ _ Ha) as [Hna _].
      rewrite (f_lt_not_le f_one a) in E by done. by rewrite Ha in E.
    + apply f_le_antisym_one in H as ->; [|done]. by apply f_le_antisym_one in E as ->.
  - intros [-> ->]. reflexivity.
Qed.

Lemma f_min_list_unit l d :
  is_unit_float d = true -> (forall x, x ∈ l -> is_unit_float x = true) ->
  is_unit_float (f_min_list d l) = true.
Proof.
  intros Hd. destruct l as [|x l]; [done|]. cbn. intros H.
  assert (Hx : is_unit_float x = true) by (apply H; left).
  assert (Hl : forall y, y ∈ l -> is_unit_float y = true) by (intros; apply H; by right).
  clear H. revert x Hx. induction l as [|y l IH]; intros x Hx; cbn; [done|].
  apply IH; [intros; apply Hl; by right|]. apply f_min_unit; [done|]. apply Hl. left.
Qed.

Lemma f_min_list_full x l d :
  (forall y, y ∈ x :: l -> is_unit_float y = true) ->
  f_lt (f_min_list d (x :: l)) f_one = false <-> (forall y, y ∈ x :: l -> y = f_one).
Proof.
  cbn. intros H.
  assert (Hx : is_unit_float x = true) by (apply H; left).
  assert (Hl : forall y, y ∈ l -> is_unit_float y = true) by (intros; apply H; by right).
  clear H. revert x Hx. induction l as [|y l IH]; intros x Hx; cbn.
  - rewrite unit_not_lt_one by done. split.
    + intros -> y Hy. by apply list_elem_of_singleton in Hy.
    + intros H. apply H. left.
  - assert (Hy : is_unit_float y = true) by (apply Hl; left).
    rewrite IH; [|intros; apply Hl; by right|by apply f_min_unit]. split.
    + intros H z Hz. assert (f_min x y = f_one) as E by (apply H; left).
      assert (f_lt (f_min x y) f_one = false) as E' by (rewrite E; reflexivity).
      apply f_min_full in E' as [-> ->]; [|done|done].
      apply elem_of_cons in Hz as [->|Hz]; [done|]. apply elem_of_cons in Hz as [->|Hz]; [done|].
      apply H. by right.
    + intros H z [->|Hz]%elem_of_cons.
      * rewrite (H x), (H y) by set_solver. reflexivity.
      * apply H. set_solver.
Qed.
