(* ===== verification/Domain.v ===== *)
(** The closed wire envelopes of [astrcontinuum/domain]: session identity,
    Journal events, Capsules, Snapshots and compaction Jobs, each a Record with
    the boolean test of its pydantic constraints and validators.  A constructor
    call [X(...)] succeeds exactly when [X_valid] holds ([construct]).

    Timestamps ([AwareDatetime]) are instants: microseconds since the epoch. *)
From S2P Require Import Prelude PyString PyFloat.
From Stdlib Require Import Ascii String.
Open Scope string_scope.
Open Scope list_scope.
Open Scope Z_scope.

(** ** Field types of [_base.py] *)

Definition NonEmptyStr (s : string) : bool := negb (is_empty s).
Definition PositiveInt (n : Z) : bool := 1 <=? n.
Definition NonNegativeInt (n : Z) : bool := 0 <=? n.
Definition UnitFloat (x : float) : bool := is_unit_float x.
Definition OptNonEmptyStr (s : option string) : bool :=
  match s with Some x => NonEmptyStr x | None => true end.

(** The exception a constructor raises. *)
Inductive model_error := ValidationError.

(** [X(...)] of a model class with validator [valid]. *)
Definition construct {A} (valid : A -> bool) (x : A) : result model_error A :=
  raise_if (negb (valid x)) ValidationError (Ok x).

(** [ensure_unique]: no value equals an earlier one. *)
Fixpoint unique_from {A} `{PyEq A} (seen values : list A) : bool :=
  match values with
  | [] => true
  | v :: rest => negb (py_in v seen) && unique_from (seen ++ [v]) rest
  end.
Definition ensure_unique {A} `{PyEq A} (values : list A) : bool := unique_from [] values.

(** ** Session identity, [identity.py] *)

Record SessionKey := {
  sk_platform_instance_id : string;
  sk_message_type : string;
  sk_session_id : string;
  sk_group_id : option string;
  sk_user_id : string;
  sk_conversation_id : string;
  sk_persona_id : option string;
}.
#[export] Instance SessionKey_eq_dec : EqDecision SessionKey.
Proof. solve_decision. Defined.
#[export] Instance SessionKey_py_eq : PyEq SessionKey := eqb_of.

Definition SessionKey_valid (k : SessionKey) : bool :=
  NonEmptyStr (sk_platform_instance_id k) && NonEmptyStr (sk_message_type k)
  && NonEmptyStr (sk_session_id k) && OptNonEmptyStr (sk_group_id k)
  && NonEmptyStr (sk_user_id k) && NonEmptyStr (sk_conversation_id k)
  && OptNonEmptyStr (sk_persona_id k).

(** *** [json.dumps(..., ensure_ascii=False)] of a string *)

Definition hex_digit (n : N) : ascii :=
  ascii_of_N (if (n <? 10)%N then 48 + n else 87 + n)%N.
Definition quote : ascii := "034"%char.
Definition backslash : ascii := "092"%char.
Definition json_escape (c : ascii) : list ascii :=
  let n := N_of_ascii c in
  if Ascii.eqb c quote then [backslash; quote]
  else if Ascii.eqb c backslash then [backslash; backslash]
  else if (n =? 8)%N then [backslash; "b"%char]
  else if (n =? 12)%N then [backslash; "f"%char]
  else if (n =? 10)%N then [backslash; "n"%char]
  else if (n =? 13)%N then [backslash; "r"%char]
  else if (n =? 9)%N then [backslash; "t"%char]
  else if (n <? 32)%N
       then [backslash; "u"%char; "0"%char; "0"%char; hex_digit (n / 16); hex_digit (n mod 16)]
       else [c].
Definition json_chars (s : string) : list ascii :=
  quote :: flat_map json_escape (list_ascii_of_string s) ++ [quote].
Definition json_opt_chars (s : option string) : list ascii :=
  match s with Some x => json_chars x | None => list_ascii_of_string "null" end.
(** ["key":value] *)
Definition json_field (key : string) (value : list ascii) : list ascii :=
  json_chars key ++ (":"%char :: value).

(** The seven fields in their fixed order, with compact separators. *)
Definition canonical_json_chars (k : SessionKey) : list ascii :=
  ("{"%char :: json_field "platform_instance_id" (json_chars (sk_platform_instance_id k)))
  ++ (","%char :: json_field "message_type" (json_chars (sk_message_type k)))
  ++ (","%char :: json_field "session_id" (json_chars (sk_session_id k)))
  ++ (","%char :: json_field "group_id" (json_opt_chars (sk_group_id k)))
  ++ (","%char :: json_field "user_id" (json_chars (sk_user_id k)))
  ++ (","%char :: json_field "conversation_id" (json_chars (sk_conversation_id k)))
  ++ (","%char :: json_field "persona_id" (json_opt_chars (sk_persona_id k)))
  ++ ["}"%char].
Definition canonical_json (k : SessionKey) : string :=
  string_of_list_ascii (canonical_json_chars k).

(** [hashlib.sha256(x.encode("utf-8")).hexdigest()]. *)
Class Sha256 := sha256_hexdigest : string -> string.

Definition session_key_hash `{Sha256} (k : SessionKey) : string :=
  sha256_hexdigest (canonical_json k).

(** ** Journal events, [events.py] *)

Inductive EventType := USER_MESSAGE | ASSISTANT_MESSAGE | TOOL_CALL | TOOL_RESULT.
Inductive EventRole := ROLE_USER | ROLE_ASSISTANT | ROLE_TOOL.
(** [event_type.value], [role.value] *)
Definition event_type_value (t : EventType) : string :=
  match t with
  | USER_MESSAGE => "USER_MESSAGE" | ASSISTANT_MESSAGE => "ASSISTANT_MESSAGE" | TOOL_CALL => "TOOL_CALL" | TOOL_RESULT => "TOOL_RESULT"
  end.
Definition event_role_value (r : EventRole) : string :=
  match r with ROLE_USER => "USER" | ROLE_ASSISTANT => "ASSISTANT" | ROLE_TOOL => "TOOL" end.
Inductive SourceHook := ON_LLM_REQUEST | ON_AGENT_DONE | ON_USING_LLM_TOOL | ON_LLM_TOOL_RESPOND.
#[export] Instance EventType_eq_dec : EqDecision EventType.
Proof. solve_decision. Defined.
#[export] Instance EventRole_eq_dec : EqDecision EventRole.
Proof. solve_decision. Defined.
#[export] Instance SourceHook_eq_dec : EqDecision SourceHook.
Proof. solve_decision. Defined.

Record EventEnvelope := {
  ev_event_id : string;
  ev_session_key : SessionKey;
  ev_sequence : Z;
  ev_event_type : EventType;
  ev_role : EventRole;
  ev_content : string;
  ev_source_hook : SourceHook;
  ev_idempotency_key : string;
  ev_token_count : Z;
  ev_created_at : Z;
}.
#[export] Instance EventEnvelope_eq_dec : EqDecision EventEnvelope.
Proof. solve_decision. Defined.
#[export] Instance EventEnvelope_py_eq : PyEq EventEnvelope := eqb_of.

(** [EventEnvelope._MAPPINGS] *)
Definition event_mapping (t : EventType) : EventRole * SourceHook :=
  match t with
  | USER_MESSAGE => (ROLE_USER, ON_LLM_REQUEST)
  | ASSISTANT_MESSAGE => (ROLE_ASSISTANT, ON_AGENT_DONE)
  | TOOL_CALL => (ROLE_TOOL, ON_USING_LLM_TOOL)
  | TOOL_RESULT => (ROLE_TOOL, ON_LLM_TOOL_RESPOND)
  end.

Definition validate_authoritative_mapping (e : EventEnvelope) : bool :=
  let '(expected_role, expected_hook) := event_mapping (ev_event_type e) in
  negb (negb (eqb_of (ev_role e) expected_role)
        || negb (eqb_of (ev_source_hook e) expected_hook)).

Definition EventEnvelope_valid (e : EventEnvelope) : bool :=
  NonEmptyStr (ev_event_id e) && SessionKey_valid (ev_session_key e)
  && PositiveInt (ev_sequence e) && NonEmptyStr (ev_idempotency_key e)
  && NonNegativeInt (ev_token_count e) && validate_authoritative_mapping e.

Definition EventEnvelope_create (event_id : string) (session_key : SessionKey) (sequence : Z)
    (event_type : EventType) (content : string) (idempotency_key : string)
    (token_count : Z) (created_at : Z) : result model_error EventEnvelope :=
  let '(role, source_hook) := event_mapping event_type in
  construct EventEnvelope_valid
    {| ev_event_id := event_id; ev_session_key := session_key; ev_sequence := sequence;
       ev_event_type := event_type; ev_role := role; ev_content := content;
       ev_source_hook := source_hook; ev_idempotency_key := idempotency_key;
       ev_token_count := token_count; ev_created_at := created_at |}.

(** ** Capsules, [capsules.py] *)

Inductive CapsuleLevel := LEVEL_MICRO | LEVEL_EPISODE | LEVEL_TASK | LEVEL_GLOBAL.
Inductive SemanticStatus := SEM_ACTIVE | SEM_SUPERSEDED | SEM_RETRACTED | SEM_UNCERTAIN.
Inductive AnchorStatus := ANCHOR_ACTIVE | ANCHOR_SUPERSEDED | ANCHOR_RETRACTED.
Inductive AnchorType :=
| ANCHOR_NAME | ANCHOR_NUMBER | ANCHOR_DATE | ANCHOR_PATH | ANCHOR_URL | ANCHOR_CODE
| ANCHOR_FORMULA | ANCHOR_PROMPT | ANCHOR_CONSTRAINT | ANCHOR_COMMITMENT | ANCHOR_MANUAL
| ANCHOR_OTHER.
#[export] Instance CapsuleLevel_eq_dec : EqDecision CapsuleLevel.
Proof. solve_decision. Defined.
#[export] Instance SemanticStatus_eq_dec : EqDecision SemanticStatus.
Proof. solve_decision. Defined.
#[export] Instance AnchorStatus_eq_dec : EqDecision AnchorStatus.
Proof. solve_decision. Defined.
#[export] Instance AnchorType_eq_dec : EqDecision AnchorType.
Proof. solve_decision. Defined.

Record CapsuleClaim := {
  cl_claim_id : string;
  cl_text : string;
  cl_status : SemanticStatus;
  cl_confidence : float;
  cl_source_event_ids : list string;
}.
#[export] Instance CapsuleClaim_py_eq : PyEq CapsuleClaim := fun a b =>
  (cl_claim_id a ==? cl_claim_id b) && (cl_text a ==? cl_text b)
  && eqb_of (cl_status a) (cl_status b) && (cl_confidence a ==? cl_confidence b)
  && (cl_source_event_ids a ==? cl_source_event_ids b).

(** [tuple[NonEmptyStr, ...] = Field(min_length=1)] with unique items. *)
Definition source_ids_valid (l : list string) : bool :=
  (1 <=? len l) && forallb NonEmptyStr l && ensure_unique l.

Definition CapsuleClaim_valid (c : CapsuleClaim) : bool :=
  NonEmptyStr (cl_claim_id c) && NonEmptyStr (cl_text c) && UnitFloat (cl_confidence c)
  && source_ids_valid (cl_source_event_ids c).

Record Decision_ := {
  de_decision_id : string;
  de_text : string;
  de_status : SemanticStatus;
  de_confidence : float;
  de_source_event_ids : list string;
  de_rationale : string;
  de_alternatives : list string;
  de_supersedes : list string;
  de_rejected_because : string;
}.
#[export] Instance Decision_py_eq : PyEq Decision_ := fun a b =>
  (de_decision_id a ==? de_decision_id b) && (de_text a ==? de_text b)
  && eqb_of (de_status a) (de_status b) && (de_confidence a ==? de_confidence b)
  && (de_source_event_ids a ==? de_source_event_ids b)
  && (de_rationale a ==? de_rationale b) && (de_alternatives a ==? de_alternatives b)
  && (de_supersedes a ==? de_supersedes b)
  && (de_rejected_because a ==? de_rejected_because b).

Definition Decision_valid (d : Decision_) : bool :=
  NonEmptyStr (de_decision_id d) && NonEmptyStr (de_text d) && UnitFloat (de_confidence d)
  && source_ids_valid (de_source_event_ids d)
  && ensure_unique (de_alternatives d) && ensure_unique (de_supersedes d).

Record Entity := {
  en_entity_id : string;
  en_kind : string;
  en_canonical_name : string;
  en_aliases : list string;
  en_source_event_ids : list string;
}.
#[export] Instance Entity_eq_dec : EqDecision Entity.
Proof. solve_decision. Defined.
#[export] Instance Entity_py_eq : PyEq Entity := eqb_of.
Definition Entity_valid (e : Entity) : bool :=
  NonEmptyStr (en_entity_id e) && NonEmptyStr (en_kind e) && NonEmptyStr (en_canonical_name e)
  && ensure_unique (en_aliases e) && source_ids_valid (en_source_event_ids e).

Record CapsuleAnchor := {
  an_anchor_id : string;
  an_anchor_type : AnchorType;
  an_exact_text : string;
  an_source_event_ids : list string;
  an_status : AnchorStatus;
  an_importance : float;
}.
#[export] Instance CapsuleAnchor_py_eq : PyEq CapsuleAnchor := fun a b =>
  (an_anchor_id a ==? an_anchor_id b) && eqb_of (an_anchor_type a) (an_anchor_type b)
  && (an_exact_text a ==? an_exact_text b)
  && (an_source_event_ids a ==? an_source_event_ids b)
  && eqb_of (an_status a) (an_status b) && (an_importance a ==? an_importance b).
Definition CapsuleAnchor_valid (a : CapsuleAnchor) : bool :=
  NonEmptyStr (an_anchor_id a) && NonEmptyStr (an_exact_text a)
  && source_ids_valid (an_source_event_ids a) && UnitFloat (an_importance a).

Record Dependency := {
  dp_dependency_id : string;
  dp_kind : string;
  dp_target_id : string;
  dp_source_event_ids : list string;
}.
#[export] Instance Dependency_eq_dec : EqDecision Dependency.
Proof. solve_decision. Defined.
#[export] Instance Dependency_py_eq : PyEq Dependency := eqb_of.
Definition Dependency_valid (d : Dependency) : bool :=
  NonEmptyStr (dp_dependency_id d) && NonEmptyStr (dp_kind d) && NonEmptyStr (dp_target_id d)
  && source_ids_valid (dp_source_event_ids d).

Record CapsuleQuality := {
  q_mechanical_passed : bool;
  q_source_coverage : float;
  q_anchor_recall : float;
  q_unsupported_critical_claims : Z;
  q_coverage_gap : Z;
}.
Definition CapsuleQuality_valid (q : CapsuleQuality) : bool :=
  UnitFloat (q_source_coverage q) && UnitFloat (q_anchor_recall q)
  && NonNegativeInt (q_unsupported_critical_claims q) && NonNegativeInt (q_coverage_gap q).

Record ContextCapsuleEnvelope := {
  cap_capsule_id : string;
  cap_schema_version : string;
  cap_level : CapsuleLevel;
  cap_session_key : SessionKey;
  cap_covered_event_start : Z;
  cap_covered_event_end : Z;
  cap_source_event_ids : list string;
  cap_goals : list CapsuleClaim;
  cap_constraints : list CapsuleClaim;
  cap_decisions : list Decision_;
  cap_progress : list CapsuleClaim;
  cap_open_loops : list CapsuleClaim;
  cap_preferences : list CapsuleClaim;
  cap_entities : list Entity;
  cap_emotional_context : list CapsuleClaim;
  cap_exact_anchors : list CapsuleAnchor;
  cap_dependencies : list Dependency;
  cap_narrative_summary : string;
  cap_token_cost : Z;
  cap_quality : CapsuleQuality;
  cap_created_at : Z;
}.

Definition capsule_items_valid (c : ContextCapsuleEnvelope) : bool :=
  forallb CapsuleClaim_valid (cap_goals c) && forallb CapsuleClaim_valid (cap_constraints c)
  && forallb Decision_valid (cap_decisions c) && forallb CapsuleClaim_valid (cap_progress c)
  && forallb CapsuleClaim_valid (cap_open_loops c)
  && forallb CapsuleClaim_valid (cap_preferences c) && forallb Entity_valid (cap_entities c)
  && forallb CapsuleClaim_valid (cap_emotional_context c)
  && forallb CapsuleAnchor_valid (cap_exact_anchors c)
  && forallb Dependency_valid (cap_dependencies c).

(** [validate_unique_items] on the eleven list fields. *)
Definition capsule_lists_unique (c : ContextCapsuleEnvelope) : bool :=
  ensure_unique (cap_goals c) && ensure_unique (cap_constraints c)
  && ensure_unique (cap_decisions c) && ensure_unique (cap_progress c)
  && ensure_unique (cap_open_loops c) && ensure_unique (cap_preferences c)
  && ensure_unique (cap_entities c) && ensure_unique (cap_emotional_context c)
  && ensure_unique (cap_exact_anchors c) && ensure_unique (cap_dependencies c).

Definition ContextCapsuleEnvelope_valid (c : ContextCapsuleEnvelope) : bool :=
  NonEmptyStr (cap_capsule_id c) && NonEmptyStr (cap_schema_version c)
  && SessionKey_valid (cap_session_key c)
  && PositiveInt (cap_covered_event_start c) && PositiveInt (cap_covered_event_end c)
  && source_ids_valid (cap_source_event_ids c)
  && capsule_items_valid c && capsule_lists_unique c
  && NonEmptyStr (cap_narrative_summary c) && NonNegativeInt (cap_token_cost c)
  && CapsuleQuality_valid (cap_quality c)
  && negb (cap_covered_event_end c <? cap_covered_event_start c).

(** ** Snapshots, [snapshots.py] *)

Inductive SemanticAuditStatus := AUDIT_NOT_RUN | AUDIT_PASSED | AUDIT_FAILED.
Inductive SnapshotState := CANDIDATE | SNAPSHOT_COMMITTED.
#[export] Instance SemanticAuditStatus_eq_dec : EqDecision SemanticAuditStatus.
Proof. solve_decision. Defined.
#[export] Instance SnapshotState_eq_dec : EqDecision SnapshotState.
Proof. solve_decision. Defined.

Record SnapshotAuditOutcome := {
  ao_mechanical_passed : bool;
  ao_semantic_status : SemanticAuditStatus;
  ao_failure_codes : list string;
}.
#[export] Instance SnapshotAuditOutcome_eq_dec : EqDecision SnapshotAuditOutcome.
Proof. solve_decision. Defined.
Definition SnapshotAuditOutcome_valid (a : SnapshotAuditOutcome) : bool :=
  forallb NonEmptyStr (ao_failure_codes a) && ensure_unique (ao_failure_codes a).

Record SnapshotEnvelope := {
  sn_snapshot_id : string;
  sn_session_key : SessionKey;
  sn_base_snapshot_id : option string;
  sn_covered_event_end : Z;
  sn_source_high_water_mark : Z;
  sn_capsule_ids : list string;
  sn_exact_anchor_ids : list string;
  sn_rendered_context : string;
  sn_token_cost : Z;
  sn_audit_outcome : SnapshotAuditOutcome;
  sn_state : SnapshotState;
  sn_created_at : Z;
  sn_committed_at : option Z;
}.
#[export] Instance SnapshotEnvelope_eq_dec : EqDecision SnapshotEnvelope.
Proof. solve_decision. Defined.

(** [SnapshotEnvelope.validate_state] *)
Definition validate_state (s : SnapshotEnvelope) : bool :=
  match sn_state s with
  | SNAPSHOT_COMMITTED =>
      negb (eqb_of (sn_committed_at s) None)
      && ao_mechanical_passed (sn_audit_outcome s)
      && negb (eqb_of (ao_semantic_status (sn_audit_outcome s)) AUDIT_FAILED)
      && eqb_of (ao_failure_codes (sn_audit_outcome s)) []
  | CANDIDATE => eqb_of (sn_committed_at s) None
  end.

Definition SnapshotEnvelope_valid (s : SnapshotEnvelope) : bool :=
  NonEmptyStr (sn_snapshot_id s) && SessionKey_valid (sn_session_key s)
  && OptNonEmptyStr (sn_base_snapshot_id s)
  && PositiveInt (sn_covered_event_end s) && PositiveInt (sn_source_high_water_mark s)
  && (1 <=? len (sn_capsule_ids s)) && forallb NonEmptyStr (sn_capsule_ids s)
  && forallb NonEmptyStr (sn_exact_anchor_ids s)
  && NonEmptyStr (sn_rendered_context s) && NonNegativeInt (sn_token_cost s)
  && SnapshotAuditOutcome_valid (sn_audit_outcome s)
  && ensure_unique (sn_capsule_ids s) && ensure_unique (sn_exact_anchor_ids s)
  && validate_state s.

(** ** Compaction Jobs, [jobs.py] *)

Inductive CompactionJobState :=
| PENDING | LEASED | COMPILING | AUDITING | READY_TO_COMMIT | RETRY_WAIT
| JOB_COMMITTED | SUPERSEDED | FAILED | CANCELLED.
#[export] Instance CompactionJobState_eq_dec : EqDecision CompactionJobState.
Proof. solve_decision. Defined.

(** [WORKING_STATES] and [CANDIDATE_STATES]. *)
Definition working (s : CompactionJobState) : bool :=
  match s with LEASED | COMPILING | AUDITING | READY_TO_COMMIT => true | _ => false end.
Definition candidate_bearing (s : CompactionJobState) : bool :=
  match s with READY_TO_COMMIT | JOB_COMMITTED | SUPERSEDED => true | _ => false end.

Record CompactionJobEnvelope := {
  job_job_id : string;
  job_session_key : SessionKey;
  job_state : CompactionJobState;
  job_target_high_water_mark : Z;
  job_intent_target_high_water_mark : Z;
  job_base_snapshot_id : option string;
  job_base_pointer_version : Z;
  job_candidate_snapshot_id : option string;
  job_attempt_count : Z;
  job_lease_owner : option string;
  job_lease_epoch : Z;
  job_lease_expires_at : option Z;
  job_next_retry_at : option Z;
  job_error_stage : option string;
  job_error_code : option string;
  job_error_message : option string;
  job_created_at : Z;
  job_updated_at : Z;
  job_committed_at : option Z;
}.

Definition is_none {A} (o : option A) : bool := match o with None => true | _ => false end.
Definition is_some {A} (o : option A) : bool := negb (is_none o).

(** The conditions of [CompactionJobEnvelope.validate_conditionals] in its
    order, on the columns they mention. *)
Definition job_conditionals (state : CompactionJobState) (base_snapshot_id : option string)
    (base_pointer_version : Z) (candidate_snapshot_id lease_owner : option string)
    (lease_epoch : Z) (lease_expires_at next_retry_at : option Z)
    (error_stage error_code error_message : option string) (committed_at : option Z) : bool :=
  let errors := [error_stage; error_code; error_message] in
  negb (existsb is_none errors && existsb is_some errors)
  && (if is_none base_snapshot_id then base_pointer_version =? 0
      else negb (base_pointer_version <? 1))
  && (if working state
      then negb (is_none lease_owner || (lease_epoch <? 1) || is_none lease_expires_at)
      else negb (is_some lease_owner || is_some lease_expires_at))
  && (if candidate_bearing state then is_some candidate_snapshot_id
      else is_none candidate_snapshot_id)
  && negb ((eqb_of state RETRY_WAIT || eqb_of state FAILED) && existsb is_none errors)
  && (if eqb_of state RETRY_WAIT then is_some next_retry_at else is_none next_retry_at)
  && (if eqb_of state JOB_COMMITTED then is_some committed_at else is_none committed_at).

Definition validate_conditionals (j : CompactionJobEnvelope) : bool :=
  job_conditionals (job_state j) (job_base_snapshot_id j) (job_base_pointer_version j)
    (job_candidate_snapshot_id j) (job_lease_owner j) (job_lease_epoch j)
    (job_lease_expires_at j) (job_next_retry_at j) (job_error_stage j) (job_error_code j)
    (job_error_message j) (job_committed_at j).

Definition CompactionJobEnvelope_valid (j : CompactionJobEnvelope) : bool :=
  NonEmptyStr (job_job_id j) && SessionKey_valid (job_session_key j)
  && PositiveInt (job_target_high_water_mark j)
  && PositiveInt (job_intent_target_high_water_mark j)
  && OptNonEmptyStr (job_base_snapshot_id j) && NonNegativeInt (job_base_pointer_version j)
  && OptNonEmptyStr (job_candidate_snapshot_id j) && NonNegativeInt (job_attempt_count j)
  && OptNonEmptyStr (job_lease_owner j) && NonNegativeInt (job_lease_epoch j)
  && OptNonEmptyStr (job_error_stage j) && OptNonEmptyStr (job_error_code j)
  && OptNonEmptyStr (job_error_message j) && validate_conditionals j.

(** ** Lemmas *)

Lemma construct_ok {A} (valid : A -> bool) x y :
  construct valid x = Ok y <-> valid x = true /\ x = y.
Proof.
  unfold construct. rewrite raise_if_ok. rewrite negb_false_iff.
  split; [intros [? [= ->]]; done | intros [? ->]; done].
Qed.

Lemma py_in_spec {A} `{PyEqLeibniz A} (x : A) l : py_in x l = true <-> x ∈ l.
Proof.
  unfold py_in. rewrite existsb_true_iff. split.
  - intros (y & Hy & E). apply py_eq_leibniz in E. by subst.
  - intros Hx. exists x. split; [done|]. by apply py_eq_leibniz.
Qed.

Lemma unique_from_spec {A} `{PyEqLeibniz A} (seen values : list A) :
  unique_from seen values = true <-> NoDup values /\ (forall x, x ∈ values -> x ∉ seen).
Proof.
  revert seen. induction values as [|v rest IH]; intros seen; cbn.
  - split; [|done]. intros _. split; [constructor|]. intros x Hx. by apply elem_of_nil in Hx.
  - rewrite andb_true_iff, negb_true_iff, IH, NoDup_cons.
    rewrite <- not_true_iff_false, py_in_spec. split.
    + intros [Hv [Hnd Hout]]. split; [split; [|done]|].
      * intros Hin. apply (Hout v Hin). set_solver.
      * intros x [->|Hx]%elem_of_cons; [done|]. intros Hs. apply (Hout x Hx). set_solver.
    + intros [[Hv Hnd] Hout]. split; [apply Hout; set_solver|]. split; [done|].
      intros x Hx Hs%elem_of_app. destruct Hs as [Hs|Hs].
      * apply (Hout x); [set_solver|done].
      * apply list_elem_of_singleton in Hs. by subst.
Qed.

Lemma ensure_unique_spec {A} `{PyEqLeibniz A} (l : list A) : ensure_unique l = true <-> NoDup l.
Proof.
  unfold ensure_unique. rewrite unique_from_spec. split; [tauto|].
  intros ?. split; [done|]. intros x _. set_solver.
Qed.

Lemma EventEnvelope_create_ok event_id sk seq ty content ik tc ca e :
  EventEnvelope_create event_id sk seq ty content ik tc ca = Ok e ->
  EventEnvelope_valid e = true /\
  e = {| ev_event_id := event_id; ev_session_key := sk; ev_sequence := seq;
         ev_event_type := ty; ev_role := (event_mapping ty).1; ev_content := content;
         ev_source_hook := (event_mapping ty).2; ev_idempotency_key := ik;
         ev_token_count := tc; ev_created_at := ca |}.
Proof.
  unfold EventEnvelope_create. destruct (event_mapping ty) as [r h] eqn:E.
  intros [Hv <-]%construct_ok. done.
Qed.

(** *** The canonical identity is injective *)

Definition all_ascii : list ascii := map ascii_of_nat (seq 0 256).
Lemma elem_of_all_ascii c : List.In c all_ascii.
Proof.
  apply in_map_iff. exists (nat_of_ascii c). split; [apply ascii_nat_embedding|].
  apply in_seq. pose proof (nat_ascii_bounded c). lia.
Qed.

Fixpoint is_prefix (l m : list ascii) : bool :=
  match l, m with
  | [], _ => true
  | x :: l', y :: m' => Ascii.eqb x y && is_prefix l' m'
  | _, [] => false
  end.

Lemma app_prefix l m x y : l ++ x = m ++ y -> is_prefix l m = true \/ is_prefix m l = true.
Proof.
  revert m. induction l as [|a l IH]; intros [|b m] H; cbn; auto.
  injection H as -> H. rewrite Ascii.eqb_refl. cbn. by apply IH.
Qed.

(** No escape sequence is a prefix of another, and none starts with a quote. *)
Lemma json_escape_prefix_free a b :
  (is_prefix (json_escape a) (json_escape b) = true -> a = b)
  /\ is_prefix [quote] (json_escape b) = false /\ is_prefix (json_escape b) [quote] = false.
Proof.
  assert (H : forallb (fun a => forallb (fun b =>
      implb (is_prefix (json_escape a) (json_escape b)) (Ascii.eqb a b)
      && negb (is_prefix [quote] (json_escape b))
      && negb (is_prefix (json_escape b) [quote])) all_ascii) all_ascii = true)
    by (vm_compute; reflexivity).
  rewrite forallb_forall in H. specialize (H a (elem_of_all_ascii a)).
  rewrite forallb_forall in H. specialize (H b (elem_of_all_ascii b)).
  bool_hyps. split; [|done]. intros Hp. rewrite Hp in H. by apply Ascii.eqb_eq.
Qed.

Lemma json_body_inj s t r1 r2 :
  flat_map json_escape s ++ quote :: r1 = flat_map json_escape t ++ quote :: r2 ->
  s = t /\ r1 = r2.
Proof.
  revert t. induction s as [|a s IH]; intros [|b t]; cbn [flat_map].
  - cbn. intros [= ->]. done.
  - rewrite <- app_assoc. intros H. exfalso.
    destruct (json_escape_prefix_free b b) as (_ & H1 & H2).
    destruct (app_prefix [quote] (json_escape b) r1 _ H); congruence.
  - rewrite <- app_assoc. intros H. exfalso.
    destruct (json_escape_prefix_free a a) as (_ & H1 & H2). symmetry in H.
    destruct (app_prefix [quote] (json_escape a) r2 _ H); congruence.
  - rewrite <- !app_assoc. intros H.
    assert (a = b) as ->.
    { destruct (app_prefix _ _ _ _ H) as [Hp|Hp]; [|symmetry];
        by apply (proj1 (json_escape_prefix_free _ _)). }
    apply app_inv_head in H. destruct (IH _ H) as [-> ->]. done.
Qed.

Lemma json_chars_inj s t r1 r2 : json_chars s ++ r1 = json_chars t ++ r2 -> s = t /\ r1 = r2.
Proof.
  unfold json_chars. cbn [app]. intros [= H]. rewrite <- !app_assoc in H.
  apply json_body_inj in H as [H ->]. split; [|done].
  rewrite <- (string_of_list_ascii_of_string s), <- (string_of_list_ascii_of_string t). by rewrite H.
Qed.

Lemma json_opt_chars_inj s t r1 r2 :
  json_opt_chars s ++ r1 = json_opt_chars t ++ r2 -> s = t /\ r1 = r2.
Proof.
  destruct s as [s|], t as [t|]; cbn [json_opt_chars].
  - intros [-> ->]%json_chars_inj. done.
  - unfold json_chars. cbn. discriminate.
  - unfold json_chars. cbn. discriminate.
  - intros H%app_inv_head. done.
Qed.

(** The fields of an encoding can be read off one after the other. *)
Lemma json_field_inj {V} (enc : V -> list ascii) sep key v w r1 r2 :
  (forall v w r1 r2, enc v ++ r1 = enc w ++ r2 -> v = w /\ r1 = r2) ->
  (sep :: json_field key (enc v)) ++ r1 = (sep :: json_field key (enc w)) ++ r2 ->
  v = w /\ r1 = r2.
Proof.
  intros Henc. unfold json_field. cbn [app]. intros [= H].
  rewrite <- !app_assoc in H. apply app_inv_head in H. cbn [app] in H.
  injection H as H. by apply Henc.
Qed.

Lemma canonical_json_chars_inj k1 k2 : canonical_json_chars k1 = canonical_json_chars k2 -> k1 = k2.
Proof.
  unfold canonical_json_chars. intros H.
  apply (json_field_inj json_chars) in H as [E1 H]; [|apply json_chars_inj].
  apply (json_field_inj json_chars) in H as [E2 H]; [|apply json_chars_inj].
  apply (json_field_inj json_chars) in H as [E3 H]; [|apply json_chars_inj].
  apply (json_field_inj json_opt_chars) in H as [E4 H]; [|apply json_opt_chars_inj].
  apply (json_field_inj json_chars) in H as [E5 H]; [|apply json_chars_inj].
  apply (json_field_inj json_chars) in H as [E6 H]; [|apply json_chars_inj].
  apply (json_field_inj json_opt_chars) in H as [E7 _]; [|apply json_opt_chars_inj].
  destruct k1, k2; cbn in *; congruence.
Qed.

Lemma canonical_json_inj (k1 k2 : SessionKey) :
  canonical_json k1 = canonical_json k2 -> k1 = k2.
Proof.
  unfold canonical_json. intros H. apply canonical_json_chars_inj.
  rewrite <- (list_ascii_of_string_of_list_ascii (canonical_json_chars k1)), H.
  by rewrite list_ascii_of_string_of_list_ascii.
Qed.

(** Distinct session identities have distinct canonical JSON: the text
    whose SHA-256 digest keys every durable table determines all seven fields,
    whatever quotes, separators or control characters they hold. *)
Theorem canonical_json_injective (k1 k2 : SessionKey) :
  k1 <> k2 -> canonical_json k1 <> canonical_json k2.
Proof. intros Hne H. by apply Hne, canonical_json_inj. Qed.

Definition example_key : SessionKey :=
  {| sk_platform_instance_id := "aiocqhttp"; sk_message_type := "group";
     sk_session_id := "s,1"; sk_group_id := Some "null"; sk_user_id := "u";
     sk_conversation_id := "c"; sk_persona_id := None |}.
(** The same key with the JSON [null] in place of the text ["null"]. *)
Definition example_key' : SessionKey :=
  {| sk_platform_instance_id := "aiocqhttp"; sk_message_type := "group";
     sk_session_id := "s,1"; sk_group_id := None; sk_user_id := "u";
     sk_conversation_id := "c"; sk_persona_id := None |}.

Lemma canonical_json_injective_witness :
  canonical_json example_key <> canonical_json example_key'.
Proof. apply (canonical_json_injective example_key example_key'). discriminate. Defined.

(** *** Concrete envelopes, shared by the witnesses of the development *)

Definition example_event (n : Z) : EventEnvelope :=
  {| ev_event_id := "event-" +:+ show_Z n; ev_session_key := example_key; ev_sequence := n;
     ev_event_type := USER_MESSAGE; ev_role := ROLE_USER; ev_content := "hello";
     ev_source_hook := ON_LLM_REQUEST; ev_idempotency_key := "key-" +:+ show_Z n;
     ev_token_count := 1; ev_created_at := 0 |}.

Definition example_quality : CapsuleQuality :=
  {| q_mechanical_passed := true; q_source_coverage := f_one; q_anchor_recall := f_one;
     q_unsupported_critical_claims := 0; q_coverage_gap := 0 |}.
Definition example_anchor : CapsuleAnchor :=
  {| an_anchor_id := "anchor-1"; an_anchor_type := ANCHOR_PATH; an_exact_text := "/srv/data";
     an_source_event_ids := ["event-1"]; an_status := ANCHOR_ACTIVE; an_importance := f_one |}.
Definition example_capsule (id : string) (last : Z) : ContextCapsuleEnvelope :=
  {| cap_capsule_id := id; cap_schema_version := "1"; cap_level := LEVEL_MICRO;
     cap_session_key := example_key; cap_covered_event_start := 1; cap_covered_event_end := last;
     cap_source_event_ids := ["event-1"]; cap_goals := [
       {| cl_claim_id := "goal-1"; cl_text := "copy the data"; cl_status := SEM_ACTIVE;
          cl_confidence := f_one; cl_source_event_ids := ["event-1"] |}];
     cap_constraints := []; cap_decisions := []; cap_progress := []; cap_open_loops := [];
     cap_preferences := []; cap_entities := []; cap_emotional_context := [];
     cap_exact_anchors := [example_anchor]; cap_dependencies := [];
     cap_narrative_summary := "the user asks for a copy"; cap_token_cost := 10;
     cap_quality := example_quality; cap_created_at := 0 |}.
Definition example_snapshot (id : string) (base : option string) (target : Z)
    (capsule_ids : list string) : SnapshotEnvelope :=
  {| sn_snapshot_id := id; sn_session_key := example_key; sn_base_snapshot_id := base;
     sn_covered_event_end := target; sn_source_high_water_mark := target;
     sn_capsule_ids := capsule_ids; sn_exact_anchor_ids := ["anchor-1"];
     sn_rendered_context := "context"; sn_token_cost := 12;
     sn_audit_outcome := {| ao_mechanical_passed := true; ao_semantic_status := AUDIT_NOT_RUN;
                            ao_failure_codes := [] |};
     sn_state := CANDIDATE; sn_created_at := 0; sn_committed_at := None |}.

Example example_envelopes_valid :
  forallb EventEnvelope_valid (map example_event [1; 2])
  && ContextCapsuleEnvelope_valid (example_capsule "capsule-1" 2)
  && SnapshotEnvelope_valid (example_snapshot "snapshot-1" None 2 ["capsule-1"]) = true.
Proof. vm_compute. reflexivity. Qed.
