(* ===== verification/Validation.v ===== *)
(** The permanent publication gate of [astrcontinuum/domain/validation.py]:
    [validate_permanent] and its report, with the abstract specification
    [Publishable] that a passing report is proved equivalent to. *)
From S2P Require Import Prelude PyString PyFloat Domain.
Open Scope string_scope.
Open Scope list_scope.
Open Scope Z_scope.

Inductive PermanentFailureCode :=
| EMPTY_COMPILER_OUTPUT
| SESSION_KEY_MISMATCH
| BASE_SNAPSHOT_MISMATCH
| TARGET_MISMATCH
| COVERAGE_GAP
| CAPSULE_MEMBERSHIP_MISMATCH
| SNAPSHOT_ANCHOR_MISMATCH
| INVALID_CAPSULE_COVERAGE
| UNSUPPORTED_ACTIVE_SEMANTIC
| MISSING_PRIOR_SEMANTIC
| MISSING_REQUIRED_ANCHOR
| MECHANICAL_NOT_PASSED
| SOURCE_COVERAGE_NOT_FULL
| ANCHOR_RECALL_NOT_FULL
| UNSUPPORTED_CRITICAL_CLAIMS
| QUALITY_COVERAGE_GAP
| TOKEN_CEILING_EXCEEDED.
#[export] Instance PermanentFailureCode_eq_dec : EqDecision PermanentFailureCode.
Proof. solve_decision. Defined.

(** Iteration over the enumeration class, in definition order. *)
Definition all_failure_codes : list PermanentFailureCode :=
  [EMPTY_COMPILER_OUTPUT; SESSION_KEY_MISMATCH; BASE_SNAPSHOT_MISMATCH; TARGET_MISMATCH;
   COVERAGE_GAP; CAPSULE_MEMBERSHIP_MISMATCH; SNAPSHOT_ANCHOR_MISMATCH;
   INVALID_CAPSULE_COVERAGE; UNSUPPORTED_ACTIVE_SEMANTIC; MISSING_PRIOR_SEMANTIC;
   MISSING_REQUIRED_ANCHOR; MECHANICAL_NOT_PASSED; SOURCE_COVERAGE_NOT_FULL;
   ANCHOR_RECALL_NOT_FULL; UNSUPPORTED_CRITICAL_CLAIMS; QUALITY_COVERAGE_GAP;
   TOKEN_CEILING_EXCEEDED].

(** A mutable set of failures, and [failures.add(c)] under a condition. *)
Definition add_if (b : bool) (c : PermanentFailureCode) (failures : list PermanentFailureCode) :=
  if b then c :: failures else failures.
(** [tuple(code for code in PermanentFailureCode if code in failures)] *)
Definition in_enum_order (failures : list PermanentFailureCode) : list PermanentFailureCode :=
  filter (fun c => c ∈ failures) all_failure_codes.

Record PermanentValidationReport := {
  rp_passed : bool;
  rp_failure_codes : list PermanentFailureCode;
  rp_source_coverage : float;
  rp_anchor_recall : float;
  rp_coverage_gap : Z;
  rp_unsupported_critical_claims : Z;
}.
Definition PermanentValidationReport_valid (r : PermanentValidationReport) : bool :=
  UnitFloat (rp_source_coverage r) && UnitFloat (rp_anchor_recall r)
  && NonNegativeInt (rp_coverage_gap r) && NonNegativeInt (rp_unsupported_critical_claims r).

Record SemanticRecord := {
  sr_stable_id : string;
  sr_source_event_ids : list string;
  sr_status : SemanticStatus;
  sr_supports_transition : bool;
}.

(** [_APPROVED_TRANSITION_STATUSES] *)
Definition approved_transition_status (s : SemanticStatus) : bool :=
  match s with SEM_SUPERSEDED | SEM_RETRACTED => true | _ => false end.

Definition claim_record (c : CapsuleClaim) : SemanticRecord :=
  {| sr_stable_id := cl_claim_id c; sr_source_event_ids := cl_source_event_ids c;
     sr_status := cl_status c; sr_supports_transition := true |}.
Definition decision_record (d : Decision_) : SemanticRecord :=
  {| sr_stable_id := de_decision_id d; sr_source_event_ids := de_source_event_ids d;
     sr_status := de_status d; sr_supports_transition := true |}.
Definition entity_record (e : Entity) : SemanticRecord :=
  {| sr_stable_id := en_entity_id e; sr_source_event_ids := en_source_event_ids e;
     sr_status := SEM_ACTIVE; sr_supports_transition := false |}.
Definition dependency_record (d : Dependency) : SemanticRecord :=
  {| sr_stable_id := dp_dependency_id d; sr_source_event_ids := dp_source_event_ids d;
     sr_status := SEM_ACTIVE; sr_supports_transition := false |}.

Definition semantic_records (capsules : list ContextCapsuleEnvelope) : list SemanticRecord :=
  capsules ≫= fun capsule =>
    (([cap_goals capsule; cap_constraints capsule; cap_progress capsule;
       cap_open_loops capsule; cap_preferences capsule; cap_emotional_context capsule]
      ≫= fun group => map claim_record group)
     ++ map decision_record (cap_decisions capsule)
     ++ map entity_record (cap_entities capsule)
     ++ map dependency_record (cap_dependencies capsule)).

Definition anchor_is_active (a : CapsuleAnchor) : bool := eqb_of (an_status a) ANCHOR_ACTIVE.
Definition active_anchors (capsules : list ContextCapsuleEnvelope) : list CapsuleAnchor :=
  capsules ≫= fun capsule => List.filter anchor_is_active (cap_exact_anchors capsule).

Definition record_is_active (r : SemanticRecord) : bool := eqb_of (sr_status r) SEM_ACTIVE.

(** The base coverage: [previous_snapshot.covered_event_end if previous_snapshot else 0]. *)
Definition base_coverage_of (previous_snapshot : option SnapshotEnvelope) : Z :=
  match previous_snapshot with Some s => sn_covered_event_end s | None => 0 end.

(** The sets and record lists the gate computes from its inputs. *)
Section gate_sets.
Context (previous_capsules candidate_capsules : list ContextCapsuleEnvelope)
        (source_events : list EventEnvelope).

Definition previous_source_ids : gset string :=
  list_to_set (previous_capsules ≫= cap_source_event_ids).
Definition current_source_ids : gset string := list_to_set (map ev_event_id source_events).
Definition valid_source_ids : gset string := previous_source_ids ∪ current_source_ids.

Definition previous_active_semantics : list SemanticRecord :=
  List.filter record_is_active (semantic_records previous_capsules).
Definition candidate_active_semantics : list SemanticRecord :=
  List.filter record_is_active (semantic_records candidate_capsules).
Definition previous_transitionable_ids : gset string :=
  list_to_set (map sr_stable_id (List.filter sr_supports_transition previous_active_semantics)).
Definition candidate_transition_records : list SemanticRecord :=
  List.filter (fun item => sr_supports_transition item
                   && bool_decide (sr_stable_id item ∈ previous_transitionable_ids)
                   && approved_transition_status (sr_status item))
    (semantic_records candidate_capsules).

(** [(stable_id, source_event_ids)] of every record that needs provenance. *)
Definition provenance_records : list (string * list string) :=
  map (fun item => (sr_stable_id item, sr_source_event_ids item))
      (candidate_active_semantics ++ candidate_transition_records)
  ++ map (fun item => (an_anchor_id item, an_source_event_ids item))
         (active_anchors candidate_capsules).

Definition unsupported (source_ids : list string) : bool :=
  eqb_of source_ids []
  || existsb (fun source_id => negb (bool_decide (source_id ∈ valid_source_ids))) source_ids.
Definition unsupported_records : list string :=
  map fst (List.filter (fun p => unsupported p.2) provenance_records).
Definition capsule_source_mismatch : bool :=
  existsb (fun capsule =>
    existsb (fun source_id => negb (bool_decide (source_id ∈ valid_source_ids)))
            (cap_source_event_ids capsule)) candidate_capsules.

Definition previous_semantic_ids : gset string :=
  list_to_set (map sr_stable_id previous_active_semantics).
Definition candidate_active_semantic_ids : gset string :=
  list_to_set (map sr_stable_id candidate_active_semantics).
Definition approved_transition_ids : gset string :=
  list_to_set (map sr_stable_id (List.filter (fun item =>
    forallb (fun source_id => bool_decide (source_id ∈ valid_source_ids)) (sr_source_event_ids item)
    && existsb (fun source_id => bool_decide (source_id ∈ current_source_ids))
               (sr_source_event_ids item)) candidate_transition_records)).
Definition retained_semantic_ids : gset string :=
  candidate_active_semantic_ids ∪ approved_transition_ids.

Definition preserved_anchor_count : Z :=
  sumZ (fun previous_anchor : CapsuleAnchor =>
          if existsb (fun candidate_anchor => candidate_anchor ==? previous_anchor)
                     (active_anchors candidate_capsules) then 1 else 0)
       (active_anchors previous_capsules).
Definition computed_anchor_recall : float :=
  match active_anchors previous_capsules with
  | [] => f_one
  | _ => f_div_Z preserved_anchor_count (len (active_anchors previous_capsules))
  end.
Definition computed_source_coverage : float :=
  match provenance_records with
  | [] => f_one
  | _ => f_div_Z (len provenance_records - len unsupported_records) (len provenance_records)
  end.
End gate_sets.

Definition validate_permanent
    (previous_snapshot : option SnapshotEnvelope)
    (previous_capsules : list ContextCapsuleEnvelope)
    (candidate_snapshot : SnapshotEnvelope)
    (candidate_capsules : list ContextCapsuleEnvelope)
    (source_events : list EventEnvelope)
    (target_high_water_mark token_ceiling : Z) : result model_error PermanentValidationReport :=
  let failures := add_if (eqb_of (length candidate_capsules) 0%nat) EMPTY_COMPILER_OUTPUT [] in
  let expected_base_id := sn_snapshot_id <$> previous_snapshot in
  let failures := add_if (sn_base_snapshot_id candidate_snapshot !=? expected_base_id)
                         BASE_SNAPSHOT_MISMATCH failures in
  let failures := add_if (negb (sn_covered_event_end candidate_snapshot =? target_high_water_mark)
                          || negb (sn_source_high_water_mark candidate_snapshot =? target_high_water_mark))
                         TARGET_MISMATCH failures in
  let base_coverage := base_coverage_of previous_snapshot in
  let expected_sequences := py_range (base_coverage + 1) (target_high_water_mark + 1) in
  let actual_sequences := map ev_sequence source_events in
  let missing_sequences : gset Z := list_to_set expected_sequences ∖ list_to_set actual_sequences in
  let failures := add_if ((target_high_water_mark <=? base_coverage)
                          || (actual_sequences !=? expected_sequences)
                          || negb (no_duplicates (map ev_event_id source_events)))
                         COVERAGE_GAP failures in
  let failures := add_if (sn_capsule_ids candidate_snapshot !=? map cap_capsule_id candidate_capsules)
                         CAPSULE_MEMBERSHIP_MISMATCH failures in
  let candidate_anchor_ids := map an_anchor_id (active_anchors candidate_capsules) in
  let failures := add_if (sn_exact_anchor_ids candidate_snapshot !=? candidate_anchor_ids)
                         SNAPSHOT_ANCHOR_MISMATCH failures in
  let session_key := sn_session_key candidate_snapshot in
  let failures := add_if (existsb (fun c => cap_session_key c !=? session_key) candidate_capsules
                          || existsb (fun e => ev_session_key e !=? session_key) source_events
                          || match previous_snapshot with
                             | Some s => sn_session_key s !=? session_key
                             | None => false
                             end
                          || existsb (fun c => cap_session_key c !=? session_key) previous_capsules)
                         SESSION_KEY_MISMATCH failures in
  let failures := add_if (existsb (fun c => (target_high_water_mark <? cap_covered_event_end c)
                                            || (cap_covered_event_end c <? cap_covered_event_start c))
                                  candidate_capsules)
                         INVALID_CAPSULE_COVERAGE failures in
  let unsupported_records := unsupported_records previous_capsules candidate_capsules source_events in
  let failures := add_if (negb (eqb_of unsupported_records [])
                          || capsule_source_mismatch previous_capsules candidate_capsules source_events)
                         UNSUPPORTED_ACTIVE_SEMANTIC failures in
  let failures := add_if (negb (bool_decide (previous_semantic_ids previous_capsules
                            ⊆ retained_semantic_ids previous_capsules candidate_capsules source_events)))
                         MISSING_PRIOR_SEMANTIC failures in
  let computed_anchor_recall := computed_anchor_recall previous_capsules candidate_capsules in
  let failures := add_if (f_lt computed_anchor_recall f_one) MISSING_REQUIRED_ANCHOR failures in
  let computed_source_coverage :=
    computed_source_coverage previous_capsules candidate_capsules source_events in
  let declared_source_coverage :=
    f_min_list f_zero (map (fun c => q_source_coverage (cap_quality c)) candidate_capsules) in
  let declared_anchor_recall :=
    f_min_list f_zero (map (fun c => q_anchor_recall (cap_quality c)) candidate_capsules) in
  let declared_unsupported :=
    sumZ (fun c => q_unsupported_critical_claims (cap_quality c)) candidate_capsules in
  let declared_coverage_gap := sumZ (fun c => q_coverage_gap (cap_quality c)) candidate_capsules in
  let source_coverage := f_min computed_source_coverage declared_source_coverage in
  let anchor_recall := f_min computed_anchor_recall declared_anchor_recall in
  let unsupported_critical_claims := Z.max (len unsupported_records) declared_unsupported in
  let coverage_gap := Z.max (Z.of_nat (size missing_sequences)) declared_coverage_gap in
  let failures := add_if (negb (ao_mechanical_passed (sn_audit_outcome candidate_snapshot))
                          || existsb (fun c => negb (q_mechanical_passed (cap_quality c))) candidate_capsules)
                         MECHANICAL_NOT_PASSED failures in
  let failures := add_if (f_lt source_coverage f_one) SOURCE_COVERAGE_NOT_FULL failures in
  let failures := add_if (f_lt anchor_recall f_one) ANCHOR_RECALL_NOT_FULL failures in
  let failures := add_if (negb (unsupported_critical_claims =? 0)) UNSUPPORTED_CRITICAL_CLAIMS failures in
  let failures := add_if (negb (declared_coverage_gap =? 0)) QUALITY_COVERAGE_GAP failures in
  let failures := add_if ((token_ceiling <? 0)
                          || (token_ceiling <? sn_token_cost candidate_snapshot)
                          || (token_ceiling <? sumZ cap_token_cost candidate_capsules))
                         TOKEN_CEILING_EXCEEDED failures in
  let ordered_failures := in_enum_order failures in
  construct PermanentValidationReport_valid
    {| rp_passed := eqb_of ordered_failures [];
       rp_failure_codes := ordered_failures;
       rp_source_coverage := source_coverage;
       rp_anchor_recall := anchor_recall;
       rp_coverage_gap := coverage_gap;
       rp_unsupported_critical_claims := unsupported_critical_claims |}.

(** ** Abstract specification

    What publication promises, stated on the inputs without failure codes,
    floats or accumulated sets. *)

Definition semantic_supported (valid : string -> Prop) (source_ids : list string) : Prop :=
  source_ids <> [] /\ forall source_id, source_id ∈ source_ids -> valid source_id.

Section publishable.
Context (previous_snapshot : option SnapshotEnvelope)
        (previous_capsules : list ContextCapsuleEnvelope)
        (candidate_snapshot : SnapshotEnvelope)
        (candidate_capsules : list ContextCapsuleEnvelope)
        (source_events : list EventEnvelope)
        (target_high_water_mark token_ceiling : Z).

(** An identifier that names an event of the base or of the new interval. *)
Definition known_source (source_id : string) : Prop :=
  (exists c, c ∈ previous_capsules /\ source_id ∈ cap_source_event_ids c)
  \/ (exists e, e ∈ source_events /\ ev_event_id e = source_id).

(** An active item survives: still active under its id, or superseded or
    retracted by an item with known sources, one of them new. *)
Definition semantic_retained (item : SemanticRecord) : Prop :=
  (exists r, r ∈ candidate_active_semantics candidate_capsules
             /\ sr_stable_id r = sr_stable_id item)
  \/ (exists r, r ∈ candidate_transition_records previous_capsules candidate_capsules
                /\ sr_stable_id r = sr_stable_id item
                /\ (forall s, s ∈ sr_source_event_ids r -> known_source s)
                /\ exists s e, s ∈ sr_source_event_ids r /\ e ∈ source_events
                               /\ ev_event_id e = s).

Record Publishable : Prop := {
  pub_nonempty : candidate_capsules <> [];
  pub_base : sn_base_snapshot_id candidate_snapshot = sn_snapshot_id <$> previous_snapshot;
  pub_target : sn_covered_event_end candidate_snapshot = target_high_water_mark
               /\ sn_source_high_water_mark candidate_snapshot = target_high_water_mark;
  pub_progress : base_coverage_of previous_snapshot < target_high_water_mark;
  pub_contiguous : map ev_sequence source_events
                   = py_range (base_coverage_of previous_snapshot + 1) (target_high_water_mark + 1);
  pub_event_ids : NoDup (map ev_event_id source_events);
  pub_membership : sn_capsule_ids candidate_snapshot = map cap_capsule_id candidate_capsules;
  pub_anchor_ids : sn_exact_anchor_ids candidate_snapshot
                   = map an_anchor_id (active_anchors candidate_capsules);
  pub_session_capsules : forall c, c ∈ candidate_capsules ++ previous_capsules ->
                         cap_session_key c = sn_session_key candidate_snapshot;
  pub_session_events : forall e, e ∈ source_events ->
                       ev_session_key e = sn_session_key candidate_snapshot;
  pub_session_base : forall s, previous_snapshot = Some s ->
                     sn_session_key s = sn_session_key candidate_snapshot;
  pub_coverage : forall c, c ∈ candidate_capsules ->
    cap_covered_event_start c <= cap_covered_event_end c <= target_high_water_mark;
  pub_provenance : forall id source_ids,
    (id, source_ids) ∈ provenance_records previous_capsules candidate_capsules ->
    semantic_supported known_source source_ids;
  pub_capsule_sources : forall c s, c ∈ candidate_capsules -> s ∈ cap_source_event_ids c ->
                        known_source s;
  pub_retained : forall item, item ∈ previous_active_semantics previous_capsules ->
                 semantic_retained item;
  pub_anchors : forall a, a ∈ active_anchors previous_capsules ->
    exists b, b ∈ active_anchors candidate_capsules /\ (b ==? a) = true;
  pub_mechanical : ao_mechanical_passed (sn_audit_outcome candidate_snapshot) = true
    /\ forall c, c ∈ candidate_capsules -> q_mechanical_passed (cap_quality c) = true;
  pub_quality : forall c, c ∈ candidate_capsules ->
    q_source_coverage (cap_quality c) = f_one /\ q_anchor_recall (cap_quality c) = f_one
    /\ q_unsupported_critical_claims (cap_quality c) = 0 /\ q_coverage_gap (cap_quality c) = 0;
  pub_ceiling : 0 <= token_ceiling /\ sn_token_cost candidate_snapshot <= token_ceiling
    /\ sumZ cap_token_cost candidate_capsules <= token_ceiling;
}.
End publishable.

(** ** Lemmas *)

Lemma add_if_nil b c fs : add_if b c fs = [] <-> b = false /\ fs = [].
Proof. destruct b; cbn; split; [discriminate | intros [? ?]; discriminate | auto | tauto]. Qed.

Lemma in_all_failure_codes c : c ∈ all_failure_codes.
Proof. apply (bool_decide_unpack (c ∈ all_failure_codes)). by destruct c. Qed.

Lemma elem_of_in_enum_order c fs : c ∈ in_enum_order fs <-> c ∈ fs.
Proof.
  unfold in_enum_order. rewrite list_elem_of_filter.
  split; [tauto|]. intros. split; [done|]. apply in_all_failure_codes.
Qed.

Lemma in_enum_order_nil fs : in_enum_order fs = [] <-> fs = [].
Proof.
  split; [|by intros ->]. intros H. apply elem_of_nil_inv. intros c Hc.
  apply elem_of_in_enum_order in Hc. rewrite H in Hc. by apply elem_of_nil in Hc.
Qed.

Lemma passed_iff fs : eqb_of (in_enum_order fs) [] = true <-> fs = [].
Proof. unfold eqb_of. rewrite bool_decide_eq_true. apply in_enum_order_nil. Qed.

Lemma negb_py_eq_false {A} `{PyEqLeibniz A} (x y : A) : (x !=? y) = false <-> x = y.
Proof. rewrite negb_false_iff. apply py_eq_leibniz. Qed.

Lemma negb_session_eq_false (x y : SessionKey) : (x !=? y) = false <-> x = y.
Proof. rewrite negb_false_iff. unfold py_eq, SessionKey_py_eq, eqb_of. by rewrite bool_decide_eq_true. Qed.

Lemma valid_source_ids_spec pc evs s :
  s ∈ valid_source_ids pc evs <-> known_source pc evs s.
Proof.
  unfold valid_source_ids, previous_source_ids, current_source_ids, known_source.
  rewrite elem_of_union, !elem_of_list_to_set, list_elem_of_bind, list_elem_of_fmap.
  split; intros [(x & H1 & H2)|(x & H1 & H2)]; [left|right|left|right]; eauto.
Qed.

Lemma not_known_false pc evs s :
  negb (bool_decide (s ∈ valid_source_ids pc evs)) = false <-> known_source pc evs s.
Proof. rewrite negb_false_iff, bool_decide_eq_true. apply valid_source_ids_spec. Qed.

Lemma unsupported_false pc evs ids :
  unsupported pc evs ids = false <-> semantic_supported (known_source pc evs) ids.
Proof.
  unfold unsupported, semantic_supported, eqb_of.
  rewrite orb_false_iff, bool_decide_eq_false, existsb_false_iff.
  setoid_rewrite not_known_false. done.
Qed.

Lemma unsupported_records_nil pc cc evs :
  unsupported_records pc cc evs = [] <->
  forall id ids, (id, ids) ∈ provenance_records pc cc -> semantic_supported (known_source pc evs) ids.
Proof.
  unfold unsupported_records. split.
  - intros H id ids Hin. apply unsupported_false.
    destruct (unsupported pc evs ids) eqn:E; [|done]. exfalso.
    apply map_eq_nil in H.
    assert ((id, ids) ∈ List.filter (fun p => unsupported pc evs p.2) (provenance_records pc cc)) as Hf.
    { apply list_elem_of_In, filter_In. split; [by apply list_elem_of_In|done]. }
    rewrite H in Hf. by apply elem_of_nil in Hf.
  - intros H. enough (List.filter (fun p => unsupported pc evs p.2) (provenance_records pc cc) = [])
      as -> by done.
    apply elem_of_nil_inv. intros [id ids] [Hin Hu]%list_elem_of_In%filter_In.
    apply list_elem_of_In, H, unsupported_false in Hin. cbn in Hu. congruence.
Qed.

Lemma unsupported_records_le pc cc evs :
  0 <= len (unsupported_records pc cc evs) <= len (provenance_records pc cc).
Proof.
  unfold unsupported_records, len. rewrite length_map.
  pose proof (List.filter_length_le (fun p => unsupported pc evs p.2) (provenance_records pc cc)). lia.
Qed.

Lemma preserved_anchor_count_le pc cc :
  0 <= preserved_anchor_count pc cc <= len (active_anchors pc).
Proof.
  unfold preserved_anchor_count. induction (active_anchors pc) as [|a l IH]; [done|].
  rewrite sumZ_cons, len_cons. destruct (existsb _ _); lia.
Qed.

Lemma preserved_anchor_count_full pc cc :
  preserved_anchor_count pc cc = len (active_anchors pc) <->
  forall a, a ∈ active_anchors pc -> exists b, b ∈ active_anchors cc /\ (b ==? a) = true.
Proof.
  unfold preserved_anchor_count.
  enough (forall l, 0 <= sumZ (fun p : CapsuleAnchor =>
            if existsb (fun c => c ==? p) (active_anchors cc) then 1 else 0) l <= len l
          /\ (sumZ (fun p : CapsuleAnchor =>
            if existsb (fun c => c ==? p) (active_anchors cc) then 1 else 0) l = len l <->
          forall a, a ∈ l -> exists b, b ∈ active_anchors cc /\ (b ==? a) = true)) as H by apply H.
  induction l as [|a l [Hb IH]].
  - split; [done|]. split; [intros _ a Ha; by apply elem_of_nil in Ha | done].
  - rewrite sumZ_cons, len_cons. destruct (existsb _ (active_anchors cc)) eqn:E.
    + split; [lia|]. transitivity (sumZ (fun p : CapsuleAnchor =>
        if existsb (fun c => c ==? p) (active_anchors cc) then 1 else 0) l = len l); [lia|].
      rewrite IH. split.
      * intros H x [->|Hx]%elem_of_cons; [by apply existsb_true_iff in E | by apply H].
      * intros H x Hx. apply H. by right.
    + split; [lia|]. split; [lia|]. intros H. destruct (H a) as (b & Hb1 & Hb2); [left|].
      assert (existsb (fun c => c ==? a) (active_anchors cc) = true) as E'
        by (apply existsb_true_iff; eauto). congruence.
Qed.

(** The computed ratios are unit floats, and full exactly when nothing is lost. *)
Definition float_exact {A} (l : list A) : Prop := len l <= 2 ^ 53.

Lemma computed_anchor_recall_spec pc cc :
  float_exact (active_anchors pc) ->
  is_unit_float (computed_anchor_recall pc cc) = true /\
  (f_lt (computed_anchor_recall pc cc) f_one = false <->
   forall a, a ∈ active_anchors pc -> exists b, b ∈ active_anchors cc /\ (b ==? a) = true).
Proof.
  intros Hx. rewrite <- preserved_anchor_count_full.
  pose proof (preserved_anchor_count_le pc cc) as Hb. unfold computed_anchor_recall, float_exact in *.
  destruct (active_anchors pc) as [|a l]; [split; [done|]|].
  - change (len []) with 0 in *. split; [lia | done].
  - rewrite len_cons in *. pose proof (len_nonneg l). split.
    + apply f_div_unit; lia.
    + apply f_div_full; lia.
Qed.

Lemma computed_source_coverage_spec pc cc evs :
  float_exact (provenance_records pc cc) ->
  is_unit_float (computed_source_coverage pc cc evs) = true /\
  (unsupported_records pc cc evs = [] -> computed_source_coverage pc cc evs = f_one).
Proof.
  intros Hx. pose proof (unsupported_records_le pc cc evs) as Hb.
  unfold computed_source_coverage, float_exact in *.
  destruct (provenance_records pc cc) as [|p l]; [done|].
  rewrite len_cons in *. pose proof (len_nonneg l). split.
  - apply f_div_unit; lia.
  - intros ->. rewrite len_nil, Z.sub_0_r. destruct (len l + 1) as [|q|q] eqn:E; try lia.
    apply f_div_self.
Qed.

Definition qualities_valid (capsules : list ContextCapsuleEnvelope) : Prop :=
  forall c, c ∈ capsules -> CapsuleQuality_valid (cap_quality c) = true.

Lemma declared_sum_zero (f : CapsuleQuality -> Z) cc :
  (forall c, c ∈ cc -> 0 <= f (cap_quality c)) ->
  sumZ (fun c => f (cap_quality c)) cc = 0 <-> (forall c, c ∈ cc -> f (cap_quality c) = 0).
Proof.
  intros Hn. split.
  - intros H. by apply sumZ_zero.
  - intros H. clear Hn. induction cc as [|c cc IH]; [done|]. rewrite sumZ_cons, IH by set_solver.
    rewrite H by set_solver. done.
Qed.

Lemma declared_min_full (f : CapsuleQuality -> float) cc :
  cc <> [] -> (forall c, c ∈ cc -> is_unit_float (f (cap_quality c)) = true) ->
  f_min_list f_zero (map (fun c => f (cap_quality c)) cc) = f_one <->
  (forall c, c ∈ cc -> f (cap_quality c) = f_one).
Proof.
  destruct cc as [|c cc]; [done|]. intros _ Hu.
  assert (Hu' : forall y, y ∈ map (fun c => f (cap_quality c)) (c :: cc) -> is_unit_float y = true).
  { intros y (x & -> & Hx)%list_elem_of_fmap. by apply Hu. }
  rewrite <- unit_not_lt_one by (apply f_min_list_unit; done).
  cbn [map]. rewrite f_min_list_full by done.
  change (f (cap_quality c) :: map (fun c => f (cap_quality c)) cc)
    with (map (fun c => f (cap_quality c)) (c :: cc)). split.
  - intros H x Hx. apply H, list_elem_of_fmap. eauto.
  - intros H y (x & -> & Hx)%list_elem_of_fmap. by apply H.
Qed.

Lemma declared_unit (f : CapsuleQuality -> float) cc :
  (forall c, c ∈ cc -> is_unit_float (f (cap_quality c)) = true) ->
  is_unit_float (f_min_list f_zero (map (fun c => f (cap_quality c)) cc)) = true.
Proof.
  intros Hu. apply f_min_list_unit; [done|]. intros y (x & -> & Hx)%list_elem_of_fmap. by apply Hu.
Qed.

Lemma quality_parts c cc : qualities_valid cc -> c ∈ cc ->
  is_unit_float (q_source_coverage (cap_quality c)) = true
  /\ is_unit_float (q_anchor_recall (cap_quality c)) = true
  /\ 0 <= q_unsupported_critical_claims (cap_quality c)
  /\ 0 <= q_coverage_gap (cap_quality c).
Proof.
  intros H Hc. specialize (H c Hc). unfold CapsuleQuality_valid, NonNegativeInt, UnitFloat in H.
  by bool_hyps.
Qed.

(** The retained ids are those of retained items. *)
Lemma retained_spec pc cc evs :
  previous_semantic_ids pc ⊆ retained_semantic_ids pc cc evs <->
  (forall item, item ∈ previous_active_semantics pc -> semantic_retained pc cc evs item).
Proof.
  unfold previous_semantic_ids, retained_semantic_ids, candidate_active_semantic_ids,
    approved_transition_ids. split.
  - intros H item Hin.
    assert (sr_stable_id item ∈ list_to_set (C:=gset string)
              (map sr_stable_id (previous_active_semantics pc))) as Hid.
    { apply elem_of_list_to_set, list_elem_of_fmap. eauto. }
    apply H, elem_of_union in Hid as [Hid|Hid];
      apply elem_of_list_to_set, list_elem_of_fmap in Hid as (r & Hr & Hin2); [left|right]; exists r.
    + done.
    + apply list_elem_of_In, filter_In in Hin2 as [Hin2 Hb]. bool_hyps.
      split; [by apply list_elem_of_In|]. split; [done|]. split.
      * intros s Hs. rewrite forallb_true_iff in H0. specialize (H0 s Hs). bool_hyps.
        by apply valid_source_ids_spec.
      * apply existsb_true_iff in H1 as (s & Hs & Hc). bool_hyps.
        apply elem_of_list_to_set, list_elem_of_fmap in Hc as (e & -> & He). eauto.
  - intros H x Hx. apply elem_of_list_to_set, list_elem_of_fmap in Hx as (item & -> & Hin).
    apply elem_of_union. destruct (H item Hin) as [(r & Hr & E)|(r & Hr & E & Hk & s & e & Hs & He & Hes)];
      [left|right]; apply elem_of_list_to_set, list_elem_of_fmap; exists r; [done|].
    split; [done|]. apply list_elem_of_In, filter_In. split; [by apply list_elem_of_In|].
    apply andb_true_iff. split.
    + apply forallb_true_iff. intros s' Hs'. by apply bool_decide_eq_true, valid_source_ids_spec, Hk.
    + apply existsb_true_iff. exists s. split; [done|]. apply bool_decide_eq_true.
      apply elem_of_list_to_set, list_elem_of_fmap. eauto.
Qed.

Lemma mismatch_spec pc cc evs :
  capsule_source_mismatch pc cc evs = false <->
  forall c s, c ∈ cc -> s ∈ cap_source_event_ids c -> known_source pc evs s.
Proof.
  unfold capsule_source_mismatch. rewrite existsb_false_iff.
  setoid_rewrite existsb_false_iff. setoid_rewrite not_known_false. naive_solver.
Qed.

(** One lemma per compound condition of the gate. *)

Lemma session_condition ps (snap : SnapshotEnvelope) (pc cc : list ContextCapsuleEnvelope)
    (evs : list EventEnvelope) :
  (existsb (fun c => cap_session_key c !=? sn_session_key snap) cc
   || existsb (fun e => ev_session_key e !=? sn_session_key snap) evs
   || match ps with Some s => sn_session_key s !=? sn_session_key snap | None => false end
   || existsb (fun c => cap_session_key c !=? sn_session_key snap) pc) = false <->
  (forall c, c ∈ cc ++ pc -> cap_session_key c = sn_session_key snap)
  /\ (forall e, e ∈ evs -> ev_session_key e = sn_session_key snap)
  /\ (forall s, ps = Some s -> sn_session_key s = sn_session_key snap).
Proof.
  rewrite !orb_false_iff, !existsb_false_iff.
  setoid_rewrite negb_session_eq_false. setoid_rewrite elem_of_app.
  split; [intros [[[H1 H2] H3] H4] | intros (H1 & H2 & H3)].
  - split; [intros c [?|?]; auto|]. split; [done|].
    intros s ->. by apply negb_session_eq_false.
  - split; [|auto]. split; [split; auto|].
    destruct ps as [s|]; [|done]. by apply negb_session_eq_false, H3.
Qed.

Lemma coverage_condition target (cc : list ContextCapsuleEnvelope) :
  existsb (fun c => (target <? cap_covered_event_end c)
                    || (cap_covered_event_end c <? cap_covered_event_start c)) cc = false <->
  forall c, c ∈ cc -> cap_covered_event_start c <= cap_covered_event_end c <= target.
Proof.
  rewrite existsb_false_iff. split; intros H c Hc; specialize (H c Hc).
  - bool_hyps. lia.
  - apply orb_false_iff. rewrite !Z.ltb_ge. lia.
Qed.

Lemma interval_condition base target (evs : list EventEnvelope) :
  ((target <=? base) || (map ev_sequence evs !=? py_range (base + 1) (target + 1))
   || negb (no_duplicates (map ev_event_id evs))) = false <->
  base < target /\ map ev_sequence evs = py_range (base + 1) (target + 1)
  /\ NoDup (map ev_event_id evs).
Proof.
  rewrite !orb_false_iff, Z.leb_gt, negb_py_eq_false, negb_false_iff.
  unfold no_duplicates. rewrite bool_decide_eq_true. tauto.
Qed.

Lemma ceiling_condition ceiling cost caps :
  ((ceiling <? 0) || (ceiling <? cost) || (ceiling <? caps)) = false <->
  0 <= ceiling /\ cost <= ceiling /\ caps <= ceiling.
Proof. rewrite !orb_false_iff, !Z.ltb_ge. tauto. Qed.

Lemma mechanical_condition (snap : SnapshotEnvelope) (cc : list ContextCapsuleEnvelope) :
  (negb (ao_mechanical_passed (sn_audit_outcome snap))
   || existsb (fun c => negb (q_mechanical_passed (cap_quality c))) cc) = false <->
  ao_mechanical_passed (sn_audit_outcome snap) = true
  /\ forall c, c ∈ cc -> q_mechanical_passed (cap_quality c) = true.
Proof.
  rewrite orb_false_iff, existsb_false_iff, negb_false_iff.
  setoid_rewrite negb_false_iff. done.
Qed.

Lemma target_condition (snap : SnapshotEnvelope) target :
  (negb (sn_covered_event_end snap =? target)
   || negb (sn_source_high_water_mark snap =? target)) = false <->
  sn_covered_event_end snap = target /\ sn_source_high_water_mark snap = target.
Proof. by rewrite orb_false_iff, !negb_false_iff, !Z.eqb_eq. Qed.

Lemma provenance_condition pc cc evs :
  (negb (eqb_of (unsupported_records pc cc evs) []) || capsule_source_mismatch pc cc evs) = false <->
  unsupported_records pc cc evs = []
  /\ forall c s, c ∈ cc -> s ∈ cap_source_event_ids c -> known_source pc evs s.
Proof.
  rewrite orb_false_iff, negb_false_iff, mismatch_spec. unfold eqb_of.
  by rewrite bool_decide_eq_true.
Qed.

Lemma empty_condition {A} (l : list A) : eqb_of (length l) 0%nat = false <-> l <> [].
Proof. unfold eqb_of. rewrite bool_decide_eq_false. destruct l; cbn; split; congruence. Qed.

Lemma retained_condition pc cc evs :
  negb (bool_decide (previous_semantic_ids pc ⊆ retained_semantic_ids pc cc evs)) = false <->
  (forall item, item ∈ previous_active_semantics pc -> semantic_retained pc cc evs item).
Proof. rewrite negb_false_iff, bool_decide_eq_true. apply retained_spec. Qed.

Lemma max_zero_condition n m : 0 <= n -> 0 <= m ->
  negb (Z.max n m =? 0) = false <-> n = 0 /\ m = 0.
Proof. intros. rewrite negb_false_iff, Z.eqb_eq. lia. Qed.

Lemma zero_condition n : negb (n =? 0) = false <-> n = 0.
Proof. by rewrite negb_false_iff, Z.eqb_eq. Qed.

(** The five quality conditions together. *)
Lemma quality_conditions pc cc evs :
  cc <> [] -> qualities_valid cc -> float_exact (active_anchors pc) ->
  float_exact (provenance_records pc cc) -> unsupported_records pc cc evs = [] ->
  (f_lt (f_min (computed_source_coverage pc cc evs)
     (f_min_list f_zero (map (fun c => q_source_coverage (cap_quality c)) cc))) f_one = false
   /\ f_lt (f_min (computed_anchor_recall pc cc)
     (f_min_list f_zero (map (fun c => q_anchor_recall (cap_quality c)) cc))) f_one = false
   /\ sumZ (fun c => q_unsupported_critical_claims (cap_quality c)) cc = 0
   /\ sumZ (fun c => q_coverage_gap (cap_quality c)) cc = 0) <->
  (forall a, a ∈ active_anchors pc -> exists b, b ∈ active_anchors cc /\ (b ==? a) = true)
  /\ forall c, c ∈ cc ->
      q_source_coverage (cap_quality c) = f_one /\ q_anchor_recall (cap_quality c) = f_one
      /\ q_unsupported_critical_claims (cap_quality c) = 0 /\ q_coverage_gap (cap_quality c) = 0.
Proof.
  intros Hne Hq Ha Hp Hu.
  destruct (computed_anchor_recall_spec pc cc Ha) as [Hau Har].
  destruct (computed_source_coverage_spec pc cc evs Hp) as [Hsu Hsr].
  assert (Hparts := fun c Hc => quality_parts c cc Hq Hc).
  rewrite (f_min_full _ _ Hau (declared_unit _ _ (fun c Hc => proj1 (proj2 (Hparts c Hc))))).
  rewrite (f_min_full _ _ Hsu (declared_unit _ _ (fun c Hc => proj1 (Hparts c Hc)))).
  rewrite (declared_min_full q_source_coverage cc Hne (fun c Hc => proj1 (Hparts c Hc))).
  rewrite (declared_min_full q_anchor_recall cc Hne (fun c Hc => proj1 (proj2 (Hparts c Hc)))).
  rewrite (declared_sum_zero q_unsupported_critical_claims cc
             (fun c Hc => proj1 (proj2 (proj2 (Hparts c Hc))))).
  rewrite (declared_sum_zero q_coverage_gap cc (fun c Hc => proj2 (proj2 (proj2 (Hparts c Hc))))).
  rewrite Hsr by done. rewrite <- (unit_not_lt_one (computed_anchor_recall pc cc)) by done.
  rewrite Har. naive_solver.
Qed.

(** A report passes exactly when the candidate is publishable. *)
Lemma passed_publishable ps pc snap cc evs target ceiling r :
  qualities_valid cc -> float_exact (active_anchors pc) ->
  float_exact (provenance_records pc cc) ->
  validate_permanent ps pc snap cc evs target ceiling = Ok r ->
  rp_passed r = true <-> Publishable ps pc snap cc evs target ceiling.
Proof.
  intros Hq Ha Hp. unfold validate_permanent. intros [_ <-]%construct_ok. cbn [rp_passed].
  rewrite passed_iff, !add_if_nil, empty_condition, negb_py_eq_false, target_condition,
    interval_condition, !negb_py_eq_false, session_condition, coverage_condition,
    provenance_condition, retained_condition, mechanical_condition, zero_condition,
    ceiling_condition.
  rewrite max_zero_condition;
    [| pose proof (unsupported_records_le pc cc evs); lia
     | apply sumZ_nonneg; intros c Hc; by destruct (quality_parts c cc Hq Hc) as (_ & _ & ? & _)].
  assert (Hqc := quality_conditions pc cc evs).
  assert (Hun := unsupported_records_nil pc cc evs).
  destruct (computed_anchor_recall_spec pc cc Ha) as [_ Har].
  split.
  - intros H. decompose [and] H. clear H.
    assert (Hall := proj1 (Hqc ltac:(done) Hq Ha Hp ltac:(done)) ltac:(tauto)).
    destruct Hall as [Hall1 Hall2]. constructor; try tauto.
  - intros []. apply Hun in pub_provenance0.
    assert (Hall := proj2 (Hqc ltac:(done) Hq Ha Hp pub_provenance0) (conj pub_anchors0 pub_quality0)).
    apply Har in pub_anchors0. rewrite pub_provenance0.
    change (len (@nil string)) with 0. tauto.
Qed.

(** What a passing report says without any condition on the floats. *)
Lemma passed_core ps pc snap cc evs target ceiling r :
  validate_permanent ps pc snap cc evs target ceiling = Ok r -> rp_passed r = true ->
  cc <> [] /\ sn_base_snapshot_id snap = sn_snapshot_id <$> ps
  /\ sn_covered_event_end snap = target /\ sn_source_high_water_mark snap = target
  /\ base_coverage_of ps < target
  /\ map ev_sequence evs = py_range (base_coverage_of ps + 1) (target + 1)
  /\ sn_capsule_ids snap = map cap_capsule_id cc
  /\ sn_exact_anchor_ids snap = map an_anchor_id (active_anchors cc)
  /\ (forall c, c ∈ cc -> cap_session_key c = sn_session_key snap)
  /\ sn_token_cost snap <= ceiling.
Proof.
  unfold validate_permanent. intros [_ <-]%construct_ok. cbn [rp_passed].
  rewrite passed_iff, !add_if_nil, empty_condition, negb_py_eq_false, target_condition,
    interval_condition, !negb_py_eq_false, session_condition, ceiling_condition.
  intros Hall. decompose [and] Hall. clear Hall. split_and!; try done.
  intros c Hc. match goal with Hs : forall c, c ∈ cc ++ pc -> _ |- _ => apply Hs end.
  apply elem_of_app. by left.
Qed.

Lemma NoDup_in_enum_order fs : NoDup (in_enum_order fs).
Proof.
  apply NoDup_filter. apply (bool_decide_unpack (NoDup all_failure_codes)). vm_compute. done.
Qed.

(** The gate returns a report on every valid input. *)
Lemma validate_permanent_total ps pc snap cc evs target ceiling :
  qualities_valid cc -> float_exact (active_anchors pc) ->
  float_exact (provenance_records pc cc) ->
  exists r, validate_permanent ps pc snap cc evs target ceiling = Ok r.
Proof.
  intros Hq Ha Hp. unfold validate_permanent. eexists. apply construct_ok. split; [|reflexivity].
  unfold PermanentValidationReport_valid, UnitFloat, NonNegativeInt; cbn [rp_source_coverage
    rp_anchor_recall rp_coverage_gap rp_unsupported_critical_claims].
  rewrite !andb_true_iff, !Z.leb_le. repeat split.
  - apply f_min_unit; [by apply computed_source_coverage_spec|].
    apply declared_unit. intros c Hc. by apply (quality_parts c cc).
  - apply f_min_unit; [by apply computed_anchor_recall_spec|].
    apply declared_unit. intros c Hc. by apply (quality_parts c cc).
  - lia.
  - pose proof (len_nonneg (unsupported_records pc cc evs)). lia.
Qed.

(** C10. The permanent gate implements its specification: on valid capsules
    [validate_permanent] always returns a report, the report passes exactly
    when the candidate is [Publishable] (contiguous new events past the base,
    one session, exact membership, full provenance, every prior semantic
    retained or replaced from a new source, every prior anchor byte-identical,
    full quality, within the ceiling), and its failure codes are listed once
    each, empty exactly on a pass. *)
Theorem permanent_gate_decides_publishable ps pc snap cc evs target ceiling :
  qualities_valid cc -> float_exact (active_anchors pc) ->
  float_exact (provenance_records pc cc) ->
  exists r, validate_permanent ps pc snap cc evs target ceiling = Ok r
    /\ (rp_passed r = true <-> Publishable ps pc snap cc evs target ceiling)
    /\ NoDup (rp_failure_codes r)
    /\ (rp_failure_codes r = [] <-> Publishable ps pc snap cc evs target ceiling).
Proof.
  intros Hq Ha Hp. destruct (validate_permanent_total ps pc snap cc evs target ceiling) as [r Hr];
    [done..|].
  exists r. split; [done|].
  assert (Hpass := passed_publishable _ _ _ _ _ _ _ _ Hq Ha Hp Hr). split; [done|].
  unfold validate_permanent in Hr. apply construct_ok in Hr as [_ <-].
  cbn [rp_passed rp_failure_codes] in *. split; [apply NoDup_in_enum_order|].
  rewrite <- Hpass. unfold eqb_of. by rewrite bool_decide_eq_true.
Qed.

Lemma permanent_gate_decides_publishable_witness :
  exists r, validate_permanent None [] (example_snapshot "snapshot-1" None 2 ["capsule-1"])
      [example_capsule "capsule-1" 2] [example_event 1; example_event 2] 2 100 = Ok r
    /\ Publishable None [] (example_snapshot "snapshot-1" None 2 ["capsule-1"])
      [example_capsule "capsule-1" 2] [example_event 1; example_event 2] 2 100.
Proof.
  destruct (permanent_gate_decides_publishable None []
    (example_snapshot "snapshot-1" None 2 ["capsule-1"])
    [example_capsule "capsule-1" 2] [example_event 1; example_event 2] 2 100)
    as (r & Hr & Hp & _).
  - intros c Hc. apply list_elem_of_singleton in Hc as ->. vm_compute. reflexivity.
  - vm_compute. discriminate.
  - vm_compute. discriminate.
  - exists r. split; [done|]. apply Hp. revert Hr. vm_compute. intros Hr. by injection Hr as <-.
Defined.
