(* ===== verification/PyJson.v ===== *)
(** JSON as [json.dumps] (with [ensure_ascii=False] and compact separators)
    writes it and [json.loads] reads it, on UTF-8 bytes.

    [json.loads] is the strict scanner of the Python standard library: it
    accepts [NaN], [Infinity] and [-Infinity], reads integers at any size up to
    the interpreter's digit limit, and rejects raw control characters.  An
    escaped lone surrogate is read as its three generalized UTF-8 bytes. *)
From S2P Require Import Prelude PyString PyFloat Domain.
From Stdlib Require Import Ascii String NArith SpecFloat.
Open Scope string_scope.
Open Scope list_scope.
Open Scope Z_scope.

Inductive json :=
| JNull
| JBool (b : bool)
| JInt (n : Z)
| JFloat (x : float)
| JConst (x : float) (* a float read from NaN, Infinity or -Infinity *)
| JStr (s : string)
| JArr (l : list json)
| JObj (members : list (string * json)).

(** ** Writing *)

(** [str(n)] of an integer, as characters. *)
Definition show_chars (n : Z) : list ascii := list_ascii_of_string (show_Z n).
(** [sys.get_int_max_str_digits()]: longer conversions raise [ValueError]. *)
Definition int_max_str_digits : Z := 4300.
Definition str_int (n : Z) : option string :=
  let s := show_Z n in
  if int_max_str_digits <? utf8_length s - (if n <? 0 then 1 else 0) then None else Some s.

(** Comma-separated parts. *)
Fixpoint comma_join (parts : list (list ascii)) : list ascii :=
  match parts with
  | [] => []
  | [p] => p
  | p :: rest => p ++ ","%char :: comma_join rest
  end.

(** [json.dumps(v, ensure_ascii=False, separators=(",", ":"))] of a value
    without floats (the sources only write strings, integers and containers);
    [float_repr] stands for [float.__repr__]. *)
Section dumps.
Context (float_repr : float -> list ascii).
Fixpoint dumps_chars (v : json) : list ascii :=
  match v with
  | JNull => list_ascii_of_string "null"
  | JBool true => list_ascii_of_string "true"
  | JBool false => list_ascii_of_string "false"
  | JInt n => show_chars n
  | JFloat x | JConst x => float_repr x
  | JStr s => json_chars s
  | JArr l => "["%char :: comma_join (map dumps_chars l) ++ ["]"%char]
  | JObj m => "{"%char :: comma_join (map (fun p => json_field p.1 (dumps_chars p.2)) m)
              ++ ["}"%char]
  end.
End dumps.

(** The values the sources dump: no floats, and integers within the digit limit. *)
Fixpoint dumpable (v : json) : bool :=
  match v with
  | JFloat _ | JConst _ => false
  | JInt n => len (show_chars (Z.abs n)) <=? int_max_str_digits
  | JArr l => forallb dumpable l
  | JObj m => forallb (fun p => dumpable p.2) m
  | _ => true
  end.

(** ** Reading *)

Definition code (c : ascii) : N := N_of_ascii c.
Definition is_ws (c : ascii) : bool :=
  (code c =? 32)%N || (code c =? 9)%N || (code c =? 10)%N || (code c =? 13)%N.
Fixpoint skip_ws (s : list ascii) : list ascii :=
  match s with
  | c :: r => if is_ws c then skip_ws r else s
  | [] => []
  end.
Definition is_digit (c : ascii) : bool := ((48 <=? code c) && (code c <=? 57))%N.
Definition digit_value (c : ascii) : Z := Z.of_N (code c) - 48.

Definition hex_value (c : ascii) : option N :=
  if is_digit c then Some (code c - 48)%N
  else if ((97 <=? code c) && (code c <=? 102))%N then Some (code c - 87)%N
  else if ((65 <=? code c) && (code c <=? 70))%N then Some (code c - 55)%N
  else None.
Definition hex4 (a b c d : ascii) : option N :=
  match hex_value a, hex_value b, hex_value c, hex_value d with
  | Some x, Some y, Some z, Some w => Some (x * 4096 + y * 256 + z * 16 + w)%N
  | _, _, _, _ => None
  end.
(** UTF-8 encoding of one code point. *)
Definition utf8_encode (cp : N) : list ascii :=
  map ascii_of_N
    (if (cp <? 128)%N then [cp]
     else if (cp <? 2048)%N then [192 + cp / 64; 128 + cp mod 64]
     else if (cp <? 65536)%N then [224 + cp / 4096; 128 + cp / 64 mod 64; 128 + cp mod 64]
     else [240 + cp / 262144; 128 + cp / 4096 mod 64; 128 + cp / 64 mod 64; 128 + cp mod 64])%N.
Definition high_surrogate (n : N) : bool := ((55296 <=? n) && (n <? 56320))%N.
Definition low_surrogate (n : N) : bool := ((56320 <=? n) && (n <? 57344))%N.

(** The one-character escapes. *)
Definition simple_escape (c : ascii) : option ascii :=
  if Ascii.eqb c quote then Some quote
  else if Ascii.eqb c backslash then Some backslash
  else if Ascii.eqb c "/"%char then Some "/"%char
  else if Ascii.eqb c "b"%char then Some (ascii_of_N 8)
  else if Ascii.eqb c "f"%char then Some (ascii_of_N 12)
  else if Ascii.eqb c "n"%char then Some (ascii_of_N 10)
  else if Ascii.eqb c "r"%char then Some (ascii_of_N 13)
  else if Ascii.eqb c "t"%char then Some (ascii_of_N 9)
  else None.

Definition prepend {B} (p : list ascii) (r : option (list ascii * B)) : option (list ascii * B) :=
  match r with Some (s, b) => Some (p ++ s, b) | None => None end.

(** The characters of a string up to its closing quote, and what follows. *)
Fixpoint parse_string (s : list ascii) : option (list ascii * list ascii) :=
  match s with
  | [] => None
  | c :: r =>
      if Ascii.eqb c quote then Some ([], r)
      else if Ascii.eqb c backslash then
        match r with
        | e :: r1 =>
            if Ascii.eqb e "u"%char then
              match r1 with
              | h1 :: h2 :: h3 :: h4 :: r2 =>
                  match hex4 h1 h2 h3 h4 with
                  | None => None
                  | Some n =>
                      if negb (high_surrogate n) then prepend (utf8_encode n) (parse_string r2)
                      else match r2 with
                      | b :: u :: l1 :: l2 :: l3 :: l4 :: r3 =>
                          match hex4 l1 l2 l3 l4 with
                          | Some m =>
                              if Ascii.eqb b backslash && Ascii.eqb u "u"%char && low_surrogate m
                              then prepend (utf8_encode (65536 + (n - 55296) * 1024 + (m - 56320))%N)
                                           (parse_string r3)
                              else prepend (utf8_encode n) (parse_string r2)
                          | None => prepend (utf8_encode n) (parse_string r2)
                          end
                      | _ => prepend (utf8_encode n) (parse_string r2)
                      end
                  end
              | _ => None
              end
            else match simple_escape e with
                 | Some x => prepend [x] (parse_string r1)
                 | None => None
                 end
        | [] => None
        end
      else if (code c <? 32)%N then None
      else prepend [c] (parse_string r)
  end.

(** A maximal run of digits. *)
Fixpoint span_digits (s : list ascii) : list ascii * list ascii :=
  match s with
  | c :: r => if is_digit c then let (d, t) := span_digits r in (c :: d, t) else ([], s)
  | [] => ([], [])
  end.
Definition digits_value (ds : list ascii) : Z := fold_left (fun acc c => acc * 10 + digit_value c) ds 0.

(** [float(text)] of mantissa [m] and decimal exponent [e]. *)
Definition decimal_float (negative : bool) (m e : Z) : float :=
  let magnitude := if 0 <=? e then f_div_Z (m * 10 ^ e) 1 else f_div_Z m (10 ^ (- e)) in
  if negative then f_neg magnitude else magnitude.

(** The optional [.digits] part: its digits and the rest. *)
Definition parse_fraction (s : list ascii) : option (list ascii) * list ascii :=
  match s with
  | c :: r => if Ascii.eqb c "."%char
              then match span_digits r with ([], _) => (None, s) | (d, t) => (Some d, t) end
              else (None, s)
  | [] => (None, s)
  end.
(** The optional exponent part. *)
Definition parse_exponent (s : list ascii) : option Z * list ascii :=
  match s with
  | c :: r =>
      if Ascii.eqb c "e"%char || Ascii.eqb c "E"%char then
        let '(sign, r1) := match r with
                           | d :: r' => if Ascii.eqb d "-"%char then (-1, r')
                                        else if Ascii.eqb d "+"%char then (1, r') else (1, r)
                           | [] => (1, r)
                           end in
        match span_digits r1 with
        | ([], _) => (None, s)
        | (d, t) => (Some (sign * digits_value d), t)
        end
      else (None, s)
  | [] => (None, s)
  end.

Definition parse_unsigned (negative : bool) (s : list ascii) : option (json * list ascii) :=
  let int_part := match s with
                  | c :: r => if Ascii.eqb c "0"%char then ([c], r) else span_digits s
                  | [] => ([], [])
                  end in
  match int_part with
  | ([], _) => None
  | (ds, r) =>
      let '(frac, r1) := parse_fraction r in
      let '(exp, r2) := parse_exponent r1 in
      match frac, exp with
      | None, None =>
          if int_max_str_digits <? len ds then None
          else Some (JInt (if negative then - digits_value ds else digits_value ds), r)
      | _, _ =>
          let f := default [] frac in
          Some (JFloat (decimal_float negative (digits_value (ds ++ f)) (default 0 exp - len f)), r2)
      end
  end.

(** The literal [word] at the head of [s]. *)
Fixpoint strip_word (word : list ascii) (s : list ascii) : option (list ascii) :=
  match word, s with
  | [], _ => Some s
  | w :: ws, c :: r => if Ascii.eqb w c then strip_word ws r else None
  | _, [] => None
  end.

Definition literals : list (string * json) :=
  [("null", JNull); ("true", JBool true); ("false", JBool false);
   ("NaN", JConst S754_nan); ("Infinity", JConst (S754_infinity false));
   ("-Infinity", JConst (S754_infinity true))].
Fixpoint parse_literal (table : list (string * json)) (s : list ascii) : option (json * list ascii) :=
  match table with
  | [] => None
  | (word, v) :: rest =>
      match strip_word (list_ascii_of_string word) s with
      | Some r => Some (v, r)
      | None => parse_literal rest s
      end
  end.

Definition parse_number (s : list ascii) : option (json * list ascii) :=
  match s with
  | c :: r => if Ascii.eqb c "-"%char then parse_unsigned true r else parse_unsigned false s
  | [] => None
  end.
Definition parse_atom (s : list ascii) : option (json * list ascii) :=
  match parse_literal literals s with Some r => Some r | None => parse_number s end.

(** The value at the head of the input; the fuel bounds the nesting of calls. *)
Fixpoint parse_value (fuel : nat) (s : list ascii) : option (json * list ascii) :=
  match fuel with
  | O => None
  | S fuel' =>
      match s with
      | [] => None
      | c :: r =>
          if Ascii.eqb c quote then
            match parse_string r with
            | Some (str, t) => Some (JStr (string_of_list_ascii str), t)
            | None => None
            end
          else if Ascii.eqb c "["%char then
            match skip_ws r with
            | d :: t => if Ascii.eqb d "]"%char then Some (JArr [], t)
                        else match parse_elements fuel' (d :: t) with
                             | Some (l, u) => Some (JArr l, u)
                             | None => None
                             end
            | [] => None
            end
          else if Ascii.eqb c "{"%char then
            match skip_ws r with
            | d :: t => if Ascii.eqb d "}"%char then Some (JObj [], t)
                        else match parse_members fuel' (d :: t) with
                             | Some (m, u) => Some (JObj m, u)
                             | None => None
                             end
            | [] => None
            end
          else parse_atom s
      end
  end
with parse_elements (fuel : nat) (s : list ascii) : option (list json * list ascii) :=
  match fuel with
  | O => None
  | S fuel' =>
      match parse_value fuel' s with
      | None => None
      | Some (v, r) =>
          match skip_ws r with
          | c :: t =>
              if Ascii.eqb c ","%char then
                match parse_elements fuel' (skip_ws t) with
                | Some (l, u) => Some (v :: l, u)
                | None => None
                end
              else if Ascii.eqb c "]"%char then Some ([v], t) else None
          | [] => None
          end
      end
  end
with parse_members (fuel : nat) (s : list ascii) : option (list (string * json) * list ascii) :=
  match fuel with
  | O => None
  | S fuel' =>
      match s with
      | q :: r =>
          if negb (Ascii.eqb q quote) then None else
          match parse_string r with
          | None => None
          | Some (key, r1) =>
              match skip_ws r1 with
              | colon :: r2 =>
                  if negb (Ascii.eqb colon ":"%char) then None else
                  match parse_value fuel' (skip_ws r2) with
                  | None => None
                  | Some (v, r3) =>
                      match skip_ws r3 with
                      | c :: t =>
                          if Ascii.eqb c ","%char then
                            match parse_members fuel' (skip_ws t) with
                            | Some (m, u) => Some ((string_of_list_ascii key, v) :: m, u)
                            | None => None
                            end
                          else if Ascii.eqb c "}"%char
                               then Some ([(string_of_list_ascii key, v)], t) else None
                      | [] => None
                      end
                  end
              | [] => None
              end
          end
      | [] => None
      end
  end.

(** [json.loads(text)] with [object_pairs_hook=list]: members keep their order
    and repetitions.  Every call of the scanner consumes a character or
    descends one level, so twice the length is fuel enough. *)
Definition json_loads (text : string) : option json :=
  let s := list_ascii_of_string text in
  match parse_value (S (2 * List.length s)) (skip_ws s) with
  | Some (v, r) => match skip_ws r with [] => Some v | _ => None end
  | None => None
  end.

(** The [dict] of the members: a repeated key keeps its first place and its
    last value. *)
Definition py_dict (members : list (string * json)) : list (string * json) :=
  fold_left (fun d p => if existsb (fun q => String.eqb q.1 p.1) d
                        then map (fun q => if String.eqb q.1 p.1 then p else q) d
                        else d ++ [p]) members [].

Definition json_dumps (v : json) : string :=
  string_of_list_ascii (dumps_chars (fun _ => []) v).

(** ** Lemmas: decimal integers *)

Lemma digit_spec d : 0 <= d < 10 -> is_digit (digit d) = true /\ digit_value (digit d) = d.
Proof.
  intros H. unfold is_digit, digit_value, digit, code.
  rewrite N_ascii_embedding by lia. split; [|lia].
  apply andb_true_iff. rewrite !N.leb_le. lia.
Qed.

Lemma digits_value_app ds1 ds2 :
  digits_value (ds1 ++ ds2) = digits_value ds1 * 10 ^ len ds2 + digits_value ds2.
Proof.
  unfold digits_value. rewrite fold_left_app. generalize (fold_left (fun acc c => acc * 10 + digit_value c) ds1 0).
  induction ds2 as [|c ds2 IH] using rev_ind; intros a; [rewrite len_nil, Z.pow_0_r; cbn [fold_left]; lia|].
  rewrite !fold_left_app. cbn [fold_left]. rewrite IH, len_app.
  change (len [c]) with 1. pose proof (len_nonneg ds2). rewrite Z.pow_add_r, Z.pow_1_r by lia. lia.
Qed.

Definition canonical_digits (n : Z) (ds : list ascii) : Prop :=
  forallb is_digit ds = true /\ digits_value ds = n
  /\ (exists c r, ds = c :: r /\ (n = 0 -> ds = ["0"%char]) /\ (0 < n -> Ascii.eqb c "0"%char = false)).

Lemma digit_nonzero d : 0 < d < 10 -> Ascii.eqb (digit d) "0"%char = false.
Proof.
  intros H. apply Ascii.eqb_neq. intros E. pose proof (digit_spec d ltac:(lia)) as [_ Hd].
  rewrite E in Hd. change (digit_value "0"%char) with 0 in Hd. lia.
Qed.

Lemma show_pos_canonical fuel n acc : 0 <= n < 2 ^ Z.of_nat fuel -> (0 < fuel)%nat ->
  exists ds, list_ascii_of_string (show_pos fuel n acc) = ds ++ list_ascii_of_string acc
             /\ canonical_digits n ds.
Proof.
  revert n acc. induction fuel as [|fuel IH]; intros n acc Hn Hf; [lia|]. cbn [show_pos].
  assert (Hd : 0 <= n mod 10 < 10) by (apply Z.mod_pos_bound; lia).
  destruct (digit_spec _ Hd) as [Hdig Hval].
  destruct (n / 10 =? 0) eqn:E; bool_hyps.
  - exists [digit (n mod 10)]. split; [done|].
    assert (n mod 10 = n) as Hm by zdiv. rewrite Hm in *.
    split; [by cbn; rewrite Hdig|]. split; [cbn; lia|].
    exists (digit n), []. split; [done|]. split; [by intros -> | intros; apply digit_nonzero; lia].
  - assert (0 < n / 10) by (assert (0 <= n / 10) by (apply Z.div_pos; lia); lia).
    replace (Z.of_nat (S fuel)) with (1 + Z.of_nat fuel) in Hn by lia.
    rewrite Z.pow_add_r, Z.pow_1_r in Hn by lia.
    assert (Hlt : 0 <= n / 10 < 2 ^ Z.of_nat fuel) by zdiv.
    assert (Hf' : (0 < fuel)%nat) by (destruct fuel; [cbn in Hlt; lia|lia]).
    destruct (IH (n / 10) (String (digit (n mod 10)) acc) Hlt Hf')
      as (ds & Hds & Hall & Hv & c & r & -> & Hz & Hp).
    exists ((c :: r) ++ [digit (n mod 10)]). rewrite <- app_assoc. split; [done|].
    split; [by rewrite forallb_app, Hall; cbn; rewrite Hdig|]. split.
    + rewrite digits_value_app, Hv. change (len [digit (n mod 10)]) with 1. rewrite Z.pow_1_r.
      unfold digits_value at 1. cbn [fold_left]. rewrite Hval. zdiv.
    + exists c, (r ++ [digit (n mod 10)]). split; [done|].
      split; [intros; zdiv | intros; apply Hp; lia].
Qed.

Lemma show_chars_nonneg n : 0 <= n -> canonical_digits n (show_chars n).
Proof.
  intros Hn. unfold show_chars, show_Z. rewrite (proj2 (Z.ltb_ge n 0)) by lia.
  destruct (show_pos_canonical (S (Z.to_nat (Z.log2 n))) n "") as (ds & Hds & Hc); [|lia|].
  - split; [lia|]. pose proof (Z.log2_nonneg n).
    replace (Z.of_nat (S (Z.to_nat (Z.log2 n)))) with (Z.succ (Z.log2 n)) by lia.
    destruct (Z.eq_dec n 0) as [->|]; [done|]. apply Z.log2_spec. lia.
  - rewrite Hds. cbn. by rewrite app_nil_r.
Qed.

Lemma show_chars_neg n : n < 0 -> show_chars n = "-"%char :: show_chars (- n).
Proof.
  intros Hn. unfold show_chars, show_Z. rewrite (proj2 (Z.ltb_lt n 0)) by lia.
  rewrite (proj2 (Z.ltb_ge (- n) 0)) by lia. done.
Qed.

(** [int(str(n)) == n], so [str] is injective. *)
Lemma show_Z_inj n m : 0 <= n -> 0 <= m -> show_Z n = show_Z m -> n = m.
Proof.
  intros Hn Hm E. destruct (show_chars_nonneg n Hn) as (_ & <- & _).
  destruct (show_chars_nonneg m Hm) as (_ & <- & _). unfold show_chars. by rewrite E.
Qed.

(** What may follow a number without extending it. *)
Definition ends_number (s : list ascii) : Prop :=
  match s with
  | [] => True
  | c :: _ => is_digit c = false /\ Ascii.eqb c "."%char = false
              /\ Ascii.eqb c "e"%char = false /\ Ascii.eqb c "E"%char = false
  end.

Lemma span_digits_app ds r :
  forallb is_digit ds = true -> ends_number r -> span_digits (ds ++ r) = (ds, r).
Proof.
  intros Hds Hr. induction ds as [|d ds IH]; cbn.
  - destruct r as [|c r]; [done|]. cbn. by destruct Hr as [-> _].
  - cbn in Hds. bool_hyps. by rewrite H, IH.
Qed.

Lemma ends_number_parts r : ends_number r ->
  parse_fraction r = (None, r) /\ parse_exponent r = (None, r).
Proof.
  destruct r as [|c r]; [done|]. intros (H1 & H2 & H3 & H4). cbn. by rewrite H2, H3, H4.
Qed.

Lemma parse_unsigned_digits negative n ds r :
  canonical_digits n ds -> 0 <= n -> len ds <= int_max_str_digits -> ends_number r ->
  parse_unsigned negative (ds ++ r) = Some (JInt (if negative then - n else n), r).
Proof.
  intros (Hall & Hv & c & t & -> & Hz & Hp) Hn Hl Hr.
  destruct (ends_number_parts r Hr) as [Hfr Hex]. unfold parse_unsigned.
  assert (E : (match (c :: t) ++ r with
          | c0 :: r0 => if Ascii.eqb c0 "0"%char then ([c0], r0) else span_digits ((c :: t) ++ r)
          | [] => ([], []) end) = (c :: t, r)).
  { cbn [app]. destruct (Z.eq_dec n 0) as [->|Hne].
    - specialize (Hz eq_refl). injection Hz as -> ->. done.
    - rewrite Hp by lia. by apply (span_digits_app (c :: t)). }
  rewrite E, Hfr, Hex. rewrite (proj2 (Z.ltb_ge _ _)) by done. by rewrite Hv.
Qed.

(** ** Lemmas: [json.loads(json.dumps(v)) == v] *)

Lemma json_nested_ind (P : json -> Prop) :
  P JNull -> (forall b, P (JBool b)) -> (forall n, P (JInt n)) -> (forall x, P (JFloat x)) -> (forall x, P (JConst x)) ->
  (forall s, P (JStr s)) -> (forall l, Forall P l -> P (JArr l)) ->
  (forall m, Forall (fun p => P p.2) m -> P (JObj m)) -> forall v, P v.
Proof.
  intros Hn Hb Hi Hf Hc Hs Ha Ho. fix IH 1.
  intros [| b | n | x | x | s | l | m]; [apply Hn | apply Hb | apply Hi | apply Hf | apply Hc | apply Hs | |].
  - apply Ha. induction l as [|v l IHl]; constructor; [apply IH | exact IHl].
  - apply Ho. induction m as [|p m IHm]; constructor; [apply IH | exact IHm].
Qed.

Lemma parse_escape c t : parse_string (json_escape c ++ t) = prepend [c] (parse_string t).
Proof. destruct c as [[] [] [] [] [] [] [] []]; reflexivity. Qed.

Lemma parse_string_body s r : parse_string (flat_map json_escape s ++ quote :: r) = Some (s, r).
Proof.
  induction s as [|c s IH]; [done|]. cbn [flat_map]. rewrite <- app_assoc, parse_escape, IH. done.
Qed.

Lemma json_chars_app s r :
  json_chars s ++ r = quote :: flat_map json_escape (list_ascii_of_string s) ++ quote :: r.
Proof. unfold json_chars. cbn [app]. by rewrite <- app_assoc. Qed.

Lemma digit_cases c : is_digit c = true -> c ∈ list_ascii_of_string "0123456789".
Proof.
  intros H. apply (bool_decide_unpack (c ∈ _)). revert H.
  destruct c as [[] [] [] [] [] [] [] []]; (discriminate || (intros _; vm_compute; exact I)).
Qed.

(** The first character of a dumped value. *)
Definition value_head (c : ascii) : bool :=
  negb (is_ws c) && negb (Ascii.eqb c "]"%char) && negb (Ascii.eqb c "}"%char).

Lemma show_chars_head n : exists c t, show_chars n = c :: t
  /\ (is_digit c = true \/ c = "-"%char /\ exists d t', t = d :: t' /\ is_digit d = true).
Proof.
  destruct (Z_lt_le_dec n 0) as [H|H].
  - rewrite show_chars_neg by done. destruct (show_chars_nonneg (- n)) as (Hd & _ & c & t & E & _); [lia|].
    rewrite E in *. cbn in Hd. bool_hyps. exists "-"%char, (c :: t). eauto 10.
  - destruct (show_chars_nonneg n H) as (Hd & _ & c & t & E & _).
    rewrite E in *. cbn in Hd. bool_hyps. eauto 10.
Qed.

Lemma dumps_head fr v : dumpable v = true -> exists c t, dumps_chars fr v = c :: t /\ value_head c = true.
Proof.
  destruct v as [| [] | n | x | x | s | l | m]; cbn; intros H; try discriminate; eauto.
  destruct (show_chars_head n) as (c & t & -> & [Hd|[-> _]]); [|eauto].
  exists c, t. split; [done|]. apply digit_cases in Hd.
  unfold value_head. set_unfold in Hd. decompose [or] Hd; subst; done.
Qed.

Lemma parse_value_int fuel n r :
  len (show_chars (Z.abs n)) <= int_max_str_digits -> ends_number r ->
  parse_value (S fuel) (show_chars n ++ r) = Some (JInt n, r).
Proof.
  intros Hl Hr.
  assert (Hu : parse_atom (show_chars n ++ r) = Some (JInt n, r)).
  { destruct (Z_lt_le_dec n 0) as [H|H].
    - rewrite Z.abs_neq in Hl by lia. rewrite show_chars_neg by done.
      destruct (show_chars_nonneg (- n)) as (Hd & Hv & c & t & E & Hzp); [lia|].
      assert (Hc : canonical_digits (- n) (show_chars (- n))) by (apply show_chars_nonneg; lia).
      cbn [app]. unfold parse_atom.
      assert (parse_literal literals ("-"%char :: show_chars (- n) ++ r) = None) as ->.
      { rewrite E in *. cbn in Hd. bool_hyps. apply digit_cases in H0.
        set_unfold in H0. decompose [or] H0; subst; try done. }
      cbn [parse_number]. change (Ascii.eqb "-"%char "-"%char) with true. cbn iota.
      rewrite (parse_unsigned_digits true (- n)) by (done || lia). by rewrite Z.opp_involutive.
    - rewrite Z.abs_eq in Hl by lia. pose proof (show_chars_nonneg n H) as Hc.
      destruct Hc as (Hd & Hv & c & t & E & Hzp).
      assert (Hc : canonical_digits n (show_chars n)) by (by apply show_chars_nonneg).
      rewrite <- (parse_unsigned_digits false n (show_chars n) r) by done.
      unfold parse_atom. rewrite E in *. cbn in Hd. bool_hyps. apply digit_cases in H0.
      cbn [app]. set_unfold in H0. decompose [or] H0; subst; done. }
  destruct (show_chars_head n) as (c & t & E & Hcases). rewrite E in *. cbn [app] in *.
  cbn [parse_value].
  assert (Ascii.eqb c quote = false /\ Ascii.eqb c "["%char = false /\ Ascii.eqb c "{"%char = false)
    as (-> & -> & ->).
  { destruct Hcases as [Hd|[-> _]]; [|done]. apply digit_cases in Hd.
    set_unfold in Hd. decompose [or] Hd; subst; done. }
  done.
Qed.

Lemma value_head_ws c t : value_head c = true -> skip_ws (c :: t) = c :: t.
Proof. unfold value_head. intros H. bool_hyps. cbn. by rewrite H. Qed.

Section roundtrip.
Context (fr : float -> list ascii).
Abbreviation dumps := (dumps_chars fr).
Definition reads (v : json) : Prop := dumpable v = true -> forall fuel r,
  (List.length (dumps v) <= fuel)%nat -> ends_number r ->
  parse_value fuel (dumps v ++ r) = Some (v, r).

Lemma parse_elements_dumps l : l <> [] -> Forall reads l -> forallb dumpable l = true ->
  forall fuel r, (List.length (comma_join (map dumps l)) < fuel)%nat ->
  parse_elements fuel (comma_join (map dumps l) ++ "]"%char :: r) = Some (l, r).
Proof.
  induction l as [|v l IH]; [done|]. intros _ Hall Hd fuel r Hf.
  apply Forall_cons in Hall as [Hv Hall]. cbn in Hd. bool_hyps.
  destruct fuel as [|fuel]; [lia|]. cbn [parse_elements].
  destruct l as [|w l]; cbn [map comma_join] in *.
  - rewrite Hv by (done || lia). done.
  - rewrite length_app in Hf. cbn [List.length] in Hf. rewrite <- app_assoc. cbn [app].
    rewrite Hv by (done || lia). cbn [skip_ws]. change (is_ws ","%char) with false. cbn iota.
    change (Ascii.eqb "," ",") with true. cbn iota.
    destruct (dumps_head fr w) as (c & t & E & Hc); [by cbn in H0; bool_hyps|].
    assert (Hs : skip_ws (comma_join (dumps w :: map dumps l) ++ "]"%char :: r)
                 = comma_join (dumps w :: map dumps l) ++ "]"%char :: r).
    { cbn [comma_join]. rewrite E. destruct (map dumps l); by apply value_head_ws. }
    cbn [map comma_join] in *. rewrite Hs, IH by (done || lia). done.
Qed.

Lemma parse_members_dumps m : m <> [] -> Forall (fun p => reads p.2) m ->
  forallb (fun p => dumpable p.2) m = true ->
  forall fuel r,
  (List.length (comma_join (map (fun p => json_field p.1 (dumps p.2)) m)) < fuel)%nat ->
  parse_members fuel (comma_join (map (fun p => json_field p.1 (dumps p.2)) m) ++ "}"%char :: r)
  = Some (m, r).
Proof.
  induction m as [|[k v] m IH]; [done|]. intros _ Hall Hd fuel r Hf.
  apply Forall_cons in Hall as [Hv Hall]. cbn in Hd, Hv. bool_hyps.
  destruct fuel as [|fuel]; [lia|]. cbn [parse_members].
  destruct (dumps_head fr v) as (c & t & E & Hc); [done|].
  assert (Hkey : forall u, json_field k (dumps v) ++ u
            = quote :: flat_map json_escape (list_ascii_of_string k)
              ++ quote :: ":"%char :: dumps v ++ u).
  { intros u. unfold json_field. rewrite <- app_assoc, json_chars_app. done. }
  assert (Hlen : (List.length (dumps v) < List.length (json_field k (dumps v)))%nat).
  { unfold json_field. rewrite length_app. cbn. lia. }
  destruct m as [|[k2 w] m]; cbn [map comma_join fst snd] in *.
  - rewrite Hkey. cbn [negb]. change (Ascii.eqb quote quote) with true. cbn iota.
    rewrite parse_string_body. cbn [skip_ws]. change (is_ws ":"%char) with false. cbn iota.
    change (Ascii.eqb ":" ":") with true. cbn [negb]. cbn iota.
    assert (skip_ws (dumps v ++ "}"%char :: r) = dumps v ++ "}"%char :: r) as ->
      by (rewrite E; by apply value_head_ws).
    rewrite Hv by (done || lia). cbn. by rewrite string_of_list_ascii_of_string.
  - rewrite length_app in Hf. cbn [List.length] in Hf. rewrite <- app_assoc.
    rewrite Hkey. cbn [negb app]. change (Ascii.eqb quote quote) with true. cbn iota.
    rewrite parse_string_body. cbn [skip_ws]. change (is_ws ":"%char) with false. cbn iota.
    change (Ascii.eqb ":" ":") with true. cbn [negb]. cbn iota.
    match goal with |- context [skip_ws (dumps v ++ ?u)] =>
      assert (skip_ws (dumps v ++ u) = dumps v ++ u) as -> by (rewrite E; by apply value_head_ws) end.
    rewrite Hv by (done || lia). cbn [skip_ws]. change (is_ws ","%char) with false. cbn iota.
    change (Ascii.eqb "," ",") with true. cbn iota.
    match goal with |- context [skip_ws ?u] =>
      assert (skip_ws u = u) as -> by (destruct (map _ m); apply (value_head_ws quote); done) end.
    rewrite IH by (done || lia). by rewrite string_of_list_ascii_of_string.
Qed.

Lemma parse_value_dumps v : reads v.
Proof.
  induction v as [| b | n | x | x | s | l IH | m IH] using json_nested_ind;
    intros Hd fuel r Hf Hr; destruct (dumps_head fr _ Hd) as (c & t & E & _);
    (destruct fuel as [|fuel]; [rewrite E in Hf; cbn in Hf; lia|]); clear c t E.
  - reflexivity.
  - by destruct b.
  - cbn in Hd. bool_hyps. by apply parse_value_int.
  - done.
  - done.
  - cbn [dumps_chars]. rewrite json_chars_app. cbn [parse_value].
    change (Ascii.eqb quote quote) with true. cbn iota. rewrite parse_string_body.
    by rewrite string_of_list_ascii_of_string.
  - destruct l as [|v l]; [done|]. cbn [dumpable] in Hd.
    assert (Hp := parse_elements_dumps (v :: l) ltac:(done) IH Hd fuel r).
    cbn [dumps_chars] in *. cbn [List.length] in Hf. rewrite length_app in Hf. cbn [List.length] in Hf.
    specialize (Hp ltac:(lia)). cbn [app]. rewrite <- app_assoc. cbn [app].
    cbn [forallb] in Hd. bool_hyps.
    destruct (dumps_head fr v) as (c & t & E & Hc); [done|].
    assert (Hs : exists u, comma_join (map dumps (v :: l)) ++ "]"%char :: r = c :: u).
    { cbn [map comma_join]. rewrite E. destruct (map dumps l); eexists; reflexivity. }
    destruct Hs as [u Hs]. rewrite Hs in *. cbn [parse_value].
    change (Ascii.eqb "[" quote) with false. change (Ascii.eqb "[" "[") with true. cbn iota.
    rewrite value_head_ws by done.
    assert (Ascii.eqb c "]"%char = false) as -> by (unfold value_head in Hc; bool_hyps; done).
    by rewrite Hp.
  - destruct m as [|[k v] m]; [done|]. cbn [dumpable] in Hd.
    assert (Hp := parse_members_dumps ((k, v) :: m) ltac:(done) IH Hd fuel r).
    cbn [dumps_chars] in *. cbn [List.length] in Hf. rewrite length_app in Hf. cbn [List.length] in Hf.
    specialize (Hp ltac:(lia)). cbn [app]. rewrite <- app_assoc. cbn [app].
    assert (Hs : exists u, comma_join (map (fun p => json_field p.1 (dumps p.2)) ((k, v) :: m))
              ++ "}"%char :: r = quote :: u).
    { cbn [map comma_join fst snd]. unfold json_field, json_chars. destruct (map _ m); eexists; reflexivity. }
    destruct Hs as [u Hs]. rewrite Hs in *. cbn [parse_value].
    change (Ascii.eqb "{" quote) with false. change (Ascii.eqb "{" "[") with false.
    change (Ascii.eqb "{" "{") with true. cbn iota.
    rewrite value_head_ws by done. change (Ascii.eqb quote "}") with false. cbn iota. by rewrite Hp.
Qed.
End roundtrip.

(** [json.loads(json.dumps(v)) == v], however floats print *)
Lemma json_loads_dumped fr v : dumpable v = true -> json_loads (string_of_list_ascii (dumps_chars fr v)) = Some v.
Proof.
  intros Hd. unfold json_loads. rewrite list_ascii_of_string_of_list_ascii.
  destruct (dumps_head fr v Hd) as (c & t & E & Hc). rewrite E, value_head_ws by done. rewrite <- E.
  pose proof (parse_value_dumps fr v Hd (S (2 * List.length (dumps_chars fr v))) [] ltac:(lia) I) as H.
  rewrite app_nil_r in H. by rewrite H.
Qed.
Lemma json_loads_dumps v : dumpable v = true -> json_loads (json_dumps v) = Some v.
Proof. apply json_loads_dumped. Qed.

Lemma json_dumps_inj v w : dumpable v = true -> dumpable w = true ->
  json_dumps v = json_dumps w -> v = w.
Proof.
  intros Hv Hw E. apply json_loads_dumps in Hv. apply json_loads_dumps in Hw. congruence.
Qed.
