(* ===== verification/Crypto.v ===== *)
(** Authenticated envelopes of [astrcontinuum/storage/crypto.py]: canonical
    base64url, key texts, the associated data, and the [SecureCodec] that the
    storage tables go through.  The AES-GCM primitive is an interface ([AEAD]);
    the nonces [secrets.token_bytes] draws are an argument of every operation
    that encrypts.  [bytes] values are [string]s of bytes. *)
From S2P Require Import Prelude PyString PyFloat Domain PyJson.
From Stdlib Require Import Ascii String NArith.
Open Scope string_scope.
Open Scope list_scope.
Open Scope Z_scope.

Inductive SecurityErrorCode :=
| STORAGE_KEY_MISSING | STORAGE_KEY_INVALID | STORAGE_KEY_FILE_UNSAFE
| STORAGE_LOCAL_KEY_CREATE_FAILED | STORAGE_KEY_MISMATCH | STORAGE_PREVIOUS_KEY_REQUIRED
| STORAGE_ENVELOPE_INVALID | STORAGE_AUTHENTICATION_FAILED | STORAGE_LEGACY_VALIDATION_FAILED
| STORAGE_MIGRATION_FAILED | STORAGE_REKEY_FAILED | STORAGE_SCRUB_FAILED.
#[export] Instance SecurityErrorCode_eq_dec : EqDecision SecurityErrorCode.
Proof. solve_decision. Defined.

(** [_invalid()] with its default code. *)
Abbreviation invalid := (Err STORAGE_ENVELOPE_INVALID).

Definition KEY_BYTES : Z := 32.
Definition NONCE_BYTES : Z := 12.
Definition TAG_BYTES : Z := 16.
Definition KEY_ID_HEX_CHARS : nat := 16.
Definition ENVELOPE_PREFIX : string := "acenc".
Definition ENVELOPE_VERSION : string := "v1".
Definition ENCRYPTED_JSON_MARKER : string := "$astrcontinuum_encrypted".
Definition DEFAULT_MAX_PLAINTEXT_BYTES : Z := 8 * 1024 * 1024.
Definition DEFAULT_MAX_ENVELOPE_CHARS : Z := 12 * 1024 * 1024.
Definition _AAD_NAMESPACE : list string := ["astrcontinuum"; "envelope-v1"].

(** ** base64url *)

Definition byte_list (s : string) : list N := bytes_of s.
Definition of_byte_list (l : list N) : string := string_of_list_ascii (map ascii_of_N l).

(** The 64 letters of [base64.urlsafe_b64encode]. *)
Definition b64_char (n : N) : ascii :=
  ascii_of_N (if n <? 26 then 65 + n else if n <? 52 then 71 + n else if n <? 62 then n - 4
              else if n =? 62 then 45 else 95)%N.
Definition b64_value (c : ascii) : option N :=
  let n := N_of_ascii c in
  if ((65 <=? n) && (n <=? 90))%N then Some (n - 65)%N
  else if ((97 <=? n) && (n <=? 122))%N then Some (n - 71)%N
  else if ((48 <=? n) && (n <=? 57))%N then Some (n + 4)%N
  else if (n =? 45)%N then Some 62%N
  else if (n =? 95)%N then Some 63%N
  else None.

Fixpoint b64_sextets (bs : list N) : list N :=
  match bs with
  | a :: b :: c :: r =>
      (a / 4)%N :: (a mod 4 * 16 + b / 16)%N :: (b mod 16 * 4 + c / 64)%N :: (c mod 64)%N
      :: b64_sextets r
  | [a; b] => [a / 4; a mod 4 * 16 + b / 16; b mod 16 * 4]%N
  | [a] => [a / 4; a mod 4 * 16]%N
  | [] => []
  end.
(** [base64.b64decode] of the padded text: the bits past the last byte are
    dropped, a single leftover letter is an error. *)
Fixpoint b64_bytes (ss : list N) : option (list N) :=
  match ss with
  | a :: b :: c :: d :: r =>
      l ← b64_bytes r;
      Some ((a * 4 + b / 16) :: (b mod 16 * 16 + c / 4) :: (c mod 4 * 64 + d) :: l)%N
  | [a; b; c] => Some [a * 4 + b / 16; b mod 16 * 16 + c / 4]%N
  | [a; b] => Some [a * 4 + b / 16]%N
  | [_] => None
  | [] => Some []
  end.

Definition _base64url_encode (value : string) : string :=
  string_of_list_ascii (map b64_char (b64_sextets (byte_list value))).

Definition _base64url_decode (value : string) : result SecurityErrorCode string :=
  raise STORAGE_ENVELOPE_INVALID when
    (is_empty value || negb (forallb (fun c => is_some (b64_value c)) (chars value)));;
  match mapM b64_value (chars value) ≫= b64_bytes with
  | None => invalid
  | Some decoded_bytes =>
      let decoded := of_byte_list decoded_bytes in
      raise STORAGE_ENVELOPE_INVALID when (_base64url_encode decoded !=? value);;
      Ok decoded
  end.

(** ** Keys *)

Definition _raw_key (value : string) : result SecurityErrorCode string :=
  raise STORAGE_KEY_INVALID when (negb (utf8_length value =? KEY_BYTES));; Ok value.

Definition encode_key_text (raw_key : string) : result SecurityErrorCode string :=
  key ← _raw_key raw_key; Ok (_base64url_encode key).

Definition parse_key_text (value : string) : result SecurityErrorCode string :=
  raise STORAGE_KEY_INVALID when
    (negb ((utf8_length value =? 43) && forallb (fun c => is_some (b64_value c)) (chars value)));;
  match mapM b64_value (chars value) ≫= b64_bytes with
  | None => Err STORAGE_KEY_INVALID
  | Some decoded_bytes =>
      let decoded := of_byte_list decoded_bytes in
      raise STORAGE_KEY_INVALID when (negb (utf8_length decoded =? KEY_BYTES));;
      text ← encode_key_text decoded;
      raise STORAGE_KEY_INVALID when (text !=? value);; Ok decoded
  end.

(** [text[:n]] of an ASCII text. *)
Definition ascii_prefix (n : nat) (s : string) : string := string_of_list_ascii (take n (chars s)).

Definition key_id_for `{Sha256} (raw_key : string) : result SecurityErrorCode string :=
  key ← _raw_key raw_key; Ok (ascii_prefix KEY_ID_HEX_CHARS (sha256_hexdigest key)).

(** ** Associated data *)

(** [n.to_bytes(4, "big")] *)
Definition be32 (n : Z) : string :=
  of_byte_list (map (fun k => Z.to_N (Z.shiftr n k mod 256)) [24; 16; 8; 0]).

Definition _aad_field (value : string) : result SecurityErrorCode string :=
  raise STORAGE_ENVELOPE_INVALID when (is_empty value || (4096 <? py_len value));;
  raise STORAGE_ENVELOPE_INVALID when (negb (utf8_valid value));;
  raise STORAGE_ENVELOPE_INVALID when (65535 <? utf8_length value);;
  Ok (be32 (utf8_length value) +:+ value).

Fixpoint aad_fields (values : list string) : result SecurityErrorCode string :=
  match values with
  | [] => Ok ""
  | value :: rest => field ← _aad_field value; tail ← aad_fields rest; Ok (field +:+ tail)
  end.
Definition _aad (table column record_key : string) : result SecurityErrorCode string :=
  aad_fields (_AAD_NAMESPACE ++ [table; column; record_key]).

(** ** The AEAD primitive *)

Inductive aead_error := InvalidTag | AeadValueError.
Class AEAD := {
  aead_encrypt : string -> string -> string -> string -> result aead_error string;
  aead_decrypt : string -> string -> string -> string -> result aead_error string;
}.
(** [AESGCM(key)]: [encrypt(nonce, data, aad)], [decrypt(nonce, data, aad)].
    The documented behaviour the codec relies on. *)
Class AEADLaws `{AEAD} := {
  aead_round_trip : forall key nonce data aad c,
    aead_encrypt key nonce data aad = Ok c -> aead_decrypt key nonce c aad = Ok data;
  aead_length : forall key nonce data aad c,
    aead_encrypt key nonce data aad = Ok c -> utf8_length c = utf8_length data + TAG_BYTES;
}.
(** [hexdigest()] is 64 lower-case hexadecimal digits. *)
Definition is_lower_hex (c : ascii) : bool :=
  is_digit c || ((97 <=? N_of_ascii c) && (N_of_ascii c <=? 102))%N.
Class Sha256Laws `{Sha256} :=
  sha256_hex : forall x, utf8_length (sha256_hexdigest x) = 64
                         /\ forallb is_lower_hex (chars (sha256_hexdigest x)) = true.

(** ** [SecureCodec] *)

Record SecureCodec := {
  sc_key : string;
  sc_key_id : string;
  sc_max_envelope_chars : Z;
  sc_max_plaintext_bytes : Z;
}.

Definition SecureCodec_init `{Sha256} (raw_key : string)
    (max_plaintext_bytes max_envelope_chars : Z) : result SecurityErrorCode SecureCodec :=
  key ← _raw_key raw_key;
  raise STORAGE_ENVELOPE_INVALID when ((max_plaintext_bytes <? 0) || (max_envelope_chars <? 64));;
  key_id ← key_id_for key;
  Ok {| sc_key := key; sc_key_id := key_id; sc_max_envelope_chars := max_envelope_chars;
        sc_max_plaintext_bytes := max_plaintext_bytes |}.

(** The nonces drawn by one operation, by table, column and record key. *)
Definition Nonces := string -> string -> string -> string.

Definition _json_container (value : string) (expected : json -> bool)
    (k : result SecurityErrorCode string) : result SecurityErrorCode string :=
  match json_loads value with
  | None => invalid
  | Some parsed => raise STORAGE_ENVELOPE_INVALID when (negb (expected parsed));; k
  end.
Definition is_dict (v : json) : bool := match v with JObj _ => true | _ => false end.
Definition is_list (v : json) : bool := match v with JArr _ => true | _ => false end.

Section codec.
Context `{AEAD} (codec : SecureCodec).

Definition encrypt_text (nonces : Nonces) (table column record_key plaintext : string)
    : result SecurityErrorCode string :=
  raise STORAGE_ENVELOPE_INVALID when (negb (utf8_valid plaintext));;
  raise STORAGE_ENVELOPE_INVALID when (sc_max_plaintext_bytes codec <? utf8_length plaintext);;
  let nonce := nonces table column record_key in
  aad ← _aad table column record_key;
  match aead_encrypt (sc_key codec) nonce plaintext aad with
  | Err _ => invalid
  | Ok ciphertext =>
      let envelope := py_join ":" [ENVELOPE_PREFIX; ENVELOPE_VERSION; sc_key_id codec;
                                   _base64url_encode nonce; _base64url_encode ciphertext] in
      raise STORAGE_ENVELOPE_INVALID when (sc_max_envelope_chars codec <? py_len envelope);;
      Ok envelope
  end.

Definition decrypt_text (table column record_key envelope : string)
    : result SecurityErrorCode string :=
  raise STORAGE_ENVELOPE_INVALID when
    (is_empty envelope || (sc_max_envelope_chars codec <? py_len envelope));;
  match py_split ":"%char envelope with
  | [prefix; version; key_id; nonce_text; ciphertext_text] =>
      raise STORAGE_ENVELOPE_INVALID when
        ((prefix !=? ENVELOPE_PREFIX) || (version !=? ENVELOPE_VERSION)
         || negb ((utf8_length key_id =? 16) && forallb is_lower_hex (chars key_id)));;
      nonce ← _base64url_decode nonce_text;
      ciphertext ← _base64url_decode ciphertext_text;
      raise STORAGE_ENVELOPE_INVALID when
        (negb (utf8_length nonce =? NONCE_BYTES) || (utf8_length ciphertext <? TAG_BYTES));;
      raise STORAGE_KEY_MISMATCH when (key_id !=? sc_key_id codec);;
      aad ← _aad table column record_key;
      match aead_decrypt (sc_key codec) nonce ciphertext aad with
      | Err InvalidTag => Err STORAGE_AUTHENTICATION_FAILED
      | Err AeadValueError => invalid
      | Ok plaintext =>
          raise STORAGE_ENVELOPE_INVALID when
            (sc_max_plaintext_bytes codec <? utf8_length plaintext);;
          raise STORAGE_ENVELOPE_INVALID when (negb (utf8_valid plaintext));;
          Ok plaintext
      end
  | _ => invalid
  end.

Definition encrypt_non_negative_int (nonces : Nonces) (table column record_key : string)
    (value : Z) : result SecurityErrorCode string :=
  raise STORAGE_ENVELOPE_INVALID when (value <? 0);;
  match str_int value with
  | None => invalid
  | Some plaintext => encrypt_text nonces table column record_key plaintext
  end.

Definition decrypt_non_negative_int (table column record_key envelope : string)
    : result SecurityErrorCode Z :=
  plaintext ← decrypt_text table column record_key envelope;
  raise STORAGE_ENVELOPE_INVALID when
    (is_empty plaintext || negb (forallb is_digit (chars plaintext))
     || ((plaintext !=? "0") && match chars plaintext with
                                | c :: _ => Ascii.eqb c "0"%char
                                | [] => false
                                end));;
  raise STORAGE_ENVELOPE_INVALID when (int_max_str_digits <? len (chars plaintext));;
  let value := digits_value (chars plaintext) in
  raise STORAGE_ENVELOPE_INVALID when ((value <? 0) || (show_Z value !=? plaintext));;
  Ok value.

Definition encrypt_object_json (nonces : Nonces) (table column record_key canonical_json : string)
    : result SecurityErrorCode string :=
  _json_container canonical_json is_dict (
  envelope ← encrypt_text nonces table column record_key canonical_json;
  Ok (json_dumps (JObj [(ENCRYPTED_JSON_MARKER, JStr envelope)]))).

Definition decrypt_object_json (table column record_key sentinel_json : string)
    : result SecurityErrorCode string :=
  match json_loads sentinel_json with
  | Some (JObj members) =>
      match py_dict members with
      | [(marker, JStr envelope)] =>
          raise STORAGE_ENVELOPE_INVALID when (marker !=? ENCRYPTED_JSON_MARKER);;
          plaintext ← decrypt_text table column record_key envelope;
          _json_container plaintext is_dict (Ok plaintext)
      | _ => invalid
      end
  | _ => invalid
  end.

Definition encrypt_array_json (nonces : Nonces) (table column record_key canonical_json : string)
    : result SecurityErrorCode string :=
  _json_container canonical_json is_list (
  envelope ← encrypt_text nonces table column record_key canonical_json;
  Ok (json_dumps (JArr [JStr ENCRYPTED_JSON_MARKER; JStr envelope]))).

Definition decrypt_array_json (table column record_key sentinel_json : string)
    : result SecurityErrorCode string :=
  match json_loads sentinel_json with
  | Some (JArr [JStr marker; JStr envelope]) =>
      raise STORAGE_ENVELOPE_INVALID when (marker !=? ENCRYPTED_JSON_MARKER);;
      plaintext ← decrypt_text table column record_key envelope;
      _json_container plaintext is_list (Ok plaintext)
  | _ => invalid
  end.
End codec.

(** ** The forms the tables' CHECK clauses require *)

(** [substr(x, 1, 9) = 'acenc:v1:'] *)
Definition is_envelope (s : string) : bool :=
  match strip_word (chars "acenc:v1:") (chars s) with Some _ => true | None => false end.
(** The JSON sentinels: an object of the marker alone, an array of the marker
    and a text. *)
Definition object_sentinel (s : string) : bool :=
  match json_loads s with
  | Some (JObj [(marker, JStr _)]) => marker ==? ENCRYPTED_JSON_MARKER
  | _ => false
  end.
Definition array_sentinel (s : string) : bool :=
  match json_loads s with
  | Some (JArr [JStr marker; JStr _]) => marker ==? ENCRYPTED_JSON_MARKER
  | _ => false
  end.

(** ** Lemmas: base64url *)

Ltac ndiv := zify; Z.to_euclidean_division_equations; lia.

Lemma of_byte_list_bytes s : of_byte_list (byte_list s) = s.
Proof.
  unfold of_byte_list, byte_list, bytes_of. rewrite map_map.
  transitivity (string_of_list_ascii (list_ascii_of_string s));
    [|apply string_of_list_ascii_of_string].
  f_equal. transitivity (map id (list_ascii_of_string s)); [|apply map_id].
  apply map_ext. intros c. apply ascii_N_embedding.
Qed.

Definition all_below (n : N) (l : list N) : Prop := Forall (fun b => (b < n)%N) l.

Lemma byte_list_below s : all_below 256 (byte_list s).
Proof.
  unfold byte_list, bytes_of. apply Forall_map, Forall_true. intros c. apply N_ascii_bounded.
Qed.

Lemma three_step_ind {A} (P : list A -> Prop) :
  P [] -> (forall a, P [a]) -> (forall a b, P [a; b]) ->
  (forall a b c l, P l -> P (a :: b :: c :: l)) -> forall l, P l.
Proof.
  intros H0 H1 H2 H3. fix IH 1. intros [|a [|b [|c l]]]; [apply H0|apply H1|apply H2|].
  apply H3, IH.
Qed.

Lemma b64_sextets_below bs : all_below 256 bs -> all_below 64 (b64_sextets bs).
Proof.
  induction bs as [|a|a b|a b c l IH] using three_step_ind; unfold all_below in *; intros Hb;
    rewrite ?Forall_cons in Hb; cbn [b64_sextets]; rewrite ?Forall_cons.
  - constructor.
  - split_and!; [ndiv..|constructor].
  - split_and!; [ndiv..|constructor].
  - destruct Hb as (? & ? & ? & Hb). split_and!; [ndiv..|by apply IH].
Qed.

Lemma b64_sextets_length bs :
  len (b64_sextets bs) = (4 * len bs + 2) / 3.
Proof.
  induction bs as [|a|a b|a b c l IH] using three_step_ind; [done..|].
  cbn [b64_sextets]. rewrite !len_cons, IH. zdiv.
Qed.

Lemma b64_bytes_sextets bs : all_below 256 bs -> b64_bytes (b64_sextets bs) = Some bs.
Proof.
  induction bs as [|a|a b|a b c l IH] using three_step_ind; unfold all_below in *; intros Hb;
    rewrite ?Forall_cons in Hb; cbn [b64_sextets b64_bytes].
  - done.
  - do 2 f_equal. ndiv.
  - do 2 f_equal; [ndiv|]. f_equal. ndiv.
  - destruct Hb as (? & ? & ? & Hb). rewrite IH by done. cbn. do 2 f_equal; [ndiv|].
    f_equal; [ndiv|]. f_equal. ndiv.
Qed.

Definition b64_round_trip (n : N) : bool := eqb_of (b64_value (b64_char n)) (Some n).
Lemma b64_value_char n : (n < 64)%N -> b64_value (b64_char n) = Some n.
Proof.
  intros H. assert (Hall : forallb b64_round_trip (map N.of_nat (seq 0 64)) = true)
    by (vm_compute; reflexivity).
  rewrite forallb_true_iff in Hall. specialize (Hall n).
  unfold b64_round_trip, eqb_of in Hall. rewrite bool_decide_eq_true in Hall. apply Hall.
  apply list_elem_of_fmap. exists (N.to_nat n). rewrite N2Nat.id. split; [done|].
  apply elem_of_seq. lia.
Qed.

Lemma mapM_b64 ss : all_below 64 ss -> mapM b64_value (map b64_char ss) = Some ss.
Proof.
  induction 1 as [|n ss Hn H IH]; [done|]. cbn. rewrite b64_value_char by done. cbn.
  rewrite IH. done.
Qed.

Lemma chars_of_list l : chars (string_of_list_ascii l) = l.
Proof. apply list_ascii_of_string_of_list_ascii. Qed.

Lemma encode_chars x : chars (_base64url_encode x) = map b64_char (b64_sextets (byte_list x)).
Proof. unfold _base64url_encode. apply chars_of_list. Qed.

Lemma encode_alphabet x : forallb (fun c => is_some (b64_value c)) (chars (_base64url_encode x)) = true.
Proof.
  rewrite encode_chars. apply forallb_true_iff. intros c (n & -> & Hn)%list_elem_of_fmap.
  pose proof (b64_sextets_below _ (byte_list_below x)) as Hb.
  rewrite b64_value_char; [done|]. by eapply (proj1 (Forall_forall _ _)) in Hb.
Qed.

Lemma encode_decodes x :
  mapM b64_value (chars (_base64url_encode x)) ≫= b64_bytes = Some (byte_list x).
Proof.
  pose proof (byte_list_below x) as Hb. rewrite encode_chars, mapM_b64 by by apply b64_sextets_below.
  cbn. by apply b64_bytes_sextets.
Qed.

Lemma encode_nonempty x : is_empty x = false -> is_empty (_base64url_encode x) = false.
Proof.
  intros Hx. pose proof (encode_chars x) as H. destruct (_base64url_encode x); [|done].
  symmetry in H. apply map_eq_nil in H. destruct x as [|c x]; [done|].
  unfold byte_list, bytes_of in H. cbn [list_ascii_of_string map] in H.
  destruct (map N_of_ascii (list_ascii_of_string x)) as [|b [|d l]]; cbn [b64_sextets] in H; discriminate H.
Qed.

Lemma decode_encode x : is_empty x = false -> _base64url_decode (_base64url_encode x) = Ok x.
Proof.
  intros Hx. unfold _base64url_decode. rewrite (encode_nonempty _ Hx), encode_alphabet, encode_decodes.
  cbn. rewrite of_byte_list_bytes. rewrite raise_if_false; [done|].
  apply negb_false_iff. by apply (py_eq_leibniz (A:=string)).
Qed.

(** Only canonical texts decode. *)
Lemma decode_canonical text x : _base64url_decode text = Ok x -> text = _base64url_encode x.
Proof.
  unfold _base64url_decode. intros [_ H]%raise_if_ok.
  destruct (mapM _ _ ≫= _) as [bs|]; [|discriminate].
  apply raise_if_ok in H as [He [= <-]]. apply negb_false_iff in He.
  by apply (py_eq_leibniz (A:=string)) in He.
Qed.

(** ** Lemmas: associated data *)

Lemma list4_inj {A} (a b c d a' b' c' d' : A) :
  [a; b; c; d] = [a'; b'; c'; d'] -> a = a' /\ b = b' /\ c = c' /\ d = d'.
Proof. by intros [= -> -> -> ->]. Qed.

Lemma byte_inj x y : ascii_of_N (Z.to_N (x mod 256)) = ascii_of_N (Z.to_N (y mod 256)) ->
  x mod 256 = y mod 256.
Proof.
  intros H. apply (f_equal N_of_ascii) in H.
  pose proof (Z.mod_pos_bound x 256). pose proof (Z.mod_pos_bound y 256).
  rewrite !N_ascii_embedding in H by lia. lia.
Qed.

Lemma be32_inj n m : 0 <= n < 2 ^ 32 -> 0 <= m < 2 ^ 32 -> be32 n = be32 m -> n = m.
Proof.
  intros Hn Hm E. unfold be32, of_byte_list in E.
  apply (f_equal chars) in E. rewrite !chars_of_list in E. unfold map in E.
  apply list4_inj in E as (E1%byte_inj & E2%byte_inj & E3%byte_inj & E4%byte_inj).
  rewrite !Z.shiftr_div_pow2 in * by lia.
  change (2 ^ 24) with 16777216 in *. change (2 ^ 16) with 65536 in *.
  change (2 ^ 8) with 256 in *. change (2 ^ 0) with 1 in *. change (2 ^ 32) with 4294967296 in *. zdiv.
Qed.

Lemma be32_length n : List.length (chars (be32 n)) = 4%nat.
Proof. unfold be32, of_byte_list. by rewrite chars_of_list. Qed.

Lemma chars_app a b : chars (a +:+ b) = chars a ++ chars b.
Proof. apply list_ascii_of_string_app. Qed.
Lemma chars_inj a b : chars a = chars b -> a = b.
Proof.
  intros E. rewrite <- (string_of_list_ascii_of_string a), <- (string_of_list_ascii_of_string b).
  unfold chars in E. by rewrite E.
Qed.
Lemma utf8_length_chars s : utf8_length s = len (chars s).
Proof. unfold utf8_length, len, chars. f_equal. induction s; cbn; congruence. Qed.

Lemma aad_field_ok v f : _aad_field v = Ok f ->
  f = be32 (utf8_length v) +:+ v /\ 0 <= utf8_length v < 2 ^ 32.
Proof.
  unfold _aad_field. intros (_ & (_ & (H & [= <-])%raise_if_ok)%raise_if_ok)%raise_if_ok.
  bool_hyps. pose proof (utf8_length_nonneg v). split; [done|]. lia.
Qed.

Lemma aad_fields_inj vs ws a : List.length vs = List.length ws ->
  aad_fields vs = Ok a -> aad_fields ws = Ok a -> vs = ws.
Proof.
  enough (forall a b u w, List.length vs = List.length ws -> aad_fields vs = Ok a ->
    aad_fields ws = Ok b -> chars a ++ u = chars b ++ w -> vs = ws) as H
    by (intros Hl H1 H2; apply (H a a [] [] Hl H1 H2 eq_refl)).
  clear a. revert ws. induction vs as [|v vs IH]; intros [|x ws] a b u w Hl Hv Hw E; try done.
  cbn in Hv, Hw.
  apply result_bind_ok in Hv as (f & Hf & (t & Ht & [= <-])%result_bind_ok).
  apply result_bind_ok in Hw as (g & Hg & (s & Hs & [= <-])%result_bind_ok).
  apply aad_field_ok in Hf as [-> Hbv]. apply aad_field_ok in Hg as [-> Hbx].
  rewrite !chars_app, <- !app_assoc in E.
  apply app_inj_1 in E as [E1 E]; [|by rewrite !be32_length].
  apply chars_inj, be32_inj in E1; [|done..].
  apply app_inj_1 in E as [E2 E];
    [|rewrite !utf8_length_chars in E1; unfold len in E1; lia].
  apply chars_inj in E2 as ->. f_equal. eapply IH; eauto.
Qed.

(** ** Lemmas: the codec *)

Definition nonces_ok (nonces : Nonces) : Prop :=
  forall table column record_key, utf8_length (nonces table column record_key) = NONCE_BYTES.
(** A codec [SecureCodec(...)] built. *)
Definition codec_ok (codec : SecureCodec) : Prop :=
  utf8_length (sc_key_id codec) = 16 /\ forallb is_lower_hex (chars (sc_key_id codec)) = true.

Lemma SecureCodec_init_ok `{Sha256Laws} raw mp me codec :
  SecureCodec_init raw mp me = Ok codec -> codec_ok codec.
Proof.
  unfold SecureCodec_init, key_id_for.
  intros (key & _ & (_ & (kid & (k2 & _ & [= <-])%result_bind_ok & [= <-])%result_bind_ok)%raise_if_ok)%result_bind_ok.
  cbn. destruct (sha256_hex k2) as [Hl Hh]. unfold ascii_prefix, codec_ok. cbn.
  rewrite utf8_length_chars, chars_of_list in *. unfold KEY_ID_HEX_CHARS. split.
  - unfold len in *. rewrite length_take. lia.
  - rewrite <- (take_drop 16 (chars (sha256_hexdigest k2))), forallb_app in Hh. bool_hyps.
    by rewrite list_ascii_of_string_of_list_ascii.
Qed.

Lemma encode_no_colon x : ":"%char ∉ chars (_base64url_encode x).
Proof.
  intros Hc. pose proof (encode_alphabet x) as H. rewrite forallb_true_iff in H.
  specialize (H _ Hc). vm_compute in H. discriminate.
Qed.
Lemma hex_no_colon s : forallb is_lower_hex (chars s) = true -> ":"%char ∉ chars s.
Proof. intros H Hc. rewrite forallb_true_iff in H. specialize (H _ Hc). vm_compute in H. discriminate. Qed.

Lemma nonempty_length s : 0 < utf8_length s -> is_empty s = false.
Proof. by destruct s. Qed.

Section codec_lemmas.
Context `{AEADLaws} (codec : SecureCodec) (Hcodec : codec_ok codec).
Context (nonces : Nonces) (Hnonces : nonces_ok nonces).

Lemma decrypt_encrypt_text t c k x e :
  encrypt_text codec nonces t c k x = Ok e -> decrypt_text codec t c k e = Ok x.
Proof.
  unfold encrypt_text. intros (Hu & (Hm & (aad & Haad & He)%result_bind_ok)%raise_if_ok)%raise_if_ok.
  destruct (aead_encrypt _ _ _ _) as [ct|] eqn:Ect; [|discriminate].
  apply raise_if_ok in He as [Hl <-%Ok_inj].
  pose proof (aead_length _ _ _ _ _ Ect) as Hlen. pose proof (utf8_length_nonneg x).
  pose proof (Hnonces t c k) as Hn. destruct Hcodec as [Hid Hhex].
  assert (Hsplit : py_split ":"%char (py_join ":" [ENVELOPE_PREFIX; ENVELOPE_VERSION; sc_key_id codec;
      _base64url_encode (nonces t c k); _base64url_encode ct])
    = [ENVELOPE_PREFIX; ENVELOPE_VERSION; sc_key_id codec;
       _base64url_encode (nonces t c k); _base64url_encode ct]).
  { apply py_split_join; [done|].
    repeat constructor; try (by apply encode_no_colon); try (by apply hex_no_colon);
      by apply (bool_decide_unpack _). }
  unfold decrypt_text. rewrite Hsplit.
  rewrite raise_if_false by (rewrite Hl, orb_false_r; reflexivity).
  rewrite raise_if_false; cycle 1.
  { rewrite Hid, Hhex. reflexivity. }
  rewrite (decode_encode (nonces t c k)) by (apply nonempty_length; rewrite Hn; done). cbn [mbind result_bind].
  rewrite (decode_encode ct) by (apply nonempty_length; unfold TAG_BYTES in *; lia). cbn [mbind result_bind].
  rewrite raise_if_false; cycle 1.
  { rewrite Hn, Z.eqb_refl. cbn [negb orb]. apply Z.ltb_ge. lia. }
  rewrite raise_if_false by (apply negb_false_iff; by apply (py_eq_leibniz (A:=string))).
  rewrite Haad. cbn [mbind result_bind]. rewrite (aead_round_trip _ _ _ _ _ Ect).
  rewrite raise_if_false by done. by rewrite raise_if_false.
Qed.

Lemma decrypt_encrypt_int t c k n e :
  encrypt_non_negative_int codec nonces t c k n = Ok e ->
  decrypt_non_negative_int codec t c k e = Ok n.
Proof.
  unfold encrypt_non_negative_int. intros [Hn He]%raise_if_ok. bool_hyps.
  unfold str_int in He. destruct (_ <? _) eqn:El in He; [discriminate|]. bool_hyps.
  rewrite (proj2 (Z.ltb_ge n 0)) in El by done. rewrite Z.sub_0_r, utf8_length_chars in El.
  unfold decrypt_non_negative_int. rewrite (decrypt_encrypt_text _ _ _ _ _ He).
  cbn [mbind result_bind].
  destruct (show_chars_nonneg n Hn) as (Hd & Hv & a & r & E & Hz & Hp).
  unfold show_chars in *. fold (chars (show_Z n)) in *.
  rewrite raise_if_false; cycle 1.
  { rewrite Hd, E. cbn [negb]. rewrite orb_false_r.
    assert (is_empty (show_Z n) = false) as -> by (by destruct (show_Z n)). cbn [orb].
    destruct (Z.eq_dec n 0) as [->|Hne]; [done|]. rewrite Hp by lia. apply andb_false_r. }
  rewrite raise_if_false by (apply Z.ltb_ge; lia). rewrite Hv.
  rewrite raise_if_false; [done|]. rewrite (proj2 (Z.ltb_ge n 0)) by lia.
  apply negb_false_iff. by apply (py_eq_leibniz (A:=string)).
Qed.

Lemma decrypt_encrypt_object t c k x e :
  encrypt_object_json codec nonces t c k x = Ok e -> decrypt_object_json codec t c k e = Ok x.
Proof.
  unfold encrypt_object_json, _json_container. destruct (json_loads x) as [v|] eqn:Ex; [|discriminate].
  intros (Hd & (env & Henv & [= <-])%result_bind_ok)%raise_if_ok.
  unfold decrypt_object_json. rewrite json_loads_dumps by done. cbn [py_dict fold_left existsb app].
  rewrite raise_if_false by done. rewrite (decrypt_encrypt_text _ _ _ _ _ Henv).
  cbn [mbind result_bind]. unfold _json_container. rewrite Ex. by rewrite raise_if_false.
Qed.

Lemma decrypt_encrypt_array t c k x e :
  encrypt_array_json codec nonces t c k x = Ok e -> decrypt_array_json codec t c k e = Ok x.
Proof.
  unfold encrypt_array_json, _json_container. destruct (json_loads x) as [v|] eqn:Ex; [|discriminate].
  intros (Hd & (env & Henv & [= <-])%result_bind_ok)%raise_if_ok.
  unfold decrypt_array_json. rewrite json_loads_dumps by done.
  rewrite raise_if_false by done. rewrite (decrypt_encrypt_text _ _ _ _ _ Henv).
  cbn [mbind result_bind]. unfold _json_container. rewrite Ex. by rewrite raise_if_false.
Qed.
End codec_lemmas.

Section codec_forms.
Context `{AEAD} (codec : SecureCodec) (nonces : Nonces).

Lemma encrypt_text_form t c k x e : encrypt_text codec nonces t c k x = Ok e -> is_envelope e = true.
Proof.
  unfold encrypt_text. intros (_ & (_ & (aad & _ & He)%result_bind_ok)%raise_if_ok)%raise_if_ok.
  destruct (aead_encrypt _ _ _ _); [|discriminate]. apply raise_if_ok in He as [_ <-%Ok_inj].
  reflexivity.
Qed.
Lemma encrypt_int_form t c k n e :
  encrypt_non_negative_int codec nonces t c k n = Ok e -> is_envelope e = true.
Proof.
  unfold encrypt_non_negative_int. intros [_ He]%raise_if_ok. destruct (str_int n); [|discriminate].
  by eapply encrypt_text_form.
Qed.
Lemma encrypt_object_form t c k x e :
  encrypt_object_json codec nonces t c k x = Ok e -> object_sentinel e = true.
Proof.
  unfold encrypt_object_json, _json_container. destruct (json_loads x); [|discriminate].
  intros (_ & (env & _ & <-%Ok_inj)%result_bind_ok)%raise_if_ok.
  unfold object_sentinel. by rewrite json_loads_dumps.
Qed.
Lemma encrypt_array_form t c k x e :
  encrypt_array_json codec nonces t c k x = Ok e -> array_sentinel e = true.
Proof.
  unfold encrypt_array_json, _json_container. destruct (json_loads x); [|discriminate].
  intros (_ & (env & _ & <-%Ok_inj)%result_bind_ok)%raise_if_ok.
  unfold array_sentinel. by rewrite json_loads_dumps.
Qed.
End codec_forms.

(** ** The interface the storage tables use *)

Class StorageCodec := {
  codec_encrypt_text : Nonces -> string -> string -> string -> string -> result SecurityErrorCode string;
  codec_decrypt_text : string -> string -> string -> string -> result SecurityErrorCode string;
  codec_encrypt_int : Nonces -> string -> string -> string -> Z -> result SecurityErrorCode string;
  codec_decrypt_int : string -> string -> string -> string -> result SecurityErrorCode Z;
  codec_encrypt_object : Nonces -> string -> string -> string -> string -> result SecurityErrorCode string;
  codec_decrypt_object : string -> string -> string -> string -> result SecurityErrorCode string;
  codec_encrypt_array : Nonces -> string -> string -> string -> string -> result SecurityErrorCode string;
  codec_decrypt_array : string -> string -> string -> string -> result SecurityErrorCode string;
}.
(** What it promises: a stored value reads back at the same place. *)
Class StorageCodecLaws `{StorageCodec} := {
  codec_text : forall ns t c k x e, nonces_ok ns ->
    codec_encrypt_text ns t c k x = Ok e -> codec_decrypt_text t c k e = Ok x;
  codec_int : forall ns t c k n e, nonces_ok ns ->
    codec_encrypt_int ns t c k n = Ok e -> codec_decrypt_int t c k e = Ok n;
  codec_object : forall ns t c k x e, nonces_ok ns ->
    codec_encrypt_object ns t c k x = Ok e -> codec_decrypt_object t c k e = Ok x;
  codec_array : forall ns t c k x e, nonces_ok ns ->
    codec_encrypt_array ns t c k x = Ok e -> codec_decrypt_array t c k e = Ok x;
  codec_text_form : forall ns t c k x e, codec_encrypt_text ns t c k x = Ok e -> is_envelope e = true;
  codec_int_form : forall ns t c k n e, codec_encrypt_int ns t c k n = Ok e -> is_envelope e = true;
  codec_object_form : forall ns t c k x e,
    codec_encrypt_object ns t c k x = Ok e -> object_sentinel e = true;
  codec_array_form : forall ns t c k x e,
    codec_encrypt_array ns t c k x = Ok e -> array_sentinel e = true;
}.

Definition secure_storage `{AEAD} (codec : SecureCodec) : StorageCodec := {|
  codec_encrypt_text := encrypt_text codec; codec_decrypt_text := decrypt_text codec;
  codec_encrypt_int := encrypt_non_negative_int codec;
  codec_decrypt_int := decrypt_non_negative_int codec;
  codec_encrypt_object := encrypt_object_json codec;
  codec_decrypt_object := decrypt_object_json codec;
  codec_encrypt_array := encrypt_array_json codec;
  codec_decrypt_array := decrypt_array_json codec |}.

(** *** A concrete AEAD and hash for the witnesses *)

#[local] Instance toy_sha256 : Sha256 := fun x =>
  string_of_list_ascii (map (fun k => digit ((utf8_length x + Z.of_nat k) mod 10)) (seq 0 64)).
#[local] Instance toy_sha256_laws : Sha256Laws.
Proof.
  intros x. unfold sha256_hexdigest, toy_sha256. rewrite utf8_length_chars, chars_of_list. split.
  - unfold len. by rewrite length_map, length_seq.
  - apply forallb_true_iff. intros c (k & -> & _)%list_elem_of_fmap. unfold is_lower_hex.
    by rewrite (proj1 (digit_spec _ (Z.mod_pos_bound _ 10 ltac:(lia)))).
Qed.

(** The tag is sixteen zeros; the data is in the clear. *)
Definition zero_tag : string := string_of_list_ascii (repeat "0"%char 16).
#[local] Instance toy_aead : AEAD := {|
  aead_encrypt _ _ data _ := Ok (zero_tag +:+ data);
  aead_decrypt _ _ data _ :=
    match strip_word (chars zero_tag) (chars data) with
    | Some r => Ok (string_of_list_ascii r)
    | None => Err InvalidTag
    end |}.
#[local] Instance toy_aead_laws : AEADLaws.
Proof.
  split.
  - intros key nonce data aad c [= <-]. cbn [aead_decrypt toy_aead].
    rewrite chars_app. cbn. by rewrite string_of_list_ascii_of_string.
  - intros key nonce data aad c [= <-]. rewrite !utf8_length_chars, chars_app, len_app.
    change (len (chars zero_tag)) with 16. unfold TAG_BYTES. lia.
Qed.
Definition toy_key : string := string_of_list_ascii (repeat "k"%char 32).
Definition toy_nonces : Nonces := fun _ _ _ => "nonce-123456".
Definition toy_codec : SecureCodec :=
  match SecureCodec_init toy_key 100000 200000 with
  | Ok c => c
  | Err _ => {| sc_key := ""; sc_key_id := ""; sc_max_envelope_chars := 0; sc_max_plaintext_bytes := 0 |}
  end.

(** ** Properties *)

Lemma secure_storage_laws `{AEADLaws, Sha256Laws} raw mp me codec :
  SecureCodec_init raw mp me = Ok codec -> StorageCodecLaws (H := secure_storage codec).
Proof.
  intros Hc%SecureCodec_init_ok. split.
  - intros. by eapply decrypt_encrypt_text.
  - intros. by eapply decrypt_encrypt_int.
  - intros. by eapply decrypt_encrypt_object.
  - intros. by eapply decrypt_encrypt_array.
  - intros ns t c k x e. exact (encrypt_text_form codec ns t c k x e).
  - intros ns t c k x e. exact (encrypt_int_form codec ns t c k x e).
  - intros ns t c k x e. exact (encrypt_object_form codec ns t c k x e).
  - intros ns t c k x e. exact (encrypt_array_form codec ns t c k x e).
Qed.

Definition toy_storage : StorageCodec := secure_storage toy_codec.
Lemma toy_storage_laws : StorageCodecLaws (H := toy_storage).
Proof. by apply (secure_storage_laws toy_key 100000 200000). Qed.
Lemma toy_nonces_ok : nonces_ok toy_nonces.
Proof. done. Qed.

(** The envelope codec round-trips: whatever [SecureCodec] encrypts at a
    table, column and record key (text, non-negative integer, JSON object or
    JSON array) decrypts at the same place to the same value, and has the form
    the CHECK clauses of the encrypted tables require. *)
Theorem codec_round_trips `{AEADLaws, Sha256Laws} raw mp me codec :
  SecureCodec_init raw mp me = Ok codec -> StorageCodecLaws (H := secure_storage codec).
Proof. apply secure_storage_laws. Qed.

Lemma codec_round_trips_witness :
  let store := secure_storage toy_codec in
  exists e, codec_encrypt_int toy_nonces "t" "c" "k" 4200 = Ok e
            /\ codec_decrypt_int "t" "c" "k" e = Ok 4200.
Proof.
  intros store. destruct (codec_encrypt_int toy_nonces "t" "c" "k" 4200) as [e|] eqn:E;
    [|vm_compute in E; discriminate].
  exists e. split; [done|].
  destruct (codec_round_trips toy_key 100000 200000 toy_codec eq_refl) as [_ Hint _ _ _ _ _ _].
  by apply (Hint toy_nonces).
Defined.

(** Envelopes are bound to their place: the associated data of two storage
    places is equal only when table, column and record key are all equal, so
    an authenticated envelope cannot be read back under another place. *)
Theorem aad_binds_place table column record_key table' column' record_key' a :
  _aad table column record_key = Ok a -> _aad table' column' record_key' = Ok a ->
  table = table' /\ column = column' /\ record_key = record_key'.
Proof.
  unfold _aad. intros H1 H2. assert (E := aad_fields_inj (_AAD_NAMESPACE ++ [table; column; record_key])
    (_AAD_NAMESPACE ++ [table'; column'; record_key']) a eq_refl H1 H2).
  by injection E as -> -> ->.
Qed.

Lemma aad_binds_place_witness :
  "ab" <> "a" /\ forall a, _aad "t" "ab" "c" = Ok a -> _aad "t" "a" "bc" = Ok a -> False.
Proof.
  split; [discriminate|]. intros a H1 H2.
  by destruct (aad_binds_place "t" "ab" "c" "t" "a" "bc" a H1 H2) as (_ & [=] & _).
Defined.

(** Key texts are canonical: [parse_key_text] accepts a text exactly when
    it is the unpadded base64url text [encode_key_text] gives the parsed key,
    and every 32-byte key has one. *)
Theorem key_text_round_trip text key :
  (parse_key_text text = Ok key <-> encode_key_text key = Ok text)
  /\ (utf8_length key = KEY_BYTES -> exists t, encode_key_text key = Ok t /\ parse_key_text t = Ok key).
Proof.
  assert (Hpe : forall text key, parse_key_text text = Ok key -> encode_key_text key = Ok text).
  { intros t k. unfold parse_key_text. intros [_ H]%raise_if_ok.
    destruct (mapM _ _ ≫= _) as [bs|]; [|discriminate].
    apply raise_if_ok in H as [_ (t' & Ht & [He [= <-]]%raise_if_ok)%result_bind_ok].
    apply negb_false_iff in He. apply (py_eq_leibniz (A:=string)) in He as ->. done. }
  assert (Hep : forall text key, encode_key_text key = Ok text -> parse_key_text text = Ok key).
  { intros t k Ht. assert (Ht' := Ht). unfold encode_key_text, _raw_key in Ht.
    apply result_bind_ok in Ht as (k' & [Hk [= <-]]%raise_if_ok & [= <-]). bool_hyps.
    unfold parse_key_text. rewrite encode_alphabet, encode_decodes, of_byte_list_bytes, Ht'.
    assert (Hl : len (byte_list k) = 32).
    { unfold byte_list, bytes_of. rewrite utf8_length_chars in Hk. unfold len in *.
      by rewrite length_map. }
    assert (utf8_length (_base64url_encode k) = 43) as ->.
    { rewrite utf8_length_chars, encode_chars. unfold len. rewrite length_map.
      fold (len (b64_sextets (byte_list k))). by rewrite b64_sextets_length, Hl. }
    rewrite raise_if_false by done. rewrite raise_if_false by (by rewrite Hk).
    cbn [mbind result_bind]. rewrite raise_if_false; [done|].
    apply negb_false_iff. by apply (py_eq_leibniz (A:=string)). }
  split; [split; auto|]. intros Hk. exists (_base64url_encode key).
  assert (encode_key_text key = Ok (_base64url_encode key)) as He.
  { unfold encode_key_text, _raw_key. rewrite raise_if_false; [done|]. by rewrite Hk. }
  auto.
Qed.

Lemma key_text_round_trip_witness :
  utf8_length toy_key = KEY_BYTES /\ exists t, encode_key_text toy_key = Ok t /\ parse_key_text t = Ok toy_key.
Proof. split; [reflexivity|]. apply (key_text_round_trip "" toy_key). reflexivity. Defined.
