(* ===== verification/Store.v ===== *)
(** The durable tables of [astrcontinuum/storage/migrations.py] (schema version
    3), the transaction discipline of [storage/sqlite.py], and the outcomes of
    [storage/repository.py].

    A table is the list of its rows in insertion order.  A statement that
    changes a table succeeds when the new table satisfies the table's CHECK,
    UNIQUE, PRIMARY KEY and FOREIGN KEY clauses, and otherwise raises
    [sqlite3.IntegrityError] and changes nothing.  Protected columns hold the
    envelopes of the codec.  Timestamps are the instants of their texts: the
    normalised texts have a fixed width, so their order is the order in time. *)
From S2P Require Import Prelude PyString PyFloat Domain Validation PyJson Crypto.
Open Scope string_scope.
Open Scope list_scope.
Open Scope Z_scope.

(** ** Exceptions *)

Inductive repo_error :=
| ValueError
| RepositoryConflict
| SessionIdentityConflict
| IdempotencyConflict
| EventIdentityConflict
| RepositoryInvariantError
| JobTransitionError
| StaleLeaseError
| PublicationRejected (report : PermanentValidationReport)
| TokenMetricConflict
| StorageSecurityError (code : SecurityErrorCode)
| IntegrityError
| Diverged  (* a loop outlived its fuel; proved unreachable *)
| InjectedFault (boundary : string).

Definition is_integrity (e : repo_error) : bool := match e with IntegrityError => true | _ => false end.

(** ** Rows *)

Inductive ArtifactKind := ARTIFACT_EVENT | ARTIFACT_CAPSULE | ARTIFACT_SNAPSHOT.
#[export] Instance ArtifactKind_eq_dec : EqDecision ArtifactKind.
Proof. solve_decision. Defined.
Definition artifact_value (k : ArtifactKind) : string :=
  match k with ARTIFACT_EVENT => "EVENT" | ARTIFACT_CAPSULE => "CAPSULE" | ARTIFACT_SNAPSHOT => "SNAPSHOT" end.

Inductive ReorganizationStatus := RETAINED | APPROXIMATE | RELEASED.
#[export] Instance ReorganizationStatus_eq_dec : EqDecision ReorganizationStatus.
Proof. solve_decision. Defined.

Record SessionRow := {
  se_hash : string; se_canonical : string;
  se_platform_instance_id : string; se_message_type : string; se_session_id : string;
  se_group_id : option string; se_user_id : string; se_conversation_id : string;
  se_persona_id : option string;
  se_next_event_sequence : Z; se_created_at : Z; se_updated_at : Z }.
Record EventRow := {
  er_event_id : string; er_session : string; er_sequence : Z; er_event_type : EventType;
  er_role : EventRole; er_content : string; er_source_hook : SourceHook;
  er_idempotency_key : string; er_token_count_envelope : string; er_created_at : Z }.
Record CapsuleRow := {
  cr_capsule_id : string; cr_session : string; cr_level : CapsuleLevel;
  cr_start : Z; cr_end : Z; cr_canonical : string; cr_token_cost_envelope : string;
  cr_source_coverage : float; cr_created_at : Z }.
Record SnapshotRow := {
  nr_snapshot_id : string; nr_session : string; nr_base : option string;
  nr_covered_event_end : Z; nr_source_high_water_mark : Z; nr_anchor_ids : string;
  nr_rendered_context : string; nr_token_cost_envelope : string; nr_audit_outcome : string;
  nr_state : SnapshotState; nr_created_at : Z; nr_committed_at : Z }.
Record MembershipRow := {
  mr_snapshot_id : string; mr_ordinal : Z; mr_capsule_id : string; mr_slot : string }.
Record ActiveRow := {
  ar_session : string; ar_snapshot_id : string; ar_pointer_version : Z; ar_updated_at : Z }.
Record JobRow := {
  jr_job_id : string; jr_session : string; jr_state : CompactionJobState;
  jr_target : Z; jr_intent : Z; jr_base : option string; jr_base_pointer_version : Z;
  jr_candidate : option string; jr_lease_owner : option string; jr_lease_epoch : Z;
  jr_lease_expires_at : option Z; jr_attempt_count : Z; jr_next_retry_at : option Z;
  jr_error_stage : option string; jr_error_code : option string; jr_error_message : option string;
  jr_created_at : Z; jr_updated_at : Z; jr_committed_at : option Z }.
Record MetricRow := {
  tr_kind : ArtifactKind; tr_artifact_id : string; tr_profile_id : string;
  tr_envelope : string; tr_created_at : Z }.
Record IntentRow := {
  ir_session : string; ir_kind : ArtifactKind; ir_artifact_id : string; ir_profile_id : string;
  ir_created_at : Z }.
Record LedgerRow := {
  lr_snapshot_id : string; lr_ordinal : Z; lr_source_capsule_id : string; lr_kind : string;
  lr_item_id : string; lr_status : ReorganizationStatus; lr_before_tokens : Z;
  lr_after_tokens : Z; lr_required : Z }.

Record db := {
  sessions : list SessionRow;
  journal_events : list EventRow;
  capsules : list CapsuleRow;
  snapshots : list SnapshotRow;
  snapshot_capsules : list MembershipRow;
  active_snapshots : list ActiveRow;
  compaction_jobs : list JobRow;
  token_metrics : list MetricRow;
  backfill_intents : list IntentRow;
  reorganization_records : list LedgerRow;
}.
Definition empty_db : db := {|
  sessions := []; journal_events := []; capsules := []; snapshots := [];
  snapshot_capsules := []; active_snapshots := []; compaction_jobs := [];
  token_metrics := []; backfill_intents := []; reorganization_records := [] |}.

(** ** Constraints of the tables *)

(** [length(trim(x)) > 0], and the same for a nullable column. *)
Definition not_blank (s : string) : bool := negb (sqlite_blank s).
Definition null_or_not_blank (s : option string) : bool :=
  match s with Some x => not_blank x | None => true end.
(** [length(h) = 64 AND h = lower(h) AND h NOT GLOB '*[^0-9a-f]*'] *)
Definition hash_ok (h : string) : bool := (utf8_length h =? 64) && forallb is_lower_hex (chars h).
Definition opt_envelope (s : option string) : bool :=
  match s with Some x => is_envelope x | None => true end.
Definition unique_by {A B} `{EqDecision B} (key : A -> B) (rows : list A) : bool :=
  no_duplicates (map key rows).
Definition references {A} (key : A -> string) (rows : list A) (x : string) : bool :=
  existsb (fun r => key r ==? x) rows.
Definition opt_references {A} (key : A -> string) (rows : list A) (x : option string) : bool :=
  match x with Some y => references key rows y | None => true end.

Definition session_row_ok (r : SessionRow) : bool :=
  hash_ok (se_hash r) && object_sentinel (se_canonical r)
  && is_envelope (se_platform_instance_id r) && is_envelope (se_message_type r)
  && is_envelope (se_session_id r) && opt_envelope (se_group_id r)
  && is_envelope (se_user_id r) && is_envelope (se_conversation_id r)
  && opt_envelope (se_persona_id r) && (1 <=? se_next_event_sequence r).
Definition sessions_ok (d : db) (rows : list SessionRow) : bool :=
  forallb session_row_ok rows && unique_by se_hash rows && unique_by se_canonical rows.

Definition event_row_ok (r : EventRow) : bool :=
  not_blank (er_event_id r) && (1 <=? er_sequence r) && not_blank (er_idempotency_key r)
  && is_envelope (er_token_count_envelope r) && is_envelope (er_content r)
  && eqb_of (er_role r, er_source_hook r) (event_mapping (er_event_type r)).
Definition events_ok (d : db) (rows : list EventRow) : bool :=
  forallb (fun r => event_row_ok r && references se_hash (sessions d) (er_session r)) rows
  && unique_by er_event_id rows
  && unique_by (fun r => (er_session r, er_sequence r)) rows
  && unique_by (fun r => (er_session r, er_source_hook r, er_idempotency_key r)) rows.

Definition capsule_row_ok (r : CapsuleRow) : bool :=
  not_blank (cr_capsule_id r) && (1 <=? cr_start r) && (cr_start r <=? cr_end r)
  && object_sentinel (cr_canonical r) && is_envelope (cr_token_cost_envelope r)
  && f_le f_zero (cr_source_coverage r) && f_le (cr_source_coverage r) f_one.
Definition capsules_ok (d : db) (rows : list CapsuleRow) : bool :=
  forallb (fun r => capsule_row_ok r && references se_hash (sessions d) (cr_session r)) rows
  && unique_by cr_capsule_id rows.

Definition snapshot_row_ok (r : SnapshotRow) : bool :=
  not_blank (nr_snapshot_id r) && null_or_not_blank (nr_base r)
  && (1 <=? nr_covered_event_end r) && (nr_covered_event_end r <=? nr_source_high_water_mark r)
  && array_sentinel (nr_anchor_ids r) && is_envelope (nr_rendered_context r)
  && is_envelope (nr_token_cost_envelope r) && object_sentinel (nr_audit_outcome r)
  && eqb_of (nr_state r) SNAPSHOT_COMMITTED.
Definition snapshots_ok (d : db) (rows : list SnapshotRow) : bool :=
  forallb (fun r => snapshot_row_ok r && references se_hash (sessions d) (nr_session r)
                    && opt_references nr_snapshot_id rows (nr_base r)) rows
  && unique_by nr_snapshot_id rows
  && unique_by (fun r => (nr_session r, nr_covered_event_end r)) rows.

Definition memberships_ok (d : db) (rows : list MembershipRow) : bool :=
  forallb (fun r => (0 <=? mr_ordinal r) && not_blank (mr_slot r)
                    && references nr_snapshot_id (snapshots d) (mr_snapshot_id r)
                    && references cr_capsule_id (capsules d) (mr_capsule_id r)) rows
  && unique_by (fun r => (mr_snapshot_id r, mr_ordinal r)) rows
  && unique_by (fun r => (mr_snapshot_id r, mr_capsule_id r)) rows.

Definition actives_ok (d : db) (rows : list ActiveRow) : bool :=
  forallb (fun r => (1 <=? ar_pointer_version r)
                    && references se_hash (sessions d) (ar_session r)
                    && references nr_snapshot_id (snapshots d) (ar_snapshot_id r)) rows
  && unique_by ar_session rows && unique_by ar_snapshot_id rows.

(** The states of the partial unique index. *)
Definition nonterminal (s : CompactionJobState) : bool :=
  match s with
  | PENDING | LEASED | COMPILING | AUDITING | READY_TO_COMMIT | RETRY_WAIT => true
  | _ => false
  end.
Definition job_nonterminal (r : JobRow) : bool := nonterminal (jr_state r).

Definition job_row_ok (r : JobRow) : bool :=
  not_blank (jr_job_id r) && (1 <=? jr_target r) && (jr_target r <=? jr_intent r)
  && null_or_not_blank (jr_base r) && (0 <=? jr_base_pointer_version r)
  && null_or_not_blank (jr_candidate r) && null_or_not_blank (jr_lease_owner r)
  && (0 <=? jr_lease_epoch r) && (0 <=? jr_attempt_count r)
  && null_or_not_blank (jr_error_stage r) && null_or_not_blank (jr_error_code r)
  && null_or_not_blank (jr_error_message r)
  && (is_none (jr_base r) && (jr_base_pointer_version r =? 0)
      || is_some (jr_base r) && (1 <=? jr_base_pointer_version r))
  && (working (jr_state r) && is_some (jr_lease_owner r) && (1 <=? jr_lease_epoch r)
        && is_some (jr_lease_expires_at r)
      || negb (working (jr_state r)) && is_none (jr_lease_owner r)
         && is_none (jr_lease_expires_at r))
  && (candidate_bearing (jr_state r) && is_some (jr_candidate r)
      || negb (candidate_bearing (jr_state r)) && is_none (jr_candidate r))
  && (is_none (jr_error_stage r) && is_none (jr_error_code r) && is_none (jr_error_message r)
      || is_some (jr_error_stage r) && is_some (jr_error_code r) && is_some (jr_error_message r))
  && (negb (eqb_of (jr_state r) RETRY_WAIT || eqb_of (jr_state r) FAILED)
      || is_some (jr_error_stage r) && is_some (jr_error_code r) && is_some (jr_error_message r))
  && (eqb_of (jr_state r) RETRY_WAIT && is_some (jr_next_retry_at r)
      || negb (eqb_of (jr_state r) RETRY_WAIT) && is_none (jr_next_retry_at r))
  && (eqb_of (jr_state r) JOB_COMMITTED && is_some (jr_committed_at r)
      || negb (eqb_of (jr_state r) JOB_COMMITTED) && is_none (jr_committed_at r)).
Definition jobs_ok (d : db) (rows : list JobRow) : bool :=
  forallb (fun r => job_row_ok r && references se_hash (sessions d) (jr_session r)
                    && opt_references nr_snapshot_id (snapshots d) (jr_base r)) rows
  && unique_by jr_job_id rows
  && unique_by jr_session (List.filter job_nonterminal rows).

Definition metric_key (r : MetricRow) := (tr_kind r, tr_artifact_id r, tr_profile_id r).
Definition metrics_ok (d : db) (rows : list MetricRow) : bool :=
  forallb (fun r => not_blank (tr_artifact_id r) && not_blank (tr_profile_id r)
                    && is_envelope (tr_envelope r)) rows
  && unique_by metric_key rows.

Definition intent_key (r : IntentRow) := (ir_kind r, ir_artifact_id r, ir_profile_id r).
Definition intents_ok (d : db) (rows : list IntentRow) : bool :=
  forallb (fun r => not_blank (ir_artifact_id r) && not_blank (ir_profile_id r)
                    && references se_hash (sessions d) (ir_session r)) rows
  && unique_by intent_key rows.

Definition ledger_ok (d : db) (rows : list LedgerRow) : bool :=
  forallb (fun r => not_blank (lr_snapshot_id r) && (0 <=? lr_ordinal r)
                    && not_blank (lr_source_capsule_id r) && not_blank (lr_kind r)
                    && not_blank (lr_item_id r) && (0 <=? lr_before_tokens r)
                    && (0 <=? lr_after_tokens r)
                    && ((lr_required r =? 0) || (lr_required r =? 1))
                    && references nr_snapshot_id (snapshots d) (lr_snapshot_id r)) rows
  && unique_by (fun r => (lr_snapshot_id r, lr_ordinal r)) rows
  && unique_by (fun r => (lr_snapshot_id r, lr_source_capsule_id r, lr_kind r, lr_item_id r)) rows.

(** Every table satisfies its clauses. *)
Definition schema_ok (d : db) : bool :=
  sessions_ok d (sessions d) && events_ok d (journal_events d) && capsules_ok d (capsules d)
  && snapshots_ok d (snapshots d) && memberships_ok d (snapshot_capsules d)
  && actives_ok d (active_snapshots d) && jobs_ok d (compaction_jobs d)
  && metrics_ok d (token_metrics d) && intents_ok d (backfill_intents d)
  && ledger_ok d (reorganization_records d).

(** ** Setters *)

Definition set_sessions rows (d : db) : db := {|
  sessions := rows; journal_events := journal_events d; capsules := capsules d;
  snapshots := snapshots d; snapshot_capsules := snapshot_capsules d;
  active_snapshots := active_snapshots d; compaction_jobs := compaction_jobs d;
  token_metrics := token_metrics d; backfill_intents := backfill_intents d;
  reorganization_records := reorganization_records d |}.
Definition set_events rows (d : db) : db := {|
  sessions := sessions d; journal_events := rows; capsules := capsules d;
  snapshots := snapshots d; snapshot_capsules := snapshot_capsules d;
  active_snapshots := active_snapshots d; compaction_jobs := compaction_jobs d;
  token_metrics := token_metrics d; backfill_intents := backfill_intents d;
  reorganization_records := reorganization_records d |}.
Definition set_capsules rows (d : db) : db := {|
  sessions := sessions d; journal_events := journal_events d; capsules := rows;
  snapshots := snapshots d; snapshot_capsules := snapshot_capsules d;
  active_snapshots := active_snapshots d; compaction_jobs := compaction_jobs d;
  token_metrics := token_metrics d; backfill_intents := backfill_intents d;
  reorganization_records := reorganization_records d |}.
Definition set_snapshots rows (d : db) : db := {|
  sessions := sessions d; journal_events := journal_events d; capsules := capsules d;
  snapshots := rows; snapshot_capsules := snapshot_capsules d;
  active_snapshots := active_snapshots d; compaction_jobs := compaction_jobs d;
  token_metrics := token_metrics d; backfill_intents := backfill_intents d;
  reorganization_records := reorganization_records d |}.
Definition set_memberships rows (d : db) : db := {|
  sessions := sessions d; journal_events := journal_events d; capsules := capsules d;
  snapshots := snapshots d; snapshot_capsules := rows;
  active_snapshots := active_snapshots d; compaction_jobs := compaction_jobs d;
  token_metrics := token_metrics d; backfill_intents := backfill_intents d;
  reorganization_records := reorganization_records d |}.
Definition set_actives rows (d : db) : db := {|
  sessions := sessions d; journal_events := journal_events d; capsules := capsules d;
  snapshots := snapshots d; snapshot_capsules := snapshot_capsules d;
  active_snapshots := rows; compaction_jobs := compaction_jobs d;
  token_metrics := token_metrics d; backfill_intents := backfill_intents d;
  reorganization_records := reorganization_records d |}.
Definition set_jobs rows (d : db) : db := {|
  sessions := sessions d; journal_events := journal_events d; capsules := capsules d;
  snapshots := snapshots d; snapshot_capsules := snapshot_capsules d;
  active_snapshots := active_snapshots d; compaction_jobs := rows;
  token_metrics := token_metrics d; backfill_intents := backfill_intents d;
  reorganization_records := reorganization_records d |}.
Definition set_metrics rows (d : db) : db := {|
  sessions := sessions d; journal_events := journal_events d; capsules := capsules d;
  snapshots := snapshots d; snapshot_capsules := snapshot_capsules d;
  active_snapshots := active_snapshots d; compaction_jobs := compaction_jobs d;
  token_metrics := rows; backfill_intents := backfill_intents d;
  reorganization_records := reorganization_records d |}.
Definition set_intents rows (d : db) : db := {|
  sessions := sessions d; journal_events := journal_events d; capsules := capsules d;
  snapshots := snapshots d; snapshot_capsules := snapshot_capsules d;
  active_snapshots := active_snapshots d; compaction_jobs := compaction_jobs d;
  token_metrics := token_metrics d; backfill_intents := rows;
  reorganization_records := reorganization_records d |}.
Definition set_ledger rows (d : db) : db := {|
  sessions := sessions d; journal_events := journal_events d; capsules := capsules d;
  snapshots := snapshots d; snapshot_capsules := snapshot_capsules d;
  active_snapshots := active_snapshots d; compaction_jobs := compaction_jobs d;
  token_metrics := token_metrics d; backfill_intents := backfill_intents d;
  reorganization_records := rows |}.

(** ** Transactions *)

(** A statement sequence on one connection: it raises, or returns with the
    database it leaves. *)
Definition tx (A : Type) : Type := db -> result repo_error (A * db).
#[export] Instance tx_ret : MRet tx := fun A a d => Ok (a, d).
#[export] Instance tx_bind : MBind tx := fun A B f m d =>
  match m d with Ok (a, d') => f a d' | Err e => Err e end.

Definition throw {A} (e : repo_error) : tx A := fun _ => Err e.
Definition lift {A} (r : result repo_error A) : tx A :=
  fun d => match r with Ok a => Ok (a, d) | Err e => Err e end.
(** A SELECT. *)
Definition select {A} (f : db -> A) : tx A := fun d => Ok (f d, d).
(** [if b: raise e] *)
Definition guard (b : bool) (e : repo_error) : tx unit := if b then throw e else mret ().
(** [except IntegrityError]: the failed statement changed nothing. *)
Definition catch_integrity {A} (m : tx A) : tx (option A) := fun d =>
  match m d with
  | Ok (a, d') => Ok (Some a, d')
  | Err IntegrityError => Ok (None, d)
  | Err e => Err e
  end.
Definition on_integrity {A} (m : tx A) (e : repo_error) : tx A := fun d =>
  match m d with
  | Err IntegrityError => Err e
  | r => r
  end.
Definition codec_result {A} (r : result SecurityErrorCode A) : result repo_error A :=
  match r with Ok a => Ok a | Err c => Err (StorageSecurityError c) end.
Definition model_result {A} (r : result model_error A) : result repo_error A :=
  match r with Ok a => Ok a | Err _ => Err ValueError end.

(** Statements, by table: [execute set ok f] replaces the rows by [f rows]. *)
Definition execute {R} (get : db -> list R) (set : list R -> db -> db)
    (ok : db -> list R -> bool) (f : list R -> list R) : tx unit := fun d =>
  let rows := f (get d) in if ok d rows then Ok ((), set rows d) else Err IntegrityError.
Definition insert_row {R} get set ok (r : R) : tx unit := execute get set ok (fun rows => rows ++ [r]).
(** UPDATE ... SET [f] WHERE [p], returning [rowcount]. *)
Definition update_rows {R} (get : db -> list R) set ok (p : R -> bool) (f : R -> R) : tx Z :=
  rowcount ← select (fun d => len (List.filter p (get d)));
  execute get set ok (map (fun r => if p r then f r else r));;
  mret rowcount.

Definition insert_session := insert_row sessions set_sessions sessions_ok.
Definition update_sessions := update_rows sessions set_sessions sessions_ok.
Definition insert_event := insert_row journal_events set_events events_ok.
Definition insert_capsule := insert_row capsules set_capsules capsules_ok.
Definition insert_snapshot := insert_row snapshots set_snapshots snapshots_ok.
Definition insert_membership := insert_row snapshot_capsules set_memberships memberships_ok.
Definition insert_active := insert_row active_snapshots set_actives actives_ok.
Definition update_actives := update_rows active_snapshots set_actives actives_ok.
Definition insert_job := insert_row compaction_jobs set_jobs jobs_ok.
Definition update_jobs := update_rows compaction_jobs set_jobs jobs_ok.
Definition insert_metric := insert_row token_metrics set_metrics metrics_ok.
Definition insert_intent := insert_row backfill_intents set_intents intents_ok.
Definition delete_intents (p : IntentRow -> bool) : tx unit :=
  execute backfill_intents set_intents intents_ok (List.filter (fun r => negb (p r))).
Definition insert_ledger := insert_row reorganization_records set_ledger ledger_ok.

(** [SELECT ... WHERE p] and [fetchone()]: at most one row satisfies the
    predicates the repository uses on unique columns. *)
Definition fetchone {R} (get : db -> list R) (p : R -> bool) : tx (option R) :=
  select (fun d => List.find p (get d)).

(** [SQLiteConnectionFactory.transaction]: commit, or roll back and re-raise. *)
Definition transaction {A} (m : tx A) (d : db) : result repo_error A * db :=
  match m d with
  | Ok (a, d') => (Ok a, d')
  | Err e => (Err e, d)
  end.
(** A read transaction on a read-only connection. *)
Definition read_only {A} (m : tx A) (d : db) : result repo_error A :=
  match m d with Ok (a, _) => Ok a | Err e => Err e end.

(** ** The environment of the repository

    Code outside the repository: the fault injector, and the JSON that pydantic
    writes and reads for whole models. *)
Class Environment := {
  fault_injector : string -> bool;
  session_key_of_json : string -> option SessionKey;
  capsule_model_json : ContextCapsuleEnvelope -> string;
  capsule_of_json : string -> option ContextCapsuleEnvelope;
  audit_model_json : SnapshotAuditOutcome -> string;
  audit_of_json : string -> option SnapshotAuditOutcome;
}.
(** [model_validate_json] validates, and reads back what a valid model wrote. *)
Class EnvironmentLaws `{Environment} := {
  session_json_round_trip : forall k, SessionKey_valid k = true ->
    session_key_of_json (canonical_json k) = Some k;
  session_json_valid : forall s k, session_key_of_json s = Some k -> SessionKey_valid k = true;
  capsule_json_round_trip : forall c, ContextCapsuleEnvelope_valid c = true ->
    capsule_of_json (capsule_model_json c) = Some c;
  capsule_json_valid : forall s c, capsule_of_json s = Some c -> ContextCapsuleEnvelope_valid c = true;
  audit_json_round_trip : forall a, SnapshotAuditOutcome_valid a = true ->
    audit_of_json (audit_model_json a) = Some a;
  audit_json_valid : forall s a, audit_of_json s = Some a -> SnapshotAuditOutcome_valid a = true;
}.

(** [self._inject(boundary)] *)
Definition inject `{Environment} (boundary : string) : tx unit :=
  guard (fault_injector boundary) (InjectedFault boundary).

(** ** Timestamps *)

(** A [datetime] argument: naive, or aware at an instant. *)
Inductive py_datetime := Naive | Aware (instant : Z).
(** [_normalize_datetime] *)
Definition normalize_datetime (t : py_datetime) : result repo_error Z :=
  match t with Naive => Err ValueError | Aware i => Ok i end.

(** ** Lemmas: successful transactions *)

Lemma tx_bind_ok {A B} (m : tx A) (f : A -> tx B) d b d' :
  (m ≫= f) d = Ok (b, d') <-> exists a d1, m d = Ok (a, d1) /\ f a d1 = Ok (b, d').
Proof.
  unfold mbind, tx_bind. destruct (m d) as [[a d1]|e]; split.
  - eauto.
  - by intros (a' & d1' & [= <- <-] & H).
  - discriminate.
  - by intros (a' & d1' & [=] & H).
Qed.
Lemma tx_bind_run {A B} (m : tx A) (f : A -> tx B) d a d1 :
  m d = Ok (a, d1) -> (m ≫= f) d = f a d1.
Proof. unfold mbind, tx_bind. by intros ->. Qed.
Lemma tx_bind_err {A B} (m : tx A) (f : A -> tx B) d e : m d = Err e -> (m ≫= f) d = Err e.
Proof. unfold mbind, tx_bind. by intros ->. Qed.
Lemma tx_ret_ok {A} (a b : A) d d' : (mret a : tx A) d = Ok (b, d') <-> a = b /\ d = d'.
Proof. unfold mret, tx_ret. split; [by intros [= -> ->] | by intros [-> ->]]. Qed.
Lemma throw_ok {A} e (b : A) d d' : throw e d = Ok (b, d') <-> False.
Proof. by split. Qed.
Lemma guard_ok b e u d d' : guard b e d = Ok (u, d') <-> b = false /\ d = d'.
Proof.
  destruct b, u; unfold guard, throw, mret, tx_ret; split.
  - discriminate.
  - by intros [? _].
  - by intros [= ->].
  - by intros [_ ->].
Qed.
Lemma guard_run_true b e d : b = true -> guard b e d = Err e.
Proof. by intros ->. Qed.
Lemma select_ok {A} (f : db -> A) a d d' : select f d = Ok (a, d') <-> f d = a /\ d = d'.
Proof. unfold select. split; [by intros [= <- <-] | by intros [<- <-]]. Qed.
Lemma lift_ok {A} (r : result repo_error A) a d d' : lift r d = Ok (a, d') <-> r = Ok a /\ d = d'.
Proof.
  unfold lift. destruct r; split.
  - by intros [= -> ->].
  - by intros [[= ->] ->].
  - discriminate.
  - by intros [? _].
Qed.
Lemma codec_result_ok {A} (r : result SecurityErrorCode A) a : codec_result r = Ok a <-> r = Ok a.
Proof. destruct r; cbn; split; congruence. Qed.
Lemma model_result_ok {A} (r : result model_error A) a : model_result r = Ok a <-> r = Ok a.
Proof. destruct r; cbn; split; congruence. Qed.
Lemma inject_ok `{Environment} b u d d' :
  inject b d = Ok (u, d') <-> fault_injector b = false /\ d = d'.
Proof. apply guard_ok. Qed.
Lemma inject_run `{Environment} b d : fault_injector b = false -> inject b d = Ok ((), d).
Proof. intros E. by apply inject_ok. Qed.
Lemma guard_run b e d : b = false -> guard b e d = Ok ((), d).
Proof. intros E. by apply guard_ok. Qed.
Lemma on_integrity_ok {A} (m : tx A) e a d d' : on_integrity m e d = Ok (a, d') <-> m d = Ok (a, d').
Proof. unfold on_integrity. destruct (m d) as [?|[]]; split; congruence. Qed.
Lemma catch_integrity_ok {A} (m : tx A) o d d' : catch_integrity m d = Ok (o, d') <->
  match o with
  | Some a => m d = Ok (a, d')
  | None => m d = Err IntegrityError /\ d' = d
  end.
Proof.
  unfold catch_integrity. destruct (m d) as [[a d1]|[]], o; split; intros;
    destruct_and?; simplify_eq; done.
Qed.
Lemma execute_ok {R} (get : db -> list R) set ok f u d d' :
  execute get set ok f d = Ok (u, d') <-> ok d (f (get d)) = true /\ d' = set (f (get d)) d.
Proof.
  unfold execute. destruct (ok _ _), u; split; intros; destruct_and?; simplify_eq; done.
Qed.
Lemma insert_row_ok {R} (get : db -> list R) set ok r u d d' :
  insert_row get set ok r d = Ok (u, d') <->
  ok d (get d ++ [r]) = true /\ d' = set (get d ++ [r]) d.
Proof. unfold insert_row. by rewrite execute_ok. Qed.
Lemma update_rows_ok {R} (get : db -> list R) set ok p f n d d' :
  update_rows get set ok p f d = Ok (n, d') <->
  n = len (List.filter p (get d))
  /\ ok d (map (fun r => if p r then f r else r) (get d)) = true
  /\ d' = set (map (fun r => if p r then f r else r) (get d)) d.
Proof.
  unfold update_rows. rewrite tx_bind_ok. split.
  - intros (m & d1 & [<- <-]%select_ok & (u & d2 & [Hok ->]%execute_ok & [<- <-]%tx_ret_ok)%tx_bind_ok).
    done.
  - intros (-> & Hok & ->). eexists _, _. split; [by apply select_ok|]. apply tx_bind_ok.
    eexists (), _. split; [by apply execute_ok|]. by apply tx_ret_ok.
Qed.
Lemma fetchone_ok {R} (get : db -> list R) p o d d' :
  fetchone get p d = Ok (o, d') <-> List.find p (get d) = o /\ d = d'.
Proof. unfold fetchone. by rewrite select_ok. Qed.

(** [tx_inv H]: break a successful run of a statement sequence into the runs of
    its statements. *)
Ltac tx_inv H :=
  match type of H with
  | (mbind _ _) _ = Ok (_, _) =>
      let a := fresh "a" in let d := fresh "d" in let H1 := fresh "Hs" in
      apply tx_bind_ok in H as (a & d & H1 & H); tx_inv H1; tx_inv H
  | (mret _) _ = Ok (_, _) => apply tx_ret_ok in H; destruct H; subst
  | throw _ _ = Ok (_, _) => by apply throw_ok in H
  | guard _ _ _ = Ok (_, _) => apply guard_ok in H; destruct H as [H ?]; subst
  | inject _ _ = Ok (_, _) => apply inject_ok in H; destruct H as [H ?]; subst
  | select _ _ = Ok (_, _) => apply select_ok in H; destruct H as [H ?]; subst
  | fetchone _ _ _ = Ok (_, _) => apply fetchone_ok in H; destruct H as [H ?]; subst
  | lift (codec_result _) _ = Ok (_, _) =>
      apply lift_ok in H; destruct H as [H ?]; subst; apply codec_result_ok in H
  | lift (model_result _) _ = Ok (_, _) =>
      apply lift_ok in H; destruct H as [H ?]; subst; apply model_result_ok in H
  | lift _ _ = Ok (_, _) => apply lift_ok in H; destruct H as [H ?]; subst
  | on_integrity _ _ _ = Ok (_, _) => apply on_integrity_ok in H; tx_inv H
  | (if ?b then _ else _) _ = Ok (_, _) => let E := fresh "E" in destruct b eqn:E; tx_inv H
  | (match ?x with _ => _ end) _ = Ok (_, _) => let E := fresh "E" in destruct x eqn:E; tx_inv H
  | _ => idtac
  end.

(** ** Relations every statement respects

    [steps_by R m]: every successful run of [m] relates the database before
    and after by [R]. *)
Definition steps_by {A} (R : db -> db -> Prop) (m : tx A) : Prop :=
  forall d a d', m d = Ok (a, d') -> R d d'.

Section steps.
Context (R : db -> db -> Prop) `{!PreOrder R}.

Lemma steps_bind {A B} (m : tx A) (f : A -> tx B) :
  steps_by R m -> (forall a, steps_by R (f a)) -> steps_by R (m ≫= f).
Proof.
  intros Hm Hf d b d' (a & d1 & H1 & H2)%tx_bind_ok. transitivity d1; [by eapply Hm | by eapply Hf].
Qed.
Lemma steps_ret {A} (a : A) : steps_by R (mret a).
Proof. by intros d b d' [_ <-]%tx_ret_ok. Qed.
Lemma steps_throw {A} e : steps_by R (throw (A := A) e).
Proof. by intros d b d' []%throw_ok. Qed.
Lemma steps_guard b e : steps_by R (guard b e).
Proof. by intros d a d' [_ <-]%guard_ok. Qed.
Lemma steps_select {A} (f : db -> A) : steps_by R (select f).
Proof. by intros d a d' [_ <-]%select_ok. Qed.
Lemma steps_lift {A} (r : result repo_error A) : steps_by R (lift r).
Proof. by intros d a d' [_ <-]%lift_ok. Qed.
Lemma steps_inject `{Environment} b : steps_by R (inject b).
Proof. by intros d a d' [_ <-]%inject_ok. Qed.
Lemma steps_on_integrity {A} (m : tx A) e : steps_by R m -> steps_by R (on_integrity m e).
Proof. intros Hm d a d' H%on_integrity_ok. by eapply Hm. Qed.
Lemma steps_catch {A} (m : tx A) : steps_by R m -> steps_by R (catch_integrity m).
Proof.
  intros Hm d [a|] d' H%catch_integrity_ok; [by eapply Hm|]. by destruct H as [_ ->].
Qed.
Lemma steps_fetchone {X} (get : db -> list X) p : steps_by R (fetchone get p).
Proof. apply steps_select. Qed.
End steps.

(** Decompose a [steps_by] goal down to the statements that write. *)
Ltac steps_by_tac :=
  repeat match goal with
  | |- steps_by _ (mbind _ _) => apply steps_bind; try exact _; intros
  | |- steps_by _ (mret _) => apply steps_ret; exact _
  | |- steps_by _ (throw _) => apply steps_throw
  | |- steps_by _ (guard _ _) => apply steps_guard; exact _
  | |- steps_by _ (select _) => apply steps_select; exact _
  | |- steps_by _ (lift _) => apply steps_lift; exact _
  | |- steps_by _ (inject _) => apply steps_inject; exact _
  | |- steps_by _ (fetchone _ _) => apply steps_fetchone; exact _
  | |- steps_by _ (on_integrity _ _) => apply steps_on_integrity
  | |- steps_by _ (catch_integrity _) => apply steps_catch; try exact _
  | |- steps_by _ (if ?b then _ else _) => destruct b
  | |- steps_by _ (match ?x with _ => _ end) => destruct x
  end.

(** ** Lemmas: constraints of an extended table *)

Lemma forallb_snoc {A} (p : A -> bool) l x : forallb p (l ++ [x]) = forallb p l && p x.
Proof. rewrite forallb_app. cbn. by rewrite andb_true_r. Qed.

Lemma unique_by_snoc {A B} `{EqDecision B} (key : A -> B) rows r :
  unique_by key (rows ++ [r]) = unique_by key rows && negb (existsb (fun x => eqb_of (key x) (key r)) rows).
Proof.
  unfold unique_by, no_duplicates. apply eq_true_iff_eq.
  rewrite andb_true_iff, !bool_decide_eq_true, negb_true_iff, existsb_false_iff, map_app, NoDup_app.
  cbn [map]. unfold eqb_of. setoid_rewrite bool_decide_eq_false. split.
  - intros (Hn & Hd & _). split; [done|]. intros x Hx E. apply (Hd (key x)).
    + apply list_elem_of_fmap. eauto.
    + rewrite E. by left.
  - intros [Hn Hd]. split; [done|]. split; [|apply NoDup_singleton].
    intros y (x & -> & Hx)%list_elem_of_fmap Hy%list_elem_of_singleton. by apply (Hd x Hx).
Qed.

Lemma is_blank_not_blank s : is_blank s = false -> not_blank s = true.
Proof.
  unfold not_blank. intros H. apply negb_true_iff, not_true_iff_false. intros Hs.
  apply sqlite_blank_is_blank in Hs. congruence.
Qed.

Lemma insert_row_run {R} (get : db -> list R) set ok r d :
  ok d (get d ++ [r]) = true -> insert_row get set ok r d = Ok ((), set (get d ++ [r]) d).
Proof. intros H. by apply insert_row_ok. Qed.

Lemma references_spec {A} (key : A -> string) rows x :
  references key rows x = true <-> exists r, r ∈ rows /\ key r = x.
Proof.
  unfold references. rewrite existsb_true_iff. setoid_rewrite (py_eq_leibniz (A:=string)). done.
Qed.

(** ** The schema is preserved by every statement *)

(** Referenced keys are never removed. *)
Definition keys_kept (d d' : db) : Prop :=
  (forall x, references se_hash (sessions d) x = true -> references se_hash (sessions d') x = true)
  /\ (forall x, references nr_snapshot_id (snapshots d) x = true ->
                references nr_snapshot_id (snapshots d') x = true)
  /\ (forall x, references cr_capsule_id (capsules d) x = true ->
                references cr_capsule_id (capsules d') x = true).

Lemma forallb_impl {A} (p q : A -> bool) l :
  (forall x, x ∈ l -> p x = true -> q x = true) -> forallb p l = true -> forallb q l = true.
Proof. rewrite !forallb_true_iff. eauto. Qed.

Lemma references_app {A} (key : A -> string) l m x :
  references key l x = true -> references key (l ++ m) x = true.
Proof. unfold references. rewrite existsb_app. by intros ->. Qed.

Lemma opt_references_mono {A B} (key : A -> string) (key' : B -> string) l m o :
  (forall x, references key l x = true -> references key' m x = true) ->
  opt_references key l o = true -> opt_references key' m o = true.
Proof. destruct o; cbn; auto. Qed.

(** The tables that refer to others stay consistent when keys are kept. *)
Lemma tables_mono d d' : keys_kept d d' ->
  (forall rows, events_ok d rows = true -> events_ok d' rows = true)
  /\ (forall rows, capsules_ok d rows = true -> capsules_ok d' rows = true)
  /\ (forall rows, snapshots_ok d rows = true -> snapshots_ok d' rows = true)
  /\ (forall rows, memberships_ok d rows = true -> memberships_ok d' rows = true)
  /\ (forall rows, actives_ok d rows = true -> actives_ok d' rows = true)
  /\ (forall rows, jobs_ok d rows = true -> jobs_ok d' rows = true)
  /\ (forall rows, intents_ok d rows = true -> intents_ok d' rows = true)
  /\ (forall rows, ledger_ok d rows = true -> ledger_ok d' rows = true).
Proof.
  intros (Hs & Hn & Hc).
  assert (Hon := fun o => opt_references_mono nr_snapshot_id nr_snapshot_id _ _ o Hn).
  split_and!; intros rows; unfold events_ok, capsules_ok, snapshots_ok, memberships_ok, actives_ok,
    jobs_ok, intents_ok, ledger_ok; rewrite ?andb_true_iff; intros Hok; destruct_and?; split_and?; try done;
    match goal with H : forallb _ rows = true |- _ => revert H end; apply forallb_impl;
    intros x _; cbn beta; rewrite ?andb_true_iff; intros Hx; destruct_and?; split_and?; auto.
Qed.

Lemma schema_ok_spec d : schema_ok d = true <->
  sessions_ok d (sessions d) = true /\ events_ok d (journal_events d) = true
  /\ capsules_ok d (capsules d) = true /\ snapshots_ok d (snapshots d) = true
  /\ memberships_ok d (snapshot_capsules d) = true /\ actives_ok d (active_snapshots d) = true
  /\ jobs_ok d (compaction_jobs d) = true /\ metrics_ok d (token_metrics d) = true
  /\ intents_ok d (backfill_intents d) = true /\ ledger_ok d (reorganization_records d) = true.
Proof. unfold schema_ok. rewrite !andb_true_iff. tauto. Qed.

Definition schema_kept (d d' : db) : Prop := schema_ok d = true -> schema_ok d' = true.
#[export] Instance schema_kept_preorder : PreOrder schema_kept.
Proof. split; [intros d H; exact H | intros a b c H1 H2 H; exact (H2 (H1 H))]. Qed.

Lemma keys_kept_refl d : keys_kept d d.
Proof. unfold keys_kept. auto. Qed.

Lemma schema_of_tables d d' : keys_kept d d' -> schema_ok d = true ->
  (sessions d' = sessions d \/ sessions_ok d' (sessions d') = true) ->
  (journal_events d' = journal_events d \/ events_ok d' (journal_events d') = true) ->
  (capsules d' = capsules d \/ capsules_ok d' (capsules d') = true) ->
  (snapshots d' = snapshots d \/ snapshots_ok d' (snapshots d') = true) ->
  (snapshot_capsules d' = snapshot_capsules d \/ memberships_ok d' (snapshot_capsules d') = true) ->
  (active_snapshots d' = active_snapshots d \/ actives_ok d' (active_snapshots d') = true) ->
  (compaction_jobs d' = compaction_jobs d \/ jobs_ok d' (compaction_jobs d') = true) ->
  (token_metrics d' = token_metrics d \/ metrics_ok d' (token_metrics d') = true) ->
  (backfill_intents d' = backfill_intents d \/ intents_ok d' (backfill_intents d') = true) ->
  (reorganization_records d' = reorganization_records d
   \/ ledger_ok d' (reorganization_records d') = true) ->
  schema_ok d' = true.
Proof.
  intros Hk (T1 & T2 & T3 & T4 & T5 & T6 & T7 & T8 & T9 & T10)%schema_ok_spec
    S1 S2 S3 S4 S5 S6 S7 S8 S9 S10.
  apply tables_mono in Hk as (M2 & M3 & M4 & M5 & M6 & M7 & M9 & M10). apply schema_ok_spec.
  split_and!.
  - destruct S1 as [-> |?]; auto.
  - destruct S2 as [-> |?]; auto.
  - destruct S3 as [-> |?]; auto.
  - destruct S4 as [-> |?]; auto.
  - destruct S5 as [-> |?]; auto.
  - destruct S6 as [-> |?]; auto.
  - destruct S7 as [-> |?]; auto.
  - destruct S8 as [-> |?]; auto.
  - destruct S9 as [-> |?]; auto.
  - destruct S10 as [-> |?]; auto.
Qed.

Lemma keys_kept_sessions rows d :
  (forall x, references se_hash (sessions d) x = true -> references se_hash rows x = true) ->
  keys_kept d (set_sessions rows d).
Proof. intros H. unfold keys_kept. auto. Qed.

Lemma schema_insert_session r : steps_by schema_kept (insert_session r).
Proof.
  intros d u d' [Hok ->]%insert_row_ok Hd. eapply schema_of_tables; [|exact Hd|..]; cbn; auto.
  apply keys_kept_sessions. intros x. apply references_app.
Qed.
Lemma schema_update_sessions p f : (forall r, se_hash (f r) = se_hash r) ->
  steps_by schema_kept (update_sessions p f).
Proof.
  intros Hf d u d' (_ & Hok & ->)%update_rows_ok Hd. eapply schema_of_tables; [|exact Hd|..]; cbn; auto.
  apply keys_kept_sessions. intros x. rewrite !references_spec. intros (r & Hr & <-).
  exists (if p r then f r else r). split; [|destruct (p r); auto]. apply list_elem_of_fmap. eauto.
Qed.
Lemma schema_insert_event r : steps_by schema_kept (insert_event r).
Proof.
  intros d u d' [Hok ->]%insert_row_ok Hd. eapply schema_of_tables; [|exact Hd|..]; cbn; auto.
  unfold keys_kept. auto.
Qed.
Lemma schema_insert_capsule r : steps_by schema_kept (insert_capsule r).
Proof.
  intros d u d' [Hok ->]%insert_row_ok Hd. eapply schema_of_tables; [|exact Hd|..]; cbn; auto.
  unfold keys_kept. split_and!; auto. intros x. apply references_app.
Qed.
Lemma schema_insert_snapshot r : steps_by schema_kept (insert_snapshot r).
Proof.
  intros d u d' [Hok ->]%insert_row_ok Hd. eapply schema_of_tables; [|exact Hd|..]; cbn; auto.
  unfold keys_kept. split_and!; auto. intros x. apply references_app.
Qed.
Lemma schema_insert_membership r : steps_by schema_kept (insert_membership r).
Proof.
  intros d u d' [Hok ->]%insert_row_ok Hd. eapply schema_of_tables; [|exact Hd|..]; cbn; auto.
  unfold keys_kept. auto.
Qed.
Lemma schema_insert_active r : steps_by schema_kept (insert_active r).
Proof.
  intros d u d' [Hok ->]%insert_row_ok Hd. eapply schema_of_tables; [|exact Hd|..]; cbn; auto.
  unfold keys_kept. auto.
Qed.
Lemma schema_update_actives p f : steps_by schema_kept (update_actives p f).
Proof.
  intros d u d' (_ & Hok & ->)%update_rows_ok Hd. eapply schema_of_tables; [|exact Hd|..]; cbn; auto.
  unfold keys_kept. auto.
Qed.
Lemma schema_insert_job r : steps_by schema_kept (insert_job r).
Proof.
  intros d u d' [Hok ->]%insert_row_ok Hd. eapply schema_of_tables; [|exact Hd|..]; cbn; auto.
  unfold keys_kept. auto.
Qed.
Lemma schema_update_jobs p f : steps_by schema_kept (update_jobs p f).
Proof.
  intros d u d' (_ & Hok & ->)%update_rows_ok Hd. eapply schema_of_tables; [|exact Hd|..]; cbn; auto.
  unfold keys_kept. auto.
Qed.
Lemma schema_insert_metric r : steps_by schema_kept (insert_metric r).
Proof.
  intros d u d' [Hok ->]%insert_row_ok Hd. eapply schema_of_tables; [|exact Hd|..]; cbn; auto.
  unfold keys_kept. auto.
Qed.
Lemma schema_insert_intent r : steps_by schema_kept (insert_intent r).
Proof.
  intros d u d' [Hok ->]%insert_row_ok Hd. eapply schema_of_tables; [|exact Hd|..]; cbn; auto.
  unfold keys_kept. auto.
Qed.
Lemma schema_delete_intents p : steps_by schema_kept (delete_intents p).
Proof.
  intros d u d' [Hok ->]%execute_ok Hd. eapply schema_of_tables; [|exact Hd|..]; cbn; auto.
  unfold keys_kept. auto.
Qed.
Lemma schema_insert_ledger r : steps_by schema_kept (insert_ledger r).
Proof.
  intros d u d' [Hok ->]%insert_row_ok Hd. eapply schema_of_tables; [|exact Hd|..]; cbn; auto.
  unfold keys_kept. auto.
Qed.
#[export] Hint Resolve schema_insert_session schema_insert_event schema_insert_capsule
  schema_insert_snapshot schema_insert_membership schema_insert_active schema_update_actives
  schema_insert_job schema_update_jobs schema_insert_metric schema_insert_intent
  schema_delete_intents schema_insert_ledger : ac.

Lemma transaction_ok {A} (m : tx A) d a d' :
  transaction m d = (Ok a, d') <-> m d = Ok (a, d').
Proof. unfold transaction. destruct (m d) as [[? ?]|]; split; congruence. Qed.
Lemma transaction_err {A} (m : tx A) d e d' :
  transaction m d = (Err e, d') <-> m d = Err e /\ d' = d.
Proof. unfold transaction. destruct (m d) as [[? ?]|]; split; intros; destruct_and?; simplify_eq; done. Qed.
