(* ===== verification/ToolLoop.v ===== *)
(** The durable tool-loop protocol of [runtime/tool_loop.py]: a fail-closed
    finite-state machine over Journal events that pairs tool calls with results
    by canonical fingerprint and groups a history into indivisible units.
    [unit_ok] is its declarative grammar. *)
From S2P Require Import Prelude PyString PyFloat Domain PyJson.
From Stdlib Require Import Ascii SpecFloat.
From Stdlib Require String.
Open Scope string_scope.
Open Scope list_scope.
Open Scope Z_scope.

(** ** Fingerprints *)

(** [float.__repr__]; nothing below depends on how floats print. *)
Class FloatRepr := float_repr : float -> list ascii.

Record ToolFingerprint := { tf_tool : string; tf_arguments : string }.
#[export] Instance ToolFingerprint_eq_dec : EqDecision ToolFingerprint.
Proof. solve_decision. Defined.

(** [_unique_object] over the whole value: no object repeats a key. *)
Fixpoint unique_objects (v : json) : bool :=
  match v with
  | JArr l => forallb unique_objects l
  | JObj m => no_duplicates (map fst m) && forallb (fun p => unique_objects p.2) m
  | _ => true
  end.
(** [_reject_json_constant]: none of the three constants was read. *)
Fixpoint no_constants (v : json) : bool :=
  match v with
  | JConst _ => false
  | JArr l => forallb no_constants l
  | JObj m => forallb (fun p => no_constants p.2) m
  | _ => true
  end.

(** [sort_keys=True] *)
Fixpoint insert_member (p : string * json) (m : list (string * json)) : list (string * json) :=
  match m with
  | [] => [p]
  | q :: rest => if str_ltb q.1 p.1 then q :: insert_member p rest else p :: m
  end.
Fixpoint sort_keys (v : json) : json :=
  match v with
  | JArr l => JArr (map sort_keys l)
  | JObj m => JObj (foldr (fun p rest => insert_member (p.1, sort_keys p.2) rest) [] m)
  | v => v
  end.
(** What [json.dumps] refuses: a float that is not finite ([allow_nan=False])
    and an integer beyond the conversion limit. *)
Fixpoint printable (v : json) : bool :=
  match v with
  | JInt n => is_some (str_int n)
  | JFloat x | JConst x => f_is_finite x
  | JArr l => forallb printable l
  | JObj m => forallb (fun p => printable p.2) m
  | _ => true
  end.
Definition _canonical_json `{FloatRepr} (value : json) : option string :=
  if printable value then Some (String.string_of_list_ascii (dumps_chars float_repr (sort_keys value)))
  else None.

(** [key.casefold().lstrip("$").replace("-", "_")], as far as the two words it is
    compared with go: besides the ASCII capitals the one character whose
    casefolding can take part in one of them is U+017F, which folds to [s]. *)
Definition fold_ascii (c : ascii) : ascii :=
  if (65 <=? Z.of_N (code c)) && (Z.of_N (code c) <=? 90) then ascii_of_N (code c + 32) else c.
Fixpoint casefold_key (s : list ascii) : list ascii :=
  match s with
  | c :: r =>
      match r with
      | d :: r' => if N.eqb (code c) 197 && N.eqb (code d) 191 then "s"%char :: casefold_key r'
                   else fold_ascii c :: casefold_key r
      | [] => [fold_ascii c]
      end
  | [] => []
  end.
Fixpoint lstrip_dollar (s : list ascii) : list ascii :=
  match s with c :: r => if Ascii.eqb c "$"%char then lstrip_dollar r else s | [] => [] end.
Definition normalized_key (key : string) : string :=
  String.string_of_list_ascii (map (fun c => if Ascii.eqb c "-"%char then "_"%char else c)
                            (lstrip_dollar (casefold_key (chars key)))).
Fixpoint _contains_lossy_marker (v : json) : bool :=
  match v with
  | JObj m => existsb (fun p => py_in (normalized_key p.1) ["truncated"; "truncated_items"]
                                || _contains_lossy_marker p.2) m
  | JArr l => existsb _contains_lossy_marker l
  | _ => false
  end.

Definition member (key : string) (m : list (string * json)) : option json :=
  snd <$> List.find (fun p => p.1 ==? key) m.

Definition is_tool (event : EventEnvelope) : bool :=
  match ev_event_type event with TOOL_CALL | TOOL_RESULT => true | _ => false end.
Definition _tool_fingerprint `{FloatRepr} (event : EventEnvelope) : option ToolFingerprint :=
  let expected_kind := if eqb_of (ev_event_type event) TOOL_CALL then "call" else "result" in
  match json_loads (ev_content event) with
  | Some (JObj metadata) =>
      if negb (unique_objects (JObj metadata)) then None else
      if negb (no_constants (JObj metadata)) then None else
      match member "kind" metadata with
      | Some (JStr kind) =>
          if kind !=? expected_kind then None else
          if _contains_lossy_marker (JObj metadata) then None else
          match member "tool" metadata, member "arguments" metadata with
          | Some (JStr tool), Some arguments =>
              if is_blank tool then None else
              canonical_arguments ← _canonical_json arguments;
              Some {| tf_tool := tool; tf_arguments := canonical_arguments |}
          | _, _ => None
          end
      | _ => None
      end
  | _ => None
  end.

(** ** The counter of open calls *)

(** [collections.Counter]: a dict in insertion order. *)
Definition Counter := list (ToolFingerprint * Z).
Definition counter_get (c : Counter) (f : ToolFingerprint) : Z :=
  default 0 (snd <$> List.find (fun p => eqb_of p.1 f) c).
Fixpoint counter_add (c : Counter) (f : ToolFingerprint) (n : Z) : Counter :=
  match c with
  | [] => [(f, n)]
  | (g, k) :: rest => if eqb_of g f then (g, k + n) :: rest else (g, k) :: counter_add rest f n
  end.
Definition counter_del (c : Counter) (f : ToolFingerprint) : Counter :=
  List.filter (fun p => negb (eqb_of p.1 f)) c.

(** ** The machine *)

Inductive ToolLoopState := STABLE | AWAITING_RESULTS | AWAITING_ASSISTANT | INVALID.
#[export] Instance ToolLoopState_eq_dec : EqDecision ToolLoopState.
Proof. solve_decision. Defined.
Record PendingTool := { pt_fingerprint : ToolFingerprint; pt_count : Z }.
Record ToolLoopAssessment := { ta_state : ToolLoopState; ta_pending : list PendingTool }.
Definition _invalid_assessment : ToolLoopAssessment := {| ta_state := INVALID; ta_pending := [] |}.

Definition fingerprint_leb (a b : ToolFingerprint) : bool :=
  str_ltb (tf_tool a) (tf_tool b)
  || ((tf_tool a ==? tf_tool b) && str_leb (tf_arguments a) (tf_arguments b)).
Fixpoint insert_pending (p : ToolFingerprint * Z) (l : Counter) : Counter :=
  match l with
  | [] => [p]
  | q :: rest => if fingerprint_leb p.1 q.1 then p :: l else q :: insert_pending p rest
  end.
Definition _pending_entries (pending : Counter) : list PendingTool :=
  map (fun p => {| pt_fingerprint := p.1; pt_count := p.2 |})
      (List.filter (fun p => 0 <? p.2) (foldr insert_pending [] pending)).

(** The local variables of [_parse_events]. *)
Record Loop := {
  lp_state : ToolLoopState;
  lp_pending : Counter;
  lp_previous : option Z;
  lp_session : option SessionKey;
  lp_units : list (list EventEnvelope);
  lp_start : option Z;
}.
Definition loop_start : Loop :=
  {| lp_state := STABLE; lp_pending := []; lp_previous := None; lp_session := None;
     lp_units := []; lp_start := None |}.
(** [events[start : stop]] for [0 <= start]. *)
Definition slice {A} (l : list A) (start stop : Z) : list A :=
  take (Z.to_nat (stop - start)) (drop (Z.to_nat start) l).

Section machine.
Context `{FloatRepr}.

(** One iteration of the loop; [None] returns the invalid assessment. *)
Definition loop_step (events : list EventEnvelope) (l : Loop) (p : Z * EventEnvelope) : option Loop :=
  let '(index, event) := p in
  if match lp_previous l with Some previous => negb (ev_sequence event =? previous + 1) | None => false end
  then None else
  if match lp_session l with Some session => ev_session_key event !=? session | None => false end
  then None else
  let session := Some (default (ev_session_key event) (lp_session l)) in
  let next state pending units start :=
    Some {| lp_state := state; lp_pending := pending; lp_previous := Some (ev_sequence event);
            lp_session := session; lp_units := units; lp_start := start |} in
  let fingerprint := if is_tool event then _tool_fingerprint event else None in
  if is_tool event && is_none fingerprint then None else
  match lp_state l, ev_event_type event, fingerprint with
  | STABLE, TOOL_CALL, Some f =>
      next AWAITING_RESULTS (counter_add (lp_pending l) f 1) (lp_units l) (Some index)
  | STABLE, TOOL_CALL, None | STABLE, TOOL_RESULT, _ => None
  | STABLE, _, _ => next STABLE (lp_pending l) (lp_units l ++ [[event]]) (lp_start l)
  | AWAITING_RESULTS, TOOL_CALL, Some f =>
      next AWAITING_RESULTS (counter_add (lp_pending l) f 1) (lp_units l) (lp_start l)
  | AWAITING_RESULTS, TOOL_RESULT, Some f =>
      if counter_get (lp_pending l) f <? 1 then None else
      let pending := counter_add (lp_pending l) f (-1) in
      let pending := if counter_get pending f =? 0 then counter_del pending f else pending in
      next (match pending with [] => AWAITING_ASSISTANT | _ => AWAITING_RESULTS end)
           pending (lp_units l) (lp_start l)
  | AWAITING_ASSISTANT, ASSISTANT_MESSAGE, _ =>
      match lp_start l with
      | None => None
      | Some start => next STABLE (lp_pending l) (lp_units l ++ [slice events start (index + 1)]) None
      end
  | AWAITING_ASSISTANT, TOOL_CALL, Some f =>
      next AWAITING_RESULTS (counter_add (lp_pending l) f 1) (lp_units l) (lp_start l)
  | _, _, _ => None
  end.

Fixpoint loop_run (events : list EventEnvelope) (l : Loop) (rest : list (Z * EventEnvelope)) : option Loop :=
  match rest with
  | [] => Some l
  | p :: rest => l ← loop_step events l p; loop_run events l rest
  end.

Definition _parse_events (events : list EventEnvelope)
    : ToolLoopAssessment * option (list (list EventEnvelope)) :=
  match loop_run events loop_start (enumerate events) with
  | None => (_invalid_assessment, None)
  | Some l => ({| ta_state := lp_state l; ta_pending := _pending_entries (lp_pending l) |},
               if eqb_of (lp_state l) STABLE then Some (lp_units l) else None)
  end.

Definition evaluate_tool_loop (events : list EventEnvelope) : ToolLoopAssessment :=
  (_parse_events events).1.
Definition durable_event_units (events : list EventEnvelope) : option (list (list EventEnvelope)) :=
  let '(assessment, units) := _parse_events events in
  if negb (eqb_of (ta_state assessment) STABLE) then None else units.
End machine.

(** ** The grammar of stable histories *)

(** Consecutive sequence numbers of one session. *)
Definition one_history (es : list EventEnvelope) : Prop := forall i e e',
  es !! i = Some e -> es !! S i = Some e' ->
  ev_sequence e' = ev_sequence e + 1 /\ ev_session_key e' = ev_session_key e.

Section grammar.
Context `{FloatRepr}.

(** Calls less results of one fingerprint. *)
Definition balance (f : ToolFingerprint) (es : list EventEnvelope) : Z :=
  sumZ (fun e => if eqb_of (_tool_fingerprint e) (Some f)
                 then if eqb_of (ev_event_type e) TOOL_CALL then 1 else -1 else 0) es.
(** Tool events in which no result precedes its call. *)
Definition call_first (body : list EventEnvelope) : Prop :=
  (forall e, e ∈ body -> is_tool e = true /\ _tool_fingerprint e <> None)
  /\ forall p s f, body = p ++ s -> 0 <= balance f p.
Definition open_body (body : list EventEnvelope) : Prop := body <> [] /\ call_first body.
(** A message, or a complete tool loop: every call answered, then the assistant. *)
Inductive unit_ok : list EventEnvelope -> Prop :=
| unit_message e : is_tool e = false -> unit_ok [e]
| unit_loop body a : open_body body -> (forall f, balance f body = 0) ->
    ev_event_type a = ASSISTANT_MESSAGE -> unit_ok (body ++ [a]).

(** ** Lemmas: the counter *)

Lemma counter_get_cons g k c f : counter_get ((g, k) :: c) f = if eqb_of g f then k else counter_get c f.
Proof. unfold counter_get. cbn. by destruct (eqb_of g f). Qed.
Lemma counter_get_add c f n g : counter_get (counter_add c f n) g = counter_get c g + (if eqb_of f g then n else 0).
Proof.
  induction c as [|[h k] c IH]; cbn [counter_add].
  - rewrite counter_get_cons. change (counter_get [] g) with 0. destruct (eqb_of f g); lia.
  - destruct (eqb_of h f) eqn:E; rewrite !counter_get_cons.
    + unfold eqb_of in E. apply bool_decide_eq_true in E as ->. destruct (eqb_of f g); lia.
    + destruct (eqb_of h g) eqn:Eg; [|apply IH]. unfold eqb_of in *.
      apply bool_decide_eq_true in Eg as ->. rewrite bool_decide_eq_false in E.
      rewrite bool_decide_eq_false_2 by congruence. lia.
Qed.
Lemma counter_get_del c f g : counter_get (counter_del c f) g = if eqb_of f g then 0 else counter_get c g.
Proof.
  induction c as [|[h k] c IH]; [by destruct (eqb_of f g)|].
  change (counter_del ((h, k) :: c) f)
    with (if negb (eqb_of h f) then (h, k) :: counter_del c f else counter_del c f).
  destruct (eqb_of h f) eqn:E; cbn [negb]; rewrite ?counter_get_cons, IH; unfold eqb_of in *.
  - apply bool_decide_eq_true in E as ->. by destruct (bool_decide (f = g)).
  - apply bool_decide_eq_false in E. destruct (decide (h = g)) as [->|].
    + by rewrite (bool_decide_eq_true_2 (g = g)), (bool_decide_eq_false_2 (f = g)) by congruence.
    + by rewrite (bool_decide_eq_false_2 (h = g)).
Qed.
Lemma counter_add_keys c f n g : g ∈ map fst (counter_add c f n) <-> g ∈ map fst c \/ g = f.
Proof.
  induction c as [|[h k] c IH]; cbn [counter_add map fst].
  - rewrite list_elem_of_singleton, elem_of_nil. tauto.
  - destruct (eqb_of h f) eqn:E; cbn [map fst]; rewrite !elem_of_cons, ?IH; [|tauto].
    unfold eqb_of in E. apply bool_decide_eq_true in E as ->. tauto.
Qed.
Lemma counter_add_NoDup c f n : NoDup (map fst c) -> NoDup (map fst (counter_add c f n)).
Proof.
  induction c as [|[h k] c IH]; cbn [counter_add map fst].
  - intros _. apply NoDup_singleton.
  - destruct (eqb_of h f) eqn:E; cbn [map fst]; [done|]. intros [Hn Hc]%NoDup_cons. constructor; [|by apply IH].
    rewrite counter_add_keys. intros [?| ->]; [done|]. unfold eqb_of in E. by rewrite bool_decide_eq_false in E.
Qed.
Lemma counter_get_elem c f k : NoDup (map fst c) -> (f, k) ∈ c -> counter_get c f = k.
Proof.
  induction c as [|[h n] c IH]; [by intros _ ?%elem_of_nil|]. cbn [map fst]. intros [Hn Hc]%NoDup_cons.
  rewrite elem_of_cons, counter_get_cons. unfold eqb_of. intros [[= -> ->]|Hk].
  - by rewrite bool_decide_eq_true_2.
  - rewrite bool_decide_eq_false_2; [by apply IH|]. intros ->. apply Hn. apply list_elem_of_fmap. by exists (f, k).
Qed.

(** The counter of an open body: positive, one entry per fingerprint. *)
Definition counts (c : Counter) (body : list EventEnvelope) : Prop :=
  NoDup (map fst c) /\ (forall p, p ∈ c -> 0 < p.2) /\ forall f, counter_get c f = balance f body.

Lemma counts_nil c body : counts c body -> c = [] <-> forall f, balance f body = 0.
Proof.
  intros (Hn & Hp & Hg). split; [intros -> f; by rewrite <- Hg|]. intros Hz. destruct c as [|[f k] c]; [done|].
  exfalso. assert (0 < k) by apply (Hp (f, k) (list_elem_of_here _ _)).
  specialize (Hg f). rewrite Hz, counter_get_cons in Hg. unfold eqb_of in Hg.
  rewrite bool_decide_eq_true_2 in Hg by done. lia.
Qed.
Lemma balance_snoc f body e : balance f (body ++ [e]) = balance f body + balance f [e].
Proof. apply sumZ_app. Qed.
Lemma balance_one f g e : _tool_fingerprint e = Some f ->
  balance g [e] = if eqb_of f g then (if eqb_of (ev_event_type e) TOOL_CALL then 1 else -1) else 0.
Proof.
  intros E. unfold balance. rewrite sumZ_cons. change (sumZ _ []) with 0. rewrite E, Z.add_0_r.
  unfold eqb_of. destruct (decide (f = g)) as [->|].
  - by rewrite (bool_decide_eq_true_2 (Some g = Some g)), (bool_decide_eq_true_2 (g = g)).
  - by rewrite (bool_decide_eq_false_2 (Some f = Some g)), (bool_decide_eq_false_2 (f = g)) by congruence.
Qed.
Lemma counts_call c body e f : counts c body -> _tool_fingerprint e = Some f ->
  ev_event_type e = TOOL_CALL -> counts (counter_add c f 1) (body ++ [e]).
Proof.
  intros (Hn & Hp & Hg) Hf Ht. assert (Hn' := counter_add_NoDup c f 1 Hn). split_and!; [done| |].
  - intros [g k] Hk. pose proof (counter_get_elem _ g k Hn' Hk) as E. cbn. rewrite counter_get_add in E.
    assert (0 <= counter_get c g).
    { unfold counter_get. destruct (List.find _ c) as [p|] eqn:Ef; cbn; [|lia].
      apply find_some_elem in Ef as [Ef _]. specialize (Hp p Ef). lia. }
    apply (list_elem_of_fmap_2 fst) in Hk. apply counter_add_keys in Hk as [Hk|Hk]; cbn in Hk.
    + apply list_elem_of_fmap in Hk as ([g' k'] & -> & Hk). pose proof (counter_get_elem c g' k' Hn Hk) as E'.
      specialize (Hp _ Hk). cbn in *. destruct (eqb_of f g'); lia.
    + subst g. unfold eqb_of in E. rewrite bool_decide_eq_true_2 in E by done. lia.
  - intros g. rewrite counter_get_add, balance_snoc, Hg, (balance_one f) by done. by rewrite Ht.
Qed.
Lemma counts_result c body e f : counts c body -> _tool_fingerprint e = Some f ->
  ev_event_type e = TOOL_RESULT -> 1 <= counter_get c f ->
  let c' := counter_add c f (-1) in
  counts (if counter_get c' f =? 0 then counter_del c' f else c') (body ++ [e]).
Proof.
  intros (Hn & Hp & Hg) Hf Ht H1 c'. assert (Hn' := counter_add_NoDup c f (-1) Hn : NoDup (map fst c')).
  assert (Hget : forall g, counter_get c' g = balance g (body ++ [e])).
  { intros g. unfold c'. rewrite counter_get_add, balance_snoc, Hg, (balance_one f) by done. by rewrite Ht. }
  assert (Hpos : forall g k, (g, k) ∈ c' -> g <> f -> 0 < k).
  { intros g k Hk Hne. pose proof (counter_get_elem _ g k Hn' Hk) as E. unfold c' in E. rewrite counter_get_add in E.
    unfold eqb_of in E. rewrite bool_decide_eq_false_2 in E by congruence.
    apply (list_elem_of_fmap_2 fst) in Hk. apply counter_add_keys in Hk as [Hk|Hk]; [|done].
    apply list_elem_of_fmap in Hk as ([g' k'] & E' & Hk). cbn in E'. subst g'.
    pose proof (counter_get_elem c g k' Hn Hk). specialize (Hp _ Hk). cbn in Hp. lia. }
  destruct (counter_get c' f =? 0) eqn:E0; bool_hyps.
  - split_and!.
    + unfold counter_del. clear -Hn'. induction c' as [|[h k] c' IH]; [done|]. cbn in *.
      apply NoDup_cons in Hn' as [Hh Hc]. destruct (negb _); [|by apply IH]. cbn. constructor; [|by apply IH].
      intros ([h' k'] & -> & Hk)%list_elem_of_fmap. apply Hh. apply elem_of_filter_bool in Hk as [Hk _].
      apply list_elem_of_fmap. by exists (h', k').
    + intros [g k] [Hk Hne]%elem_of_filter_bool. cbn in *. apply (Hpos g k Hk).
      unfold eqb_of in Hne. by apply negb_true_iff, bool_decide_eq_false in Hne.
    + intros g. rewrite counter_get_del, <- Hget. unfold eqb_of. destruct (decide (f = g)) as [->|].
      * by rewrite bool_decide_eq_true_2.
      * by rewrite bool_decide_eq_false_2.
  - split_and!; [done| |done]. intros [g k] Hk. cbn. destruct (decide (g = f)) as [->|Hne]; [|by eapply Hpos].
    pose proof (counter_get_elem _ f k Hn' Hk) as E. unfold c' in E. rewrite counter_get_add in E.
    unfold eqb_of in E. rewrite bool_decide_eq_true_2 in E by done.
    unfold c' in E0. rewrite counter_get_add in E0. unfold eqb_of in E0.
    rewrite bool_decide_eq_true_2 in E0 by done. lia.
Qed.

Lemma counts_nonneg c body f : counts c body -> 0 <= balance f body.
Proof.
  intros (Hn & Hp & Hg). rewrite <- Hg. unfold counter_get.
  destruct (List.find _ c) as [p|] eqn:Ef; cbn; [|lia].
  apply find_some_elem in Ef as [Ef _]. specialize (Hp p Ef). lia.
Qed.
Lemma counts_empty : counts [] [].
Proof. split_and!; [constructor|by intros p ?%elem_of_nil|done]. Qed.
Lemma call_first_nil : call_first [].
Proof.
  split; [by intros e ?%elem_of_nil|]. intros p s f E. symmetry in E. by apply app_nil in E as [-> _].
Qed.
Lemma call_first_snoc c body e f : call_first body -> is_tool e = true -> _tool_fingerprint e = Some f ->
  counts c (body ++ [e]) -> open_body (body ++ [e]).
Proof.
  intros [Ht Hp] Hi Hf Hc. split; [by destruct body|]. split.
  - intros x [Hx|Hx%list_elem_of_singleton]%elem_of_app; [by apply Ht|]. subst x. by rewrite Hf.
  - intros p s g E. destruct s as [|x s _] using rev_ind.
    + rewrite app_nil_r in E. subst p. by eapply counts_nonneg.
    + rewrite app_assoc in E. apply app_inj_tail in E as [E _]. by eapply Hp.
Qed.

(** ** Lemmas: the machine's invariant *)

(** What the local variables say of the events read so far. *)
Definition loop_inv (done : list EventEnvelope) (l : Loop) : Prop :=
  lp_previous l = ev_sequence <$> last done /\ lp_session l = ev_session_key <$> last done
  /\ one_history done /\ Forall unit_ok (lp_units l)
  /\ match lp_state l with
     | STABLE => lp_pending l = [] /\ concat (lp_units l) = done
     | AWAITING_RESULTS | AWAITING_ASSISTANT => exists body,
         done = concat (lp_units l) ++ body /\ lp_start l = Some (len (concat (lp_units l)))
         /\ open_body body /\ counts (lp_pending l) body
         /\ (lp_state l = AWAITING_ASSISTANT <-> lp_pending l = [])
     | INVALID => False
     end.

Lemma one_history_app done rest : one_history (done ++ rest) -> one_history done.
Proof. intros H0 i e e' Hi Hj. apply (H0 i e e'); by apply lookup_app_l_Some. Qed.
Lemma one_history_app_r done rest : one_history (done ++ rest) -> one_history rest.
Proof.
  intros H0 i e e' Hi Hj. apply (H0 (length done + i)%nat e e'); rewrite lookup_app_r by lia.
  - by replace (_ - _)%nat with i by lia.
  - by replace (_ - _)%nat with (S i) by lia.
Qed.
(** The two guards at the head of the loop are the history's condition. *)
Lemma one_history_snoc done e :
  one_history (done ++ [e]) <-> one_history done /\
    match ev_sequence <$> last done with Some previous => negb (ev_sequence e =? previous + 1) | None => false end = false /\
    match ev_session_key <$> last done with Some session => ev_session_key e !=? session | None => false end = false.
Proof.
  destruct (last done) as [x|] eqn:El; cbn.
  - apply last_Some in El as [pre ->]. unfold py_eq, SessionKey_py_eq, eqb_of. split.
    + intros H0. split; [by eapply one_history_app|].
      destruct (H0 (length pre) x e) as [E1 E2]; [rewrite <- app_assoc; by apply list_lookup_middle|..].
      { rewrite lookup_app_r by (rewrite length_app; cbn; lia). rewrite length_app. cbn.
        by replace (_ - _)%nat with 0%nat by lia. }
      rewrite E1, E2, Z.eqb_refl. by rewrite bool_decide_eq_true_2.
    + intros (H0 & E1 & E2) i a b Ha Hb. bool_hyps.
      destruct (decide (S i < length (pre ++ [x]))%nat) as [Hi|Hi].
      { rewrite lookup_app_l in Hb by lia. rewrite lookup_app_l in Ha by lia. by eapply H0. }
      apply lookup_lt_Some in Hb as Hl. rewrite !length_app in *. cbn in *.
      assert (i = length pre) as -> by lia.
      rewrite <- app_assoc in Ha. cbn [app] in Ha. rewrite list_lookup_middle in Ha by done. injection Ha as ->.
      rewrite lookup_app_r in Hb by (rewrite length_app; cbn; lia). rewrite length_app in Hb. cbn in Hb.
      replace (_ - _)%nat with 0%nat in Hb by lia. by injection Hb as ->.
  - apply last_None in El as ->. split; [|by intros]. intros _. split; [|done]. by intros i a b Ha.
Qed.
Lemma loop_session done e :
  one_history (done ++ [e]) -> default (ev_session_key e) (ev_session_key <$> last done) = ev_session_key e.
Proof.
  intros (_ & _ & E)%one_history_snoc. destruct (last done); [|done]. cbn in *.
  unfold py_eq, SessionKey_py_eq, eqb_of in E. by bool_hyps.
Qed.
Lemma slice_unit (pre body : list EventEnvelope) a rest :
  slice (pre ++ body ++ a :: rest) (len pre) (len (pre ++ body) + 1) = body ++ [a].
Proof.
  unfold slice, len. rewrite !Nat2Z.id, drop_app_length. change (a :: rest) with ([a] ++ rest). rewrite app_assoc.
  replace (Z.to_nat _) with (length (body ++ [a])) by (rewrite !length_app; cbn; lia).
  by rewrite take_app_length.
Qed.

(** The loop body after its two guards. *)
Definition dispatch (events : list EventEnvelope) (l : Loop) (index : Z) (e : EventEnvelope) : option Loop :=
  let next state pending units start :=
    Some {| lp_state := state; lp_pending := pending; lp_previous := Some (ev_sequence e);
            lp_session := Some (ev_session_key e); lp_units := units; lp_start := start |} in
  match lp_state l, ev_event_type e, _tool_fingerprint e with
  | STABLE, TOOL_CALL, Some f =>
      next AWAITING_RESULTS (counter_add (lp_pending l) f 1) (lp_units l) (Some index)
  | STABLE, (USER_MESSAGE | ASSISTANT_MESSAGE), _ =>
      next STABLE (lp_pending l) (lp_units l ++ [[e]]) (lp_start l)
  | (AWAITING_RESULTS | AWAITING_ASSISTANT), TOOL_CALL, Some f =>
      next AWAITING_RESULTS (counter_add (lp_pending l) f 1) (lp_units l) (lp_start l)
  | AWAITING_RESULTS, TOOL_RESULT, Some f =>
      if counter_get (lp_pending l) f <? 1 then None else
      let pending := counter_add (lp_pending l) f (-1) in
      let pending := if counter_get pending f =? 0 then counter_del pending f else pending in
      next (match pending with [] => AWAITING_ASSISTANT | _ => AWAITING_RESULTS end)
           pending (lp_units l) (lp_start l)
  | AWAITING_ASSISTANT, ASSISTANT_MESSAGE, _ =>
      start ← lp_start l;
      next STABLE (lp_pending l) (lp_units l ++ [slice events start (index + 1)]) None
  | _, _, _ => None
  end.
Lemma loop_step_history events done l i e l' :
  loop_inv done l -> loop_step events l (i, e) = Some l' -> one_history (done ++ [e]).
Proof.
  intros (Hp & Hs & Hh & _) E. unfold loop_step in E. rewrite Hp, Hs in E.
  apply one_history_snoc. split; [done|].
  destruct (last done) as [x|]; cbn in *; [|done].
  destruct (negb _); [done|]. by destruct (ev_session_key e !=? ev_session_key x).
Qed.
Lemma loop_step_dispatch events done l i e :
  loop_inv done l -> one_history (done ++ [e]) -> loop_step events l (i, e) = dispatch events l i e.
Proof.
  intros (Hp & Hs & _) Hh. pose proof (loop_session _ _ Hh) as Hd.
  apply one_history_snoc in Hh as (_ & G1 & G2). unfold loop_step, dispatch.
  rewrite Hp, Hs, G1, G2, Hd. unfold is_tool.
  by destruct (lp_state l), (ev_event_type e), (_tool_fingerprint e) as [f|], (lp_start l).
Qed.

Lemma is_tool_call e : ev_event_type e = TOOL_CALL -> is_tool e = true.
Proof. unfold is_tool. by intros ->. Qed.
Lemma is_tool_result e : ev_event_type e = TOOL_RESULT -> is_tool e = true.
Proof. unfold is_tool. by intros ->. Qed.
Lemma counter_add_ne c f n : counter_add c f n <> [].
Proof. destruct c as [|[g k] c]; cbn; [done|]. by destruct (eqb_of g f). Qed.
Lemma last_fmap_snoc {B} (g : EventEnvelope -> B) done e : g <$> last (done ++ [e]) = Some (g e).
Proof. by rewrite last_snoc. Qed.

(** One step extends the events read by one. *)
Lemma loop_step_inv done l e rest l' :
  loop_inv done l -> loop_step (done ++ e :: rest) l (len done, e) = Some l' -> loop_inv (done ++ [e]) l'.
Proof.
  intros Hl E. pose proof (loop_step_history _ _ _ _ _ _ Hl E) as Hh.
  rewrite (loop_step_dispatch _ _ _ _ _ Hl Hh) in E. destruct Hl as (Hp & Hs & _ & Hu & Hst).
  unfold loop_inv. rewrite !last_fmap_snoc. unfold dispatch in E.
  destruct (lp_state l) eqn:Es; [|..|done].
  - destruct Hst as [Hpe Hc]. destruct (ev_event_type e) eqn:Et; try discriminate E.
    1,2: injection E as <-; cbn; split_and!; [done..| |done|by rewrite concat_app, Hc];
      apply Forall_app_2; [done|]; apply Forall_singleton; constructor; unfold is_tool; by rewrite Et.
    destruct (_tool_fingerprint e) as [f|] eqn:Ef; [|done]. injection E as <-. cbn. split_and!; [done..|].
    exists [e]. rewrite Hc, Hpe. pose proof (counts_call [] [] e f counts_empty Ef Et) as Hcall.
    split_and!; [done..| |exact Hcall|done].
    eapply (call_first_snoc _ [] e f); [apply call_first_nil|by apply is_tool_call|done|exact Hcall].
  - destruct Hst as (body & Hd & Hstart & [Hne Hcf] & Hcnt & Hiff).
    destruct (ev_event_type e) eqn:Et, (_tool_fingerprint e) as [f|] eqn:Ef; try discriminate E.
    + injection E as <-. cbn. split_and!; [done..|]. exists (body ++ [e]).
      pose proof (counts_call _ _ e f Hcnt Ef Et) as Hcall.
      split_and!; [by rewrite Hd, app_assoc|done| |exact Hcall|].
      * eapply call_first_snoc; [done|by apply is_tool_call|done|exact Hcall].
      * split; [done|]. intros E0. by apply counter_add_ne in E0.
    + destruct (_ <? 1) eqn:Elt; [done|]. injection E as <-. bool_hyps.
      pose proof (counts_result _ _ e f Hcnt Ef Et Elt) as Hres. cbn zeta in Hres.
      set (c := if _ =? 0 then _ else _) in *. cbn.
      assert (exists body0, done ++ [e] = concat (lp_units l) ++ body0
        /\ lp_start l = Some (len (concat (lp_units l))) /\ open_body body0 /\ counts c body0) as (b & H1 & H2 & H3 & H4).
      { exists (body ++ [e]). split_and!; [by rewrite Hd, app_assoc|done| |exact Hres].
        eapply call_first_snoc; [done|by apply is_tool_result|done|exact Hres]. }
      destruct c as [|p c]; cbn; (split_and!; [done..|]; exists b; split_and!; done).
  - destruct Hst as (body & Hd & Hstart & [Hne Hcf] & Hcnt & Hiff).
    destruct (ev_event_type e) eqn:Et, (_tool_fingerprint e) as [f|] eqn:Ef; try discriminate E.
    1,2: rewrite Hstart in E; injection E as <-; cbn; split_and!; [done..| |by apply Hiff|];
      [apply Forall_app_2; [done|]; apply Forall_singleton|rewrite concat_app; cbn; rewrite app_nil_r];
      rewrite Hd, <- !app_assoc, slice_unit; [|by rewrite app_assoc]; constructor; [done| |done];
      apply (counts_nil _ _ Hcnt); by apply Hiff.
    injection E as <-. cbn. split_and!; [done..|]. exists (body ++ [e]).
    pose proof (counts_call _ _ e f Hcnt Ef Et) as Hcall.
    split_and!; [by rewrite Hd, app_assoc|done| |exact Hcall|].
    + eapply call_first_snoc; [done|by apply is_tool_call|done|exact Hcall].
    + split; [done|]. intros E0. by apply counter_add_ne in E0.
Qed.

Lemma loop_start_inv : loop_inv [] loop_start.
Proof. by split_and!. Qed.
Lemma loop_run_inv mid rest : forall done l l', loop_inv done l ->
  loop_run (done ++ mid ++ rest) l (enumerate_from (len done) mid) = Some l' -> loop_inv (done ++ mid) l'.
Proof.
  induction mid as [|e mid IH]; intros done l l' Hl; cbn.
  - intros [= <-]. by rewrite app_nil_r.
  - intros (l1 & E1 & E2)%bind_Some. apply (loop_step_inv _ _ _ _ _ Hl) in E1.
    specialize (IH (done ++ [e]) l1 l' E1). rewrite len_app, len_cons, len_nil, <- !app_assoc in IH. by apply IH.
Qed.
Lemma loop_run_app events l a b :
  loop_run events l (a ++ b) = l' ← loop_run events l a; loop_run events l' b.
Proof. revert l. induction a as [|p a IH]; intros l; [done|]. cbn. destruct (loop_step events l p); [apply IH|done]. Qed.
Lemma enumerate_from_app {A} i (a b : list A) :
  enumerate_from i (a ++ b) = enumerate_from i a ++ enumerate_from (i + len a) b.
Proof.
  revert i. induction a as [|x a IH]; intros i; [unfold len; cbn; by rewrite Z.add_0_r|].
  cbn [enumerate_from app]. rewrite IH, len_cons. cbn. do 3 f_equal. lia.
Qed.

(** ** Lemmas: every unit of the grammar is read *)

(** In every state the counter counts what follows the complete units. *)
Lemma inv_counts done l p : loop_inv done l -> done = concat (lp_units l) ++ p -> counts (lp_pending l) p.
Proof.
  intros (_ & _ & _ & _ & Hst) ->. destruct (lp_state l); [|..|done].
  - destruct Hst as [-> Hc]. rewrite <- (app_nil_r (concat _)) in Hc at 1. apply app_inv_head in Hc as <-.
    apply counts_empty.
  - destruct Hst as (body & E & _ & _ & Hc & _). by apply app_inv_head in E as ->.
  - destruct Hst as (body & E & _ & _ & Hc & _). by apply app_inv_head in E as ->.
Qed.
Lemma tool_step_ok events done l p e i :
  loop_inv done l -> done = concat (lp_units l) ++ p -> call_first (p ++ [e]) -> one_history (done ++ [e]) ->
  exists l', loop_step events l (i, e) = Some l' /\ lp_units l' = lp_units l.
Proof.
  intros Hl Hd [Ht Hb] Hh. rewrite (loop_step_dispatch _ _ _ _ _ Hl Hh).
  pose proof (inv_counts _ _ _ Hl Hd) as Hc. destruct Hl as (_ & _ & _ & _ & Hst).
  destruct (Ht e) as [Hi Hf]; [apply elem_of_app; right; by left|]. unfold is_tool in Hi. unfold dispatch.
  destruct (_tool_fingerprint e) as [f|] eqn:Ef; [|done]. destruct (ev_event_type e) eqn:Et; try discriminate Hi.
  { destruct (lp_state l); [by eauto..|done]. }
  assert (1 <= counter_get (lp_pending l) f) as Hget.
  { specialize (Hb (p ++ [e]) [] f). rewrite app_nil_r in Hb. specialize (Hb eq_refl).
    rewrite balance_snoc, (balance_one f f e Ef), Et in Hb. unfold eqb_of in Hb.
    rewrite bool_decide_eq_true_2, bool_decide_eq_false_2 in Hb by done.
    destruct Hc as (_ & _ & Hg). rewrite Hg. lia. }
  destruct (lp_state l); [|..|done].
  - destruct Hst as [Hpe _]. rewrite Hpe in Hget. change (counter_get [] f) with 0 in Hget. lia.
  - rewrite (proj2 (Z.ltb_ge _ _)) by lia. by eauto.
  - destruct Hst as (_ & _ & _ & _ & _ & [Hpe _]). rewrite Hpe in Hget by done.
    change (counter_get [] f) with 0 in Hget. lia.
Qed.
Lemma call_first_prefix p s : call_first (p ++ s) -> call_first p.
Proof.
  intros [Ht Hb]. split; [intros e He; apply Ht, elem_of_app; by left|].
  intros q t f E. apply (Hb q (t ++ s)). by rewrite E, app_assoc.
Qed.
Lemma body_run_ok s : forall done l p rest,
  loop_inv done l -> done = concat (lp_units l) ++ p -> call_first (p ++ s) -> one_history (done ++ s) ->
  exists l', loop_run (done ++ s ++ rest) l (enumerate_from (len done) s) = Some l' /\ lp_units l' = lp_units l.
Proof.
  induction s as [|e s IH]; intros done l p rest Hl Hd Hb Hh; [by eauto|].
  replace (p ++ e :: s) with ((p ++ [e]) ++ s) in Hb by by rewrite <- app_assoc.
  replace (done ++ e :: s) with ((done ++ [e]) ++ s) in Hh by by rewrite <- app_assoc.
  destruct (tool_step_ok (done ++ e :: s ++ rest) done l p e (len done)) as (l1 & E1 & U1);
    [done..|by eapply call_first_prefix|by eapply one_history_app|].
  pose proof (loop_step_inv _ _ _ _ _ Hl E1) as Hl1.
  destruct (IH (done ++ [e]) l1 (p ++ [e]) rest Hl1) as (l2 & E2 & U2); [|done..|].
  { by rewrite U1, Hd, app_assoc. }
  exists l2. split; [|congruence]. cbn [app enumerate_from loop_run]. rewrite E1. cbn.
  rewrite len_app, len_cons, len_nil, <- app_assoc in E2. exact E2.
Qed.
Lemma unit_run_ok done l u rest :
  loop_inv done l -> lp_state l = STABLE -> unit_ok u -> one_history (done ++ u) ->
  exists l', loop_run (done ++ u ++ rest) l (enumerate_from (len done) u) = Some l'
    /\ lp_state l' = STABLE /\ lp_units l' = lp_units l ++ [u].
Proof.
  intros Hl Hs Hu Hh. assert (done = concat (lp_units l)) as Hd.
  { destruct Hl as (_ & _ & _ & _ & Hst). rewrite Hs in Hst. by destruct Hst. }
  destruct Hu as [e He|body a Ho Hz Ha].
  - cbn [app enumerate_from loop_run]. rewrite (loop_step_dispatch _ _ _ _ _ Hl Hh).
    unfold is_tool in He. unfold dispatch. rewrite Hs. destruct (ev_event_type e); try discriminate He; by eauto.
  - rewrite app_assoc in Hh. destruct (body_run_ok body done l [] ([a] ++ rest)) as (l1 & E1 & U1);
      [done|by rewrite app_nil_r|apply Ho|by eapply one_history_app|].
    pose proof (loop_run_inv _ _ _ _ _ Hl E1) as Hl1. rewrite enumerate_from_app, <- app_assoc, loop_run_app, E1.
    cbn [enumerate_from loop_run mbind option_bind]. rewrite <- len_app.
    assert (counts (lp_pending l1) body) as Hc by (apply (inv_counts (done ++ body)); [done|by rewrite U1, Hd]).
    apply (counts_nil _ _ Hc) in Hz. rewrite (loop_step_dispatch _ _ _ _ _ Hl1) by done.
    destruct Hl1 as (_ & _ & _ & _ & Hst). unfold dispatch. rewrite U1, <- Hd in Hst.
    destruct (lp_state l1); [|..|done].
    + destruct Hst as [_ E]. rewrite <- (app_nil_r done) in E at 1. apply app_inv_head in E.
      by destruct Ho as [Hne _].
    + destruct Hst as (_ & _ & _ & _ & _ & Hiff). by apply Hiff in Hz.
    + destruct Hst as (b & E & Hstart & _). apply app_inv_head in E as <-. rewrite Ha, Hstart. cbn.
      rewrite slice_unit, U1. by eauto.
Qed.
Lemma units_run_ok us : forall done l,
  loop_inv done l -> lp_state l = STABLE -> Forall unit_ok us -> one_history (done ++ concat us) ->
  exists l', loop_run (done ++ concat us) l (enumerate_from (len done) (concat us)) = Some l'
    /\ lp_state l' = STABLE /\ lp_units l' = lp_units l ++ us.
Proof.
  induction us as [|u us IH]; intros done l Hl Hs Hu Hh; cbn [concat] in *.
  - exists l. by rewrite !app_nil_r.
  - apply Forall_cons in Hu as [Hu Hus]. rewrite app_assoc in Hh.
    destruct (unit_run_ok done l u (concat us) Hl Hs Hu) as (l1 & E1 & S1 & U1); [by eapply one_history_app|].
    destruct (IH (done ++ u) l1) as (l2 & E2 & S2 & U2); [|done..|].
    { by eapply loop_run_inv. }
    exists l2. rewrite enumerate_from_app, loop_run_app, E1. cbn. rewrite <- len_app, app_assoc, E2.
    split_and!; [done..|]. by rewrite U2, U1, <- app_assoc.
Qed.
Lemma loop_inv_units done l : loop_inv done l -> lp_state l = STABLE ->
  one_history done /\ concat (lp_units l) = done /\ Forall unit_ok (lp_units l).
Proof. intros (_ & _ & Hh & Hu & Hst) Hs. rewrite Hs in Hst. by destruct Hst. Qed.

(** The units of a history that is durable. *)
Lemma durable_units_sound es us : durable_event_units es = Some us -> one_history es /\ concat us = es /\ Forall unit_ok us.
Proof.
  unfold durable_event_units, _parse_events. destruct (loop_run _ _ _) as [l|] eqn:E; cbn; [|done].
  rewrite <- (app_nil_r es) in E at 1. apply (loop_run_inv es [] [] loop_start l loop_start_inv) in E.
  unfold eqb_of. destruct (decide (lp_state l = STABLE)) as [Hs|Hs].
  - rewrite !bool_decide_eq_true_2 by done. intros [= <-]. by apply loop_inv_units.
  - by rewrite !bool_decide_eq_false_2.
Qed.

(** Whole messages and tool loops are durable, and are their own units. *)
Lemma durable_units_complete us : one_history (concat us) -> Forall unit_ok us -> durable_event_units (concat us) = Some us.
Proof.
  unfold durable_event_units, _parse_events. intros Hh Hu.
  destruct (units_run_ok us [] loop_start loop_start_inv) as (l & E & Hs & U); [done..|].
  cbn [app] in E. unfold enumerate. change (len []) with 0 in E. rewrite E. cbn. rewrite Hs, U. by cbn.
Qed.

(** C22. A history has durable units exactly when it is one session's consecutive
    events and splits into messages and complete tool loops - calls that all have
    a parsable fingerprint, results that each follow a call with their
    fingerprint, every call answered, then the assistant's message - and the units
    returned are that split. *)
Theorem durable_event_units_exact (es : list EventEnvelope) (us : list (list EventEnvelope)) :
  durable_event_units es = Some us <-> one_history es /\ concat us = es /\ Forall unit_ok us.
Proof. split; [apply durable_units_sound|]. intros (Hh & <- & Hu). by apply durable_units_complete. Qed.
End grammar.
