(* ===== verification/Segmenter.v ===== *)
(** The segmenter of [compaction/segmenter.py], with its configuration and
    segment types of [compaction/types.py]: a greedy partition of a stable
    history into bounded segments that never split a durable unit. *)
From S2P Require Import Prelude PyString PyFloat Domain PyJson ToolLoop.
Open Scope list_scope.
Open Scope Z_scope.

Inductive SegmentBoundaryReason := PREFERRED | MAX_EVENTS | MAX_TOKENS | OVERSIZED_EVENT | END_OF_INPUT.
#[export] Instance SegmentBoundaryReason_eq_dec : EqDecision SegmentBoundaryReason.
Proof. solve_decision. Defined.

Inductive SegmenterError :=
| SEGMENTER_INVALID_MAX_EVENTS | SEGMENTER_INVALID_MAX_TOKENS | SEGMENTER_INVALID_MAX_PREFERRED_BOUNDARIES
| SEGMENTER_EMPTY_EVENTS | SEGMENTER_SESSION_MISMATCH | SEGMENTER_NONCONTIGUOUS_EVENTS
| TOKEN_METRIC_MISSING | SEGMENTER_TOOL_LOOP_INVALID
| KeyError_token_count | IndexError_empty_segment.

Record SegmenterConfig := {
  max_events_per_segment : Z; max_tokens_per_segment : Z; max_preferred_boundaries : Z;
}.
(** [SegmenterConfig.__post_init__] *)
Definition SegmenterConfig_new (c : SegmenterConfig) : result SegmenterError SegmenterConfig :=
  raise SEGMENTER_INVALID_MAX_EVENTS when max_events_per_segment c <=? 0;;
  raise SEGMENTER_INVALID_MAX_TOKENS when max_tokens_per_segment c <=? 0;;
  raise SEGMENTER_INVALID_MAX_PREFERRED_BOUNDARIES when max_preferred_boundaries c <? 0;;
  Ok c.

Record EventSegment := {
  es_start_sequence : Z; es_end_sequence : Z; es_events : list EventEnvelope;
  es_token_cost : Z; es_boundary_reason : SegmentBoundaryReason;
}.

Fixpoint _validate_events_from (session_key : SessionKey) (first_sequence : Z)
    (events : list (Z * EventEnvelope)) : result SegmenterError unit :=
  match events with
  | [] => Ok tt
  | (offset, event) :: rest =>
      raise SEGMENTER_SESSION_MISMATCH when ev_session_key event !=? session_key;;
      raise SEGMENTER_NONCONTIGUOUS_EVENTS when negb (ev_sequence event =? first_sequence + offset);;
      _validate_events_from session_key first_sequence rest
  end.
Definition _validate_events (events : list EventEnvelope) : result SegmenterError unit :=
  match events with
  | [] => Err SEGMENTER_EMPTY_EVENTS
  | event :: _ => _validate_events_from (ev_session_key event) (ev_sequence event) (enumerate events)
  end.

(** Sorting before the [frozenset] is built changes nothing. *)
Definition _normalize_preferred_boundaries (events : list EventEnvelope) (preferred : list Z) (limit : Z) : list Z :=
  match head events, last events with
  | Some first, Some last =>
      List.filter (fun sequence => (ev_sequence first <=? sequence) && (sequence <? ev_sequence last))
                  (take_z limit preferred)
  | _, _ => []
  end.

(** The variables of [segment] that [close_current] works on. *)
Record Segmenting := { sg_segments : list EventSegment; sg_current : list EventEnvelope; sg_cost : Z }.
Definition close_current (s : Segmenting) (reason : SegmentBoundaryReason) : result SegmenterError Segmenting :=
  match head (sg_current s), last (sg_current s) with
  | Some first, Some last =>
      Ok {| sg_segments := sg_segments s ++
              [{| es_start_sequence := ev_sequence first; es_end_sequence := ev_sequence last;
                  es_events := sg_current s; es_token_cost := sg_cost s; es_boundary_reason := reason |}];
            sg_current := []; sg_cost := 0 |}
  | _, _ => Err IndexError_empty_segment
  end.

Section segment.
Context `{FloatRepr}.
Variables (token_counts : gmap string Z) (config : SegmenterConfig).

Definition token_count (event : EventEnvelope) : result SegmenterError Z :=
  match token_counts !! ev_event_id event with Some n => Ok n | None => Err KeyError_token_count end.
Definition unit_tokens (unit : list EventEnvelope) : result SegmenterError Z :=
  counts ← map_result token_count unit; Ok (sumZ id counts).

(** One iteration over the durable units. *)
Definition segment_step (preferred : list Z) (is_last : bool) (s : Segmenting) (unit : list EventEnvelope)
    : result SegmenterError Segmenting :=
  unit_token_count ← unit_tokens unit;
  s ← (if nonempty (sg_current s) && (max_events_per_segment config <? len (sg_current s) + len unit)
       then close_current s MAX_EVENTS
       else if nonempty (sg_current s) && (max_tokens_per_segment config <? sg_cost s + unit_token_count)
       then close_current s MAX_TOKENS else Ok s);
  let s := {| sg_segments := sg_segments s; sg_current := sg_current s ++ unit;
              sg_cost := sg_cost s + unit_token_count |} in
  let unit_is_oversized := (max_events_per_segment config <? len unit)
                           || (max_tokens_per_segment config <? unit_token_count) in
  if unit_is_oversized then close_current s OVERSIZED_EVENT
  else if is_last then close_current s END_OF_INPUT
  else if max_events_per_segment config <=? len (sg_current s) then close_current s MAX_EVENTS
  else if max_tokens_per_segment config <=? sg_cost s then close_current s MAX_TOKENS
  else if existsb (fun event => py_in (ev_sequence event) preferred) unit then close_current s PREFERRED
  else Ok s.

Fixpoint segment_units (preferred : list Z) (s : Segmenting) (units : list (list EventEnvelope))
    : result SegmenterError Segmenting :=
  match units with
  | [] => Ok s
  | unit :: rest => s ← segment_step preferred (negb (nonempty rest)) s unit; segment_units preferred s rest
  end.

Definition event_ids (events : list EventEnvelope) : gset string := list_to_set (map ev_event_id events).

Definition segment (events : list EventEnvelope) (preferred_end_sequences : list Z)
    : result SegmenterError (list EventSegment) :=
  _ ← _validate_events events;
  raise TOKEN_METRIC_MISSING when negb (bool_decide (dom token_counts = event_ids events));;
  let preferred := _normalize_preferred_boundaries events preferred_end_sequences
                     (max_preferred_boundaries config) in
  match durable_event_units events with
  | None => Err SEGMENTER_TOOL_LOOP_INVALID
  | Some units =>
      s ← segment_units preferred {| sg_segments := []; sg_current := []; sg_cost := 0 |} units;
      Ok (sg_segments s)
  end.
End segment.

(** ** What a segmentation is *)

Section specification.
Context `{FloatRepr}.
Variables (token_counts : gmap string Z) (config : SegmenterConfig).

Definition event_cost (e : EventEnvelope) : Z := default 0 (token_counts !! ev_event_id e).
Definition cost (events : list EventEnvelope) : Z := sumZ event_cost events.
Definition oversized (unit : list EventEnvelope) : Prop :=
  max_events_per_segment config < len unit \/ max_tokens_per_segment config < cost unit.
Definition within (us : list (list EventEnvelope)) : Prop :=
  len (concat us) <= max_events_per_segment config /\ cost (concat us) <= max_tokens_per_segment config.
(** No boundary falls behind the units [us]: no limit is reached, and no
    preferred boundary lies in the last of them. *)
Definition open_end (preferred : list Z) (us : list (list EventEnvelope)) : Prop :=
  len (concat us) < max_events_per_segment config /\ cost (concat us) < max_tokens_per_segment config
  /\ forall u e, last us = Some u -> e ∈ u -> ev_sequence e ∉ preferred.
(** Why a segment of the units [us], before the units [rest], ends where it does:
    a limit that is reached, or else a preferred boundary, or else a limit that
    the next unit would exceed, events before tokens. *)
Definition justified (preferred : list Z) (us rest : list (list EventEnvelope)) (reason : SegmentBoundaryReason) : Prop :=
  (reason <> OVERSIZED_EVENT -> within us)
  /\ (rest = [] -> reason = END_OF_INPUT \/ reason = OVERSIZED_EVENT)
  /\ match reason with
     | OVERSIZED_EVENT => exists u, us = [u] /\ oversized u
     | END_OF_INPUT => rest = []
     | MAX_EVENTS => max_events_per_segment config <= len (concat us)
         \/ open_end preferred us /\ exists u, head rest = Some u /\ max_events_per_segment config < len (concat us) + len u
     | MAX_TOKENS => len (concat us) < max_events_per_segment config /\ max_tokens_per_segment config <= cost (concat us)
         \/ open_end preferred us /\ exists u, head rest = Some u
             /\ len (concat us) + len u <= max_events_per_segment config /\ max_tokens_per_segment config < cost (concat us) + cost u
     | PREFERRED => len (concat us) < max_events_per_segment config /\ cost (concat us) < max_tokens_per_segment config
         /\ exists u e, last us = Some u /\ e ∈ u /\ ev_sequence e ∈ preferred
     end.
(** A segment only runs on behind some of its units where nothing obliges it to
    end: no boundary falls there, and the next unit still fits. *)
Definition runs_on (preferred : list Z) (us : list (list EventEnvelope)) : Prop :=
  forall before u after, us = before ++ u :: after -> before <> [] -> open_end preferred before /\ within (before ++ [u]).
Definition segment_ok (preferred : list Z) (us rest : list (list EventEnvelope)) (s : EventSegment) : Prop :=
  us <> [] /\ es_events s = concat us /\ es_token_cost s = cost (concat us)
  /\ Some (es_start_sequence s) = ev_sequence <$> head (concat us)
  /\ Some (es_end_sequence s) = ev_sequence <$> last (concat us)
  /\ justified preferred us rest (es_boundary_reason s) /\ runs_on preferred us.
Inductive segmentation (preferred : list Z) : list (list EventEnvelope) -> list EventSegment -> Prop :=
| segmentation_nil : segmentation preferred [] []
| segmentation_cons us rest s segments : segment_ok preferred us rest s ->
    segmentation preferred rest segments -> segmentation preferred (us ++ rest) (s :: segments).

(** ** Lemmas: validation *)

Lemma validate_from_ok k f events : forall i,
  _validate_events_from k f (enumerate_from i events) = Ok tt <->
  forall j e, events !! j = Some e -> ev_session_key e = k /\ ev_sequence e = f + i + Z.of_nat j.
Proof.
  induction events as [|e events IH]; intros i; cbn [enumerate_from _validate_events_from]; [done|].
  rewrite !raise_if_ok, IH. unfold py_eq, SessionKey_py_eq, eqb_of. split.
  - intros (E1 & E2 & E) [|j] e' Hj; cbn in Hj.
    + injection Hj as <-. bool_hyps. split; [done|lia].
    + destruct (E j e' Hj). split; [done|lia].
  - intros E. destruct (E 0%nat e eq_refl) as [E1 E2].
    split_and!; [by rewrite bool_decide_eq_true_2|apply negb_false_iff, Z.eqb_eq; lia|].
    intros j e' Hj. destruct (E (S j) e' Hj). split; [done|lia].
Qed.
Lemma one_history_from e events : one_history (e :: events) <->
  forall j x, (e :: events) !! j = Some x ->
    ev_session_key x = ev_session_key e /\ ev_sequence x = ev_sequence e + Z.of_nat j.
Proof.
  split.
  - intros Hh j. induction j as [|j IH]; intros x Hj; [injection Hj as <-; split; [done|lia]|].
    destruct (lookup_lt_is_Some_2 (e :: events) j) as [y Hy].
    { apply lookup_lt_Some in Hj. lia. }
    destruct (IH y Hy), (Hh j y x Hy Hj). split; [congruence|lia].
  - intros E i x y Hx Hy. destruct (E i x Hx), (E (S i) y Hy). split; [lia|congruence].
Qed.
Lemma validate_events_ok events : _validate_events events = Ok tt <-> events <> [] /\ one_history events.
Proof.
  destruct events as [|e events]; [split; [done|by intros [? _]]|]. unfold _validate_events, enumerate.
  rewrite validate_from_ok, one_history_from. split.
  - intros E. split; [done|]. intros j x Hx. destruct (E j x Hx). split; [done|lia].
  - intros [_ E] j x Hx. destruct (E j x Hx). split; [done|lia].
Qed.
Lemma validate_from_error k f events i x : _validate_events_from k f (enumerate_from i events) = Err x ->
  x = SEGMENTER_SESSION_MISMATCH \/ x = SEGMENTER_NONCONTIGUOUS_EVENTS.
Proof.
  revert i. induction events as [|e events IH]; intros i; cbn; [done|]. unfold raise_if.
  destruct (_ !=? _); [intros [= <-]; by left|]. destruct (negb _); [intros [= <-]; by right|apply IH].
Qed.

(** ** Lemmas: one iteration *)

Lemma head_last_some {A} (l : list A) : l <> [] -> exists x y, head l = Some x /\ last l = Some y.
Proof.
  destruct l as [|x l]; [done|]. intros _. destruct (last (x :: l)) as [y|] eqn:E; [by eauto|].
  by apply last_None in E.
Qed.
Lemma unit_ok_ne u : unit_ok u -> u <> [].
Proof. intros [|body]; [done|]. by destruct body. Qed.
Lemma concat_ne {A} (us : list (list A)) : us <> [] -> Forall (fun u => u <> []) us -> concat us <> [].
Proof. destruct us as [|u us]; [done|]. intros _ [Hu _]%Forall_cons. cbn. by destruct u. Qed.
Lemma concat_snoc {A} (us : list (list A)) u : concat (us ++ [u]) = concat us ++ u.
Proof. rewrite concat_app. cbn. by rewrite app_nil_r. Qed.
Lemma cost_app a b : cost (a ++ b) = cost a + cost b.
Proof. apply sumZ_app. Qed.
Lemma unit_tokens_run u : (forall e, e ∈ u -> ev_event_id e ∈ dom token_counts) ->
  unit_tokens token_counts u = Ok (cost u).
Proof.
  intros Hd. unfold unit_tokens. rewrite (map_result_run _ event_cost).
  - cbn. f_equal. unfold cost. clear. induction u as [|e u IH]; [done|]. cbn [map]. by rewrite !sumZ_cons, IH.
  - intros e He. unfold token_count, event_cost. apply Hd, elem_of_dom in He as [n ->]. done.
Qed.

(** The accumulated units [cur] of an iteration that did not close them. *)
Definition accumulated (cur : list (list EventEnvelope)) (s : Segmenting) : Prop :=
  Forall (fun u => u <> []) cur /\ sg_current s = concat cur /\ sg_cost s = cost (concat cur).
Lemma close_current_run cur s reason : cur <> [] -> accumulated cur s ->
  exists g, close_current s reason =
      Ok {| sg_segments := sg_segments s ++ [g]; sg_current := []; sg_cost := 0 |}
    /\ forall preferred rest, justified preferred cur rest reason -> runs_on preferred cur -> segment_ok preferred cur rest g.
Proof.
  intros Hne (Hf & Hc & Hn). destruct (head_last_some _ (concat_ne _ Hne Hf)) as (x & y & Hx & Hy).
  unfold close_current. rewrite Hc, Hx, Hy. eexists. split; [done|].
  intros preferred rest Hj Hr. unfold segment_ok. cbn. by rewrite Hx, Hy.
Qed.

Hypothesis counts_nonneg : forall i n, token_counts !! i = Some n -> 0 <= n.
Lemma cost_nonneg events : 0 <= cost events.
Proof.
  apply sumZ_nonneg. intros e _. unfold event_cost. destruct (_ !! _) eqn:E; cbn; [by eapply counts_nonneg|lia].
Qed.

Lemma accumulated_nil segs : accumulated [] {| sg_segments := segs; sg_current := []; sg_cost := 0 |}.
Proof. split; [constructor|done]. Qed.
(** Units that may stand open between two iterations *)
Definition open_units (preferred : list Z) (cur : list (list EventEnvelope)) : Prop :=
  (cur <> [] -> within cur /\ open_end preferred cur) /\ runs_on preferred cur.
Lemma open_units_nil preferred : open_units preferred [].
Proof. split; [done|]. by intros [|? ?] u after. Qed.
Lemma runs_on_snoc preferred cur u : runs_on preferred cur -> (cur <> [] -> open_end preferred cur /\ within (cur ++ [u])) ->
  runs_on preferred (cur ++ [u]).
Proof.
  intros Hr Hc before v after E Hne. destruct after as [|w after _] using rev_ind.
  - apply app_inj_tail in E as [<- <-]. by apply Hc.
  - rewrite app_comm_cons, app_assoc in E. apply app_inj_tail in E as [-> _]. by eapply Hr.
Qed.
(** Closing before the unit, when adding it would exceed a limit. *)
Lemma close_before preferred cur s u : accumulated cur s -> open_units preferred cur ->
  exists s' cur', accumulated cur' s' /\
    (if nonempty (sg_current s) && (max_events_per_segment config <? len (sg_current s) + len u)
     then close_current s MAX_EVENTS
     else if nonempty (sg_current s) && (max_tokens_per_segment config <? sg_cost s + cost u)
     then close_current s MAX_TOKENS else Ok s) = Ok s'
    /\ (cur' = [] \/ within (cur' ++ [u])) /\ open_units preferred cur'
    /\ ((cur' = cur /\ sg_segments s' = sg_segments s)
        \/ exists g, cur' = [] /\ cur <> [] /\ sg_segments s' = sg_segments s ++ [g]
           /\ forall rest, segment_ok preferred cur (u :: rest) g).
Proof.
  intros Ha Hw. destruct (decide (cur = [])) as [->|Hne].
  { exists s, []. pose proof Ha as (_ & Hc & _). cbn in Hc. rewrite Hc. cbn. split; [done|]. split_and!; auto. }
  destruct (proj1 Hw Hne) as [Hwi Hop]. pose proof (proj2 Hw) as Hrun. pose proof Ha as (Hf & Hc & Hn).
  assert (nonempty (sg_current s) = true) as ->.
  { rewrite Hc. pose proof (concat_ne _ Hne Hf). by destruct (concat cur). }
  cbn [andb]. destruct (_ <? _) eqn:E1.
  { destruct (close_current_run cur s MAX_EVENTS Hne Ha) as (g & E & Hg). eexists _, []. rewrite E.
    split; [apply accumulated_nil|split; [done|split; [by left|split; [apply open_units_nil|right]]]]. exists g. split_and!; [done..|].
    intros rest. apply Hg; [|done]. split; [done|split; [done|]]. bool_hyps. right. split; [done|]. exists u. split; [done|]. by rewrite <- Hc. }
  destruct (_ <? sg_cost s + _) eqn:E2.
  { destruct (close_current_run cur s MAX_TOKENS Hne Ha) as (g & E & Hg). eexists _, []. rewrite E.
    split; [apply accumulated_nil|split; [done|split; [by left|split; [apply open_units_nil|right]]]]. exists g. split_and!; [done..|].
    intros rest. apply Hg; [|done]. split; [done|split; [done|]]. bool_hyps. right. split; [done|]. exists u. split; [done|].
    rewrite <- Hn, <- Hc. lia. }
  exists s, cur. split; [done|split; [done|split; [|split; [done|by left]]]]. right. bool_hyps. unfold within.
  rewrite concat_snoc, len_app, cost_app, <- Hn, <- Hc. lia.
Qed.

Lemma oversized_dec u :
  (max_events_per_segment config <? len u) || (max_tokens_per_segment config <? cost u) = true <-> oversized u.
Proof. unfold oversized. rewrite orb_true_iff, !Z.ltb_lt. done. Qed.
Lemma within_snoc cur u : cur = [] \/ within (cur ++ [u]) -> 
  (oversized u -> cur = []) /\ (~ oversized u -> within (cur ++ [u])).
Proof.
  unfold within, oversized. rewrite concat_snoc, len_app, cost_app.
  pose proof (len_nonneg (concat cur)). pose proof (cost_nonneg (concat cur)). intros [->|Hw]; split.
  - done.
  - change (len (concat [])) with 0. change (cost (concat [])) with 0. lia.
  - lia.
  - lia.
Qed.

(** What one iteration hands on: the state it leaves, the units still open, and
    the segments it closed, in front of any segmentation of what follows. *)
Definition step_to preferred cur s u rest (r : result SegmenterError Segmenting) : Prop :=
  exists s' cur' added, r = Ok s' /\ accumulated cur' s' /\ open_units preferred cur'
    /\ (rest = [] -> cur' = []) /\ sg_segments s' = sg_segments s ++ added
    /\ forall segs, segmentation preferred (cur' ++ rest) segs ->
         segmentation preferred (cur ++ u :: rest) (added ++ segs).

Lemma close_to preferred cur s u rest cur2 added s2 reason :
  cur2 <> [] -> accumulated cur2 s2 -> sg_segments s2 = sg_segments s ++ added ->
  (forall segs, segmentation preferred (cur2 ++ rest) segs ->
     segmentation preferred (cur ++ u :: rest) (added ++ segs)) ->
  justified preferred cur2 rest reason -> runs_on preferred cur2 -> step_to preferred cur s u rest (close_current s2 reason).
Proof.
  intros Hne Ha Hs Hf Hj Hr. destruct (close_current_run cur2 s2 reason Hne Ha) as (g & E & Hg).
  eexists _, [], (added ++ [g]). split; [exact E|]. split; [apply accumulated_nil|]. split; [apply open_units_nil|].
  split; [done|]. split; [cbn; by rewrite Hs, app_assoc|]. intros segs Hsegs. rewrite <- app_assoc. apply Hf.
  constructor; [by apply Hg|done].
Qed.

Lemma segment_step_run preferred cur s u rest :
  accumulated cur s -> open_units preferred cur -> u <> [] ->
  (forall e, e ∈ u -> ev_event_id e ∈ dom token_counts) ->
  step_to preferred cur s u rest (segment_step token_counts config preferred (negb (nonempty rest)) s u).
Proof.
  intros Ha Hw Hu Hd. unfold segment_step. rewrite (unit_tokens_run u Hd). cbn [mbind result_bind].
  destruct (close_before preferred cur s u Ha Hw) as (s1 & cur1 & Ha1 & E1 & Hor & Hopen & Hseg). rewrite E1. cbn [mbind result_bind].
  assert (runs_on preferred (cur1 ++ [u])) as Hrun.
  { apply runs_on_snoc; [apply Hopen|]. intros Hne. split; [by apply Hopen|]. by destruct Hor. }
  apply within_snoc in Hor as [Hover Hin].
  assert (exists added, sg_segments s1 = sg_segments s ++ added /\ forall segs,
    segmentation preferred (cur1 ++ u :: rest) segs -> segmentation preferred (cur ++ u :: rest) (added ++ segs))
    as (added & Hadd & Hfront).
  { destruct Hseg as [[-> ->]|(g & -> & Hne & -> & Hg)]; [exists []; by rewrite app_nil_r|].
    exists [g]. split; [done|]. intros segs Hs. by constructor. }
  set (s2 := {| sg_segments := _ |}).
  assert (accumulated (cur1 ++ [u]) s2) as Ha2.
  { destruct Ha1 as (Hf & Hc & Hn). split; [apply Forall_app_2; [done|by apply Forall_singleton]|].
    cbn [s2 sg_current sg_cost]. by rewrite concat_snoc, cost_app, Hc, Hn. }
  assert (cur1 ++ [u] <> []) as Hne2 by by destruct cur1.
  replace (cur1 ++ u :: rest) with ((cur1 ++ [u]) ++ rest) in Hfront by by rewrite <- app_assoc.
  assert (forall reason, justified preferred (cur1 ++ [u]) rest reason ->
    step_to preferred cur s u rest (close_current s2 reason)) as Hclose by (intros; by eapply close_to).
  pose proof Ha2 as (_ & Hc2 & Hn2).
  destruct (_ || _) eqn:Eo.
  { apply oversized_dec in Eo. apply Hclose. rewrite (Hover Eo). split_and!; [done|by right|by exists u]. }
  assert (within (cur1 ++ [u])) as Hwi.
  { apply Hin. rewrite <- oversized_dec. by rewrite Eo. }
  destruct (negb (nonempty rest)) eqn:El.
  { apply Hclose. destruct rest; [|done]. split_and!; [done|by left|done]. }
  assert (rest <> []) as Hr by by destruct rest.
  destruct (_ <=? len _) eqn:Em.
  { apply Hclose. split_and!; [done..|]. bool_hyps. left. by rewrite <- Hc2. }
  destruct (_ <=? sg_cost _) eqn:Et.
  { apply Hclose. split_and!; [done..|]. bool_hyps. left. rewrite <- Hn2, <- Hc2. lia. }
  destruct (existsb _ u) eqn:Ep.
  { apply Hclose. bool_hyps. split_and!; [done|done|rewrite <- Hc2; lia|rewrite <- Hn2; lia|].
    apply existsb_true_iff in Ep as (e & He & Hp). exists u, e.
    split_and!; [by rewrite last_snoc|done|]. apply existsb_true_iff in Hp as (z & Hz & Ez). 
    by apply py_eq_leibniz in Ez as ->. }
  exists s2, (cur1 ++ [u]), added. split_and!; try done. split; [|done]. intros _. split; [done|]. bool_hyps.
  split_and!; [rewrite <- Hc2; lia|rewrite <- Hn2; lia|]. intros v e. rewrite last_snoc. intros [= <-] He Hpref.
  rewrite existsb_false_iff in Ep. specialize (Ep e He). by rewrite (proj2 (py_in_spec _ _) Hpref) in Ep.
Qed.

Lemma segment_units_run preferred units : forall cur s,
  accumulated cur s -> open_units preferred cur -> (units = [] -> cur = []) -> Forall (fun u => u <> []) units ->
  (forall u e, u ∈ units -> e ∈ u -> ev_event_id e ∈ dom token_counts) ->
  exists s' segs, segment_units token_counts config preferred s units = Ok s'
    /\ sg_segments s' = sg_segments s ++ segs /\ segmentation preferred (cur ++ units) segs.
Proof.
  induction units as [|u units IH]; intros cur s Ha Hw He Hf Hd; cbn [segment_units].
  - exists s, []. rewrite He by done. rewrite app_nil_r. split_and!; [done..|constructor].
  - apply Forall_cons in Hf as [Hu Hf].
    destruct (segment_step_run preferred cur s u units Ha Hw Hu) as (s1 & cur1 & added & E & Ha1 & Hw1 & He1 & Hs1 & Hseg).
    { intros e. apply Hd. by left. }
    rewrite E. cbn [mbind result_bind]. destruct (IH cur1 s1 Ha1 Hw1 He1 Hf) as (s2 & segs & E2 & Hs2 & Hsg).
    { intros v e Hv. apply Hd. by right. }
    exists s2, (added ++ segs). rewrite E2, Hs2, Hs1, <- app_assoc. split_and!; [done..|by apply Hseg].
Qed.
End specification.

(** ** Properties *)

Section properties.
Context `{FloatRepr}.
Variables (token_counts : gmap string Z) (config : SegmenterConfig).

Lemma event_ids_elem events e : e ∈ events -> ev_event_id e ∈ event_ids events.
Proof. intros He. unfold event_ids. rewrite elem_of_list_to_set. by apply list_elem_of_fmap_2. Qed.
(** The loop runs to its end over the units of any measured history. *)
Lemma segment_units_total preferred events units
    (counts_nonneg : forall i n, token_counts !! i = Some n -> 0 <= n) :
  dom token_counts = event_ids events -> durable_event_units events = Some units ->
  exists s, segment_units token_counts config preferred {| sg_segments := []; sg_current := []; sg_cost := 0 |} units = Ok s
    /\ segmentation token_counts config preferred units (sg_segments s).
Proof.
  intros Hd Hu. apply durable_units_sound in Hu as (_ & Hcat & Hunits).
  destruct (segment_units_run token_counts config counts_nonneg preferred units []
    {| sg_segments := []; sg_current := []; sg_cost := 0 |}) as (s & segs & E & Hs & Hseg); [apply accumulated_nil|apply open_units_nil|done| | |].
  - eapply Forall_impl; [exact Hunits|]. intros u. apply unit_ok_ne.
  - intros u e Hu He. rewrite Hd. apply event_ids_elem. rewrite <- Hcat.
    apply list_elem_of_In, in_concat. exists u. by rewrite <- !list_elem_of_In.
  - exists s. by rewrite Hs.
Qed.

Lemma segmentation_partition preferred units segments :
  segmentation token_counts config preferred units segments ->
  concat (map es_events segments) = concat units
  /\ sumZ es_token_cost segments = cost token_counts (concat units).
Proof.
  induction 1 as [|us rest s segments (_ & He & Hc & _) _ [IH1 IH2]]; [done|].
  cbn [map concat]. by rewrite sumZ_cons, concat_app, IH1, IH2, He, Hc, cost_app.
Qed.
(** Adjacent segments meet: one ends right before the next starts. *)
Lemma segmentation_adjacent preferred units segments :
  segmentation token_counts config preferred units segments -> one_history (concat units) ->
  forall i s s', segments !! i = Some s -> segments !! S i = Some s' -> es_start_sequence s' = es_end_sequence s + 1.
Proof.
  induction 1 as [|us rest s segments Hs Hseg IH]; [done|]. intros Hh i a b Ha Hb. rewrite concat_app in Hh.
  destruct i as [|i]; cbn in Ha, Hb.
  2:{ eapply IH; [by eapply one_history_app_r|done..]. }
  injection Ha as ->. destruct Hseg as [|us' rest s' segs (_ & _ & _ & Hb' & _) _]; [done|].
  injection Hb as ->. destruct Hs as (_ & _ & _ & _ & Ha' & _).
  destruct (last (concat us)) as [x|] eqn:Ex; [|done]. injection Ha' as ->. apply last_Some in Ex as [pre Ex].
  destruct (concat us') as [|y post] eqn:Ey; [done|]. injection Hb' as ->.
  rewrite concat_app, Ex, Ey, <- app_assoc in Hh. cbn in Hh.
  destruct (Hh (length pre) x y) as [-> _]; [by apply list_lookup_middle| |done].
  rewrite lookup_app_r by lia. by replace (S (length pre) - length pre)%nat with 1%nat by lia.
Qed.

(** A measured history only fails for its tool protocol. *)
Lemma measured_history_outcome events preferred reason (counts_nonneg : forall i n, token_counts !! i = Some n -> 0 <= n) :
  events <> [] -> one_history events -> dom token_counts = event_ids events -> segment token_counts config events preferred = Err reason ->
  reason = SEGMENTER_TOOL_LOOP_INVALID /\ durable_event_units events = None.
Proof.
  intros Hne Hh Hd. unfold segment. rewrite (proj2 (validate_events_ok events)) by done. cbn [mbind result_bind].
  rewrite raise_if_false by by apply negb_false_iff, bool_decide_eq_true.
  destruct (durable_event_units events) as [units|] eqn:Eu; [|by intros [= <-]].
  destruct (segment_units_total (_normalize_preferred_boundaries events preferred (max_preferred_boundaries config))
    _ _ counts_nonneg Hd Eu) as (s & -> & _). done.
Qed.

(** The preferred boundaries that count: of the first ones given, up to the
    limit, those inside the history, its last event not among them. *)
Definition wanted_boundary (events : list EventEnvelope) (preferred : list Z) (z : Z) : Prop :=
  z ∈ take_z (max_preferred_boundaries config) preferred
  /\ exists first last, head events = Some first /\ list.last events = Some last /\ ev_sequence first <= z < ev_sequence last.
Lemma normalized_wanted events preferred z : events <> [] ->
  z ∈ _normalize_preferred_boundaries events preferred (max_preferred_boundaries config) <-> wanted_boundary events preferred z.
Proof.
  intros (first & last & Hf & Hl)%head_last_some. unfold _normalize_preferred_boundaries, wanted_boundary. rewrite Hf, Hl.
  rewrite elem_of_filter_bool, andb_true_iff, Z.leb_le, Z.ltb_lt. split.
  - intros [Hz Hb]. split; [done|]. by exists first, last.
  - intros (Hz & f & l & [= <-] & [= <-] & Hb). done.
Qed.
(** C30. Segmenting is decided by its input: it succeeds exactly on one session's
    consecutive events with a token metric each and a stable tool protocol, each
    refusal is the first failing check, and a success is a segmentation of the
    durable units - whole units in order, costs added up, every segment within the
    limits unless it is one oversized unit, every boundary for its reason, and a
    segment running on behind a unit only where no limit is reached, no preferred
    boundary of the history lies in that unit, and the next unit still fits. *)
Theorem segment_decided (events : list EventEnvelope) (preferred : list Z)
    (counts_nonneg : forall i n, token_counts !! i = Some n -> 0 <= n) :
  match segment token_counts config events preferred with
  | Ok segments =>
      events <> [] /\ one_history events /\ dom token_counts = event_ids events
      /\ exists units, durable_event_units events = Some units
         /\ exists wanted, (forall z, z ∈ wanted <-> wanted_boundary events preferred z)
              /\ segmentation token_counts config wanted units segments
  | Err SEGMENTER_EMPTY_EVENTS => events = []
  | Err (SEGMENTER_SESSION_MISMATCH | SEGMENTER_NONCONTIGUOUS_EVENTS) => events <> [] /\ ~ one_history events
  | Err TOKEN_METRIC_MISSING => events <> [] /\ one_history events /\ dom token_counts <> event_ids events
  | Err SEGMENTER_TOOL_LOOP_INVALID =>
      events <> [] /\ one_history events /\ dom token_counts = event_ids events /\ durable_event_units events = None
  | Err _ => False
  end.
Proof.
  unfold segment. destruct (_validate_events events) as [[]|x] eqn:Ev; cbn [mbind result_bind].
  - apply validate_events_ok in Ev as [Hne Hh]. unfold raise_if.
    destruct (bool_decide _) eqn:Ed; cbn [negb]; bool_hyps; [|done].
    destruct (durable_event_units events) as [units|] eqn:Eu; [|done].
    destruct (segment_units_total (_normalize_preferred_boundaries events preferred (max_preferred_boundaries config))
      _ _ counts_nonneg Ed Eu) as (s & E & Hseg).
    rewrite E. cbn [mbind result_bind]. split_and!; [done..|]. exists units. split; [done|]. eexists. split; [|exact Hseg].
    intros z. by apply normalized_wanted.
  - destruct events as [|e events]; [by injection Ev as <-|].
    assert (~ one_history (e :: events)) as Hn.
    { intros Hh. assert (_validate_events (e :: events) = Ok tt) as E by by apply validate_events_ok. congruence. }
    apply validate_from_error in Ev as [-> | ->]; done.
Qed.

(** A successful segmentation covers every event exactly once, in order: the
    segments' events in sequence are the input, their costs add up to the input's
    metrics, and each segment starts right after its predecessor ends. *)
Theorem segments_partition (events : list EventEnvelope) (preferred : list Z) (segments : list EventSegment)
    (counts_nonneg : forall i n, token_counts !! i = Some n -> 0 <= n)
    (Hok : segment token_counts config events preferred = Ok segments) :
  concat (map es_events segments) = events
  /\ sumZ es_token_cost segments = sumZ (fun e => default 0 (token_counts !! ev_event_id e)) events
  /\ forall i s s', segments !! i = Some s -> segments !! S i = Some s' ->
       es_start_sequence s' = es_end_sequence s + 1.
Proof.
  unfold segment in Hok. destruct (_validate_events events) as [[]|x] eqn:Ev; [|done]. cbn [mbind result_bind] in Hok.
  apply validate_events_ok in Ev as [_ Hh]. apply raise_if_ok in Hok as [Hd Hok]. bool_hyps.
  destruct (durable_event_units events) as [units|] eqn:Eu; [|done].
  destruct (segment_units_total (_normalize_preferred_boundaries events preferred (max_preferred_boundaries config))
    _ _ counts_nonneg Hd Eu) as (s & E & Hseg).
  rewrite E in Hok. injection Hok as <-. apply durable_units_sound in Eu as (_ & Hcat & _).
  destruct (segmentation_partition _ _ _ Hseg) as [E1 E2]. rewrite Hcat in E1, E2.
  split; [done|]. split; [done|]. eapply segmentation_adjacent; [done|by rewrite Hcat].
Qed.
End properties.

(** ** A concrete history *)

Section concrete.
#[local] Instance no_float_repr : FloatRepr := fun _ => [].
Definition demo_key : SessionKey :=
  {| sk_platform_instance_id := "p"; sk_message_type := "m"; sk_session_id := "s"; sk_group_id := None;
     sk_user_id := "u"; sk_conversation_id := "c"; sk_persona_id := None |}.
Definition demo_tool (kind : string) : string :=
  json_dumps (JObj [("kind", JStr kind); ("tool", JStr "t"); ("arguments", JObj [("n", JInt 1)])]).
Definition demo_event (id : string) (sequence : Z) (t : EventType) (content : string) : EventEnvelope :=
  {| ev_event_id := id; ev_session_key := demo_key; ev_sequence := sequence; ev_event_type := t;
     ev_role := (event_mapping t).1; ev_content := content; ev_source_hook := (event_mapping t).2;
     ev_idempotency_key := id; ev_token_count := 2; ev_created_at := 0 |}.
(** A message, a tool loop, two messages. *)
Definition demo_events : list EventEnvelope := Eval vm_compute in
  [demo_event "a" 1 USER_MESSAGE "hi"; demo_event "b" 2 TOOL_CALL (demo_tool "call");
   demo_event "c" 3 TOOL_RESULT (demo_tool "result"); demo_event "d" 4 ASSISTANT_MESSAGE "ok";
   demo_event "e" 5 USER_MESSAGE "more"; demo_event "f" 6 ASSISTANT_MESSAGE "done"].
Definition demo_counts : gmap string Z := list_to_map [("a", 2); ("b", 1); ("c", 3); ("d", 2); ("e", 0); ("f", 4)].
Definition demo_config : SegmenterConfig :=
  {| max_events_per_segment := 3; max_tokens_per_segment := 6; max_preferred_boundaries := 4 |}.

Example demo_units :
  map (map ev_event_id) <$> durable_event_units demo_events = Some [["a"]; ["b"; "c"; "d"]; ["e"]; ["f"]].
Proof. vm_compute. reflexivity. Qed.
Lemma demo_counts_nonneg : forall i n, demo_counts !! i = Some n -> 0 <= n.
Proof.
  intros i n Hi. unfold demo_counts in Hi. apply elem_of_list_to_map_2 in Hi.
  repeat (apply elem_of_cons in Hi as [[= -> ->]|Hi]; [lia|]). by apply elem_of_nil in Hi.
Qed.
(** The tool loop is one segment; a preferred boundary splits the last two messages. *)
Example demo_segments :
  match segment demo_counts demo_config demo_events [5] with
  | Ok l => map (fun s => (es_start_sequence s, es_end_sequence s, es_token_cost s, es_boundary_reason s)) l
  | Err _ => []
  end = [(1, 1, 2, MAX_EVENTS); (2, 4, 6, MAX_EVENTS); (5, 5, 0, PREFERRED); (6, 6, 4, END_OF_INPUT)].
Proof. vm_compute. reflexivity. Qed.

Lemma segment_decided_witness : exists units wanted segments,
  durable_event_units demo_events = Some units
  /\ (forall z, z ∈ wanted <-> wanted_boundary demo_config demo_events [5] z)
  /\ segmentation demo_counts demo_config wanted units segments.
Proof.
  pose proof (segment_decided demo_counts demo_config demo_events [5] demo_counts_nonneg) as Hd.
  destruct (segment demo_counts demo_config demo_events [5]) as [segments|e] eqn:E.
  - destruct Hd as (_ & _ & _ & units & Hu & wanted & Hw & Hs). exists units, wanted, segments. split; [exact Hu|split; [exact Hw|exact Hs]].
  - exfalso. vm_compute in E. discriminate E.
Defined.
Lemma segments_partition_witness : exists segments,
  segment demo_counts demo_config demo_events [5] = Ok segments /\ concat (map es_events segments) = demo_events.
Proof.
  destruct (segment demo_counts demo_config demo_events [5]) as [segments|e] eqn:E.
  - exists segments. split; [reflexivity|].
    exact (proj1 (segments_partition demo_counts demo_config demo_events [5] segments demo_counts_nonneg E)).
  - exfalso. vm_compute in E. discriminate E.
Defined.
End concrete.
