(* ===== verification/Runtime.v ===== *)
(** The request-side value types of [runtime/types.py]: projection slots and
    candidate blocks, the retrieval and budget configurations with their
    validation, and the content-free assembly trace. *)
From S2P Require Import Prelude PyString PyFloat Domain.
Open Scope list_scope.
Open Scope Z_scope.

Inductive RuntimeSlot :=
| ACTIVE_GOAL | HARD_CONSTRAINT | RAW_DELTA | EXACT_ANCHOR | RECENT_RAW | ACTIVE_TASK
| RELEVANT_EVIDENCE | EPISODE_BACKGROUND | GLOBAL_BACKGROUND.
#[export] Instance RuntimeSlot_eq_dec : EqDecision RuntimeSlot.
Proof. solve_decision. Defined.
Definition RUNTIME_SLOT_PRIORITY : list RuntimeSlot :=
  [ACTIVE_GOAL; HARD_CONSTRAINT; RAW_DELTA; EXACT_ANCHOR; RECENT_RAW; ACTIVE_TASK;
   RELEVANT_EVIDENCE; EPISODE_BACKGROUND; GLOBAL_BACKGROUND].
(** [{slot: rank for rank, slot in enumerate(RUNTIME_SLOT_PRIORITY)}] *)
Definition _SLOT_RANK (slot : RuntimeSlot) : Z :=
  default 0 (fst <$> List.find (fun p => eqb_of p.2 slot) (enumerate RUNTIME_SLOT_PRIORITY)).

Inductive CandidateKind :=
| GOAL | CONSTRAINT | RAW_EVENT | EXACT_ANCHOR_KIND | TASK_CONTEXT | DECISION | ENTITY | DEPENDENCY
| EPISODE_BACKGROUND_KIND | GLOBAL_BACKGROUND_KIND.
#[export] Instance CandidateKind_eq_dec : EqDecision CandidateKind.
Proof. solve_decision. Defined.
(** [CandidateKind.value] *)
Definition kind_value (k : CandidateKind) : string :=
  match k with
  | GOAL => "goal" | CONSTRAINT => "constraint" | RAW_EVENT => "raw_event"
  | EXACT_ANCHOR_KIND => "exact_anchor" | TASK_CONTEXT => "task_context" | DECISION => "decision"
  | ENTITY => "entity" | DEPENDENCY => "dependency" | EPISODE_BACKGROUND_KIND => "episode_background"
  | GLOBAL_BACKGROUND_KIND => "global_background"
  end.

(** The exceptions of the [__post_init__] validators. *)
Inductive config_error := ConfigValueError (field : string) | ConfigTypeError (field : string).

Record RetrievalConfig := {
  rc_max_query_characters : Z; rc_max_capsules : Z; rc_max_delta_events : Z; rc_max_candidates : Z;
  rc_max_items_per_field : Z; rc_max_lexical_characters_per_candidate : Z;
  rc_goal_weight : float; rc_constraint_weight : float; rc_raw_delta_weight : float;
  rc_exact_anchor_weight : float; rc_task_weight : float; rc_decision_weight : float;
  rc_entity_weight : float; rc_dependency_weight : float; rc_background_weight : float;
  rc_lexical_weight : float;
}.
Definition RetrievalConfig_valid (c : RetrievalConfig) : bool :=
  forallb (fun value => negb (value <? 0))
    [rc_max_query_characters c; rc_max_capsules c; rc_max_delta_events c]
  && forallb (fun value => negb (value <? 1))
    [rc_max_candidates c; rc_max_items_per_field c; rc_max_lexical_characters_per_candidate c]
  && negb (existsb (fun value => negb (f_is_finite value) || f_lt value f_zero)
    [rc_goal_weight c; rc_constraint_weight c; rc_raw_delta_weight c; rc_exact_anchor_weight c;
     rc_task_weight c; rc_decision_weight c; rc_entity_weight c; rc_dependency_weight c;
     rc_background_weight c; rc_lexical_weight c]).

Record CandidateBlock := {
  cb_block_id : string; cb_slot : RuntimeSlot; cb_kind : CandidateKind; cb_text : string;
  cb_source_event_ids : list string; cb_score : float; cb_reason : string; cb_required : bool;
  cb_capsule_id : option string; cb_event_sequence : option Z; cb_event_type : option EventType;
  cb_tool_name : option string; cb_required_selection_complete : bool;
}.
#[export] Instance CandidateBlock_eq_dec : EqDecision CandidateBlock.
Proof. solve_decision. Defined.
(** [CandidateBlock.__post_init__] *)
Definition CandidateBlock_valid (b : CandidateBlock) : bool :=
  negb (is_empty (cb_block_id b))
  && negb (bool_decide (cb_source_event_ids b = []))
  && no_duplicates (cb_source_event_ids b)
  && negb (negb (f_is_finite (cb_score b)) || f_lt (cb_score b) f_zero)
  && negb (is_empty (cb_reason b))
  && match cb_event_sequence b with Some n => negb (n <? 1) | None => true end
  && match cb_event_type b with Some _ => eqb_of (cb_kind b) RAW_EVENT | None => true end
  && match cb_tool_name b with
     | Some name => negb (is_empty name)
         && match cb_event_type b with Some (TOOL_CALL | TOOL_RESULT) => true | _ => false end
     | None => true
     end.
Definition block_ids (blocks : list CandidateBlock) : list string := map cb_block_id blocks.

Inductive AssemblyMode := NORMAL | EMERGENCY_ASSEMBLY.
#[export] Instance AssemblyMode_eq_dec : EqDecision AssemblyMode.
Proof. solve_decision. Defined.

Inductive BudgetErrorCode :=
| CURRENT_INPUT_INVALID | OPAQUE_TOKEN_COST_INVALID | FIXED_REQUIRED_COST_INVALID
| TOKEN_COUNTER_INVALID | TOKEN_COUNTER_FAILURE | REQUIRED_INPUT_EXCEEDS_BUDGET
| INTERNAL_BUDGET_INVARIANT.
#[export] Instance BudgetErrorCode_eq_dec : EqDecision BudgetErrorCode.
Proof. solve_decision. Defined.

Record BudgetConfig := {
  bc_target_input_budget : Z; bc_hard_input_ceiling : Z; bc_model_context_limit : Z;
  bc_reserved_output_and_tools : Z; bc_safety_margin : Z;
}.
(** [BudgetConfig.__post_init__] *)
Definition BudgetConfig_new (c : BudgetConfig) : result config_error BudgetConfig :=
  raise (ConfigValueError "target_input_budget") when bc_target_input_budget c <? 1;;
  raise (ConfigValueError "hard_input_ceiling") when bc_hard_input_ceiling c <? 1;;
  raise (ConfigValueError "model_context_limit") when bc_model_context_limit c <? 1;;
  raise (ConfigValueError "reserved_output_and_tools") when bc_reserved_output_and_tools c <? 0;;
  raise (ConfigValueError "safety_margin") when bc_safety_margin c <? 0;;
  raise (ConfigValueError "reserved_output_and_tools")
    when bc_model_context_limit c <? bc_reserved_output_and_tools c;;
  Ok c.

(** [BlockSelection] and [BlockRejection] carry the same content-free record. *)
Record BlockTrace := {
  bt_block_id : string; bt_slot : RuntimeSlot; bt_source_event_ids : list string;
  bt_token_cost : Z; bt_score : float; bt_reason : string;
}.
Record AssemblyTrace := {
  at_mode : AssemblyMode; at_snapshot_id : option string; at_pointer_version : Z;
  at_covered_event_end : Z; at_high_water_mark : Z; at_b_input : Z; at_current_input_cost : Z;
  at_fixed_required_cost : Z; at_safety_margin : Z; at_b_required : Z; at_opaque_token_cost : Z;
  at_b_ac : Z; at_ac_selected_cost : Z; at_projection_overhead_cost : Z; at_total_input_cost : Z;
  at_slot_token_costs : list (RuntimeSlot * Z);
  at_selections : list BlockTrace; at_rejections : list BlockTrace;
}.
Record AssemblyResult := {
  ar_projected_text : string; ar_selected_blocks : list CandidateBlock; ar_trace : AssemblyTrace;
}.
