(* ===== verification/Closure.v ===== *)
(** The dependency closure of [context_graph/closure.py]: structural companions,
    connected components of candidates, and the bounded closure of a selection.
    Components are those of [linked], the reflexive-transitive closure of
    companionship. *)
From S2P Require Import Prelude PyString PyFloat Domain Runtime.
Open Scope list_scope.
Open Scope Z_scope.

Inductive ClosureError :=
| DEPENDENCY_GROUP_DUPLICATE_BLOCK | DEPENDENCY_CLOSURE_DUPLICATE_BLOCK
| DEPENDENCY_CLOSURE_UNKNOWN_BLOCK | DEPENDENCY_CLOSURE_CAPACITY_EXCEEDED
| MAX_BLOCKS_NOT_POSITIVE | OUT_OF_FUEL.

Definition shares_event (left right : CandidateBlock) : bool :=
  existsb (fun e => bool_decide (e ∈ cb_source_event_ids right)) (cb_source_event_ids left).
Definition _companions (left right : CandidateBlock) : bool :=
  if eqb_of (cb_kind left) DEPENDENCY || eqb_of (cb_kind right) DEPENDENCY then
    (is_some (cb_capsule_id left) && eqb_of (cb_capsule_id left) (cb_capsule_id right))
    || shares_event left right
  else false.

(** ** Connected components *)

Section groups.
Variable candidates : list CandidateBlock.

(** [_companions(candidates[i], candidates[j])] *)
Definition companion_indexes (i j : nat) : bool :=
  match candidates !! i, candidates !! j with
  | Some a, Some b => _companions a b
  | _, _ => false
  end.
(** The inner loop: [pending] is a stack, [remaining] is visited in index order. *)
Fixpoint component (fuel : nat) (pending component_indexes remaining : list nat) : option (list nat * list nat) :=
  match fuel with
  | O => None
  | S fuel =>
      match pending with
      | [] => Some (component_indexes, remaining)
      | index :: pending =>
          if bool_decide (index ∈ component_indexes) then component fuel pending component_indexes remaining else
          let component_indexes := index :: component_indexes in
          let remaining := List.filter (fun other => negb (Nat.eqb other index)) remaining in
          let found := List.filter (companion_indexes index) remaining in
          component fuel (rev found ++ pending) component_indexes remaining
      end
  end.
(** Enough for every call: each pop either drops an index or visits a new one. *)
Definition component_fuel : nat := S (length candidates * S (length candidates) + 1).

(** [sorted(component_indexes)], then the candidates at these indexes. *)
Definition group_of (component_indexes : list nat) : list CandidateBlock :=
  omap (fun i => candidates !! i) (order_by Z.of_nat component_indexes).
Fixpoint components (fuel : nat) (remaining : list nat) : option (list (list CandidateBlock)) :=
  match remaining with
  | [] => Some []
  | first :: _ =>
      match fuel with
      | O => None
      | S fuel =>
          '(component_indexes, remaining) ← component component_fuel [first] [] remaining;
          rest ← components fuel remaining;
          Some (group_of component_indexes :: rest)
      end
  end.
End groups.

Definition dependency_groups (candidates : list CandidateBlock) : result ClosureError (list (list CandidateBlock)) :=
  raise DEPENDENCY_GROUP_DUPLICATE_BLOCK when negb (no_duplicates (block_ids candidates));;
  match components candidates (length candidates) (seq 0 (length candidates)) with
  | Some groups => Ok groups
  | None => Err OUT_OF_FUEL
  end.
Definition removable_dependency_groups (candidates : list CandidateBlock)
    : result ClosureError (list (list CandidateBlock)) :=
  groups ← dependency_groups candidates;
  Ok (List.filter (fun group => negb (existsb cb_required group)) groups).

(** ** The closure of a selection *)

Section closure.
Variables (available : list CandidateBlock) (max_blocks : Z).

Definition set_len (s : gset string) : Z := Z.of_nat (size s).
(** [for right in available] for one [left]. *)
Fixpoint close_left (lft : CandidateBlock) (rights : list CandidateBlock) (st : gset string * bool)
    : result ClosureError (gset string * bool) :=
  match rights with
  | [] => Ok st
  | rgt :: rights =>
      let '(selected_ids, changed) := st in
      if bool_decide (cb_block_id rgt ∈ selected_ids) || negb (_companions lft rgt)
      then close_left lft rights st
      else raise DEPENDENCY_CLOSURE_CAPACITY_EXCEEDED when max_blocks <=? set_len selected_ids;;
           close_left lft rights ({[cb_block_id rgt]} ∪ selected_ids, true)
  end.
Fixpoint close_pass (active : list CandidateBlock) (st : gset string * bool) : result ClosureError (gset string * bool) :=
  match active with
  | [] => Ok st
  | lft :: active => st ← close_left lft available st; close_pass active st
  end.
Definition active_blocks (selected_ids : gset string) : list CandidateBlock :=
  List.filter (fun item => bool_decide (cb_block_id item ∈ selected_ids)) available.
(** [while changed]; a pass that changes something selects one more block. *)
Fixpoint close_loop (fuel : nat) (selected_ids : gset string) : result ClosureError (gset string) :=
  match fuel with
  | O => Err OUT_OF_FUEL
  | S fuel =>
      st ← close_pass (active_blocks selected_ids) (selected_ids, false);
      let '(selected_ids, changed) := st : gset string * bool in
      if changed then close_loop fuel selected_ids else Ok selected_ids
  end.
End closure.

Fixpoint select_ids (universe : gset string) (selected : list CandidateBlock) (ids : gset string)
    : result ClosureError (gset string) :=
  match selected with
  | [] => Ok ids
  | item :: selected =>
      raise DEPENDENCY_CLOSURE_UNKNOWN_BLOCK when negb (bool_decide (cb_block_id item ∈ universe));;
      select_ids universe selected ({[cb_block_id item]} ∪ ids)
  end.
Definition close_dependency_closure (selected_blocks universe : list CandidateBlock) (max_blocks : Z)
    : result ClosureError (list CandidateBlock) :=
  raise MAX_BLOCKS_NOT_POSITIVE when max_blocks <? 1;;
  raise DEPENDENCY_CLOSURE_DUPLICATE_BLOCK when negb (no_duplicates (block_ids universe));;
  selected_ids ← select_ids (list_to_set (block_ids universe)) selected_blocks ∅;
  let selected_ids : gset string :=
    list_to_set (block_ids (List.filter cb_required universe)) ∪ selected_ids in
  raise DEPENDENCY_CLOSURE_CAPACITY_EXCEEDED when max_blocks <? set_len selected_ids;;
  selected_ids ← close_loop universe max_blocks (S (length universe)) selected_ids;
  Ok (active_blocks universe selected_ids).
Definition validate_dependency_closure (packed_blocks universe : list CandidateBlock) (max_blocks : Z) : bool :=
  match close_dependency_closure packed_blocks universe max_blocks with
  | Ok closure => bool_decide (block_ids packed_blocks = block_ids closure)
  | Err _ => false
  end.

(** ** Lemmas: closing a selection *)

(** A set of block ids that has the companions of every block it has. *)
Definition closed_under (universe : list CandidateBlock) (P : gset string) : Prop := forall a b,
  a ∈ universe -> b ∈ universe -> _companions a b = true -> cb_block_id a ∈ P -> cb_block_id b ∈ P.

Lemma block_ids_elem b l : b ∈ l -> cb_block_id b ∈ block_ids l.
Proof. intros Hb. unfold block_ids. apply list_elem_of_fmap. eauto. Qed.

Section closing.
Variables (available : list CandidateBlock) (max_blocks : Z).
Hypothesis ids_unique : NoDup (block_ids available).

Lemma id_of_unique a b : a ∈ available -> b ∈ available -> cb_block_id a = cb_block_id b -> a = b.
Proof. apply key_unique, ids_unique. Qed.

(** What a stretch of the closing loops does to the selected ids: it grows them
    inside every closed superset, and runs out of capacity only when every closed
    superset does. *)
Definition grows (s : gset string) (changed : bool) (r : result ClosureError (gset string * bool)) : Prop :=
  match r with
  | Ok (s', changed') =>
      s ⊆ s' /\ (forall P, closed_under available P -> s ⊆ P -> s' ⊆ P)
      /\ (set_len s <= max_blocks -> set_len s' <= max_blocks)
      /\ (changed' = false -> s' = s /\ changed = false)
      /\ (changed' = true -> changed = true \/ set_len s < set_len s')
  | Err e => e = DEPENDENCY_CLOSURE_CAPACITY_EXCEEDED
      /\ forall P, closed_under available P -> s ⊆ P -> max_blocks < set_len P
  end.
Lemma set_len_mono (s t : gset string) : s ⊆ t -> set_len s <= set_len t.
Proof. intros H. apply subseteq_size in H. unfold set_len. lia. Qed.
Lemma grows_trans s c s1 c1 r : s ⊆ s1 ->
  grows s c (Ok (s1, c1)) -> grows s1 c1 r -> grows s c r.
Proof.
  intros Hs (_ & H2 & H3 & H4 & H5) Hr. destruct r as [[s2 c2]|e]; cbn in *.
  - destruct Hr as (G1 & G2 & G3 & G4 & G5). split_and!.
    + set_solver.
    + intros P HP Hsub. apply G2; [done|]. by apply H2.
    + auto.
    + intros E. destruct (G4 E) as [-> E1]. by apply H4.
    + intros E. pose proof (set_len_mono _ _ Hs). pose proof (set_len_mono _ _ G1).
      destruct (G5 E) as [E1|]; [destruct (H5 E1) as [|]; [by left|right; lia]|right; lia].
  - destruct Hr as [-> G]. split; [done|]. intros P HP Hsub. apply G; [done|]. by apply H2.
Qed.

Lemma close_left_grows lft rights : forall s c,
  lft ∈ available -> rights ⊆ available -> cb_block_id lft ∈ s ->
  grows s c (close_left max_blocks lft rights (s, c))
  /\ forall s' c', close_left max_blocks lft rights (s, c) = Ok (s', c') ->
       forall b, b ∈ rights -> _companions lft b = true -> cb_block_id b ∈ s'.
Proof.
  induction rights as [|rgt rights IH]; intros s c Hl Hr Hin.
  { split; [|intros s' c' _ b Hb; by apply elem_of_nil in Hb]. cbn. split_and!; auto. }
  assert (rights ⊆ available) as Hr' by set_solver. cbn [close_left].
  destruct (_ || _) eqn:E.
  - destruct (IH s c Hl Hr' Hin) as [IH1 IH2]. split; [done|].
    intros s' c' Es b [->|Hb]%elem_of_cons Hc; [|by eapply IH2].
    rewrite Es in IH1. destruct IH1 as [Hsub _]. rewrite Hc, orb_false_r in E. bool_hyps. by apply Hsub.
  - apply orb_false_iff in E as [E1 E2]. bool_hyps. unfold raise_if.
    destruct (max_blocks <=? set_len s) eqn:Em; bool_hyps.
    { split; [|done]. split; [done|]. intros P HP Hsub.
      assert ({[cb_block_id rgt]} ∪ s ⊆ P) as HP2.
      { assert (cb_block_id rgt ∈ P); [|set_solver]. apply (HP lft rgt); [done|set_solver|done|set_solver]. }
      apply set_len_mono in HP2. unfold set_len in *.
      rewrite size_union, size_singleton in HP2 by set_solver. lia. }
    destruct (IH ({[cb_block_id rgt]} ∪ s) true Hl Hr') as [IH1 IH2]; [set_solver|].
    assert (set_len ({[cb_block_id rgt]} ∪ s) = set_len s + 1) as Elen.
    { unfold set_len. rewrite size_union, size_singleton by set_solver. lia. }
    split.
    + eapply (grows_trans s c _ true); [|cbn; split_and!|exact IH1]; [set_solver|set_solver| |lia|done|right; lia].
      intros P HP Hsub. assert (cb_block_id rgt ∈ P); [|set_solver].
      apply (HP lft rgt); [done|set_solver|done|set_solver].
    + intros s' c' Es b [->|Hb]%elem_of_cons Hc; [|by eapply IH2].
      rewrite Es in IH1. destruct IH1 as [Hsub _]. set_solver.
Qed.

Lemma close_pass_grows active : forall s c,
  active ⊆ available -> (forall a, a ∈ active -> cb_block_id a ∈ s) ->
  grows s c (close_pass available max_blocks active (s, c))
  /\ forall s' c', close_pass available max_blocks active (s, c) = Ok (s', c') ->
       forall a b, a ∈ active -> b ∈ available -> _companions a b = true -> cb_block_id b ∈ s'.
Proof.
  induction active as [|lft active IH]; intros s c Ha Hin.
  { split; [|intros s' c' _ a b Hb; by apply elem_of_nil in Hb]. cbn. split_and!; auto. }
  destruct (close_left_grows lft available s c) as [G1 G2]; [set_solver|done|apply Hin; by left|].
  cbn [close_pass mbind result_bind]. destruct (close_left _ _ _ _) as [[s1 c1]|e]; cbn [mbind result_bind]; [|done].
  assert (s ⊆ s1) as Hs by by destruct G1.
  destruct (IH s1 c1) as [IH1 IH2]; [set_solver|intros a Hb; apply Hs, Hin; by right|].
  split; [by eapply grows_trans|].
  intros s' c' Es a b [->|Hb]%elem_of_cons Hbv Hc; [|by eapply IH2].
  rewrite Es in IH1. destruct IH1 as [Hsub _]. apply Hsub. by eapply G2.
Qed.

Lemma active_elem s a : a ∈ active_blocks available s <-> a ∈ available /\ cb_block_id a ∈ s.
Proof. unfold active_blocks. by rewrite elem_of_filter_bool, bool_decide_eq_true. Qed.
Lemma NoDup_filter_keys (p : CandidateBlock -> bool) l : NoDup (block_ids l) -> NoDup (block_ids (List.filter p l)).
Proof.
  induction l as [|x l IH]; cbn; [done|]. intros [Hx Hl]%NoDup_cons. destruct (p x); [|by apply IH].
  cbn. constructor; [|by apply IH]. intros (y & E & [Hy _]%elem_of_filter_bool)%list_elem_of_fmap.
  apply Hx. rewrite E. by apply block_ids_elem.
Qed.
(** As many active blocks as selected ids, when all of them are known. *)
Lemma active_len s : s ⊆ list_to_set (block_ids available) -> len (active_blocks available s) = set_len s.
Proof.
  intros Hs. unfold len, set_len. rewrite <- (length_map cb_block_id). f_equal.
  assert (s = list_to_set (block_ids (active_blocks available s))) as E.
  { apply set_eq. intros i. rewrite elem_of_list_to_set. split.
    - intros Hi. pose proof (Hs _ Hi) as Hk. apply elem_of_list_to_set, list_elem_of_fmap in Hk as (b & -> & Hb).
      apply list_elem_of_fmap. exists b. split; [done|]. apply active_elem; split; [exact Hb|exact Hi].
    - intros (b & -> & Hb)%list_elem_of_fmap. by apply active_elem in Hb as [_ Hb]. }
  rewrite E at 2. rewrite size_list_to_set; [done|]. by apply NoDup_filter_keys.
Qed.

(** The loop returns the least closed superset, or has none within the capacity. *)
Lemma close_loop_least fuel : forall s, s ⊆ list_to_set (block_ids available) ->
  Z.of_nat (length available) - set_len s < Z.of_nat fuel -> set_len s <= max_blocks ->
  match close_loop available max_blocks fuel s with
  | Ok s' => s ⊆ s' /\ closed_under available s' /\ s' ⊆ list_to_set (block_ids available) /\ set_len s' <= max_blocks
      /\ forall P, closed_under available P -> s ⊆ P -> s' ⊆ P
  | Err e => e = DEPENDENCY_CLOSURE_CAPACITY_EXCEEDED
      /\ forall P, closed_under available P -> s ⊆ P -> max_blocks < set_len P
  end.
Proof.
  assert (closed_under available (list_to_set (block_ids available))) as Hall.
  { intros a b Ha Hb _ _. apply elem_of_list_to_set. by apply block_ids_elem. }
  assert (forall s, s ⊆ list_to_set (block_ids available) -> set_len s <= Z.of_nat (length available)) as Hbound.
  { intros s Hs. apply set_len_mono in Hs. unfold set_len in *.
    rewrite (size_list_to_set (C := gset string) (block_ids available) ids_unique) in Hs.
    unfold block_ids in Hs. rewrite length_map in Hs. lia. }
  induction fuel as [|fuel IH]; intros s Hs Hf Hm; [specialize (Hbound s Hs); lia|]. cbn [close_loop].
  destruct (close_pass_grows (active_blocks available s) s false) as [G1 G2].
  { intros a Ha. by apply active_elem in Ha as [? _]. }
  { intros a Ha. by apply active_elem in Ha as [_ ?]. }
  destruct (close_pass _ _ _ _) as [[s1 c1]|e]; cbn [mbind result_bind]; [|done].
  destruct G1 as (H1 & H2 & H3 & H4 & H5). destruct c1.
  - destruct (H5 eq_refl) as [|Hlt]; [done|]. specialize (IH s1 (H2 _ Hall Hs) ltac:(lia) (H3 Hm)).
    destruct (close_loop _ _ _ _) as [s'|e].
    + destruct IH as (I1 & I2 & I3 & I4 & I5). split_and!; [set_solver|done..|].
      intros P HP Hsub. apply I5; [done|]. by apply H2.
    + destruct IH as [-> I]. split; [done|]. intros P HP Hsub. apply I; [done|]. by apply H2.
  - destruct (H4 eq_refl) as [-> _]. split_and!; [done| |done..].
    intros a b Ha Hb Hc Hin. eapply G2; [done| |exact Hb|exact Hc]. by apply active_elem.
Qed.
End closing.

(** The blocks any closure must have: the selected and the required ones. *)
Definition starts (selected universe : list CandidateBlock) (P : gset string) : Prop :=
  (forall b, b ∈ selected -> cb_block_id b ∈ P) /\ (forall b, b ∈ universe -> cb_required b = true -> cb_block_id b ∈ P).

Lemma select_ids_spec universe selected : forall ids,
  match select_ids universe selected ids with
  | Ok s => s = list_to_set (block_ids selected) ∪ ids /\ (forall b, b ∈ selected -> cb_block_id b ∈ universe)
  | Err e => e = DEPENDENCY_CLOSURE_UNKNOWN_BLOCK /\ exists b, b ∈ selected /\ cb_block_id b ∉ universe
  end.
Proof.
  induction selected as [|b selected IH]; intros ids; cbn [select_ids].
  { split; [set_solver|]. intros b Hb. by apply elem_of_nil in Hb. }
  unfold raise_if. destruct (bool_decide _) eqn:E; cbn [negb]; bool_hyps.
  2:{ split; [done|]. exists b. split; [by left|done]. }
  specialize (IH ({[cb_block_id b]} ∪ ids)). destruct (select_ids _ _ _) as [s|e].
  - destruct IH as [-> IH]. split; [cbn; set_solver|]. intros c [->|Hc]%elem_of_cons; [done|by apply IH].
  - destruct IH as [-> (c & Hc & Hn)]. split; [done|]. exists c. split; [by right|done].
Qed.
Lemma starts_subset selected universe P : starts selected universe P <->
  list_to_set (block_ids (List.filter cb_required universe)) ∪ (list_to_set (block_ids selected) ∪ ∅) ⊆ P.
Proof.
  unfold starts, block_ids. split.
  - intros [H1 H2] i. rewrite !elem_of_union, !elem_of_list_to_set.
    intros [(b & -> & [Hb Hr]%elem_of_filter_bool)%list_elem_of_fmap|[(b & -> & Hb)%list_elem_of_fmap|Hi]].
    + by apply H2.
    + by apply H1.
    + set_solver.
  - intros H0. split.
    + intros b Hb. apply H0, elem_of_union_r, elem_of_union_l, elem_of_list_to_set. by apply block_ids_elem.
    + intros b Hb Hr. apply H0, elem_of_union_l, elem_of_list_to_set. apply block_ids_elem.
      by apply elem_of_filter_bool.
Qed.
Lemma no_duplicates_spec {A} `{EqDecision A} (l : list A) : no_duplicates l = true <-> NoDup l.
Proof. apply bool_decide_eq_true. Qed.

(** What the closure computes, with the selected ids in hand. *)
Lemma close_ids_spec selected universe max_blocks :
  match close_dependency_closure selected universe max_blocks with
  | Ok blocks => exists s, blocks = active_blocks universe s /\ 1 <= max_blocks /\ NoDup (block_ids universe)
      /\ (forall b, b ∈ selected -> cb_block_id b ∈ block_ids universe)
      /\ s ⊆ list_to_set (block_ids universe) /\ closed_under universe s /\ starts selected universe s
      /\ set_len s <= max_blocks
      /\ forall P, closed_under universe P -> starts selected universe P -> s ⊆ P
  | Err MAX_BLOCKS_NOT_POSITIVE => max_blocks < 1
  | Err DEPENDENCY_CLOSURE_DUPLICATE_BLOCK => 1 <= max_blocks /\ ~ NoDup (block_ids universe)
  | Err DEPENDENCY_CLOSURE_UNKNOWN_BLOCK => 1 <= max_blocks /\ NoDup (block_ids universe)
      /\ exists b, b ∈ selected /\ cb_block_id b ∉ block_ids universe
  | Err DEPENDENCY_CLOSURE_CAPACITY_EXCEEDED => 1 <= max_blocks /\ NoDup (block_ids universe)
      /\ (forall b, b ∈ selected -> cb_block_id b ∈ block_ids universe)
      /\ forall P, closed_under universe P -> starts selected universe P -> max_blocks < set_len P
  | Err _ => False
  end.
Proof.
  unfold close_dependency_closure, raise_if. destruct (max_blocks <? 1) eqn:Em; bool_hyps; [done|].
  destruct (no_duplicates _) eqn:Ed; cbn [negb].
  2:{ split; [done|]. intros Hn%no_duplicates_spec. congruence. }
  apply no_duplicates_spec in Ed. pose proof (select_ids_spec (list_to_set (block_ids universe)) selected ∅) as Hsel.
  destruct (select_ids _ _ _) as [ids|e]; cbn [mbind result_bind].
  2:{ destruct Hsel as [-> (b & Hb & Hn)]. rewrite elem_of_list_to_set in Hn. split_and!; eauto. }
  destruct Hsel as [-> Hk]. set (s0 := list_to_set (block_ids (List.filter _ _)) ∪ _).
  assert (forall b, b ∈ selected -> cb_block_id b ∈ block_ids universe) as Hknown.
  { intros b Hb. specialize (Hk b Hb). by rewrite elem_of_list_to_set in Hk. }
  destruct (max_blocks <? set_len s0) eqn:Es; bool_hyps.
  { split_and!; [done..|]. intros P _ Hst%starts_subset%set_len_mono. unfold s0 in Es. lia. }
  assert (s0 ⊆ list_to_set (block_ids universe)) as Hs0.
  { apply starts_subset. split; intros b Hb; rewrite elem_of_list_to_set; [by apply Hknown|].
    intros _. by apply block_ids_elem. }
  pose proof (close_loop_least universe max_blocks Ed (S (length universe)) s0 Hs0) as Hloop.
  destruct (close_loop _ _ _ _) as [s|e]; cbn [mbind result_bind].
  - destruct Hloop as (H1 & H2 & H3 & H4 & H5); [unfold set_len; lia|done|].
    exists s. split_and!; [done..| |done|]; [by apply starts_subset|].
    intros P HP Hst%starts_subset. by apply H5.
  - destruct Hloop as [-> H1]; [unfold set_len; lia|done|]. split_and!; [done..|].
    intros P HP Hst%starts_subset. by apply H1.
Qed.

(** ** Properties of the closure *)

Definition ids_of (blocks : list CandidateBlock) : gset string := list_to_set (block_ids blocks).
#[global] Arguments ids_of : simpl never.

Lemma ids_of_active universe s : s ⊆ ids_of universe -> ids_of (active_blocks universe s) = s.
Proof.
  intros Hs. apply set_eq. intros i. unfold ids_of. rewrite elem_of_list_to_set. split.
  - intros (b & -> & Hb)%list_elem_of_fmap. by apply active_elem in Hb as [_ Hb].
  - intros Hi. pose proof (Hs _ Hi) as Hk. apply elem_of_list_to_set, list_elem_of_fmap in Hk as (b & -> & Hb).
    apply block_ids_elem. by apply active_elem.
Qed.

(** C29. The closure is the least closed selection: on success it is the blocks, in
    the universe's order, of the smallest set that has the selected and the
    required blocks and every companion of its blocks, and it fits the bound;
    the capacity error means that no such set fits; every other error is the
    caller's, and the loop always ends. *)
Theorem close_dependency_closure_least (selected universe : list CandidateBlock) (max_blocks : Z) :
  match close_dependency_closure selected universe max_blocks with
  | Ok blocks =>
      blocks = active_blocks universe (ids_of blocks) /\ len blocks <= max_blocks
      /\ closed_under universe (ids_of blocks) /\ starts selected universe (ids_of blocks)
      /\ forall P, closed_under universe P -> starts selected universe P -> ids_of blocks ⊆ P
  | Err MAX_BLOCKS_NOT_POSITIVE => max_blocks < 1
  | Err DEPENDENCY_CLOSURE_DUPLICATE_BLOCK => ~ NoDup (block_ids universe)
  | Err DEPENDENCY_CLOSURE_UNKNOWN_BLOCK => exists b, b ∈ selected /\ cb_block_id b ∉ block_ids universe
  | Err DEPENDENCY_CLOSURE_CAPACITY_EXCEEDED =>
      forall P, closed_under universe P -> starts selected universe P -> max_blocks < set_len P
  | Err _ => False
  end.
Proof.
  pose proof (close_ids_spec selected universe max_blocks) as H0.
  destruct (close_dependency_closure _ _ _) as [blocks|e]; [|destruct e; tauto].
  destruct H0 as (s & -> & _ & Hn & _ & Hs & Hc & Hst & Hl & Hleast). rewrite (ids_of_active _ _ Hs).
  split_and!; [done| |done..]. by rewrite active_len.
Qed.

(** What a validated pack is. *)
Lemma validated_closure (packed universe : list CandidateBlock) (max_blocks : Z) :
  validate_dependency_closure packed universe max_blocks = true <->
    1 <= max_blocks /\ NoDup (block_ids universe)
    /\ block_ids packed = block_ids (active_blocks universe (ids_of packed))
    /\ closed_under universe (ids_of packed)
    /\ (forall b, b ∈ universe -> cb_required b = true -> cb_block_id b ∈ ids_of packed)
    /\ len packed <= max_blocks.
Proof.
  unfold validate_dependency_closure. pose proof (close_ids_spec packed universe max_blocks) as H0. split.
  - destruct (close_dependency_closure _ _ _) as [blocks|e]; [|done]. intros E. bool_hyps.
    destruct H0 as (s & -> & Hm & Hn & _ & Hs & Hc & [_ Hst] & Hl & _).
    assert (ids_of packed = s) as Ei by by unfold ids_of; rewrite E; apply ids_of_active.
    rewrite Ei. split_and!; [done..|]. rewrite <- (active_len universe Hn s Hs) in Hl. unfold len in *.
    rewrite <- (length_map cb_block_id packed). unfold block_ids in E. by rewrite E, length_map.
  - intros (Hm & Hn & E & Hc & Hst & Hl).
    assert (starts packed universe (ids_of packed)) as Hstart.
    { split; [|done]. intros b Hb. unfold ids_of. rewrite elem_of_list_to_set. by apply block_ids_elem. }
    assert (forall b, b ∈ packed -> cb_block_id b ∈ block_ids universe) as Hknown.
    { intros b Hb%block_ids_elem. rewrite E in Hb. apply list_elem_of_fmap in Hb as (c & -> & Hc').
      apply active_elem in Hc' as [Hc' _]. by apply block_ids_elem. }
    assert (ids_of packed ⊆ ids_of universe) as Hsub.
    { intros i. unfold ids_of. rewrite !elem_of_list_to_set. intros (b & -> & Hb)%list_elem_of_fmap. by apply Hknown. }
    destruct (close_dependency_closure _ _ _) as [blocks|e].
    + destruct H0 as (s & -> & _ & _ & _ & Hs & _ & [Hs1 _] & _ & Hleast). apply bool_decide_eq_true.
      assert (s = ids_of packed) as ->; [|done]. apply set_eq. intros i. split; [by apply Hleast|].
      unfold ids_of. rewrite elem_of_list_to_set. intros (b & -> & Hb)%list_elem_of_fmap. by apply Hs1.
    + exfalso. destruct e; try tauto.
      * destruct H0 as (_ & _ & b & Hb & Hno). by apply Hno, Hknown.
      * destruct H0 as (_ & _ & _ & Hcap). specialize (Hcap _ Hc Hstart).
        rewrite <- (active_len universe Hn _ Hsub) in Hcap. unfold len in *.
        rewrite <- (length_map cb_block_id packed) in Hl. unfold block_ids in E. rewrite E, length_map in Hl. lia.
      * lia.
Qed.

(** A pack is accepted exactly when it is the universe's blocks with its ids in
    the universe's order, has every required block and every companion of its
    blocks, and fits the bound. *)
Theorem validate_dependency_closure_correct (packed universe : list CandidateBlock) (max_blocks : Z) :
  validate_dependency_closure packed universe max_blocks = true <->
    1 <= max_blocks /\ NoDup (block_ids universe)
    /\ block_ids packed = block_ids (active_blocks universe (ids_of packed))
    /\ closed_under universe (ids_of packed)
    /\ (forall b, b ∈ universe -> cb_required b = true -> cb_block_id b ∈ ids_of packed)
    /\ len packed <= max_blocks.
Proof. apply validated_closure. Qed.

(** ** Lemmas: components *)

Lemma companions_sym a b : _companions a b = _companions b a.
Proof.
  unfold _companions. rewrite (orb_comm (eqb_of (cb_kind a) _)). destruct (_ || _); [|done].
  assert (shares_event a b = shares_event b a) as ->.
  { apply eq_true_iff_eq. unfold shares_event. rewrite !existsb_true_iff.
    split; intros (e & He & Hx); exists e; bool_hyps; by rewrite bool_decide_eq_true. }
  f_equal. unfold eqb_of. destruct (decide (cb_capsule_id a = cb_capsule_id b)) as [E|E].
  - by rewrite E.
  - rewrite !bool_decide_eq_false_2 by congruence. by rewrite !andb_false_r.
Qed.

Section components.
Variable candidates : list CandidateBlock.

(** Companions among the candidates, by index and by block. *)
Definition adjacent (i j : nat) : Prop := companion_indexes candidates i j = true.
Definition companion_in (a b : CandidateBlock) : Prop := a ∈ candidates /\ b ∈ candidates /\ _companions a b = true.
(** The blocks of one structural component. *)
Definition linked : CandidateBlock -> CandidateBlock -> Prop := rtc companion_in.

Lemma adjacent_sym i j : adjacent i j -> adjacent j i.
Proof.
  unfold adjacent, companion_indexes. destruct (candidates !! i), (candidates !! j); try done.
  by rewrite companions_sym.
Qed.
Definition adjacent_closed (s : list nat) : Prop := forall i j, i ∈ s -> adjacent i j -> j ∈ s.
Definition without (s comp : list nat) : list nat := List.filter (fun i => negb (bool_decide (i ∈ comp))) s.
Lemma without_elem s comp i : i ∈ without s comp <-> i ∈ s /\ i ∉ comp.
Proof. unfold without. by rewrite elem_of_filter_bool, negb_true_iff, bool_decide_eq_false. Qed.
Lemma NoDup_filter_bool {A} (p : A -> bool) (l : list A) : NoDup l -> NoDup (List.filter p l).
Proof.
  induction l as [|x l IH]; [done|]. intros [Hx Hl]%NoDup_cons. cbn. destruct (p x); [|by apply IH].
  constructor; [|by apply IH]. by intros [? _]%elem_of_filter_bool.
Qed.
Lemma without_cons s comp index :
  List.filter (fun other => negb (Nat.eqb other index)) (without s comp) = without s (index :: comp).
Proof.
  unfold without. induction s as [|x s IH]; [done|]. cbn.
  destruct (Nat.eqb x index) eqn:E.
  - apply Nat.eqb_eq in E as ->. rewrite (bool_decide_eq_true_2 (index ∈ index :: comp)) by by left.
    destruct (bool_decide (index ∈ comp)); cbn; [done|]. by rewrite Nat.eqb_refl.
  - apply Nat.eqb_neq in E. destruct (decide (x ∈ comp)) as [Hx|Hx].
    + rewrite !bool_decide_eq_true_2 by (done || by right). done.
    + rewrite !bool_decide_eq_false_2; [|by intros [|]%elem_of_cons|done]. cbn.
      apply Nat.eqb_neq in E. by rewrite E, <- IH.
Qed.
Lemma filter_length_lt (l : list nat) index : index ∈ l ->
  (length (List.filter (fun other => negb (Nat.eqb other index)) l) < length l)%nat.
Proof.
  assert (forall l : list nat, length (List.filter (fun other => negb (Nat.eqb other index)) l) <= length l)%nat as Hle.
  { intros m. induction m as [|y m IHm]; [done|]. cbn. destruct (negb _); cbn; lia. }
  induction l as [|x l IH]; [by intros ?%elem_of_nil|]. intros [->|Hx]%elem_of_cons; cbn.
  - rewrite Nat.eqb_refl. cbn. specialize (Hle l). lia.
  - specialize (IH Hx). destruct (negb _); cbn; lia.
Qed.

Lemma elem_of_rev {A} (l : list A) x : x ∈ rev l <-> x ∈ l.
Proof. rewrite !list_elem_of_In. symmetry. apply in_rev. Qed.
Lemma elem_of_rev_1 {A} (l : list A) x : x ∈ rev l -> x ∈ l.
Proof. apply elem_of_rev. Qed.
(** One run of the inner loop from [start], among the still unvisited [s]. *)
Lemma component_ok s start fuel : forall pending comp,
  NoDup s -> (length s <= length candidates)%nat -> adjacent_closed s ->
  NoDup comp -> comp ⊆ s -> pending ⊆ s ->
  (forall i, i ∈ comp \/ i ∈ pending -> rtc adjacent start i) ->
  (forall i j, i ∈ comp -> adjacent i j -> j ∈ comp \/ j ∈ pending) ->
  start ∈ comp \/ start ∈ pending ->
  (length (without s comp) * S (length candidates) + length pending < fuel)%nat ->
  exists comp', component candidates fuel pending comp (without s comp) = Some (comp', without s comp')
    /\ NoDup comp' /\ comp' ⊆ s /\ forall i, i ∈ comp' <-> rtc adjacent start i.
Proof.
  induction fuel as [|fuel IH]; intros pending comp Hs Hlen Hcl Hn Hsub Hpend Hreach Hadj Hst Hf; [lia|].
  cbn [component]. destruct pending as [|index pending].
  { assert (forall x i, rtc adjacent x i -> x ∈ comp -> i ∈ comp) as Hclosed.
    { induction 1 as [|x y z Hxy _ IHi]; [done|]. intros Hx. apply IHi.
      by destruct (Hadj x y Hx Hxy) as [|?%elem_of_nil]. }
    exists comp. split_and!; [done..|]. intros i. split; [intros Hi; apply Hreach; by left|].
    intros Hi. apply (Hclosed start); [done|]. by destruct Hst as [|?%elem_of_nil]. }
  destruct (bool_decide _) eqn:E; bool_hyps.
  { apply IH; try done.
    - set_solver.
    - intros i [Hi|Hi]; apply Hreach; [by left|right; by right].
    - intros i j Hi Hij. destruct (Hadj i j Hi Hij) as [|[->|]%elem_of_cons]; auto.
    - destruct Hst as [|[->|]%elem_of_cons]; auto.
    - cbn in Hf. lia. }
  rewrite without_cons. assert (index ∈ s) as Hi by set_solver.
  set (found := List.filter _ _).
  assert (forall j, j ∈ found <-> (j ∈ s /\ j ∉ index :: comp) /\ adjacent index j) as Hfound.
  { intros j. unfold found. by rewrite elem_of_filter_bool, without_elem. }
  assert (rtc adjacent start index) as Hri by (apply Hreach; right; by left).
  apply IH; try done.
  - by constructor.
  - set_solver.
  - intros j [Hj%elem_of_rev_1|Hj]%elem_of_app; [by apply Hfound in Hj as [[? _] _]|set_solver].
  - intros j [[->|Hj]%elem_of_cons|[Hj%elem_of_rev_1|Hj]%elem_of_app]; [done|apply Hreach; by left| |].
    + apply Hfound in Hj as [_ Hj]. by eapply rtc_r.
    + apply Hreach. right. by right.
  - intros i j Hi' Hij. destruct (decide (j ∈ index :: comp)) as [|Hno]; [by left|].
    apply elem_of_cons in Hi' as [->|Hi']; right; rewrite elem_of_app, elem_of_rev.
    + left. apply Hfound. split_and!; [by eapply Hcl|done|done].
    + right. destruct (Hadj i j Hi' Hij) as [Hj|[Hj|Hj]%elem_of_cons]; [|subst j|done]; exfalso; apply Hno;
        [by right|by left].
  - destruct Hst as [|[->|Hst]%elem_of_cons]; [left; by right|left; by left|].
    right. apply elem_of_app. by right.
  - assert (index ∈ without s comp) as Hw by by apply without_elem.
    apply filter_length_lt in Hw. rewrite without_cons in Hw.
    assert (length found <= length (without s (index :: comp)))%nat by apply List.filter_length_le.
    assert (length (without s (index :: comp)) <= length s)%nat by apply List.filter_length_le.
    rewrite length_app, length_rev. cbn in Hf. nia.
Qed.

(** The component of a start among the unvisited, and what stays unvisited. *)
Lemma component_total s start : NoDup s -> (length s <= length candidates)%nat -> adjacent_closed s -> start ∈ s ->
  exists c, component candidates (component_fuel candidates) [start] [] s = Some (c, without s c)
    /\ NoDup c /\ c ⊆ s /\ start ∈ c /\ forall i, i ∈ c <-> rtc adjacent start i.
Proof.
  intros Hs Hl Hc Hst. assert (without s [] = s) as E0.
  { unfold without. clear. induction s as [|x s IH]; [done|]. cbn. by rewrite IH. }
  destruct (component_ok s start (component_fuel candidates) [start] []) as (c & E & Hn & Hsub & Hiff); try done.
  - constructor.
  - set_solver.
  - intros i ->%list_elem_of_singleton. done.
  - intros i [Hi%elem_of_nil|Hi%list_elem_of_singleton]; [done|]. by subst.
  - intros i j Hi%elem_of_nil. done.
  - right. by left.
  - rewrite E0. unfold component_fuel. cbn [length]. nia.
  - rewrite E0 in E. exists c. split_and!; try done. by apply Hiff.
Qed.

Lemma components_ok fuel : forall s,
  NoDup s -> (length s <= length candidates)%nat -> adjacent_closed s -> (length s <= fuel)%nat ->
  exists cs, components candidates fuel s = Some (map (group_of candidates) cs) /\ concat cs ≡ₚ s
    /\ forall c, c ∈ cs -> NoDup c /\ c <> [] /\ forall i j, i ∈ c -> j ∈ c <-> rtc adjacent i j.
Proof.
  induction fuel as [|fuel IH]; intros s Hs Hl Hc Hf.
  { destruct s; [|cbn in Hf; lia]. exists []. split_and!; [done..|]. by intros c ?%elem_of_nil. }
  destruct s as [|first rest] eqn:Es.
  { exists []. split_and!; [done..|]. by intros c ?%elem_of_nil. }
  rewrite <- Es in *. assert (first ∈ s) as Hfirst by (rewrite Es; by left).
  destruct (component_total s first Hs Hl Hc Hfirst) as (c & E & Hn & Hsub & Hin & Hiff).
  assert (components candidates (S fuel) s =
    rest ← components candidates fuel (without s c); Some (group_of candidates c :: rest)) as Estep.
  { rewrite Es in E |- *. cbn [components]. by rewrite E. }
  assert (length (without s c) < length s)%nat as Hlt.
  { pose proof (List.filter_length_le (fun i => negb (bool_decide (i ∈ c))) s). unfold without.
    destruct (decide (length (List.filter (fun i => negb (bool_decide (i ∈ c))) s) = length s)) as [El|]; [|lia].
    exfalso. apply List.filter_length_forallb in El. rewrite forallb_true_iff in El.
    specialize (El first Hfirst). bool_hyps. done. }
  assert (forall i j, rtc adjacent i j -> rtc adjacent j i) as Hsym.
  { induction 1 as [|x y z Hxy _ IHr]; [done|]. eapply rtc_r; [exact IHr|by apply adjacent_sym]. }
  destruct (IH (without s c)) as (cs & Ecs & Hp & Hcs).
  - by apply NoDup_filter_bool.
  - lia.
  - intros i j [Hi Hni]%without_elem Hij. apply without_elem. split; [by eapply Hc|]. intros Hj. apply Hni, Hiff.
    apply Hiff in Hj. eapply rtc_r; [exact Hj|by apply adjacent_sym].
  - lia.
  - exists (c :: cs). rewrite Estep, Ecs. split_and!; [done| |].
    + cbn. rewrite Hp. apply NoDup_Permutation.
      * apply NoDup_app. split_and!; [done| |by apply NoDup_filter_bool]. intros i Hi [_ ?]%without_elem. done.
      * done.
      * intros i. rewrite elem_of_app, without_elem.
        split; [intros [Hi|[Hi _]]; [by apply Hsub|done]|]. intros Hi. destruct (decide (i ∈ c)); [by left|by right].
    + intros c' [->|Hc']%elem_of_cons; [|by apply Hcs]. split_and!; [done|by intros ->; apply elem_of_nil in Hin|].
      intros i j Hi. apply Hiff in Hi. rewrite Hiff. split; intros Hj; [|by etrans].
      etrans; [by apply Hsym|done].
Qed.

(** ** Lemmas: from indexes to blocks *)

Lemma lookup_lt i b : candidates !! i = Some b -> (i < length candidates)%nat.
Proof. apply lookup_lt_Some. Qed.
Lemma linked_of_adjacent i j : rtc adjacent i j -> forall a b,
  candidates !! i = Some a -> candidates !! j = Some b -> linked a b.
Proof.
  induction 1 as [i|i k j Hik _ IH]; intros a b Ha Hb.
  - assert (a = b) as -> by congruence. done.
  - unfold adjacent, companion_indexes in Hik. rewrite Ha in Hik.
    destruct (candidates !! k) as [c|] eqn:Ec; [|done]. eapply rtc_l; [|by eapply IH].
    split_and!; [by eapply list_elem_of_lookup_2..|done].
Qed.
Lemma adjacent_of_linked a b : linked a b -> NoDup candidates -> forall i j,
  candidates !! i = Some a -> candidates !! j = Some b -> rtc adjacent i j.
Proof.
  intros Hl Hn. induction Hl as [a|a c b (Ha & Hc & Hac) _ IH]; intros i j Hi Hj.
  - assert (i = j) as -> by by eapply NoDup_lookup. done.
  - apply list_elem_of_lookup in Hc as [k Hk]. eapply rtc_l; [|by eapply IH].
    unfold adjacent, companion_indexes. by rewrite Hi, Hk.
Qed.
Lemma omap_perm {A B} (f : A -> option B) (l m : list A) : l ≡ₚ m -> omap f l ≡ₚ omap f m.
Proof. intros E. by rewrite E. Qed.
Lemma group_elem c b : b ∈ group_of candidates c <-> exists i, i ∈ c /\ candidates !! i = Some b.
Proof.
  unfold group_of. rewrite list_elem_of_omap. split; intros (i & Hi & E); exists i; (split; [|done]);
    by apply (elem_of_order_by Z.of_nat).
Qed.
Lemma groups_perm cs : concat (map (group_of candidates) cs) ≡ₚ omap (fun i => candidates !! i) (concat cs).
Proof.
  induction cs as [|c cs IH]; [done|]. cbn. rewrite IH, omap_app. unfold group_of. by rewrite (order_by_perm Z.of_nat c).
Qed.
Lemma omap_lookup_seq (l : list CandidateBlock) : forall pre,
  omap (fun i => (pre ++ l) !! i) (seq (length pre) (length l)) = l.
Proof.
  induction l as [|x l IH]; intros pre; [done|]. cbn [length seq omap list_omap].
  rewrite list_lookup_middle by done. f_equal. specialize (IH (pre ++ [x])).
  rewrite <- app_assoc, length_app, Nat.add_comm in IH. exact IH.
Qed.

(** Index lists in order select sublists. *)
Lemma insert_by_sorted key x (l : list nat) : Sorted (fun a b => key a <= key b)%Z l ->
  Sorted (fun a b => key a <= key b)%Z (insert_by key x l).
Proof.
  induction l as [|y l IH]; cbn; [by repeat constructor|]. intros [Hs Hh]%Sorted_inv.
  destruct (key x <=? key y) eqn:E; bool_hyps; [by repeat constructor|].
  constructor; [by apply IH|]. destruct l as [|z l]; cbn; [constructor; lia|].
  inversion Hh; subst. destruct (key x <=? key z); constructor; lia.
Qed.
Lemma order_by_ordered key (l : list nat) : Sorted (fun a b => key a <= key b)%Z (order_by key l).
Proof. induction l as [|x l IH]; cbn; [constructor|by apply insert_by_sorted]. Qed.
Lemma omap_sublist (l : list nat) : forall k, StronglySorted (fun a b => (a < b)%nat) l ->
  (forall i, i ∈ l -> (k <= i)%nat) -> omap (fun i => candidates !! i) l `sublist_of` drop k candidates.
Proof.
  induction l as [|i l IH]; intros k Hs Hk; [apply sublist_nil_l|].
  apply StronglySorted_inv in Hs as [Hs Hall]. rewrite List.Forall_forall in Hall.
  assert (omap (fun i => candidates !! i) l `sublist_of` drop (S i) candidates) as Hsub.
  { apply IH; [done|]. intros j Hj%list_elem_of_In. specialize (Hall j Hj). lia. }
  assert (drop i candidates `sublist_of` drop k candidates) as Hdrop.
  { specialize (Hk i (list_elem_of_here _ _)). replace i with (k + (i - k))%nat by lia.
    rewrite <- drop_drop. apply sublist_drop. }
  cbn. destruct (candidates !! i) as [b|] eqn:E.
  - etrans; [|exact Hdrop]. rewrite (drop_S _ _ _ E). by apply sublist_skip.
  - etrans; [exact Hsub|]. etrans; [|exact Hdrop]. rewrite <- (Nat.add_1_r i), <- drop_drop. apply sublist_drop.
Qed.
Lemma group_sublist c : NoDup c -> group_of candidates c `sublist_of` candidates.
Proof.
  intros Hn. unfold group_of. apply (omap_sublist (order_by Z.of_nat c) 0); [|intros; lia].
  pose proof (order_by_ordered Z.of_nat c) as Hs. rewrite <- (order_by_perm Z.of_nat c) in Hn.
  apply Sorted_StronglySorted in Hs; [|intros x y z ? ?; lia].
  induction Hs as [|x l Hs IH Hall]; [constructor|]. apply NoDup_cons in Hn as [Hx Hn].
  constructor; [by apply IH|]. rewrite List.Forall_forall in *. intros y Hy. specialize (Hall y Hy).
  assert (x <> y) by (intros ->; by apply Hx, list_elem_of_In). lia.
Qed.
End components.

Lemma components_run candidates :
  exists cs, components candidates (length candidates) (seq 0 (length candidates))
      = Some (map (group_of candidates) cs) /\ concat cs ≡ₚ seq 0 (length candidates)
    /\ forall c, c ∈ cs -> NoDup c /\ c <> [] /\ forall i j, i ∈ c -> j ∈ c <-> rtc (adjacent candidates) i j.
Proof.
  apply components_ok; [apply NoDup_seq|by rewrite length_seq| |by rewrite length_seq].
  intros i j _ Hij. unfold adjacent, companion_indexes in Hij. apply elem_of_seq.
  destruct (candidates !! i), (candidates !! j) eqn:Ej; try done. apply lookup_lt_Some in Ej. lia.
Qed.
(** What the groups are, for the theorem and for the budget. *)
Lemma dependency_groups_ok candidates groups : dependency_groups candidates = Ok groups ->
  NoDup (block_ids candidates) /\ concat groups ≡ₚ candidates
  /\ forall g, g ∈ groups -> g <> [] /\ g `sublist_of` candidates
       /\ forall a b, a ∈ g -> b ∈ candidates -> b ∈ g <-> linked candidates a b.
Proof.
  unfold dependency_groups. intros [Hd E]%raise_if_ok. bool_hyps. apply no_duplicates_spec in Hd.
  assert (NoDup candidates) as Hn by by eapply NoDup_fmap_1.
  destruct (components_run candidates) as (cs & Ecs & Hp & Hcs).
  rewrite Ecs in E. injection E as <-. split_and!; [done| |].
  - rewrite groups_perm, (omap_perm _ _ _ Hp). apply reflexive_eq. exact (omap_lookup_seq candidates []).
  - intros g (c & -> & Hc)%list_elem_of_fmap. destruct (Hcs c Hc) as (Hnc & Hne & Hiff).
    assert (forall i, i ∈ c -> exists b, candidates !! i = Some b) as Hbound.
    { intros i Hi. apply lookup_lt_is_Some_2.
      assert (i ∈ concat cs) as Hin by (apply list_elem_of_In, in_concat; exists c; by rewrite <- !list_elem_of_In).
      rewrite Hp in Hin. apply elem_of_seq in Hin. lia. }
    split_and!; [| by apply group_sublist|].
    + destruct c as [|i c]; [done|]. destruct (Hbound i) as [b Hb]; [by left|].
      intros E. assert (b ∈ group_of candidates (i :: c)) as Hin by (apply group_elem; exists i; split; [by left|done]).
      rewrite E in Hin. by apply elem_of_nil in Hin.
    + intros a b (i & Hi & Ha)%group_elem Hb. apply list_elem_of_lookup in Hb as [j Hj]. split.
      * intros (j' & Hj' & Eb)%group_elem. eapply linked_of_adjacent; [by apply (Hiff i j' Hi)|done..].
      * intros Hl. apply group_elem. exists j. split; [|done]. apply (Hiff i j Hi). by eapply adjacent_of_linked.
Qed.
Lemma dependency_groups_total candidates : NoDup (block_ids candidates) ->
  exists groups, dependency_groups candidates = Ok groups.
Proof.
  intros Hd%no_duplicates_spec. unfold dependency_groups. rewrite Hd. cbn [negb raise_if].
  destruct (components_run candidates) as (cs & Ecs & _).
  rewrite Ecs. by eexists.
Qed.

(** The dependency groups are the connected components: every candidate is in
    exactly one group, two candidates share a group exactly when a chain of
    companions links them, each group keeps the candidates' order, and the only
    refusal is a repeated block id (the search always ends). *)
Theorem dependency_groups_components (candidates : list CandidateBlock) :
  match dependency_groups candidates with
  | Ok groups => NoDup (block_ids candidates) /\ concat groups ≡ₚ candidates
      /\ forall g, g ∈ groups -> g <> [] /\ g `sublist_of` candidates
           /\ forall a b, a ∈ g -> b ∈ candidates -> b ∈ g <-> linked candidates a b
  | Err e => e = DEPENDENCY_GROUP_DUPLICATE_BLOCK /\ ~ NoDup (block_ids candidates)
  end.
Proof.
  destruct (dependency_groups candidates) as [groups|e] eqn:E; [by apply dependency_groups_ok|].
  destruct (decide (NoDup (block_ids candidates))) as [Hn|Hn].
  - destruct (dependency_groups_total _ Hn) as [groups E']. congruence.
  - split; [|done]. unfold dependency_groups, raise_if in E.
    destruct (no_duplicates _) eqn:Ed; [by apply no_duplicates_spec in Ed|]. by injection E as <-.
Qed.
