(* ===== verification/Rendering.v ===== *)
(** [compaction/rendering.py]: the text a Capsule contributes to a prompt. *)
From S2P Require Import Prelude PyString PyFloat Domain Validation.
Open Scope string_scope.
Open Scope list_scope.
Open Scope Z_scope.

Definition sources (ids : list string) : string := "[source:" +:+ py_join "," ids +:+ "]".
Definition claim_active (c : CapsuleClaim) : bool := eqb_of (cl_status c) SEM_ACTIVE.
Definition claim_lines (label : string) (group : list CapsuleClaim) : list string :=
  map (fun item => label +:+ ": " +:+ cl_text item +:+ " " +:+ sources (cl_source_event_ids item))
      (List.filter claim_active group).
Definition decision_lines (item : Decision_) : list string :=
  if negb (eqb_of (de_status item) SEM_ACTIVE) then [] else
  ["DECISION: " +:+ de_text item +:+ " " +:+ sources (de_source_event_ids item)]
  ++ (if de_rationale item ==? "" then [] else ["RATIONALE: " +:+ de_rationale item])
  ++ map (fun value => "ALTERNATIVE: " +:+ value) (de_alternatives item)
  ++ (if de_rejected_because item ==? "" then []
      else ["REJECTED_BECAUSE: " +:+ de_rejected_because item]).
(** [anchor_type.value.upper()] *)
Definition anchor_label (t : AnchorType) : string :=
  match t with
  | ANCHOR_NAME => "NAME" | ANCHOR_NUMBER => "NUMBER" | ANCHOR_DATE => "DATE"
  | ANCHOR_PATH => "PATH" | ANCHOR_URL => "URL" | ANCHOR_CODE => "CODE"
  | ANCHOR_FORMULA => "FORMULA" | ANCHOR_PROMPT => "PROMPT" | ANCHOR_CONSTRAINT => "CONSTRAINT"
  | ANCHOR_COMMITMENT => "COMMITMENT" | ANCHOR_MANUAL => "MANUAL" | ANCHOR_OTHER => "OTHER"
  end.
Definition entity_line (item : Entity) : string :=
  "ENTITY: " +:+ en_canonical_name item +:+ " (" +:+ en_kind item +:+ ") "
  +:+ sources (en_source_event_ids item).
Definition anchor_line (item : CapsuleAnchor) : string :=
  "EXACT_" +:+ anchor_label (an_anchor_type item) +:+ ": " +:+ an_exact_text item +:+ " "
  +:+ sources (an_source_event_ids item).

Definition capsule_lines (capsule : ContextCapsuleEnvelope) : list string :=
  ["[CAPSULE " +:+ cap_capsule_id capsule +:+ " EVENTS " +:+ show_Z (cap_covered_event_start capsule)
   +:+ "-" +:+ show_Z (cap_covered_event_end capsule) +:+ "]"]
  ++ claim_lines "GOAL" (cap_goals capsule)
  ++ claim_lines "CONSTRAINT" (cap_constraints capsule)
  ++ claim_lines "PROGRESS" (cap_progress capsule)
  ++ claim_lines "OPEN_LOOP" (cap_open_loops capsule)
  ++ claim_lines "PREFERENCE" (cap_preferences capsule)
  ++ claim_lines "EMOTIONAL_CONTEXT" (cap_emotional_context capsule)
  ++ flat_map decision_lines (cap_decisions capsule)
  ++ map entity_line (cap_entities capsule)
  ++ map anchor_line (List.filter anchor_is_active (cap_exact_anchors capsule)).
Definition render_capsule (capsule : ContextCapsuleEnvelope) : string :=
  py_join newline (capsule_lines capsule).

Example render_example : render_capsule (example_capsule "capsule-1" 2)
  = "[CAPSULE capsule-1 EVENTS 1-2]" +:+ newline
    +:+ "GOAL: copy the data [source:event-1]" +:+ newline
    +:+ anchor_line example_anchor.
Proof. vm_compute. reflexivity. Qed.
