(* ===== verification/Records.v ===== *)
(** Reorganization audit records: [ReorganizationRecord] and
    [canonicalize_reorganization_records] of [reorganization.py]. *)
From S2P Require Import Prelude PyString PyFloat Domain Validation PyJson Crypto Store.
Open Scope string_scope.
Open Scope list_scope.
Open Scope Z_scope.

Record ReorganizationRecord := {
  ro_kind : string;
  ro_item_id : string;
  ro_source_capsule_id : string;
  ro_status : ReorganizationStatus;
  ro_before_tokens : Z;
  ro_after_tokens : Z;
  ro_required : bool;
}.
#[export] Instance ReorganizationRecord_eq_dec : EqDecision ReorganizationRecord.
Proof. solve_decision. Defined.

(** [ReorganizationInvariantError] is the only error of the canonicalization. *)
Inductive record_error := ReorganizationInvariantError.

Definition source_item_key (r : ReorganizationRecord) : string * string * string :=
  (ro_source_capsule_id r, ro_kind r, ro_item_id r).

(** The checks of one record, before the duplicate test. *)
Definition record_ok (r : ReorganizationRecord) : bool :=
  negb (is_blank (ro_kind r)) && negb (is_blank (ro_item_id r))
  && negb (is_blank (ro_source_capsule_id r))
  && (0 <=? ro_before_tokens r) && (0 <=? ro_after_tokens r)
  && (negb (ro_required r) || eqb_of (ro_status r) RETAINED).

Fixpoint canonicalize_from (source_item_keys : list (string * string * string))
    (records : list ReorganizationRecord) : result record_error (list ReorganizationRecord) :=
  match records with
  | [] => Ok []
  | record :: rest =>
      raise ReorganizationInvariantError when (negb (record_ok record));;
      raise ReorganizationInvariantError when
        (bool_decide (source_item_key record ∈ source_item_keys));;
      canonical_records ← canonicalize_from (source_item_key record :: source_item_keys) rest;
      Ok (record :: canonical_records)
  end.
Definition canonicalize_reorganization_records (records : list ReorganizationRecord)
    : result record_error (list ReorganizationRecord) := canonicalize_from [] records.

(** ** Lemmas *)

Lemma canonicalize_from_ok keys records out : canonicalize_from keys records = Ok out <->
  out = records /\ forallb record_ok records = true
  /\ NoDup (map source_item_key records)
  /\ (forall r, r ∈ records -> source_item_key r ∉ keys).
Proof.
  revert keys out. induction records as [|r rs IH]; intros keys out; cbn [canonicalize_from].
  - split; [intros [= <-]|by intros [-> _]]. split_and!; try done; [constructor|].
    intros r Hr. by apply elem_of_nil in Hr.
  - rewrite raise_if_ok, negb_false_iff, raise_if_ok, bool_decide_eq_false. cbn [map forallb].
    rewrite NoDup_cons, andb_true_iff. split.
    + intros (Hok & Hkey & (rest & (-> & Hall & Hnd & Hfresh)%IH & [= <-])%result_bind_ok).
      split_and!; try done.
      * intros (y & E & Hy)%list_elem_of_fmap. apply (Hfresh y Hy). rewrite E. by left.
      * intros y [->|Hy]%elem_of_cons; [done|]. intros Hin. apply (Hfresh y Hy). by right.
    + intros (-> & [Hok Hall] & [Hnin Hnd] & Hfresh). split; [done|].
      split; [apply Hfresh; by left|].
      assert (canonicalize_from (source_item_key r :: keys) rs = Ok rs) as ->; [|done].
      apply IH. split_and!; try done. intros y Hy [E|Hk]%elem_of_cons.
      * apply Hnin. rewrite <- E. apply list_elem_of_fmap. eauto.
      * apply (Hfresh y); [by right|done].
Qed.

(** The canonical records are the input, when every record is well formed and
    no source item is named twice. *)
Lemma canonicalize_ok records out : canonicalize_reorganization_records records = Ok out <->
  out = records /\ forallb record_ok records = true /\ NoDup (map source_item_key records).
Proof.
  unfold canonicalize_reorganization_records. rewrite canonicalize_from_ok.
  split; [tauto|]. intros (? & ? & ?). split_and!; try done. intros r _ Hr. by apply elem_of_nil in Hr.
Qed.
