(* ===== verification/Instances.v ===== *)
(** A concrete environment that satisfies [EnvironmentLaws]: models are dumped as
    JSON arrays of their fields and read back, session keys are read from their
    canonical JSON, and no fault is injected.  The witnesses of the storage
    components run on it. *)
From S2P Require Import Prelude PyString PyFloat Domain PyJson Crypto Store.
From Stdlib Require Import Ascii String SpecFloat.
From stdpp Require Import countable finite.
Open Scope string_scope.
Open Scope list_scope.
Open Scope Z_scope.

(** ** Countable enumerations *)

Definition enum_decode {A} (values : list A) (n : nat) : option A := values !! n.
(** An enumeration is countable by its position in the list of its values. *)
Definition enum_countable {A} `{EqDecision A} (values : list A)
    (index : A -> nat) (Hindex : forall x, values !! index x = Some x) : Countable A :=
  inj_countable index (fun n => values !! n) Hindex.

#[export] Instance CapsuleLevel_countable : Countable CapsuleLevel :=
  enum_countable [LEVEL_MICRO; LEVEL_EPISODE; LEVEL_TASK; LEVEL_GLOBAL]
    (fun x => match x with LEVEL_MICRO => 0 | LEVEL_EPISODE => 1 | LEVEL_TASK => 2 | LEVEL_GLOBAL => 3 end%nat)
    ltac:(by intros []).
#[export] Instance SemanticStatus_countable : Countable SemanticStatus :=
  enum_countable [SEM_ACTIVE; SEM_SUPERSEDED; SEM_RETRACTED; SEM_UNCERTAIN]
    (fun x => match x with SEM_ACTIVE => 0 | SEM_SUPERSEDED => 1 | SEM_RETRACTED => 2
              | SEM_UNCERTAIN => 3 end%nat)
    ltac:(by intros []).
#[export] Instance AnchorStatus_countable : Countable AnchorStatus :=
  enum_countable [ANCHOR_ACTIVE; ANCHOR_SUPERSEDED; ANCHOR_RETRACTED]
    (fun x => match x with ANCHOR_ACTIVE => 0 | ANCHOR_SUPERSEDED => 1 | ANCHOR_RETRACTED => 2 end%nat)
    ltac:(by intros []).
#[export] Instance AnchorType_countable : Countable AnchorType :=
  enum_countable [ANCHOR_NAME; ANCHOR_NUMBER; ANCHOR_DATE; ANCHOR_PATH; ANCHOR_URL; ANCHOR_CODE;
      ANCHOR_FORMULA; ANCHOR_PROMPT; ANCHOR_CONSTRAINT; ANCHOR_COMMITMENT; ANCHOR_MANUAL; ANCHOR_OTHER]
    (fun x => match x with ANCHOR_NAME => 0 | ANCHOR_NUMBER => 1 | ANCHOR_DATE => 2 | ANCHOR_PATH => 3
              | ANCHOR_URL => 4 | ANCHOR_CODE => 5 | ANCHOR_FORMULA => 6 | ANCHOR_PROMPT => 7
              | ANCHOR_CONSTRAINT => 8 | ANCHOR_COMMITMENT => 9 | ANCHOR_MANUAL => 10
              | ANCHOR_OTHER => 11 end%nat)
    ltac:(by intros []).
#[export] Instance SemanticAuditStatus_countable : Countable SemanticAuditStatus :=
  enum_countable [AUDIT_NOT_RUN; AUDIT_PASSED; AUDIT_FAILED]
    (fun x => match x with AUDIT_NOT_RUN => 0 | AUDIT_PASSED => 1 | AUDIT_FAILED => 2 end%nat)
    ltac:(by intros []).

#[export] Instance float_countable : Countable float := inj_countable
  (fun x => match x with
     | S754_zero s => [encode s] | S754_infinity s => [encode s; xH]
     | S754_nan => [] | S754_finite s m e => [encode s; m; encode e] end)
  (fun l => match l with
     | [s] => S754_zero <$> decode s | [s; _] => S754_infinity <$> decode s
     | [] => Some S754_nan
     | [s; m; e] => s' ← decode s; e' ← decode e; Some (S754_finite s' m e')
     | _ => None end)
  ltac:(by intros []; cbn -[encode decode]; rewrite ?decode_encode; cbn -[encode decode]).

(** ** Text of bits *)

Fixpoint bit_text (p : positive) : string :=
  match p with
  | xH => EmptyString
  | xO q => String "0"%char (bit_text q)
  | xI q => String "1"%char (bit_text q)
  end.
Fixpoint text_bits (s : string) : positive :=
  match s with
  | EmptyString => xH
  | String c r => if Ascii.eqb c "1"%char then xI (text_bits r) else xO (text_bits r)
  end.
Lemma text_bits_spec p : text_bits (bit_text p) = p.
Proof. induction p as [p IH|p IH|]; cbn; by rewrite ?IH. Qed.

(** ** Values as JSON *)

(** A reversible JSON form that [json_dumps] can print. *)
Class Coded (A : Type) := {
  to_json : A -> json;
  of_json : json -> option A;
  of_to_json : forall a, of_json (to_json a) = Some a;
  to_json_dumpable : forall a, dumpable (to_json a) = true }.

(** A countable value is the text of its code. *)
Definition coded_bits {A} `{Countable A} : Coded A.
Proof.
  refine {| to_json a := JStr (bit_text (encode a));
            of_json v := match v with JStr s => decode (text_bits s) | _ => None end |}.
  - intros a. by rewrite text_bits_spec, decode_encode.
  - done.
Defined.
#[export] Instance Z_coded : Coded Z := coded_bits.
#[export] Instance bool_coded : Coded bool := coded_bits.
#[export] Instance float_coded : Coded float := coded_bits.
#[export] Instance CapsuleLevel_coded : Coded CapsuleLevel := coded_bits.
#[export] Instance SemanticStatus_coded : Coded SemanticStatus := coded_bits.
#[export] Instance AnchorStatus_coded : Coded AnchorStatus := coded_bits.
#[export] Instance AnchorType_coded : Coded AnchorType := coded_bits.
#[export] Instance SemanticAuditStatus_coded : Coded SemanticAuditStatus := coded_bits.
#[export] Instance string_coded : Coded string.
Proof.
  refine {| to_json := JStr; of_json v := match v with JStr s => Some s | _ => None end |}; done.
Defined.
#[export] Instance list_coded {A} `{Coded A} : Coded (list A).
Proof.
  refine {| to_json l := JArr (map to_json l);
            of_json v := match v with JArr l => mapM of_json l | _ => None end |}.
  - intros l. induction l as [|x l IH]; [done|]. cbn. by rewrite of_to_json, IH.
  - intros l. cbn. apply forallb_true_iff. intros v (x & -> & _)%list_elem_of_fmap. apply to_json_dumpable.
Defined.
#[export] Instance option_coded {A} `{Coded A} : Coded (option A).
Proof.
  refine {| to_json o := match o with Some x => JArr [to_json x] | None => JNull end;
            of_json v := match v with JNull => Some None | JArr [x] => Some <$> of_json x | _ => None end |}.
  - intros [x|]; [|done]. by rewrite of_to_json.
  - intros [x|]; [|done]. cbn. by rewrite to_json_dumpable.
Defined.
(** A record is the array of its fields. *)
Definition coded_fields {A} (fields : A -> list json) (read : list json -> option A)
    (Hread : forall a, read (fields a) = Some a)
    (Hdump : forall a, forallb dumpable (fields a) = true) : Coded A :=
  {| to_json a := JArr (fields a); of_json v := match v with JArr l => read l | _ => None end;
     of_to_json := Hread; to_json_dumpable := Hdump |}.
Ltac fields_decode := intros []; cbn -[to_json of_json]; by rewrite ?of_to_json.
Ltac fields_dump := intros; cbn -[to_json]; by rewrite ?to_json_dumpable.

#[export] Instance SessionKey_coded : Coded SessionKey := coded_fields
  (fun k => [to_json (sk_platform_instance_id k); to_json (sk_message_type k);
     to_json (sk_session_id k); to_json (sk_group_id k); to_json (sk_user_id k);
     to_json (sk_conversation_id k); to_json (sk_persona_id k)])
  (fun l => match l with
     | [a; b; c; d; e; f; g] => a ← of_json a; b ← of_json b; c ← of_json c; d ← of_json d;
         e ← of_json e; f ← of_json f; g ← of_json g;
         Some {| sk_platform_instance_id := a; sk_message_type := b; sk_session_id := c;
                 sk_group_id := d; sk_user_id := e; sk_conversation_id := f; sk_persona_id := g |}
     | _ => None end)
  ltac:(fields_decode) ltac:(fields_dump).

#[export] Instance CapsuleClaim_eq_dec : EqDecision CapsuleClaim.
Proof. solve_decision. Defined.
#[export] Instance CapsuleClaim_coded : Coded CapsuleClaim := coded_fields
  (fun x => [to_json (cl_claim_id x); to_json (cl_text x); to_json (cl_status x);
     to_json (cl_confidence x); to_json (cl_source_event_ids x)])
  (fun l => match l with
     | [a; b; c; d; e] => a ← of_json a; b ← of_json b; c ← of_json c; d ← of_json d; e ← of_json e;
         Some {| cl_claim_id := a; cl_text := b; cl_status := c; cl_confidence := d;
                 cl_source_event_ids := e |}
     | _ => None end)
  ltac:(fields_decode) ltac:(fields_dump).

#[export] Instance Decision_eq_dec : EqDecision Decision_.
Proof. solve_decision. Defined.
#[export] Instance Decision_coded : Coded Decision_ := coded_fields
  (fun x => [to_json (de_decision_id x); to_json (de_text x); to_json (de_status x);
     to_json (de_confidence x); to_json (de_source_event_ids x); to_json (de_rationale x);
     to_json (de_alternatives x); to_json (de_supersedes x); to_json (de_rejected_because x)])
  (fun l => match l with
     | [a; b; c; d; e; f; g; h; i] => a ← of_json a; b ← of_json b; c ← of_json c; d ← of_json d;
         e ← of_json e; f ← of_json f; g ← of_json g; h ← of_json h; i ← of_json i;
         Some {| de_decision_id := a; de_text := b; de_status := c; de_confidence := d;
                 de_source_event_ids := e; de_rationale := f; de_alternatives := g;
                 de_supersedes := h; de_rejected_because := i |}
     | _ => None end)
  ltac:(fields_decode) ltac:(fields_dump).

#[export] Instance Entity_coded : Coded Entity := coded_fields
  (fun x => [to_json (en_entity_id x); to_json (en_kind x); to_json (en_canonical_name x);
     to_json (en_aliases x); to_json (en_source_event_ids x)])
  (fun l => match l with
     | [a; b; c; d; e] => a ← of_json a; b ← of_json b; c ← of_json c; d ← of_json d; e ← of_json e;
         Some {| en_entity_id := a; en_kind := b; en_canonical_name := c; en_aliases := d;
                 en_source_event_ids := e |}
     | _ => None end)
  ltac:(fields_decode) ltac:(fields_dump).

#[export] Instance CapsuleAnchor_eq_dec : EqDecision CapsuleAnchor.
Proof. solve_decision. Defined.
#[export] Instance CapsuleAnchor_coded : Coded CapsuleAnchor := coded_fields
  (fun x => [to_json (an_anchor_id x); to_json (an_anchor_type x); to_json (an_exact_text x);
     to_json (an_source_event_ids x); to_json (an_status x); to_json (an_importance x)])
  (fun l => match l with
     | [a; b; c; d; e; f] => a ← of_json a; b ← of_json b; c ← of_json c; d ← of_json d;
         e ← of_json e; f ← of_json f;
         Some {| an_anchor_id := a; an_anchor_type := b; an_exact_text := c;
                 an_source_event_ids := d; an_status := e; an_importance := f |}
     | _ => None end)
  ltac:(fields_decode) ltac:(fields_dump).

#[export] Instance Dependency_coded : Coded Dependency := coded_fields
  (fun x => [to_json (dp_dependency_id x); to_json (dp_kind x); to_json (dp_target_id x);
     to_json (dp_source_event_ids x)])
  (fun l => match l with
     | [a; b; c; d] => a ← of_json a; b ← of_json b; c ← of_json c; d ← of_json d;
         Some {| dp_dependency_id := a; dp_kind := b; dp_target_id := c; dp_source_event_ids := d |}
     | _ => None end)
  ltac:(fields_decode) ltac:(fields_dump).

#[export] Instance CapsuleQuality_eq_dec : EqDecision CapsuleQuality.
Proof. solve_decision. Defined.
#[export] Instance CapsuleQuality_coded : Coded CapsuleQuality := coded_fields
  (fun x => [to_json (q_mechanical_passed x); to_json (q_source_coverage x);
     to_json (q_anchor_recall x); to_json (q_unsupported_critical_claims x); to_json (q_coverage_gap x)])
  (fun l => match l with
     | [a; b; c; d; e] => a ← of_json a; b ← of_json b; c ← of_json c; d ← of_json d; e ← of_json e;
         Some {| q_mechanical_passed := a; q_source_coverage := b; q_anchor_recall := c;
                 q_unsupported_critical_claims := d; q_coverage_gap := e |}
     | _ => None end)
  ltac:(fields_decode) ltac:(fields_dump).

#[export] Instance ContextCapsuleEnvelope_eq_dec : EqDecision ContextCapsuleEnvelope.
Proof. solve_decision. Defined.
Definition capsule_fields (x : ContextCapsuleEnvelope) : list json :=
  [to_json (cap_capsule_id x); to_json (cap_schema_version x); to_json (cap_level x);
   to_json (cap_session_key x); to_json (cap_covered_event_start x); to_json (cap_covered_event_end x);
   to_json (cap_source_event_ids x); to_json (cap_goals x); to_json (cap_constraints x);
   to_json (cap_decisions x); to_json (cap_progress x); to_json (cap_open_loops x);
   to_json (cap_preferences x); to_json (cap_entities x); to_json (cap_emotional_context x);
   to_json (cap_exact_anchors x); to_json (cap_dependencies x); to_json (cap_narrative_summary x);
   to_json (cap_token_cost x); to_json (cap_quality x); to_json (cap_created_at x)].
Definition capsule_of_fields (l : list json) : option ContextCapsuleEnvelope :=
  match l with
  | [a; b; c; d; e; f; g; h; i; j; k; m; n; o; p; q; r; s; t; u; v] =>
      a ← of_json a; b ← of_json b; c ← of_json c; d ← of_json d; e ← of_json e; f ← of_json f;
      g ← of_json g; h ← of_json h; i ← of_json i; j ← of_json j; k ← of_json k; m ← of_json m;
      n ← of_json n; o ← of_json o; p ← of_json p; q ← of_json q; r ← of_json r; s ← of_json s;
      t ← of_json t; u ← of_json u; v ← of_json v;
      Some {| cap_capsule_id := a; cap_schema_version := b; cap_level := c; cap_session_key := d;
              cap_covered_event_start := e; cap_covered_event_end := f; cap_source_event_ids := g;
              cap_goals := h; cap_constraints := i; cap_decisions := j; cap_progress := k;
              cap_open_loops := m; cap_preferences := n; cap_entities := o;
              cap_emotional_context := p; cap_exact_anchors := q; cap_dependencies := r;
              cap_narrative_summary := s; cap_token_cost := t; cap_quality := u;
              cap_created_at := v |}
  | _ => None
  end.
Lemma capsule_of_fields_spec x : capsule_of_fields (capsule_fields x) = Some x.
Proof. destruct x; unfold capsule_fields, capsule_of_fields; cbn -[to_json of_json]. by rewrite !of_to_json. Qed.
#[export] Instance ContextCapsuleEnvelope_coded : Coded ContextCapsuleEnvelope :=
  coded_fields capsule_fields capsule_of_fields capsule_of_fields_spec ltac:(fields_dump).

#[export] Instance SnapshotAuditOutcome_coded : Coded SnapshotAuditOutcome := coded_fields
  (fun x => [to_json (ao_mechanical_passed x); to_json (ao_semantic_status x); to_json (ao_failure_codes x)])
  (fun l => match l with
     | [a; b; c] => a ← of_json a; b ← of_json b; c ← of_json c;
         Some {| ao_mechanical_passed := a; ao_semantic_status := b; ao_failure_codes := c |}
     | _ => None end)
  ltac:(fields_decode) ltac:(fields_dump).

(** ** Model JSON *)

(** The [$model] member of a JSON object. *)
Definition model_text {A} `{Coded A} (a : A) : string := json_dumps (JObj [("$model", to_json a)]).
Definition model_read {A} `{Coded A} (valid : A -> bool) (s : string) : option A :=
  match json_loads s with
  | Some (JObj [(_, v)]) => a ← of_json v; if valid a then Some a else None
  | _ => None
  end.
Lemma model_read_text {A} `{Coded A} (valid : A -> bool) a : valid a = true ->
  model_read valid (model_text a) = Some a.
Proof.
  intros Hv. unfold model_read, model_text.
  rewrite json_loads_dumps by (cbn; by rewrite to_json_dumpable). rewrite of_to_json. cbn. by rewrite Hv.
Qed.
Lemma model_read_valid {A} `{Coded A} (valid : A -> bool) s a :
  model_read valid s = Some a -> valid a = true.
Proof.
  unfold model_read. intros E. repeat case_match; simplify_eq.
  destruct (of_json _) as [x|]; cbn in E; [|done].
  destruct (valid x) eqn:Ev; [|done]. by injection E as <-.
Qed.

(** ** Session keys from their canonical JSON *)

Definition json_opt_string (v : json) : option (option string) :=
  match v with JStr s => Some (Some s) | JNull => Some None | _ => None end.
Definition opt_json (s : option string) : json := match s with Some x => JStr x | None => JNull end.
Definition toy_session_of_json (text : string) : option SessionKey :=
  match json_loads text with
  | Some (JObj [(_, JStr p); (_, JStr m); (_, JStr s); (_, g); (_, JStr u); (_, JStr c); (_, q)]) =>
      match json_opt_string g, json_opt_string q with
      | Some g', Some q' =>
          let k := {| sk_platform_instance_id := p; sk_message_type := m; sk_session_id := s;
                      sk_group_id := g'; sk_user_id := u; sk_conversation_id := c;
                      sk_persona_id := q' |} in
          if SessionKey_valid k then Some k else None
      | _, _ => None
      end
  | _ => None
  end.

Definition session_json (k : SessionKey) : json :=
  JObj [("platform_instance_id", JStr (sk_platform_instance_id k));
        ("message_type", JStr (sk_message_type k)); ("session_id", JStr (sk_session_id k));
        ("group_id", opt_json (sk_group_id k)); ("user_id", JStr (sk_user_id k));
        ("conversation_id", JStr (sk_conversation_id k)); ("persona_id", opt_json (sk_persona_id k))].
(** [canonical_json] is [json.dumps] of the seven fields. *)
Lemma canonical_json_dumps k : canonical_json k = json_dumps (session_json k).
Proof.
  unfold canonical_json, canonical_json_chars, json_dumps, session_json. f_equal.
  cbn [dumps_chars map comma_join fst snd].
  assert (forall s, dumps_chars (fun _ => []) (opt_json s) = json_opt_chars s) as Hopt by (by intros []).
  rewrite !Hopt. do 8 (cbn [app]; rewrite <- ?app_assoc). reflexivity.
Qed.
Lemma toy_session_round_trip k : SessionKey_valid k = true ->
  toy_session_of_json (canonical_json k) = Some k.
Proof.
  intros Hv. unfold toy_session_of_json. rewrite canonical_json_dumps, json_loads_dumps.
  - unfold session_json. assert (forall s, json_opt_string (opt_json s) = Some s) as Hopt by (by intros []).
    rewrite !Hopt. destruct k as [p m s g u c q]. cbv zeta.
    cbn [sk_platform_instance_id sk_message_type sk_session_id sk_group_id sk_user_id
      sk_conversation_id sk_persona_id]. by rewrite Hv.
  - unfold session_json. cbn. by destruct (sk_group_id k), (sk_persona_id k).
Qed.
Lemma toy_session_valid s k : toy_session_of_json s = Some k -> SessionKey_valid k = true.
Proof.
  unfold toy_session_of_json. intros E. repeat case_match; simplify_eq. done.
Qed.

(** ** The environment *)

Definition toy_environment : Environment := {|
  fault_injector := fun _ => false;
  session_key_of_json := toy_session_of_json;
  capsule_model_json := model_text;
  capsule_of_json := model_read ContextCapsuleEnvelope_valid;
  audit_model_json := model_text;
  audit_of_json := model_read SnapshotAuditOutcome_valid |}.
Lemma toy_environment_laws : @EnvironmentLaws toy_environment.
Proof.
  split.
  - exact toy_session_round_trip.
  - exact toy_session_valid.
  - apply model_read_text.
  - apply model_read_valid.
  - apply model_read_text.
  - apply model_read_valid.
Qed.

Example toy_capsule_text :
  @capsule_of_json toy_environment (@capsule_model_json toy_environment (example_capsule "capsule-1" 2))
  = Some (example_capsule "capsule-1" 2).
Proof. vm_compute. reflexivity. Qed.
