(* ===== verification/TokenMetrics.v ===== *)
(** The encrypted token metric sidecar of [storage/token_metrics.py]: one
    immutable count per artifact and tokenizer profile, written by compare and
    set. *)
From S2P Require Import Prelude PyString PyFloat Domain Validation PyJson Crypto Store.
Open Scope string_scope.
Open Scope list_scope.
Open Scope Z_scope.

Record TokenMetric := {
  tm_artifact_kind : ArtifactKind;
  tm_artifact_id : string;
  tm_tokenizer_profile_id : string;
  tm_token_count : Z;
}.
#[export] Instance TokenMetric_eq_dec : EqDecision TokenMetric.
Proof. solve_decision. Defined.

Definition _required_identifier (value : string) : bool := negb (is_blank value).
(** [TokenMetric.__post_init__] *)
Definition TokenMetric_valid (m : TokenMetric) : bool :=
  _required_identifier (tm_artifact_id m) && _required_identifier (tm_tokenizer_profile_id m)
  && (0 <=? tm_token_count m).

Record CanonicalMetricObservation := {
  co_tokenizer_profile_id : string;
  co_token_count : option Z;
}.
Definition CanonicalMetricObservation_valid (o : CanonicalMetricObservation) : bool :=
  _required_identifier (co_tokenizer_profile_id o)
  && match co_token_count o with Some n => 0 <=? n | None => true end.

Definition _SCHEMA_VERSION : Z := 1.

Definition _metric_record_key (kind : ArtifactKind) (artifact_id profile_id : string)
    : result repo_error string :=
  raise ValueError when (negb (_required_identifier artifact_id));;
  raise ValueError when (negb (_required_identifier profile_id));;
  Ok (json_dumps (JArr [JStr "token-metric-v1"; JStr (artifact_value kind); JStr artifact_id;
                        JStr profile_id])).

(** [None] when the count is past the interpreter's digit limit. *)
Definition _metric_plaintext (token_count : Z) : option string :=
  match str_int token_count with
  | None => None
  | Some _ => Some (json_dumps (JObj [("schema_version", JInt _SCHEMA_VERSION);
                                      ("token_count", JInt token_count)]))
  end.

Definition invalid_row {A} : result repo_error A := Err (StorageSecurityError STORAGE_ENVELOPE_INVALID).

Definition _decode_metric_plaintext (plaintext : string) : result repo_error Z :=
  match json_loads plaintext with
  | Some (JObj members) =>
      match py_dict members with
      | [(key0, JInt schema_version); (key1, JInt token_count)] =>
          if (key0 !=? "schema_version") || (key1 !=? "token_count")
             || negb (schema_version =? _SCHEMA_VERSION) || (token_count <? 0)
          then invalid_row
          else if bool_decide (_metric_plaintext token_count = Some plaintext)
               then Ok token_count else invalid_row
      | _ => invalid_row
      end
  | _ => invalid_row
  end.

Section store.
Context `{StorageCodec}.

Definition metric_matches (kind : ArtifactKind) (artifact_id profile_id : string)
    (r : MetricRow) : bool :=
  eqb_of (tr_kind r) kind && (tr_artifact_id r ==? artifact_id)
  && (tr_profile_id r ==? profile_id).

Definition metric_from_row (kind : ArtifactKind) (artifact_id profile_id : string)
    (row : MetricRow) : result repo_error TokenMetric :=
  if negb (_required_identifier (tr_artifact_id row))
     || negb (_required_identifier (tr_profile_id row)) then invalid_row else
  if negb (eqb_of (tr_kind row) kind) || (tr_artifact_id row !=? artifact_id)
     || (tr_profile_id row !=? profile_id) then invalid_row else
  key ← _metric_record_key (tr_kind row) (tr_artifact_id row) (tr_profile_id row);
  plaintext ← codec_result (codec_decrypt_text "token_metrics" "metric_envelope" key
                                               (tr_envelope row));
  count ← _decode_metric_plaintext plaintext;
  Ok {| tm_artifact_kind := tr_kind row; tm_artifact_id := tr_artifact_id row;
        tm_tokenizer_profile_id := tr_profile_id row; tm_token_count := count |}.

Definition get_in_transaction (kind : ArtifactKind) (artifact_id profile_id : string)
    : tx (option TokenMetric) :=
  guard (negb (_required_identifier artifact_id)) ValueError;;
  guard (negb (_required_identifier profile_id)) ValueError;;
  row ← fetchone token_metrics (metric_matches kind artifact_id profile_id);
  match row with
  | None => mret None
  | Some row => metric ← lift (metric_from_row kind artifact_id profile_id row);
                mret (Some metric)
  end.

Definition put_in_transaction (nonces : Nonces) (metric : TokenMetric) (created_at : Z)
    : tx TokenMetric :=
  existing ← get_in_transaction (tm_artifact_kind metric) (tm_artifact_id metric)
                                (tm_tokenizer_profile_id metric);
  match existing with
  | Some existing => if eqb_of existing metric then mret existing else throw TokenMetricConflict
  | None =>
      key ← lift (_metric_record_key (tm_artifact_kind metric) (tm_artifact_id metric)
                                     (tm_tokenizer_profile_id metric));
      plaintext ← lift (match _metric_plaintext (tm_token_count metric) with
                        | Some p => Ok p | None => Err ValueError end);
      envelope ← lift (codec_result (codec_encrypt_text nonces "token_metrics"
                                       "metric_envelope" key plaintext));
      insert_metric {| tr_kind := tm_artifact_kind metric; tr_artifact_id := tm_artifact_id metric;
                       tr_profile_id := tm_tokenizer_profile_id metric; tr_envelope := envelope;
                       tr_created_at := created_at |};;
      mret metric
  end.
End store.

(** ** Lemmas *)

Lemma decode_metric_plaintext n p : 0 <= n -> _metric_plaintext n = Some p ->
  _decode_metric_plaintext p = Ok n.
Proof.
  intros Hn Hp. assert (Hp' := Hp). unfold _metric_plaintext, str_int in Hp.
  destruct (int_max_str_digits <? _) eqn:El; [discriminate|]. injection Hp as <-. bool_hyps.
  unfold _decode_metric_plaintext. rewrite json_loads_dumps; cycle 1.
  { rewrite (proj2 (Z.ltb_ge n 0)), Z.sub_0_r, utf8_length_chars in El by done.
    cbn [dumpable forallb snd]. rewrite (Z.abs_eq n) by done.
    change (show_chars n) with (chars (show_Z n)).
    rewrite (proj2 (Z.leb_le _ _) El). reflexivity. }
  cbn [py_dict fold_left existsb app fst snd String.eqb Ascii.eqb Bool.eqb orb].
  rewrite (proj2 (Z.ltb_ge n 0)) by done. cbn. by rewrite bool_decide_eq_true_2.
Qed.

Lemma metric_matches_spec k i p r :
  metric_matches k i p r = true <-> metric_key r = (k, i, p).
Proof.
  unfold metric_matches, metric_key, eqb_of. rewrite !andb_true_iff, bool_decide_eq_true.
  rewrite !(py_eq_leibniz (A:=string)). split; [by intros [[-> ->] ->] | by intros [= -> -> ->]].
Qed.

Section store_lemmas.
Context `{StorageCodecLaws}.

(** The metric of an artifact and profile, as the store reads it. *)
Definition metric_at (d : db) (kind : ArtifactKind) (artifact_id profile_id : string)
    : result repo_error (option TokenMetric) :=
  read_only (get_in_transaction kind artifact_id profile_id) d.

Lemma get_in_transaction_spec kind i p d o d' :
  get_in_transaction kind i p d = Ok (o, d') <-> d' = d /\ metric_at d kind i p = Ok o.
Proof.
  unfold metric_at, read_only. split.
  - intros E. rewrite E. split; [|done]. unfold get_in_transaction in E. tx_inv E; done.
  - intros [-> E]. destruct (get_in_transaction kind i p d) as [[o1 d1]|] eqn:Eg; [|done].
    injection E as ->. unfold get_in_transaction in Eg. assert (Eg' := Eg). tx_inv Eg; done.
Qed.

Lemma metric_at_unfold d kind i p : metric_at d kind i p =
  if negb (_required_identifier i) then Err ValueError
  else if negb (_required_identifier p) then Err ValueError
  else match List.find (metric_matches kind i p) (token_metrics d) with
       | None => Ok None
       | Some row => match metric_from_row kind i p row with Ok m => Ok (Some m) | Err e => Err e end
       end.
Proof.
  unfold metric_at, read_only, get_in_transaction, guard, throw, lift, fetchone, select,
    mbind, tx_bind, mret, tx_ret.
  destruct (negb _); [done|]. destruct (negb _); [done|].
  destruct (List.find _ (token_metrics d)) as [r|]; [|done]. by destruct (metric_from_row _ _ _ _).
Qed.

Lemma metric_at_rows d d' kind i p :
  List.find (metric_matches kind i p) (token_metrics d') =
  List.find (metric_matches kind i p) (token_metrics d) ->
  metric_at d' kind i p = metric_at d kind i p.
Proof. intros E. by rewrite !metric_at_unfold, E. Qed.

Lemma find_new_metric kind i p env t rows :
  List.find (metric_matches kind i p) rows = None ->
  forall kind' i' p',
  List.find (metric_matches kind' i' p')
    (rows ++ [{| tr_kind := kind; tr_artifact_id := i; tr_profile_id := p;
                 tr_envelope := env; tr_created_at := t |}]) =
  if bool_decide ((kind', i', p') = (kind, i, p))
  then Some {| tr_kind := kind; tr_artifact_id := i; tr_profile_id := p;
               tr_envelope := env; tr_created_at := t |}
  else List.find (metric_matches kind' i' p') rows.
Proof.
  intros Hn kind' i' p'. rewrite find_app. cbn [List.find].
  set (r := {| tr_kind := kind; tr_artifact_id := i; tr_profile_id := p;
               tr_envelope := env; tr_created_at := t |}).
  case_bool_decide as E.
  - injection E as -> -> ->. rewrite Hn.
    assert (metric_matches kind i p r = true) as -> by by apply metric_matches_spec. done.
  - destruct (metric_matches kind' i' p' r) eqn:Em;
      [|destruct (List.find (metric_matches kind' i' p') rows); done].
    apply metric_matches_spec in Em. unfold metric_key, r in Em. cbn in Em. congruence.
Qed.

Lemma get_none_find kind i p d :
  metric_at d kind i p = Ok None -> List.find (metric_matches kind i p) (token_metrics d) = None.
Proof.
  rewrite metric_at_unfold. destruct (negb _); [done|]. destruct (negb _); [done|].
  destruct (List.find _ _); [|done]. by destruct (metric_from_row _ _ _ _).
Qed.

(** A successful write of a new metric. *)
Lemma put_ok ns m t d m' d' : nonces_ok ns -> TokenMetric_valid m = true ->
  put_in_transaction ns m t d = Ok (m', d') ->
  m' = m
  /\ (forall kind i p, metric_at d' kind i p =
       if bool_decide ((kind, i, p) = (tm_artifact_kind m, tm_artifact_id m, tm_tokenizer_profile_id m))
       then Ok (Some m) else metric_at d kind i p)
  /\ (metric_at d (tm_artifact_kind m) (tm_artifact_id m) (tm_tokenizer_profile_id m) = Ok (Some m)
      /\ d' = d
      \/ metric_at d (tm_artifact_kind m) (tm_artifact_id m) (tm_tokenizer_profile_id m) = Ok None
         /\ exists row, d' = set_metrics (token_metrics d ++ [row]) d).
Proof.
  intros Hns Hv. unfold put_in_transaction.
  intros ([ex|] & d1 & [-> Hat]%get_in_transaction_spec & E)%tx_bind_ok.
  - destruct (eqb_of ex m) eqn:Eex; [|done]. apply tx_ret_ok in E as [-> ->].
    unfold eqb_of in Eex. apply bool_decide_eq_true in Eex as ->.
    split; [done|]. split; [|by left]. intros kind i p. case_bool_decide as Ek; [|done].
    by injection Ek as -> -> ->.
  - tx_inv E. apply insert_row_ok in Hs2 as [Hok ->].
    pose proof (get_none_find _ _ _ _ Hat) as Hn.
    destruct (_metric_plaintext (tm_token_count m')) as [pt|] eqn:Ept; [|done].
    injection Hs0 as ->. split; [done|]. split; [|right; eauto].
    intros kind i p. case_bool_decide as Ek.
    + injection Ek as -> -> ->. rewrite metric_at_unfold.
      unfold TokenMetric_valid in Hv. apply andb_true_iff in Hv as [[Hvi Hvp]%andb_true_iff Hvc%Z.leb_le].
      rewrite Hvi, Hvp. cbn [negb token_metrics set_metrics].
      rewrite (find_new_metric _ _ _ _ _ _ Hn), bool_decide_eq_true_2 by done.
      unfold metric_from_row. cbn [tr_kind tr_artifact_id tr_profile_id tr_envelope].
      rewrite Hvi, Hvp. cbn [negb orb]. unfold eqb_of. rewrite bool_decide_eq_true_2 by done.
      rewrite !(proj2 (py_eq_leibniz (A:=string) _ _)) by done. cbn [negb orb].
      rewrite Hs. cbn [mbind result_bind]. rewrite (codec_text _ _ _ _ _ _ Hns Hs1).
      cbn [codec_result mbind result_bind].
      rewrite (decode_metric_plaintext _ _ Hvc Ept). cbn. by destruct m'.
    + apply metric_at_rows. cbn [token_metrics set_metrics].
      by rewrite (find_new_metric _ _ _ _ _ _ Hn), bool_decide_eq_false_2.
Qed.
End store_lemmas.

(** ** The property *)

Section store_property.
Context `{StorageCodecLaws}.

Lemma insert_metric_fits m key pt ns env t d : schema_ok d = true -> TokenMetric_valid m = true ->
  List.find (metric_matches (tm_artifact_kind m) (tm_artifact_id m) (tm_tokenizer_profile_id m))
    (token_metrics d) = None ->
  codec_encrypt_text ns "token_metrics" "metric_envelope" key pt = Ok env ->
  metrics_ok d (token_metrics d ++ [
    {| tr_kind := tm_artifact_kind m; tr_artifact_id := tm_artifact_id m;
       tr_profile_id := tm_tokenizer_profile_id m; tr_envelope := env; tr_created_at := t |}]) = true.
Proof.
  intros Hs Hv Hf He. unfold schema_ok in Hs. bool_hyps. unfold metrics_ok in *. bool_hyps.
  unfold TokenMetric_valid, _required_identifier in Hv. bool_hyps.
  rewrite forallb_snoc, unique_by_snoc. cbn [tr_artifact_id tr_profile_id tr_envelope].
  rewrite !is_blank_not_blank, (codec_text_form _ _ _ _ _ _ He) by done.
  apply andb_true_iff. split; [by apply andb_true_iff|]. apply andb_true_iff. split; [done|].
  apply negb_true_iff, existsb_false_iff. intros r Hr. rewrite find_none_ext in Hf.
  specialize (Hf r Hr). unfold eqb_of. apply bool_decide_eq_false. intros E.
  apply not_true_iff_false in Hf. apply Hf, metric_matches_spec. exact E.
Qed.

(** The metric store is an immutable map updated by compare and set.
    [put_in_transaction] of a metric that is already stored changes nothing
    and returns it; of a different count for a stored key it raises
    [TokenMetricConflict]; of a new key it either fails in the codec or the
    integer conversion, never on a table constraint, or adds exactly that
    entry, leaving every other key and table as it was. *)
Theorem metric_store_compare_and_set ns m t d :
  nonces_ok ns -> TokenMetric_valid m = true -> schema_ok d = true ->
  let at_key := metric_at d (tm_artifact_kind m) (tm_artifact_id m) (tm_tokenizer_profile_id m) in
  (at_key = Ok (Some m) -> put_in_transaction ns m t d = Ok (m, d))
  /\ (forall old, at_key = Ok (Some old) -> old <> m ->
      put_in_transaction ns m t d = Err TokenMetricConflict)
  /\ (at_key = Ok None ->
      (exists e, put_in_transaction ns m t d = Err e /\ e <> IntegrityError)
      \/ exists row, put_in_transaction ns m t d = Ok (m, set_metrics (token_metrics d ++ [row]) d)
           /\ forall kind i p, metric_at (set_metrics (token_metrics d ++ [row]) d) kind i p =
                if bool_decide ((kind, i, p) =
                    (tm_artifact_kind m, tm_artifact_id m, tm_tokenizer_profile_id m))
                then Ok (Some m) else metric_at d kind i p).
Proof.
  intros Hns Hv Hd at_key. unfold at_key.
  assert (Hrun : forall o, at_key = Ok o ->
    get_in_transaction (tm_artifact_kind m) (tm_artifact_id m) (tm_tokenizer_profile_id m) d = Ok (o, d)).
  { intros o Ho. by apply get_in_transaction_spec. }
  split; [|split].
  - intros E. unfold put_in_transaction. rewrite (tx_bind_run _ _ _ _ _ (Hrun _ E)).
    unfold eqb_of. by rewrite bool_decide_eq_true_2.
  - intros old E Hne. unfold put_in_transaction. rewrite (tx_bind_run _ _ _ _ _ (Hrun _ E)).
    unfold eqb_of. by rewrite bool_decide_eq_false_2.
  - intros E. destruct (put_in_transaction ns m t d) as [[m' d']|e] eqn:Ep.
    + right. destruct (put_ok ns m t d m' d' Hns Hv Ep) as (-> & Hmap & [[E' _]|(_ & row & ->)]);
        [congruence|]. exists row. done.
    + left. exists e. split; [done|]. intros ->. unfold put_in_transaction in Ep.
      rewrite (tx_bind_run _ _ _ _ _ (Hrun _ E)) in Ep.
      unfold mbind, tx_bind, lift in Ep.
      destruct (_metric_record_key _ _ _) as [key|[]] eqn:Ek; try discriminate Ep;
        [|unfold _metric_record_key, raise_if in Ek; repeat (step_in Ek); discriminate].
      destruct (_metric_plaintext _) as [pt|]; [|discriminate].
      destruct (codec_encrypt_text _ _ _ _ _) as [env|] eqn:Ee; cbn in Ep; [|discriminate].
      unfold insert_metric in Ep. rewrite insert_row_run in Ep; [discriminate|].
      eapply insert_metric_fits; eauto. by apply get_none_find.
Qed.
End store_property.

Definition example_metric (n : Z) : TokenMetric :=
  {| tm_artifact_kind := ARTIFACT_EVENT; tm_artifact_id := "event-1";
     tm_tokenizer_profile_id := "p"; tm_token_count := n |}.

Lemma metric_store_compare_and_set_witness :
  let put := put_in_transaction (H := toy_storage) toy_nonces in
  exists d1, put (example_metric 7) 0 empty_db = Ok (example_metric 7, d1)
    /\ put (example_metric 7) 1 d1 = Ok (example_metric 7, d1)
    /\ put (example_metric 8) 1 d1 = Err TokenMetricConflict.
Proof.
  intros put. destruct (put (example_metric 7) 0 empty_db) as [[m d1]|] eqn:E; [|vm_compute in E; discriminate].
  exists d1.
  assert (Hm : m = example_metric 7 /\ schema_ok d1 = true
    /\ metric_at (H := toy_storage) d1 ARTIFACT_EVENT "event-1" "p" = Ok (Some (example_metric 7))).
  { vm_compute in E. injection E as <- <-. split; [done|]. vm_compute. done. }
  destruct Hm as (-> & Hs & Hat). split; [done|].
  destruct (metric_store_compare_and_set (H0 := toy_storage_laws) toy_nonces (example_metric 7) 1 d1
              toy_nonces_ok eq_refl Hs) as (H1 & _ & _).
  destruct (metric_store_compare_and_set (H0 := toy_storage_laws) toy_nonces (example_metric 8) 1 d1
              toy_nonces_ok eq_refl Hs) as (_ & H2 & _).
  split; [by apply H1 | by apply (H2 (example_metric 7))].
Defined.
