(* ===== verification/Journal.v ===== *)
(** Session identity and the append-only Journal of [storage/repository.py]:
    the [TX_CAPTURE_*] transactions. *)
From S2P Require Import Prelude PyString PyFloat Domain Validation PyJson Crypto Store Instances.
From S2P Require Import TokenMetrics.
Open Scope string_scope.
Open Scope list_scope.
Open Scope Z_scope.

Section journal.
Context `{Sha256, StorageCodec, Environment}.

Definition _session_key_from_storage (hash sentinel_json : string) : result repo_error SessionKey :=
  canonical ← codec_result (codec_decrypt_object "sessions" "canonical_session_key_json"
                              hash sentinel_json);
  match session_key_of_json canonical with
  | None => Err RepositoryInvariantError
  | Some session_key =>
      raise RepositoryInvariantError when (session_key_hash session_key !=? hash);;
      Ok session_key
  end.

Definition session_by_hash (hash : string) : tx (option SessionRow) :=
  fetchone sessions (fun r => se_hash r ==? hash).

Definition encrypt_identity (ns : Nonces) (record_key column : string) (value : string)
    : tx string :=
  lift (codec_result (codec_encrypt_text ns "sessions" column record_key value)).
Definition encrypt_identity_opt (ns : Nonces) (record_key column : string)
    (value : option string) : tx (option string) :=
  match value with
  | None => mret None
  | Some v => e ← encrypt_identity ns record_key column v; mret (Some e)
  end.

(** [INSERT ... ON CONFLICT(session_key_hash) DO NOTHING] *)
Definition insert_session_or_nothing (row : SessionRow) : tx unit :=
  existing ← session_by_hash (se_hash row);
  match existing with Some _ => mret () | None => insert_session row end.

Definition _ensure_session (ns : Nonces) (session_key : SessionKey) (timestamp : Z) : tx unit :=
  let record_key := session_key_hash session_key in
  existing ← session_by_hash record_key;
  match existing with
  | Some row =>
      stored_session ← lift (_session_key_from_storage record_key (se_canonical row));
      guard (stored_session !=? session_key) SessionIdentityConflict
  | None =>
      canonical ← lift (codec_result (codec_encrypt_object ns "sessions"
                     "canonical_session_key_json" record_key (canonical_json session_key)));
      platform ← encrypt_identity ns record_key "platform_instance_id"
                                  (sk_platform_instance_id session_key);
      message_type ← encrypt_identity ns record_key "message_type" (sk_message_type session_key);
      session_id ← encrypt_identity ns record_key "session_id" (sk_session_id session_key);
      group_id ← encrypt_identity_opt ns record_key "group_id" (sk_group_id session_key);
      user_id ← encrypt_identity ns record_key "user_id" (sk_user_id session_key);
      conversation_id ← encrypt_identity ns record_key "conversation_id"
                                         (sk_conversation_id session_key);
      persona_id ← encrypt_identity_opt ns record_key "persona_id" (sk_persona_id session_key);
      on_integrity (insert_session_or_nothing
        {| se_hash := record_key; se_canonical := canonical; se_platform_instance_id := platform;
           se_message_type := message_type; se_session_id := session_id; se_group_id := group_id;
           se_user_id := user_id; se_conversation_id := conversation_id;
           se_persona_id := persona_id; se_next_event_sequence := 1;
           se_created_at := timestamp; se_updated_at := timestamp |}) SessionIdentityConflict;;
      row ← session_by_hash record_key;
      match row with
      | None => throw SessionIdentityConflict
      | Some row =>
          stored_session ← lift (_session_key_from_storage record_key (se_canonical row));
          guard (stored_session !=? session_key) SessionIdentityConflict
      end
  end.

Definition _event_from_row (session_key : SessionKey) (row : EventRow)
    : result repo_error EventEnvelope :=
  raise RepositoryInvariantError when (er_session row !=? session_key_hash session_key);;
  content ← codec_result (codec_decrypt_text "journal_events" "content" (er_event_id row)
                                             (er_content row));
  token_count ← codec_result (codec_decrypt_int "journal_events" "token_count" (er_event_id row)
                                                (er_token_count_envelope row));
  match construct EventEnvelope_valid
    {| ev_event_id := er_event_id row; ev_session_key := session_key;
       ev_sequence := er_sequence row; ev_event_type := er_event_type row;
       ev_role := er_role row; ev_content := content; ev_source_hook := er_source_hook row;
       ev_idempotency_key := er_idempotency_key row; ev_token_count := token_count;
       ev_created_at := er_created_at row |} with
  | Ok event => Ok event
  | Err _ => Err RepositoryInvariantError
  end.

Definition idempotent_match (session_key : SessionKey) (source_hook : SourceHook)
    (idempotency_key : string) (r : EventRow) : bool :=
  (er_session r ==? session_key_hash session_key) && eqb_of (er_source_hook r) source_hook
  && (er_idempotency_key r ==? idempotency_key).

Definition _find_idempotent_event (session_key : SessionKey) (source_hook : SourceHook)
    (idempotency_key : string) : tx (option EventEnvelope) :=
  row ← fetchone journal_events (idempotent_match session_key source_hook idempotency_key);
  match row with
  | Some row => event ← lift (_event_from_row session_key row); mret (Some event)
  | None => mret None
  end.

Definition _is_exact_replay (existing requested : EventEnvelope) : bool :=
  (ev_event_id existing ==? ev_event_id requested)
  && (ev_session_key existing ==? ev_session_key requested)
  && eqb_of (ev_event_type existing) (ev_event_type requested)
  && eqb_of (ev_role existing) (ev_role requested)
  && (ev_content existing ==? ev_content requested)
  && eqb_of (ev_source_hook existing) (ev_source_hook requested)
  && (ev_idempotency_key existing ==? ev_idempotency_key requested)
  && (ev_token_count existing ==? ev_token_count requested)
  && (ev_created_at existing ==? ev_created_at requested).

Definition intent_matches (kind : ArtifactKind) (artifact_id profile_id : string)
    (r : IntentRow) : bool :=
  eqb_of (ir_kind r) kind && (ir_artifact_id r ==? artifact_id)
  && (ir_profile_id r ==? profile_id).
Definition delete_intent (kind : ArtifactKind) (artifact_id profile_id : string) : tx unit :=
  delete_intents (intent_matches kind artifact_id profile_id).
(** [INSERT ... ON CONFLICT (...) DO NOTHING] *)
Definition insert_intent_or_nothing (row : IntentRow) : tx unit :=
  existing ← fetchone backfill_intents
               (intent_matches (ir_kind row) (ir_artifact_id row) (ir_profile_id row));
  match existing with Some _ => mret () | None => insert_intent row end.

Definition _record_canonical_observation (ns : Nonces) (hash artifact_id : string)
    (canonical : CanonicalMetricObservation) (created_at : Z) : tx unit :=
  match co_token_count canonical with
  | Some token_count =>
      metric ← lift (model_result (construct TokenMetric_valid
        {| tm_artifact_kind := ARTIFACT_EVENT; tm_artifact_id := artifact_id;
           tm_tokenizer_profile_id := co_tokenizer_profile_id canonical;
           tm_token_count := token_count |}));
      put_in_transaction ns metric created_at;;
      delete_intent ARTIFACT_EVENT artifact_id (co_tokenizer_profile_id canonical)
  | None =>
      existing ← get_in_transaction ARTIFACT_EVENT artifact_id (co_tokenizer_profile_id canonical);
      match existing with
      | Some _ => mret ()
      | None =>
          insert_intent_or_nothing
            {| ir_session := hash; ir_kind := ARTIFACT_EVENT; ir_artifact_id := artifact_id;
               ir_profile_id := co_tokenizer_profile_id canonical; ir_created_at := created_at |}
      end
  end.

(** [SET next_event_sequence = next_event_sequence + 1, updated_at = ?] *)
Definition bump_sequence (updated_at : Z) (r : SessionRow) : SessionRow :=
  {| se_hash := se_hash r; se_canonical := se_canonical r;
     se_platform_instance_id := se_platform_instance_id r;
     se_message_type := se_message_type r; se_session_id := se_session_id r;
     se_group_id := se_group_id r; se_user_id := se_user_id r;
     se_conversation_id := se_conversation_id r; se_persona_id := se_persona_id r;
     se_next_event_sequence := se_next_event_sequence r + 1;
     se_created_at := se_created_at r; se_updated_at := updated_at |}.

(** [_capture_event] after the session is ensured and no idempotent event was
    found: allocate the next sequence and append. *)
Definition append_event (ns : Nonces) (event_id : string) (session_key : SessionKey)
    (event_type : EventType) (content idempotency_key : string) (token_count created_at : Z)
    : tx EventEnvelope :=
  let hash := session_key_hash session_key in
  row ← session_by_hash hash;
  match row with
  | None => throw SessionIdentityConflict
  | Some row =>
      let sequence := se_next_event_sequence row in
      update_sessions (fun r => (se_hash r ==? hash) && (se_next_event_sequence r =? sequence))
        (bump_sequence created_at);;
      inject "capture.after_allocate";;
      event ← lift (model_result (EventEnvelope_create event_id session_key sequence event_type
                                    content idempotency_key token_count created_at));
      inject "capture.before_insert";;
      content_envelope ← lift (codec_result (codec_encrypt_text ns "journal_events" "content"
                                 (ev_event_id event) (ev_content event)));
      count_envelope ← lift (codec_result (codec_encrypt_int ns "journal_events" "token_count"
                               (ev_event_id event) (ev_token_count event)));
      on_integrity (insert_event
        {| er_event_id := ev_event_id event; er_session := hash; er_sequence := ev_sequence event;
           er_event_type := ev_event_type event; er_role := ev_role event;
           er_content := content_envelope; er_source_hook := ev_source_hook event;
           er_idempotency_key := ev_idempotency_key event;
           er_token_count_envelope := count_envelope; er_created_at := created_at |})
        EventIdentityConflict;;
      mret event
  end.

Definition _capture_event (ns : Nonces) (event_id : string) (session_key : SessionKey)
    (event_type : EventType) (content idempotency_key : string) (token_count : Z)
    (canonical : CanonicalMetricObservation) (created_at : py_datetime) (d : db)
    : result repo_error EventEnvelope * db :=
  match normalize_datetime created_at with
  | Err e => (Err e, d)
  | Ok normalized =>
  match model_result (EventEnvelope_create event_id session_key 1 event_type content
                        idempotency_key token_count normalized) with
  | Err e => (Err e, d)
  | Ok requested => transaction (
      _ensure_session ns session_key normalized;;
      inject "capture.after_session";;
      existing ← _find_idempotent_event session_key (ev_source_hook requested) idempotency_key;
      match existing with
      | Some existing =>
          guard (negb (_is_exact_replay existing requested)) IdempotencyConflict;;
          _record_canonical_observation ns (session_key_hash session_key) (ev_event_id existing)
                                        canonical normalized;;
          inject "capture.after_metric";;
          mret existing
      | None =>
          event ← append_event ns event_id session_key event_type content idempotency_key
                               token_count normalized;
          inject "capture.after_insert";;
          _record_canonical_observation ns (session_key_hash session_key) (ev_event_id event)
                                        canonical normalized;;
          inject "capture.after_metric";;
          mret event
      end) d
  end
  end.

Definition capture_user_event ns event_id session_key content idempotency_key token_count
    canonical created_at :=
  _capture_event ns event_id session_key USER_MESSAGE content idempotency_key token_count
                 canonical created_at.
Definition capture_assistant_event ns event_id session_key content idempotency_key token_count
    canonical created_at :=
  _capture_event ns event_id session_key ASSISTANT_MESSAGE content idempotency_key token_count
                 canonical created_at.
Definition capture_tool_event ns event_id session_key event_type content idempotency_key
    token_count canonical created_at (d : db) : result repo_error EventEnvelope * db :=
  if negb (eqb_of event_type TOOL_CALL || eqb_of event_type TOOL_RESULT) then (Err ValueError, d)
  else _capture_event ns event_id session_key event_type content idempotency_key token_count
                      canonical created_at d.
End journal.

(** ** Lemmas *)

Section journal_lemmas.
Context `{Sha256, StorageCodecLaws, Environment}.

(** The session is stored under its hash and reads back. *)
Definition session_stored (d : db) (k : SessionKey) : Prop :=
  exists row, List.find (fun r => se_hash r ==? session_key_hash k) (sessions d) = Some row
              /\ _session_key_from_storage (session_key_hash k) (se_canonical row) = Ok k.

Lemma session_neq_false (a b : SessionKey) : (a !=? b) = false <-> a = b.
Proof.
  rewrite negb_false_iff. unfold py_eq, SessionKey_py_eq, eqb_of. by rewrite bool_decide_eq_true.
Qed.

Lemma encrypt_identity_ok ns key column v e d d' :
  encrypt_identity ns key column v d = Ok (e, d') -> is_envelope e = true /\ d' = d.
Proof. unfold encrypt_identity. intros E. tx_inv E. split; [by eapply codec_text_form | done]. Qed.
Lemma encrypt_identity_opt_ok ns key column v e d d' :
  encrypt_identity_opt ns key column v d = Ok (e, d') -> opt_envelope e = true /\ d' = d.
Proof.
  unfold encrypt_identity_opt. destruct v; intros E; [|by tx_inv E].
  apply tx_bind_ok in E as (x & d1 & [Hx ->]%encrypt_identity_ok & E). by tx_inv E.
Qed.

(** [_ensure_session] adds at most the session's row, and then the session reads back. *)
Lemma ensure_session_ok ns k t d u d' : _ensure_session ns k t d = Ok (u, d') ->
  session_stored d' k /\ (d' = d \/ exists row, se_hash row = session_key_hash k
    /\ se_next_event_sequence row = 1
    /\ List.find (fun r => se_hash r ==? session_key_hash k) (sessions d) = None
    /\ sessions_ok d (sessions d ++ [row]) = true
    /\ d' = set_sessions (sessions d ++ [row]) d).
Proof.
  unfold _ensure_session, session_by_hash. intros E.
  apply tx_bind_ok in E as (o & d1 & [<- <-]%fetchone_ok & E).
  destruct (List.find _ _) as [row|] eqn:Ef.
  - tx_inv E. apply session_neq_false in E as ->. split; [|by left]. exists row. done.
  - apply tx_bind_ok in E as (canonical & d1 & Hc & E). tx_inv Hc.
    do 3 apply tx_bind_ok in E as (? & ? & [_ ->]%encrypt_identity_ok & E).
    apply tx_bind_ok in E as (? & ? & [_ ->]%encrypt_identity_opt_ok & E).
    do 2 apply tx_bind_ok in E as (? & ? & [_ ->]%encrypt_identity_ok & E).
    apply tx_bind_ok in E as (? & ? & [_ ->]%encrypt_identity_opt_ok & E).
    unfold insert_session_or_nothing, session_by_hash in E. cbn [se_hash] in E.
    apply tx_bind_ok in E as (u1 & d2 & Hi%on_integrity_ok & E).
    apply tx_bind_ok in Hi as (o & d3 & [<- <-]%fetchone_ok & Hi). rewrite Ef in Hi.
    unfold insert_session in Hi. apply insert_row_ok in Hi as [Hok ->].
    tx_inv E. apply session_neq_false in E as ->. split; [by eexists|]. right.
    eexists. split_and!; [| |done|exact Hok|reflexivity]; reflexivity.
Qed.

Lemma ensure_session_noop ns k t d : session_stored d k -> _ensure_session ns k t d = Ok ((), d).
Proof.
  intros (row & Hf & Hk). unfold _ensure_session, session_by_hash.
  erewrite tx_bind_run by (by apply fetchone_ok). cbn. unfold lift, mbind, tx_bind. rewrite Hk.
  unfold guard. by rewrite (proj2 (session_neq_false k k)).
Qed.

Lemma set_intents_same d : set_intents (backfill_intents d) d = d.
Proof. by destruct d. Qed.

(** Recording an observation changes only metrics and backfill intents. *)
Definition metric_frame (d d' : db) : Prop :=
  d' = set_intents (backfill_intents d') (set_metrics (token_metrics d') d)
  /\ (token_metrics d' = token_metrics d \/ exists r, token_metrics d' = token_metrics d ++ [r]).

Lemma delete_intent_ok kind i p d u d' : delete_intent kind i p d = Ok (u, d') ->
  d' = set_intents (List.filter (fun r => negb (intent_matches kind i p r)) (backfill_intents d)) d
  /\ intents_ok d (backfill_intents d') = true.
Proof. unfold delete_intent, delete_intents. intros [Hok ->]%execute_ok. by split. Qed.

Lemma delete_intent_noop kind i p d u d' :
  delete_intent kind i p d = Ok (u, d') -> delete_intent kind i p d' = Ok ((), d').
Proof.
  intros [-> Hok]%delete_intent_ok. unfold delete_intent, delete_intents. apply execute_ok.
  cbn [backfill_intents set_intents] in *. rewrite filter_idem. split; [exact Hok|]. by destruct d.
Qed.

Lemma intent_matches_self r : intent_matches (ir_kind r) (ir_artifact_id r) (ir_profile_id r) r = true.
Proof.
  unfold intent_matches, eqb_of. rewrite bool_decide_eq_true_2 by done.
  by rewrite !(proj2 (py_eq_leibniz (A:=string) _ _)).
Qed.

Lemma insert_intent_or_nothing_ok r d u d' : insert_intent_or_nothing r d = Ok (u, d') ->
  (d' = d \/ d' = set_intents (backfill_intents d ++ [r]) d)
  /\ insert_intent_or_nothing r d' = Ok ((), d').
Proof.
  intros E. assert (E' := E). unfold insert_intent_or_nothing in E.
  apply tx_bind_ok in E as (o & d1 & [<- <-]%fetchone_ok & E).
  destruct (List.find _ _) as [x|] eqn:Ef.
  - apply tx_ret_ok in E as [_ <-]. split; [by left|]. by destruct u.
  - unfold insert_intent in E. apply insert_row_ok in E as [Hok ->]. split; [by right|].
    unfold insert_intent_or_nothing. erewrite tx_bind_run; cycle 1.
    { apply fetchone_ok. split; [|done]. cbn [backfill_intents set_intents].
      apply find_snoc; [done|apply intent_matches_self]. }
    done.
Qed.

Lemma put_frame ns m t d m' d' : put_in_transaction ns m t d = Ok (m', d') ->
  d' = d \/ exists r, d' = set_metrics (token_metrics d ++ [r]) d.
Proof.
  unfold put_in_transaction. intros ([ex|] & d1 & [-> _]%get_in_transaction_spec & E)%tx_bind_ok.
  - destruct (eqb_of ex m); [|done]. apply tx_ret_ok in E as [_ ->]. by left.
  - tx_inv E. unfold insert_metric in Hs2. apply insert_row_ok in Hs2 as [_ ->]. right. by eexists.
Qed.

Lemma record_frame ns h i c t d u d' :
  _record_canonical_observation ns h i c t d = Ok (u, d') -> metric_frame d d'.
Proof.
  unfold _record_canonical_observation, metric_frame. destruct (co_token_count c).
  - intros (m & d1 & Hm & E)%tx_bind_ok. tx_inv Hm.
    apply tx_bind_ok in E as (m' & d2 & [->|[r ->]]%put_frame & [-> _]%delete_intent_ok);
      destruct d1; cbn; eauto.
  - intros (o & d1 & [-> _]%get_in_transaction_spec & E)%tx_bind_ok. destruct o.
    + apply tx_ret_ok in E as [_ ->]. destruct d'; auto.
    + apply insert_intent_or_nothing_ok in E as [[->| ->] _]; destruct d; auto.
Qed.

(** Recording the same observation again changes nothing. *)
Lemma record_again ns ns' h i c t d u d' : nonces_ok ns ->
  _record_canonical_observation ns h i c t d = Ok (u, d') ->
  _record_canonical_observation ns' h i c t d' = Ok ((), d').
Proof.
  intros Hns. unfold _record_canonical_observation. destruct (co_token_count c) as [n|].
  - intros (m & d1 & Hm & E)%tx_bind_ok. tx_inv Hm.
    apply tx_bind_ok in E as (m' & d2 & Hput & Hdel).
    assert (Hm' := Hm). apply construct_ok in Hm' as [Hv <-].
    destruct (put_ok _ _ _ _ _ _ Hns Hv Hput) as (-> & Hmap & _).
    unfold lift, mbind, tx_bind, model_result. rewrite Hm.
    assert (Hat : metric_at d' ARTIFACT_EVENT i (co_tokenizer_profile_id c) = Ok (Some
       {| tm_artifact_kind := ARTIFACT_EVENT; tm_artifact_id := i;
          tm_tokenizer_profile_id := co_tokenizer_profile_id c; tm_token_count := n |})).
    { transitivity (metric_at d2 ARTIFACT_EVENT i (co_tokenizer_profile_id c)).
      - apply metric_at_rows. apply delete_intent_ok in Hdel as [-> _]. done.
      - rewrite Hmap. by rewrite bool_decide_eq_true_2. }
    unfold put_in_transaction. erewrite tx_bind_run by (by apply get_in_transaction_spec).
    unfold eqb_of. rewrite bool_decide_eq_true_2 by done. unfold mret, tx_ret.
    by eapply delete_intent_noop.
  - intros (o & d1 & [-> Hat]%get_in_transaction_spec & E)%tx_bind_ok. destruct o as [m|].
    + apply tx_ret_ok in E as [_ ->].
      by erewrite tx_bind_run by (by apply get_in_transaction_spec).
    + assert (Hat' : metric_at d' ARTIFACT_EVENT i (co_tokenizer_profile_id c) = Ok None).
      { rewrite <- Hat. apply metric_at_rows.
        by apply insert_intent_or_nothing_ok in E as [[->| ->] _]. }
      erewrite tx_bind_run by (by apply get_in_transaction_spec).
      apply insert_intent_or_nothing_ok in E as [_ E].
      exact E.
Qed.
Lemma event_from_row_fields k row e : _event_from_row k row = Ok e ->
  er_session row = session_key_hash k /\ EventEnvelope_valid e = true
  /\ ev_event_id e = er_event_id row /\ ev_session_key e = k /\ ev_sequence e = er_sequence row
  /\ ev_event_type e = er_event_type row /\ ev_role e = er_role row
  /\ ev_source_hook e = er_source_hook row /\ ev_idempotency_key e = er_idempotency_key row
  /\ ev_created_at e = er_created_at row.
Proof.
  unfold _event_from_row. intros [Hh Hrow]%raise_if_ok. apply negb_false_iff in Hh.
  apply (py_eq_leibniz (A:=string)) in Hh.
  apply result_bind_ok in Hrow as (ct & _ & (tcv & _ & Hrow)%result_bind_ok).
  destruct (construct _ _) as [ev'|] eqn:Ec; [|done]. injection Hrow as ->.
  apply construct_ok in Ec as [Hv <-]. done.
Qed.

(** The sessions after one sequence of session [hash] was allocated. *)
Definition allocated (hash : string) (sequence t : Z) (rows : list SessionRow) : list SessionRow :=
  map (fun r => if (se_hash r ==? hash) && (se_next_event_sequence r =? sequence)
                then bump_sequence t r else r) rows.

Lemma append_event_ok ns id k ty c ik tc t d e d' : nonces_ok ns ->
  append_event ns id k ty c ik tc t d = Ok (e, d') ->
  exists srow row,
    List.find (fun r => se_hash r ==? session_key_hash k) (sessions d) = Some srow
    /\ EventEnvelope_create id k (se_next_event_sequence srow) ty c ik tc t = Ok e
    /\ _event_from_row k row = Ok e
    /\ er_session row = session_key_hash k
    /\ events_ok (set_sessions (allocated (session_key_hash k) (se_next_event_sequence srow) t
                                          (sessions d)) d) (journal_events d ++ [row]) = true
    /\ d' = set_events (journal_events d ++ [row])
             (set_sessions (allocated (session_key_hash k) (se_next_event_sequence srow) t (sessions d)) d).
Proof.
  intros Hns. unfold append_event, session_by_hash.
  intros (o & d1 & [<- <-]%fetchone_ok & E)%tx_bind_ok.
  destruct (List.find _ _) as [srow|] eqn:Ef; [|done].
  apply tx_bind_ok in E as (n & d1 & Hup & E). unfold update_sessions in Hup.
  apply update_rows_ok in Hup as (-> & Hsok & ->).
  apply tx_bind_ok in E as (u & d2 & [_ <-]%inject_ok & E).
  apply tx_bind_ok in E as (ev & d2 & Hev & E). tx_inv Hev.
  apply tx_bind_ok in E as (u1 & d2 & [_ <-]%inject_ok & E).
  apply tx_bind_ok in E as (ce & d2 & Hce & E). tx_inv Hce.
  apply tx_bind_ok in E as (te & d2 & Hte & E). tx_inv Hte.
  apply tx_bind_ok in E as (u2 & d3 & Hin%on_integrity_ok & E). tx_inv E.
  unfold insert_event in Hin. apply insert_row_ok in Hin as [Hok ->].
  exists srow. eexists. split; [done|]. split; [done|].
  assert (Hc := Hev). apply EventEnvelope_create_ok in Hc as [Hv Hc].
  split_and!; [| |exact Hok|reflexivity].
  - unfold _event_from_row. cbn [er_session er_event_id er_content er_token_count_envelope
      er_sequence er_event_type er_role er_source_hook er_idempotency_key er_created_at].
    rewrite raise_if_false by (apply negb_false_iff; by apply (py_eq_leibniz (A:=string))).
    rewrite (codec_text _ _ _ _ _ _ Hns Hce), (codec_int _ _ _ _ _ _ Hns Hte).
    cbn [codec_result mbind result_bind].
    assert (construct EventEnvelope_valid e = Ok e) as Hcons by (by apply construct_ok).
    revert Hcons. rewrite Hc. cbn [ev_event_id ev_session_key ev_sequence ev_event_type ev_role
      ev_content ev_source_hook ev_idempotency_key ev_token_count ev_created_at].
    by intros ->.
  - done.
Qed.

Lemma find_idempotent_ok k hook ik d o d' : _find_idempotent_event k hook ik d = Ok (o, d') ->
  d' = d /\ match o with
            | None => List.find (idempotent_match k hook ik) (journal_events d) = None
            | Some e => exists row, List.find (idempotent_match k hook ik) (journal_events d) = Some row
                                    /\ _event_from_row k row = Ok e
            end.
Proof.
  unfold _find_idempotent_event. intros (r & d1 & [<- <-]%fetchone_ok & E)%tx_bind_ok.
  destruct (List.find _ _) as [row|] eqn:Ef; tx_inv E; split; eauto.
Qed.

Lemma find_idempotent_run k hook ik d row e :
  List.find (idempotent_match k hook ik) (journal_events d) = Some row ->
  _event_from_row k row = Ok e -> _find_idempotent_event k hook ik d = Ok (Some e, d).
Proof.
  intros Hf He. unfold _find_idempotent_event. erewrite tx_bind_run by (by apply fetchone_ok).
  unfold lift, mbind, tx_bind. by rewrite He.
Qed.

Lemma is_exact_replay_spec e r : _is_exact_replay e r = true <->
  e = {| ev_event_id := ev_event_id r; ev_session_key := ev_session_key r;
         ev_sequence := ev_sequence e; ev_event_type := ev_event_type r; ev_role := ev_role r;
         ev_content := ev_content r; ev_source_hook := ev_source_hook r;
         ev_idempotency_key := ev_idempotency_key r; ev_token_count := ev_token_count r;
         ev_created_at := ev_created_at r |}.
Proof.
  unfold _is_exact_replay, eqb_of. rewrite !andb_true_iff, !bool_decide_eq_true.
  rewrite !(py_eq_leibniz (A:=string)), !(py_eq_leibniz (A:=Z)).
  unfold py_eq, SessionKey_py_eq, eqb_of. rewrite bool_decide_eq_true.
  split.
  - intros H3. decompose [and] H3. destruct e, r; cbn in *; congruence.
  - intros ->. cbn. by split_and!.
Qed.

(** The rows an observation does not touch. *)
Lemma frame_session_stored d d' k : metric_frame d d' -> session_stored d k -> session_stored d' k.
Proof. by intros [-> _]. Qed.
Lemma frame_events d d' : metric_frame d d' -> journal_events d' = journal_events d.
Proof. by intros [-> _]. Qed.

(** The sequence allocation keeps sessions readable. *)
Lemma allocated_session_stored h s t d rows k : session_stored d k ->
  session_stored (set_events rows (set_sessions (allocated h s t (sessions d)) d)) k.
Proof.
  intros (row & Hf & Hk). unfold session_stored. cbn [sessions set_events set_sessions].
  unfold allocated. rewrite find_map by (intros x; by destruct (_ && _)). rewrite Hf. cbn.
  eexists. split; [reflexivity|]. by destruct (_ && _).
Qed.

(** What a successful capture leaves behind: a stored session, one idempotent
    row that reads back as the returned event, and a recorded observation. *)
Lemma capture_ok ns id k ty c ik tc canon t d e d1 : nonces_ok ns ->
  _capture_event ns id k ty c ik tc canon t d = (Ok e, d1) ->
  exists inst requested, t = Aware inst
    /\ EventEnvelope_create id k 1 ty c ik tc inst = Ok requested
    /\ session_stored d1 k
    /\ (exists row, List.find (idempotent_match k (ev_source_hook requested) ik)
                     (journal_events d1) = Some row /\ _event_from_row k row = Ok e)
    /\ _is_exact_replay e requested = true
    /\ fault_injector "capture.after_session" = false
    /\ fault_injector "capture.after_metric" = false
    /\ forall ns', _record_canonical_observation ns' (session_key_hash k) (ev_event_id e) canon inst d1
                   = Ok ((), d1).
Proof.
  intros Hns. unfold _capture_event. destruct t as [|inst]; [by intros [=]|]. cbn [normalize_datetime].
  destruct (model_result _) as [requested|] eqn:Er; [|by intros [=]].
  apply model_result_ok in Er. intros E%transaction_ok.
  apply tx_bind_ok in E as (u & d2 & Hens & E).
  apply ensure_session_ok in Hens as [Hst _].
  apply tx_bind_ok in E as (u1 & d3 & [Hf1 <-]%inject_ok & E).
  apply tx_bind_ok in E as (o & d3 & [-> Hfind]%find_idempotent_ok & E).
  exists inst, requested. split; [done|]. split; [done|]. destruct o as [ex|].
  - apply tx_bind_ok in E as (u2 & d3 & [Hrep <-]%guard_ok & E). apply negb_false_iff in Hrep.
    apply tx_bind_ok in E as (u3 & d3 & Hrec & E).
    apply tx_bind_ok in E as (u4 & d4 & [Hf2 <-]%inject_ok & [<- <-]%tx_ret_ok).
    pose proof (record_frame _ _ _ _ _ _ _ _ Hrec) as Hfr.
    split_and!; try done; [by eapply frame_session_stored| |].
    + by rewrite (frame_events _ _ Hfr).
    + intros ns'. eapply record_again; [exact Hns|exact Hrec].
  - apply tx_bind_ok in E as (ev & d3 & Happ & E).
    apply tx_bind_ok in E as (u2 & d4 & [_ <-]%inject_ok & E).
    apply tx_bind_ok in E as (u3 & d4 & Hrec & E).
    apply tx_bind_ok in E as (u4 & d5 & [Hf2 <-]%inject_ok & [<- <-]%tx_ret_ok).
    pose proof (record_frame _ _ _ _ _ _ _ _ Hrec) as Hfr.
    destruct (append_event_ok _ _ _ _ _ _ _ _ _ _ _ Hns Happ)
      as (srow & row & Hs & Hev & Hrow & Hsess & _ & ->).
    apply EventEnvelope_create_ok in Hev as [_ Hev].
    apply EventEnvelope_create_ok in Er as [_ ->].
    split_and!; try done; [| |by rewrite Hev; apply is_exact_replay_spec|].
    + eapply frame_session_stored; [exact Hfr|]. by apply allocated_session_stored.
    + exists row. rewrite (frame_events _ _ Hfr). cbn [journal_events set_events]. split; [|done].
      apply find_snoc; [done|].
      apply event_from_row_fields in Hrow as (_ & _ & _ & _ & _ & _ & _ & E6 & E7 & _).
      rewrite Hev in E6, E7. cbn in E6, E7.
      unfold idempotent_match, eqb_of. rewrite Hsess. cbn [ev_source_hook]. rewrite <- E6, <- E7.
      rewrite bool_decide_eq_true_2 by done.
      by rewrite !(proj2 (py_eq_leibniz (A:=string) _ _)).
    + intros ns'. eapply record_again; [exact Hns|exact Hrec].
Qed.

(** *** Invariants *)

Lemma schema_ensure_session ns k t : steps_by schema_kept (_ensure_session ns k t).
Proof.
  unfold _ensure_session, session_by_hash, encrypt_identity_opt, encrypt_identity,
    insert_session_or_nothing, session_by_hash. steps_by_tac; auto with ac.
Qed.
Lemma schema_put ns m t : steps_by schema_kept (put_in_transaction ns m t).
Proof. unfold put_in_transaction, get_in_transaction. steps_by_tac; auto with ac. Qed.
Lemma schema_record ns h i c t : steps_by schema_kept (_record_canonical_observation ns h i c t).
Proof.
  unfold _record_canonical_observation, get_in_transaction, insert_intent_or_nothing, delete_intent.
  steps_by_tac; auto using schema_put with ac.
Qed.
Lemma schema_append ns id k ty c ik tc t : steps_by schema_kept (append_event ns id k ty c ik tc t).
Proof.
  unfold append_event, session_by_hash. steps_by_tac; auto with ac.
  by apply schema_update_sessions.
Qed.
Lemma schema_find_idempotent k h ik : steps_by schema_kept (_find_idempotent_event k h ik).
Proof. unfold _find_idempotent_event. steps_by_tac. Qed.

(** The events of one session, in insertion order. *)
Definition events_of (hash : string) (d : db) : list EventRow :=
  List.filter (fun r => er_session r ==? hash) (journal_events d).
(** A session's events are numbered 1, 2, ... up to its next sequence. *)
Definition journal_contiguous (d : db) : Prop := forall row, row ∈ sessions d ->
  map er_sequence (events_of (se_hash row) d) = py_range 1 (se_next_event_sequence row).
Definition journal_inv (d : db) : Prop := schema_ok d = true /\ journal_contiguous d.

Lemma same_hash_same_row d r s : schema_ok d = true -> r ∈ sessions d -> s ∈ sessions d ->
  se_hash r = se_hash s -> r = s.
Proof.
  intros Hd Hr Hs E. apply schema_ok_spec in Hd as [Hd _]. unfold sessions_ok in Hd.
  apply andb_true_iff in Hd as [[_ Hu]%andb_true_iff _].
  unfold unique_by, no_duplicates in Hu. apply bool_decide_eq_true in Hu.
  apply list_elem_of_lookup in Hr as [i Hi]. apply list_elem_of_lookup in Hs as [j Hj].
  assert (i = j) as ->; [|congruence].
  apply (NoDup_lookup (map se_hash (sessions d)) i j (se_hash r)); [done|..];
    rewrite list_lookup_fmap; [by rewrite Hi | rewrite Hj; cbn; by rewrite E].
Qed.

Lemma next_sequence_positive d r : schema_ok d = true -> r ∈ sessions d ->
  1 <= se_next_event_sequence r.
Proof.
  intros Hd Hr. apply schema_ok_spec in Hd as [Hd _]. unfold sessions_ok in Hd.
  apply andb_true_iff in Hd as [[Hrows _]%andb_true_iff _]. rewrite forallb_true_iff in Hrows.
  specialize (Hrows r Hr). unfold session_row_ok in Hrows.
  by apply andb_true_iff in Hrows as [_ Hn%Z.leb_le].
Qed.

Lemma no_events_of_unknown d h : schema_ok d = true ->
  List.find (fun r => se_hash r ==? h) (sessions d) = None -> events_of h d = [].
Proof.
  intros Hd Hf. apply schema_ok_spec in Hd as (_ & Hd & _). unfold events_ok in Hd.
  apply andb_true_iff in Hd as [[[Hrows _]%andb_true_iff _]%andb_true_iff _].
  apply elem_of_nil_inv. intros r [Hr He]%list_elem_of_In%filter_In. apply list_elem_of_In in Hr.
  rewrite forallb_true_iff in Hrows. specialize (Hrows r Hr). apply andb_true_iff in Hrows as [_ Href].
  apply references_spec in Href as (s & Hs & E). rewrite find_none_ext in Hf. specialize (Hf s Hs).
  apply (py_eq_leibniz (A:=string)) in He. subst.
  apply not_true_iff_false in Hf. apply Hf. by apply (py_eq_leibniz (A:=string)).
Qed.

Lemma ensure_session_inv ns k t d u d' :
  journal_inv d -> _ensure_session ns k t d = Ok (u, d') -> journal_inv d'.
Proof.
  intros [Hd Hj] E. split; [by eapply schema_ensure_session|].
  apply ensure_session_ok in E as [_ [->|(row & Hh & Hn & Hf & _ & ->)]]; [done|].
  intros r Hr. cbn [sessions set_sessions] in Hr.
  change (events_of (se_hash r) (set_sessions (sessions d ++ [row]) d)) with (events_of (se_hash r) d).
  apply elem_of_app in Hr as [Hr| ->%list_elem_of_singleton]; [by apply Hj|].
  rewrite Hh, Hn, (no_events_of_unknown _ _ Hd Hf). done.
Qed.

Lemma append_event_inv ns id k ty c ik tc t d e d' : nonces_ok ns -> journal_inv d ->
  append_event ns id k ty c ik tc t d = Ok (e, d') -> journal_inv d'.
Proof.
  intros Hns [Hd Hj] E. split; [by eapply schema_append|].
  destruct (append_event_ok _ _ _ _ _ _ _ _ _ _ _ Hns E)
    as (srow & row & Hs & Hev & Hrow & Hsess & _ & ->).
  apply find_some_elem in Hs as [Hs Hh]. apply (py_eq_leibniz (A:=string)) in Hh.
  apply event_from_row_fields in Hrow as (_ & _ & _ & _ & Hseq & _).
  apply EventEnvelope_create_ok in Hev as [_ ->]. cbn in Hseq.
  intros r Hr. cbn [sessions set_events set_sessions] in Hr.
  apply list_elem_of_fmap in Hr as (r0 & -> & Hr0).
  assert (Hhash : se_hash (if (se_hash r0 ==? session_key_hash k)
      && (se_next_event_sequence r0 =? se_next_event_sequence srow) then bump_sequence t r0 else r0)
    = se_hash r0) by (by destruct (_ && _)). rewrite Hhash.
  unfold events_of. cbn [journal_events set_events]. rewrite List.filter_app, map_app.
  cbn [List.filter]. rewrite Hsess. specialize (Hj r0 Hr0). unfold events_of in Hj. rewrite Hj.
  destruct (se_hash r0 ==? session_key_hash k) eqn:Eh.
  - apply (py_eq_leibniz (A:=string)) in Eh.
    assert (r0 = srow) as -> by (eapply same_hash_same_row; eauto; congruence).
    rewrite Z.eqb_refl. cbn [andb bump_sequence se_next_event_sequence].
    rewrite Hh, (proj2 (py_eq_leibniz (A:=string) _ _)) by done. cbn [map]. rewrite <- Hseq.
    pose proof (next_sequence_positive _ _ Hd Hs).
    rewrite <- (py_range_app 1 (se_next_event_sequence srow) (se_next_event_sequence srow + 1)) by lia.
    f_equal. rewrite (py_range_cons (se_next_event_sequence srow)) by lia.
    by rewrite py_range_nil by lia.
  - cbn [andb]. assert ((session_key_hash k ==? se_hash r0) = false) as ->; [|by rewrite app_nil_r].
    apply not_true_iff_false. intros E2%(py_eq_leibniz (A:=string)).
    apply not_true_iff_false in Eh. apply Eh. by apply (py_eq_leibniz (A:=string)).
Qed.

Lemma record_inv ns h i c t d u d' : journal_inv d ->
  _record_canonical_observation ns h i c t d = Ok (u, d') -> journal_inv d'.
Proof.
  intros [Hd Hj] E. split; [by eapply schema_record|]. apply record_frame in E as [-> _]. exact Hj.
Qed.

(** Every capture, successful or not, keeps the Journal contiguous. *)
Lemma capture_inv ns id k ty c ik tc canon t d r d' : nonces_ok ns -> journal_inv d ->
  _capture_event ns id k ty c ik tc canon t d = (r, d') -> journal_inv d'.
Proof.
  intros Hns Hd. unfold _capture_event. destruct (normalize_datetime t) as [inst|]; [|by intros [= _ <-]].
  destruct (model_result _) as [requested|]; [|by intros [= _ <-]].
  destruct r as [e|err]; [intros E%transaction_ok | by intros [_ ->]%transaction_err].
  apply tx_bind_ok in E as (u & d2 & Hens & E). apply ensure_session_inv in Hens; [|done].
  apply tx_bind_ok in E as (u1 & d3 & [_ <-]%inject_ok & E).
  apply tx_bind_ok in E as (o & d3 & [-> _]%find_idempotent_ok & E). destruct o as [ex|].
  - apply tx_bind_ok in E as (u2 & d3 & [_ <-]%guard_ok & E).
    apply tx_bind_ok in E as (u3 & d3 & Hrec & E). apply record_inv in Hrec; [|done].
    by apply tx_bind_ok in E as (u4 & d4 & [_ <-]%inject_ok & [_ <-]%tx_ret_ok).
  - apply tx_bind_ok in E as (ev & d3 & Happ & E). apply append_event_inv in Happ; [|done..].
    apply tx_bind_ok in E as (u2 & d4 & [_ <-]%inject_ok & E).
    apply tx_bind_ok in E as (u3 & d4 & Hrec & E). apply record_inv in Hrec; [|done].
    by apply tx_bind_ok in E as (u4 & d5 & [_ <-]%inject_ok & [_ <-]%tx_ret_ok).
Qed.
End journal_lemmas.

(** ** Concrete captures for the witnesses *)

Definition toy_observation : CanonicalMetricObservation :=
  {| co_tokenizer_profile_id := "p"; co_token_count := Some 3 |}.
Definition toy_capture (id content ik : string) (t : Z) (d : db) : result repo_error EventEnvelope * db :=
  _capture_event (H := toy_sha256) (H0 := toy_storage) (H1 := toy_environment) toy_nonces id
    example_key USER_MESSAGE content ik 3 toy_observation (Aware t) d.
(** A database with one captured event. *)
Definition toy_db1 : db := (toy_capture "event-1" "hello" "key-1" 5 empty_db).2.
Definition toy_event1 : EventEnvelope :=
  {| ev_event_id := "event-1"; ev_session_key := example_key; ev_sequence := 1;
     ev_event_type := USER_MESSAGE; ev_role := ROLE_USER; ev_content := "hello";
     ev_source_hook := ON_LLM_REQUEST; ev_idempotency_key := "key-1"; ev_token_count := 3;
     ev_created_at := 5 |}.

(** ** Properties *)

Section journal_properties.
Context `{Sha256, StorageCodecLaws, Environment}.

(** Captures are idempotent: repeating a successful capture with the same
    arguments, whatever nonces it draws, returns the same event and leaves
    every table exactly as it was. *)
Theorem capture_replay_is_noop ns ns' id k ty c ik tc canon t d e d1 : nonces_ok ns ->
  _capture_event ns id k ty c ik tc canon t d = (Ok e, d1) ->
  _capture_event ns' id k ty c ik tc canon t d1 = (Ok e, d1).
Proof.
  intros Hns Hcap. destruct (capture_ok _ _ _ _ _ _ _ _ _ _ _ _ Hns Hcap)
    as (inst & requested & -> & Hreq & Hst & (row & Hfind & Hrow) & Hrep & Hf1 & Hf2 & Hrec).
  unfold _capture_event. cbn [normalize_datetime]. rewrite Hreq. cbn [model_result].
  apply transaction_ok. rewrite (tx_bind_run _ _ _ _ _ (ensure_session_noop ns' _ inst _ Hst)).
  rewrite (tx_bind_run _ _ _ _ _ (inject_run _ _ Hf1)).
  rewrite (tx_bind_run _ _ _ _ _ (find_idempotent_run _ _ _ _ _ _ Hfind Hrow)).
  rewrite (tx_bind_run _ _ _ _ _ (guard_run (negb (_is_exact_replay e requested)) _ _ ltac:(by rewrite Hrep))).
  rewrite (tx_bind_run _ _ _ _ _ (Hrec ns')). by rewrite (tx_bind_run _ _ _ _ _ (inject_run _ _ Hf2)).
Qed.

(** Reusing an idempotency tuple with different immutable data (event id,
    content, token count or creation time) raises [IdempotencyConflict] and
    leaves every table exactly as it was. *)
Theorem capture_conflict_rejected ns ns' id k ty c ik tc canon t d e d1 id2 c2 tc2 canon2 inst2 :
  nonces_ok ns -> _capture_event ns id k ty c ik tc canon t d = (Ok e, d1) ->
  (ev_event_id e, ev_content e, ev_token_count e, ev_created_at e) <> (id2, c2, tc2, inst2) ->
  NonEmptyStr id2 = true -> 0 <= tc2 ->
  _capture_event ns' id2 k ty c2 ik tc2 canon2 (Aware inst2) d1 = (Err IdempotencyConflict, d1).
Proof.
  intros Hns Hcap Hdiff Hid Htc. destruct (capture_ok _ _ _ _ _ _ _ _ _ _ _ _ Hns Hcap)
    as (inst & requested & -> & Hreq & Hst & (row & Hfind & Hrow) & Hrep & Hf1 & Hf2 & Hrec).
  apply EventEnvelope_create_ok in Hreq as [Hv Hreq].
  assert (Hreq2 : EventEnvelope_create id2 k 1 ty c2 ik tc2 inst2 = Ok
    {| ev_event_id := id2; ev_session_key := k; ev_sequence := 1; ev_event_type := ty;
       ev_role := (event_mapping ty).1; ev_content := c2; ev_source_hook := (event_mapping ty).2;
       ev_idempotency_key := ik; ev_token_count := tc2; ev_created_at := inst2 |}).
  { unfold EventEnvelope_create. destruct (event_mapping ty) as [role hook] eqn:Em.
    apply construct_ok. split; [|done].
    subst requested. unfold EventEnvelope_valid in *. cbn [ev_event_id ev_session_key ev_sequence
      ev_idempotency_key ev_token_count] in *.
    apply andb_true_iff in Hv as [[[[[_ Hk]%andb_true_iff _]%andb_true_iff Hik]%andb_true_iff
      _]%andb_true_iff Hm].
    rewrite Hid, Hk, Hik. unfold NonNegativeInt. rewrite (proj2 (Z.leb_le 0 tc2)) by done.
    unfold validate_authoritative_mapping in *. cbn in Hm |- *. by rewrite Em in *. }
  unfold _capture_event. cbn [normalize_datetime]. rewrite Hreq2. cbn [model_result].
  apply transaction_err. split; [|done].
  rewrite (tx_bind_run _ _ _ _ _ (ensure_session_noop ns' _ inst2 _ Hst)).
  rewrite (tx_bind_run _ _ _ _ _ (inject_run _ _ Hf1)). cbn [ev_source_hook].
  rewrite Hreq in Hfind. cbn [ev_source_hook] in Hfind.
  rewrite (tx_bind_run _ _ _ _ _ (find_idempotent_run _ _ _ _ _ _ Hfind Hrow)).
  apply tx_bind_err. apply guard_run_true. apply negb_true_iff, not_true_iff_false.
  intros Hsame%is_exact_replay_spec. apply Hdiff. by rewrite Hsame.
Qed.

(** Every capture either replays a durable event, leaving the Journal as
    it was, or appends exactly one row, which reads back as the returned
    event and carries the session's next sequence; and it keeps each
    session's events numbered 1, 2, 3, ... without gaps, also when it fails. *)
Theorem capture_appends_next_sequence ns id k ty c ik tc canon t d r d' :
  nonces_ok ns -> journal_inv d ->
  _capture_event ns id k ty c ik tc canon t d = (r, d') ->
  journal_inv d'
  /\ match r with
     | Err _ => d' = d
     | Ok e =>
         (exists row, _event_from_row k row = Ok e
           /\ (row ∈ journal_events d /\ journal_events d' = journal_events d
               \/ journal_events d' = journal_events d ++ [row]
                  /\ ev_sequence e = len (events_of (session_key_hash k) d) + 1))
     end.
Proof.
  intros Hns Hd Hcap. split; [by eapply capture_inv|].
  unfold _capture_event in Hcap. destruct (normalize_datetime t) as [inst|]; [|by injection Hcap as <- <-].
  destruct (model_result _) as [requested|]; [|by injection Hcap as <- <-].
  destruct r as [e|err]; [|by apply transaction_err in Hcap as [_ ->]].
  apply transaction_ok in Hcap as E. apply tx_bind_ok in E as (u & d2 & Hens & E).
  assert (Hd2 := ensure_session_inv _ _ _ _ _ _ Hd Hens).
  assert (Hev2 : journal_events d2 = journal_events d).
  { by apply ensure_session_ok in Hens as [_ [->|(? & _ & _ & _ & _ & ->)]]. }
  apply tx_bind_ok in E as (u1 & d3 & [_ <-]%inject_ok & E).
  apply tx_bind_ok in E as (o & d3 & [-> Hfind]%find_idempotent_ok & E). destruct o as [ex|].
  - apply tx_bind_ok in E as (u2 & d3 & [_ <-]%guard_ok & E).
    apply tx_bind_ok in E as (u3 & d3 & Hrec%record_frame%frame_events & E).
    apply tx_bind_ok in E as (u4 & d4 & [_ <-]%inject_ok & [<- <-]%tx_ret_ok).
    destruct Hfind as (row & [Hf _]%find_some_elem & Hrow). exists row. split; [done|]. left.
    rewrite Hev2 in *. done.
  - apply tx_bind_ok in E as (ev & d3 & Happ & E).
    apply tx_bind_ok in E as (u2 & d4 & [_ <-]%inject_ok & E).
    apply tx_bind_ok in E as (u3 & d4 & Hrec%record_frame%frame_events & E).
    apply tx_bind_ok in E as (u4 & d5 & [_ <-]%inject_ok & [<- <-]%tx_ret_ok).
    destruct (append_event_ok _ _ _ _ _ _ _ _ _ _ _ Hns Happ)
      as (srow & row & Hs & Hev & Hrow & Hsess & _ & ->).
    exists row. split; [done|]. right. rewrite Hrec. cbn [journal_events set_events].
    rewrite Hev2. split; [done|].
    apply EventEnvelope_create_ok in Hev as [_ ->]. cbn [ev_sequence].
    apply find_some_elem in Hs as [Hs Hh]. apply (py_eq_leibniz (A:=string)) in Hh.
    destruct Hd2 as [Hd2 Hj]. specialize (Hj srow Hs). rewrite Hh in Hj.
    apply (f_equal (@List.length Z)) in Hj. rewrite length_map, length_py_range in Hj.
    unfold events_of, len in *. rewrite Hev2 in Hj.
    pose proof (next_sequence_positive _ _ Hd2 Hs). lia.
Qed.
End journal_properties.

Lemma capture_replay_is_noop_witness :
  toy_capture "event-1" "hello" "key-1" 5 empty_db = (Ok toy_event1, toy_db1)
  /\ toy_capture "event-1" "hello" "key-1" 5 toy_db1 = (Ok toy_event1, toy_db1).
Proof.
  assert (E : toy_capture "event-1" "hello" "key-1" 5 empty_db = (Ok toy_event1, toy_db1))
    by (vm_compute; reflexivity).
  split; [exact E|]. unfold toy_capture in E |- *.
  revert E. generalize toy_db1. intros d1 E.
  eapply (@capture_replay_is_noop toy_sha256 toy_storage toy_storage_laws toy_environment).
  { exact toy_nonces_ok. }
  exact E.
Defined.

Lemma capture_conflict_rejected_witness :
  toy_capture "event-1" "changed" "key-1" 5 toy_db1 = (Err IdempotencyConflict, toy_db1).
Proof.
  assert (E : toy_capture "event-1" "hello" "key-1" 5 empty_db = (Ok toy_event1, toy_db1))
    by (vm_compute; reflexivity).
  unfold toy_capture in E |- *. apply (capture_conflict_rejected (H1 := toy_storage_laws) _ toy_nonces _ _ _ _ _ _ _ _ _ _ _
           "event-1" "changed" 3 toy_observation 5 toy_nonces_ok E); [discriminate|reflexivity|lia].
Defined.

Lemma capture_appends_next_sequence_witness :
  journal_inv empty_db /\ journal_inv toy_db1 /\ len (events_of (session_key_hash (H := toy_sha256) example_key) toy_db1) = 1.
Proof.
  assert (E : toy_capture "event-1" "hello" "key-1" 5 empty_db = (Ok toy_event1, toy_db1))
    by (vm_compute; reflexivity).
  unfold toy_capture in E. assert (H0 : journal_inv empty_db).
  { split; [vm_compute; reflexivity|]. intros r Hr. exfalso. exact (not_elem_of_nil r Hr). }
  split; [done|]. split; [|vm_compute; reflexivity].
  revert E. generalize toy_db1. intros d1 E.
  refine (proj1 (@capture_appends_next_sequence toy_sha256 toy_storage toy_storage_laws
    toy_environment _ _ _ _ _ _ _ _ _ _ _ _ _ H0 E)). exact toy_nonces_ok.
Defined.
