(* ===== verification/Jobs.v ===== *)
(** Compaction Jobs of [storage/repository.py]: intents, claims, fenced worker
    transitions, failures and lease recovery. *)
From S2P Require Import Prelude PyString PyFloat Domain Validation PyJson Crypto Store Instances.
From S2P Require Import TokenMetrics Journal.
Open Scope string_scope.
Open Scope list_scope.
Open Scope Z_scope.

(** [_ALLOWED_WORKER_TRANSITIONS] *)
Definition allowed_transition (from to : CompactionJobState) : bool :=
  match from, to with
  | LEASED, COMPILING | COMPILING, AUDITING | COMPILING, READY_TO_COMMIT
  | AUDITING, READY_TO_COMMIT => true
  | _, _ => false
  end.

(** [WHERE state = 'PENDING' OR (state = 'RETRY_WAIT' AND next_retry_at <= now)] *)
Definition eligible (now : Z) (r : JobRow) : bool :=
  eqb_of (jr_state r) PENDING
  || (eqb_of (jr_state r) RETRY_WAIT
      && match jr_next_retry_at r with Some t => t <=? now | None => false end).

(** [ORDER BY created_at, job_id] *)
Definition job_leb (a b : JobRow) : bool :=
  (jr_created_at a <? jr_created_at b)
  || ((jr_created_at a =? jr_created_at b) && str_leb (jr_job_id a) (jr_job_id b)).
(** The first row in that order. *)
Fixpoint first_job (rows : list JobRow) : option JobRow :=
  match rows with
  | [] => None
  | r :: rest =>
      match first_job rest with
      | None => Some r
      | Some s => if job_leb r s then Some r else Some s
      end
  end.
Fixpoint insert_job_ordered (r : JobRow) (rows : list JobRow) : list JobRow :=
  match rows with
  | [] => [r]
  | s :: rest => if job_leb r s then r :: rows else s :: insert_job_ordered r rest
  end.
Definition order_jobs (rows : list JobRow) : list JobRow := foldr insert_job_ordered [] rows.

(** [lease_expires_at <= now], false on NULL. *)
Definition lease_expired (now : Z) (r : JobRow) : bool :=
  match jr_lease_expires_at r with Some t => t <=? now | None => false end.
Definition lease_live (now : Z) (r : JobRow) : bool :=
  match jr_lease_expires_at r with Some t => now <? t | None => false end.

(** *** The UPDATE statements *)

Definition cancel_row (now : Z) (r : JobRow) : JobRow :=
  {| jr_job_id := jr_job_id r; jr_session := jr_session r; jr_state := CANCELLED;
     jr_target := jr_target r; jr_intent := jr_intent r; jr_base := jr_base r;
     jr_base_pointer_version := jr_base_pointer_version r; jr_candidate := jr_candidate r;
     jr_lease_owner := jr_lease_owner r; jr_lease_epoch := jr_lease_epoch r;
     jr_lease_expires_at := jr_lease_expires_at r; jr_attempt_count := jr_attempt_count r;
     jr_next_retry_at := None; jr_error_stage := jr_error_stage r;
     jr_error_code := jr_error_code r; jr_error_message := jr_error_message r;
     jr_created_at := jr_created_at r; jr_updated_at := now; jr_committed_at := jr_committed_at r |}.

Definition claim_row (base : option string) (base_pointer_version : Z) (worker_id : string)
    (lease now : Z) (r : JobRow) : JobRow :=
  {| jr_job_id := jr_job_id r; jr_session := jr_session r; jr_state := LEASED;
     jr_target := jr_intent r; jr_intent := jr_intent r; jr_base := base;
     jr_base_pointer_version := base_pointer_version; jr_candidate := None;
     jr_lease_owner := Some worker_id; jr_lease_epoch := jr_lease_epoch r + 1;
     jr_lease_expires_at := Some lease; jr_attempt_count := jr_attempt_count r + 1;
     jr_next_retry_at := None; jr_error_stage := None; jr_error_code := None;
     jr_error_message := None; jr_created_at := jr_created_at r; jr_updated_at := now;
     jr_committed_at := None |}.

Definition transition_row (to_state : CompactionJobState) (candidate : option string) (now : Z)
    (r : JobRow) : JobRow :=
  {| jr_job_id := jr_job_id r; jr_session := jr_session r; jr_state := to_state;
     jr_target := jr_target r; jr_intent := jr_intent r; jr_base := jr_base r;
     jr_base_pointer_version := jr_base_pointer_version r; jr_candidate := candidate;
     jr_lease_owner := jr_lease_owner r; jr_lease_epoch := jr_lease_epoch r;
     jr_lease_expires_at := jr_lease_expires_at r; jr_attempt_count := jr_attempt_count r;
     jr_next_retry_at := jr_next_retry_at r; jr_error_stage := jr_error_stage r;
     jr_error_code := jr_error_code r; jr_error_message := jr_error_message r;
     jr_created_at := jr_created_at r; jr_updated_at := now; jr_committed_at := jr_committed_at r |}.

Definition renew_row (lease now : Z) (r : JobRow) : JobRow :=
  {| jr_job_id := jr_job_id r; jr_session := jr_session r; jr_state := jr_state r;
     jr_target := jr_target r; jr_intent := jr_intent r; jr_base := jr_base r;
     jr_base_pointer_version := jr_base_pointer_version r; jr_candidate := jr_candidate r;
     jr_lease_owner := jr_lease_owner r; jr_lease_epoch := jr_lease_epoch r;
     jr_lease_expires_at := Some lease; jr_attempt_count := jr_attempt_count r;
     jr_next_retry_at := jr_next_retry_at r; jr_error_stage := jr_error_stage r;
     jr_error_code := jr_error_code r; jr_error_message := jr_error_message r;
     jr_created_at := jr_created_at r; jr_updated_at := now; jr_committed_at := jr_committed_at r |}.

Definition fail_row (next_state : CompactionJobState) (preserve_attempt : bool)
    (retry : option Z) (error_stage error_code error_message : string) (now : Z)
    (r : JobRow) : JobRow :=
  {| jr_job_id := jr_job_id r; jr_session := jr_session r; jr_state := next_state;
     jr_target := jr_target r; jr_intent := jr_intent r; jr_base := jr_base r;
     jr_base_pointer_version := jr_base_pointer_version r; jr_candidate := None;
     jr_lease_owner := None; jr_lease_epoch := jr_lease_epoch r; jr_lease_expires_at := None;
     jr_attempt_count := if preserve_attempt then Z.max (jr_attempt_count r - 1) 0
                         else jr_attempt_count r;
     jr_next_retry_at := retry; jr_error_stage := Some error_stage;
     jr_error_code := Some error_code; jr_error_message := Some error_message;
     jr_created_at := jr_created_at r; jr_updated_at := now; jr_committed_at := None |}.

Definition recover_row (now : Z) (r : JobRow) : JobRow :=
  {| jr_job_id := jr_job_id r; jr_session := jr_session r; jr_state := PENDING;
     jr_target := jr_target r; jr_intent := jr_intent r; jr_base := jr_base r;
     jr_base_pointer_version := jr_base_pointer_version r; jr_candidate := None;
     jr_lease_owner := None; jr_lease_epoch := jr_lease_epoch r; jr_lease_expires_at := None;
     jr_attempt_count := jr_attempt_count r; jr_next_retry_at := None;
     jr_error_stage := jr_error_stage r; jr_error_code := jr_error_code r;
     jr_error_message := jr_error_message r; jr_created_at := jr_created_at r;
     jr_updated_at := now; jr_committed_at := None |}.

Definition fold_row (intent now : Z) (r : JobRow) : JobRow :=
  {| jr_job_id := jr_job_id r; jr_session := jr_session r; jr_state := jr_state r;
     jr_target := jr_target r; jr_intent := intent; jr_base := jr_base r;
     jr_base_pointer_version := jr_base_pointer_version r; jr_candidate := jr_candidate r;
     jr_lease_owner := jr_lease_owner r; jr_lease_epoch := jr_lease_epoch r;
     jr_lease_expires_at := jr_lease_expires_at r; jr_attempt_count := jr_attempt_count r;
     jr_next_retry_at := jr_next_retry_at r; jr_error_stage := jr_error_stage r;
     jr_error_code := jr_error_code r; jr_error_message := jr_error_message r;
     jr_created_at := jr_created_at r; jr_updated_at := now; jr_committed_at := jr_committed_at r |}.

(** The PENDING row an intent inserts. *)
Definition pending_row (job_id hash : string) (target : Z) (base : option string)
    (base_pointer_version now : Z) : JobRow :=
  {| jr_job_id := job_id; jr_session := hash; jr_state := PENDING; jr_target := target;
     jr_intent := target; jr_base := base; jr_base_pointer_version := base_pointer_version;
     jr_candidate := None; jr_lease_owner := None; jr_lease_epoch := 0;
     jr_lease_expires_at := None; jr_attempt_count := 0; jr_next_retry_at := None;
     jr_error_stage := None; jr_error_code := None; jr_error_message := None;
     jr_created_at := now; jr_updated_at := now; jr_committed_at := None |}.

(** The envelope of a Job row. *)
Definition job_envelope (session_key : SessionKey) (row : JobRow) : CompactionJobEnvelope :=
  {| job_job_id := jr_job_id row; job_session_key := session_key; job_state := jr_state row;
     job_target_high_water_mark := jr_target row;
     job_intent_target_high_water_mark := jr_intent row;
     job_base_snapshot_id := jr_base row; job_base_pointer_version := jr_base_pointer_version row;
     job_candidate_snapshot_id := jr_candidate row; job_attempt_count := jr_attempt_count row;
     job_lease_owner := jr_lease_owner row; job_lease_epoch := jr_lease_epoch row;
     job_lease_expires_at := jr_lease_expires_at row; job_next_retry_at := jr_next_retry_at row;
     job_error_stage := jr_error_stage row; job_error_code := jr_error_code row;
     job_error_message := jr_error_message row; job_created_at := jr_created_at row;
     job_updated_at := jr_updated_at row; job_committed_at := jr_committed_at row |}.

Section jobs.
Context `{Sha256, StorageCodec, Environment}.

(** The active base of a session: snapshot id, pointer version and coverage. *)
Definition _active_base (hash : string) : tx (option string * Z * Z) :=
  active ← fetchone active_snapshots (fun r => ar_session r ==? hash);
  match active with
  | None => mret (None, 0, 0)
  | Some active =>
      snapshot ← fetchone snapshots (fun r => nr_snapshot_id r ==? ar_snapshot_id active);
      match snapshot with
      | None => mret (None, 0, 0)
      | Some snapshot =>
          guard (nr_session snapshot !=? hash) RepositoryInvariantError;;
          mret (Some (nr_snapshot_id snapshot), ar_pointer_version active,
                nr_covered_event_end snapshot)
      end
  end.

Definition _job_from_row (canonical_session_key_json : string) (row : JobRow)
    : result repo_error CompactionJobEnvelope :=
  session_key ← _session_key_from_storage (jr_session row) canonical_session_key_json;
  match construct CompactionJobEnvelope_valid (job_envelope session_key row) with
  | Err _ => Err RepositoryInvariantError
  | Ok job => raise RepositoryInvariantError when (jr_session row !=? session_key_hash session_key);;
              Ok job
  end.

Definition job_row_by_id (job_id : string) : tx (option JobRow) :=
  fetchone compaction_jobs (fun r => jr_job_id r ==? job_id).

Definition _job_by_id (job_id : string) : tx CompactionJobEnvelope :=
  row ← job_row_by_id job_id;
  match row with
  | None => throw RepositoryInvariantError
  | Some row =>
      session ← session_by_hash (jr_session row);
      match session with
      | None => throw RepositoryInvariantError
      | Some session => lift (_job_from_row (se_canonical session) row)
      end
  end.

Definition fence_ok (owner : string) (lease_epoch now : Z) (row : JobRow) : bool :=
  working (jr_state row) && bool_decide (jr_lease_owner row = Some owner)
  && (jr_lease_epoch row =? lease_epoch) && lease_live now row.

Definition _require_live_fence (job_id owner : string) (lease_epoch now : Z) : tx JobRow :=
  row ← job_row_by_id job_id;
  match row with
  | None => throw StaleLeaseError
  | Some row => guard (negb (fence_ok owner lease_epoch now row)) StaleLeaseError;; mret row
  end.

(** [WHERE job_id = ? AND lease_owner = ? AND lease_epoch = ? AND lease_expires_at > ?] *)
Definition fenced (job_id owner : string) (lease_epoch now : Z) (r : JobRow) : bool :=
  (jr_job_id r ==? job_id) && bool_decide (jr_lease_owner r = Some owner)
  && (jr_lease_epoch r =? lease_epoch) && lease_live now r.

Definition nonterminal_job (hash : string) : tx (option JobRow) :=
  fetchone compaction_jobs (fun r => (jr_session r ==? hash) && job_nonterminal r).

Definition raise_compaction_intent (job_id : string) (session_key : SessionKey)
    (target_high_water_mark : Z) (now : py_datetime) (d : db)
    : result repo_error (option CompactionJobEnvelope) * db :=
  if is_blank job_id then (Err ValueError, d) else
  if target_high_water_mark <? 1 then (Err ValueError, d) else
  match normalize_datetime now with
  | Err e => (Err e, d)
  | Ok now => transaction (
      let hash := session_key_hash session_key in
      session_row ← session_by_hash hash;
      match session_row with
      | None => throw RepositoryInvariantError
      | Some session_row =>
          stored_session ← lift (_session_key_from_storage hash (se_canonical session_row));
          guard (stored_session !=? session_key) SessionIdentityConflict;;
          let high_water_mark := se_next_event_sequence session_row - 1 in
          guard (high_water_mark <? target_high_water_mark) RepositoryInvariantError;;
          base ← _active_base hash;
          let '(base_snapshot_id, base_pointer_version, base_coverage) := base in
          if target_high_water_mark <=? base_coverage then mret None else
          existing ← nonterminal_job hash;
          match existing with
          | Some existing =>
              (if jr_intent existing <? target_high_water_mark
               then update_jobs (fun r => jr_job_id r ==? jr_job_id existing)
                                (fold_row target_high_water_mark now);;
                    inject "intent.after_fold"
               else mret ());;
              job ← _job_by_id (jr_job_id existing);
              mret (Some job)
          | None =>
              on_integrity (insert_job (pending_row job_id hash target_high_water_mark
                              base_snapshot_id base_pointer_version now)) RepositoryConflict;;
              inject "intent.after_insert";;
              job ← _job_by_id job_id;
              mret (Some job)
          end
      end) d
  end.

(** The [while True] loop of [claim_job]; [None] when the fuel ran out. *)
Fixpoint claim_loop (fuel : nat) (worker_id : string) (now lease : Z)
    : tx (option (option CompactionJobEnvelope)) :=
  match fuel with
  | O => mret None
  | S fuel' =>
      row ← select (fun d => first_job (List.filter (eligible now) (compaction_jobs d)));
      match row with
      | None => mret (Some None)
      | Some row =>
          base ← _active_base (jr_session row);
          let '(base_snapshot_id, base_pointer_version, base_coverage) := base in
          let target := jr_intent row in
          if target <=? base_coverage then
            update_jobs (fun r => jr_job_id r ==? jr_job_id row) (cancel_row now);;
            claim_loop fuel' worker_id now lease
          else
            rowcount ← update_jobs (fun r => (jr_job_id r ==? jr_job_id row) && eligible now r)
                         (claim_row base_snapshot_id base_pointer_version worker_id lease now);
            if negb (rowcount =? 1) then claim_loop fuel' worker_id now lease
            else
              inject "claim.after_update";;
              job ← _job_by_id (jr_job_id row);
              mret (Some (Some job))
      end
  end.

(** Every turn of the loop that goes on ends an eligible Job, so one more
    turn than there are Jobs is enough. *)
Definition claim_job (worker_id : string) (now lease_expires_at : py_datetime) (d : db)
    : result repo_error (option CompactionJobEnvelope) * db :=
  if is_blank worker_id then (Err ValueError, d) else
  match normalize_datetime now, normalize_datetime lease_expires_at with
  | Ok now, Ok lease =>
      if lease <=? now then (Err ValueError, d) else
      transaction (
        outcome ← claim_loop (S (List.length (compaction_jobs d))) worker_id now lease;
        match outcome with Some job => mret job | None => throw Diverged end) d
  | Err e, _ | _, Err e => (Err e, d)
  end.

Definition transition_job (job_id owner : string) (lease_epoch : Z)
    (to_state : CompactionJobState) (now : py_datetime) (candidate_snapshot_id : option string)
    (d : db) : result repo_error CompactionJobEnvelope * db :=
  match normalize_datetime now with
  | Err e => (Err e, d)
  | Ok now => transaction (
      row ← _require_live_fence job_id owner lease_epoch now;
      guard (negb (allowed_transition (jr_state row) to_state)) JobTransitionError;;
      (if eqb_of to_state READY_TO_COMMIT
       then guard (match candidate_snapshot_id with Some c => is_blank c | None => true end)
                  JobTransitionError
       else guard (is_some candidate_snapshot_id) JobTransitionError);;
      rowcount ← update_jobs (fenced job_id owner lease_epoch now)
                             (transition_row to_state candidate_snapshot_id now);
      guard (negb (rowcount =? 1)) StaleLeaseError;;
      inject "transition.after_update";;
      _job_by_id job_id) d
  end.

Definition renew_job_lease (job_id owner : string) (lease_epoch : Z)
    (now lease_expires_at : py_datetime) (d : db)
    : result repo_error CompactionJobEnvelope * db :=
  match normalize_datetime now, normalize_datetime lease_expires_at with
  | Ok now, Ok lease =>
      if lease <=? now then (Err ValueError, d) else
      transaction (
        row ← _require_live_fence job_id owner lease_epoch now;
        guard (match jr_lease_expires_at row with Some t => lease <=? t | None => false end)
              JobTransitionError;;
        rowcount ← update_jobs (fenced job_id owner lease_epoch now) (renew_row lease now);
        guard (negb (rowcount =? 1)) StaleLeaseError;;
        inject "lease.after_renew";;
        _job_by_id job_id) d
  | Err e, _ | _, Err e => (Err e, d)
  end.

(** The argument checks of [fail_job]. *)
Definition has_line_break (s : string) : bool :=
  existsb (fun c => let n := NArith.BinNat.N.to_nat (Ascii.N_of_ascii c) in
                    Nat.eqb n 13 || Nat.eqb n 10 || Nat.eqb n 0) (chars s).
Definition preservable_code (error_code : string) : bool :=
  py_in error_code ["EXTRACTIVE_PROVIDER_UNAVAILABLE"; "TOKEN_METRIC_MISSING";
                    "TOKEN_METRIC_UNAVAILABLE"].
Definition fail_arguments_bad (error_stage error_code error_message : string)
    (has_retry preserve_attempt : bool) : bool :=
  (is_blank error_stage || is_blank error_code || is_blank error_message)
  || ((512 <? py_len error_message) || has_line_break error_message)
  || (preserve_attempt && (negb has_retry || (error_stage !=? "COMPILING")
                           || negb (preservable_code error_code))).

Definition fail_job (job_id owner : string) (lease_epoch : Z) (now : py_datetime)
    (error_stage error_code error_message : string) (retry_at : option py_datetime)
    (preserve_attempt : bool) (d : db) : result repo_error CompactionJobEnvelope * db :=
  if fail_arguments_bad error_stage error_code error_message (is_some retry_at) preserve_attempt
  then (Err ValueError, d) else
  match normalize_datetime now with
  | Err e => (Err e, d)
  | Ok now =>
  match (match retry_at with
         | None => Ok (FAILED, None)
         | Some retry_at =>
             retry ← normalize_datetime retry_at;
             raise ValueError when (retry <=? now);; Ok (RETRY_WAIT, Some retry)
         end) with
  | Err e => (Err e, d)
  | Ok (next_state, retry) => transaction (
      _require_live_fence job_id owner lease_epoch now;;
      rowcount ← update_jobs (fenced job_id owner lease_epoch now)
                   (fail_row next_state preserve_attempt retry error_stage error_code
                             error_message now);
      guard (negb (rowcount =? 1)) StaleLeaseError;;
      inject "failure.after_update";;
      _job_by_id job_id) d
  end
  end.

Fixpoint recover_rows (ids : list string) (now : Z) : tx (list string) :=
  match ids with
  | [] => mret []
  | job_id :: rest =>
      rowcount ← update_jobs (fun r => (jr_job_id r ==? job_id) && working (jr_state r)
                                       && lease_expired now r) (recover_row now);
      if negb (rowcount =? 1) then recover_rows rest now
      else inject "recovery.after_update";;
           recovered ← recover_rows rest now;
           mret (job_id :: recovered)
  end.
Fixpoint jobs_by_ids (ids : list string) : tx (list CompactionJobEnvelope) :=
  match ids with
  | [] => mret []
  | job_id :: rest => job ← _job_by_id job_id; jobs ← jobs_by_ids rest; mret (job :: jobs)
  end.

Definition recover_expired_leases (now : py_datetime) (d : db)
    : result repo_error (list CompactionJobEnvelope) * db :=
  match normalize_datetime now with
  | Err e => (Err e, d)
  | Ok now => transaction (
      rows ← select (fun d => order_jobs
               (List.filter (fun r => working (jr_state r) && lease_expired now r)
                            (compaction_jobs d)));
      recovered_ids ← recover_rows (map jr_job_id rows) now;
      jobs_by_ids recovered_ids) d
  end.
End jobs.

(** ** Lemmas: rows and envelopes *)

Lemma job_ids_unique d : schema_ok d = true -> NoDup (map jr_job_id (compaction_jobs d)).
Proof.
  intros Hd. apply schema_ok_spec in Hd as (_ & _ & _ & _ & _ & _ & Hj & _). unfold jobs_ok in Hj.
  apply andb_true_iff in Hj as [[_ Hu]%andb_true_iff _]. by apply bool_decide_eq_true in Hu.
Qed.
Lemma job_rows_ok d r : schema_ok d = true -> r ∈ compaction_jobs d ->
  job_row_ok r = true /\ references se_hash (sessions d) (jr_session r) = true
  /\ opt_references nr_snapshot_id (snapshots d) (jr_base r) = true.
Proof.
  intros Hd Hr. apply schema_ok_spec in Hd as (_ & _ & _ & _ & _ & _ & Hj & _). unfold jobs_ok in Hj.
  apply andb_true_iff in Hj as [[Hall _]%andb_true_iff _]. rewrite forallb_true_iff in Hall.
  specialize (Hall r Hr). rewrite !andb_true_iff in Hall. tauto.
Qed.
(** One nonterminal Job per session. *)
Lemma nonterminal_unique d r s : schema_ok d = true -> r ∈ compaction_jobs d -> s ∈ compaction_jobs d ->
  job_nonterminal r = true -> job_nonterminal s = true -> jr_session r = jr_session s -> r = s.
Proof.
  intros Hd Hr Hs Hnr Hns E. apply schema_ok_spec in Hd as (_ & _ & _ & _ & _ & _ & Hj & _).
  unfold jobs_ok in Hj. apply andb_true_iff in Hj as [_ Hu]. apply bool_decide_eq_true in Hu.
  apply (key_unique jr_session _ _ _ Hu); [by apply elem_of_filter_bool..|done].
Qed.

Lemma not_blank_nonempty s : not_blank s = true -> NonEmptyStr s = true.
Proof. unfold not_blank, NonEmptyStr. destruct s; [discriminate|done]. Qed.
Lemma null_or_not_blank_opt s : null_or_not_blank s = true -> OptNonEmptyStr s = true.
Proof. destruct s; [apply not_blank_nonempty|done]. Qed.

(** The CHECK clauses of a row imply the model validator of its envelope. *)
Lemma job_row_valid k r : SessionKey_valid k = true -> job_row_ok r = true ->
  CompactionJobEnvelope_valid (job_envelope k r) = true.
Proof.
  intros Hk Hr. unfold job_row_ok in Hr. rewrite !andb_true_iff in Hr. destruct_and? Hr.
  repeat match goal with
  | H : not_blank _ = true |- _ => apply not_blank_nonempty in H
  | H : null_or_not_blank _ = true |- _ => apply null_or_not_blank_opt in H
  end.
  unfold CompactionJobEnvelope_valid, validate_conditionals, job_conditionals, job_envelope,
    PositiveInt, NonNegativeInt.
  cbn [job_job_id job_session_key job_state job_target_high_water_mark
    job_intent_target_high_water_mark job_base_snapshot_id job_base_pointer_version
    job_candidate_snapshot_id job_attempt_count job_lease_owner job_lease_epoch
    job_lease_expires_at job_next_retry_at job_error_stage job_error_code job_error_message
    job_committed_at].
  rewrite !andb_true_iff. split_and!; try done.
  - bool_hyps. apply Z.leb_le. lia.
  - destruct (jr_error_stage r), (jr_error_code r), (jr_error_message r); done.
  - destruct (jr_base r); cbn in *; rewrite ?orb_false_r in *; [|done].
    apply negb_true_iff, Z.ltb_ge. bool_hyps. lia.
  - destruct (working (jr_state r)), (jr_lease_owner r), (jr_lease_expires_at r); cbn in *; try done.
    all: rewrite ?orb_false_r, ?andb_true_r, ?andb_false_r in *; try done.
    apply negb_true_iff, Z.ltb_ge. bool_hyps. lia.
  - destruct (candidate_bearing (jr_state r)), (jr_candidate r); done.
  - destruct (eqb_of (jr_state r) RETRY_WAIT), (eqb_of (jr_state r) FAILED),
      (jr_error_stage r), (jr_error_code r), (jr_error_message r); done.
  - destruct (eqb_of (jr_state r) RETRY_WAIT), (jr_next_retry_at r); done.
  - destruct (eqb_of (jr_state r) JOB_COMMITTED), (jr_committed_at r); done.
Qed.

Section job_lemmas.
Context `{Sha256, StorageCodec, EnvironmentLaws}.

(** Every stored session reads back to a valid key with its hash. *)
Definition sessions_decode (d : db) : Prop := forall row, row ∈ sessions d ->
  exists k, _session_key_from_storage (se_hash row) (se_canonical row) = Ok k.

Lemma session_key_from_storage_ok h s k : _session_key_from_storage h s = Ok k ->
  SessionKey_valid k = true /\ session_key_hash k = h.
Proof.
  unfold _session_key_from_storage. intros (c & _ & E)%result_bind_ok.
  destruct (session_key_of_json c) as [k'|] eqn:Ek; [|discriminate].
  apply raise_if_ok in E as [Hh [= ->]]. split; [by eapply session_json_valid|].
  apply negb_false_iff in Hh. by apply (py_eq_leibniz (A:=string)) in Hh.
Qed.

Lemma find_session d h : schema_ok d = true -> references se_hash (sessions d) h = true ->
  exists row, row ∈ sessions d /\ se_hash row = h
              /\ List.find (fun r => se_hash r ==? h) (sessions d) = Some row.
Proof.
  intros Hd (row & Hr & <-)%references_spec. exists row. split_and!; try done.
  apply (find_key se_hash); [|done|by apply (py_eq_leibniz (A:=string))|].
  - apply schema_ok_spec in Hd as [Hs _]. unfold sessions_ok in Hs.
    apply andb_true_iff in Hs as [[_ Hu]%andb_true_iff _]. by apply bool_decide_eq_true in Hu.
  - intros y Hy. by apply (py_eq_leibniz (A:=string)) in Hy.
Qed.

Lemma find_job d r : schema_ok d = true -> r ∈ compaction_jobs d ->
  List.find (fun x => jr_job_id x ==? jr_job_id r) (compaction_jobs d) = Some r.
Proof.
  intros Hd Hr. apply (find_key jr_job_id); [by apply job_ids_unique|done| |].
  - by apply (py_eq_leibniz (A:=string)).
  - intros y Hy. by apply (py_eq_leibniz (A:=string)) in Hy.
Qed.

(** A stored row always reads back. *)
Lemma job_by_id_run d r : schema_ok d = true -> sessions_decode d -> r ∈ compaction_jobs d ->
  exists k, session_key_hash k = jr_session r
            /\ _job_by_id (jr_job_id r) d = Ok (job_envelope k r, d).
Proof.
  intros Hd Hs Hr. destruct (job_rows_ok d r Hd Hr) as (Hok & Href & _).
  destruct (find_session d _ Hd Href) as (row & Hrow & Hh & Hf).
  destruct (Hs row Hrow) as [k Hk]. rewrite Hh in Hk.
  destruct (session_key_from_storage_ok _ _ _ Hk) as [Hvk Hhk].
  exists k. split; [done|]. unfold _job_by_id, job_row_by_id, session_by_hash, fetchone, select, mbind, tx_bind.
  rewrite (find_job d r Hd Hr), Hf. unfold lift, _job_from_row. rewrite Hk. cbn [mbind result_bind].
  assert (construct CompactionJobEnvelope_valid (job_envelope k r) = Ok (job_envelope k r)) as ->
    by (apply construct_ok; split; [by apply job_row_valid|done]).
  rewrite raise_if_false; [done|]. apply negb_false_iff. by apply (py_eq_leibniz (A:=string)).
Qed.

Lemma job_by_id_ok id d job d' : _job_by_id id d = Ok (job, d') ->
  d' = d /\ exists r k, r ∈ compaction_jobs d /\ jr_job_id r = id /\ job = job_envelope k r
                        /\ session_key_hash k = jr_session r /\ SessionKey_valid k = true
                        /\ CompactionJobEnvelope_valid job = true
                        /\ List.find (fun x => jr_job_id x ==? id) (compaction_jobs d) = Some r
                        /\ exists srow, srow ∈ sessions d /\ se_hash srow = jr_session r
                           /\ _session_key_from_storage (jr_session r) (se_canonical srow) = Ok k.
Proof.
  unfold _job_by_id, job_row_by_id, session_by_hash.
  intros (o & d1 & [<- <-]%fetchone_ok & E)%tx_bind_ok.
  destruct (List.find _ _) as [r|] eqn:Ef; [|done].
  apply tx_bind_ok in E as (o & d1 & [<- <-]%fetchone_ok & E).
  destruct (List.find _ (sessions d)) as [s|] eqn:Es; [|done]. apply lift_ok in E as [E ->].
  apply find_some_elem in Es as [Hs Hsh]. apply (py_eq_leibniz (A:=string)) in Hsh.
  split; [done|]. unfold _job_from_row in E. apply result_bind_ok in E as (k & Hk & E).
  destruct (session_key_from_storage_ok _ _ _ Hk) as [Hvk Hhk].
  destruct (construct _ _) as [j|] eqn:Ec; [|done]. apply raise_if_ok in E as [_ [= ->]].
  apply construct_ok in Ec as [Hv <-]. assert (Ef' := Ef). apply find_some_elem in Ef as [Hr Hid].
  apply (py_eq_leibniz (A:=string)) in Hid. exists r, k. split_and!; try done. by exists s.
Qed.

Lemma require_live_fence_ok id owner epoch now d r d' :
  _require_live_fence id owner epoch now d = Ok (r, d') ->
  d' = d /\ r ∈ compaction_jobs d /\ jr_job_id r = id /\ fence_ok owner epoch now r = true.
Proof.
  unfold _require_live_fence, job_row_by_id. intros (o & d1 & [<- <-]%fetchone_ok & E)%tx_bind_ok.
  destruct (List.find _ _) as [x|] eqn:Ef; [|done]. tx_inv E. apply negb_false_iff in Hs.
  apply find_some_elem in Ef as [Hr Hid]. apply (py_eq_leibniz (A:=string)) in Hid. done.
Qed.
Lemma require_live_fence_run d r owner epoch now : schema_ok d = true -> r ∈ compaction_jobs d ->
  fence_ok owner epoch now r = true ->
  _require_live_fence (jr_job_id r) owner epoch now d = Ok (r, d).
Proof.
  intros Hd Hr Hf. unfold _require_live_fence, job_row_by_id, fetchone, select, mbind, tx_bind.
  rewrite (find_job d r Hd Hr). unfold guard. by rewrite Hf.
Qed.

(** *** Updates of one row *)

(** The table after row [r] became [s]. *)
Definition replaced (id : string) (f : JobRow -> JobRow) (rows : list JobRow) : list JobRow :=
  map (fun x => if jr_job_id x ==? id then f x else x) rows.

Lemma update_one d r p f : schema_ok d = true -> r ∈ compaction_jobs d ->
  p r = true -> (forall y, p y = true -> jr_job_id y = jr_job_id r) ->
  map (fun x => if p x then f x else x) (compaction_jobs d) = replaced (jr_job_id r) f (compaction_jobs d)
  /\ len (List.filter p (compaction_jobs d)) = 1.
Proof.
  intros Hd Hr Hp Hk. assert (Hn := job_ids_unique d Hd). split.
  - unfold replaced. apply map_ext_in. intros x Hx%list_elem_of_In.
    destruct (jr_job_id x ==? jr_job_id r) eqn:E.
    + apply (py_eq_leibniz (A:=string)) in E. assert (x = r) as -> by (by eapply key_unique). by rewrite Hp.
    + destruct (p x) eqn:Epx; [|done]. apply Hk in Epx. rewrite Epx in E.
      rewrite (proj2 (py_eq_leibniz (A:=string) _ _)) in E by done. discriminate.
  - by rewrite (filter_one jr_job_id p _ r).
Qed.

Lemma elem_of_replaced id f rows x : x ∈ replaced id f rows <->
  exists r, r ∈ rows /\ x = if jr_job_id r ==? id then f r else r.
Proof. unfold replaced. rewrite list_elem_of_fmap. naive_solver. Qed.

Lemma replaced_self d r f : r ∈ compaction_jobs d -> f r ∈ replaced (jr_job_id r) f (compaction_jobs d).
Proof.
  intros Hr. apply elem_of_replaced. exists r. split; [done|].
  by rewrite (proj2 (py_eq_leibniz (A:=string) _ _)).
Qed.

(** Replacing one row keeps the table's clauses when the new row satisfies
    its own and stays under the same keys. *)
Lemma replaced_ok d r f : schema_ok d = true -> r ∈ compaction_jobs d ->
  jr_job_id (f r) = jr_job_id r -> jr_session (f r) = jr_session r ->
  job_row_ok (f r) = true -> opt_references nr_snapshot_id (snapshots d) (jr_base (f r)) = true ->
  (job_nonterminal (f r) = true -> job_nonterminal r = true) ->
  jobs_ok d (replaced (jr_job_id r) f (compaction_jobs d)) = true.
Proof.
  intros Hd Hr Hid Hsess Hok Hbase Hnt. assert (Hn := job_ids_unique d Hd).
  set (g := fun x => if jr_job_id x ==? jr_job_id r then f x else x).
  assert (Hg : forall x, x ∈ compaction_jobs d -> x = r /\ g x = f r \/ g x = x).
  { intros x Hx. unfold g. destruct (jr_job_id x ==? jr_job_id r) eqn:E; [left|by right].
    apply (py_eq_leibniz (A:=string)) in E. assert (x = r) as -> by (by eapply key_unique). done. }
  apply schema_ok_spec in Hd as (_ & _ & _ & _ & _ & _ & Hj & _). unfold jobs_ok in *.
  apply andb_true_iff in Hj as [[Hall Hu]%andb_true_iff Hx].
  rewrite !andb_true_iff. split_and!.
  - apply forallb_true_iff. intros y (x & Hxr & ->)%elem_of_replaced. fold (g x).
    rewrite forallb_true_iff in Hall. destruct (Hg x Hxr) as [[-> ->]| ->]; [|by apply Hall].
    specialize (Hall r Hr). rewrite !andb_true_iff in *. rewrite Hsess. tauto.
  - unfold unique_by, no_duplicates in *. apply bool_decide_eq_true. unfold replaced. rewrite map_map.
    rewrite (map_ext_in _ jr_job_id); [done|]. intros x Hxr%list_elem_of_In. fold (g x).
    by destruct (Hg x Hxr) as [[-> ->]| ->].
  - unfold unique_by, no_duplicates in *. apply bool_decide_eq_true in Hx. apply bool_decide_eq_true.
    unfold replaced. fold g. clear Hall Hu. clearbody g. revert Hx Hg Hr Hn.
    generalize (compaction_jobs d). intros rows Hx Hg _ _.
    enough (map jr_session (List.filter job_nonterminal (map g rows))
            `sublist_of` map jr_session (List.filter job_nonterminal rows)) as Hsub
      by (by eapply sublist_NoDup).
    clear Hx. induction rows as [|x rows IH]; [done|]. cbn [map List.filter].
    assert (IH' := IH (fun y Hy => Hg y (list_elem_of_further _ _ _ Hy))).
    destruct (Hg x (list_elem_of_here _ _)) as [[-> ->]| ->].
    + destruct (job_nonterminal (f r)) eqn:E1.
      * rewrite (Hnt eq_refl). cbn [map]. rewrite Hsess. by apply sublist_skip.
      * destruct (job_nonterminal r); cbn [map]; [by apply sublist_cons|done].
    + destruct (job_nonterminal x); cbn [map]; [by apply sublist_skip|done].
Qed.
End job_lemmas.

(** *** The new rows satisfy the CHECK clauses *)

Lemma fence_ok_parts owner epoch now r : fence_ok owner epoch now r = true ->
  working (jr_state r) = true /\ jr_lease_owner r = Some owner /\ jr_lease_epoch r = epoch
  /\ lease_live now r = true.
Proof.
  unfold fence_ok. rewrite !andb_true_iff, bool_decide_eq_true, Z.eqb_eq. tauto.
Qed.

Lemma job_row_ok_parts r : job_row_ok r = true ->
  (not_blank (jr_job_id r) = true /\ 1 <= jr_target r <= jr_intent r
   /\ null_or_not_blank (jr_base r) = true /\ 0 <= jr_base_pointer_version r
   /\ 0 <= jr_lease_epoch r /\ 0 <= jr_attempt_count r
   /\ (jr_base r = None /\ jr_base_pointer_version r = 0
       \/ is_some (jr_base r) = true /\ 1 <= jr_base_pointer_version r))
  /\ (null_or_not_blank (jr_error_stage r) = true /\ null_or_not_blank (jr_error_code r) = true
      /\ null_or_not_blank (jr_error_message r) = true
      /\ ((jr_error_stage r = None /\ jr_error_code r = None /\ jr_error_message r = None)
          \/ (is_some (jr_error_stage r) = true /\ is_some (jr_error_code r) = true
              /\ is_some (jr_error_message r) = true)))
  /\ (null_or_not_blank (jr_lease_owner r) = true /\ null_or_not_blank (jr_candidate r) = true
      /\ (working (jr_state r) = false -> jr_lease_owner r = None /\ jr_lease_expires_at r = None)
      /\ (working (jr_state r) = true -> 1 <= jr_lease_epoch r)
      /\ (candidate_bearing (jr_state r) = false -> jr_candidate r = None)
      /\ (jr_state r <> RETRY_WAIT -> jr_next_retry_at r = None)
      /\ (jr_state r <> JOB_COMMITTED -> jr_committed_at r = None)).
Proof.
  unfold job_row_ok, eqb_of. rewrite !andb_true_iff. intros Hr. destruct_and? Hr. bool_hyps.
  split_and!; try done.
  - destruct (jr_base r); cbn in *; [right|left]; rewrite ?orb_false_r in *; bool_hyps; auto.
  - destruct (jr_error_stage r), (jr_error_code r), (jr_error_message r); cbn in *; try discriminate; auto.
  - intros E. rewrite E in *. cbn in *.
    destruct (jr_lease_owner r), (jr_lease_expires_at r); cbn in *; try discriminate; auto.
  - intros E. rewrite E in *. cbn in *. rewrite orb_false_r in *. bool_hyps. lia.
  - intros E. rewrite E in *. cbn in *. by destruct (jr_candidate r).
  - intros E. rewrite bool_decide_eq_false_2 in * by done. by destruct (jr_next_retry_at r).
  - intros E. rewrite (bool_decide_eq_false_2 (jr_state r = JOB_COMMITTED)) in * by done.
    by destruct (jr_committed_at r).
Qed.

(** Prove a clause from the parts of the old row. *)
Ltac row_clause :=
  match goal with
  | |- (_ <=? _) = true => apply Z.leb_le; lia
  | |- _ => done
  end.

Lemma build_job_row r' :
  (not_blank (jr_job_id r') = true /\ 1 <= jr_target r' <= jr_intent r'
   /\ null_or_not_blank (jr_base r') = true /\ 0 <= jr_base_pointer_version r'
   /\ 0 <= jr_lease_epoch r' /\ 0 <= jr_attempt_count r'
   /\ (jr_base r' = None /\ jr_base_pointer_version r' = 0
       \/ is_some (jr_base r') = true /\ 1 <= jr_base_pointer_version r')) ->
  (null_or_not_blank (jr_error_stage r') = true /\ null_or_not_blank (jr_error_code r') = true
      /\ null_or_not_blank (jr_error_message r') = true
      /\ ((jr_error_stage r' = None /\ jr_error_code r' = None /\ jr_error_message r' = None
           /\ jr_state r' <> RETRY_WAIT /\ jr_state r' <> FAILED)
          \/ (is_some (jr_error_stage r') = true /\ is_some (jr_error_code r') = true
              /\ is_some (jr_error_message r') = true))) ->
  (if working (jr_state r')
   then null_or_not_blank (jr_lease_owner r') = true /\ is_some (jr_lease_owner r') = true
        /\ is_some (jr_lease_expires_at r') = true /\ 1 <= jr_lease_epoch r'
   else jr_lease_owner r' = None /\ jr_lease_expires_at r' = None) ->
  (if candidate_bearing (jr_state r')
   then null_or_not_blank (jr_candidate r') = true /\ is_some (jr_candidate r') = true
   else jr_candidate r' = None) ->
  (if eqb_of (jr_state r') RETRY_WAIT then is_some (jr_next_retry_at r') = true
   else jr_next_retry_at r' = None) ->
  (if eqb_of (jr_state r') JOB_COMMITTED then is_some (jr_committed_at r') = true
   else jr_committed_at r' = None) ->
  job_row_ok r' = true.
Proof.
  intros (H1 & H2 & H3 & H4 & H5 & H6 & H7) (E1 & E2 & E3 & E4) Hw Hc Hr Hm. unfold job_row_ok.
  rewrite !andb_true_iff. split_and!; try (done || (apply Z.leb_le; lia)).
  - destruct (candidate_bearing _); [tauto | by rewrite Hc].
  - destruct (working _); [tauto | destruct Hw as [-> _]; done].
  - destruct H7 as [[-> ->]|[-> H7]]; [done|]. rewrite (proj2 (Z.leb_le 1 _)) by done.
    by rewrite orb_true_r.
  - destruct (working _).
    + destruct Hw as (_ & -> & -> & Hw). by rewrite (proj2 (Z.leb_le 1 _)).
    + by destruct Hw as [-> ->].
  - destruct (candidate_bearing _); [destruct Hc as [_ ->]; done | by rewrite Hc].
  - destruct E4 as [(-> & -> & -> & _)|(-> & -> & ->)]; [done|]. by rewrite orb_true_r.
  - unfold eqb_of. destruct E4 as [(_ & _ & _ & N1 & N2)|(-> & -> & ->)]; [|by rewrite orb_true_r].
    by rewrite !bool_decide_eq_false_2.
  - destruct (eqb_of _ RETRY_WAIT); [by rewrite Hr | by rewrite Hr].
  - destruct (eqb_of _ JOB_COMMITTED); [by rewrite Hm | by rewrite Hm].
Qed.

Lemma opt_not_blank_of_candidate c :
  match c with Some x => is_blank x | None => true end = false ->
  null_or_not_blank c = true /\ is_some c = true.
Proof. destruct c as [x|]; [|done]. intros H. split; [by apply is_blank_not_blank|done]. Qed.

Lemma transition_row_ok to cand now r : job_row_ok r = true ->
  working (jr_state r) = true -> jr_lease_owner r <> None -> lease_live now r = true ->
  allowed_transition (jr_state r) to = true ->
  (if eqb_of to READY_TO_COMMIT then match cand with Some x => is_blank x | None => true end
   else is_some cand) = false ->
  job_row_ok (transition_row to cand now r) = true.
Proof.
  intros (Ha & (E1 & E2 & E3 & E4) & (L1 & L2 & _ & L4 & _ & L6 & L7))%job_row_ok_parts Hw Ho Hl Hal Hc.
  specialize (L4 Hw).
  assert (Hns : jr_next_retry_at r = None /\ jr_committed_at r = None)
    by (split; [apply L6|apply L7]; intros E; by rewrite E in Hw).
  destruct Hns as [Hn1 Hn2].
  assert (Hexp : is_some (jr_lease_expires_at r) = true)
    by (unfold lease_live in Hl; by destruct (jr_lease_expires_at r)).
  assert (Hown : is_some (jr_lease_owner r) = true) by (by destruct (jr_lease_owner r)).
  assert (Hto : to = COMPILING \/ to = AUDITING \/ to = READY_TO_COMMIT)
    by (destruct (jr_state r), to; try discriminate; auto).
  apply build_job_row; cbn [jr_job_id jr_target jr_intent jr_base jr_base_pointer_version
    jr_lease_epoch jr_attempt_count jr_error_stage jr_error_code jr_error_message jr_state
    jr_lease_owner jr_lease_expires_at jr_candidate jr_next_retry_at jr_committed_at transition_row].
  - exact Ha.
  - split_and!; try done. destruct E4 as [(? & ? & ?)|?]; [left|right; done].
    split_and!; try done; destruct Hto as [->|[->| ->]]; done.
  - destruct Hto as [->|[->| ->]]; cbn; done.
  - destruct Hto as [->|[->| ->]]; cbn in Hc |- *; [by destruct cand..|].
    by apply opt_not_blank_of_candidate.
  - destruct Hto as [->|[->| ->]]; done.
  - destruct Hto as [->|[->| ->]]; done.
Qed.

Lemma renew_row_ok lease now now' r : job_row_ok r = true ->
  working (jr_state r) = true -> jr_lease_owner r <> None -> lease_live now' r = true ->
  job_row_ok (renew_row lease now r) = true.
Proof.
  unfold job_row_ok. cbn [jr_job_id jr_target jr_intent jr_base jr_base_pointer_version
    jr_lease_epoch jr_attempt_count jr_error_stage jr_error_code jr_error_message jr_state
    jr_lease_owner jr_lease_expires_at jr_candidate jr_next_retry_at jr_committed_at renew_row].
  intros Hr Hw Ho Hl. unfold lease_live in Hl. by destruct (jr_lease_expires_at r).
Qed.

Lemma fail_row_ok next preserve retry s c m now r : job_row_ok r = true ->
  is_blank s = false -> is_blank c = false -> is_blank m = false ->
  (next = FAILED /\ retry = None \/ next = RETRY_WAIT /\ is_some retry = true) ->
  job_row_ok (fail_row next preserve retry s c m now r) = true.
Proof.
  intros ((A1 & A2 & A3 & A4 & A5 & A6 & A7) & _ & _)%job_row_ok_parts Hs Hc Hm Hn.
  apply is_blank_not_blank in Hs, Hc, Hm.
  apply build_job_row; cbn [jr_job_id jr_target jr_intent jr_base jr_base_pointer_version
    jr_lease_epoch jr_attempt_count jr_error_stage jr_error_code jr_error_message jr_state
    jr_lease_owner jr_lease_expires_at jr_candidate jr_next_retry_at jr_committed_at fail_row].
  - split_and!; try done; try lia. destruct preserve; lia.
  - split_and!; try done. by right.
  - by destruct Hn as [[-> _]|[-> _]].
  - by destruct Hn as [[-> _]|[-> _]].
  - by destruct Hn as [[-> ->]|[-> ?]].
  - by destruct Hn as [[-> _]|[-> _]].
Qed.

Lemma recover_row_ok now r : job_row_ok r = true -> job_row_ok (recover_row now r) = true.
Proof.
  intros (Ha & (E1 & E2 & E3 & E4) & _)%job_row_ok_parts.
  apply build_job_row; cbn [jr_job_id jr_target jr_intent jr_base jr_base_pointer_version
    jr_lease_epoch jr_attempt_count jr_error_stage jr_error_code jr_error_message jr_state
    jr_lease_owner jr_lease_expires_at jr_candidate jr_next_retry_at jr_committed_at recover_row];
    try done.
  split_and!; try done. destruct E4 as [(? & ? & ?)|?]; [left|right; done]. by split_and!.
Qed.

Lemma cancel_row_ok now r : job_row_ok r = true -> working (jr_state r) = false ->
  candidate_bearing (jr_state r) = false -> jr_state r <> JOB_COMMITTED ->
  job_row_ok (cancel_row now r) = true.
Proof.
  intros (Ha & (E1 & E2 & E3 & E4) & (_ & _ & L3 & _ & L5 & _ & L7))%job_row_ok_parts Hw Hc Hm.
  apply build_job_row; cbn [jr_job_id jr_target jr_intent jr_base jr_base_pointer_version
    jr_lease_epoch jr_attempt_count jr_error_stage jr_error_code jr_error_message jr_state
    jr_lease_owner jr_lease_expires_at jr_candidate jr_next_retry_at jr_committed_at cancel_row].
  - exact Ha.
  - split_and!; try done. destruct E4 as [(? & ? & ?)|?]; [left|right; done]. by split_and!.
  - exact (L3 Hw).
  - exact (L5 Hc).
  - done.
  - exact (L7 Hm).
Qed.

Lemma claim_row_ok base bpv worker lease now r : job_row_ok r = true -> is_blank worker = false ->
  null_or_not_blank base = true ->
  (base = None /\ bpv = 0 \/ is_some base = true /\ 1 <= bpv) ->
  job_row_ok (claim_row base bpv worker lease now r) = true.
Proof.
  intros ((A1 & A2 & A3 & A4 & A5 & A6 & A7) & _ & _)%job_row_ok_parts Hw Hb Hv.
  apply build_job_row; cbn [jr_job_id jr_target jr_intent jr_base jr_base_pointer_version
    jr_lease_epoch jr_attempt_count jr_error_stage jr_error_code jr_error_message jr_state
    jr_lease_owner jr_lease_expires_at jr_candidate jr_next_retry_at jr_committed_at claim_row].
  - split_and!; try done; lia.
  - split_and!; try done. by left.
  - cbn. split_and!; [by apply is_blank_not_blank|done|done|lia].
  - done.
  - done.
  - done.
Qed.

Section fenced.
Context `{Sha256, StorageCodec, EnvironmentLaws}.

(** The tail the fenced mutations share. *)
Definition fenced_update (job_id owner : string) (lease_epoch now : Z) (f : JobRow -> JobRow)
    (boundary : string) : tx CompactionJobEnvelope :=
  rowcount ← update_jobs (fenced job_id owner lease_epoch now) f;
  guard (negb (rowcount =? 1)) StaleLeaseError;;
  inject boundary;;
  _job_by_id job_id.

Lemma fenced_fence_ok id owner epoch now r : jr_job_id r = id -> fence_ok owner epoch now r = true ->
  fenced id owner epoch now r = true.
Proof.
  intros <- Hf. destruct (fence_ok_parts _ _ _ _ Hf) as (_ & Ho & He & Hl). unfold fenced.
  rewrite Ho, He, Hl, Z.eqb_refl, bool_decide_eq_true_2 by done.
  by rewrite (proj2 (py_eq_leibniz (A:=string) _ _)).
Qed.
Lemma fenced_same_id id owner epoch now r : fenced id owner epoch now r = true -> jr_job_id r = id.
Proof. unfold fenced. intros Hf. bool_hyps. by apply (py_eq_leibniz (A:=string)). Qed.

Lemma sessions_decode_set_jobs rows d : sessions_decode d -> sessions_decode (set_jobs rows d).
Proof. done. Qed.

Lemma set_jobs_schema d rows : schema_ok d = true -> jobs_ok d rows = true ->
  schema_ok (set_jobs rows d) = true.
Proof.
  intros Hd Hok. eapply schema_of_tables; [|exact Hd|..]; cbn; auto. unfold keys_kept. auto.
Qed.

Lemma fenced_update_run d r owner epoch now f boundary :
  schema_ok d = true -> sessions_decode d -> r ∈ compaction_jobs d ->
  fence_ok owner epoch now r = true -> fault_injector boundary = false ->
  (forall x, jr_job_id (f x) = jr_job_id x /\ jr_session (f x) = jr_session x) ->
  jobs_ok d (replaced (jr_job_id r) f (compaction_jobs d)) = true ->
  exists k, session_key_hash k = jr_session r
    /\ fenced_update (jr_job_id r) owner epoch now f boundary d
       = Ok (job_envelope k (f r), set_jobs (replaced (jr_job_id r) f (compaction_jobs d)) d).
Proof.
  intros Hd Hs Hr Hf Hb Hkeys Hok.
  destruct (update_one d r (fenced (jr_job_id r) owner epoch now) f Hd Hr
              (fenced_fence_ok _ _ _ _ _ eq_refl Hf) (fun y => fenced_same_id _ _ _ _ y)) as [Hmap Hcount].
  set (d' := set_jobs (replaced (jr_job_id r) f (compaction_jobs d)) d).
  assert (Hd' : schema_ok d' = true) by (by apply set_jobs_schema).
  destruct (job_by_id_run d' (f r) Hd' Hs (replaced_self d r f Hr)) as (k & Hk & Hrun).
  destruct (Hkeys r) as [Hid Hsess]. rewrite Hid in Hrun. rewrite Hsess in Hk.
  exists k. split; [done|]. unfold fenced_update.
  assert (Hup : update_jobs (fenced (jr_job_id r) owner epoch now) f d = Ok (1, d')).
  { apply update_rows_ok. rewrite Hmap. split_and!; auto. }
  rewrite (tx_bind_run _ _ _ _ _ Hup). rewrite (tx_bind_run _ _ _ _ _ (guard_run _ _ d' eq_refl)).
  by rewrite (tx_bind_run _ _ _ _ _ (inject_run _ d' Hb)).
Qed.

Lemma fenced_update_ok d r owner epoch now f boundary job d' :
  schema_ok d = true -> r ∈ compaction_jobs d -> fence_ok owner epoch now r = true ->
  (forall x, jr_job_id (f x) = jr_job_id x) ->
  fenced_update (jr_job_id r) owner epoch now f boundary d = Ok (job, d') ->
  d' = set_jobs (replaced (jr_job_id r) f (compaction_jobs d)) d
  /\ schema_ok d' = true /\ fault_injector boundary = false /\ exists k, job = job_envelope k (f r).
Proof.
  intros Hd Hr Hf Hid E. unfold fenced_update in E.
  destruct (update_one d r (fenced (jr_job_id r) owner epoch now) f Hd Hr
              (fenced_fence_ok _ _ _ _ _ eq_refl Hf) (fun y => fenced_same_id _ _ _ _ y)) as [Hmap _].
  apply tx_bind_ok in E as (n & d1 & Hup & E).
  assert (Hd1 : schema_ok d1 = true) by (by eapply schema_update_jobs).
  apply update_rows_ok in Hup as (-> & Hok & ->). rewrite Hmap in *.
  apply tx_bind_ok in E as (u & d2 & [_ <-]%guard_ok & E).
  apply tx_bind_ok in E as (u2 & d2 & [Hb <-]%inject_ok & E).
  apply job_by_id_ok in E as (-> & x & k & Hx & Hxid & -> & _).
  split_and!; try done. exists k. f_equal.
  apply (key_unique jr_job_id (compaction_jobs (set_jobs (replaced (jr_job_id r) f (compaction_jobs d)) d)));
    [by apply job_ids_unique|done|by apply replaced_self|]. by rewrite Hxid, Hid.
Qed.

(** A row that does not hold the fence. *)
Lemma require_live_fence_stale id owner epoch now d :
  (forall r, r ∈ compaction_jobs d -> jr_job_id r = id -> fence_ok owner epoch now r = false) ->
  _require_live_fence id owner epoch now d = Err StaleLeaseError.
Proof.
  intros Hn. unfold _require_live_fence, job_row_by_id, fetchone, select, mbind, tx_bind.
  destruct (List.find _ _) as [r|] eqn:E; [|done]. apply find_some_elem in E as [Hr Hid].
  apply (py_eq_leibniz (A:=string)) in Hid. unfold guard. by rewrite (Hn r Hr Hid).
Qed.

Lemma transition_run d r owner epoch to now cand : schema_ok d = true -> sessions_decode d ->
  r ∈ compaction_jobs d -> fence_ok owner epoch now r = true ->
  fault_injector "transition.after_update" = false ->
  allowed_transition (jr_state r) to = true ->
  (if eqb_of to READY_TO_COMMIT then match cand with Some x => is_blank x | None => true end
   else is_some cand) = false ->
  exists k, session_key_hash k = jr_session r
    /\ transition_job (jr_job_id r) owner epoch to (Aware now) cand d
       = (Ok (job_envelope k (transition_row to cand now r)),
          set_jobs (replaced (jr_job_id r) (transition_row to cand now) (compaction_jobs d)) d).
Proof.
  intros Hd Hs Hr Hf Hb Hal Hc. destruct (fence_ok_parts _ _ _ _ Hf) as (Hw & Ho & _ & Hl).
  destruct (job_rows_ok d r Hd Hr) as (Hok & _ & Hbase).
  destruct (fenced_update_run d r owner epoch now (transition_row to cand now)
              "transition.after_update" Hd Hs Hr Hf Hb) as (k & Hk & Hrun); [done| |].
  { apply replaced_ok; try done; [apply transition_row_ok; try done; congruence|].
    intros _. unfold job_nonterminal. by destruct (jr_state r). }
  exists k. split; [done|]. unfold transition_job. cbn [normalize_datetime]. apply transaction_ok.
  rewrite (tx_bind_run _ _ _ _ _ (require_live_fence_run d r owner epoch now Hd Hr Hf)).
  rewrite (tx_bind_run _ _ _ _ _ (guard_run (negb (allowed_transition (jr_state r) to)) _ d
             ltac:(by rewrite Hal))).
  destruct (eqb_of to READY_TO_COMMIT);
    rewrite (tx_bind_run _ _ _ _ _ (guard_run _ _ d Hc)); exact Hrun.
Qed.

Lemma transition_ok id owner epoch to now cand d job d' : schema_ok d = true ->
  transition_job id owner epoch to now cand d = (Ok job, d') ->
  exists inst r k, now = Aware inst /\ r ∈ compaction_jobs d /\ jr_job_id r = id
    /\ fence_ok owner epoch inst r = true /\ allowed_transition (jr_state r) to = true
    /\ job = job_envelope k (transition_row to cand inst r)
    /\ schema_ok d' = true
    /\ d' = set_jobs (replaced id (transition_row to cand inst) (compaction_jobs d)) d.
Proof.
  intros Hd. unfold transition_job. destruct (normalize_datetime now) as [inst|] eqn:En; [|by intros [=]].
  destruct now; [done|]. injection En as ->.
  intros (r & d1 & (-> & Hr & <- & Hf)%require_live_fence_ok & E)%transaction_ok%tx_bind_ok.
  apply tx_bind_ok in E as (u & d1 & [Ha <-]%guard_ok & E). apply negb_false_iff in Ha.
  apply tx_bind_ok in E as (u1 & d1 & Hg & E).
  assert (d1 = d) as ->. { destruct (eqb_of to READY_TO_COMMIT); by apply guard_ok in Hg as [_ <-]. }
  apply fenced_update_ok in E as (-> & Hd' & _ & k & ->); try done.
  by exists inst, r, k.
Qed.
End fenced.

(** ** Lemmas: claims *)

Lemma job_leb_total a b : job_leb a b = true \/ job_leb b a = true.
Proof.
  unfold job_leb. destruct (Z.lt_trichotomy (jr_created_at a) (jr_created_at b)) as [Hl|[He|Hl]].
  - left. by rewrite (proj2 (Z.ltb_lt _ _) Hl).
  - rewrite He, Z.ltb_irrefl, Z.eqb_refl. cbn. apply str_leb_total.
  - right. by rewrite (proj2 (Z.ltb_lt _ _) Hl).
Qed.
Lemma job_leb_trans a b c : job_leb a b = true -> job_leb b c = true -> job_leb a c = true.
Proof.
  unfold job_leb. rewrite !orb_true_iff, !andb_true_iff, !Z.ltb_lt, !Z.eqb_eq.
  intros [H1|[H1 S1]] [H2|[H2 S2]]; try (left; lia).
  right. split; [lia|]. by eapply str_leb_trans.
Qed.

Lemma first_job_none rows : first_job rows = None <-> rows = [].
Proof.
  destruct rows as [|r rows]; [done|]. cbn. destruct (first_job rows); [destruct (job_leb _ _)|]; done.
Qed.
Lemma first_job_some rows r : first_job rows = Some r ->
  r ∈ rows /\ forall s, s ∈ rows -> job_leb r s = true.
Proof.
  revert r. induction rows as [|x rows IH]; intros r; [done|]. cbn.
  destruct (first_job rows) as [s|] eqn:E.
  - destruct (IH s eq_refl) as [Hs Hle]. destruct (job_leb x s) eqn:Ex; intros [= <-].
    + split; [by left|]. intros y [Hy|Hy]%elem_of_cons.
      * subst y. by destruct (job_leb_total x x).
      * eapply job_leb_trans; [exact Ex|by apply Hle].
    + split; [by right|]. intros y [Hy|Hy]%elem_of_cons; [subst y|by apply Hle].
      destruct (job_leb_total s x) as [|Hc]; [done|congruence].
  - intros [= <-]. apply first_job_none in E as ->. split; [by left|].
    intros y ->%list_elem_of_singleton. by destruct (job_leb_total x x).
Qed.

Section claims.
Context `{Sha256, StorageCodec, EnvironmentLaws}.

(** The active base as a function of the database. *)
Definition active_base (d : db) (hash : string) : result repo_error (option string * Z * Z) :=
  read_only (_active_base hash) d.

Lemma active_base_ok hash d x d' : _active_base hash d = Ok (x, d') <->
  d' = d /\ active_base d hash = Ok x.
Proof.
  unfold active_base, read_only. split.
  - intros E. rewrite E. split; [|done]. unfold _active_base in E. tx_inv E; done.
  - intros [-> E]. destruct (_active_base hash d) as [[y d1]|] eqn:Eb; [|done].
    injection E as ->. assert (Eb' := Eb). unfold _active_base in Eb. tx_inv Eb; done.
Qed.

Lemma active_base_frame d d' hash : active_snapshots d' = active_snapshots d ->
  snapshots d' = snapshots d -> active_base d' hash = active_base d hash.
Proof.
  intros Ha Hs. unfold active_base, read_only, _active_base, fetchone, select, mbind, tx_bind.
  rewrite Ha. destruct (List.find _ (active_snapshots d)) as [a|]; [|done]. cbn beta iota.
  rewrite Hs. destruct (List.find _ (snapshots d)) as [s|]; [|done].
  unfold guard, throw. by destruct (_ !=? _).
Qed.

(** An active base is a stored snapshot with a positive version, or absent. *)
Lemma active_base_valid d hash b v c : schema_ok d = true ->
  active_base d hash = Ok (b, v, c) ->
  null_or_not_blank b = true /\ opt_references nr_snapshot_id (snapshots d) b = true
  /\ (b = None /\ v = 0 /\ c = 0
      \/ is_some b = true /\ 1 <= v /\ 1 <= c
         /\ exists a s, a ∈ active_snapshots d /\ ar_session a = hash /\ s ∈ snapshots d
            /\ b = Some (nr_snapshot_id s) /\ ar_snapshot_id a = nr_snapshot_id s
            /\ v = ar_pointer_version a /\ c = nr_covered_event_end s /\ nr_session s = hash).
Proof.
  intros Hd. unfold active_base, read_only.
  destruct (_active_base hash d) as [[y d1]|] eqn:E; [|done]. intros [= ->].
  unfold _active_base in E. apply tx_bind_ok in E as (o & d2 & [<- <-]%fetchone_ok & E).
  destruct (List.find _ (active_snapshots d)) as [a|] eqn:Ea; cycle 1.
  { apply tx_ret_ok in E as [[= <- <- <-] _]. split_and!; auto. }
  apply tx_bind_ok in E as (o & d2 & [<- <-]%fetchone_ok & E).
  destruct (List.find _ (snapshots d)) as [s|] eqn:Es; cycle 1.
  { apply tx_ret_ok in E as [[= <- <- <-] _]. split_and!; auto. }
  apply tx_bind_ok in E as (u & d2 & [Hg <-]%guard_ok & E).
  apply tx_ret_ok in E as [[= <- <- <-] _]. apply negb_false_iff in Hg.
  apply (py_eq_leibniz (A:=string)) in Hg.
  apply find_some_elem in Ea as [Ha Hah]. apply find_some_elem in Es as [Hs Hsid].
  apply (py_eq_leibniz (A:=string)) in Hah, Hsid.
  apply schema_ok_spec in Hd as (_ & _ & _ & Hsn & _ & Hac & _).
  unfold snapshots_ok in Hsn. apply andb_true_iff in Hsn as [[Hsn _]%andb_true_iff _].
  rewrite forallb_true_iff in Hsn. specialize (Hsn s Hs).
  apply andb_true_iff in Hsn as [[Hrow _]%andb_true_iff _]. unfold snapshot_row_ok in Hrow.
  unfold actives_ok in Hac. apply andb_true_iff in Hac as [[Hac _]%andb_true_iff _].
  rewrite forallb_true_iff in Hac. specialize (Hac a Ha). bool_hyps.
  split; [done|]. split; [apply references_spec; eauto|]. right. split_and!; try done.
  exists a, s. split_and!; done.
Qed.

(** A Job whose intent the active snapshot already covers. *)
Definition covered (d : db) (r : JobRow) : Prop :=
  exists b v c, active_base d (jr_session r) = Ok (b, v, c) /\ jr_intent r <= c.

(** One row of the table after a claim loop that took [winner]. *)
Definition claim_step (d : db) (now : Z) (winner : option (JobRow * JobRow)) (r r' : JobRow) : Prop :=
  r' = r /\ (forall w w', winner = Some (w, w') -> jr_job_id r <> jr_job_id w)
  \/ (eligible now r = true /\ covered d r /\ r' = cancel_row now r)
  \/ winner = Some (r, r').

(** The outcome of the claim loop. *)
Definition claim_post (d : db) (worker : string) (now lease : Z)
    (o : option CompactionJobEnvelope) (d' : db) : Prop :=
  exists g winner, d' = set_jobs (map g (compaction_jobs d)) d
    /\ (forall r, r ∈ compaction_jobs d -> claim_step d now winner r (g r))
    /\ match o with
       | None => winner = None
                 /\ forall r, r ∈ compaction_jobs d -> eligible now r = true -> covered d r
       | Some job => exists r b v c k, r ∈ compaction_jobs d /\ eligible now r = true
           /\ active_base d (jr_session r) = Ok (b, v, c) /\ c < jr_intent r
           /\ winner = Some (r, claim_row b v worker lease now r)
           /\ job = job_envelope k (claim_row b v worker lease now r)
           /\ (forall s, s ∈ compaction_jobs d -> eligible now s = true ->
               covered d s \/ job_leb r s = true)
       end.

Lemma cancel_not_eligible now r : eligible now (cancel_row now r) = false.
Proof. reflexivity. Qed.

Lemma eligible_parts now r : eligible now r = true ->
  (jr_state r = PENDING \/ jr_state r = RETRY_WAIT) /\ job_nonterminal r = true.
Proof.
  unfold eligible, eqb_of, job_nonterminal. intros [H3|[H3 _]%andb_true_iff]%orb_true_iff;
    apply bool_decide_eq_true in H3; rewrite H3; auto.
Qed.

Lemma cancel_step_ok d r now : schema_ok d = true -> r ∈ compaction_jobs d -> eligible now r = true ->
  update_jobs (fun x => jr_job_id x ==? jr_job_id r) (cancel_row now) d
  = Ok (1, set_jobs (replaced (jr_job_id r) (cancel_row now) (compaction_jobs d)) d)
  /\ schema_ok (set_jobs (replaced (jr_job_id r) (cancel_row now) (compaction_jobs d)) d) = true.
Proof.
  intros Hd Hr He. destruct (eligible_parts _ _ He) as [Hst Hnt].
  destruct (job_rows_ok d r Hd Hr) as (Hok & _ & Hbase).
  destruct (update_one d r (fun x => jr_job_id x ==? jr_job_id r) (cancel_row now) Hd Hr) as [Hmap Hcount].
  { by apply (py_eq_leibniz (A:=string)). }
  { intros y Hy. by apply (py_eq_leibniz (A:=string)) in Hy. }
  assert (Hj : jobs_ok d (replaced (jr_job_id r) (cancel_row now) (compaction_jobs d)) = true).
  { apply replaced_ok; try done. by apply cancel_row_ok; try done; destruct Hst as [-> | ->]. }
  split; [|by apply set_jobs_schema]. apply update_rows_ok. rewrite Hmap. by split_and!.
Qed.

Lemma claim_step_run d r now b v worker lease c : schema_ok d = true -> r ∈ compaction_jobs d ->
  eligible now r = true -> is_blank worker = false -> active_base d (jr_session r) = Ok (b, v, c) ->
  update_jobs (fun x => (jr_job_id x ==? jr_job_id r) && eligible now x)
    (claim_row b v worker lease now) d
  = Ok (1, set_jobs (replaced (jr_job_id r) (claim_row b v worker lease now) (compaction_jobs d)) d)
  /\ schema_ok (set_jobs (replaced (jr_job_id r) (claim_row b v worker lease now) (compaction_jobs d)) d) = true.
Proof.
  intros Hd Hr He Hw Hbase. destruct (eligible_parts _ _ He) as [Hst Hnt].
  destruct (job_rows_ok d r Hd Hr) as (Hok & _ & _).
  destruct (active_base_valid d _ _ _ _ Hd Hbase) as (Hb1 & Hb2 & Hb3).
  destruct (update_one d r (fun x => (jr_job_id x ==? jr_job_id r) && eligible now x)
    (claim_row b v worker lease now) Hd Hr) as [Hmap Hcount].
  { rewrite He, andb_true_r. by apply (py_eq_leibniz (A:=string)). }
  { intros y [Hy _]%andb_true_iff. by apply (py_eq_leibniz (A:=string)) in Hy. }
  assert (Hj : jobs_ok d (replaced (jr_job_id r) (claim_row b v worker lease now)
                                   (compaction_jobs d)) = true).
  { apply replaced_ok; try done. apply claim_row_ok; try done.
    destruct Hb3 as [(-> & -> & _)|(? & ? & _)]; auto. }
  split; [|by apply set_jobs_schema]. apply update_rows_ok. rewrite Hmap. by split_and!.
Qed.

Lemma replaced_eligible d r now : schema_ok d = true -> r ∈ compaction_jobs d -> eligible now r = true ->
  (List.length (List.filter (eligible now) (replaced (jr_job_id r) (cancel_row now) (compaction_jobs d)))
   < List.length (List.filter (eligible now) (compaction_jobs d)))%nat.
Proof.
  intros _ Hr He. unfold replaced. revert Hr. generalize (compaction_jobs d). intros rows Hr.
  assert (Hle : forall l, (List.length (List.filter (eligible now)
      (map (fun x => if jr_job_id x ==? jr_job_id r then cancel_row now x else x) l))
    <= List.length (List.filter (eligible now) l))%nat).
  { induction l as [|x l IH]; [done|]. cbn [map List.filter].
    destruct (jr_job_id x ==? jr_job_id r).
    - rewrite cancel_not_eligible. destruct (eligible now x); cbn; lia.
    - destruct (eligible now x); cbn; lia. }
  induction rows as [|x rows IH]; [by apply elem_of_nil in Hr|]. cbn [map List.filter].
  apply elem_of_cons in Hr as [<-|Hr].
  - rewrite (proj2 (py_eq_leibniz (A:=string) _ _)), cancel_not_eligible, He by done.
    cbn. specialize (Hle rows). lia.
  - specialize (IH Hr). destruct (jr_job_id x ==? jr_job_id r).
    + rewrite cancel_not_eligible. destruct (eligible now x); cbn; lia.
    + destruct (eligible now x); cbn; lia.
Qed.

Lemma covered_frame d rows r : covered (set_jobs rows d) r <-> covered d r.
Proof. unfold covered. by rewrite (active_base_frame d (set_jobs rows d)). Qed.

(** One cancelled row first, then the rest of the loop. *)
Lemma claim_post_cancel d r0 worker now lease o d' : schema_ok d = true ->
  r0 ∈ compaction_jobs d -> eligible now r0 = true -> covered d r0 ->
  claim_post (set_jobs (replaced (jr_job_id r0) (cancel_row now) (compaction_jobs d)) d)
             worker now lease o d' ->
  claim_post d worker now lease o d'.
Proof.
  intros Hd Hr0 He0 Hc0 (g & winner & -> & Hg & Ho). cbn [compaction_jobs set_jobs] in *.
  set (h := fun x => if jr_job_id x ==? jr_job_id r0 then cancel_row now x else x) in *.
  assert (Hn := job_ids_unique d Hd).
  assert (Hh : forall r, r ∈ compaction_jobs d -> r = r0 /\ h r = cancel_row now r0
               \/ h r = r /\ jr_job_id r <> jr_job_id r0).
  { intros r Hr. unfold h. destruct (jr_job_id r ==? jr_job_id r0) eqn:E.
    - apply (py_eq_leibniz (A:=string)) in E. left.
      by assert (r = r0) as -> by (by eapply key_unique).
    - right. split; [done|]. intros E2. rewrite E2 in E.
      by rewrite (proj2 (py_eq_leibniz (A:=string) _ _)) in E. }
  assert (Hin : forall r, r ∈ compaction_jobs d -> h r ∈ replaced (jr_job_id r0) (cancel_row now) (compaction_jobs d))
    by (intros r Hr; apply elem_of_replaced; eauto).
  assert (Hback : forall r, r ∈ replaced (jr_job_id r0) (cancel_row now) (compaction_jobs d) ->
            eligible now r = true -> r ∈ compaction_jobs d).
  { intros r (x & Hx & ->)%elem_of_replaced He. fold (h x) in *.
    destruct (Hh x Hx) as [[-> E]|[E _]]; rewrite E in *; [|done].
    by rewrite cancel_not_eligible in He. }
  assert (Hwin : forall w w', winner = Some (w, w') -> eligible now w = true).
  { intros w w' ->. destruct o as [job|]; [|by destruct Ho].
    destruct Ho as (r & b & v & c & k & _ & He & _ & _ & [= <- <-] & _). done. }
  exists (g ∘ h), winner. split; [|split].
  - unfold replaced. fold h. by rewrite map_map.
  - intros r Hr. specialize (Hg (h r) (Hin r Hr)). cbn [compose].
    destruct (Hh r Hr) as [[-> E]|[E Hne]]; rewrite E in *.
    + destruct Hg as [[-> _]|[(He & _)|Hw]].
      * right. left. done.
      * by rewrite cancel_not_eligible in He.
      * specialize (Hwin _ _ Hw). by rewrite cancel_not_eligible in Hwin.
    + destruct Hg as [Hg|[(He & Hc & Hg)|Hg]]; [by left| |by right; right].
      right. left. split_and!; try done. by apply covered_frame in Hc.
  - destruct o as [job|].
    + destruct Ho as (r & b & v & c & k & Hr & He & Hb & Hlt & -> & -> & Hfirst).
      exists r, b, v, c, k. split_and!; try done.
      * by apply Hback.
      * by rewrite (active_base_frame d) in Hb.
      * intros s Hs Hes. destruct (Hh s Hs) as [[-> _]|[E _]]; [by left|].
        destruct (Hfirst s) as [Hcs|Hle]; [rewrite <- E; by apply Hin|done|..|by right].
        left. by apply covered_frame in Hcs.
    + destruct Ho as [-> Hcov]. split; [done|]. intros s Hs Hes.
      destruct (Hh s Hs) as [[-> _]|[E _]]; [done|].
      apply (covered_frame d (replaced (jr_job_id r0) (cancel_row now) (compaction_jobs d))).
      apply Hcov; [rewrite <- E; by apply Hin|done].
Qed.

Definition base_broken (d : db) (now : Z) (e : repo_error) : Prop :=
  exists r, r ∈ compaction_jobs d /\ eligible now r = true /\ active_base d (jr_session r) = Err e.

(** The loop ends within its fuel, with the outcome [claim_post]. *)
Lemma claim_loop_spec fuel worker now lease : is_blank worker = false ->
  forall d, schema_ok d = true -> sessions_decode d ->
  (List.length (List.filter (eligible now) (compaction_jobs d)) < fuel)%nat ->
  match claim_loop fuel worker now lease d with
  | Ok (Some o, d') => claim_post d worker now lease o d' /\ schema_ok d' = true
  | Ok (None, _) => False
  | Err e => e = InjectedFault "claim.after_update" \/ base_broken d now e
  end.
Proof.
  intros Hw. induction fuel as [|fuel IH]; intros d Hd Hs Hfuel; [lia|].
  cbn [claim_loop]. unfold select at 1, mbind at 1, tx_bind at 1.
  destruct (first_job (List.filter (eligible now) (compaction_jobs d))) as [r|] eqn:Ef; cycle 1.
  - apply first_job_none in Ef. split; [|done]. exists id, None. rewrite map_id. split_and!.
    + by destruct d.
    + intros r Hr. left. split; [done|]. by intros w w' [=].
    + done.
    + intros r Hr He. exfalso. assert (r ∈ List.filter (eligible now) (compaction_jobs d)) as Hin
        by (by apply elem_of_filter_bool). rewrite Ef in Hin. by apply elem_of_nil in Hin.
  - apply first_job_some in Ef as [[Hr He]%elem_of_filter_bool Hfirst].
    destruct (active_base d (jr_session r)) as [[[b v] c]|e] eqn:Eb; cycle 1.
    { assert (_active_base (jr_session r) d = Err e) as Hrun.
      { unfold active_base, read_only in Eb. destruct (_active_base (jr_session r) d) as [[? ?]|]; congruence. }
      rewrite (tx_bind_err _ _ _ _ Hrun). right. by exists r. }
    assert (Hrun : _active_base (jr_session r) d = Ok ((b, v, c), d)) by (by apply active_base_ok).
    rewrite (tx_bind_run _ _ _ _ _ Hrun).
    destruct (jr_intent r <=? c) eqn:Ec; bool_hyps.
    + destruct (cancel_step_ok d r now Hd Hr He) as [Hup Hd1].
      rewrite (tx_bind_run _ _ _ _ _ Hup).
      pose proof (replaced_eligible d r now Hd Hr He) as Hlt.
      assert (Hcov : covered d r) by (by exists b, v, c).
      specialize (IH _ Hd1 (sessions_decode_set_jobs _ _ Hs)). cbn [compaction_jobs set_jobs] in IH.
      specialize (IH ltac:(lia)).
      destruct (claim_loop fuel worker now lease _) as [[[o|] d']|e]; [| |].
      * destruct IH as [Hpost Hd']. split; [|done]. by eapply claim_post_cancel.
      * done.
      * destruct IH as [->|(s & Hsin & Hse & Hsb)]; [by left|right].
        apply elem_of_replaced in Hsin as (x & Hx & ->).
        destruct (jr_job_id x ==? jr_job_id r); [by rewrite cancel_not_eligible in Hse|].
        exists x. split_and!; try done. by rewrite (active_base_frame d) in Hsb.
    + destruct (claim_step_run d r now b v worker lease c Hd Hr He Hw Eb) as [Hup Hd1].
      rewrite (tx_bind_run _ _ _ _ _ Hup). cbn [negb Z.eqb Pos.eqb].
      set (f := claim_row b v worker lease now) in *.
      set (d1 := set_jobs (replaced (jr_job_id r) f (compaction_jobs d)) d) in *.
      unfold inject, guard at 1. destruct (fault_injector "claim.after_update"); [by left|].
      rewrite (tx_bind_run _ _ d1 () d1 eq_refl).
      destruct (job_by_id_run d1 (f r) Hd1 Hs (replaced_self d r f Hr)) as (k & Hk & Hjob).
      rewrite (tx_bind_run _ _ _ _ _ Hjob). unfold mret, tx_ret. split; [|done].
      exists (fun x => if jr_job_id x ==? jr_job_id r then f x else x), (Some (r, f r)).
      split; [done|]. assert (Hn := job_ids_unique d Hd). split.
      * intros x Hx. destruct (jr_job_id x ==? jr_job_id r) eqn:E.
        { apply (py_eq_leibniz (A:=string)) in E.
          assert (x = r) as -> by (by eapply key_unique). by right; right. }
        left. split; [done|]. intros w w' [= <- <-] E2. rewrite E2 in E.
        by rewrite (proj2 (py_eq_leibniz (A:=string) _ _)) in E.
      * exists r, b, v, c, k. split_and!; try done. intros s Hs1 Hs2. right.
        apply Hfirst. by apply elem_of_filter_bool.
Qed.
End claims.

(** ** Lemmas: recovery *)

Lemma insert_job_ordered_perm r rows : insert_job_ordered r rows ≡ₚ r :: rows.
Proof.
  induction rows as [|s rows IH]; [done|]. cbn. destruct (job_leb r s); [done|].
  rewrite IH. apply Permutation_swap.
Qed.
Lemma order_jobs_perm rows : order_jobs rows ≡ₚ rows.
Proof.
  induction rows as [|r rows IH]; [done|]. cbn. by rewrite insert_job_ordered_perm, IH.
Qed.

Section recovery.
Context `{Sha256, StorageCodec, EnvironmentLaws}.

Definition expired_working (now : Z) (r : JobRow) : bool := working (jr_state r) && lease_expired now r.
Definition recovered (ids : list string) (now : Z) (rows : list JobRow) : list JobRow :=
  map (fun x => if bool_decide (jr_job_id x ∈ ids) then recover_row now x else x) rows.

Lemma recover_step_ok d r now : schema_ok d = true -> r ∈ compaction_jobs d ->
  expired_working now r = true ->
  update_jobs (fun x => (jr_job_id x ==? jr_job_id r) && working (jr_state x) && lease_expired now x)
    (recover_row now) d
  = Ok (1, set_jobs (replaced (jr_job_id r) (recover_row now) (compaction_jobs d)) d)
  /\ schema_ok (set_jobs (replaced (jr_job_id r) (recover_row now) (compaction_jobs d)) d) = true.
Proof.
  intros Hd Hr He. unfold expired_working in He. apply andb_true_iff in He as [Hw Hx].
  destruct (job_rows_ok d r Hd Hr) as (Hok & _ & Hbase).
  destruct (update_one d r (fun x => (jr_job_id x ==? jr_job_id r) && working (jr_state x)
    && lease_expired now x) (recover_row now) Hd Hr) as [Hmap Hcount].
  { rewrite Hw, Hx, !andb_true_r. by apply (py_eq_leibniz (A:=string)). }
  { intros y [[Hy _]%andb_true_iff _]%andb_true_iff. by apply (py_eq_leibniz (A:=string)) in Hy. }
  assert (Hj : jobs_ok d (replaced (jr_job_id r) (recover_row now) (compaction_jobs d)) = true).
  { apply replaced_ok; try done; [by apply recover_row_ok|].
    intros _. unfold job_nonterminal. by destruct (jr_state r). }
  split; [|by apply set_jobs_schema]. apply update_rows_ok. rewrite Hmap. by split_and!.
Qed.

Lemma recover_rows_run now rs : NoDup (map jr_job_id rs) ->
  fault_injector "recovery.after_update" = false ->
  forall d, schema_ok d = true ->
  (forall r, r ∈ rs -> r ∈ compaction_jobs d /\ expired_working now r = true) ->
  recover_rows (map jr_job_id rs) now d
    = Ok (map jr_job_id rs, set_jobs (recovered (map jr_job_id rs) now (compaction_jobs d)) d)
  /\ schema_ok (set_jobs (recovered (map jr_job_id rs) now (compaction_jobs d)) d) = true.
Proof.
  intros Hn Hb. induction rs as [|r rs IH]; intros d Hd Hin.
  - assert (set_jobs (recovered [] now (compaction_jobs d)) d = d) as E.
    { unfold recovered. rewrite (map_ext _ id), map_id; [by destruct d|].
      intros x. by rewrite bool_decide_eq_false_2 by apply not_elem_of_nil. }
    cbn [map]. by rewrite E.
  - cbn [map] in Hn. apply NoDup_cons in Hn as [Hnr Hn].
    destruct (Hin r (list_elem_of_here _ _)) as [Hr He].
    destruct (recover_step_ok d r now Hd Hr He) as [Hup Hd1].
    set (d1 := set_jobs (replaced (jr_job_id r) (recover_row now) (compaction_jobs d)) d) in *.
    assert (Hin1 : forall x, x ∈ rs -> x ∈ compaction_jobs d1 /\ expired_working now x = true).
    { intros x Hx. destruct (Hin x) as [Hxd Hxe]; [by right|]. split; [|done].
      apply elem_of_replaced. exists x. split; [done|].
      destruct (jr_job_id x ==? jr_job_id r) eqn:E; [|done].
      apply (py_eq_leibniz (A:=string)) in E. destruct Hnr. rewrite <- E.
      apply list_elem_of_fmap. eauto. }
    destruct (IH Hn d1 Hd1 Hin1) as [Hrun Hd2].
    assert (Heq : recovered (map jr_job_id (r :: rs)) now (compaction_jobs d)
                  = recovered (map jr_job_id rs) now (compaction_jobs d1)).
    { unfold d1, recovered, replaced. cbn [compaction_jobs set_jobs map]. rewrite map_map.
      apply map_ext_in. intros x Hx%list_elem_of_In. destruct (jr_job_id x ==? jr_job_id r) eqn:E.
      - apply (py_eq_leibniz (A:=string)) in E. rewrite E, bool_decide_eq_true_2 by left.
        rewrite bool_decide_eq_false_2; [done|]. cbn [jr_job_id recover_row]. by rewrite E.
      - assert (bool_decide (jr_job_id x ∈ jr_job_id r :: map jr_job_id rs)
                = bool_decide (jr_job_id x ∈ map jr_job_id rs)) as ->; [|done].
        apply bool_decide_ext. rewrite elem_of_cons. split; [|by right]. intros [E2|?]; [|done].
        rewrite E2 in E. by rewrite (proj2 (py_eq_leibniz (A:=string) _ _)) in E. }
    rewrite Heq. split; [|exact Hd2]. cbn [map recover_rows].
    rewrite (tx_bind_run _ _ _ _ _ Hup). cbn [negb Z.eqb Pos.eqb].
    rewrite (tx_bind_run _ _ _ _ _ (inject_run _ d1 Hb)).
    rewrite (tx_bind_run _ _ _ _ _ Hrun). done.
Qed.

Lemma jobs_by_ids_run d rs : schema_ok d = true -> sessions_decode d ->
  (forall r, r ∈ rs -> r ∈ compaction_jobs d) ->
  exists ks, List.length ks = List.length rs
    /\ jobs_by_ids (map jr_job_id rs) d = Ok (zip_with job_envelope ks rs, d).
Proof.
  intros Hd Hs Hin. induction rs as [|r rs IH]; [by exists []|].
  destruct (IH (fun x Hx => Hin x (list_elem_of_further _ _ _ Hx))) as (ks & Hl & Hrun).
  destruct (job_by_id_run d r Hd Hs (Hin r (list_elem_of_here _ _))) as (k & _ & Hk).
  exists (k :: ks). split; [cbn; lia|]. cbn [map jobs_by_ids].
  rewrite (tx_bind_run _ _ _ _ _ Hk), (tx_bind_run _ _ _ _ _ Hrun). done.
Qed.

(** Recovery as one function of the table. *)
Lemma recover_run d now : schema_ok d = true -> sessions_decode d ->
  fault_injector "recovery.after_update" = false ->
  exists jobs, recover_expired_leases (Aware now) d = (Ok jobs,
      set_jobs (map (fun r => if expired_working now r then recover_row now r else r)
                    (compaction_jobs d)) d)
    /\ map job_job_id jobs = map jr_job_id (order_jobs (List.filter (expired_working now) (compaction_jobs d)))
    /\ (forall j, j ∈ jobs -> job_state j = PENDING).
Proof.
  intros Hd Hs Hb. set (rs := order_jobs (List.filter (expired_working now) (compaction_jobs d))).
  assert (Hn := job_ids_unique d Hd).
  assert (Hin : forall r, r ∈ rs <-> r ∈ compaction_jobs d /\ expired_working now r = true).
  { intros r. unfold rs. rewrite (order_jobs_perm _). apply elem_of_filter_bool. }
  assert (Hnr : NoDup (map jr_job_id rs)).
  { unfold rs. rewrite (order_jobs_perm _). clear rs Hin. induction (compaction_jobs d) as [|x l IH]; [done|].
    cbn in Hn. apply NoDup_cons in Hn as [Hx Hn]. cbn [List.filter].
    destruct (expired_working now x); [|by apply IH]. cbn [map]. apply NoDup_cons. split; [|by apply IH].
    intros (y & E & Hy)%list_elem_of_fmap. apply elem_of_filter_bool in Hy as [Hy _].
    apply Hx. rewrite E. apply list_elem_of_fmap. eauto. }
  destruct (recover_rows_run now rs Hnr Hb d Hd (fun r Hr => proj1 (Hin r) Hr)) as [Hrun Hd1].
  assert (Heq : recovered (map jr_job_id rs) now (compaction_jobs d)
    = map (fun r => if expired_working now r then recover_row now r else r) (compaction_jobs d)).
  { unfold recovered. apply map_ext_in. intros x Hx%list_elem_of_In.
    destruct (expired_working now x) eqn:E.
    - rewrite bool_decide_eq_true_2; [done|]. apply list_elem_of_fmap. exists x. split; [done|].
      by apply Hin.
    - rewrite bool_decide_eq_false_2; [done|]. intros (y & E2 & Hy)%list_elem_of_fmap.
      apply Hin in Hy as [Hy Hye].
      assert (x = y) as -> by (by apply (key_unique jr_job_id (compaction_jobs d))). congruence. }
  rewrite Heq in *.
  set (d1 := set_jobs (map (fun r => if expired_working now r then recover_row now r else r)
                           (compaction_jobs d)) d) in *.
  destruct (jobs_by_ids_run d1 (map (recover_row now) rs) Hd1 Hs) as (ks & Hl & Hjobs).
  { intros x (r & -> & Hr)%list_elem_of_fmap. apply Hin in Hr as [Hr He].
    apply list_elem_of_fmap. exists r. by rewrite He. }
  rewrite map_map in Hjobs. cbn [jr_job_id recover_row] in Hjobs.
  exists (zip_with job_envelope ks (map (recover_row now) rs)). split; [|split].
  - unfold recover_expired_leases. cbn [normalize_datetime]. apply transaction_ok.
    unfold select at 1, mbind at 1, tx_bind at 1.
    rewrite (tx_bind_run _ _ _ _ _ Hrun). exact Hjobs.
  - rewrite length_map in Hl. clear -Hl. revert ks Hl.
    induction rs as [|r rs IH]; intros [|k ks] Hl; cbn in *; try lia; [done|].
    f_equal. apply IH. lia.
  - intros j Hj. apply list_elem_of_lookup in Hj as [i Hi].
    apply lookup_zip_with_Some in Hi as (k & r & -> & _ & Hr). rewrite list_lookup_fmap in Hr.
    destruct (rs !! i); cbn in Hr; [|done]. by injection Hr as <-.
Qed.
End recovery.

Section more_fenced.
Context `{Sha256, StorageCodec, EnvironmentLaws}.

Lemma renew_run d r owner epoch now lease old : schema_ok d = true -> sessions_decode d ->
  r ∈ compaction_jobs d -> fence_ok owner epoch now r = true ->
  fault_injector "lease.after_renew" = false -> now < lease ->
  jr_lease_expires_at r = Some old -> old < lease ->
  exists k, session_key_hash k = jr_session r
    /\ renew_job_lease (jr_job_id r) owner epoch (Aware now) (Aware lease) d
       = (Ok (job_envelope k (renew_row lease now r)),
          set_jobs (replaced (jr_job_id r) (renew_row lease now) (compaction_jobs d)) d).
Proof.
  intros Hd Hs Hr Hf Hb Hlt Hold Hext. destruct (fence_ok_parts _ _ _ _ Hf) as (Hw & Ho & _ & Hl).
  destruct (job_rows_ok d r Hd Hr) as (Hok & _ & Hbase).
  destruct (fenced_update_run d r owner epoch now (renew_row lease now)
              "lease.after_renew" Hd Hs Hr Hf Hb) as (k & Hk & Hrun); [done| |].
  { apply replaced_ok; try done. eapply renew_row_ok; try done. congruence. }
  exists k. split; [done|]. unfold renew_job_lease. cbn [normalize_datetime].
  rewrite (proj2 (Z.leb_gt lease now)) by lia. apply transaction_ok.
  rewrite (tx_bind_run _ _ _ _ _ (require_live_fence_run d r owner epoch now Hd Hr Hf)).
  rewrite Hold. rewrite (tx_bind_run _ _ _ _ _ (guard_run (lease <=? old) _ d
             (proj2 (Z.leb_gt lease old) Hext))).
  exact Hrun.
Qed.

Lemma fail_run d r owner epoch now s c m retry_at preserve next retry :
  schema_ok d = true -> sessions_decode d -> r ∈ compaction_jobs d ->
  fence_ok owner epoch now r = true -> fault_injector "failure.after_update" = false ->
  fail_arguments_bad s c m (is_some retry_at) preserve = false ->
  (retry_at = None /\ next = FAILED /\ retry = None
   \/ exists t, retry_at = Some (Aware t) /\ now < t /\ next = RETRY_WAIT /\ retry = Some t) ->
  exists k, session_key_hash k = jr_session r
    /\ fail_job (jr_job_id r) owner epoch (Aware now) s c m retry_at preserve d
       = (Ok (job_envelope k (fail_row next preserve retry s c m now r)),
          set_jobs (replaced (jr_job_id r) (fail_row next preserve retry s c m now)
                             (compaction_jobs d)) d).
Proof.
  intros Hd Hs Hr Hf Hb Hargs Hn. destruct (job_rows_ok d r Hd Hr) as (Hok & _ & Hbase).
  destruct (fenced_update_run d r owner epoch now (fail_row next preserve retry s c m now)
              "failure.after_update" Hd Hs Hr Hf Hb) as (k & Hk & Hrun); [done| |].
  { assert (Hargs' := Hargs). unfold fail_arguments_bad in Hargs'.
    apply orb_false_iff in Hargs' as [[Hargs' _]%orb_false_iff _].
    apply orb_false_iff in Hargs' as [[Hb1 Hb2]%orb_false_iff Hb3].
    apply replaced_ok; try done.
    - apply fail_row_ok; try done.
      destruct Hn as [(_ & -> & ->)|(t & _ & _ & -> & ->)]; [by left|by right].
    - intros _. destruct (fence_ok_parts _ _ _ _ Hf) as (Hw & _).
      unfold job_nonterminal. by destruct (jr_state r). }
  exists k. split; [done|]. unfold fail_job. rewrite Hargs. cbn [normalize_datetime].
  assert (Hret : match retry_at with
    | None => Ok (FAILED, None)
    | Some retry_at => retry ← normalize_datetime retry_at;
        raise ValueError when (retry <=? now);; Ok (RETRY_WAIT, Some retry)
    end = @Ok repo_error _ (next, retry)).
  { destruct Hn as [(-> & -> & ->)|(t & -> & Ht & -> & ->)]; [done|]. cbn [normalize_datetime mbind result_bind].
    by rewrite raise_if_false by (apply Z.leb_gt; lia). }
  rewrite Hret. apply transaction_ok.
  rewrite (tx_bind_run _ _ _ _ _ (require_live_fence_run d r owner epoch now Hd Hr Hf)).
  exact Hrun.
Qed.

(** *** Intents *)

Lemma nonterminal_job_some d h r d' : nonterminal_job h d = Ok (Some r, d') ->
  d' = d /\ r ∈ compaction_jobs d /\ jr_session r = h /\ job_nonterminal r = true.
Proof.
  unfold nonterminal_job. intros [Hf <-]%fetchone_ok. apply find_some_elem in Hf as [Hr Hp].
  apply andb_true_iff in Hp as [Hs Hn]. by apply (py_eq_leibniz (A:=string)) in Hs.
Qed.
Lemma nonterminal_job_none d h d' : nonterminal_job h d = Ok (None, d') ->
  d' = d /\ forall r, r ∈ compaction_jobs d -> jr_session r = h -> job_nonterminal r = false.
Proof.
  unfold nonterminal_job. intros [Hf <-]%fetchone_ok. split; [done|]. intros r Hr Hs.
  rewrite find_none_ext in Hf. specialize (Hf r Hr).
  rewrite (proj2 (py_eq_leibniz (A:=string) _ _)) in Hf by done. done.
Qed.

Lemma same_intent_replaced d r target now : schema_ok d = true -> r ∈ compaction_jobs d ->
  jr_intent r < target -> schema_ok (set_jobs (replaced (jr_job_id r) (fold_row target now) (compaction_jobs d)) d) = true
  /\ update_jobs (fun x => jr_job_id x ==? jr_job_id r) (fold_row target now) d
     = Ok (1, set_jobs (replaced (jr_job_id r) (fold_row target now) (compaction_jobs d)) d).
Proof.
  intros Hd Hr Hlt. destruct (job_rows_ok d r Hd Hr) as (Hok & _ & Hbase).
  destruct (update_one d r (fun x => jr_job_id x ==? jr_job_id r) (fold_row target now) Hd Hr) as [Hmap Hcount].
  { by apply (py_eq_leibniz (A:=string)). }
  { intros y Hy. by apply (py_eq_leibniz (A:=string)) in Hy. }
  assert (Hj : jobs_ok d (replaced (jr_job_id r) (fold_row target now) (compaction_jobs d)) = true).
  { apply replaced_ok; try done. unfold job_row_ok in *. cbn [jr_job_id jr_target jr_intent jr_base
      jr_base_pointer_version jr_lease_epoch jr_attempt_count jr_error_stage jr_error_code
      jr_error_message jr_state jr_lease_owner jr_lease_expires_at jr_candidate jr_next_retry_at
      jr_committed_at fold_row].
    rewrite !andb_true_iff in *. destruct_and? Hok. split_and!; try done. apply Z.leb_le. bool_hyps. lia. }
  split; [by apply set_jobs_schema|]. apply update_rows_ok. rewrite Hmap. by split_and!.
Qed.

(** What a successful intent did: nothing past the covered target; one raised
    intent on the session's nonterminal Job; or one new PENDING Job. *)
Definition intent_post (d : db) (job_id : string) (k : SessionKey) (target now : Z)
    (o : option CompactionJobEnvelope) (d' : db) : Prop :=
  (exists row, row ∈ sessions d /\ se_hash row = session_key_hash k
               /\ target < se_next_event_sequence row)
  /\ exists b v c, active_base d (session_key_hash k) = Ok (b, v, c)
  /\ match o with
     | None => target <= c /\ d' = d
     | Some job => c < target /\ exists r kk, job = job_envelope kk r /\ r ∈ compaction_jobs d'
         /\ jr_session r = session_key_hash k /\ target <= jr_intent r
         /\ ((exists r0, r0 ∈ compaction_jobs d /\ job_nonterminal r0 = true
               /\ jr_session r0 = session_key_hash k
               /\ (target <= jr_intent r0 /\ r = r0 /\ d' = d
                   \/ jr_intent r0 < target /\ r = fold_row target now r0
                      /\ d' = set_jobs (replaced (jr_job_id r0) (fold_row target now)
                                                 (compaction_jobs d)) d))
             \/ (forall x, x ∈ compaction_jobs d -> jr_session x = session_key_hash k ->
                    job_nonterminal x = false)
                /\ r = pending_row job_id (session_key_hash k) target b v now
                /\ d' = set_jobs (compaction_jobs d ++ [r]) d)
     end.

Lemma intent_ok d job_id k target now o d' : schema_ok d = true ->
  raise_compaction_intent job_id k target now d = (Ok o, d') ->
  schema_ok d' = true /\ exists inst, now = Aware inst /\ intent_post d job_id k target inst o d'.
Proof.
  intros Hd. unfold raise_compaction_intent. destruct (is_blank job_id); [by intros [=]|].
  destruct (target <? 1); [by intros [=]|]. destruct now as [|inst]; [by intros [=]|].
  cbn [normalize_datetime]. unfold session_by_hash.
  intros (so & d1 & [<- <-]%fetchone_ok & E)%transaction_ok%tx_bind_ok.
  destruct (List.find _ (sessions d)) as [srow|] eqn:Es; [|done].
  apply find_some_elem in Es as [Hsrow Hsh]. apply (py_eq_leibniz (A:=string)) in Hsh.
  apply tx_bind_ok in E as (k' & d1 & [_ <-]%lift_ok & E).
  apply tx_bind_ok in E as (u & d4 & [_ <-]%guard_ok & E).
  apply tx_bind_ok in E as (u1 & d5 & [Hhw <-]%guard_ok & E). apply Z.ltb_ge in Hhw.
  apply tx_bind_ok in E as ([[b v] c] & d6 & [-> Hb]%active_base_ok & E).
  assert (Hsess : exists row, row ∈ sessions d /\ se_hash row = session_key_hash k
            /\ target < se_next_event_sequence row) by (exists srow; split_and!; [done..|lia]).
  destruct (target <=? c) eqn:Ec; bool_hyps.
  - apply tx_ret_ok in E as [<- <-]. split; [done|]. exists inst. split; [done|].
    split; [done|]. by exists b, v, c.
  - apply tx_bind_ok in E as ([r0|] & d1 & Hnt & E).
    + apply nonterminal_job_some in Hnt as (-> & Hr0 & Hr0s & Hr0n).
      apply tx_bind_ok in E as (u2 & d1 & Hup & E).
      apply tx_bind_ok in E as (job & d2 & Hjob & E). apply tx_ret_ok in E as [<- <-].
      apply job_by_id_ok in Hjob as (-> & x & kk & Hx & Hxid & -> & _).
      destruct (jr_intent r0 <? target) eqn:Ei; bool_hyps.
      * apply tx_bind_ok in Hup as (n & d3 & Hup & [_ <-]%inject_ok).
        destruct (same_intent_replaced d r0 target inst Hd Hr0 Ei) as [Hd1 Hrun].
        rewrite Hrun in Hup. injection Hup as <- <-. split; [done|]. exists inst. split; [done|].
        assert (x = fold_row target inst r0) as ->.
        { apply (key_unique jr_job_id _ _ _ (job_ids_unique _ Hd1) Hx); [by apply replaced_self|done]. }
        split; [done|]. exists b, v, c. split; [done|]. split; [done|].
        exists (fold_row target inst r0), kk. split_and!; try done. left. exists r0. split_and!; try done. by right.
      * apply tx_ret_ok in Hup as [_ <-]. split; [done|]. exists inst. split; [done|].
        assert (x = r0) as -> by (by apply (key_unique jr_job_id _ _ _ (job_ids_unique _ Hd) Hx)).
        split; [done|]. exists b, v, c. split; [done|]. split; [done|].
        exists r0, kk. split_and!; try done. left. exists r0. split_and!; try done. by left.
    + apply nonterminal_job_none in Hnt as [-> Hnone].
      apply tx_bind_ok in E as (u2 & d1 & Hin%on_integrity_ok & E).
      assert (Hd1 : schema_ok d1 = true) by (by eapply schema_insert_job).
      unfold insert_job in Hin. apply insert_row_ok in Hin as [Hok ->].
      apply tx_bind_ok in E as (u3 & d3 & [_ <-]%inject_ok & E).
      apply tx_bind_ok in E as (job & d2 & Hjob & E). apply tx_ret_ok in E as [<- <-].
      apply job_by_id_ok in Hjob as (-> & x & kk & Hx & Hxid & -> & _).
      split; [done|]. exists inst. split; [done|].
      set (p := pending_row job_id (session_key_hash k) target b v inst) in *.
      assert (Hp : p ∈ compaction_jobs (set_jobs (compaction_jobs d ++ [p]) d))
        by (apply elem_of_app; right; by left).
      assert (x = p) as -> by (by apply (key_unique jr_job_id _ _ _ (job_ids_unique _ Hd1) Hx Hp)).
      split; [done|]. exists b, v, c. split; [done|]. split; [done|].
      exists p, kk. split_and!; try done. by right.
Qed.
End more_fenced.
