(* ===== verification/JobProperties.v ===== *)
(** The Jobs component's contract: how each operation of [Jobs] advances the
    Job table, the decided outcome of each worker operation, and the order
    [jobs_advance] every operation respects (fencing tokens only grow, an epoch
    keeps its owner, terminal Jobs never change). *)
From S2P Require Import Prelude PyString PyFloat Domain Validation PyJson Crypto Store Instances.
From S2P Require Import TokenMetrics Journal Jobs.
Open Scope string_scope.
Open Scope list_scope.
Open Scope Z_scope.

(** ** The order Job rows advance in *)

(** One Job before and after some operations: its identity is kept, its intent
    and its fencing epoch never go back, an epoch has one owner until it is
    given up and one target and base, and a terminal Job never changes. *)
Record job_advance (r r' : JobRow) : Prop := {
  adv_id : jr_job_id r' = jr_job_id r;
  adv_session : jr_session r' = jr_session r;
  adv_created : jr_created_at r' = jr_created_at r;
  adv_intent : jr_intent r <= jr_intent r';
  adv_epoch : jr_lease_epoch r <= jr_lease_epoch r';
  adv_owner : jr_lease_epoch r' = jr_lease_epoch r ->
              jr_lease_owner r' = jr_lease_owner r \/ jr_lease_owner r' = None;
  adv_lease : jr_lease_epoch r' = jr_lease_epoch r -> jr_target r' = jr_target r
              /\ jr_base r' = jr_base r /\ jr_base_pointer_version r' = jr_base_pointer_version r;
  adv_terminal : job_nonterminal r = false -> r' = r }.

#[export] Instance job_advance_preorder : PreOrder job_advance.
Proof.
  split.
  - intros r. split; auto; lia.
  - intros a b c [A1 A2 A3 A4 A5 A6 A8 A7] [B1 B2 B3 B4 B5 B6 B8 B7]. split; try congruence; try lia.
    + intros E. assert (jr_lease_epoch b = jr_lease_epoch a) as Eb by lia.
      assert (jr_lease_epoch c = jr_lease_epoch b) as Ec by lia.
      destruct (A6 Eb) as [A|A], (B6 Ec) as [B|B]; rewrite ?A, ?B in *; auto.
    + intros E. assert (jr_lease_epoch b = jr_lease_epoch a) as Eb by lia.
      assert (jr_lease_epoch c = jr_lease_epoch b) as Ec by lia.
      destruct (A8 Eb) as (? & ? & ?), (B8 Ec) as (? & ? & ?). split_and!; congruence.
    + intros Ht. specialize (A7 Ht). subst b. by apply B7.
Qed.

(** Every Job is still there, advanced. *)
Definition jobs_advance (d d' : db) : Prop := forall r, r ∈ compaction_jobs d ->
  exists r', r' ∈ compaction_jobs d' /\ job_advance r r'.

#[export] Instance jobs_advance_preorder : PreOrder jobs_advance.
Proof.
  split.
  - intros d r Hr. by exists r.
  - intros a b c Hab Hbc r Hr. destruct (Hab r Hr) as (r1 & Hr1 & H1).
    destruct (Hbc r1 Hr1) as (r2 & Hr2 & H2). exists r2. split; [done|]. by etransitivity.
Qed.

Lemma jobs_advance_same d d' : compaction_jobs d' = compaction_jobs d -> jobs_advance d d'.
Proof. intros E r Hr. rewrite E. by exists r. Qed.

Lemma jobs_advance_map d g : (forall r, r ∈ compaction_jobs d -> job_advance r (g r)) ->
  jobs_advance d (set_jobs (map g (compaction_jobs d)) d).
Proof. intros Hg r Hr. exists (g r). split; [|by apply Hg]. apply list_elem_of_fmap. eauto. Qed.

Lemma jobs_advance_snoc d r : jobs_advance d (set_jobs (compaction_jobs d ++ [r]) d).
Proof. intros x Hx. exists x. split; [|done]. apply elem_of_app. by left. Qed.

Lemma jobs_advance_replaced d r f : schema_ok d = true -> r ∈ compaction_jobs d ->
  job_advance r (f r) -> jobs_advance d (set_jobs (replaced (jr_job_id r) f (compaction_jobs d)) d).
Proof.
  intros Hd Hr Hf. apply jobs_advance_map. intros x Hx.
  destruct (jr_job_id x ==? jr_job_id r) eqn:E; [|done]. apply (py_eq_leibniz (A:=string)) in E.
  assert (x = r) as -> by (by apply (key_unique jr_job_id _ _ _ (job_ids_unique d Hd))). done.
Qed.

Lemma working_nonterminal r : working (jr_state r) = true -> job_nonterminal r = true.
Proof. unfold job_nonterminal. by destruct (jr_state r). Qed.

Lemma advance_update_jobs p f : (forall r, p r = true -> job_advance r (f r)) ->
  steps_by jobs_advance (update_jobs p f).
Proof.
  intros Hf d a d' (_ & _ & ->)%update_rows_ok. apply jobs_advance_map. intros r _.
  destruct (p r) eqn:E; [by apply Hf|done].
Qed.

Ltac advance_row :=
  split; cbn; auto; try lia;
  try (intros Hterm; exfalso; match goal with
    | Hw : working _ = true |- _ => apply working_nonterminal in Hw; congruence
    end).

Lemma transition_advance to cand now r : working (jr_state r) = true ->
  job_advance r (transition_row to cand now r).
Proof. intros Hw. advance_row. Qed.
Lemma renew_advance lease now r : working (jr_state r) = true -> job_advance r (renew_row lease now r).
Proof. intros Hw. advance_row. Qed.
Lemma fail_advance next preserve retry s c m now r : working (jr_state r) = true ->
  job_advance r (fail_row next preserve retry s c m now r).
Proof. intros Hw. advance_row. Qed.
Lemma recover_advance now r : working (jr_state r) = true -> job_advance r (recover_row now r).
Proof. intros Hw. advance_row. Qed.
Lemma cancel_advance now r : eligible now r = true -> job_advance r (cancel_row now r).
Proof. intros [_ Hn]%eligible_parts. split; cbn; auto; try lia. congruence. Qed.
Lemma claim_advance b v w lease now r : eligible now r = true ->
  job_advance r (claim_row b v w lease now r).
Proof. intros [_ Hn]%eligible_parts. split; cbn; auto; try lia. congruence. Qed.
Lemma fold_advance target now r : job_nonterminal r = true -> jr_intent r < target ->
  job_advance r (fold_row target now r).
Proof. intros Hn Hi. split; cbn; auto; try lia. congruence. Qed.

(** ** Who holds the fence *)

Definition holds_fence (d : db) (id owner : string) (epoch now : Z) (r : JobRow) : Prop :=
  r ∈ compaction_jobs d /\ jr_job_id r = id /\ fence_ok owner epoch now r = true.
Definition fence_lost (d : db) (id owner : string) (epoch now : Z) : Prop :=
  forall r, r ∈ compaction_jobs d -> jr_job_id r = id -> fence_ok owner epoch now r = false.

Lemma fence_lost_or_held d id owner epoch now :
  fence_lost d id owner epoch now \/ exists r, holds_fence d id owner epoch now r.
Proof.
  destruct (existsb (fun r => (jr_job_id r ==? id) && fence_ok owner epoch now r) (compaction_jobs d)) eqn:E.
  - right. apply existsb_exists in E as (r & Hr%list_elem_of_In & [Hid Hf]%andb_true_iff).
    apply (py_eq_leibniz (A:=string)) in Hid. by exists r.
  - left. intros r Hr Hid. destruct (fence_ok owner epoch now r) eqn:Ef; [|done].
    exfalso. rewrite <- not_true_iff_false in E. apply E, existsb_exists. exists r.
    split; [by apply list_elem_of_In|]. rewrite Ef, andb_true_r. by apply (py_eq_leibniz (A:=string)).
Qed.

(** ** Concrete Jobs for the witnesses *)

(** One captured event, an intent for it, and a claim at time 10 until 20. *)
Definition toy_intent (d : db) : result repo_error (option CompactionJobEnvelope) * db :=
  @raise_compaction_intent toy_sha256 toy_storage toy_environment "job-1" example_key 1 (Aware 6) d.
Definition toy_claim (d : db) : result repo_error (option CompactionJobEnvelope) * db :=
  @claim_job toy_sha256 toy_storage toy_environment "worker-1" (Aware 10) (Aware 20) d.
Definition toy_db2 : db := (toy_intent toy_db1).2.
Definition toy_db3 : db := (toy_claim toy_db2).2.
Definition toy_job (state : CompactionJobState) (owner : option string) (epoch attempts : Z)
    (lease : option Z) (updated : Z) : CompactionJobEnvelope :=
  {| job_job_id := "job-1"; job_session_key := example_key; job_state := state;
     job_target_high_water_mark := 1; job_intent_target_high_water_mark := 1;
     job_base_snapshot_id := None; job_base_pointer_version := 0;
     job_candidate_snapshot_id := None; job_attempt_count := attempts; job_lease_owner := owner;
     job_lease_epoch := epoch; job_lease_expires_at := lease; job_next_retry_at := None;
     job_error_stage := None; job_error_code := None; job_error_message := None;
     job_created_at := 6; job_updated_at := updated; job_committed_at := None |}.
Definition toy_row3 : JobRow :=
  claim_row None 0 "worker-1" 20 10
    (pending_row "job-1" (@session_key_hash toy_sha256 example_key) 1 None 0 6).

Lemma toy_db3_schema : schema_ok toy_db2 = true /\ schema_ok toy_db3 = true.
Proof. split; vm_compute; reflexivity. Qed.
Lemma toy_sessions_decode d : forallb (fun row =>
    match @_session_key_from_storage toy_sha256 toy_storage toy_environment
            (se_hash row) (se_canonical row) with Ok _ => true | Err _ => false end) (sessions d) = true ->
  @sessions_decode toy_sha256 toy_storage toy_environment d.
Proof.
  intros Hall row Hrow. rewrite forallb_true_iff in Hall. specialize (Hall row Hrow).
  destruct (_session_key_from_storage _ _) as [k|]; [by exists k|done].
Qed.
Lemma toy_db3_decode : @sessions_decode toy_sha256 toy_storage toy_environment toy_db2
  /\ @sessions_decode toy_sha256 toy_storage toy_environment toy_db3.
Proof. split; apply toy_sessions_decode; vm_compute; reflexivity. Qed.
Lemma toy_row3_in : compaction_jobs toy_db3 = [toy_row3].
Proof. vm_compute. reflexivity. Qed.

(** ** Properties *)

Section job_properties.
Context `{Sha256, StorageCodec, EnvironmentLaws}.

(** A worker transition is decided by the fence and the state machine:
    without a live fence (a stored Job in a working state with that owner,
    that epoch and an unexpired lease) it raises [StaleLeaseError]; with it,
    exactly the edges LEASED -> COMPILING -> AUDITING -> READY_TO_COMMIT and
    COMPILING -> READY_TO_COMMIT are taken, a candidate id being required for
    READY_TO_COMMIT and refused elsewhere, and anything else raises
    [JobTransitionError].  Errors change nothing; a success changes only the
    state, candidate and update time of that one Job. *)
Theorem transition_job_decided d id owner epoch to now cand : schema_ok d = true ->
  sessions_decode d -> fault_injector "transition.after_update" = false ->
  (fence_lost d id owner epoch now ->
     transition_job id owner epoch to (Aware now) cand d = (Err StaleLeaseError, d))
  /\ (forall r, holds_fence d id owner epoch now r ->
       let candidate_ok := if eqb_of to READY_TO_COMMIT
                           then match cand with Some c => negb (is_blank c) | None => false end
                           else is_none cand in
       if allowed_transition (jr_state r) to && candidate_ok
       then exists k, session_key_hash k = jr_session r
            /\ transition_job id owner epoch to (Aware now) cand d
               = (Ok (job_envelope k (transition_row to cand now r)),
                  set_jobs (replaced id (transition_row to cand now) (compaction_jobs d)) d)
       else transition_job id owner epoch to (Aware now) cand d = (Err JobTransitionError, d)).
Proof.
  intros Hd Hs Hb. split.
  - intros Hl. unfold transition_job. cbn [normalize_datetime]. apply transaction_err.
    split; [|done]. apply tx_bind_err. by apply require_live_fence_stale.
  - intros r (Hr & <- & Hf). cbv zeta.
    destruct (allowed_transition (jr_state r) to) eqn:Ha; cbn [andb].
    + match goal with |- if ?c then _ else _ => destruct c eqn:Hc end.
      * apply transition_run; try done.
        destruct (eqb_of to READY_TO_COMMIT), cand; cbn in *; try done. by apply negb_true_iff.
      * unfold transition_job. cbn [normalize_datetime]. apply transaction_err. split; [|done].
        rewrite (tx_bind_run _ _ _ _ _ (require_live_fence_run d r owner epoch now Hd Hr Hf)).
        rewrite (tx_bind_run _ _ _ _ _ (guard_run (negb (allowed_transition (jr_state r) to)) _ d
                   ltac:(by rewrite Ha))).
        apply tx_bind_err. destruct (eqb_of to READY_TO_COMMIT), cand; cbn in *; try done.
        unfold guard. apply negb_false_iff in Hc. by rewrite Hc.
    + unfold transition_job. cbn [normalize_datetime]. apply transaction_err. split; [|done].
      rewrite (tx_bind_run _ _ _ _ _ (require_live_fence_run d r owner epoch now Hd Hr Hf)).
      apply tx_bind_err. apply guard_run_true. by rewrite Ha.
Qed.

(** A claim ends, and answers as the queue says: either no eligible Job
    is left uncovered and it returns [None], or it returns the earliest
    eligible Job (by creation time, then id) that the active snapshot does
    not cover, LEASED to the worker under the next fencing epoch with the
    target raised to its intent and the active base recorded.  Eligible Jobs
    already covered may be CANCELLED on the way; every other row is
    untouched, and an error changes nothing. *)
Theorem claim_job_correct d worker now lease r d' : schema_ok d = true -> sessions_decode d ->
  is_blank worker = false -> now < lease ->
  claim_job worker (Aware now) (Aware lease) d = (r, d') ->
  match r with
  | Ok o => claim_post d worker now lease o d' /\ schema_ok d' = true
  | Err e => d' = d /\ (e = InjectedFault "claim.after_update" \/ base_broken d now e)
  end.
Proof.
  intros Hd Hs Hw Hlt E. unfold claim_job in E. rewrite Hw in E. cbn [normalize_datetime] in E.
  rewrite (proj2 (Z.leb_gt lease now)) in E by done.
  pose proof (claim_loop_spec (S (length (compaction_jobs d))) worker now lease Hw d Hd Hs) as Hloop.
  specialize (Hloop ltac:(pose proof (filter_length_le (eligible now) (compaction_jobs d)); lia)).
  destruct (claim_loop _ _ _ _ d) as [[[o|] d1]|e] eqn:El; [| |].
  - destruct r as [x|e]; [apply transaction_ok in E|apply transaction_err in E as [E _]];
      rewrite (tx_bind_run _ _ _ _ _ El) in E; [|done]. by injection E as <- <-.
  - done.
  - destruct r as [x|e']; [apply transaction_ok in E|apply transaction_err in E as [E ->]];
      rewrite (tx_bind_err _ _ _ _ El) in E; [done|]. by injection E as <-.
Qed.

(** Lease renewal is decided: a lease that does not end after now is a
    [ValueError]; without a live fence it raises [StaleLeaseError]; with one it
    raises [JobTransitionError] unless the new lease ends strictly after the
    old one, and otherwise extends exactly that Job's lease, keeping its
    fencing epoch.  Errors change nothing. *)
Theorem renew_job_lease_decided d id owner epoch now lease : schema_ok d = true ->
  sessions_decode d -> fault_injector "lease.after_renew" = false ->
  (lease <= now -> renew_job_lease id owner epoch (Aware now) (Aware lease) d = (Err ValueError, d))
  /\ (now < lease -> fence_lost d id owner epoch now ->
      renew_job_lease id owner epoch (Aware now) (Aware lease) d = (Err StaleLeaseError, d))
  /\ (now < lease -> forall r, holds_fence d id owner epoch now r ->
      exists old, jr_lease_expires_at r = Some old /\ now < old
      /\ if lease <=? old
         then renew_job_lease id owner epoch (Aware now) (Aware lease) d = (Err JobTransitionError, d)
         else exists k, session_key_hash k = jr_session r
              /\ renew_job_lease id owner epoch (Aware now) (Aware lease) d
                 = (Ok (job_envelope k (renew_row lease now r)),
                    set_jobs (replaced id (renew_row lease now) (compaction_jobs d)) d)).
Proof.
  intros Hd Hs Hb. unfold renew_job_lease at 1 2. cbn [normalize_datetime]. split_and!.
  - intros Hle. by rewrite (proj2 (Z.leb_le lease now)).
  - intros Hlt Hl. rewrite (proj2 (Z.leb_gt lease now)) by done. apply transaction_err.
    split; [|done]. apply tx_bind_err. by apply require_live_fence_stale.
  - intros Hlt r (Hr & <- & Hf). destruct (fence_ok_parts _ _ _ _ Hf) as (_ & _ & _ & Hl).
    unfold lease_live in Hl. destruct (jr_lease_expires_at r) as [old|] eqn:Eold; [|done].
    exists old. split; [done|]. split; [by apply Z.ltb_lt|].
    destruct (lease <=? old) eqn:El; bool_hyps; [|by eapply renew_run].
    unfold renew_job_lease. cbn [normalize_datetime]. rewrite (proj2 (Z.leb_gt lease now)) by done.
    apply transaction_err. split; [|done].
    rewrite (tx_bind_run _ _ _ _ _ (require_live_fence_run d r owner epoch now Hd Hr Hf)).
    apply tx_bind_err, guard_run_true. rewrite Eold. by apply Z.leb_le.
Qed.

(** Recording a failure is decided by the fence: without a live one it
    raises [StaleLeaseError] and changes nothing; with one the Job gives up
    its lease and candidate but keeps its fencing epoch, and becomes FAILED
    (no retry time) or RETRY_WAIT until a retry time that must lie after now,
    recording stage, code and message; the attempt is given back exactly when
    it is to be preserved. *)
Theorem fail_job_decided d id owner epoch now s c m retry_at preserve : schema_ok d = true ->
  sessions_decode d -> fault_injector "failure.after_update" = false ->
  fail_arguments_bad s c m (is_some retry_at) preserve = false ->
  match retry_at with Some (Aware t) => now < t | Some Naive => False | None => True end ->
  let next := if is_some retry_at then RETRY_WAIT else FAILED in
  let retry := match retry_at with Some (Aware t) => Some t | _ => None end in
  (fence_lost d id owner epoch now ->
     fail_job id owner epoch (Aware now) s c m retry_at preserve d = (Err StaleLeaseError, d))
  /\ (forall r, holds_fence d id owner epoch now r ->
       exists k, session_key_hash k = jr_session r
       /\ fail_job id owner epoch (Aware now) s c m retry_at preserve d
          = (Ok (job_envelope k (fail_row next preserve retry s c m now r)),
             set_jobs (replaced id (fail_row next preserve retry s c m now)
                                (compaction_jobs d)) d)).
Proof.
  intros Hd Hs Hb Hargs Hretry next retry. split.
  - intros Hl. unfold fail_job. rewrite Hargs. cbn [normalize_datetime].
    destruct retry_at as [[|t]|]; [done| |].
    + cbn [normalize_datetime mbind result_bind].
      rewrite raise_if_false by (apply Z.leb_gt; lia). apply transaction_err.
      split; [|done]. apply tx_bind_err. by apply require_live_fence_stale.
    + apply transaction_err. split; [|done]. apply tx_bind_err. by apply require_live_fence_stale.
  - intros r (Hr & <- & Hf). apply fail_run; try done.
    destruct retry_at as [[|t]|]; [done| |].
    + right. exists t. done.
    + by left.
Qed.

(** Lease recovery is total on a well-formed store: it returns every
    working Job whose lease has expired, in creation order, each back in
    PENDING without lease or candidate but under its fencing epoch, and it
    touches no other row. *)
Theorem recover_expired_leases_correct d now : schema_ok d = true -> sessions_decode d ->
  fault_injector "recovery.after_update" = false ->
  exists jobs, recover_expired_leases (Aware now) d = (Ok jobs,
      set_jobs (map (fun r => if expired_working now r then recover_row now r else r)
                    (compaction_jobs d)) d)
    /\ map job_job_id jobs
       = map jr_job_id (order_jobs (List.filter (expired_working now) (compaction_jobs d)))
    /\ (forall j, j ∈ jobs -> job_state j = PENDING).
Proof. apply recover_run. Qed.

(** A compaction intent is folded into the queue: when it returns, the
    session exists and has captured past the target, and either the active
    snapshot already covers the target and nothing changed, or the returned
    Job is the session's nonterminal Job with an intent of at least the
    target - an existing one, its intent only ever raised, or else one new
    PENDING Job on the active base.  An error changes nothing. *)
Theorem raise_compaction_intent_folds d job_id k target now r d' : schema_ok d = true ->
  raise_compaction_intent job_id k target now d = (r, d') ->
  match r with
  | Ok o => schema_ok d' = true /\ exists inst, now = Aware inst /\ intent_post d job_id k target inst o d'
  | Err _ => d' = d
  end.
Proof.
  intros Hd E. destruct r as [o|e]; [by apply intent_ok|].
  unfold raise_compaction_intent in E. destruct (is_blank job_id); [by injection E|].
  destruct (target <? 1); [by injection E|]. destruct (normalize_datetime now); [|by injection E].
  by apply transaction_err in E as [_ ->].
Qed.
End job_properties.

(** ** Witnesses *)

Lemma toy_held : holds_fence toy_db3 "job-1" "worker-1" 1 12 toy_row3.
Proof. unfold holds_fence. rewrite toy_row3_in. split_and!; [by left|reflexivity|reflexivity]. Qed.

Lemma transition_job_decided_witness :
  exists k, @transition_job toy_sha256 toy_storage toy_environment "job-1" "worker-1" 1 COMPILING
       (Aware 12) None toy_db3
  = (Ok (job_envelope k (transition_row COMPILING None 12 toy_row3)),
     set_jobs (replaced "job-1" (transition_row COMPILING None 12) (compaction_jobs toy_db3)) toy_db3).
Proof.
  pose proof (proj2 toy_db3_schema) as Hd. pose proof (proj2 toy_db3_decode) as Hs.
  pose proof toy_held as Hh. revert Hd Hs Hh. generalize toy_db3. intros d Hd Hs Hh.
  destruct (proj2 (@transition_job_decided toy_sha256 toy_storage toy_environment toy_environment_laws
    d "job-1" "worker-1" 1 COMPILING 12 None Hd Hs eq_refl) toy_row3 Hh) as (k & _ & E).
  exists k. exact E.
Defined.

Lemma claim_job_correct_witness :
  claim_post toy_db2 "worker-1" 10 20
    (Some (toy_job LEASED (Some "worker-1") 1 1 (Some 20) 10)) toy_db3.
Proof.
  pose proof (proj1 toy_db3_schema) as Hd. pose proof (proj1 toy_db3_decode) as Hs.
  assert (E : toy_claim toy_db2
    = (Ok (Some (toy_job LEASED (Some "worker-1") 1 1 (Some 20) 10)), toy_db3))
    by (vm_compute; reflexivity).
  unfold toy_claim in E. revert Hd Hs E. generalize toy_db3 toy_db2. intros d' d Hd Hs E.
  refine (proj1 (@claim_job_correct toy_sha256 toy_storage toy_environment toy_environment_laws
    d "worker-1" 10 20 (Ok _) d' Hd Hs eq_refl _ E)). lia.
Defined.

Lemma renew_job_lease_decided_witness :
  @renew_job_lease toy_sha256 toy_storage toy_environment "job-1" "worker-1" 1 (Aware 12) (Aware 15) toy_db3
  = (Err JobTransitionError, toy_db3).
Proof.
  pose proof (proj2 toy_db3_schema) as Hd. pose proof (proj2 toy_db3_decode) as Hs.
  pose proof toy_held as Hh. revert Hd Hs Hh. generalize toy_db3. intros d Hd Hs Hh.
  destruct (@renew_job_lease_decided toy_sha256 toy_storage toy_environment toy_environment_laws
    d "job-1" "worker-1" 1 12 15 Hd Hs eq_refl) as (_ & _ & E).
  destruct (E ltac:(lia) toy_row3 Hh) as (old & Hold & _ & E'). injection Hold as <-. exact E'.
Defined.

Lemma fail_job_decided_witness :
  exists k, @fail_job toy_sha256 toy_storage toy_environment "job-1" "worker-1" 1 (Aware 12)
    "COMPILING" "BACKEND_ERROR" "boom" (Some (Aware 30)) false toy_db3
  = (Ok (job_envelope k (fail_row RETRY_WAIT false (Some 30) "COMPILING" "BACKEND_ERROR" "boom" 12 toy_row3)),
     set_jobs (replaced "job-1" (fail_row RETRY_WAIT false (Some 30) "COMPILING" "BACKEND_ERROR" "boom" 12)
                        (compaction_jobs toy_db3)) toy_db3).
Proof.
  pose proof (proj2 toy_db3_schema) as Hd. pose proof (proj2 toy_db3_decode) as Hs.
  pose proof toy_held as Hh. revert Hd Hs Hh. generalize toy_db3. intros d Hd Hs Hh.
  destruct (proj2 (@fail_job_decided toy_sha256 toy_storage toy_environment toy_environment_laws
    d "job-1" "worker-1" 1 12 "COMPILING" "BACKEND_ERROR" "boom" (Some (Aware 30)) false Hd Hs eq_refl
    eq_refl ltac:(cbn; lia)) toy_row3 Hh) as (k & _ & E).
  exists k. exact E.
Defined.

Lemma recover_expired_leases_correct_witness :
  exists jobs, @recover_expired_leases toy_sha256 toy_storage toy_environment (Aware 25) toy_db3
    = (Ok jobs, set_jobs (map (fun r => if expired_working 25 r then recover_row 25 r else r)
                              (compaction_jobs toy_db3)) toy_db3).
Proof.
  pose proof (proj2 toy_db3_schema) as Hd. pose proof (proj2 toy_db3_decode) as Hs.
  revert Hd Hs. generalize toy_db3. intros d Hd Hs.
  destruct (@recover_expired_leases_correct toy_sha256 toy_storage toy_environment toy_environment_laws
    d 25 Hd Hs eq_refl) as (jobs & E & _). exists jobs. exact E.
Defined.

Lemma raise_compaction_intent_folds_witness :
  schema_ok toy_db1 = true
  /\ exists o, @intent_post toy_sha256 toy_db1 "job-1" example_key 1 6 o toy_db2.
Proof.
  assert (Hd : schema_ok toy_db1 = true) by (vm_compute; reflexivity). split; [exact Hd|].
  assert (E : toy_intent toy_db1 = (Ok (Some (toy_job PENDING None 0 0 None 6)), toy_db2))
    by (vm_compute; reflexivity).
  unfold toy_intent in E. revert Hd E. generalize toy_db2 toy_db1. intros d' d Hd E.
  destruct (@raise_compaction_intent_folds toy_sha256 toy_storage toy_environment toy_environment_laws
    d _ _ _ _ (Ok _) d' Hd E) as (_ & inst & Einst & Hp).
  injection Einst as <-. exists (Some (toy_job PENDING None 0 0 None 6)). exact Hp.
Defined.
