(* ===== verification/Views.v ===== *)
(** Reading the store: Capsules, Snapshots and Journal intervals from their rows,
    and the request, compaction and ledger views of [storage/repository.py]; the
    request-view validation of [runtime/read_view.py]. *)
From S2P Require Import Prelude PyString PyFloat Domain Validation PyJson Crypto Store Records.
From S2P Require Import Instances TokenMetrics Journal Jobs.
Open Scope string_scope.
Open Scope list_scope.
Open Scope Z_scope.

Record SnapshotCapsuleMembership := {
  ms_ordinal : Z;
  ms_slot : string;
  ms_capsule : ContextCapsuleEnvelope;
}.
Definition ms_capsule_id (m : SnapshotCapsuleMembership) : string := cap_capsule_id (ms_capsule m).

Record RequestView := {
  rv_session_key : SessionKey;
  rv_snapshot : option SnapshotEnvelope;
  rv_memberships : list SnapshotCapsuleMembership;
  rv_pointer_version : Z;
  rv_covered_event_end : Z;
  rv_high_water_mark : Z;
  rv_delta : list EventEnvelope;
}.
Definition rv_capsules (v : RequestView) : list ContextCapsuleEnvelope :=
  map ms_capsule (rv_memberships v).

(** [tuple(json.loads(text))] as a tuple of strings; [codec_decrypt_array]
    returns only arrays, and an item that is no string fails the model. *)
Fixpoint json_strings (items : list json) : option (list string) :=
  match items with
  | [] => Some []
  | JStr s :: rest => ss ← json_strings rest; Some (s :: ss)
  | _ => None
  end.
Definition loads_string_tuple (text : string) : option (list string) :=
  match json_loads text with Some (JArr items) => json_strings items | _ => None end.

Section views.
Context `{Sha256, StorageCodec, Environment}.

(** The comparisons of a Capsule row with the Capsule it decodes to. *)
Definition capsule_row_canonical (session_key : SessionKey) (row : CapsuleRow)
    (capsule : ContextCapsuleEnvelope) (stored_token_cost : Z) : bool :=
  (cr_capsule_id row ==? cap_capsule_id capsule)
  && (cr_session row ==? session_key_hash session_key)
  && (cap_session_key capsule ==? session_key)
  && eqb_of (cr_level row) (cap_level capsule)
  && (cr_start row =? cap_covered_event_start capsule)
  && (cr_end row =? cap_covered_event_end capsule)
  && (stored_token_cost =? cap_token_cost capsule)
  && (cr_source_coverage row ==? q_source_coverage (cap_quality capsule))
  && (cr_created_at row =? cap_created_at capsule).

Definition _capsule_from_row (session_key : SessionKey) (row : CapsuleRow)
    : result repo_error ContextCapsuleEnvelope :=
  let capsule_id := cr_capsule_id row in
  canonical_capsule_json ← codec_result (codec_decrypt_object "capsules" "canonical_capsule_json"
                                           capsule_id (cr_canonical row));
  match capsule_of_json canonical_capsule_json with
  | None => Err RepositoryInvariantError
  | Some capsule =>
      stored_token_cost ← codec_result (codec_decrypt_int "capsules" "token_cost" capsule_id
                                          (cr_token_cost_envelope row));
      raise RepositoryInvariantError when
        (negb (capsule_row_canonical session_key row capsule stored_token_cost));;
      Ok capsule
  end.

(** The body of the loop over the joined membership and Capsule rows. *)
Definition _membership_from_row (session_key : SessionKey)
    (item : Z * (MembershipRow * CapsuleRow)) : result repo_error SnapshotCapsuleMembership :=
  let '(expected_ordinal, (membership, row)) := item in
  capsule ← _capsule_from_row session_key row;
  raise RepositoryInvariantError when (negb (mr_ordinal membership =? expected_ordinal));;
  Ok {| ms_ordinal := expected_ordinal; ms_slot := mr_slot membership; ms_capsule := capsule |}.

(** [snapshot_capsules JOIN capsules ... ORDER BY ordinal] *)
Definition membership_rows (snapshot_id : string) (d : db) : list (MembershipRow * CapsuleRow) :=
  order_by (fun p => mr_ordinal p.1)
    (omap (fun m => capsule ← List.find (fun c => cr_capsule_id c ==? mr_capsule_id m) (capsules d);
                    Some (m, capsule))
          (List.filter (fun m => mr_snapshot_id m ==? snapshot_id) (snapshot_capsules d))).

Definition _memberships_for_snapshot (snapshot_id : string) (session_key : SessionKey)
    : tx (list SnapshotCapsuleMembership) :=
  rows ← select (membership_rows snapshot_id);
  lift (map_result (_membership_from_row session_key) (enumerate rows)).

Definition _snapshot_from_row (session_key : SessionKey) (capsule_ids : list string)
    (row : SnapshotRow) : result repo_error SnapshotEnvelope :=
  let snapshot_id := nr_snapshot_id row in
  exact_anchor_ids_json ← codec_result (codec_decrypt_array "snapshots" "exact_anchor_ids_json"
                                          snapshot_id (nr_anchor_ids row));
  rendered_context ← codec_result (codec_decrypt_text "snapshots" "rendered_context"
                                     snapshot_id (nr_rendered_context row));
  audit_outcome_json ← codec_result (codec_decrypt_object "snapshots" "audit_outcome"
                                       snapshot_id (nr_audit_outcome row));
  token_cost ← codec_result (codec_decrypt_int "snapshots" "token_cost" snapshot_id
                               (nr_token_cost_envelope row));
  match loads_string_tuple exact_anchor_ids_json, audit_of_json audit_outcome_json with
  | Some exact_anchor_ids, Some audit_outcome =>
      match construct SnapshotEnvelope_valid
        {| sn_snapshot_id := snapshot_id; sn_session_key := session_key;
           sn_base_snapshot_id := nr_base row; sn_covered_event_end := nr_covered_event_end row;
           sn_source_high_water_mark := nr_source_high_water_mark row;
           sn_capsule_ids := capsule_ids; sn_exact_anchor_ids := exact_anchor_ids;
           sn_rendered_context := rendered_context; sn_token_cost := token_cost;
           sn_audit_outcome := audit_outcome; sn_state := nr_state row;
           sn_created_at := nr_created_at row; sn_committed_at := Some (nr_committed_at row) |} with
      | Err _ => Err RepositoryInvariantError
      | Ok snapshot =>
          raise RepositoryInvariantError when (nr_session row !=? session_key_hash session_key);;
          Ok snapshot
      end
  | _, _ => Err RepositoryInvariantError
  end.

Definition _validate_snapshot_memberships (snapshot : SnapshotEnvelope)
    (memberships : list SnapshotCapsuleMembership) : result repo_error unit :=
  raise RepositoryInvariantError when
    (match memberships with [] => true | _ => false end
     || (sn_capsule_ids snapshot !=? map ms_capsule_id memberships));;
  let active_anchor_ids := map an_anchor_id (active_anchors (map ms_capsule memberships)) in
  raise RepositoryInvariantError when (sn_exact_anchor_ids snapshot !=? active_anchor_ids);;
  Ok ().

(** The Snapshot of a row and its memberships, validated against each other. *)
Definition snapshot_bundle (session_key : SessionKey) (row : SnapshotRow)
    : tx (SnapshotEnvelope * list SnapshotCapsuleMembership) :=
  memberships ← _memberships_for_snapshot (nr_snapshot_id row) session_key;
  snapshot ← lift (_snapshot_from_row session_key (map ms_capsule_id memberships) row);
  lift (_validate_snapshot_memberships snapshot memberships);;
  mret (snapshot, memberships).

Definition _snapshot_bundle_by_id (snapshot_id : string) (session_key : SessionKey)
    : tx (SnapshotEnvelope * list SnapshotCapsuleMembership) :=
  row ← fetchone snapshots (fun r => nr_snapshot_id r ==? snapshot_id);
  match row with
  | None => throw RepositoryInvariantError
  | Some row =>
      session ← session_by_hash (nr_session row);
      match session with
      | None => throw RepositoryInvariantError
      | Some session =>
          stored_session_key ← lift (_session_key_from_storage (nr_session row)
                                       (se_canonical session));
          guard (stored_session_key !=? session_key) RepositoryInvariantError;;
          snapshot_bundle session_key row
      end
  end.

Definition _active_snapshot_bundle (session_key : SessionKey)
    : tx (SnapshotEnvelope * Z * list SnapshotCapsuleMembership) :=
  row ← fetchone active_snapshots (fun r => ar_session r ==? session_key_hash session_key);
  match row with
  | None => throw RepositoryInvariantError
  | Some row =>
      bundle ← _snapshot_bundle_by_id (ar_snapshot_id row) session_key;
      let '(snapshot, memberships) := bundle in
      guard (sn_session_key snapshot !=? session_key) RepositoryInvariantError;;
      mret (snapshot, ar_pointer_version row, memberships)
  end.

(** [WHERE session_key_hash = ? AND sequence > ? AND sequence <= ? ORDER BY sequence] *)
Definition event_rows_between (hash : string) (start_exclusive end_inclusive : Z) (d : db)
    : list EventRow :=
  order_by er_sequence
    (List.filter (fun r => (er_session r ==? hash) && (start_exclusive <? er_sequence r)
                           && (er_sequence r <=? end_inclusive)) (journal_events d)).

Definition _events_between (session_key : SessionKey) (start_exclusive end_inclusive : Z)
    : tx (list EventEnvelope) :=
  rows ← select (event_rows_between (session_key_hash session_key) start_exclusive end_inclusive);
  lift (map_result (_event_from_row session_key) rows).

Definition empty_view (session_key : SessionKey) : RequestView :=
  {| rv_session_key := session_key; rv_snapshot := None; rv_memberships := [];
     rv_pointer_version := 0; rv_covered_event_end := 0; rv_high_water_mark := 0;
     rv_delta := [] |}.

(** [active_snapshots JOIN snapshots] *)
Definition active_row (hash : string) : tx (option (ActiveRow * SnapshotRow)) :=
  active ← fetchone active_snapshots (fun r => ar_session r ==? hash);
  match active with
  | None => mret None
  | Some active =>
      snapshot ← fetchone snapshots (fun r => nr_snapshot_id r ==? ar_snapshot_id active);
      mret (pair active <$> snapshot)
  end.

Definition _read_request_view (session_key : SessionKey) : tx RequestView :=
  session_row ← session_by_hash (session_key_hash session_key);
  match session_row with
  | None => mret (empty_view session_key)
  | Some session_row =>
      stored_session ← lift (_session_key_from_storage (session_key_hash session_key)
                               (se_canonical session_row));
      guard (stored_session !=? session_key) SessionIdentityConflict;;
      let high_water_mark := se_next_event_sequence session_row - 1 in
      inject "read.after_high_water";;
      active ← active_row (session_key_hash session_key);
      inject "read.after_pointer";;
      bundle ← match active with
        | None => mret (None, [], 0, 0)
        | Some (active, row) =>
            b ← snapshot_bundle session_key row;
            let '(snapshot, memberships) := b in
            mret (Some snapshot, memberships, ar_pointer_version active,
                  sn_covered_event_end snapshot)
        end;
      let '(snapshot, memberships, pointer_version, covered_event_end) := bundle in
      guard (high_water_mark <? covered_event_end) RepositoryInvariantError;;
      delta ← _events_between session_key covered_event_end high_water_mark;
      guard (map ev_sequence delta !=? py_range (covered_event_end + 1) (high_water_mark + 1))
            RepositoryInvariantError;;
      mret {| rv_session_key := session_key; rv_snapshot := snapshot;
              rv_memberships := memberships; rv_pointer_version := pointer_version;
              rv_covered_event_end := covered_event_end; rv_high_water_mark := high_water_mark;
              rv_delta := delta |}
  end.

Definition read_request_view (session_key : SessionKey) (d : db) : result repo_error RequestView :=
  read_only (_read_request_view session_key) d.

Definition read_compaction_view (job_id owner : string) (lease_epoch : Z) (now : py_datetime)
    (d : db) : result repo_error RequestView :=
  now ← normalize_datetime now;
  read_only (
    row ← _require_live_fence job_id owner lease_epoch now;
    guard (negb (eqb_of (jr_state row) COMPILING || eqb_of (jr_state row) AUDITING))
          JobTransitionError;;
    job ← _job_by_id job_id;
    bundle ← match job_base_snapshot_id job with
      | None =>
          guard (negb (job_base_pointer_version job =? 0)) RepositoryInvariantError;;
          mret (None, [], 0)
      | Some base_snapshot_id =>
          b ← _snapshot_bundle_by_id base_snapshot_id (job_session_key job);
          let '(snapshot, memberships) := b in
          guard (negb (eqb_of (sn_state snapshot) SNAPSHOT_COMMITTED)) RepositoryInvariantError;;
          mret (Some snapshot, memberships, sn_covered_event_end snapshot)
      end;
    let '(snapshot, memberships, covered_event_end) := bundle in
    guard (job_target_high_water_mark job <? covered_event_end) RepositoryInvariantError;;
    delta ← _events_between (job_session_key job) covered_event_end
                            (job_target_high_water_mark job);
    guard (map ev_sequence delta
           !=? py_range (covered_event_end + 1) (job_target_high_water_mark job + 1))
          RepositoryInvariantError;;
    mret {| rv_session_key := job_session_key job; rv_snapshot := snapshot;
            rv_memberships := memberships; rv_pointer_version := job_base_pointer_version job;
            rv_covered_event_end := covered_event_end;
            rv_high_water_mark := job_target_high_water_mark job; rv_delta := delta |}) d.
Definition read_claimed_request_view := read_compaction_view.

(** A ledger row as a record; a [required] flag other than 0 or 1 is invalid. *)
Definition record_of_row (row : LedgerRow) : result repo_error ReorganizationRecord :=
  raise RepositoryInvariantError when (negb ((lr_required row =? 0) || (lr_required row =? 1)));;
  Ok {| ro_kind := lr_kind row; ro_item_id := lr_item_id row;
        ro_source_capsule_id := lr_source_capsule_id row; ro_status := lr_status row;
        ro_before_tokens := lr_before_tokens row; ro_after_tokens := lr_after_tokens row;
        ro_required := negb (lr_required row =? 0) |}.
Definition record_result {A} (r : result record_error A) : result repo_error A :=
  match r with Ok a => Ok a | Err _ => Err RepositoryInvariantError end.

Definition ledger_rows (snapshot_id : string) (d : db) : list LedgerRow :=
  order_by lr_ordinal (List.filter (fun r => lr_snapshot_id r ==? snapshot_id)
                                   (reorganization_records d)).

Definition read_snapshot_reorganization_records (snapshot_id : string) (d : db)
    : result repo_error (list ReorganizationRecord) :=
  read_only (
    snapshot_row ← fetchone snapshots (fun r => nr_snapshot_id r ==? snapshot_id);
    guard (match snapshot_row with
           | None => true | Some row => negb (eqb_of (nr_state row) SNAPSHOT_COMMITTED) end)
          RepositoryInvariantError;;
    rows ← select (ledger_rows snapshot_id);
    records_list ← lift (map_result record_of_row rows);
    lift (record_result (canonicalize_reorganization_records records_list))) d.
End views.

(** ** [runtime/read_view.py] *)

Inductive RequestViewErrorCode :=
| VIEW_TYPE_INVALID | VIEW_SESSION_MISMATCH | VIEW_BOOTSTRAP_INVALID | VIEW_SNAPSHOT_INVALID
| VIEW_COVERAGE_INVALID | VIEW_DELTA_IDENTITY_MISMATCH | VIEW_DELTA_GAP.

(** An exception of the source, or an invariant of the validation. *)
Inductive view_error := SourceError (e : repo_error) | RequestViewInvariantError (c : RequestViewErrorCode).

Definition _invalid {A} (code : RequestViewErrorCode) : result view_error A :=
  Err (RequestViewInvariantError code).

Definition _validate_snapshot (view : RequestView) (session_key : SessionKey) : result view_error unit :=
  match rv_snapshot view with
  | None =>
      if negb (rv_pointer_version view =? 0) || negb (rv_covered_event_end view =? 0)
         || negb (match rv_memberships view with [] => true | _ => false end)
      then _invalid VIEW_BOOTSTRAP_INVALID else Ok ()
  | Some snapshot =>
      let membership_ids := map ms_capsule_id (rv_memberships view) in
      let membership_ordinals := map ms_ordinal (rv_memberships view) in
      if (rv_pointer_version view <? 1)
         || negb (eqb_of (sn_state snapshot) SNAPSHOT_COMMITTED)
         || (sn_session_key snapshot !=? session_key)
         || negb (sn_covered_event_end snapshot =? rv_covered_event_end view)
         || negb (sn_source_high_water_mark snapshot =? rv_covered_event_end view)
         || (membership_ids !=? sn_capsule_ids snapshot)
         || (membership_ordinals !=? py_range 0 (len (rv_memberships view)))
         || existsb (fun item => cap_session_key (ms_capsule item) !=? session_key)
                    (rv_memberships view)
      then _invalid VIEW_SNAPSHOT_INVALID else Ok ()
  end.

Definition _validate_delta (view : RequestView) (session_key : SessionKey) : result view_error unit :=
  if (rv_covered_event_end view <? 0) || (rv_high_water_mark view <? rv_covered_event_end view)
  then _invalid VIEW_COVERAGE_INVALID else
  if existsb (fun item => ev_session_key item !=? session_key) (rv_delta view)
  then _invalid VIEW_DELTA_IDENTITY_MISMATCH else
  if map ev_sequence (rv_delta view)
     !=? py_range (rv_covered_event_end view + 1) (rv_high_water_mark view + 1)
  then _invalid VIEW_DELTA_GAP else Ok ().

(** [read_request_view] over a request-view source. *)
Definition validated_request_view (source : SessionKey -> result repo_error RequestView)
    (session_key : SessionKey) : result view_error RequestView :=
  match source session_key with
  | Err e => Err (SourceError e)
  | Ok view =>
      if rv_session_key view !=? session_key then _invalid VIEW_SESSION_MISMATCH else
      _validate_snapshot view session_key;;
      _validate_delta view session_key;;
      Ok view
  end.

(** ** What a request view promises *)

(** One session's committed Snapshot, when there is one, and exactly the events
    after its coverage up to the high-water mark, in order. *)
Record ViewConsistent (view : RequestView) (session_key : SessionKey) : Prop := {
  vc_session : rv_session_key view = session_key;
  vc_bootstrap : rv_snapshot view = None ->
    rv_pointer_version view = 0 /\ rv_covered_event_end view = 0 /\ rv_memberships view = [];
  vc_snapshot : forall s, rv_snapshot view = Some s ->
    1 <= rv_pointer_version view /\ sn_state s = SNAPSHOT_COMMITTED
    /\ sn_session_key s = session_key
    /\ sn_covered_event_end s = rv_covered_event_end view
    /\ sn_source_high_water_mark s = rv_covered_event_end view
    /\ sn_capsule_ids s = map ms_capsule_id (rv_memberships view)
    /\ map ms_ordinal (rv_memberships view) = py_range 0 (len (rv_memberships view))
    /\ (forall m, m ∈ rv_memberships view -> cap_session_key (ms_capsule m) = session_key);
  vc_bounds : 0 <= rv_covered_event_end view <= rv_high_water_mark view;
  vc_delta_session : forall e, e ∈ rv_delta view -> ev_session_key e = session_key;
  vc_delta : map ev_sequence (rv_delta view)
             = py_range (rv_covered_event_end view + 1) (rv_high_water_mark view + 1) }.

#[export] Instance SessionKey_py_eq_leibniz : PyEqLeibniz SessionKey.
Proof. intros x y. apply bool_decide_eq_true. Qed.

Lemma py_eq_true_refl {A} `{PyEqLeibniz A} (x : A) : (x ==? x) = true.
Proof. by apply py_eq_leibniz. Qed.

Lemma existsb_session_false {A} (f : A -> SessionKey) l k :
  existsb (fun x => f x !=? k) l = false <-> forall x, x ∈ l -> f x = k.
Proof.
  rewrite existsb_false_iff. split; intros Hall x Hx; specialize (Hall x Hx).
  - by apply negb_session_eq_false.
  - by apply negb_session_eq_false.
Qed.

Lemma validate_snapshot_ok view k : _validate_snapshot view k = Ok () <->
  match rv_snapshot view with
  | None => rv_pointer_version view = 0 /\ rv_covered_event_end view = 0 /\ rv_memberships view = []
  | Some s => 1 <= rv_pointer_version view /\ sn_state s = SNAPSHOT_COMMITTED
    /\ sn_session_key s = k /\ sn_covered_event_end s = rv_covered_event_end view
    /\ sn_source_high_water_mark s = rv_covered_event_end view
    /\ sn_capsule_ids s = map ms_capsule_id (rv_memberships view)
    /\ map ms_ordinal (rv_memberships view) = py_range 0 (len (rv_memberships view))
    /\ (forall m, m ∈ rv_memberships view -> cap_session_key (ms_capsule m) = k)
  end.
Proof.
  unfold _validate_snapshot. destruct (rv_snapshot view) as [s|].
  - match goal with |- (if ?c then _ else _) = _ <-> _ => destruct c eqn:E end.
    + split; [done|]. intros (H1 & H2 & H3 & H4 & H5 & H6 & H7 & H8).
      rewrite H2, H3, H4, H5, <- H6, H7, !py_eq_true_refl, !Z.eqb_refl in E.
      rewrite (proj2 (Z.ltb_ge _ _) H1) in E. cbn in E.
      rewrite (proj2 (existsb_session_false _ _ _) H8) in E. done.
    + split; [intros _|done]. repeat apply orb_false_iff in E as [E ?]. bool_hyps.
      repeat match goal with
      | Hx : (_ ==? _) = true |- _ => apply py_eq_leibniz in Hx
      | Hx : eqb_of _ _ = true |- _ => apply bool_decide_eq_true in Hx
      end.
      split_and!; try done. by apply (existsb_session_false (fun item => cap_session_key (ms_capsule item))).
  - match goal with |- (if ?c then _ else _) = _ <-> _ => destruct c eqn:E end.
    + split; [done|]. intros (E1 & E2 & E3). by rewrite E1, E2, E3 in E.
    + split; [intros _|done]. repeat apply orb_false_iff in E as [E ?]. bool_hyps.
      destruct (rv_memberships view); done.
Qed.

Lemma validate_delta_ok view k : _validate_delta view k = Ok () <->
  0 <= rv_covered_event_end view <= rv_high_water_mark view
  /\ (forall e, e ∈ rv_delta view -> ev_session_key e = k)
  /\ map ev_sequence (rv_delta view)
     = py_range (rv_covered_event_end view + 1) (rv_high_water_mark view + 1).
Proof.
  unfold _validate_delta.
  destruct (_ || _) eqn:E1; [split; [done|]; intros [? _]; apply orb_true_iff in E1; bool_hyps; lia|].
  destruct (existsb _ _) eqn:E2.
  { split; [done|]. intros (_ & Hs & _). apply (existsb_session_false ev_session_key) in Hs. congruence. }
  pose proof (proj1 (existsb_session_false ev_session_key _ _) E2) as E2s. clear E2. rename E2s into E2. apply orb_false_iff in E1 as [Ea Eb]. bool_hyps.
  destruct (_ !=? _) eqn:E3.
  - split; [done|]. intros (_ & _ & Hd). rewrite Hd, py_eq_true_refl in E3. done.
  - apply negb_py_eq_false in E3. split; [|done]. intros _. split_and!; try done; lia.
Qed.

(** The runtime validation accepts exactly the consistent views. *)
Lemma validated_iff source k v : validated_request_view source k = Ok v <->
  source k = Ok v /\ ViewConsistent v k.
Proof.
  unfold validated_request_view. destruct (source k) as [view|e]; [|by split; [|intros [? _]]].
  destruct (rv_session_key view !=? k) eqn:Ek.
  { split; [done|]. intros [[= ->] Hc]. rewrite (vc_session _ _ Hc), py_eq_true_refl in Ek. done. }
  apply negb_session_eq_false in Ek. split.
  - intros ([] & Hs & ([] & Hd & [= <-])%result_bind_ok)%result_bind_ok. split; [done|].
    apply validate_snapshot_ok in Hs. apply validate_delta_ok in Hd as (Hb & Hse & Hd).
    split; try done; destruct (rv_snapshot view); try done. by intros s' [= <-].
  - intros [[= ->] [Hse Hboot Hsnap Hb Hds Hd]].
    assert (_validate_snapshot v k = Ok ()) as ->.
    { apply validate_snapshot_ok. destruct (rv_snapshot v); [by apply Hsnap|by apply Hboot]. }
    cbn. assert (_validate_delta v k = Ok ()) as ->; [by apply validate_delta_ok|done].
Qed.

(** ** Lemmas: what the readers return *)

(** Every committed Snapshot row covers exactly its source interval; the
    publication gate establishes it. *)
Definition snapshots_exact (d : db) : Prop := forall row, row ∈ snapshots d ->
  nr_source_high_water_mark row = nr_covered_event_end row.

Lemma enumerate_from_fst {A} i (l : list A) : map fst (enumerate_from i l) = py_range i (i + len l).
Proof.
  revert i. induction l as [|x l IH]; intros i; cbn [enumerate_from map].
  - rewrite len_nil, py_range_nil; [done|lia].
  - rewrite len_cons. pose proof (len_nonneg l). rewrite py_range_cons by lia. cbn [fst]. f_equal.
    rewrite IH. f_equal. lia.
Qed.

Lemma Forall2_map_eq {A B C} (f : A -> C) (g : B -> C) l m :
  Forall2 (fun x y => f x = g y) l m -> map f l = map g m.
Proof. induction 1; cbn; congruence. Qed.

Section view_lemmas.
Context `{Sha256, StorageCodec, EnvironmentLaws}.

Lemma capsule_from_row_ok k row c : _capsule_from_row k row = Ok c ->
  ContextCapsuleEnvelope_valid c = true /\ cap_session_key c = k /\ cap_capsule_id c = cr_capsule_id row
  /\ cr_session row = session_key_hash k.
Proof.
  unfold _capsule_from_row. intros (text & _ & E)%result_bind_ok.
  destruct (capsule_of_json text) as [c'|] eqn:Ec; [|done].
  apply result_bind_ok in E as (cost & _ & E). apply raise_if_ok in E as [Hc [= ->]].
  apply negb_false_iff in Hc. unfold capsule_row_canonical in Hc. rewrite !andb_true_iff in Hc.
  destruct_and? Hc. split_and!.
  - by eapply capsule_json_valid.
  - by apply (py_eq_leibniz (A:=SessionKey)).
  - symmetry. by apply (py_eq_leibniz (A:=string)).
  - by apply (py_eq_leibniz (A:=string)).
Qed.

Lemma membership_from_row_ok k p m : _membership_from_row k p = Ok m ->
  ms_ordinal m = p.1 /\ cap_session_key (ms_capsule m) = k /\ ms_slot m = mr_slot p.2.1
  /\ ms_capsule_id m = cr_capsule_id p.2.2.
Proof.
  destruct p as [i [mr cr]]. unfold _membership_from_row. intros (c & Hc & E)%result_bind_ok.
  apply raise_if_ok in E as [_ [= <-]]. apply capsule_from_row_ok in Hc as (_ & Hk & Hid & _). done.
Qed.

Lemma memberships_ok_spec sid k d ms d' : _memberships_for_snapshot sid k d = Ok (ms, d') ->
  d' = d /\ map_result (_membership_from_row k) (enumerate (membership_rows sid d)) = Ok ms
  /\ map ms_ordinal ms = py_range 0 (len ms)
  /\ (forall m, m ∈ ms -> cap_session_key (ms_capsule m) = k).
Proof.
  unfold _memberships_for_snapshot. intros (rows & d1 & [<- <-]%select_ok & E)%tx_bind_ok.
  apply lift_ok in E as [E <-]. split; [done|]. split; [done|].
  apply map_result_ok in E. split.
  - assert (Hl : len ms = len (membership_rows sid d)).
    { unfold len. f_equal. rewrite <- (Forall2_length _ _ _ E). unfold enumerate.
      by rewrite enumerate_from_length. }
    rewrite Hl. unfold enumerate in E. rewrite <- (Z.add_0_l (len (membership_rows sid d))).
    rewrite <- (enumerate_from_fst 0).
    symmetry. apply Forall2_map_eq. eapply Forall2_impl; [exact E|].
    intros p m Hm. by apply membership_from_row_ok in Hm as [-> _].
  - intros m Hm. apply list_elem_of_lookup in Hm as [i Hi].
    destruct (Forall2_lookup_r _ _ _ _ _ E Hi) as (p & _ & Hp).
    by apply membership_from_row_ok in Hp as (_ & ? & _).
Qed.

Lemma snapshot_from_row_ok k ids row s : _snapshot_from_row k ids row = Ok s ->
  SnapshotEnvelope_valid s = true /\ sn_snapshot_id s = nr_snapshot_id row /\ sn_session_key s = k
  /\ sn_base_snapshot_id s = nr_base row /\ sn_covered_event_end s = nr_covered_event_end row
  /\ sn_source_high_water_mark s = nr_source_high_water_mark row /\ sn_capsule_ids s = ids
  /\ sn_state s = nr_state row /\ nr_session row = session_key_hash k.
Proof.
  unfold _snapshot_from_row. intros (a & _ & (r & _ & (o & _ & (t & _ & E)%result_bind_ok)
    %result_bind_ok)%result_bind_ok)%result_bind_ok.
  destruct (loads_string_tuple a), (audit_of_json o); try done.
  destruct (construct _ _) as [s'|] eqn:Ec; [|done]. apply raise_if_ok in E as [Hs [= ->]].
  apply construct_ok in Ec as [Hv <-]. apply negb_py_eq_false in Hs. by split_and!.
Qed.

Lemma snapshot_bundle_ok k row d s ms d' : snapshot_bundle k row d = Ok ((s, ms), d') ->
  d' = d /\ _memberships_for_snapshot (nr_snapshot_id row) k d = Ok (ms, d)
  /\ _snapshot_from_row k (map ms_capsule_id ms) row = Ok s
  /\ _validate_snapshot_memberships s ms = Ok ().
Proof.
  unfold snapshot_bundle. intros (ms' & d1 & Hm & E)%tx_bind_ok.
  assert (d1 = d) as -> by (by apply memberships_ok_spec in Hm as [-> _]).
  apply tx_bind_ok in E as (s' & d1 & [Hs <-]%lift_ok & E).
  apply tx_bind_ok in E as ([] & d1 & [Hv <-]%lift_ok & E). by apply tx_ret_ok in E as [[= <- <-] <-].
Qed.

Lemma snapshot_bundle_by_id_ok sid k d s ms d' : _snapshot_bundle_by_id sid k d = Ok ((s, ms), d') ->
  d' = d /\ exists row, row ∈ snapshots d /\ nr_snapshot_id row = sid
            /\ snapshot_bundle k row d = Ok ((s, ms), d).
Proof.
  unfold _snapshot_bundle_by_id, session_by_hash. intros (o & d1 & [<- <-]%fetchone_ok & E)%tx_bind_ok.
  destruct (List.find _ (snapshots d)) as [row|] eqn:Er; [|done].
  apply tx_bind_ok in E as (o & d1 & [<- <-]%fetchone_ok & E).
  destruct (List.find _ (sessions d)) as [session|]; [|done].
  apply tx_bind_ok in E as (k' & d1 & [_ <-]%lift_ok & E).
  apply tx_bind_ok in E as (u & d1 & [_ <-]%guard_ok & E).
  apply find_some_elem in Er as [Hr Hid]. apply (py_eq_leibniz (A:=string)) in Hid.
  assert (d' = d) as -> by (by apply snapshot_bundle_ok in E as [-> _]). split; [done|]. by exists row.
Qed.

Lemma events_between_ok k a b d es d' : _events_between k a b d = Ok (es, d') ->
  d' = d /\ map_result (_event_from_row k) (event_rows_between (session_key_hash k) a b d) = Ok es
  /\ (forall e, e ∈ es -> ev_session_key e = k).
Proof.
  unfold _events_between. intros (rows & d1 & [<- <-]%select_ok & E)%tx_bind_ok.
  apply lift_ok in E as [E <-]. split_and!; try done. intros e He.
  apply map_result_ok in E. apply list_elem_of_lookup in He as [i Hi].
  destruct (Forall2_lookup_r _ _ _ _ _ E Hi) as (p & _ & Hp).
  by apply event_from_row_fields in Hp as (_ & _ & _ & ? & _).
Qed.

Lemma committed_row d row : schema_ok d = true -> row ∈ snapshots d ->
  nr_state row = SNAPSHOT_COMMITTED /\ 1 <= nr_covered_event_end row.
Proof.
  intros Hd Hr. apply schema_ok_spec in Hd as (_ & _ & _ & Hd & _). unfold snapshots_ok in Hd.
  apply andb_true_iff in Hd as [[Hd _]%andb_true_iff _]. rewrite forallb_true_iff in Hd.
  specialize (Hd row Hr). apply andb_true_iff in Hd as [[Hd _]%andb_true_iff _].
  unfold snapshot_row_ok in Hd. rewrite !andb_true_iff in Hd. destruct_and? Hd.
  unfold eqb_of in *. bool_hyps. done.
Qed.

(** The part of a view a Snapshot row contributes. *)
Lemma bundle_consistent d k row s ms d' : schema_ok d = true -> snapshots_exact d ->
  row ∈ snapshots d -> snapshot_bundle k row d = Ok ((s, ms), d') ->
  sn_state s = SNAPSHOT_COMMITTED /\ sn_session_key s = k
  /\ sn_source_high_water_mark s = sn_covered_event_end s
  /\ sn_capsule_ids s = map ms_capsule_id ms
  /\ map ms_ordinal ms = py_range 0 (len ms)
  /\ (forall m, m ∈ ms -> cap_session_key (ms_capsule m) = k)
  /\ 1 <= sn_covered_event_end s.
Proof.
  intros Hd Hx Hr E. apply snapshot_bundle_ok in E as (-> & Hm & Hs & _).
  apply memberships_ok_spec in Hm as (_ & _ & Ho & Hk).
  apply snapshot_from_row_ok in Hs as (_ & _ & Hsk & _ & Hc & Hh & Hids & Hst & _).
  destruct (committed_row d row Hd Hr) as [Hcs Hpos]. specialize (Hx row Hr).
  split_and!; [congruence|done|congruence|done|done|done|lia].
Qed.

Lemma active_row_ok h d o d' : active_row h d = Ok (o, d') -> d' = d /\
  match o with
  | Some (a, row) => a ∈ active_snapshots d /\ row ∈ snapshots d /\ ar_session a = h
                     /\ nr_snapshot_id row = ar_snapshot_id a
  | None => True
  end.
Proof.
  unfold active_row. intros (oa & d1 & [<- <-]%fetchone_ok & E)%tx_bind_ok.
  destruct (List.find _ (active_snapshots d)) as [a|] eqn:Ea; cycle 1.
  { by apply tx_ret_ok in E as [<- <-]. }
  apply tx_bind_ok in E as (os & d1 & [<- <-]%fetchone_ok & E).
  destruct (List.find _ (snapshots d)) as [row|] eqn:Er; apply tx_ret_ok in E as [<- <-]; [|done].
  apply find_some_elem in Ea as [Ha Hah]. apply find_some_elem in Er as [Hr Hrh].
  apply (py_eq_leibniz (A:=string)) in Hah, Hrh. done.
Qed.

Lemma active_version d a : schema_ok d = true -> a ∈ active_snapshots d -> 1 <= ar_pointer_version a.
Proof.
  intros Hd Ha. apply schema_ok_spec in Hd as (_ & _ & _ & _ & _ & Hac & _). unfold actives_ok in Hac.
  apply andb_true_iff in Hac as [[Hac _]%andb_true_iff _]. rewrite forallb_true_iff in Hac.
  specialize (Hac a Ha). bool_hyps. done.
Qed.

Lemma empty_view_consistent k : ViewConsistent (empty_view k) k.
Proof. split; cbn; try done. intros e He. by apply elem_of_nil in He. Qed.

Lemma request_view_consistent d k v : schema_ok d = true -> snapshots_exact d ->
  read_request_view k d = Ok v -> ViewConsistent v k.
Proof.
  intros Hd Hx. unfold read_request_view, read_only.
  destruct (_read_request_view k d) as [[v' d']|] eqn:E; [|done]. intros [= ->].
  unfold _read_request_view, session_by_hash in E.
  apply tx_bind_ok in E as (o & d1 & [<- <-]%fetchone_ok & E).
  destruct (List.find _ (sessions d)) as [srow|] eqn:Es; cycle 1.
  { apply tx_ret_ok in E as [<- _]. apply empty_view_consistent. }
  apply tx_bind_ok in E as (k' & d1 & [_ <-]%lift_ok & E).
  apply tx_bind_ok in E as (u1 & d1 & [_ <-]%guard_ok & E).
  apply tx_bind_ok in E as (u2 & d1 & [_ <-]%inject_ok & E).
  apply tx_bind_ok in E as (active & d1 & [-> Ha]%active_row_ok & E).
  apply tx_bind_ok in E as (u3 & d1 & [_ <-]%inject_ok & E).
  apply tx_bind_ok in E as ([[[snap ms] pv] c] & d1 & Hb & E).
  apply tx_bind_ok in E as (u4 & d2 & [Hle <-]%guard_ok & E). apply Z.ltb_ge in Hle.
  apply tx_bind_ok in E as (delta & d2 & (-> & _ & Hds)%events_between_ok & E).
  apply tx_bind_ok in E as (u5 & d2 & [Hdel <-]%guard_ok & E). apply negb_py_eq_false in Hdel.
  apply tx_ret_ok in E as [<- <-]. destruct active as [[a row]|].
  - destruct Ha as (Ha & Hr & _ & _).
    apply tx_bind_ok in Hb as ([s ms'] & d2 & Hb & [[= <- <- <- <-] <-]%tx_ret_ok).
    destruct (bundle_consistent d k row s ms' _ Hd Hx Hr Hb) as (B1 & B2 & B3 & B4 & B5 & B6 & B7).
    pose proof (active_version d a Hd Ha).
    split; cbn; try done; [|lia]. intros s' [= <-]. by split_and!.
  - apply tx_ret_ok in Hb as [[= <- <- <- <-] <-]. split; cbn; try done.
Qed.

Lemma compaction_view_consistent d job_id owner epoch now v : schema_ok d = true -> snapshots_exact d ->
  read_compaction_view job_id owner epoch now d = Ok v ->
  ViewConsistent v (rv_session_key v)
  /\ exists inst r, now = Aware inst /\ r ∈ compaction_jobs d /\ jr_job_id r = job_id
     /\ fence_ok owner epoch inst r = true /\ (jr_state r = COMPILING \/ jr_state r = AUDITING)
     /\ rv_high_water_mark v = jr_target r /\ rv_pointer_version v = jr_base_pointer_version r
     /\ sn_snapshot_id <$> rv_snapshot v = jr_base r
     /\ session_key_hash (rv_session_key v) = jr_session r.
Proof.
  intros Hd Hx. unfold read_compaction_view, read_only.
  destruct now as [|inst]; [done|]. cbn [normalize_datetime mbind result_bind].
  match goal with |- match ?m with _ => _ end = _ -> _ => destruct m as [[v' d']|] eqn:E end; [|done].
  intros [= ->].
  apply tx_bind_ok in E as (r & d1 & (-> & Hr & <- & Hf)%require_live_fence_ok & E).
  apply tx_bind_ok in E as (u1 & d1 & [Hst <-]%guard_ok & E).
  apply tx_bind_ok in E as (job & d1 & Hjob & E).
  apply job_by_id_ok in Hjob as (-> & x & k & Hxin & Hxid & -> & Hk & Hkv & _ & _).
  assert (x = r) as -> by (by apply (key_unique jr_job_id _ _ _ (job_ids_unique d Hd))).
  destruct (job_rows_ok d r Hd Hr) as (((_ & _ & _ & Hbv & _ & _ & Hbase) & _)%job_row_ok_parts & _ & _).
  cbn [job_base_snapshot_id job_envelope job_session_key job_target_high_water_mark
    job_base_pointer_version] in E.
  apply tx_bind_ok in E as ([[snap ms] c] & d1 & Hb & E).
  apply tx_bind_ok in E as (u4 & d2 & [Hle <-]%guard_ok & E). apply Z.ltb_ge in Hle.
  apply tx_bind_ok in E as (delta & d2 & (-> & _ & Hds)%events_between_ok & E).
  apply tx_bind_ok in E as (u5 & d2 & [Hdel <-]%guard_ok & E). apply negb_py_eq_false in Hdel.
  apply tx_ret_ok in E as [<- <-]. cbn [rv_session_key rv_high_water_mark rv_pointer_version rv_snapshot].
  assert (Hstate : jr_state r = COMPILING \/ jr_state r = AUDITING).
  { apply negb_false_iff, orb_true_iff in Hst. unfold eqb_of in Hst. by rewrite !bool_decide_eq_true in Hst. }
  destruct (jr_base r) as [bid|] eqn:Ebase.
  - apply tx_bind_ok in Hb as ([s ms'] & d2 & Hb & E2).
    apply snapshot_bundle_by_id_ok in Hb as (-> & row & Hrow & Hrid & Hb).
    apply tx_bind_ok in E2 as (u6 & d2 & [_ <-]%guard_ok & [[= <- <- <-] <-]%tx_ret_ok).
    destruct (bundle_consistent d k row s ms' _ Hd Hx Hrow Hb) as (B1 & B2 & B3 & B4 & B5 & B6 & B7).
    assert (Hsid : sn_snapshot_id s = bid).
    { apply snapshot_bundle_ok in Hb as (_ & _ & (_ & -> & _)%snapshot_from_row_ok & _). done. }
    destruct Hbase as [[? _]|[_ Hpos]]; [done|]. split.
    + split; cbn; try done; [|lia]. intros s' [= <-]. by split_and!.
    + exists inst, r. split_and!; try done. cbn. congruence.
  - apply tx_bind_ok in Hb as (u6 & d2 & [Hz <-]%guard_ok & [[= <- <- <-] <-]%tx_ret_ok).
    apply negb_false_iff, Z.eqb_eq in Hz. split.
    + split; cbn; try done.
    + exists inst, r. split_and!; done.
Qed.

(** A bundle as facts about the tables it is read from. *)
Lemma snapshot_bundle_iff k row d s ms d' : snapshot_bundle k row d = Ok ((s, ms), d') <->
  d' = d
  /\ map_result (_membership_from_row k) (enumerate (membership_rows (nr_snapshot_id row) d)) = Ok ms
  /\ _snapshot_from_row k (map ms_capsule_id ms) row = Ok s
  /\ _validate_snapshot_memberships s ms = Ok ().
Proof.
  split.
  - intros (-> & (_ & Hm & _)%memberships_ok_spec & Hs & Hv)%snapshot_bundle_ok. done.
  - intros (-> & Hm & Hs & Hv). unfold snapshot_bundle, _memberships_for_snapshot, select, lift,
      mbind, tx_bind, mret, tx_ret. by rewrite Hm, Hs, Hv.
Qed.

Lemma bundle_by_id_iff d id k s ms d' : _snapshot_bundle_by_id id k d = Ok ((s, ms), d') <->
  d' = d /\ exists row session,
    List.find (fun r => nr_snapshot_id r ==? id) (snapshots d) = Some row
    /\ List.find (fun r => se_hash r ==? nr_session row) (sessions d) = Some session
    /\ _session_key_from_storage (nr_session row) (se_canonical session) = Ok k
    /\ snapshot_bundle k row d = Ok ((s, ms), d).
Proof.
  split.
  - intros E. assert (d' = d) as -> by (by apply snapshot_bundle_by_id_ok in E as [-> _]).
    split; [done|]. unfold _snapshot_bundle_by_id, session_by_hash in E.
    apply tx_bind_ok in E as (o & d1 & [<- <-]%fetchone_ok & E).
    destruct (List.find _ (snapshots d)) as [row|] eqn:Er; [|done].
    apply tx_bind_ok in E as (o & d1 & [<- <-]%fetchone_ok & E).
    destruct (List.find _ (sessions d)) as [session|] eqn:Es; [|done].
    apply tx_bind_ok in E as (k' & d1 & [Hk <-]%lift_ok & E).
    apply tx_bind_ok in E as (u & d1 & [->%negb_session_eq_false <-]%guard_ok & E).
    by exists row, session.
  - intros (-> & row & session & Hr & Hs & Hk & Hb).
    unfold _snapshot_bundle_by_id, session_by_hash, fetchone, select, lift, guard, mbind, tx_bind.
    rewrite Hr, Hs, Hk, (py_eq_true_refl k). exact Hb.
Qed.

Lemma bundle_frame k row d d' s ms d1 :
  membership_rows (nr_snapshot_id row) d' = membership_rows (nr_snapshot_id row) d ->
  snapshot_bundle k row d = Ok ((s, ms), d1) -> snapshot_bundle k row d' = Ok ((s, ms), d').
Proof. rewrite !snapshot_bundle_iff. intros -> (_ & ? & ? & ?). done. Qed.
End view_lemmas.
