(* ===== verification/Publish.v ===== *)
(** [TX_PUBLISH_SNAPSHOT] of [storage/repository.py]: the permanent gate in front
    of the store, the savepoint that isolates a losing publication, the
    compare-and-set of the active pointer and the follow-up intent. *)
From S2P Require Import Prelude PyString PyFloat Domain Validation PyJson Crypto Store Records.
From S2P Require Import Instances TokenMetrics Journal Jobs Views.
Open Scope string_scope.
Open Scope list_scope.
Open Scope Z_scope.

Inductive PublishOutcome := OUTCOME_COMMITTED | OUTCOME_SUPERSEDED.
#[export] Instance PublishOutcome_eq_dec : EqDecision PublishOutcome.
Proof. solve_decision. Defined.
(** [PublishOutcome.value], as the Job state it is stored as. *)
Definition outcome_state (o : PublishOutcome) : CompactionJobState :=
  match o with OUTCOME_COMMITTED => JOB_COMMITTED | OUTCOME_SUPERSEDED => SUPERSEDED end.

Record PublishResult := {
  pr_outcome : PublishOutcome;
  pr_job : CompactionJobEnvelope;
  pr_winner : SnapshotEnvelope;
  pr_pointer_version : Z;
}.

(** A record that counts against coverage. *)
Definition releases_source (record : ReorganizationRecord) : bool :=
  eqb_of (ro_status record) RELEASED && (ro_kind record !=? "narrative_summary").

Definition _apply_reorganization_record_quality_floor (report : PermanentValidationReport)
    (records : list ReorganizationRecord) : result model_error PermanentValidationReport :=
  let non_summary_release_count := sumZ (fun r => if releases_source r then 1 else 0) records in
  if non_summary_release_count =? 0 then Ok report else
  let failures := QUALITY_COVERAGE_GAP :: rp_failure_codes report in
  construct PermanentValidationReport_valid
    {| rp_passed := false; rp_failure_codes := in_enum_order failures;
       rp_source_coverage := rp_source_coverage report;
       rp_anchor_recall := rp_anchor_recall report;
       rp_coverage_gap := Z.max (rp_coverage_gap report) non_summary_release_count;
       rp_unsupported_critical_claims := rp_unsupported_critical_claims report |}.

Definition _validate_candidate_memberships (snapshot : SnapshotEnvelope)
    (memberships : list SnapshotCapsuleMembership) : result repo_error unit :=
  raise RepositoryInvariantError when (match memberships with [] => true | _ => false end);;
  raise RepositoryInvariantError when
    (map ms_ordinal memberships !=? py_range 0 (len memberships));;
  raise RepositoryInvariantError when (existsb (fun m => is_blank (ms_slot m)) memberships);;
  let capsule_ids := map ms_capsule_id memberships in
  raise RepositoryInvariantError when (negb (no_duplicates capsule_ids));;
  raise RepositoryInvariantError when (sn_capsule_ids snapshot !=? capsule_ids);;
  Ok ().

Definition _validate_candidate_metrics (snapshot : SnapshotEnvelope)
    (memberships : list SnapshotCapsuleMembership) (metrics : list TokenMetric)
    : result repo_error unit :=
  let expected_artifacts := remove_dups (map (fun m => (ARTIFACT_CAPSULE, ms_capsule_id m)) memberships
                              ++ [(ARTIFACT_SNAPSHOT, sn_snapshot_id snapshot)]) in
  let actual_artifacts := map (fun t => (tm_artifact_kind t, tm_artifact_id t)) metrics in
  let profile_ids := remove_dups (map tm_tokenizer_profile_id metrics) in
  raise RepositoryInvariantError when
    (negb (len metrics =? len expected_artifacts)
     || negb (subset_of actual_artifacts expected_artifacts
              && subset_of expected_artifacts actual_artifacts)
     || negb (len profile_ids =? 1));;
  Ok ().

(** [SAVEPOINT]: a conflict ([true]) rolls back to its start. *)
Definition savepoint (m : tx bool) : tx bool := fun d =>
  match m d with Ok (true, _) => Ok (true, d) | r => r end.

(** A loop that stops at the first conflict; an item that does not conflict is
    followed by a fault boundary. *)
Fixpoint for_each_until {A} (body : A -> tx bool) (l : list A) : tx bool :=
  match l with
  | [] => mret false
  | x :: rest => conflict ← body x; if (conflict : bool) then mret true else for_each_until body rest
  end.
Fixpoint for_each {A} (body : A -> tx unit) (l : list A) : tx unit :=
  match l with
  | [] => mret ()
  | x :: rest => body x;; for_each body rest
  end.

Section publish.
Context `{Sha256, StorageCodec, Environment}.

(** Does a stored Capsule row hold exactly this Capsule? *)
Definition capsule_row_same (row : CapsuleRow) (capsule : ContextCapsuleEnvelope)
    (stored_canonical_json : string) (stored_token_cost : Z) : bool :=
  (cr_session row ==? session_key_hash (cap_session_key capsule))
  && eqb_of (cr_level row) (cap_level capsule)
  && (cr_start row =? cap_covered_event_start capsule)
  && (cr_end row =? cap_covered_event_end capsule)
  && (stored_canonical_json ==? capsule_model_json capsule)
  && (stored_token_cost =? cap_token_cost capsule)
  && (cr_source_coverage row ==? q_source_coverage (cap_quality capsule))
  && (cr_created_at row =? cap_created_at capsule).

Definition _insert_or_verify_capsule (ns : Nonces) (capsule : ContextCapsuleEnvelope) : tx unit :=
  let canonical_json := capsule_model_json capsule in
  let capsule_id := cap_capsule_id capsule in
  row ← fetchone capsules (fun r => cr_capsule_id r ==? capsule_id);
  match row with
  | Some row =>
      stored_canonical_json ← lift (codec_result (codec_decrypt_object "capsules"
        "canonical_capsule_json" capsule_id (cr_canonical row)));
      stored_token_cost ← lift (codec_result (codec_decrypt_int "capsules" "token_cost"
        capsule_id (cr_token_cost_envelope row)));
      guard (negb (capsule_row_same row capsule stored_canonical_json stored_token_cost)) IntegrityError
  | None =>
      canonical ← lift (codec_result (codec_encrypt_object ns "capsules" "canonical_capsule_json"
                                        capsule_id canonical_json));
      token_cost ← lift (codec_result (codec_encrypt_int ns "capsules" "token_cost" capsule_id
                                         (cap_token_cost capsule)));
      insert_capsule {| cr_capsule_id := capsule_id;
        cr_session := session_key_hash (cap_session_key capsule); cr_level := cap_level capsule;
        cr_start := cap_covered_event_start capsule; cr_end := cap_covered_event_end capsule;
        cr_canonical := canonical; cr_token_cost_envelope := token_cost;
        cr_source_coverage := q_source_coverage (cap_quality capsule);
        cr_created_at := cap_created_at capsule |}
  end.

Definition _insert_committed_snapshot (ns : Nonces) (snapshot : SnapshotEnvelope) : tx unit :=
  match sn_committed_at snapshot with
  | None => throw RepositoryInvariantError
  | Some committed_at =>
      let snapshot_id := sn_snapshot_id snapshot in
      anchors ← lift (codec_result (codec_encrypt_array ns "snapshots" "exact_anchor_ids_json"
        snapshot_id (json_dumps (JArr (map JStr (sn_exact_anchor_ids snapshot))))));
      rendered ← lift (codec_result (codec_encrypt_text ns "snapshots" "rendered_context"
        snapshot_id (sn_rendered_context snapshot)));
      token_cost ← lift (codec_result (codec_encrypt_int ns "snapshots" "token_cost" snapshot_id
        (sn_token_cost snapshot)));
      audit ← lift (codec_result (codec_encrypt_object ns "snapshots" "audit_outcome" snapshot_id
        (audit_model_json (sn_audit_outcome snapshot))));
      insert_snapshot {| nr_snapshot_id := snapshot_id;
        nr_session := session_key_hash (sn_session_key snapshot);
        nr_base := sn_base_snapshot_id snapshot;
        nr_covered_event_end := sn_covered_event_end snapshot;
        nr_source_high_water_mark := sn_source_high_water_mark snapshot;
        nr_anchor_ids := anchors; nr_rendered_context := rendered;
        nr_token_cost_envelope := token_cost; nr_audit_outcome := audit;
        nr_state := SNAPSHOT_COMMITTED; nr_created_at := sn_created_at snapshot;
        nr_committed_at := committed_at |}
  end.

Definition advance_pointer_row (snapshot_id : string) (updated_at : Z) (r : ActiveRow) : ActiveRow :=
  {| ar_session := ar_session r; ar_snapshot_id := snapshot_id;
     ar_pointer_version := ar_pointer_version r + 1; ar_updated_at := updated_at |}.

Definition _cas_active_pointer (job : CompactionJobEnvelope) (snapshot : SnapshotEnvelope)
    (updated_at : Z) : tx bool :=
  let hash := session_key_hash (job_session_key job) in
  match job_base_snapshot_id job with
  | None =>
      existing ← fetchone active_snapshots (fun r => ar_session r ==? hash);
      match existing with
      | Some _ => mret false
      | None =>
          insert_active {| ar_session := hash; ar_snapshot_id := sn_snapshot_id snapshot;
                           ar_pointer_version := 1; ar_updated_at := updated_at |};;
          mret true
      end
  | Some base_snapshot_id =>
      rowcount ← update_actives (fun r => (ar_session r ==? hash)
                                          && (ar_snapshot_id r ==? base_snapshot_id)
                                          && (ar_pointer_version r =? job_base_pointer_version job))
                   (advance_pointer_row (sn_snapshot_id snapshot) updated_at);
      mret (rowcount =? 1)
  end.

Definition terminal_row (state : CompactionJobState) (committed_at : option Z) (now : Z)
    (r : JobRow) : JobRow :=
  {| jr_job_id := jr_job_id r; jr_session := jr_session r; jr_state := state;
     jr_target := jr_target r; jr_intent := jr_intent r; jr_base := jr_base r;
     jr_base_pointer_version := jr_base_pointer_version r; jr_candidate := jr_candidate r;
     jr_lease_owner := None; jr_lease_epoch := jr_lease_epoch r; jr_lease_expires_at := None;
     jr_attempt_count := jr_attempt_count r; jr_next_retry_at := None;
     jr_error_stage := jr_error_stage r; jr_error_code := jr_error_code r;
     jr_error_message := jr_error_message r; jr_created_at := jr_created_at r;
     jr_updated_at := now; jr_committed_at := committed_at |}.

Definition _finish_publish_job (job : CompactionJobEnvelope) (owner : string)
    (lease_epoch now : Z) (outcome : PublishOutcome) : tx CompactionJobEnvelope :=
  let committed_at := if eqb_of outcome OUTCOME_COMMITTED then Some now else None in
  rowcount ← update_jobs (fun r => fenced (job_job_id job) owner lease_epoch now r
                                   && eqb_of (jr_state r) READY_TO_COMMIT
                                   && match job_candidate_snapshot_id job, jr_candidate r with
                                      | Some c, Some c' => c' ==? c
                                      | _, _ => false
                                      end)
               (terminal_row (outcome_state outcome) committed_at now);
  guard (negb (rowcount =? 1)) StaleLeaseError;;
  _job_by_id (job_job_id job).

(** [f"{job_id}\0{snapshot_id}\0{pointer_version}\0{intent}"] *)
Definition nul : string := String (Ascii.ascii_of_N 0) EmptyString.
Definition follow_up_text (job_id snapshot_id : string) (pointer_version intent : Z) : string :=
  job_id +:+ nul +:+ snapshot_id +:+ nul +:+ show_Z pointer_version +:+ nul +:+ show_Z intent.
Definition follow_up_id (digest : string) : string :=
  "followup-" +:+ String.substring 0 32 digest.

Definition _preserve_follow_up (terminal_job : CompactionJobEnvelope) (winner : SnapshotEnvelope)
    (pointer_version now : Z) : tx unit :=
  let intent := job_intent_target_high_water_mark terminal_job in
  if intent <=? sn_covered_event_end winner then mret () else
  let hash := session_key_hash (job_session_key terminal_job) in
  existing ← nonterminal_job hash;
  match existing with
  | Some existing =>
      if jr_intent existing <? intent
      then update_jobs (fun r => jr_job_id r ==? jr_job_id existing) (fold_row intent now);; mret ()
      else mret ()
  | None =>
      let text := follow_up_text (job_job_id terminal_job) (sn_snapshot_id winner)
                                 pointer_version intent in
      guard (negb (utf8_valid text)) ValueError;;
      insert_job (pending_row (follow_up_id (sha256_hexdigest text)) hash intent
                              (Some (sn_snapshot_id winner)) pointer_version now)
  end.

(** The statements between the savepoint and the pointer, with [true] for a
    conflict.  Only the Capsule, Snapshot and membership statements and the
    pointer report one; an integrity error of the ledger leaves the transaction. *)
Definition publish_capsule (ns : Nonces) (membership : SnapshotCapsuleMembership) : tx bool :=
  inserted ← catch_integrity (_insert_or_verify_capsule ns (ms_capsule membership));
  match inserted with
  | None => mret true
  | Some _ => inject "publish.after_capsule";; mret false
  end.
Definition publish_snapshot_row (ns : Nonces) (snapshot : SnapshotEnvelope) : tx bool :=
  inserted ← catch_integrity (_insert_committed_snapshot ns snapshot);
  match inserted with
  | None => mret true
  | Some _ => inject "publish.after_snapshot";; mret false
  end.
Definition membership_row (snapshot_id : string) (m : SnapshotCapsuleMembership) : MembershipRow :=
  {| mr_snapshot_id := snapshot_id; mr_ordinal := ms_ordinal m;
     mr_capsule_id := ms_capsule_id m; mr_slot := ms_slot m |}.
Definition publish_membership (snapshot_id : string) (m : SnapshotCapsuleMembership) : tx bool :=
  inserted ← catch_integrity (insert_membership (membership_row snapshot_id m));
  match inserted with
  | None => mret true
  | Some _ => inject "publish.after_membership";; mret false
  end.
Definition ledger_row (snapshot_id : string) (ordinal : Z) (r : ReorganizationRecord) : LedgerRow :=
  {| lr_snapshot_id := snapshot_id; lr_ordinal := ordinal;
     lr_source_capsule_id := ro_source_capsule_id r; lr_kind := ro_kind r;
     lr_item_id := ro_item_id r; lr_status := ro_status r;
     lr_before_tokens := ro_before_tokens r; lr_after_tokens := ro_after_tokens r;
     lr_required := if ro_required r then 1 else 0 |}.
Definition publish_record (snapshot_id : string) (p : Z * ReorganizationRecord) : tx unit :=
  insert_ledger (ledger_row snapshot_id p.1 p.2);;
  inject "publish.after_ledger".
Definition publish_metric (ns : Nonces) (now : Z) (metric : TokenMetric) : tx unit :=
  put_in_transaction ns metric now;;
  delete_intents (fun r => eqb_of (ir_kind r) (tm_artifact_kind metric)
                           && (ir_artifact_id r ==? tm_artifact_id metric)
                           && (ir_profile_id r ==? tm_tokenizer_profile_id metric));;
  inject "publish.after_metric".

Definition publish_candidate (ns : Nonces) (job : CompactionJobEnvelope)
    (committed_snapshot : SnapshotEnvelope) (memberships : list SnapshotCapsuleMembership)
    (canonical_records : list ReorganizationRecord) (canonical_metrics : option (list TokenMetric))
    (now : Z) : tx bool :=
  conflict ← for_each_until (publish_capsule ns) memberships;
  if (conflict : bool) then mret true else
  conflict ← publish_snapshot_row ns committed_snapshot;
  if (conflict : bool) then mret true else
  conflict ← for_each_until (publish_membership (sn_snapshot_id committed_snapshot)) memberships;
  if (conflict : bool) then mret true else
  for_each (publish_record (sn_snapshot_id committed_snapshot)) (enumerate canonical_records);;
  match canonical_metrics with
  | None => mret ()
  | Some metrics => for_each (publish_metric ns now) metrics
  end;;
  swapped ← _cas_active_pointer job committed_snapshot now;
  mret (negb swapped).

Definition committed (now : Z) (candidate : SnapshotEnvelope) : SnapshotEnvelope :=
  {| sn_snapshot_id := sn_snapshot_id candidate; sn_session_key := sn_session_key candidate;
     sn_base_snapshot_id := sn_base_snapshot_id candidate;
     sn_covered_event_end := sn_covered_event_end candidate;
     sn_source_high_water_mark := sn_source_high_water_mark candidate;
     sn_capsule_ids := sn_capsule_ids candidate; sn_exact_anchor_ids := sn_exact_anchor_ids candidate;
     sn_rendered_context := sn_rendered_context candidate; sn_token_cost := sn_token_cost candidate;
     sn_audit_outcome := sn_audit_outcome candidate; sn_state := SNAPSHOT_COMMITTED;
     sn_created_at := sn_created_at candidate; sn_committed_at := Some now |}.

(** What the transaction checks before it writes. *)
Definition publish_checks (job_id owner : string) (lease_epoch : Z)
    (candidate_snapshot : SnapshotEnvelope) (memberships : list SnapshotCapsuleMembership)
    (canonical_metrics : option (list TokenMetric)) (records : list ReorganizationRecord)
    (token_ceiling now : Z)
    : tx (CompactionJobEnvelope * SnapshotEnvelope * list ReorganizationRecord) :=
  fence_row ← _require_live_fence job_id owner lease_epoch now;
  guard (negb (eqb_of (jr_state fence_row) READY_TO_COMMIT)) JobTransitionError;;
  guard (jr_candidate fence_row !=? Some (sn_snapshot_id candidate_snapshot)) JobTransitionError;;
  guard (negb (eqb_of (sn_state candidate_snapshot) CANDIDATE)) JobTransitionError;;
  job ← _job_by_id job_id;
  guard (sn_session_key candidate_snapshot !=? job_session_key job) JobTransitionError;;
  lift (_validate_candidate_memberships candidate_snapshot memberships);;
  canonical_records ← lift (record_result (canonicalize_reorganization_records records));
  match canonical_metrics with
  | None => mret ()
  | Some metrics => lift (_validate_candidate_metrics candidate_snapshot memberships metrics)
  end;;
  previous ← match job_base_snapshot_id job with
    | None => mret (None, [])
    | Some base_snapshot_id =>
        b ← _snapshot_bundle_by_id base_snapshot_id (job_session_key job);
        let '(snapshot, previous_memberships) := b in
        mret (Some snapshot, previous_memberships)
    end;
  let '(previous_snapshot, previous_memberships) := previous in
  source_events ← _events_between (job_session_key job) (base_coverage_of previous_snapshot)
                                  (job_target_high_water_mark job);
  report ← lift (model_result (validate_permanent previous_snapshot
             (map ms_capsule previous_memberships) candidate_snapshot (map ms_capsule memberships)
             source_events (job_target_high_water_mark job) token_ceiling));
  report ← lift (model_result (_apply_reorganization_record_quality_floor report canonical_records));
  guard (negb (rp_passed report)) (PublicationRejected report);;
  committed_snapshot ← lift (model_result (construct SnapshotEnvelope_valid
                                             (committed now candidate_snapshot)));
  mret (job, committed_snapshot, canonical_records).

Definition publish_snapshot (ns : Nonces) (job_id owner : string) (lease_epoch : Z)
    (candidate_snapshot : SnapshotEnvelope) (memberships : list SnapshotCapsuleMembership)
    (canonical_metrics : option (list TokenMetric)) (records : list ReorganizationRecord)
    (token_ceiling : Z) (now : py_datetime) (d : db) : result repo_error PublishResult * db :=
  if token_ceiling <? 0 then (Err ValueError, d) else
  match normalize_datetime now with
  | Err e => (Err e, d)
  | Ok now => transaction (
      checked ← publish_checks job_id owner lease_epoch candidate_snapshot memberships
                               canonical_metrics records token_ceiling now;
      let '(job, committed_snapshot, canonical_records) := checked in
      inject "publish.before_savepoint";;
      conflict ← savepoint (publish_candidate ns job committed_snapshot memberships
                              canonical_records canonical_metrics now);
      if (conflict : bool) then
        superseded ← _finish_publish_job job owner lease_epoch now OUTCOME_SUPERSEDED;
        inject "publish.after_terminal";;
        active ← _active_snapshot_bundle (job_session_key job);
        let '(winner, pointer_version, _) := active in
        _preserve_follow_up superseded winner pointer_version now;;
        inject "publish.after_follow_up";;
        mret {| pr_outcome := OUTCOME_SUPERSEDED; pr_job := superseded; pr_winner := winner;
                pr_pointer_version := pointer_version |}
      else
        let pointer_version := job_base_pointer_version job + 1 in
        inject "publish.after_pointer";;
        committed_job ← _finish_publish_job job owner lease_epoch now OUTCOME_COMMITTED;
        inject "publish.after_terminal";;
        _preserve_follow_up committed_job committed_snapshot pointer_version now;;
        inject "publish.after_follow_up";;
        mret {| pr_outcome := OUTCOME_COMMITTED; pr_job := committed_job;
                pr_winner := committed_snapshot; pr_pointer_version := pointer_version |}) d
  end.
End publish.
