(* ===== verification/PublishLemmas.v ===== *)
(** What the steps of [TX_PUBLISH_SNAPSHOT] establish: the checks, the statements
    of the savepoint, the pointer, the terminal Job and the follow-up. *)
From S2P Require Import Prelude PyString PyFloat Domain Validation PyJson Crypto Store Records.
From S2P Require Import Instances TokenMetrics Journal Jobs JobProperties Views Publish.
Open Scope string_scope.
Open Scope list_scope.
Open Scope Z_scope.

Lemma sumZ_indicator {A} (p : A -> bool) l : sumZ (fun x => if p x then 1 else 0) l = 0 ->
  forall x, x ∈ l -> p x = false.
Proof.
  intros Hz x Hx.
  assert (Hn : forall y, y ∈ l -> 0 <= (if p y then 1 else 0)) by (intros y _; destruct (p y); lia).
  pose proof (sumZ_zero _ _ Hn Hz x Hx) as Hx0. cbn beta in Hx0. by destruct (p x).
Qed.

(** The floor passes only when no source record was released. *)
Lemma floor_passed report records report' :
  _apply_reorganization_record_quality_floor report records = Ok report' ->
  rp_passed report' = true ->
  report' = report /\ forall r, r ∈ records -> releases_source r = false.
Proof.
  unfold _apply_reorganization_record_quality_floor. destruct (_ =? 0) eqn:E.
  - intros [= <-] _. split; [done|]. apply sumZ_indicator. by apply Z.eqb_eq in E.
  - by intros [_ <-]%construct_ok.
Qed.

Lemma candidate_memberships_ok s ms : _validate_candidate_memberships s ms = Ok () <->
  ms <> [] /\ map ms_ordinal ms = py_range 0 (len ms)
  /\ (forall m, m ∈ ms -> is_blank (ms_slot m) = false)
  /\ NoDup (map ms_capsule_id ms) /\ sn_capsule_ids s = map ms_capsule_id ms.
Proof.
  unfold _validate_candidate_memberships, no_duplicates.
  rewrite !raise_if_ok, existsb_false_iff, !negb_py_eq_false, negb_false_iff, bool_decide_eq_true.
  destruct ms; naive_solver.
Qed.

Section check_lemmas.
Context `{Sha256, StorageCodecLaws, !Environment, !EnvironmentLaws}.

(** The base of a Job as the gate reads it. *)
Definition base_bundle (d : db) (r : JobRow) (k : SessionKey)
    (previous : option SnapshotEnvelope) (previous_memberships : list SnapshotCapsuleMembership) : Prop :=
  match jr_base r with
  | None => previous = None /\ previous_memberships = []
  | Some id => exists s, previous = Some s /\ sn_snapshot_id s = id
      /\ _snapshot_bundle_by_id id k d = Ok ((s, previous_memberships), d)
  end.

(** Everything the transaction checked before its first write. *)
Record PublishChecked (d : db) (job_id owner : string) (epoch : Z) (cand : SnapshotEnvelope)
    (ms : list SnapshotCapsuleMembership) (records : list ReorganizationRecord)
    (ceiling now : Z) (r : JobRow) (k : SessionKey) : Prop := {
  pc_row : r ∈ compaction_jobs d;
  pc_id : jr_job_id r = job_id;
  pc_fence : fence_ok owner epoch now r = true;
  pc_ready : jr_state r = READY_TO_COMMIT;
  pc_candidate : jr_candidate r = Some (sn_snapshot_id cand);
  pc_state : sn_state cand = CANDIDATE;
  pc_session : session_key_hash k = jr_session r;
  pc_stored : exists srow, srow ∈ sessions d /\ se_hash srow = jr_session r
              /\ _session_key_from_storage (jr_session r) (se_canonical srow) = Ok k;
  pc_key_valid : SessionKey_valid k = true;
  pc_key : sn_session_key cand = k;
  pc_memberships : _validate_candidate_memberships cand ms = Ok ();
  pc_records : forallb record_ok records = true /\ NoDup (map source_item_key records);
  pc_no_release : forall x, x ∈ records -> releases_source x = false;
  pc_gate : exists previous previous_memberships events report,
    base_bundle d r k previous previous_memberships
    /\ _events_between k (base_coverage_of previous) (jr_target r) d = Ok (events, d)
    /\ validate_permanent previous (map ms_capsule previous_memberships) cand (map ms_capsule ms)
         events (jr_target r) ceiling = Ok report
    /\ rp_passed report = true;
  pc_valid : SnapshotEnvelope_valid (committed now cand) = true }.

Lemma publish_checks_ok d job_id owner epoch cand ms metrics records ceiling now job cs recs d1 :
  schema_ok d = true ->
  publish_checks job_id owner epoch cand ms metrics records ceiling now d = Ok ((job, cs, recs), d1) ->
  d1 = d /\ cs = committed now cand /\ recs = records
  /\ exists r k, job = job_envelope k r
     /\ PublishChecked d job_id owner epoch cand ms records ceiling now r k.
Proof.
  intros Hd. unfold publish_checks.
  intros (r & d2 & (-> & Hr & Hid & Hf)%require_live_fence_ok & E)%tx_bind_ok.
  apply tx_bind_ok in E as (u1 & d2 & [Hst <-]%guard_ok & E). apply negb_false_iff in Hst.
  apply tx_bind_ok in E as (u2 & d2 & [Hc <-]%guard_ok & E).
  apply (negb_py_eq_false (A:=option string)) in Hc.
  apply tx_bind_ok in E as (u3 & d2 & [Hcs <-]%guard_ok & E). apply negb_false_iff in Hcs.
  apply tx_bind_ok in E as (jb & d2 & Hjob & E).
  apply job_by_id_ok in Hjob as (-> & x & k & Hxin & Hxid & -> & Hk & Hkv & _ & _ & Hstored).
  assert (x = r) as ->
    by (apply (key_unique jr_job_id _ _ _ (job_ids_unique d Hd) Hxin Hr); congruence).
  cbn [job_session_key job_envelope job_base_snapshot_id job_target_high_water_mark] in E.
  apply tx_bind_ok in E as (u4 & d2 & [Hsk <-]%guard_ok & E). apply negb_session_eq_false in Hsk.
  apply tx_bind_ok in E as ([] & d2 & [Hms <-]%lift_ok & E).
  apply tx_bind_ok in E as (recs' & d2 & [Hrecs <-]%lift_ok & E).
  unfold record_result in Hrecs.
  destruct (canonicalize_reorganization_records records) as [rs|] eqn:Erec; [|done].
  injection Hrecs as ->. apply canonicalize_ok in Erec as (-> & Hrok & Hrnd).
  apply tx_bind_ok in E as (u5 & d2 & Hmet & E).
  assert (d2 = d) as ->.
  { destruct metrics; [by apply lift_ok in Hmet as [_ <-]|by apply tx_ret_ok in Hmet as [_ <-]]. }
  apply tx_bind_ok in E as ([ps pms] & d2 & Hprev & E).
  assert (Hbase : d2 = d /\ base_bundle d r k ps pms).
  { unfold base_bundle. destruct (jr_base r) as [id|].
    - apply tx_bind_ok in Hprev as ([s ms'] & d3 & Hb & [[= <- <-] <-]%tx_ret_ok).
      assert (Hb' := Hb). apply snapshot_bundle_by_id_ok in Hb' as (-> & row & _ & Hrid & Hb').
      apply snapshot_bundle_ok in Hb' as (_ & _ & (_ & Hsid & _)%snapshot_from_row_ok & _).
      split; [done|]. exists s. split_and!; try done. congruence.
    - by apply tx_ret_ok in Hprev as [[= <- <-] <-]. }
  destruct Hbase as [-> Hbase].
  apply tx_bind_ok in E as (evs & d2 & Hev & E).
  assert (d2 = d) as -> by (by apply events_between_ok in Hev as [-> _]).
  apply tx_bind_ok in E as (report & d2 & [Hval <-]%lift_ok & E). apply model_result_ok in Hval.
  apply tx_bind_ok in E as (report' & d2 & [Hfl <-]%lift_ok & E). apply model_result_ok in Hfl.
  apply tx_bind_ok in E as (u6 & d2 & [Hp <-]%guard_ok & E). apply negb_false_iff in Hp.
  destruct (floor_passed _ _ _ Hfl Hp) as [-> Hrel].
  apply tx_bind_ok in E as (cs' & d2 & [Hcom <-]%lift_ok & E).
  apply model_result_ok, construct_ok in Hcom as [Hv <-]. apply tx_ret_ok in E as [[= <- <- <-] <-].
  split_and!; try done. exists r, k. split; [done|].
  unfold eqb_of in *. bool_hyps. split; try done. by exists ps, pms, evs, report.
Qed.
End check_lemmas.

(** ** The statements of the savepoint *)

Definition same_core (d d' : db) : Prop :=
  sessions d' = sessions d /\ journal_events d' = journal_events d /\ capsules d' = capsules d
  /\ snapshots d' = snapshots d /\ snapshot_capsules d' = snapshot_capsules d
  /\ active_snapshots d' = active_snapshots d /\ compaction_jobs d' = compaction_jobs d
  /\ reorganization_records d' = reorganization_records d.
#[export] Instance same_core_preorder : PreOrder same_core.
Proof.
  split; [by intros d; unfold same_core; split_and!|].
  intros a b c (?&?&?&?&?&?&?&?) (?&?&?&?&?&?&?&?). unfold same_core. split_and!; congruence.
Qed.

Lemma core_insert_metric r : steps_by same_core (insert_metric r).
Proof. intros d u d' [_ ->]%insert_row_ok. unfold same_core. by split_and!. Qed.
Lemma core_delete_intents p : steps_by same_core (delete_intents p).
Proof. intros d u d' [_ ->]%execute_ok. unfold same_core. by split_and!. Qed.

Lemma steps_for_each {A} R `{!PreOrder R} (body : A -> tx unit) l :
  (forall x, steps_by R (body x)) -> steps_by R (for_each body l).
Proof.
  intros Hb. induction l as [|x l IH]; cbn [for_each]; steps_by_tac; [apply Hb|exact IH].
Qed.
Lemma steps_for_each_until {A} R `{!PreOrder R} (body : A -> tx bool) l :
  (forall x, steps_by R (body x)) -> steps_by R (for_each_until body l).
Proof.
  intros Hb. induction l as [|x l IH]; cbn [for_each_until]; steps_by_tac; [apply Hb|exact IH].
Qed.
Lemma steps_savepoint R `{!PreOrder R} m : steps_by R m -> steps_by R (savepoint m).
Proof.
  intros Hm d b d'. unfold savepoint. destruct (m d) as [[[] d1]|] eqn:E; [by intros [= <- <-]| |done].
  intros [= <- <-]. by eapply Hm.
Qed.

Lemma set_capsules_nil d : set_capsules (capsules d ++ []) d = d.
Proof. rewrite app_nil_r. by destruct d. Qed.

Section step_lemmas.
Context `{Sha256, StorageCodecLaws, !Environment, !EnvironmentLaws}.

(** A Capsule the store holds under its id and reads back exactly. *)
Definition capsule_stored (d : db) (c : ContextCapsuleEnvelope) : Prop :=
  exists row, List.find (fun r => cr_capsule_id r ==? cap_capsule_id c) (capsules d) = Some row
              /\ _capsule_from_row (cap_session_key c) row = Ok c.

Lemma capsule_stored_mono d new c : capsule_stored d c ->
  capsule_stored (set_capsules (capsules d ++ new) d) c.
Proof.
  intros (row & Hf & Hr). exists row. split; [|done]. cbn [capsules set_capsules].
  by rewrite find_app, Hf.
Qed.

Lemma unit_float_eq_refl x : UnitFloat x = true -> (x ==? x) = true.
Proof.
  unfold UnitFloat, is_unit_float. intros [Hx _]%andb_true_iff. destruct x as [s|s| |s m e]; try done.
  - by destruct s.
  - unfold py_eq, py_eq_float, SpecFloat.SFeqb, SpecFloat.SFcompare.
    destruct s; rewrite Z.compare_refl, Pos.compare_cont_refl; done.
Qed.
Lemma capsule_coverage_unit c : ContextCapsuleEnvelope_valid c = true ->
  UnitFloat (q_source_coverage (cap_quality c)) = true.
Proof.
  unfold ContextCapsuleEnvelope_valid. rewrite !andb_true_iff. intros Hv. destruct_and? Hv.
  unfold CapsuleQuality_valid in *. bool_hyps. done.
Qed.

(** A row whose columns are those of the Capsule reads back as it. *)
Lemma capsule_row_reads c row cost : ContextCapsuleEnvelope_valid c = true ->
  codec_decrypt_object "capsules" "canonical_capsule_json" (cr_capsule_id row) (cr_canonical row)
    = Ok (capsule_model_json c) ->
  codec_decrypt_int "capsules" "token_cost" (cr_capsule_id row) (cr_token_cost_envelope row) = Ok cost ->
  cr_capsule_id row = cap_capsule_id c ->
  capsule_row_same row c (capsule_model_json c) cost = true ->
  _capsule_from_row (cap_session_key c) row = Ok c.
Proof.
  intros Hv Hobj Hint Hid Hsame. unfold _capsule_from_row. rewrite Hobj.
  cbn [codec_result mbind result_bind]. rewrite (capsule_json_round_trip _ Hv), Hint.
  cbn [codec_result mbind result_bind]. apply raise_if_ok. split; [|done]. apply negb_false_iff.
  unfold capsule_row_same in Hsame. unfold capsule_row_canonical.
  rewrite !andb_true_iff in Hsame |- *. destruct_and? Hsame.
  rewrite Hid, !(py_eq_true_refl (A:=string)), (py_eq_true_refl (A:=SessionKey)). split_and!; done.
Qed.

Lemma insert_or_verify_ok ns c d u d' : nonces_ok ns -> ContextCapsuleEnvelope_valid c = true ->
  _insert_or_verify_capsule ns c d = Ok (u, d') ->
  exists new, d' = set_capsules (capsules d ++ new) d /\ capsule_stored d' c.
Proof.
  intros Hns Hv E. unfold _insert_or_verify_capsule in E.
  apply tx_bind_ok in E as (o & d1 & [<- <-]%fetchone_ok & E).
  destruct (List.find _ (capsules d)) as [row|] eqn:Ef.
  - apply tx_bind_ok in E as (js & d1 & [Hobj%codec_result_ok <-]%lift_ok & E).
    apply tx_bind_ok in E as (cost & d1 & [Hint%codec_result_ok <-]%lift_ok & E).
    apply guard_ok in E as [Hs%negb_false_iff <-]. exists []. split; [by rewrite set_capsules_nil|].
    exists row. split; [done|]. apply find_some_elem in Ef as [_ Hid].
    apply (py_eq_leibniz (A:=string)) in Hid.
    assert (js = capsule_model_json c) as ->.
    { unfold capsule_row_same in Hs. rewrite !andb_true_iff in Hs. destruct_and? Hs.
      by apply (py_eq_leibniz (A:=string)). }
    eapply capsule_row_reads; try done; by rewrite Hid.
  - apply tx_bind_ok in E as (js & d1 & [Hobj%codec_result_ok <-]%lift_ok & E).
    apply tx_bind_ok in E as (cost & d1 & [Hint%codec_result_ok <-]%lift_ok & E).
    unfold insert_capsule in E. apply insert_row_ok in E as [_ ->].
    match goal with |- context [capsules d ++ [?row]] => set (new := row) end.
    exists [new]. split; [done|]. exists new. split.
    + cbn [capsules set_capsules]. apply find_snoc; [done|]. by apply (py_eq_leibniz (A:=string)).
    + eapply capsule_row_reads; [done|exact (codec_object _ _ _ _ _ _ Hns Hobj)
        |exact (codec_int _ _ _ _ _ _ Hns Hint)|done|].
      unfold capsule_row_same, new; cbn [cr_session cr_level cr_start cr_end cr_source_coverage cr_created_at].
      rewrite !(py_eq_true_refl (A:=string)), !Z.eqb_refl.
      rewrite (unit_float_eq_refl _ (capsule_coverage_unit _ Hv)).
      unfold eqb_of. by rewrite bool_decide_eq_true_2.
Qed.

Lemma publish_capsules_ok ns ms : nonces_ok ns ->
  (forall m, m ∈ ms -> ContextCapsuleEnvelope_valid (ms_capsule m) = true) ->
  forall d d', for_each_until (publish_capsule ns) ms d = Ok (false, d') ->
  exists new, d' = set_capsules (capsules d ++ new) d
    /\ forall m, m ∈ ms -> capsule_stored d' (ms_capsule m).
Proof.
  intros Hns. induction ms as [|m ms IH]; intros Hv d d' E; cbn [for_each_until] in E.
  - apply tx_ret_ok in E as [_ <-]. exists []. split; [by rewrite set_capsules_nil|].
    intros m Hm. by apply elem_of_nil in Hm.
  - apply tx_bind_ok in E as ([] & d1 & Hb & E); [by apply tx_ret_ok in E as [? _]|].
    unfold publish_capsule in Hb. apply tx_bind_ok in Hb as ([u|] & d2 & Hi%catch_integrity_ok & Hb);
      [|by apply tx_ret_ok in Hb as [? _]].
    apply tx_bind_ok in Hb as (u2 & d3 & [_ <-]%inject_ok & [_ <-]%tx_ret_ok).
    destruct (insert_or_verify_ok ns _ d u d2 Hns (Hv m (list_elem_of_here _ _)) Hi) as (n1 & -> & Hst).
    destruct (IH (fun x Hx => Hv x (list_elem_of_further _ _ _ Hx)) _ _ E) as (n2 & -> & Hall).
    exists (n1 ++ n2). cbn [capsules set_capsules]. split; [by rewrite app_assoc|].
    intros x [->|Hx]%elem_of_cons; [|by apply Hall].
    exact (capsule_stored_mono _ n2 _ Hst).
Qed.
End step_lemmas.

Section candidate_lemmas.
Context `{Sha256, StorageCodecLaws, !Environment, !EnvironmentLaws}.

Lemma json_strings_map ss : json_strings (map JStr ss) = Some ss.
Proof. induction ss as [|s ss IH]; [done|]. cbn. by rewrite IH. Qed.
Lemma loads_strings ss : loads_string_tuple (json_dumps (JArr (map JStr ss))) = Some ss.
Proof.
  unfold loads_string_tuple. rewrite json_loads_dumps; [apply json_strings_map|].
  cbn [dumpable]. apply forallb_true_iff. by intros v (s & -> & _)%list_elem_of_fmap.
Qed.

(** The row of a committed Snapshot reads back as the Snapshot. *)
Lemma insert_snapshot_ok ns s d u d' : nonces_ok ns -> SnapshotEnvelope_valid s = true ->
  sn_state s = SNAPSHOT_COMMITTED ->
  _insert_committed_snapshot ns s d = Ok (u, d') ->
  exists row, d' = set_snapshots (snapshots d ++ [row]) d
    /\ nr_snapshot_id row = sn_snapshot_id s /\ nr_session row = session_key_hash (sn_session_key s)
    /\ nr_base row = sn_base_snapshot_id s
    /\ nr_covered_event_end row = sn_covered_event_end s
    /\ nr_source_high_water_mark row = sn_source_high_water_mark s
    /\ _snapshot_from_row (sn_session_key s) (sn_capsule_ids s) row = Ok s.
Proof.
  intros Hns Hv Hst E. unfold _insert_committed_snapshot in E.
  destruct (sn_committed_at s) as [t|] eqn:Et; [|done].
  apply tx_bind_ok in E as (e1 & d1 & [He1%codec_result_ok <-]%lift_ok & E).
  apply tx_bind_ok in E as (e2 & d1 & [He2%codec_result_ok <-]%lift_ok & E).
  apply tx_bind_ok in E as (e3 & d1 & [He3%codec_result_ok <-]%lift_ok & E).
  apply tx_bind_ok in E as (e4 & d1 & [He4%codec_result_ok <-]%lift_ok & E).
  unfold insert_snapshot in E. apply insert_row_ok in E as [_ ->].
  match goal with |- context [snapshots d ++ [?row]] => exists row end.
  cbn [nr_snapshot_id nr_session nr_base nr_covered_event_end nr_source_high_water_mark].
  split_and!; try done.
  unfold _snapshot_from_row. cbn [nr_snapshot_id nr_anchor_ids nr_rendered_context nr_audit_outcome
    nr_token_cost_envelope nr_base nr_covered_event_end nr_source_high_water_mark nr_state
    nr_created_at nr_committed_at nr_session].
  rewrite (codec_array _ _ _ _ _ _ Hns He1), (codec_text _ _ _ _ _ _ Hns He2),
    (codec_int _ _ _ _ _ _ Hns He3), (codec_object _ _ _ _ _ _ Hns He4).
  cbn [codec_result mbind result_bind]. rewrite loads_strings.
  assert (Hav : SnapshotAuditOutcome_valid (sn_audit_outcome s) = true).
  { unfold SnapshotEnvelope_valid in Hv. rewrite !andb_true_iff in Hv. tauto. }
  rewrite (audit_json_round_trip _ Hav).
  match goal with |- match construct _ ?x with _ => _ end = _ => assert (x = s) as -> end.
  { rewrite <- Hst, <- Et. by destruct s. }
  assert (construct SnapshotEnvelope_valid s = Ok s) as -> by (by apply construct_ok).
  apply raise_if_ok. split; [|done]. by apply negb_py_eq_false.
Qed.

Lemma publish_memberships_ok sid ms : forall d d',
  for_each_until (publish_membership sid) ms d = Ok (false, d') ->
  d' = set_memberships (snapshot_capsules d ++ map (membership_row sid) ms) d.
Proof.
  induction ms as [|m ms IH]; intros d d' E; cbn [for_each_until] in E.
  - apply tx_ret_ok in E as [_ <-]. cbn. rewrite app_nil_r. by destruct d.
  - apply tx_bind_ok in E as ([] & d1 & Hb & E); [by apply tx_ret_ok in E as [? _]|].
    unfold publish_membership in Hb. apply tx_bind_ok in Hb as ([u|] & d2 & Hi%catch_integrity_ok & Hb);
      [|by apply tx_ret_ok in Hb as [? _]].
    apply tx_bind_ok in Hb as (u2 & d3 & [_ <-]%inject_ok & [_ <-]%tx_ret_ok).
    unfold insert_membership in Hi. apply insert_row_ok in Hi as [_ ->].
    rewrite (IH _ _ E). cbn. by rewrite <- app_assoc.
Qed.

Lemma publish_records_ok sid ps : forall d u d',
  for_each (publish_record sid) ps d = Ok (u, d') ->
  d' = set_ledger (reorganization_records d ++ map (fun p => ledger_row sid p.1 p.2) ps) d.
Proof.
  induction ps as [|p ps IH]; intros d u d' E; cbn [for_each] in E.
  - apply tx_ret_ok in E as [_ <-]. cbn. rewrite app_nil_r. by destruct d.
  - apply tx_bind_ok in E as (u1 & d1 & Hb & E). unfold publish_record in Hb.
    apply tx_bind_ok in Hb as (u2 & d2 & Hi & [_ <-]%inject_ok).
    unfold insert_ledger in Hi. apply insert_row_ok in Hi as [_ ->].
    rewrite (IH _ _ _ E). cbn. by rewrite <- app_assoc.
Qed.

Lemma core_publish_metric ns now m : steps_by same_core (publish_metric ns now m).
Proof.
  unfold publish_metric, put_in_transaction, get_in_transaction. steps_by_tac;
    try apply core_insert_metric; apply core_delete_intents.
Qed.

(** A successful compare-and-set of the pointer of a Job's session. *)
Lemma cas_ok job s t d d' : unique_by ar_session (active_snapshots d) = true -> _cas_active_pointer job s t d = Ok (true, d') ->
  let hash := session_key_hash (job_session_key job) in
  match job_base_snapshot_id job with
  | None => (forall a, a ∈ active_snapshots d -> ar_session a <> hash)
      /\ d' = set_actives (active_snapshots d ++ [{| ar_session := hash; ar_snapshot_id := sn_snapshot_id s;
                ar_pointer_version := 1; ar_updated_at := t |}]) d
  | Some base => exists a, a ∈ active_snapshots d /\ ar_session a = hash /\ ar_snapshot_id a = base
      /\ ar_pointer_version a = job_base_pointer_version job
      /\ d' = set_actives (map (fun x => if ar_session x ==? hash
                then advance_pointer_row (sn_snapshot_id s) t x else x) (active_snapshots d)) d
  end.
Proof.
  intros Hd E hash. unfold _cas_active_pointer in E. fold hash in E.
  destruct (job_base_snapshot_id job) as [base|].
  - apply tx_bind_ok in E as (n & d1 & Hup & [Hn <-]%tx_ret_ok). apply Z.eqb_eq in Hn.
    unfold update_actives in Hup. apply update_rows_ok in Hup as (-> & _ & ->).
    destruct (List.filter _ (active_snapshots d)) as [|a l] eqn:Ef; [done|].
    assert (Ha : a ∈ a :: l) by left. rewrite <- Ef in Ha.
    apply elem_of_filter_bool in Ha as [Ha Hp]. rewrite !andb_true_iff in Hp.
    destruct Hp as [[Hs%(py_eq_leibniz (A:=string)) Hb%(py_eq_leibniz (A:=string))] Hv%Z.eqb_eq].
    exists a. split_and!; try done. f_equal. apply map_ext_in. intros x Hx%list_elem_of_In.
    destruct (ar_session x ==? hash) eqn:Ex; [|done]. apply (py_eq_leibniz (A:=string)) in Ex.
    assert (x = a) as ->.
    { unfold unique_by in Hd. apply bool_decide_eq_true in Hd.
      eapply key_unique; [exact Hd|done|done|congruence]. }
    rewrite Hb, Hv, Z.eqb_refl. cbn. by rewrite (py_eq_true_refl base).
  - apply tx_bind_ok in E as (o & d1 & [<- <-]%fetchone_ok & E).
    destruct (List.find _ (active_snapshots d)) as [a|] eqn:Ef; [by apply tx_ret_ok in E as [? _]|].
    apply tx_bind_ok in E as (u & d1 & Hi & [_ <-]%tx_ret_ok). unfold insert_active in Hi.
    apply insert_row_ok in Hi as [_ ->]. split; [|done]. intros a Ha Es.
    rewrite find_none_ext in Ef. specialize (Ef a Ha). rewrite Es, (py_eq_true_refl hash) in Ef. done.
Qed.

(** The database a winning publication leaves at its release. *)
Record Published (d : db) (job : CompactionJobEnvelope) (s : SnapshotEnvelope)
    (ms : list SnapshotCapsuleMembership) (records : list ReorganizationRecord) (now : Z)
    (d' : db) : Prop := {
  pu_sessions : sessions d' = sessions d;
  pu_events : journal_events d' = journal_events d;
  pu_jobs : compaction_jobs d' = compaction_jobs d;
  pu_capsules : exists new, capsules d' = capsules d ++ new;
  pu_stored : forall m, m ∈ ms -> capsule_stored d' (ms_capsule m);
  pu_snapshot : exists row, snapshots d' = snapshots d ++ [row]
    /\ nr_snapshot_id row = sn_snapshot_id s /\ nr_session row = session_key_hash (sn_session_key s)
    /\ nr_base row = sn_base_snapshot_id s
    /\ nr_covered_event_end row = sn_covered_event_end s
    /\ nr_source_high_water_mark row = sn_source_high_water_mark s
    /\ _snapshot_from_row (sn_session_key s) (sn_capsule_ids s) row = Ok s;
  pu_memberships : snapshot_capsules d' = snapshot_capsules d ++ map (membership_row (sn_snapshot_id s)) ms;
  pu_ledger : reorganization_records d' = reorganization_records d
    ++ map (fun p => ledger_row (sn_snapshot_id s) p.1 p.2) (enumerate records);
  pu_pointer : let hash := session_key_hash (job_session_key job) in
    match job_base_snapshot_id job with
    | None => (forall a, a ∈ active_snapshots d -> ar_session a <> hash)
        /\ active_snapshots d' = active_snapshots d ++ [{| ar_session := hash;
             ar_snapshot_id := sn_snapshot_id s; ar_pointer_version := 1; ar_updated_at := now |}]
    | Some base => exists a, a ∈ active_snapshots d /\ ar_session a = hash /\ ar_snapshot_id a = base
        /\ ar_pointer_version a = job_base_pointer_version job
        /\ active_snapshots d' = map (fun x => if ar_session x ==? hash
             then advance_pointer_row (sn_snapshot_id s) now x else x) (active_snapshots d)
    end }.

Lemma schema_publish_candidate ns job s ms records metrics now :
  steps_by schema_kept (publish_candidate ns job s ms records metrics now).
Proof.
  unfold publish_candidate.
  assert (Hc : forall m, steps_by schema_kept (publish_capsule ns m)).
  { intros m. unfold publish_capsule, _insert_or_verify_capsule. steps_by_tac; auto with ac. }
  assert (Hs : steps_by schema_kept (publish_snapshot_row ns s)).
  { unfold publish_snapshot_row, _insert_committed_snapshot. steps_by_tac; auto with ac. }
  assert (Hm : forall m, steps_by schema_kept (publish_membership (sn_snapshot_id s) m)).
  { intros m. unfold publish_membership. steps_by_tac; auto with ac. }
  assert (Hr : forall p, steps_by schema_kept (publish_record (sn_snapshot_id s) p)).
  { intros p. unfold publish_record. steps_by_tac; auto with ac. }
  assert (Ht : forall m, steps_by schema_kept (publish_metric ns now m)).
  { intros m. unfold publish_metric, put_in_transaction, get_in_transaction. steps_by_tac; auto with ac. }
  assert (Hp : steps_by schema_kept (_cas_active_pointer job s now)).
  { unfold _cas_active_pointer. steps_by_tac; auto with ac. }
  steps_by_tac; try apply steps_for_each_until; try apply steps_for_each; try exact _; auto.
Qed.

Lemma publish_candidate_ok ns job s ms records metrics now d d' : nonces_ok ns ->
  schema_ok d = true -> SnapshotEnvelope_valid s = true -> sn_state s = SNAPSHOT_COMMITTED ->
  (forall m, m ∈ ms -> ContextCapsuleEnvelope_valid (ms_capsule m) = true) ->
  publish_candidate ns job s ms records metrics now d = Ok (false, d') ->
  Published d job s ms records now d'.
Proof.
  intros Hns Hd Hv Hst Hcv E. unfold publish_candidate in E.
  apply tx_bind_ok in E as ([] & d1 & Hc & E); [by apply tx_ret_ok in E as [? _]|].
  destruct (publish_capsules_ok ns ms Hns Hcv d d1 Hc) as (new & -> & Hstored).
  apply tx_bind_ok in E as ([] & d2 & Hs & E); [by apply tx_ret_ok in E as [? _]|].
  unfold publish_snapshot_row in Hs. apply tx_bind_ok in Hs as ([u|] & d3 & Hi%catch_integrity_ok & Hs);
    [|by apply tx_ret_ok in Hs as [? _]].
  apply tx_bind_ok in Hs as (u2 & d4 & [_ <-]%inject_ok & [_ <-]%tx_ret_ok).
  destruct (insert_snapshot_ok ns s _ _ _ Hns Hv Hst Hi) as (row & -> & Hrow).
  apply tx_bind_ok in E as ([] & d3 & Hm & E); [by apply tx_ret_ok in E as [? _]|].
  apply publish_memberships_ok in Hm as ->.
  apply tx_bind_ok in E as (u3 & d3 & Hr & E). apply publish_records_ok in Hr as ->.
  apply tx_bind_ok in E as (u4 & d4 & Ht & E).
  match type of Ht with _ ?x = _ => set (d3 := x) in * end.
  assert (Hcore : same_core d3 d4).
  { destruct metrics as [metrics|]; [|by apply tx_ret_ok in Ht as [_ <-]].
    eapply steps_for_each; [exact _| |exact Ht]. intros m. apply core_publish_metric. }
  apply tx_bind_ok in E as ([] & d5 & Hp & E); apply tx_ret_ok in E as [? <-]; [|done].
  destruct Hcore as (K1 & K2 & K3 & K4 & K5 & K6 & K7 & K8).
  assert (Hu : unique_by ar_session (active_snapshots d4) = true).
  { rewrite K6. apply schema_ok_spec in Hd as (_ & _ & _ & _ & _ & Hac & _). unfold actives_ok in Hac.
    by apply andb_true_iff in Hac as [[_ Hu]%andb_true_iff _]. }
  assert (Hcas := cas_ok job s now d4 d5 Hu Hp). cbv zeta in Hcas.
  assert (Hframe : exists rows, d5 = set_actives rows d4).
  { destruct (job_base_snapshot_id job); [destruct Hcas as (a & _ & _ & _ & _ & ->)|destruct Hcas as [_ ->]];
      by eexists. }
  destruct Hframe as [rows ->].
  assert (Hst4 : forall m, m ∈ ms -> capsule_stored (set_actives rows d4) (ms_capsule m)).
  { intros m Hin. destruct (Hstored m Hin) as (crow & Hf & Hread). exists crow. split; [|done].
    cbn [capsules set_actives]. by rewrite K3. }
  split; cbn [sessions journal_events compaction_jobs capsules snapshots snapshot_capsules
    reorganization_records active_snapshots set_actives]; try done.
  - rewrite K3. by exists new.
  - exists row. by rewrite K4.
  - cbv zeta. rewrite K6 in Hcas. change (active_snapshots d3) with (active_snapshots d) in Hcas.
    destruct (job_base_snapshot_id job).
    + destruct Hcas as (a & Ha & Hah & Hab & Hav & E). exists a. split_and!; try done.
      by injection E.
    + destruct Hcas as [Hnone E]. split; [done|]. by injection E.
Qed.
End candidate_lemmas.

(** ** The terminal Job and the follow-up *)

Section terminal_lemmas.
Context `{Sha256, StorageCodecLaws, !Environment, !EnvironmentLaws}.

Lemma finish_publish_ok d r k owner epoch now o job d' : schema_ok d = true ->
  r ∈ compaction_jobs d -> fence_ok owner epoch now r = true -> jr_state r = READY_TO_COMMIT ->
  _finish_publish_job (job_envelope k r) owner epoch now o d = Ok (job, d') ->
  let f := terminal_row (outcome_state o) (if eqb_of o OUTCOME_COMMITTED then Some now else None) now in
  d' = set_jobs (replaced (jr_job_id r) f (compaction_jobs d)) d
  /\ schema_ok d' = true /\ exists k', job = job_envelope k' (f r) /\ session_key_hash k' = jr_session r.
Proof.
  intros Hd Hr Hf Hst E f. unfold _finish_publish_job in E.
  cbn [job_job_id job_candidate_snapshot_id job_envelope] in E. fold f in E.
  set (p := fun x => fenced (jr_job_id r) owner epoch now x && eqb_of (jr_state x) READY_TO_COMMIT
    && match jr_candidate r, jr_candidate x with Some c, Some c' => c' ==? c | _, _ => false end) in E.
  apply tx_bind_ok in E as (n & d1 & Hup & E).
  assert (Hd1 : schema_ok d1 = true) by (by eapply schema_update_jobs).
  apply tx_bind_ok in E as (u & d2 & [_ <-]%guard_ok & E).
  unfold update_jobs in Hup. apply update_rows_ok in Hup as (_ & _ & ->).
  assert (Hcand : is_some (jr_candidate r) = true).
  { destruct (job_rows_ok d r Hd Hr) as (Hok & _ & _). unfold job_row_ok in Hok.
    rewrite Hst in Hok. cbn in Hok. rewrite !andb_true_iff in Hok. destruct_and? Hok.
    destruct (jr_candidate r); done. }
  assert (Hp : p r = true).
  { unfold p. rewrite (fenced_fence_ok _ _ _ _ _ eq_refl Hf), Hst.
    destruct (jr_candidate r) as [c|]; [|done]. by rewrite (py_eq_true_refl c). }
  destruct (update_one d r p f Hd Hr Hp) as [Hmap _].
  { intros y Hy. unfold p in Hy. rewrite !andb_true_iff in Hy. destruct Hy as [[Hy _] _].
    by apply fenced_same_id in Hy. }
  rewrite Hmap in *. set (d2 := set_jobs (replaced (jr_job_id r) f (compaction_jobs d)) d) in *.
  apply job_by_id_ok in E as (-> & x & k' & Hx & Hxid & -> & Hk' & _).
  assert (x = f r) as ->.
  { apply (key_unique jr_job_id _ _ _ (job_ids_unique _ Hd1) Hx); [by apply replaced_self|done]. }
  split_and!; try done. by exists k'.
Qed.

(** The effect of preserving a terminal Job's intent. *)
Definition follow_up_post (d : db) (hash : string) (intent : Z) (winner : SnapshotEnvelope)
    (pointer_version now : Z) (d' : db) : Prop :=
  intent <= sn_covered_event_end winner /\ d' = d
  \/ sn_covered_event_end winner < intent
     /\ ((exists r, r ∈ compaction_jobs d /\ jr_session r = hash /\ job_nonterminal r = true
           /\ (intent <= jr_intent r /\ d' = d
               \/ jr_intent r < intent
                  /\ d' = set_jobs (replaced (jr_job_id r) (fold_row intent now) (compaction_jobs d)) d))
         \/ (exists id, (forall r, r ∈ compaction_jobs d -> jr_session r = hash -> job_nonterminal r = false)
           /\ d' = set_jobs (compaction_jobs d ++ [pending_row id hash intent
                               (Some (sn_snapshot_id winner)) pointer_version now]) d)).

Lemma preserve_follow_up_ok d job winner pv now u d' : schema_ok d = true ->
  _preserve_follow_up job winner pv now d = Ok (u, d') ->
  schema_ok d' = true
  /\ follow_up_post d (session_key_hash (job_session_key job)) (job_intent_target_high_water_mark job)
       winner pv now d'.
Proof.
  intros Hd. unfold _preserve_follow_up, follow_up_post.
  destruct (_ <=? _) eqn:Ei; bool_hyps.
  { intros [_ <-]%tx_ret_ok. split; [done|]. by left. }
  intros (o & d1 & Hn & E)%tx_bind_ok. destruct o as [r|].
  - apply nonterminal_job_some in Hn as (-> & Hr & Hs & Ht).
    destruct (jr_intent r <? _) eqn:El; bool_hyps.
    + destruct (same_intent_replaced d r (job_intent_target_high_water_mark job) now Hd Hr El) as [Hd1 Hrun].
      apply tx_bind_ok in E as (n & d2 & Hup & [_ <-]%tx_ret_ok). rewrite Hrun in Hup.
      injection Hup as _ <-. split; [done|]. right. split; [done|]. left. exists r. split_and!; try done. by right.
    + apply tx_ret_ok in E as [_ <-]. split; [done|]. right. split; [done|]. left. exists r. split_and!; try done. by left.
  - apply nonterminal_job_none in Hn as [-> Hnone].
    apply tx_bind_ok in E as (u1 & d2 & [_ <-]%guard_ok & E).
    split; [by eapply schema_insert_job|]. unfold insert_job in E. apply insert_row_ok in E as [_ ->].
    right. split; [done|]. right. by eexists.
Qed.

Lemma active_bundle_ok k d s v ms d' : _active_snapshot_bundle k d = Ok ((s, v, ms), d') ->
  d' = d /\ sn_session_key s = k
  /\ exists a row, a ∈ active_snapshots d /\ ar_session a = session_key_hash k
     /\ v = ar_pointer_version a /\ sn_snapshot_id s = ar_snapshot_id a
     /\ row ∈ snapshots d /\ nr_snapshot_id row = ar_snapshot_id a
     /\ sn_covered_event_end s = nr_covered_event_end row
     /\ _snapshot_bundle_by_id (ar_snapshot_id a) k d = Ok ((s, ms), d).
Proof.
  unfold _active_snapshot_bundle. intros (o & d1 & [<- <-]%fetchone_ok & E)%tx_bind_ok.
  destruct (List.find _ (active_snapshots d)) as [a|] eqn:Ea; [|done].
  apply find_some_elem in Ea as [Ha Hs]. apply (py_eq_leibniz (A:=string)) in Hs.
  apply tx_bind_ok in E as ([s' ms'] & d1 & Hb & E). assert (Hb' := Hb).
  apply snapshot_bundle_by_id_ok in Hb as (-> & row & Hrow & Hid & Hb).
  apply tx_bind_ok in E as (u & d1 & [Hg%negb_session_eq_false <-]%guard_ok & E).
  apply tx_ret_ok in E as [[= <- <- <-] <-]. split_and!; try done. exists a, row.
  apply snapshot_bundle_ok in Hb as (_ & _ & Hs' & _).
  apply snapshot_from_row_ok in Hs' as (_ & Hsid & _ & _ & Hc & _).
  split_and!; try done. congruence.
Qed.

(** A terminal Job changes nothing about who else holds what. *)
Lemma terminal_advance state t now r : working (jr_state r) = true ->
  job_advance r (terminal_row state t now r).
Proof. intros Hw. advance_row. Qed.

Lemma follow_up_advance d hash intent winner pv now d' : schema_ok d = true ->
  follow_up_post d hash intent winner pv now d' -> jobs_advance d d'.
Proof.
  intros Hd [[_ ->]|[_ [(r & Hr & _ & Hn & [[_ ->]|[Hi ->]])|(id & _ & ->)]]]; try done.
  - apply jobs_advance_replaced; try done. by apply fold_advance.
  - apply jobs_advance_snoc.
Qed.
End terminal_lemmas.

(** ** The transaction *)

Section transaction_lemmas.
Context `{Sha256, StorageCodecLaws, !Environment, !EnvironmentLaws}.

Definition committed_job_row (now : Z) : JobRow -> JobRow := terminal_row JOB_COMMITTED (Some now) now.
Definition superseded_job_row (now : Z) : JobRow -> JobRow := terminal_row SUPERSEDED None now.

(** A won publication: the savepoint kept, the Job COMMITTED, its intent kept. *)
Record PublishWon (d : db) (r : JobRow) (k : SessionKey) (s : SnapshotEnvelope)
    (ms : list SnapshotCapsuleMembership) (records : list ReorganizationRecord) (now : Z)
    (result : PublishResult) (d' : db) : Prop := {
  pw_job : exists k', pr_job result = job_envelope k' (committed_job_row now r)
                      /\ session_key_hash k' = jr_session r;
  pw_winner : pr_winner result = s;
  pw_version : pr_pointer_version result = jr_base_pointer_version r + 1;
  pw_database : exists dp, Published d (job_envelope k r) s ms records now dp
    /\ schema_ok dp = true
    /\ schema_ok (set_jobs (replaced (jr_job_id r) (committed_job_row now) (compaction_jobs dp)) dp) = true
    /\ follow_up_post (set_jobs (replaced (jr_job_id r) (committed_job_row now) (compaction_jobs dp)) dp)
         (jr_session r) (jr_intent r) s (jr_base_pointer_version r + 1) now d' }.

(** A lost publication: only the Job table changes. *)
Record PublishLost (d : db) (r : JobRow) (k : SessionKey) (now : Z)
    (result : PublishResult) (d' : db) : Prop := {
  pl_job : exists k', pr_job result = job_envelope k' (superseded_job_row now r)
                      /\ session_key_hash k' = jr_session r;
  pl_winner : exists a row ms, a ∈ active_snapshots d /\ ar_session a = jr_session r
    /\ pr_pointer_version result = ar_pointer_version a
    /\ row ∈ snapshots d /\ nr_snapshot_id row = ar_snapshot_id a
    /\ sn_snapshot_id (pr_winner result) = ar_snapshot_id a
    /\ sn_covered_event_end (pr_winner result) = nr_covered_event_end row
    /\ sn_session_key (pr_winner result) = k
    /\ _snapshot_bundle_by_id (ar_snapshot_id a) k d = Ok ((pr_winner result, ms), d);
  pl_schema : schema_ok (set_jobs (replaced (jr_job_id r) (superseded_job_row now) (compaction_jobs d)) d)
              = true;
  pl_database : follow_up_post
      (set_jobs (replaced (jr_job_id r) (superseded_job_row now) (compaction_jobs d)) d)
      (jr_session r) (jr_intent r) (pr_winner result) (pr_pointer_version result) now d' }.

Lemma savepoint_ok m d b d' : savepoint m d = Ok (b, d') ->
  if b then d' = d else m d = Ok (false, d').
Proof. unfold savepoint. destruct (m d) as [[[] d1]|]; [by intros [= <- <-]|by intros [= <- <-]|done]. Qed.

(** Statements that read only the snapshot and session tables ignore Jobs. *)
Lemma bundle_set_jobs rows id k d s ms d' :
  _snapshot_bundle_by_id id k (set_jobs rows d) = Ok ((s, ms), d') ->
  _snapshot_bundle_by_id id k d = Ok ((s, ms), d).
Proof.
  rewrite !bundle_by_id_iff. intros (-> & row & session & Hr & Hs & Hk & Hb). split; [done|].
  exists row, session. split_and!; try done. eapply bundle_frame; [|exact Hb]. reflexivity.
Qed.

Lemma publish_ok ns id owner epoch cand ms metrics records ceiling now d result d' : nonces_ok ns ->
  schema_ok d = true -> (forall m, m ∈ ms -> ContextCapsuleEnvelope_valid (ms_capsule m) = true) ->
  publish_snapshot ns id owner epoch cand ms metrics records ceiling now d = (Ok result, d') ->
  schema_ok d' = true /\ exists inst r k, now = Aware inst
  /\ PublishChecked d id owner epoch cand ms records ceiling inst r k
  /\ match pr_outcome result with
     | OUTCOME_COMMITTED => PublishWon d r k (committed inst cand) ms records inst result d'
     | OUTCOME_SUPERSEDED => PublishLost d r k inst result d'
     end.
Proof.
  intros Hns Hd Hcv. unfold publish_snapshot. destruct (ceiling <? 0); [by intros [=]|].
  destruct now as [|inst]; [done|]. cbn [normalize_datetime]. intros E%transaction_ok.
  apply tx_bind_ok in E as ([[job cs] recs] & d1 & Hck & E).
  destruct (publish_checks_ok _ _ _ _ _ _ _ _ _ _ _ _ _ _ Hd Hck) as (-> & -> & -> & r & k & -> & Hpc).
  apply tx_bind_ok in E as (u1 & d1 & [_ <-]%inject_ok & E).
  apply tx_bind_ok in E as (conflict & d1 & Hsp & E).
  assert (Hsd1 : schema_ok d1 = true).
  { exact (steps_savepoint schema_kept _ (schema_publish_candidate _ _ _ _ _ _ _) _ _ _ Hsp Hd). }
  apply savepoint_ok in Hsp. destruct conflict.
  - subst d1. apply tx_bind_ok in E as (sj & d2 & Hfin & E).
    destruct (finish_publish_ok d r k _ _ _ _ _ _ Hd (pc_row _ _ _ _ _ _ _ _ _ _ _ Hpc)
      (pc_fence _ _ _ _ _ _ _ _ _ _ _ Hpc) (pc_ready _ _ _ _ _ _ _ _ _ _ _ Hpc) Hfin)
      as (-> & Hd2 & k' & -> & Hk').
    apply tx_bind_ok in E as (u2 & d2 & [_ <-]%inject_ok & E).
    apply tx_bind_ok in E as ([[w pv] wms] & d2 & Hact & E).
    apply active_bundle_ok in Hact as (-> & Hwk & a & row & Ha & Has & -> & Hwid & Hrow & Hrid & Hc & Hb).
    apply tx_bind_ok in E as (u3 & d3 & Hfu & E).
    apply preserve_follow_up_ok in Hfu as [Hd3 Hfu]; [|done].
    apply tx_bind_ok in E as (u4 & d4 & [_ <-]%inject_ok & [<- <-]%tx_ret_ok).
    split; [done|]. exists inst, r, k. split_and!; try done. cbn [pr_outcome].
    cbn [job_session_key job_envelope job_intent_target_high_water_mark] in *.
    rewrite Hk' in Hfu. rewrite (pc_session _ _ _ _ _ _ _ _ _ _ _ Hpc) in Has.
    split; cbn [pr_job pr_winner pr_pointer_version].
    + by exists k'.
    + exists a, row, wms. split_and!; try done. by eapply bundle_set_jobs.
    + exact Hd2.
    + exact Hfu.
  - apply publish_candidate_ok in Hsp; try done; [|by apply (pc_valid _ _ _ _ _ _ _ _ _ _ _ Hpc)].
    apply tx_bind_ok in E as (u2 & d2 & [_ <-]%inject_ok & E).
    apply tx_bind_ok in E as (sj & d2 & Hfin & E).
    assert (Hr1 : r ∈ compaction_jobs d1).
    { rewrite (pu_jobs _ _ _ _ _ _ _ Hsp). apply (pc_row _ _ _ _ _ _ _ _ _ _ _ Hpc). }
    destruct (finish_publish_ok d1 r k _ _ _ _ _ _ Hsd1 Hr1
      (pc_fence _ _ _ _ _ _ _ _ _ _ _ Hpc) (pc_ready _ _ _ _ _ _ _ _ _ _ _ Hpc) Hfin)
      as (-> & Hd2 & k' & -> & Hk').
    apply tx_bind_ok in E as (u3 & d2 & [_ <-]%inject_ok & E).
    apply tx_bind_ok in E as (u4 & d3 & Hfu & E).
    apply preserve_follow_up_ok in Hfu as [Hd3 Hfu]; [|done].
    apply tx_bind_ok in E as (u5 & d4 & [_ <-]%inject_ok & [<- <-]%tx_ret_ok).
    split; [done|]. exists inst, r, k. split_and!; try done. cbn [pr_outcome].
    cbn [job_session_key job_envelope job_intent_target_high_water_mark job_base_pointer_version] in *.
    rewrite Hk' in Hfu. split; cbn [pr_job pr_winner pr_pointer_version]; try done.
    + by exists k'.
    + by exists d1.
Qed.
End transaction_lemmas.

(** ** The metrics of a publication *)

Section metric_lemmas.
Context `{Sha256, StorageCodecLaws, !Environment, !EnvironmentLaws}.

Definition metric_address (t : TokenMetric) : ArtifactKind * string * string :=
  (tm_artifact_kind t, tm_artifact_id t, tm_tokenizer_profile_id t).
Definition intent_answered (t : TokenMetric) (r : IntentRow) : bool :=
  eqb_of (ir_kind r, ir_artifact_id r, ir_profile_id r) (metric_address t).

(** The metrics handed in count the Snapshot and each member Capsule, each
    once, under one tokenizer profile. *)
Definition metrics_accepted (cand : SnapshotEnvelope) (ms : list SnapshotCapsuleMembership)
    (metrics : option (list TokenMetric)) : Prop :=
  match metrics with
  | None => True
  | Some l =>
      map (fun t => (tm_artifact_kind t, tm_artifact_id t)) l
        ≡ₚ map (fun m => (ARTIFACT_CAPSULE, ms_capsule_id m)) ms
           ++ [(ARTIFACT_SNAPSHOT, sn_snapshot_id cand)]
      /\ exists profile, forall t, t ∈ l -> tm_tokenizer_profile_id t = profile
  end.

(** The metric table reads each of [l] back and every other address as before;
    rows are only appended; exactly the backfill intents [l] answers are gone. *)
Record metrics_written (l : list TokenMetric) (d d' : db) : Prop := {
  mw_read : forall t, t ∈ l ->
    metric_at d' (tm_artifact_kind t) (tm_artifact_id t) (tm_tokenizer_profile_id t) = Ok (Some t);
  mw_other : forall kind i p, (kind, i, p) ∉ map metric_address l ->
    metric_at d' kind i p = metric_at d kind i p;
  mw_appended : exists rows, token_metrics d' = token_metrics d ++ rows;
  mw_intents : backfill_intents d' =
    List.filter (fun r => negb (existsb (fun t => intent_answered t r) l)) (backfill_intents d) }.

Definition same_metrics (d d' : db) : Prop :=
  token_metrics d' = token_metrics d /\ backfill_intents d' = backfill_intents d.
#[export] Instance same_metrics_preorder : PreOrder same_metrics.
Proof. split; [by split|]. intros a b c [] []. split; congruence. Qed.

Lemma same_metrics_written l d1 d1' d2 d2' : same_metrics d1 d2 -> same_metrics d1' d2' ->
  metrics_written l d1 d1' -> metrics_written l d2 d2'.
Proof.
  intros [M I] [M' I'] [H1' H2' H3' H4'].
  assert (Ha : forall kind i p, metric_at d2 kind i p = metric_at d1 kind i p)
    by (intros; apply metric_at_rows; by rewrite M).
  assert (Ha' : forall kind i p, metric_at d2' kind i p = metric_at d1' kind i p)
    by (intros; apply metric_at_rows; by rewrite M').
  split.
  - intros t Ht. rewrite Ha'. by apply H1'.
  - intros kind i p Hn. rewrite Ha, Ha'. by apply H2'.
  - by rewrite M, M'.
  - by rewrite I, I'.
Qed.

Lemma metrics_written_nil d : metrics_written [] d d.
Proof.
  split; [by intros t Ht%not_elem_of_nil|done|exists []; by rewrite app_nil_r|].
  cbn. induction (backfill_intents d) as [|r l IH]; cbn; [done|]. by rewrite <- IH.
Qed.

(** Statements on the other tables leave the metrics alone. *)
Ltac other_table := intros d u d' E; unfold insert_capsule, insert_snapshot, insert_membership, insert_ledger,
  insert_active, insert_job, update_actives, update_jobs in E;
  first [apply insert_row_ok in E as [_ ->]|apply update_rows_ok in E as (_ & _ & ->)]; by split.
Lemma metrics_insert_capsule r : steps_by same_metrics (insert_capsule r).
Proof. other_table. Qed.
Lemma metrics_insert_snapshot r : steps_by same_metrics (insert_snapshot r).
Proof. other_table. Qed.
Lemma metrics_insert_membership r : steps_by same_metrics (insert_membership r).
Proof. other_table. Qed.
Lemma metrics_insert_ledger r : steps_by same_metrics (insert_ledger r).
Proof. other_table. Qed.
Lemma metrics_insert_active r : steps_by same_metrics (insert_active r).
Proof. other_table. Qed.
Lemma metrics_insert_job r : steps_by same_metrics (insert_job r).
Proof. other_table. Qed.
Lemma metrics_update_actives p f : steps_by same_metrics (update_actives p f).
Proof. other_table. Qed.
Lemma metrics_update_jobs p f : steps_by same_metrics (update_jobs p f).
Proof. other_table. Qed.
Create HintDb metrics_frame.
#[local] Hint Resolve metrics_insert_capsule metrics_insert_snapshot metrics_insert_membership
  metrics_insert_ledger metrics_insert_active metrics_insert_job metrics_update_actives
  metrics_update_jobs : metrics_frame.

Lemma metrics_cas job s t : steps_by same_metrics (_cas_active_pointer job s t).
Proof. unfold _cas_active_pointer. steps_by_tac; auto with metrics_frame. Qed.
Lemma metrics_finish job owner epoch now o : steps_by same_metrics (_finish_publish_job job owner epoch now o).
Proof. unfold _finish_publish_job, _job_by_id, job_row_by_id, session_by_hash. steps_by_tac; auto with metrics_frame. Qed.
Lemma metrics_follow_up job winner pv now : steps_by same_metrics (_preserve_follow_up job winner pv now).
Proof. unfold _preserve_follow_up, nonterminal_job. steps_by_tac; auto with metrics_frame. Qed.
Lemma metrics_capsules ns ms : steps_by same_metrics (for_each_until (publish_capsule ns) ms).
Proof.
  apply steps_for_each_until; [exact _|]. intros m. unfold publish_capsule, _insert_or_verify_capsule.
  steps_by_tac; auto with metrics_frame.
Qed.
Lemma metrics_snapshot ns s : steps_by same_metrics (publish_snapshot_row ns s).
Proof. unfold publish_snapshot_row, _insert_committed_snapshot. steps_by_tac; auto with metrics_frame. Qed.
Lemma metrics_memberships id ms : steps_by same_metrics (for_each_until (publish_membership id) ms).
Proof.
  apply steps_for_each_until; [exact _|]. intros m. unfold publish_membership. steps_by_tac; auto with metrics_frame.
Qed.
Lemma metrics_ledger id l : steps_by same_metrics (for_each (publish_record id) l).
Proof.
  apply steps_for_each; [exact _|]. intros m. unfold publish_record. steps_by_tac; auto with metrics_frame.
Qed.

(** One metric: written or already there, and its intents deleted. *)
Lemma publish_metric_ok ns now t d u d' : nonces_ok ns -> TokenMetric_valid t = true ->
  publish_metric ns now t d = Ok (u, d') ->
  metrics_written [t] d d'
  /\ forall kind i p x, metric_at d kind i p = Ok (Some x) -> metric_at d' kind i p = Ok (Some x).
Proof.
  intros Hns Hv. unfold publish_metric.
  intros (m & d1 & Hput & (u1 & d2 & [_ ->]%execute_ok & [_ <-]%inject_ok)%tx_bind_ok)%tx_bind_ok.
  destruct (put_ok _ _ _ _ _ _ Hns Hv Hput) as (-> & Hat & Hcase).
  set (d3 := set_intents _ d1).
  assert (Hat3 : forall kind i p, metric_at d3 kind i p = metric_at d1 kind i p)
    by (intros; apply metric_at_rows; reflexivity).
  split.
  - split.
    + intros x Hx%list_elem_of_singleton. subst x. by rewrite Hat3, Hat, bool_decide_eq_true_2.
    + intros kind i p Hn. rewrite Hat3, Hat, bool_decide_eq_false_2; [done|].
      intros E. apply Hn. cbn [map]. apply list_elem_of_singleton. exact E.
    + destruct Hcase as [[_ ->]|[_ [row ->]]]; [exists []; by rewrite app_nil_r|by exists [row]].
    + unfold d3. cbn [backfill_intents set_intents]. assert (backfill_intents d1 = backfill_intents d) as ->.
      { by destruct Hcase as [[_ ->]|[_ [row ->]]]. }
      apply List.filter_ext. intros r. cbn [existsb]. rewrite orb_false_r. f_equal.
      apply eq_true_iff_eq. unfold intent_answered, metric_address, eqb_of.
      rewrite !andb_true_iff, !bool_decide_eq_true, !(py_eq_leibniz (A:=string)).
      split; [by intros [[-> ->] ->]|by intros [= -> -> ->]].
  - intros kind i p x Hx. rewrite Hat3, Hat. case_bool_decide as E; [|done]. injection E as -> -> ->.
    destruct Hcase as [[E _]|[E _]]; congruence.
Qed.

Lemma publish_metrics_written ns now l : nonces_ok ns -> Forall (fun t => TokenMetric_valid t = true) l ->
  forall d u d', for_each (publish_metric ns now) l d = Ok (u, d') ->
  metrics_written l d d'
  /\ forall kind i p x, metric_at d kind i p = Ok (Some x) -> metric_at d' kind i p = Ok (Some x).
Proof.
  intros Hns. induction 1 as [|t l Hv _ IH]; intros d u d' E; cbn [for_each] in E.
  { apply tx_ret_ok in E as [_ <-]. split; [apply metrics_written_nil|done]. }
  apply tx_bind_ok in E as (u1 & d1 & Ht & E).
  destruct (publish_metric_ok _ _ _ _ _ _ Hns Hv Ht) as [W1 K1].
  destruct (IH _ _ _ E) as [W2 K2]. split; [|by eauto]. split.
  - intros x [->|Hx]%elem_of_cons; [|by apply (mw_read _ _ _ W2)].
    apply K2, (mw_read _ _ _ W1). by left.
  - intros kind i p Hn. cbn [map] in Hn. apply not_elem_of_cons in Hn as [Hn1 Hn2].
    rewrite (mw_other _ _ _ W2 _ _ _ Hn2). apply (mw_other _ _ _ W1). cbn [map].
    by intros Hin%list_elem_of_singleton.
  - destruct (mw_appended _ _ _ W1) as [r1 E1], (mw_appended _ _ _ W2) as [r2 E2].
    exists (r1 ++ r2). by rewrite E2, E1, app_assoc.
  - rewrite (mw_intents _ _ _ W2), (mw_intents _ _ _ W1), <- filter_filter_and.
    apply List.filter_ext. intros r. cbn [existsb]. by rewrite orb_false_r, negb_orb.
Qed.

Lemma publish_candidate_metrics ns job s ms records metrics now d d' : nonces_ok ns ->
  (forall l, metrics = Some l -> Forall (fun t => TokenMetric_valid t = true) l) ->
  publish_candidate ns job s ms records metrics now d = Ok (false, d') ->
  match metrics with Some l => metrics_written l d d' | None => same_metrics d d' end.
Proof.
  intros Hns Hl. unfold publish_candidate.
  intros ([] & d1 & Hc%metrics_capsules & E)%tx_bind_ok; [by apply tx_ret_ok in E as [? _]|].
  apply tx_bind_ok in E as ([] & d2 & Hs%metrics_snapshot & E); [by apply tx_ret_ok in E as [? _]|].
  apply tx_bind_ok in E as ([] & d3 & Hm%metrics_memberships & E); [by apply tx_ret_ok in E as [? _]|].
  apply tx_bind_ok in E as (u4 & d4 & Hr%metrics_ledger & E).
  apply tx_bind_ok in E as (u5 & d5 & Ht & E).
  apply tx_bind_ok in E as (sw & d6 & Hp%metrics_cas & [_ <-]%tx_ret_ok).
  assert (Hbefore : same_metrics d d4) by (etrans; [exact Hc|]; etrans; [exact Hs|]; by etrans).
  destruct metrics as [l|].
  - apply (publish_metrics_written ns now l Hns (Hl l eq_refl)) in Ht as [Ht _].
    apply (same_metrics_written l d4 d5 d d6); [|exact Hp|exact Ht]. by destruct Hbefore.
  - apply tx_ret_ok in Ht as [_ <-]. by etrans.
Qed.

(** The ids the metrics must carry, once each. *)
Lemma metrics_accepted_ok cand ms l : _validate_candidate_memberships cand ms = Ok () ->
  _validate_candidate_metrics cand ms l = Ok () -> metrics_accepted cand ms (Some l).
Proof.
  intros (_ & _ & _ & Hnd & _)%candidate_memberships_ok. unfold _validate_candidate_metrics.
  set (expected := map _ ms ++ _). intros [Hg _]%raise_if_ok.
  apply orb_false_iff in Hg as [[Hlen Hsub]%orb_false_iff Hone].
  apply negb_false_iff in Hlen, Hsub, Hone. apply Z.eqb_eq in Hlen, Hone.
  apply andb_true_iff in Hsub as [Hsub%subset_of_spec Hsup%subset_of_spec].
  assert (Hne : NoDup expected).
  { unfold expected. apply NoDup_app. split_and!; [|intros x (m & -> & _)%list_elem_of_fmap|apply NoDup_singleton].
    - rewrite <- (map_map ms_capsule_id (fun i => (ARTIFACT_CAPSULE, i))).
      apply NoDup_fmap_2; [by intros ?? [=]|exact Hnd].
    - by intros ?%list_elem_of_singleton. }
  split.
  - cbn [metrics_accepted]. change (map (fun t => (tm_artifact_kind t, tm_artifact_id t)) l ≡ₚ expected).
    symmetry. transitivity (remove_dups expected).
    + apply NoDup_Permutation; [done|apply NoDup_remove_dups|]. intros x. by rewrite elem_of_remove_dups.
    + apply submseteq_length_Permutation.
      * apply NoDup_submseteq; [apply NoDup_remove_dups|exact Hsup].
      * unfold len in Hlen. rewrite length_map. lia.
  - destruct (remove_dups (map tm_tokenizer_profile_id l)) as [|p [|q rest]] eqn:Ep;
      [discriminate Hone| |unfold len in Hone; cbn [length] in Hone; lia].
    exists p. intros t Ht. apply list_elem_of_singleton. rewrite <- Ep, elem_of_remove_dups.
    apply list_elem_of_fmap. eauto.
Qed.

Lemma publish_checks_metrics d job_id owner epoch cand ms metrics records ceiling now checked d1 :
  publish_checks job_id owner epoch cand ms metrics records ceiling now d = Ok (checked, d1) ->
  metrics_accepted cand ms metrics.
Proof.
  unfold publish_checks. destruct metrics as [l|]; [|done].
  intros (r & d2 & _ & E)%tx_bind_ok.
  apply tx_bind_ok in E as (u1 & d3 & _ & E). apply tx_bind_ok in E as (u2 & d4 & _ & E).
  apply tx_bind_ok in E as (u3 & d5 & _ & E). apply tx_bind_ok in E as (jb & d6 & _ & E).
  apply tx_bind_ok in E as (u4 & d7 & _ & E). apply tx_bind_ok in E as ([] & d8 & [Hms _]%lift_ok & E).
  apply tx_bind_ok in E as (rs & d9 & _ & E). apply tx_bind_ok in E as ([] & d10 & [Hmet _]%lift_ok & _).
  by apply metrics_accepted_ok.
Qed.

Lemma publish_metrics_ok ns id owner epoch cand ms metrics records ceiling now d result d' : nonces_ok ns ->
  schema_ok d = true -> (forall l, metrics = Some l -> Forall (fun t => TokenMetric_valid t = true) l) ->
  publish_snapshot ns id owner epoch cand ms metrics records ceiling now d = (Ok result, d') ->
  metrics_accepted cand ms metrics
  /\ match pr_outcome result, metrics with
     | OUTCOME_COMMITTED, Some l => metrics_written l d d'
     | _, _ => same_metrics d d'
     end.
Proof.
  intros Hns Hd Hl. unfold publish_snapshot. destruct (ceiling <? 0); [by intros [=]|].
  destruct now as [|inst]; [done|]. cbn [normalize_datetime]. intros E%transaction_ok.
  apply tx_bind_ok in E as ([[job cs] recs] & d1 & Hck & E).
  assert (Hacc := publish_checks_metrics _ _ _ _ _ _ _ _ _ _ _ _ Hck). split; [done|].
  apply publish_checks_ok in Hck as (-> & _); [|done].
  apply tx_bind_ok in E as (u1 & d1 & [_ <-]%inject_ok & E).
  apply tx_bind_ok in E as (conflict & d1 & Hsp%savepoint_ok & E). destruct conflict.
  - subst d1. apply tx_bind_ok in E as (sj & d2 & Hfin%metrics_finish & E).
    apply tx_bind_ok in E as (u2 & d3 & [_ <-]%inject_ok & E).
    apply tx_bind_ok in E as ([[w pv] wms] & d3 & (-> & _)%active_bundle_ok & E).
    apply tx_bind_ok in E as (u3 & d4 & Hfu%metrics_follow_up & E).
    apply tx_bind_ok in E as (u4 & d5 & [_ <-]%inject_ok & [<- <-]%tx_ret_ok).
    cbn [pr_outcome]. by etrans.
  - apply tx_bind_ok in E as (u2 & d2 & [_ <-]%inject_ok & E).
    apply tx_bind_ok in E as (sj & d2 & Hfin%metrics_finish & E).
    apply tx_bind_ok in E as (u3 & d3 & [_ <-]%inject_ok & E).
    apply tx_bind_ok in E as (u4 & d4 & Hfu%metrics_follow_up & E).
    apply tx_bind_ok in E as (u5 & d5 & [_ <-]%inject_ok & [<- <-]%tx_ret_ok).
    cbn [pr_outcome]. assert (Ht : same_metrics d1 d4) by by etrans.
    apply publish_candidate_metrics in Hsp; [|done|done]. destruct metrics as [l|]; [|by etrans].
    by apply (same_metrics_written l d d1 d d4).
Qed.
End metric_lemmas.
