(* ===== verification/Backfill.v ===== *)
(** Deferred token metrics of [storage/repository.py]: bounded batches of
    artifacts without a metric, their compare-and-set write-back, and the
    metrics of one session's events. *)
From S2P Require Import Prelude PyString PyFloat Domain Validation PyJson Crypto Store Records.
From S2P Require Import Instances Rendering TokenMetrics Journal Jobs Views Publish.
Open Scope string_scope.
Open Scope list_scope.
Open Scope Z_scope.

Record MetricBackfillArtifact := {
  ma_artifact_kind : ArtifactKind;
  ma_artifact_id : string;
  ma_tokenizer_profile_id : string;
  ma_sort_key : Z * Z * Z * string;
  ma_text : string;
}.
Definition _MAX_METRIC_BACKFILL_BATCH : Z := 1024.

(** One row of the [missing] query. *)
Record MissingRow := { mi_rank : Z; mi_major : Z; mi_minor : Z; mi_kind : ArtifactKind; mi_id : string }.
Definition mi_key (r : MissingRow) : Z * Z * Z * string := (mi_rank r, mi_major r, mi_minor r, mi_id r).

(** [ORDER BY kind_rank, sort_major, sort_minor, artifact_id] *)
Definition missing_leb (a b : MissingRow) : bool :=
  (mi_rank a <? mi_rank b)
  || (mi_rank a =? mi_rank b)
     && ((mi_major a <? mi_major b)
         || (mi_major a =? mi_major b)
            && ((mi_minor a <? mi_minor b)
                || (mi_minor a =? mi_minor b) && str_leb (mi_id a) (mi_id b))).
Fixpoint insert_missing (r : MissingRow) (rows : list MissingRow) : list MissingRow :=
  match rows with
  | [] => [r]
  | s :: rest => if missing_leb r s then r :: rows else s :: insert_missing r rest
  end.
Definition order_missing (rows : list MissingRow) : list MissingRow := foldr insert_missing [] rows.

Section backfill.
Context `{Sha256, StorageCodec, Environment}.

Definition _require_session_identity (session_key : SessionKey) : tx unit :=
  row ← session_by_hash (session_key_hash session_key);
  match row with
  | None => throw SessionIdentityConflict
  | Some row =>
      stored ← lift (_session_key_from_storage (session_key_hash session_key) (se_canonical row));
      guard (stored !=? session_key) SessionIdentityConflict
  end.

Definition has_metric (d : db) (kind : ArtifactKind) (artifact_id profile_id : string) : bool :=
  existsb (metric_matches kind artifact_id profile_id) (token_metrics d).

Definition missing_rows (hash profile_id : string) (d : db) : list MissingRow :=
  order_missing (
    map (fun e => {| mi_rank := 0; mi_major := er_sequence e; mi_minor := 0;
                     mi_kind := ARTIFACT_EVENT; mi_id := er_event_id e |})
        (List.filter (fun e => (er_session e ==? hash)
                               && negb (has_metric d ARTIFACT_EVENT (er_event_id e) profile_id))
                     (journal_events d))
    ++ map (fun c => {| mi_rank := 1; mi_major := cr_end c; mi_minor := cr_start c;
                        mi_kind := ARTIFACT_CAPSULE; mi_id := cr_capsule_id c |})
           (List.filter (fun c => (cr_session c ==? hash)
                                  && negb (has_metric d ARTIFACT_CAPSULE (cr_capsule_id c) profile_id))
                        (capsules d))
    ++ map (fun s => {| mi_rank := 2; mi_major := nr_covered_event_end s;
                        mi_minor := nr_source_high_water_mark s;
                        mi_kind := ARTIFACT_SNAPSHOT; mi_id := nr_snapshot_id s |})
           (List.filter (fun s => (nr_session s ==? hash)
                                  && negb (has_metric d ARTIFACT_SNAPSHOT (nr_snapshot_id s) profile_id))
                        (snapshots d))).

Definition _metric_backfill_artifact (session_key : SessionKey) (profile_id : string)
    (row : MissingRow) : tx MetricBackfillArtifact :=
  let hash := session_key_hash session_key in
  text ← match mi_kind row with
    | ARTIFACT_EVENT =>
        event_row ← fetchone journal_events (fun e => (er_event_id e ==? mi_id row)
                                                      && (er_session e ==? hash));
        match event_row with
        | None => throw RepositoryInvariantError
        | Some event_row => event ← lift (_event_from_row session_key event_row);
                            mret (ev_content event)
        end
    | ARTIFACT_CAPSULE =>
        capsule_row ← fetchone capsules (fun c => (cr_capsule_id c ==? mi_id row)
                                                  && (cr_session c ==? hash));
        match capsule_row with
        | None => throw RepositoryInvariantError
        | Some capsule_row => capsule ← lift (_capsule_from_row session_key capsule_row);
                              mret (render_capsule capsule)
        end
    | ARTIFACT_SNAPSHOT =>
        b ← _snapshot_bundle_by_id (mi_id row) session_key;
        let '(snapshot, _) := b in mret (sn_rendered_context snapshot)
    end;
  mret {| ma_artifact_kind := mi_kind row; ma_artifact_id := mi_id row;
          ma_tokenizer_profile_id := profile_id; ma_sort_key := mi_key row; ma_text := text |}.

Fixpoint map_tx {A B} (f : A -> tx B) (l : list A) : tx (list B) :=
  match l with
  | [] => mret []
  | x :: rest => y ← f x; ys ← map_tx f rest; mret (y :: ys)
  end.

Definition read_metric_backfill_batch (session_key : SessionKey) (profile_id : string) (limit : Z)
    (d : db) : result repo_error (list MetricBackfillArtifact) :=
  if is_blank profile_id then Err ValueError else
  if (limit <? 1) || (_MAX_METRIC_BACKFILL_BATCH <? limit) then Err ValueError else
  read_only (
    _require_session_identity session_key;;
    rows ← select (fun d => take_z limit (missing_rows (session_key_hash session_key) profile_id d));
    map_tx (_metric_backfill_artifact session_key profile_id) rows) d.

(** The session an artifact belongs to. *)
Definition artifact_owner (kind : ArtifactKind) (artifact_id : string) : tx (option string) :=
  match kind with
  | ARTIFACT_EVENT => row ← fetchone journal_events (fun e => er_event_id e ==? artifact_id);
                      mret (er_session <$> row)
  | ARTIFACT_CAPSULE => row ← fetchone capsules (fun c => cr_capsule_id c ==? artifact_id);
                        mret (cr_session <$> row)
  | ARTIFACT_SNAPSHOT => row ← fetchone snapshots (fun s => nr_snapshot_id s ==? artifact_id);
                         mret (nr_session <$> row)
  end.

Definition write_backfill_metric (ns : Nonces) (session_key : SessionKey) (now : Z)
    (metric : TokenMetric) : tx unit :=
  owner ← artifact_owner (tm_artifact_kind metric) (tm_artifact_id metric);
  guard (owner !=? Some (session_key_hash session_key)) RepositoryInvariantError;;
  put_in_transaction ns metric now;;
  delete_intents (fun r => eqb_of (ir_kind r) (tm_artifact_kind metric)
                           && (ir_artifact_id r ==? tm_artifact_id metric)
                           && (ir_profile_id r ==? tm_tokenizer_profile_id metric));;
  inject "backfill.after_metric".

Definition write_metric_backfill_batch (ns : Nonces) (session_key : SessionKey)
    (metrics : list TokenMetric) (now : py_datetime) (d : db)
    : result repo_error (list TokenMetric) * db :=
  if _MAX_METRIC_BACKFILL_BATCH <? len metrics then (Err ValueError, d) else
  match normalize_datetime now with
  | Err e => (Err e, d)
  | Ok now => transaction (
      _require_session_identity session_key;;
      for_each (write_backfill_metric ns session_key now) metrics;;
      mret metrics) d
  end.

Fixpoint event_counts (session_key : SessionKey) (profile_id : string) (ids : list string)
    : tx (list (string * Z)) :=
  match ids with
  | [] => mret []
  | event_id :: rest =>
      owner ← artifact_owner ARTIFACT_EVENT event_id;
      guard (owner !=? Some (session_key_hash session_key)) RepositoryInvariantError;;
      metric ← get_in_transaction ARTIFACT_EVENT event_id profile_id;
      counts ← event_counts session_key profile_id rest;
      mret (match metric with Some m => (event_id, tm_token_count m) :: counts | None => counts end)
  end.

Definition read_event_token_counts (session_key : SessionKey) (event_ids : list string)
    (profile_id : string) (d : db) : result repo_error (list (string * Z)) :=
  if is_blank profile_id then Err ValueError else
  if existsb is_blank event_ids then Err ValueError else
  if negb (no_duplicates event_ids) then Err ValueError else
  read_only (
    _require_session_identity session_key;;
    event_counts session_key profile_id event_ids) d.
End backfill.
