(* ===== verification/Refusals.v ===== *)
(** Where [StaleLeaseError] comes from: the statements that never raise it, and
    the operations of a leased worker, which raise it only when the fence they
    ask for is lost. *)
From S2P Require Import Prelude PyString PyFloat Domain Validation PyJson Crypto Store Records.
From S2P Require Import TokenMetrics Journal Jobs JobProperties Views Publish PublishLemmas Backfill.
Open Scope string_scope.
Open Scope list_scope.
Open Scope Z_scope.

(** ** Statements that never raise it *)

Definition spares {A} (r : result repo_error A) : Prop := r <> Err StaleLeaseError.
Definition never_stale {A} (m : tx A) : Prop := forall d, m d <> Err StaleLeaseError.

Lemma spares_bind {A B} (r : result repo_error A) (f : A -> result repo_error B) :
  spares r -> (forall a, spares (f a)) -> spares (r ≫= f).
Proof. destruct r as [a|e]; cbn; intros Hr Hf; [apply Hf|]. unfold spares in *. congruence. Qed.
Lemma spares_map_result {A B} (f : A -> result repo_error B) l :
  (forall a, spares (f a)) -> spares (map_result f l).
Proof.
  intros Hf. induction l as [|x l IH]; cbn [map_result]; [done|].
  apply spares_bind; [apply Hf|]. intros y. by apply spares_bind.
Qed.
Lemma spares_codec {A} (r : result SecurityErrorCode A) : spares (codec_result r).
Proof. by destruct r. Qed.
Lemma spares_model {A} (r : result model_error A) : spares (model_result r).
Proof. by destruct r. Qed.

Lemma never_bind {A B} (m : tx A) (f : A -> tx B) :
  never_stale m -> (forall a, never_stale (f a)) -> never_stale (m ≫= f).
Proof.
  intros Hm Hf d. unfold mbind, tx_bind. specialize (Hm d). destruct (m d) as [[a d1]|e]; [apply Hf|]. congruence.
Qed.
Lemma never_lift {A} (r : result repo_error A) : spares r -> never_stale (lift r).
Proof. intros Hr d. unfold lift. destruct r; [done|]. unfold spares in Hr. congruence. Qed.
Lemma never_guard b e : e <> StaleLeaseError -> never_stale (guard b e).
Proof. intros He d. unfold guard. destruct b; [|done]. unfold throw. congruence. Qed.
Lemma never_throw {A} e : e <> StaleLeaseError -> never_stale (throw (A:=A) e).
Proof. intros He d. unfold throw. congruence. Qed.
Lemma never_catch {A} (m : tx A) : never_stale m -> never_stale (catch_integrity m).
Proof. intros Hm d. specialize (Hm d). unfold catch_integrity. by destruct (m d) as [[]|[]]. Qed.
Lemma never_on_integrity {A} (m : tx A) e : e <> StaleLeaseError -> never_stale m -> never_stale (on_integrity m e).
Proof. intros He Hm d. specialize (Hm d). unfold on_integrity. destruct (m d) as [[]|[]]; congruence. Qed.
Lemma never_execute {R} (get : db -> list R) set ok f : never_stale (execute get set ok f).
Proof. intros d. unfold execute. by destruct (ok _ _). Qed.
Lemma never_map {A B} (f : A -> tx B) l : (forall a, never_stale (f a)) -> never_stale (map_tx f l).
Proof.
  intros Hf. induction l as [|x l IH]; cbn [map_tx]; [done|].
  apply never_bind; [apply Hf|]. intros y. by apply never_bind.
Qed.
Lemma never_for_each {A} (f : A -> tx unit) l : (forall a, never_stale (f a)) -> never_stale (for_each f l).
Proof. intros Hf. induction l as [|x l IH]; cbn [for_each]; [done|]. by apply never_bind. Qed.
Lemma never_for_each_until {A} (f : A -> tx bool) l :
  (forall a, never_stale (f a)) -> never_stale (for_each_until f l).
Proof.
  intros Hf. induction l as [|x l IH]; cbn [for_each_until]; [done|].
  apply never_bind; [apply Hf|]. by intros [].
Qed.
Lemma never_savepoint m : never_stale m -> never_stale (savepoint m).
Proof. intros Hm d. specialize (Hm d). unfold savepoint. destruct (m d) as [[[] ?]|]; congruence. Qed.

(** Decompose a [never_stale] or [spares] goal, unfolding the operations down to their statements. *)
Ltac unfold_head t := match t with ?f _ => unfold_head f | _ => unfold t end.
Ltac never_step :=
  match goal with
  | |- spares (Ok _) => done
  | |- spares (Err _) => done
  | |- spares (mret _) => done
  | |- spares (mbind _ _) => apply spares_bind; [|intros ?]
  | |- spares (raise_if ?b _ _) => unfold raise_if at 1; destruct b
  | |- spares (codec_result _) => apply spares_codec
  | |- spares (model_result _) => apply spares_model
  | |- spares (map_result _ _) => apply spares_map_result; intros ?
  | |- never_stale (mbind _ _) => apply never_bind; [|intros ?]
  | |- never_stale (mret _) => done
  | |- never_stale (select _) => done
  | |- never_stale (fetchone _ _) => done
  | |- never_stale (throw _) => by apply never_throw
  | |- never_stale (guard _ _) => by apply never_guard
  | |- never_stale (inject _) => by apply never_guard
  | |- never_stale (lift _) => apply never_lift
  | |- never_stale (catch_integrity _) => apply never_catch
  | |- never_stale (on_integrity _ _) => apply never_on_integrity; [done|]
  | |- never_stale (execute _ _ _ _) => apply never_execute
  | |- never_stale (map_tx _ _) => apply never_map; intros ?
  | |- never_stale (for_each _ _) => apply never_for_each; intros ?
  | |- never_stale (for_each_until _ _) => apply never_for_each_until; intros ?
  | |- never_stale (savepoint _) => apply never_savepoint
  | |- never_stale (if ?b then _ else _) => destruct b
  | |- spares (if ?b then _ else _) => destruct b
  | |- never_stale (match ?x with _ => _ end) => destruct x
  | |- spares (match ?x with _ => _ end) => destruct x
  | |- never_stale ?t => unfold_head t
  | |- spares ?t => unfold_head t
  end.
Ltac never_tac := repeat never_step.

Section never.
Context `{Sha256, StorageCodec, Environment}.

Lemma never_job_by_id id : never_stale (_job_by_id id).
Proof. never_tac. Qed.
Lemma never_session_identity k : never_stale (_require_session_identity k).
Proof. never_tac. Qed.
Lemma never_bundle id k : never_stale (_snapshot_bundle_by_id id k).
Proof. never_tac. Qed.
Lemma never_events k a b : never_stale (_events_between k a b).
Proof. never_tac. Qed.
End never.

(** ** The operations of a leased worker *)

Section refusals.
Context `{Sha256, StorageCodec, Environment}.

(** [StaleLeaseError] out of a statement sequence that first asks for the fence. *)
Lemma fence_stale {A} (k : JobRow -> tx A) d id owner epoch now : schema_ok d = true ->
  (_require_live_fence id owner epoch now ≫= k) d = Err StaleLeaseError ->
  fence_lost d id owner epoch now
  \/ exists r, holds_fence d id owner epoch now r /\ k r d = Err StaleLeaseError.
Proof.
  intros Hd E. destruct (fence_lost_or_held d id owner epoch now) as [Hl|(r & Hh)]; [by left|].
  right. exists r. split; [done|]. destruct Hh as (Hr & <- & Hf).
  by rewrite (tx_bind_run _ _ _ _ _ (require_live_fence_run d r owner epoch now Hd Hr Hf)) in E.
Qed.
(** An update that hits exactly the held row. *)
Lemma update_not_stale {A} (k : tx A) d r p f : schema_ok d = true -> r ∈ compaction_jobs d ->
  p r = true -> (forall y, p y = true -> jr_job_id y = jr_job_id r) -> never_stale k ->
  (rowcount ← update_jobs p f; guard (negb (rowcount =? 1)) StaleLeaseError;; k) d <> Err StaleLeaseError.
Proof.
  intros Hd Hr Hp Hid Hk. destruct (update_one d r p f Hd Hr Hp Hid) as [_ Hcount].
  unfold update_jobs, update_rows, select, mbind, tx_bind. rewrite Hcount. unfold execute.
  match goal with |- context [jobs_ok d ?rows] => destruct (jobs_ok d rows) end; [|done]. apply Hk.
Qed.
Lemma fenced_update_not_stale d r id owner epoch now f boundary : schema_ok d = true ->
  holds_fence d id owner epoch now r -> fenced_update id owner epoch now f boundary d <> Err StaleLeaseError.
Proof.
  intros Hd (Hr & <- & Hf). unfold fenced_update. apply (update_not_stale _ d r); try done.
  - by apply fenced_fence_ok.
  - intros y. apply fenced_same_id.
  - never_tac.
Qed.

Lemma transaction_stale {A} (m : tx A) d d' :
  transaction m d = (Err StaleLeaseError, d') -> m d = Err StaleLeaseError /\ d' = d.
Proof. unfold transaction. destruct (m d) as [[a d1]|e]; [done|]. by intros [= -> ->]. Qed.
Lemma never_then {A} (m : tx unit) (k : tx A) d : never_stale m ->
  (m;; k) d = Err StaleLeaseError -> exists d1, m d = Ok ((), d1) /\ k d1 = Err StaleLeaseError.
Proof.
  intros Hm E. specialize (Hm d). unfold mbind, tx_bind in E. destruct (m d) as [[[] d1]|e]; [by exists d1|]. congruence.
Qed.

Lemma transition_stale id owner epoch to now cand d d' : schema_ok d = true ->
  transition_job id owner epoch to now cand d = (Err StaleLeaseError, d') ->
  d' = d /\ exists t, now = Aware t /\ fence_lost d id owner epoch t.
Proof.
  intros Hd E. unfold transition_job in E. destruct now as [|t]; [done|]. cbn [normalize_datetime] in E.
  apply transaction_stale in E as [E ->]. split; [done|]. exists t. split; [done|].
  apply fence_stale in E as [?|(r & Hh & E)]; [done| |done].
  apply never_then in E as (d1 & E1 & E); [|never_tac]. apply guard_ok in E1 as [_ <-].
  apply never_then in E as (d1 & E1 & E); [|never_tac].
  assert (d1 = d) as ->. { destruct (eqb_of to READY_TO_COMMIT); by apply guard_ok in E1 as [_ <-]. }
  by apply (fenced_update_not_stale d r) in E.
Qed.
Lemma renew_stale id owner epoch now lease d d' : schema_ok d = true ->
  renew_job_lease id owner epoch now lease d = (Err StaleLeaseError, d') ->
  d' = d /\ exists t, now = Aware t /\ fence_lost d id owner epoch t.
Proof.
  intros Hd E. unfold renew_job_lease in E. destruct now as [|t]; [done|].
  destruct lease as [|lease]; [done|]. cbn [normalize_datetime] in E. destruct (_ <=? _); [done|].
  apply transaction_stale in E as [E ->]. split; [done|]. exists t. split; [done|].
  apply fence_stale in E as [?|(r & Hh & E)]; [done| |done].
  apply never_then in E as (d1 & E1 & E); [|never_tac]. apply guard_ok in E1 as [_ <-].
  by apply (fenced_update_not_stale d r) in E.
Qed.
Lemma fail_stale id owner epoch now s c m retry_at preserve d d' : schema_ok d = true ->
  fail_job id owner epoch now s c m retry_at preserve d = (Err StaleLeaseError, d') ->
  d' = d /\ exists t, now = Aware t /\ fence_lost d id owner epoch t.
Proof.
  intros Hd E. unfold fail_job in E. destruct (fail_arguments_bad _ _ _ _ _); [done|].
  destruct now as [|t]; [done|]. cbn [normalize_datetime] in E.
  match type of E with match ?x with _ => _ end = _ => assert (spares x) as Hx by never_tac; destruct x as [[next rt]|e] end.
  - apply transaction_stale in E as [E ->]. split; [done|]. exists t. split; [done|].
    apply fence_stale in E as [?|(r & Hh & E)]; [done| |done]. by apply (fenced_update_not_stale d r) in E.
  - injection E as ->. by destruct Hx.
Qed.
Lemma view_stale id owner epoch now d : schema_ok d = true ->
  read_compaction_view id owner epoch now d = Err StaleLeaseError ->
  exists t, now = Aware t /\ fence_lost d id owner epoch t.
Proof.
  intros Hd E. unfold read_compaction_view in E. destruct now as [|t]; [done|].
  cbn [normalize_datetime mbind result_bind] in E. exists t. split; [done|].
  unfold read_only in E. match type of E with match ?x with _ => _ end = _ => destruct x as [[v d1]|e] eqn:Em; [done|] end.
  injection E as ->. apply fence_stale in Em as [?|(r & Hh & E)]; [done| |done].
  exfalso. revert E. match goal with |- ?m _ = _ -> _ => assert (never_stale m) as Hm by never_tac end. apply Hm.
Qed.
End refusals.

Section publish_refusals.
Context `{Sha256, StorageCodecLaws, !Environment, !EnvironmentLaws}.

Lemma bind_stale {A B} (m : tx A) (k : A -> tx B) d : (m ≫= k) d = Err StaleLeaseError ->
  m d = Err StaleLeaseError \/ exists a d1, m d = Ok (a, d1) /\ k a d1 = Err StaleLeaseError.
Proof.
  unfold mbind, tx_bind. destruct (m d) as [[a d1]|e]; intros E; [right; by exists a, d1|left; congruence].
Qed.
Lemma checks_stale id owner epoch cand ms metrics records ceiling now d : schema_ok d = true ->
  publish_checks id owner epoch cand ms metrics records ceiling now d = Err StaleLeaseError ->
  fence_lost d id owner epoch now.
Proof.
  intros Hd E. apply fence_stale in E as [?|(r & _ & E)]; [done| |done]. exfalso. revert E.
  match goal with |- ?m _ = _ -> _ => assert (never_stale m) as Hm end; [|apply Hm].
  unfold _validate_candidate_memberships, _validate_candidate_metrics, validate_permanent. never_tac.
Qed.
Lemma finish_stale d r k owner epoch now o : schema_ok d = true ->
  r ∈ compaction_jobs d -> fence_ok owner epoch now r = true -> jr_state r = READY_TO_COMMIT ->
  _finish_publish_job (job_envelope k r) owner epoch now o d <> Err StaleLeaseError.
Proof.
  intros Hd Hr Hf Hst. unfold _finish_publish_job. cbn [job_job_id job_candidate_snapshot_id job_envelope].
  apply (update_not_stale _ d r); try done; [|intros y Hy|never_tac].
  - destruct (job_rows_ok d r Hd Hr) as (Hok & _ & _). unfold job_row_ok in Hok. rewrite Hst in *. cbn in Hok.
    rewrite !andb_true_iff in Hok. destruct_and? Hok.
    rewrite (fenced_fence_ok _ _ _ _ _ eq_refl Hf). destruct (jr_candidate r) as [c|]; [|done].
    by rewrite (py_eq_true_refl c).
  - rewrite !andb_true_iff in Hy. destruct Hy as [[Hy _] _]. by apply fenced_same_id in Hy.
Qed.
Lemma publish_stale ns id owner epoch cand ms metrics records ceiling now d d' : nonces_ok ns ->
  schema_ok d = true -> (forall m, m ∈ ms -> ContextCapsuleEnvelope_valid (ms_capsule m) = true) ->
  publish_snapshot ns id owner epoch cand ms metrics records ceiling now d = (Err StaleLeaseError, d') ->
  d' = d /\ exists t, now = Aware t /\ fence_lost d id owner epoch t.
Proof.
  intros Hns Hd Hcv E. unfold publish_snapshot in E. destruct (_ <? _); [done|]. destruct now as [|t]; [done|].
  cbn [normalize_datetime] in E. apply transaction_stale in E as [E ->]. split; [done|]. exists t. split; [done|].
  apply bind_stale in E as [E|([[job cs] recs] & d1 & Hck & E)]; [by eapply checks_stale|]. exfalso.
  destruct (publish_checks_ok _ _ _ _ _ _ _ _ _ _ _ _ _ _ Hd Hck) as (-> & -> & -> & r & k & -> & Hpc).
  pose proof (pc_fence _ _ _ _ _ _ _ _ _ _ _ Hpc) as Hf. pose proof (pc_ready _ _ _ _ _ _ _ _ _ _ _ Hpc) as Hst.
  pose proof (pc_row _ _ _ _ _ _ _ _ _ _ _ Hpc) as Hr.
  apply never_then in E as (d1 & [_ <-]%inject_ok & E); [|never_tac].
  apply bind_stale in E as [E|(conflict & d1 & Hsp & E)].
  { revert E. match goal with |- ?m _ = _ -> _ => assert (never_stale m) as Hm by never_tac end. apply Hm. }
  assert (Hsd1 : schema_ok d1 = true).
  { exact (steps_savepoint schema_kept _ (schema_publish_candidate _ _ _ _ _ _ _) _ _ _ Hsp Hd). }
  apply savepoint_ok in Hsp. destruct conflict.
  - subst d1. apply bind_stale in E as [E|(sj & d2 & _ & E)]; [by eapply finish_stale|].
    revert E. match goal with |- ?m _ = _ -> _ => assert (never_stale m) as Hm by never_tac end. apply Hm.
  - apply publish_candidate_ok in Hsp; try done; [|by apply (pc_valid _ _ _ _ _ _ _ _ _ _ _ Hpc)].
    apply never_then in E as (d2 & [_ <-]%inject_ok & E); [|never_tac].
    rewrite <- (pu_jobs _ _ _ _ _ _ _ Hsp) in Hr.
    apply bind_stale in E as [E|(sj & d2 & _ & E)]; [by eapply finish_stale|].
    revert E. match goal with |- ?m _ = _ -> _ => assert (never_stale m) as Hm by never_tac end. apply Hm.
Qed.

(** The other calls of a worker ask for no fence. *)
Lemma read_only_not_stale {A} (m : tx A) d : never_stale m -> read_only m d <> Err StaleLeaseError.
Proof. intros Hm. specialize (Hm d). unfold read_only. destruct (m d) as [[a d1]|e]; congruence. Qed.
Lemma counts_not_stale k ids profile d : read_event_token_counts k ids profile d <> Err StaleLeaseError.
Proof.
  unfold read_event_token_counts. destruct (is_blank profile); [done|].
  destruct (existsb is_blank ids); [done|]. destruct (negb (no_duplicates ids)); [done|].
  apply read_only_not_stale, never_bind; [never_tac|]. intros _.
  induction ids as [|i ids IH]; cbn [event_counts]; [done|].
  apply never_bind; [never_tac|]. intros o. apply never_bind; [never_tac|]. intros _.
  apply never_bind; [never_tac|]. intros m. apply never_bind; [exact IH|]. done.
Qed.
Lemma batch_not_stale k profile limit d : read_metric_backfill_batch k profile limit d <> Err StaleLeaseError.
Proof.
  unfold read_metric_backfill_batch. destruct (is_blank profile); [done|]. destruct ((limit <? 1) || _); [done|].
  apply read_only_not_stale. never_tac.
Qed.
Lemma backfill_not_stale ns k metrics now d d' :
  write_metric_backfill_batch ns k metrics now d <> (Err StaleLeaseError, d').
Proof.
  unfold write_metric_backfill_batch. destruct (_ <? _); [done|]. destruct now as [|t]; [done|].
  cbn [normalize_datetime]. intros [E _]%transaction_stale. revert E.
  match goal with |- ?m _ = _ -> _ => assert (never_stale m) as Hm by never_tac end. apply Hm.
Qed.
End publish_refusals.
