(* ===== verification/Budget.v ===== *)
(** Request-side assembly, [runtime/budget.py]: the canonical candidate order,
    budget selection in both modes, exact final selection, and the trace.  The
    tokenizer is a parameter: any function of the text. *)
From S2P Require Import Prelude PyString PyFloat Domain Records Views Runtime Closure.
Open Scope list_scope.
Open Scope Z_scope.

(** What [counter.count_text(text)] did: returned an integer or something else,
    raised a tokenizer error (which passes through) or another exception. *)
Inductive counter_outcome := Counted (n : Z) | NotAnInteger | RaisedTokenizerError | RaisedOther.
Definition TokenCounter := string -> counter_outcome.

Inductive budget_error := BudgetInvariantError (code : BudgetErrorCode) | TokenizerFailed | GroupingFailed | BudgetOutOfFuel
| RunnerOverflowError.              (* an [OverflowError] that leaves the runner of a request *)

(** [Utf8ByteTokenCounter.count_text]; a lone surrogate is a [UnicodeEncodeError]. *)
Definition Utf8ByteTokenCounter : TokenCounter := fun text => if utf8_valid text then Counted (utf8_length text) else RaisedOther.

Definition _non_negative_cost (value : Z) (code : BudgetErrorCode) : result budget_error Z :=
  raise (BudgetInvariantError code) when value <? 0;; Ok value.
Definition _count_text (counter : TokenCounter) (text : string) : result budget_error Z :=
  match counter text with
  | Counted value => _non_negative_cost value TOKEN_COUNTER_INVALID
  | NotAnInteger => Err (BudgetInvariantError TOKEN_COUNTER_INVALID)
  | RaisedTokenizerError => Err TokenizerFailed
  | RaisedOther => Err (BudgetInvariantError TOKEN_COUNTER_FAILURE)
  end.

(** ** The canonical order *)

(** [sorted(l, key=...)] with [lt x y] for [key(x) < key(y)]: stable. *)
Fixpoint insert_sorted {A} (lt : A -> A -> bool) (x : A) (l : list A) : list A :=
  match l with
  | [] => [x]
  | y :: rest => if lt y x then y :: insert_sorted lt x rest else x :: l
  end.
Definition py_sorted {A} (lt : A -> A -> bool) (l : list A) : list A := foldr (insert_sorted lt) [] l.

(** Tuple comparison: the first component that differs decides. *)
Definition then_lt {A} `{PyEq A} (lt : A -> A -> bool) (a b : A) (rest : bool) : bool :=
  if a ==? b then rest else lt a b.
Fixpoint strings_lt (a b : list string) : bool :=
  match a, b with
  | _, [] => false
  | [], _ :: _ => true
  | x :: a, y :: b => then_lt str_ltb x y (strings_lt a b)
  end.
Definition bool_lt (a b : bool) : bool := negb a && b.

Definition raw_slot (slot : RuntimeSlot) : bool :=
  match slot with RAW_DELTA | RECENT_RAW => true | _ => false end.
Definition raw_order (c : CandidateBlock) : Z :=
  if raw_slot (cb_slot c) then default 0 (cb_event_sequence c) else 0.
Definition score_order (c : CandidateBlock) : float :=
  if raw_slot (cb_slot c) then f_zero else f_neg (cb_score c).
(** [_candidate_sort_key(a) < _candidate_sort_key(b)] *)
Definition candidate_lt (a b : CandidateBlock) : bool :=
  then_lt Z.ltb (_SLOT_RANK (cb_slot a)) (_SLOT_RANK (cb_slot b))
  (then_lt Z.ltb (raw_order a) (raw_order b)
  (then_lt f_lt (score_order a) (score_order b)
  (then_lt str_ltb (cb_block_id a) (cb_block_id b)
  (then_lt str_ltb (kind_value (cb_kind a)) (kind_value (cb_kind b))
  (then_lt str_ltb (cb_text a) (cb_text b)
  (then_lt strings_lt (cb_source_event_ids a) (cb_source_event_ids b)
  (then_lt str_ltb (cb_reason a) (cb_reason b)
  (then_lt bool_lt (cb_required a) (cb_required b)
  (str_ltb (default "" (cb_capsule_id a)) (default "" (cb_capsule_id b))))))))))).
Definition _ordered (candidates : list CandidateBlock) : list CandidateBlock := py_sorted candidate_lt candidates.

Fixpoint split_unique (seen : gset string) (l : list CandidateBlock) : list CandidateBlock * list CandidateBlock :=
  match l with
  | [] => ([], [])
  | c :: l =>
      if bool_decide (cb_block_id c ∈ seen) then
        let '(unique, duplicates) := split_unique seen l in (unique, c :: duplicates)
      else
        let '(unique, duplicates) := split_unique ({[cb_block_id c]} ∪ seen) l in (c :: unique, duplicates)
  end.
Definition _deduplicate (candidates : list CandidateBlock) : list CandidateBlock * list CandidateBlock :=
  split_unique ∅ (_ordered candidates).
Definition canonical_candidates (candidates : list CandidateBlock) : list CandidateBlock :=
  (_deduplicate candidates).1.
Definition _projection_text (candidates : list CandidateBlock) : string :=
  py_join blank_line (map cb_text candidates).

(** ** Token counts *)

Definition Counts := gmap string Z.
Fixpoint count_blocks_into (counter : TokenCounter) (candidates : list CandidateBlock) (counts : Counts)
    : result budget_error Counts :=
  match candidates with
  | [] => Ok counts
  | c :: candidates =>
      raise (BudgetInvariantError INTERNAL_BUDGET_INVARIANT) when is_some (counts !! cb_block_id c);;
      n ← _count_text counter (cb_text c);
      count_blocks_into counter candidates (<[cb_block_id c := n]> counts)
  end.
Definition count_candidate_blocks (candidates : list CandidateBlock) (counter : TokenCounter) : result budget_error Counts :=
  count_blocks_into counter candidates ∅.
Fixpoint take_provided (provided : Counts) (candidates : list CandidateBlock) (counts : Counts) : result budget_error Counts :=
  match candidates with
  | [] => Ok counts
  | c :: candidates =>
      match provided !! cb_block_id c with
      | None => Err (BudgetInvariantError TOKEN_COUNTER_INVALID)
      | Some value =>
          n ← _non_negative_cost value TOKEN_COUNTER_INVALID;
          take_provided provided candidates (<[cb_block_id c := n]> counts)
      end
  end.
Definition _validated_block_token_counts (candidates : list CandidateBlock) (counter : TokenCounter)
    (provided : option Counts) : result budget_error Counts :=
  match provided with
  | None => count_candidate_blocks candidates counter
  | Some provided => take_provided provided candidates ∅
  end.

(** ** Selection *)

(** [block_token_counts[id]]; every candidate has an entry ([validated_counts]). *)
Definition count_of (counts : Counts) (c : CandidateBlock) : Z := default 0 (counts !! cb_block_id c).
Definition _rejection (counts : Counts) (reason : string) (c : CandidateBlock) : BlockTrace :=
  {| bt_block_id := cb_block_id c; bt_slot := cb_slot c; bt_source_event_ids := cb_source_event_ids c;
     bt_token_cost := count_of counts c; bt_score := cb_score c; bt_reason := reason |}.
(** [group_by_id.get(candidate.block_id, (candidate,))] *)
Definition group_by_id (groups : list (list CandidateBlock)) (c : CandidateBlock) : list CandidateBlock :=
  default [c] (List.find (fun group => existsb (fun item => cb_block_id item ==? cb_block_id c) group) groups).

(** The variables both selections share. *)
Record Selecting := {
  sl_selected_ids : gset string; sl_cost : Z; sl_count : Z;
  sl_rejected : list BlockTrace; sl_handled_ids : gset string; sl_required_missing : bool;
}.
Definition selecting_start : Selecting :=
  {| sl_selected_ids := ∅; sl_cost := 0; sl_count := 0; sl_rejected := []; sl_handled_ids := ∅;
     sl_required_missing := false |}.

Section selection.
Variables (counts : Counts) (separator_cost b_ac : Z).

Definition additional_cost (selected_count : Z) (group : list CandidateBlock) : Z :=
  sumZ (count_of counts) group + separator_cost * (len group - 1)
  + (if selected_count =? 0 then 0 else separator_cost).
Definition fits (s : Selecting) (group : list CandidateBlock) : bool :=
  sl_cost s + additional_cost (sl_count s) group <=? b_ac.
Definition accept (s : Selecting) (group : list CandidateBlock) : Selecting :=
  {| sl_selected_ids := ids_of group ∪ sl_selected_ids s;
     sl_cost := sl_cost s + additional_cost (sl_count s) group; sl_count := sl_count s + len group;
     sl_rejected := sl_rejected s; sl_handled_ids := ids_of group ∪ sl_handled_ids s;
     sl_required_missing := sl_required_missing s |}.
Definition refuse (s : Selecting) (group : list CandidateBlock) (reason : string) : Selecting :=
  {| sl_selected_ids := sl_selected_ids s; sl_cost := sl_cost s; sl_count := sl_count s;
     sl_rejected := sl_rejected s ++ map (_rejection counts reason) group;
     sl_handled_ids := ids_of group ∪ sl_handled_ids s;
     sl_required_missing := sl_required_missing s || existsb cb_required group |}.
Definition handled (s : Selecting) (c : CandidateBlock) : bool := bool_decide (cb_block_id c ∈ sl_handled_ids s).
Definition selected_of (candidates : list CandidateBlock) (s : Selecting) : list CandidateBlock :=
  List.filter (fun item => bool_decide (cb_block_id item ∈ sl_selected_ids s)) candidates.

Section groups.
Variable groups : list (list CandidateBlock).

Definition normal_step (s : Selecting) (candidate : CandidateBlock) : Selecting :=
  if handled s candidate then s else
  let group := group_by_id groups candidate in
  if fits s group then accept s group else refuse s group "INSUFFICIENT_AC_BUDGET".
Definition normal_run (candidates : list CandidateBlock) : Selecting := foldl normal_step selecting_start candidates.

(** One dependency group of the emergency mode. *)
Definition emergency_group (s : Selecting) (group : list CandidateBlock) : Selecting :=
  if negb (existsb cb_required group) then refuse s group "EMERGENCY_OPTIONAL_OMITTED"
  else if fits s group then accept s group
  else refuse s group "EMERGENCY_REQUIRED_NOT_FIT".
Definition emergency_step (s : Selecting) (candidate : CandidateBlock) : Selecting :=
  if handled s candidate then s else emergency_group s (group_by_id groups candidate).

(** The groups of more than one block met in a raw slot, each once. *)
Fixpoint atomic_groups (atomic_group_ids : gset string) (candidates : list CandidateBlock)
    : list (list CandidateBlock) :=
  match candidates with
  | [] => []
  | c :: candidates =>
      let group := group_by_id groups c in
      if (len group =? 1) || bool_decide (cb_block_id c ∈ atomic_group_ids)
      then atomic_groups atomic_group_ids candidates
      else group :: atomic_groups (ids_of group ∪ atomic_group_ids) candidates
  end.

Fixpoint contiguous_from (current : CandidateBlock) (earlier : list CandidateBlock) : list CandidateBlock :=
  match earlier with
  | [] => [current]
  | previous :: earlier =>
      match cb_event_sequence previous, cb_event_sequence current with
      | Some p, Some c =>
          if negb (p + len (cb_source_event_ids previous) =? c) then [current]
          else contiguous_from previous earlier ++ [current]
      | _, _ => [current]
      end
  end.
Definition _contiguous_raw_tail (candidates : list CandidateBlock) : list CandidateBlock :=
  match rev (List.filter (fun c => is_some (cb_event_sequence c)) candidates) with
  | [] => []
  | last :: earlier => contiguous_from last earlier
  end.
(** The longest suffix of the raw tail that fits beside the [critical] blocks. *)
Fixpoint _longest_raw_suffix (critical raw_tail : list CandidateBlock) : list CandidateBlock :=
  let total_count := len critical + len raw_tail in
  let estimated := sumZ (count_of counts) critical + sumZ (count_of counts) raw_tail
                   + (if total_count =? 0 then 0 else separator_cost * (total_count - 1)) in
  if estimated <=? b_ac then raw_tail
  else match raw_tail with [] => [] | _ :: rest => _longest_raw_suffix critical rest end.

Definition emergency_raw_slot (candidates slot_candidates : list CandidateBlock) (s : Selecting) : Selecting :=
  let s := foldl emergency_group s (atomic_groups ∅ slot_candidates) in
  let slot_candidates := List.filter (fun c => negb (handled s c)) slot_candidates in
  let selected_raw := _longest_raw_suffix (selected_of candidates s) (_contiguous_raw_tail slot_candidates) in
  let s := foldl (fun s c => accept s [c]) s selected_raw in
  foldl (fun s c => if bool_decide (cb_block_id c ∈ ids_of selected_raw) then s
                    else refuse s [c] "EMERGENCY_RAW_PREFIX_OMITTED") s slot_candidates.
Definition emergency_slot (candidates : list CandidateBlock) (s : Selecting) (slot : RuntimeSlot) : Selecting :=
  let slot_candidates := List.filter (fun c => eqb_of (cb_slot c) slot && negb (handled s c)) candidates in
  if raw_slot slot then emergency_raw_slot candidates slot_candidates s
  else foldl emergency_step s slot_candidates.
Definition emergency_run (candidates : list CandidateBlock) : Selecting :=
  foldl (emergency_slot candidates) selecting_start RUNTIME_SLOT_PRIORITY.
End groups.
End selection.

(** ** Exact final selection *)

Definition lift_groups (r : result ClosureError (list (list CandidateBlock))) : result budget_error (list (list CandidateBlock)) :=
  match r with Ok groups => Ok groups | Err _ => Err GroupingFailed end.
Fixpoint position_of (i : Z) (selected : list CandidateBlock) (id : string) : Z :=
  match selected with
  | [] => i
  | c :: selected => if cb_block_id c ==? id then i else position_of (i + 1) selected id
  end.
(** [min(positions[item.block_id] for item in group)] *)
Definition group_position (selected group : list CandidateBlock) : Z :=
  match map (fun item => position_of 0 selected (cb_block_id item)) group with
  | [] => 0
  | p :: rest => foldl Z.min p rest
  end.
Definition group_lt (selected a b : list CandidateBlock) : bool :=
  then_lt Z.ltb (group_position selected a) (group_position selected b) (strings_lt (block_ids a) (block_ids b)).
(** [max(groups, key=...)]: the first of the greatest. *)
Definition _lowest_priority_optional_group (selected : list CandidateBlock)
    : result budget_error (option (list CandidateBlock)) :=
  groups ← lift_groups (removable_dependency_groups selected);
  match groups with
  | [] => Ok None
  | g :: rest => Ok (Some (foldl (fun best group => if group_lt selected best group then group else best) g rest))
  end.
Definition remove_group (selected group : list CandidateBlock) : list CandidateBlock :=
  List.filter (fun item => negb (bool_decide (cb_block_id item ∈ ids_of group))) selected.
Fixpoint exact_loop (fuel : nat) (counter : TokenCounter) (counts : Counts) (b_ac : Z)
    (selected : list CandidateBlock) (removed : list BlockTrace)
    : result budget_error (list CandidateBlock * string * Z * list BlockTrace) :=
  match fuel with
  | O => Err BudgetOutOfFuel
  | S fuel =>
      let projected_text := _projection_text selected in
      exact_cost ← _count_text counter projected_text;
      if exact_cost <=? b_ac then Ok (selected, projected_text, exact_cost, removed) else
      group ← _lowest_priority_optional_group selected;
      match group with
      | None => Err (BudgetInvariantError REQUIRED_INPUT_EXCEEDS_BUDGET)
      | Some group =>
          exact_loop fuel counter counts b_ac (remove_group selected group)
            (removed ++ map (_rejection counts "EXACT_BUDGET_COMPONENT_REMOVED") group)
      end
  end.
(** Every removal drops a block, so one more step than there are blocks. *)
Definition _exact_final_selection (selected : list CandidateBlock) (counter : TokenCounter) (counts : Counts) (b_ac : Z) :=
  exact_loop (S (length selected)) counter counts b_ac selected [].

(** ** The trace *)

Definition rejection_lt (a b : BlockTrace) : bool :=
  then_lt Z.ltb (_SLOT_RANK (bt_slot a)) (_SLOT_RANK (bt_slot b))
  (then_lt str_ltb (bt_block_id a) (bt_block_id b)
  (then_lt str_ltb (bt_reason a) (bt_reason b)
  (f_lt (f_neg (bt_score a)) (f_neg (bt_score b))))).
(** The arithmetic of one request: what the trace reports besides the blocks. *)
Record Arithmetic := {
  ba_b_input : Z; ba_current_input_cost : Z; ba_fixed_required_cost : Z; ba_safety_margin : Z;
  ba_b_required : Z; ba_opaque_token_cost : Z; ba_b_ac : Z;
}.
Definition _trace (view : RequestView) (selected : list CandidateBlock) (rejections : list BlockTrace)
    (mode : AssemblyMode) (counts : Counts) (exact_projection_cost : Z) (n : Arithmetic)
    : result budget_error AssemblyTrace :=
  let selections := map (_rejection counts
    (match mode with NORMAL => "SELECTED_NORMAL" | EMERGENCY_ASSEMBLY => "SELECTED_EMERGENCY" end)) selected in
  let slot_cost slot := sumZ bt_token_cost (List.filter (fun item => eqb_of (bt_slot item) slot) selections) in
  let slot_costs := List.filter (fun p => negb (p.2 =? 0)) (map (fun slot => (slot, slot_cost slot)) RUNTIME_SLOT_PRIORITY) in
  let total_input_cost := ba_opaque_token_cost n + ba_b_required n + exact_projection_cost in
  raise (BudgetInvariantError INTERNAL_BUDGET_INVARIANT) when ba_b_input n <? total_input_cost;;
  Ok {| at_mode := mode; at_snapshot_id := sn_snapshot_id <$> rv_snapshot view;
        at_pointer_version := rv_pointer_version view; at_covered_event_end := rv_covered_event_end view;
        at_high_water_mark := rv_high_water_mark view; at_b_input := ba_b_input n;
        at_current_input_cost := ba_current_input_cost n; at_fixed_required_cost := ba_fixed_required_cost n;
        at_safety_margin := ba_safety_margin n; at_b_required := ba_b_required n;
        at_opaque_token_cost := ba_opaque_token_cost n; at_b_ac := ba_b_ac n;
        at_ac_selected_cost := exact_projection_cost;
        at_projection_overhead_cost := exact_projection_cost - sumZ bt_token_cost selections;
        at_total_input_cost := total_input_cost; at_slot_token_costs := slot_costs;
        at_selections := selections; at_rejections := py_sorted rejection_lt rejections |}.

(** ** Assembly *)

Definition duplicate_rejection (counter : TokenCounter) (c : CandidateBlock) : result budget_error BlockTrace :=
  n ← _count_text counter (cb_text c);
  Ok {| bt_block_id := cb_block_id c; bt_slot := cb_slot c; bt_source_event_ids := cb_source_event_ids c;
        bt_token_cost := n; bt_score := cb_score c; bt_reason := "DUPLICATE_BLOCK_ID" |}.

(** Mode, selection and its rejections. *)
Definition select_blocks (counts : Counts) (separator_cost b_ac : Z) (unique : list CandidateBlock)
    : result budget_error (AssemblyMode * list CandidateBlock * list BlockTrace) :=
  groups ← lift_groups (dependency_groups unique);
  let normal := normal_run counts separator_cost b_ac groups unique in
  if sl_required_missing normal then
    let emergency := emergency_run counts separator_cost b_ac groups unique in
    Ok (EMERGENCY_ASSEMBLY, selected_of unique emergency, sl_rejected emergency)
  else Ok (NORMAL, selected_of unique normal, sl_rejected normal).

Definition budget_arithmetic (opaque_cost fixed_cost current_input_cost : Z) (config : BudgetConfig)
    : result budget_error Arithmetic :=
  let b_input := Z.min (bc_target_input_budget config)
    (Z.min (bc_hard_input_ceiling config) (bc_model_context_limit config - bc_reserved_output_and_tools config)) in
  let b_required := current_input_cost + fixed_cost + bc_safety_margin config in
  let b_ac := Z.max 0 (b_input - opaque_cost - b_required) in
  raise (BudgetInvariantError REQUIRED_INPUT_EXCEEDS_BUDGET) when b_input <? opaque_cost + b_required;;
  Ok {| ba_b_input := b_input; ba_current_input_cost := current_input_cost; ba_fixed_required_cost := fixed_cost;
        ba_safety_margin := bc_safety_margin config; ba_b_required := b_required;
        ba_opaque_token_cost := opaque_cost; ba_b_ac := b_ac |}.

Definition assemble (view : RequestView) (candidates : list CandidateBlock) (current_input : string)
    (opaque_token_cost fixed_required_cost : Z) (counter : TokenCounter) (config : BudgetConfig)
    (block_token_counts : option Counts) : result budget_error AssemblyResult :=
  opaque_cost ← _non_negative_cost opaque_token_cost OPAQUE_TOKEN_COST_INVALID;
  fixed_cost ← _non_negative_cost fixed_required_cost FIXED_REQUIRED_COST_INVALID;
  current_input_cost ← _count_text counter current_input;
  n ← budget_arithmetic opaque_cost fixed_cost current_input_cost config;
  let '(unique, duplicate_candidates) := _deduplicate candidates in
  counts ← _validated_block_token_counts unique counter block_token_counts;
  separator_cost ← _count_text counter blank_line;
  duplicate_rejections ← map_result (duplicate_rejection counter) duplicate_candidates;
  chosen ← select_blocks counts separator_cost (ba_b_ac n) unique;
  let '(mode, selected, rejections) := chosen : AssemblyMode * list CandidateBlock * list BlockTrace in
  raise (BudgetInvariantError REQUIRED_INPUT_EXCEEDS_BUDGET)
    when negb (bool_decide (ids_of (List.filter cb_required unique) ⊆ ids_of selected));;
  exact ← _exact_final_selection selected counter counts (ba_b_ac n);
  let '(selected, projected_text, exact_projection_cost, exact_rejections) :=
    exact : list CandidateBlock * string * Z * list BlockTrace in
  trace ← _trace view selected (duplicate_rejections ++ rejections ++ exact_rejections) mode counts
            exact_projection_cost n;
  Ok {| ar_projected_text := projected_text; ar_selected_blocks := selected; ar_trace := trace |}.
