(* ===== verification/BudgetProperties.v ===== *)
(** Correctness of request-side assembly ([Budget]): the projection is within the
    budget, required blocks and their companions survive, every candidate is
    accounted for exactly once, and the only failure of a sound tokenizer's
    request is a required input that cannot fit. *)
From S2P Require Import Prelude PyString PyFloat Domain Records Views Runtime Closure Budget.
Open Scope list_scope.
Open Scope Z_scope.

(** ** Lemmas: ordering and duplicates *)

Lemma insert_sorted_perm {A} (lt : A -> A -> bool) x l : insert_sorted lt x l ≡ₚ x :: l.
Proof.
  induction l as [|y l IH]; cbn; [done|]. destruct (lt y x); [|done]. rewrite IH. apply Permutation_swap.
Qed.
Lemma py_sorted_perm {A} (lt : A -> A -> bool) l : py_sorted lt l ≡ₚ l.
Proof. induction l as [|x l IH]; cbn; [done|]. by rewrite insert_sorted_perm, IH. Qed.

Lemma split_unique_ok l : forall seen u d, split_unique seen l = (u, d) ->
  u ++ d ≡ₚ l /\ NoDup (block_ids u) /\ forall c, c ∈ u -> cb_block_id c ∉ seen.
Proof.
  induction l as [|c l IH]; intros seen u d; cbn.
  { intros [= <- <-]. split_and!; [done|constructor|]. by intros c ?%elem_of_nil. }
  destruct (bool_decide _) eqn:E; bool_hyps.
  - destruct (split_unique seen l) as [u' d'] eqn:E'. intros [= <- <-]. apply IH in E' as (Hp & Hn & Hs).
    split_and!; [|done..]. by rewrite <- Permutation_middle, Hp.
  - destruct (split_unique _ l) as [u' d'] eqn:E'. intros [= <- <-]. apply IH in E' as (Hp & Hn & Hs).
    split_and!; [cbn; by rewrite Hp| |].
    + cbn. constructor; [|done]. intros (b & Eb & Hb)%list_elem_of_fmap. apply (Hs b Hb). rewrite <- Eb. set_solver.
    + intros b [->|Hb]%elem_of_cons; [done|]. specialize (Hs b Hb). set_solver.
Qed.
Lemma deduplicate_ok candidates u d : _deduplicate candidates = (u, d) ->
  u ++ d ≡ₚ candidates /\ NoDup (block_ids u).
Proof.
  intros (Hp & Hn & _)%split_unique_ok. split; [|done]. unfold _ordered in Hp. by rewrite Hp, py_sorted_perm.
Qed.

Lemma concat_elem {A} (ls : list (list A)) x : x ∈ concat ls <-> exists l, l ∈ ls /\ x ∈ l.
Proof.
  rewrite list_elem_of_In, in_concat. split; intros (l & Hl & Hx); exists l.
  - by rewrite !list_elem_of_In.
  - by rewrite <- !list_elem_of_In.
Qed.
Lemma concat_disjoint {A} (ls : list (list A)) l m x :
  NoDup (concat ls) -> l ∈ ls -> m ∈ ls -> x ∈ l -> x ∈ m -> l = m.
Proof.
  induction ls as [|k ks IH]; [by intros _ ?%elem_of_nil|]. cbn. intros (_ & Hd & Hn)%NoDup_app Hl Hm Hx Hy.
  apply elem_of_cons in Hl as [->|Hl], Hm as [->|Hm]; [done| | |by apply IH].
  - exfalso. apply (Hd x Hx), concat_elem. eauto.
  - exfalso. apply (Hd x Hy), concat_elem. eauto.
Qed.

Lemma NoDup_concat_sub {A} (ls ms : list (list A)) : NoDup (concat ms) -> NoDup ls ->
  (forall l, l ∈ ls -> l ∈ ms) -> NoDup (concat ls).
Proof.
  intros Hms. induction ls as [|l ls IH]; intros Hn Hin; cbn; [constructor|]. apply NoDup_cons in Hn as [Hl Hn].
  apply NoDup_app. split_and!.
  - assert (l ∈ ms) as Hlm by (apply Hin; by left). clear -Hms Hlm.
    induction ms as [|m ms IHm]; [by apply elem_of_nil in Hlm|]. cbn in Hms. apply NoDup_app in Hms as (Hm & _ & Hms).
    apply elem_of_cons in Hlm as [->|Hlm]; [done|by apply IHm].
  - intros x Hx (k & Hk & Hxk)%concat_elem. apply Hl.
    rewrite (concat_disjoint ms l k x Hms); [done|apply Hin; by left|apply Hin; by right|done..].
  - apply IH; [done|]. intros k Hk. apply Hin. by right.
Qed.
(** ** What it means that required blocks do not fit *)

(** The estimate of a selection: its blocks and the separators between them. *)
Definition estimate (cost : CandidateBlock -> Z) (separator_cost : Z) (blocks : list CandidateBlock) : Z :=
  sumZ cost blocks + match blocks with [] => 0 | _ => separator_cost * (len blocks - 1) end.
(** A block the emergency mode makes room for: tied to a required one, or a raw event. *)
Definition essential (universe : list CandidateBlock) (b : CandidateBlock) : Prop :=
  (exists r, r ∈ universe /\ cb_required r = true /\ linked universe b r) \/ raw_slot (cb_slot b) = true.
Definition alone (universe : list CandidateBlock) (c : CandidateBlock) : Prop := forall b, b ∈ universe -> linked universe c b -> b = c.
(** The raw events of a slot that no other block is tied to, in order. *)
Definition raw_events (universe : list CandidateBlock) (slot : RuntimeSlot) (run : list CandidateBlock) : Prop :=
  run `sublist_of` universe
  /\ forall z, z ∈ run <-> z ∈ universe /\ cb_slot z = slot /\ is_some (cb_event_sequence z) = true /\ alone universe z.
(** A raw block without a sequence number, or with a gap in the numbers of the
    raw events behind it. *)
Definition raw_gap (universe : list CandidateBlock) (c : CandidateBlock) : Prop :=
  raw_slot (cb_slot c) = true /\ alone universe c
  /\ (cb_event_sequence c = None
      \/ exists pre x y post m n, raw_events universe (cb_slot c) (pre ++ x :: y :: post) /\ c ∈ pre ++ [x]
          /\ cb_event_sequence x = Some m /\ cb_event_sequence y = Some n /\ m + len (cb_source_event_ids x) <> n).
(** Why a required block is left out: with other essential blocks it exceeds the
    room by the estimate, or it stands before a gap of the raw events. *)
Inductive left_out (cost : CandidateBlock -> Z) (separator_cost room : Z) (universe : list CandidateBlock) (c : CandidateBlock) : Prop :=
| estimate_exceeds blocks : NoDup blocks -> (forall b, b ∈ blocks -> b ∈ universe /\ essential universe b) -> c ∈ blocks ->
    room < estimate cost separator_cost blocks -> left_out cost separator_cost room universe c
| behind_gap : raw_gap universe c -> left_out cost separator_cost room universe c.

(** Why a request is refused although its fixed input fits: a required block is
    left out, or the exact text of blocks all tied to required ones among them is
    too long. *)
Inductive required_exceed (counter : TokenCounter) (cost : CandidateBlock -> Z) (separator_cost room : Z) (universe : list CandidateBlock) : Prop :=
| required_left_out c : c ∈ universe -> cb_required c = true -> left_out cost separator_cost room universe c ->
    required_exceed counter cost separator_cost room universe
| required_text blocks n : NoDup (block_ids blocks) ->
    (forall b, b ∈ blocks -> b ∈ universe /\ exists r, r ∈ blocks /\ cb_required r = true /\ linked universe b r) ->
    counter (_projection_text blocks) = Counted n -> room < n -> required_exceed counter cost separator_cost room universe.
(** The tokens of a block's text *)
Definition text_cost (counter : TokenCounter) (c : CandidateBlock) : Z := match counter (cb_text c) with Counted n => n | _ => 0 end.

(** ** Lemmas: selection works on whole groups *)

Section selection.
Variables (counts : Counts) (separator_cost b_ac : Z) (universe : list CandidateBlock).
Variable groups : list (list CandidateBlock).
Hypothesis groups_ok : dependency_groups universe = Ok groups.

Let accept := accept counts separator_cost.
Let refuse := refuse counts.

Lemma universe_ids : NoDup (block_ids universe).
Proof. by destruct (dependency_groups_ok _ _ groups_ok). Qed.
Lemma group_in g c : g ∈ groups -> c ∈ g -> c ∈ universe.
Proof.
  intros Hg Hc. destruct (dependency_groups_ok _ _ groups_ok) as (_ & Hp & _). rewrite <- Hp.
  apply list_elem_of_In, in_concat. exists g. by rewrite <- !list_elem_of_In.
Qed.
Lemma group_exists c : c ∈ universe -> exists g, g ∈ groups /\ c ∈ g.
Proof.
  destruct (dependency_groups_ok _ _ groups_ok) as (_ & Hp & _). rewrite <- Hp.
  intros (g & Hg & Hc)%list_elem_of_In%in_concat. exists g. by rewrite !list_elem_of_In.
Qed.
Lemma group_linked g a b : g ∈ groups -> a ∈ g -> b ∈ universe -> b ∈ g <-> linked universe a b.
Proof. intros Hg. destruct (dependency_groups_ok _ _ groups_ok) as (_ & _ & H0). by apply H0. Qed.
(** Two groups with a block in common are the same. *)
Lemma groups_disjoint g h c : g ∈ groups -> h ∈ groups -> c ∈ g -> c ∈ h -> g = h.
Proof.
  destruct (dependency_groups_ok _ _ groups_ok) as (Hids & Hp & _). apply concat_disjoint.
  rewrite Hp. by eapply NoDup_fmap_1.
Qed.
Lemma block_eq a b : a ∈ universe -> b ∈ universe -> cb_block_id a = cb_block_id b -> a = b.
Proof. apply key_unique, universe_ids. Qed.

Lemma group_by_id_ok c : c ∈ universe -> group_by_id groups c ∈ groups /\ c ∈ group_by_id groups c.
Proof.
  intros Hc. unfold group_by_id. destruct (List.find _ groups) as [g|] eqn:E; cbn.
  - apply find_some_elem in E as [Hg Hx]. split; [done|]. apply existsb_true_iff in Hx as (b & Hb & Eb).
    apply py_eq_leibniz in Eb. by rewrite <- (block_eq b c (group_in g b Hg Hb) Hc Eb).
  - exfalso. destruct (group_exists c Hc) as (g & Hg & Hcg). rewrite find_none_ext in E. specialize (E g Hg).
    cbn in E. rewrite existsb_false_iff in E. specialize (E c Hcg). by rewrite (proj2 (py_eq_leibniz _ _) eq_refl) in E.
Qed.
Lemma elem_of_ids c l : c ∈ l -> cb_block_id c ∈ ids_of l.
Proof. intros Hc. unfold ids_of. rewrite elem_of_list_to_set. by apply block_ids_elem. Qed.
Lemma ids_elem i l : i ∈ ids_of l <-> exists c, c ∈ l /\ i = cb_block_id c.
Proof. unfold ids_of, block_ids. rewrite elem_of_list_to_set, list_elem_of_fmap. naive_solver. Qed.

(** What a selecting state says: the groups taken and the groups refused. *)
Definition settled (s : Selecting) (taken left : list (list CandidateBlock)) : Prop :=
  (forall g, g ∈ taken ++ left -> g ∈ groups) /\ NoDup (taken ++ left)
  /\ sl_selected_ids s = ids_of (concat taken)
  /\ sl_handled_ids s = ids_of (concat (taken ++ left))
  /\ map bt_block_id (sl_rejected s) = block_ids (concat left)
  /\ sl_required_missing s = existsb cb_required (concat left).

Lemma handled_group s taken left g c : settled s taken left -> g ∈ groups -> c ∈ g -> handled s c = true ->
  g ∈ taken ++ left.
Proof.
  intros (Hin & _ & _ & Hh & _) Hg Hc E. unfold handled in E. bool_hyps. rewrite Hh in E.
  apply ids_elem in E as (b & (h & Hh' & Hb)%concat_elem & Eb).
  assert (c = b) as ->.
  { apply block_eq; [by eapply group_in|by eapply group_in; [apply Hin|]|done]. }
  by rewrite (groups_disjoint g h b Hg (Hin h Hh') Hc Hb).
Qed.
(** A group with an unhandled block is wholly unhandled. *)
Lemma unhandled_group s taken left g c : settled s taken left -> c ∈ g -> handled s c = false -> g ∉ taken ++ left.
Proof.
  intros (_ & _ & _ & Hh & _) Hc E Hg. unfold handled in E. bool_hyps. apply E. rewrite Hh. apply elem_of_ids.
  apply concat_elem. eauto.
Qed.
Lemma ids_of_app a b : ids_of (a ++ b) = ids_of a ∪ ids_of b.
Proof. unfold ids_of, block_ids. by rewrite map_app, list_to_set_app_L. Qed.

Lemma accept_settled s taken left g : settled s taken left -> g ∈ groups -> g ∉ taken ++ left ->
  settled (accept s g) (g :: taken) left.
Proof.
  intros (Hin & Hn & Hs & Hh & Hr & Hm) Hg Hno. split_and!; cbn.
  - intros h [->|Hh']%elem_of_cons; [done|by apply Hin].
  - by constructor.
  - by rewrite ids_of_app, Hs.
  - by rewrite ids_of_app, Hh.
  - done.
  - done.
Qed.
Lemma refuse_settled s taken left g reason : settled s taken left -> g ∈ groups -> g ∉ taken ++ left ->
  settled (refuse s g reason) taken (left ++ [g]).
Proof.
  intros (Hin & Hn & Hs & Hh & Hr & Hm) Hg Hno. split_and!; cbn.
  - intros h. rewrite app_assoc. intros [Hh'| ->%list_elem_of_singleton]%elem_of_app; [by apply Hin|done].
  - rewrite app_assoc. apply NoDup_app. split_and!; [done| |apply NoDup_singleton].
    intros h Hh' ->%list_elem_of_singleton. done.
  - done.
  - rewrite app_assoc, concat_app, ids_of_app, Hh. cbn. rewrite app_nil_r. apply union_comm_L.
  - rewrite map_app, Hr, concat_app. cbn. rewrite app_nil_r. unfold block_ids. by rewrite map_app, map_map.
  - rewrite Hm, concat_app. cbn. by rewrite app_nil_r, existsb_app.
Qed.
Lemma start_settled : settled selecting_start [] [].
Proof. split_and!; try done; [by intros g ?%elem_of_nil|constructor]. Qed.

(** From [s] to [s'] the blocks [done] were settled, by whole groups. *)
Definition settles (s s' : Selecting) (blocks : list CandidateBlock) : Prop :=
  (exists taken left, settled s taken left) ->
  (exists taken left, settled s' taken left)
  /\ sl_handled_ids s ⊆ sl_handled_ids s' /\ ids_of blocks ⊆ sl_handled_ids s'.
Lemma settles_nil s : settles s s [].
Proof. intros Hs. split_and!; [done..|]. intros i (c & Hc & _)%ids_elem. by apply elem_of_nil in Hc. Qed.
Lemma settles_app s t u a b : settles s t a -> settles t u b -> settles s u (a ++ b).
Proof.
  intros H1 H2 Hs. destruct (H1 Hs) as (Ht & Hst & Ha). destruct (H2 Ht) as (Hu & Htu & Hb).
  rewrite ids_of_app. split_and!; [done|set_solver..].
Qed.
Lemma settles_weaken s t a b : settles s t a -> (forall c, c ∈ b -> c ∈ a) -> settles s t b.
Proof.
  intros H1 Hb Hs. destruct (H1 Hs) as (Ht & Hst & Ha). split_and!; [done..|].
  intros i (c & Hc & ->)%ids_elem. apply Ha, elem_of_ids. auto.
Qed.
Lemma settles_fold {A} (f : Selecting -> A -> Selecting) (h : A -> list CandidateBlock) l : forall s,
  (forall s x, x ∈ l -> settles s (f s x) (h x)) -> settles s (foldl f s l) (concat (map h l)).
Proof.
  induction l as [|x l IH]; intros s Hf; cbn; [apply settles_nil|].
  eapply settles_app; [apply Hf; by left|]. apply IH. intros t y Hy. apply Hf. by right.
Qed.

(** One group settled, either way. *)
Definition settles_group (f : Selecting -> list CandidateBlock -> Selecting) : Prop := forall s g,
  f s g = accept s g \/ exists reason, f s g = refuse s g reason.
Definition fresh (s : Selecting) (g : list CandidateBlock) : Prop := forall c, c ∈ g -> cb_block_id c ∉ sl_handled_ids s.
Lemma group_settles f s g : settles_group f -> g ∈ groups -> fresh s g ->
  settles s (f s g) g /\ sl_handled_ids (f s g) = ids_of g ∪ sl_handled_ids s.
Proof.
  intros Hf Hg Hfr. assert (sl_handled_ids (f s g) = ids_of g ∪ sl_handled_ids s) as Eh.
  { by destruct (Hf s g) as [->|[reason ->]]. }
  split; [|done]. intros (taken & left & Hs). rewrite Eh. split_and!; [|set_solver..].
  assert (g ∉ taken ++ left) as Hno.
  { destruct (dependency_groups_ok _ _ groups_ok) as (_ & _ & Hne). destruct (Hne g Hg) as [Hnil _].
    destruct g as [|c g]; [done|]. apply (unhandled_group s taken left (c :: g) c Hs); [by left|].
    unfold handled. apply bool_decide_eq_false, Hfr. by left. }
  destruct (Hf s g) as [->|[reason ->]]; eexists _, _; [by apply accept_settled|by apply refuse_settled].
Qed.
Lemma groups_fold f gs : settles_group f -> forall s,
  NoDup gs -> (forall g, g ∈ gs -> g ∈ groups /\ fresh s g) ->
  settles s (foldl f s gs) (concat gs) /\ sl_handled_ids (foldl f s gs) = ids_of (concat gs) ∪ sl_handled_ids s.
Proof.
  intros Hf. induction gs as [|g gs IH]; intros s Hn Hgs; cbn.
  { split; [apply settles_nil|]. unfold ids_of. cbn. set_solver. }
  apply NoDup_cons in Hn as [Hno Hn]. destruct (Hgs g) as [Hg Hfr]; [by left|].
  destruct (group_settles f s g Hf Hg Hfr) as [H1 E1]. destruct (IH (f s g) Hn) as [H2 E2].
  - intros h Hh. destruct (Hgs h) as [Hhg Hhf]; [by right|]. split; [done|]. intros c Hc. rewrite E1.
    intros [(b & Hb & Eb)%ids_elem|Hx]%elem_of_union; [|by apply (Hhf c Hc)].
    assert (c = b) as -> by (apply block_eq; [by apply (group_in h)|by apply (group_in g)|done]).
    apply Hno. by rewrite (groups_disjoint g h b Hg Hhg Hb Hc).
  - split; [by eapply settles_app|]. rewrite E2, E1, ids_of_app. set_solver.
Qed.
Lemma unhandled_fresh s g c : (exists taken left, settled s taken left) -> g ∈ groups -> c ∈ g ->
  handled s c = false -> fresh s g.
Proof.
  intros (taken & left & Hs) Hg Hc E b Hb Hin. apply (unhandled_group s taken left g c Hs Hc E).
  apply (handled_group s taken left g b Hs Hg Hb). unfold handled. by apply bool_decide_eq_true.
Qed.

Lemma filter_bool_sublist {A} (p : A -> bool) l : List.filter p l `sublist_of` l.
Proof. induction l as [|x l IH]; cbn; [constructor|]. destruct (p x); by constructor. Qed.
Lemma concat_snoc_group (gs : list (list CandidateBlock)) g : concat (gs ++ [g]) = concat gs ++ g.
Proof. rewrite concat_app. cbn. by rewrite app_nil_r. Qed.
(** Settling the group of one candidate, unless it is handled. *)
Lemma candidate_settles f s c : settles_group f -> c ∈ universe ->
  settles s (if handled s c then s else f s (group_by_id groups c)) [c].
Proof.
  intros Hf Hc Hs. destruct (handled s c) eqn:E.
  - split_and!; [done..|]. intros i (b & ->%list_elem_of_singleton & ->)%ids_elem.
    unfold handled in E. by bool_hyps.
  - destruct (group_by_id_ok c Hc) as [Hg Hcg]. pose proof (unhandled_fresh s _ c Hs Hg Hcg E) as Hfr.
    destruct (group_settles f s _ Hf Hg Hfr) as [H1 _]. eapply settles_weaken; [exact H1| |exact Hs].
    by intros b ->%list_elem_of_singleton.
Qed.
Lemma concat_singletons {A} (l : list A) : concat (map (fun c => [c]) l) = l.
Proof. induction l as [|c l IH]; cbn; [done|]. by rewrite IH. Qed.

Lemma normal_settles : settles selecting_start (normal_run counts separator_cost b_ac groups universe) universe.
Proof.
  rewrite <- (concat_singletons universe) at 2. apply settles_fold. intros s c Hc.
  apply (candidate_settles (fun s g => if fits counts separator_cost b_ac s g then accept s g
    else refuse s g "INSUFFICIENT_AC_BUDGET")); [|done].
  intros t g. destruct (fits _ _ _ t g); [by left|right; by eexists].
Qed.
Lemma emergency_settles_group : settles_group (emergency_group counts separator_cost b_ac).
Proof.
  intros s g. unfold emergency_group. destruct (negb _); [right; by eexists|].
  destruct (fits _ _ _ _ _); [by left|right; by eexists].
Qed.

(** ** Lemmas: the emergency mode *)

Lemma atomic_groups_ok cands : forall ids, cands ⊆ universe ->
  NoDup (atomic_groups groups ids cands)
  /\ (forall g, g ∈ atomic_groups groups ids cands ->
        g ∈ groups /\ exists c, c ∈ g /\ c ∈ cands /\ cb_block_id c ∉ ids)
  /\ forall c, c ∈ cands -> len (group_by_id groups c) <> 1 ->
        cb_block_id c ∈ ids \/ exists g, g ∈ atomic_groups groups ids cands /\ c ∈ g.
Proof.
  induction cands as [|c cands IH]; intros ids Hu; cbn.
  { split_and!; [constructor|by intros g ?%elem_of_nil|by intros c ?%elem_of_nil]. }
  assert (c ∈ universe) as Hc by (apply Hu; by left). assert (cands ⊆ universe) as Hu' by set_solver.
  destruct (group_by_id_ok c Hc) as [Hg Hcg]. destruct (_ || _) eqn:E.
  - destruct (IH ids Hu') as (Hn & Hin & Hcov). split_and!; [done| |].
    + intros g (Hgg & b & Hb & Hbc & Hbi)%Hin. split; [done|]. exists b. split_and!; [done|by right|done].
    + intros b [->|Hb]%elem_of_cons Hl; [|by apply Hcov]. left. apply orb_true_iff in E as [E|E]; bool_hyps; done.
  - apply orb_false_iff in E as [_ E]. bool_hyps.
    destruct (IH (ids_of (group_by_id groups c) ∪ ids) Hu') as (Hn & Hin & Hcov). split_and!.
    + constructor; [|done]. intros (_ & b & Hb & _ & Hbi)%Hin. apply Hbi, elem_of_union_l. by apply elem_of_ids.
    + intros g [->|(Hgg & b & Hb & Hbc & Hbi)%Hin]%elem_of_cons.
      * split; [done|]. exists c. split_and!; [done|by left|done].
      * split; [done|]. exists b. split_and!; [done|by right|set_solver].
    + intros b [->|Hb]%elem_of_cons Hl.
      * right. exists (group_by_id groups c). split; [by left|done].
      * destruct (Hcov b Hb Hl) as [[Hbi|Hbi]%elem_of_union|(g & Hgg & Hbg)].
        -- right. exists (group_by_id groups c). split; [by left|]. apply ids_elem in Hbi as (a & Ha & Ea).
           assert (b = a) as ->; [|done]. apply block_eq; [by apply Hu'|by eapply group_in|done].
        -- by left.
        -- right. exists g. split; [by right|done].
Qed.

Lemma contiguous_suffix earlier : forall current, exists pre,
  rev (current :: earlier) = pre ++ contiguous_from current earlier.
Proof.
  induction earlier as [|previous earlier IH]; intros current; cbn [contiguous_from]; [by exists []|].
  assert (exists pre, rev (current :: previous :: earlier) = pre ++ [current]) as Hone by by eexists.
  destruct (cb_event_sequence previous); [|done]. destruct (cb_event_sequence current); [|done].
  destruct (negb _); [done|]. destruct (IH previous) as [pre E]. exists pre. cbn in *. by rewrite E, app_assoc.
Qed.
Lemma raw_tail_suffix l : exists pre,
  List.filter (fun c => is_some (cb_event_sequence c)) l = pre ++ _contiguous_raw_tail l.
Proof.
  unfold _contiguous_raw_tail. destruct (rev _) as [|c earlier] eqn:E.
  - exists []. by rewrite <- (rev_involutive (List.filter _ l)), E.
  - destruct (contiguous_suffix earlier c) as [pre Ep]. exists pre. by rewrite <- Ep, <- E, rev_involutive.
Qed.
Lemma longest_suffix critical tail : exists pre,
  tail = pre ++ _longest_raw_suffix counts separator_cost b_ac critical tail.
Proof.
  induction tail as [|c tail IH]; cbn [_longest_raw_suffix].
  - exists []. by destruct (_ <=? _).
  - destruct (_ <=? _); [by exists []|]. destruct IH as [pre E]. exists (c :: pre). cbn. by rewrite <- E.
Qed.
Lemma suffix_filter_elem {A} (p : A -> bool) l pre tail : List.filter p l = pre ++ tail -> NoDup l ->
  NoDup tail /\ forall c, c ∈ tail -> c ∈ l.
Proof.
  intros E Hn. pose proof (NoDup_filter_bool p l Hn) as Hf. rewrite E in Hf.
  apply NoDup_app in Hf as (_ & _ & Hf). split; [done|]. intros c Hc.
  assert (c ∈ List.filter p l) as Hin by (rewrite E; apply elem_of_app; by right).
  by apply elem_of_filter_bool in Hin as [Hin _].
Qed.
(** What the raw slot keeps is some of its candidates, each once. *)
Lemma selected_raw_ok critical l : NoDup l ->
  let raw := _longest_raw_suffix counts separator_cost b_ac critical (_contiguous_raw_tail l) in
  NoDup raw /\ forall c, c ∈ raw -> c ∈ l.
Proof.
  intros Hn raw. destruct (raw_tail_suffix l) as [pre1 E1].
  destruct (longest_suffix critical (_contiguous_raw_tail l)) as [pre2 E2]. fold raw in E2. rewrite E2, app_assoc in E1.
  by eapply suffix_filter_elem.
Qed.

Lemma NoDup_singletons {A} (l : list A) : NoDup l -> NoDup (map (fun c => [c]) l).
Proof.
  induction 1 as [|c l Hc _ IH]; cbn; constructor; [|done]. intros (b & [= ->] & Hb)%list_elem_of_fmap. done.
Qed.
Lemma foldl_singletons (f : Selecting -> list CandidateBlock -> Selecting) l : forall s,
  foldl (fun s c => f s [c]) s l = foldl f s (map (fun c => [c]) l).
Proof. induction l as [|c l IH]; intros s; [done|]. cbn. apply IH. Qed.
Lemma foldl_skip (f : Selecting -> CandidateBlock -> Selecting) (p : CandidateBlock -> bool) l : forall s,
  foldl (fun s c => if p c then s else f s c) s l = foldl f s (List.filter (fun c => negb (p c)) l).
Proof. induction l as [|c l IH]; intros s; [done|]. cbn. destruct (p c); cbn; apply IH. Qed.

(** Settling single blocks, each its own group and still unhandled. *)
Lemma singles_fold f l s : settles_group f -> NoDup l ->
  (forall c, c ∈ l -> [c] ∈ groups /\ cb_block_id c ∉ sl_handled_ids s) ->
  settles s (foldl (fun s c => f s [c]) s l) l
  /\ sl_handled_ids (foldl (fun s c => f s [c]) s l) = ids_of l ∪ sl_handled_ids s.
Proof.
  intros Hf Hn Hl. rewrite foldl_singletons. destruct (groups_fold f (map (fun c => [c]) l) Hf s) as [H1 H2].
  - by apply NoDup_singletons.
  - intros g (c & -> & Hc)%list_elem_of_fmap. destruct (Hl c Hc) as [Hg Hh]. split; [done|].
    by intros b ->%list_elem_of_singleton.
  - by rewrite concat_singletons in H1, H2.
Qed.

Lemma settles_some s t a : settles s t a -> (exists taken left, settled s taken left) -> exists taken left, settled t taken left.
Proof. intros H1 Hs. by destruct (H1 Hs). Qed.

Lemma raw_slot_settles cands s : cands ⊆ universe -> NoDup cands ->
  (forall c, c ∈ cands -> handled s c = false) ->
  settles s (emergency_raw_slot counts separator_cost b_ac groups universe cands s) cands.
Proof.
  intros Hu Hn Hun Hs. destruct (atomic_groups_ok cands ∅ Hu) as (Hna & Hin & Hcov).
  destruct (groups_fold _ (atomic_groups groups ∅ cands) emergency_settles_group s Hna) as [H1 E1].
  { intros g (Hg & c & Hc & Hcc & _)%Hin. split; [done|]. apply (unhandled_fresh s g c Hs Hg Hc). by apply Hun. }
  unfold emergency_raw_slot. set (s1 := foldl _ s _) in *.
  set (rest := List.filter (fun c => negb (handled s1 c)) cands).
  assert (NoDup rest) as Hnr by by apply NoDup_filter_bool.
  assert (forall c, c ∈ rest <-> c ∈ cands /\ cb_block_id c ∉ sl_handled_ids s1) as Hrest.
  { intros c. unfold rest. rewrite elem_of_filter_bool. unfold handled. by rewrite negb_true_iff, bool_decide_eq_false. }
  assert (forall c, c ∈ rest -> [c] ∈ groups) as Hsingle.
  { intros c [Hc Hh]%Hrest. destruct (group_by_id_ok c (Hu c Hc)) as [Hg Hcg].
    destruct (decide (len (group_by_id groups c) = 1)) as [Hl|Hl].
    - destruct (group_by_id groups c) as [|x [|y l]] eqn:Eg; unfold len in Hl; cbn in Hl; [lia| |lia].
      by apply list_elem_of_singleton in Hcg as ->.
    - exfalso. destruct (Hcov c Hc Hl) as [|(g & Hgg & Hcg')]; [set_solver|]. apply Hh. rewrite E1.
      apply elem_of_union_l, elem_of_ids, concat_elem. eauto. }
  destruct (selected_raw_ok (selected_of universe s1) rest Hnr) as [Hnraw Hraw].
  set (raw := _longest_raw_suffix _ _ _ _ _) in *.
  destruct (singles_fold accept raw s1) as [H2 E2]; [by left|done| |].
  { intros c Hc. split; [by apply Hsingle, Hraw|]. by apply Hraw, Hrest in Hc as [_ ?]. }
  unfold accept in H2, E2. set (s2 := foldl _ s1 raw) in *. rewrite foldl_skip.
  set (omitted := List.filter _ rest).
  assert (forall c, c ∈ omitted <-> c ∈ rest /\ cb_block_id c ∉ ids_of raw) as Hom.
  { intros c. unfold omitted. by rewrite elem_of_filter_bool, negb_true_iff, bool_decide_eq_false. }
  destruct (singles_fold (fun s g => refuse s g "EMERGENCY_RAW_PREFIX_OMITTED") omitted s2) as [H3 E3].
  { right. by eexists. }
  { by apply NoDup_filter_bool. }
  { intros c [Hc Hno]%Hom. split; [by apply Hsingle|]. rewrite E2. apply Hrest in Hc as [_ Hc]. set_solver. }
  unfold refuse in H3. eapply settles_weaken; [eapply settles_app; [exact H1|eapply settles_app; [exact H2|exact H3]]| |done].
  intros c Hc. rewrite !elem_of_app. destruct (decide (cb_block_id c ∈ sl_handled_ids s1)) as [Hh|Hh].
  - left. rewrite E1 in Hh. apply elem_of_union in Hh as [(b & Hb & Eb)%ids_elem|Hh].
    + assert (c = b) as ->; [|done]. apply concat_elem in Hb as Hb'. destruct Hb' as (g & (Hg & _)%Hin & Hbg).
      apply block_eq; [by apply Hu|by apply (group_in g)|done].
    + specialize (Hun c Hc). unfold handled in Hun. bool_hyps. done.
  - right. assert (c ∈ rest) as Hr by by apply Hrest.
    destruct (decide (cb_block_id c ∈ ids_of raw)) as [(b & Hb & Eb)%ids_elem|Hno]; [left|right; by apply Hom].
    assert (c = b) as ->; [|done]. apply block_eq; [by apply Hu| |done].
    apply Hraw, Hrest in Hb as [Hb _]. by apply Hu.
Qed.

Lemma slot_settles s slot : settles s (emergency_slot counts separator_cost b_ac groups universe s slot)
  (List.filter (fun c => eqb_of (cb_slot c) slot) universe).
Proof.
  set (cands := List.filter (fun c => eqb_of (cb_slot c) slot && negb (handled s c)) universe).
  assert (forall c, c ∈ cands <-> (c ∈ universe /\ cb_slot c = slot) /\ handled s c = false) as Hc.
  { intros c. unfold cands. rewrite elem_of_filter_bool, andb_true_iff, negb_true_iff. unfold eqb_of.
    rewrite bool_decide_eq_true. tauto. }
  assert (settles s (emergency_slot counts separator_cost b_ac groups universe s slot) cands) as Hset.
  { unfold emergency_slot. fold cands. destruct (raw_slot slot).
    - apply raw_slot_settles; [|apply NoDup_filter_bool; by eapply NoDup_fmap_1, universe_ids|].
      + intros c Hin. by apply Hc in Hin as [[? _] _].
      + intros c Hin. by apply Hc in Hin as [_ ?].
    - eapply settles_weaken; [apply (settles_fold _ (fun c => [c]))|intros c Hin; by rewrite concat_singletons].
      intros t c Hin. apply (candidate_settles _ t c emergency_settles_group). by apply Hc in Hin as [[? _] _]. }
  intros Hs. destruct (Hset Hs) as (H1 & H2 & H3). split_and!; [done..|].
  intros i (c & [Hu Es]%elem_of_filter_bool & ->)%ids_elem. unfold eqb_of in Es. bool_hyps.
  destruct (handled s c) eqn:Eh.
  - unfold handled in Eh. bool_hyps. by apply H2.
  - apply H3, elem_of_ids, Hc. done.
Qed.
Lemma emergency_settles : settles selecting_start (emergency_run counts separator_cost b_ac groups universe) universe.
Proof.
  eapply settles_weaken.
  - apply (settles_fold (emergency_slot counts separator_cost b_ac groups universe)
      (fun slot => List.filter (fun c => eqb_of (cb_slot c) slot) universe)). intros s slot _. apply slot_settles.
  - intros c Hc. apply concat_elem. exists (List.filter (fun b => eqb_of (cb_slot b) (cb_slot c)) universe).
    split.
    + apply (list_elem_of_fmap_2 (fun slot => List.filter (fun b => eqb_of (cb_slot b) slot) universe)).
      unfold RUNTIME_SLOT_PRIORITY. destruct (cb_slot c); set_solver.
    + apply elem_of_filter_bool. split; [done|]. unfold eqb_of. by apply bool_decide_eq_true.
Qed.

(** ** Lemmas: what the emergency mode leaves out *)

Definition excused (c : CandidateBlock) : Prop := left_out (count_of counts) separator_cost b_ac universe c.
Lemma estimate_app a b : b <> [] -> estimate (count_of counts) separator_cost (a ++ b)
  = estimate (count_of counts) separator_cost a + additional_cost counts separator_cost (len a) b.
Proof.
  intros Hb. unfold estimate, additional_cost. rewrite sumZ_app. destruct b as [|y b]; [done|].
  assert (0 <= len (y :: b)) by apply len_nonneg.
  destruct a as [|x a]; [change (len []) with 0; cbn [app Z.eqb]; change (sumZ _ []) with 0; lia|].
  assert (0 < len (x :: a)) by (rewrite len_cons; pose proof (len_nonneg a); lia).
  rewrite (proj2 (Z.eqb_neq _ _)) by lia. cbn [app]. rewrite (app_comm_cons a (y :: b) x), len_app. lia.
Qed.
Lemma estimate_perm a b : a ≡ₚ b -> estimate (count_of counts) separator_cost a = estimate (count_of counts) separator_cost b.
Proof.
  intros Hp. unfold estimate. assert (sumZ (count_of counts) a = sumZ (count_of counts) b) as ->.
  { clear -Hp. induction Hp as [|x l l' _ IH|x y l|l l' l'' _ IH1 _ IH2]; rewrite ?sumZ_cons; lia. }
  assert (len a = len b) as E by (unfold len; by rewrite (Permutation_length Hp)).
  destruct a as [|x a]; [apply Permutation_nil_l in Hp; by subst|]. destruct b as [|y b]; [by apply Permutation_nil_r in Hp|]. by rewrite E.
Qed.

(** What the emergency mode knows so far: what it took is essential and costs
    what it counts, every required block it left is excused, and whatever it
    settled has a block of a slot it went through. *)
Record emergent (slots : list RuntimeSlot) (s : Selecting) (taken left : list (list CandidateBlock)) : Prop := {
  em_settled : settled s taken left;
  em_cost : sl_cost s = estimate (count_of counts) separator_cost (concat taken) /\ sl_count s = len (concat taken);
  em_taken g c : g ∈ taken -> c ∈ g -> essential universe c;
  em_left g c : g ∈ left -> c ∈ g -> cb_required c = true -> excused c;
  em_slots g : g ∈ taken ++ left -> exists c, c ∈ g /\ cb_slot c ∈ slots;
}.
Definition emerges slots s : Prop := exists taken left, emergent slots s taken left.
Lemma emerges_settled slots s : emerges slots s -> exists taken left, settled s taken left.
Proof. intros (taken & left & []). eauto. Qed.
Lemma group_essential g c : g ∈ groups -> existsb cb_required g = true -> c ∈ g -> essential universe c.
Proof.
  intros Hg (r & Hr & Hreq)%existsb_true_iff Hc. left. exists r. pose proof (group_in g r Hg Hr) as Hru.
  split_and!; [done|done|]. by apply (group_linked g).
Qed.
Lemma fresh_new slots s taken left g : emergent slots s taken left -> g ∈ groups -> fresh s g -> g ∉ taken ++ left.
Proof.
  intros He Hg Hf. destruct (dependency_groups_ok _ _ groups_ok) as (_ & _ & Hne). destruct (Hne g Hg) as [Hnil _].
  destruct g as [|c g]; [done|]. apply (unhandled_group s taken left (c :: g) c (em_settled _ _ _ _ He)); [by left|].
  unfold handled. apply bool_decide_eq_false, Hf. by left.
Qed.
Lemma taken_nodup slots s taken left : emergent slots s taken left -> NoDup (concat taken).
Proof.
  intros [(Hin & Hn & _) _ _ _ _]. destruct (dependency_groups_ok _ _ groups_ok) as (Hids & Hp & _).
  apply (NoDup_concat_sub taken groups); [rewrite Hp; by eapply NoDup_fmap_1|by apply NoDup_app in Hn as (Hn & _)|].
  intros g Hg. apply Hin, elem_of_app. by left.
Qed.
Lemma take_emerges slots s g : emerges slots s -> g ∈ groups -> fresh s g -> (forall c, c ∈ g -> essential universe c) ->
  (exists c, c ∈ g /\ cb_slot c ∈ slots) -> emerges slots (accept s g).
Proof.
  intros (taken & left & He) Hg Hf Hess Hslot. exists (g :: taken), left. pose proof (fresh_new _ _ _ _ _ He Hg Hf) as Hno.
  destruct He as [Hs [Hc Hn] Ht Hl Hsl]. destruct (dependency_groups_ok _ _ groups_ok) as (_ & _ & Hne). destruct (Hne g Hg) as [Hnil _].
  split; [by apply accept_settled| | |done|].
  - cbn [Budget.accept accept sl_cost sl_count concat]. rewrite (estimate_perm (g ++ concat taken) (concat taken ++ g)) by apply Permutation_app_comm.
    rewrite estimate_app by done. rewrite len_app, Hc, Hn. split; [done|lia].
  - intros h c [->|Hh]%elem_of_cons Hch; [by apply Hess|by eapply Ht].
  - cbn [app]. intros h [->|Hh]%elem_of_cons; [done|by apply Hsl].
Qed.
Lemma leave_emerges slots s g reason : emerges slots s -> g ∈ groups -> fresh s g ->
  (forall c, c ∈ g -> cb_required c = true -> excused c) -> (exists c, c ∈ g /\ cb_slot c ∈ slots) -> emerges slots (refuse s g reason).
Proof.
  intros (taken & left & He) Hg Hf Hex Hslot. exists taken, (left ++ [g]). pose proof (fresh_new _ _ _ _ _ He Hg Hf) as Hno.
  destruct He as [Hs Hcn Ht Hl Hsl]. split; [by apply refuse_settled|exact Hcn|done| |].
  - intros h c [Hh| ->%list_elem_of_singleton]%elem_of_app Hch; [by eapply Hl|by apply Hex].
  - intros h. rewrite app_assoc. intros [Hh| ->%list_elem_of_singleton]%elem_of_app; [by apply Hsl|done].
Qed.
Lemma emergency_group_emerges slots s g : emerges slots s -> g ∈ groups -> fresh s g -> (exists c, c ∈ g /\ cb_slot c ∈ slots) ->
  emerges slots (emergency_group counts separator_cost b_ac s g).
Proof.
  intros He Hg Hf Hslot. unfold emergency_group. destruct (existsb cb_required g) eqn:Er; cbn [negb].
  2:{ apply leave_emerges; try done. intros c Hc Hr. rewrite existsb_false_iff in Er. specialize (Er c Hc). congruence. }
  pose proof (fun c => group_essential g c Hg Er) as Hess.
  destruct (fits counts separator_cost b_ac s g) eqn:Ef; [by apply take_emerges|apply leave_emerges; try done].
  intros c Hc _. destruct He as (taken & left & He). pose proof (fresh_new _ _ _ _ _ He Hg Hf) as Hno. pose proof (taken_nodup _ _ _ _ He) as Hnd.
  destruct (dependency_groups_ok _ _ groups_ok) as (Hids & Hp & Hne). destruct (Hne g Hg) as [Hnil _].
  destruct He as [(Hin & Hn & _) [Hcost Hcount] Ht _ _].
  assert (forall h, h ∈ taken -> h ∈ groups) as Hgroups by (intros h Hh; apply Hin, elem_of_app; by left).
  apply (estimate_exceeds _ _ _ _ _ (concat taken ++ g)).
  - rewrite <- (concat_snoc_group taken g). apply (NoDup_concat_sub _ groups); [rewrite Hp; by eapply NoDup_fmap_1| |].
    + apply NoDup_app. split_and!; [by apply NoDup_app in Hn as (Hn & _)| |apply NoDup_singleton].
      intros h Hh ->%list_elem_of_singleton. apply Hno, elem_of_app. by left.
    + intros h [Hh| ->%list_elem_of_singleton]%elem_of_app; auto.
  - intros b [(h & Hh & Hb)%concat_elem|Hb]%elem_of_app; [split; [by apply (group_in h); [apply Hgroups|]|by apply (Ht h)]|].
    split; [by apply (group_in g)|by apply Hess].
  - apply elem_of_app. by right.
  - rewrite estimate_app by done. unfold fits in Ef. apply Z.leb_gt in Ef. rewrite Hcost, Hcount in Ef. lia.
Qed.
(** Groups of the same kind, one after the other. *)
Lemma fold_emerges slots f gs : settles_group f -> forall s, NoDup gs -> (forall g, g ∈ gs -> g ∈ groups /\ fresh s g) ->
  (forall t g, g ∈ gs -> emerges slots t -> fresh t g -> emerges slots (f t g)) ->
  emerges slots s -> emerges slots (foldl f s gs).
Proof.
  intros Hf. induction gs as [|g gs IH]; intros s Hn Hgs Hstep He; [done|]. cbn [foldl]. apply NoDup_cons in Hn as [Hno Hn].
  destruct (Hgs g) as [Hg Hfr]; [by left|]. destruct (group_settles f s g Hf Hg Hfr) as [_ E1]. apply IH; [done| | |].
  - intros h Hh. destruct (Hgs h) as [Hhg Hhf]; [by right|]. split; [done|]. intros c Hc. rewrite E1.
    intros [(b & Hb & Eb)%ids_elem|Hx]%elem_of_union; [|by apply (Hhf c Hc)].
    assert (c = b) as -> by (apply block_eq; [by apply (group_in h)|by apply (group_in g)|done]).
    apply Hno. by rewrite (groups_disjoint g h b Hg Hhg Hb Hc).
  - intros t h Hh. apply Hstep. by right.
  - apply Hstep; [by left|done|done].
Qed.

Lemma emerges_more slot slots s : emerges slots s -> emerges (slot :: slots) s.
Proof.
  intros (taken & left & [H1 H2 H3 H4 H5]). exists taken, left. split; try done. intros g (c & ? & ?)%H5. exists c. split; [done|by right].
Qed.
Lemma alone_single c : c ∈ universe -> alone universe c <-> [c] ∈ groups.
Proof.
  intros Hc. split.
  - intros Ha. destruct (group_by_id_ok c Hc) as [Hg Hcg]. destruct (dependency_groups_ok _ _ groups_ok) as (Hids & _ & Hgs).
    destruct (Hgs _ Hg) as (_ & Hsub & _). set (g := group_by_id groups c) in *.
    assert (forall b, b ∈ g -> b = c) as Hall.
    { intros b Hb. apply Ha; [by apply (group_in g)|]. by apply (group_linked g c b Hg Hcg); [apply (group_in g)|]. }
    assert (NoDup g) as Hn by (eapply sublist_NoDup; [by eapply NoDup_fmap_1|exact Hsub]).
    destruct g as [|x [|y l]]; [by apply elem_of_nil in Hcg|by rewrite <- (Hall x) by by left|exfalso].
    rewrite (Hall x), (Hall y) in Hn by (by left || (right; by left)). apply NoDup_cons in Hn as [Hn _]. apply Hn. by left.
  - intros Hg b Hb Hl. apply (group_linked [c] c b Hg) in Hl; [by apply list_elem_of_singleton in Hl|by left|done].
Qed.
Lemma atomic_groups_big cands : forall ids g, g ∈ atomic_groups groups ids cands -> len g <> 1.
Proof.
  induction cands as [|c cands IH]; intros ids g; cbn [atomic_groups]; [by intros ?%elem_of_nil|]. destruct (_ || _) eqn:E; [by apply IH|].
  apply orb_false_iff in E as [E _]. intros [->|?]%elem_of_cons; [by apply Z.eqb_neq|by eapply IH].
Qed.
(** Where the run of consecutive events behind a block breaks off. *)
Lemma contiguous_break earlier : forall current, Forall (fun c => is_some (cb_event_sequence c) = true) (current :: earlier) ->
  exists pre, rev (current :: earlier) = pre ++ contiguous_from current earlier
    /\ (pre = [] \/ exists pre' x y post m n, pre = pre' ++ [x] /\ contiguous_from current earlier = y :: post
        /\ cb_event_sequence x = Some m /\ cb_event_sequence y = Some n /\ m + len (cb_source_event_ids x) <> n).
Proof.
  induction earlier as [|previous earlier IH]; intros current Hall; [exists []; by auto|]. cbn [contiguous_from].
  apply Forall_cons in Hall as [Hcur Hall]. pose proof Hall as [Hprev _]%Forall_cons.
  destruct (cb_event_sequence previous) as [m|] eqn:Em; [|done]. destruct (cb_event_sequence current) as [n|] eqn:En; [|done].
  destruct (negb _) eqn:E.
  - exists (rev (previous :: earlier)). split; [done|]. right. exists (rev earlier), previous, current, [], m, n.
    apply negb_true_iff, Z.eqb_neq in E. split_and!; done.
  - destruct (IH previous Hall) as (pre & Ep & Hb). exists pre. cbn [rev] in *. rewrite Ep, app_assoc. split; [done|].
    destruct Hb as [->|(pre' & x & y & post & m' & n' & -> & Ec & ? & ? & ?)]; [by left|right].
    exists pre', x, y, (post ++ [current]), m', n'. rewrite Ec. split_and!; done.
Qed.
Lemma outside_tail l c : c ∈ l -> is_some (cb_event_sequence c) = true -> c ∉ _contiguous_raw_tail l ->
  exists pre x y post m n, List.filter (fun c => is_some (cb_event_sequence c)) l = pre ++ x :: y :: post /\ c ∈ pre ++ [x]
    /\ cb_event_sequence x = Some m /\ cb_event_sequence y = Some n /\ m + len (cb_source_event_ids x) <> n.
Proof.
  intros Hc Hs Hno. unfold _contiguous_raw_tail in Hno. set (seqd := List.filter _ l) in *.
  assert (c ∈ seqd) as Hin by by apply elem_of_filter_bool.
  destruct (rev seqd) as [|current earlier] eqn:Er.
  { exfalso. rewrite <- (rev_involutive seqd), Er in Hin. by apply elem_of_nil in Hin. }
  destruct (contiguous_break earlier current) as (pre & Ep & Hb).
  { rewrite <- Er. apply Forall_forall. intros b Hb%list_elem_of_In%in_rev%list_elem_of_In. by apply elem_of_filter_bool in Hb as [_ Hb]. }
  rewrite <- Er, rev_involutive in Ep. rewrite Ep in Hin. apply elem_of_app in Hin as [Hin|Hin]; [|done].
  destruct Hb as [->|(pre' & x & y & post & m & n & -> & Ec & ? & ? & ?)]; [by apply elem_of_nil in Hin|].
  exists pre', x, y, post, m, n. rewrite Ep, Ec, <- app_assoc. by split_and!.
Qed.
Lemma longest_exceeds critical tail : forall pre c post, tail = pre ++ c :: post ->
  c ∉ _longest_raw_suffix counts separator_cost b_ac critical tail ->
  b_ac < estimate (count_of counts) separator_cost (critical ++ c :: post).
Proof.
  assert (Hest : forall d rest, estimate (count_of counts) separator_cost (critical ++ d :: rest)
    = sumZ (count_of counts) critical + sumZ (count_of counts) (d :: rest)
      + (if len critical + len (d :: rest) =? 0 then 0 else separator_cost * (len critical + len (d :: rest) - 1))).
  { intros d rest. unfold estimate. rewrite sumZ_app, len_app, len_cons. pose proof (len_nonneg critical). pose proof (len_nonneg rest).
    rewrite (proj2 (Z.eqb_neq _ _)) by lia. by destruct critical. }
  induction tail as [|d tail IH]; intros pre c post E Hno; [by destruct pre|]. cbn [_longest_raw_suffix] in Hno.
  destruct (_ <=? b_ac) eqn:El.
  { exfalso. apply Hno. rewrite E. apply elem_of_app. right. by left. }
  destruct pre as [|d' pre]; injection E as <- E.
  - rewrite <- E, Hest. apply Z.leb_gt in El. exact El.
  - by apply (IH pre).
Qed.

(** One raw slot, not gone through before. *)
Section raw_slot.
Variables (slots : list RuntimeSlot) (slot : RuntimeSlot) (s : Selecting).
Hypotheses (s_emerges : emerges slots s) (slot_new : slot ∉ slots) (slot_raw : raw_slot slot = true).
Let cands := List.filter (fun c => eqb_of (cb_slot c) slot && negb (handled s c)) universe.
Let s1 := foldl (emergency_group counts separator_cost b_ac) s (atomic_groups groups ∅ cands).
Let rest := List.filter (fun c => negb (handled s1 c)) cands.
Let raw := _longest_raw_suffix counts separator_cost b_ac (selected_of universe s1) (_contiguous_raw_tail rest).

Lemma raw_cands c : c ∈ cands <-> (c ∈ universe /\ cb_slot c = slot) /\ handled s c = false.
Proof. unfold cands. rewrite elem_of_filter_bool, andb_true_iff, negb_true_iff. unfold eqb_of. rewrite bool_decide_eq_true. tauto. Qed.
Lemma raw_cands_universe : cands ⊆ universe.
Proof. intros c Hc. by apply raw_cands in Hc as [[? _] _]. Qed.
(** No raw event that stands alone was settled before its slot. *)
Lemma raw_unsettled z : z ∈ universe -> cb_slot z = slot -> [z] ∈ groups -> handled s z = false.
Proof.
  intros Hz Ez Hg. destruct (handled s z) eqn:Eh; [exfalso|done]. destruct s_emerges as (taken & left & He).
  pose proof (handled_group s taken left [z] z (em_settled _ _ _ _ He) Hg ltac:(by left) Eh) as Hin.
  destruct (em_slots _ _ _ _ He [z] Hin) as (c & ->%list_elem_of_singleton & Hc). by rewrite Ez in Hc.
Qed.
Lemma raw_atomic g : g ∈ atomic_groups groups ∅ cands -> (g ∈ groups /\ fresh s g) /\ exists c, c ∈ g /\ cb_slot c ∈ slot :: slots.
Proof.
  destruct (atomic_groups_ok cands ∅ raw_cands_universe) as (_ & Hin & _). intros (Hg & c & Hc & Hcc & _)%Hin.
  apply raw_cands in Hcc as [[_ Ec] Hcc]. split; [split; [done|]|exists c; split; [done|rewrite Ec; by left]].
  exact (unhandled_fresh s g c (emerges_settled _ _ s_emerges) Hg Hc Hcc).
Qed.
Lemma raw_handled1 : sl_handled_ids s1 = ids_of (concat (atomic_groups groups ∅ cands)) ∪ sl_handled_ids s.
Proof.
  apply (groups_fold _ (atomic_groups groups ∅ cands) emergency_settles_group s); [by apply atomic_groups_ok, raw_cands_universe|].
  intros g Hg. by apply raw_atomic.
Qed.
Lemma raw_first : emerges (slot :: slots) s1.
Proof.
  apply fold_emerges; [apply emergency_settles_group|by apply atomic_groups_ok, raw_cands_universe|by intros g [? _]%raw_atomic| |by apply emerges_more].
  intros t g [[Hg _] Hslot]%raw_atomic Ht Hf. by apply emergency_group_emerges.
Qed.
(** What is left to the raw events are those that stand alone. *)
Lemma raw_rest c : c ∈ rest <-> c ∈ universe /\ cb_slot c = slot /\ [c] ∈ groups.
Proof.
  unfold rest. rewrite elem_of_filter_bool, raw_cands. unfold handled at 2. rewrite negb_true_iff, bool_decide_eq_false, raw_handled1. split.
  - intros [[[Hc Ec] Hh] Hh1]. split_and!; [done..|]. destruct (group_by_id_ok c Hc) as [Hg Hcg].
    destruct (decide (len (group_by_id groups c) = 1)) as [Hl|Hl].
    + destruct (group_by_id groups c) as [|x [|y l]] eqn:Eg; unfold len in Hl; cbn in Hl; [lia| |lia].
      by apply list_elem_of_singleton in Hcg as ->.
    + exfalso. destruct (atomic_groups_ok cands ∅ raw_cands_universe) as (_ & _ & Hcov).
      destruct (Hcov c ltac:(by apply raw_cands) Hl) as [|(g & Hgg & Hcg')]; [set_solver|]. apply Hh1, elem_of_union_l, elem_of_ids, concat_elem. eauto.
  - intros (Hc & Ec & Hg). pose proof (raw_unsettled c Hc Ec Hg) as Hh. split; [done|].
    intros [(b & (g & Hgg & Hb)%concat_elem & Eb)%ids_elem|Hx]%elem_of_union.
    + destruct (raw_atomic g Hgg) as [[Hgin _] _]. assert (c = b) as -> by (apply block_eq; [done|by apply (group_in g)|done]).
      apply (atomic_groups_big _ _ _ Hgg). by rewrite (groups_disjoint g [b] b Hgin Hg Hb ltac:(by left)).
    + unfold handled in Hh. by bool_hyps.
Qed.
Lemma raw_rest_nodup : NoDup rest.
Proof. apply NoDup_filter_bool, NoDup_filter_bool. by eapply NoDup_fmap_1, universe_ids. Qed.
Lemma raw_rest_fresh c : c ∈ rest -> [c] ∈ groups /\ fresh s1 [c].
Proof.
  intros Hc. split; [by apply raw_rest in Hc as (_ & _ & ?)|]. intros b ->%list_elem_of_singleton. unfold rest in Hc.
  apply elem_of_filter_bool in Hc as [_ Hc]. unfold handled in Hc. by apply negb_true_iff, bool_decide_eq_false in Hc.
Qed.
Lemma raw_slot_in c : c ∈ rest -> exists b, b ∈ [c] /\ cb_slot b ∈ slot :: slots.
Proof. intros (_ & Ec & _)%raw_rest. exists c. split; [by left|]. rewrite Ec. by left. Qed.
(** What was selected before the raw events is essential and settled. *)
Lemma raw_critical b : b ∈ selected_of universe s1 -> (b ∈ universe /\ essential universe b) /\ cb_block_id b ∈ sl_handled_ids s1.
Proof.
  intros Hb. unfold selected_of in Hb. apply elem_of_filter_bool in Hb as [Hbu Hb]. apply bool_decide_eq_true in Hb.
  destruct raw_first as (taken & left & He). destruct (em_settled _ _ _ _ He) as (Hgr & _ & Hsel & Hh & _). rewrite Hsel in Hb.
  apply ids_elem in Hb as (a & Ha & Ea). apply concat_elem in Ha as (g & Hgt & Ha).
  assert (b = a) as -> by (apply block_eq; [done|apply (group_in g); [apply Hgr, elem_of_app; by left|done]|done]).
  split; [split; [done|by eapply (em_taken _ _ _ _ He)]|]. rewrite Hh. apply elem_of_ids, concat_elem. exists g. split; [apply elem_of_app; by left|done].
Qed.
Lemma raw_excused c : c ∈ rest -> c ∉ raw -> excused c.
Proof.
  intros Hc Hno. pose proof (proj1 (raw_rest c) Hc) as (Hcu & Ec & Hg). apply (alone_single c Hcu) in Hg.
  destruct (decide (c ∈ _contiguous_raw_tail rest)) as [Htail|Htail].
  - pose proof Htail as (pre & post & Et)%list_elem_of_split. pose proof (longest_exceeds _ _ pre c post Et Hno) as Hlt.
    assert (NoDup (c :: post) /\ forall b, b ∈ c :: post -> b ∈ rest) as [Hnp Hpost].
    { destruct (raw_tail_suffix rest) as [pre0 Ers]. rewrite Et, app_assoc in Ers. by apply (suffix_filter_elem _ _ _ _ Ers raw_rest_nodup). }
    apply (estimate_exceeds _ _ _ _ _ (selected_of universe s1 ++ c :: post)); [| |apply elem_of_app; right; by left|exact Hlt].
    + apply NoDup_app. split_and!; [apply NoDup_filter_bool; by eapply NoDup_fmap_1, universe_ids| |done].
      intros b [_ Hb]%raw_critical Hbp%Hpost. destruct (raw_rest_fresh b Hbp) as [_ Hf]. by apply (Hf b ltac:(by left)).
    + intros b [[Hb _]%raw_critical|Hb%Hpost]%elem_of_app; [done|]. apply raw_rest in Hb as (? & Eb & _). split; [done|]. right. by rewrite Eb.
  - apply behind_gap. split; [by rewrite Ec|]. split; [done|]. destruct (cb_event_sequence c) as [q|] eqn:Eq; [right|by left].
    destruct (outside_tail rest c Hc) as (pre & x & y & post & m & n & El & Hcx & Hm & Hn & Hgap); [by rewrite Eq|done|].
    exists pre, x, y, post, m, n. split_and!; try done. rewrite <- El, Ec. split.
    + unfold rest, cands. etransitivity; [apply filter_bool_sublist|]. etransitivity; apply filter_bool_sublist.
    + intros z. rewrite elem_of_filter_bool, raw_rest. split.
      * intros [(Hz & Ez & Hgz) ?]. split_and!; [done..|by apply alone_single].
      * intros (Hz & Ez & ? & Hgz). split_and!; [done|done|by apply alone_single|done].
Qed.
Lemma raw_slot_emerges : emerges (slot :: slots) (emergency_raw_slot counts separator_cost b_ac groups universe cands s).
Proof.
  destruct (selected_raw_ok (selected_of universe s1) rest raw_rest_nodup) as [Hnraw Hsub]. fold raw in Hnraw, Hsub.
  assert (Hraws : emerges (slot :: slots) (foldl (fun s c => accept s [c]) s1 raw)).
  { rewrite foldl_singletons. apply fold_emerges; [by left|by apply NoDup_singletons| | |apply raw_first].
    - intros g (c & -> & Hc)%list_elem_of_fmap. by apply raw_rest_fresh, Hsub.
    - intros t g (c & -> & Hc%Hsub)%list_elem_of_fmap Ht Hf. apply take_emerges; [done|by apply raw_rest_fresh|done| |by apply raw_slot_in].
      intros b ->%list_elem_of_singleton. right. by apply raw_rest in Hc as (_ & -> & _). }
  destruct (singles_fold accept raw s1) as [_ E2]; [by left|done| |].
  { intros c Hc%Hsub%raw_rest_fresh. split; [apply Hc|]. apply (proj2 Hc c). by left. }
  unfold emergency_raw_slot. fold s1. fold rest. fold raw. unfold accept in Hraws, E2. set (s2 := foldl _ s1 raw) in *.
  rewrite foldl_skip. set (omitted := List.filter _ rest).
  assert (Hom : forall c, c ∈ omitted -> c ∈ rest /\ cb_block_id c ∉ ids_of raw).
  { intros c. unfold omitted. by rewrite elem_of_filter_bool, negb_true_iff, bool_decide_eq_false. }
  rewrite (foldl_singletons (fun s g => Budget.refuse counts s g "EMERGENCY_RAW_PREFIX_OMITTED")).
  apply (fold_emerges _ (fun s g => refuse s g "EMERGENCY_RAW_PREFIX_OMITTED")); [right; by eexists|apply NoDup_singletons, NoDup_filter_bool, raw_rest_nodup| | |done].
  - intros g (c & -> & [Hc Hno]%Hom)%list_elem_of_fmap. destruct (raw_rest_fresh c Hc) as [Hg Hf]. split; [done|].
    intros b ->%list_elem_of_singleton. rewrite E2. pose proof (Hf c ltac:(by left)). set_solver.
  - intros t g (c & -> & [Hc Hno]%Hom)%list_elem_of_fmap Ht Hf. apply leave_emerges; [done|by apply raw_rest_fresh|done| |by apply raw_slot_in].
    intros b ->%list_elem_of_singleton _. apply raw_excused; [done|]. intros Hin. by apply Hno, elem_of_ids.
Qed.
End raw_slot.
Lemma slot_emerges slots slot s : emerges slots s -> slot ∉ slots ->
  emerges (slot :: slots) (emergency_slot counts separator_cost b_ac groups universe s slot).
Proof.
  intros He Hslot. unfold emergency_slot. destruct (raw_slot slot) eqn:Hraw; [by apply raw_slot_emerges|].
  apply (emerges_more slot) in He. set (cands := List.filter _ universe).
  assert (Hc : forall c, c ∈ cands -> c ∈ universe /\ cb_slot c = slot).
  { intros c. unfold cands. rewrite elem_of_filter_bool, andb_true_iff. unfold eqb_of. rewrite bool_decide_eq_true. tauto. }
  clearbody cands. revert s He. induction cands as [|c cands IH]; intros s He; [done|]. cbn [foldl].
  destruct (Hc c) as [Hcu Ec]; [by left|]. apply IH; [intros b Hb; apply Hc; by right|].
  unfold emergency_step. destruct (handled s c) eqn:Eh; [done|]. destruct (group_by_id_ok c Hcu) as [Hg Hcg].
  apply emergency_group_emerges; [done|done| |].
  - by apply (unhandled_fresh s _ c (emerges_settled _ _ He)).
  - exists c. split; [done|]. rewrite Ec. by left.
Qed.
Lemma emergency_excuses c : c ∈ universe -> cb_required c = true ->
  c ∉ selected_of universe (emergency_run counts separator_cost b_ac groups universe) -> excused c.
Proof.
  intros Hc Hr Hno. pose proof emergency_settles as (_ & _ & Hcov); [by exists [], []; apply start_settled|].
  assert (exists slots, emerges slots (emergency_run counts separator_cost b_ac groups universe)) as (slots & taken & left & He).
  { unfold emergency_run. assert (emerges [] selecting_start) as Hstart.
    { exists [], []. split; [apply start_settled|done|by intros g c' ?%elem_of_nil|by intros g c' ?%elem_of_nil|by intros g ?%elem_of_nil]. }
    assert (Hn : NoDup RUNTIME_SLOT_PRIORITY) by (apply (bool_decide_unpack _); vm_compute; exact I).
    assert (Hd : forall slot, slot ∈ RUNTIME_SLOT_PRIORITY -> slot ∉ ([] : list RuntimeSlot)) by (intros slot _ ?%elem_of_nil; done).
    revert Hstart Hn Hd. generalize (@nil RuntimeSlot), selecting_start. induction RUNTIME_SLOT_PRIORITY as [|slot l IH]; intros slots s Hs Hn Hd; [by exists slots|].
    cbn [foldl]. apply NoDup_cons in Hn as [Hno' Hn]. apply (IH (slot :: slots)); [apply slot_emerges; [done|apply Hd; by left]|done|].
    intros slot' Hs' [->|Hin]%elem_of_cons; [done|]. by apply (Hd slot'); [right|]. }
  pose proof (em_settled _ _ _ _ He) as (Hin & _ & Hsel & Hh & _). specialize (Hcov _ (elem_of_ids _ _ Hc)). rewrite Hh in Hcov.
  apply ids_elem in Hcov as (b & (g & Hg & Hb)%concat_elem & Eb).
  assert (c = b) as <- by (apply block_eq; [done|by apply (group_in g); [apply Hin|]|done]).
  apply elem_of_app in Hg as [Hg|Hg]; [exfalso|by eapply (em_left _ _ _ _ He)].
  apply Hno. unfold selected_of. apply elem_of_filter_bool. split; [done|]. apply bool_decide_eq_true. rewrite Hsel. apply elem_of_ids, concat_elem. eauto.
Qed.

(** ** What a finished selection is *)

(** Selected and rejected are the whole universe, each block once, and the
    selection has the companions of its blocks. *)
Definition accounted (selected : list CandidateBlock) (rejected : list BlockTrace) : Prop :=
  block_ids selected ++ map bt_block_id rejected ≡ₚ block_ids universe.
Lemma settled_outcome s : settles selecting_start s universe ->
  accounted (selected_of universe s) (sl_rejected s)
  /\ closed_under universe (ids_of (selected_of universe s))
  /\ (sl_required_missing s = false -> forall c, c ∈ universe -> cb_required c = true -> c ∈ selected_of universe s).
Proof.
  intros Hset. destruct Hset as ((taken & left & Hs) & _ & Hcov); [by exists [], []; apply start_settled|].
  pose proof Hs as (Hin & Hn & Hsel & Hh & Hr & Hm).
  assert (forall c, c ∈ universe -> c ∈ concat taken \/ c ∈ concat left) as Hall.
  { intros c Hc. pose proof (Hcov _ (elem_of_ids _ _ Hc)) as Hi. rewrite Hh in Hi. apply ids_elem in Hi as (b & Hb & Eb).
    apply concat_elem in Hb as (g & Hg & Hbg).
    assert (c = b) as -> by (apply block_eq; [done|by apply (group_in g); [apply Hin|]|done]).
    apply elem_of_app in Hg as [Hg|Hg]; [left|right]; apply concat_elem; eauto. }
  assert (forall c, c ∈ selected_of universe s <-> c ∈ concat taken) as Hselected.
  { intros c. unfold selected_of. rewrite elem_of_filter_bool, bool_decide_eq_true, Hsel. split.
    - intros [Hc (b & Hb & Eb)%ids_elem]. apply concat_elem in Hb as Hb'. destruct Hb' as (g & Hg & Hbg).
      assert (c = b) as ->; [|done]. apply block_eq; [done| |done]. apply (group_in g); [|done].
      apply Hin, elem_of_app. by left.
    - intros Hc. split; [|by apply elem_of_ids]. apply concat_elem in Hc as (g & Hg & Hcg). apply (group_in g); [|done].
      apply Hin, elem_of_app. by left. }
  assert (forall c, c ∈ concat taken -> c ∉ concat left) as Hdisj.
  { intros c (g & Hg & Hcg)%concat_elem (h & Hh' & Hch)%concat_elem.
    assert (g = h) as -> by (eapply groups_disjoint; [apply Hin, elem_of_app; by left|apply Hin, elem_of_app; by right|done..]).
    apply NoDup_app in Hn as (_ & Hd & _). by apply (Hd h). }
  split_and!.
  - unfold accounted. rewrite Hr. unfold block_ids. rewrite <- map_app. apply Permutation_map, NoDup_Permutation.
    + apply NoDup_app. split_and!; [by apply NoDup_filter_bool; eapply NoDup_fmap_1, universe_ids| |].
      * intros c Hc. by apply Hdisj, Hselected.
      * destruct (dependency_groups_ok _ _ groups_ok) as (Hids & Hp & _).
        apply (NoDup_concat_sub left groups); [rewrite Hp; by eapply NoDup_fmap_1|by apply NoDup_app in Hn as (_ & _ & Hn)|].
        intros g Hg. apply Hin, elem_of_app. by right.
    + eapply NoDup_fmap_1, universe_ids.
    + intros c. rewrite elem_of_app, Hselected. split; [|by apply Hall].
      intros [(g & Hg & Hcg)%concat_elem|(g & Hg & Hcg)%concat_elem]; (apply (group_in g); [|done]);
        apply Hin, elem_of_app; [by left|by right].
  - intros a b Ha Hb Hab. intros (a' & Ha' & Ea)%ids_elem. apply elem_of_ids.
    assert (a = a') as <-.
    { apply block_eq; [done| |done]. unfold selected_of in Ha'. by apply elem_of_filter_bool in Ha' as [? _]. }
    apply Hselected in Ha'. apply Hselected. apply concat_elem in Ha' as (g & Hg & Hag). apply concat_elem. exists g.
    split; [done|]. apply (group_linked g a b); [apply Hin, elem_of_app; by left|done..|].
    apply rtc_once. by split_and!.
  - intros Hmiss c Hc Hreq. apply Hselected. destruct (Hall c Hc) as [|Hleft]; [done|]. exfalso.
    rewrite Hm in Hmiss. rewrite existsb_false_iff in Hmiss. specialize (Hmiss c Hleft). congruence.
Qed.
End selection.

(** ** Lemmas: exact final selection *)

Lemma dependency_groups_of l : NoDup (block_ids l) -> exists groups, dependency_groups l = Ok groups.
Proof. apply dependency_groups_total. Qed.
Lemma foldl_pick {A} (f : A -> A -> A) l : (forall x y, f x y = x \/ f x y = y) -> forall x, foldl f x l ∈ x :: l.
Proof.
  intros Hf. induction l as [|y l IH]; intros x; cbn; [by left|]. destruct (Hf x y) as [E|E]; rewrite E.
  - specialize (IH x). apply elem_of_cons in IH as [->|IH]; [by left|]. right. by right.
  - right. apply IH.
Qed.
Lemma lowest_priority_ok selected groups : dependency_groups selected = Ok groups ->
  exists choice, _lowest_priority_optional_group selected = Ok choice
    /\ match choice with
       | Some g => g ∈ groups /\ existsb cb_required g = false
       | None => forall g, g ∈ groups -> existsb cb_required g = true
       end.
Proof.
  intros Hg. unfold _lowest_priority_optional_group, removable_dependency_groups. rewrite Hg. cbn.
  destruct (List.filter _ groups) as [|g rest] eqn:E.
  - exists None. split; [done|]. rewrite filter_nil_iff in E. intros g Hin. specialize (E g Hin). by bool_hyps.
  - eexists (Some _). split; [done|]. set (h := foldl _ g rest).
    assert (h ∈ g :: rest) as Hh.
    { apply foldl_pick. intros x y. destruct (group_lt selected x y); auto. }
    rewrite <- E in Hh. apply elem_of_filter_bool in Hh as [Hh1 Hh2]. by bool_hyps.
Qed.

Section exact.
Variables (counter : TokenCounter) (counts : Counts) (b_ac : Z) (universe : list CandidateBlock).
Hypothesis ids_unique : NoDup (block_ids universe).

(** A selection the loop may hold: blocks of the universe with their companions. *)
Definition packable (selected : list CandidateBlock) : Prop :=
  NoDup (block_ids selected) /\ (forall c, c ∈ selected -> c ∈ universe) /\ closed_under universe (ids_of selected).

Lemma packable_block selected c : packable selected -> c ∈ universe -> cb_block_id c ∈ ids_of selected -> c ∈ selected.
Proof.
  intros (_ & Hu & _) Hc (b & Hb & Eb)%ids_elem. by rewrite (key_unique cb_block_id universe c b ids_unique Hc (Hu b Hb) Eb).
Qed.
Lemma remove_elem selected g c : packable selected -> (forall b, b ∈ g -> b ∈ selected) ->
  c ∈ remove_group selected g <-> c ∈ selected /\ c ∉ g.
Proof.
  intros Hp Hg. pose proof Hp as (_ & Hu & _). unfold remove_group.
  rewrite elem_of_filter_bool, negb_true_iff, bool_decide_eq_false. split; intros [Hc Hno]; (split; [done|]).
  - intros Hcg. by apply Hno, elem_of_ids.
  - intros (b & Hb & Eb)%ids_elem. apply Hno.
    by rewrite (key_unique cb_block_id universe c b ids_unique (Hu c Hc) (Hu b (Hg b Hb)) Eb).
Qed.
(** Dropping one optional component of the selection. *)
Lemma remove_packable selected groups g : packable selected -> dependency_groups selected = Ok groups ->
  g ∈ groups -> existsb cb_required g = false ->
  packable (remove_group selected g)
  /\ (length (remove_group selected g) < length selected)%nat
  /\ (forall c, c ∈ selected -> cb_required c = true -> c ∈ remove_group selected g)
  /\ block_ids (remove_group selected g) ++ block_ids g ≡ₚ block_ids selected.
Proof.
  intros Hp Hgs Hg Hreq. pose proof Hp as (Hn & Hu & Hc).
  assert (forall b, b ∈ g -> b ∈ selected) as Hsub by (intros b Hb; by eapply group_in).
  pose proof (fun c => remove_elem selected g c Hp Hsub) as Hin.
  destruct (dependency_groups_ok _ _ Hgs) as (_ & Hperm & Hgroups). destruct (Hgroups g Hg) as (Hne & Hsl & _).
  assert (block_ids (remove_group selected g) ++ block_ids g ≡ₚ block_ids selected) as Hids.
  { unfold block_ids. rewrite <- map_app. apply Permutation_map, NoDup_Permutation.
    - apply NoDup_app. split_and!; [by apply NoDup_filter_bool; eapply NoDup_fmap_1|by intros c [_ ?]%Hin|].
      eapply sublist_NoDup; [by eapply NoDup_fmap_1|exact Hsl].
    - by eapply NoDup_fmap_1.
    - intros c. rewrite elem_of_app, Hin. destruct (decide (c ∈ g)) as [Hcg|Hcg]; naive_solver. }
  split; [split; [by apply NoDup_filter_keys|split]|split; [|split; [|exact Hids]]].
  - intros c [Hcs _]%Hin. by apply Hu.
  - intros a b Ha Hb Hab (a' & Ha' & Ea)%ids_elem. apply Hin in Ha' as [Has Hag].
    assert (a = a') as <- by by apply (key_unique cb_block_id universe a a' ids_unique Ha (Hu _ Has)).
    assert (b ∈ selected) as Hbs by (apply (packable_block _ _ Hp Hb), (Hc a b Ha Hb Hab); by apply elem_of_ids).
    apply elem_of_ids, Hin. split; [done|]. intros Hbg. apply Hag.
    apply (group_linked _ _ Hgs g b a Hg Hbg Has). apply rtc_once. split_and!; [done..|]. by rewrite companions_sym.
  - apply Permutation_length in Hids. unfold block_ids in Hids. rewrite length_app, !length_map in Hids.
    destruct g as [|x g]; [done|]. cbn in Hids. lia.
  - intros c Hcs Hr. apply Hin. split; [done|]. intros Hcg. rewrite existsb_false_iff in Hreq.
    specialize (Hreq c Hcg). congruence.
Qed.

Lemma unselected (l selected : list CandidateBlock) : ~ ids_of l ⊆ ids_of selected -> exists c, c ∈ l /\ c ∉ selected.
Proof.
  intros Hno. destruct (decide (Forall (fun c => cb_block_id c ∈ ids_of selected) l)) as [Hall|Hnot].
  - exfalso. apply Hno. intros i (c & Hc & ->)%ids_elem. rewrite Forall_forall in Hall. by apply Hall.
  - apply not_Forall_Exists, Exists_exists in Hnot as (c & Hc & Hn); [|apply _]. exists c. split; [done|]. intros Hin. by apply Hn, elem_of_ids.
Qed.
Lemma linked_more l a b : (forall c, c ∈ l -> c ∈ universe) -> linked l a b -> linked universe a b.
Proof.
  intros Hl. unfold linked. induction 1 as [|x y z (Hx & Hy & Hc) _ IH]; [done|]. eapply rtc_l; [|exact IH]. split_and!; auto.
Qed.
Lemma exact_loop_ok fuel : forall selected removed, packable selected -> (length selected < fuel)%nat ->
  match exact_loop fuel counter counts b_ac selected removed with
  | Ok (selected', text, cost, removed') =>
      text = _projection_text selected' /\ _count_text counter text = Ok cost /\ cost <= b_ac
      /\ packable selected' /\ (forall c, c ∈ selected -> cb_required c = true -> c ∈ selected')
      /\ exists gone, removed' = removed ++ gone /\ block_ids selected' ++ map bt_block_id gone ≡ₚ block_ids selected
  | Err e => (exists blocks, packable blocks /\ _count_text counter (_projection_text blocks) = Err e)
      \/ e = BudgetInvariantError REQUIRED_INPUT_EXCEEDS_BUDGET
         /\ exists blocks cost, packable blocks /\ (forall b, b ∈ blocks -> exists r, r ∈ blocks /\ cb_required r = true /\ linked universe b r)
             /\ _count_text counter (_projection_text blocks) = Ok cost /\ b_ac < cost
  end.
Proof.
  induction fuel as [|fuel IH]; intros selected removed Hp Hf; [lia|]. cbn [exact_loop].
  destruct (_count_text counter (_projection_text selected)) as [cost|e] eqn:Ec; cbn [mbind result_bind]; [|left; by exists selected].
  destruct (cost <=? b_ac) eqn:El; bool_hyps.
  { split_and!; [done..|]. exists []. by rewrite !app_nil_r. }
  destruct (dependency_groups_of selected) as [groups Hgs]; [apply Hp|].
  destruct (lowest_priority_ok _ _ Hgs) as ([g|] & Eg & Hg); rewrite Eg; cbn [mbind result_bind].
  2:{ right. split; [done|]. exists selected, cost. split_and!; [done| |done|done]. intros b Hb.
      destruct (group_exists _ _ Hgs b Hb) as (g & Hgin & Hbg). specialize (Hg g Hgin).
      apply existsb_true_iff in Hg as (r & Hr & Hreq). pose proof (group_in _ _ Hgs g r Hgin Hr) as Hrs. exists r. split_and!; [done|done|].
      apply (linked_more selected); [apply Hp|]. by apply (group_linked _ _ Hgs g). }
  destruct Hg as [Hg Hreq]. destruct (remove_packable _ _ _ Hp Hgs Hg Hreq) as (Hp' & Hl & Hr & Hids).
  specialize (IH (remove_group selected g) (removed ++ map (_rejection counts "EXACT_BUDGET_COMPONENT_REMOVED") g) Hp').
  destruct (exact_loop _ _ _ _ _ _) as [[[[selected' text] c'] removed']|e].
  2:{ apply IH. lia. }
  destruct IH as (E1 & E2 & E3 & E4 & E5 & gone & E6 & E7); [lia|]. split_and!; [done..|auto|].
  exists (map (_rejection counts "EXACT_BUDGET_COMPONENT_REMOVED") g ++ gone).
  rewrite E6, app_assoc. split; [done|]. rewrite map_app, map_map. cbn. fold (block_ids g).
  rewrite <- Hids, <- E7, <- !app_assoc. f_equiv. apply Permutation_app_comm.
Qed.
End exact.

(** ** The stages of an assembly *)

Lemma select_blocks_ok counts separator_cost b_ac universe : NoDup (block_ids universe) ->
  exists mode selected rejected,
    select_blocks counts separator_cost b_ac universe = Ok (mode, selected, rejected)
    /\ accounted universe selected rejected /\ packable universe selected
    /\ (forall c, c ∈ universe -> cb_required c = true -> c ∉ selected -> left_out (count_of counts) separator_cost b_ac universe c).
Proof.
  intros Hn. destruct (dependency_groups_of universe Hn) as [groups Hg]. unfold select_blocks. rewrite Hg.
  cbn [lift_groups mbind result_bind].
  assert (forall s, packable universe (selected_of universe s) <-> closed_under universe (ids_of (selected_of universe s))) as Hpk.
  { intros s. split; [by intros (_ & _ & ?)|]. intros Hc. split; [by apply NoDup_filter_keys|split; [|done]].
    intros c Hin. unfold selected_of in Hin. by apply elem_of_filter_bool in Hin as [? _]. }
  destruct (settled_outcome universe groups Hg _ (normal_settles counts separator_cost b_ac universe groups Hg))
    as (N1 & N2 & N3).
  destruct (settled_outcome universe groups Hg _ (emergency_settles counts separator_cost b_ac universe groups Hg))
    as (E1 & E2 & _).
  destruct (sl_required_missing _) eqn:Em.
  - eexists EMERGENCY_ASSEMBLY, _, _. split; [done|]. split_and!; [done|by apply Hpk|].
    intros c. apply (emergency_excuses counts separator_cost b_ac universe groups Hg).
  - eexists NORMAL, _, _. split; [done|]. split_and!; [done|by apply Hpk|]. intros c Hc Hr Hno. exfalso. by apply Hno, N3.
Qed.

Section assembly.
Variables (view : RequestView) (candidates : list CandidateBlock) (current_input : string).
Variables (opaque_token_cost fixed_required_cost : Z) (counter : TokenCounter) (config : BudgetConfig).
Variable block_token_counts : option Counts.

(** Everything a successful assembly went through. *)
Lemma assemble_stages r :
  assemble view candidates current_input opaque_token_cost fixed_required_cost counter config block_token_counts = Ok r ->
  exists n counts unique duplicates current_input_cost duplicate_rejections mode selected rejections exact_rejections cost,
    _deduplicate candidates = (unique, duplicates)
    /\ _count_text counter current_input = Ok current_input_cost
    /\ 0 <= opaque_token_cost /\ 0 <= fixed_required_cost
    /\ budget_arithmetic opaque_token_cost fixed_required_cost current_input_cost config = Ok n
    /\ map_result (duplicate_rejection counter) duplicates = Ok duplicate_rejections
    /\ accounted unique selected rejections
    /\ packable unique (ar_selected_blocks r)
    /\ (forall c, c ∈ unique -> cb_required c = true -> c ∈ ar_selected_blocks r)
    /\ ar_projected_text r = _projection_text (ar_selected_blocks r)
    /\ _count_text counter (ar_projected_text r) = Ok cost /\ cost <= ba_b_ac n
    /\ block_ids (ar_selected_blocks r) ++ map bt_block_id exact_rejections ≡ₚ block_ids selected
    /\ _trace view (ar_selected_blocks r) (duplicate_rejections ++ rejections ++ exact_rejections) mode counts cost n
       = Ok (ar_trace r).
Proof.
  unfold assemble. intros (opaque & [Ho [= <-]]%raise_if_ok & Hr)%result_bind_ok.
  apply result_bind_ok in Hr as (fixed & [Hfx [= <-]]%raise_if_ok & Hr).
  apply result_bind_ok in Hr as (current & Hcur & Hr). apply result_bind_ok in Hr as (n & Hn & Hr).
  destruct (_deduplicate candidates) as [unique duplicates] eqn:Ed.
  apply result_bind_ok in Hr as (counts & Hcounts & Hr). apply result_bind_ok in Hr as (sep & Hsep & Hr).
  apply result_bind_ok in Hr as (dups & Hdups & Hr). destruct (deduplicate_ok _ _ _ Ed) as [_ Hids].
  destruct (select_blocks_ok counts sep (ba_b_ac n) unique Hids) as (mode & selected & rejections & Esel & Hacc & Hpk & _).
  rewrite Esel in Hr. cbn [mbind result_bind] in Hr. apply raise_if_ok in Hr as [Hreq Hr]. bool_hyps.
  apply result_bind_ok in Hr as (exact & Hex & Hr). unfold _exact_final_selection in Hex.
  pose proof (exact_loop_ok counter counts (ba_b_ac n) unique Hids (S (length selected)) selected [] Hpk ltac:(lia)) as Hloop.
  rewrite Hex in Hloop. destruct exact as [[[selected' text] cost] exact_rejections].
  destruct Hloop as (L1 & L2 & L3 & L4 & L5 & gone & L6 & L7). cbn in L6. subst gone.
  apply result_bind_ok in Hr as (trace & Ht & [= <-]). cbn.
  eexists n, counts, unique, duplicates, current, dups, mode, selected, rejections, exact_rejections, cost.
  split_and!; try done; [by bool_hyps..|].
  intros c Hc Hr. apply L5; [|done]. apply (packable_block unique Hids _ _ Hpk Hc), Hreq, elem_of_ids.
  by apply elem_of_filter_bool.
Qed.

Lemma trace_ok selected rejections mode counts cost n t : _trace view selected rejections mode counts cost n = Ok t ->
  at_total_input_cost t = ba_opaque_token_cost n + ba_b_required n + cost /\ at_ac_selected_cost t = cost
  /\ at_b_input t = ba_b_input n /\ at_current_input_cost t = ba_current_input_cost n
  /\ map bt_block_id (at_selections t) = block_ids selected
  /\ map bt_block_id (at_rejections t) ≡ₚ map bt_block_id rejections
  /\ sumZ bt_token_cost (at_selections t) + at_projection_overhead_cost t = cost.
Proof.
  unfold _trace. intros [_ [= <-]]%raise_if_ok. cbn. split_and!; try done.
  - by rewrite map_map.
  - by rewrite (py_sorted_perm rejection_lt rejections).
  - apply Zplus_minus.
Qed.
Lemma counted t c : _count_text counter t = Ok c -> counter t = Counted c.
Proof. unfold _count_text, _non_negative_cost. destruct (counter t); try done. by intros [_ [= ->]]%raise_if_ok. Qed.
Lemma arithmetic_ok opaque fixed current n : budget_arithmetic opaque fixed current config = Ok n ->
  ba_b_required n = current + fixed + bc_safety_margin config /\ ba_opaque_token_cost n = opaque
  /\ ba_current_input_cost n = current
  /\ ba_b_input n = Z.min (bc_target_input_budget config) (Z.min (bc_hard_input_ceiling config)
       (bc_model_context_limit config - bc_reserved_output_and_tools config))
  /\ ba_b_ac n = ba_b_input n - opaque - ba_b_required n /\ 0 <= ba_b_ac n.
Proof. unfold budget_arithmetic. intros [Hle [= <-]]%raise_if_ok. bool_hyps. cbn. split_and!; try done; lia. Qed.

(** What the host pays for a projection, within the effective budget. *)
Lemma assembled_cost r : assemble view candidates current_input opaque_token_cost fixed_required_cost counter config block_token_counts = Ok r ->
  counter (ar_projected_text r) = Counted (at_ac_selected_cost (ar_trace r))
  /\ at_total_input_cost (ar_trace r) <= Z.min (Z.min (bc_target_input_budget config) (bc_hard_input_ceiling config))
                                          (bc_model_context_limit config - bc_reserved_output_and_tools config).
Proof.
  intros Hok. destruct (assemble_stages r Hok) as (n & counts & unique & dups & current & dr & mode & selected & rej & er & cost
    & _ & _ & _ & _ & Hn & _ & _ & _ & _ & Htext & Hcost & Hle & _ & Ht).
  apply arithmetic_ok in Hn as (N1 & N2 & N3 & N4 & N5 & _). apply trace_ok in Ht as (T1 & T2 & _). rewrite T1, T2.
  split; [by apply counted|lia].
Qed.
(** C26. An assembled request fits: the projected text is the selected blocks' texts
    joined by blank lines, its cost is what the tokenizer counts for exactly that
    text, and opaque cost, current input, fixed cost, safety margin and projection
    together stay within the target budget, the hard ceiling and the model's
    context less the output reserve. *)
Theorem assemble_within_budget (r : AssemblyResult)
    (Hok : assemble view candidates current_input opaque_token_cost fixed_required_cost counter config
             block_token_counts = Ok r) :
  let t := ar_trace r in
  ar_projected_text r = py_join blank_line (map cb_text (ar_selected_blocks r))
  /\ counter (ar_projected_text r) = Counted (at_ac_selected_cost t)
  /\ counter current_input = Counted (at_current_input_cost t)
  /\ at_total_input_cost t = opaque_token_cost + at_current_input_cost t + fixed_required_cost
       + bc_safety_margin config + at_ac_selected_cost t
  /\ at_total_input_cost t <= bc_target_input_budget config
  /\ at_total_input_cost t <= bc_hard_input_ceiling config
  /\ at_total_input_cost t + bc_reserved_output_and_tools config <= bc_model_context_limit config.
Proof.
  destruct (assemble_stages r Hok) as (n & counts & unique & dups & current & dr & mode & selected & rej & er & cost
    & _ & Hcur & _ & _ & Hn & _ & _ & _ & _ & Htext & Hcost & Hle & _ & Ht).
  apply arithmetic_ok in Hn as (N1 & N2 & N3 & N4 & N5 & _). apply trace_ok in Ht as (T1 & T2 & _ & T4 & _).
  cbn zeta. rewrite T1, T2, T4, N3. split_and!; [done|by apply counted|by apply counted|lia..].
Qed.

(** C27. Nothing required is lost and nothing is torn: every required candidate is
    selected, the selection is a part of the canonical candidates in which no id
    repeats, and it holds every structural companion of its blocks - whatever
    mode, slot order and exact-cost removals produced it. *)
Theorem assemble_keeps_required (r : AssemblyResult)
    (Hok : assemble view candidates current_input opaque_token_cost fixed_required_cost counter config
             block_token_counts = Ok r) :
  (forall c, c ∈ canonical_candidates candidates -> cb_required c = true -> c ∈ ar_selected_blocks r)
  /\ (forall c, c ∈ ar_selected_blocks r -> c ∈ canonical_candidates candidates)
  /\ NoDup (block_ids (ar_selected_blocks r))
  /\ forall a b, a ∈ ar_selected_blocks r -> b ∈ canonical_candidates candidates -> _companions a b = true ->
       b ∈ ar_selected_blocks r.
Proof.
  destruct (assemble_stages r Hok) as (n & counts & unique & dups & current & dr & mode & selected & rej & er & cost
    & Hd & _ & _ & _ & _ & _ & _ & Hpk & Hreq & _).
  unfold canonical_candidates. rewrite Hd. cbn. destruct (deduplicate_ok _ _ _ Hd) as [_ Hids].
  pose proof Hpk as (Hn & Hu & Hc). split_and!; [done..|]. intros a b Ha Hb Hab.
  apply (packable_block unique Hids _ _ Hpk Hb), (Hc a b (Hu a Ha) Hb Hab). by apply elem_of_ids.
Qed.

(** The trace accounts for every candidate: the ids selected and the ids
    rejected are together the ids of all candidates, duplicates included, each
    exactly as often as it was given; and the selected costs and the projection
    overhead add up to the exact cost. *)
Theorem assemble_accounts_for_candidates (r : AssemblyResult)
    (Hok : assemble view candidates current_input opaque_token_cost fixed_required_cost counter config
             block_token_counts = Ok r) :
  map bt_block_id (at_selections (ar_trace r)) = block_ids (ar_selected_blocks r)
  /\ map bt_block_id (at_selections (ar_trace r)) ++ map bt_block_id (at_rejections (ar_trace r)) ≡ₚ block_ids candidates
  /\ sumZ bt_token_cost (at_selections (ar_trace r)) + at_projection_overhead_cost (ar_trace r)
      = at_ac_selected_cost (ar_trace r).
Proof.
  destruct (assemble_stages r Hok) as (n & counts & unique & dups & current & dr & mode & selected & rej & er & cost
    & Hd & _ & _ & _ & _ & Hdr & Hacc & _ & _ & _ & _ & _ & Her & Ht).
  apply trace_ok in Ht as (_ & T2 & _ & _ & T5 & T6 & T7). rewrite T2, T7. split_and!; [done| |done].
  destruct (deduplicate_ok _ _ _ Hd) as [Hp _]. unfold block_ids at 1. rewrite <- Hp, map_app.
  fold (block_ids unique) (block_ids dups). rewrite <- Hacc, <- Her, T5, T6, !map_app.
  assert (map bt_block_id dr = block_ids dups) as ->.
  { apply map_result_ok in Hdr. clear -Hdr. induction Hdr as [|c t dups dr Hc _ IH]; [done|]. cbn. rewrite IH.
    unfold duplicate_rejection in Hc. apply result_bind_ok in Hc as (x & _ & [= <-]). done. }
  clear. solve_Permutation.
Qed.

(** ** Failure *)

(** What a failed assembly raised: what a count raised, the required input that
    does not fit, or a cost or a count that was passed in and is not one. *)
Definition bad_argument (e : budget_error) : Prop := (exists code, e = BudgetInvariantError code)
  /\ (opaque_token_cost < 0 \/ fixed_required_cost < 0
      \/ exists counts c, block_token_counts = Some counts /\ c ∈ candidates
           /\ match counts !! cb_block_id c with Some n => n < 0 | None => True end).
Definition assembly_failure (e : budget_error) : Prop := (exists text, _count_text counter text = Err e)
  \/ e = BudgetInvariantError REQUIRED_INPUT_EXCEEDS_BUDGET \/ bad_argument e.
Lemma count_blocks_failure l : forall counts e, NoDup (block_ids l) -> (forall c, c ∈ l -> counts !! cb_block_id c = None) ->
  count_blocks_into counter l counts = Err e -> exists text, _count_text counter text = Err e.
Proof.
  induction l as [|c l IH]; intros counts e Hn Hno; cbn [count_blocks_into]; [done|].
  cbn in Hn. apply NoDup_cons in Hn as [Hc Hn]. rewrite (Hno c) by by left. cbn [is_some raise_if].
  destruct (_count_text counter (cb_text c)) as [n|e'] eqn:E; cbn [mbind result_bind]; [|intros [= <-]; by eexists].
  apply IH; [done|]. intros b Hb. apply lookup_insert_None. split; [apply Hno; by right|]. intros Eb. apply Hc. rewrite Eb. by apply block_ids_elem.
Qed.
Lemma take_provided_failure provided l : forall counts e, take_provided provided l counts = Err e ->
  (exists code, e = BudgetInvariantError code)
  /\ exists c, c ∈ l /\ match provided !! cb_block_id c with Some n => n < 0 | None => True end.
Proof.
  induction l as [|c l IH]; intros counts e; cbn [take_provided]; [done|].
  destruct (provided !! cb_block_id c) as [v|] eqn:Ev.
  2:{ intros [= <-]. split; [by eexists|]. exists c. rewrite Ev. split; [left|done]. }
  unfold _non_negative_cost, raise_if. destruct (v <? 0) eqn:Hv; bool_hyps; cbn [mbind result_bind].
  - intros [= <-]. split; [by eexists|]. exists c. rewrite Ev. split; [left|done].
  - intros (Hcode & b & Hb & Hp)%IH. split; [done|]. exists b. split; [by right|done].
Qed.
Lemma duplicates_failure l : forall e, map_result (duplicate_rejection counter) l = Err e -> exists text, _count_text counter text = Err e.
Proof.
  induction l as [|c l IH]; intros e; cbn [map_result]; [done|].
  destruct (duplicate_rejection counter c) as [t|e'] eqn:Et; cbn [mbind result_bind].
  - destruct (map_result _ l) as [rs|e'] eqn:Em; cbn [mbind result_bind]; [done|]. intros [= <-]. by apply IH.
  - intros [= <-]. unfold duplicate_rejection in Et.
    destruct (_count_text counter (cb_text c)) as [n|e''] eqn:E; [done|]. injection Et as <-. by eexists.
Qed.
Lemma assemble_error e : assemble view candidates current_input opaque_token_cost fixed_required_cost counter config block_token_counts = Err e ->
  assembly_failure e.
Proof.
  unfold assemble, _non_negative_cost, raise_if, assembly_failure, bad_argument.
  destruct (opaque_token_cost <? 0) eqn:Ho; bool_hyps; cbn [mbind result_bind]; [intros [= <-]; right; right; split; [by eexists|by left]|].
  destruct (fixed_required_cost <? 0) eqn:Hf; bool_hyps; cbn [mbind result_bind]; [intros [= <-]; right; right; split; [by eexists|by right; left]|].
  destruct (_count_text counter current_input) as [n|e'] eqn:E; cbn [mbind result_bind]; [|intros [= <-]; left; by eexists].
  destruct (budget_arithmetic _ _ _ _) as [a|e'] eqn:Ea; cbn [mbind result_bind].
  2: { unfold budget_arithmetic, raise_if in Ea. destruct (_ <? _); [|done]. injection Ea as <-. intros [= <-]. by right; left. }
  destruct (_deduplicate candidates) as [unique dups] eqn:Ed. destruct (deduplicate_ok _ _ _ Ed) as [Hp Hids].
  destruct (_validated_block_token_counts _ _ _) as [c|e'] eqn:Ec; cbn [mbind result_bind].
  2: { intros [= <-]. unfold _validated_block_token_counts in Ec. destruct block_token_counts as [given|].
       - apply take_provided_failure in Ec as (Hcode & c & Hc & Hn). right; right. split; [done|]. right; right. exists given, c.
         split_and!; [done| |done]. rewrite <- Hp. apply elem_of_app. by left.
       - left. eapply count_blocks_failure; [exact Hids| |exact Ec]. done. }
  destruct (_count_text counter blank_line) as [sep|e'] eqn:Es; cbn [mbind result_bind]; [|intros [= <-]; left; by eexists].
  destruct (map_result _ dups) as [dr|e'] eqn:Edr; cbn [mbind result_bind]; [|intros [= <-]; left; by eapply duplicates_failure].
  destruct (select_blocks_ok c sep (ba_b_ac a) unique Hids) as (mode & selected & rej & -> & _ & Hpk & _).
  cbn [mbind result_bind]. destruct (negb _); cbn [mbind result_bind]; [intros [= <-]; by right; left|].
  pose proof (exact_loop_ok counter c (ba_b_ac a) unique Hids (S (length selected)) selected [] Hpk ltac:(lia)) as Hloop.
  unfold _exact_final_selection. destruct (exact_loop _ _ _ _ _ _) as [[[[s t] cost] er]|e'].
  - cbn [mbind result_bind]. destruct Hloop as (_ & _ & Hle & _). unfold _trace. apply arithmetic_ok in Ea as (N1 & N2 & N3 & N4 & N5 & Hac).
    rewrite raise_if_false by (apply Z.ltb_ge; lia). done.
  - intros [= <-]. destruct Hloop as [(blocks & _ & Ht)|[-> _]]; [left; by eexists|by right; left].
Qed.

(** The texts the tokenizer counts. *)
Section failure.
Variable countable : string -> Prop.
Hypothesis counter_sound : forall text, countable text -> exists n, counter text = Counted n /\ 0 <= n.
Lemma count_text_total text : countable text -> exists n, _count_text counter text = Ok n.
Proof.
  intros Ht. destruct (counter_sound text Ht) as (n & E & Hn). exists n. unfold _count_text, _non_negative_cost. rewrite E.
  apply raise_if_ok. split; [by apply Z.ltb_ge|done].
Qed.
Lemma count_blocks_total l : (forall c, c ∈ l -> countable (cb_text c)) -> forall counts, NoDup (block_ids l) ->
  (forall c, c ∈ l -> counts !! cb_block_id c = None) -> exists counts', count_blocks_into counter l counts = Ok counts'
    /\ (forall c, c ∈ l -> count_of counts' c = text_cost counter c) /\ forall id, id ∉ block_ids l -> counts' !! id = counts !! id.
Proof.
  induction l as [|c l IH]; intros Ht counts Hn Hno; cbn [count_blocks_into].
  { exists counts. split_and!; [done|by intros c ?%elem_of_nil|done]. }
  cbn in Hn. apply NoDup_cons in Hn as [Hc Hn].
  rewrite (Hno c) by by left. cbn [is_some raise_if]. destruct (count_text_total (cb_text c)) as [n Hcount]; [apply Ht; left|]. rewrite Hcount.
  cbn [mbind result_bind]. destruct (IH ltac:(intros b Hb; apply Ht; by right) (<[cb_block_id c := n]> counts) Hn) as (counts' & E & Hin & Hout).
  { intros b Hb. apply lookup_insert_None. split; [apply Hno; by right|]. intros E. apply Hc. rewrite E. by apply block_ids_elem. }
  exists counts'. split_and!; [done| |].
  - intros b [->|Hb]%elem_of_cons; [|by apply Hin]. unfold count_of, text_cost. rewrite Hout by done. rewrite (lookup_insert_eq (counts : gmap string Z)). cbn.
    by rewrite (counted _ _ Hcount).
  - intros id Hid. cbn in Hid. apply not_elem_of_cons in Hid as [Hne Hid]. rewrite Hout by done. by apply (lookup_insert_ne (counts : gmap string Z)).
Qed.

Lemma duplicate_rejections_total l : (forall c, c ∈ l -> countable (cb_text c)) -> exists rs, map_result (duplicate_rejection counter) l = Ok rs.
Proof.
  induction l as [|c l IH]; intros Ht; cbn [map_result]; [by eexists|]. destruct IH as [rs IH]; [intros b Hb; apply Ht; by right|].
  unfold duplicate_rejection. destruct (count_text_total (cb_text c)) as [n ->]; [apply Ht; left|]. cbn [mbind result_bind]. fold (duplicate_rejection counter).
  rewrite IH. by eexists.
Qed.
(** What the blocks may cost at most *)
Definition room_left (current : Z) : Z :=
  Z.min (bc_target_input_budget config) (Z.min (bc_hard_input_ceiling config) (bc_model_context_limit config - bc_reserved_output_and_tools config))
  - (opaque_token_cost + current + fixed_required_cost + bc_safety_margin config).
(** With the counts resolved, the only failure left is required input. *)
Lemma assemble_required_only given unique dups counts (H_opaque : 0 <= opaque_token_cost) (H_fixed : 0 <= fixed_required_cost) :
  countable current_input -> countable blank_line -> (forall c, c ∈ candidates -> countable (cb_text c)) ->
  (forall blocks, (forall c, c ∈ blocks -> c ∈ candidates) -> countable (_projection_text blocks)) ->
  _deduplicate candidates = (unique, dups) -> _validated_block_token_counts unique counter given = Ok counts ->
  match assemble view candidates current_input opaque_token_cost fixed_required_cost counter config given with
  | Ok _ => True
  | Err e => e = BudgetInvariantError REQUIRED_INPUT_EXCEEDS_BUDGET
      /\ exists current separator, counter current_input = Counted current /\ counter blank_line = Counted separator
         /\ (room_left current < 0 \/ required_exceed counter (count_of counts) separator (room_left current) unique)
  end.
Proof.
  intros Hcur Hblank Htexts Hjoin Ed Ecounts. unfold assemble, _non_negative_cost. rewrite !raise_if_false by by apply Z.ltb_ge. cbn [mbind result_bind].
  destruct (count_text_total current_input Hcur) as [current Ecur]. rewrite Ecur. cbn [mbind result_bind].
  destruct (count_text_total blank_line Hblank) as [sep Esep].
  destruct (budget_arithmetic _ _ _ _) as [n|e] eqn:En; cbn [mbind result_bind].
  2:{ unfold budget_arithmetic, raise_if in En. destruct (_ <? _) eqn:El; [|done]. injection En as <-. bool_hyps.
      split; [done|]. exists current, sep. split_and!; [by apply counted|by apply counted|]. left. unfold room_left. lia. }
  apply arithmetic_ok in En as (N1 & N2 & N3 & N4 & N5 & Hac).
  assert (ba_b_ac n = room_left current) as Hroom by (unfold room_left; lia).
  rewrite Ed. destruct (deduplicate_ok _ _ _ Ed) as [Hp Hids].
  assert (forall c, c ∈ unique -> c ∈ candidates) as Hsub.
  { intros c Hc. rewrite <- Hp. apply elem_of_app. by left. }
  rewrite Ecounts. cbn [mbind result_bind]. rewrite Esep. cbn [mbind result_bind].
  destruct (duplicate_rejections_total dups) as [dr ->].
  { intros c Hc. apply Htexts. rewrite <- Hp. apply elem_of_app. by right. }
  cbn [mbind result_bind].
  destruct (select_blocks_ok counts sep (ba_b_ac n) unique Hids) as (mode & selected & rej & -> & _ & Hpk & Hleft).
  cbn [mbind result_bind]. unfold raise_if. destruct (negb _) eqn:Ereq.
  { split; [done|]. exists current, sep. split_and!; [by apply counted|by apply counted|]. right. rewrite <- Hroom.
    apply negb_true_iff, bool_decide_eq_false in Ereq.
    destruct (unselected (List.filter cb_required unique) selected Ereq) as (c & Hc & Hno). apply elem_of_filter_bool in Hc as [Hc Hr].
    eapply required_left_out; [exact Hc|exact Hr|]. by apply Hleft. }
  pose proof (exact_loop_ok counter counts (ba_b_ac n) unique Hids (S (length selected)) selected [] Hpk ltac:(lia)) as Hloop.
  unfold _exact_final_selection. destruct (exact_loop _ _ _ _ _ _) as [[[[selected' text] cost] er]|e]; cbn [mbind result_bind].
  - destruct Hloop as (_ & _ & Hle & _). unfold _trace.
    rewrite raise_if_false by (apply Z.ltb_ge; lia). done.
  - destruct Hloop as [(blocks & (_ & Hb & _) & Et)|(-> & blocks & cost & (Hn & Hb & _) & Hreq & Ec & Hlt)].
    + destruct (count_text_total (_projection_text blocks)); [|congruence]. apply Hjoin. auto.
    + split; [done|]. exists current, sep. split_and!; [by apply counted|by apply counted|]. right. rewrite <- Hroom.
      apply (required_text _ _ _ _ _ blocks cost); [done| |by apply counted|done]. intros b Hin. split; [by apply Hb|by apply Hreq].
Qed.
End failure.

Lemma estimate_ext cost cost' sep blocks : (forall b, b ∈ blocks -> cost b = cost' b) -> estimate cost sep blocks = estimate cost' sep blocks.
Proof.
  intros He. unfold estimate. f_equal. induction blocks as [|b l IH]; [done|]. rewrite !sumZ_cons, (He b) by by left.
  f_equal. apply IH. intros c Hc. apply He. by right.
Qed.
Lemma required_exceed_ext cost cost' sep room universe : (forall b, b ∈ universe -> cost b = cost' b) ->
  required_exceed counter cost sep room universe -> required_exceed counter cost' sep room universe.
Proof.
  intros He [c Hc Hr [blocks Hn Hb Hin Hlt|Hgap]|blocks n Hn Hb Hc Hlt].
  - eapply required_left_out; [exact Hc|exact Hr|]. apply (estimate_exceeds _ _ _ _ _ blocks); try done.
    erewrite <- estimate_ext; [exact Hlt|]. intros b [Hbu _]%Hb. by apply He.
  - eapply required_left_out; [exact Hc|exact Hr|]. by apply behind_gap.
  - by apply (required_text _ _ _ _ _ blocks n).
Qed.

Hypothesis counter_sound : forall text, exists n, counter text = Counted n /\ 0 <= n.
(** C28. With a tokenizer that counts every text and non-negative costs, the only
    failure is a required input that does not fit: the opaque, current and fixed
    input and the margin exceed the budget; or a required candidate is left out,
    because blocks that are all tied to required ones or raw events, it among
    them, exceed the room that is left by their estimate, or because it is a raw
    event before a gap in the sequence numbers; or the exact text of a selection
    in which every block is tied to a required one of it exceeds the room.  So no
    optional candidate but a raw event makes a request fail, and the removal
    loop always ends. *)
Theorem assemble_fails_only_on_required (H_opaque : 0 <= opaque_token_cost) (H_fixed : 0 <= fixed_required_cost) :
  match assemble view candidates current_input opaque_token_cost fixed_required_cost counter config None with
  | Ok _ => True
  | Err e => e = BudgetInvariantError REQUIRED_INPUT_EXCEEDS_BUDGET
      /\ exists current separator, counter current_input = Counted current /\ counter blank_line = Counted separator
         /\ (room_left current < 0
             \/ required_exceed counter (text_cost counter) separator (room_left current) (canonical_candidates candidates))
  end.
Proof.
  unfold canonical_candidates. destruct (_deduplicate candidates) as [unique dups] eqn:Ed. cbn [fst].
  destruct (deduplicate_ok _ _ _ Ed) as [_ Hids].
  pose proof (fun text (_ : True) => counter_sound text) as Hsound.
  destruct (count_blocks_total (fun _ => True) Hsound unique ltac:(done) ∅ Hids) as (counts & Ecounts & Hcost & _); [done|].
  pose proof (assemble_required_only (fun _ => True) Hsound None unique dups counts H_opaque H_fixed I I ltac:(done) ltac:(done) Ed Ecounts) as Honly.
  destruct (assemble _ _ _ _ _ _ _ _) as [|e]; [done|]. destruct Honly as (-> & current & sep & Hc & Hs & Hwhy). split; [done|].
  exists current, sep. split_and!; [done..|]. destruct Hwhy as [?|Hwhy]; [by left|right]. by eapply required_exceed_ext.
Qed.
End assembly.

(** ** A concrete request *)

Definition demo_view : RequestView :=
  {| rv_session_key := {| sk_platform_instance_id := "p"; sk_message_type := "m"; sk_session_id := "s";
       sk_group_id := None; sk_user_id := "u"; sk_conversation_id := "c"; sk_persona_id := None |};
     rv_snapshot := None; rv_memberships := []; rv_pointer_version := 0; rv_covered_event_end := 0;
     rv_high_water_mark := 2; rv_delta := [] |}.
Definition demo_block (id : string) (slot : RuntimeSlot) (kind : CandidateKind) (text event : string)
    (required : bool) (sequence : option Z) : CandidateBlock :=
  {| cb_block_id := id; cb_slot := slot; cb_kind := kind; cb_text := text; cb_source_event_ids := [event];
     cb_score := f_one; cb_reason := "R"; cb_required := required; cb_capsule_id := None;
     cb_event_sequence := sequence; cb_event_type := None; cb_tool_name := None;
     cb_required_selection_complete := true |}.
(** A goal, two raw events, a decision tied to a dependency, a duplicate id. *)
Definition demo_candidates : list CandidateBlock :=
  [demo_block "g" ACTIVE_GOAL GOAL "goal" "e1" true None;
   demo_block "r1" RAW_DELTA RAW_EVENT "one" "e2" true (Some 1);
   demo_block "r2" RAW_DELTA RAW_EVENT "two" "e3" true (Some 2);
   demo_block "d" RELEVANT_EVIDENCE DECISION "a decision" "e4" false None;
   demo_block "x" RELEVANT_EVIDENCE DEPENDENCY "tied" "e4" false None;
   demo_block "g" ACTIVE_GOAL GOAL "goal" "e1" true None].
Definition demo_budget : BudgetConfig :=
  {| bc_target_input_budget := 30; bc_hard_input_ceiling := 40; bc_model_context_limit := 60;
     bc_reserved_output_and_tools := 10; bc_safety_margin := 1 |}.
Definition demo_result : option AssemblyResult := Eval vm_compute in
  match assemble demo_view demo_candidates "hi" 3 2 Utf8ByteTokenCounter demo_budget None with
  | Ok r => Some r
  | Err _ => None
  end.
(** The required blocks fit; the decision and its dependency go together. *)
Example demo_selected : block_ids (default [] (ar_selected_blocks <$> demo_result)) = ["g"; "r1"; "r2"].
Proof. reflexivity. Qed.
Lemma demo_assembled : exists r,
  assemble demo_view demo_candidates "hi" 3 2 Utf8ByteTokenCounter demo_budget None = Ok r.
Proof. vm_compute. eexists. reflexivity. Qed.

Lemma assemble_within_budget_witness : exists r,
  assemble demo_view demo_candidates "hi" 3 2 Utf8ByteTokenCounter demo_budget None = Ok r
  /\ at_total_input_cost (ar_trace r) <= 30.
Proof.
  destruct demo_assembled as [r E]. exists r. split; [exact E|].
  pose proof (assemble_within_budget demo_view demo_candidates "hi" 3 2 Utf8ByteTokenCounter demo_budget None r E) as H0.
  apply H0.
Defined.
Lemma assemble_keeps_required_witness : exists r,
  assemble demo_view demo_candidates "hi" 3 2 Utf8ByteTokenCounter demo_budget None = Ok r
  /\ NoDup (block_ids (ar_selected_blocks r)).
Proof.
  destruct demo_assembled as [r E]. exists r. split; [exact E|].
  pose proof (assemble_keeps_required demo_view demo_candidates "hi" 3 2 Utf8ByteTokenCounter demo_budget None r E) as H0.
  apply H0.
Defined.
Lemma assemble_accounts_for_candidates_witness : exists r,
  assemble demo_view demo_candidates "hi" 3 2 Utf8ByteTokenCounter demo_budget None = Ok r
  /\ map bt_block_id (at_selections (ar_trace r)) ++ map bt_block_id (at_rejections (ar_trace r))
     ≡ₚ ["g"; "r1"; "r2"; "d"; "x"; "g"].
Proof.
  destruct demo_assembled as [r E]. exists r. split; [exact E|].
  pose proof (assemble_accounts_for_candidates demo_view demo_candidates "hi" 3 2 Utf8ByteTokenCounter demo_budget None r E) as H0.
  apply H0.
Defined.
(** A counter that counts every text. *)
Definition toy_length_counter : TokenCounter := fun text => Counted (utf8_length text).
Lemma length_counter_sound text : exists n, toy_length_counter text = Counted n /\ 0 <= n.
Proof. exists (utf8_length text). split; [done|apply utf8_length_nonneg]. Qed.
(** Three tokens of room: the goal and the two raw events need more. *)
Definition tight_budget : BudgetConfig :=
  {| bc_target_input_budget := 11; bc_hard_input_ceiling := 40; bc_model_context_limit := 60;
     bc_reserved_output_and_tools := 10; bc_safety_margin := 1 |}.
Lemma tight_refused : assemble demo_view demo_candidates "hi" 3 2 toy_length_counter tight_budget None
  = Err (BudgetInvariantError REQUIRED_INPUT_EXCEEDS_BUDGET).
Proof. vm_compute. reflexivity. Qed.
Lemma assemble_fails_only_on_required_witness :
  assemble demo_view demo_candidates "hi" 3 2 toy_length_counter tight_budget None = Err (BudgetInvariantError REQUIRED_INPUT_EXCEEDS_BUDGET)
  /\ required_exceed toy_length_counter (text_cost toy_length_counter) 2 3 (canonical_candidates demo_candidates).
Proof.
  split; [exact tight_refused|].
  pose proof (assemble_fails_only_on_required demo_view demo_candidates "hi" 3 2 toy_length_counter tight_budget
    length_counter_sound ltac:(lia) ltac:(lia)) as Hwhy.
  rewrite tight_refused in Hwhy. destruct Hwhy as (_ & current & sep & Hc & Hs & Hwhy).
  assert (current = 2) as -> by (vm_compute in Hc; congruence). assert (sep = 2) as -> by (vm_compute in Hs; congruence).
  destruct Hwhy as [Hneg|Hwhy]; [exfalso; vm_compute in Hneg; discriminate Hneg|exact Hwhy].
Defined.
