(* ===== verification/Projection.v ===== *)
(** The reversible projection of [runtime/projection.py] over object identities:
    a message is the [id] of its object, a message list its own [id] and its
    items.  An operation that raises leaves the list as it was; one that returns
    gives the list's new items. *)
From S2P Require Import Prelude.
Open Scope list_scope.
Open Scope Z_scope.

Inductive ProjectionStage := GUARD | PROJECT | RESTORE.
Inductive ProjectionErrorCode :=
| MESSAGE_LIST_INVALID | LIST_IDENTITY_MISMATCH | REQUEST_IDENTITY_MISMATCH | PRESERVED_OBJECT_INVALID
| PRESERVED_OBJECT_MISMATCH | PROJECTION_OBJECT_INVALID | PROJECTED_PREFIX_MISMATCH.

Inductive projection_error :=
| ProjectionInvariantError (code : ProjectionErrorCode) (stage : ProjectionStage)
    (expected_count actual_count : Z) (message_list_identity_match : bool)
| StopIteration | IndexError.

(** An object by identity, and what is passed where a message list is expected. *)
Definition object := Z.
Inductive messages := NotAList | AList (identity : Z) (items : list object).

Record ProjectionGuard := {
  pg_request_identity : Z; pg_message_list_identity : Z;
  pg_native_objects : list object; pg_native_history_objects : list object;
  pg_system_objects : list object; pg_current_objects : list object;
}.
Record ProjectedView := {
  pv_guard : ProjectionGuard; pv_request_identity : Z; pv_message_list_identity : Z;
  pv_pre_projection_objects : list object; pv_projection_objects : list object;
  pv_projected_objects : list object;
}.
Record RestoredView := {
  rv_projected : ProjectedView; rv_delta_objects : list object; rv_restored_objects : list object;
}.

Definition _same_identity_sequence (a b : list object) : bool :=
  (len a =? len b) && forallb (fun p => p.1 =? p.2) (zip a b).
Definition _identity_occurrences (items targets : list object) : Z :=
  sumZ (fun target => sumZ (fun message => if message =? target then 1 else 0) items) targets.
Definition _identity_is_unique (objects : list object) : bool := no_duplicates objects.
Definition _contains_identity (objects : list object) (target : object) : bool :=
  existsb (fun item => item =? target) objects.
(** [index for target in group for index, message in enumerate(messages) if message is target] *)
Definition positions (group items : list object) : list Z :=
  flat_map (fun target => map fst (List.filter (fun p => p.2 =? target) (enumerate items))) group.

Definition _validate_message_list (m : messages) (stage : ProjectionStage) (expected_identity : option Z)
    : result projection_error (list object) :=
  match m with
  | NotAList => Err (ProjectionInvariantError MESSAGE_LIST_INVALID stage 0 0 false)
  | AList identity items =>
      raise (ProjectionInvariantError LIST_IDENTITY_MISMATCH stage 0 (len items) false)
        when (match expected_identity with Some expected => negb (identity =? expected) | None => false end);;
      Ok items
  end.
Fixpoint _validate_order (groups : list (list object)) (items : list object) (stage : ProjectionStage)
    : result projection_error unit :=
  match groups with
  | [] => Ok tt
  | group :: groups =>
      raise (ProjectionInvariantError PRESERVED_OBJECT_MISMATCH stage (len group) (len (positions group items)) true)
        when negb (bool_decide (positions group items = order_by id (positions group items)));;
      _validate_order groups items stage
  end.
Definition _validate_preserved (items : list object) (guard : ProjectionGuard) (stage : ProjectionStage)
    : result projection_error unit :=
  let preserved := pg_system_objects guard ++ pg_current_objects guard in
  let actual_count := _identity_occurrences items preserved in
  raise (ProjectionInvariantError PRESERVED_OBJECT_MISMATCH stage (len preserved) actual_count true)
    when negb (actual_count =? len preserved);;
  _validate_order [pg_system_objects guard; pg_current_objects guard] items stage.

Definition guard_projection (request : object) (m : messages) (system_objects current_objects : list object)
    : result projection_error ProjectionGuard :=
  items ← _validate_message_list m GUARD None;
  let preserved := system_objects ++ current_objects in
  let actual_count := _identity_occurrences items preserved in
  raise (ProjectionInvariantError PRESERVED_OBJECT_INVALID GUARD (len preserved) actual_count true)
    when (match current_objects with [] => true | _ => false end) || negb (_identity_is_unique preserved);;
  raise (ProjectionInvariantError PRESERVED_OBJECT_MISMATCH GUARD (len preserved) actual_count true)
    when negb (actual_count =? len preserved);;
  Ok {| pg_request_identity := request;
        pg_message_list_identity := (match m with AList identity _ => identity | NotAList => 0 end);
        pg_native_objects := items;
        pg_native_history_objects := List.filter (fun item => negb (_contains_identity preserved item)) items;
        pg_system_objects := system_objects; pg_current_objects := current_objects |}.

(** [next(index for index, message in enumerate(items) if message is target)] *)
Definition index_of (items : list object) (target : object) : result projection_error Z :=
  match List.find (fun p => p.2 =? target) (enumerate items) with
  | Some p => Ok p.1
  | None => Err StopIteration
  end.

Definition project (m : messages) (guard : ProjectionGuard) (projection_objects : list object)
    : result projection_error (ProjectedView * list object) :=
  items ← _validate_message_list m PROJECT (Some (pg_message_list_identity guard));
  _ ← _validate_preserved items guard PROJECT;
  raise (ProjectionInvariantError PROJECTION_OBJECT_INVALID PROJECT (Z.max 1 (len projection_objects))
           (len projection_objects) true)
    when negb (_identity_is_unique projection_objects)
         || existsb (fun projection => _contains_identity items projection) projection_objects;;
  let retained := List.filter (fun message => negb (_contains_identity (pg_native_history_objects guard) message)) items in
  match pg_current_objects guard with
  | [] => Err (match retained with [] => StopIteration | _ => IndexError end)
  | first_current :: _ =>
      current_start ← index_of retained first_current;
      let projected_objects := take_z current_start retained ++ projection_objects
                               ++ drop (Z.to_nat current_start) retained in
      Ok ({| pv_guard := guard; pv_request_identity := pg_request_identity guard;
             pv_message_list_identity := pg_message_list_identity guard; pv_pre_projection_objects := items;
             pv_projection_objects := projection_objects; pv_projected_objects := projected_objects |},
          projected_objects)
  end.

Definition restore (m : messages) (projected : ProjectedView) : result projection_error (RestoredView * list object) :=
  let guard := pv_guard projected in
  items ← _validate_message_list m RESTORE None;
  let same_list := match m with AList identity _ => identity =? pv_message_list_identity projected | NotAList => false end in
  raise (ProjectionInvariantError REQUEST_IDENTITY_MISMATCH RESTORE 1 0 true)
    when negb (pv_request_identity projected =? pg_request_identity guard);;
  let current_positions := positions (pg_current_objects guard) items in
  raise (ProjectionInvariantError PROJECTED_PREFIX_MISMATCH RESTORE (len (pg_current_objects guard))
           (len current_positions) same_list)
    when negb (len current_positions =? len (pg_current_objects guard))
         || negb (bool_decide (current_positions = order_by id current_positions));;
  match last current_positions with
  | None => Err IndexError
  | Some last_position =>
      let delta_objects := drop (Z.to_nat (last_position + 1)) items in
      raise (ProjectionInvariantError PROJECTED_PREFIX_MISMATCH RESTORE 0 1 same_list)
        when existsb (fun projection => _contains_identity delta_objects projection) (pv_projection_objects projected);;
      let restored_objects := pv_pre_projection_objects projected ++ delta_objects in
      Ok ({| rv_projected := projected; rv_delta_objects := delta_objects; rv_restored_objects := restored_objects |},
          restored_objects)
  end.

Definition verify_native (m : messages) (restored : RestoredView) : bool :=
  match m with
  | NotAList => false
  | AList _ items =>
      let guard := pv_guard (rv_projected restored) in
      _same_identity_sequence items (pg_native_objects guard ++ rv_delta_objects restored)
  end.

(** ** Lemmas: positions *)

Lemma contains_spec l x : _contains_identity l x = true <-> x ∈ l.
Proof.
  unfold _contains_identity. rewrite existsb_true_iff. split.
  - intros (y & Hy & E). bool_hyps. by subst.
  - intros Hx. exists x. split; [done|apply Z.eqb_refl].
Qed.
Lemma contains_false l x : _contains_identity l x = false <-> x ∉ l.
Proof. rewrite <- contains_spec. by destruct (_contains_identity l x). Qed.

(** Positions counted from [i]. *)
Definition positions_from (i : Z) (group items : list object) : list Z :=
  flat_map (fun target => map fst (List.filter (fun p => p.2 =? target) (enumerate_from i items))) group.
Lemma positions_absent i items target : target ∉ items ->
  List.filter (fun p => p.2 =? target) (enumerate_from i items) = [].
Proof.
  intros Hno. apply filter_nil_iff. intros p Hp. apply elem_of_enumerate_from in Hp as (k & Hk & _).
  apply Z.eqb_neq. intros E. apply Hno. rewrite <- E. by eapply list_elem_of_lookup_2.
Qed.
Lemma positions_skip i x group rest : x ∉ group -> positions_from i group (x :: rest) = positions_from (i + 1) group rest.
Proof.
  induction group as [|t group IH]; [done|]. rewrite not_elem_of_cons. intros [Hx Hg]. specialize (IH Hg).
  unfold positions_from in *. cbn [flat_map]. rewrite IH. cbn [enumerate_from List.filter snd].
  by rewrite (proj2 (Z.eqb_neq _ _) Hx).
Qed.
(** Objects that survive once each and in order sit at increasing positions. *)
Lemma positions_in_order items : forall i group, NoDup group ->
  List.filter (_contains_identity group) items = group ->
  positions_from i group items = map fst (List.filter (fun p => _contains_identity group p.2) (enumerate_from i items)).
Proof.
  induction items as [|x items IH]; intros i group Hn Hf.
  { cbn in Hf. by subst. }
  cbn [enumerate_from List.filter snd] in *. destruct (_contains_identity group x) eqn:Ex.
  - destruct group as [|t group]; [done|]. injection Hf as <- Hf. apply NoDup_cons in Hn as [Hx Hn].
    assert (x ∉ items) as Hxi.
    { intros Hin. assert (x ∈ List.filter (_contains_identity (x :: group)) items) as Hin'.
      { apply elem_of_filter_bool. split; [done|]. apply contains_spec. by left. }
      rewrite Hf in Hin'. done. }
    assert (forall y, y ∈ items -> _contains_identity (x :: group) y = _contains_identity group y) as Hsame.
    { intros y Hy. apply eq_true_iff_eq. rewrite !contains_spec, elem_of_cons. split; [|by right].
      by intros [->|]. }
    assert (List.filter (_contains_identity group) items = group) as Hf'.
    { rewrite <- Hf at 2. apply List.filter_ext_in. intros y Hy%list_elem_of_In. by rewrite Hsame. }
    change (positions_from i (x :: group) (x :: items))
      with (map fst (List.filter (fun p => p.2 =? x) ((i, x) :: enumerate_from (i + 1) items))
            ++ positions_from i group (x :: items)).
    cbn [List.filter snd]. rewrite Z.eqb_refl, positions_absent, positions_skip by done. cbn. f_equal.
    rewrite (IH _ _ Hn Hf'). f_equal. apply List.filter_ext_in. intros p Hp%list_elem_of_In.
    apply elem_of_enumerate_from in Hp as (k & Hk & _). symmetry. apply Hsame. by eapply list_elem_of_lookup_2.
  - apply contains_false in Ex. rewrite positions_skip by done. by apply IH.
Qed.
Lemma sorted_enumerate (items : list object) : forall i, StronglySorted Z.le (map fst (enumerate_from i items)).
Proof.
  induction items as [|x items IH]; intros i; cbn; [constructor|]. constructor; [apply IH|].
  apply List.Forall_forall. intros j Hj. apply in_map_iff in Hj as (p & <- & Hp). apply list_elem_of_In in Hp.
  apply elem_of_enumerate_from in Hp as (k & _ & ->). lia.
Qed.
Lemma sorted_filter (p : Z * object -> bool) l : StronglySorted Z.le (map fst l) ->
  StronglySorted Z.le (map fst (List.filter p l)).
Proof.
  induction l as [|x l IH]; cbn; [done|]. intros [Hs Hall]%StronglySorted_inv. destruct (p x); [|by apply IH].
  cbn. constructor; [by apply IH|]. rewrite List.Forall_forall in *. intros j Hj. apply in_map_iff in Hj as (q & <- & Hq).
  apply filter_In in Hq as [Hq _]. apply Hall, in_map_iff. eauto.
Qed.
Lemma order_by_id (l : list Z) : StronglySorted Z.le l -> order_by id l = l.
Proof. intros Hs. apply order_by_sorted. rewrite map_id. by apply StronglySorted_Sorted. Qed.
Lemma enumerate_from_app_z {A} (a b : list A) : forall i,
  enumerate_from i (a ++ b) = enumerate_from i a ++ enumerate_from (i + len a) b.
Proof.
  induction a as [|x a IH]; intros i; [unfold len; cbn; by rewrite Z.add_0_r|].
  cbn [enumerate_from app]. rewrite IH, len_cons. cbn. do 3 f_equal. lia.
Qed.

Lemma filter_enumerate_length (f : object -> bool) l : forall i,
  length (List.filter (fun p => f p.2) (enumerate_from i l)) = length (List.filter f l).
Proof. induction l as [|x l IH]; intros i; [done|]. cbn. destruct (f x); cbn; by rewrite IH. Qed.
(** What [restore] finds in a list in which the current objects survive, the last
    of them right before [delta]. *)
Lemma restore_positions before c delta current : NoDup current -> last current = Some c ->
  List.filter (_contains_identity current) (before ++ c :: delta) = current ->
  let ps := positions current (before ++ c :: delta) in
  len ps = len current /\ ps = order_by id ps /\ last ps = Some (len before).
Proof.
  intros Hn Hl Hf ps. assert (ps = map fst (List.filter (fun p => _contains_identity current p.2) (enumerate (before ++ c :: delta)))) as Hps
    by exact (positions_in_order _ 0 current Hn Hf).
  clearbody ps.
  assert (c ∈ current) as Hc by (apply last_Some in Hl as [pre ->]; apply elem_of_app; right; by left).
  split_and!.
  - rewrite Hps. unfold len, enumerate. by rewrite length_map, filter_enumerate_length, Hf.
  - rewrite Hps. symmetry. apply order_by_id, sorted_filter, sorted_enumerate.
  - assert (List.filter (_contains_identity current) delta = []) as Hnil.
    { rewrite List.filter_app in Hf. cbn in Hf. rewrite (proj2 (contains_spec _ _) Hc) in Hf.
      destruct (List.filter _ delta) as [|x l _] eqn:Ed using rev_ind; [done|]. exfalso.
      rewrite <- Hf in Hl. rewrite app_comm_cons, app_assoc, last_snoc in Hl. injection Hl as ->.
      rewrite <- Hf in Hn. apply NoDup_app in Hn as (_ & _ & Hn). apply NoDup_cons in Hn as [Hn _].
      apply Hn, elem_of_app. right. by left. }
    rewrite Hps. unfold enumerate. rewrite enumerate_from_app_z, List.filter_app. cbn [enumerate_from List.filter snd].
    rewrite (proj2 (contains_spec _ _) Hc).
    assert (List.filter (fun p => _contains_identity current p.2) (enumerate_from (0 + len before + 1) delta) = []) as ->.
    { rewrite filter_nil_iff in Hnil. apply filter_nil_iff. intros p Hp.
      apply elem_of_enumerate_from in Hp as (k & Hk & _). apply Hnil. by eapply list_elem_of_lookup_2. }
    rewrite map_app. cbn [map fst]. by rewrite last_snoc.
Qed.

(** ** Lemmas: the guard *)

Lemma guard_projection_ok request m system current g : guard_projection request m system current = Ok g ->
  exists identity items, m = AList identity items /\ pg_message_list_identity g = identity
    /\ pg_request_identity g = request /\ pg_native_objects g = items /\ pg_current_objects g = current
    /\ pg_system_objects g = system /\ current <> [] /\ NoDup (system ++ current)
    /\ pg_native_history_objects g = List.filter (fun item => negb (_contains_identity (system ++ current) item)) items.
Proof.
  unfold guard_projection. destruct m as [|identity items]; cbn; [done|].
  intros [Hb Hr]%raise_if_ok. apply raise_if_ok in Hr as [_ Hr]. apply orb_false_iff in Hb as [Hc Hn].
  injection Hr as <-. exists identity, items. cbn. split_and!; try done; [by destruct current|]. unfold _identity_is_unique, no_duplicates in Hn. by bool_hyps.
Qed.
Lemma project_ok identity items g ps pv items' : project (AList identity items) g ps = Ok (pv, items') ->
  pv_guard pv = g /\ pv_request_identity pv = pg_request_identity g /\ pv_pre_projection_objects pv = items
  /\ pv_projection_objects pv = ps /\ pv_projected_objects pv = items'
  /\ (forall p, p ∈ ps -> p ∉ items)
  /\ exists a b, a ++ b = List.filter (fun x => negb (_contains_identity (pg_native_history_objects g) x)) items
       /\ head b = head (pg_current_objects g) /\ items' = a ++ ps ++ b.
Proof.
  unfold project. intros (its & [_ [= <-]]%raise_if_ok & Hr)%result_bind_ok.
  apply result_bind_ok in Hr as (_ & _ & Hr). apply raise_if_ok in Hr as [Hps Hr].
  apply orb_false_iff in Hps as [_ Hps]. set (retained := List.filter _ items) in *.
  destruct (pg_current_objects g) as [|c rest]; [done|]. apply result_bind_ok in Hr as (i & Hi & Hr).
  injection Hr as <- <-. cbn. split_and!; try done.
  - intros p Hp. rewrite existsb_false_iff in Hps. by apply contains_false, Hps.
  - exists (take_z i retained), (drop (Z.to_nat i) retained). unfold take_z. split_and!; [apply take_drop| |done].
    unfold index_of in Hi. destruct (List.find _ _) as [p|] eqn:Ef; [|done]. injection Hi as <-.
    apply find_some_elem in Ef as [Hp E]. bool_hyps. apply elem_of_enumerate_from in Hp as (k & Hk & E1). cbn in E1.
    replace (Z.to_nat p.1) with k by lia. etrans; [exact (f_equal head (drop_S _ _ _ Hk))|]. exact (f_equal Some E).
Qed.

(** ** Properties *)

Lemma same_identity_refl l : _same_identity_sequence l l = true.
Proof.
  unfold _same_identity_sequence. rewrite Z.eqb_refl. cbn. induction l as [|x l IH]; [done|]. cbn.
  by rewrite Z.eqb_refl.
Qed.

(** C31. The projection is reversible.  Project a guarded list, let the host rebuild
    it in any way - another list object, other system messages, whatever it put
    before the current turn - as long as the current objects are there once each,
    in order, and no projection object was appended after them: restoring gives
    back exactly the native list followed by what the host appended, and the
    native check accepts it. *)
Theorem projection_round_trip request identity items system current guard projections view projected
    host_identity before c delta
    (Hguard : guard_projection request (AList identity items) system current = Ok guard)
    (Hproject : project (AList identity items) guard projections = Ok (view, projected))
    (Hlast : last current = Some c)
    (Hcurrent : List.filter (_contains_identity current) (before ++ c :: delta) = current)
    (Hdelta : forall p, p ∈ projections -> p ∉ delta) :
  exists restored, restore (AList host_identity (before ++ c :: delta)) view = Ok (restored, items ++ delta)
    /\ rv_delta_objects restored = delta
    /\ verify_native (AList host_identity (items ++ delta)) restored = true.
Proof.
  apply guard_projection_ok in Hguard as (i & its & [= -> ->] & _ & Hreq & Hnat & Hcur & _ & _ & Hn & _).
  apply project_ok in Hproject as (P1 & P2 & P3 & P4 & P5 & _ & _). apply NoDup_app in Hn as (_ & _ & Hn).
  destruct (restore_positions before c delta current Hn Hlast Hcurrent) as (E1 & E2 & E3).
  unfold restore. cbn [_validate_message_list raise_if mbind result_bind]. rewrite P1, P2, Hcur, Z.eqb_refl, E1, Z.eqb_refl.
  rewrite bool_decide_eq_true_2 by done. cbn [negb orb raise_if]. rewrite E3.
  assert (drop (Z.to_nat (len before + 1)) (before ++ c :: delta) = delta) as ->.
  { replace (Z.to_nat (len before + 1)) with (length (before ++ [c])) by (rewrite length_app; unfold len; cbn; lia).
    replace (before ++ c :: delta) with ((before ++ [c]) ++ delta) by by rewrite <- app_assoc. apply drop_app_length. }
  rewrite P3, P4. rewrite raise_if_false.
  2:{ apply existsb_false_iff. intros p Hp. by apply contains_false, Hdelta. }
  eexists. split; [done|]. split; [done|]. unfold verify_native. cbn. rewrite P1, Hnat. apply same_identity_refl.
Qed.

(** Projecting the guarded list keeps exactly the preserved objects, in order, and
    puts the projection right before the first current object. *)
Theorem project_replaces_history request identity items system current guard projections view projected
    (Hguard : guard_projection request (AList identity items) system current = Ok guard)
    (Hproject : project (AList identity items) guard projections = Ok (view, projected)) :
  exists a b, projected = a ++ projections ++ b /\ head b = head current
    /\ a ++ b = List.filter (_contains_identity (system ++ current)) items
    /\ forall x, x ∈ projected -> x ∉ pg_native_history_objects guard.
Proof.
  apply guard_projection_ok in Hguard as (i & its & [= -> ->] & _ & _ & _ & Hcur & _ & _ & _ & Hhist).
  apply project_ok in Hproject as (_ & _ & _ & _ & _ & Hps & a & b & Hab & Hh & ->).
  exists a, b. rewrite Hcur in Hh. split_and!; [done..| |].
  - rewrite Hab, Hhist. apply List.filter_ext_in. intros x Hx%list_elem_of_In. apply eq_true_iff_eq.
    rewrite negb_true_iff, contains_false, elem_of_filter_bool, negb_true_iff, contains_false, contains_spec.
    split; [|tauto]. intros Hno. destruct (decide (x ∈ system ++ current)); [done|]. by destruct Hno.
  - intros x Hx Hin. rewrite Hhist in Hin. apply elem_of_filter_bool in Hin as [Hx1 Hx2].
    assert (x ∈ a ++ b \/ x ∈ projections) as [Hk|Hk] by (rewrite !elem_of_app in *; tauto).
    + rewrite Hab, elem_of_filter_bool, negb_true_iff, contains_false, Hhist in Hk. apply (proj2 Hk).
      by apply elem_of_filter_bool.
    + by apply (Hps x).
Qed.

(** The guard counts occurrences of all preserved objects together, so a preserved
    object that occurs twice hides the absence of another one: the guard accepts a
    list without the current object, and projecting it then fails in [next()]. *)
Example guard_misses_absent_current :
  exists guard, guard_projection 0 (AList 1 [5; 5]) [5] [6] = Ok guard
    /\ project (AList 1 [5; 5]) guard [7] = Err StopIteration.
Proof. eexists. split; reflexivity. Qed.

(** System 1, history 2 and 3, current 4; the host replaces the system message,
    appends 6 and 7 and hands over a new list. *)
Lemma projection_round_trip_witness : exists guard view projected restored,
  guard_projection 0 (AList 10 [1; 2; 3; 4]) [1] [4] = Ok guard
  /\ project (AList 10 [1; 2; 3; 4]) guard [5] = Ok (view, projected) /\ projected = [1; 5; 4]
  /\ restore (AList 11 [9; 5; 4; 6; 7]) view = Ok (restored, [1; 2; 3; 4; 6; 7]).
Proof.
  eexists _, _, _.
  assert (forall guard view projected,
    guard_projection 0 (AList 10 [1; 2; 3; 4]) [1] [4] = Ok guard ->
    project (AList 10 [1; 2; 3; 4]) guard [5] = Ok (view, projected) ->
    exists restored, restore (AList 11 [9; 5; 4; 6; 7]) view = Ok (restored, [1; 2; 3; 4; 6; 7])) as H0.
  { intros guard view projected Hg Hp.
    destruct (projection_round_trip 0 10 [1; 2; 3; 4] [1] [4] guard [5] view projected 11 [9; 5] 4 [6; 7] Hg Hp)
      as (restored & Hr & _); [reflexivity|reflexivity| |exists restored; exact Hr].
    intros p Hp'. apply list_elem_of_singleton in Hp' as ->. intros Hin.
    repeat (apply elem_of_cons in Hin as [Hin|Hin]; [discriminate Hin|]). by apply elem_of_nil in Hin. }
  destruct (H0 _ _ _ eq_refl eq_refl) as [restored Hr].
  exists restored. split; [reflexivity|]. split; [reflexivity|]. split; [reflexivity|exact Hr].
Defined.
