(* ===== verification/Scheduler.v ===== *)
(** The compaction scheduler ([scheduler.py]): a queue of sessions that one
    worker serves with a callback, with repeated notifications coalesced.  Its
    lock makes each operation one step; the worker's steps are between awaits. *)
From S2P Require Import Prelude PyString.
Open Scope string_scope.
Open Scope list_scope.
Open Scope Z_scope.

(** ** The scheduler *)

(** [_worker]: not started, waiting for a session, awaiting the callback, or
    ended by an exception of the callback. *)
Inductive SchedulerWorker := NotStarted | Waiting | Serving (session_id : string) | Died.
Record CoalescingCompactionScheduler := {
  sd_queue : list string; sd_pending : gset string; sd_worker : SchedulerWorker; sd_closed : bool;
}.
Definition CoalescingCompactionScheduler_new : CoalescingCompactionScheduler :=
  {| sd_queue := []; sd_pending := ∅; sd_worker := NotStarted; sd_closed := false |}.
(** [start] *)
Definition scheduler_start (s : CoalescingCompactionScheduler) : CoalescingCompactionScheduler :=
  match sd_worker s with
  | NotStarted => {| sd_queue := sd_queue s; sd_pending := sd_pending s; sd_worker := Waiting; sd_closed := sd_closed s |}
  | _ => s
  end.
(** [notify], and whether the session was queued *)
Definition accepts (session_id : string) (s : CoalescingCompactionScheduler) : bool :=
  negb (sd_closed s || bool_decide (session_id ∈ sd_pending s)).
Definition notify (session_id : string) (s : CoalescingCompactionScheduler) : CoalescingCompactionScheduler :=
  if accepts session_id s
  then {| sd_queue := sd_queue s ++ [session_id]; sd_pending := {[session_id]} ∪ sd_pending s; sd_worker := sd_worker s; sd_closed := sd_closed s |}
  else s.
(** [close] with a callback that lets its cancellation through; [None] is the
    exception of a worker that died, which awaiting the worker raises again. *)
Definition scheduler_close (s : CoalescingCompactionScheduler) : option CoalescingCompactionScheduler :=
  match sd_worker s with
  | Died => None
  | Serving session_id =>
      Some {| sd_queue := sd_queue s; sd_pending := sd_pending s ∖ {[session_id]}; sd_worker := NotStarted; sd_closed := true |}
  | _ => Some {| sd_queue := sd_queue s; sd_pending := sd_pending s; sd_worker := NotStarted; sd_closed := true |}
  end.
(** [_run]: the next session; [None] when the worker cannot take one. *)
Definition take_next (s : CoalescingCompactionScheduler) : option (string * CoalescingCompactionScheduler) :=
  match sd_worker s, sd_queue s with
  | Waiting, session_id :: queue =>
      Some (session_id, {| sd_queue := queue; sd_pending := sd_pending s; sd_worker := Serving session_id; sd_closed := sd_closed s |})
  | _, _ => None
  end.
(** The callback ends: its [finally] clause, and the loop or its end. *)
Definition callback_ends (returned : bool) (s : CoalescingCompactionScheduler) : option CoalescingCompactionScheduler :=
  match sd_worker s with
  | Serving session_id =>
      Some {| sd_queue := sd_queue s; sd_pending := sd_pending s ∖ {[session_id]};
              sd_worker := if returned then Waiting else Died; sd_closed := sd_closed s |}
  | _ => None
  end.

(** ** Runs *)

Inductive Act := Start | Notify (session_id : string) | Close | TakeNext | CallbackEnds (returned : bool).
(** A run's state: the scheduler, the sessions accepted and the sessions whose
    callback was started, both in order. *)
Record Run := { rn_scheduler : CoalescingCompactionScheduler; rn_accepted : list string; rn_served : list string }.
Definition act (a : Act) (r : Run) : option Run :=
  let s := rn_scheduler r in
  match a with
  | Start => Some {| rn_scheduler := scheduler_start s; rn_accepted := rn_accepted r; rn_served := rn_served r |}
  | Notify session_id =>
      Some {| rn_scheduler := notify session_id s;
              rn_accepted := rn_accepted r ++ (if accepts session_id s then [session_id] else []); rn_served := rn_served r |}
  | Close => s ← scheduler_close s; Some {| rn_scheduler := s; rn_accepted := rn_accepted r; rn_served := rn_served r |}
  | TakeNext => p ← take_next s; Some {| rn_scheduler := p.2; rn_accepted := rn_accepted r; rn_served := rn_served r ++ [p.1] |}
  | CallbackEnds returned =>
      s ← callback_ends returned s; Some {| rn_scheduler := s; rn_accepted := rn_accepted r; rn_served := rn_served r |}
  end.
Fixpoint acts (l : list Act) (r : Run) : option Run :=
  match l with [] => Some r | a :: l => r ← act a r; acts l r end.
Definition new_run : Run := {| rn_scheduler := CoalescingCompactionScheduler_new; rn_accepted := []; rn_served := [] |}.

(** ** What a run guarantees *)

Definition serving (s : CoalescingCompactionScheduler) : list string := match sd_worker s with Serving session_id => [session_id] | _ => [] end.
Record scheduler_inv (r : Run) : Prop := {
  inv_waiting : rn_accepted r = rn_served r ++ sd_queue (rn_scheduler r);
  inv_distinct : NoDup (serving (rn_scheduler r) ++ sd_queue (rn_scheduler r));
  inv_pending session_id : session_id ∈ sd_pending (rn_scheduler r) <-> session_id ∈ serving (rn_scheduler r) ++ sd_queue (rn_scheduler r);
}.
Lemma new_run_inv : scheduler_inv new_run.
Proof. split; [done|constructor|]. intros id. cbn. set_solver. Qed.
Lemma ends_inv r session_id worker closed : serving (rn_scheduler r) = [session_id] ->
  match worker with Serving _ => False | _ => True end -> scheduler_inv r ->
  scheduler_inv {| rn_scheduler := {| sd_queue := sd_queue (rn_scheduler r); sd_pending := sd_pending (rn_scheduler r) ∖ {[session_id]};
                                      sd_worker := worker; sd_closed := closed |};
                   rn_accepted := rn_accepted r; rn_served := rn_served r |}.
Proof.
  intros Hs Hw [H1 H2 H3]. rewrite Hs in *. cbn [app] in H2. apply NoDup_cons in H2 as [Hn H2].
  assert (serving {| sd_queue := sd_queue (rn_scheduler r); sd_pending := sd_pending (rn_scheduler r) ∖ {[session_id]};
                     sd_worker := worker; sd_closed := closed |} = []) as He by by destruct worker.
  split; cbn [rn_scheduler rn_accepted rn_served sd_queue sd_pending]; rewrite ?He; cbn [app]; [done|done|].
  intros id. rewrite elem_of_difference, H3, elem_of_app, list_elem_of_singleton, elem_of_singleton.
  split; [intros [[->|?] ?]; done|]. intros Hid. split; [by right|]. by intros ->.
Qed.
Lemma act_inv a r r' : scheduler_inv r -> act a r = Some r' -> scheduler_inv r'.
Proof.
  intros Hi. pose proof Hi as [H1 H2 H3]. destruct r as [[queue pending worker closed] accepted served]. cbn [rn_scheduler rn_accepted rn_served] in *.
  destruct a as [|id| | |returned]; cbn [act rn_scheduler rn_accepted rn_served].
  - intros [= <-]. by destruct worker.
  - intros [= <-]. unfold notify. destruct (accepts id _) eqn:Ha; [|by rewrite app_nil_r]. unfold accepts in Ha. bool_hyps.
    cbn [sd_pending sd_closed sd_queue sd_worker] in *. split; cbn [rn_scheduler rn_accepted rn_served sd_queue sd_pending].
    + by rewrite H1, app_assoc.
    + change (serving _) with (serving {| sd_queue := queue; sd_pending := pending; sd_worker := worker; sd_closed := closed |}).
      rewrite app_assoc. apply NoDup_app. split; [done|]. split; [|by constructor; [apply not_elem_of_nil|constructor]].
      intros x Hx ->%list_elem_of_singleton. by apply H3 in Hx.
    + intros x. change (serving _) with (serving {| sd_queue := queue; sd_pending := pending; sd_worker := worker; sd_closed := closed |}).
      rewrite app_assoc, elem_of_union, elem_of_singleton, H3, (elem_of_app _ [id]), list_elem_of_singleton. cbn [sd_queue]. tauto.
  - unfold scheduler_close. cbn [sd_worker]. destruct worker as [| |id|]; try done; intros [= <-]; [done..|]. apply (ends_inv _ id NotStarted true) in Hi; [exact Hi|reflexivity|exact I].
  - unfold take_next. cbn [sd_worker sd_queue]. destruct worker; try done. destruct queue as [|id queue]; [done|]. intros [= <-].
    split; cbn [rn_scheduler rn_accepted rn_served sd_queue sd_pending snd fst]; [by rewrite H1, <- app_assoc|exact H2|exact H3].
  - unfold callback_ends. cbn [sd_worker]. destruct worker as [| |id|]; try done. intros [= <-].
    apply (ends_inv _ id (if returned then Waiting else Died) closed) in Hi; [exact Hi|reflexivity|by destruct returned].
Qed.
Lemma acts_inv l r r' : scheduler_inv r -> acts l r = Some r' -> scheduler_inv r'.
Proof.
  revert r. induction l as [|a l IH]; intros r Hi Hl; cbn [acts] in Hl; [by injection Hl as <-|].
  destruct (act a r) as [r1|] eqn:Ha; [|done]. apply (IH r1); [by eapply act_inv|done].
Qed.

(** The worker's own steps, with callbacks that return, until the queue is empty. *)
Fixpoint drain (fuel : nat) (r : Run) : Run :=
  match fuel with
  | O => r
  | S fuel => match act (match sd_worker (rn_scheduler r) with Serving _ => CallbackEnds true | _ => TakeNext end) r with
              | Some r => drain fuel r
              | None => r
              end
  end.
Definition alive (r : Run) : Prop := match sd_worker (rn_scheduler r) with Waiting | Serving _ => True | _ => False end.
Definition steps_left (r : Run) : nat := length (serving (rn_scheduler r)) + 2 * length (sd_queue (rn_scheduler r)).
Lemma drained fuel : forall r, scheduler_inv r -> alive r -> (steps_left r <= fuel)%nat ->
  sd_queue (rn_scheduler (drain fuel r)) = [] /\ sd_worker (rn_scheduler (drain fuel r)) = Waiting
  /\ rn_accepted (drain fuel r) = rn_accepted r /\ rn_served (drain fuel r) = rn_accepted r.
Proof.
  induction fuel as [|fuel IH]; intros [[queue pending worker closed] accepted served] Hi Ha Hf; destruct worker; try done;
    unfold steps_left, serving in Hf; cbn [rn_scheduler sd_worker sd_queue length] in Hf.
  - destruct queue; [|cbn in Hf; lia]. destruct Hi as [H1 _ _]. cbn in *. by rewrite H1, app_nil_r.
  - lia.
  - destruct queue as [|id queue].
    + destruct Hi as [H1 _ _]. cbn in *. by rewrite H1, app_nil_r.
    + apply (IH {| rn_scheduler := {| sd_queue := queue; sd_pending := pending; sd_worker := Serving id; sd_closed := closed |};
                   rn_accepted := accepted; rn_served := served ++ [id] |}); [by eapply (act_inv TakeNext)|done|].
      unfold steps_left, serving. cbn [rn_scheduler sd_worker sd_queue length] in *. lia.
  - apply (IH {| rn_scheduler := {| sd_queue := queue; sd_pending := pending ∖ {[session_id]}; sd_worker := Waiting; sd_closed := closed |};
                 rn_accepted := accepted; rn_served := served |}); [by eapply (act_inv (CallbackEnds true))|done|].
    unfold steps_left, serving. cbn [rn_scheduler sd_worker sd_queue length] in *. lia.
Qed.

(** Whatever the order of notifications, callbacks, starts and closings: the
    sessions whose callback was started, followed by those still queued, are
    exactly the accepted notifications in their order, so every accepted one is
    served once and first come first served; the sessions queued or being
    served are distinct, so the queue is bounded by the sessions that exist; a
    notification is accepted exactly when the scheduler is open and its session
    is neither queued nor being served; and a live worker whose callbacks
    return serves everything accepted within two steps a session. *)
Theorem scheduler_serves_accepted trace r : acts trace new_run = Some r ->
  rn_accepted r = rn_served r ++ sd_queue (rn_scheduler r)
  /\ NoDup (serving (rn_scheduler r) ++ sd_queue (rn_scheduler r))
  /\ (forall id, accepts id (rn_scheduler r) = true <->
        sd_closed (rn_scheduler r) = false /\ id ∉ serving (rn_scheduler r) ++ sd_queue (rn_scheduler r))
  /\ (alive r -> rn_served (drain (steps_left r) r) = rn_accepted r /\ sd_queue (rn_scheduler (drain (steps_left r) r)) = []
        /\ sd_worker (rn_scheduler (drain (steps_left r) r)) = Waiting).
Proof.
  intros Hr. pose proof (acts_inv _ _ _ new_run_inv Hr) as Hi. pose proof Hi as [H1 H2 H3]. split_and!; [done..| |].
  - intros id. unfold accepts. rewrite negb_true_iff, orb_false_iff, bool_decide_eq_false, H3. done.
  - intros Ha. destruct (drained (steps_left r) r Hi Ha) as (? & ? & _ & ?); [lia|done].
Qed.
(** Two notifications of one session coalesce while it waits. *)
Definition toy_trace : list Act := [Start; Notify "a"; Notify "b"; Notify "a"; TakeNext].
Lemma scheduler_serves_accepted_witness : exists r, acts toy_trace new_run = Some r /\ rn_accepted r = ["a"; "b"]
  /\ rn_served (drain (steps_left r) r) = ["a"; "b"].
Proof.
  destruct (acts toy_trace new_run) as [r|] eqn:Hr; [|discriminate Hr]. exists r. split; [reflexivity|].
  destruct (scheduler_serves_accepted toy_trace r Hr) as (_ & _ & _ & Hd).
  assert (rn_accepted r = ["a"; "b"]) as Ha by (injection Hr as <-; reflexivity). split; [exact Ha|].
  rewrite <- Ha. apply Hd. injection Hr as <-. exact I.
Defined.

(** A notification that comes while its session is being served is dropped: when
    the callback returns there is nothing left to do. *)
Example notification_dropped : exists r, acts [Start; Notify "a"; TakeNext; Notify "a"; CallbackEnds true] new_run = Some r
  /\ rn_served r = ["a"] /\ sd_queue (rn_scheduler r) = [] /\ sd_worker (rn_scheduler r) = Waiting.
Proof. by eexists. Qed.
(** An exception of the callback ends the worker for good: sessions are still
    accepted, [start] does nothing, and [close] raises. *)
Lemma dead_worker_serves_nothing trace : forall r r', sd_worker (rn_scheduler r) = Died -> acts trace r = Some r' ->
  sd_worker (rn_scheduler r') = Died /\ rn_served r' = rn_served r.
Proof.
  induction trace as [|a trace IH]; intros r r' Hd Ht; cbn [acts] in Ht; [by injection Ht as <-|].
  destruct (act a r) as [r1|] eqn:Ha; [|done].
  assert (sd_worker (rn_scheduler r1) = Died /\ rn_served r1 = rn_served r) as [Hd1 <-]; [|by apply IH].
  destruct r as [[queue pending worker closed] accepted served]. cbn [rn_scheduler sd_worker] in Hd. subst worker.
  destruct a as [|id| | |[]]; try discriminate Ha; injection Ha as <-; [done|]. unfold notify. by destruct (accepts id _).
Qed.
