(* ===== verification/Scaffold.v ===== *)
(** The in-memory scaffold ([models.py], [in_memory.py], [token_budget.py],
    [assembler.py], [auditor.py], [compiler_stub.py], [service.py]): event and
    snapshot stores, the assembler with its ledger, the mechanical auditor, and
    the compaction service whose awaits are the points where tasks interleave. *)
From S2P Require Import Prelude PyString PyFloat PyJson.
Open Scope string_scope.
Open Scope list_scope.
Open Scope Z_scope.

(** ** Data, [models.py] *)

Inductive ClaimStatus := CLAIM_ACTIVE | CLAIM_SUPERSEDED | CLAIM_RETRACTED | CLAIM_UNCERTAIN.
#[export] Instance ClaimStatus_eq_dec : EqDecision ClaimStatus.
Proof. solve_decision. Defined.
Record ContextEvent := {
  ce_event_id : string; ce_session_id : string; ce_sequence : Z; ce_event_type : string; ce_role : string; ce_content : string;
  ce_created_at : float; ce_metadata : list (string * json);
}.
Record Claim := {
  cm_claim_id : string; cm_kind : string; cm_text : string; cm_status : ClaimStatus; cm_confidence : float;
  cm_source_event_ids : list string;
}.
Record ExactAnchor := {
  ea_anchor_id : string; ea_anchor_type : string; ea_exact_text : string; ea_source_event_id : string; ea_status : ClaimStatus;
  ea_importance : float;
}.
Inductive CapsuleLevelName := LEVEL_MICRO | LEVEL_EPISODE_NAME | LEVEL_TASK_NAME | LEVEL_GLOBAL_NAME.
Record ContextCapsule := {
  cc_capsule_id : string; cc_level : CapsuleLevelName; cc_session_id : string; cc_covered_event_start : Z; cc_covered_event_end : Z;
  cc_claims : list Claim; cc_decisions : list Claim; cc_exact_anchors : list ExactAnchor; cc_dependencies : list string;
  cc_narrative_summary : string; cc_token_cost : Z; cc_source_coverage : float;
}.
Record Snapshot := {
  ss_snapshot_id : string; ss_session_id : string; ss_version : Z; ss_covered_event_seq : Z; ss_capsules : list ContextCapsule;
  ss_committed : bool; ss_created_at : float; ss_base_version : option Z;
}.
Record AuditReport := {
  au_passed : bool; au_critical_anchor_recall : float; au_constraint_recall : float; au_open_loop_recall : float;
  au_source_coverage : float; au_contradiction_count : Z; au_unsupported_claim_count : Z; au_token_before : Z; au_token_after : Z;
  au_issues : list string;
}.
Record ScaffoldTrace := {
  at_session_id : string; at_snapshot_version : option Z; at_covered_event_seq : Z; at_latest_event_seq : Z; at_total_tokens : Z;
  at_slot_tokens : list (string * Z); at_degraded_mode : option string;
}.
(** A [ValueError]. *)
Inductive scaffold_error := ScaffoldValueError (message : string).

(** ** Stores, [in_memory.py] *)

Abbreviation EventStore := (gmap string (list ContextEvent)).
Definition events_of_session (store : EventStore) (session_id : string) : list ContextEvent := default [] (store !! session_id).
(** [InMemoryEventStore.append], under its lock *)
Definition append (event : ContextEvent) (store : EventStore) : result scaffold_error EventStore :=
  let events := events_of_session store (ce_session_id event) in
  raise (ScaffoldValueError "event sequence must be strictly increasing") when
    match last events with Some final => ce_sequence event <=? ce_sequence final | None => false end;;
  Ok (<[ce_session_id event := events ++ [event]]> store).
(** [latest_sequence] *)
Definition latest_sequence (store : EventStore) (session_id : string) : Z :=
  match last (events_of_session store session_id) with Some final => ce_sequence final | None => 0 end.
(** [read_after] *)
Definition read_after (store : EventStore) (session_id : string) (sequence : Z) : list ContextEvent :=
  List.filter (fun event => sequence <? ce_sequence event) (events_of_session store session_id).
(** [read_range] *)
Definition read_range (store : EventStore) (session_id : string) (start_sequence end_sequence : Z) : list ContextEvent :=
  List.filter (fun event => (start_sequence <=? ce_sequence event) && (ce_sequence event <=? end_sequence)) (events_of_session store session_id).
Abbreviation SnapshotStore := (gmap string Snapshot).
(** [InMemorySnapshotStore.latest_committed] *)
Definition latest_committed (store : SnapshotStore) (session_id : string) : option Snapshot := store !! session_id.
(** [commit_candidate], under its lock: compare and set on the version *)
Definition commit_candidate (candidate : Snapshot) (expected_base_version : option Z) (store : SnapshotStore)
    : result scaffold_error (bool * SnapshotStore) :=
  raise (ScaffoldValueError "candidate must be marked committed") when negb (ss_committed candidate);;
  let current_version := ss_version <$> store !! ss_session_id candidate in
  if bool_decide (current_version = expected_base_version)
  then Ok (true, <[ss_session_id candidate := candidate]> store)
  else Ok (false, store).

(** ** The assembler, [token_budget.py] and [assembler.py] *)

Record ScaffoldBudgetConfig := {
  bg_target_input_tokens : Z; bg_hard_input_ceiling : Z; bg_recent_raw_tokens : Z; bg_retrieval_tokens : Z; bg_snapshot_tokens : Z;
}.
Definition default_budget : ScaffoldBudgetConfig :=
  {| bg_target_input_tokens := 130000; bg_hard_input_ceiling := 150000; bg_recent_raw_tokens := 50000; bg_retrieval_tokens := 25000;
     bg_snapshot_tokens := 20000 |}.
(** [BudgetConfig.validate] *)
Definition validate (c : ScaffoldBudgetConfig) : result scaffold_error unit :=
  raise (ScaffoldValueError "target_input_tokens must be positive") when bg_target_input_tokens c <=? 0;;
  raise (ScaffoldValueError "hard_input_ceiling must be >= target_input_tokens") when bg_hard_input_ceiling c <? bg_target_input_tokens c;;
  Ok tt.
Record BudgetLedger := { bl_limit : Z; bl_used : Z }.
Definition ledger_remaining (l : BudgetLedger) : Z := Z.max 0 (bl_limit l - bl_used l).
(** [BudgetLedger.reserve]: the tokens granted and the ledger after it. *)
Definition reserve (requested : Z) (l : BudgetLedger) : Z * BudgetLedger :=
  let granted := Z.min (Z.max 0 requested) (ledger_remaining l) in
  (granted, {| bl_limit := bl_limit l; bl_used := bl_used l + granted |}).
Record ContextBlock := { cx_slot : string; cx_text : string; cx_tokens : Z; cx_priority : Z; cx_required : bool }.
Record ScaffoldAssembly := { as_blocks : list ContextBlock; as_trace : ScaffoldTrace }.
(** [AssemblyResult.text] *)
Definition assembly_text (r : ScaffoldAssembly) : string :=
  py_join blank_line (List.filter (fun text => negb (is_empty text)) (map cx_text (as_blocks r))).
(** [max(1, len(content) // 4)] *)
Definition estimated_tokens (text : string) : Z := Z.max 1 (py_len text / 4).
Definition current_block (current_input : string) : ContextBlock :=
  {| cx_slot := "current_input"; cx_text := current_input; cx_tokens := estimated_tokens current_input; cx_priority := 100; cx_required := true |}.
(** The loop over the candidate blocks. *)
Fixpoint take_blocks (ledger : BudgetLedger) (blocks : list ContextBlock) : result scaffold_error (list ContextBlock * BudgetLedger) :=
  match blocks with
  | [] => Ok ([], ledger)
  | block :: blocks =>
      if cx_tokens block <=? ledger_remaining ledger then
        rest ← take_blocks (reserve (cx_tokens block) ledger).2 blocks; Ok (block :: rest.1, rest.2)
      else if cx_required block then Err (ScaffoldValueError ("required block does not fit: " +:+ cx_slot block))
      else take_blocks ledger blocks
  end.
(** The dict of the tokens of each slot, in the order of first use. *)
Fixpoint add_slot (slot : string) (tokens : Z) (slots : list (string * Z)) : list (string * Z) :=
  match slots with
  | [] => [(slot, tokens)]
  | (s, n) :: slots => if s ==? slot then (s, n + tokens) :: slots else (s, n) :: add_slot slot tokens slots
  end.
Definition slot_tokens (blocks : list ContextBlock) : list (string * Z) :=
  fold_left (fun slots block => add_slot (cx_slot block) (cx_tokens block) slots) blocks [].
(** [ContextAssembler.build], of an assembler whose configuration is valid *)
Definition build (config : ScaffoldBudgetConfig) (session_id : string) (snapshot : option Snapshot) (delta : list ContextEvent)
    (current_input : string) (candidate_blocks : list ContextBlock) : result scaffold_error ScaffoldAssembly :=
  let current := current_block current_input in
  raise (ScaffoldValueError "current input alone exceeds hard ceiling") when bg_hard_input_ceiling config <? cx_tokens current;;
  let ledger := (reserve (cx_tokens current) {| bl_limit := bg_target_input_tokens config; bl_used := 0 |}).2 in
  taken ← take_blocks ledger (order_by (fun block => - cx_priority block) candidate_blocks);
  let selected := current :: taken.1 in
  let covered := match snapshot with Some s => ss_covered_event_seq s | None => 0 end in
  Ok {| as_blocks := selected;
        as_trace := {| at_session_id := session_id; at_snapshot_version := ss_version <$> snapshot; at_covered_event_seq := covered;
                       at_latest_event_seq := match last delta with Some final => ce_sequence final | None => covered end;
                       at_total_tokens := bl_used taken.2; at_slot_tokens := slot_tokens selected; at_degraded_mode := None |} |}.

(** ** The auditor, [auditor.py] *)

(** [repr] of a list of strings *)
Class PyRepr := py_repr : list string -> string.
Definition snapshot_claims (s : Snapshot) : list Claim :=
  List.filter (fun c => eqb_of (cm_status c) CLAIM_ACTIVE) (flat_map (fun capsule => cc_claims capsule ++ cc_decisions capsule) (ss_capsules s)).
Definition snapshot_anchors (s : Snapshot) : list ExactAnchor :=
  List.filter (fun a => eqb_of (ea_status a) CLAIM_ACTIVE) (flat_map cc_exact_anchors (ss_capsules s)).
Definition occurrences (text : string) (texts : list string) : Z := len (List.filter (fun t => t ==? text) texts).
(** [Counter(texts).items()] with a count above one *)
Definition duplicates (texts : list string) : list string := List.filter (fun text => 1 <? occurrences text texts) (fromkeys texts).
Definition issue `{PyRepr} (label : string) (ids : list string) : list string := if nonempty ids then [label +:+ py_repr ids] else [].
(** [DeterministicLossAuditor.audit]; the previous Snapshot is not used. *)
Definition audit `{PyRepr} (candidate : Snapshot) (covered_events : list ContextEvent) : AuditReport :=
  let known id := bool_decide (id ∈ map ce_event_id covered_events) in
  let anchors := snapshot_anchors candidate in
  let claims := snapshot_claims candidate in
  let missing_anchor_sources := map ea_anchor_id (List.filter (fun a => negb (known (ea_source_event_id a))) anchors) in
  let unsupported :=
    map cm_claim_id (List.filter (fun c => negb (nonempty (cm_source_event_ids c)) || existsb (fun source => negb (known source)) (cm_source_event_ids c))
                       claims) in
  let repeated := duplicates (map cm_text claims) in
  let issues := issue "missing anchor sources: " missing_anchor_sources ++ issue "unsupported claims: " unsupported
                ++ issue "duplicate active claims: " repeated in
  let source_coverage := if nonempty claims then f_div_Z (len (List.filter (fun c => nonempty (cm_source_event_ids c)) claims)) (len claims)
                         else f_one in
  {| au_passed := negb (nonempty issues) && (source_coverage ==? f_one);
     au_critical_anchor_recall := if nonempty missing_anchor_sources then f_zero else f_one; au_constraint_recall := f_one;
     au_open_loop_recall := f_one; au_source_coverage := source_coverage; au_contradiction_count := len repeated;
     au_unsupported_claim_count := len unsupported; au_token_before := sumZ (fun e => estimated_tokens (ce_content e)) covered_events;
     au_token_after := sumZ cc_token_cost (ss_capsules candidate); au_issues := issues |}.

(** ** The wiring compiler, [compiler_stub.py] *)

(** The identifiers [uuid.uuid4] gives, by the number of the call. *)
Definition scaffold_claim (uuid4 : nat -> string) (p : nat * ContextEvent) : Claim :=
  {| cm_claim_id := uuid4 p.1; cm_kind := "fact"; cm_text := ce_content p.2; cm_status := CLAIM_ACTIVE; cm_confidence := f_one;
     cm_source_event_ids := [ce_event_id p.2] |}.
(** [ScaffoldCapsuleCompiler.compile] *)
Definition scaffold_compile (uuid4 : nat -> string) (session_id : string) (events : list ContextEvent) : list ContextCapsule :=
  match events, last events with
  | first :: _, Some final =>
      [{| cc_capsule_id := uuid4 (length events); cc_level := LEVEL_MICRO; cc_session_id := session_id;
          cc_covered_event_start := ce_sequence first; cc_covered_event_end := ce_sequence final;
          cc_claims := map (scaffold_claim uuid4) (combine (seq 0 (length events)) events); cc_decisions := []; cc_exact_anchors := [];
          cc_dependencies := []; cc_narrative_summary := "Scaffold capsule; replace with real compiler.";
          cc_token_cost := sumZ (fun e => estimated_tokens (ce_content e)) events; cc_source_coverage := f_one |}]
  | _, _ => []
  end.

(** ** The service, [service.py] *)

(** The compiler, [ports.py]: what it makes of a session's base Snapshot and
    Delta, or [None] when it raises.  A call may be answered in several ways, told
    apart by a number. *)
Class CapsuleCompiler := compile : nat -> string -> option Snapshot -> list ContextEvent -> option (list ContextCapsule).
(** What a compaction takes from outside besides: which answer of the compiler
    it gets, the identifier and the time. *)
Record Choice := { ch_answer : nat; ch_snapshot_id : string; ch_time : float }.
Definition covered_by (base : option Snapshot) : Z := match base with Some s => ss_covered_event_seq s | None => 0 end.
Definition candidate_snapshot (session_id : string) (base : option Snapshot) (delta : list ContextEvent) (capsules : list ContextCapsule) (c : Choice)
    : Snapshot :=
  {| ss_snapshot_id := ch_snapshot_id c; ss_session_id := session_id;
     ss_version := match base with Some s => ss_version s + 1 | None => 1 end;
     ss_covered_event_seq := match last delta with Some final => ce_sequence final | None => 0 end; ss_capsules := capsules;
     ss_committed := false; ss_created_at := ch_time c; ss_base_version := ss_version <$> base |}.
Definition as_committed (s : Snapshot) : Snapshot :=
  {| ss_snapshot_id := ss_snapshot_id s; ss_session_id := ss_session_id s; ss_version := ss_version s;
     ss_covered_event_seq := ss_covered_event_seq s; ss_capsules := ss_capsules s; ss_committed := true;
     ss_created_at := ss_created_at s; ss_base_version := ss_base_version s |}.
(** A compaction task, by the await it stands at. *)
Inductive Task :=
| Begun (session_id : string)
| Based (session_id : string) (base : option Snapshot)
| DeltaRead (session_id : string) (base : option Snapshot) (delta : list ContextEvent)
| CandidateMade (base : option Snapshot) (candidate : Snapshot)
| EventsRead (base : option Snapshot) (candidate : Snapshot) (events : list ContextEvent)
| AuditPassed (base : option Snapshot) (candidate : Snapshot)
| Finished (committed : bool)
| Raised.
(** [compact_session] from one await to the next. *)
Definition task_step `{PyRepr, CapsuleCompiler} (c : Choice) (events : EventStore) (snapshots : SnapshotStore) (t : Task) : Task * SnapshotStore :=
  match t with
  | Begun session_id => (Based session_id (latest_committed snapshots session_id), snapshots)
  | Based session_id base =>
      let delta := read_after events session_id (covered_by base) in
      (if nonempty delta then DeltaRead session_id base delta else Finished false, snapshots)
  | DeltaRead session_id base delta =>
      (match compile (ch_answer c) session_id base delta with
       | Some capsules => CandidateMade base (candidate_snapshot session_id base delta capsules c)
       | None => Raised
       end, snapshots)
  | CandidateMade base candidate =>
      (EventsRead base candidate (read_range events (ss_session_id candidate) 1 (ss_covered_event_seq candidate)), snapshots)
  | EventsRead base candidate covered_events =>
      (if au_passed (audit candidate covered_events) then AuditPassed base candidate else Finished false, snapshots)
  | AuditPassed base candidate =>
      match commit_candidate (as_committed candidate) (ss_version <$> base) snapshots with
      | Ok (committed, snapshots) => (Finished committed, snapshots)
      | Err _ => (Raised, snapshots)
      end
  | Finished _ | Raised => (t, snapshots)
  end.
(** [compact_session] of a task that runs alone; [None] is an exception. *)
Definition compact_session `{PyRepr, CapsuleCompiler} (c : Choice) (events : EventStore) (snapshots : SnapshotStore) (session_id : string)
    : option (bool * SnapshotStore) :=
  let base := latest_committed snapshots session_id in
  let delta := read_after events session_id (covered_by base) in
  if negb (nonempty delta) then Some (false, snapshots) else
  match compile (ch_answer c) session_id base delta with
  | None => None
  | Some capsules =>
      let candidate := candidate_snapshot session_id base delta capsules c in
      let covered_events := read_range events session_id 1 (ss_covered_event_seq candidate) in
      if negb (au_passed (audit candidate covered_events)) then Some (false, snapshots) else
      match commit_candidate (as_committed candidate) (ss_version <$> base) snapshots with
      | Ok r => Some r
      | Err _ => None
      end
  end.

(** ** Interleaving *)

(** The stores, the tasks, and the Snapshots committed so far, oldest first
    (a record for the statements; the program keeps only the active ones). *)
Record Config := { cf_events : EventStore; cf_snapshots : SnapshotStore; cf_tasks : gmap nat Task; cf_log : list Snapshot }.
Definition initial : Config := {| cf_events := ∅; cf_snapshots := ∅; cf_tasks := ∅; cf_log := [] |}.
Definition committed_by (t t' : Task) : list Snapshot :=
  match t, t' with AuditPassed _ candidate, Finished true => [as_committed candidate] | _, _ => [] end.
(** One step of the program: an event arrives, a compaction is asked for, or
    some task runs to its next await. *)
Inductive step `{PyRepr, CapsuleCompiler} : Config -> Config -> Prop :=
| StepAppend event events tasks snapshots log events' : append event events = Ok events' ->
    step {| cf_events := events; cf_snapshots := snapshots; cf_tasks := tasks; cf_log := log |}
         {| cf_events := events'; cf_snapshots := snapshots; cf_tasks := tasks; cf_log := log |}
| StepBegin session_id k events tasks snapshots log : tasks !! k = None ->
    step {| cf_events := events; cf_snapshots := snapshots; cf_tasks := tasks; cf_log := log |}
         {| cf_events := events; cf_snapshots := snapshots; cf_tasks := <[k := Begun session_id]> tasks; cf_log := log |}
| StepTask c k t t' events tasks snapshots snapshots' log : tasks !! k = Some t -> task_step c events snapshots t = (t', snapshots') ->
    step {| cf_events := events; cf_snapshots := snapshots; cf_tasks := tasks; cf_log := log |}
         {| cf_events := events; cf_snapshots := snapshots'; cf_tasks := <[k := t']> tasks; cf_log := log ++ committed_by t t' |}.
Definition scaffold_reachable `{PyRepr, CapsuleCompiler} (c : Config) : Prop := rtc step initial c.
