(* ===== verification/ScaffoldProperties.v ===== *)
(** What the scaffold guarantees: whatever way compactions of a session and
    arriving events interleave, the committed Snapshots form one chain; a
    compaction that runs alone catches up; and the assembler keeps its ledger. *)
From S2P Require Import Prelude PyString PyFloat PyJson Scaffold.
Open Scope string_scope.
Open Scope list_scope.
Open Scope Z_scope.

Section interleaving.
Context `{PyRepr, CapsuleCompiler}.

(** ** Audited Snapshots *)

(** A source names a captured event up to the coverage. *)
Definition known_event (events : list ContextEvent) (covered : Z) (id : string) : Prop :=
  exists e, e ∈ events /\ ce_event_id e = id /\ 1 <= ce_sequence e <= covered.
(** Every active claim and anchor is supported, and no claim is said twice. *)
Record supported (events : list ContextEvent) (s : Snapshot) : Prop := {
  claim_supported c : c ∈ snapshot_claims s -> cm_source_event_ids c <> []
    /\ forall id, id ∈ cm_source_event_ids c -> known_event events (ss_covered_event_seq s) id;
  anchor_supported a : a ∈ snapshot_anchors s -> known_event events (ss_covered_event_seq s) (ea_source_event_id a);
  claims_distinct : NoDup (map cm_text (snapshot_claims s));
}.
Lemma nonempty_false {A} (l : list A) : nonempty l = false <-> l = [].
Proof. by destruct l. Qed.
Lemma map_nil_iff {A B} (f : A -> B) l : map f l = [] <-> l = [].
Proof. by destruct l. Qed.
Lemma issue_nil label ids : issue label ids = [] <-> ids = [].
Proof. unfold issue. by destruct ids. Qed.
Lemma occurrences_cons text t l : occurrences text (t :: l) = (if t ==? text then 1 else 0) + occurrences text l.
Proof. unfold occurrences. cbn [List.filter]. destruct (t ==? text); [rewrite len_cons|]; lia. Qed.
Lemma occurrences_pos text l : text ∈ l <-> 0 < occurrences text l.
Proof.
  induction l as [|t l IH]; [split; [by intros ?%elem_of_nil|change (occurrences _ []) with 0; lia]|]. rewrite occurrences_cons, elem_of_cons, IH.
  assert (0 <= occurrences text l) as Hpos by apply len_nonneg. destruct (t ==? text) eqn:E.
  - apply py_eq_leibniz in E as ->. split; [lia|by left].
  - split; [intros [->|?]; [|lia]|intros ?; right; lia]. rewrite (proj2 (py_eq_leibniz t t) eq_refl) in E. done.
Qed.
Lemma duplicates_nil l : duplicates l = [] <-> NoDup l.
Proof.
  unfold duplicates. rewrite filter_nil_iff. split.
  - intros Hall. assert (forall t, occurrences t l <= 1) as Hone.
    { intros t. destruct (decide (t ∈ l)) as [Hin|Hn].
      - specialize (Hall t (proj2 (elem_of_fromkeys _ _) Hin)). cbn in Hall. apply Z.ltb_ge in Hall. lia.
      - rewrite occurrences_pos in Hn. lia. }
    clear Hall. induction l as [|t l IH]; [constructor|]. constructor.
    + intros Hin%occurrences_pos. specialize (Hone t). rewrite occurrences_cons, (proj2 (py_eq_leibniz t t) eq_refl) in Hone. lia.
    + apply IH. intros u. specialize (Hone u). rewrite occurrences_cons in Hone. destruct (_ ==? _) in Hone; lia.
  - intros Hnd t _. apply Z.ltb_ge. induction Hnd as [|u l Hu Hnd IH]; [change (occurrences _ []) with 0; lia|]. rewrite occurrences_cons.
    destruct (u ==? t) eqn:E; [|lia]. apply py_eq_leibniz in E as ->. rewrite occurrences_pos in Hu. lia.
Qed.

Lemma audit_passed candidate events : au_passed (audit candidate events) = true ->
  (forall c, c ∈ snapshot_claims candidate -> cm_source_event_ids c <> [] /\ forall id, id ∈ cm_source_event_ids c -> id ∈ map ce_event_id events)
  /\ (forall a, a ∈ snapshot_anchors candidate -> ea_source_event_id a ∈ map ce_event_id events)
  /\ NoDup (map cm_text (snapshot_claims candidate)).
Proof.
  unfold audit. cbn [au_passed]. intros [Hi _]%andb_true_iff. apply negb_true_iff, nonempty_false in Hi.
  apply app_eq_nil in Hi as [Ha%issue_nil%map_nil_iff Hi]. apply app_eq_nil in Hi as [Hc%issue_nil%map_nil_iff Hd%issue_nil%duplicates_nil].
  rewrite filter_nil_iff in Ha. rewrite filter_nil_iff in Hc. split_and!; [| |exact Hd].
  - intros c Hin. specialize (Hc c Hin). cbn beta in Hc. apply orb_false_iff in Hc as [Hne Hs]. split; [by intros E; rewrite E in Hne|].
    intros id Hid. rewrite existsb_false_iff in Hs. specialize (Hs id Hid). cbn beta in Hs. bool_hyps. done.
  - intros a Hin. specialize (Ha a Hin). cbn beta in Ha. bool_hyps. done.
Qed.
Lemma read_range_elem store s low high e : e ∈ read_range store s low high <-> e ∈ events_of_session store s /\ low <= ce_sequence e <= high.
Proof. unfold read_range. rewrite elem_of_filter_bool, andb_true_iff, !Z.leb_le. done. Qed.
Lemma read_after_elem store s low e : e ∈ read_after store s low <-> e ∈ events_of_session store s /\ low < ce_sequence e.
Proof. unfold read_after. rewrite elem_of_filter_bool, Z.ltb_lt. done. Qed.

(** ** The invariant of a run *)

Definition commits (log : list Snapshot) (session_id : string) : list Snapshot := List.filter (fun s => ss_session_id s ==? session_id) log.
Lemma commits_app l l' id : commits (l ++ l') id = commits l id ++ commits l' id.
Proof. unfold commits. by rewrite List.filter_app. Qed.
Lemma commits_one s id : commits [s] id = if ss_session_id s ==? id then [s] else [].
Proof. done. Qed.
(** The events above one sequence number up to another *)
Definition between (events : list ContextEvent) (low high : Z) : list ContextEvent :=
  List.filter (fun e => (low <? ce_sequence e) && (ce_sequence e <=? high)) events.
(** The Snapshot a member of a chain was made on *)
Definition chain_base (l : list Snapshot) (i : nat) : option Snapshot := match i with O => None | S j => l !! j end.
(** Compiled, by some answer, from the base and exactly the events above the
    base's coverage up to its own. *)
Definition compiled_from (events : list ContextEvent) (base : option Snapshot) (s : Snapshot) : Prop :=
  exists answer, compile answer (ss_session_id s) base (between events (covered_by base) (ss_covered_event_seq s)) = Some (ss_capsules s).
(** The chain of a session: versions 1, 2, ..., each on the one before, each
    covering more, up to a captured event, compiled from what lies between, and
    supported. *)
Record chain (events : list ContextEvent) (l : list Snapshot) : Prop := {
  chain_numbered i s : l !! i = Some s -> ss_version s = Z.of_nat i + 1 /\ ss_committed s = true
    /\ ss_base_version s = (if decide (i = O) then None else Some (Z.of_nat i));
  chain_ascends i s s' : l !! i = Some s -> l !! S i = Some s' -> ss_covered_event_seq s < ss_covered_event_seq s';
  chain_captured s : s ∈ l -> 0 < ss_covered_event_seq s /\ exists e, e ∈ events /\ ce_sequence e = ss_covered_event_seq s;
  chain_supported s : s ∈ l -> supported events s;
  chain_adjacent i s : l !! i = Some s -> compiled_from events (chain_base l i) s;
}.
(** What a task knows at its await stays true. *)
Definition known_base (log : list Snapshot) (session_id : string) (base : option Snapshot) : Prop :=
  match base with Some s => s ∈ commits log session_id | None => True end.
Record sound_candidate (events : list ContextEvent) (log : list Snapshot) (base : option Snapshot) (candidate : Snapshot) : Prop := {
  candidate_base : known_base log (ss_session_id candidate) base;
  candidate_version : ss_version candidate = match base with Some s => ss_version s + 1 | None => 1 end;
  candidate_base_version : ss_base_version candidate = ss_version <$> base;
  candidate_covers : covered_by base < ss_covered_event_seq candidate;
  candidate_captured : exists e, e ∈ events /\ ce_sequence e = ss_covered_event_seq candidate;
  candidate_compiled : compiled_from events base candidate;
}.
Definition sound_task (store : EventStore) (log : list Snapshot) (t : Task) : Prop :=
  match t with
  | Begun _ | Finished _ | Raised => True
  | Based session_id base => known_base log session_id base
  | DeltaRead session_id base delta => known_base log session_id base /\ exists final, last delta = Some final
      /\ final ∈ events_of_session store session_id /\ covered_by base < ce_sequence final
      /\ delta = between (events_of_session store session_id) (covered_by base) (ce_sequence final)
  | CandidateMade base candidate => sound_candidate (events_of_session store (ss_session_id candidate)) log base candidate
  | EventsRead base candidate events => sound_candidate (events_of_session store (ss_session_id candidate)) log base candidate
      /\ forall e, e ∈ events -> e ∈ events_of_session store (ss_session_id candidate) /\ 1 <= ce_sequence e <= ss_covered_event_seq candidate
  | AuditPassed base candidate => sound_candidate (events_of_session store (ss_session_id candidate)) log base candidate
      /\ supported (events_of_session store (ss_session_id candidate)) candidate
  end.
Definition ascending (events : list ContextEvent) : Prop := StronglySorted (fun e e' => ce_sequence e < ce_sequence e') events.
Record config_inv (c : Config) : Prop := {
  config_ascending id : ascending (events_of_session (cf_events c) id);
  config_active id : cf_snapshots c !! id = last (commits (cf_log c) id);
  config_chain id : chain (events_of_session (cf_events c) id) (commits (cf_log c) id);
  config_tasks k t : cf_tasks c !! k = Some t -> sound_task (cf_events c) (cf_log c) t;
}.

(** ** More events, more commits *)

(** Later events: the same ones are there, and nothing new up to any of them. *)
Record more (events events' : list ContextEvent) : Prop := {
  more_elem e : e ∈ events -> e ∈ events';
  more_between e low : e ∈ events -> between events' low (ce_sequence e) = between events low (ce_sequence e);
}.
Definition more_events (store store' : EventStore) : Prop := forall id, more (events_of_session store id) (events_of_session store' id).
Lemma more_events_refl store : more_events store store.
Proof. by intros id. Qed.
Lemma known_event_more events events' covered id : (forall e, e ∈ events -> e ∈ events') -> known_event events covered id -> known_event events' covered id.
Proof. intros Hm (e & He & ? & ?). exists e. auto. Qed.
Lemma supported_more events events' s : (forall e, e ∈ events -> e ∈ events') -> supported events s -> supported events' s.
Proof.
  intros Hm [Hc Ha Hd]. split; [|intros a Hin; by eapply known_event_more, Ha|done].
  intros c Hin. destruct (Hc c Hin) as [? Hs]. split; [done|]. intros id Hid. by eapply known_event_more, Hs.
Qed.
Lemma compiled_more events events' base s : more events events' -> (exists e, e ∈ events /\ ce_sequence e = ss_covered_event_seq s) ->
  compiled_from events base s -> compiled_from events' base s.
Proof. intros [_ Hm] (e & He & Hs) (answer & Hc). exists answer. rewrite <- Hs in Hc |- *. by rewrite Hm. Qed.
Lemma chain_more events events' l : more events events' -> chain events l -> chain events' l.
Proof.
  intros Hm [H1 H2 H3 H4 H5]. pose proof (more_elem _ _ Hm) as Hme. split; [done|done| | |].
  - intros s Hs. destruct (H3 s Hs) as (? & e & ? & ?). split; [done|]. exists e. auto.
  - intros s Hs. eapply supported_more; [exact Hme|auto].
  - intros i s Hs. eapply compiled_more; [exact Hm| |by apply H5]. by apply list_elem_of_lookup_2, H3 in Hs as [].
Qed.
Lemma known_base_more log extra id base : known_base log id base -> known_base (log ++ extra) id base.
Proof. destruct base as [s|]; [|done]. cbn. rewrite commits_app, elem_of_app. by left. Qed.
Lemma sound_candidate_more events events' log extra base candidate : more events events' ->
  sound_candidate events log base candidate -> sound_candidate events' (log ++ extra) base candidate.
Proof.
  intros Hm [Hb ? ? ? Hcap Hcomp]. split; [by apply known_base_more|done..| |by eapply compiled_more].
  destruct Hcap as (e & ? & ?). exists e. split; [by apply (more_elem _ _ Hm)|done].
Qed.
Lemma sound_task_more store store' log extra t : more_events store store' -> sound_task store log t -> sound_task store' (log ++ extra) t.
Proof.
  intros Hm. destruct t as [| |id base delta|base candidate|base candidate events|base candidate| |]; cbn [sound_task]; try done.
  - apply known_base_more.
  - intros (Hb & final & Hl & Hin & Hlow & Hd). split; [by apply known_base_more|]. exists final.
    split_and!; [done|by apply (more_elem _ _ (Hm id))|done|]. by rewrite (more_between _ _ (Hm id)).
  - apply sound_candidate_more, Hm.
  - intros [Hc He]. split; [by eapply sound_candidate_more; [apply Hm|]|]. intros e Hin. destruct (He e Hin). split; [by apply (more_elem _ _ (Hm _))|done].
  - intros [Hc Hs]. split; [by eapply sound_candidate_more; [apply Hm|]|]. by eapply supported_more; [apply (more_elem _ _ (Hm _))|].
Qed.
Lemma ascending_last events e final : ascending events -> last events = Some final -> e ∈ events -> e = final \/ ce_sequence e < ce_sequence final.
Proof.
  induction 1 as [|x events Hs IH Hx]; [done|]. intros Hl Hin. rewrite last_cons in Hl. apply elem_of_cons in Hin as [->|Hin].
  - destruct (last events) as [f|] eqn:Hf; [|by injection Hl as ->; left]. injection Hl as ->. right.
    rewrite Forall_forall in Hx. apply Hx. by apply last_Some_elem_of in Hf.
  - destruct (last events) as [f|] eqn:Hf; [injection Hl as ->; auto|]. apply last_None in Hf as ->. by apply elem_of_nil in Hin.
Qed.
Lemma append_more event store store' : append event store = Ok store' -> (forall id, ascending (events_of_session store id)) -> more_events store store'.
Proof.
  unfold append. intros [Hl [= <-]]%raise_if_ok Ha id. unfold events_of_session at 2.
  destruct (decide (ce_session_id event = id)) as [<-|Hne]; [|by rewrite lookup_insert_ne].
  rewrite lookup_insert_eq. unfold default, from_option, id. specialize (Ha (ce_session_id event)). split; [intros e He; apply elem_of_app; by left|].
  intros e low He. unfold between. rewrite List.filter_app. cbn [List.filter].
  assert (ce_sequence e < ce_sequence event) as Hlt.
  { destruct (last _) as [final|] eqn:Hf; [|apply last_None in Hf; rewrite Hf in He; by apply elem_of_nil in He].
    apply Z.leb_gt in Hl. destruct (ascending_last _ _ _ Ha Hf He) as [->|?]; lia. }
  by rewrite (proj2 (Z.leb_gt _ _) Hlt), andb_false_r, app_nil_r.
Qed.
Lemma ascending_snoc events e : ascending events -> match last events with Some final => ce_sequence final < ce_sequence e | None => True end ->
  ascending (events ++ [e]).
Proof.
  induction 1 as [|x events Hs IH Hx]; intros Hl; cbn [app]; [repeat constructor|]. rewrite last_cons in Hl.
  constructor; [apply IH; by destruct (last events)|]. apply Forall_app. split; [done|]. constructor; [|constructor].
  destruct (last events) as [f|] eqn:Hf; [|done]. rewrite Forall_forall in Hx.
  assert (f ∈ events) as Hin by by apply last_Some_elem_of in Hf. specialize (Hx f Hin). cbn in Hx. lia.
Qed.
Lemma append_ascending event store store' id : append event store = Ok store' -> ascending (events_of_session store id) ->
  ascending (events_of_session store' id).
Proof.
  unfold append. intros [Hl [= <-]]%raise_if_ok Ha. unfold events_of_session.
  destruct (decide (ce_session_id event = id)) as [<-|Hne]; [|by rewrite lookup_insert_ne].
  rewrite lookup_insert_eq. cbn [default]. apply ascending_snoc; [done|]. destruct (last _); [|done]. apply Z.leb_gt in Hl. lia.
Qed.

(** ** A commit extends its chain *)

Lemma commit_chain events l base candidate : chain events l -> (forall s, base = Some s -> s ∈ l) -> ss_version <$> last l = ss_version <$> base ->
  ss_version candidate = match base with Some s => ss_version s + 1 | None => 1 end -> ss_base_version candidate = ss_version <$> base ->
  covered_by base < ss_covered_event_seq candidate -> (exists e, e ∈ events /\ ce_sequence e = ss_covered_event_seq candidate) ->
  compiled_from events base candidate ->
  supported events (as_committed candidate) -> chain events (l ++ [as_committed candidate]).
Proof.
  intros Hl Hb Hv Hver Hbv Hcov Hcap Hcomp Hsup. pose proof Hl as [H1 H2 H3 H4 H5].
  assert (match base with Some s => last l = Some s /\ ss_version s = Z.of_nat (length l) | None => l = [] end) as Hlast.
  { destruct (last l) as [final|] eqn:Hf; destruct base as [s|]; try discriminate Hv; [|by apply last_None in Hf].
    injection Hv as Hv. rewrite last_lookup in Hf. destruct (proj1 (list_elem_of_lookup _ _) (Hb s eq_refl)) as (i & Hi).
    destruct (H1 _ _ Hf) as (Hvf & _). destruct (H1 _ _ Hi) as (Hvi & _). apply lookup_lt_Some in Hf as Hlen.
    assert (i = pred (length l)) as -> by lia. rewrite Hi in Hf. injection Hf as <-. split; [done|]. lia. }
  split.
  - intros i s [[_ Hi]|[-> <-]]%lookup_snoc_Some; [by apply H1|].
    cbn [as_committed ss_version ss_committed ss_base_version]. rewrite Hver, Hbv. destruct base as [s|].
    + destruct Hlast as [Hf Hn]. split_and!; [lia|done|]. rewrite decide_False by by destruct l. cbn. f_equal. lia.
    + rewrite Hlast. done.
  - intros i s s' [[Hi Hs]|[-> _]]%lookup_snoc_Some [[Hlt Hs']|[Hlen <-]]%lookup_snoc_Some; [by eapply H2| |lia..].
    destruct base as [b|]; [|by rewrite Hlast in Hs]. destruct Hlast as [Hf _]. rewrite last_lookup, <- Hlen in Hf. cbn [pred] in Hf.
    rewrite Hs in Hf. by injection Hf as ->.
  - intros s [Hs| ->%list_elem_of_singleton]%elem_of_app; [by apply H3|]. split; [|exact Hcap].
    cbn [as_committed ss_covered_event_seq]. destruct base as [b|]; cbn [covered_by] in Hcov; [|done].
    destruct (H3 b (Hb b eq_refl)). lia.
  - intros s [Hs| ->%list_elem_of_singleton]%elem_of_app; [by apply H4|done].
  - intros i s [[Hi Hs]|[-> <-]]%lookup_snoc_Some.
    + specialize (H5 i s Hs). destruct i as [|i]; [done|]. cbn [chain_base] in *. by rewrite lookup_app_l by lia.
    + assert (chain_base (l ++ [as_committed candidate]) (length l) = base) as ->; [|exact Hcomp].
      destruct base as [b|]; [|by rewrite Hlast]. destruct Hlast as [Hf _]. rewrite last_lookup in Hf.
      destruct (length l) as [|n] eqn:En; [by apply nil_length_inv in En; subst|]. cbn [chain_base pred] in *. by rewrite lookup_app_l by lia.
Qed.

(** ** Every step keeps the invariant *)

Lemma initial_inv : config_inv initial.
Proof.
  split.
  - intros id. constructor.
  - intros id. cbn. by rewrite lookup_empty.
  - intros id. by split; [intros i s Hs|intros i s s' Hs|intros s ?%elem_of_nil|intros s ?%elem_of_nil|intros i s Hs].
  - intros k t. cbn. by rewrite lookup_empty.
Qed.
Lemma candidate_sound store log session_id base delta final capsules choice : last delta = Some final -> known_base log session_id base ->
  final ∈ events_of_session store session_id -> covered_by base < ce_sequence final ->
  delta = between (events_of_session store session_id) (covered_by base) (ce_sequence final) ->
  compile (ch_answer choice) session_id base delta = Some capsules ->
  sound_candidate (events_of_session store session_id) log base (candidate_snapshot session_id base delta capsules choice).
Proof.
  intros Hl Hb He Hc Hd Hcomp. split; [done|done|done| | |]; cbn [candidate_snapshot ss_covered_event_seq]; rewrite ?Hl; [done|by exists final|].
  exists (ch_answer choice). cbn [ss_session_id ss_covered_event_seq ss_capsules candidate_snapshot]. by rewrite Hl, <- Hd.
Qed.
(** Read at once, the Delta is what lies between the base and its last event. *)
Lemma read_after_between store session_id low final : ascending (events_of_session store session_id) ->
  last (read_after store session_id low) = Some final ->
  read_after store session_id low = between (events_of_session store session_id) low (ce_sequence final).
Proof.
  intros Ha Hl. assert (Hle : forall e, e ∈ read_after store session_id low -> ce_sequence e <= ce_sequence final).
  { intros e He. assert (ascending (read_after store session_id low)) as Hasc.
    { unfold read_after. clear -Ha. induction Ha as [|x l _ IH Hx]; [constructor|]. cbn [List.filter]. destruct (_ <? _); [|done].
      constructor; [done|]. rewrite Forall_forall in Hx |- *. intros y [Hy _]%elem_of_filter_bool. by apply Hx. }
    destruct (ascending_last _ _ _ Hasc Hl He) as [->|?]; lia. }
  clear Hl. unfold read_after, between in *. induction (events_of_session store session_id) as [|x l IH]; [done|]. cbn [List.filter] in *.
  assert (ascending l) as Hal by by inversion Ha. destruct (low <? ce_sequence x); cbn [andb]; [|by apply IH].
  rewrite (proj2 (Z.leb_le _ _)) by (apply Hle; by left). f_equal. apply IH; [done|]. intros e He. apply Hle. by right.
Qed.
Lemma audited_supported store candidate events : au_passed (audit candidate events) = true ->
  (forall e, e ∈ events -> e ∈ events_of_session store (ss_session_id candidate) /\ 1 <= ce_sequence e <= ss_covered_event_seq candidate) ->
  supported (events_of_session store (ss_session_id candidate)) candidate.
Proof.
  intros (Hc & Ha & Hd)%audit_passed He.
  assert (forall id, id ∈ map ce_event_id events -> known_event (events_of_session store (ss_session_id candidate)) (ss_covered_event_seq candidate) id) as Hk.
  { intros id (e & -> & Hin)%list_elem_of_fmap. destruct (He e Hin). by exists e. }
  split; [|auto|done]. intros c Hin. destruct (Hc c Hin). auto.
Qed.
(** A task's step that commits nothing. *)
Lemma task_step_sound choice store snapshots log t : (forall id, ascending (events_of_session store id)) ->
  (forall id, snapshots !! id = last (commits log id)) -> sound_task store log t ->
  match t with AuditPassed _ _ => True
             | _ => sound_task store log (task_step choice store snapshots t).1 /\ (task_step choice store snapshots t).2 = snapshots
                    /\ committed_by t (task_step choice store snapshots t).1 = [] end.
Proof.
  intros Hasc Ha. destruct t as [id|id base|id base delta|base candidate|base candidate events|base candidate|b|]; cbn [task_step sound_task fst snd]; try done.
  - intros _. split; [|done]. unfold latest_committed, known_base. rewrite Ha. destruct (last _) as [s|] eqn:Hl; [|done]. by apply last_Some_elem_of in Hl.
  - intros Hb. destruct (nonempty (read_after store id (covered_by base))) eqn:Hn; [|done]. split; [|done]. split; [done|].
    destruct (last (read_after store id (covered_by base))) as [final|] eqn:Hl; [|by apply last_None in Hl; rewrite Hl in Hn].
    exists final. destruct (proj1 (read_after_elem store id (covered_by base) final)) as [? ?]; [by apply last_Some_elem_of in Hl|].
    split_and!; [done..|]. by apply read_after_between.
  - intros (Hb & final & Hl & Hin & Hlow & Hd). destruct (compile _ _ _ _) as [capsules|] eqn:Ec; [|done]. split; [|done]. cbn [sound_task].
    by apply (candidate_sound store log id base delta final).
  - intros Hc. split; [|done]. split; [done|]. intros e He. by apply read_range_elem in He.
  - intros [Hc He]. destruct (au_passed (audit candidate events)) eqn:Hp; [|done]. split; [|done]. split; [done|]. by eapply audited_supported.
Qed.
Lemma lookup_commits log id s : s ∈ commits log id <-> s ∈ log /\ ss_session_id s = id.
Proof. unfold commits. rewrite elem_of_filter_bool. by rewrite (py_eq_leibniz (ss_session_id s) id). Qed.
Lemma step_inv c c' : config_inv c -> step c c' -> config_inv c'.
Proof.
  intros [Hasc Ha Hc Ht]. inversion 1 as [event events tasks snapshots log events' He|session_id k events tasks snapshots log Hk|
    choice k t t' events tasks snapshots snapshots' log Hk Hs]; subst; cbn [cf_events cf_snapshots cf_tasks cf_log] in *.
  - pose proof (append_more _ _ _ He Hasc) as Hm. split; cbn [cf_events cf_snapshots cf_tasks cf_log]; [|done| |].
    + intros id. by eapply append_ascending.
    + intros id. eapply chain_more; [apply Hm|done].
    + intros k t Hk. rewrite <- (app_nil_r log). eapply sound_task_more; [exact Hm|by apply (Ht k)].
  - split; cbn [cf_events cf_snapshots cf_tasks cf_log]; [done..|]. intros k' t. rewrite lookup_insert_Some. by intros [[_ <-]|[_ ?%Ht]].
  - pose proof (task_step_sound choice events snapshots log t Hasc Ha (Ht k t Hk)) as Hsound. rewrite Hs in Hsound. cbn [fst snd] in Hsound.
    destruct (match t with AuditPassed _ _ => true | _ => false end) eqn:Hcase.
    2:{ assert (sound_task events log t' /\ snapshots' = snapshots /\ committed_by t t' = []) as (Hst & -> & ->) by by destruct t.
        rewrite app_nil_r. split; cbn [cf_events cf_snapshots cf_tasks cf_log]; [done..|].
        intros k' u. rewrite lookup_insert_Some. by intros [[_ <-]|[_ ?%Ht]]. }
    destruct t as [| | | | |base candidate| |]; try done. destruct (Ht k _ Hk) as [Hcand Hsup]. cbn [task_step] in Hs. unfold commit_candidate in Hs.
    cbn [as_committed ss_committed ss_session_id negb raise_if] in Hs. rewrite Ha in Hs. case_bool_decide as Hv.
    2:{ injection Hs as <- <-. cbn [committed_by]. rewrite app_nil_r. split; cbn [cf_events cf_snapshots cf_tasks cf_log]; [done..|].
        intros k' u. rewrite lookup_insert_Some. by intros [[_ <-]|[_ ?%Ht]]. }
    injection Hs as <- <-. cbn [committed_by]. split; cbn [cf_events cf_snapshots cf_tasks cf_log]; [done| | |].
    + intros id. rewrite commits_app, commits_one. cbn [as_committed ss_session_id].
      destruct (ss_session_id candidate ==? id) eqn:E.
      * apply py_eq_leibniz in E as <-. by rewrite lookup_insert_eq, last_snoc.
      * rewrite lookup_insert_ne, app_nil_r; [done|]. intros <-. by rewrite (proj2 (py_eq_leibniz _ _) eq_refl) in E.
    + intros id. rewrite commits_app, commits_one. cbn [as_committed ss_session_id].
      destruct (ss_session_id candidate ==? id) eqn:E; [|by rewrite app_nil_r]. apply py_eq_leibniz in E as <-.
      destruct Hcand as [Hb Hver Hbv Hcov Hcap Hcomp]. eapply commit_chain; try done. intros s ->. exact Hb.
      destruct Hsup as [S1 S2 S3]. by split.
    + intros k' u. rewrite lookup_insert_Some. intros [[_ <-]|[_ Hu]]; [done|]. eapply sound_task_more; [apply more_events_refl|by eapply Ht].
Qed.
Lemma reachable_config_inv c : scaffold_reachable c -> config_inv c.
Proof.
  unfold scaffold_reachable. intros Hr. assert (forall a b, rtc step a b -> config_inv a -> config_inv b) as Hind.
  { induction 1 as [|x y z Hxy _ IH]; [done|]. intros Hx. apply IH. by eapply step_inv. }
  by apply (Hind initial), initial_inv.
Qed.

(** C40. Whatever way events arrive and any number of compactions interleave at
    their awaits, with any compiler: the Snapshots committed for a session form
    one chain - versions 1, 2, 3, ... without a gap or a repetition, each naming
    the one before as its base and covering strictly more, up to a captured
    event, with the Capsules the compiler made of that base and of exactly the
    events above its coverage up to the Snapshot's own, so that no event between
    two Snapshots is skipped or compiled twice - the active Snapshot is the last
    of them, and every one committed has only active claims and anchors whose
    sources are captured events it covers, with no claim said twice. *)
Theorem interleaved_compactions_chain c session_id : scaffold_reachable c ->
  cf_snapshots c !! session_id = last (commits (cf_log c) session_id)
  /\ chain (events_of_session (cf_events c) session_id) (commits (cf_log c) session_id).
Proof. intros [_ Ha Hc _]%reachable_config_inv. by split. Qed.

(** ** A compaction that runs alone *)

Lemma read_after_last store session_id low final : ascending (events_of_session store session_id) ->
  last (read_after store session_id low) = Some final -> last (events_of_session store session_id) = Some final.
Proof.
  intros Ha Hl. assert (final ∈ read_after store session_id low) as Hin by by apply last_Some_elem_of in Hl.
  apply read_after_elem in Hin as [Hin Hlow].
  destruct (last (events_of_session store session_id)) as [f|] eqn:Hf; [|apply last_None in Hf; rewrite Hf in Hin; by apply elem_of_nil in Hin].
  apply last_Some in Hf as (l & Hev). unfold read_after in Hl. rewrite Hev in Hl, Hin, Ha.
  assert (low < ce_sequence f).
  { rewrite <- Hev in Ha, Hin. destruct (ascending_last _ final f Ha) as [->|?]; [by rewrite Hev, last_snoc|done|done|lia]. }
  rewrite List.filter_app in Hl. cbn [List.filter] in Hl. rewrite (proj2 (Z.ltb_lt _ _)), last_snoc in Hl by done. exact Hl.
Qed.
Lemma scaffold_claims uuid4 session_id choice base delta : delta <> [] ->
  let candidate := candidate_snapshot session_id base delta (scaffold_compile uuid4 session_id delta) choice in
  snapshot_claims candidate = map (scaffold_claim uuid4) (combine (seq 0 (length delta)) delta) /\ snapshot_anchors candidate = [].
Proof.
  intros Hne candidate. unfold candidate, scaffold_compile, snapshot_claims, snapshot_anchors. destruct delta as [|e delta]; [done|].
  destruct (last (e :: delta)) as [final|] eqn:Hl; [|by apply last_None in Hl]. cbn [candidate_snapshot ss_capsules flat_map cc_claims cc_decisions cc_exact_anchors].
  rewrite !app_nil_r. split; [|done]. generalize (combine (seq 0 (length (e :: delta))) (e :: delta)). intros l.
  induction l as [|p l IH]; [done|]. cbn [map List.filter]. by rewrite IH.
Qed.
Lemma combine_snd {A} (l : list A) n : map snd (combine (seq n (length l)) l) = l.
Proof. revert n. induction l as [|x l IH]; intros n; [done|]. cbn. by rewrite IH. Qed.
Lemma scaffold_audit_passes uuid4 store session_id choice base : ascending (events_of_session store session_id) -> 0 <= covered_by base ->
  let delta := read_after store session_id (covered_by base) in
  let candidate := candidate_snapshot session_id base delta (scaffold_compile uuid4 session_id delta) choice in
  delta <> [] -> au_passed (audit candidate (read_range store session_id 1 (ss_covered_event_seq candidate)))
                 = bool_decide (NoDup (map ce_content delta)).
Proof.
  intros Ha Hc delta candidate Hne. destruct (scaffold_claims uuid4 session_id choice base delta Hne) as [Hclaims Hanchors].
  fold candidate in Hclaims, Hanchors. set (covered := read_range _ _ _ _).
  set (claims := map (scaffold_claim uuid4) (combine (seq 0 (length delta)) delta)) in Hclaims.
  assert (forall cl, cl ∈ claims -> exists id, cm_source_event_ids cl = [id] /\ id ∈ map ce_event_id covered) as Hsources.
  { intros cl ([i e] & -> & Hin)%list_elem_of_fmap. exists (ce_event_id e). split; [done|]. apply list_elem_of_fmap. exists e. split; [done|].
    assert (e ∈ delta) as He by (apply list_elem_of_In in Hin; apply in_combine_r in Hin; by apply list_elem_of_In).
    apply read_after_elem in He as He'. destruct He' as [Hin' Hlow]. apply read_range_elem. split; [done|].
    destruct (last delta) as [final|] eqn:Hl; [|by apply last_None in Hl]. cbn [candidate candidate_snapshot ss_covered_event_seq]. rewrite Hl.
    pose proof (read_after_last _ _ _ _ Ha Hl) as Hlast. destruct (ascending_last _ e final Ha Hlast Hin') as [->|?]; lia. }
  unfold audit. rewrite Hclaims, Hanchors. cbn [au_passed List.filter map].
  assert (List.filter (fun cl => negb (nonempty (cm_source_event_ids cl))
    || existsb (fun source => negb (bool_decide (source ∈ map ce_event_id covered))) (cm_source_event_ids cl)) claims = []) as ->.
  { apply filter_nil_iff. intros cl Hin. destruct (Hsources cl Hin) as (id & -> & Hk). cbn. by rewrite bool_decide_eq_true_2. }
  assert (List.filter (fun cl => nonempty (cm_source_event_ids cl)) claims = claims) as ->.
  { apply filter_all. intros cl Hin. by destruct (Hsources cl Hin) as (id & -> & _). }
  assert (nonempty claims = true) as Hn by by destruct delta. rewrite Hn.
  assert (map cm_text claims = map ce_content delta) as ->.
  { unfold claims. rewrite map_map. cbn [scaffold_claim cm_text]. rewrite <- (map_map snd ce_content). by rewrite combine_snd. }
  assert (f_div_Z (len claims) (len claims) = f_one) as ->.
  { destruct claims as [|cl claims']; [done|]. rewrite len_cons. pose proof (len_nonneg claims'). destruct (len claims' + 1) as [|p|p] eqn:E; [lia| |lia]. apply f_div_self. }
  unfold issue. cbn [map app nonempty].
  destruct (decide (NoDup (map ce_content delta))) as [Hd|Hd].
  - rewrite (proj2 (duplicates_nil _) Hd), bool_decide_eq_true_2 by done. reflexivity.
  - rewrite bool_decide_eq_false_2 by done. destruct (duplicates (map ce_content delta)) eqn:E; [|reflexivity].
    by apply duplicates_nil in E.
Qed.
(** The function and the steps of a task that nothing interrupts agree. *)
Lemma compact_session_steps choice events snapshots session_id :
  Nat.iter 6 (fun p => task_step choice events p.2 p.1) (Begun session_id, snapshots)
  = match compact_session choice events snapshots session_id with
    | Some (committed, snapshots) => (Finished committed, snapshots)
    | None => (Raised, snapshots)
    end.
Proof.
  unfold compact_session. cbn [Nat.iter nat_rect task_step fst snd]. destruct (nonempty _); cbn [negb]; [|done].
  cbn [task_step fst snd]. destruct (compile _ _ _ _) as [capsules|]; [|done]. cbn [task_step fst snd candidate_snapshot ss_session_id].
  destruct (au_passed _); cbn [negb]; [|done]. cbn [task_step fst snd]. unfold commit_candidate. cbn [as_committed ss_committed negb raise_if].
  by case_bool_decide.
Qed.

(** A compaction that runs alone on a reachable store, with the wiring
    compiler, is decided: it commits exactly when there are new events and no
    two of them say the same; then the active Snapshot covers everything
    captured, under the next version; otherwise nothing changes.  It never
    raises, and its six steps from await to await are that function. *)
Theorem compaction_alone_catches_up c session_id uuid4 choice : scaffold_reachable c ->
  let base := cf_snapshots c !! session_id in
  let delta := read_after (cf_events c) session_id (covered_by base) in
  compile (ch_answer choice) session_id base delta = Some (scaffold_compile uuid4 session_id delta) ->
  Nat.iter 6 (fun p => task_step choice (cf_events c) p.2 p.1) (Begun session_id, cf_snapshots c)
  = (if nonempty delta && bool_decide (NoDup (map ce_content delta))
     then (Finished true, <[session_id := as_committed (candidate_snapshot session_id base delta (scaffold_compile uuid4 session_id delta) choice)]>
                            (cf_snapshots c))
     else (Finished false, cf_snapshots c))
  /\ (delta <> [] -> ss_covered_event_seq (candidate_snapshot session_id base delta (scaffold_compile uuid4 session_id delta) choice)
                     = latest_sequence (cf_events c) session_id).
Proof.
  intros Hr base delta Hcaps. apply reachable_config_inv in Hr as [Hasc Ha Hc _].
  assert (0 <= covered_by base) as Hcov.
  { unfold base. rewrite Ha. destruct (last _) as [s|] eqn:Hl; [|done]. cbn [covered_by].
    assert (s ∈ commits (cf_log c) session_id) as Hin by by apply last_Some_elem_of in Hl.
    destruct (chain_captured _ _ (Hc session_id) s Hin). lia. }
  split.
  - rewrite compact_session_steps. unfold compact_session, latest_committed. fold base delta. rewrite Hcaps.
    destruct (nonempty delta) eqn:Hn; cbn [negb andb]; [|done].
    assert (delta <> []) as Hne by by intros E; rewrite E in Hn. unfold delta at 3 4.
    pose proof (scaffold_audit_passes uuid4 (cf_events c) session_id choice base (Hasc session_id) Hcov Hne) as Hp.
    cbv zeta in Hp. fold delta in Hp |- *. rewrite Hp. case_bool_decide as Hd; cbn [negb]; [|done].
    unfold commit_candidate. cbn [as_committed ss_committed negb raise_if ss_session_id candidate_snapshot]. fold base.
    by rewrite bool_decide_eq_true_2.
  - intros Hne. cbn [candidate_snapshot ss_covered_event_seq]. destruct (last delta) as [final|] eqn:Hl; [|by apply last_None in Hl].
    unfold latest_sequence. by rewrite (read_after_last _ _ _ _ (Hasc session_id) Hl).
Qed.
End interleaving.

(** ** Concrete runs *)

(** A step as a function, and runs of it. *)
Inductive Move := Arrive (event : ContextEvent) | Ask (task : nat) (session_id : string) | Run (task : nat) (choice : Choice).
Definition move `{PyRepr, CapsuleCompiler} (m : Move) (c : Config) : option Config :=
  match m with
  | Arrive event =>
      match append event (cf_events c) with
      | Ok events => Some {| cf_events := events; cf_snapshots := cf_snapshots c; cf_tasks := cf_tasks c; cf_log := cf_log c |}
      | Err _ => None
      end
  | Ask k session_id =>
      match cf_tasks c !! k with
      | None => Some {| cf_events := cf_events c; cf_snapshots := cf_snapshots c; cf_tasks := <[k := Begun session_id]> (cf_tasks c); cf_log := cf_log c |}
      | Some _ => None
      end
  | Run k choice =>
      t ← cf_tasks c !! k;
      let moved := task_step choice (cf_events c) (cf_snapshots c) t in
      Some {| cf_events := cf_events c; cf_snapshots := moved.2; cf_tasks := <[k := moved.1]> (cf_tasks c);
              cf_log := cf_log c ++ committed_by t moved.1 |}
  end.
Fixpoint moves `{PyRepr, CapsuleCompiler} (l : list Move) (c : Config) : option Config :=
  match l with [] => Some c | m :: l => c ← move m c; moves l c end.
Lemma move_step `{PyRepr, CapsuleCompiler} m c c' : move m c = Some c' -> step c c'.
Proof.
  destruct c as [events snapshots tasks log]. destruct m as [event|k session_id|k choice]; cbn [move cf_events cf_snapshots cf_tasks cf_log].
  - destruct (append event events) eqn:Ha; [|done]. intros [= <-]. by eapply StepAppend.
  - destruct (tasks !! k) eqn:Hk; [done|]. intros [= <-]. by apply StepBegin.
  - destruct (tasks !! k) as [t|] eqn:Hk; [|done]. intros [= <-]. apply (StepTask choice k t); [done|]. by destruct (task_step _ _ _ _).
Qed.
Lemma moves_reachable `{PyRepr, CapsuleCompiler} l : forall c c', scaffold_reachable c -> moves l c = Some c' -> scaffold_reachable c'.
Proof.
  induction l as [|m l IH]; intros c c' Hc Hm; cbn [moves] in Hm; [by injection Hm as <-|].
  destruct (move m c) as [c1|] eqn:E; [|done]. apply (IH c1); [|done]. eapply rtc_r; [exact Hc|by eapply move_step].
Qed.
#[local] Instance toy_repr : PyRepr := fun _ => "[]".
Definition toy_context_event (id : string) (sequence : Z) (content : string) : ContextEvent :=
  {| ce_event_id := id; ce_session_id := "s"; ce_sequence := sequence; ce_event_type := "message"; ce_role := "user"; ce_content := content;
     ce_created_at := f_zero; ce_metadata := [] |}.
#[local] Instance toy_compiler : CapsuleCompiler := fun answer session_id base delta =>
  Some (scaffold_compile (fun _ => show_Z (Z.of_nat answer)) session_id delta).
Definition toy_choice (answer : nat) (id : string) : Choice := {| ch_answer := answer; ch_snapshot_id := id; ch_time := f_zero |}.
(** Two compactions race over one message while a second one arrives. *)
Definition toy_message1 : ContextEvent := toy_context_event "e1" 1 "hello".
Definition toy_message2 : ContextEvent := toy_context_event "e2" 2 "world".
Definition toy_race : list Move :=
  let first := toy_choice 1 "one" in
  let second := toy_choice 2 "two" in
  [Arrive toy_message1; Ask 0 "s"; Run 0 first; Run 0 first; Run 0 first; Arrive toy_message2; Ask 1 "s"; Run 1 second; Run 1 second;
   Run 1 second; Run 0 first; Run 1 second; Run 1 second; Run 0 first; Run 0 first; Run 1 second].
Definition toy_race_end : option Config := moves toy_race initial.
(** The first to commit wins; the other one is refused, not merged. *)
Example race_has_one_winner :
  (fun c => (map (fun s => (ss_snapshot_id s, ss_version s, ss_covered_event_seq s)) (cf_log c), cf_tasks c !! 0%nat, cf_tasks c !! 1%nat)) <$> toy_race_end
  = Some ([("one", 1, 1)], Some (Finished true), Some (Finished false)).
Proof. vm_compute. reflexivity. Qed.
Definition toy_raced : Config := Eval vm_compute in default initial toy_race_end.
Lemma toy_raced_reachable : scaffold_reachable toy_raced.
Proof. apply (moves_reachable toy_race initial); [apply rtc_refl|]. vm_compute. reflexivity. Qed.
Lemma interleaved_compactions_chain_witness :
  cf_snapshots toy_raced !! "s" = last (commits (cf_log toy_raced) "s")
  /\ chain (events_of_session (cf_events toy_raced) "s") (commits (cf_log toy_raced) "s").
Proof. exact (interleaved_compactions_chain toy_raced "s" toy_raced_reachable). Defined.
(** A third compaction of the same session catches up with the second message. *)
Definition toy_third : Choice := toy_choice 3 "three".
Lemma compaction_alone_catches_up_witness :
  fst (Nat.iter 6 (fun p => task_step toy_third (cf_events toy_raced) p.2 p.1) (Begun "s", cf_snapshots toy_raced)) = Finished true.
Proof.
  eapply eq_trans.
  - apply (f_equal fst (proj1 (compaction_alone_catches_up toy_raced "s" (fun _ => "3") toy_third toy_raced_reachable
      ltac:(vm_compute; reflexivity)))).
  - vm_compute. reflexivity.
Defined.

(** ** The assembler *)

(** What a build takes: the blocks in the order of priority, each as long as it
    fits what is left; the first required one that does not is an error. *)
Lemma take_blocks_spec ledger blocks : 0 <= bl_used ledger <= bl_limit ledger ->
  match take_blocks ledger blocks with
  | Ok (taken, after) => bl_limit after = bl_limit ledger /\ bl_used after <= bl_limit after
      /\ bl_used after = bl_used ledger + sumZ (fun b => Z.max 0 (cx_tokens b)) taken
      /\ (forall b, b ∈ blocks -> cx_required b = true -> b ∈ taken) /\ taken `sublist_of` blocks
  | Err _ => exists b, b ∈ blocks /\ cx_required b = true /\ 0 < cx_tokens b
  end.
Proof.
  revert ledger. induction blocks as [|b blocks IH]; intros ledger Hl; cbn [take_blocks].
  - split_and!; [done|lia|cbn; lia|by intros ? ?%elem_of_nil|done].
  - unfold ledger_remaining. destruct (cx_tokens b <=? _) eqn:Hb; bool_hyps.
    + set (after := (reserve (cx_tokens b) ledger).2).
      assert (bl_limit after = bl_limit ledger /\ bl_used after = bl_used ledger + Z.max 0 (cx_tokens b)) as [Hlim Hused].
      { unfold after, reserve, ledger_remaining. cbn. split; [done|]. lia. }
      specialize (IH after ltac:(lia)). destruct (take_blocks after blocks) as [[taken final]|e]; cbn [mbind result_bind fst snd].
      * destruct IH as (H1 & H2 & H3 & H4 & H5). rewrite sumZ_cons. split_and!; [lia|lia|lia| |by apply sublist_skip].
        intros x [->|Hx]%elem_of_cons Hr; [left|right; auto].
      * destruct IH as (x & ? & ? & ?). exists x. split; [by right|done].
    + destruct (cx_required b) eqn:Hr; [exists b; split; [left|split; [done|lia]]|].
      specialize (IH ledger Hl). destruct (take_blocks ledger blocks) as [[taken final]|e].
      * destruct IH as (H1 & H2 & H3 & H4 & H5). split_and!; [done..| |by apply sublist_cons].
        intros x [->|Hx]%elem_of_cons Hreq; [congruence|auto].
      * destruct IH as (x & ? & ? & ?). exists x. split; [by right|done].
Qed.
(** The assembler keeps every required block and its ledger; the total it
    reports is what the blocks cost as long as the current input fits the
    target, and understates an input between the target and the ceiling. *)
Theorem scaffold_build_budget config session_id snapshot delta current_input blocks r : validate config = Ok tt ->
  Forall (fun b => 0 <= cx_tokens b) blocks -> build config session_id snapshot delta current_input blocks = Ok r ->
  (forall b, b ∈ blocks -> cx_required b = true -> b ∈ as_blocks r)
  /\ at_total_tokens (as_trace r) <= bg_target_input_tokens config
  /\ cx_tokens (current_block current_input) <= bg_hard_input_ceiling config
  /\ (cx_tokens (current_block current_input) <= bg_target_input_tokens config -> sumZ cx_tokens (as_blocks r) = at_total_tokens (as_trace r))
  /\ (bg_target_input_tokens config < cx_tokens (current_block current_input) ->
      at_total_tokens (as_trace r) = bg_target_input_tokens config /\ bg_target_input_tokens config < sumZ cx_tokens (as_blocks r)).
Proof.
  unfold validate, build. intros [Ht [Hh _]%raise_if_ok]%raise_if_ok Hpos [Hc Hb]%raise_if_ok. bool_hyps.
  set (current := current_block current_input) in *. assert (1 <= cx_tokens current) by (cbn; unfold estimated_tokens; lia).
  set (ledger := (reserve _ _).2) in Hb.
  assert (bl_limit ledger = bg_target_input_tokens config /\ bl_used ledger = Z.min (cx_tokens current) (bg_target_input_tokens config)) as [Hlim Hused].
  { unfold ledger, reserve, ledger_remaining. cbn [bl_limit bl_used snd]. split; [done|]. lia. }
  pose proof (take_blocks_spec ledger (order_by (fun b => - cx_priority b) blocks) ltac:(lia)) as Hs.
  apply result_bind_ok in Hb as ([taken after] & Htake & [= <-]). rewrite Htake in Hs. destruct Hs as (H1 & H2 & H3 & H4 & H5).
  cbn [as_blocks as_trace at_total_tokens fst snd]. rewrite !sumZ_cons.
  assert (Forall (fun b => 0 <= cx_tokens b) taken) as Hpos'.
  { rewrite Forall_forall in Hpos |- *. intros b Hin. apply Hpos. eapply elem_of_order_by, elem_of_sublist; [exact Hin|exact H5]. }
  assert (sumZ (fun b => Z.max 0 (cx_tokens b)) taken = sumZ cx_tokens taken) as Hsum.
  { clear -Hpos'. induction Hpos' as [|b l Hb _ IH]; [done|]. rewrite !sumZ_cons, IH. lia. }
  assert (0 <= sumZ cx_tokens taken) by (rewrite <- Hsum; apply sumZ_nonneg; intros; lia).
  split_and!; [|lia..]. intros b Hin Hr. right. apply H4; [by apply elem_of_order_by|done].
Qed.
Example scaffold_total_understated :
  match build {| bg_target_input_tokens := 2; bg_hard_input_ceiling := 10; bg_recent_raw_tokens := 0; bg_retrieval_tokens := 0; bg_snapshot_tokens := 0 |}
          "s" None [] "sixteen letters!" [] with
  | Ok r => (at_total_tokens (as_trace r), at_slot_tokens (as_trace r)) = (2, [("current_input", 4)])
  | Err _ => False
  end.
Proof. reflexivity. Qed.
