(* ===== verification/Pressure.v ===== *)
(** Context pressure ([runtime/pressure.py]): how much of the model's context a
    request uses, and from which use on old events are compacted and the
    request is projected. *)
From S2P Require Import Prelude PyString PyFloat.
Open Scope string_scope.
Open Scope list_scope.
Open Scope Z_scope.

Inductive PressureSource := TRUSTED_PROVIDER_USAGE | CONSERVATIVE_ESTIMATE.
Record PressureConfig := {
  pc_context_limit : Z; pc_reserved_output_and_tools : Z; pc_compact_ratio : float; pc_project_ratio : float;
}.
Record PressureDecision := {
  pd_used : Z; pd_capacity : Z; pd_compact_at : Z; pd_project_at : Z; pd_should_compact : bool; pd_should_project : bool;
  pd_source : PressureSource;
}.
(** A [ValueError] of a check, or the [OverflowError] of [float(capacity)]. *)
Inductive pressure_error := PressureValueError | PressureOverflowError.

(** The check that [PressureConfig] and [RequestBudgetProfile] share. *)
Definition ratios_valid (compact_ratio project_ratio : float) : bool :=
  f_is_finite compact_ratio && f_is_finite project_ratio
  && f_lt f_zero compact_ratio && f_le compact_ratio project_ratio && f_le project_ratio f_one.
(** [PressureConfig.__post_init__] *)
Definition PressureConfig_new (c : PressureConfig) : result pressure_error PressureConfig :=
  raise PressureValueError when pc_context_limit c <? 1;;
  raise PressureValueError when (pc_reserved_output_and_tools c <? 0) || (pc_context_limit c <=? pc_reserved_output_and_tools c);;
  raise PressureValueError when negb (ratios_valid (pc_compact_ratio c) (pc_project_ratio c));;
  Ok c.
(** [PressureConfig.capacity] *)
Definition pc_capacity (c : PressureConfig) : Z := pc_context_limit c - pc_reserved_output_and_tools c.
(** [_usage], of an integer *)
Definition _usage (value : Z) : result pressure_error Z := raise PressureValueError when value <? 0;; Ok value.
(** [math.ceil(capacity * ratio)]; an integer beyond the floats is an [OverflowError]. *)
Definition threshold (capacity : Z) (ratio : float) : result pressure_error Z :=
  raise PressureOverflowError when negb (f_is_finite (f_of_Z capacity));;
  Ok (f_ceil (f_mul (f_of_Z capacity) ratio)).
(** [assess_pressure] *)
Definition assess_pressure (trusted_token_usage : option Z) (estimated_input_usage current_input_cost : Z) (config : PressureConfig)
    : result pressure_error PressureDecision :=
  trusted ← match trusted_token_usage with None => Ok None | Some value => value ← _usage value; Ok (Some value) end;
  estimated ← _usage estimated_input_usage;
  current ← _usage current_input_cost;
  let '(used, source) :=
    match trusted with
    | Some trusted => if 0 <? trusted then (trusted + current, TRUSTED_PROVIDER_USAGE) else (estimated, CONSERVATIVE_ESTIMATE)
    | None => (estimated, CONSERVATIVE_ESTIMATE)
    end in
  compact_at ← threshold (pc_capacity config) (pc_compact_ratio config);
  project_at ← threshold (pc_capacity config) (pc_project_ratio config);
  Ok {| pd_used := used; pd_capacity := pc_capacity config; pd_compact_at := compact_at; pd_project_at := project_at;
        pd_should_compact := compact_at <=? used; pd_should_project := project_at <=? used; pd_source := source |}.

(** ** Lemmas *)

(** [math.ceil(x) <= n] exactly when [x <= n]: with [x] the mantissa times a power
    of two, over the integers. *)
Lemma f_ceil_le_pos m e n : f_ceil (SpecFloat.S754_finite false m e) <= n
  <-> if e <? 0 then Zpos m <= n * 2 ^ (- e) else Zpos m * 2 ^ e <= n.
Proof.
  cbn [f_ceil]. destruct (e <? 0) eqn:He; bool_hyps; [|done]. assert (0 < 2 ^ (- e)) by (apply Z.pow_pos_nonneg; lia).
  change (Z.neg m) with (- Z.pos m). set (p := 2 ^ (- e)) in *. split; intros H0.
  - pose proof (Z.mul_div_le (- Z.pos m) p ltac:(done)). nia.
  - pose proof (Z.div_le_lower_bound (- Z.pos m) p (- n) ltac:(done) ltac:(lia)). lia.
Qed.
(** What the assessment decides. *)
Lemma assess_pressure_ok trusted estimated current config d : assess_pressure trusted estimated current config = Ok d ->
  pd_should_compact d = (pd_compact_at d <=? pd_used d) /\ pd_should_project d = (pd_project_at d <=? pd_used d)
  /\ pd_capacity d = pc_capacity config
  /\ threshold (pc_capacity config) (pc_compact_ratio config) = Ok (pd_compact_at d)
  /\ threshold (pc_capacity config) (pc_project_ratio config) = Ok (pd_project_at d)
  /\ match trusted with
     | Some t => if 0 <? t then pd_used d = t + current /\ pd_source d = TRUSTED_PROVIDER_USAGE
                 else pd_used d = estimated /\ pd_source d = CONSERVATIVE_ESTIMATE
     | None => pd_used d = estimated /\ pd_source d = CONSERVATIVE_ESTIMATE
     end.
Proof.
  unfold assess_pressure, _usage. intros (t & Ht & Hd)%result_bind_ok. apply result_bind_ok in Hd as (est & He & Hd).
  apply result_bind_ok in Hd as (cur & Hc & Hd). apply raise_if_ok in He as [_ [= <-]]. apply raise_if_ok in Hc as [_ [= <-]].
  assert (t = trusted) as ->.
  { destruct trusted as [v|]; [|by injection Ht]. apply result_bind_ok in Ht as (v' & Hv & [= <-]). by apply raise_if_ok in Hv as [_ [= <-]]. }
  destruct trusted as [v|]; [destruct (0 <? v)|];
    apply result_bind_ok in Hd as (c & Hc & Hd); apply result_bind_ok in Hd as (p & Hp & [= <-]); done.
Qed.
(** A request's pressure is always assessed, when its capacity is a float. *)
Lemma assess_pressure_total trusted estimated current config :
  match trusted with Some t => 0 <= t | None => True end -> 0 <= estimated -> 0 <= current ->
  f_is_finite (f_of_Z (pc_capacity config)) = true -> exists d, assess_pressure trusted estimated current config = Ok d.
Proof.
  intros Ht He Hc Hf. unfold assess_pressure, _usage, threshold. rewrite Hf. cbn [negb].
  rewrite (raise_if_false (estimated <? 0)), (raise_if_false (current <? 0)) by by apply Z.ltb_ge.
  destruct trusted as [t|]; cbn [mbind result_bind].
  - rewrite (raise_if_false (t <? 0)) by by apply Z.ltb_ge. cbn [mbind result_bind]. destruct (0 <? t); by eexists.
  - by eexists.
Qed.
