(* ===== verification/Tokenization.v ===== *)
(** Tokenizer profiles, model routing and context limits
    ([tokenization/types.py], [router.py], [context.py], [registry.py]).  The
    tokenizers themselves are parameters. *)
From S2P Require Import Prelude PyString PyFloat Domain Views Runtime Budget Pressure.
Open Scope string_scope.
Open Scope list_scope.
Open Scope Z_scope.

(** ** Profiles, [types.py] *)

Inductive TokenizerMode := CANONICAL | EXACT_TEXT | REFERENCE | MODE_BYTE_FALLBACK.
#[export] Instance TokenizerMode_eq_dec : EqDecision TokenizerMode.
Proof. solve_decision. Defined.
Definition tokenizer_mode_value (m : TokenizerMode) : string :=
  match m with CANONICAL => "CANONICAL" | EXACT_TEXT => "EXACT_TEXT" | REFERENCE => "REFERENCE" | MODE_BYTE_FALLBACK => "BYTE_FALLBACK" end.
Inductive TokenizerErrorCode :=
| TOKENIZER_IMPORT_FAILED | TOKENIZER_ASSET_MISSING | TOKENIZER_ASSET_INVALID | TOKENIZER_CONSTRUCTION_FAILED
| TOKENIZER_COUNT_FAILED | TOKENIZER_COUNT_INVALID.
#[export] Instance TokenizerErrorCode_eq_dec : EqDecision TokenizerErrorCode.
Proof. solve_decision. Defined.
Record TokenizerProfile := {
  tp_profile_id : string; tp_schema_version : Z; tp_mode : TokenizerMode; tp_encoding_name : option string;
  tp_implementation_name : string; tp_implementation_version : string; tp_asset_digest : option string;
  tp_count_multiplier_basis_points : Z;
}.
#[export] Instance TokenizerProfile_eq_dec : EqDecision TokenizerProfile.
Proof. solve_decision. Defined.
Definition _CL100K_DIGEST : string := "223921b76ee99bde995b7ff738513eef100fb51d18c93597a113bcffe865b2a7".
Definition _O200K_DIGEST : string := "446a9538cb6c348e3516120d7c08b09f57c36495e2acfffe59a5bf8b0cfb1a2d".
Definition _OFFLINE_IMPLEMENTATION_NAME : string := "astrcontinuum-offline-tiktoken".
Definition offline_profile (profile_id : string) (mode : TokenizerMode) (encoding digest : string) (basis_points : Z) : TokenizerProfile :=
  {| tp_profile_id := profile_id; tp_schema_version := 1; tp_mode := mode; tp_encoding_name := Some encoding;
     tp_implementation_name := _OFFLINE_IMPLEMENTATION_NAME; tp_implementation_version := "1"; tp_asset_digest := Some digest;
     tp_count_multiplier_basis_points := basis_points |}.
Definition CANONICAL_O200K : TokenizerProfile := offline_profile "canonical-o200k-v1" CANONICAL "o200k_base" _O200K_DIGEST 10000.
Definition OPENAI_O200K : TokenizerProfile := offline_profile "openai-o200k_base-v1" EXACT_TEXT "o200k_base" _O200K_DIGEST 10000.
Definition OPENAI_CL100K : TokenizerProfile := offline_profile "openai-cl100k_base-v1" EXACT_TEXT "cl100k_base" _CL100K_DIGEST 10000.
Definition REFERENCE_O200K : TokenizerProfile := offline_profile "reference-o200k-v1" REFERENCE "o200k_base" _O200K_DIGEST 11000.
Definition BYTE_FALLBACK : TokenizerProfile :=
  {| tp_profile_id := "utf8-byte-v1"; tp_schema_version := 1; tp_mode := MODE_BYTE_FALLBACK; tp_encoding_name := None;
     tp_implementation_name := "python-utf8"; tp_implementation_version := "1"; tp_asset_digest := None;
     tp_count_multiplier_basis_points := 10000 |}.

(** [apply_multiplier] *)
Definition apply_multiplier (raw_count basis_points : Z) : result TokenizerErrorCode Z :=
  raise TOKENIZER_COUNT_INVALID when (raw_count <? 0) || (basis_points <? 0);;
  Ok ((raw_count * basis_points + 9999) / 10000).
(** [OrdinaryEncoding]: [len(encode_ordinary(text))], or [None] when it raises. *)
Definition OrdinaryEncoding := string -> option Z.
Record ProfileCounter := { pf_profile : TokenizerProfile; pf_encoding : OrdinaryEncoding }.
(** [ProfileCounter.count_text] *)
Definition profile_count_text (c : ProfileCounter) (text : string) : result TokenizerErrorCode Z :=
  match pf_encoding c text with
  | None => Err TOKENIZER_COUNT_FAILED
  | Some raw_count => apply_multiplier raw_count (tp_count_multiplier_basis_points (pf_profile c))
  end.
(** [ProfileCounter.count_texts] *)
Definition profile_count_texts (c : ProfileCounter) (texts : list string) : result TokenizerErrorCode (list Z) :=
  map_result (profile_count_text c) texts.
(** The counter as its callers see it. *)
Definition profile_counter (c : ProfileCounter) : TokenCounter :=
  fun text => match profile_count_text c text with Ok n => Counted n | Err _ => RaisedTokenizerError end.

(** ** Routing, [router.py] *)

(** [unicodedata.category(c).startswith("C")] *)
Class UnicodeCategories := category_other : N -> bool.
Definition _MAX_MODEL_CODEPOINTS : Z := 256.
(** [normalize_model_identity]; [None] is a value that is not a string. *)
Definition normalize_model_identity `{UnicodeCategories} (value : option string) : option string :=
  match value with
  | None => None
  | Some value =>
      let normalized := py_strip value in
      if is_empty normalized || (_MAX_MODEL_CODEPOINTS <? py_len normalized) then None
      else if existsb (fun c => py_isspace c || category_other c) (code_points normalized) then None
      else Some normalized
  end.
Record TokenizerRoute := { tr_profile : TokenizerProfile; tr_stable_code : string }.
(** What the mapper of the router does: a name ([None] for a value that is not
    a string), a [KeyError], or another exception. *)
Inductive mapper_outcome := Mapped (encoding_name : option string) | MapperKeyError | MapperRaised.
Definition known_encoding (name : string) : option TokenizerProfile :=
  if name ==? "o200k_base" then Some OPENAI_O200K else if name ==? "cl100k_base" then Some OPENAI_CL100K else None.
(** [TokenizerRouter.route]; no mapper is a failed import. *)
Definition route `{UnicodeCategories} (mapper : option (string -> mapper_outcome)) (model_identity : option string) : TokenizerRoute :=
  match mapper with
  | None => {| tr_profile := BYTE_FALLBACK; tr_stable_code := "TOKENIZER_IMPORT_FAILED" |}
  | Some mapper =>
      let unknown := {| tr_profile := REFERENCE_O200K; tr_stable_code := "TOKENIZER_MODEL_UNKNOWN" |} in
      match normalize_model_identity model_identity with
      | None => unknown
      | Some normalized =>
          match mapper normalized with
          | MapperKeyError => unknown
          | MapperRaised => {| tr_profile := BYTE_FALLBACK; tr_stable_code := "TOKENIZER_CONSTRUCTION_FAILED" |}
          | Mapped encoding_name =>
              match encoding_name ≫= known_encoding with
              | None => unknown
              | Some profile => {| tr_profile := profile; tr_stable_code := "NONE" |}
              end
          end
      end
  end.

(** ** Context limits, [context.py] *)

Inductive ContextLimitSource := MANUAL | AUTO_ASTRBOT | AUTO_SAFE_FALLBACK.
#[export] Instance ContextLimitSource_eq_dec : EqDecision ContextLimitSource.
Proof. solve_decision. Defined.
Record ContextLimitDecision := { cd_limit : Z; cd_source : ContextLimitSource; cd_stable_code : string }.
Definition ContextLimitDecision_valid (d : ContextLimitDecision) : bool := negb (cd_limit d <? 1) && negb (is_empty (cd_stable_code d)).
Definition _SAFE_FALLBACK_LIMIT : Z := 128000.
Definition safe_fallback (limit : Z) (code : string) : ContextLimitDecision :=
  {| cd_limit := limit; cd_source := AUTO_SAFE_FALLBACK; cd_stable_code := code |}.
(** [ContextLimitResolver.resolve]; [None] is a value that is not an integer
    (or is a boolean), or a model that is not a string. *)
Definition resolve `{UnicodeCategories} (configured_limit provider_limit : option Z) (request_model provider_model : option string)
    : ContextLimitDecision :=
  match configured_limit with
  | None => safe_fallback _SAFE_FALLBACK_LIMIT "CONTEXT_LIMIT_CONFIG_INVALID"
  | Some configured =>
      if configured <? 0 then safe_fallback _SAFE_FALLBACK_LIMIT "CONTEXT_LIMIT_CONFIG_INVALID"
      else if 0 <? configured then {| cd_limit := configured; cd_source := MANUAL; cd_stable_code := "NONE" |}
      else match provider_limit with
      | None => safe_fallback _SAFE_FALLBACK_LIMIT "CONTEXT_LIMIT_UNAVAILABLE"
      | Some provider =>
          if provider <? 1 then safe_fallback _SAFE_FALLBACK_LIMIT "CONTEXT_LIMIT_UNAVAILABLE"
          else
            let normalized_request := normalize_model_identity request_model in
            let normalized_provider := normalize_model_identity provider_model in
            if is_some normalized_request && negb (eqb_of normalized_request normalized_provider)
            then safe_fallback (Z.min provider _SAFE_FALLBACK_LIMIT) "CONTEXT_LIMIT_UNAVAILABLE"
            else {| cd_limit := provider; cd_source := AUTO_ASTRBOT; cd_stable_code := "NONE" |}
      end
  end.
(** What the host's objects answer: each attribute read or call that raises, or
    has another type, is [None]. *)
Record HostProvider := {
  hp_model : option (option string);         (* [get_model] callable: what it returned, when it did *)
  hp_type : option (option string);          (* [provider_config] a mapping: its ["type"] *)
  hp_max_context_tokens : option (option Z); (* [provider_config] a mapping: its ["max_context_tokens"] *)
}.
Record HostRequest := {
  hr_model : option string; hr_unified_msg_origin : option string;
  hr_get_using_provider : option (string -> option HostProvider);
}.
Record AstrBotRequestMetadata := {
  am_model_identity : option string; am_request_model : option string; am_provider_model : option string;
  am_provider_limit : option Z; am_provider_type : option string;
}.
(** [resolve_astrbot_request_metadata] *)
Definition using_provider (r : HostRequest) : option HostProvider :=
  match hr_unified_msg_origin r, hr_get_using_provider r with
  | Some umo, Some get_using_provider => if is_blank umo then None else get_using_provider umo
  | _, _ => None
  end.
Definition resolve_astrbot_request_metadata `{UnicodeCategories} (r : HostRequest) : AstrBotRequestMetadata :=
  let request_model := normalize_model_identity (hr_model r) in
  let provider := using_provider r in
  let provider_model := match provider ≫= hp_model with Some model => normalize_model_identity model | None => None end in
  let provider_limit := match provider ≫= hp_max_context_tokens with
                        | Some (Some limit) => if 0 <? limit then Some limit else None
                        | _ => None
                        end in
  let provider_type := match provider ≫= hp_type with Some (Some t) => Some t | _ => None end in
  {| am_model_identity := if is_some request_model then request_model else provider_model;
     am_request_model := request_model; am_provider_model := provider_model; am_provider_limit := provider_limit;
     am_provider_type := provider_type |}.

(** ** The registry, [registry.py] *)

(** [tiktoken], and the verified asset with the encoding built from it: the
    code of the [TokenizerError] that ends the attempt, or the encoding. *)
Class TokenizerRuntime := { tiktoken_present : bool; build_encoding : string -> result TokenizerErrorCode OrdinaryEncoding }.
(** The digest of the asset of an encoding in [_ENCODING_SPECS]. *)
Definition spec_digest (encoding_name : string) : option string :=
  if encoding_name ==? "cl100k_base" then Some _CL100K_DIGEST else if encoding_name ==? "o200k_base" then Some _O200K_DIGEST else None.
(** [_Utf8ByteEncoding.encode_ordinary] *)
Definition _BYTE_ENCODING : OrdinaryEncoding := fun text => if utf8_valid text then Some (utf8_length text) else None.
(** [TokenizerRegistry._encoding_for], on the cache of the encodings built so far *)
Definition _encoding_for `{TokenizerRuntime} (cache : gmap string OrdinaryEncoding) (encoding_name : string)
    : result TokenizerErrorCode (OrdinaryEncoding * gmap string OrdinaryEncoding) :=
  match cache !! encoding_name with
  | Some cached => Ok (cached, cache)
  | None => encoding ← build_encoding encoding_name; Ok (encoding, <[encoding_name := encoding]> cache)
  end.
(** [TokenizerRegistry.counter_for] *)
Definition counter_for `{TokenizerRuntime} (cache : gmap string OrdinaryEncoding) (profile : TokenizerProfile)
    : result TokenizerErrorCode (ProfileCounter * gmap string OrdinaryEncoding) :=
  if eqb_of (tp_mode profile) MODE_BYTE_FALLBACK then
    raise TOKENIZER_CONSTRUCTION_FAILED when is_some (tp_encoding_name profile);;
    Ok ({| pf_profile := profile; pf_encoding := _BYTE_ENCODING |}, cache)
  else
    match tp_encoding_name profile with
    | None => Err TOKENIZER_CONSTRUCTION_FAILED
    | Some encoding_name =>
        raise TOKENIZER_CONSTRUCTION_FAILED when
          match spec_digest encoding_name, tp_asset_digest profile with
          | Some digest, Some given => given !=? digest
          | _, _ => true
          end;;
        raise TOKENIZER_IMPORT_FAILED when negb tiktoken_present;;
        found ← _encoding_for cache encoding_name;
        Ok ({| pf_profile := profile; pf_encoding := found.1 |}, found.2)
    end.

(** ** What routing and resolution decide *)

(** A context limit is always positive and never guessed upwards: a manual
    limit is the configured one; an automatic one is the provider's own, and
    only when the request names no other model; every other case is a marked
    fallback of at most 128000 tokens, and of at most the provider's limit when
    that is known. *)
Theorem context_limit_conservative `{UnicodeCategories} (configured_limit provider_limit : option Z) (request_model provider_model : option string) :
  let d := resolve configured_limit provider_limit request_model provider_model in
  ContextLimitDecision_valid d = true
  /\ match cd_source d with
     | MANUAL => configured_limit = Some (cd_limit d) /\ cd_stable_code d = "NONE"
     | AUTO_ASTRBOT => configured_limit = Some 0 /\ provider_limit = Some (cd_limit d) /\ cd_stable_code d = "NONE"
         /\ (normalize_model_identity request_model = None
             \/ normalize_model_identity request_model = normalize_model_identity provider_model)
     | AUTO_SAFE_FALLBACK => cd_limit d <= 128000 /\ cd_stable_code d <> "NONE"
         /\ (configured_limit = Some 0 -> forall limit, provider_limit = Some limit -> 1 <= limit -> cd_limit d <= limit)
     end.
Proof.
  unfold resolve, safe_fallback, _SAFE_FALLBACK_LIMIT. cbv zeta. destruct configured_limit as [configured|]; [|by split_and!].
  destruct (configured <? 0) eqn:Hn; bool_hyps; [split; [done|]; split; [cbn [cd_limit]; lia|]; split; [done|]; intros [= ->]; exfalso; lia|].
  destruct (0 <? configured) eqn:Hp; bool_hyps.
  { unfold ContextLimitDecision_valid. cbn. rewrite (proj2 (Z.ltb_ge configured 1)) by lia. done. }
  assert (configured = 0) as -> by lia. destruct provider_limit as [limit|]; [|by split_and!].
  destruct (limit <? 1) eqn:Hl; bool_hyps; [split; [done|]; split; [cbn [cd_limit]; lia|]; split; [done|]; intros _ ? [= <-]; lia|].
  destruct (is_some _ && _) eqn:Hm; unfold ContextLimitDecision_valid; cbn [cd_limit cd_source cd_stable_code is_empty].
  - rewrite (proj2 (Z.ltb_ge (Z.min limit 128000) 1)) by lia. split_and!; try done; [lia|]. intros _ ? [= <-] _. lia.
  - rewrite (proj2 (Z.ltb_ge limit 1)) by lia. split_and!; try done.
    destruct (normalize_model_identity request_model) as [m|]; [right|by left]. cbn in Hm. unfold eqb_of in Hm. by bool_hyps.
Qed.
(** A route is exact only by the mapper's own answer for the normalized model. *)
Lemma route_exact `{UnicodeCategories} mapper model : tr_stable_code (route mapper model) = "NONE" <->
  exists f normalized name profile, mapper = Some f /\ normalize_model_identity model = Some normalized
    /\ f normalized = Mapped (Some name) /\ known_encoding name = Some profile /\ tr_profile (route mapper model) = profile.
Proof.
  unfold route. destruct mapper as [f|]; [|split; [done|intros (? & ? & ? & ? & ? & _); done]].
  destruct (normalize_model_identity model) as [normalized|] eqn:Hn; [|split; [done|intros (? & ? & ? & ? & ? & ? & _); done]].
  destruct (f normalized) as [[name|]| |] eqn:Hf; cbn [mbind option_bind].
  1: destruct (known_encoding name) as [profile|] eqn:Hk.
  all: cbn [tr_stable_code tr_profile]; split; try done.
  1: { intros _. by exists f, normalized, name, profile. }
  all: intros (f' & n' & name' & profile' & [= <-] & [= <-] & Hf' & Hk' & _); congruence.
Qed.
Lemma known_encodings name profile : known_encoding name = Some profile ->
  (name = "o200k_base" /\ profile = OPENAI_O200K) \/ (name = "cl100k_base" /\ profile = OPENAI_CL100K).
Proof.
  unfold known_encoding. destruct (name ==? "o200k_base") eqn:E1; [apply py_eq_leibniz in E1; intros [= <-]; by left|].
  destruct (name ==? "cl100k_base") eqn:E2; [apply py_eq_leibniz in E2; intros [= <-]; by right|done].
Qed.
Lemma context_limit_conservative_witness :
  cd_limit (resolve (H := fun _ => false) (Some 0) (Some 200000) (Some "a") (Some "b")) <= 200000.
Proof.
  apply (proj2 (context_limit_conservative (H := fun _ => false) (Some 0) (Some 200000) (Some "a") (Some "b"))); [reflexivity|reflexivity|lia].
Defined.
