(* ===== verification/RequestBudget.v ===== *)
(** The request budget ([tokenization/request.py] and the workload types of
    [tokenization/types.py]): one workload is counted through a request-scoped
    cache, its pressure assessed, its projection assembled, and the whole run
    replayed with the byte counter when the tokenizer fails. *)
From S2P Require Import Prelude PyString PyFloat Domain Records Views Runtime Closure Budget Pressure Tokenization.
Open Scope string_scope.
Open Scope list_scope.
Open Scope Z_scope.

(** ** The workload, [types.py] *)

Record RequestBudgetProfile := {
  rb_model_identity : option string; rb_context_limit : Z; rb_context_limit_source : ContextLimitSource;
  rb_tokenizer_profile : TokenizerProfile; rb_target_input_budget : Z; rb_hard_input_ceiling : Z;
  rb_reserved_output_and_tools : Z; rb_safety_margin : Z; rb_compaction_start_ratio : float;
  rb_provider_view_switch_ratio : float; rb_stable_code : string;
}.
(** [RequestBudgetProfile.__post_init__] *)
Definition RequestBudgetProfile_valid (p : RequestBudgetProfile) : bool :=
  forallb (fun value => negb (value <? 1)) [rb_context_limit p; rb_target_input_budget p; rb_hard_input_ceiling p]
  && forallb (fun value => negb (value <? 0)) [rb_reserved_output_and_tools p; rb_safety_margin p]
  && negb (is_empty (rb_stable_code p))
  && ratios_valid (rb_compaction_start_ratio p) (rb_provider_view_switch_ratio p).
(** [RequestBudgetProfile.effective_input_budget] *)
Definition effective_input_budget (p : RequestBudgetProfile) : Z :=
  Z.min (Z.min (rb_target_input_budget p) (rb_hard_input_ceiling p)) (rb_context_limit p - rb_reserved_output_and_tools p).
Record HostBudgetView := { hb_all_host_texts : list string; hb_opaque_texts : list string; hb_fixed_required_texts : list string }.
Record PreparedBudgetInput := {
  pb_current_input : string; pb_view : RequestView; pb_candidates : list CandidateBlock; pb_trusted_token_usage : option Z;
}.
(** [PreparedBudgetInput.__post_init__] *)
Definition PreparedBudgetInput_valid (p : PreparedBudgetInput) : bool :=
  match pb_trusted_token_usage p with Some usage => negb (usage <? 0) | None => true end.
Record RequestBudgetWorkload := { rw_prepared : PreparedBudgetInput; rw_host : HostBudgetView; rw_profile : RequestBudgetProfile }.
Record RequestBudgetOutcome := {
  ro_pressure : PressureDecision; ro_assembly : option AssemblyResult; ro_tokenizer_profile_id : string; ro_tokenizer_mode : string;
  ro_fallback_code : string; ro_stable_code : string; ro_mutation_allowed : bool; ro_primary_result_discarded : bool;
}.
(** [RequestBudgetOutcome.__post_init__]; a mode's value is always one. *)
Definition RequestBudgetOutcome_valid (o : RequestBudgetOutcome) : bool :=
  forallb (fun value => negb (is_empty value))
    [ro_tokenizer_profile_id o; ro_tokenizer_mode o; ro_fallback_code o; ro_stable_code o].

(** ** Errors *)

Inductive RequestBudgetErrorCode := DUPLICATE_BLOCK_ID | BLOCK_ID_TEXT_CONFLICT | BLOCK_ID_INVALID | BLOCK_TEXT_INVALID | WORKLOAD_INVALID.
(** What leaves a run: a [RequestBudgetInvariantError], a [TokenizerError] (with
    its code, when the request's own counter raised it), what the assembly
    raised, a [UnicodeEncodeError] of a text, a value refused by a record, or
    an [OverflowError] of the pressure. *)
Inductive request_error :=
| RequestBudgetInvariantError (code : RequestBudgetErrorCode)
| RequestTokenizerError (code : option TokenizerErrorCode)
| RequestAssemblyError (e : budget_error)
| RequestUnicodeError
| RequestValueError
| RequestOverflowError.

(** ** The request-scoped counter *)

(** A counter object: its [profile] attribute, when it has one, and [count_text]. *)
Record CounterObject := { ct_profile : option TokenizerProfile; ct_count_text : TokenCounter }.
(** [counter_provider(profile)]: a counter, a [TokenizerError], or another exception. *)
Inductive provided := Provided (counter : CounterObject) | ProviderTokenizerError | ProviderRaised.
Definition cache_key : Type := string * string.
Record Scope := {
  sp_counter : TokenCounter; sp_profile : TokenizerProfile;
  sp_cache : gmap cache_key Z; sp_block_fingerprints : gmap cache_key string;
  sp_request_cache : gmap cache_key Z; sp_request_fingerprints : gmap cache_key string;
  sp_text_cache : gmap cache_key Z;
}.
(** [RequestScopedTokenCounter.__init__] *)
Definition scoped (counter : CounterObject) (profile : option TokenizerProfile) : result request_error Scope :=
  let failed := RequestTokenizerError (Some TOKENIZER_CONSTRUCTION_FAILED) in
  raise failed when match ct_profile counter, profile with Some own, Some given => negb (eqb_of own given) | _, _ => false end;;
  match (if is_some (ct_profile counter) then ct_profile counter else profile) with
  | None => Err failed
  | Some resolved => Ok {| sp_counter := ct_count_text counter; sp_profile := resolved; sp_cache := ∅; sp_block_fingerprints := ∅;
                           sp_request_cache := ∅; sp_request_fingerprints := ∅; sp_text_cache := ∅ |}
  end.
(** [_count_uncached] *)
Definition _count_uncached (counter : TokenCounter) (text : string) : result request_error Z :=
  match counter text with
  | Counted value => raise (RequestTokenizerError (Some TOKENIZER_COUNT_INVALID)) when value <? 0;; Ok value
  | NotAnInteger => Err (RequestTokenizerError (Some TOKENIZER_COUNT_INVALID))
  | RaisedTokenizerError => Err (RequestTokenizerError None)
  | RaisedOther => Err (RequestTokenizerError (Some TOKENIZER_COUNT_FAILED))
  end.

Section request.
Context `{Sha256}.
(** [hashlib.sha256(text.encode("utf-8")).hexdigest()] *)
Definition text_fingerprint (text : string) : result request_error string :=
  raise RequestUnicodeError when negb (utf8_valid text);; Ok (sha256_hexdigest text).
Definition with_block (s : Scope) (key : cache_key) (fingerprint : string) (value : Z) : Scope :=
  {| sp_counter := sp_counter s; sp_profile := sp_profile s; sp_cache := <[key := value]> (sp_cache s);
     sp_block_fingerprints := <[key := fingerprint]> (sp_block_fingerprints s); sp_request_cache := sp_request_cache s;
     sp_request_fingerprints := sp_request_fingerprints s; sp_text_cache := sp_text_cache s |}.
Definition with_part (s : Scope) (key : cache_key) (fingerprint : string) (value : Z) : Scope :=
  {| sp_counter := sp_counter s; sp_profile := sp_profile s; sp_cache := sp_cache s;
     sp_block_fingerprints := sp_block_fingerprints s; sp_request_cache := <[key := value]> (sp_request_cache s);
     sp_request_fingerprints := <[key := fingerprint]> (sp_request_fingerprints s); sp_text_cache := sp_text_cache s |}.
Definition with_text (s : Scope) (key : cache_key) (value : Z) : Scope :=
  {| sp_counter := sp_counter s; sp_profile := sp_profile s; sp_cache := sp_cache s;
     sp_block_fingerprints := sp_block_fingerprints s; sp_request_cache := sp_request_cache s;
     sp_request_fingerprints := sp_request_fingerprints s; sp_text_cache := <[key := value]> (sp_text_cache s) |}.
(** [count_block] *)
Definition count_block (s : Scope) (block_id text : string) : result request_error (Z * Scope) :=
  raise (RequestBudgetInvariantError BLOCK_ID_INVALID) when is_empty block_id;;
  let key := (block_id, tp_profile_id (sp_profile s)) in
  fingerprint ← text_fingerprint text;
  raise (RequestBudgetInvariantError BLOCK_ID_TEXT_CONFLICT) when
    match sp_block_fingerprints s !! key with Some previous => previous !=? fingerprint | None => false end;;
  match sp_cache s !! key with
  | Some cached => Ok (cached, s)
  | None => value ← _count_uncached (sp_counter s) text; Ok (value, with_block s key fingerprint value)
  end.
(** [count_text] *)
Definition scoped_count_text (s : Scope) (text : string) : result request_error (Z * Scope) :=
  fingerprint ← text_fingerprint text;
  let key := (fingerprint, tp_profile_id (sp_profile s)) in
  match sp_text_cache s !! key with
  | Some cached => Ok (cached, s)
  | None => value ← _count_uncached (sp_counter s) text; Ok (value, with_text s key value)
  end.
(** [_count_request_part] *)
Definition _count_request_part (s : Scope) (part_id text : string) : result request_error (Z * Scope) :=
  let key := (part_id, tp_profile_id (sp_profile s)) in
  fingerprint ← text_fingerprint text;
  raise (RequestBudgetInvariantError BLOCK_ID_TEXT_CONFLICT) when
    match sp_request_fingerprints s !! key with Some previous => previous !=? fingerprint | None => false end;;
  match sp_request_cache s !! key with
  | Some cached => Ok (cached, s)
  | None => value ← _count_uncached (sp_counter s) text; Ok (value, with_part s key fingerprint value)
  end.
(** The scoped counter as the assembly calls it: a count, the [TokenizerError]
    that passes through the assembly, or another exception. *)
Definition scope_counter (s : Scope) : TokenCounter := fun text =>
  match scoped_count_text s text with
  | Ok (value, _) => Counted value
  | Err (RequestTokenizerError _) => RaisedTokenizerError
  | Err _ => RaisedOther
  end.
(** [_sum_texts] *)
Definition add_part (namespace : string) (state : Z * Scope) (part : Z * string) : result request_error (Z * Scope) :=
  counted ← _count_request_part state.2 (namespace +:+ ":" +:+ show_Z part.1) part.2;
  Ok (state.1 + counted.1, counted.2).
Definition _sum_texts (s : Scope) (namespace : string) (texts : list string) : result request_error (Z * Scope) :=
  fold_result (add_part namespace) (enumerate texts) (0, s).
(** The costs of the blocks, by id. *)
Definition add_block (state : Counts * Scope) (candidate : CandidateBlock) : result request_error (Counts * Scope) :=
  counted ← count_block state.2 (cb_block_id candidate) (cb_text candidate);
  Ok (<[cb_block_id candidate := counted.1]> state.1, counted.2).

(** ** One run *)

Definition _CONTEXT_LIMIT_TOO_SMALL : string := "CONTEXT_LIMIT_TOO_SMALL".
Definition _TOKENIZER_BYTE_FALLBACK : string := "TOKENIZER_BYTE_FALLBACK".
(** [_validate_workload] *)
Definition _validate_workload (w : RequestBudgetWorkload) : result request_error unit :=
  raise (RequestBudgetInvariantError DUPLICATE_BLOCK_ID) when negb (no_duplicates (block_ids (pb_candidates (rw_prepared w))));; Ok tt.
Definition request_outcome (s : Scope) (pressure : PressureDecision) (assembly : option AssemblyResult) (stable_code : string)
    : result request_error RequestBudgetOutcome :=
  let o := {| ro_pressure := pressure; ro_assembly := assembly; ro_tokenizer_profile_id := tp_profile_id (sp_profile s);
              ro_tokenizer_mode := tokenizer_mode_value (tp_mode (sp_profile s)); ro_fallback_code := "NONE";
              ro_stable_code := stable_code; ro_mutation_allowed := is_some assembly; ro_primary_result_discarded := false |} in
  raise RequestValueError when negb (RequestBudgetOutcome_valid o);; Ok o.
(** The pressure of a context too small for any input. *)
Definition exhausted_pressure (prepared : PreparedBudgetInput) (profile : RequestBudgetProfile) : PressureDecision :=
  let used := match pb_trusted_token_usage prepared with Some usage => if 0 <? usage then usage else 0 | None => 0 end in
  {| pd_used := used; pd_capacity := Z.max 0 (rb_context_limit profile - rb_reserved_output_and_tools profile);
     pd_compact_at := 0; pd_project_at := 0; pd_should_compact := true; pd_should_project := true;
     pd_source := if 0 <? used then TRUSTED_PROVIDER_USAGE else CONSERVATIVE_ESTIMATE |}.
Definition pressure_config (profile : RequestBudgetProfile) : PressureConfig :=
  {| pc_context_limit := rb_context_limit profile; pc_reserved_output_and_tools := rb_reserved_output_and_tools profile;
     pc_compact_ratio := rb_compaction_start_ratio profile; pc_project_ratio := rb_provider_view_switch_ratio profile |}.
Definition budget_config (profile : RequestBudgetProfile) : BudgetConfig :=
  {| bc_target_input_budget := rb_target_input_budget profile; bc_hard_input_ceiling := rb_hard_input_ceiling profile;
     bc_model_context_limit := rb_context_limit profile; bc_reserved_output_and_tools := rb_reserved_output_and_tools profile;
     bc_safety_margin := rb_safety_margin profile |}.
Definition pressure_result {A} (r : result pressure_error A) : result request_error A :=
  match r with Ok a => Ok a | Err PressureValueError => Err RequestValueError | Err PressureOverflowError => Err RequestOverflowError end.
(** The costs of the request's parts, in the order they are counted. *)
Definition request_costs (s : Scope) (w : RequestBudgetWorkload) : result request_error (Z * Z * Z * Z * Scope) :=
  host ← _sum_texts s "host" (hb_all_host_texts (rw_host w));
  opaque ← _sum_texts host.2 "opaque" (hb_opaque_texts (rw_host w));
  fixed ← _sum_texts opaque.2 "fixed" (hb_fixed_required_texts (rw_host w));
  current ← _count_request_part fixed.2 "current-input" (pb_current_input (rw_prepared w));
  Ok (host.1, opaque.1, fixed.1, current.1, current.2).

(** [assembly_runner] *)
Variable assembly_runner : RequestView -> list CandidateBlock -> string -> Z -> Z -> TokenCounter -> BudgetConfig -> option Counts ->
  result budget_error AssemblyResult.
(** The projection: [None] when the required input does not fit. *)
Definition request_projection (s : Scope) (w : RequestBudgetWorkload) (opaque_cost fixed_cost : Z) : result request_error (option AssemblyResult) :=
  let prepared := rw_prepared w in
  counted ← fold_result add_block (pb_candidates prepared) (∅, s);
  match BudgetConfig_new (budget_config (rw_profile w)) with
  | Err _ => Err RequestValueError
  | Ok config =>
      match assembly_runner (pb_view prepared) (pb_candidates prepared) (pb_current_input prepared) opaque_cost fixed_cost
              (scope_counter counted.2) config (Some counted.1) with
      | Err (BudgetInvariantError REQUIRED_INPUT_EXCEEDS_BUDGET) => Ok None
      | Err e => Err (RequestAssemblyError e)
      | Ok assembly =>
          Ok (if subset_of (block_ids (List.filter cb_required (pb_candidates prepared))) (block_ids (ar_selected_blocks assembly))
              then Some assembly else None)
      end
  end.
(** [_run_once] *)
Definition _run_once (w : RequestBudgetWorkload) (s : Scope) : result request_error RequestBudgetOutcome :=
  let prepared := rw_prepared w in
  let profile := rw_profile w in
  if effective_input_budget profile <? 1
  then request_outcome s (exhausted_pressure prepared profile) None _CONTEXT_LIMIT_TOO_SMALL
  else
    costs ← request_costs s w;
    let '(host_cost, opaque_cost, fixed_cost, current_cost, s) := costs : Z * Z * Z * Z * Scope in
    config ← pressure_result (PressureConfig_new (pressure_config profile));
    pressure ← pressure_result (assess_pressure (pb_trusted_token_usage prepared) host_cost current_cost config);
    if pd_should_project pressure then
      projected ← request_projection s w opaque_cost fixed_cost;
      match projected with
      | None => request_outcome s pressure None "REQUIRED_INPUT_EXCEEDS_BUDGET"
      | Some assembly => request_outcome s pressure (Some assembly) (rb_stable_code profile)
      end
    else request_outcome s pressure None (rb_stable_code profile).

(** The failures that are replayed with the fallback. *)
Definition tokenizer_failure (e : request_error) : bool :=
  match e with
  | RequestTokenizerError _ => true
  | RequestAssemblyError TokenizerFailed => true
  | RequestAssemblyError (BudgetInvariantError TOKEN_COUNTER_FAILURE) => true
  | _ => false
  end.
Definition run_with (w : RequestBudgetWorkload) (counter : CounterObject) (profile : TokenizerProfile) : result request_error RequestBudgetOutcome :=
  s ← scoped counter (Some profile); _run_once w s.
(** [run_request_budget] *)
Definition discarded (o : RequestBudgetOutcome) : RequestBudgetOutcome :=
  {| ro_pressure := ro_pressure o; ro_assembly := ro_assembly o; ro_tokenizer_profile_id := ro_tokenizer_profile_id o;
     ro_tokenizer_mode := ro_tokenizer_mode o; ro_fallback_code := _TOKENIZER_BYTE_FALLBACK; ro_stable_code := ro_stable_code o;
     ro_mutation_allowed := ro_mutation_allowed o; ro_primary_result_discarded := true |}.
Definition run_request_budget (w : RequestBudgetWorkload) (primary fallback : CounterObject) : result request_error RequestBudgetOutcome :=
  _ ← _validate_workload w;
  match run_with w primary (rb_tokenizer_profile (rw_profile w)) with
  | Ok outcome => Ok outcome
  | Err e =>
      if tokenizer_failure e then outcome ← run_with w fallback BYTE_FALLBACK; Ok (discarded outcome)
      else Err e
  end.
End request.
