(* ===== verification/RequestBudgetProperties.v ===== *)
(** The request budget always answers: a tokenizer's failure is replayed with
    the byte counter, whatever the tokenizer does, and what an outcome lets the
    host change was assembled within the budget.  The request-scoped cache is
    transparent. *)
From S2P Require Import Prelude PyString PyFloat Domain PyJson Records Views Runtime Closure Budget BudgetProperties Pressure Tokenization RequestBudget.
Open Scope string_scope.
Open Scope list_scope.
Open Scope Z_scope.

(** ** Encodable text *)

Lemma utf8_bytes_valid_app n : forall a b : list N, (length a <= n)%nat -> utf8_bytes_valid a = true -> utf8_bytes_valid b = true ->
  utf8_bytes_valid (a ++ b) = true.
Proof.
  induction n as [|n IH]; intros a b Hl Ha Hb; destruct a as [|b0 a]; [done|cbn in Hl; lia|done|].
  cbn [app utf8_bytes_valid length] in *. destruct (b0 <? 128)%N; [apply IH; [lia|done..]|].
  destruct a as [|b1 a]; [done|]. cbn [app length] in *. destruct ((194 <=? b0) && (b0 <? 224))%N.
  { apply andb_true_iff in Ha as [-> Ha]. apply IH; [lia|done..]. }
  destruct a as [|b2 a]; [done|]. cbn [app length] in *. destruct ((224 <=? b0) && (b0 <? 240))%N.
  { rewrite !andb_true_iff in Ha |- *. destruct Ha as [? Ha]. split; [done|]. apply IH; [lia|done..]. }
  destruct a as [|b3 a]; [done|]. cbn [app length] in *.
  rewrite !andb_true_iff in Ha |- *. destruct Ha as [? Ha]. split; [done|]. apply IH; [lia|done..].
Qed.
Lemma utf8_valid_app s t : utf8_valid s = true -> utf8_valid t = true -> utf8_valid (s +:+ t) = true.
Proof. unfold utf8_valid, bytes_of. rewrite list_ascii_of_string_app, map_app. by apply (utf8_bytes_valid_app (length (map Ascii.N_of_ascii (String.list_ascii_of_string s)))). Qed.
Lemma utf8_valid_join sep parts : utf8_valid sep = true -> (forall p, p ∈ parts -> utf8_valid p = true) -> utf8_valid (py_join sep parts) = true.
Proof.
  intros Hs. induction parts as [|p parts IH]; intros Hp; [done|]. cbn [py_join]. destruct parts as [|q parts]; [apply Hp; left|].
  apply utf8_valid_app; [apply Hp; left|]. apply utf8_valid_app; [done|]. apply IH. intros x Hx. apply Hp. by right.
Qed.

(** ** The scoped counter *)

Section request.
Context `{Sha256}.

(** What a counter without the cache answers: the reference. *)
Definition count_directly (counter : TokenCounter) (text : string) : result request_error Z :=
  fingerprint ← text_fingerprint text; _count_uncached counter text.
(** The counter called with each text in turn; a failure changes no cache. *)
Fixpoint count_each (s : Scope) (texts : list string) : list (result request_error Z) :=
  match texts with
  | [] => []
  | text :: texts =>
      match scoped_count_text s text with
      | Ok (value, s') => Ok value :: count_each s' texts
      | Err e => Err e :: count_each s texts
      end
  end.

Lemma count_uncached_ok counter text value : _count_uncached counter text = Ok value -> counter text = Counted value /\ 0 <= value.
Proof. unfold _count_uncached. destruct (counter text); try done. intros [Hv [= <-]]%raise_if_ok. by bool_hyps. Qed.
Lemma count_uncached_err counter text e : _count_uncached counter text = Err e -> tokenizer_failure e = true.
Proof. unfold _count_uncached, raise_if. destruct (counter text) as [v| | |]; [destruct (v <? 0)|..]; by intros [= <-]. Qed.
Lemma fingerprint_ok text : utf8_valid text = true -> text_fingerprint text = Ok (sha256_hexdigest text).
Proof. unfold text_fingerprint. by intros ->. Qed.

(** What the text cache holds: counts of encodable texts, under their digests. *)
Definition text_cache_sound (counter : TokenCounter) (texts : list string) (s : Scope) : Prop :=
  sp_counter s = counter /\ forall key value, sp_text_cache s !! key = Some value ->
    exists text, text ∈ texts /\ key.1 = sha256_hexdigest text /\ count_directly counter text = Ok value.
Lemma count_each_direct counter texts : forall s seen,
  (forall a b, a ∈ seen ++ texts -> b ∈ seen ++ texts -> sha256_hexdigest a = sha256_hexdigest b -> a = b) ->
  text_cache_sound counter seen s -> count_each s texts = map (count_directly counter) texts.
Proof.
  induction texts as [|text texts IH]; intros s seen Hinj [Hc Hs]; [done|]. cbn [count_each map].
  replace (seen ++ text :: texts) with ((seen ++ [text]) ++ texts) in Hinj by by rewrite <- app_assoc.
  assert (text_cache_sound counter (seen ++ [text]) s) as Hsound.
  { split; [done|]. intros key value Hk. destruct (Hs key value Hk) as (t & ? & ?). exists t. split; [apply elem_of_app; by left|done]. }
  unfold scoped_count_text. destruct (text_fingerprint text) as [fp|e] eqn:Hfp; cbn [mbind result_bind].
  2:{ unfold count_directly at 1. rewrite Hfp. cbn [mbind result_bind]. f_equal. by apply (IH s (seen ++ [text])). }
  assert (fp = sha256_hexdigest text) as -> by (by apply raise_if_ok in Hfp as [_ [= <-]]).
  destruct (sp_text_cache s !! _) as [cached|] eqn:Hk.
  - destruct (Hs _ _ Hk) as (t & Ht & Hd & Hv). cbn [fst] in Hd.
    assert (text = t) as <- by (apply Hinj; [apply elem_of_app; left; apply elem_of_app; right; left|rewrite !elem_of_app; tauto|done]).
    rewrite Hv. f_equal. by apply (IH s (seen ++ [text])).
  - assert (count_directly counter text = _count_uncached (sp_counter s) text) as Hdirect.
    { unfold count_directly. rewrite Hfp. by rewrite Hc. }
    rewrite Hdirect. destruct (_count_uncached (sp_counter s) text) as [value|e] eqn:Hv; cbn [mbind result_bind];
      f_equal; [|by apply (IH s (seen ++ [text]))].
    apply (IH _ (seen ++ [text])); [done|]. split; [done|]. intros key v. cbn [with_text sp_text_cache].
    rewrite lookup_insert_Some. intros [[<- <-]|[_ Hkey]]; [|by apply Hsound].
    exists text. split; [apply elem_of_app; right; left|done].
Qed.
(** The request's cache is transparent: as long as the digests of the texts
    do not collide, each of any sequence of calls answers what the counter
    itself answers for that text, errors included, which are never cached. *)
Theorem request_cache_transparent (counter : CounterObject) (profile : option TokenizerProfile) (s : Scope) (texts : list string) :
  (forall a b, a ∈ texts -> b ∈ texts -> sha256_hexdigest a = sha256_hexdigest b -> a = b) ->
  scoped counter profile = Ok s -> count_each s texts = map (count_directly (ct_count_text counter)) texts.
Proof.
  intros Hinj Hs. apply (count_each_direct _ texts s []); [done|].
  unfold scoped in Hs. apply raise_if_ok in Hs as [_ Hs]. destruct (if is_some _ then _ else _); [|done]. injection Hs as <-.
  split; [done|]. intros key value. cbn [sp_text_cache]. by rewrite lookup_empty.
Qed.

(** ** The parts of a request *)

(** A failure of the counter itself, on an encodable text. *)
Definition counter_fault (counter : TokenCounter) (e : request_error) : Prop :=
  tokenizer_failure e = true /\ exists text, utf8_valid text = true /\ forall value, 0 <= value -> counter text <> Counted value.
(** A counter that counts every encodable text, the empty one as nothing. *)
Definition counts_text (counter : TokenCounter) : Prop := counter "" = Counted 0
  /\ forall text, utf8_valid text = true -> exists value, counter text = Counted value /\ 0 <= value.
Lemma no_fault counter e : counts_text counter -> ~ counter_fault counter e.
Proof. intros [_ Hc] (_ & text & Ht & Hn). destruct (Hc text Ht) as (v & Hv & Hpos). by apply (Hn v). Qed.
Lemma count_uncached_fault counter text e : utf8_valid text = true -> _count_uncached counter text = Err e -> counter_fault counter e.
Proof.
  intros Ht He. split; [by eapply count_uncached_err|]. exists text. split; [done|]. intros v Hv Hcount. unfold _count_uncached in He.
  rewrite Hcount in He. unfold raise_if in He. by rewrite (proj2 (Z.ltb_ge v 0)) in He.
Qed.
(** The keys of the request cache are parts [P] describes, and the text and the
    block caches are empty. *)
Record parts_in (counter : TokenCounter) (profile : TokenizerProfile) (P : string -> Prop) (s : Scope) : Prop := {
  parts_counter : sp_counter s = counter /\ sp_profile s = profile;
  parts_empty : sp_cache s = ∅ /\ sp_block_fingerprints s = ∅ /\ sp_text_cache s = ∅;
  parts_keys key : ~ P key.1 -> sp_request_fingerprints s !! key = None /\ sp_request_cache s !! key = None;
}.
Lemma parts_weaken counter profile (P Q : string -> Prop) s : (forall id, P id -> Q id) -> parts_in counter profile P s -> parts_in counter profile Q s.
Proof. intros Hpq [Hc He Hk]. split; [done|done|]. intros key Hq. apply Hk. auto. Qed.
Lemma count_part_fresh counter profile P s id text : parts_in counter profile P s -> ~ P id -> utf8_valid text = true ->
  match _count_request_part s id text with
  | Ok (value, s') => 0 <= value /\ counter text = Counted value /\ parts_in counter profile (fun x => P x \/ x = id) s'
  | Err e => counter_fault counter e
  end.
Proof.
  intros [[Hc Hp] He Hk] Hid Ht. unfold _count_request_part. rewrite (fingerprint_ok text Ht). cbn [mbind result_bind].
  destruct (Hk (id, tp_profile_id (sp_profile s)) Hid) as [-> ->]. cbn [raise_if]. rewrite Hc.
  destruct (_count_uncached counter text) as [value|e] eqn:Hv; cbn [mbind result_bind]; [|by eapply count_uncached_fault].
  apply count_uncached_ok in Hv as [Hv Hn]. split_and!; [done..|]. split; [done|done|].
  intros key Hkey. cbn [with_part sp_request_fingerprints sp_request_cache]. rewrite !lookup_insert_None.
  assert ((id, tp_profile_id (sp_profile s)) <> key) by (intros <-; apply Hkey; by right).
  destruct (Hk key) as [? ?]; [intros ?; apply Hkey; by left|]. done.
Qed.
(** A part of a namespace. *)
Definition part_of (namespace id : string) : Prop := exists i, id = namespace +:+ ":" +:+ show_Z i.
Lemma sum_texts_fresh counter profile namespace texts : (forall text, text ∈ texts -> utf8_valid text = true) ->
  forall k acc P s, 0 <= k -> 0 <= acc -> parts_in counter profile P s -> (forall i, k <= i -> ~ P (namespace +:+ ":" +:+ show_Z i)) ->
  match fold_result (add_part namespace) (enumerate_from k texts) (acc, s) with
  | Ok (total, s') => 0 <= total /\ parts_in counter profile (fun id => P id \/ part_of namespace id) s'
  | Err e => counter_fault counter e
  end.
Proof.
  induction texts as [|text texts IH]; intros Ht k acc P s Hk Hacc Hs HP; cbn [enumerate_from fold_result].
  { split; [done|]. eapply parts_weaken; [|exact Hs]. by left. }
  change (add_part namespace (acc, s) (k, text)) with (counted ← _count_request_part s (namespace +:+ ":" +:+ show_Z k) text;
    Ok (acc + counted.1, counted.2) : result request_error (Z * Scope)).
  pose proof (count_part_fresh counter profile P s (namespace +:+ ":" +:+ show_Z k) text Hs (HP k ltac:(lia)) (Ht text ltac:(left))) as Hpart.
  destruct (_count_request_part s _ text) as [[value s']|e]; cbn [mbind result_bind fst snd]; [|done]. destruct Hpart as (Hv & _ & Hs').
  specialize (IH (fun t Hin => Ht t ltac:(by right)) (k + 1) (acc + value) _ s' ltac:(lia) ltac:(lia) Hs').
  destruct (fold_result _ _ _) as [[total s'']|e].
  - destruct IH as [Htot Hs'']; [|split; [done|]].
    + intros i Hi [Hp|Heq]; [by apply (HP i ltac:(lia))|].
      apply (inj (String.append namespace)), (inj (String.append ":")), show_Z_inj in Heq; lia.
    + eapply parts_weaken; [|exact Hs'']. intros id [[?| ->]|?]; [by left|right; by exists k|by right].
  - apply IH. intros i Hi [Hp|Heq]; [by apply (HP i ltac:(lia))|].
    apply (inj (String.append namespace)), (inj (String.append ":")), show_Z_inj in Heq; lia.
Qed.
(** The texts of a workload. *)
Definition host_texts (w : RequestBudgetWorkload) : list string :=
  hb_all_host_texts (rw_host w) ++ hb_opaque_texts (rw_host w) ++ hb_fixed_required_texts (rw_host w).
Definition encodable (w : RequestBudgetWorkload) : Prop :=
  (forall text, text ∈ host_texts w -> utf8_valid text = true) /\ utf8_valid (pb_current_input (rw_prepared w)) = true
  /\ forall c, c ∈ pb_candidates (rw_prepared w) -> utf8_valid (cb_text c) = true.
Lemma request_costs_fresh counter profile s w : encodable w -> parts_in counter profile (fun _ => False) s ->
  match request_costs s w with
  | Ok (host, opaque, fixed, current, s') => 0 <= host /\ 0 <= opaque /\ 0 <= fixed /\ 0 <= current
      /\ counter (pb_current_input (rw_prepared w)) = Counted current /\ parts_in counter profile (fun _ => True) s'
  | Err e => counter_fault counter e
  end.
Proof.
  intros (Hh & Hc & _) Hs. unfold request_costs, _sum_texts, enumerate, host_texts in *.
  pose proof (sum_texts_fresh counter profile "host" (hb_all_host_texts (rw_host w)) ltac:(intros; apply Hh; set_solver) 0 0 _ s
    ltac:(lia) ltac:(lia) Hs ltac:(auto)) as H1.
  destruct (fold_result _ _ (0, s)) as [[host s1]|e]; cbn [mbind result_bind fst snd]; [|done]. destruct H1 as [Hn1 H1].
  pose proof (sum_texts_fresh counter profile "opaque" (hb_opaque_texts (rw_host w)) ltac:(intros; apply Hh; set_solver) 0 0 _ s1
    ltac:(lia) ltac:(lia) H1 ltac:(intros i _ [[]|[j Hj]]; discriminate Hj)) as H2.
  destruct (fold_result _ _ (0, s1)) as [[opaque s2]|e]; cbn [mbind result_bind fst snd]; [|done]. destruct H2 as [Hn2 H2].
  pose proof (sum_texts_fresh counter profile "fixed" (hb_fixed_required_texts (rw_host w)) ltac:(intros; apply Hh; set_solver) 0 0 _ s2
    ltac:(lia) ltac:(lia) H2 ltac:(intros i _ [[[]|[j Hj]]|[j Hj]]; discriminate Hj)) as H3.
  destruct (fold_result _ _ (0, s2)) as [[fixed s3]|e]; cbn [mbind result_bind fst snd]; [|done]. destruct H3 as [Hn3 H3].
  pose proof (count_part_fresh counter profile _ s3 "current-input" (pb_current_input (rw_prepared w)) H3
    ltac:(intros [[[[]|[j Hj]]|[j Hj]]|[j Hj]]; discriminate Hj) Hc) as H4.
  destruct (_count_request_part s3 _ _) as [[current s4]|e]; cbn [mbind result_bind fst snd]; [|done]. destruct H4 as (Hn4 & Hcur & H4).
  split_and!; [done..|]. eapply parts_weaken; [|exact H4]. done.
Qed.

(** ** The blocks, and the counter the assembly sees *)

Definition keys_unseen (s : Scope) (ids : list string) : Prop := forall key, key.1 ∈ ids ->
  sp_block_fingerprints s !! key = None /\ sp_cache s !! key = None.
Lemma add_blocks_fresh counter candidates : (forall c, c ∈ candidates -> utf8_valid (cb_text c) = true) ->
  Forall (fun c => CandidateBlock_valid c = true) candidates -> NoDup (block_ids candidates) ->
  forall (counts : Counts) (s : Scope), sp_counter s = counter -> sp_text_cache s = ∅ -> keys_unseen s (block_ids candidates) ->
  match fold_result add_block candidates (counts, s) with
  | Ok (counts', s') => sp_counter s' = counter /\ sp_profile s' = sp_profile s /\ sp_text_cache s' = ∅
      /\ (forall c, c ∈ candidates -> exists n, counts' !! cb_block_id c = Some n /\ 0 <= n)
      /\ (forall id, id ∉ block_ids candidates -> counts' !! id = counts !! id)
  | Err e => counter_fault counter e
  end.
Proof.
  intros Ht Hv Hn. induction candidates as [|c candidates IH]; intros counts s Hc Htext Hkeys; cbn [fold_result].
  { split_and!; [done..| |done]. by intros c ?%elem_of_nil. }
  apply Forall_cons in Hv as [Hv Hvs]. cbn in Hn. apply NoDup_cons in Hn as [Hid Hn].
  change (add_block (counts, s) c) with (counted ← count_block s (cb_block_id c) (cb_text c);
    Ok (<[cb_block_id c := counted.1]> counts, counted.2) : result request_error (Counts * Scope)).
  unfold count_block. assert (is_empty (cb_block_id c) = false) as ->.
  { unfold CandidateBlock_valid in Hv. rewrite !andb_true_iff in Hv. apply negb_true_iff; tauto. }
  cbn [raise_if]. rewrite fingerprint_ok by (apply Ht; left). cbn [mbind result_bind].
  destruct (Hkeys (cb_block_id c, tp_profile_id (sp_profile s)) ltac:(left)) as [-> ->]. cbn [raise_if]. rewrite Hc.
  destruct (_count_uncached counter (cb_text c)) as [value|e] eqn:Hcount; cbn [mbind result_bind fst snd];
    [|eapply count_uncached_fault; [apply Ht; left|exact Hcount]].
  apply count_uncached_ok in Hcount as [_ Hpos].
  specialize (IH (fun b Hb => Ht b ltac:(by right)) Hvs Hn (<[cb_block_id c := value]> counts)
    (with_block s (cb_block_id c, tp_profile_id (sp_profile s)) (sha256_hexdigest (cb_text c)) value) Hc Htext).
  destruct (fold_result _ _ _) as [[counts' s']|e].
  2:{ apply IH. intros key Hkey. cbn [with_block sp_block_fingerprints sp_cache]. rewrite !lookup_insert_None.
      destruct (Hkeys key (list_elem_of_further _ _ _ Hkey)). assert ((cb_block_id c, tp_profile_id (sp_profile s)) <> key) by (by intros <-). done. }
  destruct IH as (E1 & E2 & E3 & E4 & E5).
  { intros key Hkey. cbn [with_block sp_block_fingerprints sp_cache]. rewrite !lookup_insert_None.
    destruct (Hkeys key (list_elem_of_further _ _ _ Hkey)). assert ((cb_block_id c, tp_profile_id (sp_profile s)) <> key) by (by intros <-). done. }
  split_and!; [done..| |].
  - intros b [->|Hb]%elem_of_cons; [|by apply E4]. exists value. split; [|done]. rewrite E5 by done. apply lookup_insert_eq.
  - intros id Hnot. change (id ∉ cb_block_id c :: block_ids candidates) in Hnot. apply not_elem_of_cons in Hnot as [Hne Hnot].
    rewrite E5 by done. by apply lookup_insert_ne.
Qed.
(** Without cached texts, the scoped counter is the counter. *)
Lemma scope_counter_fresh s text : sp_text_cache s = ∅ -> scope_counter s text =
  if utf8_valid text then match _count_uncached (sp_counter s) text with Ok v => Counted v | Err _ => RaisedTokenizerError end else RaisedOther.
Proof.
  intros Ht. unfold scope_counter, scoped_count_text, text_fingerprint, raise_if. destruct (utf8_valid text); cbn [negb mbind result_bind]; [|done].
  rewrite Ht, lookup_empty. unfold _count_uncached, raise_if. destruct (sp_counter s text) as [v| | |]; [destruct (v <? 0)|..]; done.
Qed.
Lemma scope_counter_failure s text e : sp_text_cache s = ∅ -> _count_text (scope_counter s) text = Err e ->
  tokenizer_failure (RequestAssemblyError e) = true.
Proof.
  intros Ht. unfold _count_text. rewrite (scope_counter_fresh s text Ht). destruct (utf8_valid text); [|by intros [= <-]].
  destruct (_count_uncached (sp_counter s) text) as [v|e'] eqn:Hv; [|by intros [= <-]]. apply count_uncached_ok in Hv as [_ Hv].
  unfold _non_negative_cost, raise_if. by rewrite (proj2 (Z.ltb_ge v 0) Hv).
Qed.

(** ** A run *)

(** A workload the host can build: its records were constructed, no block id
    repeats, every text encodes, and the capacity is a float. *)
Record sound_workload (w : RequestBudgetWorkload) : Prop := {
  sound_profile : RequestBudgetProfile_valid (rw_profile w) = true;
  sound_tokenizer : is_empty (tp_profile_id (rb_tokenizer_profile (rw_profile w))) = false;
  sound_prepared : PreparedBudgetInput_valid (rw_prepared w) = true;
  sound_candidates : Forall (fun c => CandidateBlock_valid c = true) (pb_candidates (rw_prepared w));
  sound_ids : NoDup (block_ids (pb_candidates (rw_prepared w)));
  sound_texts : encodable w;
  sound_capacity : f_is_finite (f_of_Z (rb_context_limit (rw_profile w) - rb_reserved_output_and_tools (rw_profile w))) = true;
}.
(** A projection the host may apply, for the counter that answered. *)
Definition projection_sound (counter : TokenCounter) (w : RequestBudgetWorkload) (r : AssemblyResult) : Prop :=
  (forall c, c ∈ pb_candidates (rw_prepared w) -> cb_required c = true -> cb_block_id c ∈ block_ids (ar_selected_blocks r))
  /\ counter (ar_projected_text r) = Counted (at_ac_selected_cost (ar_trace r))
  /\ at_total_input_cost (ar_trace r) <= effective_input_budget (rw_profile w).
Lemma scope_counted s text value : sp_text_cache s = ∅ -> scope_counter s text = Counted value -> sp_counter s text = Counted value.
Proof.
  intros Ht. rewrite (scope_counter_fresh s text Ht). destruct (utf8_valid text); [|done].
  destruct (_count_uncached (sp_counter s) text) as [v|] eqn:Hv; [|done]. intros [= <-]. by apply count_uncached_ok in Hv as [? _].
Qed.
Lemma blank_line_valid : utf8_valid blank_line = true.
Proof. reflexivity. Qed.
Lemma profile_bounds p : RequestBudgetProfile_valid p = true -> 1 <= rb_context_limit p /\ 1 <= rb_target_input_budget p
  /\ 1 <= rb_hard_input_ceiling p /\ 0 <= rb_reserved_output_and_tools p /\ 0 <= rb_safety_margin p
  /\ is_empty (rb_stable_code p) = false /\ ratios_valid (rb_compaction_start_ratio p) (rb_provider_view_switch_ratio p) = true.
Proof.
  unfold RequestBudgetProfile_valid. cbn [forallb]. rewrite !andb_true_iff, !negb_true_iff, !Z.ltb_ge.
  intros [[[[? [? [? _]]] [? [? _]]] ?] ?]. done.
Qed.
Lemma budget_config_new p : RequestBudgetProfile_valid p = true -> 1 <= effective_input_budget p ->
  BudgetConfig_new (budget_config p) = Ok (budget_config p).
Proof.
  intros (?&?&?&?&?&_)%profile_bounds. unfold effective_input_budget. intros He. unfold BudgetConfig_new, budget_config.
  cbn [bc_target_input_budget bc_hard_input_ceiling bc_model_context_limit bc_reserved_output_and_tools bc_safety_margin].
  rewrite !raise_if_false by (apply Z.ltb_ge; lia). done.
Qed.
Lemma take_provided_total (provided : Counts) l : (forall c, c ∈ l -> exists n, provided !! cb_block_id c = Some n /\ 0 <= n) ->
  forall counts, exists counts', take_provided provided l counts = Ok counts'.
Proof.
  induction l as [|c l IH]; intros Hp counts; cbn [take_provided]; [by eexists|].
  destruct (Hp c ltac:(left)) as (n & -> & Hn). unfold _non_negative_cost. rewrite raise_if_false by by apply Z.ltb_ge.
  cbn [mbind result_bind]. apply IH. intros b Hb. apply Hp. by right.
Qed.
(** The counts of every candidate, passed to the assembly. *)
Definition counts_given (counts : Counts) (candidates : list CandidateBlock) : Prop :=
  forall c, c ∈ candidates -> exists n, counts !! cb_block_id c = Some n /\ 0 <= n.
Section scoped_assembly.
Variables (s : Scope) (view : RequestView) (candidates : list CandidateBlock) (current_input : string) (opaque fixed : Z)
  (config : BudgetConfig) (counts : Counts).
Hypotheses (Htext : sp_text_cache s = ∅) (Hopaque : 0 <= opaque) (Hfixed : 0 <= fixed) (Hcounts : counts_given counts candidates).
Lemma scoped_assembly_error e : assemble view candidates current_input opaque fixed (scope_counter s) config (Some counts) = Err e ->
  e = BudgetInvariantError REQUIRED_INPUT_EXCEEDS_BUDGET \/ tokenizer_failure (RequestAssemblyError e) = true.
Proof.
  intros [(text & Ht)|[->|(_ & Hbad)]]%assemble_error; [right; by eapply scope_counter_failure|by left|exfalso].
  destruct Hbad as [?|[?|(given & c & [= <-] & Hin & Hbad)]]; [lia..|]. destruct (Hcounts c Hin) as (n & Hn & ?). rewrite Hn in Hbad. lia.
Qed.
Lemma scope_counts text : counts_text (sp_counter s) -> utf8_valid text = true -> exists n, scope_counter s text = Counted n /\ 0 <= n.
Proof.
  intros [_ Hall] Hutf. rewrite (scope_counter_fresh s text Htext), Hutf. destruct (Hall text Hutf) as (v & Hv & Hpos).
  unfold _count_uncached, raise_if. rewrite Hv, (proj2 (Z.ltb_ge v 0) Hpos). by exists v.
Qed.
Lemma scoped_assembly_total e : counts_text (sp_counter s) -> utf8_valid current_input = true ->
  (forall c, c ∈ candidates -> utf8_valid (cb_text c) = true) ->
  assemble view candidates current_input opaque fixed (scope_counter s) config (Some counts) = Err e ->
  e = BudgetInvariantError REQUIRED_INPUT_EXCEEDS_BUDGET.
Proof.
  intros Hall Hcur Htexts. destruct (_deduplicate candidates) as [unique dups] eqn:Ed.
  destruct (take_provided_total counts unique) with (counts := ∅ : Counts) as (resolved & Hres).
  { intros c Hin. apply Hcounts. destruct (deduplicate_ok _ _ _ Ed) as [Hperm _]. rewrite <- Hperm. apply elem_of_app. by left. }
  pose proof (assemble_required_only view candidates current_input opaque fixed (scope_counter s) config (fun text => utf8_valid text = true)
    (fun text => scope_counts text Hall) (Some counts) unique dups resolved Hopaque Hfixed Hcur blank_line_valid Htexts) as Honly.
  intros Ha. rewrite Ha in Honly. apply Honly; [|done|done].
  intros blocks Hb. apply utf8_valid_join; [exact blank_line_valid|]. intros p (c & -> & Hc)%list_elem_of_fmap. auto.
Qed.
End scoped_assembly.
Lemma project_answers s w opaque_cost fixed_cost : sound_workload w -> 1 <= effective_input_budget (rw_profile w) ->
  0 <= opaque_cost -> 0 <= fixed_cost -> sp_text_cache s = ∅ -> keys_unseen s (block_ids (pb_candidates (rw_prepared w))) ->
  match request_projection assemble s w opaque_cost fixed_cost with
  | Ok (Some r) => projection_sound (sp_counter s) w r
  | Ok None => True
  | Err e => tokenizer_failure e = true /\ ~ counts_text (sp_counter s)
  end.
Proof.
  intros [Hp _ _ Hv Hids (_ & Hcur & Htexts) _] He Ho Hf Ht Hk. unfold request_projection.
  pose proof (add_blocks_fresh (sp_counter s) (pb_candidates (rw_prepared w)) Htexts Hv Hids ∅ s eq_refl Ht Hk) as Hblocks.
  destruct (fold_result add_block _ _) as [[counts s']|e]; cbn [mbind result_bind fst snd].
  2:{ split; [apply Hblocks|]. intros Hc. by eapply no_fault. }
  destruct Hblocks as (Hc & _ & Ht' & Hcounts & _). rewrite budget_config_new by done.
  destruct (assemble _ _ _ _ _ _ _ _) as [r|e] eqn:Ha.
  - destruct (subset_of _ _) eqn:Hreq; [|done]. apply assembled_cost in Ha as [Hcost Htotal]. split_and!; [| |done].
    + intros c Hin Hr. apply (proj1 (subset_of_spec _ _) Hreq), list_elem_of_fmap. exists c. split; [done|]. by apply elem_of_filter_bool.
    + rewrite <- Hc. by apply scope_counted.
  - pose proof (scoped_assembly_error s' _ _ _ _ _ _ counts Ht' Ho Hf Hcounts e Ha) as Herr. rewrite <- Hc.
    pose proof (fun Hall => scoped_assembly_total s' _ _ _ _ _ _ counts Ht' Ho Hf Hcounts e Hall Hcur Htexts Ha) as Hreq.
    destruct e as [[]| | | |]; cbn; try done; destruct Herr as [|]; try done; (split; [done|]; by intros ?%Hreq).
Qed.

Lemma request_outcome_ok s pressure assembly code : is_empty (tp_profile_id (sp_profile s)) = false -> is_empty code = false ->
  exists o, request_outcome s pressure assembly code = Ok o /\ ro_pressure o = pressure /\ ro_assembly o = assembly
    /\ ro_tokenizer_profile_id o = tp_profile_id (sp_profile s) /\ ro_fallback_code o = "NONE"
    /\ ro_mutation_allowed o = is_some assembly /\ ro_primary_result_discarded o = false.
Proof.
  intros Hp Hc. unfold request_outcome, RequestBudgetOutcome_valid. eexists. rewrite raise_if_false; [by split_and!|].
  cbn [forallb ro_tokenizer_profile_id ro_tokenizer_mode ro_fallback_code ro_stable_code]. rewrite Hp, Hc.
  by destruct (tp_mode (sp_profile s)).
Qed.
(** What the outcome of one run says, for the counter of the run. *)
Record outcome_of (s : Scope) (w : RequestBudgetWorkload) (o : RequestBudgetOutcome) : Prop := {
  outcome_profile : ro_tokenizer_profile_id o = tp_profile_id (sp_profile s);
  outcome_fresh : ro_fallback_code o = "NONE" /\ ro_primary_result_discarded o = false;
  outcome_mutation : ro_mutation_allowed o = is_some (ro_assembly o);
  outcome_projection r : ro_assembly o = Some r -> pd_should_project (ro_pressure o) = true /\ projection_sound (sp_counter s) w r;
}.
Lemma outcome_none s w pressure code : is_empty (tp_profile_id (sp_profile s)) = false -> is_empty code = false ->
  exists o, request_outcome s pressure None code = Ok o /\ outcome_of s w o.
Proof.
  intros Hp Hc. destruct (request_outcome_ok s pressure None code Hp Hc) as (o & -> & _ & Ha & Hid & Hf & Hm & Hd).
  exists o. split; [done|]. split; [done|done|by rewrite Ha|]. intros r. by rewrite Ha.
Qed.
Definition fresh_scope (s : Scope) : Prop := sp_cache s = ∅ /\ sp_block_fingerprints s = ∅ /\ sp_request_cache s = ∅
  /\ sp_request_fingerprints s = ∅ /\ sp_text_cache s = ∅.
Lemma outcome_scope s s' w o : sp_counter s' = sp_counter s -> sp_profile s' = sp_profile s -> outcome_of s' w o -> outcome_of s w o.
Proof. intros Hc Hp [H1 H2 H3 H4]. split; [by rewrite <- Hp|done|done|]. intros r Hr. rewrite <- Hc. by apply H4. Qed.
Lemma pressure_config_new p : RequestBudgetProfile_valid p = true -> 1 <= effective_input_budget p ->
  PressureConfig_new (pressure_config p) = Ok (pressure_config p).
Proof.
  intros (?&?&?&?&?&_&Hr)%profile_bounds. unfold effective_input_budget. intros He. unfold PressureConfig_new, pressure_config.
  cbn [pc_context_limit pc_reserved_output_and_tools pc_compact_ratio pc_project_ratio]. rewrite Hr.
  rewrite raise_if_false by (apply Z.ltb_ge; lia). rewrite raise_if_false by (apply orb_false_iff; split; [apply Z.ltb_ge|apply Z.leb_gt]; lia). done.
Qed.
Lemma run_once_answers s w : sound_workload w -> fresh_scope s -> is_empty (tp_profile_id (sp_profile s)) = false ->
  match _run_once assemble w s with
  | Ok o => outcome_of s w o
  | Err e => tokenizer_failure e = true /\ ~ counts_text (sp_counter s)
  end.
Proof.
  intros Hw (F1 & F2 & F3 & F4 & F5) Hp. pose proof Hw as [Hprof _ Hprep _ _ Htexts Hcap]. unfold _run_once.
  destruct (effective_input_budget (rw_profile w) <? 1) eqn:He; bool_hyps.
  { destruct (outcome_none s w (exhausted_pressure (rw_prepared w) (rw_profile w)) _CONTEXT_LIMIT_TOO_SMALL Hp eq_refl) as (o & -> & Ho). done. }
  assert (parts_in (sp_counter s) (sp_profile s) (fun _ => False) s) as Hs.
  { split; [done|done|]. intros key _. by rewrite F3, F4, !lookup_empty. }
  pose proof (request_costs_fresh _ _ s w Htexts Hs) as Hcosts.
  destruct (request_costs s w) as [[[[[host opaque] fixed] current] s']|e]; cbn [mbind result_bind].
  2:{ split; [apply Hcosts|]. intros Hc. by eapply no_fault. }
  destruct Hcosts as (H1 & H2 & H3 & H4 & _ & [[Hc Hpr] (E1 & E2 & E3) _]). rewrite pressure_config_new by done. cbn [pressure_result mbind result_bind].
  destruct (assess_pressure_total (pb_trusted_token_usage (rw_prepared w)) host current (pressure_config (rw_profile w))) as (d & ->); try done.
  { unfold PreparedBudgetInput_valid in Hprep. destruct (pb_trusted_token_usage _); [|done]. by bool_hyps. }
  cbn [pressure_result mbind result_bind]. pose proof (profile_bounds _ Hprof) as (_ & _ & _ & _ & _ & Hstable & _).
  assert (is_empty (tp_profile_id (sp_profile s')) = false) as Hp' by by rewrite Hpr.
  destruct (pd_should_project d) eqn:Hproject.
  - pose proof (project_answers s' w opaque fixed Hw He H2 H3 E3) as Hpa.
    destruct (request_projection assemble s' w opaque fixed) as [[r|]|e]; cbn [mbind result_bind].
    + destruct (request_outcome_ok s' d (Some r) (rb_stable_code (rw_profile w)) Hp' Hstable) as (o & -> & Hd & Ha & Hid & Hf & Hm & Hdis).
      apply (outcome_scope s s'); [done..|]. split; [done|done|by rewrite Hm, Ha|]. intros r'. rewrite Ha, Hd. intros [= <-]. split; [done|].
      apply Hpa. intros key _. by rewrite E1, E2, !lookup_empty.
    + destruct (outcome_none s' w d "REQUIRED_INPUT_EXCEEDS_BUDGET" Hp' eq_refl) as (o & -> & Ho). by apply (outcome_scope s s').
    + rewrite <- Hc. apply Hpa. intros key _. by rewrite E1, E2, !lookup_empty.
  - destruct (outcome_none s' w d (rb_stable_code (rw_profile w)) Hp' Hstable) as (o & -> & Ho). by apply (outcome_scope s s').
Qed.
Lemma run_with_answers w counter profile : sound_workload w -> is_empty (tp_profile_id profile) = false ->
  match run_with assemble w counter profile with
  | Ok o => exists s, sp_counter s = ct_count_text counter /\ sp_profile s = profile /\ outcome_of s w o
  | Err e => tokenizer_failure e = true /\ ((ct_profile counter <> Some profile /\ ct_profile counter <> None) \/ ~ counts_text (ct_count_text counter))
  end.
Proof.
  intros Hw Hp. unfold run_with, scoped, eqb_of. destruct (ct_profile counter) as [own|]; unfold raise_if.
  - destruct (bool_decide (own = profile)) eqn:Ho; bool_hyps; cbn [negb is_some is_none mbind result_bind]; [subst own|].
    2:{ split; [done|]. left. split; [by intros [= ->]|done]. }
    match goal with |- context [_run_once assemble w ?s] => pose proof (run_once_answers s w Hw ltac:(done) Hp) as Hr;
      destruct (_run_once assemble w s); [by exists s|tauto] end.
  - cbn [negb is_some is_none mbind result_bind].
    match goal with |- context [_run_once assemble w ?s] => pose proof (run_once_answers s w Hw ltac:(done) Hp) as Hr;
      destruct (_run_once assemble w s); [by exists s|tauto] end.
Qed.

(** ** The byte counter *)

Definition byte_counter : TokenCounter := profile_counter {| pf_profile := BYTE_FALLBACK; pf_encoding := _BYTE_ENCODING |}.
Definition byte_fallback : CounterObject := {| ct_profile := Some BYTE_FALLBACK; ct_count_text := byte_counter |}.
Lemma apply_multiplier_ceiling count points n : apply_multiplier count points = Ok n <->
  0 <= count /\ 0 <= points /\ count * points <= n * 10000 < count * points + 10000.
Proof. unfold apply_multiplier. rewrite raise_if_ok, orb_false_iff, !Z.ltb_ge. split; [intros [[? ?] [= <-]]; zdiv|intros (? & ? & ?); split; [done|f_equal; zdiv]]. Qed.
Lemma byte_counter_counts : counts_text byte_counter.
Proof.
  split; [reflexivity|]. intros text Ht. unfold byte_counter, profile_counter, profile_count_text, _BYTE_ENCODING. cbn [pf_encoding pf_profile].
  rewrite Ht. pose proof (utf8_length_nonneg text). cbn [tp_count_multiplier_basis_points BYTE_FALLBACK].
  rewrite (proj2 (apply_multiplier_ceiling (utf8_length text) 10000 (utf8_length text))) by lia. by eexists.
Qed.

(** C15. A request is always answered.  Whatever the model's tokenizer does, a
    sound workload gets an outcome: that of its own tokenizer, or, exactly when
    that run ended in a tokenizer failure, the whole run replayed with the byte
    counter and marked as such.  The outcome lets the host change the request
    exactly when it carries a projection, and then the pressure asked for one,
    every required block is in it, and its text costs what the counter that
    answered says, within the effective input budget. *)
Theorem request_budget_always_answers w primary : sound_workload w ->
  exists o counter, run_request_budget assemble w primary byte_fallback = Ok o
    /\ (if ro_primary_result_discarded o
        then counter = byte_counter /\ ro_fallback_code o = "TOKENIZER_BYTE_FALLBACK" /\ ro_tokenizer_profile_id o = "utf8-byte-v1"
          /\ exists e, run_with assemble w primary (rb_tokenizer_profile (rw_profile w)) = Err e /\ tokenizer_failure e = true
        else counter = ct_count_text primary /\ ro_fallback_code o = "NONE"
          /\ ro_tokenizer_profile_id o = tp_profile_id (rb_tokenizer_profile (rw_profile w))
          /\ run_with assemble w primary (rb_tokenizer_profile (rw_profile w)) = Ok o)
    /\ ro_mutation_allowed o = is_some (ro_assembly o)
    /\ forall r, ro_assembly o = Some r -> pd_should_project (ro_pressure o) = true /\ projection_sound counter w r.
Proof.
  intros Hw. unfold run_request_budget, _validate_workload. pose proof Hw as [_ Htok _ _ Hids _ _].
  assert (no_duplicates (block_ids (pb_candidates (rw_prepared w))) = true) as -> by by apply bool_decide_eq_true.
  cbn [negb raise_if mbind result_bind]. pose proof (run_with_answers w primary _ Hw Htok) as Hprimary.
  destruct (run_with assemble w primary _) as [o|e].
  - destruct Hprimary as (s & Hc & Hp & [O1 [O2 O3] O4 O5]). exists o, (ct_count_text primary). rewrite O3, <- Hc. rewrite Hp in O1. done.
  - destruct Hprimary as [Hfail _]. rewrite Hfail. pose proof (run_with_answers w byte_fallback BYTE_FALLBACK Hw eq_refl) as Hfallback.
    destruct (run_with assemble w byte_fallback BYTE_FALLBACK) as [o|e'].
    + destruct Hfallback as (s & Hc & Hp & [O1 [O2 O3] O4 O5]). cbn [mbind result_bind]. exists (discarded o), byte_counter.
      cbn [discarded ro_primary_result_discarded ro_fallback_code ro_tokenizer_profile_id ro_mutation_allowed ro_assembly ro_pressure].
      rewrite O1, Hp. cbn [byte_fallback ct_count_text] in Hc. rewrite Hc in O5. split_and!; try done. by exists e.
    + exfalso. destruct Hfallback as [_ [[Hne _]|Hno]]; [by apply Hne|by apply Hno, byte_counter_counts].
Qed.
End request.

(** ** Concrete runs *)

Definition toy_ratio : float := Eval vm_compute in f_div_Z 1 2.
Definition toy_request : RequestBudgetWorkload :=
  {| rw_prepared := {| pb_current_input := "hi"; pb_view := demo_view; pb_candidates := firstn 5 demo_candidates; pb_trusted_token_usage := None |};
     rw_host := {| hb_all_host_texts := ["a long host conversation of many words"]; hb_opaque_texts := ["sys"]; hb_fixed_required_texts := [] |};
     rw_profile := {| rb_model_identity := Some "model"; rb_context_limit := 60; rb_context_limit_source := MANUAL;
       rb_tokenizer_profile := OPENAI_O200K; rb_target_input_budget := 50; rb_hard_input_ceiling := 50;
       rb_reserved_output_and_tools := 10; rb_safety_margin := 1; rb_compaction_start_ratio := toy_ratio;
       rb_provider_view_switch_ratio := toy_ratio; rb_stable_code := "NONE" |} |}.
(** A tokenizer that counts a quarter of the bytes, and one that raises. *)
Definition quarter_counter : CounterObject :=
  {| ct_profile := Some OPENAI_O200K; ct_count_text := fun text => Counted (utf8_length text / 4 + 1) |}.
Definition broken_counter : CounterObject := {| ct_profile := None; ct_count_text := fun _ => RaisedOther |}.
Definition toy_digest : Sha256 := fun s => s.
Definition toy_budget_run (primary : CounterObject) : option (string * string * bool * option (list string)) :=
  match run_request_budget (H := toy_digest) assemble toy_request primary byte_fallback with
  | Ok o => Some (ro_tokenizer_profile_id o, ro_fallback_code o, ro_mutation_allowed o, block_ids ∘ ar_selected_blocks <$> ro_assembly o)
  | Err _ => None
  end.
(** Below the threshold nothing is projected; the byte counter's larger count projects. *)
Example budget_runs : (toy_budget_run quarter_counter, toy_budget_run broken_counter)
  = (Some ("openai-o200k_base-v1", "NONE", false, None),
     Some ("utf8-byte-v1", "TOKENIZER_BYTE_FALLBACK", true, Some ["g"; "r1"; "r2"; "d"; "x"])).
Proof. vm_compute. reflexivity. Qed.
Lemma toy_request_sound : sound_workload toy_request.
Proof.
  split; [reflexivity|reflexivity|reflexivity| | | |reflexivity].
  - repeat constructor.
  - apply (bool_decide_unpack _). reflexivity.
  - split_and!; [|reflexivity|].
    + apply Forall_forall. repeat constructor.
    + apply (Forall_forall (fun c => utf8_valid (cb_text c) = true)). repeat constructor.
Qed.
Lemma request_budget_always_answers_witness :
  exists o, run_request_budget (H := toy_digest) assemble toy_request broken_counter byte_fallback = Ok o.
Proof.
  destruct (request_budget_always_answers (H := toy_digest) toy_request broken_counter toy_request_sound) as (o & counter & Ho & _).
  exists o. exact Ho.
Defined.
Lemma request_cache_transparent_witness : exists s, scoped quarter_counter None = Ok s
  /\ count_each (H := toy_digest) s ["a"; "bb"; "a"] = [Ok 1; Ok 1; Ok 1].
Proof.
  destruct (scoped quarter_counter None) as [s|] eqn:Hs; [|vm_compute in Hs; discriminate Hs]. exists s. split; [reflexivity|].
  rewrite (request_cache_transparent (H := toy_digest) quarter_counter None s ["a"; "bb"; "a"]); [reflexivity| |exact Hs].
  intros a b _ _ Hab. exact Hab.
Defined.
