(* ===== verification/Compiler.v ===== *)
(** The compaction compiler of [compaction/compiler.py] with its data of
    [compaction/types.py]: one candidate from a frozen view, a backend's output
    and the permanent gate.  The backend, the token counter and pydantic's
    [model_dump] are arguments. *)
From S2P Require Import Prelude PyString PyFloat Domain Validation PyJson Crypto Store ToolLoop.
From S2P Require Import Segmenter Jobs Views Publish Budget Pressure Tokenization.
Open Scope string_scope.
Open Scope list_scope.
Open Scope Z_scope.

(** [item.model_dump(mode="json")] of a Capsule, and of the items in it. *)
Class ModelDump := capsule_model_dump : ContextCapsuleEnvelope -> list (string * json).

Inductive CompilerErrorCode :=
| BASE_INVALID | BASE_CAPSULE_MISMATCH | SOURCE_EVENTS_EMPTY | SOURCE_EVENTS_INVALID
| SOURCE_SESSION_MISMATCH | SOURCE_COVERAGE_MISMATCH | TARGET_INVALID | TOKEN_CEILING_INVALID
| NOW_INVALID | SEGMENTER_CONFIG_INVALID | BACKEND_FAILURE | BACKEND_OUTPUT_INVALID
| BACKEND_OUTPUT_EMPTY | TOKEN_COUNTER_FAILURE | TOKEN_COUNTER_INVALID
| PERMANENT_VALIDATOR_FAILURE | PERMANENT_VALIDATION_FAILED.
#[export] Instance CompilerErrorCode_eq_dec : EqDecision CompilerErrorCode.
Proof. solve_decision. Defined.

(** The exceptions that leave [compile_candidate]. *)
Inductive compiler_error :=
| CompilerInvariantError (code : CompilerErrorCode) (report : option PermanentValidationReport)
| CompilerBackendDeferred (code : string)
| SegmenterFailed (e : SegmenterError)
| RequestValueError.

Record CompactionProviderBinding := {
  pb_provider_id : string; pb_model_identity : option string; pb_context_limit : Z;
  pb_context_limit_source : ContextLimitSource;
}.
(** [CompactionProviderBinding.__post_init__] *)
Definition CompactionProviderBinding_valid (b : CompactionProviderBinding) : bool :=
  negb (is_blank (pb_provider_id b)) && (1 <=? pb_context_limit b).

Record CompactionFitProvenance := {
  fp_tokenizer_profile_id : string; fp_tokenizer_mode : TokenizerMode; fp_fallback_code : string;
  fp_primary_result_discarded : bool;
}.
(** [CompactionFitProvenance.__post_init__]; the mode is a value of the enumeration. *)
Definition CompactionFitProvenance_valid (p : CompactionFitProvenance) : bool :=
  negb (is_empty (fp_tokenizer_profile_id p)) && negb (is_empty (fp_fallback_code p)).

Record CompilationRequest := {
  cq_base_snapshot : option SnapshotEnvelope; cq_base_capsules : list ContextCapsuleEnvelope;
  cq_source_events : list EventEnvelope; cq_segments : list EventSegment;
  cq_target_high_water_mark : Z; cq_token_ceiling : Z;
  cq_canonical_event_token_counts : gmap string Z;
  cq_provider_binding : option CompactionProviderBinding; cq_provider_binding_captured : bool;
}.
(** [CompilationRequest.__post_init__] *)
Definition CompilationRequest_new (q : CompilationRequest) : result compiler_error CompilationRequest :=
  raise RequestValueError when
    negb (bool_decide (map_Forall (fun event_id count => event_id <> "" /\ 0 <= count)
                                  (cq_canonical_event_token_counts q)));;
  Ok q.

Record CompilerOutput := {
  co_capsules : list ContextCapsuleEnvelope; co_rendered_context : string;
  co_fitted_segments : option (list EventSegment); co_fit_provenance : option CompactionFitProvenance;
}.
(** What awaiting [backend.compile(request)] ends with. *)
Inductive backend_outcome :=
| Compiled (output : CompilerOutput)
| NotAnOutput
| BackendDeferred (code : string)
| BackendRaised.

Record CompilationCandidate := {
  cc_snapshot : SnapshotEnvelope; cc_memberships : list SnapshotCapsuleMembership;
  cc_segments : list EventSegment; cc_permanent_report : PermanentValidationReport;
  cc_fit_provenance : option CompactionFitProvenance;
}.

Definition _active_anchor_ids (capsules : list ContextCapsuleEnvelope) : list string :=
  map an_anchor_id (active_anchors capsules).

(** [item.sequence != base_coverage + offset for offset, item in enumerate(events, start=1)] *)
Definition off_sequence (base_coverage : Z) (events : list EventEnvelope) : bool :=
  existsb (fun p => negb (ev_sequence p.2 =? base_coverage + p.1)) (enumerate_from 1 events).

Definition compiler_invariant (code : CompilerErrorCode) : compiler_error := CompilerInvariantError code None.

(** The base's coverage and session, or the first event's session without one. *)
Definition base_identity (base_snapshot : option SnapshotEnvelope) (base_capsules : list ContextCapsuleEnvelope)
    (first_event : EventEnvelope) : result compiler_error (Z * SessionKey) :=
  match base_snapshot with
  | None =>
      raise (compiler_invariant BASE_CAPSULE_MISMATCH) when nonempty base_capsules;;
      Ok (0, ev_session_key first_event)
  | Some base =>
      raise (compiler_invariant BASE_INVALID) when
        negb (eqb_of (sn_state base) SNAPSHOT_COMMITTED)
        || negb (sn_covered_event_end base =? sn_source_high_water_mark base);;
      raise (compiler_invariant BASE_CAPSULE_MISMATCH) when
        (sn_capsule_ids base !=? map cap_capsule_id base_capsules)
        || (sn_exact_anchor_ids base !=? _active_anchor_ids base_capsules)
        || existsb (fun item => cap_session_key item !=? sn_session_key base) base_capsules;;
      Ok (sn_covered_event_end base, sn_session_key base)
  end.

Definition _validate_inputs (base_snapshot : option SnapshotEnvelope) (base_capsules : list ContextCapsuleEnvelope)
    (source_events : list EventEnvelope) (target_high_water_mark token_ceiling : Z) (now : py_datetime)
    : result compiler_error SessionKey :=
  raise (compiler_invariant TARGET_INVALID) when target_high_water_mark <? 1;;
  raise (compiler_invariant TOKEN_CEILING_INVALID) when token_ceiling <? 0;;
  raise (compiler_invariant NOW_INVALID) when (match now with Naive => true | Aware _ => false end);;
  match source_events with
  | [] => Err (compiler_invariant SOURCE_EVENTS_EMPTY)
  | first_event :: _ =>
      base ← base_identity base_snapshot base_capsules first_event;
      let '(base_coverage, session_key) := base : Z * SessionKey in
      raise (compiler_invariant SOURCE_SESSION_MISMATCH) when
        existsb (fun item => ev_session_key item !=? session_key) source_events;;
      raise (compiler_invariant SOURCE_COVERAGE_MISMATCH) when
        (target_high_water_mark <=? base_coverage)
        || negb (len source_events =? target_high_water_mark - base_coverage)
        || off_sequence base_coverage source_events
        || negb (no_duplicates (map ev_event_id source_events));;
      Ok session_key
  end.

(** [tuple(event for segment in fitted_segments for event in segment.events)] *)
Definition segment_events (segments : list EventSegment) : list EventEnvelope := flat_map es_events segments.

Definition _validate_backend_output (output : CompilerOutput) (source_events : list EventEnvelope)
    (original_segments : list EventSegment)
    : result compiler_error (list ContextCapsuleEnvelope * string * list EventSegment * option CompactionFitProvenance) :=
  raise (compiler_invariant BACKEND_OUTPUT_EMPTY) when
    negb (nonempty (co_capsules output)) || is_empty (co_rendered_context output);;
  let fitted_segments := default original_segments (co_fitted_segments output) in
  raise (compiler_invariant BACKEND_OUTPUT_INVALID) when
    negb (nonempty fitted_segments) || (segment_events fitted_segments !=? source_events);;
  Ok (co_capsules output, co_rendered_context output, fitted_segments, co_fit_provenance output).

(** Whether every integer converts to text; a larger one is a [ValueError]. *)
Fixpoint ints_printable (v : json) : bool :=
  match v with
  | JInt n => is_some (str_int n)
  | JArr l => forallb ints_printable l
  | JObj m => forallb (fun p => ints_printable p.2) m
  | _ => true
  end.

Definition _SNAPSHOT_ID_SCHEMA_TAG : string := "astrcontinuum.compilation-candidate.v1".
Definition _MEMORY_MEMBERSHIP_SLOT : string := "memory".
Definition json_opt (s : option string) : json := match s with None => JNull | Some s => JStr s end.

Section compile.
Context `{Sha256, FloatRepr, ModelDump}.

Definition identity_payload (session_key : SessionKey) (base_snapshot_id : option string)
    (target_high_water_mark : Z) (capsules : list ContextCapsuleEnvelope) (active_anchor_ids : list string)
    (rendered_context : string) (token_cost : Z) : json :=
  JObj [("schema", JStr _SNAPSHOT_ID_SCHEMA_TAG); ("session_key", JStr (canonical_json session_key));
        ("base_snapshot_id", json_opt base_snapshot_id);
        ("target_high_water_mark", JInt target_high_water_mark);
        ("capsules", JArr (map (fun item => JObj (capsule_model_dump item)) capsules));
        ("active_anchor_ids", JArr (map JStr active_anchor_ids));
        ("rendered_context", JStr rendered_context); ("token_cost", JInt token_cost)].
(** [None] is a [ValueError]: an integer too long, or text that UTF-8 cannot encode. *)
Definition _build_snapshot_id (session_key : SessionKey) (base_snapshot_id : option string)
    (target_high_water_mark : Z) (capsules : list ContextCapsuleEnvelope) (active_anchor_ids : list string)
    (rendered_context : string) (token_cost : Z) : option string :=
  let payload := identity_payload session_key base_snapshot_id target_high_water_mark capsules
                   active_anchor_ids rendered_context token_cost in
  if negb (ints_printable payload) then None else
  let canonical_json := String.string_of_list_ascii (dumps_chars float_repr (sort_keys payload)) in
  if utf8_valid canonical_json then Some (sha256_hexdigest canonical_json) else None.

Definition memory_memberships (capsules : list ContextCapsuleEnvelope) : list SnapshotCapsuleMembership :=
  map (fun p => {| ms_ordinal := p.1; ms_slot := _MEMORY_MEMBERSHIP_SLOT; ms_capsule := p.2 |}) (enumerate capsules).

Definition candidate_envelope (snapshot_id : string) (session_key : SessionKey) (base_snapshot : option SnapshotEnvelope)
    (target_high_water_mark : Z) (capsules : list ContextCapsuleEnvelope) (rendered_context : string)
    (token_cost now : Z) : SnapshotEnvelope :=
  {| sn_snapshot_id := snapshot_id; sn_session_key := session_key;
     sn_base_snapshot_id := sn_snapshot_id <$> base_snapshot;
     sn_covered_event_end := target_high_water_mark; sn_source_high_water_mark := target_high_water_mark;
     sn_capsule_ids := map cap_capsule_id capsules; sn_exact_anchor_ids := _active_anchor_ids capsules;
     sn_rendered_context := rendered_context; sn_token_cost := token_cost;
     sn_audit_outcome := {| ao_mechanical_passed := true; ao_semantic_status := AUDIT_NOT_RUN; ao_failure_codes := [] |};
     sn_state := CANDIDATE; sn_created_at := now; sn_committed_at := None |}.

(** [resolved_compatibility_counter.count_text(rendered_context)], checked. *)
Definition compatibility_count (counter : TokenCounter) (text : string) : result compiler_error Z :=
  match counter text with
  | RaisedTokenizerError | RaisedOther => Err (compiler_invariant TOKEN_COUNTER_FAILURE)
  | NotAnInteger => Err (compiler_invariant TOKEN_COUNTER_INVALID)
  | Counted n => raise (compiler_invariant TOKEN_COUNTER_INVALID) when n <? 0;; Ok n
  end.

(** [validator.validate_candidate] *)
Definition validate_candidate := validate_permanent.

(** [await backend.compile(request)] *)
Definition await_backend (backend : CompilationRequest -> backend_outcome) (request : CompilationRequest)
    : result compiler_error CompilerOutput :=
  match backend request with
  | Compiled output => Ok output
  | NotAnOutput => Err (compiler_invariant BACKEND_OUTPUT_INVALID)
  | BackendDeferred code => Err (CompilerBackendDeferred code)
  | BackendRaised => Err (compiler_invariant BACKEND_FAILURE)
  end.

Definition compile_candidate (base_snapshot : option SnapshotEnvelope) (base_capsules : list ContextCapsuleEnvelope)
    (source_events : list EventEnvelope) (event_token_counts : gmap string Z)
    (target_high_water_mark token_ceiling : Z) (backend : CompilationRequest -> backend_outcome)
    (now : py_datetime) (segmenter_config : SegmenterConfig) (preferred_end_sequences : list Z)
    (compatibility_counter : TokenCounter) (provider_binding : option CompactionProviderBinding)
    (provider_binding_captured : bool) : result compiler_error CompilationCandidate :=
  session_key ← _validate_inputs base_snapshot base_capsules source_events target_high_water_mark token_ceiling now;
  segments ← (match segment event_token_counts segmenter_config source_events preferred_end_sequences with
              | Ok segments => Ok segments | Err e => Err (SegmenterFailed e) end);
  request ← CompilationRequest_new
    {| cq_base_snapshot := base_snapshot; cq_base_capsules := base_capsules; cq_source_events := source_events;
       cq_segments := segments; cq_target_high_water_mark := target_high_water_mark;
       cq_token_ceiling := token_ceiling; cq_canonical_event_token_counts := event_token_counts;
       cq_provider_binding := provider_binding; cq_provider_binding_captured := provider_binding_captured |};
  output ← await_backend backend request;
  validated ← _validate_backend_output output source_events segments;
  let '(candidate_capsules, rendered_context, fitted_segments, fit_provenance) :=
    validated : list ContextCapsuleEnvelope * string * list EventSegment * option CompactionFitProvenance in
  token_cost ← compatibility_count compatibility_counter rendered_context;
  let instant := match now with Aware i => i | Naive => 0 end in
  candidate_snapshot ← (match _build_snapshot_id session_key (sn_snapshot_id <$> base_snapshot)
                              target_high_water_mark candidate_capsules (_active_anchor_ids candidate_capsules)
                              rendered_context token_cost with
    | None => Err (compiler_invariant BACKEND_OUTPUT_INVALID)
    | Some snapshot_id =>
        match construct SnapshotEnvelope_valid (candidate_envelope snapshot_id session_key base_snapshot
                target_high_water_mark candidate_capsules rendered_context token_cost instant) with
        | Ok snapshot => Ok snapshot
        | Err _ => Err (compiler_invariant BACKEND_OUTPUT_INVALID)
        end
    end);
  report ← (match validate_candidate base_snapshot base_capsules candidate_snapshot candidate_capsules
                    source_events target_high_water_mark token_ceiling with
            | Ok report => Ok report
            | Err _ => Err (compiler_invariant PERMANENT_VALIDATOR_FAILURE) end);
  raise (CompilerInvariantError PERMANENT_VALIDATION_FAILED (Some report)) when negb (rp_passed report);;
  Ok {| cc_snapshot := candidate_snapshot; cc_memberships := memory_memberships candidate_capsules;
        cc_segments := fitted_segments; cc_permanent_report := report; cc_fit_provenance := fit_provenance |}.
End compile.
