(* ===== verification/ExtractiveBackend.v ===== *)
(** The extractive compiler backend ([compaction/astrbot_backend.py]): which
    provider a session's compaction uses, how its segments are fitted to the
    provider's context, and how a model's answer becomes a Capsule of verbatim
    quotes.  The language model, the tokenizers and pydantic's reading of the
    answer are parameters. *)
From S2P Require Import Prelude PyString PyFloat Domain Validation PyJson Crypto Store ToolLoop Rendering.
From S2P Require Import Segmenter Jobs Views Publish Budget Pressure Tokenization RequestBudget Compiler.
From Stdlib Require String Ascii.
Open Scope string_scope.
Open Scope list_scope.
Open Scope Z_scope.

(** What leaves the backend: an [ExtractiveCompilerError], a
    [CompilerBackendDeferred], a [TokenizerError] (inside the fitting only), or
    another exception. *)
Inductive extractive_error :=
| ExtractiveCompilerError (code : string)
| Deferred (code : string)
| FitTokenizerError
| BackendException.

(** ** The answer's shape *)

Record _Span := { sp_event_id : string; sp_quote : string; sp_confidence : float }.
Record _DecisionSelection := {
  ds_span : _Span; ds_rationale : string; ds_alternatives : list string; ds_rejected_because : string;
}.
Record _EntitySelection := { es_event_id : string; es_quote : string; es_kind : string; es_aliases : list string }.
Record _AnchorSelection := { as_event_id : string; as_quote : string; as_anchor_type : AnchorType; as_importance : float }.
Record _SegmentExtraction := {
  ex_acknowledged_event_ids : list string; ex_goals : list _Span; ex_constraints : list _Span;
  ex_decisions : list _DecisionSelection; ex_progress : list _Span; ex_open_loops : list _Span; ex_preferences : list _Span;
  ex_entities : list _EntitySelection; ex_emotional_context : list _Span; ex_anchors : list _AnchorSelection;
}.
(** The [Field] constraints. *)
Definition _Span_valid (s : _Span) : bool := NonEmptyStr (sp_event_id s) && NonEmptyStr (sp_quote s) && UnitFloat (sp_confidence s).
Definition _EntitySelection_valid (s : _EntitySelection) : bool :=
  NonEmptyStr (es_event_id s) && NonEmptyStr (es_quote s) && NonEmptyStr (es_kind s).
Definition _AnchorSelection_valid (s : _AnchorSelection) : bool :=
  NonEmptyStr (as_event_id s) && NonEmptyStr (as_quote s) && UnitFloat (as_importance s).
Definition span_groups (e : _SegmentExtraction) : list (list _Span) :=
  [ex_goals e; ex_constraints e; ex_progress e; ex_open_loops e; ex_preferences e; ex_emotional_context e].
Definition _SegmentExtraction_valid (e : _SegmentExtraction) : bool :=
  forallb (forallb _Span_valid) (span_groups e) && forallb (fun d => _Span_valid (ds_span d)) (ex_decisions e)
  && forallb _EntitySelection_valid (ex_entities e) && forallb _AnchorSelection_valid (ex_anchors e).
(** [_SegmentExtraction.model_validate]: the values pydantic reads, before the
    constraints; [None] is a [ValidationError]. *)
Class ExtractionModel := read_extraction : json -> option _SegmentExtraction.

(** [s.splitlines()] *)
Definition line_break (ch : string) : bool :=
  existsb (fun c => ((10 <=? c) && (c <=? 13) || (28 <=? c) && (c <=? 30) || (c =? 133) || (c =? 8232) || (c =? 8233))%N) (code_points ch).
Fixpoint split_lines (current : string) (cs : list string) : list string :=
  match cs with
  | [] => if is_empty current then [] else [current]
  | ch :: rest =>
      if line_break ch then
        match rest with
        | next :: rest' =>
            if (ch ==? String.String (Ascii.ascii_of_nat 13) "") && (next ==? newline) then current :: split_lines "" rest'
            else current :: split_lines "" rest
        | [] => [current]
        end
      else split_lines (current +:+ ch) rest
  end.
Definition py_splitlines (s : string) : list string := split_lines "" (characters s).
Definition fence : string := "```".
(** [_parse_output]; [None] is an answer that is not a string. *)
Definition unfence (text : string) : option string :=
  if negb (String.prefix fence text) then Some text else
  let lines := py_splitlines text in
  if (len lines <? 3) || negb (String.prefix fence (py_strip (default "" (last lines)))) then None
  else Some (py_strip (py_join newline (removelast (tl lines)))).
Definition read_answer `{ExtractionModel} (raw : string) : option _SegmentExtraction :=
  text ← unfence (py_strip raw); payload ← json_loads text; read_extraction payload.
Definition _parse_output `{ExtractionModel} (raw : option string) : result extractive_error _SegmentExtraction :=
  let invalid := Err (ExtractiveCompilerError "EXTRACTIVE_OUTPUT_INVALID") in
  match raw with
  | None => invalid
  | Some raw =>
      match read_answer raw with
      | Some extraction => if _SegmentExtraction_valid extraction then Ok extraction else invalid
      | None => invalid
      end
  end.

(** ** Verbatim quotes *)

Definition extractive (code : string) : extractive_error := ExtractiveCompilerError code.
(** [{item.event_id: item.content for item in segment.events}] *)
Definition event_contents_of (segment : EventSegment) : gmap string string :=
  list_to_map (rev (map (fun e => (ev_event_id e, ev_content e)) (es_events segment))).
(** [_exact_text] *)
Definition _exact_text (contents : gmap string string) (event_id quote : string) (allow_empty : bool) : result extractive_error unit :=
  if allow_empty && (quote ==? "") then Ok tt else
  match contents !! event_id with
  | None => Err (extractive "EXTRACTIVE_SOURCE_EVENT_UNKNOWN")
  | Some content =>
      raise (extractive "EXTRACTIVE_QUOTE_NOT_FOUND") when is_empty quote || negb (contains_text quote content);; Ok tt
  end.
Definition each {A} (check : A -> result extractive_error unit) (items : list A) : result extractive_error unit :=
  fold_result (fun _ item => check item) items tt.
Definition check_span (contents : gmap string string) (s : _Span) : result extractive_error unit :=
  _exact_text contents (sp_event_id s) (sp_quote s) false.
Definition check_decision (contents : gmap string string) (d : _DecisionSelection) : result extractive_error unit :=
  let event_id := sp_event_id (ds_span d) in
  _ ← check_span contents (ds_span d);
  _ ← _exact_text contents event_id (ds_rationale d) true;
  _ ← _exact_text contents event_id (ds_rejected_because d) true;
  each (fun alternative => _exact_text contents event_id alternative false) (ds_alternatives d).
Definition check_entity (contents : gmap string string) (e : _EntitySelection) : result extractive_error unit :=
  _ ← _exact_text contents (es_event_id e) (es_quote e) false;
  each (fun alias => _exact_text contents (es_event_id e) alias false) (es_aliases e).
Definition check_anchor (contents : gmap string string) (a : _AnchorSelection) : result extractive_error unit :=
  _exact_text contents (as_event_id a) (as_quote a) false.
(** The members of [selected_event_ids] after the loops. *)
Definition selected_event_ids (e : _SegmentExtraction) : list string :=
  map sp_event_id (concat (span_groups e)) ++ map (fun d => sp_event_id (ds_span d)) (ex_decisions e)
  ++ map es_event_id (ex_entities e) ++ map as_event_id (ex_anchors e).
(** [_validate_extraction] *)
Definition _validate_extraction (extraction : _SegmentExtraction) (segment : EventSegment) : result extractive_error (gmap string string) :=
  let event_contents := event_contents_of segment in
  raise (extractive "EXTRACTIVE_EVENT_COVERAGE_MISMATCH") when
    negb (eqb_of (ex_acknowledged_event_ids extraction) (map ev_event_id (es_events segment)));;
  _ ← each (each (check_span event_contents)) (span_groups extraction);
  _ ← each (check_decision event_contents) (ex_decisions extraction);
  _ ← each (check_entity event_contents) (ex_entities extraction);
  _ ← each (check_anchor event_contents) (ex_anchors extraction);
  raise (extractive "EXTRACTIVE_EVENT_SELECTION_MISSING") when
    negb (forallb (fun p => is_empty p.2 || bool_decide (p.1 ∈ selected_event_ids extraction)) (map_to_list event_contents));;
  Ok event_contents.

(** ** Capsule items *)

Section items.
Context `{Sha256} `{FloatRepr}.
Definition model {A} (r : result model_error A) : result extractive_error A :=
  match r with Ok a => Ok a | Err _ => Err BackendException end.
(** [_stable_id]; a [ValueError] of an integer too long or of unencodable text. *)
Definition _stable_id (prefix : string) (payload : json) : result extractive_error string :=
  raise BackendException when negb (ints_printable payload);;
  let encoded := String.string_of_list_ascii (dumps_chars float_repr (sort_keys payload)) in
  raise BackendException when negb (utf8_valid encoded);;
  Ok (prefix +:+ ":" +:+ sha256_hexdigest encoded).
(** [_claim] *)
Definition _claim (category : string) (item : _Span) : result extractive_error CapsuleClaim :=
  claim_id ← _stable_id category (JObj [("event_id", JStr (sp_event_id item)); ("quote", JStr (sp_quote item))]);
  model (construct CapsuleClaim_valid
    {| cl_claim_id := claim_id; cl_text := sp_quote item; cl_status := SEM_ACTIVE; cl_confidence := sp_confidence item;
       cl_source_event_ids := [sp_event_id item] |}).
(** [_decision] *)
Definition _decision (item : _DecisionSelection) : result extractive_error Decision_ :=
  let span := ds_span item in
  decision_id ← _stable_id "decision"
    (JObj [("event_id", JStr (sp_event_id span)); ("quote", JStr (sp_quote span)); ("rationale", JStr (ds_rationale item));
           ("alternatives", JArr (map JStr (ds_alternatives item))); ("rejected_because", JStr (ds_rejected_because item))]);
  model (construct Decision_valid
    {| de_decision_id := decision_id; de_text := sp_quote span; de_status := SEM_ACTIVE; de_confidence := sp_confidence span;
       de_source_event_ids := [sp_event_id span]; de_rationale := ds_rationale item; de_alternatives := ds_alternatives item;
       de_supersedes := []; de_rejected_because := ds_rejected_because item |}).
(** [_entity] *)
Definition _entity (item : _EntitySelection) : result extractive_error Entity :=
  entity_id ← _stable_id "entity"
    (JObj [("event_id", JStr (es_event_id item)); ("quote", JStr (es_quote item)); ("kind", JStr (es_kind item));
           ("aliases", JArr (map JStr (es_aliases item)))]);
  model (construct Entity_valid
    {| en_entity_id := entity_id; en_kind := es_kind item; en_canonical_name := es_quote item; en_aliases := es_aliases item;
       en_source_event_ids := [es_event_id item] |}).
(** [anchor_type.value] *)
Definition anchor_type_value (t : AnchorType) : string :=
  match t with
  | ANCHOR_NAME => "name" | ANCHOR_NUMBER => "number" | ANCHOR_DATE => "date" | ANCHOR_PATH => "path" | ANCHOR_URL => "url"
  | ANCHOR_CODE => "code" | ANCHOR_FORMULA => "formula" | ANCHOR_PROMPT => "prompt" | ANCHOR_CONSTRAINT => "constraint"
  | ANCHOR_COMMITMENT => "commitment" | ANCHOR_MANUAL => "manual" | ANCHOR_OTHER => "other"
  end.
Definition anchor_item (event_id quote : string) (t : AnchorType) (importance : float) : result extractive_error CapsuleAnchor :=
  anchor_id ← _stable_id "anchor"
    (JObj [("event_id", JStr event_id); ("quote", JStr quote); ("type", JStr (anchor_type_value t))]);
  model (construct CapsuleAnchor_valid
    {| an_anchor_id := anchor_id; an_anchor_type := t; an_exact_text := quote; an_source_event_ids := [event_id];
       an_status := ANCHOR_ACTIVE; an_importance := importance |}).
(** [_anchor] *)
Definition _anchor (item : _AnchorSelection) : result extractive_error CapsuleAnchor :=
  anchor_item (as_event_id item) (as_quote item) (as_anchor_type item) (as_importance item).
Definition anchor_half : float := Eval vm_compute in f_div_Z 1 2.
(** [content[-512:] if len(content) > 512 else content] *)
Definition last_512 (content : string) : string :=
  let cs := characters content in
  if 512 <? len cs then foldr String.append "" (drop (length cs - 512) cs) else content.
(** [_fallback_anchor]; a segment has events. *)
Definition _fallback_anchor (segment : EventSegment) (contents : gmap string string) : result extractive_error (option CapsuleAnchor) :=
  match last (es_events segment) with
  | None => Err BackendException
  | Some event =>
      match contents !! ev_event_id event with
      | None => Err BackendException
      | Some content =>
          let quote := last_512 content in
          if is_empty quote then Ok None else
          anchor ← anchor_item (ev_event_id event) quote ANCHOR_MANUAL anchor_half; Ok (Some anchor)
      end
  end.
End items.

(** ** Provider affinity, [SessionProviderRegistry] *)

(** The ordered dict of the sessions' bindings, oldest first; [None] marks a
    session whose provider is unavailable. *)
Record SessionProviderRegistry := {
  pr_override : option CompactionProviderBinding; pr_override_configured : bool; pr_max_entries : Z;
  pr_providers : list (string * option CompactionProviderBinding);
}.
Definition SessionProviderRegistry_new (provider_override : option CompactionProviderBinding) (override_configured : bool) (max_entries : Z)
    : result extractive_error SessionProviderRegistry :=
  raise BackendException when max_entries <? 1;;
  Ok {| pr_override := provider_override; pr_override_configured := is_some provider_override || override_configured;
        pr_max_entries := max_entries; pr_providers := [] |}.
Definition without_key {A} (key : string) (l : list (string * A)) : list (string * A) := List.filter (fun p => negb (p.1 ==? key)) l.
Definition with_providers (r : SessionProviderRegistry) (providers : list (string * option CompactionProviderBinding)) : SessionProviderRegistry :=
  {| pr_override := pr_override r; pr_override_configured := pr_override_configured r; pr_max_entries := pr_max_entries r;
     pr_providers := providers |}.
Section registry.
Context `{Sha256}.
(** [_remember_value]: the oldest entries go while there are too many. *)
Definition _remember_value (session_key : SessionKey) (binding : option CompactionProviderBinding) (r : SessionProviderRegistry)
    : SessionProviderRegistry :=
  let key := session_key_hash session_key in
  let providers := without_key key (pr_providers r) ++ [(key, binding)] in
  with_providers r (drop (Z.to_nat (len providers - pr_max_entries r)) providers).
(** [remember] and [remember_unavailable] *)
Definition remember (session_key : SessionKey) (binding : CompactionProviderBinding) (r : SessionProviderRegistry) : SessionProviderRegistry :=
  _remember_value session_key (Some binding) r.
Definition remember_unavailable (session_key : SessionKey) (r : SessionProviderRegistry) : SessionProviderRegistry :=
  _remember_value session_key None r.
(** [SessionProviderRegistry.resolve]: a binding found moves to the end. *)
Definition unavailable : extractive_error := Deferred "EXTRACTIVE_PROVIDER_UNAVAILABLE".
Definition registry_resolve (session_key : SessionKey) (r : SessionProviderRegistry)
    : result extractive_error (CompactionProviderBinding * SessionProviderRegistry) :=
  if pr_override_configured r then
    match pr_override r with Some binding => Ok (binding, r) | None => Err unavailable end
  else
    let key := session_key_hash session_key in
    match List.find (fun p => p.1 ==? key) (pr_providers r) with
    | Some (_, Some binding) => Ok (binding, with_providers r (without_key key (pr_providers r) ++ [(key, Some binding)]))
    | _ => Err unavailable
    end.
End registry.

(** ** Fitting *)

Definition _SYSTEM_PROMPT : string := "You extract source-verifiable state from a conversation segment.
Do not summarize or paraphrase. Every quote, rationale, alternative, rejection reason,
entity name, alias, and anchor must be copied verbatim from the declared event.
Every non-empty event must contribute at least one selected quote.
Return exactly one JSON object matching the requested closed shape. Do not add prose,
Markdown, a summary field, or keys that are not in the shape.".
Definition _OUTPUT_SHAPE : json :=
  JObj [("acknowledged_event_ids", JArr [JStr "event-id"]);
        ("goals", JArr [JObj [("event_id", JStr "event-id"); ("quote", JStr "exact quote"); ("confidence", JFloat f_one)]]);
        ("constraints", JArr []);
        ("decisions", JArr [JObj [("event_id", JStr "event-id"); ("quote", JStr "exact quote"); ("confidence", JFloat f_one);
                                  ("rationale", JStr ""); ("alternatives", JArr []); ("rejected_because", JStr "")]]);
        ("progress", JArr []); ("open_loops", JArr []); ("preferences", JArr []);
        ("entities", JArr [JObj [("event_id", JStr "event-id"); ("quote", JStr "exact canonical name");
                                 ("kind", JStr "person|project|file|other"); ("aliases", JArr [])]]);
        ("emotional_context", JArr []);
        ("anchors", JArr [JObj [("event_id", JStr "event-id"); ("quote", JStr "exact quote"); ("anchor_type", JStr "name");
                                ("importance", JFloat f_one)]])].

Section fitting.
Context `{Sha256} `{FloatRepr}.
(** An event of the payload *)
Definition prompt_event (item : EventEnvelope) : json :=
  JObj [("event_id", JStr (ev_event_id item)); ("sequence", JInt (ev_sequence item));
        ("event_type", JStr (event_type_value (ev_event_type item))); ("role", JStr (event_role_value (ev_role item)));
        ("content", JStr (ev_content item))].
(** [_segment_prompt]; an integer too long is a [ValueError]. *)
Definition _segment_prompt (segment : EventSegment) : result extractive_error string :=
  let payload := JObj [("required_output_shape", _OUTPUT_SHAPE); ("events", JArr (map prompt_event (es_events segment)))] in
  raise BackendException when negb (ints_printable payload);;
  Ok (String.string_of_list_ascii (dumps_chars float_repr (sort_keys payload))).
(** [_fitted_segment]; every event has a canonical count. *)
Definition canonical_cost (canonical_counts : gmap string Z) (event : EventEnvelope) : Z := default 0 (canonical_counts !! ev_event_id event).
Definition _fitted_segment (canonical_counts : gmap string Z) (events : list EventEnvelope) (boundary_reason : SegmentBoundaryReason)
    : result extractive_error EventSegment :=
  match events, last events with
  | first :: _, Some last =>
      Ok {| es_start_sequence := ev_sequence first; es_end_sequence := ev_sequence last; es_events := events;
            es_token_cost := sumZ (canonical_cost canonical_counts) events; es_boundary_reason := boundary_reason |}
  | _, _ => Err BackendException
  end.
(** [_event_groups] *)
Definition _event_groups (events : list EventEnvelope) : result extractive_error (list (list EventEnvelope)) :=
  match durable_event_units events with Some groups => Ok groups | None => Err (Deferred "TOOL_LOOP_INVALID") end.
(** The inner loop of [_normalize_atomic_segments]: the boundaries up to a
    sequence, and the reason of the last one crossed. *)
Fixpoint cross (boundaries : list (Z * SegmentBoundaryReason)) (sequence : Z) (crossed : option SegmentBoundaryReason)
    : option SegmentBoundaryReason * list (Z * SegmentBoundaryReason) :=
  match boundaries with
  | (boundary, reason) :: rest => if boundary <=? sequence then cross rest sequence (Some reason) else (crossed, boundaries)
  | [] => (crossed, [])
  end.
Fixpoint normalize_groups (canonical_counts : gmap string Z) (groups : list (list EventEnvelope)) (current : list EventEnvelope)
    (boundaries : list (Z * SegmentBoundaryReason)) : result extractive_error (list EventSegment) :=
  match groups with
  | [] => match current with
          | [] => Ok []
          | _ => segment ← _fitted_segment canonical_counts current END_OF_INPUT; Ok [segment]
          end
  | group :: groups =>
      let current := current ++ group in
      match last group with
      | None => Err BackendException
      | Some final =>
          let '(crossed, boundaries) := cross boundaries (ev_sequence final) None in
          match crossed with
          | Some reason =>
              segment ← _fitted_segment canonical_counts current reason;
              rest ← normalize_groups canonical_counts groups [] boundaries;
              Ok (segment :: rest)
          | None => normalize_groups canonical_counts groups current boundaries
          end
      end
  end.
(** [_normalize_atomic_segments] *)
Definition _normalize_atomic_segments (segments : list EventSegment) (source_events : list EventEnvelope) (canonical_counts : gmap string Z)
    : result extractive_error (list EventSegment) :=
  groups ← _event_groups source_events;
  normalize_groups canonical_counts groups [] (map (fun s => (es_end_sequence s, es_boundary_reason s)) segments).

Section counter.
(** The request-scoped counter; its cache is transparent
    ([request_cache_transparent]), so each count is that of a fresh scope. *)
Variables (scope : Scope) (canonical_counts : gmap string Z) (input_limit : Z).
Definition fit_count (text : string) : result extractive_error Z :=
  match scoped_count_text scope text with
  | Ok (value, _) => Ok value
  | Err (RequestTokenizerError _) => Err FitTokenizerError
  | Err _ => Err BackendException
  end.
(** [_serialized_cost] *)
Definition _serialized_cost (segment : EventSegment) : result extractive_error Z :=
  system ← fit_count _SYSTEM_PROMPT;
  prompt ← _segment_prompt segment;
  count ← fit_count prompt;
  Ok (system + count).
(** The loop of [_split_segment] over the groups. *)
Fixpoint split_groups (groups : list (list EventEnvelope)) (current : list EventEnvelope) (boundary_reason : SegmentBoundaryReason)
    : result extractive_error (list EventSegment) :=
  match groups with
  | [] => match current with
          | [] => Ok []
          | _ => segment ← _fitted_segment canonical_counts current boundary_reason; Ok [segment]
          end
  | group :: groups =>
      proposed ← _fitted_segment canonical_counts (current ++ group) MAX_TOKENS;
      proposed_cost ← _serialized_cost proposed;
      if proposed_cost <=? input_limit then split_groups groups (current ++ group) boundary_reason
      else
        flushed ← match current with
                  | [] => Ok []
                  | _ => segment ← _fitted_segment canonical_counts current MAX_TOKENS; Ok [segment]
                  end;
        single ← _fitted_segment canonical_counts group boundary_reason;
        single_cost ← _serialized_cost single;
        raise (Deferred "COMPACTION_INPUT_TOO_LARGE") when input_limit <? single_cost;;
        rest ← split_groups groups group boundary_reason;
        Ok (flushed ++ rest)
  end.
(** [_split_segment] *)
Definition _split_segment (segment : EventSegment) : result extractive_error (list EventSegment) :=
  groups ← _event_groups (es_events segment);
  split_groups groups [] (es_boundary_reason segment).
Definition fit_segment (segment : EventSegment) : result extractive_error (list EventSegment) :=
  cost ← _serialized_cost segment;
  if cost <=? input_limit then Ok [segment] else _split_segment segment.
(** [_fit_segments] *)
Definition _fit_segments (segments : list EventSegment) (source_events : list EventEnvelope) : result extractive_error (list EventSegment) :=
  raise (Deferred "TOKEN_METRIC_MISSING") when negb (bool_decide (dom canonical_counts = event_ids source_events));;
  atomic_segments ← _normalize_atomic_segments segments source_events canonical_counts;
  fitted ← map_result fit_segment atomic_segments;
  Ok (concat fitted).
End counter.

Variable counter_provider : TokenizerProfile -> provided.
(** [_fit_with_profile]: every exception but the deferral is a [TokenizerError]. *)
Definition _fit_with_profile (request : CompilationRequest) (profile : TokenizerProfile) (input_limit : Z)
    : result extractive_error (list EventSegment) :=
  match counter_provider profile with
  | Provided raw_counter =>
      match scoped raw_counter (Some profile) with
      | Err _ => Err FitTokenizerError
      | Ok scope =>
          match _fit_segments scope (cq_canonical_event_token_counts request) input_limit (cq_segments request) (cq_source_events request) with
          | Ok fitted => Ok fitted
          | Err (Deferred code) => Err (Deferred code)
          | Err _ => Err FitTokenizerError
          end
      end
  | _ => Err FitTokenizerError
  end.
(** [_fit_fallback] *)
Definition _fit_fallback (request : CompilationRequest) (input_limit : Z) : result extractive_error (list EventSegment) :=
  match _fit_with_profile request BYTE_FALLBACK input_limit with
  | Err FitTokenizerError => Err (Deferred "COMPACTION_TOKENIZER_UNAVAILABLE")
  | r => r
  end.
Definition fit_provenance (profile : TokenizerProfile) (fallback_code : string) (discarded : bool) : CompactionFitProvenance :=
  {| fp_tokenizer_profile_id := tp_profile_id profile; fp_tokenizer_mode := tp_mode profile; fp_fallback_code := fallback_code;
     fp_primary_result_discarded := discarded |}.
(** [_preflight], with the tokenizer's route *)
Definition _preflight (request : CompilationRequest) (routed : TokenizerRoute) (input_limit : Z)
    : result extractive_error (list EventSegment * CompactionFitProvenance) :=
  let byte_mode := eqb_of (tp_mode (tr_profile routed)) MODE_BYTE_FALLBACK in
  let profile := if byte_mode then BYTE_FALLBACK else tr_profile routed in
  match _fit_with_profile request profile input_limit with
  | Ok fitted => Ok (fitted, if byte_mode then fit_provenance BYTE_FALLBACK "TOKENIZER_BYTE_FALLBACK" false
                             else fit_provenance profile "NONE" false)
  | Err FitTokenizerError =>
      fitted ← _fit_fallback request input_limit; Ok (fitted, fit_provenance BYTE_FALLBACK "TOKENIZER_BYTE_FALLBACK" true)
  | Err e => Err e
  end.
End fitting.

(** ** Capsules and the whole backend *)

Section backend.
Context `{Sha256} `{FloatRepr} `{ExtractionModel} `{UnicodeCategories}.
(** [extraction.model_dump(mode="json")] *)
Definition span_fields (s : _Span) : list (string * json) :=
  [("event_id", JStr (sp_event_id s)); ("quote", JStr (sp_quote s)); ("confidence", JFloat (sp_confidence s))].
Definition dump_spans (l : list _Span) : json := JArr (map (fun s => JObj (span_fields s)) l).
Definition dump_extraction (e : _SegmentExtraction) : json :=
  JObj [("acknowledged_event_ids", JArr (map JStr (ex_acknowledged_event_ids e))); ("goals", dump_spans (ex_goals e));
        ("constraints", dump_spans (ex_constraints e));
        ("decisions", JArr (map (fun d => JObj (span_fields (ds_span d)
           ++ [("rationale", JStr (ds_rationale d)); ("alternatives", JArr (map JStr (ds_alternatives d)));
               ("rejected_because", JStr (ds_rejected_because d))])) (ex_decisions e)));
        ("progress", dump_spans (ex_progress e)); ("open_loops", dump_spans (ex_open_loops e));
        ("preferences", dump_spans (ex_preferences e));
        ("entities", JArr (map (fun s => JObj [("event_id", JStr (es_event_id s)); ("quote", JStr (es_quote s)); ("kind", JStr (es_kind s));
                                               ("aliases", JArr (map JStr (es_aliases s)))]) (ex_entities e)));
        ("emotional_context", dump_spans (ex_emotional_context e));
        ("anchors", JArr (map (fun a => JObj [("event_id", JStr (as_event_id a)); ("quote", JStr (as_quote a));
                                              ("anchor_type", JStr (anchor_type_value (as_anchor_type a)));
                                              ("importance", JFloat (as_importance a))]) (ex_anchors e)))].
Definition has_structured_content (e : _SegmentExtraction) : bool :=
  existsb nonempty (span_groups e) || nonempty (ex_decisions e) || nonempty (ex_entities e) || nonempty (ex_anchors e).
Definition full_quality : CapsuleQuality :=
  {| q_mechanical_passed := true; q_source_coverage := f_one; q_anchor_recall := f_one; q_unsupported_critical_claims := 0;
     q_coverage_gap := 0 |}.
Definition with_token_cost (c : ContextCapsuleEnvelope) (token_cost : Z) : ContextCapsuleEnvelope :=
  {| cap_capsule_id := cap_capsule_id c; cap_schema_version := cap_schema_version c; cap_level := cap_level c;
     cap_session_key := cap_session_key c; cap_covered_event_start := cap_covered_event_start c;
     cap_covered_event_end := cap_covered_event_end c; cap_source_event_ids := cap_source_event_ids c; cap_goals := cap_goals c;
     cap_constraints := cap_constraints c; cap_decisions := cap_decisions c; cap_progress := cap_progress c;
     cap_open_loops := cap_open_loops c; cap_preferences := cap_preferences c; cap_entities := cap_entities c;
     cap_emotional_context := cap_emotional_context c; cap_exact_anchors := cap_exact_anchors c; cap_dependencies := cap_dependencies c;
     cap_narrative_summary := cap_narrative_summary c; cap_token_cost := token_cost; cap_quality := cap_quality c;
     cap_created_at := cap_created_at c |}.
Variable compatibility_counter : TokenCounter.
(** The count of the rendered Capsule, checked. *)
Definition capsule_count (text : string) : result extractive_error Z :=
  match compatibility_counter text with
  | Counted value => raise (extractive "EXTRACTIVE_TOKEN_COUNTER_INVALID") when value <? 0;; Ok value
  | NotAnInteger => Err (extractive "EXTRACTIVE_TOKEN_COUNTER_INVALID")
  | RaisedTokenizerError | RaisedOther => Err (extractive "EXTRACTIVE_TOKEN_COUNTER_FAILURE")
  end.
(** The anchors, or the fallback anchor of an extraction without content. *)
Definition capsule_anchors (segment : EventSegment) (e : _SegmentExtraction) (contents : gmap string string)
    : result extractive_error (list CapsuleAnchor) :=
  if has_structured_content e then map_result _anchor (ex_anchors e)
  else fallback ← _fallback_anchor segment contents; Ok (option_list fallback).
(** [_capsule] *)
Definition _capsule (segment : EventSegment) (e : _SegmentExtraction) (contents : gmap string string)
    : result extractive_error ContextCapsuleEnvelope :=
  anchors ← capsule_anchors segment e contents;
  match head (es_events segment), last (es_events segment) with
  | Some first, Some final =>
      capsule_id ← _stable_id "capsule"
        (JObj [("session", JStr (session_key_hash (ev_session_key first))); ("start", JInt (es_start_sequence segment));
               ("end", JInt (es_end_sequence segment)); ("extraction", dump_extraction e)]);
      goals ← map_result (_claim "goal") (ex_goals e);
      constraints ← map_result (_claim "constraint") (ex_constraints e);
      decisions ← map_result _decision (ex_decisions e);
      progress ← map_result (_claim "progress") (ex_progress e);
      open_loops ← map_result (_claim "open_loop") (ex_open_loops e);
      preferences ← map_result (_claim "preference") (ex_preferences e);
      entities ← map_result _entity (ex_entities e);
      emotional_context ← map_result (_claim "emotional") (ex_emotional_context e);
      capsule ← model (construct ContextCapsuleEnvelope_valid
        {| cap_capsule_id := capsule_id; cap_schema_version := "1.0.0"; cap_level := LEVEL_TASK;
           cap_session_key := ev_session_key first; cap_covered_event_start := es_start_sequence segment;
           cap_covered_event_end := es_end_sequence segment; cap_source_event_ids := map ev_event_id (es_events segment);
           cap_goals := goals; cap_constraints := constraints; cap_decisions := decisions; cap_progress := progress;
           cap_open_loops := open_loops; cap_preferences := preferences; cap_entities := entities;
           cap_emotional_context := emotional_context; cap_exact_anchors := anchors; cap_dependencies := [];
           cap_narrative_summary := "Structured source map for events " +:+ show_Z (es_start_sequence segment) +:+ "-"
                                    +:+ show_Z (es_end_sequence segment) +:+ ".";
           cap_token_cost := 0; cap_quality := full_quality; cap_created_at := ev_created_at final |});
      token_cost ← capsule_count (render_capsule capsule);
      Ok (with_token_cost capsule token_cost)
  | _, _ => Err BackendException
  end.

(** What awaiting the generator ends with; [None] is an answer that is not a string. *)
Inductive generated := Generated (raw : option string) | GeneratorRaised.
(** [generator(provider_id, system, prompt)], by the number of the call. *)
Variable generator : nat -> string -> string -> string -> generated.
Variables (mapper : option (string -> mapper_outcome)) (counter_provider : TokenizerProfile -> provided).
(** One segment of [compile]. *)
Definition compile_segment (binding : CompactionProviderBinding) (call : nat) (segment : EventSegment)
    : result extractive_error ContextCapsuleEnvelope :=
  prompt ← _segment_prompt segment;
  match generator call (pb_provider_id binding) _SYSTEM_PROMPT prompt with
  | GeneratorRaised => Err BackendException
  | Generated raw =>
      extraction ← _parse_output raw;
      contents ← _validate_extraction extraction segment;
      _capsule segment extraction contents
  end.
Fixpoint compile_segments (binding : CompactionProviderBinding) (call : nat) (segments : list EventSegment)
    : result extractive_error (list ContextCapsuleEnvelope) :=
  match segments with
  | [] => Ok []
  | segment :: segments =>
      capsule ← compile_segment binding call segment;
      capsules ← compile_segments binding (S call) segments;
      Ok (capsule :: capsules)
  end.
(** [compile] after the provider is known. *)
Definition compile_with (binding : CompactionProviderBinding) (request : CompilationRequest) : result extractive_error CompilerOutput :=
  preflight ← _preflight counter_provider request (route mapper (pb_model_identity binding)) (pb_context_limit binding);
  new_capsules ← compile_segments binding 0 preflight.1;
  let capsules := cq_base_capsules request ++ new_capsules in
  let rendered_context := py_join blank_line (map render_capsule capsules) in
  raise (extractive "EXTRACTIVE_RENDER_EMPTY") when is_empty rendered_context;;
  Ok {| co_capsules := capsules; co_rendered_context := rendered_context; co_fitted_segments := Some preflight.1;
        co_fit_provenance := Some preflight.2 |}.
(** The provider of a request, and the registry after asking it. *)
Definition request_binding (request : CompilationRequest) (registry : SessionProviderRegistry)
    : result extractive_error (CompactionProviderBinding * SessionProviderRegistry) :=
  match cq_provider_binding request with
  | Some binding => Ok (binding, registry)
  | None =>
      raise unavailable when cq_provider_binding_captured request;;
      match cq_source_events request with
      | [] => Err BackendException
      | event :: _ => registry_resolve (ev_session_key event) registry
      end
  end.
(** [AstrBotExtractiveCompilerBackend.compile] *)
Definition compile (request : CompilationRequest) (registry : SessionProviderRegistry)
    : result extractive_error CompilerOutput * SessionProviderRegistry :=
  match request_binding request registry with
  | Err e => (Err e, registry)
  | Ok (binding, registry) => (compile_with binding request, registry)
  end.
(** The backend as [compile_candidate] awaits it. *)
Definition extractive_backend (registry : SessionProviderRegistry) (request : CompilationRequest) : backend_outcome :=
  match (compile request registry).1 with
  | Ok output => Compiled output
  | Err (Deferred code) => BackendDeferred code
  | Err _ => BackendRaised
  end.
End backend.
