(* ===== verification/ExtractiveProperties.v ===== *)
(** What the extractive backend guarantees: the preflight fits the source events
    to the provider's context without tearing a message or a tool loop, or
    defers; and a compiled Capsule holds verbatim quotes of its own events,
    with every non-empty event quoted. *)
From S2P Require Import Prelude PyString PyFloat Domain Validation PyJson Crypto Store ToolLoop Rendering.
From S2P Require Import Segmenter Jobs Views Publish Budget Pressure Tokenization RequestBudget Compiler ExtractiveBackend.
Open Scope string_scope.
Open Scope list_scope.
Open Scope Z_scope.

Section fitting.
Context `{Sha256} `{FloatRepr}.
Variable counts : gmap string Z.

(** ** Cutting units into segments *)

(** The segments take the units in order, each a run of whole units. *)
Definition cut (Q : EventSegment -> Prop) (units : list (list EventEnvelope)) (segments : list EventSegment) : Prop :=
  exists parts, concat parts = units /\ Forall2 (fun part segment => part <> []
    /\ (exists reason, _fitted_segment counts (concat part) reason = Ok segment) /\ Q segment) parts segments.
Lemma cut_nil Q : cut Q [] [].
Proof. exists []. split; [done|constructor]. Qed.
Lemma cut_app Q u1 u2 s1 s2 : cut Q u1 s1 -> cut Q u2 s2 -> cut Q (u1 ++ u2) (s1 ++ s2).
Proof. intros (p1 & <- & H1) (p2 & <- & H2). exists (p1 ++ p2). split; [by rewrite concat_app|]. by apply Forall2_app. Qed.
Lemma cut_one (Q : EventSegment -> Prop) part segment reason : part <> [] -> _fitted_segment counts (concat part) reason = Ok segment -> Q segment ->
  cut Q part [segment].
Proof. intros Hne Hs HQ. exists [part]. split; [cbn; by rewrite app_nil_r|]. constructor; [|constructor]. eauto. Qed.
Lemma fitted_events events reason segment : _fitted_segment counts events reason = Ok segment -> es_events segment = events.
Proof. unfold _fitted_segment. destruct events as [|e events]; [done|]. destruct (last (e :: events)); [|done]. by intros [= <-]. Qed.
Lemma cut_events Q units segments : cut Q units segments -> flat_map es_events segments = concat units.
Proof.
  intros (parts & <- & Hp). induction Hp as [|part segment parts segments (_ & (reason & Hs) & _) _ IH]; [done|].
  cbn [flat_map concat]. rewrite concat_app, <- IH. by rewrite (fitted_events _ _ _ Hs).
Qed.
Definition whole (units : list (list EventEnvelope)) : Prop := Forall (fun u => u <> []) units.
Lemma whole_concat units : whole units -> concat units = [] -> units = [].
Proof. intros Hw Hc. destruct Hw as [|u units Hu _]; [done|]. cbn in Hc. by apply app_eq_nil in Hc as [-> _]. Qed.
Lemma fitted_total events reason : events <> [] -> exists segment, _fitted_segment counts events reason = Ok segment.
Proof.
  intros Hne. unfold _fitted_segment. destruct events as [|e events]; [done|].
  destruct (last (e :: events)) eqn:Hl; [by eexists|]. by apply last_None in Hl.
Qed.

(** ** Normalization *)

Lemma normalize_groups_cut units : whole units -> forall current before boundaries, whole before -> current = concat before ->
  exists segments, normalize_groups counts units current boundaries = Ok segments /\ cut (fun _ => True) (before ++ units) segments.
Proof.
  induction 1 as [|u units Hu Hw IH]; intros current before boundaries Hb ->; cbn [normalize_groups].
  - rewrite app_nil_r. destruct (concat before) as [|e l] eqn:Hc.
    + apply whole_concat in Hc as ->; [|done]. exists []. split; [done|apply cut_nil].
    + destruct (fitted_total (e :: l) END_OF_INPUT ltac:(done)) as (segment & Hs). rewrite Hs. cbn [mbind result_bind].
      exists [segment]. split; [done|]. rewrite <- Hc in Hs. eapply cut_one; [|exact Hs|done]. by intros ->.
  - destruct (last u) as [final|] eqn:Hl; [|by apply last_None in Hl].
    assert (whole (before ++ [u])) as Hb' by (apply Forall_app; split; [done|by constructor]).
    assert (concat before ++ u = concat (before ++ [u])) as Hc by (rewrite concat_app; cbn; by rewrite app_nil_r).
    replace (before ++ u :: units) with ((before ++ [u]) ++ units) by by rewrite <- app_assoc.
    destruct (cross boundaries (ev_sequence final) None) as [[reason|] rest].
    + destruct (fitted_total (concat before ++ u) reason) as (segment & Hs); [by destruct u, (concat before)|].
      rewrite Hs. cbn [mbind result_bind]. destruct (IH [] [] rest ltac:(constructor) ltac:(done)) as (segments & -> & Hcut).
      cbn [mbind result_bind]. exists (segment :: segments). split; [done|]. apply (cut_app _ _ _ [segment]); [|exact Hcut].
      rewrite Hc in Hs. eapply cut_one; [|exact Hs|done]. by destruct before.
    + by apply IH.
Qed.

(** ** Splitting *)

Section split.
Variables (scope : Scope) (input_limit : Z).
(** The segment's prompt, with the system prompt, fits the provider's context. *)
Definition fits_context (segment : EventSegment) : Prop := exists cost, _serialized_cost scope segment = Ok cost /\ cost <= input_limit.
Definition too_large (unit : list EventEnvelope) : Prop := exists reason segment cost,
  _fitted_segment counts unit reason = Ok segment /\ _serialized_cost scope segment = Ok cost /\ input_limit < cost.
Lemma serialized_cost_events s s' : es_events s = es_events s' -> _serialized_cost scope s = _serialized_cost scope s'.
Proof. intros E. unfold _serialized_cost, _segment_prompt. by rewrite E. Qed.
Lemma fits_same_events s s' : es_events s = es_events s' -> fits_context s -> fits_context s'.
Proof. intros E (cost & Hc & Hl). exists cost. by rewrite <- (serialized_cost_events s s' E). Qed.

(** A failed count, a torn prompt: every other error than a unit that is too large. *)
Definition count_failed (e : extractive_error) : Prop := match e with FitTokenizerError | BackendException => True | _ => False end.
Lemma serialized_cost_failed s e : _serialized_cost scope s = Err e -> count_failed e.
Proof.
  unfold _serialized_cost, fit_count, _segment_prompt, raise_if.
  destruct (scoped_count_text scope _SYSTEM_PROMPT) as [[v s']|[]]; cbn [mbind result_bind]; try by intros [= <-].
  destruct (negb _); cbn [mbind result_bind]; [by intros [= <-]|].
  destruct (scoped_count_text scope _) as [[v2 s2]|[]]; cbn [mbind result_bind]; by intros [= <-].
Qed.
Lemma split_groups_cut units : whole units -> forall current before reason, whole before -> current = concat before ->
  (before <> [] -> forall segment, es_events segment = current -> fits_context segment) ->
  match split_groups scope counts input_limit units current reason with
  | Ok segments => cut fits_context (before ++ units) segments
  | Err (Deferred code) => code = "COMPACTION_INPUT_TOO_LARGE" /\ exists unit, unit ∈ units /\ too_large unit
  | Err e => count_failed e
  end.
Proof.
  induction 1 as [|u units Hu Hw IH]; intros current before reason Hb -> Hfits; cbn [split_groups].
  - rewrite app_nil_r. destruct (concat before) as [|e l] eqn:Hc.
    + apply whole_concat in Hc as ->; [|done]. apply cut_nil.
    + destruct (fitted_total (e :: l) reason ltac:(done)) as (segment & Hs). rewrite Hs. cbn [mbind result_bind].
      rewrite <- Hc in Hs. assert (before <> []) as Hne by (by intros ->). eapply cut_one; [done|exact Hs|].
      apply Hfits; [done|]. rewrite (fitted_events _ _ _ Hs). done.
  - assert (whole (before ++ [u])) as Hb' by (apply Forall_app; split; [done|by constructor]).
    assert (concat before ++ u = concat (before ++ [u])) as Hc by (rewrite concat_app; cbn; by rewrite app_nil_r).
    destruct (fitted_total (concat before ++ u) MAX_TOKENS) as (proposed & Hprop); [by destruct u, (concat before)|].
    rewrite Hprop. cbn [mbind result_bind].
    destruct (_serialized_cost scope proposed) as [cost|e] eqn:Hcost; cbn [mbind result_bind].
    2:{ apply serialized_cost_failed in Hcost. by destruct e. }
    destruct (cost <=? input_limit) eqn:Hle; bool_hyps.
    + replace (before ++ u :: units) with ((before ++ [u]) ++ units) by by rewrite <- app_assoc.
      specialize (IH (concat before ++ u) (before ++ [u]) reason Hb' Hc).
      destruct (split_groups scope counts input_limit units (concat before ++ u) reason) as [segments|e].
      * apply IH. intros _ segment He. apply (fits_same_events proposed); [|by exists cost].
        rewrite He. by apply (fitted_events _ _ _ Hprop).
      * destruct e; try exact (IH (fun _ segment He => fits_same_events proposed segment
          (eq_trans (fitted_events _ _ _ Hprop) (eq_sym He)) (ex_intro _ cost (conj Hcost Hle)))).
        destruct (IH (fun _ segment He => fits_same_events proposed segment
          (eq_trans (fitted_events _ _ _ Hprop) (eq_sym He)) (ex_intro _ cost (conj Hcost Hle)))) as (-> & unit & Hin & Hlarge).
        split; [done|]. exists unit. split; [by right|done].
    + assert (exists flushed, match concat before with [] => Ok [] | _ => segment ← _fitted_segment counts (concat before) MAX_TOKENS; Ok [segment] end
        = Ok flushed /\ cut fits_context before flushed) as (flushed & -> & Hflush).
      { destruct (concat before) as [|e l] eqn:Hcb.
        - apply whole_concat in Hcb as ->; [|done]. exists []. split; [done|apply cut_nil].
        - destruct (fitted_total (e :: l) MAX_TOKENS ltac:(done)) as (segment & Hs). rewrite Hs. cbn [mbind result_bind].
          exists [segment]. split; [done|]. rewrite <- Hcb in Hs. assert (before <> []) as Hne by (by intros ->).
          eapply cut_one; [done|exact Hs|]. apply Hfits; [done|]. rewrite (fitted_events _ _ _ Hs). done. }
      cbn [mbind result_bind]. destruct (fitted_total u reason Hu) as (single & Hs). rewrite Hs. cbn [mbind result_bind].
      destruct (_serialized_cost scope single) as [single_cost|e] eqn:Hsingle; cbn [mbind result_bind].
      2:{ apply serialized_cost_failed in Hsingle. by destruct e. }
      unfold raise_if. destruct (input_limit <? single_cost) eqn:Hlarge; bool_hyps.
      { split; [done|]. exists u. split; [left|]. by exists reason, single, single_cost. }
      specialize (IH u [u] reason ltac:(by constructor) ltac:(cbn; by rewrite app_nil_r)).
      assert ([u] <> [] -> forall segment, es_events segment = u -> fits_context segment) as Hu'.
      { intros _ segment He. apply (fits_same_events single); [|by exists single_cost]. rewrite He. by apply (fitted_events _ _ _ Hs). }
      specialize (IH Hu'). destruct (split_groups scope counts input_limit units u reason) as [rest|e]; cbn [mbind result_bind].
      * by apply (cut_app _ before ([u] ++ units)).
      * destruct e; try exact IH. destruct IH as (-> & unit & Hin & Hl). split; [done|]. exists unit. split; [by right|done].
Qed.

(** ** One atomic segment, and all of them *)

Lemma cut_weaken (Q Q' : EventSegment -> Prop) units segments : (forall s, Q s -> Q' s) -> cut Q units segments -> cut Q' units segments.
Proof.
  intros HQ (parts & <- & Hp). exists parts. split; [done|]. eapply Forall2_impl; [exact Hp|]. cbn. intros part segment (? & ? & ?). auto.
Qed.
Definition fit_outcome (units : list (list EventEnvelope)) (r : result extractive_error (list EventSegment)) : Prop :=
  match r with
  | Ok segments => cut fits_context units segments
  | Err (Deferred code) => code = "COMPACTION_INPUT_TOO_LARGE" /\ exists unit, unit ∈ units /\ too_large unit
  | Err e => count_failed e
  end.
Lemma fit_segment_outcome part segment : part <> [] -> one_history (concat part) -> Forall unit_ok part ->
  (exists reason, _fitted_segment counts (concat part) reason = Ok segment) ->
  fit_outcome part (fit_segment scope counts input_limit segment).
Proof.
  intros Hne Hh Hu (reason & Hs). unfold fit_segment. pose proof (fitted_events _ _ _ Hs) as He.
  destruct (_serialized_cost scope segment) as [cost|e] eqn:Hc; cbn [mbind result_bind].
  2:{ apply serialized_cost_failed in Hc. by destruct e. }
  destruct (cost <=? input_limit) eqn:Hle; bool_hyps.
  - eapply cut_one; [done|exact Hs|]. by exists cost.
  - unfold _split_segment, _event_groups. rewrite He, (durable_units_complete part Hh Hu). cbn [mbind result_bind].
    apply (split_groups_cut part) with (before := []); [|constructor|done|done].
    eapply Forall_impl; [exact Hu|]. apply unit_ok_ne.
Qed.
Lemma fit_all_outcome units atomic : cut (fun _ => True) units atomic -> one_history (concat units) -> Forall unit_ok units ->
  fit_outcome units (fitted ← map_result (fit_segment scope counts input_limit) atomic; Ok (concat fitted)).
Proof.
  intros (parts & <- & Hp). induction Hp as [|part segment parts atomic (Hne & Hs & _) _ IH]; intros Hh Hu; [apply cut_nil|].
  cbn [concat] in *. rewrite concat_app in Hh. apply Forall_app in Hu as [Hu1 Hu2].
  pose proof (fit_segment_outcome part segment Hne (one_history_app _ _ Hh) Hu1 Hs) as Hone.
  specialize (IH (one_history_app_r _ _ Hh) Hu2). cbn [map_result].
  destruct (fit_segment scope counts input_limit segment) as [first|e]; cbn [mbind result_bind].
  - destruct (map_result _ atomic) as [rest|e]; cbn [mbind result_bind fit_outcome] in *.
    + cbn [concat]. by apply cut_app.
    + destruct e; try exact IH. destruct IH as (-> & unit & Hin & Hl). split; [done|]. exists unit. split; [apply elem_of_app; by right|done].
  - destruct e; try exact Hone. destruct Hone as (-> & unit & Hin & Hl). split; [done|]. exists unit. split; [apply elem_of_app; by left|done].
Qed.
Lemma fit_segments_outcome segments source_events :
  match _fit_segments scope counts input_limit segments source_events with
  | Ok fitted => dom counts = event_ids source_events
      /\ exists units, durable_event_units source_events = Some units /\ cut fits_context units fitted
  | Err (Deferred code) =>
      (code = "TOKEN_METRIC_MISSING" /\ dom counts <> event_ids source_events)
      \/ (dom counts = event_ids source_events /\ code = "TOOL_LOOP_INVALID" /\ durable_event_units source_events = None)
      \/ (dom counts = event_ids source_events /\ code = "COMPACTION_INPUT_TOO_LARGE"
          /\ exists units unit, durable_event_units source_events = Some units /\ unit ∈ units /\ too_large unit)
  | Err e => dom counts = event_ids source_events /\ count_failed e
  end.
Proof.
  unfold _fit_segments, raise_if. destruct (bool_decide (dom counts = event_ids source_events)) eqn:Hd; bool_hyps; cbn [negb]; [|by left].
  unfold _normalize_atomic_segments, _event_groups.
  destruct (durable_event_units source_events) as [units|] eqn:Hu; cbn [mbind result_bind]; [|by right; left].
  pose proof Hu as (Hh & Hcat & Hok)%durable_units_sound.
  destruct (normalize_groups_cut units (Forall_impl _ _ _ Hok unit_ok_ne) [] []
    (map (fun s => (es_end_sequence s, es_boundary_reason s)) segments) ltac:(constructor) ltac:(done)) as (atomic & -> & Hcut).
  cbn [mbind result_bind app] in *. rewrite <- Hcat in Hh. pose proof (fit_all_outcome units atomic Hcut Hh Hok) as Hfit.
  destruct (fitted ← map_result _ atomic; Ok (concat fitted)) as [fitted|e]; cbn [fit_outcome] in Hfit.
  - split; [done|]. by exists units.
  - destruct e; try (by split). right; right. destruct Hfit as (-> & unit & Hin & Hl). split_and!; [done..|]. by exists units, unit.
Qed.
End split.
End fitting.

(** ** The preflight *)

Section preflight.
Context `{Sha256} `{FloatRepr}.
Variable counter_provider : TokenizerProfile -> provided.
(** The fitted segments take the source's messages and tool loops in order,
    each whole, and each fits the context as counted under the profile. *)
Definition fitted_under (profile : TokenizerProfile) (request : CompilationRequest) (input_limit : Z) (fitted : list EventSegment) : Prop :=
  exists counter scope units, counter_provider profile = Provided counter /\ scoped counter (Some profile) = Ok scope
    /\ durable_event_units (cq_source_events request) = Some units
    /\ cut (cq_canonical_event_token_counts request) (fits_context scope input_limit) units fitted.
(** Why the fitting under a profile gives up. *)
Definition defers_under (profile : TokenizerProfile) (request : CompilationRequest) (input_limit : Z) (code : string) : Prop :=
  (code = "TOKEN_METRIC_MISSING" /\ dom (cq_canonical_event_token_counts request) <> event_ids (cq_source_events request))
  \/ (code = "TOOL_LOOP_INVALID" /\ durable_event_units (cq_source_events request) = None)
  \/ (code = "COMPACTION_INPUT_TOO_LARGE" /\ exists counter scope units unit, counter_provider profile = Provided counter
      /\ scoped counter (Some profile) = Ok scope /\ durable_event_units (cq_source_events request) = Some units
      /\ unit ∈ units /\ too_large (cq_canonical_event_token_counts request) scope input_limit unit).
Lemma fit_with_profile_outcome request profile input_limit :
  match _fit_with_profile counter_provider request profile input_limit with
  | Ok fitted => fitted_under profile request input_limit fitted
  | Err (Deferred code) => defers_under profile request input_limit code
  | Err e => e = FitTokenizerError
  end.
Proof.
  unfold _fit_with_profile. destruct (counter_provider profile) as [counter| |] eqn:Hp; [|done..].
  destruct (scoped counter (Some profile)) as [scope|] eqn:Hs; [|done].
  pose proof (fit_segments_outcome (cq_canonical_event_token_counts request) scope input_limit (cq_segments request) (cq_source_events request)) as Hf.
  destruct (_fit_segments _ _ _ _ _) as [fitted|[]]; try done.
  - destruct Hf as (_ & units & Hu & Hcut). by exists counter, scope, units.
  - destruct Hf as [Hf|[(_ & Hf)|(_ & -> & units & unit & Hu & Hin & Hl)]]; [by left|by right; left|right; right].
    split; [done|]. by exists counter, scope, units, unit.
Qed.
Lemma fitted_under_events request input_limit profile fitted : fitted_under profile request input_limit fitted ->
  flat_map es_events fitted = cq_source_events request.
Proof.
  intros (counter & scope & units & _ & _ & Hu & Hcut). rewrite (cut_events _ _ _ _ Hcut).
  by apply durable_units_sound in Hu as (_ & -> & _).
Qed.
Lemma preflight_events request routed input_limit fitted provenance :
  _preflight counter_provider request routed input_limit = Ok (fitted, provenance) -> flat_map es_events fitted = cq_source_events request.
Proof.
  unfold _preflight. set (profile := if eqb_of _ _ then _ else _).
  pose proof (fit_with_profile_outcome request profile input_limit) as Hfit.
  destruct (_fit_with_profile counter_provider request profile input_limit) as [l|[]]; try done.
  - intros [= -> _]. by eapply fitted_under_events.
  - unfold _fit_fallback. pose proof (fit_with_profile_outcome request BYTE_FALLBACK input_limit) as Hback.
    destruct (_fit_with_profile _ _ BYTE_FALLBACK _) as [l|[]]; try done. intros [= -> _]. by eapply fitted_under_events.
Qed.

(** C25. The preflight fits the source to the provider's context or defers; it
    has no other way out.  What it fits are the source's messages and complete
    tool loops, in order and untorn, grouped into segments whose prompts fit
    the context under the profile the provenance names; a deferral is for a
    missing token metric, an unpaired tool loop, one unit that is too large on
    its own, or a byte counter that failed too.  The byte profile is used
    exactly when the route says so or the routed tokenizer failed, and the
    provenance tells the two apart. *)
Theorem preflight_fits_or_defers request routed input_limit :
  let profile := if bool_decide (tp_mode (tr_profile routed) = MODE_BYTE_FALLBACK) then BYTE_FALLBACK else tr_profile routed in
  match _preflight counter_provider request routed input_limit with
  | Ok (fitted, provenance) =>
      flat_map es_events fitted = cq_source_events request
      /\ ((provenance = fit_provenance profile (if bool_decide (tp_mode (tr_profile routed) = MODE_BYTE_FALLBACK)
                                               then "TOKENIZER_BYTE_FALLBACK" else "NONE") false
           /\ fitted_under profile request input_limit fitted)
          \/ (provenance = fit_provenance BYTE_FALLBACK "TOKENIZER_BYTE_FALLBACK" true
              /\ _fit_with_profile counter_provider request profile input_limit = Err FitTokenizerError
              /\ fitted_under BYTE_FALLBACK request input_limit fitted))
  | Err (Deferred code) => defers_under profile request input_limit code
      \/ (_fit_with_profile counter_provider request profile input_limit = Err FitTokenizerError
          /\ (defers_under BYTE_FALLBACK request input_limit code \/ code = "COMPACTION_TOKENIZER_UNAVAILABLE"))
  | Err _ => False
  end.
Proof.
  intros profile. unfold _preflight, eqb_of. fold profile. pose proof (fitted_under_events request input_limit) as Hevents.
  pose proof (fit_with_profile_outcome request profile input_limit) as Hfit.
  destruct (_fit_with_profile counter_provider request profile input_limit) as [fitted|e] eqn:Hf.
  - split; [by eapply Hevents|]. left. split; [|done]. unfold profile. by case_bool_decide.
  - destruct e; try done; [by left|]. unfold _fit_fallback.
    pose proof (fit_with_profile_outcome request BYTE_FALLBACK input_limit) as Hback.
    destruct (_fit_with_profile counter_provider request BYTE_FALLBACK input_limit) as [fitted|e]; cbn [mbind result_bind].
    + split; [by eapply Hevents|]. by right.
    + destruct e; try done; right; (split; [done|]); [by left|by right].
Qed.
End preflight.


(** ** Verbatim Capsules *)

(** What a Capsule quotes: the sources and the text of each quote. *)
Definition claim_quotes (l : list CapsuleClaim) : list (list string * string) := map (fun c => (cl_source_event_ids c, cl_text c)) l.
Definition optional_text (text : string) : list string := if is_empty text then [] else [text].
Definition decision_texts (d : Decision_) : list string :=
  de_text d :: optional_text (de_rationale d) ++ optional_text (de_rejected_because d) ++ de_alternatives d.
Definition capsule_quotes (c : ContextCapsuleEnvelope) : list (list string * string) :=
  claim_quotes (cap_goals c) ++ claim_quotes (cap_constraints c) ++ claim_quotes (cap_progress c) ++ claim_quotes (cap_open_loops c)
  ++ claim_quotes (cap_preferences c) ++ claim_quotes (cap_emotional_context c)
  ++ flat_map (fun d => map (pair (de_source_event_ids d)) (decision_texts d)) (cap_decisions c)
  ++ flat_map (fun e => map (pair (en_source_event_ids e)) (en_canonical_name e :: en_aliases e)) (cap_entities c)
  ++ map (fun a => (an_source_event_ids a, an_exact_text a)) (cap_exact_anchors c).
Definition occurs (quote content : string) : Prop := quote <> "" /\ exists before after, content = before +:+ quote +:+ after.
(** The Capsule of a segment: its events and range, nothing but quotes of its
    own events, and a quote of every event that says something. *)
Definition verbatim_capsule (segment : EventSegment) (c : ContextCapsuleEnvelope) : Prop :=
  cap_source_event_ids c = map ev_event_id (es_events segment)
  /\ (cap_covered_event_start c, cap_covered_event_end c) = (es_start_sequence segment, es_end_sequence segment)
  /\ (forall sources quote, (sources, quote) ∈ capsule_quotes c ->
        exists event, event ∈ es_events segment /\ sources = [ev_event_id event] /\ occurs quote (ev_content event))
  /\ (forall event, event ∈ es_events segment -> ev_content event <> "" -> exists quote, ([ev_event_id event], quote) ∈ capsule_quotes c).

Lemma prefix_spec sub s : String.prefix sub s = true -> exists after, s = sub +:+ after.
Proof.
  revert s. induction sub as [|c sub IH]; intros s Hp; [by exists s|].
  destruct s as [|c' s]; [done|]. cbn in Hp. destruct (Ascii.ascii_dec c c') as [->|]; [|done].
  destruct (IH s Hp) as (after & ->). by exists after.
Qed.
Lemma contains_occurs sub s : contains_text sub s = true -> exists before after, s = before +:+ sub +:+ after.
Proof.
  induction s as [|c s IH]; intros Hc; cbn [contains_text] in Hc; apply orb_true_iff in Hc as [Hp|Hc].
  - apply prefix_spec in Hp as (after & ->). by exists "", after.
  - done.
  - apply prefix_spec in Hp as (after & ->). by exists "", after.
  - destruct (IH Hc) as (before & after & ->). by exists (String.String c before), after.
Qed.

(** A text occurs in the content of the segment's event of that id. *)
Definition quoted (segment : EventSegment) (id quote : string) : Prop :=
  exists event, event ∈ es_events segment /\ ev_event_id event = id /\ occurs quote (ev_content event).
Lemma contents_event segment id content : event_contents_of segment !! id = Some content ->
  exists event, event ∈ es_events segment /\ ev_event_id event = id /\ ev_content event = content.
Proof.
  unfold event_contents_of. intros Hl%elem_of_list_to_map_2. apply list_elem_of_In, in_rev, in_map_iff in Hl as (event & [= <- <-] & Hin).
  exists event. split; [by apply list_elem_of_In|done].
Qed.
Lemma event_in_contents segment event : NoDup (map ev_event_id (es_events segment)) -> event ∈ es_events segment ->
  event_contents_of segment !! ev_event_id event = Some (ev_content event).
Proof.
  intros Hnd Hin. unfold event_contents_of. apply elem_of_list_to_map_1.
  - rewrite map_rev, map_map. cbn [fst]. apply NoDup_ListNoDup, List.NoDup_rev, NoDup_ListNoDup. exact Hnd.
  - apply list_elem_of_In. rewrite <- in_rev. apply in_map_iff. exists event. split; [done|by apply list_elem_of_In].
Qed.
Lemma exact_text_ok segment id quote allow_empty u : _exact_text (event_contents_of segment) id quote allow_empty = Ok u ->
  (allow_empty = true /\ quote = "") \/ quoted segment id quote.
Proof.
  unfold _exact_text. destruct (allow_empty && (quote ==? "")) eqn:Ha; [apply andb_true_iff in Ha as [-> ->%py_eq_leibniz]; by left|].
  destruct (_ !! id) as [content|] eqn:Hc; [|done]. intros [[Hq Hin]%orb_false_iff _]%raise_if_ok. right.
  apply contents_event in Hc as (event & He & Hid & <-). exists event. split_and!; [done..|]. split; [by intros ->|].
  apply contains_occurs. by apply negb_false_iff.
Qed.
Lemma exact_text_strict segment id quote u : _exact_text (event_contents_of segment) id quote false = Ok u -> quoted segment id quote.
Proof. by intros [[? _]|?]%exact_text_ok. Qed.
Lemma exact_text_optional segment id quote u text : _exact_text (event_contents_of segment) id quote true = Ok u ->
  text ∈ optional_text quote -> quoted segment id text.
Proof.
  unfold optional_text. intros [[_ ->]|Hq]%exact_text_ok Ht; [by apply elem_of_nil in Ht|].
  destruct (is_empty quote); [by apply elem_of_nil in Ht|]. by apply list_elem_of_singleton in Ht as ->.
Qed.
Lemma each_ok {A} (check : A -> result extractive_error unit) l u : each check l = Ok u -> forall x, x ∈ l -> exists u, check x = Ok u.
Proof.
  unfold each. generalize tt. induction l as [|y l IH]; intros v He x Hx; [by apply elem_of_nil in Hx|].
  cbn [fold_result] in He. apply result_bind_ok in He as (w & Hw & He). apply elem_of_cons in Hx as [->|Hx]; [by exists w|by eapply IH].
Qed.

(** ** The quotes of an answer *)

Definition decision_quotes (d : _DecisionSelection) : list string :=
  sp_quote (ds_span d) :: optional_text (ds_rationale d) ++ optional_text (ds_rejected_because d) ++ ds_alternatives d.
Definition extraction_quotes (e : _SegmentExtraction) : list (string * string) :=
  map (fun s => (sp_event_id s, sp_quote s)) (concat (span_groups e))
  ++ flat_map (fun d => map (pair (sp_event_id (ds_span d))) (decision_quotes d)) (ex_decisions e)
  ++ flat_map (fun s => map (pair (es_event_id s)) (es_quote s :: es_aliases s)) (ex_entities e)
  ++ map (fun a => (as_event_id a, as_quote a)) (ex_anchors e).
Lemma selected_quoted e id : id ∈ selected_event_ids e -> exists quote, (id, quote) ∈ extraction_quotes e.
Proof.
  unfold selected_event_ids, extraction_quotes. rewrite !elem_of_app. intros [Hi|[Hi|[Hi|Hi]]];
    apply list_elem_of_fmap in Hi as (x & -> & Hx); eexists; rewrite !elem_of_app.
  - left. apply list_elem_of_fmap. by exists x.
  - right; left. apply list_elem_of_In, in_flat_map. exists x. split; [by apply list_elem_of_In|]. by left.
  - right; right; left. apply list_elem_of_In, in_flat_map. exists x. split; [by apply list_elem_of_In|]. by left.
  - do 3 right. apply list_elem_of_fmap. by exists x.
Qed.
Lemma check_decision_ok segment d u text : check_decision (event_contents_of segment) d = Ok u -> text ∈ decision_quotes d ->
  quoted segment (sp_event_id (ds_span d)) text.
Proof.
  unfold check_decision, check_span. intros (u1 & H1 & (u2 & H2 & (u3 & H3 & H4)%result_bind_ok)%result_bind_ok)%result_bind_ok.
  unfold decision_quotes. rewrite elem_of_cons, !elem_of_app. intros [->|[Ht|[Ht|Ht]]].
  - by eapply exact_text_strict.
  - by apply (exact_text_optional _ _ _ _ _ H2).
  - by apply (exact_text_optional _ _ _ _ _ H3).
  - apply (each_ok _ _ _ H4) in Ht as (u5 & Ht). by eapply exact_text_strict.
Qed.
Lemma check_entity_ok segment s u text : check_entity (event_contents_of segment) s = Ok u -> text ∈ es_quote s :: es_aliases s ->
  quoted segment (es_event_id s) text.
Proof.
  unfold check_entity. intros (u1 & H1 & H2)%result_bind_ok. rewrite elem_of_cons. intros [->|Ht]; [by eapply exact_text_strict|].
  apply (each_ok _ _ _ H2) in Ht as (u3 & Ht). by eapply exact_text_strict.
Qed.
Lemma validate_ok e segment contents : _validate_extraction e segment = Ok contents ->
  contents = event_contents_of segment /\ (forall id quote, (id, quote) ∈ extraction_quotes e -> quoted segment id quote)
  /\ (forall id content, contents !! id = Some content -> content <> "" -> id ∈ selected_event_ids e).
Proof.
  unfold _validate_extraction. intros [_ (u1 & H1 & (u2 & H2 & (u3 & H3 & (u4 & H4 & [Hall [= <-]]%raise_if_ok)
    %result_bind_ok)%result_bind_ok)%result_bind_ok)%result_bind_ok]%raise_if_ok. split_and!; [done| |].
  - intros id quote. unfold extraction_quotes. rewrite !elem_of_app. intros [Hq|[Hq|[Hq|Hq]]].
    + apply list_elem_of_fmap in Hq as (s & [= -> ->] & Hs). apply list_elem_of_In, in_concat in Hs as (group & Hg & Hs).
      apply list_elem_of_In in Hg, Hs. apply (each_ok _ _ _ H1) in Hg as (u & Hg). apply (each_ok _ _ _ Hg) in Hs as (u' & Hs).
      by eapply exact_text_strict.
    + apply list_elem_of_In, in_flat_map in Hq as (d & Hd & Hq). apply in_map_iff in Hq as (text & [= <- <-] & Ht).
      apply list_elem_of_In in Hd, Ht. apply (each_ok _ _ _ H2) in Hd as (u & Hd). by eapply check_decision_ok.
    + apply list_elem_of_In, in_flat_map in Hq as (s & Hs & Hq). apply in_map_iff in Hq as (text & [= <- <-] & Ht).
      apply list_elem_of_In in Hs, Ht. apply (each_ok _ _ _ H3) in Hs as (u & Hs). by eapply check_entity_ok.
    + apply list_elem_of_fmap in Hq as (a & [= -> ->] & Ha). apply (each_ok _ _ _ H4) in Ha as (u & Ha). by eapply exact_text_strict.
  - intros id content Hc Hne. apply negb_false_iff, forallb_forall with (x := (id, content)) in Hall.
    + apply orb_true_iff in Hall as [He|Hs]; [by destruct content|by apply bool_decide_eq_true in Hs].
    + apply list_elem_of_In, elem_of_map_to_list. exact Hc.
Qed.

(** ** The Capsule of an answer *)

Section capsule.
Context `{Sha256} `{FloatRepr}.
Lemma claim_quoted category s c : _claim category s = Ok c -> (cl_source_event_ids c, cl_text c) = ([sp_event_id s], sp_quote s).
Proof. unfold _claim, model. intros (id & _ & Hc)%result_bind_ok. destruct (construct _ _) eqn:Hk; [|done]. apply construct_ok in Hk as [_ <-]. by injection Hc as <-. Qed.
Lemma decision_ok d c : _decision d = Ok c ->
  (de_source_event_ids c, decision_texts c) = ([sp_event_id (ds_span d)], decision_quotes d).
Proof. unfold _decision, model. intros (id & _ & Hc)%result_bind_ok. destruct (construct _ _) eqn:Hk; [|done]. apply construct_ok in Hk as [_ <-]. by injection Hc as <-. Qed.
Lemma entity_ok s c : _entity s = Ok c ->
  (en_source_event_ids c, en_canonical_name c :: en_aliases c) = ([es_event_id s], es_quote s :: es_aliases s).
Proof. unfold _entity, model. intros (id & _ & Hc)%result_bind_ok. destruct (construct _ _) eqn:Hk; [|done]. apply construct_ok in Hk as [_ <-]. by injection Hc as <-. Qed.
Lemma anchor_ok a c : _anchor a = Ok c -> (an_source_event_ids c, an_exact_text c) = ([as_event_id a], as_quote a).
Proof. unfold _anchor, anchor_item, model. intros (id & _ & Hc)%result_bind_ok. destruct (construct _ _) eqn:Hk; [|done]. apply construct_ok in Hk as [_ <-]. by injection Hc as <-. Qed.

(** The fallback anchor is for an answer without content; a validated answer
    has none only when its events say nothing, and then there is no anchor. *)
Lemma anchors_validated e segment contents anchors : _validate_extraction e segment = Ok contents ->
  capsule_anchors segment e contents = Ok anchors -> map_result _anchor (ex_anchors e) = Ok anchors.
Proof.
  intros (_ & _ & Hsel)%validate_ok. unfold capsule_anchors. destruct (has_structured_content e) eqn:Hc; [done|].
  assert (selected_event_ids e = [] /\ ex_anchors e = []) as [Hs Ha].
  { unfold has_structured_content, span_groups in Hc. unfold selected_event_ids, span_groups. cbn [existsb] in Hc.
    destruct (ex_goals e), (ex_constraints e), (ex_progress e), (ex_open_loops e), (ex_preferences e), (ex_emotional_context e),
      (ex_decisions e), (ex_entities e), (ex_anchors e); done. }
  rewrite Ha. intros (fallback & Hf & [= <-])%result_bind_ok. unfold _fallback_anchor in Hf.
  destruct (last _) as [event|]; [|done]. destruct (contents !! ev_event_id event) as [content|] eqn:Hev; [|done].
  destruct (decide (content = "")) as [->|Hne]; [by injection Hf as <-|].
  apply (Hsel _ _ Hev) in Hne. rewrite Hs in Hne. by apply elem_of_nil in Hne.
Qed.
Lemma quote_of {A B} (make : A -> result extractive_error B) (view : B -> list string * string) (quote : A -> list string * string) l l' :
  (forall a b, make a = Ok b -> view b = quote a) -> map_result make l = Ok l' -> map view l' = map quote l.
Proof.
  intros Hmake Hl%map_result_ok. induction Hl as [|a b l l' Hab _ IH]; [done|]. cbn [map]. by rewrite (Hmake _ _ Hab), IH.
Qed.
Lemma quotes_of {A B} (make : A -> result extractive_error B) (sources : B -> list string) (texts : B -> list string)
    (id : A -> string) (quotes : A -> list string) l l' :
  (forall a b, make a = Ok b -> (sources b, texts b) = ([id a], quotes a)) -> map_result make l = Ok l' ->
  flat_map (fun b => map (pair (sources b)) (texts b)) l' = flat_map (fun a => map (pair [id a]) (quotes a)) l.
Proof.
  intros Hmake Hl%map_result_ok. induction Hl as [|a b l l' Hab _ IH]; [done|]. cbn [flat_map].
  apply Hmake in Hab as [= -> ->]. by rewrite IH.
Qed.
Definition sourced (p : string * string) : list string * string := ([p.1], p.2).
Lemma sourced_quotes {A} (id : A -> string) (quotes : A -> list string) l :
  map sourced (flat_map (fun a => map (pair (id a)) (quotes a)) l) = flat_map (fun a => map (pair [id a]) (quotes a)) l.
Proof. induction l as [|a l IH]; [done|]. cbn [flat_map]. by rewrite map_app, IH, map_map. Qed.
(** [_capsule] makes one item of each selection. *)
Lemma capsule_ok compatibility_counter segment e contents c :
  _validate_extraction e segment = Ok contents -> _capsule compatibility_counter segment e contents = Ok c ->
  cap_source_event_ids c = map ev_event_id (es_events segment)
  /\ (cap_covered_event_start c, cap_covered_event_end c) = (es_start_sequence segment, es_end_sequence segment)
  /\ capsule_quotes c = map sourced (extraction_quotes e).
Proof.
  intros Hv. unfold _capsule. intros (anchors & Han & Hc)%result_bind_ok. apply (anchors_validated _ _ _ _ Hv) in Han.
  destruct (head _) as [first|]; [|done]. destruct (last _) as [final|]; [|done].
  repeat (apply result_bind_ok in Hc as (? & ? & Hc)). injection Hc as <-.
  match goal with HM : model _ = Ok _ |- _ => unfold model in HM; destruct (construct _ _) eqn:Hk; [|done];
    apply construct_ok in Hk as [_ <-]; injection HM as <- end.
  split; [done|]. split; [done|]. unfold capsule_quotes, with_token_cost, extraction_quotes, span_groups, claim_quotes.
  cbn [cap_goals cap_constraints cap_decisions cap_progress cap_open_loops cap_preferences cap_entities cap_emotional_context cap_exact_anchors].
  repeat match goal with HM : map_result (_claim _) _ = Ok _ |- _ => rewrite (quote_of _ _ _ _ _ (claim_quoted _) HM); clear HM end.
  match goal with HM : map_result _decision _ = Ok _ |- _ => rewrite (quotes_of _ _ _ _ _ _ _ decision_ok HM); clear HM end.
  match goal with HM : map_result _entity _ = Ok _ |- _ => rewrite (quotes_of _ _ (fun c => en_canonical_name c :: en_aliases c) _ _ _ _ entity_ok HM); clear HM end.
  rewrite (quote_of _ _ _ _ _ anchor_ok Han). rewrite !map_app, !sourced_quotes. cbn [concat]. rewrite !map_app, !map_map, <- !app_assoc.
  done.
Qed.
Lemma capsule_verbatim compatibility_counter segment e contents c : NoDup (map ev_event_id (es_events segment)) ->
  _validate_extraction e segment = Ok contents -> _capsule compatibility_counter segment e contents = Ok c -> verbatim_capsule segment c.
Proof.
  intros Hnd Hv Hc. destruct (capsule_ok _ _ _ _ _ Hv Hc) as (Hids & Hrange & Hq). pose proof (validate_ok _ _ _ Hv) as (-> & Hquoted & Hsel).
  split; [done|]. split; [done|]. rewrite Hq. split.
  - intros sources quote ((id & quote') & [= -> ->] & Hin)%list_elem_of_fmap.
    apply Hquoted in Hin as (event & He & <- & Ho). by exists event.
  - intros event He Hne. apply (Hsel _ _ (event_in_contents _ _ Hnd He)) in Hne as (quote & Hin)%selected_quoted.
    exists quote. apply list_elem_of_fmap. by exists (ev_event_id event, quote).
Qed.
End capsule.

Section compiled.
Context `{Sha256} `{FloatRepr} `{ExtractionModel} `{UnicodeCategories}.
Variable compatibility_counter : TokenCounter.
Variable generator : nat -> string -> string -> string -> generated.
Variables (mapper : option (string -> mapper_outcome)) (counter_provider : TokenizerProfile -> provided).
Lemma compile_segments_verbatim binding segments : forall call capsules,
  NoDup (map ev_event_id (flat_map es_events segments)) ->
  compile_segments compatibility_counter generator binding call segments = Ok capsules -> Forall2 verbatim_capsule segments capsules.
Proof.
  induction segments as [|segment segments IH]; intros call capsules Hnd Hc; cbn [compile_segments] in Hc; [injection Hc as <-; constructor|].
  cbn [flat_map] in Hnd. rewrite map_app in Hnd. apply NoDup_app in Hnd as (Hnd & _ & Hnd').
  apply result_bind_ok in Hc as (capsule & Hone & Hc). apply result_bind_ok in Hc as (rest & Hrest & [= <-]).
  constructor; [|by eapply IH]. unfold compile_segment in Hone. apply result_bind_ok in Hone as (prompt & _ & Hone).
  destruct (generator _ _ _ _) as [raw|]; [|done]. apply result_bind_ok in Hone as (e & _ & Hone).
  apply result_bind_ok in Hone as (contents & Hv & Hone). by eapply capsule_verbatim.
Qed.

(** C14. A compiled Capsule is extractive: whatever the model answers, the
    backend's new Capsules cover the source events segment by segment in order,
    every claim, decision, rationale, alternative, entity name, alias and
    anchor of a Capsule is non-empty text that occurs verbatim in the content
    of the one event it names, that event belongs to the Capsule's own
    segment, and every event with content is quoted at least once; the base
    Capsules are kept as they are. *)
Theorem compiled_capsules_verbatim binding request output :
  compile_with compatibility_counter generator mapper counter_provider binding request = Ok output ->
  NoDup (map ev_event_id (cq_source_events request)) ->
  exists fitted new, co_fitted_segments output = Some fitted /\ flat_map es_events fitted = cq_source_events request
    /\ co_capsules output = cq_base_capsules request ++ new /\ Forall2 verbatim_capsule fitted new.
Proof.
  unfold compile_with. intros ([fitted provenance] & Hfit & Hc)%result_bind_ok Hnd. apply result_bind_ok in Hc as (new & Hnew & Hc).
  apply raise_if_ok in Hc as [_ [= <-]]. cbn [fst] in *. apply preflight_events in Hfit. exists fitted, new.
  split_and!; [done..|]. eapply compile_segments_verbatim; [|exact Hnew]. by rewrite Hfit.
Qed.
End compiled.

(** ** A run *)

#[local] Instance toy_identity_digest : Sha256 := fun _ => "d".
#[local] Instance toy_no_floats : FloatRepr := fun _ => [].
Definition toy_span (id quote : string) : _Span := {| sp_event_id := id; sp_quote := quote; sp_confidence := f_one |}.
(** An answer for two messages: a goal, and a decision with an alternative. *)
Definition toy_extraction : _SegmentExtraction :=
  {| ex_acknowledged_event_ids := ["a"; "b"]; ex_goals := [toy_span "a" "ship it"]; ex_constraints := [];
     ex_decisions := [{| ds_span := toy_span "b" "use Rust"; ds_rationale := ""; ds_alternatives := ["not Go"]; ds_rejected_because := "" |}];
     ex_progress := []; ex_open_loops := []; ex_preferences := []; ex_entities := []; ex_emotional_context := []; ex_anchors := [] |}.
Definition toy_messages : list EventEnvelope :=
  [demo_event "a" 1 USER_MESSAGE "please ship it today"; demo_event "b" 2 ASSISTANT_MESSAGE "I use Rust, not Go"].
Definition toy_compilation : CompilationRequest :=
  {| cq_base_snapshot := None; cq_base_capsules := []; cq_source_events := toy_messages; cq_segments := [];
     cq_target_high_water_mark := 2; cq_token_ceiling := 1000; cq_canonical_event_token_counts := list_to_map [("a", 4); ("b", 5)];
     cq_provider_binding := None; cq_provider_binding_captured := false |}.
Definition toy_binding : CompactionProviderBinding :=
  {| pb_provider_id := "p"; pb_model_identity := None; pb_context_limit := 1000; pb_context_limit_source := MANUAL |}.
(** Every text costs one token; the model's answer is the extraction or another one. *)
Definition toy_compiled_with (e : _SegmentExtraction) : result extractive_error CompilerOutput :=
  compile_with (H1 := fun _ => Some e) (H2 := fun _ => false) (fun _ => Counted 1) (fun _ _ _ _ => Generated (Some "{}")) None
    (fun profile => Provided {| ct_profile := Some profile; ct_count_text := fun _ => Counted 1 |}) toy_binding toy_compilation.
Definition toy_capsule_texts (r : result extractive_error CompilerOutput) : result extractive_error (list (list (list string * string))) :=
  output ← r; Ok (map capsule_quotes (co_capsules output)).
(** A paraphrase, and an event passed over, are refused. *)
Definition toy_paraphrase : _SegmentExtraction :=
  {| ex_acknowledged_event_ids := ["a"; "b"]; ex_goals := [toy_span "a" "shipping today"]; ex_constraints := []; ex_decisions := [];
     ex_progress := [toy_span "b" "use Rust"]; ex_open_loops := []; ex_preferences := []; ex_entities := []; ex_emotional_context := [];
     ex_anchors := [] |}.
Definition toy_silent : _SegmentExtraction :=
  {| ex_acknowledged_event_ids := ["a"; "b"]; ex_goals := [toy_span "a" "ship it"]; ex_constraints := []; ex_decisions := [];
     ex_progress := []; ex_open_loops := []; ex_preferences := []; ex_entities := []; ex_emotional_context := []; ex_anchors := [] |}.
Example extraction_runs :
  toy_capsule_texts (toy_compiled_with toy_extraction) = Ok [[(["a"], "ship it"); (["b"], "use Rust"); (["b"], "not Go")]]
  /\ toy_capsule_texts (toy_compiled_with toy_paraphrase) = Err (ExtractiveCompilerError "EXTRACTIVE_QUOTE_NOT_FOUND")
  /\ toy_capsule_texts (toy_compiled_with toy_silent) = Err (ExtractiveCompilerError "EXTRACTIVE_EVENT_SELECTION_MISSING").
Proof. vm_compute. split_and!; reflexivity. Qed.
Lemma compiled_capsules_verbatim_witness : exists output fitted new, toy_compiled_with toy_extraction = Ok output
  /\ co_capsules output = new /\ Forall2 verbatim_capsule fitted new.
Proof.
  destruct (toy_compiled_with toy_extraction) as [output|] eqn:Ho; [|vm_compute in Ho; discriminate Ho].
  destruct (compiled_capsules_verbatim (H1 := fun _ => Some toy_extraction) (H2 := fun _ => false) _ _ _ _ _ _ _ Ho) as (fitted & new & _ & _ & Hc & Hv).
  - apply (bool_decide_unpack _). reflexivity.
  - exists output, fitted, new. split; [reflexivity|]. split; [exact Hc|exact Hv].
Defined.
