(* ===== verification/Auditor.v ===== *)
(** The semantic auditor of [compaction/auditor.py]: which candidates may be
    audited, what an audit backend may answer, and what the answer does to the
    candidate. *)
From S2P Require Import Prelude PyString PyFloat Domain Validation PyJson Crypto Store ToolLoop.
From S2P Require Import Segmenter Jobs Views Compiler.
From Stdlib Require Import Ascii.
Open Scope string_scope.
Open Scope list_scope.
Open Scope Z_scope.

Inductive SemanticAuditErrorCode :=
| MECHANICAL_INVALID | STRICT_AUDIT_INVALID | BACKEND_REQUIRED | AUDIT_BACKEND_FAILURE
| AUDIT_BACKEND_OUTPUT_INVALID | SEMANTIC_REJECTED.
#[export] Instance SemanticAuditErrorCode_eq_dec : EqDecision SemanticAuditErrorCode.
Proof. solve_decision. Defined.

Record SemanticAuditReport := { sa_passed : bool; sa_failure_codes : list string }.
Record SemanticAuditRequest := {
  sq_snapshot : SnapshotEnvelope; sq_capsules : list ContextCapsuleEnvelope;
  sq_segments : list EventSegment; sq_permanent_report : PermanentValidationReport;
}.
Record AuditedCandidate := {
  ac_snapshot : SnapshotEnvelope; ac_memberships : list SnapshotCapsuleMembership;
  ac_segments : list EventSegment; ac_permanent_report : PermanentValidationReport;
  ac_semantic_report : option SemanticAuditReport;
}.
Inductive audit_error :=
| SemanticAuditInvariantError (code : SemanticAuditErrorCode) (failed_candidate : option AuditedCandidate)
| AuditModelError.

(** What awaiting [backend.audit(request)] ends with. *)
Inductive audit_outcome := Reported (report : SemanticAuditReport) | NotAReport | AuditRaised.

Definition _MAX_FAILURE_CODES : Z := 32.
Definition is_upper (c : ascii) : bool := ((65 <=? N_of_ascii c) && (N_of_ascii c <=? 90))%N.
(** [re.compile(r"[A-Z][A-Z0-9_]{0,63}").fullmatch(code)] *)
Definition failure_code_matches (code : string) : bool :=
  match String.list_ascii_of_string code with
  | [] => false
  | c :: rest => is_upper c
      && forallb (fun c => is_upper c || is_digit c || Ascii.eqb c "_"%char) rest && (len rest <=? 63)
  end.

(** [_is_mechanically_eligible], on a candidate whose fields have their types. *)
Definition _is_mechanically_eligible (candidate : CompilationCandidate) : bool :=
  let report := cc_permanent_report candidate in
  let snapshot := cc_snapshot candidate in
  let outcome := sn_audit_outcome snapshot in
  rp_passed report && eqb_of (rp_failure_codes report) []
  && (rp_source_coverage report ==? f_one) && (rp_anchor_recall report ==? f_one)
  && (rp_coverage_gap report =? 0) && (rp_unsupported_critical_claims report =? 0)
  && eqb_of (sn_state snapshot) CANDIDATE && ao_mechanical_passed outcome
  && eqb_of (ao_semantic_status outcome) AUDIT_NOT_RUN && eqb_of (ao_failure_codes outcome) [].

Definition _is_valid_backend_report (report : SemanticAuditReport) : bool :=
  negb (_MAX_FAILURE_CODES <? len (sa_failure_codes report))
  && Bool.eqb (sa_passed report) (negb (nonempty (sa_failure_codes report)))
  && no_duplicates (sa_failure_codes report)
  && forallb failure_code_matches (sa_failure_codes report).

(** [snapshot.model_copy(update={"audit_outcome": ...})] *)
Definition with_audit_outcome (outcome : SnapshotAuditOutcome) (s : SnapshotEnvelope) : SnapshotEnvelope :=
  {| sn_snapshot_id := sn_snapshot_id s; sn_session_key := sn_session_key s;
     sn_base_snapshot_id := sn_base_snapshot_id s; sn_covered_event_end := sn_covered_event_end s;
     sn_source_high_water_mark := sn_source_high_water_mark s; sn_capsule_ids := sn_capsule_ids s;
     sn_exact_anchor_ids := sn_exact_anchor_ids s; sn_rendered_context := sn_rendered_context s;
     sn_token_cost := sn_token_cost s; sn_audit_outcome := outcome; sn_state := sn_state s;
     sn_created_at := sn_created_at s; sn_committed_at := sn_committed_at s |}.
Definition _snapshot_with_semantic_result (snapshot : SnapshotEnvelope) (status : SemanticAuditStatus)
    (failure_codes : list string) : result audit_error SnapshotEnvelope :=
  match construct SnapshotAuditOutcome_valid
          {| ao_mechanical_passed := true; ao_semantic_status := status; ao_failure_codes := failure_codes |} with
  | Ok outcome => Ok (with_audit_outcome outcome snapshot)
  | Err _ => Err AuditModelError
  end.

Definition _build_audited_candidate (candidate : CompilationCandidate) (snapshot : SnapshotEnvelope)
    (semantic_report : option SemanticAuditReport) : AuditedCandidate :=
  {| ac_snapshot := snapshot; ac_memberships := cc_memberships candidate; ac_segments := cc_segments candidate;
     ac_permanent_report := cc_permanent_report candidate; ac_semantic_report := semantic_report |}.

Definition audit_invariant (code : SemanticAuditErrorCode) : audit_error := SemanticAuditInvariantError code None.
Definition audit_semantic (candidate : CompilationCandidate) (strict_audit : bool)
    (backend : option (SemanticAuditRequest -> audit_outcome)) : result audit_error AuditedCandidate :=
  raise (audit_invariant MECHANICAL_INVALID) when negb (_is_mechanically_eligible candidate);;
  if negb strict_audit then Ok (_build_audited_candidate candidate (cc_snapshot candidate) None) else
  match backend with
  | None => Err (audit_invariant BACKEND_REQUIRED)
  | Some backend =>
      match backend {| sq_snapshot := cc_snapshot candidate; sq_capsules := map ms_capsule (cc_memberships candidate);
                       sq_segments := cc_segments candidate; sq_permanent_report := cc_permanent_report candidate |} with
      | AuditRaised => Err (audit_invariant AUDIT_BACKEND_FAILURE)
      | NotAReport => Err (audit_invariant AUDIT_BACKEND_OUTPUT_INVALID)
      | Reported report =>
          raise (audit_invariant AUDIT_BACKEND_OUTPUT_INVALID) when negb (_is_valid_backend_report report);;
          if sa_passed report then
            snapshot ← _snapshot_with_semantic_result (cc_snapshot candidate) AUDIT_PASSED [];
            Ok (_build_audited_candidate candidate snapshot (Some report))
          else
            snapshot ← _snapshot_with_semantic_result (cc_snapshot candidate) AUDIT_FAILED (sa_failure_codes report);
            Err (SemanticAuditInvariantError SEMANTIC_REJECTED
                   (Some (_build_audited_candidate candidate snapshot (Some report))))
      end
  end.

(** ** Lemmas *)

Lemma failure_code_nonempty code : failure_code_matches code = true -> NonEmptyStr code = true.
Proof. by destruct code. Qed.
(** A report the auditor accepts always makes a valid audit outcome. *)
Lemma semantic_result_run snapshot status codes :
  no_duplicates codes = true -> forallb failure_code_matches codes = true ->
  _snapshot_with_semantic_result snapshot status codes
  = Ok (with_audit_outcome {| ao_mechanical_passed := true; ao_semantic_status := status;
                              ao_failure_codes := codes |} snapshot).
Proof.
  intros Hn Hm. unfold _snapshot_with_semantic_result, construct.
  rewrite raise_if_false; [done|]. apply negb_false_iff, andb_true_iff. cbn. split.
  - apply forallb_true_iff. intros c Hc. apply failure_code_nonempty. revert c Hc. by apply forallb_true_iff.
  - apply (ensure_unique_spec (A:=string)). unfold no_duplicates in Hn. by bool_hyps.
Qed.
