(* ===== verification/Reorganize.v ===== *)
(** [reorganize_capsules] of [reorganization.py]: several Capsules folded into
    one under a token budget.  Exact anchors and dependencies are copied in
    full or the operation fails; every other item is kept, shortened by a
    binary search, or released; every item leaves a record. *)
From S2P Require Import Prelude PyString PyFloat Domain Validation PyJson Crypto Store Records.
From S2P Require Import ToolLoop Segmenter Budget Compiler.
From Stdlib Require Import Ascii.
Open Scope string_scope.
Open Scope list_scope.
Open Scope Z_scope.

(** ** Items *)

(** The five item models, each under the type that [isinstance] asks for. *)
Inductive Item :=
| ItemClaim (c : CapsuleClaim)
| ItemDecision (d : Decision_)
| ItemEntity (e : Entity)
| ItemAnchor (a : CapsuleAnchor)
| ItemDependency (d : Dependency).
(** Models of different classes are never equal. *)
#[export] Instance Item_py_eq : PyEq Item := fun x y =>
  match x, y with
  | ItemClaim a, ItemClaim b => a ==? b
  | ItemDecision a, ItemDecision b => a ==? b
  | ItemEntity a, ItemEntity b => a ==? b
  | ItemAnchor a, ItemAnchor b => a ==? b
  | ItemDependency a, ItemDependency b => a ==? b
  | _, _ => false
  end.
(** [_item_id] *)
Definition _item_id (item : Item) : string :=
  match item with
  | ItemClaim c => cl_claim_id c
  | ItemDecision d => de_decision_id d
  | ItemEntity e => en_entity_id e
  | ItemAnchor a => an_anchor_id a
  | ItemDependency d => dp_dependency_id d
  end.
Definition item_source_event_ids (item : Item) : list string :=
  match item with
  | ItemClaim c => cl_source_event_ids c
  | ItemDecision d => de_source_event_ids d
  | ItemEntity e => en_source_event_ids e
  | ItemAnchor a => an_source_event_ids a
  | ItemDependency d => dp_source_event_ids d
  end.
(** [item.model_dump(mode="json")] *)
Class ItemDump := item_model_dump : Item -> list (string * json).

(** The ten list fields of a Capsule. *)
Inductive Field :=
| GOALS | CONSTRAINTS | DECISIONS | PROGRESS | OPEN_LOOPS | PREFERENCES | ENTITIES | EMOTIONAL_CONTEXT
| EXACT_ANCHORS | DEPENDENCIES.
#[export] Instance Field_eq_dec : EqDecision Field.
Proof. solve_decision. Defined.
Definition all_fields : list Field :=
  [GOALS; CONSTRAINTS; DECISIONS; PROGRESS; OPEN_LOOPS; PREFERENCES; ENTITIES; EMOTIONAL_CONTEXT;
   EXACT_ANCHORS; DEPENDENCIES].
(** [getattr(capsule, field_name)] *)
Definition field_items (capsule : ContextCapsuleEnvelope) (field : Field) : list Item :=
  match field with
  | GOALS => map ItemClaim (cap_goals capsule)
  | CONSTRAINTS => map ItemClaim (cap_constraints capsule)
  | DECISIONS => map ItemDecision (cap_decisions capsule)
  | PROGRESS => map ItemClaim (cap_progress capsule)
  | OPEN_LOOPS => map ItemClaim (cap_open_loops capsule)
  | PREFERENCES => map ItemClaim (cap_preferences capsule)
  | ENTITIES => map ItemEntity (cap_entities capsule)
  | EMOTIONAL_CONTEXT => map ItemClaim (cap_emotional_context capsule)
  | EXACT_ANCHORS => map ItemAnchor (cap_exact_anchors capsule)
  | DEPENDENCIES => map ItemDependency (cap_dependencies capsule)
  end.
(** The kind the records name a field's items by. *)
Definition field_kind (field : Field) : string :=
  match field with
  | GOALS => "goal" | CONSTRAINTS => "constraint" | DECISIONS => "decision" | PROGRESS => "progress"
  | OPEN_LOOPS => "open_loop" | PREFERENCES => "preference" | ENTITIES => "entity"
  | EMOTIONAL_CONTEXT => "emotional_context" | EXACT_ANCHORS => "exact_anchor" | DEPENDENCIES => "dependency"
  end.
Definition core_fields : list Field := [EXACT_ANCHORS; DEPENDENCIES].
Definition optional_fields : list Field :=
  [GOALS; CONSTRAINTS; DECISIONS; PROGRESS; OPEN_LOOPS; PREFERENCES; ENTITIES; EMOTIONAL_CONTEXT].

(** The [selected] dictionary. *)
Definition Selected := Field -> list Item.
Definition select_nothing : Selected := fun _ => [].
(** [selected[field_name].append(item)] *)
Definition select_item (field : Field) (item : Item) (selected : Selected) : Selected :=
  fun f => if bool_decide (f = field) then selected f ++ [item] else selected f.

(** ** Errors and counting *)

Inductive reorganize_error :=
| ReorganizationBudgetError (required_tokens budget : Z)
| ReorganizationConflict           (* ReorganizationInvariantError *)
| ReorganizeValueError             (* ValueError, and pydantic's ValidationError below it *)
| SearchUnbounded.                 (* StopIteration, or a search that outlives its fuel; proved unreachable *)

(** [_count_text] *)
Definition reorg_count (counter : TokenCounter) (text : string) : result reorganize_error Z :=
  match counter text with
  | Counted n => raise ReorganizeValueError when n <? 0;; Ok n
  | _ => Err ReorganizeValueError
  end.
Definition reorg_json `{FloatRepr} (value : json) : result reorganize_error string :=
  match _canonical_json value with Some s => Ok s | None => Err ReorganizeValueError end.

(** [_truncate]; the mark is U+2026. *)
Definition ellipsis : string := String (ascii_of_N 226) (String (ascii_of_N 128) (String (ascii_of_N 166) EmptyString)).
Definition _truncate (text : string) (max_chars : Z) : string :=
  if py_len text <=? max_chars then text else
  if max_chars <=? 1 then take_chars 1 text else
  take_chars (Z.to_nat (max_chars - 1)) text +:+ ellipsis.

Definition _BASE_OVERHEAD_TOKENS : Z := 8.
Definition _MIN_APPROXIMATE_CHARS : Z := 8.
(** [_approximate_item]: [model_copy] does not validate. *)
Definition _approximate_item (item : Item) (max_chars : Z) : option Item :=
  if max_chars <? _MIN_APPROXIMATE_CHARS then None else
  let cut text := _truncate text max_chars in
  match item with
  | ItemClaim c => Some (ItemClaim
      {| cl_claim_id := cl_claim_id c; cl_text := cut (cl_text c); cl_status := cl_status c;
         cl_confidence := cl_confidence c; cl_source_event_ids := cl_source_event_ids c |})
  | ItemDecision d => Some (ItemDecision
      {| de_decision_id := de_decision_id d; de_text := cut (de_text d); de_status := de_status d;
         de_confidence := de_confidence d; de_source_event_ids := de_source_event_ids d;
         de_rationale := cut (de_rationale d); de_alternatives := map cut (de_alternatives d);
         de_supersedes := map cut (de_supersedes d); de_rejected_because := cut (de_rejected_because d) |})
  | ItemEntity e => Some (ItemEntity
      {| en_entity_id := en_entity_id e; en_kind := cut (en_kind e); en_canonical_name := cut (en_canonical_name e);
         en_aliases := map cut (en_aliases e); en_source_event_ids := en_source_event_ids e |})
  | _ => None
  end.
(** The longest of [text], [rationale] and [canonical_name], where the item has them. *)
Definition approximate_length (item : Item) : Z :=
  match item with
  | ItemClaim c => py_len (cl_text c)
  | ItemDecision d => Z.max (py_len (de_text d)) (py_len (de_rationale d))
  | ItemEntity e => py_len (en_canonical_name e)
  | _ => 0
  end.

(** ** The capsule that is built *)

Definition level_order (l : CapsuleLevel) : Z :=
  match l with LEVEL_MICRO => 0 | LEVEL_EPISODE => 1 | LEVEL_TASK => 2 | LEVEL_GLOBAL => 3 end.
(** [max(l, key=...)] of a non-empty sequence: the first of the greatest. *)
Definition max_by {A} (key : A -> Z) (first : A) (rest : list A) : A :=
  foldl (fun best x => if key best <? key x then x else best) first rest.
(** [tuple(sorted({...}))] *)
Definition sorted_set (l : list string) : list string := py_sorted str_ltb (remove_dups l).

Definition as_claim (i : Item) : option CapsuleClaim := match i with ItemClaim c => Some c | _ => None end.
Definition as_decision (i : Item) : option Decision_ := match i with ItemDecision d => Some d | _ => None end.
Definition as_entity (i : Item) : option Entity := match i with ItemEntity e => Some e | _ => None end.
Definition as_anchor (i : Item) : option CapsuleAnchor := match i with ItemAnchor a => Some a | _ => None end.
Definition as_dependency (i : Item) : option Dependency := match i with ItemDependency d => Some d | _ => None end.

Definition released (r : ReorganizationRecord) : bool := eqb_of (ro_status r) RELEASED.
Definition status_value (s : ReorganizationStatus) : string :=
  match s with RETAINED => "retained" | APPROXIMATE => "approximate" | RELEASED => "released" end.

Section reorganize.
Context `{Sha256, FloatRepr, ModelDump, ItemDump}.

(** [f"{kind}:{item_id}:{status}:{after_tokens}"] *)
Definition record_text (r : ReorganizationRecord) : result reorganize_error string :=
  match str_int (ro_after_tokens r) with
  | None => Err ReorganizeValueError
  | Some after => Ok (ro_kind r +:+ ":" +:+ ro_item_id r +:+ ":" +:+ status_value (ro_status r) +:+ ":" +:+ after)
  end.
(** [_new_capsule_id] *)
Definition _new_capsule_id (capsules : list ContextCapsuleEnvelope) (token_budget : Z)
    (records : list ReorganizationRecord) : result reorganize_error string :=
  budget ← (match str_int token_budget with Some s => Ok s | None => Err ReorganizeValueError end);
  dumped ← reorg_json (JArr (map (fun item => JObj (capsule_model_dump item)) capsules));
  texts ← map_result record_text records;
  let payload := py_join "|" (budget :: dumped :: texts) in
  raise ReorganizeValueError when negb (utf8_valid payload);;
  Ok ("reorg-" +:+ String.substring 0 24 (sha256_hexdigest payload)).

(** [_capsule_surface]: the dump without its [token_cost]. *)
Definition _capsule_surface (capsule : ContextCapsuleEnvelope) : result reorganize_error string :=
  reorg_json (JObj (List.filter (fun p => p.1 !=? "token_cost") (capsule_model_dump capsule))).
Definition _item_tokens (counter : TokenCounter) (item : Item) : result reorganize_error Z :=
  surface ← reorg_json (JObj (item_model_dump item));
  reorg_count counter surface.

Definition source_coverage_of (capsules : list ContextCapsuleEnvelope) (selected : Selected) : float :=
  let all := sorted_set (flat_map cap_source_event_ids capsules) in
  let represented := remove_dups (flat_map (fun f => flat_map item_source_event_ids (selected f)) all_fields) in
  if nonempty all then f_min f_one (f_div_Z (len represented) (len all)) else f_one.

(** The envelope of [_build_capsule], before pydantic validates it. *)
Definition capsule_of (capsule_id : string) (first : ContextCapsuleEnvelope) (rest : list ContextCapsuleEnvelope)
    (selected : Selected) (records : list ReorganizationRecord) : ContextCapsuleEnvelope :=
  let capsules := first :: rest in
  {| cap_capsule_id := capsule_id; cap_schema_version := "2.1.0";
     cap_level := max_by level_order (cap_level first) (map cap_level rest);
     cap_session_key := cap_session_key first;
     cap_covered_event_start := foldl Z.min (cap_covered_event_start first) (map cap_covered_event_start rest);
     cap_covered_event_end := foldl Z.max (cap_covered_event_end first) (map cap_covered_event_end rest);
     cap_source_event_ids := sorted_set (flat_map cap_source_event_ids capsules);
     cap_goals := omap as_claim (selected GOALS); cap_constraints := omap as_claim (selected CONSTRAINTS);
     cap_decisions := omap as_decision (selected DECISIONS); cap_progress := omap as_claim (selected PROGRESS);
     cap_open_loops := omap as_claim (selected OPEN_LOOPS); cap_preferences := omap as_claim (selected PREFERENCES);
     cap_entities := omap as_entity (selected ENTITIES);
     cap_emotional_context := omap as_claim (selected EMOTIONAL_CONTEXT);
     cap_exact_anchors := omap as_anchor (selected EXACT_ANCHORS);
     cap_dependencies := omap as_dependency (selected DEPENDENCIES);
     cap_narrative_summary := "reorganized capsule"; cap_token_cost := 0;
     cap_quality := {| q_mechanical_passed := true; q_source_coverage := source_coverage_of capsules selected;
       q_anchor_recall := f_one; q_unsupported_critical_claims := 0;
       q_coverage_gap := len (List.filter (fun r => released r && (ro_kind r !=? "narrative_summary")) records) |};
     cap_created_at := foldl Z.max (cap_created_at first) (map cap_created_at rest) |}.
(** What pydantic checks of it: the fields and the uniqueness of the lists,
    but not the items, which are instances of their models already. *)
Definition built_valid (c : ContextCapsuleEnvelope) : bool :=
  NonEmptyStr (cap_capsule_id c) && NonEmptyStr (cap_schema_version c)
  && PositiveInt (cap_covered_event_start c) && PositiveInt (cap_covered_event_end c)
  && source_ids_valid (cap_source_event_ids c) && capsule_lists_unique c
  && NonEmptyStr (cap_narrative_summary c) && NonNegativeInt (cap_token_cost c)
  && CapsuleQuality_valid (cap_quality c) && negb (cap_covered_event_end c <? cap_covered_event_start c).

Definition _build_capsule (capsules : list ContextCapsuleEnvelope) (selected : Selected)
    (records : list ReorganizationRecord) (token_budget : Z) : result reorganize_error ContextCapsuleEnvelope :=
  match capsules with
  | [] => Err ReorganizeValueError
  | first :: rest =>
      capsule_id ← _new_capsule_id capsules token_budget records;
      let built := capsule_of capsule_id first rest selected records in
      raise ReorganizeValueError when negb (built_valid built);;
      Ok built
  end.

Definition _provisional_after_tokens (capsules : list ContextCapsuleEnvelope) (selected : Selected)
    (records : list ReorganizationRecord) (token_budget : Z) (counter : TokenCounter) : result reorganize_error Z :=
  provisional ← _build_capsule capsules selected records token_budget;
  surface ← _capsule_surface provisional;
  reorg_count counter surface.

(** ** Shortening an item *)

(** The first capsule whose field has an item of that id. *)
Definition source_capsule (capsules : list ContextCapsuleEnvelope) (field : Field) (item_id : string) : option string :=
  cap_capsule_id <$> List.find (fun c => existsb (fun i => item_id ==? _item_id i) (field_items c field)) capsules.

(** The [while low <= high] loop; [None] when the fuel ran out.  Every turn
    shrinks the range, so its length is fuel enough. *)
Fixpoint fit_loop (fuel : nat) (try_fit : Item -> Z -> result reorganize_error bool) (item : Item)
    (counter : TokenCounter) (low high : Z) (best : option (Item * Z)) : option (result reorganize_error (option (Item * Z))) :=
  match fuel with
  | O => None
  | S fuel =>
      if high <? low then Some (Ok best) else
      let candidate_chars := (low + high) / 2 in
      match _approximate_item item candidate_chars with
      | None => fit_loop fuel try_fit item counter low (candidate_chars - 1) best
      | Some candidate =>
          if candidate ==? item then fit_loop fuel try_fit item counter low (candidate_chars - 1) best else
          match (after_tokens ← _item_tokens counter candidate;
                 fits ← try_fit candidate after_tokens;
                 Ok (after_tokens, fits)) with
          | Err e => Some (Err e)
          | Ok (after_tokens, true) =>
              fit_loop fuel try_fit item counter (candidate_chars + 1) high (Some (candidate, after_tokens))
          | Ok (_, false) => fit_loop fuel try_fit item counter low (candidate_chars - 1) best
          end
      end
  end.
Definition approximate_record (kind item_id source_capsule_id : string) (before_tokens after_tokens : Z) : ReorganizationRecord :=
  {| ro_kind := kind; ro_item_id := item_id; ro_source_capsule_id := source_capsule_id; ro_status := APPROXIMATE;
     ro_before_tokens := before_tokens; ro_after_tokens := after_tokens; ro_required := false |}.
(** Whether the capsule with the candidate in it stays within the budget. *)
Definition candidate_fits (item : Item) (field : Field) (selected : Selected) (records : list ReorganizationRecord)
    (capsules : list ContextCapsuleEnvelope) (token_budget : Z) (counter : TokenCounter) (source_capsule_id : string)
    (candidate : Item) (after_tokens : Z) : result reorganize_error bool :=
  before_tokens ← _item_tokens counter item;
  candidate_tokens ← _provisional_after_tokens capsules (select_item field candidate selected)
    (records ++ [approximate_record (field_kind field) (_item_id item) source_capsule_id before_tokens after_tokens])
    token_budget counter;
  Ok (candidate_tokens <=? token_budget).
(** [_fit_approximate_item] *)
Definition _fit_approximate_item (item : Item) (field : Field) (selected : Selected)
    (records : list ReorganizationRecord) (capsules : list ContextCapsuleEnvelope) (token_budget : Z)
    (counter : TokenCounter) : result reorganize_error (option (Item * Z)) :=
  match source_capsule capsules field (_item_id item) with
  | None => Err SearchUnbounded
  | Some source_capsule_id =>
      let high := approximate_length item - 1 in
      let try_fit := candidate_fits item field selected records capsules token_budget counter source_capsule_id in
      match fit_loop (S (Z.to_nat (high - _MIN_APPROXIMATE_CHARS + 1))) try_fit item counter
              _MIN_APPROXIMATE_CHARS high None with
      | Some r => r
      | None => Err SearchUnbounded
      end
  end.

(** ** The operation *)

(** What the loops carry: [selected], [records] and [seen]. *)
Record Planning := {
  pl_selected : Selected; pl_records : list ReorganizationRecord; pl_seen : list (string * string * Item);
}.
Definition no_plan : Planning := {| pl_selected := select_nothing; pl_records := []; pl_seen := [] |}.
(** [seen.get((kind, item_id))] *)
Definition seen_item (kind item_id : string) (plan : Planning) : option Item :=
  snd <$> List.find (fun e => (e.1.1 ==? kind) && (e.1.2 ==? item_id)) (pl_seen plan).
(** An item under its identity: met before with the same value, or with another, or new. *)
Definition meet (field : Field) (item : Item) (plan : Planning) : result reorganize_error (option Planning) :=
  match seen_item (field_kind field) (_item_id item) plan with
  | Some known => raise ReorganizationConflict when known !=? item;; Ok None
  | None => Ok (Some {| pl_selected := pl_selected plan; pl_records := pl_records plan;
                        pl_seen := pl_seen plan ++ [(field_kind field, _item_id item, item)] |})
  end.
Definition item_record (field : Field) (item : Item) (source_capsule_id : string) (status : ReorganizationStatus)
    (before_tokens after_tokens : Z) (required : bool) : ReorganizationRecord :=
  {| ro_kind := field_kind field; ro_item_id := _item_id item; ro_source_capsule_id := source_capsule_id;
     ro_status := status; ro_before_tokens := before_tokens; ro_after_tokens := after_tokens; ro_required := required |}.
Definition plan_with (field : Field) (selected : option Item) (r : ReorganizationRecord) (plan : Planning) : Planning :=
  {| pl_selected := match selected with Some item => select_item field item (pl_selected plan) | None => pl_selected plan end;
     pl_records := pl_records plan ++ [r]; pl_seen := pl_seen plan |}.

(** One core item: copied as it is. *)
Definition core_step (counter : TokenCounter) (plan : Planning) (x : ContextCapsuleEnvelope * Field * Item)
    : result reorganize_error Planning :=
  let '(capsule, field, item) := x in
  met ← meet field item plan;
  match met with
  | None => Ok plan
  | Some plan =>
      item_tokens ← _item_tokens counter item;
      Ok (plan_with field (Some item)
            (item_record field item (cap_capsule_id capsule) RETAINED item_tokens item_tokens true) plan)
  end.
(** The row of a capsule's summary. *)
Definition summary_step (counter : TokenCounter) (plan : Planning) (capsule : ContextCapsuleEnvelope)
    : result reorganize_error Planning :=
  text ← reorg_json (JObj [("narrative_summary", JStr (cap_narrative_summary capsule))]);
  before_tokens ← reorg_count counter text;
  Ok {| pl_selected := pl_selected plan; pl_seen := pl_seen plan;
        pl_records := pl_records plan ++
          [{| ro_kind := "narrative_summary"; ro_item_id := cap_capsule_id capsule +:+ ":narrative_summary";
              ro_source_capsule_id := cap_capsule_id capsule; ro_status := RELEASED; ro_before_tokens := before_tokens;
              ro_after_tokens := 0; ro_required := false |}] |}.
(** One optional item: kept if it fits, else its longest fitting approximation, else released. *)
Definition optional_step (ordered : list ContextCapsuleEnvelope) (token_budget : Z) (counter : TokenCounter)
    (plan : Planning) (x : ContextCapsuleEnvelope * Field * Item) : result reorganize_error Planning :=
  let '(capsule, field, item) := x in
  met ← meet field item plan;
  match met with
  | None => Ok plan
  | Some plan =>
      before_tokens ← _item_tokens counter item;
      let retained_record := item_record field item (cap_capsule_id capsule) RETAINED before_tokens before_tokens false in
      candidate_tokens ← _provisional_after_tokens ordered (select_item field item (pl_selected plan))
                           (pl_records plan ++ [retained_record]) token_budget counter;
      if candidate_tokens <=? token_budget then Ok (plan_with field (Some item) retained_record plan) else
      approximate ← _fit_approximate_item item field (pl_selected plan) (pl_records plan) ordered token_budget counter;
      match approximate with
      | Some (candidate, after_tokens) =>
          Ok (plan_with field (Some candidate)
                (item_record field item (cap_capsule_id capsule) APPROXIMATE before_tokens after_tokens false) plan)
      | None =>
          Ok (plan_with field None
                (item_record field item (cap_capsule_id capsule) RELEASED before_tokens 0 false) plan)
      end
  end.

(** The items of some fields, capsule by capsule and field by field. *)
Definition items_of (fields : list Field) (capsules : list ContextCapsuleEnvelope)
    : list (ContextCapsuleEnvelope * Field * Item) :=
  flat_map (fun c => flat_map (fun f => map (fun i => (c, f, i)) (field_items c f)) fields) capsules.

(** [_validate_inputs]: a capsule's items may cite only its own sources. *)
Definition reorganize_inputs_ok (capsules : list ContextCapsuleEnvelope) (token_budget : Z) : bool :=
  negb (token_budget <? 0) && nonempty capsules
  && forallb (fun c => forallb (fun f => forallb (fun i =>
       subset_of (item_source_event_ids i) (cap_source_event_ids c)) (field_items c f)) all_fields) capsules.

Record ReorganizationResult := {
  rr_capsule : ContextCapsuleEnvelope; rr_records : list ReorganizationRecord; rr_before_tokens : Z;
  rr_after_tokens : Z; rr_loss_count : Z; rr_release_count : Z;
}.
(** [capsule.model_copy(update={"token_cost": used_tokens})] *)
Definition with_token_cost (used_tokens : Z) (c : ContextCapsuleEnvelope) : ContextCapsuleEnvelope :=
  {| cap_capsule_id := cap_capsule_id c; cap_schema_version := cap_schema_version c; cap_level := cap_level c;
     cap_session_key := cap_session_key c; cap_covered_event_start := cap_covered_event_start c;
     cap_covered_event_end := cap_covered_event_end c; cap_source_event_ids := cap_source_event_ids c;
     cap_goals := cap_goals c; cap_constraints := cap_constraints c; cap_decisions := cap_decisions c;
     cap_progress := cap_progress c; cap_open_loops := cap_open_loops c; cap_preferences := cap_preferences c;
     cap_entities := cap_entities c; cap_emotional_context := cap_emotional_context c;
     cap_exact_anchors := cap_exact_anchors c; cap_dependencies := cap_dependencies c;
     cap_narrative_summary := cap_narrative_summary c; cap_token_cost := used_tokens; cap_quality := cap_quality c;
     cap_created_at := cap_created_at c |}.

(** [sorted(source, key=lambda item: item.capsule_id)] *)
Definition ordered_capsules (capsules : list ContextCapsuleEnvelope) : list ContextCapsuleEnvelope :=
  py_sorted (fun a b => str_ltb (cap_capsule_id a) (cap_capsule_id b)) capsules.
Definition count_surface (counter : TokenCounter) (c : ContextCapsuleEnvelope) : result reorganize_error Z :=
  surface ← _capsule_surface c; reorg_count counter surface.

(** The plan of the core items and summary rows, which must fit. *)
Definition core_plan (ordered : list ContextCapsuleEnvelope) (token_budget : Z) (counter : TokenCounter)
    : result reorganize_error Planning :=
  plan ← fold_result (core_step counter) (items_of core_fields ordered) no_plan;
  plan ← fold_result (summary_step counter) ordered plan;
  mandatory_tokens ← _provisional_after_tokens ordered (pl_selected plan) (pl_records plan) token_budget counter;
  raise (ReorganizationBudgetError mandatory_tokens token_budget) when token_budget <? mandatory_tokens;;
  Ok plan.

Definition reorganize_capsules (capsules : list ContextCapsuleEnvelope) (token_budget : Z) (counter : option TokenCounter)
    : result reorganize_error ReorganizationResult :=
  raise ReorganizeValueError when negb (reorganize_inputs_ok capsules token_budget);;
  let counter := default Utf8ByteTokenCounter counter in
  let ordered := ordered_capsules capsules in
  raise ReorganizeValueError when
    (match ordered with
     | [] => false
     | first :: rest => existsb (fun item => cap_session_key item !=? cap_session_key first) rest
     end);;
  before ← map_result (count_surface counter) ordered;
  plan ← core_plan ordered token_budget counter;
  plan ← fold_result (optional_step ordered token_budget counter) (items_of optional_fields ordered) plan;
  built ← _build_capsule ordered (pl_selected plan) (pl_records plan) token_budget;
  used_tokens ← count_surface counter built;
  raise (ReorganizationBudgetError used_tokens token_budget) when token_budget <? used_tokens;;
  Ok {| rr_capsule := with_token_cost used_tokens built; rr_records := pl_records plan;
        rr_before_tokens := sumZ id before; rr_after_tokens := used_tokens;
        rr_loss_count := len (List.filter (fun r => negb (eqb_of (ro_status r) RETAINED)) (pl_records plan));
        rr_release_count := len (List.filter released (pl_records plan)) |}.
End reorganize.

(** The properties of the result. *)
Definition retained_count (r : ReorganizationResult) : Z :=
  len (List.filter (fun x => eqb_of (ro_status x) RETAINED) (rr_records r)).
Definition approximate_count (r : ReorganizationResult) : Z :=
  len (List.filter (fun x => eqb_of (ro_status x) APPROXIMATE) (rr_records r)).
Definition compression_ratio (r : ReorganizationResult) : float :=
  if rr_before_tokens r =? 0 then f_one else f_div_Z (rr_after_tokens r) (rr_before_tokens r).
Definition reduction_ratio (r : ReorganizationResult) : float :=
  if rr_before_tokens r =? 0 then f_zero else f_sub f_one (compression_ratio r).
