(* ===== verification/Worker.v ===== *)
(** The durable compaction workers of [compaction/worker.py]: their
    configurations, the fenced worker with its lease heartbeat, the
    provider-bound runtime worker, the polling loop and the public facade.

    A worker runs against a store that others use between any two of its
    calls, on a clock it does not control, and a call may find the database
    locked or unreadable.  [Outside] gives these, indexed by the number of
    calls and clock readings made so far; everything a worker does is then a
    function of the world it starts in. *)
From S2P Require Import Prelude PyString PyFloat Domain Validation PyJson Crypto Store ToolLoop.
From S2P Require Import Segmenter Rendering Records TokenMetrics Journal Jobs Views Publish Backfill Budget.
From S2P Require Import Compiler Auditor.
From Stdlib Require Import SpecFloat.
Open Scope string_scope.
Open Scope list_scope.
Open Scope Z_scope.

(** ** Errors and the world *)

Inductive worker_error :=
| FromRepository (e : repo_error)
| OperationalError                 (* sqlite3.OperationalError *)
| FromCompiler (e : compiler_error)
| FromAudit (e : audit_error)
| CandidateVerificationError
| _LeaseAbandoned
| OtherValueError
| OverflowError
| AdapterError.                    (* any other exception of an injected adapter *)

(** What a repository call meets when the database is not available. *)
Inductive call_trouble := DatabaseLocked | StorageUnreadable (code : SecurityErrorCode).

Record World := { w_db : db; w_tick : nat }.
Class Outside := {
  clock : nat -> py_datetime;                 (* the clock's next reading *)
  others : nat -> db -> db;                   (* what others did to the store before the call *)
  trouble : nat -> option call_trouble;
  nonces : nat -> Nonces;
  beats : nat -> nat;                         (* heartbeats that come due during an operation *)
  heartbeat_ended : nat -> option SecurityErrorCode;  (* the StorageSecurityError that ended a heartbeat task *)
}.

(** A computation of a worker: an exception or a value, in the next world. *)
Definition W (E A : Type) : Type := World -> result E A * World.
#[export] Instance W_ret {E} : MRet (W E) := fun A a w => (Ok a, w).
#[export] Instance W_bind {E} : MBind (W E) := fun A B f m w =>
  let (r, w1) := m w in match r with Ok a => f a w1 | Err e => (Err e, w1) end.
Definition raises {E A} (e : E) : W E A := fun w => (Err e, w).
Definition pure {E A} (r : result E A) : W E A := fun w => (r, w).
(** [try: m except Exception as e: handler(e)] *)
Definition catch {E E' A} (m : W E A) (handler : E -> W E' A) : W E' A := fun w =>
  let (r, w1) := m w in match r with Ok a => (Ok a, w1) | Err e => handler e w1 end.
(** An exception together with the local variable its handler looks at. *)
Definition during {S E A} (s : S) (m : W E A) : W (S * E) A := fun w =>
  let (r, w1) := m w in match r with Ok a => (Ok a, w1) | Err e => (Err (s, e), w1) end.

Section world.
Context `{Outside}.
(** [self._clock()] *)
Definition read_clock {E} : W E py_datetime := fun w =>
  (Ok (clock (w_tick w)), {| w_db := w_db w; w_tick := S (w_tick w) |}).
(** A call of a repository method. *)
Definition call {A} (op : db -> result repo_error A * db) : W worker_error A := fun w =>
  let d := others (w_tick w) (w_db w) in
  let tick := S (w_tick w) in
  match trouble (w_tick w) with
  | Some DatabaseLocked => (Err OperationalError, {| w_db := d; w_tick := tick |})
  | Some (StorageUnreadable code) =>
      (Err (FromRepository (StorageSecurityError code)), {| w_db := d; w_tick := tick |})
  | None =>
      let (r, d') := op d in
      (match r with Ok a => Ok a | Err e => Err (FromRepository e) end, {| w_db := d'; w_tick := tick |})
  end.
Definition call_read {A} (op : db -> result repo_error A) : W worker_error A := call (fun d => (op d, d)).
(** A call that encrypts, under the nonces drawn for it. *)
Definition call_nonces {A} (op : Nonces -> db -> result repo_error A * db) : W worker_error A := fun w =>
  call (op (nonces (w_tick w))) w.
End world.

(** ** Durations *)

(** [t + timedelta(microseconds=us)] *)
Definition dt_add (t : py_datetime) (us : Z) : py_datetime :=
  match t with Naive => Naive | Aware i => Aware (i + us) end.

Definition US_PER_DAY : Z := 86400 * US_PER_SECOND.
(** [timedelta(seconds=x)] in microseconds: the whole seconds exactly, the
    fraction rounded half to even, at most 999999999 days either way. *)
Definition timedelta_seconds (x : float) : result worker_error Z :=
  match x with
  | S754_nan => Err OtherValueError
  | S754_infinity _ => Err OverflowError
  | S754_zero _ => Ok 0
  | S754_finite s m e =>
      let us := whole_part s m e * US_PER_SECOND
                + float_round_half_even (f_mul (fraction_part s m e) (f_of_Z US_PER_SECOND)) in
      raise OverflowError when 999999999 <? Z.abs (us / US_PER_DAY);; Ok us
  end.
(** [self.lease_duration / 3] of a timedelta in microseconds. *)
Definition timedelta_third (us : Z) : Z := round_half_even us 3.

Example half_second : timedelta_seconds (f_div_Z 1 2) = Ok 500000.
Proof. vm_compute. reflexivity. Qed.
Example five_minutes : timedelta_seconds (f_of_Z 300) = Ok 300000000.
Proof. vm_compute. reflexivity. Qed.

(** ** Configurations *)

(** Durations in microseconds. *)
Record _FencedCompactionWorkerConfig := {
  fc_worker_id : string; fc_lease_duration : Z; fc_token_ceiling : Z; fc_segmenter_config : SegmenterConfig;
  fc_strict_audit : bool; fc_max_attempts : Z; fc_retry_delay : Z; fc_heartbeat_interval : option Z;
}.
(** [_FencedCompactionWorkerConfig.__post_init__] *)
Definition FencedConfig_new (c : _FencedCompactionWorkerConfig) : result worker_error _FencedCompactionWorkerConfig :=
  raise OtherValueError when is_blank (fc_worker_id c);;
  raise OtherValueError when fc_lease_duration c <=? 0;;
  raise OtherValueError when fc_token_ceiling c <? 0;;
  raise OtherValueError when fc_max_attempts c <? 1;;
  raise OtherValueError when fc_retry_delay c <=? 0;;
  raise OtherValueError when
    (match fc_heartbeat_interval c with
     | Some interval => (interval <=? 0) || (fc_lease_duration c <=? interval)
     | None => timedelta_third (fc_lease_duration c) <=? 0
     end);;
  Ok c.
(** [self.heartbeat_interval or self.lease_duration / 3]: a zero timedelta is false. *)
Definition effective_heartbeat_interval (c : _FencedCompactionWorkerConfig) : Z :=
  match fc_heartbeat_interval c with
  | Some interval => if interval =? 0 then timedelta_third (fc_lease_duration c) else interval
  | None => timedelta_third (fc_lease_duration c)
  end.

Record _RuntimeCompactionWorkerConfig := {
  rc_token_ceiling : Z; rc_lease_seconds : float; rc_poll_interval_seconds : float;
  rc_retry_base_seconds : float; rc_retry_max_seconds : float; rc_max_attempts : Z;
  rc_strict_audit : bool; rc_metric_backfill_limit : Z; rc_segmenter_config : SegmenterConfig;
}.
(** [_RuntimeCompactionWorkerConfig.__post_init__] *)
Definition RuntimeConfig_new (c : _RuntimeCompactionWorkerConfig) : result worker_error _RuntimeCompactionWorkerConfig :=
  raise OtherValueError when rc_token_ceiling c <? 1;;
  raise OtherValueError when
    existsb (fun value => f_le value f_zero)
      [rc_lease_seconds c; rc_poll_interval_seconds c; rc_retry_base_seconds c; rc_retry_max_seconds c];;
  raise OtherValueError when f_lt (rc_retry_max_seconds c) (rc_retry_base_seconds c);;
  raise OtherValueError when rc_max_attempts c <? 1;;
  raise OtherValueError when negb ((1 <=? rc_metric_backfill_limit c) && (rc_metric_backfill_limit c <=? 1024));;
  Ok c.

Record CompactionWorkerConfig := {
  wc_token_ceiling : Z; wc_segmenter_config : SegmenterConfig; wc_strict_audit : bool; wc_max_attempts : Z;
  wc_worker_id : option string; wc_lease_duration : option Z; wc_retry_delay : option Z;
  wc_heartbeat_interval : option Z; wc_lease_seconds : float; wc_poll_interval_seconds : float;
  wc_retry_base_seconds : float; wc_retry_max_seconds : float; wc_metric_backfill_limit : Z;
}.
(** [CompactionWorkerConfig.__post_init__] *)
Definition CompactionWorkerConfig_new (c : CompactionWorkerConfig) : result worker_error CompactionWorkerConfig :=
  raise OtherValueError when wc_token_ceiling c <? 0;;
  raise OtherValueError when wc_max_attempts c <? 1;;
  let given := [is_some (wc_worker_id c); is_some (wc_lease_duration c); is_some (wc_retry_delay c)] in
  raise OtherValueError when existsb id given && existsb negb given;;
  Ok c.
(** [CompactionWorkerConfig._fenced]; [None] is its [TypeError]. *)
Definition _fenced (c : CompactionWorkerConfig) : option (result worker_error _FencedCompactionWorkerConfig) :=
  match wc_worker_id c, wc_lease_duration c, wc_retry_delay c with
  | Some worker_id, Some lease_duration, Some retry_delay =>
      Some (FencedConfig_new {| fc_worker_id := worker_id; fc_lease_duration := lease_duration;
        fc_token_ceiling := wc_token_ceiling c; fc_segmenter_config := wc_segmenter_config c;
        fc_strict_audit := wc_strict_audit c; fc_max_attempts := wc_max_attempts c;
        fc_retry_delay := retry_delay; fc_heartbeat_interval := wc_heartbeat_interval c |})
  | _, _, _ => None
  end.
(** [CompactionWorkerConfig._runtime] *)
Definition _runtime (c : CompactionWorkerConfig) : result worker_error _RuntimeCompactionWorkerConfig :=
  RuntimeConfig_new {| rc_token_ceiling := wc_token_ceiling c; rc_lease_seconds := wc_lease_seconds c;
    rc_poll_interval_seconds := wc_poll_interval_seconds c; rc_retry_base_seconds := wc_retry_base_seconds c;
    rc_retry_max_seconds := wc_retry_max_seconds c; rc_max_attempts := wc_max_attempts c;
    rc_strict_audit := wc_strict_audit c; rc_metric_backfill_limit := wc_metric_backfill_limit c;
    rc_segmenter_config := wc_segmenter_config c |}.

(** ** Failures *)

(** [CompilerErrorCode.value], less its prefix. *)
Definition compiler_code_value (code : CompilerErrorCode) : string :=
  "COMPILER_" +:+ match code with
  | BASE_INVALID => "BASE_INVALID"
  | BASE_CAPSULE_MISMATCH => "BASE_CAPSULE_MISMATCH"
  | SOURCE_EVENTS_EMPTY => "SOURCE_EVENTS_EMPTY"
  | SOURCE_EVENTS_INVALID => "SOURCE_EVENTS_INVALID"
  | SOURCE_SESSION_MISMATCH => "SOURCE_SESSION_MISMATCH"
  | SOURCE_COVERAGE_MISMATCH => "SOURCE_COVERAGE_MISMATCH"
  | TARGET_INVALID => "TARGET_INVALID"
  | TOKEN_CEILING_INVALID => "TOKEN_CEILING_INVALID"
  | NOW_INVALID => "NOW_INVALID"
  | SEGMENTER_CONFIG_INVALID => "SEGMENTER_CONFIG_INVALID"
  | BACKEND_FAILURE => "BACKEND_FAILURE"
  | BACKEND_OUTPUT_INVALID => "BACKEND_OUTPUT_INVALID"
  | BACKEND_OUTPUT_EMPTY => "BACKEND_OUTPUT_EMPTY"
  | Compiler.TOKEN_COUNTER_FAILURE => "TOKEN_COUNTER_FAILURE"
  | Compiler.TOKEN_COUNTER_INVALID => "TOKEN_COUNTER_INVALID"
  | PERMANENT_VALIDATOR_FAILURE => "PERMANENT_VALIDATOR_FAILURE"
  | PERMANENT_VALIDATION_FAILED => "PERMANENT_VALIDATION_FAILED"
  end.
(** [SemanticAuditErrorCode.value], less its prefix. *)
Definition audit_code_value (code : SemanticAuditErrorCode) : string :=
  "SEMANTIC_AUDIT_" +:+ match code with
  | MECHANICAL_INVALID => "MECHANICAL_INVALID"
  | STRICT_AUDIT_INVALID => "STRICT_AUDIT_INVALID"
  | BACKEND_REQUIRED => "BACKEND_REQUIRED"
  | AUDIT_BACKEND_FAILURE => "BACKEND_FAILURE"
  | AUDIT_BACKEND_OUTPUT_INVALID => "BACKEND_OUTPUT_INVALID"
  | SEMANTIC_REJECTED => "SEMANTIC_REJECTED"
  end.

Record _Failure := { f_stage : string; f_code : string; f_retryable : bool }.
Definition _RETRYABLE_COMPILER_ERRORS : list CompilerErrorCode := [BACKEND_FAILURE; Compiler.TOKEN_COUNTER_FAILURE].
Definition _RETRYABLE_AUDIT_ERRORS : list SemanticAuditErrorCode := [AUDIT_BACKEND_FAILURE].
Definition unexpected_failure : _Failure :=
  {| f_stage := "WORKER"; f_code := "WORKER_UNEXPECTED_FAILURE"; f_retryable := false |}.
Definition repository_failure : _Failure :=
  {| f_stage := "REPOSITORY"; f_code := "REPOSITORY_FAILURE"; f_retryable := false |}.
(** [_FencedCompactionWorker._failure_for]; among the exceptions of a call,
    [ValueError], a metric conflict, a security error, an integrity error and
    an injected fault are not [RepositoryError]s. *)
Definition _failure_for (error : worker_error) : _Failure :=
  match error with
  | OperationalError =>
      {| f_stage := "REPOSITORY"; f_code := "SQLITE_OPERATIONAL_ERROR"; f_retryable := true |}
  | FromCompiler (CompilerInvariantError code _) =>
      {| f_stage := "COMPILING"; f_code := compiler_code_value code;
         f_retryable := bool_decide (code ∈ _RETRYABLE_COMPILER_ERRORS) |}
  | FromAudit (SemanticAuditInvariantError code _) =>
      {| f_stage := "AUDITING"; f_code := audit_code_value code;
         f_retryable := bool_decide (code ∈ _RETRYABLE_AUDIT_ERRORS) |}
  | FromRepository (PublicationRejected _) =>
      {| f_stage := "PUBLISHING"; f_code := "PUBLICATION_REJECTED"; f_retryable := false |}
  | FromRepository RepositoryInvariantError =>
      {| f_stage := "REPOSITORY"; f_code := "REPOSITORY_INVARIANT"; f_retryable := false |}
  | FromRepository (RepositoryConflict | SessionIdentityConflict | IdempotencyConflict
                    | EventIdentityConflict | JobTransitionError | StaleLeaseError) => repository_failure
  | _ => unexpected_failure
  end.

(** [_RuntimeCompactionWorker._error_code] *)
Definition _error_code (error : worker_error) : string :=
  match error with
  | FromCompiler (CompilerInvariantError code _) => compiler_code_value code
  | FromAudit (SemanticAuditInvariantError code _) => audit_code_value code
  | CandidateVerificationError => "CANDIDATE_GRAPH_VERIFICATION_FAILED"
  | _ => "COMPACTION_WORKER_FAILURE"
  end.

(** ** The fenced worker *)

Record _FencedCompactionWorker := {
  fw_compiler_backend : CompilationRequest -> backend_outcome; fw_counter : TokenCounter;
  fw_config : _FencedCompactionWorkerConfig; fw_audit_backend : option (SemanticAuditRequest -> audit_outcome);
}.
Record CompactionRunResult := { cr_job : CompactionJobEnvelope; cr_publication : option PublishResult }.

Definition _REDACTED_ERROR_MESSAGE : string := "redacted".
(** [{event.event_id: event.token_count for event in delta}]: the last entry of a key stays. *)
Definition recorded_counts (delta : list EventEnvelope) : gmap string Z :=
  list_to_map (reverse (map (fun e => (ev_event_id e, ev_token_count e)) delta)).

(** A metric of a counted text; [TokenMetric.__post_init__] checks it. *)
Definition counted_metric {E} (invalid : E) (count : string -> result E Z) (kind : ArtifactKind)
    (profile_id artifact_id text : string) : result E TokenMetric :=
  n ← count text;
  match construct TokenMetric_valid {| tm_artifact_kind := kind; tm_artifact_id := artifact_id;
          tm_tokenizer_profile_id := profile_id; tm_token_count := n |} with
  | Ok m => Ok m | Err _ => Err invalid
  end.
(** The metrics of a candidate: one for each Capsule, then the Snapshot's. *)
Definition candidate_metrics (count : string -> result worker_error Z) (profile_id : string)
    (snapshot : SnapshotEnvelope) (memberships : list SnapshotCapsuleMembership)
    : result worker_error (list TokenMetric) :=
  capsule_metrics ← map_result (fun m =>
    counted_metric OtherValueError count ARTIFACT_CAPSULE profile_id (ms_capsule_id m) (render_capsule (ms_capsule m)))
    memberships;
  snapshot_metric ←
    counted_metric OtherValueError count ARTIFACT_SNAPSHOT profile_id (sn_snapshot_id snapshot) (sn_rendered_context snapshot);
  Ok (capsule_metrics ++ [snapshot_metric]).

(** [_count_compatibility_metric] *)
Definition _count_compatibility_metric (counter : TokenCounter) (text : string) : result worker_error Z :=
  match compatibility_count counter text with Ok n => Ok n | Err e => Err (FromCompiler e) end.
Definition _candidate_compatibility_metrics (counter : TokenCounter) (snapshot : SnapshotEnvelope)
    (memberships : list SnapshotCapsuleMembership) : result worker_error (list TokenMetric) :=
  candidate_metrics (_count_compatibility_metric counter) "legacy-compatibility" snapshot memberships.

Section fenced.
Context `{Sha256, StorageCodec, Environment, FloatRepr, ModelDump, Outside}.
Context (self : _FencedCompactionWorker).
Let config := fw_config self.
Let worker_id := fc_worker_id config.

(** [_now]: the clock's reading, which must be aware. *)
Definition _now : W worker_error Z :=
  t ← read_clock;
  match t with Aware i => mret i | Naive => raises OtherValueError end.

Definition _renew (job : CompactionJobEnvelope) (now : Z) : W worker_error CompactionJobEnvelope :=
  match job_lease_expires_at job with
  | None => raises (FromRepository RepositoryInvariantError)
  | Some expires =>
      let lease_expires_at := now + fc_lease_duration config in
      let lease_expires_at :=
        if lease_expires_at <=? expires then expires + effective_heartbeat_interval config else lease_expires_at in
      call (renew_job_lease (job_job_id job) worker_id (job_lease_epoch job) (Aware now) (Aware lease_expires_at))
  end.

(** [_LeaseHeartbeat._run], for the beats that come due before it is stopped. *)
Fixpoint heartbeat_run (due : nat) (job : CompactionJobEnvelope) : W worker_error unit :=
  match due with
  | O => mret ()
  | S due =>
      now ← _now;
      renewed ← _renew job now;
      match job_lease_expires_at renewed with
      | None => raises (FromRepository RepositoryInvariantError)
      | Some _ => heartbeat_run due renewed
      end
  end.

(** [_await_with_heartbeat]: the heartbeat's failure takes precedence over
    whatever the operation ended with. *)
Definition _await_with_heartbeat {A} (job : CompactionJobEnvelope) (operation : result worker_error A) : W worker_error A :=
  match job_lease_expires_at job with
  | None => raises (FromRepository RepositoryInvariantError)
  | Some _ =>
      (fun w => catch (heartbeat_run (beats (w_tick w)) job)
                  (fun e => raises match e with FromRepository StaleLeaseError => _LeaseAbandoned | e => e end) w);;
      pure operation
  end.

(** [transition_job] at the worker's next clock reading. *)
Definition fenced_transition (job : CompactionJobEnvelope) (to_state : CompactionJobState)
    (candidate_snapshot_id : option string) : W worker_error CompactionJobEnvelope :=
  now ← _now;
  call (transition_job (job_job_id job) worker_id (job_lease_epoch job) to_state (Aware now) candidate_snapshot_id).

(** The body of the second [try] of [run_once]; an exception carries the [job]
    that was current when it was raised. *)
Definition fenced_body (job : CompactionJobEnvelope) : W (CompactionJobEnvelope * worker_error) CompactionRunResult :=
  job ← during job (fenced_transition job COMPILING None);
  compiled ← during job (
    now ← _now;
    request_view ← call_read (read_claimed_request_view (job_job_id job) worker_id (job_lease_epoch job) (Aware now));
    compile_now ← _now;
    mret (request_view, compile_now));
  let '(request_view, compile_now) := compiled : RequestView * Z in
  job ← during job (_renew job compile_now);
  candidate ← during job (_await_with_heartbeat job (
    match compile_candidate (rv_snapshot request_view) (rv_capsules request_view) (rv_delta request_view)
            (recorded_counts (rv_delta request_view)) (rv_high_water_mark request_view) (fc_token_ceiling config)
            (fw_compiler_backend self) (Aware compile_now) (fc_segmenter_config config) [] (fw_counter self) None false with
    | Ok candidate => Ok candidate | Err e => Err (FromCompiler e) end));
  final ← (if fc_strict_audit config then
             job ← during job (fenced_transition job AUDITING None);
             audit_now ← during job _now;
             job ← during job (_renew job audit_now);
             audited ← during job (_await_with_heartbeat job (
               match audit_semantic candidate true (fw_audit_backend self) with
               | Ok audited => Ok audited | Err e => Err (FromAudit e) end));
             mret (job, ac_snapshot audited, ac_memberships audited)
           else mret (job, cc_snapshot candidate, cc_memberships candidate));
  let '(job, snapshot, memberships) :=
    final : CompactionJobEnvelope * SnapshotEnvelope * list SnapshotCapsuleMembership in
  job ← during job (fenced_transition job READY_TO_COMMIT (Some (sn_snapshot_id snapshot)));
  during job (
    canonical_metrics ← pure (_candidate_compatibility_metrics (fw_counter self) snapshot memberships);
    now ← _now;
    publication ← call_nonces (fun ns => publish_snapshot ns (job_job_id job) worker_id (job_lease_epoch job) snapshot
                    memberships (Some canonical_metrics) [] (fc_token_ceiling config) (Aware now));
    mret {| cr_job := pr_job publication; cr_publication := Some publication |}).

Definition _record_failure (job : CompactionJobEnvelope) (failure : _Failure) : W worker_error CompactionRunResult :=
  now ← _now;
  let retry_at := if f_retryable failure && (job_attempt_count job <? fc_max_attempts config)
                  then Some (Aware (now + fc_retry_delay config)) else None in
  catch (failed ← call (fail_job (job_job_id job) worker_id (job_lease_epoch job) (Aware now) (f_stage failure)
                          (f_code failure) _REDACTED_ERROR_MESSAGE retry_at false);
         mret {| cr_job := failed; cr_publication := None |})
    (fun e => match e with
              | FromRepository StaleLeaseError | OperationalError =>
                  mret {| cr_job := job; cr_publication := None |}
              | e => raises e
              end).

(** The first [try] of [run_once]. *)
Definition claim_once : W worker_error (option CompactionJobEnvelope) :=
  catch (now ← _now;
         _ ← call (recover_expired_leases (Aware now));
         call (claim_job worker_id (Aware now) (Aware (now + fc_lease_duration config))))
    (fun e => match e with OperationalError => mret None | e => raises e end).
Definition run_once : W worker_error (option CompactionRunResult) :=
  claimed ← claim_once;
  match claimed with
  | None => mret None
  | Some job =>
      finished ← catch (fenced_body job)
        (fun '(job, e) => match e with
         | _LeaseAbandoned | FromRepository StaleLeaseError => mret {| cr_job := job; cr_publication := None |}
         | e => _record_failure job (_failure_for e)
         end);
      mret (Some finished)
  end.
End fenced.

(** ** The runtime worker *)

(** What [ProviderBindingSource.resolve] ends with. *)
Inductive binding_outcome :=
| Bound (binding : CompactionProviderBinding)
| BindingDeferred (code : string)
| BindingRaised.

Record _RuntimeCompactionWorker := {
  rw_backend : CompilationRequest -> backend_outcome; rw_compatibility_counter : TokenCounter;
  rw_canonical_counter : option TokenCounter; rw_canonical_profile_id : string; rw_worker_id : string;
  rw_config : _RuntimeCompactionWorkerConfig; rw_semantic_backend : option (SemanticAuditRequest -> audit_outcome);
  rw_provider_bindings : option (SessionKey -> binding_outcome);
}.
(** The checks of [_RuntimeCompactionWorker.__init__]; [None] is its [TypeError]. *)
Definition RuntimeWorker_new (backend : CompilationRequest -> backend_outcome)
    (canonical_counter : option TokenCounter) (canonical_profile_id worker_id : string)
    (config : _RuntimeCompactionWorkerConfig) (semantic_backend : option (SemanticAuditRequest -> audit_outcome))
    (compatibility_counter counter : option TokenCounter) (provider_bindings : option (SessionKey -> binding_outcome))
    : option (result worker_error _RuntimeCompactionWorker) :=
  if is_blank worker_id then Some (Err OtherValueError) else
  if is_blank canonical_profile_id then Some (Err OtherValueError) else
  let worker resolved := Some (Ok
    {| rw_backend := backend; rw_compatibility_counter := resolved; rw_canonical_counter := canonical_counter;
       rw_canonical_profile_id := canonical_profile_id; rw_worker_id := worker_id; rw_config := config;
       rw_semantic_backend := semantic_backend; rw_provider_bindings := provider_bindings |}) in
  match compatibility_counter, counter with
  | Some _, Some _ | None, None => None
  | Some resolved, None | None, Some resolved => worker resolved
  end.

Definition deferred (code : string) : worker_error := FromCompiler (CompilerBackendDeferred code).
(** [_count_canonical] *)
Definition _count_canonical (counter : option TokenCounter) (text : string) : result worker_error Z :=
  match counter with
  | None => Err (deferred "TOKEN_METRIC_UNAVAILABLE")
  | Some counter =>
      match counter text with
      | Counted n => raise (deferred "TOKEN_METRIC_UNAVAILABLE") when n <? 0;; Ok n
      | _ => Err (deferred "TOKEN_METRIC_UNAVAILABLE")
      end
  end.
Definition _candidate_canonical_metrics (counter : option TokenCounter) (profile_id : string)
    (candidate : AuditedCandidate) : result worker_error (list TokenMetric) :=
  candidate_metrics (_count_canonical counter) profile_id (ac_snapshot candidate) (ac_memberships candidate).

Definition _MIN_SQLITE_LEASE_HORIZON_SECONDS : float := f_one.
(** [_lease_horizon_seconds] *)
Definition _lease_horizon_seconds (c : _RuntimeCompactionWorkerConfig) : float :=
  f_max (rc_lease_seconds c) _MIN_SQLITE_LEASE_HORIZON_SECONDS.

(** The wait of [_persist_failure] before attempt [attempt_count + 1]: the
    base doubled per attempt up to the maximum.  [float * int] converts the
    power of two, which overflows from [2**1024] on. *)
Definition retry_delay_seconds (c : _RuntimeCompactionWorkerConfig) (attempt_count : Z) : result worker_error float :=
  let exponent := Z.max 0 (attempt_count - 1) in
  raise OverflowError when 1024 <=? exponent;;
  Ok (f_min (f_mul (rc_retry_base_seconds c) (f_of_Z (2 ^ exponent))) (rc_retry_max_seconds c)).
Definition _PRESERVED_DEFERRALS : list string :=
  ["EXTRACTIVE_PROVIDER_UNAVAILABLE"; "TOKEN_METRIC_MISSING"; "TOKEN_METRIC_UNAVAILABLE"].

Section runtime.
Context `{Sha256, StorageCodec, Environment, FloatRepr, ModelDump, Outside}.
(** [verify_candidate]: whether the probes of the context graph accept the candidate. *)
Context (verify_candidate : AuditedCandidate -> bool).
Context (self : _RuntimeCompactionWorker).
Let config := rw_config self.
Let worker_id := rw_worker_id self.

Definition _claim_job : W worker_error (option CompactionJobEnvelope) :=
  now ← read_clock;
  horizon ← pure (timedelta_seconds (_lease_horizon_seconds config));
  call (claim_job worker_id now (dt_add now horizon)).
(** One beat of [_renew_lease]; a call others interleave with the worker's. *)
Definition _renew_job_lease (leased : CompactionJobEnvelope) : W worker_error unit :=
  now ← read_clock;
  horizon ← pure (timedelta_seconds (_lease_horizon_seconds config));
  _ ← call (renew_job_lease (job_job_id leased) worker_id (job_lease_epoch leased) now (dt_add now horizon));
  mret ().

Definition _backfill_metrics (session_key : SessionKey) : W worker_error unit :=
  match rw_canonical_counter self with
  | None => raises (deferred "TOKEN_METRIC_UNAVAILABLE")
  | Some _ =>
      batch ← call_read (read_metric_backfill_batch session_key (rw_canonical_profile_id self)
                           (rc_metric_backfill_limit config));
      metrics ← pure (map_result (fun artifact =>
        counted_metric OtherValueError (_count_canonical (rw_canonical_counter self)) (ma_artifact_kind artifact)
          (rw_canonical_profile_id self) (ma_artifact_id artifact) (ma_text artifact)) batch);
      if nonempty metrics then
        now ← read_clock;
        _ ← call_nonces (fun ns => write_metric_backfill_batch ns session_key metrics now);
        mret ()
      else mret ()
  end.

(** [provider_bindings.resolve(session_key)]: an unavailable extractive provider is no binding. *)
Definition resolve_binding (session_key : SessionKey) : result worker_error (option CompactionProviderBinding) :=
  match rw_provider_bindings self with
  | None => Ok None
  | Some resolve =>
      match resolve session_key with
      | Bound binding => Ok (Some binding)
      | BindingDeferred code =>
          if code ==? "EXTRACTIVE_PROVIDER_UNAVAILABLE" then Ok None else Err (deferred code)
      | BindingRaised => Err AdapterError
      end
  end.

Definition runtime_transition (job : CompactionJobEnvelope) (to_state : CompactionJobState)
    (candidate_snapshot_id : option string) : W worker_error CompactionJobEnvelope :=
  now ← read_clock;
  call (transition_job (job_job_id job) worker_id (job_lease_epoch job) to_state now candidate_snapshot_id).

(** From the claimed Job to its candidate: the COMPILING stage of the body. *)
Definition compile_stage (leased : CompactionJobEnvelope) (provider_binding : option CompactionProviderBinding)
    : W worker_error (CompactionJobEnvelope * CompilationCandidate) :=
  _backfill_metrics (job_session_key leased);;
  compiling ← runtime_transition leased COMPILING None;
  now ← read_clock;
  view ← call_read (read_compaction_view (job_job_id compiling) worker_id (job_lease_epoch compiling) now);
  event_token_counts ← call_read (read_event_token_counts (rv_session_key view)
                                    (map ev_event_id (rv_delta view)) (rw_canonical_profile_id self));
  let event_token_counts : gmap string Z := list_to_map event_token_counts in
  (if bool_decide (dom event_token_counts = list_to_set (map ev_event_id (rv_delta view)))
   then mret () else raises (deferred "TOKEN_METRIC_MISSING"));;
  now ← read_clock;
  candidate ← pure (
    match compile_candidate (rv_snapshot view) (rv_capsules view) (rv_delta view) event_token_counts
            (job_target_high_water_mark compiling) (rc_token_ceiling config) (rw_backend self) now
            (rc_segmenter_config config) [] (rw_compatibility_counter self) provider_binding
            (is_some (rw_provider_bindings self)) with
    | Ok candidate => Ok candidate | Err e => Err (FromCompiler e) end);
  mret (compiling, candidate).
(** The AUDITING stage; without strict audit the stage stays COMPILING. *)
Definition audit_stage (compiling : CompactionJobEnvelope) (candidate : CompilationCandidate)
    : W worker_error AuditedCandidate :=
  (if rc_strict_audit config then _ ← runtime_transition compiling AUDITING None; mret () else mret ());;
  pure (match audit_semantic candidate (rc_strict_audit config) (rw_semantic_backend self) with
        | Ok audited => Ok audited | Err e => Err (FromAudit e) end).
Definition verify_stage (audited : AuditedCandidate) : W worker_error (list TokenMetric) :=
  (if verify_candidate audited then mret () else raises CandidateVerificationError);;
  pure (_candidate_canonical_metrics (rw_canonical_counter self) (rw_canonical_profile_id self) audited).
Definition publish_stage (ready : CompactionJobEnvelope) (audited : AuditedCandidate)
    (canonical_metrics : list TokenMetric) : W worker_error PublishResult :=
  now ← read_clock;
  call_nonces (fun ns => publish_snapshot ns (job_job_id ready) worker_id (job_lease_epoch ready) (ac_snapshot audited)
                 (ac_memberships audited) (Some canonical_metrics) [] (rc_token_ceiling config) now).

(** The inner [try] of [run_iteration]; an exception carries the [stage] it was raised in. *)
Definition iteration_body (leased : CompactionJobEnvelope) : W (string * worker_error) PublishResult :=
  provider_binding ← during "LEASED" (pure (resolve_binding (job_session_key leased)));
  compiled ← during "COMPILING" (compile_stage leased provider_binding);
  let '(compiling, candidate) := compiled : CompactionJobEnvelope * CompilationCandidate in
  audited ← during (if rc_strict_audit config then "AUDITING" else "COMPILING") (audit_stage compiling candidate);
  canonical_metrics ← during "VERIFYING" (verify_stage audited);
  ready ← during "READY_TO_COMMIT"
            (runtime_transition compiling READY_TO_COMMIT (Some (sn_snapshot_id (ac_snapshot audited))));
  during "PUBLISHING" (publish_stage ready audited canonical_metrics).

(** A call whose [StaleLeaseError] is ignored. *)
Definition unless_stale {A} (m : W worker_error A) : W worker_error unit :=
  catch (_ ← m; mret ())
    (fun e => match e with FromRepository StaleLeaseError => mret () | e => raises e end).

Definition _persist_deferred (leased : CompactionJobEnvelope) (stage code : string) : W worker_error unit :=
  now ← read_clock;
  retry_now ← read_clock;
  delay ← pure (timedelta_seconds (rc_retry_base_seconds config));
  unless_stale (call (fail_job (job_job_id leased) worker_id (job_lease_epoch leased) now stage code code
    (Some (dt_add retry_now delay)) (bool_decide (code ∈ _PRESERVED_DEFERRALS)))).

Definition _persist_failure (leased : CompactionJobEnvelope) (stage : string) (error : worker_error) : W worker_error unit :=
  let code := _error_code error in
  retry_at ← (if job_attempt_count leased <? rc_max_attempts config then
                delay ← pure (retry_delay_seconds config (job_attempt_count leased));
                now ← read_clock;
                delay ← pure (timedelta_seconds delay);
                mret (Some (dt_add now delay))
              else mret None);
  now ← read_clock;
  unless_stale (call (fail_job (job_job_id leased) worker_id (job_lease_epoch leased) now stage code code retry_at false)).

(** The [except] clauses of [run_iteration], in order. *)
Definition iteration_failed (leased : CompactionJobEnvelope) (stage : string) (error : worker_error) : W worker_error unit :=
  match error with
  | FromRepository (StorageSecurityError code) => raises error
  | FromCompiler (CompilerBackendDeferred code) => _persist_deferred leased stage code
  | FromRepository StaleLeaseError => mret ()
  | _ => _persist_failure leased stage error
  end.
(** The [finally] clause on a path without an escaping exception. *)
Definition iteration_finally : W worker_error bool := fun w =>
  match heartbeat_ended (w_tick w) with
  | Some code => (Err (FromRepository (StorageSecurityError code)), w)
  | None => (Ok true, w)
  end.

Definition run_iteration : W worker_error bool :=
  leased ← _claim_job;
  match leased with
  | None => mret false
  | Some leased =>
      catch (_ ← iteration_body leased; mret ())
        (fun '(stage, error) => iteration_failed leased stage error);;
      iteration_finally
  end.

(** ** The polling loop *)

Inductive turn := Again | Idle | Stopped (error : SecurityErrorCode).
(** One turn of the [while] loop of [_run]: go on at once, wait for the wake
    event or the poll interval, or stop for good on a storage security error. *)
Definition run_turn : W Empty_set turn :=
  catch (now ← read_clock;
         _ ← call (recover_expired_leases now);
         did_work ← run_iteration;
         mret (if did_work : bool then Again else Idle) : W worker_error turn)
    (fun e => match e with
              | FromRepository (StorageSecurityError code) => mret (Stopped code)
              | _ => mret Idle
              end).
(** The loop for at most [fuel] turns: it ends early only when it is stopped. *)
Fixpoint run_turns (fuel : nat) : W Empty_set (option SecurityErrorCode) :=
  match fuel with
  | O => mret None
  | S fuel => t ← run_turn; match t with Stopped code => mret (Some code) | _ => run_turns fuel end
  end.
End runtime.

(** ** The life of the loop and the facade *)

(** The fields [_wake_event], [_task] (present or not, done or not) and [_closed]. *)
Record WorkerLife := { wl_wake : bool; wl_task : option bool; wl_closed : bool }.
Definition new_life : WorkerLife := {| wl_wake := false; wl_task := None; wl_closed := false |}.
Definition start (l : WorkerLife) : WorkerLife :=
  match wl_task l with
  | Some false => l
  | _ => {| wl_wake := wl_wake l; wl_task := Some false; wl_closed := false |}
  end.
Definition wake (l : WorkerLife) : WorkerLife :=
  if wl_closed l then l else {| wl_wake := true; wl_task := wl_task l; wl_closed := wl_closed l |}.
Definition close (l : WorkerLife) : WorkerLife :=
  {| wl_wake := true; wl_task := None; wl_closed := true |}.
(** What a turn of the loop leaves behind: the wake event was cleared before
    it; a fatal storage error closes the worker. *)
Definition after_turn (t : turn) (l : WorkerLife) : WorkerLife :=
  match t with
  | Stopped _ => {| wl_wake := false; wl_task := None; wl_closed := true |}
  | _ => {| wl_wake := false; wl_task := wl_task l; wl_closed := wl_closed l |}
  end.

(** [CompactionWorker]: one of the two lanes. *)
Inductive CompactionWorker :=
| FencedLane (worker : _FencedCompactionWorker)
| RuntimeLane (worker : _RuntimeCompactionWorker).
(** [CompactionWorker.__init__]; [None] is a [TypeError]. *)
Definition CompactionWorker_new (config : CompactionWorkerConfig)
    (compiler_backend backend : option (CompilationRequest -> backend_outcome)) (counter : option TokenCounter)
    (audit_backend semantic_backend : option (SemanticAuditRequest -> audit_outcome))
    (canonical_counter : option TokenCounter) (canonical_profile_id worker_id : option string)
    (compatibility_counter : option TokenCounter) (provider_bindings : option (SessionKey -> binding_outcome))
    : option (result worker_error CompactionWorker) :=
  match compiler_backend, backend, counter with
  | Some _, Some _, _ | Some _, None, None => None
  | Some compiler_backend, None, Some counter =>
      fenced ← _fenced config;
      Some (fenced ← fenced;
            Ok (FencedLane {| fw_compiler_backend := compiler_backend; fw_counter := counter;
                              fw_config := fenced; fw_audit_backend := audit_backend |}))
  | None, None, _ => None
  | None, Some backend, counter =>
      match canonical_profile_id, worker_id with
      | Some canonical_profile_id, Some worker_id =>
          match _runtime config with
          | Err e => Some (Err e)
          | Ok config =>
              worker ← RuntimeWorker_new backend canonical_counter canonical_profile_id worker_id config
                         semantic_backend compatibility_counter counter provider_bindings;
              Some (worker ← worker; Ok (RuntimeLane worker))
          end
      | _, _ => None
      end
  end.

Section facade.
Context `{Sha256, StorageCodec, Environment, FloatRepr, ModelDump, Outside}.
Context (verify_candidate : AuditedCandidate -> bool).
(** [CompactionWorker.run_iteration] *)
Definition facade_run_iteration (self : CompactionWorker) : W worker_error bool :=
  match self with
  | RuntimeLane worker => run_iteration verify_candidate worker
  | FencedLane worker => finished ← run_once worker; mret (is_some finished)
  end.
(** [CompactionWorker.run_once] *)
Definition facade_run_once (self : CompactionWorker) : W worker_error (option CompactionRunResult) :=
  match self with
  | FencedLane worker => run_once worker
  | RuntimeLane worker => _ ← run_iteration verify_candidate worker; mret None
  end.
End facade.
