(* ===== verification/GraphTypes.v ===== *)
(** The value types of the context graph ([context_graph/types.py]) with the
    checks of their [__post_init__]. *)
From S2P Require Import Prelude PyString PyFloat Domain Runtime Segmenter.
Open Scope list_scope.
Open Scope Z_scope.

(** The exceptions of the validators: a [ValueError]; arguments have their declared types. *)
Inductive graph_error := GraphValueError.
Definition make {A} (valid : A -> bool) (x : A) : result graph_error A :=
  raise GraphValueError when negb (valid x);; Ok x.

(** [_require_identifier] *)
Definition _require_identifier (value : string) : bool := negb (is_empty value).
(** [_require_finite] *)
Definition _require_finite (value : float) : bool := f_is_finite value.
(** [_require_positive_integer] *)
Definition _require_positive_integer (value : Z) : bool := negb (value <=? 0).
(** [_require_unique] *)
Definition _require_unique (values : list string) : bool := no_duplicates values.

Inductive ContextEngineMode := MODE_ACTIVE | MODE_SHADOW | MODE_OFF.
#[export] Instance ContextEngineMode_eq_dec : EqDecision ContextEngineMode.
Proof. solve_decision. Defined.
Inductive EngineOutcome := OUTCOME_ACTIVE | OUTCOME_SHADOW | OUTCOME_OFF | DEGRADED_RAW.
#[export] Instance EngineOutcome_eq_dec : EqDecision EngineOutcome.
Proof. solve_decision. Defined.

Record ContextGraphConfig := {
  gc_epsilon : float; gc_selection_threshold : float; gc_direct_backward_error_limit : float;
  gc_iterative_backward_error_limit : float; gc_condition_warning : float; gc_condition_failure : float;
  gc_max_coordinates : Z; gc_max_relations : Z; gc_max_relation_entries : Z; gc_max_constraints : Z;
  gc_python_max_n : Z; gc_python_max_nnz : Z; gc_numpy_max_n : Z; gc_numpy_max_dense_bytes : Z;
  gc_sparse_max_n : Z; gc_sparse_max_nnz : Z; gc_max_iterations : Z;
  gc_allow_least_squares : bool; gc_prefer_sparse : bool;
}.
(** The default values; the floats are the binary64 nearest the decimals. *)
Definition f_1e_9 : float := Eval vm_compute in f_div_Z 1 (10 ^ 9).
Definition f_half : float := Eval vm_compute in f_div_Z 1 2.
Definition f_1e_10 : float := Eval vm_compute in f_div_Z 1 (10 ^ 10).
Definition f_1e_8 : float := Eval vm_compute in f_div_Z 1 (10 ^ 8).
Definition f_1e12 : float := Eval vm_compute in f_of_Z (10 ^ 12).
Definition f_1e14 : float := Eval vm_compute in f_of_Z (10 ^ 14).
Definition default_graph_config : ContextGraphConfig :=
  {| gc_epsilon := f_1e_9; gc_selection_threshold := f_half; gc_direct_backward_error_limit := f_1e_10;
     gc_iterative_backward_error_limit := f_1e_8; gc_condition_warning := f_1e12; gc_condition_failure := f_1e14;
     gc_max_coordinates := 1024; gc_max_relations := 4096; gc_max_relation_entries := 4096; gc_max_constraints := 1024;
     gc_python_max_n := 64; gc_python_max_nnz := 4096; gc_numpy_max_n := 1024;
     gc_numpy_max_dense_bytes := 64 * 1024 * 1024; gc_sparse_max_n := 100000; gc_sparse_max_nnz := 5000000;
     gc_max_iterations := 10000; gc_allow_least_squares := false; gc_prefer_sparse := false |}.
Definition ContextGraphConfig_valid (c : ContextGraphConfig) : bool :=
  forallb _require_finite
    [gc_epsilon c; gc_selection_threshold c; gc_direct_backward_error_limit c; gc_iterative_backward_error_limit c;
     gc_condition_warning c; gc_condition_failure c]
  && negb (f_le (gc_epsilon c) f_zero)
  && (f_le f_zero (gc_selection_threshold c) && f_le (gc_selection_threshold c) f_one)
  && negb (f_le (gc_direct_backward_error_limit c) f_zero || f_le (gc_iterative_backward_error_limit c) f_zero)
  && negb (f_le (gc_condition_warning c) f_zero || f_le (gc_condition_failure c) (gc_condition_warning c))
  && forallb _require_positive_integer
    [gc_max_coordinates c; gc_max_relations c; gc_max_relation_entries c; gc_max_constraints c; gc_python_max_n c;
     gc_python_max_nnz c; gc_numpy_max_n c; gc_numpy_max_dense_bytes c; gc_sparse_max_n c; gc_sparse_max_nnz c;
     gc_max_iterations c]
  && negb (1024 <? gc_max_coordinates c) && negb (64 <? gc_python_max_n c) && negb (4096 <? gc_python_max_nnz c)
  && negb (1024 <? gc_numpy_max_n c) && negb (64 * 1024 * 1024 <? gc_numpy_max_dense_bytes c).

Record GraphCoordinate := { co_coordinate_id : string; co_candidate : CandidateBlock; co_diagonal : float }.
Definition GraphCoordinate_valid (c : GraphCoordinate) : bool :=
  _require_identifier (co_coordinate_id c) && _require_finite (co_diagonal c) && negb (f_lt (co_diagonal c) f_zero).

(** The checks a relation's and a constraint's terms share. *)
Definition terms_valid (terms : list (string * float)) : bool :=
  nonempty terms
  && forallb (fun '(coordinate_id, coefficient) =>
       _require_identifier coordinate_id && _require_finite coefficient && (coefficient !=? f_zero)) terms
  && _require_unique (map fst terms).
Record SparseRelation := { re_relation_id : string; re_terms : list (string * float); re_weight : float }.
Definition SparseRelation_valid (r : SparseRelation) : bool :=
  _require_identifier (re_relation_id r) && terms_valid (re_terms r)
  && _require_finite (re_weight r) && negb (f_lt (re_weight r) f_zero).

Record ConstraintRow := { cr_constraint_id : string; cr_terms : list (string * float); cr_rhs : float }.
Definition ConstraintRow_valid (r : ConstraintRow) : bool :=
  _require_identifier (cr_constraint_id r) && terms_valid (cr_terms r) && _require_finite (cr_rhs r).
Definition f_minus_one : float := f_neg f_one.
(** [ConstraintRow.fix_one], [fix_zero] and [equality] *)
Definition fix_one (constraint_id coordinate_id : string) : result graph_error ConstraintRow :=
  make ConstraintRow_valid {| cr_constraint_id := constraint_id; cr_terms := [(coordinate_id, f_one)]; cr_rhs := f_one |}.
Definition fix_zero (constraint_id coordinate_id : string) : result graph_error ConstraintRow :=
  make ConstraintRow_valid {| cr_constraint_id := constraint_id; cr_terms := [(coordinate_id, f_one)]; cr_rhs := f_zero |}.
Definition equality (constraint_id left_coordinate_id right_coordinate_id : string) : result graph_error ConstraintRow :=
  raise GraphValueError when left_coordinate_id ==? right_coordinate_id;;
  make ConstraintRow_valid
    {| cr_constraint_id := constraint_id; cr_rhs := f_zero;
       cr_terms := [(left_coordinate_id, f_one); (right_coordinate_id, f_minus_one)] |}.

Record ContextGraph := {
  gr_graph_id : string; gr_coordinates : list GraphCoordinate; gr_relations : list SparseRelation;
  gr_constraints : list ConstraintRow;
}.
Definition coordinate_ids_of (g : ContextGraph) : list string := map co_coordinate_id (gr_coordinates g).
Definition known_terms (known : list string) (terms : list (string * float)) : bool :=
  forallb (fun t => bool_decide (t.1 ∈ known)) terms.
Definition ContextGraph_valid (g : ContextGraph) : bool :=
  _require_identifier (gr_graph_id g)
  && _require_unique (coordinate_ids_of g)
  && _require_unique (map (fun c => cb_block_id (co_candidate c)) (gr_coordinates g))
  && _require_unique (map re_relation_id (gr_relations g))
  && _require_unique (map cr_constraint_id (gr_constraints g))
  && forallb (fun r => known_terms (coordinate_ids_of g) (re_terms r)) (gr_relations g)
  && forallb (fun r => known_terms (coordinate_ids_of g) (cr_terms r)) (gr_constraints g).

Record QueryActivation := {
  qa_query_id : string; qa_scores : list (string * float); qa_retained_coordinate_ids : list string;
  qa_provenance_event_ids : list string;
}.
Definition QueryActivation_valid (a : QueryActivation) : bool :=
  _require_identifier (qa_query_id a)
  && forallb (fun '(coordinate_id, score) => _require_identifier coordinate_id && _require_finite score) (qa_scores a)
  && _require_unique (map fst (qa_scores a))
  && forallb _require_identifier (qa_retained_coordinate_ids a)
  && forallb _require_identifier (qa_provenance_event_ids a)
  && _require_unique (qa_retained_coordinate_ids a) && _require_unique (qa_provenance_event_ids a).

Record ErrorCertificate := {
  ec_stationarity_error : float; ec_constraint_error : float; ec_reconstruction_error : float;
  ec_required_blocks_passed : bool; ec_provenance_passed : bool; ec_passed : bool;
}.
Definition ErrorCertificate_valid (c : ErrorCertificate) : bool :=
  forallb (fun value => _require_finite value && negb (f_lt value f_zero))
    [ec_stationarity_error c; ec_constraint_error c; ec_reconstruction_error c].

Record EngineResult := {
  er_outcome : EngineOutcome; er_selected_blocks : list CandidateBlock; er_activation_scores : list (string * float);
  er_certificate : option ErrorCertificate; er_error_code : option string; er_solve_status : option string;
  er_backend_name : option string;
}.
Definition EngineResult_valid (r : EngineResult) : bool :=
  forallb (fun '(coordinate_id, score) => _require_identifier coordinate_id && _require_finite score) (er_activation_scores r)
  && _require_unique (map fst (er_activation_scores r))
  && forallb (fun value => match value with Some s => _require_identifier s | None => true end)
       [er_error_code r; er_solve_status r; er_backend_name r].

Example default_graph_config_valid : ContextGraphConfig_valid default_graph_config = true.
Proof. vm_compute. reflexivity. Qed.
