(* ===== verification/Matrix.v ===== *)
(** Sparse matrices ([context_graph/matrix.py]): [CsrMatrix] with its
    validation, construction from entries, products, norms and the backward
    error.  Floats are binary64; sums are accumulated in the order of the code. *)
From S2P Require Import Prelude PyString PyFloat Domain Runtime Segmenter Budget BudgetProperties GraphTypes.
Open Scope list_scope.
Open Scope Z_scope.

(** [math.inf] *)
Definition f_inf : float := SpecFloat.S754_infinity false.
Definition f_abs : float -> float := SpecFloat.SFabs.

(** [sum()] of floats adds from left to right; CPython 3.12 and 3.13 carry the
    rounding errors of the additions along, earlier versions do not.  The code
    runs on both, and nothing below depends on which. *)
Definition plain_sum (l : list float) : float := foldl f_add f_zero l.
Definition compensated_sum (l : list float) : float :=
  let '(total, c) := foldl (fun '(total, c) x =>
    let t := f_add total x in
    (t, if f_le (f_abs x) (f_abs total) then f_add c (f_add (f_sub total t) x) else f_add c (f_add (f_sub x t) total)))
    (f_zero, f_zero) l in
  if negb (c ==? f_zero) && f_is_finite c then f_add total c else total.
Class FloatSum := float_sum : list float -> float.

(** ** The data *)

Inductive matrix_error := MatrixValueError.

Record CsrMatrix := {
  csr_rows : Z; csr_columns : Z; csr_indptr : list Z; csr_indices : list Z; csr_data : list float;
}.
Definition csr_shape (m : CsrMatrix) : Z * Z := (csr_rows m, csr_columns m).
(** [l[i]] within the bounds. *)
Definition z_at (l : list Z) (i : Z) : Z := default 0 (l !! Z.to_nat i).
Definition f_at (l : list float) (i : Z) : float := default f_zero (l !! Z.to_nat i).
(** [l[a:b]] for [0 <= a] *)
Definition py_slice {A} (a b : Z) (l : list A) : list A := take (Z.to_nat (b - a)) (drop (Z.to_nat a) l).
(** [pairwise(l)] *)
Fixpoint pairwise {A} (l : list A) : list (A * A) :=
  match l with
  | x :: (y :: _) as rest => (x, y) :: pairwise rest
  | _ => []
  end.

(** The checks of [__post_init__]. *)
Definition csr_valid (m : CsrMatrix) : bool :=
  negb (csr_rows m <? 0) && negb (csr_columns m <? 0)
  && forallb f_is_finite (csr_data m)
  && (len (csr_indptr m) =? csr_rows m + 1)
  && (z_at (csr_indptr m) 0 =? 0)
  && negb (existsb (fun '(l, r) => r <? l) (pairwise (csr_indptr m)))
  && (z_at (csr_indptr m) (len (csr_indptr m) - 1) =? len (csr_indices m)) && (len (csr_indices m) =? len (csr_data m))
  && forallb (fun row =>
       let row_indices := py_slice (z_at (csr_indptr m) row) (z_at (csr_indptr m) (row + 1)) (csr_indices m) in
       negb (existsb (fun index => (index <? 0) || (csr_columns m <=? index)) row_indices)
       && negb (existsb (fun '(l, r) => r <=? l) (pairwise row_indices)))
     (py_range 0 (csr_rows m)).
Definition CsrMatrix_new (m : CsrMatrix) : result matrix_error CsrMatrix :=
  raise MatrixValueError when negb (csr_valid m);; Ok m.
(** [nnz] *)
Definition nnz (m : CsrMatrix) : Z := len (csr_data m).
(** [CsrMatrix.zeros] *)
Definition zeros (rows columns : Z) : result matrix_error CsrMatrix :=
  raise MatrixValueError when (rows <? 0) || (columns <? 0);;
  CsrMatrix_new {| csr_rows := rows; csr_columns := columns; csr_indptr := replicate (Z.to_nat (rows + 1)) 0;
                   csr_indices := []; csr_data := [] |}.

(** ** From entries *)

Definition entry : Type := Z * Z * float.
Definition entry_key (e : entry) : Z * Z := e.1.
(** The accumulation of one entry. *)
Definition accumulate (rows columns : Z) (accumulated : gmap (Z * Z) float) (e : entry)
    : result matrix_error (gmap (Z * Z) float) :=
  let '(row, column, value) := e in
  raise MatrixValueError when (row <? 0) || (rows <=? row) || (column <? 0) || (columns <=? column);;
  raise MatrixValueError when negb (f_is_finite value);;
  let combined := f_add (default f_zero (accumulated !! (row, column))) value in
  raise MatrixValueError when negb (f_is_finite combined);;
  Ok (<[(row, column) := combined]> accumulated).
Fixpoint accumulate_all (rows columns : Z) (accumulated : gmap (Z * Z) float) (entries : list entry)
    : result matrix_error (gmap (Z * Z) float) :=
  match entries with
  | [] => Ok accumulated
  | e :: entries =>
      accumulated ← accumulate rows columns accumulated e;
      accumulate_all rows columns accumulated entries
  end.
(** The order of the keys, which are distinct. *)
Definition key_lt (a b : Z * Z) : bool := (a.1 <? b.1) || ((a.1 =? b.1) && (a.2 <? b.2)).
Definition entry_lt (a b : entry) : bool := key_lt (entry_key a) (entry_key b).
Definition sorted_entries (accumulated : gmap (Z * Z) float) : list entry :=
  py_sorted entry_lt (List.filter (fun e => e.2 !=? f_zero) (map_to_list accumulated)).

(** The [while] loop of one row. *)
Fixpoint take_row (row : Z) (ordered : list entry) (indices : list Z) (data : list float)
    : list entry * list Z * list float :=
  match ordered with
  | (r, column, value) :: rest =>
      if r =? row then take_row row rest (indices ++ [column]) (data ++ [value]) else (ordered, indices, data)
  | [] => ([], indices, data)
  end.
Fixpoint fill_rows (rows : list Z) (ordered : list entry) (indptr indices : list Z) (data : list float)
    : list Z * list Z * list float :=
  match rows with
  | [] => (indptr, indices, data)
  | row :: rows =>
      let '(rest, indices, data) := take_row row ordered indices data in
      fill_rows rows rest (indptr ++ [len indices]) indices data
  end.
(** [CsrMatrix.from_entries] *)
Definition from_entries (shape : Z * Z) (entries : list entry) : result matrix_error CsrMatrix :=
  let '(rows, columns) := shape in
  raise MatrixValueError when (rows <? 0) || (columns <? 0);;
  accumulated ← accumulate_all rows columns ∅ entries;
  let '(indptr, indices, data) := fill_rows (py_range 0 rows) (sorted_entries accumulated) [0] [] [] in
  CsrMatrix_new {| csr_rows := rows; csr_columns := columns; csr_indptr := indptr; csr_indices := indices; csr_data := data |}.
(** [CsrMatrix.from_dense] *)
Definition from_dense (rows : list (list float)) : result matrix_error CsrMatrix :=
  let columns := match rows with [] => 0 | row :: _ => len row end in
  raise MatrixValueError when existsb (fun row => negb (len row =? columns)) rows;;
  raise MatrixValueError when existsb (existsb (fun value => negb (f_is_finite value))) rows;;
  from_entries (len rows, columns)
    (flat_map (fun '(row_index, row) =>
       omap (fun '(column_index, value) => if value !=? f_zero then Some (row_index, column_index, value) else None)
         (enumerate row)) (enumerate rows)).

(** ** Reading *)

(** The offsets of one row. *)
Definition row_offsets (m : CsrMatrix) (row : Z) : list Z :=
  py_range (z_at (csr_indptr m) row) (z_at (csr_indptr m) (row + 1)).
Definition row_entries (m : CsrMatrix) (row : Z) : list entry :=
  map (fun offset => (row, z_at (csr_indices m) offset, f_at (csr_data m) offset)) (row_offsets m row).
(** [iter_entries] *)
Definition iter_entries (m : CsrMatrix) : list entry := flat_map (row_entries m) (py_range 0 (csr_rows m)).

(** [matvec] *)
Definition matvec_row (m : CsrMatrix) (vector : list float) (row : Z) : float :=
  foldl (fun total offset => f_add total (f_mul (f_at (csr_data m) offset) (f_at vector (z_at (csr_indices m) offset))))
    f_zero (row_offsets m row).
Definition matvec (m : CsrMatrix) (vector : list float) : result matrix_error (list float) :=
  raise MatrixValueError when existsb (fun value => negb (f_is_finite value)) vector;;
  raise MatrixValueError when negb (len vector =? csr_columns m);;
  let result := map (matvec_row m vector) (py_range 0 (csr_rows m)) in
  raise MatrixValueError when existsb (fun value => negb (f_is_finite value)) result;;
  Ok result.
(** [transpose_matvec] *)
Definition transpose_matvec (m : CsrMatrix) (vector : list float) : result matrix_error (list float) :=
  raise MatrixValueError when existsb (fun value => negb (f_is_finite value)) vector;;
  raise MatrixValueError when negb (len vector =? csr_rows m);;
  let result := foldl (fun result row =>
      foldl (fun result offset =>
        let index := Z.to_nat (z_at (csr_indices m) offset) in
        alter (fun value => f_add value (f_mul (f_at (csr_data m) offset) (f_at vector row))) index result)
        result (row_offsets m row))
    (replicate (Z.to_nat (csr_columns m)) f_zero) (py_range 0 (csr_rows m)) in
  raise MatrixValueError when existsb (fun value => negb (f_is_finite value)) result;;
  Ok result.

(** [{original: projected for projected, original in enumerate(l)}.get(i)] *)
Definition position_of (l : list Z) (i : Z) : option Z := fst <$> List.find (fun p => p.2 =? i) (enumerate l).
(** [submatrix] *)
Definition submatrix (m : CsrMatrix) (rows columns : list Z) : result matrix_error CsrMatrix :=
  raise MatrixValueError when negb (no_duplicates rows) || negb (no_duplicates columns);;
  raise MatrixValueError when existsb (fun value => (value <? 0) || (csr_rows m <=? value)) rows;;
  raise MatrixValueError when existsb (fun value => (value <? 0) || (csr_columns m <=? value)) columns;;
  from_entries (len rows, len columns)
    (omap (fun '(row, column, value) =>
       match position_of rows row, position_of columns column with
       | Some r, Some c => Some (r, c, value)
       | _, _ => None
       end) (iter_entries m)).
(** [to_dense] *)
Definition to_dense (m : CsrMatrix) (max_n max_bytes : Z) : result matrix_error (list (list float)) :=
  raise MatrixValueError when (max_n <=? 0) || (max_bytes <=? 0);;
  let required_bytes := csr_rows m * csr_columns m * 8 in
  raise MatrixValueError when (max_n <? Z.max (csr_rows m) (csr_columns m)) || (max_bytes <? required_bytes);;
  Ok (foldl (fun dense '(row, column, value) => alter (<[Z.to_nat column := value]>) (Z.to_nat row) dense)
        (replicate (Z.to_nat (csr_rows m)) (replicate (Z.to_nat (csr_columns m)) f_zero)) (iter_entries m)).

(** ** Norms *)

Section norms.
Context `{FloatSum}.
(** [matrix_infinity_norm] *)
Definition matrix_infinity_norm (m : CsrMatrix) : float :=
  foldl (fun maximum row => f_max maximum (float_sum (map (fun offset => f_abs (f_at (csr_data m) offset)) (row_offsets m row))))
    f_zero (py_range 0 (csr_rows m)).
(** [vector_infinity_norm] *)
Definition vector_infinity_norm (vector : list float) : float :=
  match map f_abs vector with [] => f_zero | x :: rest => foldl f_max x rest end.
(** [backward_error] *)
Definition backward_error (m : CsrMatrix) (solution rhs : list float) : result matrix_error float :=
  product ← matvec m solution;
  raise MatrixValueError when existsb (fun value => negb (f_is_finite value)) rhs;;
  raise MatrixValueError when negb (len product =? len rhs);;
  let residual := zip_with f_sub product rhs in
  let numerator := vector_infinity_norm residual in
  let denominator := f_add (f_mul (matrix_infinity_norm m) (vector_infinity_norm solution)) (vector_infinity_norm rhs) in
  Ok (if denominator ==? f_zero then (if numerator ==? f_zero then f_zero else f_inf) else
      let result := f_div numerator denominator in
      if f_is_finite result then result else f_inf).
End norms.

(** ** The operator of a graph *)

(** [{coordinate_id: index for index, coordinate_id in enumerate(ids)}.get(id)]: of equal ids, the last index. *)
Definition index_of (ids : list string) (id : string) : option Z :=
  fst <$> List.find (fun p => p.2 ==? id) (rev (enumerate ids)).
(** An unknown coordinate is a [KeyError]. *)
Inductive operator_error := OperatorMatrix (e : matrix_error) | OperatorKeyError.
Definition relation_entries (ids : list string) (r : SparseRelation) : option (list entry) :=
  indexed ← mapM (fun t => i ← index_of ids t.1; Some (i, t.2)) (re_terms r);
  Some (flat_map (fun '(left_index, left_coefficient) =>
    map (fun '(right_index, right_coefficient) =>
      (left_index, right_index, f_mul (f_mul (re_weight r) left_coefficient) right_coefficient)) indexed) indexed).
(** [build_propagation_operator] *)
Definition build_propagation_operator (g : ContextGraph) (epsilon : float) : result operator_error CsrMatrix :=
  raise (OperatorMatrix MatrixValueError) when negb (f_is_finite epsilon) || f_le epsilon f_zero;;
  match mapM (relation_entries (coordinate_ids_of g)) (gr_relations g) with
  | None => Err OperatorKeyError
  | Some relations =>
      let size := len (gr_coordinates g) in
      match from_entries (size, size)
              (map (fun '(index, c) => (index, index, f_add (co_diagonal c) epsilon)) (enumerate (gr_coordinates g))
               ++ concat relations) with
      | Ok m => Ok m
      | Err e => Err (OperatorMatrix e)
      end
  end.
