(* ===== verification/MatrixProperties.v ===== *)
(** Correctness of [from_entries] ([Matrix]): it fails only on an entry that is
    out of range or not finite; otherwise the matrix is valid, its entries are
    the accumulated non-zero values in order, and building from the entries of
    a matrix gives the matrix back. *)
From S2P Require Import Prelude PyString PyFloat Domain Runtime Segmenter Budget BudgetProperties GraphTypes Matrix.
Open Scope list_scope.
Open Scope Z_scope.

(** ** Sorting with a strict total order *)

Section sorting.
Context {A : Type} (lt : A -> A -> bool).
Hypothesis lt_trans : forall a b c, lt a b = true -> lt b c = true -> lt a c = true.
Definition strictly_sorted (l : list A) : Prop := StronglySorted (fun a b => lt a b = true) l.
Lemma insert_sorted_strict x l : strictly_sorted l -> (forall y, y ∈ l -> lt x y = true \/ lt y x = true) ->
  strictly_sorted (insert_sorted lt x l).
Proof.
  induction 1 as [|y l Hs IH Hy]; intros Hx; cbn; [repeat constructor|].
  destruct (lt y x) eqn:E.
  - constructor.
    + apply IH. intros z Hz. apply Hx. by right.
    + apply Forall_forall. intros z Hz. rewrite insert_sorted_perm in Hz.
      apply elem_of_cons in Hz as [->|Hz]; [done|]. by eapply Forall_forall in Hy; [exact Hy|].
  - assert (lt x y = true) as Hxy by (destruct (Hx y); [left|done|congruence]).
    constructor; [by constructor|]. constructor; [done|]. eapply Forall_impl; [exact Hy|]. intros z. by apply lt_trans.
Qed.
Lemma py_sorted_strict l : NoDup l -> (forall x y, x ∈ l -> y ∈ l -> x <> y -> lt x y = true \/ lt y x = true) ->
  strictly_sorted (py_sorted lt l).
Proof.
  induction l as [|x l IH]; cbn; [constructor|]. intros [Hx Hn]%NoDup_cons Htot. apply insert_sorted_strict.
  - apply IH; [done|]. intros a b Ha Hb. apply Htot; by right.
  - intros y Hy. change (y ∈ py_sorted lt l) in Hy. rewrite py_sorted_perm in Hy. apply Htot; [left|by right|]. by intros ->.
Qed.
(** A strictly sorted list is determined by its elements. *)
Lemma strictly_sorted_unique l : (forall a, lt a a = false) -> forall m, strictly_sorted l -> strictly_sorted m ->
  l ≡ₚ m -> l = m.
Proof.
  intros Hirr. induction l as [|x l IH]; intros [|y m] Hl Hm Hp; [done|..].
  - by apply Permutation_nil_cons in Hp.
  - symmetry in Hp. by apply Permutation_nil_cons in Hp.
  - inversion_clear Hl as [|? ? Hl' Hx]. inversion_clear Hm as [|? ? Hm' Hy].
    assert (x = y) as ->.
    { assert (x ∈ y :: m) as [->|Hxm]%elem_of_cons by (rewrite <- Hp; left); [done|].
      assert (y ∈ x :: l) as [->|Hyl]%elem_of_cons by (rewrite Hp; left); [done|].
      eapply Forall_forall in Hx; [|exact Hyl]. eapply Forall_forall in Hy; [|exact Hxm].
      pose proof (lt_trans _ _ _ Hx Hy). by rewrite Hirr in *. }
    f_equal. apply IH; [done..|]. by eapply Permutation_cons_inv.
Qed.
End sorting.

Lemma key_lt_trans a b c : key_lt a b = true -> key_lt b c = true -> key_lt a c = true.
Proof. unfold key_lt. rewrite !orb_true_iff, !andb_true_iff, !Z.ltb_lt, !Z.eqb_eq. lia. Qed.
Lemma key_lt_total a b : a <> b -> key_lt a b = true \/ key_lt b a = true.
Proof.
  destruct a as [a1 a2], b as [b1 b2]. intros Hne. unfold key_lt. cbn [fst snd].
  rewrite !orb_true_iff, !andb_true_iff, !Z.ltb_lt, !Z.eqb_eq.
  destruct (decide (a1 = b1)) as [->|]; [|lia]. assert (a2 <> b2) by congruence. lia.
Qed.
Lemma key_lt_irrefl a : key_lt a a = false.
Proof. unfold key_lt. rewrite !Z.ltb_irrefl, andb_false_r. done. Qed.

(** ** Accumulation *)

(** An entry within a shape, finite and not zero. *)
Definition entry_ok (rows columns : Z) (e : entry) : Prop :=
  0 <= e.1.1 < rows /\ 0 <= e.1.2 < columns /\ f_is_finite e.2 = true /\ (e.2 ==? f_zero) = false.
Lemma f_add_zero_l v : f_is_finite v = true -> (v ==? f_zero) = false -> f_add f_zero v = v.
Proof. by destruct v as [[]|[]| |[] m e]. Qed.

Lemma accumulate_ok rows columns acc e acc' : accumulate rows columns acc e = Ok acc' ->
  exists combined, f_is_finite combined = true /\ acc' = <[entry_key e := combined]> acc
    /\ 0 <= e.1.1 < rows /\ 0 <= e.1.2 < columns.
Proof.
  destruct e as [[r c] v]. intros (Hb & [_ (Hf & [= <-])%raise_if_ok]%raise_if_ok)%raise_if_ok.
  apply negb_false_iff in Hf. eexists. split_and!; [exact Hf|done|bool_hyps; cbn; lia..].
Qed.
(** What an accumulation holds: finite values at keys within the shape. *)
Definition accumulated_ok (rows columns : Z) (acc : gmap (Z * Z) float) : Prop :=
  map_Forall (fun k v => 0 <= k.1 < rows /\ 0 <= k.2 < columns /\ f_is_finite v = true) acc.
Lemma accumulate_all_ok rows columns entries : forall acc acc', accumulated_ok rows columns acc ->
  accumulate_all rows columns acc entries = Ok acc' -> accumulated_ok rows columns acc'.
Proof.
  induction entries as [|e entries IH]; cbn; [by intros acc acc' Hacc [= <-]|]. intros acc acc' Hacc.
  intros (acc1 & (v & Hv & -> & Hr & Hc)%accumulate_ok & Hrest)%result_bind_ok. eapply IH; [|exact Hrest].
  apply map_Forall_insert_2; [|done]. done.
Qed.
(** Entries under distinct keys are the accumulation. *)
Lemma accumulate_all_distinct rows columns entries : forall acc,
  Forall (entry_ok rows columns) entries -> NoDup (map entry_key entries) ->
  (forall e, e ∈ entries -> acc !! entry_key e = None) ->
  exists acc', accumulate_all rows columns acc entries = Ok acc' /\ map_to_list acc' ≡ₚ entries ++ map_to_list acc.
Proof.
  induction entries as [|[[r c] v] entries IH]; intros acc Hok Hnd Hfresh; cbn; [by exists acc|].
  apply Forall_cons in Hok as [(Hr & Hc & Hf & Hz) Hok]. apply NoDup_cons in Hnd as [Hk Hnd]. cbn in *.
  assert (acc !! (r, c) = None) as Hn by exact (Hfresh (r, c, v) ltac:(left)).
  assert ((r <? 0) || (rows <=? r) || (c <? 0) || (columns <=? c) = false) as ->.
  { rewrite !orb_false_iff, !Z.ltb_ge, !Z.leb_gt. lia. }
  unfold raise_if. rewrite Hn. unfold default, from_option, id. rewrite f_add_zero_l, Hf by done. cbn.
  destruct (IH (<[(r, c) := v]> acc)) as (acc' & -> & Hp); [done..| |].
  { intros e He. rewrite lookup_insert_ne; [apply Hfresh; by right|]. intros Heq. apply Hk.
    unfold entry_key at 1 in Heq. cbn in Heq. rewrite Heq. by apply list_elem_of_fmap_2. }
  exists acc'. split; [done|]. rewrite Hp, map_to_list_insert by done. by rewrite Permutation_middle.
Qed.

Lemma map_to_list_keys (acc : gmap (Z * Z) float) : NoDup (map entry_key (map_to_list acc)).
Proof. apply (NoDup_fst_map_to_list acc). Qed.
Lemma sorted_entries_strict acc : strictly_sorted entry_lt (sorted_entries acc).
Proof.
  apply py_sorted_strict.
  - intros a b c. apply key_lt_trans.
  - apply NoDup_ListNoDup, List.NoDup_filter, NoDup_ListNoDup, NoDup_map_to_list.
  - intros x y Hx Hy Hne. apply key_lt_total. intros Hk. apply Hne.
    apply list_elem_of_In, filter_In in Hx as [Hx _], Hy as [Hy _]. apply list_elem_of_In in Hx, Hy.
    destruct x as [k v], y as [k' w]. unfold entry_key in Hk. cbn in Hk. subst k'. f_equal.
    exact (map_to_list_unique acc k v w Hx Hy).
Qed.
Lemma sorted_entries_elem acc e : e ∈ sorted_entries acc <->
  acc !! entry_key e = Some e.2 /\ (e.2 ==? f_zero) = false.
Proof.
  unfold sorted_entries. rewrite py_sorted_perm, list_elem_of_In, filter_In, <- list_elem_of_In.
  destruct e as [k v]. pose proof (elem_of_map_to_list acc k v) as Hk. unfold entry in *. rewrite Hk. cbn. by rewrite negb_true_iff.
Qed.

(** ** Filling the rows *)

Definition entry_row (e : entry) : Z := e.1.1.
Definition entry_column (e : entry) : Z := e.1.2.
(** The entries below a row, and those of a row. *)
Definition below (r : Z) (l : list entry) : list entry := List.filter (fun e => entry_row e <? r) l.
Definition of_row (r : Z) (l : list entry) : list entry := List.filter (fun e => entry_row e =? r) l.
Definition rows_within (a b : Z) (l : list entry) : Prop := Forall (fun e => a <= entry_row e < b) l.

Lemma take_row_spec row ordered : forall indices data, exists hits rest, ordered = hits ++ rest
  /\ take_row row ordered indices data = (rest, indices ++ map entry_column hits, data ++ map snd hits)
  /\ Forall (fun e => entry_row e = row) hits
  /\ match rest with [] => True | e :: _ => entry_row e <> row end.
Proof.
  induction ordered as [|[[r c] v] rest IH]; intros indices data; cbn.
  { exists [], []. by rewrite !app_nil_r. }
  destruct (r =? row) eqn:E; bool_hyps.
  - destruct (IH (indices ++ [c]) (data ++ [v])) as (hits & rest' & -> & -> & Hh & Hr).
    exists ((r, c, v) :: hits), rest'. split_and!; [done| |by constructor|done]. cbn. by rewrite <- !app_assoc.
  - exists [], ((r, c, v) :: rest). split_and!; [done|by rewrite !app_nil_r|done|done].
Qed.
Lemma strictly_sorted_rows e l : strictly_sorted entry_lt (e :: l) -> Forall (fun x => entry_row e <= entry_row x) l.
Proof.
  intros Hs. inversion_clear Hs as [|? ? _ Hall]. eapply Forall_impl; [exact Hall|]. intros x. cbn.
  unfold entry_lt, key_lt, entry_row, entry_key. rewrite orb_true_iff, andb_true_iff, Z.ltb_lt, Z.eqb_eq. lia.
Qed.
Lemma strictly_sorted_app {A} (lt : A -> A -> bool) l m : strictly_sorted lt (l ++ m) ->
  strictly_sorted lt l /\ strictly_sorted lt m /\ forall x y, x ∈ l -> y ∈ m -> lt x y = true.
Proof.
  induction l as [|a l IH]; cbn; [intros ?; split_and!; [constructor|done|by intros x y ?%elem_of_nil]|].
  intros Hs. inversion_clear Hs as [|? ? Hs' Ha]. destruct (IH Hs') as (Hl & Hm & Hlm).
  apply Forall_app in Ha as [Hal Ham]. split_and!; [by constructor|done|].
  intros x y [->|Hx]%elem_of_cons Hy; [by eapply Forall_forall in Ham|by apply Hlm].
Qed.
Lemma take_row_sorted row ordered indices data b : strictly_sorted entry_lt ordered -> rows_within row b ordered ->
  exists hits rest, ordered = hits ++ rest
  /\ take_row row ordered indices data = (rest, indices ++ map entry_column hits, data ++ map snd hits)
  /\ Forall (fun e => entry_row e = row) hits /\ strictly_sorted entry_lt rest /\ rows_within (row + 1) b rest.
Proof.
  intros Hs Hw. destruct (take_row_spec row ordered indices data) as (hits & rest & -> & Htake & Hhits & Hhead).
  apply strictly_sorted_app in Hs as (_ & Hs & _). apply Forall_app in Hw as [_ Hw].
  exists hits, rest. split_and!; try done. destruct rest as [|e rest]; [constructor|].
  apply strictly_sorted_rows in Hs. apply Forall_cons in Hw as [He Hw]. constructor; [lia|].
  apply Forall_forall. intros x Hx. eapply Forall_forall in Hs; [|exact Hx]. eapply Forall_forall in Hw; [|exact Hx]. lia.
Qed.

Lemma below_app r l m : below r (l ++ m) = below r l ++ below r m.
Proof. apply List.filter_app. Qed.
Lemma filter_all_true {A} (p : A -> bool) l : Forall (fun x => p x = true) l -> List.filter p l = l.
Proof. induction 1 as [|x l Hx _ IH]; [done|]. cbn. by rewrite Hx, IH. Qed.
Lemma filter_none {A} (p : A -> bool) l : Forall (fun x => p x = false) l -> List.filter p l = [].
Proof. induction 1 as [|x l Hx _ IH]; [done|]. cbn. by rewrite Hx. Qed.

Lemma below_all r l k : Forall (fun e => entry_row e = k) l -> k < r -> below r l = l.
Proof. intros Hl Hk. apply filter_all_true. eapply Forall_impl; [exact Hl|]. intros e ->. by apply Z.ltb_lt. Qed.
Lemma below_none r l b : rows_within r b l -> below r l = [].
Proof. intros Hl. apply filter_none. eapply Forall_impl; [exact Hl|]. intros e [He _]. by apply Z.ltb_ge. Qed.
Lemma len_mapped {A B} (f : A -> B) l : len (map f l) = len l.
Proof. unfold len. by rewrite length_map. Qed.

(** The loops in closed form: the pointers count the entries below each row. *)
Lemma fill_rows_spec n : forall k ordered indptr indices data, 0 <= k ->
  strictly_sorted entry_lt ordered -> rows_within k (k + Z.of_nat n) ordered ->
  fill_rows (py_range k (k + Z.of_nat n)) ordered indptr indices data =
  (indptr ++ map (fun r => len indices + len (below (r + 1) ordered)) (py_range k (k + Z.of_nat n)),
   indices ++ map entry_column ordered, data ++ map snd ordered).
Proof.
  induction n as [|n IH]; intros k ordered indptr indices data Hk Hs Hw.
  { rewrite py_range_nil by lia. cbn. destruct ordered as [|e ordered]; [by rewrite !app_nil_r|].
    apply Forall_cons in Hw as [He _]. lia. }
  rewrite py_range_cons by lia. cbn [fill_rows map].
  destruct (take_row_sorted k ordered indices data _ Hs Hw) as (hits & rest & -> & -> & Hhits & Hs' & Hw').
  replace (k + Z.of_nat (S n)) with (k + 1 + Z.of_nat n) in * by lia.
  rewrite IH by (done || lia). rewrite <- !app_assoc, <- !map_app. f_equal. f_equal. f_equal. cbn [app]. f_equal.
  - rewrite len_app, len_mapped, below_app, len_app.
    rewrite (below_all _ hits k) by (done || lia).
    rewrite (below_none _ _ _ Hw'), len_nil. lia.
  - apply map_ext_in. intros r Hr. apply list_elem_of_In, elem_of_py_range in Hr.
    rewrite len_app, len_mapped, below_app, len_app.
    rewrite (below_all _ hits k) by (done || lia).
    lia.
Qed.

(** ** The matrix of sorted entries *)

Definition csr_of (rows columns : Z) (ordered : list entry) : CsrMatrix :=
  {| csr_rows := rows; csr_columns := columns;
     csr_indptr := map (fun r => len (below r ordered)) (py_range 0 (rows + 1));
     csr_indices := map entry_column ordered; csr_data := map snd ordered |}.
(** Sorted entries within a shape, with finite values. *)
Definition sorted_within (rows columns : Z) (ordered : list entry) : Prop :=
  strictly_sorted entry_lt ordered
  /\ Forall (fun e => 0 <= entry_row e < rows /\ 0 <= entry_column e < columns /\ f_is_finite e.2 = true) ordered.

Lemma py_range_shift a b k : map (fun r => r + k) (py_range a b) = py_range (a + k) (b + k).
Proof.
  unfold py_range. replace (b + k - (a + k)) with (b - a) by lia. apply list_eq. intros i.
  rewrite list_lookup_fmap. destruct (decide (Z.of_nat i < b - a)) as [Hi|Hi].
  - rewrite !lookup_seqZ_lt by lia. cbn. f_equal. lia.
  - by rewrite !lookup_seqZ_ge by lia.
Qed.
Lemma fill_rows_csr rows columns ordered : 0 <= rows -> sorted_within rows columns ordered ->
  fill_rows (py_range 0 rows) ordered [0] [] []
  = (csr_indptr (csr_of rows columns ordered), csr_indices (csr_of rows columns ordered), csr_data (csr_of rows columns ordered)).
Proof.
  intros Hr [Hs Hw]. replace rows with (0 + Z.of_nat (Z.to_nat rows)) by lia.
  assert (rows_within 0 rows ordered) as Hrw by (eapply Forall_impl; [exact Hw|]; intros e (? & _); done).
  rewrite fill_rows_spec; [|lia|done|]. 2: { by replace (0 + Z.of_nat (Z.to_nat rows)) with rows by lia. }
  replace (0 + Z.of_nat (Z.to_nat rows)) with rows by lia. cbn [csr_of csr_indptr csr_indices csr_data].
  f_equal. f_equal. rewrite (py_range_cons 0 (rows + 1)) by lia. cbn [map]. rewrite (below_none 0 ordered _ Hrw). cbn [app].
  f_equal. replace (py_range (0 + 1) (rows + 1)) with (map (fun r => r + 1) (py_range 0 rows)) by by rewrite py_range_shift.
  rewrite map_map. apply map_ext. intros r. rewrite len_nil. lia.
Qed.

Section csr_of.
Variables (rows columns : Z) (ordered : list entry).
Hypotheses (rows_nonneg : 0 <= rows) (columns_nonneg : 0 <= columns) (within_ok : sorted_within rows columns ordered).
Let m := csr_of rows columns ordered.

Lemma z_at_indptr r : 0 <= r <= rows -> z_at (csr_indptr m) r = len (below r ordered).
Proof.
  intros Hr. unfold z_at. cbn. rewrite list_lookup_fmap.
  assert (py_range 0 (rows + 1) !! Z.to_nat r = Some r) as ->; [|done].
  apply lookup_py_range. lia.
Qed.
Lemma below_rows : below rows ordered = ordered.
Proof.
  apply filter_all_true. destruct within_ok as [_ Hw]. eapply Forall_impl; [exact Hw|]. intros e [? _]. apply Z.ltb_lt. lia.
Qed.
(** The entries before, in and after a row. *)
Lemma ordered_split r : exists rest, ordered = below r ordered ++ of_row r ordered ++ rest
  /\ below (r + 1) ordered = below r ordered ++ of_row r ordered.
Proof.
  destruct within_ok as [Hs _]. clear -Hs. induction ordered as [|e l IH]; [by exists []|].
  assert (strictly_sorted entry_lt l) as Hs' by by inversion Hs. destruct (IH Hs') as (rest & Hl & Hb).
  apply strictly_sorted_rows in Hs. unfold below, of_row in *. cbn [List.filter].
  destruct (entry_row e <? r) eqn:E1; bool_hyps.
  - rewrite (proj2 (Z.eqb_neq (entry_row e) r)), (proj2 (Z.ltb_lt (entry_row e) (r + 1))) by lia. exists rest. cbn. by rewrite <- Hl, Hb.
  - assert (below r l = []) as Hbl.
    { apply filter_none. eapply Forall_impl; [exact Hs|]. intros x Hx. cbn beta in Hx. apply Z.ltb_ge. lia. }
    unfold below in Hbl. rewrite Hbl in *. cbn [app] in *. destruct (entry_row e =? r) eqn:E2; bool_hyps.
    + rewrite (proj2 (Z.ltb_lt (entry_row e) (r + 1))) by lia. exists rest. cbn. by rewrite <- Hl, Hb.
    + rewrite (proj2 (Z.ltb_ge (entry_row e) (r + 1))) by lia. exists (e :: l). rewrite Hb.
      rewrite (filter_none (fun x => entry_row x =? r) l); [done|].
      eapply Forall_impl; [exact Hs|]. intros x Hx. cbn beta in Hx. apply Z.eqb_neq. lia.
Qed.
Lemma row_slice r : 0 <= r < rows ->
  py_slice (z_at (csr_indptr m) r) (z_at (csr_indptr m) (r + 1)) (csr_indices m) = map entry_column (of_row r ordered).
Proof.
  intros Hr. rewrite !z_at_indptr by lia. destruct (ordered_split r) as (rest & Hl & ->). rewrite len_app.
  unfold py_slice. cbn [csr_indices m csr_of]. rewrite Hl at 5. rewrite !map_app. unfold len.
  replace (Z.to_nat (Z.of_nat (length (below r ordered)))) with (length (map entry_column (below r ordered)))
    by (rewrite length_map; lia).
  rewrite drop_app_length.
  replace (Z.to_nat _) with (length (map entry_column (of_row r ordered))) by (rewrite length_map; lia).
  apply take_app_length.
Qed.
Lemma row_entries_of_row r : 0 <= r < rows -> row_entries m r = of_row r ordered.
Proof.
  intros Hr. unfold row_entries, row_offsets. rewrite !z_at_indptr by lia.
  destruct (ordered_split r) as (rest & Hl & ->). rewrite len_app. cbn [csr_indices csr_data m csr_of].
  apply list_eq. intros i. unfold py_range. rewrite list_lookup_fmap.
  destruct (decide (i < length (of_row r ordered))%nat) as [Hi|Hi].
  - rewrite lookup_seqZ_lt by (unfold len; lia). cbn.
    destruct (lookup_lt_is_Some_2 _ _ Hi) as [e He].
    assert (ordered !! Z.to_nat (len (below r ordered) + Z.of_nat i) = Some e) as Ho.
    { replace (Z.to_nat _) with (length (below r ordered) + i)%nat by (unfold len; lia).
      transitivity ((below r ordered ++ of_row r ordered ++ rest) !! (length (below r ordered) + i)%nat); [by rewrite <- Hl|].
      rewrite lookup_app_r by lia. replace (_ + i - _)%nat with i by lia. by rewrite lookup_app_l. }
    unfold z_at, f_at. rewrite !list_lookup_fmap, Ho, He. cbn. f_equal.
    assert (entry_row e = r) as Hre.
    { apply list_elem_of_lookup_2 in He. apply list_elem_of_In, filter_In in He as [_ He]. by bool_hyps. }
    destruct e as [[a b] c]. unfold entry_row in Hre. cbn in Hre. subst r. unfold entry in *. by rewrite Ho.
  - rewrite lookup_seqZ_ge by (unfold len; lia). cbn. symmetry. apply lookup_ge_None. lia.
Qed.
Lemma of_rows_below n : 0 <= n -> flat_map (fun r => of_row r ordered) (py_range 0 n) = below n ordered.
Proof.
  intros Hn. rewrite <- (Z2Nat.id n Hn). induction (Z.to_nat n) as [|k IH].
  - cbn. symmetry. apply filter_none. destruct within_ok as [_ Hw]. eapply Forall_impl; [exact Hw|].
    intros e [? _]. apply Z.ltb_ge. lia.
  - rewrite <- (py_range_app 0 (Z.of_nat k)) by lia. rewrite flat_map_app, IH.
    replace (Z.of_nat (S k)) with (Z.of_nat k + 1) by lia. rewrite (py_range_cons (Z.of_nat k)), py_range_nil by lia.
    cbn. rewrite app_nil_r. destruct (ordered_split (Z.of_nat k)) as (_ & _ & ->). done.
Qed.
Lemma iter_entries_csr_of : iter_entries m = ordered.
Proof.
  unfold iter_entries. transitivity (below rows ordered); [|apply below_rows]. rewrite <- of_rows_below by done.
  rewrite !flat_map_concat_map. f_equal. apply map_ext_in. intros r Hr.
  apply row_entries_of_row. by apply list_elem_of_In, elem_of_py_range in Hr.
Qed.
End csr_of.

(** ** Validity *)

Lemma pairwise_cons {A} (x y : A) l : pairwise (x :: y :: l) = (x, y) :: pairwise (y :: l).
Proof. done. Qed.
Lemma pairwise_map_range {B} (f : Z -> B) a n x y : In (x, y) (pairwise (map f (py_range a (a + Z.of_nat n)))) ->
  exists r, a <= r /\ r + 1 < a + Z.of_nat n /\ x = f r /\ y = f (r + 1).
Proof.
  revert a. induction n as [|[|n] IH]; intros a; [by rewrite py_range_nil by lia|..].
  { rewrite py_range_cons, py_range_nil by lia. done. }
  rewrite py_range_cons by lia. rewrite (py_range_cons (a + 1)) by lia. cbn [map]. rewrite pairwise_cons.
  intros [[= <- <-]|Hin].
  - exists a. split_and!; [lia..|done|done].
  - change (f (a + 1) :: map f (py_range (a + 1 + 1) (a + Z.of_nat (S (S n)))))
      with (map f ((a + 1) :: py_range (a + 1 + 1) (a + Z.of_nat (S (S n))))) in Hin.
    rewrite <- py_range_cons in Hin by lia. replace (a + Z.of_nat (S (S n))) with (a + 1 + Z.of_nat (S n)) in Hin by lia.
    apply IH in Hin as (r & ? & ? & -> & ->). exists r. split_and!; [lia..|done|done].
Qed.
Lemma pairwise_sorted {A} (R : A -> A -> Prop) l x y : StronglySorted R l -> In (x, y) (pairwise l) -> R x y.
Proof.
  induction 1 as [|a l Hs IH Ha]; [done|]. destruct l as [|b l]; [done|]. intros [[= <- <-]|Hin]; [|by apply IH].
  by inversion Ha.
Qed.
Lemma below_grows r s ordered : r <= s -> len (below r ordered) <= len (below s ordered).
Proof.
  intros Hrs. unfold below. induction ordered as [|e l IH]; [done|]. cbn [List.filter].
  destruct (entry_row e <? r) eqn:E1, (entry_row e <? s) eqn:E2; bool_hyps; rewrite ?len_cons; lia.
Qed.

Lemma csr_of_valid rows columns ordered : 0 <= rows -> 0 <= columns -> sorted_within rows columns ordered ->
  csr_valid (csr_of rows columns ordered) = true.
Proof.
  intros Hr Hc Hw. pose proof Hw as [Hs Hall]. unfold csr_valid.
  assert (len (csr_indptr (csr_of rows columns ordered)) = rows + 1) as Hlen.
  { cbn. rewrite len_mapped. unfold len. rewrite length_py_range. lia. }
  rewrite !andb_true_iff. split_and!.
  - cbn. rewrite negb_true_iff. apply Z.ltb_ge. lia.
  - cbn. rewrite negb_true_iff. apply Z.ltb_ge. lia.
  - cbn. apply forallb_forall. intros v (e & <- & He)%in_map_iff. apply list_elem_of_In in He.
    by eapply Forall_forall in Hall as (_ & _ & ?); [|exact He].
  - rewrite Hlen. cbn. by apply Z.eqb_eq.
  - rewrite z_at_indptr by lia. rewrite (below_none 0 ordered rows); [done|].
    eapply Forall_impl; [exact Hall|]. by intros e (? & _).
  - rewrite negb_true_iff. apply existsb_false_iff. intros [x y] Hin%list_elem_of_In. cbn in Hin.
    replace (rows + 1) with (0 + Z.of_nat (Z.to_nat (rows + 1))) in Hin by lia.
    apply pairwise_map_range in Hin as (r & _ & _ & -> & ->). apply Z.ltb_ge. apply below_grows. lia.
  - rewrite Hlen. replace (rows + 1 - 1) with rows by lia. rewrite z_at_indptr by lia. rewrite (below_rows rows columns ordered) by done.
    cbn. rewrite len_mapped. apply Z.eqb_refl.
  - cbn. rewrite !len_mapped. apply Z.eqb_refl.
  - apply forallb_forall. intros r Hin%list_elem_of_In%elem_of_py_range. cbn [csr_rows csr_of] in Hin.
    rewrite row_slice by done. apply andb_true_iff. split; rewrite negb_true_iff; apply existsb_false_iff.
    + intros c (e & -> & He)%list_elem_of_fmap. apply list_elem_of_In, filter_In in He as [He%list_elem_of_In _].
      eapply Forall_forall in Hall as (_ & Hcol & _); [|exact He]. cbn. rewrite orb_false_iff, Z.ltb_ge, Z.leb_gt. lia.
    + intros [x y] Hxy%list_elem_of_In. apply Z.leb_gt.
      apply (pairwise_sorted (fun x y => x < y) (map entry_column (of_row r ordered))); [|done]. clear -Hs.
      induction ordered as [|e l IH]; [constructor|]. unfold of_row in *. cbn [List.filter].
      inversion_clear Hs as [|? ? Hs' He]. specialize (IH Hs'). destruct (entry_row e =? r) eqn:Er; [|done].
      cbn. constructor; [done|]. apply Forall_forall. intros c (e' & -> & He')%list_elem_of_fmap.
      apply list_elem_of_In, filter_In in He' as [He'%list_elem_of_In Er']. eapply Forall_forall in He; [|exact He'].
      revert He. unfold entry_lt, key_lt, entry_key, entry_column. rewrite orb_true_iff, andb_true_iff, !Z.ltb_lt.
      unfold entry_row in *. bool_hyps. lia.
Qed.

(** ** Construction *)

Lemma sorted_entries_within rows columns acc : accumulated_ok rows columns acc ->
  sorted_within rows columns (sorted_entries acc).
Proof.
  intros Hacc. split; [apply sorted_entries_strict|]. apply Forall_forall. intros e [He _]%sorted_entries_elem.
  by apply Hacc in He.
Qed.
(** Construction succeeds exactly when the accumulation does. *)
Lemma from_entries_spec rows columns entries : 0 <= rows -> 0 <= columns ->
  from_entries (rows, columns) entries =
  match accumulate_all rows columns ∅ entries with
  | Ok acc => Ok (csr_of rows columns (sorted_entries acc))
  | Err e => Err e
  end.
Proof.
  intros Hr Hc. unfold from_entries. rewrite raise_if_false.
  2: { by rewrite (proj2 (Z.ltb_ge rows 0)), (proj2 (Z.ltb_ge columns 0)). }
  destruct (accumulate_all _ _ _ _) as [acc|e] eqn:Hacc; cbn [mbind result_bind]; [|done].
  apply accumulate_all_ok in Hacc; [|by intros k v ?]. apply sorted_entries_within in Hacc.
  rewrite (fill_rows_csr rows columns) by done. unfold CsrMatrix_new.
  pose proof (csr_of_valid rows columns _ Hr Hc Hacc) as Hv. unfold csr_of in *. cbn [csr_indptr csr_indices csr_data].
  by rewrite Hv.
Qed.
(** The matrix of entries under distinct keys has those entries. *)
Lemma from_entries_distinct rows columns entries : 0 <= rows -> 0 <= columns ->
  Forall (entry_ok rows columns) entries -> NoDup (map entry_key entries) ->
  exists m, from_entries (rows, columns) entries = Ok m /\ csr_valid m = true /\ csr_shape m = (rows, columns)
    /\ iter_entries m ≡ₚ entries.
Proof.
  intros Hr Hc Hok Hnd. rewrite from_entries_spec by done.
  destruct (accumulate_all_distinct rows columns entries ∅ Hok Hnd) as (acc & Hacc & Hp); [done|].
  rewrite Hacc. rewrite map_to_list_empty, app_nil_r in Hp.
  apply accumulate_all_ok in Hacc; [|by intros k v ?]. pose proof (sorted_entries_within _ _ _ Hacc) as Hw.
  exists (csr_of rows columns (sorted_entries acc)). split_and!; [done|by apply csr_of_valid|done|].
  rewrite iter_entries_csr_of by done. unfold sorted_entries. rewrite py_sorted_perm, filter_all_true; [done|].
  rewrite Hp. eapply Forall_impl; [exact Hok|]. intros e (_ & _ & _ & ->). done.
Qed.
