(* ===== verification/Backends.v ===== *)
(** Linear solvers ([context_graph/backends.py]): the policy, the pure-Python
    elimination, the NumPy and SciPy backends around their library calls, and
    the automatic choice.  NumPy and SciPy are parameters: whatever they return
    is checked by the code as written here. *)
From S2P Require Import Prelude PyString PyFloat Domain Runtime Segmenter Budget BudgetProperties GraphTypes Matrix.
Open Scope string_scope.
Open Scope list_scope.
Open Scope Z_scope.

Inductive SolveStatus :=
| CONVERGED | LEAST_SQUARES | ILL_CONDITIONED | SINGULAR | NONFINITE_INPUT | NONFINITE_OUTPUT | ITERATION_LIMIT
| BACKEND_UNAVAILABLE | BACKEND_CAPACITY_EXCEEDED | INVALID_INPUT.
#[export] Instance SolveStatus_eq_dec : EqDecision SolveStatus.
Proof. solve_decision. Defined.
(** [status.value] *)
Definition solve_status_value (s : SolveStatus) : string :=
  match s with
  | CONVERGED => "CONVERGED" | LEAST_SQUARES => "LEAST_SQUARES" | ILL_CONDITIONED => "ILL_CONDITIONED"
  | SINGULAR => "SINGULAR" | NONFINITE_INPUT => "NONFINITE_INPUT" | NONFINITE_OUTPUT => "NONFINITE_OUTPUT"
  | ITERATION_LIMIT => "ITERATION_LIMIT" | BACKEND_UNAVAILABLE => "BACKEND_UNAVAILABLE"
  | BACKEND_CAPACITY_EXCEEDED => "BACKEND_CAPACITY_EXCEEDED" | INVALID_INPUT => "INVALID_INPUT"
  end.

Record SolvePolicy := {
  sp_allow_least_squares : bool; sp_prefer_iterative : bool; sp_direct_backward_error_limit : float;
  sp_iterative_backward_error_limit : float; sp_condition_warning : float; sp_condition_failure : float;
  sp_python_max_n : Z; sp_python_max_nnz : Z; sp_numpy_max_n : Z; sp_numpy_max_dense_bytes : Z;
  sp_sparse_max_n : Z; sp_sparse_max_nnz : Z; sp_max_iterations : Z;
}.
Definition SolvePolicy_valid (p : SolvePolicy) : bool :=
  forallb (fun value => f_is_finite value && negb (f_le value f_zero))
    [sp_direct_backward_error_limit p; sp_iterative_backward_error_limit p; sp_condition_warning p; sp_condition_failure p]
  && negb (f_le (sp_condition_failure p) (sp_condition_warning p))
  && forallb (fun value => negb (value <=? 0))
    [sp_python_max_n p; sp_python_max_nnz p; sp_numpy_max_n p; sp_numpy_max_dense_bytes p; sp_sparse_max_n p;
     sp_sparse_max_nnz p; sp_max_iterations p]
  && negb ((64 <? sp_python_max_n p) || (4096 <? sp_python_max_nnz p)) && negb (1024 <? sp_numpy_max_n p)
  && negb (64 * 1024 * 1024 <? sp_numpy_max_dense_bytes p).
Definition default_policy : SolvePolicy :=
  {| sp_allow_least_squares := false; sp_prefer_iterative := false; sp_direct_backward_error_limit := f_1e_10;
     sp_iterative_backward_error_limit := f_1e_8; sp_condition_warning := f_1e12; sp_condition_failure := f_1e14;
     sp_python_max_n := 64; sp_python_max_nnz := 4096; sp_numpy_max_n := 1024; sp_numpy_max_dense_bytes := 64 * 1024 * 1024;
     sp_sparse_max_n := 100000; sp_sparse_max_nnz := 5000000; sp_max_iterations := 10000 |}.

Record LinearSolveResult := {
  ls_status : SolveStatus; ls_solution : option (list float); ls_backend_name : string; ls_backward_error : float;
  ls_condition_estimate : option float; ls_iterations : option Z;
}.
(** What leaves a backend as an exception: a [ValueError] of the matrix code, or
    an exception of a library that the backend has no case for. *)
Inductive backend_error := BackendValueError | BackendException.
Definition backend_matrix {A} (r : result matrix_error A) : result backend_error A :=
  match r with Ok a => Ok a | Err _ => Err BackendValueError end.

(** [_stable_result] *)
Definition _stable_result (status : SolveStatus) (backend_name : string) (solution : option (list float)) (error : float)
    (condition : option float) (iterations : option Z) : LinearSolveResult :=
  {| ls_status := status; ls_solution := solution; ls_backend_name := backend_name; ls_backward_error := error;
     ls_condition_estimate := condition; ls_iterations := iterations |}.
Definition no_solution (status : SolveStatus) (backend_name : string) : LinearSolveResult :=
  _stable_result status backend_name None f_inf None None.
Definition empty_solution (backend_name : string) : LinearSolveResult :=
  _stable_result CONVERGED backend_name (Some []) f_zero (Some f_one) None.

(** [_validated_rhs]: a status, or nothing when the input is usable. *)
Definition _validated_rhs (m : CsrMatrix) (rhs : list float) : option SolveStatus :=
  if negb (csr_rows m =? csr_columns m) then Some INVALID_INPUT
  else if negb (len rhs =? csr_rows m) then Some INVALID_INPUT
  else if existsb (fun value => negb (f_is_finite value)) rhs then Some NONFINITE_INPUT
  else None.
(** [_classified_status] *)
Definition _classified_status (error : float) (condition : option float) (policy : SolvePolicy) (iterative : bool) : SolveStatus :=
  if negb (f_is_finite error) then NONFINITE_OUTPUT else
  let limit := if iterative then sp_iterative_backward_error_limit policy else sp_direct_backward_error_limit policy in
  if f_lt limit error then ILL_CONDITIONED else
  match condition with
  | Some c =>
      if negb (f_is_finite c) then ILL_CONDITIONED
      else if f_le (sp_condition_failure policy) c then ILL_CONDITIONED
      else if f_le (sp_condition_warning policy) c then ILL_CONDITIONED
      else CONVERGED
  | None => CONVERGED
  end.
(** [_condition_failed] *)
Definition _condition_failed (condition : option float) (policy : SolvePolicy) : bool :=
  match condition with
  | Some c => negb (f_is_finite c) || f_le (sp_condition_failure policy) c
  | None => false
  end.
(** The end the direct backends share: classify, and keep the solution unless
    the condition failed. *)
Definition classified_result (name : string) (solution : list float) (error : float) (condition : option float)
    (policy : SolvePolicy) : LinearSolveResult :=
  let status := _classified_status error condition policy false in
  if _condition_failed condition policy then _stable_result status name None error condition None
  else _stable_result status name (Some solution) error condition None.

(** ** The libraries *)

(** What a library call ends in; [LinAlgError] apart, the exceptions are grouped as the code catches them. *)
Inductive lib_outcome (A : Type) :=
| Returned (a : A)
| LinAlgError
| OutOfMemory                (* MemoryError *)
| BadValue                   (* TypeError, ValueError, OverflowError *)
| LibRuntimeError            (* RuntimeError *)
| LibOther.                  (* anything else *)
Arguments Returned {A} a.
Arguments LinAlgError {A}.
Arguments OutOfMemory {A}.
Arguments BadValue {A}.
Arguments LibRuntimeError {A}.
Arguments LibOther {A}.
(** The library calls of the two backends.  Arrays are the lists they are made
    of and read back as; [splu] and its solve are one call, and so are the
    estimates of the two one-norms. *)
Class NumericLibraries := {
  numpy_installed : bool; scipy_installed : bool;
  lin_alg_error_is_value_error : bool;   (* NumPy made it a subclass of ValueError *)
  np_cond : list (list float) -> lib_outcome float;
  np_solve : list (list float) -> list float -> lib_outcome (list float);
  np_lstsq : list (list float) -> list float -> lib_outcome (list float * Z);
  sp_gmres : CsrMatrix -> list float -> float -> Z -> lib_outcome (list float * Z * Z);  (* output, info, callbacks *)
  sp_splu_solve : CsrMatrix -> list float -> lib_outcome (list float);
  sp_dense_cond : CsrMatrix -> lib_outcome float;
  sp_norm_estimates : CsrMatrix -> lib_outcome float;
}.

Section backends.
Context `{FloatSum}.

(** ** The reference backend *)

(** [sys.float_info.epsilon], [2 ** -52] *)
Definition float_epsilon : float := SpecFloat.S754_finite false 4503599627370496 (-104).
Definition row_at (dense : list (list float)) (row : Z) : list float := default [] (dense !! Z.to_nat row).
Definition cell (dense : list (list float)) (row column : Z) : float := f_at (row_at dense row) column.
(** [max(range(column, size), key=...)]: the first row of the greatest magnitude. *)
Definition pivot_row (dense : list (list float)) (column size : Z) : Z :=
  foldl (fun best row => if f_lt (f_abs (cell dense best column)) (f_abs (cell dense row column)) then row else best)
    column (py_range (column + 1) size).
Definition swap {A} (i j : Z) (l : list A) : list A :=
  match l !! Z.to_nat i, l !! Z.to_nat j with
  | Some x, Some y => <[Z.to_nat j := x]> (<[Z.to_nat i := y]> l)
  | _, _ => l
  end.
(** One row below the pivot: the column becomes zero, the rest loses a multiple of the pivot's row. *)
Definition eliminate_row (column : Z) (pivot : float) (pivot_cells : list float) (cells : list float) : list float :=
  let factor := f_div (f_at cells column) pivot in
  map (fun '(offset, value) =>
    if offset <? column then value else
    if offset =? column then f_zero else f_sub value (f_mul factor (f_at pivot_cells offset))) (enumerate cells).
Definition eliminate_column (column size : Z) (dense : list (list float)) (rhs : list float) : list (list float) * list float :=
  let pivot := cell dense column column in
  let pivot_cells := row_at dense column in
  (map (fun '(row, cells) => if column <? row then eliminate_row column pivot pivot_cells cells else cells) (enumerate dense),
   map (fun '(row, value) =>
     if column <? row then f_sub value (f_mul (f_div (cell dense row column) pivot) (f_at rhs column)) else value) (enumerate rhs)).
(** The loop over the columns; [None] is a singular matrix. *)
Fixpoint eliminate (columns : list Z) (size : Z) (pivot_tolerance : float) (dense : list (list float)) (rhs : list float)
    (pivots : list float) : option (list (list float) * list float * list float) :=
  match columns with
  | [] => Some (dense, rhs, pivots)
  | column :: columns =>
      let chosen := pivot_row dense column size in
      if f_le (f_abs (cell dense chosen column)) pivot_tolerance then None else
      let dense := if chosen =? column then dense else swap column chosen dense in
      let rhs := if chosen =? column then rhs else swap column chosen rhs in
      let pivots := pivots ++ [f_abs (cell dense column column)] in
      let '(dense, rhs) := eliminate_column column size dense rhs in
      eliminate columns size pivot_tolerance dense rhs pivots
  end.
(** Back substitution, from the last row. *)
Fixpoint substitute_back (rows : list Z) (size : Z) (pivot_tolerance : float) (dense : list (list float)) (rhs solution : list float)
    : option (list float) :=
  match rows with
  | [] => Some solution
  | row :: rows =>
      let pivot := cell dense row row in
      if f_le (f_abs pivot) pivot_tolerance then None else
      let known := float_sum (map (fun column => f_mul (cell dense row column) (f_at solution column)) (py_range (row + 1) size)) in
      substitute_back rows size pivot_tolerance dense rhs (<[Z.to_nat row := f_div (f_sub (f_at rhs row) known) pivot]> solution)
  end.
(** [PythonReferenceBackend.solve] *)
Definition python_solve (m : CsrMatrix) (rhs : list float) (policy : SolvePolicy) : result backend_error LinearSolveResult :=
  let name := "python-reference" in
  match _validated_rhs m rhs with
  | Some status => Ok (no_solution status name)
  | None =>
      let size := csr_rows m in
      if (sp_python_max_n policy <? size) || (sp_python_max_nnz policy <? nnz m)
      then Ok (no_solution BACKEND_CAPACITY_EXCEEDED name) else
      if size =? 0 then Ok (empty_solution name) else
      dense ← backend_matrix (to_dense m 64 (64 * 64 * 8));
      let scale := matrix_infinity_norm m in
      if scale ==? f_zero then Ok (no_solution SINGULAR name) else
      let pivot_tolerance := f_mul (f_mul float_epsilon scale) (f_of_Z (Z.max size 1)) in
      match eliminate (py_range 0 size) size pivot_tolerance dense rhs [] with
      | None => Ok (no_solution SINGULAR name)
      | Some (dense, working_rhs, pivot_magnitudes) =>
          match substitute_back (rev (py_range 0 size)) size pivot_tolerance dense working_rhs (replicate (Z.to_nat size) f_zero) with
          | None => Ok (no_solution SINGULAR name)
          | Some solution =>
              if existsb (fun value => negb (f_is_finite value)) solution then Ok (no_solution NONFINITE_OUTPUT name) else
              error ← backend_matrix (backward_error m solution rhs);
              let minimum_pivot := f_min_list f_inf pivot_magnitudes in
              let maximum_pivot := match pivot_magnitudes with [] => f_zero | p :: rest => foldl f_max p rest end in
              let condition := if f_lt f_zero minimum_pivot then f_div maximum_pivot minimum_pivot else f_inf in
              Ok (classified_result name solution error (Some condition) policy)
          end
      end
  end.

(** ** NumPy *)

Section libraries.
Context `{NumericLibraries}.
(** The clauses of the [try] statement: [MemoryError] is exhausted capacity,
    the value errors (of [to_dense] too) are non-finite output. *)
Definition numpy_caught {A} (name : string) (o : lib_outcome A) : result backend_error (A + LinearSolveResult) :=
  match o with
  | Returned a => Ok (inl a)
  | OutOfMemory => Ok (inr (no_solution BACKEND_CAPACITY_EXCEEDED name))
  | BadValue => Ok (inr (no_solution NONFINITE_OUTPUT name))
  | LinAlgError => if lin_alg_error_is_value_error then Ok (inr (no_solution NONFINITE_OUTPUT name)) else Err BackendException
  | LibRuntimeError | LibOther => Err BackendException
  end.
(** After the libraries: the output is checked against the matrix. *)
Definition numpy_finish (name : string) (m : CsrMatrix) (rhs : list float) (policy : SolvePolicy) (condition : float)
    (output : list float) (least_squares_rank : option Z) : result backend_error LinearSolveResult :=
  if existsb (fun value => negb (f_is_finite value)) output
  then Ok (_stable_result NONFINITE_OUTPUT name None f_inf (Some condition) None) else
  error ← backend_matrix (backward_error m output rhs);
  match least_squares_rank with
  | Some rank =>
      if rank <? csr_rows m then Ok (_stable_result SINGULAR name None error (Some condition) None) else
      let classified := _classified_status error (Some condition) policy false in
      if negb (eqb_of classified CONVERGED) then Ok (_stable_result classified name None error (Some condition) None) else
      Ok (_stable_result LEAST_SQUARES name (Some output) error (Some condition) None)
  | None => Ok (classified_result name output error (Some condition) policy)
  end.
(** [NumpyDenseBackend.solve] *)
Definition numpy_solve (m : CsrMatrix) (rhs : list float) (policy : SolvePolicy) : result backend_error LinearSolveResult :=
  let name := "numpy-dense" in
  match _validated_rhs m rhs with
  | Some status => Ok (no_solution status name)
  | None =>
      let size := csr_rows m in
      if (sp_numpy_max_n policy <? size) || (sp_numpy_max_dense_bytes policy <? size * size * 8)
      then Ok (no_solution BACKEND_CAPACITY_EXCEEDED name) else
      if size =? 0 then Ok (empty_solution name) else
      if negb numpy_installed then Ok (no_solution BACKEND_UNAVAILABLE name) else
      match to_dense m (sp_numpy_max_n policy) (sp_numpy_max_dense_bytes policy) with
      | Err _ => Ok (no_solution NONFINITE_OUTPUT name)
      | Ok dense =>
          condition ← numpy_caught name (np_cond dense);
          match condition with
          | inr r => Ok r
          | inl condition =>
              match np_solve dense rhs with
              | LinAlgError =>
                  if negb (sp_allow_least_squares policy)
                  then Ok (_stable_result SINGULAR name None f_inf (Some condition) None) else
                  squares ← numpy_caught name (np_lstsq dense rhs);
                  match squares with
                  | inr r => Ok r
                  | inl (output, rank) => numpy_finish name m rhs policy condition output (Some rank)
                  end
              | o =>
                  solved ← numpy_caught name o;
                  match solved with
                  | inr r => Ok r
                  | inl output => numpy_finish name m rhs policy condition output None
                  end
              end
          end
      end
  end.

(** ** SciPy *)

(** The clauses of its [try] statement: runtime and value errors are a singular matrix. *)
Definition scipy_caught {A} (name : string) (o : lib_outcome A) : result backend_error (A + LinearSolveResult) :=
  match o with
  | Returned a => Ok (inl a)
  | OutOfMemory => Ok (inr (no_solution BACKEND_CAPACITY_EXCEEDED name))
  | BadValue | LibRuntimeError => Ok (inr (no_solution SINGULAR name))
  | LinAlgError => if lin_alg_error_is_value_error then Ok (inr (no_solution SINGULAR name)) else Err BackendException
  | LibOther => Err BackendException
  end.
(** A [ValueError] of [backward_error] inside the [try] statement. *)
Definition scipy_matrix {A} (name : string) (r : result matrix_error A) : A + LinearSolveResult :=
  match r with Ok a => inl a | Err _ => inr (no_solution SINGULAR name) end.
Definition scipy_iterative (name : string) (m : CsrMatrix) (rhs : list float) (policy : SolvePolicy)
    : result backend_error LinearSolveResult :=
  solved ← scipy_caught name (sp_gmres m rhs (sp_iterative_backward_error_limit policy) (sp_max_iterations policy));
  match solved with
  | inr r => Ok r
  | inl (output, info, iterations) =>
      if info <? 0 then Ok (_stable_result SINGULAR name None f_inf None (Some iterations)) else
      if existsb (fun value => negb (f_is_finite value)) output
      then Ok (_stable_result NONFINITE_OUTPUT name None f_inf None (Some iterations)) else
      match scipy_matrix name (backward_error m output rhs) with
      | inr r => Ok r
      | inl error =>
          if 0 <? info then Ok (_stable_result ITERATION_LIMIT name (Some output) error None (Some iterations)) else
          Ok (_stable_result (_classified_status error None policy true) name (Some output) error None (Some iterations))
      end
  end.
Definition scipy_direct (name : string) (m : CsrMatrix) (rhs : list float) (policy : SolvePolicy)
    : result backend_error LinearSolveResult :=
  solved ← scipy_caught name (sp_splu_solve m rhs);
  match solved with
  | inr r => Ok r
  | inl output =>
      condition ← scipy_caught name (if csr_rows m <=? 256 then sp_dense_cond m else sp_norm_estimates m);
      match condition with
      | inr r => Ok r
      | inl condition =>
          if existsb (fun value => negb (f_is_finite value)) output
          then Ok (_stable_result NONFINITE_OUTPUT name None f_inf (Some condition) None) else
          error ← backend_matrix (backward_error m output rhs);
          Ok (classified_result name output error (Some condition) policy)
      end
  end.
(** [ScipySparseBackend.solve] *)
Definition scipy_solve (m : CsrMatrix) (rhs : list float) (policy : SolvePolicy) : result backend_error LinearSolveResult :=
  let name := "scipy-sparse" in
  match _validated_rhs m rhs with
  | Some status => Ok (no_solution status name)
  | None =>
      let size := csr_rows m in
      if (sp_sparse_max_n policy <? size) || (sp_sparse_max_nnz policy <? nnz m)
      then Ok (no_solution BACKEND_CAPACITY_EXCEEDED name) else
      if size =? 0 then Ok (empty_solution name) else
      if negb (numpy_installed && scipy_installed) then Ok (no_solution BACKEND_UNAVAILABLE name) else
      if sp_prefer_iterative policy then scipy_iterative name m rhs policy else scipy_direct name m rhs policy
  end.

(** ** The choice *)

Definition backend_declined (status : SolveStatus) : bool :=
  eqb_of status BACKEND_UNAVAILABLE || eqb_of status BACKEND_CAPACITY_EXCEEDED.
(** [AutoLinearAlgebraBackend.solve] *)
Definition auto_solve (prefer_sparse : bool) (m : CsrMatrix) (rhs : list float) (policy : SolvePolicy)
    : result backend_error LinearSolveResult :=
  if prefer_sparse then
    sparse_result ← scipy_solve m rhs policy;
    if negb (backend_declined (ls_status sparse_result)) then Ok sparse_result else
    if eqb_of (ls_status sparse_result) BACKEND_CAPACITY_EXCEEDED
       && ((sp_numpy_max_n policy <? csr_rows m) || (sp_numpy_max_dense_bytes policy <? csr_rows m * csr_rows m * 8))
    then Ok sparse_result else numpy_solve m rhs policy
  else numpy_solve m rhs policy.
End libraries.
End backends.
