(* ===== verification/Constraints.v ===== *)
(** Hard constraints of the context graph ([context_graph/constraints.py]): the
    disjoint sets, the classification of rows, and [compile_constraints], which
    turns fixes and equalities into an independent solve system. *)
From S2P Require Import Prelude PyString PyFloat Domain Runtime Segmenter Budget BudgetProperties GraphTypes Matrix.
Open Scope list_scope.
Open Scope Z_scope.

Inductive ConstraintErrorCode := UNSUPPORTED | CONTRADICTORY | UNKNOWN_COORDINATE | INVALID_COORDINATES.
#[export] Instance ConstraintErrorCode_eq_dec : EqDecision ConstraintErrorCode.
Proof. solve_decision. Defined.
Inductive constraint_error :=
| ConstraintSystemError (code : ConstraintErrorCode)
| ConstraintValueError           (* of the matrices and of [CompiledConstraints]; proved unreachable *)
| ConstraintKeyError.            (* a missing parent, or a chain of parents without end; proved unreachable *)

Record CompiledConstraints := {
  cc_coordinate_ids : list string; cc_matrix : CsrMatrix; cc_rhs : list float; cc_certificate_matrix : CsrMatrix;
  cc_certificate_rhs : list float; cc_supports : list (string * list string);
}.
(** [CompiledConstraints.__post_init__] *)
Definition CompiledConstraints_valid (c : CompiledConstraints) : bool :=
  let size := len (cc_coordinate_ids c) in
  no_duplicates (cc_coordinate_ids c)
  && (csr_columns (cc_matrix c) =? size) && (csr_rows (cc_matrix c) =? len (cc_rhs c))
  && (csr_columns (cc_certificate_matrix c) =? size) && (csr_rows (cc_certificate_matrix c) =? len (cc_certificate_rhs c))
  && (len (cc_supports c) =? csr_rows (cc_certificate_matrix c)).
(** [support_coordinate_ids] *)
Definition support_coordinate_ids (c : CompiledConstraints) : list string :=
  List.filter (fun id => existsb (fun s => bool_decide (id ∈ s.2)) (cc_supports c)) (cc_coordinate_ids c).

(** ** Disjoint sets *)

(** The [_parent] dictionary. *)
Abbreviation DisjointSet := (gmap string string).
Definition disjoint_set (values : list string) : DisjointSet := list_to_map (map (fun value => (value, value)) values).
(** [find]: the root, and the parents with the path compressed. *)
Fixpoint find (fuel : nat) (parents : DisjointSet) (value : string) : option (DisjointSet * string) :=
  match fuel with
  | O => None
  | S fuel =>
      match parents !! value with
      | None => None
      | Some parent =>
          if parent ==? value then Some (parents, parent) else
          match find fuel parents parent with
          | None => None
          | Some (parents, root) => Some (<[value := root]> parents, root)
          end
      end
  end.
(** [union] *)
Definition union (fuel : nat) (parents : DisjointSet) (left right : string) : option DisjointSet :=
  '(parents, left_root) ← find fuel parents left;
  '(parents, right_root) ← find fuel parents right;
  Some (if left_root !=? right_root then <[right_root := left_root]> parents else parents).

(** ** Rows *)

Inductive parsed_row := Fix (coordinate_id : string) (value : float) | Equality (left_id right_id : string).
(** [_classify_constraint] *)
Definition _classify_constraint (row : ConstraintRow) : result constraint_error parsed_row :=
  match cr_terms row with
  | [(coordinate_id, coefficient)] =>
      if (coefficient ==? f_one) && ((cr_rhs row ==? f_zero) || (cr_rhs row ==? f_one))
      then Ok (Fix coordinate_id (cr_rhs row)) else Err (ConstraintSystemError UNSUPPORTED)
  | [(left_id, left_coefficient); (right_id, right_coefficient)] =>
      if (cr_rhs row ==? f_zero) && ((left_coefficient ==? f_minus_one) || (left_coefficient ==? f_one))
         && (right_coefficient ==? f_neg left_coefficient)
      then Ok (Equality left_id right_id) else Err (ConstraintSystemError UNSUPPORTED)
  | _ => Err (ConstraintSystemError UNSUPPORTED)
  end.
Definition parse_row (coordinates : list string) (row : ConstraintRow) : result constraint_error parsed_row :=
  raise (ConstraintSystemError UNKNOWN_COORDINATE) when existsb (fun t => bool_decide (t.1 ∉ coordinates)) (cr_terms row);;
  _classify_constraint row.
(** [index[coordinate_id]] of a known coordinate. *)
Definition coordinate_index (coordinates : list string) (id : string) : Z := default 0 (index_of coordinates id).
Definition certificate_entries (coordinates : list string) (rows : list ConstraintRow) : list entry :=
  flat_map (fun '(row_index, row) =>
    map (fun '(id, coefficient) => (row_index, coordinate_index coordinates id, coefficient)) (cr_terms row))
    (enumerate rows).

(** ** The loops of [compile_constraints] *)

Section loops.
Variables (coordinates : list string).
Let fuel := S (length coordinates).

Definition union_step (parents : DisjointSet) (p : parsed_row) : option DisjointSet :=
  match p with
  | Equality left_id right_id => union fuel parents left_id right_id
  | Fix _ _ => Some parents
  end.
Fixpoint union_all (parents : DisjointSet) (parsed : list parsed_row) : option DisjointSet :=
  match parsed with
  | [] => Some parents
  | p :: parsed => parents ← union_step parents p; union_all parents parsed
  end.
(** [fixed_by_root] *)
Definition fix_step (state : DisjointSet * gmap string float) (p : parsed_row)
    : result constraint_error (DisjointSet * gmap string float) :=
  let '(parents, fixed_by_root) := state in
  match p with
  | Equality _ _ => Ok state
  | Fix id fixed_value =>
      match find fuel parents id with
      | None => Err ConstraintKeyError
      | Some (parents, root) =>
          raise (ConstraintSystemError CONTRADICTORY) when
            (match fixed_by_root !! root with Some existing => existing !=? fixed_value | None => false end);;
          Ok (parents, <[root := fixed_value]> fixed_by_root)
      end
  end.
(** [groups.setdefault(root, []).append(coordinate_id)] *)
Fixpoint add_to_group (root coordinate_id : string) (groups : list (string * list string)) : list (string * list string) :=
  match groups with
  | [] => [(root, [coordinate_id])]
  | (r, members) :: groups =>
      if r ==? root then (r, members ++ [coordinate_id]) :: groups
      else (r, members) :: add_to_group root coordinate_id groups
  end.
Definition group_step (state : DisjointSet * list (string * list string)) (coordinate_id : string)
    : option (DisjointSet * list (string * list string)) :=
  let '(parents, groups) := state in
  '(parents, root) ← find fuel parents coordinate_id;
  Some (parents, add_to_group root coordinate_id groups).
Fixpoint group_all (state : DisjointSet * list (string * list string)) (ids : list string)
    : option (DisjointSet * list (string * list string)) :=
  match ids with
  | [] => Some state
  | id :: ids => state ← group_step state id; group_all state ids
  end.

(** What the last loop builds: the parents, the rows so far, their right-hand sides. *)
Record Solving := { so_parents : DisjointSet; so_entries : list entry; so_rhs : list float }.
Definition so_row (s : Solving) : Z := len (so_rhs s).
Definition member_row (anchor : string) (s : Solving) (member : string) : Solving :=
  {| so_parents := so_parents s;
     so_entries := so_entries s ++ [(so_row s, coordinate_index coordinates anchor, f_one);
                                    (so_row s, coordinate_index coordinates member, f_minus_one)];
     so_rhs := so_rhs s ++ [f_zero] |}.
Definition group_rows (fixed_by_root : gmap string float) (s : Solving) (members : list string) : option Solving :=
  match members with
  | [] => None
  | anchor :: rest =>
      let s := foldl (member_row anchor) s rest in
      '(parents, root) ← find fuel (so_parents s) anchor;
      Some (match fixed_by_root !! root with
            | None => {| so_parents := parents; so_entries := so_entries s; so_rhs := so_rhs s |}
            | Some value =>
                {| so_parents := parents;
                   so_entries := so_entries s ++ [(so_row s, coordinate_index coordinates anchor, f_one)];
                   so_rhs := so_rhs s ++ [value] |}
            end)
  end.
Fixpoint solve_rows (fixed_by_root : gmap string float) (s : Solving) (groups : list (string * list string)) : option Solving :=
  match groups with
  | [] => Some s
  | (_, members) :: groups => s ← group_rows fixed_by_root s members; solve_rows fixed_by_root s groups
  end.
End loops.

Definition no_key {A} (r : option A) : result constraint_error A :=
  match r with Some a => Ok a | None => Err ConstraintKeyError end.
Definition matrix_of (r : result matrix_error CsrMatrix) : result constraint_error CsrMatrix :=
  match r with Ok m => Ok m | Err _ => Err ConstraintValueError end.
Definition compile_constraints (coordinates : list string) (rows : list ConstraintRow)
    : result constraint_error CompiledConstraints :=
  raise (ConstraintSystemError INVALID_COORDINATES) when existsb is_empty coordinates;;
  raise (ConstraintSystemError INVALID_COORDINATES) when negb (no_duplicates coordinates);;
  parsed ← map_result (parse_row coordinates) rows;
  parents ← no_key (union_all coordinates (disjoint_set coordinates) parsed);
  fixed ← fold_result (fix_step coordinates) parsed (parents, ∅);
  grouped ← no_key (group_all coordinates (fixed.1, []) coordinates);
  solved ← no_key (solve_rows coordinates fixed.2 {| so_parents := grouped.1; so_entries := []; so_rhs := [] |} grouped.2);
  matrix ← matrix_of (from_entries (so_row solved, len coordinates) (so_entries solved));
  certificate_matrix ← matrix_of (from_entries (len rows, len coordinates) (certificate_entries coordinates rows));
  let compiled :=
    {| cc_coordinate_ids := coordinates; cc_matrix := matrix; cc_rhs := so_rhs solved;
       cc_certificate_matrix := certificate_matrix; cc_certificate_rhs := map cr_rhs rows;
       cc_supports := map (fun row => (cr_constraint_id row, map fst (cr_terms row))) rows |} in
  raise ConstraintValueError when negb (CompiledConstraints_valid compiled);;
  Ok compiled.
