(* ===== verification/ConstraintProperties.v ===== *)
(** Correctness of [compile_constraints] ([Constraints]): the search for a root
    ends, the disjoint sets are the classes of the equality rows, and over the
    rationals the compiled system has exactly the solutions of the given rows;
    the rows are called contradictory exactly when they have none. *)
From S2P Require Import Prelude PyString PyFloat Domain Runtime Segmenter Budget BudgetProperties GraphTypes Matrix.
From S2P Require Import MatrixProperties Constraints.
From Stdlib Require Import QArith Qpower Lqa SpecFloat.
Open Scope list_scope.
Open Scope Z_scope.

(** ** Disjoint sets *)

(** [chain parents n v r]: from [v], [n] parents lead to the root [r]. *)
Inductive chain (parents : DisjointSet) : nat -> string -> string -> Prop :=
| chain_root v : parents !! v = Some v -> chain parents 0 v v
| chain_step n v q r : parents !! v = Some q -> q <> v -> chain parents n q r -> chain parents (S n) v r.

Lemma chain_fun parents n v r : chain parents n v r -> forall m s, chain parents m v s -> n = m /\ r = s.
Proof.
  induction 1 as [v Hv|n v q r Hv Hne Hc IH]; intros m s Hm; inversion Hm; simplify_eq; try done.
  edestruct IH as [-> ->]; [eassumption|]. done.
Qed.
Lemma chain_end parents n v r : chain parents n v r -> parents !! r = Some r.
Proof. by induction 1. Qed.
(** The nodes of a chain are distinct, so a chain is shorter than the set. *)
Lemma chain_nodes parents n v r : chain parents n v r -> exists l, length l = S n /\ NoDup l
  /\ forall x, x ∈ l -> is_Some (parents !! x) /\ exists m, (m <= n)%nat /\ chain parents m x r.
Proof.
  induction 1 as [v Hv|n v q r Hv Hne Hc (l & Hl & Hn & Hin)].
  - exists [v]. split_and!; [done|apply NoDup_singleton|]. intros x ->%list_elem_of_singleton.
    split; [by eexists|]. exists 0%nat. split; [done|by constructor].
  - exists (v :: l). split_and!; [cbn; lia| |].
    + constructor; [|done]. intros (_ & m & Hm & Hcm)%Hin.
      assert (chain parents (S n) v r) as Hcv by (by econstructor).
      destruct (chain_fun _ _ _ _ Hcm _ _ Hcv). lia.
    + intros x [->|Hx]%elem_of_cons.
      * split; [by eexists|]. exists (S n). split; [done|]. by econstructor.
      * destruct (Hin x Hx) as (? & m & ? & ?). split; [done|]. exists m. split; [lia|done].
Qed.

Section disjoint_sets.
Variable coordinates : list string.
Hypothesis coordinates_nodup : NoDup coordinates.
(** A forest over the coordinates whose roots are given by [rep]. *)
Record represents (parents : DisjointSet) (rep : string -> string) : Prop := {
  rep_known : forall v, is_Some (parents !! v) <-> v ∈ coordinates;
  rep_chain : forall v, v ∈ coordinates -> exists n, chain parents n v (rep v);
}.
Lemma rep_in parents rep v : represents parents rep -> v ∈ coordinates -> rep v ∈ coordinates.
Proof. intros [Hk Hc] Hv. destruct (Hc v Hv) as [n Hn%chain_end]. apply Hk. by eexists. Qed.
Lemma rep_idem parents rep v : represents parents rep -> v ∈ coordinates -> rep (rep v) = rep v.
Proof.
  intros Hrep Hv. destruct (rep_chain _ _ Hrep (rep v)) as [n Hn]; [by eapply rep_in|].
  destruct (rep_chain _ _ Hrep v Hv) as [m Hm%chain_end].
  by destruct (chain_fun _ _ _ _ (chain_root _ _ Hm) _ _ Hn).
Qed.
Lemma chain_short parents rep n v r : represents parents rep -> chain parents n v r ->
  (n < S (length coordinates))%nat.
Proof.
  intros Hrep (l & Hl & Hn & Hin)%chain_nodes.
  assert (length l <= length coordinates)%nat; [|lia].
  apply NoDup_incl_length; [by apply NoDup_ListNoDup|]. intros x Hx%list_elem_of_In.
  apply list_elem_of_In, (rep_known _ _ Hrep). by apply Hin.
Qed.

Lemma disjoint_set_lookup v w : disjoint_set coordinates !! v = Some w <-> v ∈ coordinates /\ w = v.
Proof.
  unfold disjoint_set. rewrite <- elem_of_list_to_map.
  - rewrite list_elem_of_fmap. split; [intros (x & [= -> ->] & Hx); done|intros [Hv ->]; by exists v].
  - rewrite <- list_fmap_compose. cbn. by rewrite list_fmap_id.
Qed.
Lemma disjoint_set_represents : represents (disjoint_set coordinates) id.
Proof.
  split.
  - intros v. split; [by intros [w [? _]%disjoint_set_lookup]|]. intros Hv. exists v. by apply disjoint_set_lookup.
  - intros v Hv. exists 0%nat. constructor. by apply disjoint_set_lookup.
Qed.

(** Compressing one path keeps every root. *)
Lemma compress_chain parents v q r n x s : parents !! v = Some q -> q <> v -> parents !! r = Some r ->
  (exists k, chain parents k v r) -> chain parents n x s -> exists m, chain (<[v := r]> parents) m x s.
Proof.
  intros Hv Hne Hr [k Hk]. assert (r <> v) as Hrv by congruence.
  assert (chain (<[v := r]> parents) 0 r r) as Hroot by (constructor; by rewrite lookup_insert_ne).
  induction 1 as [x Hx|n x y s Hx Hxy Hc IH].
  - exists 0%nat. constructor. rewrite lookup_insert_ne; congruence.
  - destruct (decide (x = v)) as [->|Hxv].
    + assert (chain parents (S n) v s) as Hcv by by econstructor.
      destruct (chain_fun _ _ _ _ Hk _ _ Hcv) as [_ <-]. exists 1%nat.
      econstructor; [apply lookup_insert_eq|done|exact Hroot].
    + destruct IH as [m IH]. exists (S m). econstructor; [by rewrite lookup_insert_ne|done|exact IH].
Qed.
(** [find] returns the root and keeps the forest. *)
Lemma find_chain n parents v r : chain parents n v r -> forall fuel, (n < fuel)%nat ->
  exists parents', find fuel parents v = Some (parents', r)
  /\ (forall m x s, chain parents m x s -> exists k, chain parents' k x s)
  /\ (forall x, is_Some (parents' !! x) <-> is_Some (parents !! x)).
Proof.
  induction 1 as [v Hv|n v q r Hv Hne Hc IH]; intros [|fuel] Hf; try lia; cbn [find]; rewrite Hv.
  - rewrite (proj2 (py_eq_leibniz v v) eq_refl). exists parents. split_and!; eauto.
  - destruct (q ==? v) eqn:E; [by apply py_eq_leibniz in E|].
    destruct (IH fuel) as (parents' & -> & Hkeep & Hdom); [lia|]. exists (<[v := r]> parents'). split_and!; [done| |].
    + intros m x s Hx. apply Hkeep in Hx as [k Hx]. assert (chain parents (S n) v r) as Hcv by by econstructor.
      apply Hkeep in Hcv as [k' Hcv]. pose proof (chain_end _ _ _ _ Hcv) as Hr'.
      inversion Hcv as [w Hw|k'' w q' s' Hw Hq Hc']; subst.
      * pose proof (chain_end _ _ _ _ Hc) as Hr. congruence.
      * eapply compress_chain; [exact Hw|exact Hq|exact Hr'|by eexists|exact Hx].
    + intros x. rewrite <- Hdom. destruct (decide (x = v)) as [->|]; [|by rewrite lookup_insert_ne].
      rewrite lookup_insert_eq. split; [|by eexists]. intros _. apply Hdom. by eexists.
Qed.
Lemma find_spec parents rep v : represents parents rep -> v ∈ coordinates ->
  exists parents', find (S (length coordinates)) parents v = Some (parents', rep v) /\ represents parents' rep.
Proof.
  intros Hrep Hv. destruct (rep_chain _ _ Hrep v Hv) as [n Hn].
  destruct (find_chain _ _ _ _ Hn (S (length coordinates))) as (parents' & -> & Hkeep & Hdom); [by eapply chain_short|].
  exists parents'. split; [done|]. split.
  - intros w. rewrite Hdom. apply (rep_known _ _ Hrep).
  - intros w Hw. destruct (rep_chain _ _ Hrep w Hw) as [m Hm]. by apply Hkeep in Hm.
Qed.
(** Linking one root below another moves its class. *)
Lemma link_chain parents a b n x s : parents !! a = Some a -> parents !! b = Some b -> a <> b ->
  chain parents n x s -> exists m, chain (<[b := a]> parents) m x (if bool_decide (s = b) then a else s).
Proof.
  intros Ha Hb Hab. assert (chain (<[b := a]> parents) 0 a a) as Hroot by (constructor; by rewrite lookup_insert_ne).
  induction 1 as [x Hx|n x y s Hx Hxy Hc IH].
  - case_bool_decide as Hxb.
    + subst x. exists 1%nat. econstructor; [apply lookup_insert_eq|done|exact Hroot].
    + exists 0%nat. constructor. by rewrite lookup_insert_ne.
  - destruct IH as [m IH]. exists (S m). econstructor; [|exact Hxy|exact IH]. rewrite lookup_insert_ne; [done|congruence].
Qed.
Definition united (rep : string -> string) (l r : string) : string -> string :=
  fun v => if bool_decide (rep v = rep r) then rep l else rep v.
Lemma union_spec parents rep l r : represents parents rep -> l ∈ coordinates -> r ∈ coordinates ->
  exists parents', union (S (length coordinates)) parents l r = Some parents' /\ represents parents' (united rep l r).
Proof.
  intros Hrep Hl Hr. unfold union. destruct (find_spec _ _ _ Hrep Hl) as (p1 & -> & Hp1). cbn [mbind option_bind].
  destruct (find_spec _ _ _ Hp1 Hr) as (p2 & -> & Hp2). cbn [mbind option_bind]. eexists. split; [done|].
  destruct (rep l ==? rep r) eqn:E; cbn.
  - apply py_eq_leibniz in E. split; [apply (rep_known _ _ Hp2)|]. intros v Hv. unfold united.
    case_bool_decide as Hvr; [rewrite E, <- Hvr|]; by apply (rep_chain _ _ Hp2).
  - assert (rep l <> rep r) as Hne by (intros Heq%py_eq_leibniz; congruence).
    destruct (rep_chain _ _ Hp2 l Hl) as [nl Hnl%chain_end], (rep_chain _ _ Hp2 r Hr) as [nr Hnr%chain_end]. split.
    + intros v. rewrite <- (rep_known _ _ Hp2). destruct (decide (v = rep r)) as [->|]; [|by rewrite lookup_insert_ne].
      rewrite lookup_insert_eq. split; by eexists.
    + intros v Hv. destruct (rep_chain _ _ Hp2 v Hv) as [n Hn]. eapply link_chain in Hn as [m Hm]; [|exact Hnl|exact Hnr|done].
      by exists m.
Qed.
End disjoint_sets.

(** ** Exact values *)

(** The rational a finite float is. *)
Definition f_value (x : float) : Q :=
  match x with
  | S754_finite s m e => (inject_Z (if s then Zneg m else Zpos m) * Qpower 2 e)%Q
  | _ => 0%Q
  end.
Lemma f_value_one : (f_value f_one == 1)%Q.
Proof. vm_compute. reflexivity. Qed.
Lemma f_value_minus_one : (f_value f_minus_one == -(1))%Q.
Proof. vm_compute. reflexivity. Qed.
Lemma f_eqb_finite x s m e : (x ==? S754_finite s m e) = true -> x = S754_finite s m e.
Proof.
  unfold py_eq, py_eq_float, SFeqb. destruct x as [[]|[]| |s' m' e']; cbn; try done; try (by destruct s).
  destruct s', s; try done; (destruct (e' ?= e) eqn:Ee; try done; destruct (Pos.compare_cont Eq m' m) eqn:Em; try done);
    apply Z.compare_eq in Ee; apply Pos.compare_eq in Em; by subst.
Qed.
Lemma f_eqb_zero x : (x ==? f_zero) = true -> (f_value x == 0)%Q.
Proof. by destruct x as [[]|[]| |[] m e]. Qed.
Lemma f_eqb_one x : (x ==? f_one) = true -> x = f_one.
Proof. apply f_eqb_finite. Qed.
(** A zero-or-one value is decided by its rational. *)
Definition is_bit (x : float) : bool := (x ==? f_zero) || (x ==? f_one).
Lemma bits_eq x y : is_bit x = true -> is_bit y = true -> (f_value x == f_value y)%Q -> (x ==? y) = true.
Proof.
  intros [Hx|Hx]%orb_true_iff [Hy|Hy]%orb_true_iff Heq.
  - destruct x as [[]|[]| |[] m e]; try done; destruct y as [[]|[]| |[] m' e']; done.
  - apply f_eqb_zero in Hx. apply f_eqb_one in Hy as ->. rewrite f_value_one, Hx in Heq. lra.
  - apply f_eqb_zero in Hy. apply f_eqb_one in Hx as ->. rewrite f_value_one, Hy in Heq. lra.
  - apply f_eqb_one in Hx as ->, Hy as ->. done.
Qed.

(** The exact sum of a row of entries against an assignment of the columns. *)
Definition exact_sum (x : Z -> Q) (l : list entry) : Q :=
  foldr (fun e acc => (f_value e.2 * x (entry_column e) + acc)%Q) 0%Q l.
(** The exact solutions of a system given by entries, or by a matrix. *)
Definition entries_hold (entries : list entry) (rhs : list float) (x : Z -> Q) : Prop :=
  forall r, 0 <= r < len rhs -> (exact_sum x (of_row r entries) == f_value (f_at rhs r))%Q.
Definition matrix_holds (m : CsrMatrix) (rhs : list float) (x : Z -> Q) : Prop := entries_hold (iter_entries m) rhs x.
(** An assignment of the coordinates, by position. *)
Definition by_index (coordinates : list string) (x : string -> Q) (i : Z) : Q :=
  x (default ""%string (coordinates !! Z.to_nat i)).
(** The exact meaning of a constraint row. *)
Definition row_holds (x : string -> Q) (row : ConstraintRow) : Prop :=
  (foldr (fun t acc => (f_value t.2 * x t.1 + acc)%Q) 0%Q (cr_terms row) == f_value (cr_rhs row))%Q.
Definition parsed_holds (x : string -> Q) (p : parsed_row) : Prop :=
  match p with
  | Fix id value => (x id == f_value value)%Q
  | Equality l r => (x l == x r)%Q
  end.

Lemma exact_sum_cons x e l : exact_sum x (e :: l) = (f_value e.2 * x (entry_column e) + exact_sum x l)%Q.
Proof. done. Qed.
Lemma exact_sum_app x l m : (exact_sum x (l ++ m) == exact_sum x l + exact_sum x m)%Q.
Proof.
  induction l as [|e l IH]; cbn [app]; [unfold exact_sum at 2; cbn [foldr]; ring|].
  rewrite !exact_sum_cons, IH. ring.
Qed.
#[export] Instance exact_sum_perm x : Proper ((≡ₚ) ==> Qeq) (exact_sum x).
Proof.
  induction 1 as [|e l m _ IH|e f l|l m k _ IH1 _ IH2]; rewrite ?exact_sum_cons; [done|by rewrite IH|ring|by rewrite IH1].
Qed.
Lemma filter_perm {A} (p : A -> bool) l m : l ≡ₚ m -> List.filter p l ≡ₚ List.filter p m.
Proof.
  induction 1 as [|x l m _ IH|x y l|l m k _ IH1 _ IH2]; cbn; [done| | |by rewrite IH1].
  - by destruct (p x); rewrite IH.
  - destruct (p x), (p y); try done. apply Permutation_swap.
Qed.
Lemma entries_hold_perm entries entries' rhs x : entries ≡ₚ entries' ->
  entries_hold entries rhs x <-> entries_hold entries' rhs x.
Proof.
  intros Hp. unfold entries_hold.
  assert (forall r, exact_sum x (of_row r entries) == exact_sum x (of_row r entries'))%Q as Heq.
  { intros r. apply exact_sum_perm. by apply filter_perm. }
  split; intros Hall r Hr; specialize (Hall r Hr); [by rewrite <- Heq|by rewrite Heq].
Qed.

(** ** Classified rows *)

Definition parsed_ids (p : parsed_row) : list string :=
  match p with Fix id _ => [id] | Equality l r => [l; r] end.
Definition parsed_bit (p : parsed_row) : bool := match p with Fix _ v => is_bit v | Equality _ _ => true end.
Lemma parse_row_ok coordinates row p : parse_row coordinates row = Ok p ->
  (forall id, id ∈ parsed_ids p -> id ∈ coordinates) /\ parsed_bit p = true /\ map fst (cr_terms row) = parsed_ids p
  /\ forall x, row_holds x row <-> parsed_holds x p.
Proof.
  unfold parse_row, _classify_constraint, row_holds. intros [Hknown Hc]%raise_if_ok.
  destruct (cr_terms row) as [|[a c] [|[b d] [|? ?]]]; try discriminate Hc; cbn [existsb orb fst] in Hknown; bool_hyps.
  - destruct (_ && _) eqn:E; [|done]. injection Hc as <-. apply andb_true_iff in E as [->%f_eqb_one Hbit].
    cbn. split_and!; [|done|done|].
    + intros id ->%list_elem_of_singleton. by apply dec_stable.
    + intros x. rewrite f_value_one. split; lra.
  - destruct (_ && _) eqn:E; [|done]. injection Hc as <-. rewrite !andb_true_iff in E. destruct E as [[Hz Hl] Hr].
    split_and!; [|done|done|].
    + intros id [->|[->|[]%elem_of_nil]%elem_of_cons]%elem_of_cons; by apply dec_stable.
    + intros x. cbn. apply f_eqb_zero in Hz. rewrite Hz.
      apply orb_true_iff in Hl as [Hl|Hl]; apply f_eqb_finite in Hl as ->; apply f_eqb_finite in Hr as ->.
      * change (f_neg _) with f_one. fold f_minus_one. rewrite f_value_minus_one, f_value_one. split; lra.
      * fold f_one f_minus_one. rewrite f_value_one, f_value_minus_one. split; lra.
Qed.

(** ** The loops over the rows *)

Lemma index_of_known (coordinates : list string) id : id ∈ coordinates -> exists i, index_of coordinates id = Some i
  /\ 0 <= i < len coordinates /\ coordinates !! Z.to_nat i = Some id.
Proof.
  intros Hid. unfold index_of. destruct (List.find _ _) as [[i x]|] eqn:E; cbn.
  - apply find_some_elem in E as [Hin Hx%py_eq_leibniz]. cbn in Hx. subst x. exists i. split; [done|].
    rewrite list_elem_of_In, <- in_rev, <- list_elem_of_In in Hin.
    apply elem_of_enumerate_from in Hin as (k & Hk & Hi). cbn in Hk, Hi. subst i.
    pose proof (lookup_lt_Some _ _ _ Hk). unfold len. split; [lia|]. by replace (Z.to_nat (0 + Z.of_nat k)) with k by lia.
  - exfalso. apply list_elem_of_lookup in Hid as [k Hk].
    assert ((Z.of_nat k, id) ∈ rev (enumerate coordinates)) as Hin.
    { rewrite list_elem_of_In, <- in_rev, <- list_elem_of_In. apply elem_of_enumerate_from. by exists k. }
    apply list_elem_of_In in Hin. eapply List.find_none in E; [|exact Hin]. cbn in E.
    by rewrite (proj2 (py_eq_leibniz _ _)) in E.
Qed.

Section loops.
Variable coordinates : list string.
Hypothesis coordinates_nodup : NoDup coordinates.
Definition ids_known (parsed : list parsed_row) : Prop := forall p id, p ∈ parsed -> id ∈ parsed_ids p -> id ∈ coordinates.
Definition equality_holds (x : string -> Q) (p : parsed_row) : Prop :=
  match p with Equality l r => (x l == x r)%Q | Fix _ _ => True end.
(** An assignment that is constant on the classes. *)
Definition constant_on (rep : string -> string) (x : string -> Q) : Prop := forall v, v ∈ coordinates -> (x (rep v) == x v)%Q.

Lemma ids_known_cons p parsed : ids_known (p :: parsed) ->
  (forall id, id ∈ parsed_ids p -> id ∈ coordinates) /\ ids_known parsed.
Proof. intros Hk. split; [intros id; apply Hk; left|]. intros q id Hq. apply Hk. by right. Qed.

Lemma union_all_spec parsed : forall parents rep, represents coordinates parents rep -> ids_known parsed ->
  exists parents' rep', union_all coordinates parents parsed = Some parents' /\ represents coordinates parents' rep'
  /\ (forall l r, Equality l r ∈ parsed -> rep' l = rep' r) /\ (forall u v, rep u = rep v -> rep' u = rep' v)
  /\ (forall x, constant_on rep x -> (forall p, p ∈ parsed -> equality_holds x p) -> constant_on rep' x).
Proof.
  induction parsed as [|p parsed IH]; intros parents rep Hrep Hk.
  { exists parents, rep. split_and!; try done. by intros l r ?%elem_of_nil. }
  apply ids_known_cons in Hk as [Hp Hk]. cbn [union_all]. destruct p as [id v|l r]; cbn [union_step].
  - destruct (IH parents rep Hrep Hk) as (p' & rep' & Hall & Hrep' & Heq & Hkeep & Hconst). exists p', rep'.
    split_and!; [done|done| |done|].
    + intros l r [Heq'|Hin]%elem_of_cons; [done|by apply Heq].
    + intros x Hx Hsat. apply Hconst; [done|]. intros q Hq. apply Hsat. by right.
  - assert (l ∈ coordinates) as Hl by (apply Hp; left). assert (r ∈ coordinates) as Hr by (apply Hp; right; left).
    destruct (union_spec coordinates _ _ l r Hrep Hl Hr) as (p1 & -> & Hrep1). cbn [mbind option_bind].
    destruct (IH p1 _ Hrep1 Hk) as (p' & rep' & Hall & Hrep' & Heq & Hkeep & Hconst). exists p', rep'.
    split_and!; [done|done| | |].
    + intros l' r' [[= -> ->]|Hin]%elem_of_cons; [|by apply Heq]. apply Hkeep. unfold united.
      rewrite (bool_decide_true (rep r = rep r)) by done. by case_bool_decide.
    + intros u v Huv. apply Hkeep. unfold united. by rewrite Huv.
    + intros x Hx Hsat. apply Hconst; [|intros q Hq; apply Hsat; by right].
      assert (x l == x r)%Q as Hlr by (apply (Hsat (Equality l r)); left).
      intros v Hv. unfold united. case_bool_decide as Hvr; [|by apply Hx].
      pose proof (Hx l Hl) as E1. pose proof (Hx r Hr) as E2. pose proof (Hx v Hv) as E3. rewrite Hvr in E3. lra.
Qed.

(** The fixed values of the roots stand for the fixes of the rows. *)
Record fixed_for (rep : string -> string) (parsed : list parsed_row) (fixed : gmap string float) : Prop := {
  fixed_from : forall root v, fixed !! root = Some v -> is_bit v = true /\ exists id, Fix id v ∈ parsed /\ rep id = root;
  fixed_of : forall id v, Fix id v ∈ parsed -> exists w, fixed !! rep id = Some w /\ (f_value w == f_value v)%Q;
}.
Lemma fix_step_spec parents rep done fixed p : represents coordinates parents rep -> fixed_for rep done fixed ->
  (forall id, id ∈ parsed_ids p -> id ∈ coordinates) -> parsed_bit p = true ->
  match fix_step coordinates (parents, fixed) p with
  | Ok (parents', fixed') => represents coordinates parents' rep /\ fixed_for rep (done ++ [p]) fixed'
  | Err e => e = ConstraintSystemError CONTRADICTORY /\ exists id v id' w, p = Fix id v /\ Fix id' w ∈ done
      /\ rep id' = rep id /\ ~ (f_value w == f_value v)%Q
  end.
Proof.
  intros Hrep Hfix Hids Hbit. destruct p as [id v|l r]; cbn [fix_step].
  2: { split; [done|]. destruct Hfix as [Hfrom Hof]. split.
    - intros root w Hw. apply Hfrom in Hw as (? & id & ? & ?). split; [done|]. exists id. rewrite elem_of_app. auto.
    - intros id w [Hin|Hin%list_elem_of_singleton]%elem_of_app; [by apply Hof|done]. }
  assert (id ∈ coordinates) as Hid by (apply Hids; left).
  destruct (find_spec coordinates _ _ _ Hrep Hid) as (parents' & -> & Hrep'). destruct Hfix as [Hfrom Hof].
  destruct (fixed !! rep id) as [w|] eqn:Hw.
  - destruct (Hfrom _ _ Hw) as (Hwbit & id' & Hid' & Hr'). destruct (w ==? v) eqn:Hwv; cbn [negb raise_if].
    + split; [done|]. assert (f_value w == f_value v)%Q as Heq.
      { cbn in Hbit. apply orb_true_iff in Hwbit as [Hz|H1], Hbit as [Hz'|H1'].
        - by rewrite (f_eqb_zero _ Hz), (f_eqb_zero _ Hz').
        - apply f_eqb_one in H1' as ->. by apply f_eqb_one in Hwv as ->.
        - apply f_eqb_one in H1 as ->. by destruct v as [[]|[]| |[] m e].
        - by apply f_eqb_one in H1 as ->, H1' as ->. }
      split.
      * intros root u. destruct (decide (root = rep id)) as [->|].
        -- rewrite lookup_insert_eq. intros [= <-]. split; [done|]. exists id. rewrite elem_of_app, list_elem_of_singleton. auto.
        -- rewrite lookup_insert_ne by done. intros (? & k & ? & ?)%Hfrom. split; [done|]. exists k. rewrite elem_of_app. auto.
      * intros k u [Hin|Hin%list_elem_of_singleton]%elem_of_app.
        -- destruct (Hof _ _ Hin) as (t & Ht & Htu). destruct (decide (rep k = rep id)) as [Hk|].
           ++ rewrite Hk in *. exists v. rewrite lookup_insert_eq. split; [done|]. rewrite Hw in Ht. injection Ht as <-.
              by rewrite <- Heq.
           ++ exists t. by rewrite lookup_insert_ne.
        -- injection Hin as -> ->. exists v. by rewrite lookup_insert_eq.
    + split; [done|]. exists id, v, id', w. split_and!; [done..|]. intros Heq. cbn in Hbit. by rewrite bits_eq in Hwv.
  - cbn [raise_if]. split; [done|]. split.
    + intros root u. destruct (decide (root = rep id)) as [->|].
      * rewrite lookup_insert_eq. intros [= <-]. split; [done|]. exists id. rewrite elem_of_app, list_elem_of_singleton. auto.
      * rewrite lookup_insert_ne by done. intros (? & k & ? & ?)%Hfrom. split; [done|]. exists k. rewrite elem_of_app. auto.
    + intros k u [Hin|Hin%list_elem_of_singleton]%elem_of_app.
      * destruct (Hof _ _ Hin) as (t & Ht & Htu). exists t. rewrite lookup_insert_ne; [done|congruence].
      * injection Hin as -> ->. exists v. by rewrite lookup_insert_eq.
Qed.

Lemma fix_all_spec parents rep parsed : represents coordinates parents rep -> ids_known parsed ->
  Forall (fun p => parsed_bit p = true) parsed ->
  match fold_result (fix_step coordinates) parsed (parents, ∅) with
  | Ok state => represents coordinates state.1 rep /\ fixed_for rep parsed state.2
  | Err e => e = ConstraintSystemError CONTRADICTORY /\ exists id v id' w, Fix id v ∈ parsed /\ Fix id' w ∈ parsed
      /\ rep id' = rep id /\ ~ (f_value w == f_value v)%Q
  end.
Proof.
  intros Hrep Hk Hbit.
  pose proof (fold_result_inv (fix_step coordinates)
    (fun done state => represents coordinates state.1 rep /\ fixed_for rep done state.2 /\ forall p, p ∈ done -> p ∈ parsed)
    parsed [] (parents, ∅)) as Hinv.
  destruct (fold_result _ _ _) as [[parents' fixed']|e].
  - destruct Hinv as (? & ? & _).
    + split_and!; [done| |by intros p ?%elem_of_nil]. split; [done|by intros id v ?%elem_of_nil].
    + intros done p [q f] [q' f'] Hp (Hq & Hf & Hin) Hstep.
      assert (forall id, id ∈ parsed_ids p -> id ∈ coordinates) as Hids by (intros id; by apply Hk).
      eapply Forall_forall in Hbit; [|exact Hp].
      pose proof (fix_step_spec q rep done f p Hq Hf Hids Hbit) as Hs. rewrite Hstep in Hs. destruct Hs as [? ?].
      split_and!; [by auto..|]. intros r [Hr|Hr%list_elem_of_singleton]%elem_of_app; [by apply Hin|by subst].
    + done.
  - destruct Hinv as (done & p & [q f] & Hp & (Hq & Hf & Hin) & Hstep).
    + split_and!; [done| |by intros p ?%elem_of_nil]. split; [done|by intros id v ?%elem_of_nil].
    + intros done p [q f] [q' f'] Hp (Hq & Hf & Hin) Hstep.
      assert (forall id, id ∈ parsed_ids p -> id ∈ coordinates) as Hids by (intros id; by apply Hk).
      eapply Forall_forall in Hbit; [|exact Hp].
      pose proof (fix_step_spec q rep done f p Hq Hf Hids Hbit) as Hs. rewrite Hstep in Hs. destruct Hs as [? ?].
      split_and!; [by auto..|]. intros r [Hr|Hr%list_elem_of_singleton]%elem_of_app; [by apply Hin|by subst].
    + assert (forall id, id ∈ parsed_ids p -> id ∈ coordinates) as Hids by (intros id; by apply Hk).
      pose proof (proj1 (Forall_forall _ _) Hbit p Hp) as Hpb.
      pose proof (fix_step_spec q rep done f p Hq Hf Hids Hpb) as Hs. rewrite Hstep in Hs.
      destruct Hs as (-> & id & v & id' & w & -> & Hw & Hr & Hne). split; [done|]. exists id, v, id', w.
      split_and!; [done|by apply Hin|done|done].
Qed.

(** *** Groups *)

(** The groups of some coordinates: each root once, with its members in order. *)
Record grouped (rep : string -> string) (ids : list string) (groups : list (string * list string)) : Prop := {
  gr_roots : NoDup (map fst groups);
  gr_members : forall root members, (root, members) ∈ groups ->
    members <> [] /\ NoDup members /\ forall m, m ∈ members -> m ∈ ids /\ rep m = root;
  gr_complete : forall id, id ∈ ids -> exists members, (rep id, members) ∈ groups /\ id ∈ members;
}.
Lemma add_to_group_elem root id groups r members : NoDup (map fst groups) ->
  (r, members) ∈ add_to_group root id groups <->
  ((r <> root /\ (r, members) ∈ groups)
   \/ (r = root /\ ((exists old, (root, old) ∈ groups /\ members = old ++ [id])
                    \/ ((root ∉ map fst groups) /\ members = [id])))).
Proof.
  induction groups as [|[r' old] groups IH]; cbn [add_to_group map fst].
  { intros _. rewrite list_elem_of_singleton. split.
    - intros [= -> ->]. right. split; [done|]. right. split; [by intros ?%elem_of_nil|done].
    - intros [[_ []%elem_of_nil]|(-> & [(old & []%elem_of_nil & _)|[_ ->]])]. done. }
  intros [Hr' Hn]%NoDup_cons. destruct (r' ==? root) eqn:E.
  - apply py_eq_leibniz in E as ->. setoid_rewrite elem_of_cons. split.
    + intros [[= -> ->]|Hin]; [right; split; [done|]; left; exists old; split; [by left|done]|].
      left. split; [|by right]. intros ->. apply Hr'. apply list_elem_of_fmap. by exists (root, members).
    + intros [[Hne [Heq|Hin]]|[-> [(o & [Heq|Hin] & ->)|[Hnin _]]]]; [by injection Heq as -> _|by right| | |].
      * injection Heq as ->. by left.
      * exfalso. apply Hr'. apply list_elem_of_fmap. by exists (root, o).
      * exfalso. apply Hnin. by left.
  - assert (r' <> root) as Hne by (intros Heq%py_eq_leibniz; congruence). setoid_rewrite elem_of_cons. rewrite IH by done. split.
    + intros [[= -> ->]|[[Hne' Hin]|[-> [(o & Hin & ->)|[Hnin ->]]]]]; [left; split; [done|by left]|left; split; [done|by right]| |].
      * right. split; [done|]. left. exists o. split; [by right|done].
      * right. split; [done|]. right. split; [|done]. by intros [?|?].
    + intros [[Hne' [Heq|Hin]]|[-> [(o & [Heq|Hin] & ->)|[Hnin ->]]]].
      * by left.
      * right. by left.
      * by injection Heq as <- _.
      * right. right. split; [done|]. left. eauto.
      * right. right. split; [done|]. right. split; [|done]. intros Hin. apply Hnin. by right.
Qed.
Lemma add_to_group_roots root id groups : NoDup (map fst groups) -> NoDup (map fst (add_to_group root id groups)).
Proof.
  induction groups as [|[r old] groups IH]; cbn; [intros _; apply NoDup_singleton|]. intros [Hr Hn]%NoDup_cons.
  destruct (r ==? root) eqn:E; cbn; constructor; [done|done| |by apply IH].
  intros ([r' members] & -> & [[_ Hin]|(-> & _)]%add_to_group_elem)%list_elem_of_fmap; [|by rewrite (proj2 (py_eq_leibniz _ _)) in E|done].
  apply Hr, list_elem_of_fmap. by exists (r', members).
Qed.
Lemma add_to_group_grouped rep ids groups id : grouped rep ids groups -> id ∉ ids ->
  grouped rep (ids ++ [id]) (add_to_group (rep id) id groups).
Proof.
  intros [Hr Hm Hc] Hid. split; [by apply add_to_group_roots| |].
  - intros root members Hin. apply add_to_group_elem in Hin; [|done].
    destruct Hin as [[_ Hin]|(-> & [(old & Hin & ->)|[_ ->]])].
    + destruct (Hm _ _ Hin) as (? & ? & Hall). split_and!; [done..|]. intros m ?%Hall. rewrite elem_of_app. tauto.
    + destruct (Hm _ _ Hin) as (? & Hnd & Hall). split_and!; [by destruct old| |].
      * apply NoDup_app. split_and!; [done| |apply NoDup_singleton]. intros m [Hmi _]%Hall ->%list_elem_of_singleton. done.
      * intros m [Hmo|Hmo%list_elem_of_singleton]%elem_of_app; rewrite elem_of_app.
        -- apply Hall in Hmo. tauto.
        -- subst m. split; [right; by apply list_elem_of_singleton|done].
    + split_and!; [done|apply NoDup_singleton|]. intros m ->%list_elem_of_singleton. rewrite elem_of_app.
      split; [right; by apply list_elem_of_singleton|done].
  - intros k [Hk|Hk%list_elem_of_singleton]%elem_of_app.
    + destruct (Hc _ Hk) as (members & Hin & Hkm). destruct (decide (rep k = rep id)) as [Heq|Hne].
      * exists (members ++ [id]). split; [|rewrite elem_of_app; tauto]. apply add_to_group_elem; [done|]. right.
        split; [done|]. left. exists members. by rewrite <- Heq.
      * exists members. split; [|done]. apply add_to_group_elem; [done|]. by left.
    + subst k. destruct (decide (rep id ∈ map fst groups)) as [Hin|Hnin].
      * apply list_elem_of_fmap in Hin as ([r old] & Hrr & Hin). cbn in Hrr. subst r. exists (old ++ [id]).
        split; [|rewrite elem_of_app, list_elem_of_singleton; tauto]. apply add_to_group_elem; [done|]. right. eauto.
      * exists [id]. split; [|by apply list_elem_of_singleton]. apply add_to_group_elem; [done|]. right. eauto.
Qed.
Lemma group_all_spec rep ids : forall done parents groups, represents coordinates parents rep ->
  (forall id, id ∈ ids -> id ∈ coordinates) -> NoDup (done ++ ids) -> grouped rep done groups ->
  exists parents' groups', group_all coordinates (parents, groups) ids = Some (parents', groups')
  /\ represents coordinates parents' rep /\ grouped rep (done ++ ids) groups'.
Proof.
  induction ids as [|id ids IH]; intros done parents groups Hrep Hin Hnd Hg; cbn [group_all].
  { rewrite app_nil_r. eauto. }
  unfold group_step. destruct (find_spec coordinates _ _ id Hrep) as (p1 & -> & Hrep1); [apply Hin; left|].
  cbn [mbind option_bind].
  destruct (IH (done ++ [id]) p1 (add_to_group (rep id) id groups)) as (p' & g' & -> & Hrep' & Hg').
  - done.
  - intros k Hk. apply Hin. by right.
  - by rewrite <- app_assoc.
  - apply add_to_group_grouped; [done|]. apply NoDup_app in Hnd as (_ & Hd & _). intros Hid. apply (Hd id Hid). left.
  - exists p', g'. by rewrite <- app_assoc in Hg'.
Qed.

(** *** The solve system *)

Lemma coordinate_index_spec id : id ∈ coordinates ->
  0 <= coordinate_index coordinates id < len coordinates
  /\ coordinates !! Z.to_nat (coordinate_index coordinates id) = Some id.
Proof. intros Hid. destruct (index_of_known coordinates id Hid) as (i & Hi & ?). unfold coordinate_index. by rewrite Hi. Qed.
Lemma coordinate_index_inj a b : a ∈ coordinates -> b ∈ coordinates ->
  coordinate_index coordinates a = coordinate_index coordinates b -> a = b.
Proof.
  intros [_ Ha]%coordinate_index_spec [_ Hb]%coordinate_index_spec E. rewrite E in Ha. congruence.
Qed.
Lemma by_index_spec x id : id ∈ coordinates -> by_index coordinates x (coordinate_index coordinates id) = x id.
Proof. intros [_ Hl]%coordinate_index_spec. unfold by_index. by rewrite Hl. Qed.

(** A system under construction: its entries are in the rows it has, under distinct keys. *)
Record so_ok (s : Solving) : Prop := {
  so_entries_ok : Forall (entry_ok (so_row s) (len coordinates)) (so_entries s);
  so_keys : NoDup (map entry_key (so_entries s));
}.
Definition so_holds (s : Solving) (x : string -> Q) : Prop :=
  entries_hold (so_entries s) (so_rhs s) (by_index coordinates x).
(** One more row. *)
Lemma add_row s es value parents x : so_ok s ->
  Forall (fun e => entry_row e = so_row s) es ->
  Forall (entry_ok (so_row s + 1) (len coordinates)) es -> NoDup (map entry_key es) ->
  let s' := {| so_parents := parents; so_entries := so_entries s ++ es; so_rhs := so_rhs s ++ [value] |} in
  so_ok s' /\ (so_holds s' x <-> so_holds s x /\ (exact_sum (by_index coordinates x) es == f_value value)%Q).
Proof.
  intros [Hok Hkeys] Hrow Hes Hnd. cbn zeta.
  assert (forall e, e ∈ so_entries s -> entry_row e < so_row s) as Hlt.
  { intros e He. eapply Forall_forall in Hok as ([_ ?] & _); [|exact He]. done. }
  split; [split|].
  - unfold so_row. cbn [so_rhs so_entries]. rewrite len_app. apply Forall_app. split.
    + eapply Forall_impl; [exact Hok|]. intros e ([Hl Hu] & H2). unfold so_row in Hu.
      change (len [value]) with 1. split; [lia|exact H2].
    + exact Hes.
  - cbn [so_entries]. rewrite map_app. apply NoDup_app. split_and!; [done| |done].
    intros k (e & -> & He)%list_elem_of_fmap (e' & Hk & He')%list_elem_of_fmap. apply Hlt in He.
    eapply Forall_forall in Hrow; [|exact He']. unfold entry_row in *. unfold entry_key in Hk. rewrite Hk in He. lia.
  - unfold so_holds, entries_hold. cbn [so_entries so_rhs]. rewrite len_app.
    assert (forall r, of_row r (so_entries s ++ es) = of_row r (so_entries s) ++ of_row r es) as Happ
      by (intros; apply List.filter_app).
    assert (forall r, r < so_row s -> of_row r es = []) as Hbefore.
    { intros r Hr. apply filter_none. eapply Forall_impl; [exact Hrow|]. intros e ->. apply Z.eqb_neq. lia. }
    assert (of_row (so_row s) (so_entries s) = [] /\ of_row (so_row s) es = es) as [Hnone Hall].
    { split; [apply filter_none|apply filter_all_true; eapply Forall_impl; [exact Hrow|]; intros e ->; apply Z.eqb_refl].
      apply Forall_forall. intros e He%Hlt. apply Z.eqb_neq. lia. }
    assert (forall r, 0 <= r < so_row s -> f_at (so_rhs s ++ [value]) r = f_at (so_rhs s) r) as Hat.
    { intros r Hr. unfold f_at. rewrite lookup_app_l; [done|]. unfold so_row, len in Hr. lia. }
    assert (f_at (so_rhs s ++ [value]) (so_row s) = value) as Hlast.
    { unfold f_at, so_row, len. rewrite Nat2Z.id. by rewrite lookup_app_r, Nat.sub_diag by lia. }
    split.
    + intros Hh. split.
      * intros r Hr. specialize (Hh r). change (len [value]) with 1 in Hh.
        specialize (Hh ltac:(unfold so_row in *; lia)). rewrite Happ, Hbefore, app_nil_r, Hat in Hh by exact Hr || apply Hr. exact Hh.
      * specialize (Hh (so_row s)). rewrite Happ, Hnone, Hall, Hlast in Hh. apply Hh. change (len [value]) with 1.
        unfold so_row. split; [apply len_nonneg|lia].
    + intros [Hh Hes'] r Hr. change (len [value]) with 1 in Hr. destruct (decide (r = so_row s)) as [->|Hne].
      * by rewrite Happ, Hnone, Hall, Hlast.
      * assert (0 <= r < so_row s) as Hr' by (unfold so_row in *; lia).
        rewrite Happ, Hbefore, app_nil_r, Hat by (done || lia). by apply Hh.
Qed.

Lemma unit_entry_ok rows id (coefficient : float) : 0 <= rows -> id ∈ coordinates ->
  coefficient = f_one \/ coefficient = f_minus_one ->
  entry_ok (rows + 1) (len coordinates) (rows, coordinate_index coordinates id, coefficient).
Proof. intros Hr [Hi _]%coordinate_index_spec [->| ->]; (split_and!; cbn; [lia|lia|lia|lia|done|done]). Qed.
Lemma member_row_spec x anchor s member : so_ok s -> anchor ∈ coordinates -> member ∈ coordinates -> anchor <> member ->
  so_ok (member_row coordinates anchor s member)
  /\ (so_holds (member_row coordinates anchor s member) x <-> so_holds s x /\ (x anchor == x member)%Q).
Proof.
  intros Hs Ha Hm Hne.
  destruct (add_row s [(so_row s, coordinate_index coordinates anchor, f_one);
                       (so_row s, coordinate_index coordinates member, f_minus_one)] f_zero (so_parents s) x) as [Hok Hh].
  - done.
  - by repeat constructor.
  - pose proof (len_nonneg (so_rhs s)). repeat constructor; apply unit_entry_ok; auto.
  - apply NoDup_cons. split; [|apply NoDup_singleton]. intros Hin%list_elem_of_singleton. unfold entry_key in Hin. cbn in Hin.
    injection Hin as Hi. by apply coordinate_index_inj in Hi.
  - split; [exact Hok|]. unfold member_row. rewrite Hh. rewrite !exact_sum_cons.
    change (entry_column (so_row s, coordinate_index coordinates anchor, f_one)) with (coordinate_index coordinates anchor).
    change (entry_column (so_row s, coordinate_index coordinates member, f_minus_one)) with (coordinate_index coordinates member).
    rewrite !by_index_spec by done. cbn [snd exact_sum foldr]. rewrite f_value_one, f_value_minus_one.
    change (f_value f_zero) with 0%Q. split; intros [? ?]; (split; [done|lra]).
Qed.
Lemma member_rows_spec x anchor rest : forall s, so_ok s -> anchor ∈ coordinates -> (forall m, m ∈ rest -> m ∈ coordinates) ->
  anchor ∉ rest ->
  let s' := foldl (member_row coordinates anchor) s rest in
  so_ok s' /\ so_parents s' = so_parents s /\ (so_holds s' x <-> so_holds s x /\ forall m, m ∈ rest -> (x anchor == x m)%Q).
Proof.
  induction rest as [|m rest IH]; intros s Hs Ha Hm Hn; cbn.
  { split_and!; [done|done|]. split; [intros ?; split; [done|by intros m ?%elem_of_nil]|by intros [? _]]. }
  apply not_elem_of_cons in Hn as [Hne Hn]. destruct (member_row_spec x anchor s m) as [Hs1 Hh1]; [done|done|apply Hm; left|done|].
  destruct (IH (member_row coordinates anchor s m)) as (Hs' & Hp & Hh); [done|done|intros k Hk; apply Hm; by right|done|].
  split_and!; [done|done|]. rewrite Hh, Hh1. split.
  - intros [[? ?] Hall]. split; [done|]. intros k [->|Hk]%elem_of_cons; [done|by apply Hall].
  - intros [? Hall]. split_and!; [done|apply Hall; left|]. intros k Hk. apply Hall. by right.
Qed.
(** What a group asks of an assignment. *)
Definition group_holds (fixed : gmap string float) (x : string -> Q) (root : string) (members : list string) : Prop :=
  (forall m m', m ∈ members -> m' ∈ members -> (x m == x m')%Q)
  /\ forall m v, m ∈ members -> fixed !! root = Some v -> (x m == f_value v)%Q.
Lemma group_rows_spec rep fixed s root members : represents coordinates (so_parents s) rep -> so_ok s ->
  members <> [] -> NoDup members -> (forall m, m ∈ members -> m ∈ coordinates /\ rep m = root) ->
  exists s', group_rows coordinates fixed s members = Some s' /\ represents coordinates (so_parents s') rep /\ so_ok s'
  /\ forall x, so_holds s' x <-> so_holds s x /\ group_holds fixed x root members.
Proof.
  intros Hrep Hs Hne Hnd Hm. destruct members as [|a rest]; [done|]. apply NoDup_cons in Hnd as [Ha Hnd].
  destruct (Hm a) as [Hac Har]; [left|].
  assert (forall m, m ∈ rest -> m ∈ coordinates) as Hrest by (intros m Hin; apply Hm; by right).
  cbn [group_rows]. set (s1 := foldl (member_row coordinates a) s rest).
  assert (so_ok s1 /\ so_parents s1 = so_parents s) as [Hs1 Hp1].
  { by destruct (member_rows_spec (fun _ => 0%Q) a rest s Hs Hac Hrest Ha) as (? & ? & _). }
  assert (forall x, so_holds s1 x <-> so_holds s x /\ forall m, m ∈ rest -> (x a == x m)%Q) as Hh1.
  { intros x. by destruct (member_rows_spec x a rest s Hs Hac Hrest Ha) as (_ & _ & ?). }
  rewrite <- Hp1 in Hrep. destruct (find_spec coordinates _ _ a Hrep Hac) as (parents' & -> & Hrep').
  cbn [mbind option_bind]. rewrite Har.
  assert (forall x, group_holds fixed x root (a :: rest) <->
    (forall m, m ∈ rest -> (x a == x m)%Q) /\ forall v, fixed !! root = Some v -> (x a == f_value v)%Q) as Hgroup.
  { intros x. split.
    - intros [Heq Hfix]. split; [intros m Hin; apply Heq; [left|by right]|]. intros v Hv. apply Hfix; [left|done].
    - intros [Heq Hfix]. assert (forall m, m ∈ a :: rest -> (x a == x m)%Q) as Hall.
      { intros m [->|Hin]%elem_of_cons; [done|by apply Heq]. }
      split.
      * intros m m' Hin Hin'. by rewrite <- (Hall m Hin), <- (Hall m' Hin').
      * intros m v Hin Hv. rewrite <- (Hall m Hin). by apply Hfix. }
  destruct (fixed !! root) as [v|] eqn:Hv.
  - pose proof (fun x => add_row s1 [(so_row s1, coordinate_index coordinates a, f_one)] v parents' x Hs1
        ltac:(by repeat constructor) ltac:(apply Forall_singleton, unit_entry_ok; [apply len_nonneg|done|by left])
        ltac:(apply NoDup_singleton)) as Hadd.
    eexists. split; [done|]. split_and!; [done|apply (Hadd (fun _ => 0%Q))|]. intros x. rewrite (proj2 (Hadd x)), Hh1, Hgroup.
    rewrite exact_sum_cons. change (entry_column (so_row s1, coordinate_index coordinates a, f_one)) with (coordinate_index coordinates a).
    rewrite by_index_spec by done. cbn [snd exact_sum foldr]. rewrite f_value_one. split.
    + intros [[? ?] ?]. split_and!; [done|done|]. intros w [= <-]. lra.
    + intros (? & ? & Hw). specialize (Hw v eq_refl). split_and!; [done|done|]. lra.
  - eexists. split; [done|]. split_and!; [done|by destruct Hs1|]. intros x. rewrite Hgroup.
    change (so_holds s1 x <-> so_holds s x /\ (forall m, m ∈ rest -> (x a == x m)%Q)
      /\ forall v, None = Some v -> (x a == f_value v)%Q).
    rewrite Hh1. split; [intros [? ?]; split_and!; [done|done|by intros v ?]|tauto].
Qed.
Lemma solve_rows_spec rep fixed groups : forall s, represents coordinates (so_parents s) rep -> so_ok s ->
  (forall root members, (root, members) ∈ groups ->
    members <> [] /\ NoDup members /\ forall m, m ∈ members -> m ∈ coordinates /\ rep m = root) ->
  exists s', solve_rows coordinates fixed s groups = Some s' /\ so_ok s'
  /\ forall x, so_holds s' x <-> so_holds s x /\ forall root members, (root, members) ∈ groups -> group_holds fixed x root members.
Proof.
  induction groups as [|[root members] groups IH]; intros s Hrep Hs Hg; cbn [solve_rows].
  { exists s. split_and!; [done|done|]. intros x. split; [intros ?; split; [done|by intros r m ?%elem_of_nil]|by intros [? _]]. }
  destruct (Hg root members) as (Hne & Hnd & Hm); [left|].
  destruct (group_rows_spec rep fixed s root members) as (s1 & -> & Hrep1 & Hs1 & Hh1); [done..|]. cbn [mbind option_bind].
  destruct (IH s1) as (s' & -> & Hs' & Hh'); [done|done|intros r m Hin; apply Hg; by right|].
  exists s'. split_and!; [done|done|]. intros x. rewrite Hh', Hh1. split.
  - intros [[? ?] Hall]. split; [done|]. intros r m [[= -> ->]|Hin]%elem_of_cons; [done|by apply Hall].
  - intros [? Hall]. split_and!; [done|apply Hall; left|]. intros r m Hin. apply Hall. by right.
Qed.
End loops.

(** ** The certificate system *)

Section certificate.
Variable coordinates : list string.
Let row_of (p : Z * ConstraintRow) : list entry :=
  map (fun '(id, coefficient) => (p.1, coordinate_index coordinates id, coefficient)) (cr_terms p.2).
Lemma certificate_entries_eq rows : certificate_entries coordinates rows = flat_map row_of (enumerate rows).
Proof.
  unfold certificate_entries. rewrite !flat_map_concat_map. f_equal. apply map_ext. by intros [].
Qed.
Lemma row_of_rows p : Forall (fun e => entry_row e = p.1) (row_of p).
Proof. apply Forall_forall. by intros e ([id c] & -> & _)%list_elem_of_fmap. Qed.
Lemma of_row_other k p : p.1 <> k -> of_row k (row_of p) = [].
Proof.
  intros Hne. apply filter_none. eapply Forall_impl; [apply row_of_rows|]. intros e ->. by apply Z.eqb_neq.
Qed.
Lemma of_row_same p : of_row p.1 (row_of p) = row_of p.
Proof. apply filter_all_true. eapply Forall_impl; [apply row_of_rows|]. intros e ->. apply Z.eqb_refl. Qed.
Lemma of_row_certificate rows : forall k r, of_row r (flat_map row_of (enumerate_from k rows))
  = match (if r <? k then None else rows !! Z.to_nat (r - k)) with Some row => row_of (r, row) | None => [] end.
Proof.
  induction rows as [|row rows IH]; intros k r; cbn [enumerate_from flat_map]; [by destruct (r <? k)|].
  unfold of_row. rewrite List.filter_app. change (of_row r (row_of (k, row)) ++ of_row r (flat_map row_of (enumerate_from (k + 1) rows))
    = match (if r <? k then None else (row :: rows) !! Z.to_nat (r - k)) with Some row => row_of (r, row) | None => [] end).
  rewrite IH. destruct (r <? k) eqn:E; bool_hyps.
  - rewrite (proj2 (Z.ltb_lt r (k + 1))) by lia. rewrite of_row_other; [done|cbn; lia].
  - destruct (decide (r = k)) as [->|].
    + rewrite (proj2 (Z.ltb_lt k (k + 1))) by lia. rewrite Z.sub_diag. cbn. rewrite app_nil_r. apply (of_row_same (k, row)).
    + rewrite (proj2 (Z.ltb_ge r (k + 1))) by lia. rewrite of_row_other by (cbn; lia).
      replace (Z.to_nat (r - k)) with (S (Z.to_nat (r - (k + 1)))) by lia. done.
Qed.
Lemma exact_row x r row : (forall t, t ∈ cr_terms row -> t.1 ∈ coordinates) ->
  exact_sum (by_index coordinates x) (row_of (r, row)) = foldr (fun t acc => (f_value t.2 * x t.1 + acc)%Q) 0%Q (cr_terms row).
Proof.
  unfold row_of. cbn [fst snd]. induction (cr_terms row) as [|[id c] terms IH]; intros Hk; [done|]. cbn [map].
  rewrite exact_sum_cons, IH by (intros t Ht; apply Hk; by right). cbn [foldr fst snd].
  change (entry_column (r, coordinate_index coordinates id, c)) with (coordinate_index coordinates id).
  rewrite by_index_spec; [done|]. apply (Hk (id, c)). left.
Qed.
Definition terms_known (row : ConstraintRow) : Prop := forall t, t ∈ cr_terms row -> t.1 ∈ coordinates.
(** The certificate entries mean the rows they were made of. *)
Lemma certificate_holds rows x : (forall row, row ∈ rows -> terms_known row) ->
  entries_hold (certificate_entries coordinates rows) (map cr_rhs rows) (by_index coordinates x)
  <-> forall row, row ∈ rows -> row_holds x row.
Proof.
  intros Hk. rewrite certificate_entries_eq. unfold entries_hold. rewrite len_mapped. split.
  - intros Hall row Hin. pose proof Hin as [i Hi]%list_elem_of_lookup. pose proof (lookup_lt_Some _ _ _ Hi).
    specialize (Hall (Z.of_nat i) ltac:(unfold len; lia)). unfold enumerate in Hall. rewrite of_row_certificate in Hall.
    rewrite (proj2 (Z.ltb_ge (Z.of_nat i) 0)), Z.sub_0_r, Nat2Z.id, Hi in Hall by lia.
    rewrite exact_row in Hall by by apply Hk. unfold f_at in Hall. rewrite Nat2Z.id, list_lookup_fmap, Hi in Hall. exact Hall.
  - intros Hall r Hr. unfold enumerate. rewrite of_row_certificate, (proj2 (Z.ltb_ge r 0)), Z.sub_0_r by lia.
    destruct (rows !! Z.to_nat r) as [row|] eqn:Hi; [|apply lookup_ge_None in Hi; unfold len in Hr; lia].
    assert (row ∈ rows) as Hin by by eapply list_elem_of_lookup_2. rewrite exact_row by by apply Hk.
    unfold f_at. rewrite list_lookup_fmap, Hi. by apply Hall.
Qed.
Lemma certificate_entries_ok rows : (forall row, row ∈ rows -> terms_known row /\ ConstraintRow_valid row = true) ->
  Forall (entry_ok (len rows) (len coordinates)) (certificate_entries coordinates rows).
Proof.
  intros Hk. rewrite certificate_entries_eq. apply Forall_forall. intros e He.
  apply list_elem_of_In, in_flat_map in He as ([i row] & Hir%list_elem_of_In & He%list_elem_of_In).
  apply elem_of_enumerate_from in Hir as (k & Hi & Hk'). cbn in Hi, Hk'. apply list_elem_of_fmap in He as ([id c] & -> & Ht).
  pose proof (lookup_lt_Some _ _ _ Hi). destruct (Hk row) as [Hkn Hv]; [by eapply list_elem_of_lookup_2|].
  destruct (coordinate_index_spec coordinates id) as [Hidx _]; [by apply (Hkn (id, c))|].
  unfold ConstraintRow_valid, terms_valid in Hv. rewrite !andb_true_iff in Hv. destruct Hv as [[_ [[_ Hall] _]] _].
  rewrite forallb_forall in Hall. specialize (Hall (id, c) (proj1 (list_elem_of_In _ _) Ht)).
  rewrite !andb_true_iff, negb_true_iff in Hall. destruct Hall as [[_ Hf] Hz].
  split_and!; cbn; [lia|unfold len; lia|lia|lia|exact Hf|exact Hz].
Qed.
Lemma certificate_keys rows : (forall row, row ∈ rows -> terms_known row /\ ConstraintRow_valid row = true) ->
  NoDup (map entry_key (certificate_entries coordinates rows)).
Proof.
  rewrite certificate_entries_eq. unfold enumerate. generalize 0. induction rows as [|row rows IH]; intros k Hk; cbn; [constructor|].
  rewrite map_app. apply NoDup_app. split_and!; [| |apply IH; intros r Hr; apply Hk; by right].
  - destruct (Hk row) as [Hkn Hv]; [left|]. unfold ConstraintRow_valid, terms_valid in Hv. rewrite !andb_true_iff in Hv.
    destruct Hv as [[_ [_ Hu]] _]. unfold _require_unique, no_duplicates in Hu. bool_hyps. unfold row_of. cbn [fst snd].
    unfold terms_known in Hkn. clear -Hkn Hu. induction (cr_terms row) as [|[id c] terms IHt]; cbn; [constructor|].
    cbn in Hu. apply NoDup_cons in Hu as [Hid Hu]. constructor; [|apply IHt; [intros t Ht; apply Hkn; by right|done]].
    intros (e & He & ([id' c'] & -> & Hin)%list_elem_of_fmap)%list_elem_of_fmap. unfold entry_key in He. cbn in He.
    injection He as He. apply coordinate_index_inj in He; [|by apply (Hkn (id, c)); left|by apply (Hkn (id', c')); right].
    subst id'. apply Hid, list_elem_of_fmap. by exists (id, c').
  - intros key (e & -> & He)%list_elem_of_fmap (e' & Hke & He')%list_elem_of_fmap.
    pose proof (proj1 (Forall_forall _ _) (row_of_rows (k, row)) e He) as Hrow. cbn in Hrow.
    apply list_elem_of_In, in_flat_map in He' as ([i row'] & Hir%list_elem_of_In & He'%list_elem_of_In).
    apply elem_of_enumerate_from in Hir as (j & _ & Hij). cbn in Hij.
    pose proof (proj1 (Forall_forall _ _) (row_of_rows (i, row')) e' He') as Hrow'. cbn in Hrow'.
    unfold entry_row, entry_key in *. rewrite Hke in Hrow. lia.
Qed.
End certificate.

(** ** The compilation *)

(** No row has an exact solution in common with the others. *)
Definition satisfiable (rows : list ConstraintRow) : Prop := exists x, forall row, row ∈ rows -> row_holds x row.
(** What a compiled system promises. *)
Record compiled_exactly (coordinates : list string) (rows : list ConstraintRow) (c : CompiledConstraints) : Prop := {
  ce_coordinates : cc_coordinate_ids c = coordinates;
  ce_valid : CompiledConstraints_valid c = true /\ csr_valid (cc_matrix c) = true /\ csr_valid (cc_certificate_matrix c) = true;
  ce_solve : forall x, matrix_holds (cc_matrix c) (cc_rhs c) (by_index coordinates x) <-> forall row, row ∈ rows -> row_holds x row;
  ce_certificate : forall x, matrix_holds (cc_certificate_matrix c) (cc_certificate_rhs c) (by_index coordinates x)
    <-> forall row, row ∈ rows -> row_holds x row;
  ce_satisfiable : satisfiable rows;
}.

Lemma constant_on_fixed coordinates rep fixed parsed x groups : grouped rep coordinates groups -> fixed_for rep parsed fixed ->
  constant_on coordinates rep x -> (forall p, p ∈ parsed -> parsed_holds x p) -> (forall v, v ∈ coordinates -> rep v ∈ coordinates) ->
  (forall p id, p ∈ parsed -> id ∈ parsed_ids p -> id ∈ coordinates) ->
  forall root members, (root, members) ∈ groups -> group_holds fixed x root members.
Proof.
  intros Hg Hf Hx Hsat Hrep Hk root members Hin. destruct (gr_members _ _ _ Hg _ _ Hin) as (_ & _ & Hm).
  assert (forall m, m ∈ members -> (x root == x m)%Q) as Hroot.
  { intros m Hmi. destruct (Hm m Hmi) as [Hmc <-]. by apply Hx. }
  split; [intros m m' Hmi Hmi'; by rewrite <- (Hroot m Hmi), <- (Hroot m' Hmi')|]. intros m v Hmi Hv.
  destruct (fixed_from _ _ _ Hf _ _ Hv) as (_ & id & Hid & <-). rewrite <- (Hroot m Hmi).
  assert (id ∈ coordinates) as Hidc by (eapply Hk; [exact Hid|left]). rewrite (Hx id Hidc). exact (Hsat _ Hid).
Qed.
Lemma groups_sat coordinates rep fixed parsed x groups : grouped rep coordinates groups -> fixed_for rep parsed fixed ->
  (forall l r, Equality l r ∈ parsed -> rep l = rep r) ->
  (forall p id, p ∈ parsed -> id ∈ parsed_ids p -> id ∈ coordinates) ->
  (forall root members, (root, members) ∈ groups -> group_holds fixed x root members) ->
  forall p, p ∈ parsed -> parsed_holds x p.
Proof.
  intros Hg Hf Heq Hk Hall [id v|l r] Hp; cbn.
  - destruct (gr_complete _ _ _ Hg id) as (members & Hin & Hid); [by eapply Hk; [exact Hp|left]|].
    destruct (fixed_of _ _ _ Hf _ _ Hp) as (w & Hw & Hwv). rewrite <- Hwv. exact (proj2 (Hall _ _ Hin) id w Hid Hw).
  - destruct (gr_complete _ _ _ Hg l) as (members & Hin & Hl); [by eapply Hk; [exact Hp|left]|].
    destruct (gr_complete _ _ _ Hg r) as (members' & Hin' & Hr); [by eapply Hk; [exact Hp|right; left]|].
    rewrite <- (Heq l r Hp) in Hin'. assert (members = members') as <-; [|by apply (Hall _ _ Hin)].
    pose proof (gr_roots _ _ _ Hg) as Hnd. apply list_elem_of_lookup in Hin as [i Hi], Hin' as [j Hj].
    assert (i = j) as <-; [|congruence]. eapply NoDup_lookup; [exact Hnd|..]; rewrite list_lookup_fmap; [by rewrite Hi|by rewrite Hj].
Qed.
Lemma fixed_for_assignment rep parsed fixed : fixed_for rep parsed fixed ->
  (forall l r, Equality l r ∈ parsed -> rep l = rep r) ->
  forall p, p ∈ parsed -> parsed_holds (fun v => match fixed !! rep v with Some w => f_value w | None => 0%Q end) p.
Proof.
  intros Hf Heq [id v|l r] Hp; cbn; [|by rewrite (Heq l r Hp)].
  by destruct (fixed_of _ _ _ Hf _ _ Hp) as (w & -> & ?).
Qed.

Lemma parse_rows_ok coordinates rows parsed : map_result (parse_row coordinates) rows = Ok parsed ->
  ids_known coordinates parsed /\ Forall (fun p => parsed_bit p = true) parsed
  /\ (forall row, row ∈ rows -> terms_known coordinates row)
  /\ (forall x, (forall row, row ∈ rows -> row_holds x row) <-> forall p, p ∈ parsed -> parsed_holds x p).
Proof.
  rewrite map_result_ok. induction 1 as [|row p rows parsed Hp _ (Hk & Hb & Ht & Hx)].
  { split_and!; [by intros p id ?%elem_of_nil|constructor|by intros r ?%elem_of_nil|].
    intros x. split; intros _ ? ?%elem_of_nil; done. }
  apply parse_row_ok in Hp as (Hids & Hbit & Hterms & Hholds). split_and!.
  - intros q id [->|Hq]%elem_of_cons; [apply Hids|by apply Hk].
  - by constructor.
  - intros r [->|Hr]%elem_of_cons; [|by apply Ht]. intros t Hin. apply Hids. rewrite <- Hterms. by apply list_elem_of_fmap_2.
  - intros x. split.
    + intros Hall q [->|Hq]%elem_of_cons; [apply Hholds, Hall; left|]. revert q Hq. apply Hx. intros r Hr. apply Hall. by right.
    + intros Hall r [->|Hr]%elem_of_cons; [apply Hholds, Hall; left|]. revert r Hr. apply Hx. intros q Hq. apply Hall. by right.
Qed.

(** Every way a compilation can end. *)
Lemma compile_ends coordinates rows : (forall row, row ∈ rows -> ConstraintRow_valid row = true) ->
  match compile_constraints coordinates rows with
  | Ok c => compiled_exactly coordinates rows c
  | Err (ConstraintSystemError CONTRADICTORY) => ~ satisfiable rows
  | Err (ConstraintSystemError INVALID_COORDINATES) => ~ (Forall (fun id => is_empty id = false) coordinates /\ NoDup coordinates)
  | Err (ConstraintSystemError code) => exists row, row ∈ rows /\ parse_row coordinates row = Err (ConstraintSystemError code)
  | Err _ => False
  end.
Proof.
  intros Hvalid. unfold compile_constraints.
  destruct (existsb is_empty coordinates) eqn:Hempty; cbn [raise_if].
  { apply existsb_exists in Hempty as (id & Hid%list_elem_of_In & He). intros [Hall _].
    eapply Forall_forall in Hall; [|exact Hid]. congruence. }
  destruct (no_duplicates coordinates) eqn:Hnd; unfold no_duplicates in Hnd; bool_hyps; cbn [negb raise_if]; [|by intros [_ ?]].
  destruct (map_result (parse_row coordinates) rows) as [parsed|e] eqn:Hparsed; cbn [mbind result_bind].
  2: { assert (exists row, row ∈ rows /\ parse_row coordinates row = Err e) as (row & Hrow & He).
       { clear -Hparsed. induction rows as [|row rows IH]; cbn in Hparsed; [done|].
         destruct (parse_row coordinates row) as [p|e'] eqn:Hp; [|injection Hparsed as ->; exists row; split; [left|done]].
         cbn in Hparsed. destruct (map_result _ rows) as [ps|e'']; [done|]. injection Hparsed as ->.
         destruct IH as (r & ? & ?); [done|]. exists r. split; [by right|done]. }
       pose proof He as He'. unfold parse_row, _classify_constraint in He'. unfold raise_if in He'. destruct (existsb _ (cr_terms row)).
       { assert (e = ConstraintSystemError UNKNOWN_COORDINATE) as -> by congruence. eauto. }
       assert (e = ConstraintSystemError UNSUPPORTED) as -> by (clear -He'; repeat case_match; congruence). eauto. }
  destruct (parse_rows_ok _ _ _ Hparsed) as (Hk & Hbit & Hterms & Hsat).
  destruct (union_all_spec coordinates parsed _ id (disjoint_set_represents _ Hnd) Hk) as (parents & rep & -> & Hrep & Heq & _ & Hconst).
  cbn [no_key mbind result_bind].
  pose proof (fix_all_spec coordinates _ _ _ Hrep Hk Hbit) as Hfix.
  destruct (fold_result _ _ _) as [[parents1 fixed]|e]; cbn [mbind result_bind].
  2: { destruct Hfix as (-> & a & v & b & w & Ha & Hb & Hr & Hne). intros [x Hx]. rewrite Hsat in Hx.
       apply Hne. pose proof (Hx _ Ha) as Hxa. pose proof (Hx _ Hb) as Hxb. cbn in Hxa, Hxb.
       assert (constant_on coordinates rep x) as Hc.
       { apply Hconst; [done|]. intros [|l r] Hp; [done|]. exact (Hx _ Hp). }
       rewrite <- Hxa, <- Hxb, <- (Hc b), Hr; [by apply Hc, (Hk _ _ Ha); left|by apply (Hk _ _ Hb); left]. }
  destruct Hfix as [Hrep1 Hfixed]. cbn [fst snd] in *.
  destruct (group_all_spec coordinates rep coordinates [] parents1 [] Hrep1) as (parents2 & groups & -> & Hrep2 & Hg).
  { done. } { done. } { split; [constructor|by intros r m ?%elem_of_nil|by intros r ?%elem_of_nil]. }
  cbn [app] in Hg. cbn [no_key mbind result_bind fst snd].
  destruct (solve_rows_spec coordinates rep fixed groups {| so_parents := parents2; so_entries := []; so_rhs := [] |} Hrep2)
    as (solved & -> & Hsolved & Hholds).
  { split; constructor. } { intros root members Hin. apply (gr_members _ _ _ Hg _ _ Hin). }
  cbn [no_key mbind result_bind].
  destruct (from_entries_distinct (so_row solved) (len coordinates) (so_entries solved)) as (m & -> & Hmv & Hms & Hme);
    [apply len_nonneg|apply len_nonneg|by destruct Hsolved..|]. cbn [matrix_of mbind result_bind].
  assert (forall row, row ∈ rows -> terms_known coordinates row /\ ConstraintRow_valid row = true) as Hrows by auto.
  destruct (from_entries_distinct (len rows) (len coordinates) (certificate_entries coordinates rows)) as (cm & -> & Hcv & Hcs & Hce);
    [apply len_nonneg|apply len_nonneg|by apply certificate_entries_ok|by apply certificate_keys|]. cbn [matrix_of mbind result_bind].
  unfold csr_shape in Hms, Hcs. injection Hms as Hmr Hmc. injection Hcs as Hcr Hcc.
  set (compiled := {| cc_coordinate_ids := _ |}).
  assert (CompiledConstraints_valid compiled = true) as Hv.
  { unfold CompiledConstraints_valid. cbn. rewrite Hmr, Hmc, Hcr, Hcc, !len_mapped, !Z.eqb_refl. unfold no_duplicates.
    by rewrite bool_decide_true. }
  rewrite Hv. cbn [negb raise_if]. split; [done|done| | |].
  - intros x. rewrite Hsat. unfold matrix_holds. cbn [cc_matrix cc_rhs compiled]. rewrite (entries_hold_perm _ _ _ _ Hme).
    change (so_holds coordinates solved x <-> forall p, p ∈ parsed -> parsed_holds x p). rewrite Hholds. split.
    + intros [_ Hgr]. by eapply groups_sat.
    + intros Hx. split; [intros r Hr; unfold len in Hr; cbn in Hr; lia|]. eapply constant_on_fixed; try done.
      * apply Hconst; [done|]. intros [|l r] Hp; [done|]. exact (Hx _ Hp).
      * intros v Hvc. by eapply rep_in.
  - intros x. unfold matrix_holds. cbn [cc_certificate_matrix cc_certificate_rhs compiled].
    rewrite (entries_hold_perm _ _ _ _ Hce). by apply certificate_holds.
  - eexists. apply Hsat. by apply fixed_for_assignment.
Qed.

(** ** The properties *)

(** C19. Compiling hard constraints loses and adds nothing.  For valid rows the
    compilation ends in one of these ways: it returns a valid solve system and
    a valid certificate system that both have, over the rationals, exactly the
    solutions of the given rows, which have one; or it calls the rows
    contradictory, and no assignment of the coordinates satisfies them all; or
    it refuses the coordinates, some of which are empty or equal; or it refuses
    a row that names an unknown coordinate or is neither a fix to zero or one
    nor an equality.  It never meets a missing parent or a chain without end,
    and never builds a system its own validators refuse. *)
Theorem compile_constraints_exact coordinates rows :
  (forall row, row ∈ rows -> ConstraintRow_valid row = true) ->
  match compile_constraints coordinates rows with
  | Ok c => compiled_exactly coordinates rows c
  | Err (ConstraintSystemError CONTRADICTORY) => ~ satisfiable rows
  | Err (ConstraintSystemError INVALID_COORDINATES) => ~ (Forall (fun id => is_empty id = false) coordinates /\ NoDup coordinates)
  | Err (ConstraintSystemError code) => exists row, row ∈ rows /\ parse_row coordinates row = Err (ConstraintSystemError code)
  | Err _ => False
  end.
Proof. apply compile_ends. Qed.

Open Scope string_scope.
Definition toy_coordinates : list string := ["a"; "b"; "c"; "d"].
Definition toy_equality (id l r : string) : ConstraintRow :=
  {| cr_constraint_id := id; cr_terms := [(l, f_one); (r, f_minus_one)]; cr_rhs := f_zero |}.
Definition toy_fix (id c : string) (value : float) : ConstraintRow :=
  {| cr_constraint_id := id; cr_terms := [(c, f_one)]; cr_rhs := value |}.
Definition toy_rows : list ConstraintRow := [toy_equality "1" "b" "c"; toy_equality "2" "a" "b"; toy_fix "3" "c" f_one].
Definition toy_system : CompiledConstraints :=
  Eval vm_compute in match compile_constraints toy_coordinates toy_rows with
  | Ok c => c
  | Err _ => {| cc_coordinate_ids := []; cc_matrix := csr_of 0 0 []; cc_rhs := []; cc_certificate_matrix := csr_of 0 0 [];
                cc_certificate_rhs := []; cc_supports := [] |}
  end.
Lemma toy_compiled_run : compile_constraints toy_coordinates toy_rows = Ok toy_system.
Proof. vm_compute. reflexivity. Qed.
Lemma toy_rows_valid row : row ∈ toy_rows -> ConstraintRow_valid row = true.
Proof. revert row. apply Forall_forall. repeat constructor. Qed.
(** Three solve rows for the group of three, none for the free coordinate. *)
Lemma compile_constraints_exact_witness :
  csr_rows (cc_matrix toy_system) = 3 /\ compiled_exactly toy_coordinates toy_rows toy_system.
Proof.
  split; [reflexivity|]. pose proof (compile_constraints_exact toy_coordinates toy_rows toy_rows_valid) as Hc.
  rewrite toy_compiled_run in Hc. exact Hc.
Defined.
Example toy_contradiction :
  compile_constraints toy_coordinates (toy_fix "4" "a" f_zero :: toy_rows) = Err (ConstraintSystemError CONTRADICTORY).
Proof. vm_compute. reflexivity. Qed.
(** The recursion of [find] is as deep as the longest chain, and equalities
    given from the end of a chain build one as long as they are many. *)
Example find_recursion_is_deep :
  match union_all toy_coordinates (disjoint_set toy_coordinates)
          [Equality "c" "d"; Equality "b" "c"; Equality "a" "b"] with
  | Some parents => (snd <$> find 3 parents "d", snd <$> find 4 parents "d")
  | None => (None, None)
  end = (None, Some "a").
Proof. vm_compute. reflexivity. Qed.
