(* ===== verification/Solver.v ===== *)
(** Constrained solves of the context graph: the KKT system of
    [context_graph/solver.py], and the elimination of coordinates with its
    reconstruction, [context_graph/reduction.py].  The backend is a parameter,
    as in the code. *)
From S2P Require Import Prelude PyString PyFloat Domain Runtime Segmenter Budget BudgetProperties GraphTypes Matrix Backends Constraints.
Open Scope string_scope.
Open Scope list_scope.
Open Scope Z_scope.

(** [LinearAlgebraBackend.solve] *)
Abbreviation linear_backend := (CsrMatrix -> list float -> SolvePolicy -> result backend_error LinearSolveResult).
(** What leaves the solvers as an exception: a [ValueError], an [IndexError] or
    [KeyError], an exception of the backend, a [ReductionError]. *)
Inductive ReductionErrorCode := CONSTRAINT_SUPPORT_ELIMINATED | SOLVE_FAILED | INVALID_REDUCTION_INPUT | NONFINITE_REDUCTION_OUTPUT.
#[export] Instance ReductionErrorCode_eq_dec : EqDecision ReductionErrorCode.
Proof. solve_decision. Defined.
Inductive solver_error :=
| SolverValueError | SolverIndexError | SolverKeyError | SolverBackend | ReductionError (code : ReductionErrorCode).
Definition solver_matrix {A} (r : result matrix_error A) : result solver_error A :=
  match r with Ok a => Ok a | Err _ => Err SolverValueError end.
Definition solver_backend {A} (r : result backend_error A) : result solver_error A :=
  match r with Ok a => Ok a | Err BackendValueError => Err SolverValueError | Err BackendException => Err SolverBackend end.
Definition solver_index {A} (r : option A) : result solver_error A :=
  match r with Some a => Ok a | None => Err SolverIndexError end.
(** [l[i]] of a position that is not negative. *)
Definition index_at {A} (l : list A) (i : Z) : result solver_error A := solver_index (l !! Z.to_nat i).

(** ** [solver.py] *)

Record ConstrainedSolveResult := {
  cs_status : SolveStatus; cs_solution : option (list float); cs_multipliers : option (list float);
  cs_backend_name : string; cs_backward_error : float; cs_condition_estimate : option float;
}.
(** The result with the fields of the backend's. *)
Definition constrained_result (r : LinearSolveResult) (solution multipliers : option (list float)) : ConstrainedSolveResult :=
  {| cs_status := ls_status r; cs_solution := solution; cs_multipliers := multipliers; cs_backend_name := ls_backend_name r;
     cs_backward_error := ls_backward_error r; cs_condition_estimate := ls_condition_estimate r |}.
(** The entries of the KKT matrix: the operator, and each constraint entry on both sides of the diagonal. *)
Definition kkt_entries (m constraints : CsrMatrix) : list entry :=
  iter_entries m ++ flat_map (fun '(row, column, value) =>
    [(column, csr_rows m + row, value); (csr_rows m + row, column, value)]) (iter_entries constraints).
(** [solve_constrained_system] *)
Definition solve_constrained_system (m : CsrMatrix) (rhs : list float) (constraints : CompiledConstraints)
    (backend : linear_backend) (policy : SolvePolicy) : result solver_error ConstrainedSolveResult :=
  raise SolverValueError when negb (csr_rows m =? csr_columns m);;
  let size := csr_rows m in
  raise SolverValueError when negb (len rhs =? size);;
  if existsb (fun value => negb (f_is_finite value)) rhs then
    Ok {| cs_status := NONFINITE_INPUT; cs_solution := None; cs_multipliers := None; cs_backend_name := "none";
          cs_backward_error := f_inf; cs_condition_estimate := None |}
  else
  raise SolverValueError when negb (csr_columns (cc_matrix constraints) =? size);;
  let constraint_count := csr_rows (cc_matrix constraints) in
  if constraint_count =? 0 then
    result ← solver_backend (backend m rhs policy);
    Ok (constrained_result result (ls_solution result) (if is_some (ls_solution result) then Some [] else None))
  else
  let system_size := size + constraint_count in
  kkt ← solver_matrix (from_entries (system_size, system_size) (kkt_entries m (cc_matrix constraints)));
  result ← solver_backend (backend kkt (rhs ++ cc_rhs constraints) policy);
  match ls_solution result with
  | None => Ok (constrained_result result None None)
  | Some solution => Ok (constrained_result result (Some (take_z size solution)) (Some (drop (Z.to_nat size) solution)))
  end.

(** ** [reduction.py] *)

Record StateReduction := {
  sr_original_matrix : CsrMatrix; sr_original_rhs : list float; sr_original_constraints : CompiledConstraints;
  sr_retained_indices : list Z; sr_eliminated_indices : list Z; sr_reduced_matrix : CsrMatrix; sr_reduced_rhs : list float;
  sr_projected_constraints : CompiledConstraints; sr_reconstruction_operator : list (list float);
  sr_reconstruction_offset : list float; sr_elimination_backend_name : string; sr_elimination_backward_error : float;
}.
Record ProjectedSolveResult := {
  ps_status : SolveStatus; ps_solution : option (list float); ps_multipliers : option (list float); ps_backend_name : string;
  ps_backward_error : float; ps_condition_estimate : option float; ps_reconstruction_error : float;
}.
(** [_accepted] *)
Definition _accepted (status : SolveStatus) (policy : SolvePolicy) : bool :=
  eqb_of status CONVERGED || (eqb_of status LEAST_SQUARES && sp_allow_least_squares policy).
(** [_project_constraints] *)
Definition _project_constraints (constraints : CompiledConstraints) (retained : list Z) : result solver_error CompiledConstraints :=
  ids ← map_result (index_at (cc_coordinate_ids constraints)) retained;
  m ← solver_matrix (submatrix (cc_matrix constraints) (py_range 0 (csr_rows (cc_matrix constraints))) retained);
  certificate ← solver_matrix (submatrix (cc_certificate_matrix constraints)
                                 (py_range 0 (csr_rows (cc_certificate_matrix constraints))) retained);
  let projected :=
    {| cc_coordinate_ids := ids; cc_matrix := m; cc_rhs := cc_rhs constraints; cc_certificate_matrix := certificate;
       cc_certificate_rhs := cc_certificate_rhs constraints; cc_supports := cc_supports constraints |} in
  raise SolverValueError when negb (CompiledConstraints_valid projected);;
  Ok projected.
(** A solve of the elimination: its solution, its error and its backend. *)
Definition elimination_solve (backend : linear_backend) (policy : SolvePolicy) (m : CsrMatrix) (rhs : list float)
    : result solver_error (list float * float * string) :=
  r ← solver_backend (backend m rhs policy);
  raise (ReductionError SOLVE_FAILED) when negb (_accepted (ls_status r) policy);;
  match ls_solution r with
  | None => Err (ReductionError SOLVE_FAILED)
  | Some solution => Ok (solution, ls_backward_error r, ls_backend_name r)
  end.
(** [column_rhs]: the columns of the block, dense. *)
Definition column_rhs_of (m : CsrMatrix) (retained eliminated : list Z) : list (list float) :=
  foldl (fun columns '(row, column, value) => alter (<[Z.to_nat row := value]>) (Z.to_nat column) columns)
    (replicate (length retained) (replicate (length eliminated) f_zero)) (iter_entries m).
(** The loop over the columns: the solutions, the greatest error, the last backend. *)
Definition solve_column (backend : linear_backend) (policy : SolvePolicy) (m : CsrMatrix)
    (state : list (list float) * float * string) (values : list float) : result solver_error (list (list float) * float * string) :=
  let '(solve_columns, maximum_error, _) := state in
  solved ← elimination_solve backend policy m values;
  let '(solution, error, name) := solved : list float * float * string in
  Ok (solve_columns ++ [solution], f_max maximum_error error, name).
(** The corrections of the Schur complement. *)
Definition schur_corrections (m : CsrMatrix) (solve_columns : list (list float)) : result solver_error (list entry) :=
  corrections ← map_result (fun '(column, solved_column) =>
      correction ← solver_matrix (matvec m solved_column);
      Ok (omap (fun '(row, value) => if value !=? f_zero then Some (row, column, f_neg value) else None) (enumerate correction)))
    (enumerate solve_columns);
  Ok (concat corrections).
Definition reconstruction_operator_of (solve_columns : list (list float)) (retained eliminated : list Z)
    : result solver_error (list (list float)) :=
  map_result (fun row => map_result (fun column =>
      values ← index_at solve_columns column; value ← index_at values row; Ok (f_neg value))
    (py_range 0 (len retained))) (py_range 0 (len eliminated)).
(** The checks of the arguments. *)
Definition reduction_input_invalid (m : CsrMatrix) (rhs : list float) (constraints : CompiledConstraints) (retained : list Z) : bool :=
  let size := csr_rows m in
  negb (csr_columns m =? size) || negb (len rhs =? size)
  || existsb (fun value => negb (f_is_finite value)) rhs
  || negb (csr_columns (cc_matrix constraints) =? size)
  || existsb (fun index => (index <? 0) || (size <=? index)) retained
  || negb (no_duplicates retained).
(** [range(size)] without the retained indices. *)
Definition eliminated_of (size : Z) (retained : list Z) : list Z :=
  List.filter (fun index => negb (bool_decide (index ∈ retained))) (py_range 0 size).
(** [reduce_state] *)
Definition reduce_state (m : CsrMatrix) (rhs : list float) (constraints : CompiledConstraints) (retained : list Z)
    (backend : linear_backend) (policy : SolvePolicy) : result solver_error StateReduction :=
  raise (ReductionError INVALID_REDUCTION_INPUT) when reduction_input_invalid m rhs constraints retained;;
  support_indices ← map_result (fun id => match index_of (cc_coordinate_ids constraints) id with
                                          | Some i => Ok i | None => Err SolverKeyError end) (support_coordinate_ids constraints);
  raise (ReductionError CONSTRAINT_SUPPORT_ELIMINATED) when negb (subset_of support_indices retained);;
  let eliminated := eliminated_of (csr_rows m) retained in
  projected_constraints ← _project_constraints constraints retained;
  reduced_matrix ← solver_matrix (submatrix m retained retained);
  reduced_rhs ← map_result (index_at rhs) retained;
  let reduction reduced_matrix reduced_rhs operator offset name error :=
    {| sr_original_matrix := m; sr_original_rhs := rhs; sr_original_constraints := constraints; sr_retained_indices := retained;
       sr_eliminated_indices := eliminated; sr_reduced_matrix := reduced_matrix; sr_reduced_rhs := reduced_rhs;
       sr_projected_constraints := projected_constraints; sr_reconstruction_operator := operator;
       sr_reconstruction_offset := offset; sr_elimination_backend_name := name; sr_elimination_backward_error := error |} in
  match eliminated with
  | [] => Ok (reduction reduced_matrix reduced_rhs [] [] "none" f_zero)
  | _ =>
      eliminated_matrix ← solver_matrix (submatrix m eliminated eliminated);
      eliminated_retained ← solver_matrix (submatrix m eliminated retained);
      retained_eliminated ← solver_matrix (submatrix m retained eliminated);
      eliminated_rhs ← map_result (index_at rhs) eliminated;
      offset_result ← elimination_solve backend policy eliminated_matrix eliminated_rhs;
      let '(offset, error, name) := offset_result : list float * float * string in
      columns ← fold_result (solve_column backend policy eliminated_matrix)
                  (column_rhs_of eliminated_retained retained eliminated) ([], error, name);
      let '(solve_columns, maximum_error, backend_name) := columns : list (list float) * float * string in
      corrections ← schur_corrections retained_eliminated solve_columns;
      reduced_matrix ← solver_matrix (from_entries (len retained, len retained) (iter_entries reduced_matrix ++ corrections));
      rhs_correction ← solver_matrix (matvec retained_eliminated offset);
      let reduced_rhs := zip_with f_sub reduced_rhs rhs_correction in
      operator ← reconstruction_operator_of solve_columns retained eliminated;
      raise (ReductionError NONFINITE_REDUCTION_OUTPUT) when
        existsb (existsb (fun value => negb (f_is_finite value))) operator
        || existsb (fun value => negb (f_is_finite value)) reduced_rhs;;
      Ok (reduction reduced_matrix reduced_rhs operator offset backend_name maximum_error)
  end.

Section projected.
Context `{FloatSum}.
(** One eliminated coordinate from the retained ones. *)
Definition reconstructed (retained_solution : list float) (offset : float) (row : list float) : result solver_error float :=
  products ← map_result (fun '(column, coefficient) =>
    value ← index_at retained_solution column; Ok (f_mul coefficient value)) (enumerate row);
  Ok (f_add offset (float_sum products)).
(** The assignments of [full_solution]. *)
Definition assign_all (indices : list Z) (values : list float) (full : list float) : list float :=
  foldl (fun full '(index, value) => <[Z.to_nat index := value]> full) full (zip indices values).
(** The quotient at the end. *)
Definition reconstruction_quotient (numerator denominator : float) : float :=
  if (numerator ==? f_zero) && (denominator ==? f_zero) then f_zero
  else if f_lt f_zero denominator then f_div numerator denominator else f_inf.
(** [solve_projected_system] *)
Definition solve_projected_system (reduction : StateReduction) (backend : linear_backend) (policy : SolvePolicy)
    : result solver_error ProjectedSolveResult :=
  result ← solve_constrained_system (sr_reduced_matrix reduction) (sr_reduced_rhs reduction)
             (sr_projected_constraints reduction) backend policy;
  let projected status solution error reconstruction_error :=
    {| ps_status := status; ps_solution := solution; ps_multipliers := cs_multipliers result;
       ps_backend_name := cs_backend_name result; ps_backward_error := error;
       ps_condition_estimate := cs_condition_estimate result; ps_reconstruction_error := reconstruction_error |} in
  match cs_solution result with
  | None => Ok (projected (cs_status result) None (cs_backward_error result) f_inf)
  | Some retained_solution =>
      let original := sr_original_matrix reduction in
      let eliminated := sr_eliminated_indices reduction in
      eliminated_solution ← map_result (fun '(offset, row) => reconstructed retained_solution offset row)
        (zip (sr_reconstruction_offset reduction) (sr_reconstruction_operator reduction));
      let full_solution :=
        assign_all eliminated eliminated_solution
          (assign_all (sr_retained_indices reduction) retained_solution (replicate (Z.to_nat (csr_rows original)) f_zero)) in
      if existsb (fun value => negb (f_is_finite value)) full_solution
      then Ok (projected NONFINITE_OUTPUT None f_inf f_inf) else
      eliminated_rows ← solver_matrix (submatrix original eliminated (py_range 0 (csr_columns original)));
      eliminated_rhs ← map_result (index_at (sr_original_rhs reduction)) eliminated;
      product ← solver_matrix (matvec eliminated_rows full_solution);
      let residual := zip_with f_sub product eliminated_rhs in
      let denominator := f_add (f_mul (matrix_infinity_norm eliminated_rows) (vector_infinity_norm full_solution))
                           (vector_infinity_norm eliminated_rhs) in
      Ok (projected (cs_status result) (Some full_solution) (cs_backward_error result)
            (reconstruction_quotient (vector_infinity_norm residual) denominator))
  end.
End projected.
