(* ===== verification/Engine.v ===== *)
(** The sparse context engine ([context_graph/engine.py]): the numerical
    certificate of a solve and [SparseContextEngine.solve]. *)
From S2P Require Import Prelude PyString PyFloat Domain Runtime Segmenter Budget BudgetProperties GraphTypes Matrix Backends Constraints Solver.
Open Scope string_scope.
Open Scope list_scope.
Open Scope Z_scope.

(** [code.value] *)
Definition constraint_code_value (c : ConstraintErrorCode) : string :=
  match c with
  | UNSUPPORTED => "UNSUPPORTED" | CONTRADICTORY => "CONTRADICTORY" | UNKNOWN_COORDINATE => "UNKNOWN_COORDINATE"
  | INVALID_COORDINATES => "INVALID_COORDINATES"
  end.
Definition reduction_code_value (c : ReductionErrorCode) : string :=
  match c with
  | CONSTRAINT_SUPPORT_ELIMINATED => "CONSTRAINT_SUPPORT_ELIMINATED" | SOLVE_FAILED => "SOLVE_FAILED"
  | INVALID_REDUCTION_INPUT => "INVALID_INPUT" | NONFINITE_REDUCTION_OUTPUT => "NONFINITE_OUTPUT"
  end.
(** What leaves the engine as an exception. *)
Inductive engine_error := EngineValueError | EngineKeyError | EngineIndexError | EngineBackend.

Section certificate.
Context `{FloatSum}.
(** [_normalized_residual] *)
Definition _normalized_residual (residual : list float) (denominator : float) : float :=
  let numerator := vector_infinity_norm residual in
  if denominator ==? f_zero then (if numerator ==? f_zero then f_zero else f_inf) else
  let result := f_div numerator denominator in
  if f_is_finite result then result else f_inf.
(** [_stationarity_error] *)
Definition _stationarity_error (operator : CsrMatrix) (query : list float) (constraints : CompiledConstraints)
    (solution multipliers : list float) : result matrix_error float :=
  operator_product ← matvec operator solution;
  constraint_product ← transpose_matvec (cc_matrix constraints) multipliers;
  let residual := zip_with f_add (zip_with f_sub operator_product query) constraint_product in
  let denominator := f_add (f_add (f_mul (matrix_infinity_norm operator) (vector_infinity_norm solution))
                              (vector_infinity_norm query)) (vector_infinity_norm constraint_product) in
  Ok (_normalized_residual residual denominator).
(** [_constraint_error] *)
Definition _constraint_error (constraints : CompiledConstraints) (solution : list float) : result matrix_error float :=
  product ← matvec (cc_certificate_matrix constraints) solution;
  let residual := zip_with f_sub product (cc_certificate_rhs constraints) in
  let denominator := f_add (f_mul (matrix_infinity_norm (cc_certificate_matrix constraints)) (vector_infinity_norm solution))
                       (vector_infinity_norm (cc_certificate_rhs constraints)) in
  Ok (_normalized_residual residual denominator).
End certificate.

(** [_relation_expansion_exceeds_limit]; a relation has a term. *)
Fixpoint relations_exceed (relations : list SparseRelation) (limit expanded_entries : Z) : bool :=
  match relations with
  | [] => false
  | relation :: relations =>
      let term_count := len (re_terms relation) in
      let remaining := limit - expanded_entries in
      if remaining / term_count <? term_count then true
      else relations_exceed relations limit (expanded_entries + term_count * term_count)
  end.
Definition _relation_expansion_exceeds_limit (g : ContextGraph) (limit : Z) : bool := relations_exceed (gr_relations g) limit 0.

Section engine.
Variable config : ContextGraphConfig.

(** [_policy] *)
Definition _policy : SolvePolicy :=
  {| sp_allow_least_squares := gc_allow_least_squares config; sp_prefer_iterative := false;
     sp_direct_backward_error_limit := gc_direct_backward_error_limit config;
     sp_iterative_backward_error_limit := gc_iterative_backward_error_limit config;
     sp_condition_warning := gc_condition_warning config; sp_condition_failure := gc_condition_failure config;
     sp_python_max_n := gc_python_max_n config; sp_python_max_nnz := gc_python_max_nnz config;
     sp_numpy_max_n := gc_numpy_max_n config; sp_numpy_max_dense_bytes := gc_numpy_max_dense_bytes config;
     sp_sparse_max_n := gc_sparse_max_n config; sp_sparse_max_nnz := gc_sparse_max_nnz config;
     sp_max_iterations := gc_max_iterations config |}.
Definition engine_make {A} (valid : A -> bool) (x : A) : result engine_error A :=
  raise EngineValueError when negb (valid x);; Ok x.
(** [_degraded] *)
Definition _degraded (error_code : string) (certificate : option ErrorCertificate) (activation_scores : list (string * float))
    (solve_status backend_name : option string) : result engine_error EngineResult :=
  engine_make EngineResult_valid
    {| er_outcome := DEGRADED_RAW; er_selected_blocks := []; er_activation_scores := activation_scores;
       er_certificate := certificate; er_error_code := Some error_code; er_solve_status := solve_status;
       er_backend_name := backend_name |}.
Definition degraded_early (error_code : string) : result engine_error EngineResult := _degraded error_code None [] None None.

Definition capacity_exceeded (g : ContextGraph) : bool :=
  (gc_max_coordinates config <? len (gr_coordinates g)) || (gc_max_relations config <? len (gr_relations g))
  || _relation_expansion_exceeds_limit g (gc_max_relation_entries config)
  || (gc_max_constraints config <? len (gr_constraints g)).
Definition unknown_coordinate (ids : list string) (a : QueryActivation) : bool :=
  existsb (fun s => negb (bool_decide (s.1 ∈ ids))) (qa_scores a)
  || existsb (fun id => negb (bool_decide (id ∈ ids))) (qa_retained_coordinate_ids a).
(** [dict(scores).get(id, 0.0)] for each coordinate. *)
Definition query_of (ids : list string) (a : QueryActivation) : list float :=
  let score_by_coordinate : gmap string float := list_to_map (rev (qa_scores a)) in
  map (fun id => default f_zero (score_by_coordinate !! id)) ids.
Definition required_coordinate_ids (g : ContextGraph) : list string :=
  map co_coordinate_id (List.filter (fun c => cb_required (co_candidate c)) (gr_coordinates g)).
(** The members of [retained_ids]. *)
Definition retained_ids (g : ContextGraph) (a : QueryActivation) (constraints : CompiledConstraints) : list string :=
  if nonempty (qa_retained_coordinate_ids a)
  then qa_retained_coordinate_ids a ++ support_coordinate_ids constraints ++ required_coordinate_ids g
  else coordinate_ids_of g.
Definition retained_indices_of (g : ContextGraph) (a : QueryActivation) (constraints : CompiledConstraints) : list Z :=
  map fst (List.filter (fun p => bool_decide (p.2 ∈ retained_ids g a constraints)) (enumerate (coordinate_ids_of g))).

Section solve.
Context `{FloatSum} `{NumericLibraries}.
(** What the solve leaves for the rest: status, solution, multipliers, backend, reconstruction error. *)
Record Solved := {
  sv_status : SolveStatus; sv_solution : option (list float); sv_multipliers : option (list float);
  sv_backend_name : string; sv_reconstruction_error : float;
}.
Definition engine_backend : linear_backend := auto_solve (gc_prefer_sparse config).
Definition numeric_solve (operator : CsrMatrix) (query : list float) (constraints : CompiledConstraints) (retained : list Z)
    (count : Z) : result solver_error Solved :=
  if len retained <? count then
    reduction ← reduce_state operator query constraints retained engine_backend _policy;
    projected ← solve_projected_system reduction engine_backend _policy;
    Ok {| sv_status := ps_status projected; sv_solution := ps_solution projected; sv_multipliers := ps_multipliers projected;
          sv_backend_name := ps_backend_name projected; sv_reconstruction_error := ps_reconstruction_error projected |}
  else
    full ← solve_constrained_system operator query constraints engine_backend _policy;
    Ok {| sv_status := cs_status full; sv_solution := cs_solution full; sv_multipliers := cs_multipliers full;
          sv_backend_name := cs_backend_name full; sv_reconstruction_error := f_zero |}.

(** The certificate's two computed errors. *)
Definition certificate_errors (operator : CsrMatrix) (query : list float) (constraints : CompiledConstraints)
    (solution multipliers : list float) : result matrix_error (float * float) :=
  stationarity_error ← _stationarity_error operator query constraints solution multipliers;
  constraint_error ← _constraint_error constraints solution;
  Ok (stationarity_error, constraint_error).

Definition selected_ids (scores : list (string * float)) : list string :=
  map fst (List.filter (fun s => f_le (gc_selection_threshold config) s.2) scores).
Definition selected_coordinates_of (g : ContextGraph) (scores : list (string * float)) : list GraphCoordinate :=
  List.filter (fun c => bool_decide (co_coordinate_id c ∈ selected_ids scores)) (gr_coordinates g).
Definition required_passed_of (g : ContextGraph) (scores : list (string * float)) : bool :=
  forallb (fun c => negb (cb_required (co_candidate c)) || bool_decide (co_coordinate_id c ∈ selected_ids scores)) (gr_coordinates g).
Definition provenance_passed_of (g : ContextGraph) (a : QueryActivation) (scores : list (string * float)) : bool :=
  forallb (fun c => subset_of (cb_source_event_ids (co_candidate c)) (qa_provenance_event_ids a)) (selected_coordinates_of g scores).
(** The first check that fails. *)
Definition failure_code (stationarity_error constraint_error reconstruction_error : float) (required_passed provenance_passed : bool)
    : option string :=
  let numerical_limit := gc_direct_backward_error_limit config in
  if f_lt numerical_limit stationarity_error then Some "CERTIFICATE_STATIONARITY_FAILED"
  else if f_lt numerical_limit constraint_error then Some "CERTIFICATE_CONSTRAINT_FAILED"
  else if f_lt numerical_limit reconstruction_error then Some "CERTIFICATE_RECONSTRUCTION_FAILED"
  else if negb required_passed then Some "CERTIFICATE_REQUIRED_BLOCK_FAILED"
  else if negb provenance_passed then Some "CERTIFICATE_PROVENANCE_FAILED"
  else None.

(** From the accepted solution to the result. *)
Definition certify (g : ContextGraph) (a : QueryActivation) (mode : ContextEngineMode) (operator : CsrMatrix) (query : list float)
    (constraints : CompiledConstraints) (solution multipliers : list float) (s : Solved) : result engine_error EngineResult :=
  let scores := zip (coordinate_ids_of g) solution in
  let solve_status := Some (solve_status_value (sv_status s)) in
  let backend_name := Some (sv_backend_name s) in
  let reconstruction_error := sv_reconstruction_error s in
  match certificate_errors operator query constraints solution multipliers with
  | Err _ => _degraded "CERTIFICATE_NONFINITE" None scores solve_status backend_name
  | Ok (stationarity_error, constraint_error) =>
      if existsb (fun value => negb (f_is_finite value)) [stationarity_error; constraint_error; reconstruction_error]
      then _degraded "CERTIFICATE_NONFINITE" None scores solve_status backend_name else
      let required_passed := required_passed_of g scores in
      let provenance_passed := provenance_passed_of g a scores in
      let numerical_limit := gc_direct_backward_error_limit config in
      let numerical_passed := f_le stationarity_error numerical_limit && f_le constraint_error numerical_limit
                              && f_le reconstruction_error numerical_limit in
      certificate ← engine_make ErrorCertificate_valid
        {| ec_stationarity_error := stationarity_error; ec_constraint_error := constraint_error;
           ec_reconstruction_error := reconstruction_error; ec_required_blocks_passed := required_passed;
           ec_provenance_passed := provenance_passed; ec_passed := numerical_passed && required_passed && provenance_passed |};
      match failure_code stationarity_error constraint_error reconstruction_error required_passed provenance_passed with
      | Some code => _degraded code (Some certificate) scores solve_status backend_name
      | None =>
          engine_make EngineResult_valid
            {| er_outcome := if eqb_of mode MODE_ACTIVE then OUTCOME_ACTIVE else OUTCOME_SHADOW;
               er_selected_blocks := if eqb_of mode MODE_ACTIVE then map co_candidate (selected_coordinates_of g scores) else [];
               er_activation_scores := scores; er_certificate := Some certificate; er_error_code := None;
               er_solve_status := solve_status; er_backend_name := backend_name |}
      end
  end.

(** The value errors of the [try] statement around the compilation. *)
Definition compiled_input (g : ContextGraph) : result engine_error ((CsrMatrix * CompiledConstraints) + string) :=
  match build_propagation_operator g (gc_epsilon config) with
  | Err (OperatorMatrix _) => Ok (inr "GRAPH_INVALID")
  | Err OperatorKeyError => Err EngineKeyError
  | Ok operator =>
      match compile_constraints (coordinate_ids_of g) (gr_constraints g) with
      | Err (ConstraintSystemError code) => Ok (inr ("CONSTRAINT_" +:+ constraint_code_value code))
      | Err ConstraintValueError => Ok (inr "GRAPH_INVALID")
      | Err ConstraintKeyError => Err EngineKeyError
      | Ok constraints => Ok (inl (operator, constraints))
      end
  end.
(** The engine after the compilation. *)
Definition solve_compiled (g : ContextGraph) (a : QueryActivation) (mode : ContextEngineMode) (operator : CsrMatrix)
    (constraints : CompiledConstraints) : result engine_error EngineResult :=
  let ids := coordinate_ids_of g in
  let query := query_of ids a in
  raise EngineValueError when negb (SolvePolicy_valid _policy);;
  match numeric_solve operator query constraints (retained_indices_of g a constraints) (len ids) with
  | Err (ReductionError code) => degraded_early ("REDUCTION_" +:+ reduction_code_value code)
  | Err SolverValueError => degraded_early "NUMERICAL_INPUT_INVALID"
  | Err SolverIndexError => Err EngineIndexError
  | Err SolverKeyError => Err EngineKeyError
  | Err SolverBackend => Err EngineBackend
  | Ok s =>
      match sv_solution s, sv_multipliers s with
      | Some solution, Some multipliers =>
          if _accepted (sv_status s) _policy then certify g a mode operator query constraints solution multipliers s
          else _degraded ("SOLVE_" +:+ solve_status_value (sv_status s)) None [] (Some (solve_status_value (sv_status s)))
                 (Some (sv_backend_name s))
      | _, _ => _degraded ("SOLVE_" +:+ solve_status_value (sv_status s)) None [] (Some (solve_status_value (sv_status s)))
                  (Some (sv_backend_name s))
      end
  end.
(** [SparseContextEngine.solve] *)
Definition engine_solve (g : ContextGraph) (a : QueryActivation) (mode : ContextEngineMode) : result engine_error EngineResult :=
  if eqb_of mode MODE_OFF then
    engine_make EngineResult_valid
      {| er_outcome := OUTCOME_OFF; er_selected_blocks := []; er_activation_scores := []; er_certificate := None;
         er_error_code := None; er_solve_status := None; er_backend_name := None |}
  else if capacity_exceeded g then degraded_early "GRAPH_CAPACITY_EXCEEDED"
  else if unknown_coordinate (coordinate_ids_of g) a then degraded_early "QUERY_UNKNOWN_COORDINATE"
  else
    compiled ← compiled_input g;
    match compiled with
    | inr code => degraded_early code
    | inl (operator, constraints) => solve_compiled g a mode operator constraints
    end.
End solve.
End engine.
