(* ===== verification/BackendProperties.v ===== *)
(** What a linear solver promises the engine, and that every backend of
    [context_graph/backends.py] keeps the promise whatever NumPy and SciPy
    return: a solution it hands out has the shape of the system and its
    backward error was computed from the system itself, and an accepted status
    stands for an error within the policy's limit. *)
From S2P Require Import Prelude PyString PyFloat Domain Runtime Segmenter Budget BudgetProperties GraphTypes Matrix Backends Constraints Solver.
Open Scope string_scope.
Open Scope list_scope.
Open Scope Z_scope.

(** ** The order of floats *)

(** Comparison is that of a triple of integers: class, exponent, mantissa. *)
Definition float_key (x : float) : Z * Z * Z :=
  match x with
  | SpecFloat.S754_zero _ | SpecFloat.S754_nan => (0, 0, 0)
  | SpecFloat.S754_infinity s => (if s then -2 else 2, 0, 0)
  | SpecFloat.S754_finite s m e => if s then (-1, - e, - Zpos m) else (1, e, Zpos m)
  end.
Definition key_le (a b : Z * Z * Z) : Prop :=
  a.1.1 < b.1.1 \/ (a.1.1 = b.1.1 /\ (a.1.2 < b.1.2 \/ (a.1.2 = b.1.2 /\ a.2 <= b.2))).
Ltac by_key := split; [intros; split_and?; first [done|lia]|intros (? & ? & ?); cbn in *; first [done|lia]].
Lemma f_le_key x y : f_le x y = true <-> is_nan x = false /\ is_nan y = false /\ key_le (float_key x) (float_key y).
Proof.
  unfold f_le, SpecFloat.SFleb, key_le. destruct x as [s1|s1| |s1 m1 e1], y as [s2|s2| |s2 m2 e2]; cbn;
    try destruct s1; try destruct s2; cbn; try by_key;
    change (Pos.compare_cont Eq m1 m2) with (Pos.compare m1 m2);
    destruct (Z.compare_spec e1 e2); try by_key; destruct (Pos.compare_spec m1 m2); by_key.
Qed.
Lemma f_le_trans x y z : f_le x y = true -> f_le y z = true -> f_le x z = true.
Proof. rewrite !f_le_key. unfold key_le. intros (? & ? & ?) (? & ? & ?). split_and!; [done..|lia]. Qed.
Lemma f_lt_le x y : f_lt x y = true -> f_le x y = true.
Proof. unfold f_lt, f_le, SpecFloat.SFltb, SpecFloat.SFleb. destruct (SpecFloat.SFcompare x y) as [[]|]; done. Qed.
Lemma f_le_total x y : f_is_finite x = true -> f_is_finite y = true -> f_le x y = false -> f_le y x = true.
Proof.
  intros Hx Hy H. apply f_lt_le. rewrite f_lt_not_le, H; [done|..]; by destruct x, y.
Qed.
(** What is not greater is at most, for numbers. *)
Lemma f_lt_false_le x y : f_is_finite x = true -> f_is_finite y = true -> f_lt x y = false -> f_le y x = true.
Proof. intros Hx Hy. rewrite f_lt_not_le; [|by destruct x|by destruct y]. by intros ?%negb_false_iff. Qed.

(** ** The promise *)

(** The limit of the backend that answered: the direct one, or that of an
    iterative solve where the policy asks for it. *)
Definition error_limit (policy : SolvePolicy) (limit : float) : Prop :=
  limit = sp_direct_backward_error_limit policy
  \/ (sp_prefer_iterative policy = true /\ limit = sp_iterative_backward_error_limit policy).
Definition accepted_status (s : SolveStatus) : bool := eqb_of s CONVERGED || eqb_of s LEAST_SQUARES.

Section promise.
Context `{FloatSum}.
Record honest_result (m : CsrMatrix) (rhs : list float) (policy : SolvePolicy) (r : LinearSolveResult) : Prop := {
  honest_solution x : ls_solution r = Some x ->
    _validated_rhs m rhs = None /\ backward_error m x rhs = Ok (ls_backward_error r);
  honest_accepted : accepted_status (ls_status r) = true ->
    is_some (ls_solution r) = true /\ f_is_finite (ls_backward_error r) = true
    /\ exists limit, error_limit policy limit /\ f_le (ls_backward_error r) limit = true;
  honest_least_squares : ls_status r = LEAST_SQUARES -> sp_allow_least_squares policy = true;
  honest_condition : ls_status r = CONVERGED -> csr_rows m <> 0 ->
    forall c, ls_condition_estimate r = Some c -> f_is_finite c = true /\ f_lt c (sp_condition_warning policy) = true;
  honest_name : is_empty (ls_backend_name r) = false;
}.
(** What [LinearAlgebraBackend] promises: for every usable policy, an honest answer. *)
Class HonestBackend (backend : linear_backend) :=
  backend_honest : forall m rhs policy r, SolvePolicy_valid policy = true -> backend m rhs policy = Ok r -> honest_result m rhs policy r.

(** ** The classification *)

Section results.
Variables (m : CsrMatrix) (rhs : list float) (policy : SolvePolicy).
Hypothesis (policy_ok : SolvePolicy_valid policy = true).

Lemma policy_limits : f_is_finite (sp_direct_backward_error_limit policy) = true
  /\ f_is_finite (sp_iterative_backward_error_limit policy) = true
  /\ f_is_finite (sp_condition_warning policy) = true /\ f_is_finite (sp_condition_failure policy) = true
  /\ f_le (sp_direct_backward_error_limit policy) f_zero = false
  /\ f_le (sp_iterative_backward_error_limit policy) f_zero = false
  /\ f_le (sp_condition_failure policy) (sp_condition_warning policy) = false.
Proof.
  unfold SolvePolicy_valid in policy_ok. cbn [forallb] in policy_ok. rewrite !andb_true_iff, !negb_true_iff in policy_ok. tauto.
Qed.
(** A failed condition is an ill-conditioned system. *)
Lemma classified_converged error condition iterative : _classified_status error condition policy iterative = CONVERGED ->
  f_is_finite error = true
  /\ f_le error (if iterative then sp_iterative_backward_error_limit policy else sp_direct_backward_error_limit policy) = true
  /\ _condition_failed condition policy = false
  /\ (forall c, condition = Some c -> f_is_finite c = true /\ f_lt c (sp_condition_warning policy) = true).
Proof.
  unfold _classified_status. destruct (f_is_finite error) eqn:Hf; [cbn [negb]|done].
  destruct policy_limits as (Hd & Hi & Hw & Hfl & _ & _ & Hord).
  set (limit := if iterative then _ else _). assert (f_is_finite limit = true) as Hl by (unfold limit; by destruct iterative).
  destruct (f_lt limit error) eqn:Hlt; [done|]. intros Hc.
  assert (f_le error limit = true) as Hle by by apply f_lt_false_le.
  destruct condition as [c|]; [|by repeat split].
  destruct (f_is_finite c) eqn:Hcf; [|done]. cbn [negb] in Hc.
  destruct (f_le (sp_condition_failure policy) c) eqn:Hcfail; [done|].
  destruct (f_le (sp_condition_warning policy) c) eqn:Hcw; [done|].
  split_and!; [done..|cbn; by rewrite Hcf, Hcfail|]. intros c' [= <-]. split; [done|].
  rewrite f_lt_not_le, Hcw; [done|by destruct c|by destruct (sp_condition_warning policy)].
Qed.
Lemma classified_not_least error condition iterative : _classified_status error condition policy iterative <> LEAST_SQUARES.
Proof.
  unfold _classified_status. destruct (f_is_finite error); cbn [negb]; [|done].
  destruct (f_lt _ _); [done|]. destruct condition as [c|]; [|done].
  destruct (f_is_finite c); cbn [negb]; [|done]. destruct (f_le _ _); [done|]. by destruct (f_le _ _).
Qed.

(** ** The answers *)

Lemma no_solution_honest status name : is_empty name = false -> accepted_status status = false -> honest_result m rhs policy (no_solution status name).
Proof. intros Hn Hs. split; cbn; [done|congruence|intros ->; done|done|done]. Qed.
Lemma refused_honest status name error condition iterations : is_empty name = false -> accepted_status status = false ->
  honest_result m rhs policy (_stable_result status name None error condition iterations).
Proof. intros Hn Hs. split; cbn; [done|congruence|intros ->; done| |done]. intros ->. done. Qed.
Lemma validated_rhs_not_accepted status : _validated_rhs m rhs = Some status -> accepted_status status = false.
Proof. unfold _validated_rhs. repeat case_match; intros [= <-]; done. Qed.
Lemma empty_honest name : is_empty name = false -> _validated_rhs m rhs = None -> csr_rows m = 0 -> honest_result m rhs policy (empty_solution name).
Proof.
  intros Hn Hv Hsize. split; cbn; [|intros _|done|done|done].
  - intros x [= <-]. split; [done|]. unfold _validated_rhs in Hv. rewrite Hsize in Hv.
    destruct (0 =? csr_columns m) eqn:Hc; [|done]. destruct (len rhs =? 0) eqn:Hr; [|done]. bool_hyps. cbn [negb] in Hv.
    assert (rhs = []) as -> by (destruct rhs; [done|rewrite len_cons in Hr; pose proof (len_nonneg l); lia]).
    unfold backward_error, matvec, matrix_infinity_norm. rewrite <- Hc, Hsize. reflexivity.
  - split_and!; [done..|]. exists (sp_direct_backward_error_limit policy). split; [by left|].
    destruct policy_limits as (Hd & _ & _ & _ & Hz & _). by apply f_le_total.
Qed.
Lemma classified_honest name x error condition : is_empty name = false -> _validated_rhs m rhs = None -> backward_error m x rhs = Ok error ->
  honest_result m rhs policy (classified_result name x error condition policy).
Proof.
  intros Hn Hv He. unfold classified_result.
  destruct (_condition_failed condition policy) eqn:Hcf.
  - apply refused_honest; [done|]. destruct (accepted_status _) eqn:Ha; [|done].
    apply orb_true_iff in Ha as [Ha|Ha]; apply bool_decide_eq_true in Ha.
    + apply classified_converged in Ha as (_ & _ & ? & _). congruence.
    + by apply classified_not_least in Ha.
  - split; cbn; [by intros y [= <-]| |by intros ?%classified_not_least|by intros (_ & _ & _ & ?)%classified_converged _|done].
    intros [Ha|Ha]%orb_true_iff; apply bool_decide_eq_true in Ha; [|by apply classified_not_least in Ha].
    apply classified_converged in Ha as (Hf & Hl & _). split_and!; [done..|]. eexists. split; [by left|done].
Qed.
End results.

(** ** The backends *)

#[export] Instance python_honest : HonestBackend python_solve.
Proof.
  intros m rhs policy r Hp. unfold python_solve. destruct (_validated_rhs m rhs) as [status|] eqn:Hv.
  { intros [= <-]. apply no_solution_honest; [done|by eapply validated_rhs_not_accepted]. }
  destruct (_ || _); [by intros [= <-]; apply no_solution_honest|].
  destruct (csr_rows m =? 0) eqn:Hsize; [bool_hyps; intros [= <-]; by apply empty_honest|].
  destruct (to_dense _ _ _); cbn [backend_matrix mbind result_bind]; [|done].
  destruct (_ ==? f_zero); [by intros [= <-]; apply no_solution_honest|].
  destruct (eliminate _ _ _ _ _ _) as [[[dense working] pivots]|]; [|by intros [= <-]; apply no_solution_honest].
  destruct (substitute_back _ _ _ _ _ _) as [x|]; [|by intros [= <-]; apply no_solution_honest].
  destruct (existsb _ x); [by intros [= <-]; apply no_solution_honest|].
  destruct (backward_error m x rhs) as [error|] eqn:He; cbn [backend_matrix mbind result_bind]; [|done].
  intros [= <-]. by apply classified_honest.
Qed.

Section libraries.
Context `{NumericLibraries}.

Lemma numpy_caught_inr {A} name (o : lib_outcome A) m rhs policy r : is_empty name = false ->
  numpy_caught name o = Ok (inr r) -> honest_result m rhs policy r.
Proof. intros Hn. destruct o; cbn; try case_match; try done; intros [= <-]; by apply no_solution_honest. Qed.
Lemma scipy_caught_inr {A} name (o : lib_outcome A) m rhs policy r : is_empty name = false ->
  scipy_caught name o = Ok (inr r) -> honest_result m rhs policy r.
Proof. intros Hn. destruct o; cbn; try case_match; try done; intros [= <-]; by apply no_solution_honest. Qed.
Lemma numpy_finish_honest name m rhs policy condition output rank r : is_empty name = false -> SolvePolicy_valid policy = true ->
  _validated_rhs m rhs = None -> (is_some rank = true -> sp_allow_least_squares policy = true) ->
  numpy_finish name m rhs policy condition output rank = Ok r -> honest_result m rhs policy r.
Proof.
  intros Hn Hp Hv Hls. unfold numpy_finish. destruct (existsb _ output); [by intros [= <-]; apply refused_honest|].
  destruct (backward_error m output rhs) as [error|] eqn:He; cbn [backend_matrix mbind result_bind]; [|done].
  destruct rank as [rank|]; [|intros [= <-]; by apply classified_honest].
  destruct (rank <? csr_rows m); [by intros [= <-]; apply refused_honest|].
  destruct (eqb_of _ CONVERGED) eqn:Hc; cbn [negb]; intros [= <-].
  - apply bool_decide_eq_true in Hc. apply classified_converged in Hc as (Hf & Hl & _ & _); [|done].
    split; cbn; [by intros x [= <-]|intros _|intros _; by apply Hls|done|done].
    split_and!; [done..|]. eexists. split; [by left|done].
  - apply refused_honest; [done|]. apply orb_false_iff. split; [done|]. apply bool_decide_eq_false. apply classified_not_least.
Qed.
#[export] Instance numpy_honest : HonestBackend numpy_solve.
Proof.
  intros m rhs policy r Hp. unfold numpy_solve. destruct (_validated_rhs m rhs) as [status|] eqn:Hv.
  { intros [= <-]. apply no_solution_honest; [done|by eapply validated_rhs_not_accepted]. }
  destruct (_ || _); [by intros [= <-]; apply no_solution_honest|].
  destruct (csr_rows m =? 0) eqn:Hsize; [bool_hyps; intros [= <-]; by apply empty_honest|].
  destruct (negb numpy_installed); [by intros [= <-]; apply no_solution_honest|].
  destruct (to_dense _ _ _) as [dense|]; [|by intros [= <-]; apply no_solution_honest].
  destruct (numpy_caught _ (np_cond dense)) as [[condition|r']|] eqn:Hn; cbn [mbind result_bind]; [|intros [= <-]; (eapply numpy_caught_inr; [|eassumption]; reflexivity)|done].
  destruct (np_solve dense rhs) as [x| | | | |] eqn:Hs;
    try (cbn [numpy_caught mbind result_bind]; first [done|by destruct lin_alg_error_is_value_error|intros [= <-]; by apply no_solution_honest|by apply numpy_finish_honest]).
  destruct (sp_allow_least_squares policy) eqn:Hls; cbn [negb]; [|by intros [= <-]; apply refused_honest].
  destruct (numpy_caught _ (np_lstsq dense rhs)) as [[[output rank]|r']|] eqn:Hn'; cbn [mbind result_bind];
    [by apply numpy_finish_honest|intros [= <-]; (eapply numpy_caught_inr; [|eassumption]; reflexivity)|done].
Qed.
#[export] Instance scipy_honest : HonestBackend scipy_solve.
Proof.
  intros m rhs policy r Hp. unfold scipy_solve. destruct (_validated_rhs m rhs) as [status|] eqn:Hv.
  { intros [= <-]. apply no_solution_honest; [done|by eapply validated_rhs_not_accepted]. }
  destruct (_ || _); [by intros [= <-]; apply no_solution_honest|].
  destruct (csr_rows m =? 0) eqn:Hsize; [bool_hyps; intros [= <-]; by apply empty_honest|].
  destruct (negb (_ && _)); [by intros [= <-]; apply no_solution_honest|].
  destruct (sp_prefer_iterative policy) eqn:Hit.
  - unfold scipy_iterative. destruct (scipy_caught "scipy-sparse" (sp_gmres _ _ _ _)) as [[[[output info] iterations]|r']|] eqn:Hn; cbn [mbind result_bind];
      [|intros [= <-]; (eapply scipy_caught_inr; [|eassumption]; reflexivity)|done].
    destruct (info <? 0); [by intros [= <-]; apply refused_honest|].
    destruct (existsb _ output); [by intros [= <-]; apply refused_honest|].
    destruct (backward_error m output rhs) as [error|] eqn:He; cbn [scipy_matrix]; [|by intros [= <-]; apply no_solution_honest].
    destruct (0 <? info); intros [= <-]; (split; cbn; [by intros x [= <-]|..]; try done).
    + intros [Ha|Ha]%orb_true_iff; apply bool_decide_eq_true in Ha; [|by apply classified_not_least in Ha].
      apply classified_converged in Ha as (Hf & Hl & _); [|done]. split_and!; [done..|]. eexists. split; [by right|done].
    + by intros ?%classified_not_least.
  - unfold scipy_direct. destruct (scipy_caught "scipy-sparse" (sp_splu_solve _ _)) as [[output|r']|] eqn:Hn; cbn [mbind result_bind];
      [|intros [= <-]; (eapply scipy_caught_inr; [|eassumption]; reflexivity)|done].
    destruct (scipy_caught "scipy-sparse" (if csr_rows m <=? 256 then sp_dense_cond m else sp_norm_estimates m)) as [[condition|r']|] eqn:Hn'; cbn [mbind result_bind];
      [|intros [= <-]; (eapply scipy_caught_inr; [|eassumption]; reflexivity)|done].
    destruct (existsb _ output); [by intros [= <-]; apply refused_honest|].
    destruct (backward_error m output rhs) as [error|] eqn:He; cbn [backend_matrix mbind result_bind]; [|done].
    intros [= <-]. by apply classified_honest.
Qed.
#[export] Instance auto_honest prefer_sparse : HonestBackend (auto_solve prefer_sparse).
Proof.
  intros m rhs policy r Hp. unfold auto_solve. destruct prefer_sparse; [|by apply numpy_honest].
  destruct (scipy_solve m rhs policy) as [r'|] eqn:Hs; cbn [mbind result_bind]; [|done].
  destruct (backend_declined _); cbn [negb]; [|intros [= <-]; by apply scipy_honest].
  destruct (_ && _); [intros [= <-]; by apply scipy_honest|by apply numpy_honest].
Qed.

(** C18. Whatever NumPy and SciPy return, every backend answers honestly: a
    solution belongs to a square system it was validated against and carries
    the backward error computed from that system; [CONVERGED] and
    [LEAST_SQUARES] come with a solution whose finite error is within the
    policy's limit, [LEAST_SQUARES] only where the policy allows it, and a
    [CONVERGED] system's condition estimate is below the warning threshold. *)
Theorem backends_answer_honestly prefer_sparse m rhs policy r : SolvePolicy_valid policy = true ->
  python_solve m rhs policy = Ok r \/ numpy_solve m rhs policy = Ok r \/ scipy_solve m rhs policy = Ok r
    \/ auto_solve prefer_sparse m rhs policy = Ok r ->
  honest_result m rhs policy r.
Proof.
  intros Hp [Hr|[Hr|[Hr|Hr]]];
    [by apply python_honest|by apply numpy_honest|by apply scipy_honest|by apply (auto_honest prefer_sparse)].
Qed.
End libraries.
End promise.

Open Scope string_scope.
(** A NumPy that inverts the identity, and one that returns something else. *)
Definition toy_numpy (answer : list float) : NumericLibraries :=
  {| numpy_installed := true; scipy_installed := false; lin_alg_error_is_value_error := true;
     np_cond := fun _ => Returned f_one; np_solve := fun _ _ => Returned answer; np_lstsq := fun _ _ => LinAlgError;
     sp_gmres := fun _ _ _ _ => LibOther; sp_splu_solve := fun _ _ => LibOther; sp_dense_cond := fun _ => LibOther;
     sp_norm_estimates := fun _ => LibOther |}.
Definition toy_identity : CsrMatrix :=
  {| csr_rows := 1; csr_columns := 1; csr_indptr := [0; 1]; csr_indices := [0]; csr_data := [f_one] |}.
Definition toy_answer (answer : list float) : LinearSolveResult :=
  match auto_solve (H := plain_sum) (H0 := toy_numpy answer) false toy_identity [f_one] default_policy with
  | Ok r => r
  | Err _ => no_solution INVALID_INPUT "none"
  end.
Lemma toy_answers : map (fun answer => (ls_status (toy_answer answer), ls_backend_name (toy_answer answer)))
    [[f_one]; [f_half]; [f_one; f_one]]
  = [(CONVERGED, "numpy-dense"); (ILL_CONDITIONED, "numpy-dense"); (INVALID_INPUT, "none")].
Proof. vm_compute. reflexivity. Qed.
Lemma backends_answer_honestly_witness :
  honest_result (H := plain_sum) toy_identity [f_one] default_policy (toy_answer [f_one])
  /\ honest_result (H := plain_sum) toy_identity [f_one] default_policy (toy_answer [f_half]).
Proof.
  split.
  - apply (backends_answer_honestly (H := plain_sum) (H0 := toy_numpy [f_one]) false); [reflexivity|]. right; right; right.
    exact (eq_refl (Ok (toy_answer [f_one]))).
  - apply (backends_answer_honestly (H := plain_sum) (H0 := toy_numpy [f_half]) false); [reflexivity|]. right; right; right.
    exact (eq_refl (Ok (toy_answer [f_half]))).
Defined.
