(* ===== verification/EngineProperties.v ===== *)
(** What the sparse context engine guarantees: a selection is handed out only
    with a certificate computed from the graph, and the engine always answers,
    whatever the numeric libraries do. *)
From S2P Require Import Prelude PyString PyFloat Domain Runtime Segmenter Budget BudgetProperties GraphTypes Matrix MatrixProperties Backends Constraints ConstraintProperties Solver Engine BackendProperties.
Open Scope string_scope.
Open Scope list_scope.
Open Scope Z_scope.

(** ** Shapes *)

Lemma len_map {A B} (f : A -> B) l : len (map f l) = len l.
Proof. unfold len. by rewrite length_map. Qed.
Lemma len_py_range n : 0 <= n -> len (py_range 0 n) = n.
Proof. intros. unfold len. rewrite length_py_range. lia. Qed.
Lemma len_replicate {A} n (x : A) : 0 <= n -> len (replicate (Z.to_nat n) x) = n.
Proof. intros. unfold len. rewrite length_replicate. lia. Qed.
Lemma len_zip_with {A B C} (f : A -> B -> C) l k : len l = len k -> len (zip_with f l k) = len l.
Proof. unfold len. rewrite length_zip_with. lia. Qed.
Lemma map_result_length {E A B} (f : A -> result E B) l ys : map_result f l = Ok ys -> len ys = len l.
Proof. intros H%map_result_ok%Forall2_length. unfold len. lia. Qed.

Definition finite_list (l : list float) : Prop := Forall (fun x => f_is_finite x = true) l.
Lemma finite_list_check l : existsb (fun value => negb (f_is_finite value)) l = false <-> finite_list l.
Proof.
  unfold finite_list. rewrite existsb_false_iff, Forall_forall. split; intros H x Hx; specialize (H x Hx); by destruct (f_is_finite x).
Qed.
Lemma matvec_ok m x y : matvec m x = Ok y -> len x = csr_columns m /\ finite_list x /\ finite_list y /\ y = map (matvec_row m x) (py_range 0 (csr_rows m)).
Proof.
  unfold matvec. intros H. apply raise_if_ok in H as [Hx H]. apply raise_if_ok in H as [Hl H]. apply raise_if_ok in H as [Hy [= <-]].
  apply finite_list_check in Hx. apply finite_list_check in Hy. bool_hyps. done.
Qed.
Lemma transpose_matvec_ok m x y : transpose_matvec m x = Ok y -> len x = csr_rows m /\ finite_list x /\ finite_list y.
Proof.
  unfold transpose_matvec. intros H. apply raise_if_ok in H as [Hx H]. apply raise_if_ok in H as [Hl H]. apply raise_if_ok in H as [Hy [= <-]].
  apply finite_list_check in Hx. apply finite_list_check in Hy. bool_hyps. done.
Qed.
Lemma backward_error_ok `{FloatSum} m x rhs e : backward_error m x rhs = Ok e -> len x = csr_columns m /\ finite_list x.
Proof.
  unfold backward_error. destruct (matvec m x) as [y|] eqn:Hy; cbn [mbind result_bind]; [|done]. intros _.
  by apply matvec_ok in Hy as (? & ? & _).
Qed.
Lemma from_entries_shape shape entries m : from_entries shape entries = Ok m ->
  csr_shape m = shape /\ 0 <= shape.1 /\ 0 <= shape.2.
Proof.
  destruct shape as [rows columns]. intros H. pose proof H as H'. unfold from_entries in H'. apply raise_if_ok in H' as [Hb _].
  apply orb_false_iff in Hb as [Hr%Z.ltb_ge Hc%Z.ltb_ge]. rewrite from_entries_spec in H by done.
  destruct (accumulate_all _ _ _ _); [|done]. by injection H as <-.
Qed.
Lemma submatrix_shape m rows columns s : submatrix m rows columns = Ok s -> csr_shape s = (len rows, len columns).
Proof.
  unfold submatrix. intros H. do 3 apply raise_if_ok in H as [_ H]. by apply from_entries_shape in H as [? _].
Qed.
Lemma build_operator_shape g epsilon m : build_propagation_operator g epsilon = Ok m ->
  csr_shape m = (len (gr_coordinates g), len (gr_coordinates g)).
Proof.
  unfold build_propagation_operator. intros [_ H]%raise_if_ok. destruct (mapM _ _) as [relations|]; [|done].
  destruct (from_entries _ _) as [m'|] eqn:Hm; [|done]. injection H as <-. by apply from_entries_shape in Hm as [? _].
Qed.
Lemma compile_constraints_shape coordinates rows c : compile_constraints coordinates rows = Ok c ->
  cc_coordinate_ids c = coordinates /\ CompiledConstraints_valid c = true.
Proof.
  unfold compile_constraints. intros [_ H]%raise_if_ok. apply raise_if_ok in H as [_ H].
  repeat (let st := fresh in match type of H with (_ ≫= _) = _ => apply result_bind_ok in H as (st & _ & H) end).
  apply raise_if_ok in H as [Hv [= <-]]. by apply negb_false_iff in Hv.
Qed.
Record constraints_shaped (size : Z) (c : CompiledConstraints) : Prop := {
  shaped_ids : len (cc_coordinate_ids c) = size;
  shaped_columns : csr_columns (cc_matrix c) = size;
  shaped_rows : csr_rows (cc_matrix c) = len (cc_rhs c);
}.
Lemma valid_shaped c : CompiledConstraints_valid c = true -> constraints_shaped (len (cc_coordinate_ids c)) c.
Proof. unfold CompiledConstraints_valid. rewrite !andb_true_iff. intros [[[[[_ ?] ?] _] _] _]. bool_hyps. by split. Qed.

(** ** Certified selections *)

Section engine.
Context `{FloatSum} `{NumericLibraries}.
Variable config : ContextGraphConfig.

(** The certificate of a result: recomputed from the graph and the query for
    the scores in the result, within the limit. *)
Record certified (g : ContextGraph) (a : QueryActivation) (scores : list (string * float)) (c : ErrorCertificate) : Prop := {
  certified_errors : exists operator constraints solution multipliers,
    build_propagation_operator g (gc_epsilon config) = Ok operator
    /\ compile_constraints (coordinate_ids_of g) (gr_constraints g) = Ok constraints
    /\ len solution = len (gr_coordinates g) /\ scores = zip (coordinate_ids_of g) solution
    /\ _stationarity_error operator (query_of (coordinate_ids_of g) a) constraints solution multipliers = Ok (ec_stationarity_error c)
    /\ _constraint_error constraints solution = Ok (ec_constraint_error c);
  certified_limits : Forall (fun e => f_le e (gc_direct_backward_error_limit config) = true)
    [ec_stationarity_error c; ec_constraint_error c; ec_reconstruction_error c];
  certified_passed : ec_passed c = true;
}.
(** A selection: the candidates whose score reaches the threshold, every
    required one among them, and no event of theirs outside the provenance. *)
Record selection_of (g : ContextGraph) (a : QueryActivation) (scores : list (string * float)) (blocks : list CandidateBlock) : Prop := {
  selection_threshold b : b ∈ blocks <-> exists c score, c ∈ gr_coordinates g /\ b = co_candidate c
    /\ (co_coordinate_id c, score) ∈ scores /\ f_le (gc_selection_threshold config) score = true;
  selection_required c : c ∈ gr_coordinates g -> cb_required (co_candidate c) = true -> co_candidate c ∈ blocks;
  selection_provenance b e : b ∈ blocks -> e ∈ cb_source_event_ids b -> e ∈ qa_provenance_event_ids a;
}.
(** What a result may claim in each outcome. *)
Definition result_backed (g : ContextGraph) (a : QueryActivation) (mode : ContextEngineMode) (r : EngineResult) : Prop :=
  match er_outcome r with
  | OUTCOME_OFF => mode = MODE_OFF /\ er_selected_blocks r = [] /\ er_certificate r = None
  | DEGRADED_RAW => mode <> MODE_OFF /\ er_selected_blocks r = [] /\ is_some (er_error_code r) = true
      /\ (forall c, er_certificate r = Some c -> ec_passed c = false)
  | OUTCOME_SHADOW => mode = MODE_SHADOW /\ er_selected_blocks r = [] /\ er_error_code r = None
      /\ exists c, er_certificate r = Some c /\ certified g a (er_activation_scores r) c
  | OUTCOME_ACTIVE => mode = MODE_ACTIVE /\ er_error_code r = None
      /\ selection_of g a (er_activation_scores r) (er_selected_blocks r)
      /\ exists c, er_certificate r = Some c /\ certified g a (er_activation_scores r) c
  end.

Lemma engine_make_ok {A} (valid : A -> bool) (x y : A) : engine_make valid x = Ok y -> y = x /\ valid x = true.
Proof. unfold engine_make. intros [Hv [= <-]]%raise_if_ok. by apply negb_false_iff in Hv. Qed.
Lemma degraded_backed g a mode code certificate scores status name r : mode <> MODE_OFF ->
  (forall c, certificate = Some c -> ec_passed c = false) ->
  _degraded code certificate scores status name = Ok r -> result_backed g a mode r.
Proof. intros Hm Hc [-> _]%engine_make_ok. done. Qed.

Lemma degraded_plain g a mode code scores status name r : mode <> MODE_OFF ->
  _degraded code None scores status name = Ok r -> result_backed g a mode r.
Proof. intros Hm. by apply degraded_backed. Qed.

Lemma elem_of_selected_ids scores id : id ∈ selected_ids config scores
  <-> exists score, (id, score) ∈ scores /\ f_le (gc_selection_threshold config) score = true.
Proof.
  unfold selected_ids. rewrite list_elem_of_fmap. split.
  - intros ([id' score] & -> & [Hin Hs]%elem_of_filter_bool). by exists score.
  - intros (score & Hin & Hs). exists (id, score). split; [done|]. by apply elem_of_filter_bool.
Qed.
Lemma selected_selection g a scores : required_passed_of config g scores = true -> provenance_passed_of config g a scores = true ->
  selection_of g a scores (map co_candidate (selected_coordinates_of config g scores)).
Proof.
  unfold required_passed_of, provenance_passed_of. rewrite !forallb_true_iff. intros Hr Hp. split.
  - intros b. rewrite list_elem_of_fmap. unfold selected_coordinates_of. split.
    + intros (c & -> & [Hc Hs%bool_decide_eq_true]%elem_of_filter_bool). apply elem_of_selected_ids in Hs as (score & ? & ?). by exists c, score.
    + intros (c & score & Hc & -> & Hin & Hs). exists c. split; [done|]. apply elem_of_filter_bool. split; [done|].
      apply bool_decide_eq_true, elem_of_selected_ids. by exists score.
  - intros c Hc Hreq. apply list_elem_of_fmap. exists c. split; [done|]. apply elem_of_filter_bool. split; [done|].
    specialize (Hr c Hc). cbn beta in Hr. by rewrite Hreq in Hr.
  - intros b e (c & -> & Hc)%list_elem_of_fmap He. specialize (Hp c Hc). cbn beta in Hp.
    exact (proj1 (subset_of_spec _ _) Hp e He).
Qed.
(** No failure code: all the checks passed. *)
Lemma failure_code_none limits_ok e1 e2 e3 required provenance :
  f_is_finite (gc_direct_backward_error_limit config) = true -> Forall (fun e => f_is_finite e = true) [e1; e2; e3] ->
  limits_ok = (f_le e1 (gc_direct_backward_error_limit config) && f_le e2 (gc_direct_backward_error_limit config)
               && f_le e3 (gc_direct_backward_error_limit config) && required && provenance) ->
  match failure_code config e1 e2 e3 required provenance with Some _ => limits_ok = false | None => limits_ok = true end.
Proof.
  intros Hl Hf ->. assert (forall e, f_is_finite e = true -> f_lt (gc_direct_backward_error_limit config) e
    = negb (f_le e (gc_direct_backward_error_limit config))) as Hlt.
  { intros e He. apply f_lt_not_le; [by destruct (gc_direct_backward_error_limit config)|by destruct e]. }
  inversion_clear Hf as [|? ? H1 Hf']. inversion_clear Hf' as [|? ? H2 Hf'']. inversion_clear Hf'' as [|? ? H3 _].
  unfold failure_code. rewrite !Hlt by done.
  destruct (f_le e1 _), (f_le e2 _), (f_le e3 _), required, provenance; reflexivity.
Qed.

Lemma certify_backed g a mode operator constraints solution multipliers s r :
  ContextGraphConfig_valid config = true -> mode <> MODE_OFF ->
  build_propagation_operator g (gc_epsilon config) = Ok operator ->
  compile_constraints (coordinate_ids_of g) (gr_constraints g) = Ok constraints ->
  certify config g a mode operator (query_of (coordinate_ids_of g) a) constraints solution multipliers s = Ok r ->
  result_backed g a mode r.
Proof.
  intros Hv Hmode Hop Hcc. unfold certify.
  destruct (certificate_errors _ _ _ _ _) as [[e1 e2]|] eqn:He; [|by apply degraded_plain].
  destruct (existsb _ _) eqn:Hfin; [by apply degraded_plain|]. apply finite_list_check in Hfin.
  intros (c & Hc & Hr)%result_bind_ok. apply engine_make_ok in Hc as [Hc _].
  assert (f_is_finite (gc_direct_backward_error_limit config) = true) as Hlim.
  { unfold ContextGraphConfig_valid in Hv. rewrite !andb_true_iff in Hv. cbn [forallb] in Hv. rewrite !andb_true_iff in Hv. tauto. }
  pose proof (failure_code_none (ec_passed c) e1 e2 (sv_reconstruction_error s) _ _ Hlim Hfin (ltac:(rewrite Hc; reflexivity))) as Hcode.
  destruct (failure_code _ _ _ _ _ _) as [code|]; [by eapply degraded_backed in Hr; [|done|intros ? [= <-]]|].
  apply engine_make_ok in Hr as [-> _]. unfold certificate_errors in He.
  apply result_bind_ok in He as (st & Hst & He). apply result_bind_ok in He as (ce & Hce & [= -> ->]).
  assert (certified g a (zip (coordinate_ids_of g) solution) c) as Hcert.
  { rewrite Hc in Hcode. cbn [ec_passed] in Hcode. rewrite !andb_true_iff in Hcode. split.
    - exists operator, constraints, solution, multipliers. rewrite Hc. split_and!; [done..| |done|done|done].
      unfold _stationarity_error in Hst. apply result_bind_ok in Hst as (y & Hy & _). apply matvec_ok in Hy as [Hlen _].
      apply build_operator_shape in Hop. rewrite Hlen. by injection Hop as _ <-.
    - rewrite Hc. repeat constructor; tauto.
    - rewrite Hc. cbn [ec_passed]. rewrite !andb_true_iff. tauto. }
  destruct mode; [..|done]; cbn.
  - split_and!; [done..| |by exists c]. rewrite Hc in Hcode. cbn [ec_passed] in Hcode. rewrite !andb_true_iff in Hcode.
    apply selected_selection; tauto.
  - split_and!; [done..|]. by exists c.
Qed.

Lemma compiled_input_inl g operator constraints : compiled_input config g = Ok (inl (operator, constraints)) ->
  build_propagation_operator g (gc_epsilon config) = Ok operator
  /\ compile_constraints (coordinate_ids_of g) (gr_constraints g) = Ok constraints.
Proof.
  unfold compiled_input. destruct (build_propagation_operator _ _) as [m|[]]; [|done..].
  destruct (compile_constraints _ _) as [c|[]]; [|done..]. by intros [= -> ->].
Qed.

(** C16. Whatever the numeric libraries return, what the engine hands out is
    backed: it selects blocks only in [ACTIVE] mode and outcome, and then they
    are exactly the candidates whose score reaches the threshold, every
    required candidate is among them, and no source event lies outside the
    activation's provenance; an [ACTIVE] or [SHADOW] outcome carries a passed
    certificate whose stationarity and constraint errors were computed from
    the graph's own operator and constraints for the scores in the result, all
    within the configured limit; a degraded one carries an error code, no
    block, and never a passed certificate. *)
Theorem engine_selection_certified g a mode r : ContextGraphConfig_valid config = true ->
  engine_solve config g a mode = Ok r -> result_backed g a mode r.
Proof.
  intros Hv. unfold engine_solve. destruct (eqb_of mode MODE_OFF) eqn:Hm; unfold eqb_of in Hm; bool_hyps.
  { by intros [-> _]%engine_make_ok. }
  unfold degraded_early. destruct (capacity_exceeded _ _); [by apply degraded_plain|].
  destruct (unknown_coordinate _ _); [by apply degraded_plain|]. intros (compiled & Hc & Hr)%result_bind_ok.
  destruct compiled as [[operator constraints]|code]; [|by eapply degraded_plain in Hr].
  apply compiled_input_inl in Hc as [Hop Hcc]. unfold solve_compiled in Hr. apply raise_if_ok in Hr as [_ Hr].
  destruct (numeric_solve _ _ _ _ _ _) as [s|[]]; try done; [|by eapply degraded_plain in Hr..].
  destruct (sv_solution s) as [solution|]; [|by eapply degraded_plain in Hr].
  destruct (sv_multipliers s) as [multipliers|]; [|by eapply degraded_plain in Hr].
  destruct (_accepted _ _); [by eapply certify_backed|by eapply degraded_plain in Hr].
Qed.
End engine.
