(* ===== verification/EngineTotality.v ===== *)
(** The engine always answers: for values its types admit, the only exception
    that leaves [SparseContextEngine.solve] is one of a numeric library that
    the backends have no case for. *)
From S2P Require Import Prelude PyString PyFloat Domain Runtime Segmenter Budget BudgetProperties GraphTypes Matrix MatrixProperties Backends Constraints ConstraintProperties Solver Engine BackendProperties EngineProperties.
From Stdlib Require Import SpecFloat.
Open Scope string_scope.
Open Scope list_scope.
Open Scope Z_scope.

(** ** Signs *)

(** Zeros and NaN count as having no sign. *)
Definition no_sign (x : float) : Prop :=
  match x with S754_finite s _ _ | S754_infinity s => s = false | _ => True end.
Lemma no_sign_lt x : no_sign x -> f_lt x f_zero = false.
Proof. destruct x as [s|s| |s m e]; cbn; try done; by intros ->. Qed.
Lemma round_aux_no_sign m e l : no_sign (binary_round_aux 53 1024 false m e l).
Proof. unfold binary_round_aux. repeat case_match; done. Qed.
Lemma normalize_no_sign p e z : no_sign (binary_normalize 53 1024 (Zpos p) e z).
Proof. unfold binary_normalize, binary_round. case_match. apply round_aux_no_sign. Qed.
Lemma add_no_sign x y : no_sign x -> no_sign y -> no_sign (f_add x y).
Proof.
  unfold f_add, SFadd. destruct x as [s1|s1| |s1 m1 e1], y as [s2|s2| |s2 m2 e2]; cbn -[binary_normalize]; try done.
  - by destruct s1, s2.
  - by intros -> ->.
  - intros -> ->. apply normalize_no_sign.
Qed.
Lemma mul_no_sign x y : no_sign x -> no_sign y -> no_sign (f_mul x y).
Proof.
  unfold f_mul, SFmul. destruct x as [s1|s1| |s1 m1 e1], y as [s2|s2| |s2 m2 e2]; cbn; try done; intros -> ->; try done.
  apply round_aux_no_sign.
Qed.
Lemma div_no_sign x y : no_sign x -> no_sign y -> (y ==? f_zero) = false -> no_sign (f_div x y).
Proof.
  unfold f_div, SFdiv. destruct x as [s1|s1| |s1 m1 e1], y as [s2|s2| |s2 m2 e2]; cbn; try done; intros -> -> _; try done.
  case_match. case_match. apply round_aux_no_sign.
Qed.
Lemma abs_no_sign x : no_sign (f_abs x).
Proof. by destruct x. Qed.
Lemma max_no_sign x y : no_sign x -> no_sign y -> no_sign (f_max x y).
Proof. unfold f_max. by destruct (f_lt x y). Qed.
(** [sum()] of numbers without a sign has none; so it is for either way of adding. *)
Class FloatSumSigns `{FloatSum} := float_sum_no_sign : forall l, Forall no_sign l -> no_sign (float_sum l).
#[export] Instance plain_sum_signs : @FloatSumSigns plain_sum.
Proof.
  intros l. unfold float_sum, plain_sum. assert (no_sign f_zero) as H by done. revert H. generalize f_zero.
  induction l as [|x l IH]; intros z Hz Hl; [done|]. inversion_clear Hl. apply IH; [by apply add_no_sign|done].
Qed.

Section signs.
Context `{FloatSumSigns}.
Lemma foldl_max_no_sign {A} (f : A -> float) l z : (forall x, no_sign (f x)) -> no_sign z ->
  no_sign (foldl (fun m x => f_max m (f x)) z l).
Proof. intros Hf. revert z. induction l as [|x l IH]; intros z Hz; [done|]. apply IH. by apply max_no_sign. Qed.
Lemma vector_norm_no_sign l : no_sign (vector_infinity_norm l).
Proof.
  unfold vector_infinity_norm. destruct l as [|x l]; [done|]. cbn [map].
  assert (no_sign (f_abs x)) as Hx by apply abs_no_sign. revert Hx. generalize (f_abs x).
  induction l as [|y l IH]; intros z Hz; [done|]. apply IH, max_no_sign; [done|apply abs_no_sign].
Qed.
Lemma matrix_norm_no_sign m : no_sign (matrix_infinity_norm m).
Proof.
  unfold matrix_infinity_norm. apply foldl_max_no_sign; [|done]. intros row. apply float_sum_no_sign.
  apply Forall_map, Forall_true. intros. apply abs_no_sign.
Qed.
Lemma residual_no_sign residual d : no_sign d -> no_sign (_normalized_residual residual d).
Proof.
  intros Hd. unfold _normalized_residual. cbv zeta. destruct (d ==? f_zero) eqn:E; [case_match; [exact I|reflexivity]|].
  case_match; [apply div_no_sign; [apply vector_norm_no_sign|done..]|reflexivity].
Qed.
Lemma quotient_no_sign n d : no_sign n -> no_sign d -> no_sign (reconstruction_quotient n d).
Proof.
  intros Hn Hd. unfold reconstruction_quotient. destruct (_ && _); [done|]. destruct (f_lt f_zero d) eqn:E; [|done].
  apply div_no_sign; [done..|]. destruct d as [[]|[]| |[] m e]; done.
Qed.
Lemma norms_no_sign m x y : no_sign (f_add (f_mul (matrix_infinity_norm m) (vector_infinity_norm x)) (vector_infinity_norm y)).
Proof. apply add_no_sign; [apply mul_no_sign|]; auto using matrix_norm_no_sign, vector_norm_no_sign. Qed.
Lemma certificate_errors_no_sign operator query constraints x y e1 e2 :
  certificate_errors operator query constraints x y = Ok (e1, e2) -> no_sign e1 /\ no_sign e2.
Proof.
  unfold certificate_errors. intros (a & Ha & Hr)%result_bind_ok. apply result_bind_ok in Hr as (b & Hb & [= <- <-]).
  unfold _stationarity_error in Ha. apply result_bind_ok in Ha as (u & _ & Ha). apply result_bind_ok in Ha as (v & _ & [= <-]).
  unfold _constraint_error in Hb. apply result_bind_ok in Hb as (w & _ & [= <-]).
  split; apply residual_no_sign; [apply add_no_sign; [|apply vector_norm_no_sign]|]; apply norms_no_sign.
Qed.
End signs.

(** ** How a solver ends *)

(** A result, or an exception other than a failed lookup. *)
Definition ends {A} (P : A -> Prop) (r : result solver_error A) : Prop :=
  match r with Ok a => P a | Err (SolverIndexError | SolverKeyError) => False | Err _ => True end.
Lemma ends_bind {A B} (P : A -> Prop) (Q : B -> Prop) r (f : A -> result solver_error B) :
  ends P r -> (forall a, P a -> ends Q (f a)) -> ends Q (r ≫= f).
Proof. destruct r as [a|e]; cbn; [auto|]. by destruct e. Qed.
Lemma ends_raise {A} (P : A -> Prop) (b : bool) e r :
  ends P (@Err solver_error A e) -> (b = false -> ends P r) -> ends P (raise e when b;; r).
Proof. destruct b; cbn; auto. Qed.
Lemma ends_matrix {A} (P : A -> Prop) r : (forall a, r = Ok a -> P a) -> ends P (solver_matrix r).
Proof. destruct r; cbn; auto. Qed.
Lemma ends_backend {A} (P : A -> Prop) r : (forall a, r = Ok a -> P a) -> ends P (solver_backend r).
Proof. destruct r as [|[]]; cbn; auto. Qed.
Lemma ends_index {A} (l : list A) i : 0 <= i < len l -> ends (fun _ => True) (index_at l i).
Proof.
  intros Hi. unfold index_at. destruct (l !! Z.to_nat i) eqn:E; [done|].
  apply lookup_ge_None in E. unfold len in Hi. lia.
Qed.
Lemma ends_mono {A} (P Q : A -> Prop) r : (forall a, P a -> Q a) -> ends P r -> ends Q r.
Proof. destruct r as [|[]]; cbn; auto. Qed.
Lemma ends_map {A B} (P : B -> Prop) (f : A -> result solver_error B) l : (forall x, x ∈ l -> ends P (f x)) ->
  ends (fun ys => len ys = len l /\ Forall P ys) (map_result f l).
Proof.
  induction l as [|x l IH]; intros Hf; cbn; [done|]. apply (ends_bind P); [apply Hf; left|]. intros y Hy.
  eapply ends_bind; [apply IH; intros; apply Hf; by right|]. intros ys [Hl Hys]. cbn. rewrite !len_cons, Hl. by repeat constructor.
Qed.
Lemma ends_indexes {A} (l : list A) indices : Forall (fun i => 0 <= i < len l) indices ->
  ends (fun ys => len ys = len indices) (map_result (index_at l) indices).
Proof.
  intros H. eapply ends_mono; [|apply (ends_map (fun _ => True)); intros i Hi; by apply ends_index; eapply Forall_forall in H].
  by intros ? [? _].
Qed.
Lemma ends_fold {S A} (step : S -> A -> result solver_error S) (P : list A -> S -> Prop) l s :
  P [] s -> (forall before x s, x ∈ l -> P before s -> ends (P (before ++ [x])) (step s x)) -> ends (P l) (fold_result step l s).
Proof.
  intros Hs Hstep.
  pose proof (fold_result_inv step P l [] s Hs) as H. destruct (fold_result step l s) as [s'|e].
  - apply H. intros before x s1 s2 Hx HP Hr. specialize (Hstep before x s1 Hx HP). by rewrite Hr in Hstep.
  - destruct H as (before & x & s1 & Hx & HP & Hr).
    { intros before x s1 s2 Hx HP Hr. specialize (Hstep before x s1 Hx HP). by rewrite Hr in Hstep. }
    specialize (Hstep before x s1 Hx HP). by rewrite Hr in Hstep.
Qed.

Section solver.
Context `{FloatSumSigns}.
Variables (backend : linear_backend) (policy : SolvePolicy).
Context `{!HonestBackend backend}.
Hypothesis policy_ok : SolvePolicy_valid policy = true.

Definition solution_shaped (size : Z) (x : option (list float)) : Prop :=
  forall y, x = Some y -> len y = size /\ finite_list y.

(** An honest answer has the shape of the system. *)
Lemma backend_shaped m rhs r : backend m rhs policy = Ok r ->
  solution_shaped (csr_columns m) (ls_solution r) /\ is_empty (ls_backend_name r) = false.
Proof.
  intros Hr. apply backend_honest in Hr; [|done]. split; [|by eapply honest_name].
  intros x Hx. by apply (honest_solution _ _ _ _ Hr) in Hx as [_ ?%backward_error_ok].
Qed.
Lemma solve_constrained_ends m rhs constraints : CompiledConstraints_valid constraints = true ->
  ends (fun r => solution_shaped (csr_rows m) (cs_solution r) /\ is_empty (cs_backend_name r) = false)
    (solve_constrained_system m rhs constraints backend policy).
Proof.
  intros Hc%valid_shaped%shaped_rows. unfold solve_constrained_system.
  apply ends_raise; [done|]. intros Hsq. bool_hyps. apply ends_raise; [done|]. intros Hlen. bool_hyps.
  destruct (existsb _ _); [done|]. apply ends_raise; [done|]. intros _.
  destruct (csr_rows (cc_matrix constraints) =? 0).
  - eapply ends_bind; [apply ends_backend; intros r Hr; exact (backend_shaped _ _ _ Hr)|]. intros r [Hs Hn].
    split; [|done]. by rewrite Hsq.
  - eapply ends_bind; [apply ends_matrix; intros k Hk; exact (from_entries_shape _ _ _ Hk)|]. intros kkt (Hk & Hk0 & _).
    eapply ends_bind; [apply ends_backend; intros r Hr; exact (backend_shaped _ _ _ Hr)|]. intros r [Hs Hn].
    destruct (ls_solution r) as [x|] eqn:Hx; [|done]. split; [|done]. intros y [= <-]. destruct (Hs x eq_refl) as [Hx' Hfin].
    injection Hk as _ Hkc. rewrite Hkc in Hx'.
    split; [|by apply Forall_take]. unfold take_z, len in *. rewrite length_take. lia.
Qed.

(** ** Reduction *)

Definition indexes_within (size : Z) (l : list Z) : Prop := Forall (fun i => 0 <= i < size) l.
Record reduction_shaped (size : Z) (r : StateReduction) : Prop := {
  reduced_rows : csr_rows (sr_reduced_matrix r) = len (sr_retained_indices r);
  reduced_original : csr_rows (sr_original_matrix r) = size /\ len (sr_original_rhs r) = size;
  reduced_constraints : CompiledConstraints_valid (sr_projected_constraints r) = true;
  reduced_operator : Forall (fun row => len row = len (sr_retained_indices r)) (sr_reconstruction_operator r);
  reduced_eliminated : indexes_within size (sr_eliminated_indices r);
}.
Lemma eliminated_within size retained : indexes_within size (eliminated_of size retained).
Proof. apply Forall_forall. intros i [Hi _]%elem_of_filter_bool. by apply elem_of_py_range in Hi. Qed.
Lemma project_constraints_ends constraints retained : indexes_within (len (cc_coordinate_ids constraints)) retained ->
  ends (fun c => CompiledConstraints_valid c = true) (_project_constraints constraints retained).
Proof.
  intros Hr. unfold _project_constraints. eapply ends_bind; [by apply ends_indexes|]. intros ids _.
  eapply ends_bind; [by apply (ends_matrix (fun _ => True))|]. intros a _.
  eapply ends_bind; [by apply (ends_matrix (fun _ => True))|]. intros b _.
  apply ends_raise; [done|]. by intros ?%negb_false_iff.
Qed.
Lemma elimination_ends m rhs : ends (fun s => len s.1.1 = csr_columns m /\ is_empty s.2 = false) (elimination_solve backend policy m rhs).
Proof.
  unfold elimination_solve. eapply ends_bind; [apply ends_backend; intros r Hr; exact (backend_shaped _ _ _ Hr)|].
  intros r [Hs Hn]. apply ends_raise; [done|]. intros _. destruct (ls_solution r) as [x|] eqn:Hx; [|done].
  split; [|done]. by destruct (Hs x eq_refl).
Qed.
Lemma column_rhs_length m retained eliminated : len (column_rhs_of m retained eliminated) = len retained.
Proof.
  unfold column_rhs_of. assert (len (replicate (length retained) (replicate (length eliminated) f_zero)) = len retained) as H1
    by (unfold len; by rewrite length_replicate). revert H1. generalize (replicate (length retained) (replicate (length eliminated) f_zero)).
  induction (iter_entries m) as [|[[row column] value] l IH]; intros columns Hc; [done|]. cbn. apply IH. rewrite <- Hc. unfold len. by rewrite length_alter.
Qed.
Lemma solve_columns_ends m values error name : is_empty name = false ->
  ends (fun s => len s.1.1 = len values /\ Forall (fun x => len x = csr_columns m) s.1.1)
    (fold_result (solve_column backend policy m) values ([], error, name)).
Proof.
  intros Hn. apply (ends_fold _ (fun before s => len s.1.1 = len before /\ Forall (fun x => len x = csr_columns m) s.1.1)); [done|].
  intros before x [[columns e] nm] _ [Hl Hf]. unfold solve_column. eapply ends_bind; [apply elimination_ends|].
  intros [[solution e'] nm'] [Hs _]. cbn in *. rewrite !len_app, Hl. split; [done|]. apply Forall_app. by repeat constructor.
Qed.
Lemma schur_ends m columns : ends (fun _ => True) (schur_corrections m columns).
Proof.
  unfold schur_corrections. eapply ends_bind; [|done]. apply (ends_map (fun _ => True)). intros [column x] _.
  eapply ends_bind; [by apply (ends_matrix (fun _ => True))|]. done.
Qed.
Lemma range_within n : Forall (fun i => 0 <= i < n) (py_range 0 n).
Proof. apply Forall_forall. intros i Hi. by apply elem_of_py_range in Hi. Qed.
Lemma index_at_elem {A} (l : list A) i x : index_at l i = Ok x -> x ∈ l.
Proof. unfold index_at. destruct (l !! Z.to_nat i) eqn:E; [|done]. intros [= <-]. by eapply list_elem_of_lookup_2. Qed.
Lemma reconstruction_ends columns retained eliminated : len columns = len retained ->
  Forall (fun x => len x = len eliminated) columns ->
  ends (Forall (fun row => len row = len retained)) (reconstruction_operator_of columns retained eliminated).
Proof.
  intros Hl Hf. unfold reconstruction_operator_of. eapply ends_mono; [|apply ends_map]; [by intros ? [_ ?]|]. intros row Hrow%elem_of_py_range.
  eapply ends_mono; [|apply (ends_map (fun _ => True))]; [intros ? [-> _]; apply len_py_range, len_nonneg|].
  intros column Hc%elem_of_py_range. pose proof (ends_index columns column ltac:(lia)) as Hi.
  destruct (index_at columns column) as [x|[]] eqn:Hx; try done. apply index_at_elem in Hx.
  eapply Forall_forall in Hf; [|exact Hx]. cbn [mbind result_bind].
  apply (ends_bind (fun _ => True)); [apply ends_index; lia|done].
Qed.
Lemma support_indices_ends constraints :
  ends (fun _ => True) (map_result (fun id => match index_of (cc_coordinate_ids constraints) id with
                                          | Some i => Ok i | None => Err SolverKeyError end) (support_coordinate_ids constraints)).
Proof.
  eapply ends_mono; [|apply (ends_map (fun _ => True))]; [done|]. intros id [Hid _]%elem_of_filter_bool.
  by destruct (index_of_known _ _ Hid) as (i & -> & _).
Qed.
Lemma reduce_state_ends m rhs constraints retained : CompiledConstraints_valid constraints = true ->
  ends (reduction_shaped (csr_rows m)) (reduce_state m rhs constraints retained backend policy).
Proof.
  intros Hc%valid_shaped. unfold reduce_state. apply ends_raise; [done|]. unfold reduction_input_invalid. intros Hin. bool_hyps.
  eapply ends_bind; [apply support_indices_ends|]. intros support _. apply ends_raise; [done|]. intros _.
  assert (indexes_within (csr_rows m) retained) as Hret.
  { apply Forall_forall. intros i Hi.
    match goal with Hb : existsb _ retained = false |- _ => rewrite existsb_false_iff in Hb; specialize (Hb i Hi) end. cbn beta in *. bool_hyps. lia. }
  assert (len (cc_coordinate_ids constraints) = csr_rows m) as Hsize by (destruct Hc; lia).
  assert (len rhs = csr_rows m) as Hrhs by lia.
  eapply ends_bind; [apply project_constraints_ends; by rewrite Hsize|]. intros projected Hp.
  eapply ends_bind; [apply ends_matrix; intros k Hk; exact (submatrix_shape _ _ _ _ Hk)|]. intros reduced Hr.
  eapply ends_bind; [apply ends_indexes; by rewrite Hrhs|]. intros reduced_rhs _.
  pose proof (eliminated_within (csr_rows m) retained) as Hel. cbv zeta.
  destruct (eliminated_of (csr_rows m) retained) as [|i0 el] eqn:He.
  { injection Hr as Hrows _. by split. }
  set (eliminated := i0 :: el) in *.
  eapply ends_bind; [apply ends_matrix; intros k Hk; exact (submatrix_shape _ _ _ _ Hk)|]. intros em Hem.
  eapply ends_bind; [apply ends_matrix; intros k Hk; exact (submatrix_shape _ _ _ _ Hk)|]. intros er _.
  eapply ends_bind; [apply ends_matrix; intros k Hk; exact (submatrix_shape _ _ _ _ Hk)|]. intros re _.
  eapply ends_bind; [apply ends_indexes; by rewrite Hrhs|]. intros eliminated_rhs _.
  eapply ends_bind; [apply elimination_ends|]. intros [[offset error] name] [_ Hname].
  eapply ends_bind; [by apply solve_columns_ends|]. intros [[columns maximum] nm] [Hlen Hcolumns]. cbn in Hlen, Hcolumns.
  eapply ends_bind; [apply schur_ends|]. intros corrections _.
  eapply ends_bind; [apply ends_matrix; intros k Hk; exact (proj1 (from_entries_shape _ _ _ Hk))|]. intros reduced' Hr'.
  eapply ends_bind; [by apply (ends_matrix (fun _ => True))|]. intros correction _.
  injection Hem as _ Hemc. rewrite column_rhs_length in Hlen. rewrite Hemc in Hcolumns.
  eapply ends_bind; [by apply reconstruction_ends|]. intros operator Hop. apply ends_raise; [done|]. intros _.
  injection Hr' as Hrows _. by split.
Qed.

(** ** Reconstruction *)

Lemma assign_all_length indices values full : len (assign_all indices values full) = len full.
Proof.
  unfold assign_all. revert full. induction (zip indices values) as [|[i v] l IH]; intros full; [done|]. cbn. rewrite IH.
  unfold len. by rewrite length_insert.
Qed.
Lemma reconstructed_ends x offset row : len row = len x -> ends (fun _ => True) (reconstructed x offset row).
Proof.
  intros Hl. unfold reconstructed. eapply ends_bind; [|done]. apply (ends_map (fun _ => True)). intros [column c] Hin.
  apply elem_of_enumerate_from in Hin as (k & Hk & Hc). cbn in Hk, Hc. pose proof (lookup_lt_Some _ _ _ Hk).
  apply (ends_bind (fun _ => True)); [apply ends_index; unfold len in *; lia|done].
Qed.
Lemma zip_elem_r {A B} (l : list A) (k : list B) p : p ∈ zip l k -> p.2 ∈ k.
Proof. revert k. induction l as [|x l IH]; intros [|y k]; cbn; try by intros ?%elem_of_nil. intros [->|?]%elem_of_cons; [by left|right; by apply IH]. Qed.
Lemma solve_projected_ends size reduction : reduction_shaped size reduction ->
  ends (fun p => solution_shaped size (ps_solution p) /\ is_empty (ps_backend_name p) = false /\ no_sign (ps_reconstruction_error p))
    (solve_projected_system reduction backend policy).
Proof.
  intros [Hrows [Hsize Hrhs] Hc Hop Hel]. unfold solve_projected_system.
  eapply ends_bind; [by apply solve_constrained_ends|]. intros result [Hs Hn]. cbv zeta.
  destruct (cs_solution result) as [x|] eqn:Hx; [|done]. destruct (Hs x eq_refl) as [Hlen _]. rewrite Hrows in Hlen.
  eapply ends_bind.
  { apply (ends_map (fun _ => True)). intros [offset row] Hin%zip_elem_r. cbn in Hin.
    eapply Forall_forall in Hop; [|exact Hin]. apply reconstructed_ends. by rewrite Hop. }
  intros eliminated_solution _. destruct (existsb _ _) eqn:Hfin; [done|]. apply finite_list_check in Hfin.
  eapply ends_bind; [by apply (ends_matrix (fun _ => True))|]. intros rows _.
  eapply ends_bind; [apply ends_indexes; by rewrite Hrhs|]. intros erhs _.
  eapply ends_bind; [by apply (ends_matrix (fun _ => True))|]. intros product _.
  split_and!; cbn; [|done|apply quotient_no_sign; [apply vector_norm_no_sign|apply norms_no_sign]].
  intros y [= <-]. split; [|done]. rewrite !assign_all_length, Hsize. apply len_replicate.
  rewrite <- Hrhs. apply len_nonneg.
Qed.
End solver.

(** ** The engine *)

Section engine.
Context `{FloatSumSigns} `{NumericLibraries}.
Variable config : ContextGraphConfig.
Hypothesis config_ok : ContextGraphConfig_valid config = true.

Lemma policy_valid : SolvePolicy_valid (_policy config) = true.
Proof.
  revert config_ok. unfold ContextGraphConfig_valid, SolvePolicy_valid. cbn. unfold _require_finite, _require_positive_integer.
  rewrite !andb_true_iff, !negb_orb, !negb_true_iff, !andb_true_iff, !negb_true_iff. intros Hc.
  assert (f_le (gc_condition_failure config) f_zero = false); [|tauto].
  apply not_true_iff_false. intros Hf.
  assert (f_le f_zero (gc_condition_warning config) = true) as Hw by (apply f_le_total; tauto).
  pose proof (f_le_trans _ _ _ Hf Hw). assert (f_le (gc_condition_failure config) (gc_condition_warning config) = false) by tauto. congruence.
Qed.
Lemma numeric_solve_ends operator query constraints retained count : CompiledConstraints_valid constraints = true ->
  ends (fun s => solution_shaped (csr_rows operator) (sv_solution s) /\ is_empty (sv_backend_name s) = false
                 /\ no_sign (sv_reconstruction_error s))
    (numeric_solve config operator query constraints retained count).
Proof.
  intros Hc. unfold numeric_solve, engine_backend. pose proof policy_valid. destruct (len retained <? count).
  - eapply ends_bind; [by apply (reduce_state_ends (auto_solve (gc_prefer_sparse config)) (_policy config))|]. intros reduction Hr.
    eapply ends_bind; [by apply (solve_projected_ends (auto_solve (gc_prefer_sparse config)) (_policy config))|]. intros p Hp. done.
  - eapply ends_bind; [by apply (solve_constrained_ends (auto_solve (gc_prefer_sparse config)) (_policy config))|]. intros p [? ?]. done.
Qed.

(** A graph with the checks of its parts. *)
Definition graph_admitted (g : ContextGraph) : Prop :=
  ContextGraph_valid g = true /\ Forall (fun c => GraphCoordinate_valid c = true) (gr_coordinates g)
  /\ Forall (fun r => ConstraintRow_valid r = true) (gr_constraints g).
Definition answers (r : result engine_error EngineResult) : Prop :=
  match r with Ok _ => True | Err e => e = EngineBackend end.

Lemma relation_entries_known ids r : known_terms ids (re_terms r) = true -> is_Some (relation_entries ids r).
Proof.
  intros Hk. unfold relation_entries. destruct (mapM _ (re_terms r)) as [l|] eqn:E; [by eexists|].
  exfalso. apply mapM_None_1, Exists_exists in E as (t & Ht & E). unfold known_terms in Hk.
  rewrite forallb_true_iff in Hk. specialize (Hk t Ht). cbn beta in Hk. bool_hyps.
  destruct (index_of_known _ _ Hk) as (i & Hi & _). rewrite Hi in E. done.
Qed.
Lemma operator_key_free g epsilon : ContextGraph_valid g = true -> build_propagation_operator g epsilon <> Err OperatorKeyError.
Proof.
  intros Hg. unfold build_propagation_operator. destruct (_ || _); [done|]. cbn [raise_if].
  destruct (mapM _ (gr_relations g)) as [l|] eqn:E; [by destruct (from_entries _ _)|].
  exfalso. apply mapM_None_1, Exists_exists in E as (r & Hr & E). unfold ContextGraph_valid in Hg.
  rewrite !andb_true_iff, !forallb_true_iff in Hg. destruct Hg as [[_ Hg] _].
  by destruct (relation_entries_known (coordinate_ids_of g) r (Hg r Hr)) as [? ?]; simplify_eq.
Qed.
Lemma scores_valid ids x : Forall (fun id => is_empty id = false) ids -> NoDup ids -> len x = len ids -> finite_list x ->
  forallb (fun '(coordinate_id, score) => _require_identifier coordinate_id && _require_finite score) (zip ids x) = true
  /\ _require_unique (map fst (zip ids x)) = true.
Proof.
  intros Hids Hnd Hl Hx. split.
  - apply forallb_true_iff. intros [id score] Hin. unfold _require_identifier, _require_finite.
    pose proof (zip_elem_r _ _ _ Hin) as Hr. cbn in Hr. apply elem_of_zip_l in Hin.
    eapply Forall_forall in Hids; [|exact Hin]. eapply Forall_forall in Hx; [|exact Hr]. by rewrite Hids, Hx.
  - unfold _require_unique, no_duplicates. apply bool_decide_eq_true. rewrite fst_zip; [done|]. unfold len in Hl. lia.
Qed.
Lemma degraded_answers code certificate scores status name : is_empty code = false ->
  forallb (fun '(coordinate_id, score) => _require_identifier coordinate_id && _require_finite score) scores = true ->
  _require_unique (map fst scores) = true -> (forall s, status = Some s -> is_empty s = false) ->
  (forall s, name = Some s -> is_empty s = false) ->
  answers (_degraded code certificate scores status name).
Proof.
  intros Hc Hs Hu Hst Hn. unfold _degraded, engine_make, EngineResult_valid. cbn [er_activation_scores er_error_code er_solve_status er_backend_name forallb].
  rewrite Hs, Hu. unfold _require_identifier. rewrite Hc. destruct status as [s|]; [rewrite (Hst s) by done|];
    (destruct name as [n|]; [rewrite (Hn n) by done|]); exact I.
Qed.
Lemma engine_make_valid {A} (valid : A -> bool) (x : A) : valid x = true -> engine_make valid x = Ok x.
Proof. unfold engine_make. by intros ->. Qed.
Lemma early_answers code : is_empty code = false -> answers (degraded_early code).
Proof. intros Hc. by apply degraded_answers. Qed.
Lemma status_named s : is_empty (solve_status_value s) = false.
Proof. by destruct s. Qed.
Lemma certify_answers g a mode operator query constraints x y s :
  Forall (fun id => is_empty id = false) (coordinate_ids_of g) -> NoDup (coordinate_ids_of g) ->
  len x = len (coordinate_ids_of g) -> finite_list x -> is_empty (sv_backend_name s) = false -> no_sign (sv_reconstruction_error s) ->
  answers (certify config g a mode operator query constraints x y s).
Proof.
  intros Hids Hnd Hl Hx Hn Hsign. destruct (scores_valid _ _ Hids Hnd Hl Hx) as [Hs Hu].
  assert (forall code certificate, is_empty code = false ->
    answers (_degraded code certificate (zip (coordinate_ids_of g) x) (Some (solve_status_value (sv_status s))) (Some (sv_backend_name s)))) as Hd.
  { intros code certificate Hc. apply degraded_answers; [done..| |]; intros ? [= <-]; [apply status_named|done]. }
  unfold certify. destruct (certificate_errors _ _ _ _ _) as [[e1 e2]|] eqn:He; [|by apply Hd].
  destruct (existsb _ _) eqn:Hfin; [by apply Hd|]. apply finite_list_check in Hfin. apply certificate_errors_no_sign in He as [Hsign1 Hsign2].
  cbv zeta. rewrite engine_make_valid.
  2: { unfold ErrorCertificate_valid. apply forallb_true_iff. intros e He.
       eapply Forall_forall in Hfin; [|exact He]. unfold _require_finite. rewrite Hfin, no_sign_lt; [done|].
       cbn in He. repeat apply elem_of_cons in He as [->|He]; [done..|]. by apply elem_of_nil in He. }
  cbn [mbind result_bind]. destruct (failure_code _ _ _ _ _ _) as [code|] eqn:Hcode.
  - apply Hd. unfold failure_code in Hcode. repeat case_match; by simplify_eq.
  - unfold engine_make, EngineResult_valid. cbn [er_activation_scores er_error_code er_solve_status er_backend_name forallb].
    rewrite Hs, Hu. unfold _require_identifier. by rewrite status_named, Hn.
Qed.

(** C17. The engine always answers: for a configuration and a graph that their
    own validators admit, and whatever the activation and the mode, the only
    exception that leaves [solve] is one of a numeric library that the
    backends have no case for (the interpreter's recursion limit, which long
    chains of equalities can reach, is not in the model).  No lookup fails, no index is out of range, no
    chain of parents is without end, and every result, certificate and policy
    it builds passes its own validator. *)
Theorem engine_always_answers g a mode : graph_admitted g ->
  match engine_solve config g a mode with Ok _ => True | Err e => e = EngineBackend end.
Proof.
  intros (Hg & Hcoords & Hrows). change (answers (engine_solve config g a mode)). unfold engine_solve.
  destruct (eqb_of mode MODE_OFF); [exact I|]. destruct (capacity_exceeded _ _); [by apply early_answers|].
  destruct (unknown_coordinate _ _); [by apply early_answers|].
  destruct (compiled_input config g) as [[[operator constraints]|code]|e] eqn:Hc; cbn [mbind result_bind].
  - apply compiled_input_inl in Hc as [Hop Hcc]. apply build_operator_shape in Hop. apply compile_constraints_shape in Hcc as [Hids Hcv].
    unfold solve_compiled. rewrite policy_valid. cbn [negb raise_if].
    pose proof (numeric_solve_ends operator (query_of (coordinate_ids_of g) a) constraints
                  (retained_indices_of g a constraints) (len (coordinate_ids_of g)) Hcv) as Hends.
    destruct (numeric_solve _ _ _ _ _ _) as [s|[]]; cbn in Hends; try done.
    destruct Hends as (Hs & Hn & Hsign).
    assert (answers (_degraded ("SOLVE_" +:+ solve_status_value (sv_status s)) None [] (Some (solve_status_value (sv_status s)))
              (Some (sv_backend_name s)))) as Hd.
    { apply degraded_answers; [done..| |]; intros n [= Heq]; rewrite <- Heq; [apply status_named|exact Hn]. }
    destruct (sv_solution s) as [x|]; [|exact Hd]. destruct (sv_multipliers s) as [y|]; [|exact Hd].
    destruct (_accepted _ _); [|exact Hd]. destruct (Hs x eq_refl) as [Hl Hx]. injection Hop as Hop _.
    apply certify_answers; [..|done|done|done].
    + apply Forall_map. eapply Forall_impl; [exact Hcoords|]. intros c. unfold GraphCoordinate_valid, _require_identifier.
      rewrite !andb_true_iff, !negb_true_iff. tauto.
    + unfold ContextGraph_valid, _require_unique in Hg. rewrite !andb_true_iff in Hg.
      apply (bool_decide_unpack _). unfold no_duplicates in Hg. rewrite (proj2 (proj1 (proj1 (proj1 (proj1 (proj1 Hg)))))). exact I.
    + rewrite Hl, Hop. unfold coordinate_ids_of. by rewrite len_map.
  - apply early_answers. unfold compiled_input in Hc. repeat case_match; by simplify_eq.
  - unfold compiled_input in Hc. pose proof (operator_key_free g (gc_epsilon config) Hg) as Hk.
    destruct (build_propagation_operator _ _) as [m|[]]; try done.
    pose proof (compile_ends (coordinate_ids_of g) (gr_constraints g)) as Hce. rewrite Forall_forall in Hrows. specialize (Hce Hrows).
    destruct (compile_constraints _ _) as [c|[]]; done.
Qed.
End engine.

(** ** A run *)

(** A NumPy whose solve is the elimination of the reference backend. *)
Definition toy_gauss (dense : list (list float)) (rhs : list float) : lib_outcome (list float) :=
  match eliminate (py_range 0 (len rhs)) (len rhs) f_zero dense rhs [] with
  | None => LinAlgError
  | Some (dense, rhs, _) =>
      match substitute_back (H := plain_sum) (rev (py_range 0 (len rhs))) (len rhs) f_zero dense rhs (replicate (length rhs) f_zero) with
      | None => LinAlgError
      | Some x => Returned x
      end
  end.
Definition toy_gauss_numpy : NumericLibraries :=
  {| numpy_installed := true; scipy_installed := false; lin_alg_error_is_value_error := true;
     np_cond := fun _ => Returned f_one; np_solve := toy_gauss; np_lstsq := fun _ _ => LinAlgError;
     sp_gmres := fun _ _ _ _ => LibOther; sp_splu_solve := fun _ _ => LibOther; sp_dense_cond := fun _ => LibOther;
     sp_norm_estimates := fun _ => LibOther |}.
Definition toy_block (id event : string) (required : bool) : CandidateBlock :=
  {| cb_block_id := id; cb_slot := ACTIVE_GOAL; cb_kind := GOAL; cb_text := id; cb_source_event_ids := [event]; cb_score := f_zero;
     cb_reason := "r"; cb_required := required; cb_capsule_id := None; cb_event_sequence := None; cb_event_type := None;
     cb_tool_name := None; cb_required_selection_complete := true |}.
Definition toy_coordinate (b : CandidateBlock) : GraphCoordinate :=
  {| co_coordinate_id := cb_block_id b; co_candidate := b; co_diagonal := f_one |}.
(** A required goal, a scored one that the relation ties to it, and one without a score. *)
Definition toy_graph : ContextGraph :=
  {| gr_graph_id := "g"; gr_coordinates := map toy_coordinate [toy_block "a" "e1" true; toy_block "b" "e2" false; toy_block "c" "e3" false];
     gr_relations := [{| re_relation_id := "r"; re_terms := [("a", f_one); ("b", f_minus_one)]; re_weight := f_one |}];
     gr_constraints := [{| cr_constraint_id := "required:a"; cr_terms := [("a", f_one)]; cr_rhs := f_one |}] |}.
Definition toy_activation (retained : list string) : QueryActivation :=
  {| qa_query_id := "q"; qa_scores := [("b", f_half)]; qa_retained_coordinate_ids := retained; qa_provenance_event_ids := ["e1"; "e2"; "e3"] |}.
Definition toy_solve (retained : list string) : result engine_error EngineResult :=
  engine_solve (H := plain_sum) (H0 := toy_gauss_numpy) default_graph_config toy_graph (toy_activation retained) MODE_ACTIVE.
Definition toy_summary (r : result engine_error EngineResult) : option (EngineOutcome * list string * option string) :=
  match r with Ok r => Some (er_outcome r, block_ids (er_selected_blocks r), er_error_code r) | Err _ => None end.
(** With every coordinate, and with the third one eliminated. *)
Example toy_solves : map (fun retained => toy_summary (toy_solve retained)) [[]; ["b"]]
  = [Some (OUTCOME_ACTIVE, ["a"; "b"], None); Some (OUTCOME_ACTIVE, ["a"; "b"], None)].
Proof. vm_compute. reflexivity. Qed.
Definition toy_result : EngineResult := Eval vm_compute in
  match toy_solve [] with
  | Ok r => r
  | Err _ => {| er_outcome := OUTCOME_OFF; er_selected_blocks := []; er_activation_scores := []; er_certificate := None;
                er_error_code := None; er_solve_status := None; er_backend_name := None |}
  end.
Lemma toy_solve_run : toy_solve [] = Ok toy_result.
Proof. vm_compute. reflexivity. Qed.
Lemma engine_selection_certified_witness : result_backed (H := plain_sum) default_graph_config toy_graph (toy_activation []) MODE_ACTIVE toy_result
  /\ er_outcome toy_result = OUTCOME_ACTIVE.
Proof.
  split; [|reflexivity].
  exact (engine_selection_certified (H := plain_sum) (H0 := toy_gauss_numpy) default_graph_config toy_graph (toy_activation []) MODE_ACTIVE toy_result
           default_graph_config_valid toy_solve_run).
Defined.
Lemma toy_graph_admitted : graph_admitted toy_graph.
Proof. split_and!; [vm_compute; reflexivity|repeat constructor..]. Qed.
Lemma engine_always_answers_witness : match toy_solve ["b"] with Ok _ => True | Err e => e = EngineBackend end.
Proof.
  exact (engine_always_answers (H := plain_sum) (H1 := toy_gauss_numpy) default_graph_config default_graph_config_valid toy_graph
           (toy_activation ["b"]) MODE_ACTIVE toy_graph_admitted).
Defined.
