(* ===== verification/GraphBuild.v ===== *)
(** The graph of a request ([context_graph/build.py]): coordinates, relations
    and constraints of the candidate blocks, and the activation of a query. *)
From S2P Require Import Prelude PyString PyFloat Domain Records Views Runtime GraphTypes.
Open Scope string_scope.
Open Scope list_scope.
Open Scope Z_scope.

Record BuiltContextGraph := { bg_graph : ContextGraph; bg_activation : QueryActivation }.

Section lexical.
Context `{Unicode}.
(** [_lexical_units]: the set of the alphanumeric characters of the folded text. *)
Definition _lexical_units (text : string) : gset N :=
  list_to_set (List.filter py_isalnum (code_points (casefold text))).
Definition size_z (s : gset N) : Z := Z.of_nat (size s).
(** [_lexical_score] *)
Definition _lexical_score (query_units : gset N) (text : string) : float :=
  if size_z query_units =? 0 then f_zero else
  let candidate_units := _lexical_units text in
  let union := query_units ∪ candidate_units in
  if size_z union =? 0 then f_zero else f_div_Z (size_z (query_units ∩ candidate_units)) (size_z union).
End lexical.

Definition f_three_quarters : float := Eval vm_compute in f_div_Z 3 4.
Definition f_quarter : float := Eval vm_compute in f_div_Z 1 4.
Definition f_eighth : float := Eval vm_compute in f_div_Z 1 8.
Definition add_when (b : bool) (amount weight : float) : float := if b then f_add weight amount else weight.
(** [_relation_weight] *)
Definition adjacent_events (left right : CandidateBlock) : bool :=
  eqb_of (cb_kind left) RAW_EVENT && eqb_of (cb_kind right) RAW_EVENT
  && match cb_event_sequence left, cb_event_sequence right with
     | Some l, Some r => Z.abs (l - r) =? 1
     | _, _ => false
     end.
Definition _relation_weight (left right : CandidateBlock) : float :=
  add_when (eqb_of (cb_slot left) (cb_slot right)) f_eighth
    (add_when (eqb_of (cb_kind left) (cb_kind right)) f_quarter
       (add_when (adjacent_events left right) f_half
          (add_when (is_some (cb_capsule_id left) && eqb_of (cb_capsule_id left) (cb_capsule_id right)) f_three_quarters
             (add_when (existsb (fun e => bool_decide (e ∈ cb_source_event_ids right)) (cb_source_event_ids left)) f_one f_zero)))).

(** ** Relations *)

Definition relation_id_of (left right : CandidateBlock) : string :=
  "relation:" +:+ cb_block_id left +:+ ":" +:+ cb_block_id right.
Definition relation_of (left right : CandidateBlock) : SparseRelation :=
  {| re_relation_id := relation_id_of left right;
     re_terms := [(cb_block_id left, f_one); (cb_block_id right, f_minus_one)]; re_weight := _relation_weight left right |}.

Section relations.
Variable config : ContextGraphConfig.
(** The relations so far, and [expanded_entries]. *)
Definition Relating : Type := list SparseRelation * Z.
Definition relations_full (st : Relating) : bool :=
  (gc_max_relations config <=? len st.1) || (gc_max_relation_entries config <? st.2 + 4).
(** The inner loop. *)
Fixpoint relate_left (lft : CandidateBlock) (rights : list CandidateBlock) (st : Relating) : result graph_error Relating :=
  match rights with
  | [] => Ok st
  | rgt :: rights =>
      if f_le (_relation_weight lft rgt) f_zero then relate_left lft rights st else
      if relations_full st then Ok st else
      relation ← make SparseRelation_valid (relation_of lft rgt);
      relate_left lft rights (st.1 ++ [relation], st.2 + 4)
  end.
(** The outer loop. *)
Fixpoint relate_all (lefts : list CandidateBlock) (st : Relating) : result graph_error Relating :=
  match lefts with
  | [] => Ok st
  | lft :: rest =>
      st ← relate_left lft rest st;
      if relations_full st then Ok st else relate_all rest st
  end.
End relations.

(** ** The graph *)

Definition coordinate_of (item : CandidateBlock) : GraphCoordinate :=
  {| co_coordinate_id := cb_block_id item; co_candidate := item; co_diagonal := f_one |}.
Definition required_row (item : CandidateBlock) : result graph_error ConstraintRow :=
  fix_one ("required:" +:+ cb_block_id item) (cb_block_id item).

Section build.
Context `{Unicode}.
(** The activation's parts. *)
Definition scores_of (candidates : list CandidateBlock) (current_input : string) : list (string * float) :=
  map (fun item => (cb_block_id item, _lexical_score (_lexical_units current_input) (cb_text item))) candidates.
Definition retained_of (candidates : list CandidateBlock) (scores : list (string * float)) : list string :=
  omap (fun '(item, (_, score)) => if cb_required item || f_lt f_zero score then Some (cb_block_id item) else None)
    (zip candidates scores).
Definition provenance_of (candidates : list CandidateBlock) : list string := fromkeys (flat_map cb_source_event_ids candidates).
(** [build_context_graph] *)
Definition build_context_graph (view : RequestView) (candidates : list CandidateBlock) (current_input : string)
    (config : ContextGraphConfig) : result graph_error BuiltContextGraph :=
  raise GraphValueError when negb (no_duplicates (block_ids candidates));;
  raise GraphValueError when gc_max_coordinates config <? len candidates;;
  coordinates ← map_result (fun item => make GraphCoordinate_valid (coordinate_of item)) candidates;
  constraints ← map_result required_row (List.filter cb_required candidates);
  raise GraphValueError when gc_max_constraints config <? len constraints;;
  related ← relate_all config candidates ([], 0);
  let scores := scores_of candidates current_input in
  graph ← make ContextGraph_valid
    {| gr_graph_id := "request:" +:+ show_Z (rv_pointer_version view) +:+ ":" +:+ show_Z (rv_covered_event_end view)
                      +:+ ":" +:+ show_Z (rv_high_water_mark view);
       gr_coordinates := coordinates; gr_relations := related.1; gr_constraints := constraints |};
  activation ← make QueryActivation_valid
    {| qa_query_id := "query:" +:+ show_Z (rv_pointer_version view) +:+ ":" +:+ show_Z (rv_high_water_mark view);
       qa_scores := scores; qa_retained_coordinate_ids := retained_of candidates scores;
       qa_provenance_event_ids := provenance_of candidates |};
  Ok {| bg_graph := graph; bg_activation := activation |}.
End build.
