(* ===== verification/GraphBuildProperties.v ===== *)
(** The graph of a request is always one the engine accepts: its parts pass
    their validators, it stays within the capacities, it names only its own
    coordinates, and its constraints can be satisfied. *)
From S2P Require Import Prelude PyString PyFloat Domain Records Views Runtime Closure Budget BudgetProperties GraphTypes Matrix Constraints ConstraintProperties Engine EngineTotality GraphBuild.
From Stdlib Require Import QArith.
Open Scope string_scope.
Open Scope list_scope.
Open Scope Z_scope.

(** ** Scores *)

Lemma land_bound b k : (N.land b (N.ones k) < 2 ^ k)%N.
Proof. rewrite N.land_ones. apply N.mod_lt. apply N.pow_nonzero. done. Qed.
Lemma utf8_decode_bound n : forall bs, (length bs <= n)%nat -> Forall (fun b => (b < 256)%N) bs ->
  Forall (fun c => (c < 2 ^ 21)%N) (utf8_decode bs).
Proof.
  induction n as [|n IH]; intros bs Hn Hb; [by destruct bs; [|cbn in Hn; lia]|].
  destruct Hb as [|b0 r0 Hb0 Hr0]; [constructor|]. cbn [utf8_decode]. cbn in Hn.
  assert (Forall (fun c => (c < 2 ^ 21)%N) [b0]) as Hone by (repeat constructor; lia).
  destruct (b0 <? 128)%N; [constructor; [lia|apply IH; [lia|done]]|].
  destruct Hr0 as [|b1 r1 Hb1 Hr1]; [done|]. cbn in Hn.
  pose proof (land_bound b0 5). pose proof (land_bound b0 4). pose proof (land_bound b0 3).
  pose proof (land_bound b1 6). change (N.ones 5) with 31%N in *. change (N.ones 4) with 15%N in *.
  change (N.ones 3) with 7%N in *. change (N.ones 6) with 63%N in *.
  destruct (b0 <? 224)%N; [constructor; [lia|apply IH; [lia|done]]|].
  destruct Hr1 as [|b2 r2 Hb2 Hr2]; [done|]. cbn in Hn. pose proof (land_bound b2 6). change (N.ones 6) with 63%N in *.
  destruct (b0 <? 240)%N; [constructor; [lia|apply IH; [lia|done]]|].
  destruct Hr2 as [|b3 r3 Hb3 Hr3]; [done|]. cbn in Hn. pose proof (land_bound b3 6). change (N.ones 6) with 63%N in *.
  constructor; [lia|apply IH; [lia|done]].
Qed.
Lemma code_points_bound s : Forall (fun c => (c < 2 ^ 21)%N) (code_points s).
Proof.
  apply (utf8_decode_bound (length (bytes_of s))); [done|]. apply Forall_map, Forall_true. intros c. apply Ascii.N_ascii_bounded.
Qed.
Lemma bounded_set_size (s : gset N) n : (forall c, c ∈ s -> (c < N.of_nat n)%N) -> (size s <= n)%nat.
Proof.
  intros Hs. assert (s ⊆ list_to_set (map N.of_nat (seq 0 n))) as Hsub.
  { intros c Hc. apply elem_of_list_to_set, list_elem_of_fmap. exists (N.to_nat c). split; [lia|].
    apply elem_of_seq. specialize (Hs c Hc). lia. }
  apply subseteq_size in Hsub. rewrite size_list_to_set, length_map, length_seq in Hsub; [done|].
  apply (NoDup_fmap_2 _), NoDup_seq.
Qed.

Section lexical.
Context `{Unicode}.
(** The set of a text's units is small: a character is below [2 ^ 21]. *)
Definition small_units (s : gset N) : Prop := forall c, c ∈ s -> (c < 2 ^ 21)%N.
Lemma units_small text : small_units (_lexical_units text).
Proof.
  intros c. unfold _lexical_units. rewrite elem_of_list_to_set. intros [Hc _]%elem_of_filter_bool.
  pose proof (code_points_bound (casefold text)) as Hb. by eapply Forall_forall in Hb.
Qed.
Lemma small_size s : small_units s -> 0 <= size_z s <= 2 ^ 53.
Proof.
  intros Hs. unfold size_z. split; [lia|]. set (k := 2 ^ 21).
  assert (size s <= Z.to_nat k)%nat; [|unfold k in *; lia].
  apply bounded_set_size. intros c Hc. specialize (Hs c Hc). unfold k. lia.
Qed.
Lemma lexical_score_unit query text : small_units query -> is_unit_float (_lexical_score query text) = true.
Proof.
  intros Hq. unfold _lexical_score. destruct (size_z query =? 0); [reflexivity|].
  assert (small_units (query ∪ _lexical_units text)) as Hu.
  { intros c [Hc|Hc]%elem_of_union; [by apply Hq|by eapply units_small]. }
  destruct (size_z (query ∪ _lexical_units text) =? 0) eqn:E; [reflexivity|]. bool_hyps.
  pose proof (small_size _ Hu). apply f_div_unit; [|lia..]. split; [unfold size_z; lia|].
  apply inj_le, subseteq_size. intros c. rewrite elem_of_intersection, elem_of_union. tauto.
Qed.

(** What a score should be: of the letters and digits of the two texts, the
    share that is in both. *)
Definition lettered (text : string) (c : N) : Prop := c ∈ code_points (casefold text) /\ py_isalnum c = true.
Definition scored (query text : string) (x : float) : Prop :=
  exists shared either : list N, NoDup shared /\ NoDup either
  /\ (forall c, c ∈ shared <-> lettered query c /\ lettered text c)
  /\ (forall c, c ∈ either <-> lettered query c \/ lettered text c)
  /\ x = f_div_Z (len shared) (len either).

Lemma units_lettered text c : c ∈ _lexical_units text <-> lettered text c.
Proof. unfold _lexical_units. by rewrite elem_of_list_to_set, elem_of_filter_bool. Qed.
Lemma empty_size (s : gset N) : size_z s = 0 -> s = ∅.
Proof. unfold size_z. intros E. apply leibniz_equiv, size_empty_inv. lia. Qed.
Lemma lexical_score_scored query text : scored query text (_lexical_score (_lexical_units query) text).
Proof.
  exists (elements (_lexical_units query ∩ _lexical_units text)), (elements (_lexical_units query ∪ _lexical_units text)).
  split_and!; [apply NoDup_elements..| | |].
  - intros c. by rewrite elem_of_elements, elem_of_intersection, !units_lettered.
  - intros c. by rewrite elem_of_elements, elem_of_union, !units_lettered.
  - change (_lexical_score (_lexical_units query) text
      = f_div_Z (size_z (_lexical_units query ∩ _lexical_units text)) (size_z (_lexical_units query ∪ _lexical_units text))).
    unfold _lexical_score. destruct (size_z (_lexical_units query) =? 0) eqn:Eq; bool_hyps.
    + apply empty_size in Eq as ->. assert (∅ ∩ _lexical_units text = ∅) as -> by set_solver. done.
    + destruct (size_z (_ ∪ _) =? 0) eqn:Eu; [|done]. bool_hyps. rewrite Eu.
      by destruct (size_z (_lexical_units query ∩ _lexical_units text)).
Qed.
(** It is positive exactly when the texts share one. *)
Lemma lexical_score_positive query text :
  f_lt f_zero (_lexical_score (_lexical_units query) text) = true <-> exists c, lettered query c /\ lettered text c.
Proof.
  destruct (lexical_score_scored query text) as (shared & either & Hs & He & Hshared & Heither & ->).
  assert (0 <= len shared <= len either) as Hle.
  { split; [apply len_nonneg|]. apply inj_le, NoDup_incl_length; [by apply NoDup_ListNoDup|].
    intros c Hc%list_elem_of_In. apply list_elem_of_In, Heither. apply Hshared in Hc. tauto. }
  assert (len either <= 2 ^ 53) as Hmax.
  { set (k := 2 ^ 21). assert (size (list_to_set either : gset N) <= Z.to_nat k)%nat as Hb.
    { apply bounded_set_size. intros c Hc%elem_of_list_to_set. apply Heither in Hc.
      assert (c < 2 ^ 21)%N; [|unfold k; lia].
      destruct Hc as [Hc|Hc]; apply units_lettered in Hc; by apply units_small in Hc. }
    rewrite size_list_to_set in Hb by done. unfold len, k in *. lia. }
  rewrite f_div_positive by done. split.
  - destruct shared as [|c l]; [intros E; discriminate E|]. intros _. exists c. apply Hshared. left.
  - intros (c & Hc%Hshared). destruct shared; [by apply elem_of_nil in Hc|]. rewrite len_cons. pose proof (len_nonneg shared). lia.
Qed.
End lexical.

(** ** Relations *)

Lemma relation_weight_valid left right :
  f_is_finite (_relation_weight left right) = true /\ f_lt (_relation_weight left right) f_zero = false.
Proof.
  unfold _relation_weight.
  destruct (existsb _ _), (is_some _ && _), (adjacent_events _ _), (eqb_of (cb_kind _) _), (eqb_of (cb_slot _) _); vm_compute; done.
Qed.
Lemma relation_valid left right : is_empty (cb_block_id left) = false -> is_empty (cb_block_id right) = false ->
  cb_block_id left <> cb_block_id right -> SparseRelation_valid (relation_of left right) = true.
Proof.
  intros Hl Hr Hne. unfold SparseRelation_valid, terms_valid, relation_of. cbn [re_terms re_weight re_relation_id forallb map fst].
  unfold _require_identifier, _require_finite. destruct (relation_weight_valid left right) as [-> ->]. rewrite Hl, Hr. cbn [negb andb].
  unfold _require_unique, no_duplicates. rewrite bool_decide_eq_true_2; [reflexivity|].
  apply NoDup_cons_2; [by intros E%list_elem_of_singleton|apply NoDup_singleton].
Qed.
Lemma make_ok {A} (valid : A -> bool) (x : A) : valid x = true -> make valid x = Ok x.
Proof. unfold make. by intros ->. Qed.
Lemma make_err {A} (valid : A -> bool) (x : A) : valid x = false -> make valid x = Err GraphValueError.
Proof. unfold make. by intros ->. Qed.
Lemma make_inv {A} (valid : A -> bool) (x y : A) : make valid x = Ok y -> y = x /\ valid x = true.
Proof. unfold make. intros [Hv%negb_false_iff [= <-]]%raise_if_ok. done. Qed.

(** What a relation should be.  Its ends share a source event, a Capsule, a
    kind, a slot, or are raw events of adjacent sequence; its weight adds 1, 3/4,
    1/2 (adjacent), 1/4 (kind) and 1/8 (slot). *)
Definition shares_event (a b : CandidateBlock) : Prop := exists e, e ∈ cb_source_event_ids a /\ e ∈ cb_source_event_ids b.
Definition same_capsule (a b : CandidateBlock) : Prop := exists id, cb_capsule_id a = Some id /\ cb_capsule_id b = Some id.
Definition neighbours (a b : CandidateBlock) : Prop := cb_kind a = RAW_EVENT /\ cb_kind b = RAW_EVENT
  /\ exists m n, cb_event_sequence a = Some m /\ cb_event_sequence b = Some n /\ (m = n + 1 \/ n = m + 1).
Definition same_kind (a b : CandidateBlock) : Prop := cb_kind a = cb_kind b.
Definition same_slot (a b : CandidateBlock) : Prop := cb_slot a = cb_slot b.
Definition tied (a b : CandidateBlock) : Prop :=
  shares_event a b \/ same_capsule a b \/ neighbours a b \/ same_kind a b \/ same_slot a b.
Definition counted (P : Prop) (n m : Z) : Prop := P /\ m = n \/ ~ P /\ m = 0.
Definition weighs (a b : CandidateBlock) (w : float) : Prop := exists n1 n2 n3 n4 n5,
  counted (shares_event a b) 8 n1 /\ counted (same_capsule a b) 6 n2 /\ counted (neighbours a b) 4 n3
  /\ counted (same_kind a b) 2 n4 /\ counted (same_slot a b) 1 n5
  /\ f_is_finite w = true /\ (f_value w == (n1 + n2 + n3 + n4 + n5) # 8)%Q.
(** The unordered pairs, the earlier candidate first, in the order of the loops. *)
Fixpoint pairs_of {A} (l : list A) : list (A * A) :=
  match l with [] => [] | a :: rest => map (pair a) rest ++ pairs_of rest end.
Definition tie_id (p : CandidateBlock * CandidateBlock) : string :=
  "relation:" +:+ cb_block_id p.1 +:+ ":" +:+ cb_block_id p.2.
Definition relates (p : CandidateBlock * CandidateBlock) (r : SparseRelation) : Prop :=
  re_relation_id r = tie_id p /\ re_terms r = [(cb_block_id p.1, f_one); (cb_block_id p.2, f_minus_one)]
  /\ weighs p.1 p.2 (re_weight r).

(** The code's five tests. *)
Lemma event_test a b :
  existsb (fun e => bool_decide (e ∈ cb_source_event_ids b)) (cb_source_event_ids a) = true <-> shares_event a b.
Proof. rewrite existsb_true_iff. by setoid_rewrite bool_decide_eq_true. Qed.
Lemma capsule_test a b :
  is_some (cb_capsule_id a) && eqb_of (cb_capsule_id a) (cb_capsule_id b) = true <-> same_capsule a b.
Proof.
  unfold same_capsule, eqb_of. rewrite andb_true_iff, bool_decide_eq_true.
  destruct (cb_capsule_id a) as [id|]; cbn; [|naive_solver]. split; [intros [_ <-]; by exists id|]. by intros (? & [= ->] & ->).
Qed.
Lemma neighbour_test a b : adjacent_events a b = true <-> neighbours a b.
Proof.
  unfold adjacent_events, neighbours, eqb_of. rewrite !andb_true_iff, !bool_decide_eq_true.
  destruct (cb_event_sequence a) as [m|], (cb_event_sequence b) as [n|]; [|naive_solver..].
  rewrite Z.eqb_eq. split.
  - intros [[-> ->] E]. split_and!; [done..|]. exists m, n. split_and!; [done..|lia].
  - intros (-> & -> & ? & ? & [= <-] & [= <-] & E). split; [done|lia].
Qed.
Lemma kind_test a b : eqb_of (cb_kind a) (cb_kind b) = true <-> same_kind a b.
Proof. apply bool_decide_eq_true. Qed.
Lemma slot_test a b : eqb_of (cb_slot a) (cb_slot b) = true <-> same_slot a b.
Proof. apply bool_decide_eq_true. Qed.
Lemma counted_test (t : bool) (P : Prop) n : (t = true <-> P) -> counted P n (if t then n else 0).
Proof. intros H. unfold counted. destruct t; [left|right]; split; try done; [by apply H|]. intros HP%H. done. Qed.
Lemma relation_weighs a b : weighs a b (_relation_weight a b).
Proof.
  pose proof (counted_test _ _ 8 (event_test a b)) as H1. pose proof (counted_test _ _ 6 (capsule_test a b)) as H2.
  pose proof (counted_test _ _ 4 (neighbour_test a b)) as H3. pose proof (counted_test _ _ 2 (kind_test a b)) as H4.
  pose proof (counted_test _ _ 1 (slot_test a b)) as H5.
  eexists _, _, _, _, _. split; [exact H1|]. split; [exact H2|]. split; [exact H3|]. split; [exact H4|]. split; [exact H5|].
  unfold _relation_weight. clear. 
  destruct (existsb _ _), (is_some _ && _), (adjacent_events _ _), (eqb_of (cb_kind _) _), (eqb_of (cb_slot _) _); vm_compute; done.
Qed.
(** The weight is positive exactly between tied candidates. *)
Definition bonded (p : CandidateBlock * CandidateBlock) : bool := negb (f_le (_relation_weight p.1 p.2) f_zero).
Lemma bonded_tied p : bonded p = true <-> tied p.1 p.2.
Proof.
  unfold tied. rewrite <- event_test, <- capsule_test, <- neighbour_test, <- kind_test, <- slot_test. unfold bonded, _relation_weight.
  destruct (existsb _ _), (is_some _ && _), (adjacent_events _ _), (eqb_of (cb_kind _) _), (eqb_of (cb_slot _) _);
    (split; [intros _; tauto|intros _; vm_compute; reflexivity]) || (split; [intros E; vm_compute in E; done|intuition discriminate]).
Qed.
Lemma relation_relates p : relates p (relation_of p.1 p.2).
Proof. split_and!; [done..|apply relation_weighs]. Qed.

Section relations.
Variable config : ContextGraphConfig.
Hypothesis config_valid : ContextGraphConfig_valid config = true.

(** How many relations fit: each expands to four products. *)
Definition relation_room : Z := Z.min (gc_max_relations config) (gc_max_relation_entries config / 4).
Lemma limits_positive : 0 < gc_max_relations config /\ 0 < gc_max_relation_entries config.
Proof.
  unfold ContextGraphConfig_valid in config_valid. rewrite !andb_true_iff in config_valid. cbn [forallb] in config_valid.
  unfold _require_positive_integer in config_valid. rewrite !andb_true_iff, !negb_true_iff in config_valid.
  assert ((gc_max_relations config <=? 0) = false /\ (gc_max_relation_entries config <=? 0) = false) as [Hp1 Hp2] by tauto.
  bool_hyps. lia.
Qed.
Lemma room_nonneg : 0 <= relation_room.
Proof.
  destruct limits_positive. unfold relation_room. pose proof (Z.div_pos (gc_max_relation_entries config) 4). lia.
Qed.
Definition related_pairs (l : list (CandidateBlock * CandidateBlock)) : list SparseRelation :=
  map (fun p => relation_of p.1 p.2) l.
(** The state after [done] relations. *)
Definition relating (done : list SparseRelation) : Relating := (done, 4 * len done).
Definition still (done : list SparseRelation) : nat := Z.to_nat (relation_room - len done).
Lemma relations_full_still done : relations_full config (relating done) = true <-> still done = 0%nat.
Proof.
  unfold relations_full, relating, still, relation_room. cbn [fst snd].
  rewrite orb_true_iff, Z.leb_le, Z.ltb_lt.
  pose proof (Z.div_mod (gc_max_relation_entries config) 4). pose proof (Z.mod_pos_bound (gc_max_relation_entries config) 4). lia.
Qed.
Lemma still_snoc done r : still (done ++ [r]) = pred (still done).
Proof. unfold still. rewrite len_app, len_cons, len_nil. lia. Qed.

Definition nameable (a b : CandidateBlock) : Prop :=
  is_empty (cb_block_id a) = false /\ is_empty (cb_block_id b) = false /\ cb_block_id a <> cb_block_id b.
Lemma relate_left_run lft rights : Forall (nameable lft) rights -> forall done,
  relate_left config lft rights (relating done)
  = Ok (relating (done ++ related_pairs (take (still done) (List.filter bonded (map (pair lft) rights))))).
Proof.
  induction 1 as [|rgt rights (Hl & Hr & Hne) _ IH]; intros done; cbn [relate_left map List.filter].
  { by rewrite take_nil, app_nil_r. }
  unfold bonded at 1. cbn [fst snd]. destruct (f_le _ _); cbn [negb]; [apply IH|].
  destruct (relations_full config (relating done)) eqn:Hf.
  { apply relations_full_still in Hf as ->. by rewrite take_0, app_nil_r. }
  rewrite make_ok by (by apply relation_valid). cbn [mbind result_bind].
  assert (still done <> 0%nat) as Hs by (intros E%relations_full_still; congruence).
  replace ((relating done).1 ++ [relation_of lft rgt], (relating done).2 + 4) with (relating (done ++ [relation_of lft rgt]))
    by (unfold relating; cbn [fst snd]; f_equal; rewrite len_app, len_cons, len_nil; lia).
  rewrite IH, still_snoc. destruct (still done) as [|n]; [done|]. cbn [pred take related_pairs map fst snd].
  by rewrite <- app_assoc.
Qed.
Lemma take_app_filter {A} (n : nat) (l m : list A) : take n (l ++ m) = take n l ++ take (n - length l) m.
Proof. apply take_app. Qed.
Lemma relate_all_run lefts : Forall (fun c => is_empty (cb_block_id c) = false) lefts -> NoDup (block_ids lefts) -> forall done,
  relate_all config lefts (relating done)
  = Ok (relating (done ++ related_pairs (take (still done) (List.filter bonded (pairs_of lefts))))).
Proof.
  induction lefts as [|lft rest IH]; intros Hn Hnd done; cbn [relate_all pairs_of List.filter]; [by rewrite take_nil, app_nil_r|].
  apply Forall_cons in Hn as [Hl Hn]. apply NoDup_cons in Hnd as [Hnot Hnd].
  rewrite relate_left_run; cycle 1.
  { apply Forall_forall. intros r Hr. split_and!; [done|by eapply Forall_forall in Hn|].
    intros E. apply Hnot. rewrite E. by apply list_elem_of_fmap_2. }
  cbn [mbind result_bind]. rewrite List.filter_app, take_app.
  set (first := List.filter bonded (map (pair lft) rest)). set (more := List.filter bonded (pairs_of rest)).
  set (done' := done ++ related_pairs (take (still done) first)).
  assert (still done' = still done - length first)%nat as Hst.
  { unfold done', still, related_pairs. rewrite len_app. unfold len. rewrite length_map, length_take. unfold still. lia. }
  unfold related_pairs at 1. rewrite map_app. fold (related_pairs (take (still done) first)).
  rewrite app_assoc. fold done'. rewrite <- Hst. destruct (relations_full config (relating done')) eqn:Hf.
  - apply relations_full_still in Hf as ->. by rewrite take_0, app_nil_r.
  - by rewrite IH.
Qed.
End relations.

#[export] Instance tied_dec a b : Decision (tied a b).
Proof. destruct (bonded (a, b)) eqn:E; [left; by apply (bonded_tied (a, b))|right; intros H%(bonded_tied (a, b)); congruence]. Defined.
(** The pairs the graph relates: the tied ones, as many as fit. *)
Definition ties_of (config : ContextGraphConfig) (candidates : list CandidateBlock) : list (CandidateBlock * CandidateBlock) :=
  take (Z.to_nat (relation_room config)) (List.filter (fun p => bool_decide (tied p.1 p.2)) (pairs_of candidates)).
Lemma ties_bonded config candidates :
  ties_of config candidates = take (Z.to_nat (relation_room config)) (List.filter bonded (pairs_of candidates)).
Proof.
  unfold ties_of. f_equal. apply List.filter_ext. intros p. apply eq_true_iff_eq. by rewrite bool_decide_eq_true, bonded_tied.
Qed.
Lemma relate_all_ties config candidates :
  Forall (fun c => is_empty (cb_block_id c) = false) candidates -> NoDup (block_ids candidates) ->
  relate_all config candidates ([], 0)
  = Ok (related_pairs (ties_of config candidates), 4 * len (related_pairs (ties_of config candidates))).
Proof.
  intros Hn Hnd. rewrite ties_bonded. change (@nil SparseRelation, 0) with (relating []).
  rewrite relate_all_run by done. unfold still. change (len []) with 0. by rewrite Z.sub_0_r.
Qed.
Lemma ties_fit config candidates : ContextGraphConfig_valid config = true ->
  len (related_pairs (ties_of config candidates)) <= gc_max_relations config
  /\ 4 * len (related_pairs (ties_of config candidates)) <= gc_max_relation_entries config.
Proof.
  intros Hv. destruct (limits_positive config Hv). pose proof (room_nonneg config Hv) as Hroom.
  assert (len (related_pairs (ties_of config candidates)) <= relation_room config) as Hle.
  { unfold related_pairs, ties_of, len. rewrite length_map, length_take. lia. }
  unfold relation_room in *. pose proof (Z.mul_div_le (gc_max_relation_entries config) 4). lia.
Qed.
Lemma pairs_elem {A} (l : list A) p : p ∈ pairs_of l -> p.1 ∈ l /\ p.2 ∈ l.
Proof.
  induction l as [|a l IH]; cbn; [by intros ?%elem_of_nil|]. intros [(x & -> & Hx)%list_elem_of_fmap|Hp]%elem_of_app.
  - split; [left|by right].
  - apply IH in Hp as []. split; by right.
Qed.
Lemma ties_elem config candidates p : p ∈ ties_of config candidates -> p.1 ∈ candidates /\ p.2 ∈ candidates.
Proof.
  intros Hp. apply pairs_elem. eapply sublist_subseteq in Hp; [|apply sublist_take]. by apply elem_of_filter_bool in Hp as [? _].
Qed.

(** ** Capacity *)

(** The guard of the expansion is exact: it stops just when the products of
    all the relations exceed the limit. *)
Lemma relations_exceed_spec relations limit : Forall (fun r => 0 < len (re_terms r)) relations -> forall expanded, expanded <= limit ->
  relations_exceed relations limit expanded = true
  <-> limit < expanded + sumZ (fun r => len (re_terms r) * len (re_terms r)) relations.
Proof.
  induction 1 as [|r relations Hr Hall IH]; intros expanded Hle; cbn [relations_exceed]; [cbn; lia|].
  rewrite sumZ_cons. set (t := len (re_terms r)) in *.
  assert (0 <= sumZ (fun r => len (re_terms r) * len (re_terms r)) relations) as Hs by (apply sumZ_nonneg; intros; nia).
  destruct ((limit - expanded) / t <? t) eqn:E; bool_hyps.
  - split; [|done]. intros _. assert (limit - expanded < t * t); [|lia].
    destruct (Z.lt_ge_cases (limit - expanded) (t * t)) as [|Hge]; [done|].
    pose proof (Z.div_le_lower_bound (limit - expanded) t t Hr Hge). lia.
  - assert (t * t <= limit - expanded) as Hroom.
    { pose proof (Z.mul_div_le (limit - expanded) t Hr). nia. }
    rewrite IH by lia. lia.
Qed.

(** ** The built graph *)

Section build.
Context `{Unicode}.

Lemma required_row_ok c : is_empty (cb_block_id c) = false -> exists row, required_row c = Ok row
  /\ row = {| cr_constraint_id := "required:" +:+ cb_block_id c; cr_terms := [(cb_block_id c, f_one)]; cr_rhs := f_one |}
  /\ ConstraintRow_valid row = true.
Proof.
  intros Hc. unfold required_row, fix_one. eexists. split; [apply make_ok|split; [reflexivity|]];
    unfold ConstraintRow_valid, terms_valid, _require_identifier; cbn; rewrite Hc; reflexivity.
Qed.
Lemma retained_elem (candidates : list CandidateBlock) (f : CandidateBlock -> float) id :
  id ∈ retained_of candidates (map (fun c => (cb_block_id c, f c)) candidates)
  <-> exists c, c ∈ candidates /\ cb_block_id c = id /\ (cb_required c = true \/ f_lt f_zero (f c) = true).
Proof.
  unfold retained_of. rewrite list_elem_of_omap. split.
  - intros ([c [id' score]] & Hin & Hid). destruct (_ || _) eqn:E; [|done]. injection Hid as <-.
    apply orb_true_iff in E. exists c.
    assert (c ∈ candidates /\ score = f c) as [Hc ->]; [|tauto].
    clear -Hin. induction candidates as [|x l IH]; cbn in Hin; [by apply elem_of_nil in Hin|].
    apply elem_of_cons in Hin as [[= -> -> ->]|Hin]; [split; [left|done]|]. destruct (IH Hin). split; [by right|done].
  - intros (c & Hc & <- & Hr). exists (c, (cb_block_id c, f c)). split.
    + clear -Hc. induction candidates as [|x l IH]; [by apply elem_of_nil in Hc|]. cbn.
      apply elem_of_cons in Hc as [->|Hc]; [left|right; by apply IH].
    + apply orb_true_iff in Hr as ->. done.
Qed.
Lemma retained_ids_sub (candidates : list CandidateBlock) (scores : list (string * float)) :
  retained_of candidates scores `sublist_of` block_ids candidates.
Proof.
  unfold retained_of. revert scores. induction candidates as [|c l IH]; intros [|[id s] scores]; cbn; [done..|apply sublist_nil_l|].
  destruct (_ || _); [apply sublist_skip, IH|apply sublist_cons, IH].
Qed.
Lemma candidate_named c : CandidateBlock_valid c = true -> is_empty (cb_block_id c) = false.
Proof. unfold CandidateBlock_valid. rewrite !andb_true_iff, !negb_true_iff. tauto. Qed.

(** What the engine and the live selection may assume of a built graph. *)
Record built_correctly (candidates : list CandidateBlock) (current_input : string) (config : ContextGraphConfig)
    (b : BuiltContextGraph) : Prop := {
  built_admitted : graph_admitted (bg_graph b) /\ QueryActivation_valid (bg_activation b) = true;
  built_coordinates : gr_coordinates (bg_graph b) = map coordinate_of candidates;
  built_capacity : capacity_exceeded config (bg_graph b) = false;
  built_known : unknown_coordinate (coordinate_ids_of (bg_graph b)) (bg_activation b) = false;
  built_satisfiable : exists c, compile_constraints (coordinate_ids_of (bg_graph b)) (gr_constraints (bg_graph b)) = Ok c;
  built_required : gr_constraints (bg_graph b)
    = map (fun c => {| cr_constraint_id := "required:" +:+ cb_block_id c; cr_terms := [(cb_block_id c, f_one)]; cr_rhs := f_one |})
        (List.filter cb_required candidates);
  built_relations : Forall2 relates (ties_of config candidates) (gr_relations (bg_graph b));
  built_scores : Forall2 (fun c s => s.1 = cb_block_id c /\ scored current_input (cb_text c) s.2)
    candidates (qa_scores (bg_activation b));
  built_retained id : id ∈ qa_retained_coordinate_ids (bg_activation b) <-> exists c, c ∈ candidates /\ cb_block_id c = id
    /\ (cb_required c = true \/ exists l, lettered current_input l /\ lettered (cb_text c) l);
  built_retained_order : qa_retained_coordinate_ids (bg_activation b) `sublist_of` block_ids candidates;
  built_provenance e : e ∈ qa_provenance_event_ids (bg_activation b) <-> exists c, c ∈ candidates /\ e ∈ cb_source_event_ids c;
}.

Lemma map_result_eq {A B} (f : A -> result graph_error B) (g : A -> B) l :
  Forall (fun x => f x = Ok (g x)) l -> map_result f l = Ok (map g l).
Proof. induction 1 as [|x l Hx _ IH]; [done|]. cbn. by rewrite Hx, IH. Qed.
Lemma coordinate_valid c : is_empty (cb_block_id c) = false -> GraphCoordinate_valid (coordinate_of c) = true.
Proof. unfold GraphCoordinate_valid, _require_identifier. cbn. by intros ->. Qed.
Lemma required_constraints_compile ids rows : Forall (fun id => is_empty id = false) ids -> NoDup ids ->
  Forall (fun row => ConstraintRow_valid row = true /\ exists id, id ∈ ids /\ cr_terms row = [(id, f_one)] /\ cr_rhs row = f_one) rows ->
  exists c, compile_constraints ids rows = Ok c.
Proof.
  intros Hids Hnd Hrows. rewrite Forall_forall in Hrows.
  pose proof (compile_ends ids rows (fun row Hrow => proj1 (Hrows row Hrow))) as Hends.
  destruct (compile_constraints ids rows) as [c|[[]| |]]; [by exists c|exfalso..]; try done.
  - destruct Hends as (row & Hrow & Hp). destruct (Hrows row Hrow) as (_ & id & Hid & Ht & Hr).
    unfold parse_row, _classify_constraint in Hp. rewrite Ht, Hr in Hp. cbn [existsb fst] in Hp.
    by rewrite (bool_decide_eq_false_2 (id ∉ ids)) in Hp by tauto.
  - apply Hends. exists (fun _ => (1 # 1)%Q). intros row Hrow. destruct (Hrows row Hrow) as (_ & id & _ & Ht & Hr).
    unfold row_holds. rewrite Ht, Hr. vm_compute. reflexivity.
  - destruct Hends as (row & Hrow & Hp). destruct (Hrows row Hrow) as (_ & id & Hid & Ht & Hr).
    unfold parse_row, _classify_constraint in Hp. rewrite Ht, Hr in Hp. cbn [existsb fst] in Hp.
    by rewrite (bool_decide_eq_false_2 (id ∉ ids)) in Hp by tauto.
  - by apply Hends.
Qed.
Lemma expansion_pairs relations (P : CandidateBlock -> Prop) : Forall (fun r => exists a b, P a /\ P b /\ r = relation_of a b) relations ->
  Forall (fun r => 0 < len (re_terms r)) relations
  /\ sumZ (fun r => len (re_terms r) * len (re_terms r)) relations = 4 * len relations.
Proof.
  induction 1 as [|r l (a & b & _ & _ & ->) _ [IH1 IH2]]; [done|]. split; [by constructor|].
  rewrite sumZ_cons, len_cons, IH2. change (len (re_terms (relation_of a b))) with 2. lia.
Qed.
Lemma required_ids_unique candidates : NoDup (block_ids candidates) ->
  NoDup (map cr_constraint_id (map (fun c => {| cr_constraint_id := "required:" +:+ cb_block_id c;
    cr_terms := [(cb_block_id c, f_one)]; cr_rhs := f_one |}) (List.filter cb_required candidates))).
Proof.
  rewrite map_map. cbn. induction candidates as [|c l IH]; cbn; [constructor|]. intros [Hc Hl]%NoDup_cons.
  destruct (cb_required c); [|by apply IH]. cbn. constructor; [|by apply IH].
  intros (d & Hd & [Hin _]%elem_of_filter_bool)%list_elem_of_fmap. simplify_eq. apply Hc. rewrite Hd. by apply list_elem_of_fmap_2.
Qed.
(** The activation passes its validator. *)
Lemma activation_valid view candidates current_input : Forall (fun c => CandidateBlock_valid c = true) candidates ->
  NoDup (block_ids candidates) -> (forall e, e ∈ provenance_of candidates -> is_empty e = false) ->
  QueryActivation_valid
    {| qa_query_id := "query:" +:+ show_Z (rv_pointer_version view) +:+ ":" +:+ show_Z (rv_high_water_mark view);
       qa_scores := scores_of candidates current_input;
       qa_retained_coordinate_ids := retained_of candidates (scores_of candidates current_input);
       qa_provenance_event_ids := provenance_of candidates |} = true.
Proof.
  intros Hv Hnd Hev. unfold QueryActivation_valid. cbn [qa_query_id qa_scores qa_retained_coordinate_ids qa_provenance_event_ids].
  assert (forall id, id ∈ block_ids candidates -> _require_identifier id = true) as Hnamed.
  { intros id (c & -> & Hc)%list_elem_of_fmap. eapply Forall_forall in Hv; [|exact Hc]. apply candidate_named in Hv.
    unfold _require_identifier. by rewrite Hv. }
  rewrite !andb_true_iff. split_and!.
  - reflexivity.
  - apply forallb_true_iff. intros [id s] Hin. unfold scores_of in Hin. apply list_elem_of_fmap in Hin as (c & [= -> ->] & Hc).
    rewrite Hnamed by by apply list_elem_of_fmap_2. unfold _require_finite.
    pose proof (lexical_score_unit (_lexical_units current_input) (cb_text c) (units_small _)) as Hu.
    unfold is_unit_float in Hu. apply andb_true_iff in Hu as [H1 H2]. by destruct (_lexical_score _ _) as [|[]| |].
  - unfold scores_of. rewrite map_map. cbn. unfold _require_unique, no_duplicates. by apply bool_decide_eq_true.
  - apply forallb_true_iff. intros id Hid. apply Hnamed. eapply sublist_subseteq; [apply retained_ids_sub|exact Hid].
  - apply forallb_true_iff. intros e He. unfold _require_identifier. by rewrite Hev.
  - unfold _require_unique, no_duplicates. apply bool_decide_eq_true. eapply sublist_NoDup; [|apply retained_ids_sub]. done.
  - unfold _require_unique, no_duplicates. apply bool_decide_eq_true. apply NoDup_fromkeys.
Qed.

Lemma known_relation_terms ids (a b : CandidateBlock) : cb_block_id a ∈ ids -> cb_block_id b ∈ ids ->
  known_terms ids (re_terms (relation_of a b)) = true.
Proof. intros Ha Hb. unfold known_terms. cbn. by rewrite !bool_decide_eq_true_2. Qed.

Definition fixed_row (c : CandidateBlock) : ConstraintRow :=
  {| cr_constraint_id := "required:" +:+ cb_block_id c; cr_terms := [(cb_block_id c, f_one)]; cr_rhs := f_one |}.
Definition graph_parts (view : RequestView) (candidates : list CandidateBlock) (relations : list SparseRelation) : ContextGraph :=
  {| gr_graph_id := "request:" +:+ show_Z (rv_pointer_version view) +:+ ":" +:+ show_Z (rv_covered_event_end view)
                    +:+ ":" +:+ show_Z (rv_high_water_mark view);
     gr_coordinates := map coordinate_of candidates; gr_relations := relations;
     gr_constraints := map fixed_row (List.filter cb_required candidates) |}.
Section parts.
Variables (view : RequestView) (candidates : list CandidateBlock) (relations : list SparseRelation).
Hypotheses (ids_unique : NoDup (block_ids candidates))
  (ids_named : Forall (fun c => is_empty (cb_block_id c) = false) candidates)
  (relations_ok : Forall (fun r => exists a b, a ∈ candidates /\ b ∈ candidates /\ r = relation_of a b) relations).

Lemma graph_parts_ids : coordinate_ids_of (graph_parts view candidates relations) = block_ids candidates.
Proof. unfold coordinate_ids_of. cbn. by rewrite map_map. Qed.
Lemma graph_parts_valid : NoDup (map re_relation_id relations) -> ContextGraph_valid (graph_parts view candidates relations) = true.
Proof.
  intros Hrel. unfold ContextGraph_valid, _require_unique, no_duplicates. rewrite graph_parts_ids.
  cbn [gr_graph_id gr_coordinates gr_relations gr_constraints graph_parts]. rewrite map_map. cbn [co_candidate coordinate_of].
  rewrite !andb_true_iff, !bool_decide_eq_true. split_and!; [reflexivity|done..|by apply required_ids_unique| |].
  - apply forallb_true_iff. intros r Hr. eapply Forall_forall in relations_ok as (a & b & Ha & Hb & ->); [|exact Hr].
    apply known_relation_terms; by apply block_ids_elem.
  - apply forallb_true_iff. intros row (c & -> & [Hc _]%elem_of_filter_bool)%list_elem_of_fmap. unfold known_terms. cbn.
    by rewrite bool_decide_eq_true_2 by by apply block_ids_elem.
Qed.
Lemma fixed_row_valid c : c ∈ candidates -> ConstraintRow_valid (fixed_row c) = true.
Proof.
  intros Hc. eapply Forall_forall in ids_named; [|exact Hc]. by destruct (required_row_ok c) as (row & _ & -> & ?).
Qed.
Lemma graph_parts_admitted : NoDup (map re_relation_id relations) -> graph_admitted (graph_parts view candidates relations).
Proof.
  intros Hrel. split_and!; [by apply graph_parts_valid|..]; apply Forall_map, Forall_forall; intros c Hc.
  - apply coordinate_valid. by eapply Forall_forall in ids_named.
  - apply elem_of_filter_bool in Hc as [Hc _]. by apply fixed_row_valid.
Qed.
Lemma graph_parts_compile : exists c, compile_constraints (block_ids candidates) (map fixed_row (List.filter cb_required candidates)) = Ok c.
Proof.
  apply required_constraints_compile; [by apply Forall_map|done|]. apply Forall_map, Forall_forall. intros c [Hc _]%elem_of_filter_bool.
  split; [by apply fixed_row_valid|]. exists (cb_block_id c). split; [by apply block_ids_elem|done].
Qed.
Lemma graph_parts_capacity config : ContextGraphConfig_valid config = true -> len candidates <= gc_max_coordinates config ->
  len (List.filter cb_required candidates) <= gc_max_constraints config ->
  len relations <= Z.max 0 (gc_max_relations config) -> 4 * len relations <= Z.max 0 (gc_max_relation_entries config) ->
  capacity_exceeded config (graph_parts view candidates relations) = false.
Proof.
  intros Hv Hc Hr Hn He. unfold ContextGraphConfig_valid in Hv. rewrite !andb_true_iff in Hv. cbn [forallb] in Hv.
  unfold _require_positive_integer in Hv. rewrite !andb_true_iff, !negb_true_iff in Hv.
  assert ((gc_max_relations config <=? 0) = false /\ (gc_max_relation_entries config <=? 0) = false) as [Hp1 Hp2] by tauto. bool_hyps.
  destruct (expansion_pairs relations (fun c => c ∈ candidates) relations_ok) as [Hpos Hsum].
  pose proof (relations_exceed_spec relations (gc_max_relation_entries config) Hpos 0 ltac:(lia)) as Hspec. rewrite Hsum in Hspec.
  unfold capacity_exceeded, _relation_expansion_exceeds_limit. cbn [graph_parts gr_coordinates gr_relations gr_constraints].
  rewrite !EngineProperties.len_map. apply orb_false_iff; split; [apply orb_false_iff; split; [apply orb_false_iff; split|]|];
    try (apply Z.ltb_ge; lia). apply not_true_iff_false. rewrite Hspec. lia.
Qed.
End parts.
Lemma scores_known candidates current_input ids : block_ids candidates = ids -> forall provenance query,
  unknown_coordinate ids {| qa_query_id := query; qa_scores := scores_of candidates current_input;
    qa_retained_coordinate_ids := retained_of candidates (scores_of candidates current_input);
    qa_provenance_event_ids := provenance |} = false.
Proof.
  intros <- provenance query. unfold unknown_coordinate. cbn. apply orb_false_iff. split; apply existsb_false_iff.
  - intros s (c & -> & Hc)%list_elem_of_fmap. cbn. by rewrite bool_decide_eq_true_2 by by apply block_ids_elem.
  - intros id Hid. rewrite bool_decide_eq_true_2; [done|]. eapply sublist_subseteq; [apply retained_ids_sub|exact Hid].
Qed.
Lemma required_rows_run candidates : Forall (fun c => is_empty (cb_block_id c) = false) candidates ->
  map_result required_row (List.filter cb_required candidates) = Ok (map fixed_row (List.filter cb_required candidates)).
Proof.
  intros Hnamed. apply map_result_eq, Forall_forall. intros c [Hc _]%elem_of_filter_bool.
  eapply Forall_forall in Hnamed; [|exact Hc]. by destruct (required_row_ok c Hnamed) as (row & -> & -> & _).
Qed.

(** C20. The graph of a request is always one the engine accepts.  For valid
    candidates, [build_context_graph] refuses only a repeated block id, more
    candidates or required candidates than the configuration admits, an empty
    source event id, or two related pairs whose relation ids coincide.
    Otherwise the graph and the activation pass every validator, the
    coordinates are the candidates in order, the expansion and the counts are
    within the capacities of the engine, the query names only coordinates of the
    graph, the constraints fix exactly the required candidates and always
    compile.  The relations are those of the tied pairs - sharing an event, a
    Capsule, a kind or a slot, or adjacent raw events - in order, as many as the
    limits admit, each weighing what its ties add up to; the score of a
    candidate is the share of letters and digits it has in common with the query;
    it is retained exactly when it is required or has one in common; and the
    provenance is the candidates' events. *)
Theorem build_context_graph_correct view candidates current_input config : ContextGraphConfig_valid config = true ->
  Forall (fun c => CandidateBlock_valid c = true) candidates ->
  match build_context_graph view candidates current_input config with
  | Ok b => built_correctly candidates current_input config b
  | Err _ => ~ NoDup (block_ids candidates) \/ gc_max_coordinates config < len candidates
      \/ gc_max_constraints config < len (List.filter cb_required candidates)
      \/ (exists c, c ∈ candidates /\ "" ∈ cb_source_event_ids c)
      \/ ~ NoDup (map tie_id (ties_of config candidates))
  end.
Proof.
  intros Hconfig Hv. assert (Forall (fun c => is_empty (cb_block_id c) = false) candidates) as Hnamed
    by (eapply Forall_impl; [exact Hv|]; apply candidate_named).
  unfold build_context_graph. destruct (no_duplicates (block_ids candidates)) eqn:Hnd; unfold no_duplicates in Hnd; bool_hyps; cbn [negb raise_if];
    [|by left].
  destruct (gc_max_coordinates config <? len candidates) eqn:Hmax; bool_hyps; cbn [raise_if]; [by right; left|].
  rewrite (map_result_eq _ coordinate_of).
  2: { eapply Forall_impl; [exact Hnamed|]. intros c Hc. by apply make_ok, coordinate_valid. }
  rewrite required_rows_run by done. cbn [mbind result_bind]. rewrite EngineProperties.len_map.
  destruct (gc_max_constraints config <? _) eqn:Hcap; bool_hyps; cbn [raise_if]; [by right; right; left|].
  rewrite relate_all_ties by done. cbn [mbind result_bind fst]. set (relations := related_pairs (ties_of config candidates)).
  assert (Hall : Forall (fun r => exists a b, a ∈ candidates /\ b ∈ candidates /\ r = relation_of a b) relations).
  { apply Forall_map, Forall_forall. intros p [H1 H2]%ties_elem. exists p.1, p.2. split_and!; [exact H1|exact H2|reflexivity]. }
  fold (graph_parts view candidates relations).
  destruct (ContextGraph_valid (graph_parts view candidates relations)) eqn:Hg.
  2: { rewrite (make_err ContextGraph_valid) by exact Hg. right; right; right; right. intros Hids. rewrite graph_parts_valid in Hg; [done..|].
    unfold relations, related_pairs. by rewrite map_map. }
  rewrite (make_ok ContextGraph_valid) by exact Hg. cbn [mbind result_bind].
  destruct (decide (Exists (fun c => "" ∈ cb_source_event_ids c) candidates)) as [Hempty|Hfull].
  { apply Exists_exists in Hempty as (c & Hc & Hin).
    destruct (make QueryActivation_valid _) as [activation|] eqn:Ha; cbn [mbind result_bind]; [|by right; right; right; left; exists c].
    exfalso. apply make_inv in Ha as [_ Ha]. unfold QueryActivation_valid in Ha. rewrite !andb_true_iff, !forallb_true_iff in Ha.
    destruct Ha as [[[_ Ha] _] _]. specialize (Ha ""). discriminate Ha. apply elem_of_fromkeys.
    rewrite list_elem_of_In, in_flat_map. exists c. by rewrite <- !list_elem_of_In. }
  assert (forall e, e ∈ provenance_of candidates -> is_empty e = false) as Hevents.
  { intros e He. apply (proj1 (elem_of_fromkeys _ _)), list_elem_of_In, in_flat_map in He as (c & Hc%list_elem_of_In & He%list_elem_of_In). destruct (is_empty e) eqn:E; [|done].
    exfalso. apply Hfull, Exists_exists. exists c. apply is_empty_true in E. by subst. }
  pose proof (activation_valid view candidates current_input Hv Hnd Hevents) as Hact.
  rewrite (make_ok QueryActivation_valid) by exact Hact.
  cbn [mbind result_bind]. pose proof (graph_parts_ids view candidates relations) as Hgids.
  split; cbn [bg_graph bg_activation].
  - split; [apply graph_parts_admitted; [done..|]|exact Hact]. unfold ContextGraph_valid, _require_unique, no_duplicates in Hg.
    rewrite !andb_true_iff, !bool_decide_eq_true in Hg. tauto.
  - done.
  - destruct (ties_fit config candidates Hconfig) as [Hfit1 Hfit2]. fold relations in Hfit1, Hfit2. apply graph_parts_capacity; [done..|lia|lia].
  - by apply scores_known.
  - rewrite Hgids. by apply graph_parts_compile.
  - done.
  - cbn [gr_relations graph_parts]. unfold relations, related_pairs. apply Forall2_fmap_r, Forall_Forall2_diag, Forall_forall.
    intros p _. apply relation_relates.
  - cbn [qa_scores]. unfold scores_of. apply Forall2_fmap_r, Forall_Forall2_diag, Forall_forall. intros c _.
    split; [done|apply lexical_score_scored].
  - intros id. cbn [qa_retained_coordinate_ids]. unfold scores_of. rewrite retained_elem.
    setoid_rewrite lexical_score_positive. done.
  - apply retained_ids_sub.
  - intros e. cbn. unfold provenance_of. rewrite elem_of_fromkeys, list_elem_of_In, in_flat_map.
    split; intros (c & Hc & Hin); exists c; by rewrite ?list_elem_of_In in *.
Qed.
End build.

(** ** A request *)

(** Tables of the ASCII characters. *)
Definition ascii_alnum (c : N) : bool :=
  ((48 <=? c) && (c <=? 57) || (65 <=? c) && (c <=? 90) || (97 <=? c) && (c <=? 122))%N.
Definition ascii_unicode : Unicode := {| casefold := fun s => s; py_isalnum := ascii_alnum |}.
Definition toy_live_candidates : list CandidateBlock :=
  [demo_block "g" ACTIVE_GOAL GOAL "ship it" "e1" true None; demo_block "d" RELEVANT_EVIDENCE DECISION "hips" "e2" false None;
   demo_block "x" GLOBAL_BACKGROUND GLOBAL_BACKGROUND_KIND "zzz" "e3" false None].
Lemma toy_live_candidates_valid : Forall (fun c => CandidateBlock_valid c = true) toy_live_candidates.
Proof. repeat constructor. Qed.
Lemma build_context_graph_correct_witness : exists b,
  build_context_graph (H := ascii_unicode) demo_view toy_live_candidates "ship" default_graph_config = Ok b
  /\ built_correctly (H := ascii_unicode) toy_live_candidates "ship" default_graph_config b
  /\ qa_retained_coordinate_ids (bg_activation b) = ["g"; "d"].
Proof.
  assert (match build_context_graph (H := ascii_unicode) demo_view toy_live_candidates "ship" default_graph_config with
          | Ok b => qa_retained_coordinate_ids (bg_activation b) = ["g"; "d"] | Err _ => False end) as Hok
    by (vm_compute; reflexivity).
  pose proof (build_context_graph_correct (H := ascii_unicode) demo_view toy_live_candidates "ship" default_graph_config
                default_graph_config_valid toy_live_candidates_valid) as Hbuilt.
  destruct (build_context_graph (H := ascii_unicode) demo_view toy_live_candidates "ship" default_graph_config) as [b|e];
    [|destruct Hok]. exists b. exact (conj eq_refl (conj Hbuilt Hok)).
Defined.
