(* ===== verification/Retrieval.v ===== *)
(** Candidate selection ([runtime/retrieval.py]): the bounded blocks of a
    request view, their lexical scores, their order, and the test that no
    required source was left out. *)
From S2P Require Import Prelude PyString PyFloat Domain PyJson Records Views Segmenter Runtime Closure Budget ToolLoop.
From Stdlib Require Import Ascii String.
Open Scope string_scope.
Open Scope list_scope.
Open Scope Z_scope.

(** ** Text *)

Definition bar (parts : list string) : string := py_join " | " parts.
Definition lines (parts : list string) : string := py_join newline parts.

Inductive retrieval_error := CandidateValueError.
Definition candidate (b : CandidateBlock) : result retrieval_error CandidateBlock :=
  raise CandidateValueError when negb (CandidateBlock_valid b);; Ok b.

(** The default values of [RetrievalConfig]. *)
Definition default_retrieval_config : RetrievalConfig := Eval vm_compute in
  {| rc_max_query_characters := 2048; rc_max_capsules := 64; rc_max_delta_events := 128; rc_max_candidates := 256;
     rc_max_items_per_field := 64; rc_max_lexical_characters_per_candidate := 4096;
     rc_goal_weight := f_of_Z 100; rc_constraint_weight := f_of_Z 100; rc_raw_delta_weight := f_of_Z 90;
     rc_exact_anchor_weight := f_of_Z 80; rc_task_weight := f_of_Z 50; rc_decision_weight := f_of_Z 40;
     rc_entity_weight := f_of_Z 30; rc_dependency_weight := f_of_Z 30; rc_background_weight := f_of_Z 10;
     rc_lexical_weight := f_of_Z 10 |}.

Section retrieval.
Context `{Unicode}.
Variable config : RetrievalConfig.
Definition bounded_items {A} (l : list A) : list A := take_z (rc_max_items_per_field config) l.

(** [_normalized_query] *)
Definition _normalized_query (query : string) : string :=
  py_join " " (py_words (casefold (take_chars (Z.to_nat (rc_max_query_characters config)) query))).
(** [_lexical_fraction] *)
Definition _lexical_fraction (query text : string) : float :=
  if is_empty query then f_zero else
  let candidate := casefold (take_chars (Z.to_nat (rc_max_lexical_characters_per_candidate config)) text) in
  if contains_text query candidate then f_one else
  let terms := fromkeys (py_words query) in
  match terms with
  | [] => f_zero
  | _ => f_div_Z (len (List.filter (fun term => contains_text term candidate) terms)) (len terms)
  end.
(** [_score] *)
Definition _score (text : string) (base_weight : float) (query : string) : float :=
  f_add base_weight (f_mul (rc_lexical_weight config) (_lexical_fraction query text)).
(** [_reason] *)
Definition _reason (text query : string) : string :=
  if f_lt f_zero (_lexical_fraction query text) then "LEXICAL_MATCH" else "STRUCTURED_FALLBACK".

(** ** The texts of the blocks *)

(** [_decision_text] *)
Definition _decision_text (capsule : ContextCapsuleEnvelope) (decision : Decision_) : string :=
  lines
    ["Decision: " +:+ de_text decision;
     "Rationale: " +:+ de_rationale decision;
     "Alternatives: " +:+ bar (bounded_items (de_alternatives decision));
     "Supersedes: " +:+ bar (bounded_items (de_supersedes decision));
     "Rejected because: " +:+ de_rejected_because decision;
     "Dependencies: " +:+ bar (map (fun item => dp_dependency_id item +:+ ":" +:+ dp_kind item +:+ "->" +:+ dp_target_id item)
                                 (bounded_items (cap_dependencies capsule)))].
(** [_task_text] *)
Definition _task_text (capsule : ContextCapsuleEnvelope) : string :=
  lines (omap (fun '(label, values) =>
      match map cl_text (bounded_items values) with
      | [] => None
      | texts => Some (label +:+ ": " +:+ bar texts)
      end)
    [("Progress", cap_progress capsule); ("Open loops", cap_open_loops capsule); ("Preferences", cap_preferences capsule);
     ("Emotional context", cap_emotional_context capsule)]).
(** [_raw_event_text] *)
Definition _raw_event_text (event : EventEnvelope) : string :=
  "[" +:+ event_type_value (ev_event_type event) +:+ "/" +:+ event_role_value (ev_role event) +:+ " " +:+ ev_event_id event +:+ "]"
  +:+ newline +:+ ev_content event.
(** [_raw_tool_name] *)
Definition expected_kind (t : EventType) : option string :=
  match t with TOOL_CALL => Some "call" | TOOL_RESULT => Some "result" | _ => None end.
Definition _raw_tool_name (event : EventEnvelope) : option string :=
  match expected_kind (ev_event_type event), json_loads (ev_content event) with
  | Some kind, Some (JObj members) =>
      match member "kind" (py_dict members), member "tool" (py_dict members) with
      | Some (JStr found), Some (JStr tool) => if (found ==? kind) && negb (is_empty tool) then Some tool else None
      | _, _ => None
      end
  | _, _ => None
  end.

(** ** Order *)

Definition retrieval_order (c : CandidateBlock) : float := if eqb_of (cb_slot c) RAW_DELTA then f_zero else f_neg (cb_score c).
Definition retrieval_sequence (c : CandidateBlock) : Z := if eqb_of (cb_slot c) RAW_DELTA then default 0 (cb_event_sequence c) else 0.
(** [_candidate_sort_key(a) < _candidate_sort_key(b)] *)
Definition retrieval_lt (a b : CandidateBlock) : bool :=
  then_lt Z.ltb (_SLOT_RANK (cb_slot a)) (_SLOT_RANK (cb_slot b))
  (then_lt f_lt (retrieval_order a) (retrieval_order b)
  (then_lt Z.ltb (retrieval_sequence a) (retrieval_sequence b)
  (str_ltb (cb_block_id a) (cb_block_id b)))).
End retrieval.

(** ** Required sources *)

Definition capsule_required_ids (capsule : ContextCapsuleEnvelope) : list string :=
  map (fun claim => "goal:" +:+ cap_capsule_id capsule +:+ ":" +:+ cl_claim_id claim)
    (List.filter (fun claim => eqb_of (cl_status claim) SEM_ACTIVE) (cap_goals capsule))
  ++ map (fun claim => "constraint:" +:+ cap_capsule_id capsule +:+ ":" +:+ cl_claim_id claim)
    (List.filter (fun claim => eqb_of (cl_status claim) SEM_ACTIVE) (cap_constraints capsule))
  ++ map (fun anchor => "anchor:" +:+ cap_capsule_id capsule +:+ ":" +:+ an_anchor_id anchor)
    (List.filter (fun anchor => eqb_of (an_status anchor) ANCHOR_ACTIVE) (cap_exact_anchors capsule)).
(** [required_candidates_complete] *)
Definition required_candidates_complete (view : RequestView) (candidates : list CandidateBlock) (satisfied_event_ids : list string) : bool :=
  let expected := flat_map (fun m => capsule_required_ids (ms_capsule m)) (rv_memberships view) in
  let expected_event_ids := List.filter (fun id => negb (bool_decide (id ∈ satisfied_event_ids))) (map ev_event_id (rv_delta view)) in
  let raw_event_ids := flat_map cb_source_event_ids (List.filter (fun c => eqb_of (cb_kind c) RAW_EVENT) candidates) in
  subset_of expected (block_ids candidates) && subset_of expected_event_ids raw_event_ids.

(** ** Selection *)

(** [_bounded_raw_units]: the loop over the units, latest first. *)
Fixpoint take_units (units : list (list EventEnvelope)) (selected : list (list EventEnvelope)) (selected_events max_delta_events : Z)
    : list (list EventEnvelope) :=
  match units with
  | [] => selected
  | unit :: units =>
      if nonempty selected && (max_delta_events <? selected_events + len unit) then selected
      else take_units units (selected ++ [unit]) (selected_events + len unit) max_delta_events
  end.
Definition _bounded_raw_units (units : list (list EventEnvelope)) (max_delta_events : Z) : list (list EventEnvelope) :=
  if max_delta_events <? 1 then [] else rev (take_units (rev units) [] 0 max_delta_events).

Section select.
Context `{Unicode} `{FloatRepr}.
Variables (config : RetrievalConfig) (query : string).

(** A loop that builds a block of each item it does not skip, and breaks when
    [add] refuses it. *)
Fixpoint add_each {A} (build : A -> option CandidateBlock) (items : list A) (selected : list CandidateBlock)
    : result retrieval_error (list CandidateBlock) :=
  match items with
  | [] => Ok selected
  | item :: items =>
      match build item with
      | None => add_each build items selected
      | Some b =>
          b ← candidate b;
          if rc_max_candidates config <=? len selected then Ok selected else add_each build items (selected ++ [b])
      end
  end.
(** The fields most blocks share. *)
Definition block (id : string) (slot : RuntimeSlot) (kind : CandidateKind) (text : string) (events : list string) (base_weight : float)
    (reason : string) (required : bool) (capsule_id : string) : CandidateBlock :=
  {| cb_block_id := id; cb_slot := slot; cb_kind := kind; cb_text := text; cb_source_event_ids := events;
     cb_score := _score config text base_weight query; cb_reason := reason; cb_required := required;
     cb_capsule_id := Some capsule_id; cb_event_sequence := None; cb_event_type := None; cb_tool_name := None;
     cb_required_selection_complete := true |}.

Definition goal_block (capsule : ContextCapsuleEnvelope) (claim : CapsuleClaim) : option CandidateBlock :=
  if negb (eqb_of (cl_status claim) SEM_ACTIVE) then None else
  Some (block ("goal:" +:+ cap_capsule_id capsule +:+ ":" +:+ cl_claim_id claim) ACTIVE_GOAL GOAL (cl_text claim)
          (cl_source_event_ids claim) (rc_goal_weight config) "ACTIVE_REQUIRED" true (cap_capsule_id capsule)).
Definition constraint_block (capsule : ContextCapsuleEnvelope) (claim : CapsuleClaim) : option CandidateBlock :=
  if negb (eqb_of (cl_status claim) SEM_ACTIVE) then None else
  Some (block ("constraint:" +:+ cap_capsule_id capsule +:+ ":" +:+ cl_claim_id claim) HARD_CONSTRAINT CONSTRAINT (cl_text claim)
          (cl_source_event_ids claim) (rc_constraint_weight config) "ACTIVE_REQUIRED" true (cap_capsule_id capsule)).
Definition anchor_block (capsule : ContextCapsuleEnvelope) (anchor : CapsuleAnchor) : option CandidateBlock :=
  if negb (eqb_of (an_status anchor) ANCHOR_ACTIVE) then None else
  Some (block ("anchor:" +:+ cap_capsule_id capsule +:+ ":" +:+ an_anchor_id anchor) EXACT_ANCHOR EXACT_ANCHOR_KIND
          (an_exact_text anchor) (an_source_event_ids anchor) (f_mul (rc_exact_anchor_weight config) (an_importance anchor))
          "ACTIVE_EXACT_ANCHOR" true (cap_capsule_id capsule)).
Definition raw_block (unit : list EventEnvelope) : option CandidateBlock :=
  match unit with
  | [] => None
  | item :: rest =>
      let raw_text := py_join blank_line (map _raw_event_text unit) in
      let is_singleton := negb (nonempty rest) in
      Some {| cb_block_id := "event:" +:+ ev_event_id item; cb_slot := RAW_DELTA; cb_kind := RAW_EVENT; cb_text := raw_text;
              cb_source_event_ids := map ev_event_id unit; cb_score := _score config raw_text (rc_raw_delta_weight config) query;
              cb_reason := "UNCOMPACTED_DELTA"; cb_required := true; cb_capsule_id := None;
              cb_event_sequence := Some (ev_sequence item);
              cb_event_type := if is_singleton then Some (ev_event_type item) else None;
              cb_tool_name := if is_singleton then _raw_tool_name item else None; cb_required_selection_complete := true |}
  end.
Definition task_block (capsule : ContextCapsuleEnvelope) : option CandidateBlock :=
  if negb (eqb_of (cap_level capsule) LEVEL_TASK) then None else
  let text := _task_text config capsule in
  if is_empty text then None else
  Some (block ("task:" +:+ cap_capsule_id capsule) ACTIVE_TASK TASK_CONTEXT text (cap_source_event_ids capsule)
          (rc_task_weight config) (_reason config text query) false (cap_capsule_id capsule)).
Definition decision_block (capsule : ContextCapsuleEnvelope) (decision : Decision_) : option CandidateBlock :=
  let text := _decision_text config capsule decision in
  let source_ids := fromkeys (de_source_event_ids decision
                              ++ flat_map dp_source_event_ids (bounded_items config (cap_dependencies capsule))) in
  Some (block ("decision:" +:+ cap_capsule_id capsule +:+ ":" +:+ de_decision_id decision) RELEVANT_EVIDENCE DECISION text source_ids
          (rc_decision_weight config) (_reason config text query) false (cap_capsule_id capsule)).
Definition entity_block (capsule : ContextCapsuleEnvelope) (entity : Entity) : option CandidateBlock :=
  let text := lines ["Entity: " +:+ en_canonical_name entity; "Kind: " +:+ en_kind entity;
                     "Aliases: " +:+ bar (bounded_items config (en_aliases entity))] in
  Some (block ("entity:" +:+ cap_capsule_id capsule +:+ ":" +:+ en_entity_id entity) RELEVANT_EVIDENCE ENTITY text
          (en_source_event_ids entity) (rc_entity_weight config) (_reason config text query) false (cap_capsule_id capsule)).
Definition dependency_block (capsule : ContextCapsuleEnvelope) (dependency : Dependency) : option CandidateBlock :=
  let text := lines ["Dependency: " +:+ dp_dependency_id dependency; "Kind: " +:+ dp_kind dependency;
                     "Target: " +:+ dp_target_id dependency] in
  Some (block ("dependency:" +:+ cap_capsule_id capsule +:+ ":" +:+ dp_dependency_id dependency) RELEVANT_EVIDENCE DEPENDENCY text
          (dp_source_event_ids dependency) (rc_dependency_weight config) (_reason config text query) false (cap_capsule_id capsule)).
Definition background_block (capsule : ContextCapsuleEnvelope) : option CandidateBlock :=
  let text := cap_narrative_summary capsule in
  match cap_level capsule with
  | LEVEL_EPISODE =>
      Some (block ("background:" +:+ cap_capsule_id capsule) EPISODE_BACKGROUND EPISODE_BACKGROUND_KIND text
              (cap_source_event_ids capsule) (rc_background_weight config) (_reason config text query) false (cap_capsule_id capsule))
  | LEVEL_GLOBAL =>
      Some (block ("background:" +:+ cap_capsule_id capsule) GLOBAL_BACKGROUND GLOBAL_BACKGROUND_KIND text
              (cap_source_event_ids capsule) (rc_background_weight config) (_reason config text query) false (cap_capsule_id capsule))
  | _ => None
  end.

(** The loops over the capsules. *)
Definition add_claims (selected : list CandidateBlock) (capsule : ContextCapsuleEnvelope) : result retrieval_error (list CandidateBlock) :=
  selected ← add_each (goal_block capsule) (bounded_items config (cap_goals capsule)) selected;
  add_each (constraint_block capsule) (bounded_items config (cap_constraints capsule)) selected.
Definition add_anchors (selected : list CandidateBlock) (capsule : ContextCapsuleEnvelope) : result retrieval_error (list CandidateBlock) :=
  add_each (anchor_block capsule) (bounded_items config (cap_exact_anchors capsule)) selected.
Definition add_evidence (selected : list CandidateBlock) (capsule : ContextCapsuleEnvelope) : result retrieval_error (list CandidateBlock) :=
  selected ← add_each (decision_block capsule) (bounded_items config (cap_decisions capsule)) selected;
  selected ← add_each (entity_block capsule) (bounded_items config (cap_entities capsule)) selected;
  add_each (dependency_block capsule) (bounded_items config (cap_dependencies capsule)) selected.
End select.

Definition mark_incomplete (b : CandidateBlock) : CandidateBlock :=
  {| cb_block_id := cb_block_id b; cb_slot := cb_slot b; cb_kind := cb_kind b; cb_text := cb_text b;
     cb_source_event_ids := cb_source_event_ids b; cb_score := cb_score b; cb_reason := cb_reason b; cb_required := cb_required b;
     cb_capsule_id := cb_capsule_id b; cb_event_sequence := cb_event_sequence b; cb_event_type := cb_event_type b;
     cb_tool_name := cb_tool_name b; cb_required_selection_complete := false |}.

Section candidates.
Context `{Unicode} `{FloatRepr}.
(** [select_candidates]: the loops, *)
Definition gather_candidates (view : RequestView) (normalized_query : string) (config : RetrievalConfig)
    : result retrieval_error (list CandidateBlock) :=
  let capsules := map ms_capsule (take_z (rc_max_capsules config) (rv_memberships view)) in
  selected ← fold_result (add_claims config normalized_query) capsules [];
  let raw_units := match durable_event_units (rv_delta view) with
                   | Some units => _bounded_raw_units units (rc_max_delta_events config)
                   | None => []
                   end in
  selected ← add_each config (raw_block config normalized_query) raw_units selected;
  selected ← fold_result (add_anchors config normalized_query) capsules selected;
  selected ← add_each config (task_block config normalized_query) capsules selected;
  selected ← fold_result (add_evidence config normalized_query) capsules selected;
  add_each config (background_block config normalized_query) capsules selected.
(** and the order and the marks. *)
Definition select_candidates (view : RequestView) (query : string) (config : RetrievalConfig)
    : result retrieval_error (list CandidateBlock) :=
  selected ← gather_candidates view (_normalized_query config query) config;
  let ordered := py_sorted retrieval_lt selected in
  if negb (required_candidates_complete view ordered []) then map_result (fun c => candidate (mark_incomplete c)) ordered
  else Ok ordered.
End candidates.
