(* ===== verification/Live.v ===== *)
(** Live selection ([context_graph/live.py]): the deterministic assembly is
    computed first, and an engine's selection replaces it only after every
    gate.  The engine is a parameter; [assemble_live_context] is the
    composition with the sparse engine. *)
From S2P Require Import Prelude PyString PyFloat Domain PyJson Records Views Segmenter Runtime Closure Budget BudgetProperties ToolLoop GraphTypes Matrix Backends Constraints Solver Engine GraphBuild Retrieval.
From Stdlib Require String.
Open Scope string_scope.
Open Scope list_scope.
Open Scope Z_scope.

Inductive ResidualBand := UNAVAILABLE | VERIFIED | MARGINAL | FAILED.
Record LiveContextTrace := {
  lt_mode : ContextEngineMode; lt_outcome : EngineOutcome; lt_error_code : option string; lt_candidate_count : Z;
  lt_selected_count : Z; lt_relation_count : Z; lt_constraint_count : Z; lt_retained_count : Z; lt_reduced_count : Z;
  lt_selected_budget_units : Z; lt_required_passed : bool; lt_provenance_passed : bool; lt_residual_band : ResidualBand;
  lt_adaptive_retry_count : Z;
}.
Record LiveSelectionResult := { ls_assembly : AssemblyResult; ls_trace : LiveContextTrace }.
(** [ContextEngineSolver]: its configuration, when it has one, and [solve]; [None] is an exception. *)
Record ContextEngineSolver := {
  es_config : option ContextGraphConfig;
  es_solve : ContextGraph -> QueryActivation -> ContextEngineMode -> option EngineResult;
}.
(** What leaves the selection as an exception. *)
Inductive live_error := LiveBudget (e : budget_error) | LiveOverflowError.
Definition live_budget {A} (r : result budget_error A) : result live_error A :=
  match r with Ok a => Ok a | Err e => Err (LiveBudget e) end.

(** [_residual_band] *)
Definition _residual_band (certificate : option ErrorCertificate) : ResidualBand :=
  match certificate with
  | None => UNAVAILABLE
  | Some c =>
      let maximum := f_max (f_max (ec_stationarity_error c) (ec_constraint_error c)) (ec_reconstruction_error c) in
      if ec_passed c && f_le maximum f_1e_10 then VERIFIED
      else if ec_passed c && f_le maximum f_1e_8 then MARGINAL else FAILED
  end.
(** [_trace] *)
Definition live_trace (mode : ContextEngineMode) (outcome : EngineOutcome) (fallback : AssemblyResult) (candidates : list CandidateBlock)
    (built : option BuiltContextGraph) (r : option EngineResult) (final : option AssemblyResult) (error_code : option string)
    (retry_count : Z) : LiveContextTrace :=
  let selected := default fallback final in
  let certificate := r ≫= er_certificate in
  let retained_count := match built with Some b => len (qa_retained_coordinate_ids (bg_activation b)) | None => 0 end in
  {| lt_mode := mode; lt_outcome := outcome; lt_error_code := error_code; lt_candidate_count := len candidates;
     lt_selected_count := len (ar_selected_blocks selected);
     lt_relation_count := match built with Some b => len (gr_relations (bg_graph b)) | None => 0 end;
     lt_constraint_count := match built with Some b => len (gr_constraints (bg_graph b)) | None => 0 end;
     lt_retained_count := retained_count; lt_reduced_count := Z.max 0 (len candidates - retained_count);
     lt_selected_budget_units := at_ac_selected_cost (ar_trace selected);
     lt_required_passed := match certificate with Some c => ec_required_blocks_passed c | None => false end;
     lt_provenance_passed := match certificate with Some c => ec_provenance_passed c | None => false end;
     lt_residual_band := _residual_band certificate; lt_adaptive_retry_count := retry_count |}.

(** [_should_retry], on the first attempt *)
Definition _should_retry (r : EngineResult) (activation : QueryActivation) : bool :=
  eqb_of (er_outcome r) DEGRADED_RAW
  && match er_error_code r with
     | Some code => String.prefix "REDUCTION_" code || String.prefix "SOLVE_" code
     | None => false
     end
  && nonempty (qa_retained_coordinate_ids activation).
(** [_verified_scores] *)
Definition _verified_scores (r : EngineResult) (built : BuiltContextGraph) : gmap string float :=
  list_to_map (rev (if nonempty (er_activation_scores r) then er_activation_scores r else qa_scores (bg_activation built))).

(** How the final validation ends early: an exception it catches, or one it lets through. *)
Inductive final_error := FinalRejected | FinalRaised (e : live_error).
Definition with_score (score : float) (b : CandidateBlock) : CandidateBlock :=
  {| cb_block_id := cb_block_id b; cb_slot := cb_slot b; cb_kind := cb_kind b; cb_text := cb_text b;
     cb_source_event_ids := cb_source_event_ids b; cb_score := score; cb_reason := "verified_activation_per_token";
     cb_required := cb_required b; cb_capsule_id := cb_capsule_id b; cb_event_sequence := cb_event_sequence b;
     cb_event_type := cb_event_type b; cb_tool_name := cb_tool_name b;
     cb_required_selection_complete := cb_required_selection_complete b |}.
(** One block of [_score_for_pack]; a divisor beyond the floats is an [OverflowError]. *)
Definition score_block (scores : gmap string float) (counts : Counts) (b : CandidateBlock) : result final_error CandidateBlock :=
  if cb_required b then Ok b else
  match counts !! cb_block_id b with
  | None => Err FinalRejected
  | Some cost =>
      raise FinalRejected when cost <? 0;;
      let divisor := f_of_Z (Z.max 1 cost) in
      raise (FinalRaised LiveOverflowError) when negb (f_is_finite divisor);;
      let scored := with_score (f_div (f_max f_zero (default f_zero (scores !! cb_block_id b))) divisor) b in
      raise FinalRejected when negb (CandidateBlock_valid scored);;
      Ok scored
  end.
(** [_score_for_pack] *)
Definition _score_for_pack (blocks : list CandidateBlock) (scores : gmap string float) (counts : Counts)
    : result final_error (list CandidateBlock) := map_result (score_block scores counts) blocks.

Definition final_closure {A} (r : result ClosureError A) : result final_error A :=
  match r with Ok a => Ok a | Err _ => Err FinalRejected end.
(** [BudgetInvariantError] and [ClosureError] are caught, a tokenizer's failure passes through. *)
Definition final_assembly (r : result budget_error AssemblyResult) : result final_error AssemblyResult :=
  match r with
  | Ok a => Ok a
  | Err (BudgetInvariantError _ | GroupingFailed) => Err FinalRejected
  | Err e => Err (FinalRaised (LiveBudget e))
  end.

Section live.
Context `{Unicode}.
Variables (view : RequestView) (current_input : string) (opaque_token_cost fixed_required_cost : Z) (counter : TokenCounter)
  (budget_config : BudgetConfig).

Definition live_assemble (candidates : list CandidateBlock) (counts : Counts) : result budget_error AssemblyResult :=
  assemble view candidates current_input opaque_token_cost fixed_required_cost counter budget_config (Some counts).
(** The last gate. *)
Definition final_gate (final : AssemblyResult) (closure materialized : list CandidateBlock) (max_blocks : Z) : bool :=
  let final_ids := block_ids (ar_selected_blocks final) in
  let canonical_final := List.filter (fun item => bool_decide (cb_block_id item ∈ final_ids)) materialized in
  subset_of (block_ids (List.filter cb_required materialized)) final_ids
  && subset_of (block_ids closure) final_ids
  && negb (at_b_input (ar_trace final) <? at_total_input_cost (ar_trace final))
  && validate_dependency_closure canonical_final materialized max_blocks.
(** The [try] statement that builds the final pack. *)
Definition final_pack (materialized : list CandidateBlock) (counts : Counts) (config : ContextGraphConfig)
    (built : BuiltContextGraph) (r : EngineResult) : result final_error AssemblyResult :=
  closure ← final_closure (close_dependency_closure (er_selected_blocks r) materialized (gc_max_coordinates config));
  raise FinalRejected when
    existsb (fun b => negb (subset_of (cb_source_event_ids b) (qa_provenance_event_ids (bg_activation built)))) closure;;
  scored ← _score_for_pack closure (_verified_scores r built) counts;
  final ← final_assembly (live_assemble scored counts);
  raise FinalRejected when negb (final_gate final closure materialized (gc_max_coordinates config));;
  Ok final.
(** The engine, and once more with every coordinate retained; the result and the retries so far. *)
Definition engine_run (engine : ContextEngineSolver) (built : BuiltContextGraph) (mode : ContextEngineMode)
    : option EngineResult * Z :=
  let activation := bg_activation built in
  match es_solve engine (bg_graph built) activation mode with
  | None => (None, 0)
  | Some r =>
      let retained := coordinate_ids_of (bg_graph built) in
      if _should_retry r activation
         && subset_of (qa_retained_coordinate_ids activation) retained && negb (subset_of retained (qa_retained_coordinate_ids activation))
      then match make QueryActivation_valid
                   {| qa_query_id := qa_query_id activation; qa_scores := qa_scores activation;
                      qa_retained_coordinate_ids := retained; qa_provenance_event_ids := qa_provenance_event_ids activation |} with
           | Err _ => (None, 0)
           | Ok activation => (es_solve engine (bg_graph built) activation mode, 1)
           end
      else (Some r, 0)
  end.
(** The events that the current input repeats. *)
Definition satisfied_event_ids : list string :=
  match last (rv_delta view) with
  | Some latest => if eqb_of (ev_event_type latest) USER_MESSAGE && (ev_content latest ==? current_input) then [ev_event_id latest] else []
  | None => []
  end.
Definition certificate_accepts (certificate : option ErrorCertificate) : bool :=
  match certificate with
  | Some c => ec_passed c && ec_required_blocks_passed c && ec_provenance_passed c
  | None => false
  end.

(** After the fallback and the graph. *)
Definition engine_selection (mode : ContextEngineMode) (engine : ContextEngineSolver) (config : ContextGraphConfig)
    (materialized : list CandidateBlock) (counts : Counts) (fallback : AssemblyResult) (built : BuiltContextGraph)
    : result live_error LiveSelectionResult :=
  let '(solved, retry_count) := engine_run engine built mode in
  let kept outcome r error_code :=
    Ok {| ls_assembly := fallback;
          ls_trace := live_trace mode outcome fallback materialized (Some built) r None error_code retry_count |} in
  match solved with
  | None => kept DEGRADED_RAW None (Some "LIVE_ENGINE_FAILURE")
  | Some r =>
      if eqb_of mode MODE_SHADOW then
        kept (if eqb_of (er_outcome r) OUTCOME_SHADOW then OUTCOME_SHADOW else DEGRADED_RAW) (Some r) (er_error_code r)
      else if negb (eqb_of (er_outcome r) OUTCOME_ACTIVE) || negb (certificate_accepts (er_certificate r))
      then kept DEGRADED_RAW (Some r) (Some (default "LIVE_ENGINE_REJECTED" (er_error_code r)))
      else
        match final_pack materialized counts config built r with
        | Ok final =>
            Ok {| ls_assembly := final;
                  ls_trace := live_trace mode OUTCOME_ACTIVE fallback materialized (Some built) (Some r) (Some final) None retry_count |}
        | Err FinalRejected => kept DEGRADED_RAW (Some r) (Some "LIVE_FINAL_VALIDATION_FAILED")
        | Err (FinalRaised e) => Err e
        end
  end.
(** [select_live_context] *)
Definition select_live_context (candidates : list CandidateBlock) (block_token_counts : option Counts) (mode : ContextEngineMode)
    (engine : ContextEngineSolver) : result live_error LiveSelectionResult :=
  let materialized := canonical_candidates candidates in
  counts ← live_budget (match block_token_counts with
                        | None => count_candidate_blocks materialized counter
                        | Some counts => Ok counts
                        end);
  fallback ← live_budget (live_assemble materialized counts);
  let kept outcome error_code :=
    Ok {| ls_assembly := fallback; ls_trace := live_trace mode outcome fallback materialized None None None error_code 0 |} in
  if existsb (fun c => negb (cb_required_selection_complete c)) materialized
     || negb (required_candidates_complete view materialized satisfied_event_ids)
  then kept DEGRADED_RAW (Some "LIVE_REQUIRED_CANDIDATE_TRUNCATED")
  else if eqb_of mode MODE_OFF then kept OUTCOME_OFF None
  else
    let config := default default_graph_config (es_config engine) in
    match build_context_graph view materialized current_input config with
    | Err _ => kept DEGRADED_RAW (Some "LIVE_BUILD_FAILURE")
    | Ok built => engine_selection mode engine config materialized counts fallback built
    end.

(** [SparseContextEngine()] *)
Definition sparse_engine `{FloatSum} `{NumericLibraries} (config : ContextGraphConfig) : ContextEngineSolver :=
  {| es_config := Some config;
     es_solve := fun g a mode => match engine_solve config g a mode with Ok r => Some r | Err _ => None end |}.
(** [assemble_live_context] *)
Definition assemble_live_context `{FloatSum} `{NumericLibraries} (candidates : list CandidateBlock) (block_token_counts : option Counts)
    (mode : ContextEngineMode) : result live_error (AssemblyResult * LiveContextTrace) :=
  selected ← select_live_context candidates block_token_counts mode (sparse_engine default_graph_config);
  Ok (ls_assembly selected, ls_trace selected).
End live.
