(* ===== verification/LiveProperties.v ===== *)
(** The live selection fails open: whatever the engine does, the request gets
    either the deterministic assembly or a pack that passed every gate. *)
From S2P Require Import Prelude PyString PyFloat Domain PyJson Records Views Segmenter Runtime Closure Budget BudgetProperties ToolLoop GraphTypes Matrix Backends Constraints Solver Engine EngineTotality GraphBuild GraphBuildProperties Retrieval Live.
Open Scope string_scope.
Open Scope list_scope.
Open Scope Z_scope.

(** A block with the engine's score and reason, or a required one as it was. *)
Definition rescored (b b' : CandidateBlock) : Prop := b' = b \/ exists score, cb_required b = false /\ b' = with_score score b.
Lemma rescored_id b b' : rescored b b' -> cb_block_id b' = cb_block_id b.
Proof. by intros [->|(s & _ & ->)]. Qed.
Lemma score_block_ok scores counts b b' : score_block scores counts b = Ok b' -> rescored b b'.
Proof.
  unfold score_block. destruct (cb_required b) eqn:Hr; [intros [= <-]; by left|].
  destruct (counts !! cb_block_id b) as [cost|]; [|done]. intros [_ H]%raise_if_ok. do 2 apply raise_if_ok in H as [_ H].
  injection H as <-. right. by eexists.
Qed.
Lemma score_pack_ok blocks scores counts scored : _score_for_pack blocks scores counts = Ok scored -> Forall2 rescored blocks scored.
Proof. intros H%map_result_ok. eapply Forall2_impl; [exact H|]. apply score_block_ok. Qed.
Lemma canonical_elem candidates c : c ∈ canonical_candidates candidates -> c ∈ candidates.
Proof.
  unfold canonical_candidates. destruct (_deduplicate candidates) as [u d] eqn:E. cbn. destruct (deduplicate_ok _ _ _ E) as [<- _].
  intros Hc. apply elem_of_app. by left.
Qed.
Lemma canonical_unique candidates : NoDup (block_ids (canonical_candidates candidates)).
Proof. unfold canonical_candidates. destruct (_deduplicate candidates) as [u d] eqn:E. cbn. by destruct (deduplicate_ok _ _ _ E). Qed.

Section live.
Context `{Unicode}.
Variables (view : RequestView) (current_input : string) (opaque_token_cost fixed_required_cost : Z) (counter : TokenCounter)
  (budget_config : BudgetConfig).
Let packed_from := live_assemble view current_input opaque_token_cost fixed_required_cost counter budget_config.

(** A pack that passed every gate. *)
Record verified_pack (materialized : list CandidateBlock) (counts : Counts) (built : BuiltContextGraph) (r : EngineResult)
    (final : AssemblyResult) : Prop := {
  pack_assembled : exists scored, packed_from scored counts = Ok final;
  pack_result : er_outcome r = OUTCOME_ACTIVE /\ certificate_accepts (er_certificate r) = true;
  pack_selection b : b ∈ er_selected_blocks r -> cb_block_id b ∈ block_ids (ar_selected_blocks final);
  pack_required c : c ∈ materialized -> cb_required c = true -> cb_block_id c ∈ block_ids (ar_selected_blocks final);
  pack_closed a b : a ∈ materialized -> b ∈ materialized -> _companions a b = true ->
    cb_block_id a ∈ block_ids (ar_selected_blocks final) -> cb_block_id b ∈ block_ids (ar_selected_blocks final);
  pack_candidates b : b ∈ ar_selected_blocks final -> exists c, c ∈ materialized /\ rescored c b
    /\ forall e, e ∈ cb_source_event_ids b -> e ∈ qa_provenance_event_ids (bg_activation built);
  pack_budget : at_total_input_cost (ar_trace final) <= at_b_input (ar_trace final);
}.

Lemma assembled_elem candidates counts r b : packed_from candidates counts = Ok r -> b ∈ ar_selected_blocks r -> b ∈ candidates.
Proof.
  intros (n & c' & u & d & ? & ? & ? & ? & ? & ? & ? & Hd & _ & _ & _ & _ & _ & _ & Hp & _)%assemble_stages Hb.
  destruct Hp as (_ & Hu & _). apply canonical_elem. unfold canonical_candidates. rewrite Hd. by apply Hu.
Qed.
Lemma final_pack_verified materialized counts config built r final : NoDup (block_ids materialized) ->
  er_outcome r = OUTCOME_ACTIVE -> certificate_accepts (er_certificate r) = true ->
  final_pack view current_input opaque_token_cost fixed_required_cost counter budget_config materialized counts config built r = Ok final ->
  verified_pack materialized counts built r final.
Proof.
  intros Hnd Ho Hcert. unfold final_pack. intros (closure & Hc & Hf)%result_bind_ok. apply raise_if_ok in Hf as [Hprov Hf].
  apply result_bind_ok in Hf as (scored & Hs%score_pack_ok & Hf). apply result_bind_ok in Hf as (final' & Ha & Hf).
  apply raise_if_ok in Hf as [Hg [= ->]]. apply negb_false_iff in Hg. unfold final_gate in Hg.
  rewrite !andb_true_iff, !subset_of_spec, negb_true_iff in Hg. destruct Hg as [[[Hreq Hclos] Hb%Z.ltb_ge] Hval].
  assert (packed_from scored counts = Ok final) as Hpacked.
  { unfold packed_from. destruct (live_assemble _ _ _ _ _ _ scored counts) as [x|[]]; cbn in Ha; congruence. }
  pose proof (close_ids_spec (er_selected_blocks r) materialized (gc_max_coordinates config)) as Hspec.
  destruct (close_dependency_closure (er_selected_blocks r) _ _) as [cl|]; cbn in Hc; [|done]. injection Hc as ->.
  destruct Hspec as (s & -> & _ & _ & Hin & _ & _ & [Hst _] & _). split.
  - by exists scored.
  - done.
  - intros b Hsel. apply Hclos. apply list_elem_of_fmap. apply Hin in Hsel as Hin'. apply list_elem_of_fmap in Hin' as (c & Hid & Hc).
    exists c. split; [done|]. apply elem_of_filter_bool. split; [done|]. apply bool_decide_eq_true. rewrite <- Hid. by apply Hst.
  - intros c Hc Hr. apply Hreq, list_elem_of_fmap. exists c. split; [done|]. by apply elem_of_filter_bool.
  - apply validated_closure in Hval as (_ & _ & _ & Hcl & _). intros a b Hma Hmb Hab Hin'.
    assert (forall x, x ∈ materialized -> cb_block_id x ∈ ids_of (List.filter (fun item =>
      bool_decide (cb_block_id item ∈ block_ids (ar_selected_blocks final))) materialized)
      <-> cb_block_id x ∈ block_ids (ar_selected_blocks final)) as Hids.
    { intros x Hx. rewrite ids_elem. split.
      - intros (y & [Hy Hyf%bool_decide_eq_true]%elem_of_filter_bool & Hxy). by rewrite Hxy.
      - intros Hxf. exists x. split; [|done]. apply elem_of_filter_bool. split; [done|]. by apply bool_decide_eq_true. }
    apply Hids; [done|]. eapply Hcl; [exact Hma|done|done|]. by apply Hids.
  - intros b Hbf. apply (assembled_elem _ _ _ _ Hpacked) in Hbf. apply list_elem_of_lookup in Hbf as [i Hi].
    destruct (Forall2_lookup_r _ _ _ _ _ Hs Hi) as (c & Hci & Hresc). apply list_elem_of_lookup_2 in Hci.
    exists c. pose proof Hci as [Hm _]%elem_of_filter_bool. split_and!; [done..|]. intros e He.
    rewrite existsb_false_iff in Hprov. specialize (Hprov c Hci). cbn beta in Hprov. apply negb_false_iff in Hprov.
    assert (cb_source_event_ids b = cb_source_event_ids c) as Hev by by destruct Hresc as [->|(? & _ & ->)].
    exact (proj1 (subset_of_spec _ _) Hprov e ltac:(by rewrite <- Hev)).
  - done.
Qed.

(** ** Errors *)

(** The errors of a count: a budget error, or what the tokenizer raised. *)
Definition budget_failure (e : budget_error) : Prop :=
  (exists code, e = BudgetInvariantError code) \/ (e = TokenizerFailed /\ exists text, counter text = RaisedTokenizerError).
Lemma count_text_failure text e : _count_text counter text = Err e -> budget_failure e.
Proof.
  unfold _count_text. destruct (counter text) eqn:E; [|intros [= <-]..].
  - unfold _non_negative_cost, raise_if. destruct (_ <? _); [|done]. intros [= <-]. left. by eexists.
  - left. by eexists.
  - right. split; [done|]. by exists text.
  - left. by eexists.
Qed.
Lemma assemble_failure candidates counts e : assemble view candidates current_input opaque_token_cost fixed_required_cost counter
  budget_config counts = Err e -> budget_failure e.
Proof.
  intros [(text & Ht)|[->|[Hcode _]]]%assemble_error; [by eapply count_text_failure|left; by eexists|by left].
Qed.
(** What the final validation lets through. *)
Lemma final_pack_raised materialized counts config built r e :
  final_pack view current_input opaque_token_cost fixed_required_cost counter budget_config materialized counts config built r
    = Err (FinalRaised e) ->
  (e = LiveBudget TokenizerFailed /\ exists text, counter text = RaisedTokenizerError)
  \/ (e = LiveOverflowError /\ exists id cost, counts !! id = Some cost /\ f_is_finite (f_of_Z (Z.max 1 cost)) = false).
Proof.
  unfold final_pack. destruct (close_dependency_closure _ _ _) as [closure|]; cbn [final_closure mbind result_bind]; [|done].
  unfold raise_if at 1. destruct (existsb _ closure); [done|].
  destruct (_score_for_pack _ _ _) as [scored|e'] eqn:Es; cbn [mbind result_bind].
  - destruct (live_assemble _ _ _ _ _ _ scored counts) as [final|e'] eqn:Ea; cbn [final_assembly mbind result_bind].
    + unfold raise_if. by destruct (negb _).
    + apply assemble_failure in Ea as [[code ->]|[-> Ht]]; [done|]. intros [= <-]. by left.
  - intros [= ->]. right. unfold _score_for_pack in Es.
    induction closure as [|b l IH]; [done|]. cbn [map_result] in Es.
    destruct (score_block (_verified_scores r built) counts b) as [b'|e'] eqn:Eb; cbn [mbind result_bind] in Es.
    + destruct (map_result _ l) eqn:El; [done|]. apply IH. exact Es.
    + injection Es as ->. unfold score_block in Eb. destruct (cb_required b); [done|].
      destruct (counts !! cb_block_id b) as [cost|] eqn:Ecost; [|done]. unfold raise_if in Eb. destruct (cost <? 0); [done|].
      destruct (f_is_finite (f_of_Z (Z.max 1 cost))) eqn:Ef; cbn [negb] in Eb; [by destruct (negb _)|].
      injection Eb as <-. split; [done|]. by exists (cb_block_id b), cost.
Qed.

(** ** Fail-open *)

(** The counts the selection works with. *)
Definition resolved_counts (candidates : list CandidateBlock) (given : option Counts) : result budget_error Counts :=
  match given with None => count_candidate_blocks (canonical_candidates candidates) counter | Some counts => Ok counts end.
Lemma engine_selection_safe mode engine config materialized counts fallback built :
  NoDup (block_ids materialized) -> mode <> MODE_OFF ->
  match engine_selection view current_input opaque_token_cost fixed_required_cost counter budget_config mode engine config materialized
          counts fallback built with
  | Ok s => if eqb_of (lt_outcome (ls_trace s)) OUTCOME_ACTIVE
            then mode = MODE_ACTIVE /\ exists r, verified_pack materialized counts built r (ls_assembly s)
            else ls_assembly s = fallback
  | Err e => (e = LiveBudget TokenizerFailed /\ exists text, counter text = RaisedTokenizerError)
      \/ (e = LiveOverflowError /\ exists id cost, counts !! id = Some cost /\ f_is_finite (f_of_Z (Z.max 1 cost)) = false)
  end.
Proof.
  intros Hnd Hoff. unfold engine_selection. destruct (engine_run engine built mode) as [[r|] retries]; [|done].
  destruct (eqb_of mode MODE_SHADOW) eqn:Hm; unfold eqb_of in Hm; bool_hyps; [by destruct (eqb_of (er_outcome r) OUTCOME_SHADOW)|].
  destruct (negb _ || negb _) eqn:Hacc; [done|]. apply orb_false_iff in Hacc as [Ho%negb_false_iff Hc%negb_false_iff].
  unfold eqb_of in Ho. bool_hyps.
  destruct (final_pack _ _ _ _ _ _ _ _ _ _ _) as [final|[|e]] eqn:Hf; [|done|by eapply final_pack_raised].
  cbn. split; [by destruct mode|]. exists r. by eapply final_pack_verified.
Qed.

(** C11. The live selection fails open.  Whatever the engine does (raise, lie,
    degrade), the request gets the deterministic assembly of its candidates,
    unless the mode is [ACTIVE], every required source had a candidate, and the
    pack passed every gate: the engine's result was [ACTIVE] with an accepting
    certificate, the pack was assembled within the budget, it holds every
    required candidate, everything the engine selected and every companion of
    its blocks, and its blocks are candidates up to score and reason, with no
    event outside the graph's provenance.  The selection raises only what the
    counts or the deterministic assembly raise, a tokenizer's failure, or an
    overflow of a token count beyond the floats. *)
Theorem select_live_context_fails_open candidates given mode engine :
  match select_live_context view current_input opaque_token_cost fixed_required_cost counter budget_config candidates given mode engine with
  | Ok s => exists counts fallback, resolved_counts candidates given = Ok counts
      /\ packed_from (canonical_candidates candidates) counts = Ok fallback
      /\ if eqb_of (lt_outcome (ls_trace s)) OUTCOME_ACTIVE
         then mode = MODE_ACTIVE
           /\ required_candidates_complete view (canonical_candidates candidates) (satisfied_event_ids view current_input) = true
           /\ exists built r, build_context_graph view (canonical_candidates candidates) current_input
                                (default default_graph_config (es_config engine)) = Ok built
                /\ verified_pack (canonical_candidates candidates) counts built r (ls_assembly s)
         else ls_assembly s = fallback
  | Err e => (exists b, e = LiveBudget b
               /\ (resolved_counts candidates given = Err b
                   \/ exists counts, resolved_counts candidates given = Ok counts
                        /\ packed_from (canonical_candidates candidates) counts = Err b))
      \/ (e = LiveBudget TokenizerFailed /\ exists text, counter text = RaisedTokenizerError)
      \/ (e = LiveOverflowError /\ exists counts id cost, resolved_counts candidates given = Ok counts
           /\ counts !! id = Some cost /\ f_is_finite (f_of_Z (Z.max 1 cost)) = false)
  end.
Proof.
  unfold select_live_context. fold (resolved_counts candidates given).
  destruct (resolved_counts candidates given) as [counts|b] eqn:Hr; cbn [live_budget mbind result_bind]; [|left; exists b; auto].
  fold (packed_from (canonical_candidates candidates) counts).
  destruct (packed_from (canonical_candidates candidates) counts) as [fallback|b] eqn:Hp; cbn [live_budget mbind result_bind];
    [|left; exists b; split; [done|]; right; by exists counts].
  destruct (existsb _ _ || negb _) eqn:Hreq; [by exists counts, fallback|]. apply orb_false_iff in Hreq as [_ Hreq%negb_false_iff].
  destruct (eqb_of mode MODE_OFF) eqn:Hm; unfold eqb_of in Hm; bool_hyps; [by exists counts, fallback|].
  destruct (build_context_graph _ _ _ _) as [built|] eqn:Hb; [|by exists counts, fallback].
  pose proof (engine_selection_safe mode engine (default default_graph_config (es_config engine)) (canonical_candidates candidates) counts
                fallback built (canonical_unique candidates) Hm) as Hsafe.
  destruct (engine_selection _ _ _ _ _ _ _ _ _ _ _ _ _) as [s|e].
  - exists counts, fallback. split_and!; [done..|]. destruct (eqb_of _ OUTCOME_ACTIVE); [|done].
    destruct Hsafe as [Hmode [r Hr']]. split_and!; [done..|]. by exists built, r.
  - destruct Hsafe as [H'|(-> & id & cost & ? & ?)]; [by right; left|]. right; right. split; [done|]. by exists counts, id, cost.
Qed.
End live.

(** ** A run *)

Definition toy_budget : BudgetConfig :=
  {| bc_target_input_budget := 100; bc_hard_input_ceiling := 100; bc_model_context_limit := 200; bc_reserved_output_and_tools := 0;
     bc_safety_margin := 0 |}.
Definition toy_live (engine : ContextEngineSolver) (mode : ContextEngineMode) : option (EngineOutcome * option string * list string) :=
  match select_live_context (H := ascii_unicode) demo_view "ship" 0 0 Utf8ByteTokenCounter toy_budget toy_live_candidates None mode engine with
  | Ok s => Some (lt_outcome (ls_trace s), lt_error_code (ls_trace s), block_ids (ar_selected_blocks (ls_assembly s)))
  | Err _ => None
  end.
Definition toy_sparse : ContextEngineSolver := sparse_engine (H0 := plain_sum) (H1 := toy_gauss_numpy) default_graph_config.
(** An engine that raises, and one that claims a success it has no certificate for. *)
Definition raising_engine : ContextEngineSolver := {| es_config := None; es_solve := fun _ _ _ => None |}.
Definition lying_engine : ContextEngineSolver :=
  {| es_config := None; es_solve := fun _ _ _ => Some
       {| er_outcome := OUTCOME_ACTIVE; er_selected_blocks := []; er_activation_scores := []; er_certificate := None;
          er_error_code := None; er_solve_status := None; er_backend_name := None |} |}.
Example live_runs : [toy_live toy_sparse MODE_ACTIVE; toy_live toy_sparse MODE_SHADOW; toy_live raising_engine MODE_ACTIVE;
    toy_live lying_engine MODE_ACTIVE]
  = [Some (OUTCOME_ACTIVE, None, ["g"; "d"]); Some (OUTCOME_SHADOW, None, ["g"; "d"; "x"]);
     Some (DEGRADED_RAW, Some "LIVE_ENGINE_FAILURE", ["g"; "d"; "x"]); Some (DEGRADED_RAW, Some "LIVE_ENGINE_REJECTED", ["g"; "d"; "x"])].
Proof. vm_compute. reflexivity. Qed.
