(* ===== verification/Adapter.v ===== *)
(** The AstrBot adapter's own values ([adapters/astrbot.py]): how the identity
    of a turn is read off the host's objects, how the identifiers of its events
    are derived, how tool calls and results become bounded canonical metadata,
    and where a provider's message list is cut.  The host's objects are values
    that answer, or fail to answer, the reads the adapter makes of them. *)
From S2P Require Import Prelude PyString PyFloat Domain PyJson Store ToolLoop Budget.
From Stdlib Require SpecFloat String.
Open Scope string_scope.
Open Scope list_scope.
Open Scope Z_scope.

(** ** Failures *)

Inductive AdapterStage := STAGE_IDENTITY | STAGE_EVENT_IDENTITY | STAGE_TOOL_METADATA | STAGE_PROJECTION | STAGE_OPAQUE_COST.
Inductive AdapterErrorCode :=
| HOST_IDENTITY_MISSING | HOST_TIMESTAMP_INVALID | EVENT_IDENTITY_INVALID | TOOL_METADATA_INVALID | PROJECTION_IMPORT_UNAVAILABLE
| PROJECTION_API_UNAVAILABLE | PROJECTION_BUILD_FAILED | OPAQUE_TOKEN_COUNT_INVALID | JOURNAL_CONTENT_INVALID | COMPACTION_TARGET_INVALID
| MESSAGE_BOUNDARY_INVALID.
Record AdapterFault := { ft_code : AdapterErrorCode; ft_stage : AdapterStage; ft_missing_field_count : Z; ft_capability_available : bool }.
(** An [AstrBotAdapterError] with its fault, or another exception: text that
    cannot be encoded, an integer too long to print, a refused model. *)
Inductive adapter_error := AstrBotAdapterError (fault : AdapterFault) | OtherException.
(** [_raise] without a capability *)
Definition adapter_fault (code : AdapterErrorCode) (stage : AdapterStage) (missing : Z) : adapter_error :=
  AstrBotAdapterError {| ft_code := code; ft_stage := stage; ft_missing_field_count := missing; ft_capability_available := false |}.

(** ** Host identity *)

(** What reading an attribute or calling a getter gives: nothing, [None], a
    text, an enum member with a textual value, or something else. *)
Inductive HostValue := HostMissing | HostNone | HostText (s : string) | HostEnum (s : string) | HostOther.
(** A time: a [datetime], an integer, a float, or something else. *)
Inductive HostTime := TimeMoment (t : py_datetime) | TimeInt (n : Z) | TimeFloat (x : float) | TimeOther.
Record HostEvent := {
  he_platform_id : HostValue; he_sender_id : HostValue; he_group_id : HostValue;  (* the getters, through [_safe_call] *)
  he_message_type : HostValue; he_session_id : HostValue; he_message_id : HostValue; he_timestamp : HostTime;
}.
Record HostConversation := { hc_cid : HostValue; hc_persona_id : HostValue; hc_token_usage : option Z }.
(** [_required_text] *)
Definition _required_text (v : HostValue) : option string :=
  match v with HostText s => if is_blank s then None else Some s | _ => None end.
(** [_optional_text]; [None] is [_MISSING]. *)
Definition _optional_text (v : HostValue) : option (option string) :=
  match v with
  | HostNone => Some None
  | HostText s => if is_empty s then Some None else Some <$> _required_text v
  | _ => None
  end.
(** [_message_type_text] *)
Definition _message_type_text (v : HostValue) : option string :=
  match v with HostEnum s => _required_text (HostText s) | v => _required_text v end.
(** [datetime.fromtimestamp(value, timezone.utc)] for the years 1 to 9999 *)
Definition in_datetime_range (us : Z) : bool := (-62135596800 * US_PER_SECOND <=? us) && (us <? 253402300800 * US_PER_SECOND).
Definition timestamp_us (x : float) : Z :=
  match x with
  | SpecFloat.S754_finite s m e => whole_part s m e * US_PER_SECOND + float_round_half_even (f_mul (fraction_part s m e) (f_of_Z US_PER_SECOND))
  | _ => 0
  end.
(** [_host_datetime] *)
Definition _host_datetime (v : HostTime) : option Z :=
  let from_us us := if in_datetime_range us then Some us else None in
  match v with
  | TimeMoment (Aware instant) => Some instant
  | TimeInt n => from_us (n * US_PER_SECOND)
  | TimeFloat x => if f_is_finite x then from_us (timestamp_us x) else None
  | TimeMoment Naive | TimeOther => None
  end.
Definition count_none {A} (l : list (option A)) : Z := len (List.filter is_none l).
(** [extract_host_session_key] *)
Definition extract_host_session_key (event : HostEvent) (conversation : HostConversation) : result adapter_error SessionKey :=
  let required := [_required_text (he_platform_id event); _message_type_text (he_message_type event); _required_text (he_session_id event);
                   _required_text (he_sender_id event); _required_text (hc_cid conversation)] in
  let group_id := _optional_text (he_group_id event) in
  let persona_id := _optional_text (hc_persona_id conversation) in
  let twice (missing : bool) := if missing then 2 else 0 in
  let missing_count := count_none required + twice (is_none group_id) + twice (is_none persona_id) in
  raise (adapter_fault HOST_IDENTITY_MISSING STAGE_IDENTITY missing_count) when negb (missing_count =? 0);;
  match required, group_id, persona_id with
  | [Some platform_instance_id; Some message_type; Some session_id; Some user_id; Some conversation_id], Some group_id, Some persona_id =>
      Ok {| sk_platform_instance_id := platform_instance_id; sk_message_type := message_type; sk_session_id := session_id;
            sk_group_id := group_id; sk_user_id := user_id; sk_conversation_id := conversation_id; sk_persona_id := persona_id |}
  | _, _, _ => Err (adapter_fault HOST_IDENTITY_MISSING STAGE_IDENTITY 1)
  end.
Record HostTurnIdentity := { tu_session_key : SessionKey; tu_host_message_id : string; tu_created_at : Z; tu_request_identity : Z }.
(** [extract_host_turn_identity], of a request object with its identity *)
Definition extract_host_turn_identity (event : HostEvent) (conversation : HostConversation) (request_identity : Z)
    : result adapter_error HostTurnIdentity :=
  session_key ← extract_host_session_key event conversation;
  match _required_text (he_message_id event) with
  | None => Err (adapter_fault HOST_IDENTITY_MISSING STAGE_IDENTITY 1)
  | Some host_message_id =>
      match _host_datetime (he_timestamp event) with
      | None => Err (adapter_fault HOST_TIMESTAMP_INVALID STAGE_IDENTITY 1)
      | Some created_at =>
          Ok {| tu_session_key := session_key; tu_host_message_id := host_message_id; tu_created_at := created_at;
                tu_request_identity := request_identity |}
      end
  end.

(** ** Event identity *)

Definition source_hook_value (h : SourceHook) : string :=
  match h with
  | ON_LLM_REQUEST => "ON_LLM_REQUEST" | ON_AGENT_DONE => "ON_AGENT_DONE" | ON_USING_LLM_TOOL => "ON_USING_LLM_TOOL"
  | ON_LLM_TOOL_RESPOND => "ON_LLM_TOOL_RESPOND"
  end.
Record DeterministicEventIdentity := { di_event_id : string; di_idempotency_key : string }.
Section identity.
Context `{Sha256} `{FloatRepr}.
(** [_canonical_json] and its encoding: integers too long to print and lone
    surrogates raise. *)
Definition encoded_json (value : json) : result adapter_error string :=
  match _canonical_json value with
  | Some text => raise OtherException when negb (utf8_valid text);; Ok text
  | None => Err OtherException
  end.
Definition hashed_id (prefix : string) (payload : json) : result adapter_error string :=
  text ← encoded_json payload; Ok (prefix +:+ sha256_hexdigest text).
Definition idempotency_payload (turn : HostTurnIdentity) (source_hook : SourceHook) (ordinal : Z) (canonical_metadata : string) : json :=
  JObj [("canonical_metadata", JStr canonical_metadata); ("host_message_id", JStr (tu_host_message_id turn)); ("ordinal", JInt ordinal);
        ("source_hook", JStr (source_hook_value source_hook))].
Definition event_payload (turn : HostTurnIdentity) (source_hook : SourceHook) (idempotency_key : string) : json :=
  JObj [("idempotency_key", JStr idempotency_key); ("session_key_hash", JStr (session_key_hash (tu_session_key turn)));
        ("source_hook", JStr (source_hook_value source_hook))].
(** [deterministic_event_identity] *)
Definition deterministic_event_identity (turn : HostTurnIdentity) (source_hook : SourceHook) (ordinal : Z) (canonical_metadata : string)
    : result adapter_error DeterministicEventIdentity :=
  raise (adapter_fault EVENT_IDENTITY_INVALID STAGE_EVENT_IDENTITY 0) when ordinal <? 0;;
  idempotency_key ← hashed_id "ac1:" (idempotency_payload turn source_hook ordinal canonical_metadata);
  event_id ← hashed_id "evt:" (event_payload turn source_hook idempotency_key);
  Ok {| di_event_id := event_id; di_idempotency_key := idempotency_key |}.
(** The identifier of [AstrBotHookBridge.raise_compaction_intent] *)
Definition intent_payload (turn : HostTurnIdentity) (target_high_water_mark : Z) : json :=
  JObj [("host_message_id", JStr (tu_host_message_id turn)); ("session_key_hash", JStr (session_key_hash (tu_session_key turn)));
        ("target_high_water_mark", JInt target_high_water_mark)].
End identity.

(** ** Tool metadata *)

Definition _MAX_VALUE_DEPTH : nat := 4.
Definition _MAX_COLLECTION_ITEMS : Z := 16.
Definition _MAX_STRING_CHARACTERS : Z := 512.
Definition _MIN_METADATA_BYTES : Z := 128.
(** A Python value: the plain types, the containers with the name of their type,
    and any other object, of which only the type's name is used. *)
Inductive PyValue :=
| PyNone | PyBool (b : bool) | PyInt (n : Z) | PyFloat (x : float) | PyStr (s : string) | PyBytes (length : Z)
| PyMapping (type_name : string) (items : list (PyValue * PyValue))
| PySequence (type_name : string) (items : list PyValue)
| PyObject (type_name : string).
(** [_type_name] of a value the plain branches did not take. *)
Definition _type_name (v : PyValue) : string :=
  match v with
  | PyMapping name _ | PySequence name _ | PyObject name => name
  | PyBytes _ => "builtins.bytes" | PyFloat _ => "builtins.float" | PyStr _ => "builtins.str" | PyInt _ => "builtins.int"
  | PyBool _ => "builtins.bool" | PyNone => "builtins.NoneType"
  end.
(** [_bounded_text] *)
Definition _bounded_text (value : string) : json :=
  if py_len value <=? _MAX_STRING_CHARACTERS then JStr value
  else JObj [("text", JStr (take_chars (Z.to_nat _MAX_STRING_CHARACTERS) value)); ("truncated", JBool true); ("characters", JInt (py_len value))].
(** [sorted(items, key=...)] by a text *)
Fixpoint insert_keyed {A} (p : string * A) (l : list (string * A)) : list (string * A) :=
  match l with
  | [] => [p]
  | q :: rest => if str_leb p.1 q.1 then p :: l else q :: insert_keyed p rest
  end.
Definition sort_keyed {A} (l : list (string * A)) : list (string * A) := foldr insert_keyed [] l.
Section metadata.
Context `{FloatRepr}.
(** [_mapping_key]; [None] is the [ValueError] of an integer too long. *)
Definition _mapping_key (v : PyValue) : option string :=
  match v with
  | PyStr s => Some s
  | PyNone => _canonical_json JNull
  | PyBool b => _canonical_json (JBool b)
  | PyInt n => _canonical_json (JInt n)
  | PyFloat x => if f_is_finite x then _canonical_json (JFloat x) else Some ("<" +:+ _type_name v +:+ ">")
  | v => Some ("<" +:+ _type_name v +:+ ">")
  end.
(** [_canonical_value], with the levels left below [_MAX_VALUE_DEPTH] *)
Fixpoint _canonical_value (levels : nat) (v : PyValue) : option json :=
  match v with
  | PyNone => Some JNull
  | PyBool b => Some (JBool b)
  | PyInt n => Some (JInt n)
  | PyFloat x => Some (if f_is_finite x then JFloat x else JObj [("type", JStr "non_finite_float")])
  | PyStr s => Some (_bounded_text s)
  | PyBytes length => Some (JObj [("type", JStr "bytes"); ("length", JInt length)])
  | PyMapping _ _ | PySequence _ _ | PyObject _ =>
      match levels with
      | O => Some (JObj [("type", JStr (_type_name v)); ("truncated", JBool true)])
      | S levels =>
          match v with
          | PyMapping _ items =>
              keyed ← mapM (fun p => key ← _mapping_key p.1; Some (key, p.2)) items;
              let bounded := take_z _MAX_COLLECTION_ITEMS (sort_keyed keyed) in
              members ← mapM (fun p => value ← _canonical_value levels p.2; Some (p.1, value)) bounded;
              Some (JObj (py_dict (members ++ if len bounded <? len items then [("$truncated_items", JInt (len items - len bounded))] else [])))
          | PySequence _ items =>
              let bounded := take_z _MAX_COLLECTION_ITEMS items in
              values ← mapM (_canonical_value levels) bounded;
              Some (JArr (values ++ if len bounded <? len items then [JObj [("truncated_items", JInt (len items - len bounded))]] else []))
          | _ => Some (JObj [("type", JStr (_type_name v))])
          end
      end
  end.
(** A tool: a text, or an object with the attributes [_tool_name] reads. *)
Inductive HostTool := ToolText (s : string) | ToolObject (name tool_name dunder_name : HostValue) (type_name : string).
Definition _tool_name (tool : HostTool) : string :=
  match tool with
  | ToolText s => if is_blank s then "builtins.str" else s
  | ToolObject name tool_name dunder_name type_name =>
      match _required_text name, _required_text tool_name, _required_text dunder_name with
      | Some s, _, _ | None, Some s, _ | None, None, Some s => s
      | None, None, None => type_name
      end
  end.
(** The full payload of [canonical_tool_metadata]; [None] is a call. *)
Definition metadata_kind (tool_result : option PyValue) : string := if is_none tool_result then "call" else "result".
Definition metadata_payload (tool : HostTool) (tool_args : PyValue) (tool_result : option PyValue) : option json :=
  arguments ← _canonical_value _MAX_VALUE_DEPTH tool_args;
  result_members ← match tool_result with
                   | None => Some []
                   | Some value => result ← _canonical_value _MAX_VALUE_DEPTH value; Some [("result", result)]
                   end;
  Some (JObj ([("arguments", arguments); ("kind", JStr (metadata_kind tool_result)); ("tool", _bounded_text (_tool_name tool))] ++ result_members)).
(** [canonical_tool_metadata] *)
Definition canonical_tool_metadata (tool : HostTool) (tool_args : PyValue) (tool_result : option PyValue) (max_utf8_bytes : Z)
    : result adapter_error string :=
  raise (adapter_fault TOOL_METADATA_INVALID STAGE_TOOL_METADATA 0) when max_utf8_bytes <? _MIN_METADATA_BYTES;;
  match metadata_payload tool tool_args tool_result with
  | None => Err OtherException
  | Some payload =>
      encoded ← encoded_json payload;
      if utf8_length encoded <=? max_utf8_bytes then Ok encoded else
      fallback ← encoded_json (JObj [("kind", JStr (metadata_kind tool_result)); ("truncated", JBool true);
                                     ("utf8_bytes", JInt (utf8_length encoded))]);
      raise (adapter_fault TOOL_METADATA_INVALID STAGE_TOOL_METADATA 0) when max_utf8_bytes <? utf8_length fallback;;
      Ok fallback
  end.
End metadata.

(** ** Message lists *)

(** A field of a message part, and a message's content: what reading it gives. *)
Inductive HostField := FieldRaises | FieldText (s : string) | FieldOther.
Inductive HostPart := PartText (s : string) | PartFields (text image_url audio_url : HostField).
Inductive HostContent := ContentRaises | ContentText (s : string) | ContentParts (parts : list HostPart) | ContentOther.
Record HostMessage := { hm_identity : Z; hm_role : option string; hm_content : HostContent }.
Definition opaque_failure : adapter_error := adapter_fault OPAQUE_TOKEN_COUNT_INVALID STAGE_OPAQUE_COST 0.
(** [_content_texts] *)
Definition field_text (f : HostField) : result adapter_error (list string) :=
  match f with FieldRaises => Err opaque_failure | FieldText s => Ok [s] | FieldOther => Ok [] end.
Definition part_texts (p : HostPart) : result adapter_error (list string) :=
  match p with
  | PartText s => Ok [s]
  | PartFields text image_url audio_url => texts ← map_result field_text [text; image_url; audio_url]; Ok (concat texts)
  end.
Definition _content_texts (message : HostMessage) : result adapter_error (list string) :=
  match hm_content message with
  | ContentRaises => Err opaque_failure
  | ContentText s => Ok [s]
  | ContentParts parts => texts ← map_result part_texts parts; Ok (concat texts)
  | ContentOther => Ok []
  end.
(** [estimate_opaque_token_cost] *)
Definition add_opaque (counter : TokenCounter) (total : Z) (text : string) : result adapter_error Z :=
  match counter text with
  | Counted value => raise opaque_failure when value <? 0;; Ok (total + value)
  | _ => Err opaque_failure
  end.
Definition add_message (counter : TokenCounter) (total : Z) (message : HostMessage) : result adapter_error Z :=
  texts ← _content_texts message; fold_result (add_opaque counter) texts total.
Definition estimate_opaque_token_cost (objects : list HostMessage) (counter : TokenCounter) : result adapter_error Z :=
  fold_result (add_message counter) objects 0.
(** [select_projection_boundaries] *)
Fixpoint leading_system (messages : list HostMessage) : list HostMessage :=
  match messages with
  | message :: rest => if eqb_of (hm_role message) (Some "system") then message :: leading_system rest else []
  | [] => []
  end.
Definition select_projection_boundaries (messages : list HostMessage) : result adapter_error (list HostMessage * list HostMessage) :=
  match last messages with
  | Some final =>
      raise (adapter_fault MESSAGE_BOUNDARY_INVALID STAGE_PROJECTION 0) when negb (eqb_of (hm_role final) (Some "user"));;
      Ok (leading_system messages, [final])
  | None => Err (adapter_fault MESSAGE_BOUNDARY_INVALID STAGE_PROJECTION 0)
  end.
