(* ===== verification/AdapterProperties.v ===== *)
(** What the adapter guarantees of tool metadata: it is bounded, and a captured
    call pairs with its captured result exactly when nothing of either was cut;
    otherwise the session's tool loop is unreadable from then on. *)
From S2P Require Import Prelude PyString PyFloat Domain PyJson Store ToolLoop Budget Adapter.
From Stdlib Require Ascii String.
Open Scope string_scope.
Open Scope list_scope.
Open Scope Z_scope.

(** ** Sorting the keys of a value *)


(** ** Canonical values *)

Section values.
Context `{FloatRepr}.

(** ** Captured metadata *)


Lemma encoded_json_ok v text : encoded_json v = Ok text ->
  text = String.string_of_list_ascii (dumps_chars float_repr (sort_keys v)) /\ utf8_valid text = true.
Proof.
  unfold encoded_json, _canonical_json. destruct (printable v); [|done]. intros [Hv [= <-]]%raise_if_ok. split; [done|]. by apply negb_false_iff.
Qed.

(** ** What cutting a value means *)

(** Said of the value itself, not of what the adapter writes for it: no text is
    longer than 512 characters, no collection has more than sixteen items, and
    no collection or object lies below the fourth level. *)
Fixpoint kept_whole (levels : nat) (v : PyValue) : bool :=
  match v with
  | PyStr s => py_len s <=? 512
  | PyMapping _ items => match levels with O => false | S levels => (len items <=? 16) && forallb (fun p => kept_whole levels p.2) items end
  | PySequence _ items => match levels with O => false | S levels => (len items <=? 16) && forallb (kept_whole levels) items end
  | PyObject _ => match levels with O => false | S _ => true end
  | _ => true
  end.
(** The same of a call ([None]) or of a result, whose record holds the tool's
    name, the arguments and the value. *)
Definition record_values (args : PyValue) (res : option PyValue) : list PyValue := args :: match res with Some v => [v] | None => [] end.
Definition record_whole (tool : HostTool) (args : PyValue) (res : option PyValue) (max : Z) : bool :=
  (py_len (_tool_name tool) <=? 512) && forallb (kept_whole 4) (record_values args res)
  && match metadata_payload tool args res with
     | Some payload => match encoded_json payload with Ok text => utf8_length text <=? max | Err _ => false end
     | None => false
     end.



(** ** The loop of a captured call and its result *)

Lemma loop_step_unreadable events l index event : is_tool event = true -> _tool_fingerprint event = None -> loop_step events l (index, event) = None.
Proof. intros Ht Hf. unfold loop_step. rewrite Ht, Hf. destruct (match lp_previous l with Some _ => _ | None => _ end); [done|]. by destruct (match lp_session l with Some _ => _ | None => _ end). Qed.
Lemma enumerate_split {A} (l : list A) x : x ∈ l -> exists before after i, enumerate l = before ++ (i, x) :: after.
Proof.
  intros (a & b & ->)%list_elem_of_split. unfold enumerate. rewrite enumerate_from_app. cbn [enumerate_from]. by do 3 eexists.
Qed.
(** A tool event without a fingerprint makes the whole history unreadable. *)
Lemma unreadable_history events event : event ∈ events -> is_tool event = true -> _tool_fingerprint event = None ->
  evaluate_tool_loop events = _invalid_assessment /\ durable_event_units events = None.
Proof.
  intros Hin Ht Hf. assert (loop_run events loop_start (enumerate events) = None) as E.
  { destruct (enumerate_split _ _ Hin) as (before & after & i & ->). rewrite loop_run_app. destruct (loop_run events loop_start before); [|done].
    cbn [mbind option_bind loop_run]. by rewrite loop_step_unreadable. }
  unfold evaluate_tool_loop, durable_event_units, _parse_events. rewrite E. done.
Qed.
(** Captured metadata stays within the byte limit and can be encoded. *)
Lemma tool_metadata_bounded tool args res max text : canonical_tool_metadata tool args res max = Ok text ->
  utf8_length text <= max /\ utf8_valid text = true.
Proof.
  unfold canonical_tool_metadata. intros [_ H0]%raise_if_ok. destruct (metadata_payload tool args res); [|done].
  apply result_bind_ok in H0 as (encoded & He & H0). apply encoded_json_ok in He as [_ He]. destruct (Z.leb_spec (utf8_length encoded) max).
  - by injection H0 as <-.
  - apply result_bind_ok in H0 as (fallback & Hf & H0). apply raise_if_ok in H0 as [Hm [= <-]]. apply encoded_json_ok in Hf as [_ Hf]. split; [lia|done].
Qed.
End values.

(** ** A concrete loop *)

#[local] Instance toy_float_text : FloatRepr := fun _ => [].
Definition toy_key : SessionKey :=
  {| sk_platform_instance_id := "p"; sk_message_type := "m"; sk_session_id := "s"; sk_group_id := None; sk_user_id := "u";
     sk_conversation_id := "c"; sk_persona_id := None |}.
Definition toy_host_event (sequence : Z) (type : EventType) (content : string) : EventEnvelope :=
  {| ev_event_id := "e"; ev_session_key := toy_key; ev_sequence := sequence; ev_event_type := type; ev_role := match type with USER_MESSAGE => ROLE_USER | ASSISTANT_MESSAGE => ROLE_ASSISTANT | _ => ROLE_TOOL end; ev_content := content;
     ev_source_hook := ON_LLM_REQUEST; ev_idempotency_key := "k"; ev_token_count := 1; ev_created_at := 0 |}.
Definition toy_tool : HostTool := ToolText "search".
Definition toy_args : PyValue := PyMapping "builtins.dict" [(PyStr "query", PyStr "q"); (PyStr "limit", PyInt 3)].
Definition metadata_text (res : option PyValue) : string :=
  match canonical_tool_metadata toy_tool toy_args res 4096 with Ok text => text | Err _ => EmptyString end.
Definition toy_call : EventEnvelope := toy_host_event 1 TOOL_CALL (metadata_text None).
Definition toy_answer : EventEnvelope := toy_host_event 3 ASSISTANT_MESSAGE "done".
Example metadata_text_written : metadata_text None = String.concat (String.String Domain.quote EmptyString) ["{"; "arguments"; ":{"; "limit"; ":3,"; "query"; ":"; "q"; "},"; "kind"; ":"; "call"; ","; "tool"; ":"; "search"; "}"].
Proof. vm_compute. reflexivity. Qed.
(** An argument of its own named [truncated] is taken for the mark of a cut. *)
Definition marked_args : PyValue := PyMapping "builtins.dict" [(PyStr "truncated", PyBool false)].
Definition marked_event (sequence : Z) (type : EventType) (res : option PyValue) : EventEnvelope :=
  toy_host_event sequence type match canonical_tool_metadata toy_tool marked_args res 4096 with Ok text => text | Err _ => EmptyString end.
Example marked_call_unreadable :
  record_whole toy_tool marked_args None 4096 = true
  /\ durable_event_units [marked_event 1 TOOL_CALL None; marked_event 2 TOOL_RESULT (Some (PyStr "found")); toy_answer] = None.
Proof. split; vm_compute; reflexivity. Qed.
(** A result longer than 512 characters is cut, although only the arguments
    take part in the pairing: the answered call never completes, and no later
    event makes the session's history readable again. *)
Definition long_text : string := String.string_of_list_ascii (repeat (Ascii.ascii_of_nat 97) 513).
Definition long_result : EventEnvelope := toy_host_event 2 TOOL_RESULT (metadata_text (Some (PyStr long_text))).
Lemma long_result_blocks_session later : evaluate_tool_loop ([toy_call; long_result; toy_answer] ++ later) = _invalid_assessment.
Proof.
  apply (unreadable_history _ long_result); [right; left|reflexivity|vm_compute; reflexivity].
Qed.
