(* ===== verification/Bridge.v ===== *)
(** The hook bridge of [adapters/astrbot.py]: [AstrBotHookBridge] turns the
    host's callbacks into captures, reads and budget runs over the repository.
    Its calls are computations in the world of [Worker.v]: the store may change
    between any two of them, and each may find it locked or unreadable. *)
From S2P Require Import Prelude PyString PyFloat Domain PyJson Crypto Store ToolLoop Runtime Records TokenMetrics Journal Jobs Views Budget.
From S2P Require Import Pressure Tokenization RequestBudget Worker Matrix Backends GraphTypes Engine Retrieval Live Adapter.
Open Scope string_scope.
Open Scope list_scope.
Open Scope Z_scope.

Inductive bridge_error :=
| BridgeAdapterError (e : adapter_error)
| BridgeStorageError (e : worker_error)
| BridgeRetrievalError (e : retrieval_error)
| BridgeRequestError (e : request_error).

Record PreparedRequest := {
  pr_turn : HostTurnIdentity; pr_current_input : string; pr_user_event : EventEnvelope; pr_view : RequestView;
  pr_candidates : list CandidateBlock; pr_trusted_token_usage : option Z; pr_budget_profile : RequestBudgetProfile;
}.
(** The host's request: its identity, its prompt and its conversation. *)
Record BridgeRequest := { hq_identity : Z; hq_prompt : HostValue; hq_conversation : HostConversation }.

(** ** Counters *)

Definition CounterProvider := TokenizerProfile -> provided.
(** [_LazyTokenCounter], whose counter is constructed by the first count that succeeds in it. *)
Definition _LazyTokenCounter (provider : CounterProvider) (profile : TokenizerProfile) : CounterObject :=
  {| ct_profile := Some profile;
     ct_count_text := fun text =>
       match provider profile with
       | Provided counter => if eqb_of (ct_profile counter) (Some profile) then ct_count_text counter text else RaisedTokenizerError
       | ProviderTokenizerError | ProviderRaised => RaisedTokenizerError
       end |}.
(** [_ProfiledByteFallbackCounter] *)
Definition _ProfiledByteFallbackCounter : CounterObject := {| ct_profile := Some BYTE_FALLBACK; ct_count_text := Utf8ByteTokenCounter |}.
(** [_compatibility_cost] *)
Definition _compatibility_cost (content : string) : result adapter_error Z :=
  match Utf8ByteTokenCounter content with
  | Counted value => raise opaque_failure when value <? 0;; Ok value
  | _ => Err opaque_failure
  end.
(** [_canonical_observation] *)
Definition _canonical_observation (provider : CounterProvider) (content : string) : CanonicalMetricObservation :=
  {| co_tokenizer_profile_id := tp_profile_id CANONICAL_O200K;
     co_token_count :=
       match provider CANONICAL_O200K with
       | Provided counter =>
           if eqb_of (ct_profile counter) (Some CANONICAL_O200K)
           then match ct_count_text counter content with Counted value => if 0 <=? value then Some value else None | _ => None end
           else None
       | ProviderTokenizerError | ProviderRaised => None
       end |}.

(** ** The bridge *)

Definition _MAX_CONTEXT_TRACE_SESSIONS : Z := 256.
Record AstrBotHookBridge := {
  br_retrieval_config : RetrievalConfig; br_counter_provider : CounterProvider; br_context_engine_mode : ContextEngineMode;
  br_last_context_trace : option LiveContextTrace;
  br_context_traces : list (string * LiveContextTrace);   (* an [OrderedDict], the oldest session first *)
}.
(** [__init__], with the default request runner *)
Definition AstrBotHookBridge_new (retrieval_config : option RetrievalConfig) (counter_provider : CounterProvider) (mode : ContextEngineMode)
    : AstrBotHookBridge :=
  {| br_retrieval_config := default default_retrieval_config retrieval_config; br_counter_provider := counter_provider;
     br_context_engine_mode := mode; br_last_context_trace := None; br_context_traces := [] |}.

Section bridge.
Context `{Sha256}.
(** [inspect_context_trace] *)
Definition inspect_context_trace (b : AstrBotHookBridge) (session_key : SessionKey) : option LiveContextTrace :=
  snd <$> List.find (fun p => p.1 ==? session_key_hash session_key) (br_context_traces b).
(** [while len(traces) > _MAX_CONTEXT_TRACE_SESSIONS: traces.popitem(last=False)] *)
Definition evict_oldest (traces : list (string * LiveContextTrace)) : list (string * LiveContextTrace) :=
  drop (Z.to_nat (len traces - _MAX_CONTEXT_TRACE_SESSIONS)) traces.
(** [_remember_context_trace] *)
Definition _remember_context_trace (b : AstrBotHookBridge) (session_key : SessionKey) (trace : LiveContextTrace) : AstrBotHookBridge :=
  let session_hash := session_key_hash session_key in
  {| br_retrieval_config := br_retrieval_config b; br_counter_provider := br_counter_provider b; br_context_engine_mode := br_context_engine_mode b;
     br_last_context_trace := Some trace;
     br_context_traces := evict_oldest (List.filter (fun p => p.1 !=? session_hash) (br_context_traces b) ++ [(session_hash, trace)]) |}.

(** ** Captures *)

Definition adapted {A} (r : result adapter_error A) : W bridge_error A :=
  pure match r with Ok a => Ok a | Err e => Err (BridgeAdapterError e) end.
Definition stored {A} (m : W worker_error A) : W bridge_error A := catch m (fun e => raises (BridgeStorageError e)).
Context `{StorageCodec} `{Environment} `{Outside} `{FloatRepr}.
(** [_capture_with_metrics], in its thread *)
Definition _capture_with_metrics (b : AstrBotHookBridge)
    (capture : Nonces -> Z -> CanonicalMetricObservation -> db -> result repo_error EventEnvelope * db) (content : string) : W bridge_error EventEnvelope :=
  token_count ← adapted (_compatibility_cost content);
  stored (call_nonces (fun ns => capture ns token_count (_canonical_observation (br_counter_provider b) content))).
(** [read_tool_loop_state] *)
Definition read_tool_loop_state (session_key : SessionKey) : W bridge_error ToolLoopAssessment :=
  view ← stored (call_read (read_request_view session_key));
  mret (evaluate_tool_loop (rv_delta view)).
Definition capture_user (b : AstrBotHookBridge) (turn : HostTurnIdentity) (current_input : string) : W bridge_error EventEnvelope :=
  identity ← adapted (deterministic_event_identity turn ON_LLM_REQUEST 0 EmptyString);
  _capture_with_metrics b (fun ns token_count canonical =>
    capture_user_event ns (di_event_id identity) (tu_session_key turn) current_input (di_idempotency_key identity) token_count canonical
                       (Aware (tu_created_at turn))) current_input.
(** [capture_assistant] *)
Definition capture_assistant (b : AstrBotHookBridge) (prepared : PreparedRequest) (content : string) : W bridge_error EventEnvelope :=
  let turn := pr_turn prepared in
  identity ← adapted (deterministic_event_identity turn ON_AGENT_DONE 0 EmptyString);
  _capture_with_metrics b (fun ns token_count canonical =>
    capture_assistant_event ns (di_event_id identity) (tu_session_key turn) content (di_idempotency_key identity) token_count canonical
                            (Aware (tu_created_at turn))) content.
(** [_capture_tool] *)
Definition _capture_tool (b : AstrBotHookBridge) (prepared : PreparedRequest) (metadata : string) (event_type : EventType) (source_hook : SourceHook)
    (ordinal : Z) : W bridge_error EventEnvelope :=
  let turn := pr_turn prepared in
  identity ← adapted (deterministic_event_identity turn source_hook ordinal metadata);
  _capture_with_metrics b (fun ns token_count canonical =>
    capture_tool_event ns (di_event_id identity) (tu_session_key turn) event_type metadata (di_idempotency_key identity) token_count canonical
                       (Aware (tu_created_at turn))) metadata.
Definition _DEFAULT_METADATA_BYTES : Z := 4096.
(** [capture_tool_call] *)
Definition capture_tool_call (b : AstrBotHookBridge) (prepared : PreparedRequest) (tool : HostTool) (tool_args : PyValue) (ordinal : Z)
    : W bridge_error EventEnvelope :=
  metadata ← adapted (canonical_tool_metadata tool tool_args None _DEFAULT_METADATA_BYTES);
  _capture_tool b prepared metadata TOOL_CALL ON_USING_LLM_TOOL ordinal.
(** [capture_tool_result] *)
Definition capture_tool_result (b : AstrBotHookBridge) (prepared : PreparedRequest) (tool : HostTool) (tool_args tool_result : PyValue) (ordinal : Z)
    : W bridge_error EventEnvelope :=
  metadata ← adapted (canonical_tool_metadata tool tool_args (Some tool_result) _DEFAULT_METADATA_BYTES);
  _capture_tool b prepared metadata TOOL_RESULT ON_LLM_TOOL_RESPOND ordinal.
(** [raise_compaction_intent] *)
Definition bridge_compaction_intent (prepared : PreparedRequest) (target_high_water_mark : Z) : W bridge_error (option CompactionJobEnvelope) :=
  let turn := pr_turn prepared in
  _ ← adapted (raise (adapter_fault COMPACTION_TARGET_INVALID STAGE_EVENT_IDENTITY 0) when target_high_water_mark <? 1;; Ok tt);
  job_id ← adapted (hashed_id "job:" (intent_payload turn target_high_water_mark));
  stored (call (raise_compaction_intent job_id (tu_session_key turn) target_high_water_mark (Aware (tu_created_at turn)))).

(** ** Requests *)

Context `{Unicode}.
(** The candidates of the view, less those that quote the request's own event *)
Definition fallback_candidates (b : AstrBotHookBridge) (view : RequestView) (current_input : string) (user_event : EventEnvelope)
    : result bridge_error (list CandidateBlock) :=
  match select_candidates view current_input (br_retrieval_config b) with
  | Ok candidates => Ok (List.filter (fun c => negb (py_in (ev_event_id user_event) (cb_source_event_ids c))) candidates)
  | Err e => Err (BridgeRetrievalError e)
  end.
Definition trusted_usage (request : BridgeRequest) : option Z :=
  match hc_token_usage (hq_conversation request) with Some usage => if 0 <? usage then Some usage else None | None => None end.
(** [prepare_request] *)
Definition prepare_request (b : AstrBotHookBridge) (event : HostEvent) (request : BridgeRequest) (budget_profile : RequestBudgetProfile)
    : W bridge_error (option PreparedRequest) :=
  turn ← adapted (extract_host_turn_identity event (hq_conversation request) (hq_identity request));
  match hq_prompt request with
  | HostText current_input =>
      initial_view ← stored (call_read (read_request_view (tu_session_key turn)));
      if negb (eqb_of (ta_state (evaluate_tool_loop (rv_delta initial_view))) STABLE) then mret None else
      user_event ← capture_user b turn current_input;
      view ← stored (call_read (read_request_view (tu_session_key turn)));
      candidates ← pure (fallback_candidates b view current_input user_event);
      mret (Some {| pr_turn := turn; pr_current_input := current_input; pr_user_event := user_event; pr_view := view;
                    pr_candidates := candidates; pr_trusted_token_usage := trusted_usage request; pr_budget_profile := budget_profile |})
  | _ => raises (BridgeAdapterError (adapter_fault JOURNAL_CONTENT_INVALID STAGE_IDENTITY 0))
  end.
End bridge.

(** ** Evaluation *)

Section evaluation.
Context `{Sha256} `{Unicode} `{FloatSum} `{NumericLibraries}.
Definition prepared_workload (prepared : PreparedRequest) (host : HostBudgetView) : RequestBudgetWorkload :=
  {| rw_prepared := {| pb_current_input := pr_current_input prepared; pb_view := pr_view prepared; pb_candidates := pr_candidates prepared;
                       pb_trusted_token_usage := pr_trusted_token_usage prepared |};
     rw_host := host; rw_profile := pr_budget_profile prepared |}.
(** [assembly_runner]: the assembly, and the trace it leaves in its slot *)
Definition traced_runner (mode : ContextEngineMode) (view : RequestView) (candidates : list CandidateBlock) (current_input : string)
    (opaque_token_cost fixed_required_cost : Z) (counter : TokenCounter) (config : BudgetConfig) (block_token_counts : option Counts)
    : result budget_error (AssemblyResult * LiveContextTrace) :=
  match assemble_live_context view current_input opaque_token_cost fixed_required_cost counter config candidates block_token_counts mode with
  | Ok traced => Ok traced
  | Err (LiveBudget e) => Err e
  | Err LiveOverflowError => Err RunnerOverflowError
  end.
Definition live_assembly_runner (mode : ContextEngineMode) (view : RequestView) (candidates : list CandidateBlock) (current_input : string)
    (opaque_token_cost fixed_required_cost : Z) (counter : TokenCounter) (config : BudgetConfig) (block_token_counts : option Counts)
    : result budget_error AssemblyResult :=
  traced ← traced_runner mode view candidates current_input opaque_token_cost fixed_required_cost counter config block_token_counts; Ok traced.1.
(** The trace that the runner left in its slot during the run with this counter *)
Definition run_trace (mode : ContextEngineMode) (w : RequestBudgetWorkload) (counter : CounterObject) (profile : TokenizerProfile)
    : option LiveContextTrace :=
  let prepared := rw_prepared w in
  let costed :=
    s ← scoped counter (Some profile);
    costs ← request_costs s w;
    counted ← fold_result add_block (pb_candidates prepared) (∅, costs.2);
    Ok (costs, counted) in
  match costed, BudgetConfig_new (budget_config (rw_profile w)) with
  | Ok ((_, opaque_cost, fixed_cost, _, _), (counts, s)), Ok config =>
      match traced_runner mode (pb_view prepared) (pb_candidates prepared) (pb_current_input prepared) opaque_cost fixed_cost
              (scope_counter s) config (Some counts) with
      | Ok (_, trace) => Some trace
      | Err _ => None
      end
  | _, _ => None
  end.
(** [evaluate_prepared] *)
Definition evaluate_prepared (b : AstrBotHookBridge) (prepared : PreparedRequest) (host_budget_view : HostBudgetView)
    : result bridge_error RequestBudgetOutcome * AstrBotHookBridge :=
  let w := prepared_workload prepared host_budget_view in
  let mode := br_context_engine_mode b in
  let primary := _LazyTokenCounter (br_counter_provider b) (rb_tokenizer_profile (pr_budget_profile prepared)) in
  let fallback := _LazyTokenCounter (fun _ => Provided _ProfiledByteFallbackCounter) BYTE_FALLBACK in
  if negb (PreparedBudgetInput_valid (rw_prepared w)) then (Err (BridgeRequestError RequestValueError), b) else
  match run_request_budget (live_assembly_runner mode) w primary fallback with
  | Err e => (Err (BridgeRequestError e), b)
  | Ok outcome =>
      let trace := if ro_primary_result_discarded outcome then run_trace mode w fallback BYTE_FALLBACK
                   else run_trace mode w primary (rb_tokenizer_profile (rw_profile w)) in
      (Ok outcome,
       match trace with
       | Some trace => if ro_mutation_allowed outcome then _remember_context_trace b (tu_session_key (pr_turn prepared)) trace else b
       | None => b
       end)
  end.
End evaluation.
