(* ===== verification/BridgeProperties.v ===== *)
(** The hook bridge: a request prepared again writes nothing and gives the
    same answer, and the diagnostics it keeps stay bounded and current. *)
From S2P Require Import Prelude PyString PyFloat Domain PyJson Crypto Store Instances ToolLoop Runtime Records TokenMetrics Journal Jobs Views Budget.
From S2P Require Import Pressure Tokenization RequestBudget Worker Matrix Backends GraphTypes Engine EngineTotality GraphBuildProperties Retrieval Live RequestBudgetProperties Adapter Bridge.
Open Scope string_scope.
Open Scope list_scope.
Open Scope Z_scope.

(** ** A store nobody else uses *)

Section quiet.
Context `{Sha256, StorageCodecLaws, Environment, Outside, FloatRepr, Unicode}.
(** Nothing happens between the calls, and none of them is refused. *)
Record quiet : Prop := {
  quiet_others t d : others t d = d;
  quiet_trouble t : trouble t = None;
  quiet_nonces t : nonces_ok (nonces t);
}.
Definition ticked (w : World) (d : db) : World := {| w_db := d; w_tick := S (w_tick w) |}.
Definition stored_result {A} (r : result repo_error A) : result bridge_error A :=
  match r with Ok a => Ok a | Err e => Err (BridgeStorageError (FromRepository e)) end.
Lemma stored_call {A} (op : db -> result repo_error A * db) w : quiet ->
  stored (call op) w = (stored_result (op (w_db w)).1, ticked w (op (w_db w)).2).
Proof. intros [Ho Ht _]. unfold stored, catch, call. rewrite Ho, Ht. by destruct (op (w_db w)) as [[a|e] d]. Qed.
Lemma stored_nonces {A} (op : Nonces -> db -> result repo_error A * db) w : quiet ->
  stored (call_nonces op) w = (stored_result (op (nonces (w_tick w)) (w_db w)).1, ticked w (op (nonces (w_tick w)) (w_db w)).2).
Proof. intros Hq. unfold call_nonces. exact (stored_call (op (nonces (w_tick w))) w Hq). Qed.
Lemma stored_read {A} (op : db -> result repo_error A) w : quiet -> stored (call_read op) w = (stored_result (op (w_db w)), ticked w (w_db w)).
Proof. intros Hq. unfold call_read. by rewrite stored_call. Qed.
Lemma W_bind_run {E A B} (m : W E A) (f : A -> W E B) w : (m ≫= f) w = let (r, w1) := m w in match r with Ok a => f a w1 | Err e => (Err e, w1) end.
Proof. done. Qed.
Lemma W_bind_ok {E A B} (m : W E A) (f : A -> W E B) w b w2 : (m ≫= f) w = (Ok b, w2) -> exists a w1, m w = (Ok a, w1) /\ f a w1 = (Ok b, w2).
Proof. rewrite W_bind_run. destruct (m w) as [[a|e] w1]; [by eauto|done]. Qed.
Lemma stored_read_ok {A} (op : db -> result repo_error A) w a w1 : quiet -> stored (call_read op) w = (Ok a, w1) ->
  op (w_db w) = Ok a /\ w1 = ticked w (w_db w).
Proof. intros Hq. rewrite stored_read by done. destruct (op (w_db w)); [|done]. by intros [= -> <-]. Qed.
Lemma adapted_ok {A} (r : result adapter_error A) w a w1 : adapted r w = (Ok a, w1) -> r = Ok a /\ w1 = w.
Proof. unfold adapted, pure. destruct r; [|done]. by intros [= -> <-]. Qed.

(** ** Captures *)

Definition same_callback (turn turn' : HostTurnIdentity) : Prop :=
  tu_session_key turn' = tu_session_key turn /\ tu_host_message_id turn' = tu_host_message_id turn /\ tu_created_at turn' = tu_created_at turn.
Lemma same_identity turn turn' hook ordinal metadata : same_callback turn turn' ->
  deterministic_event_identity turn' hook ordinal metadata = deterministic_event_identity turn hook ordinal metadata.
Proof. intros (Hk & Hm & _). unfold deterministic_event_identity, idempotency_payload, event_payload. by rewrite Hk, Hm. Qed.
Lemma capture_user_replayed b turn turn' current_input w e w1 w' : quiet -> same_callback turn turn' ->
  capture_user b turn current_input w = (Ok e, w1) -> w_db w' = w_db w1 -> capture_user b turn' current_input w' = (Ok e, ticked w' (w_db w1)).
Proof.
  intros Hq Hs Hc Hw. pose proof Hs as (Hk & _ & Ht). unfold capture_user in *. rewrite (same_identity turn turn') by done.
  apply W_bind_ok in Hc as (identity & wi & [Hid ->]%adapted_ok & Hc). rewrite Hid. unfold _capture_with_metrics in *.
  apply W_bind_ok in Hc as (token_count & wt & [Hcost ->]%adapted_ok & Hc). rewrite W_bind_run. cbn [adapted pure]. rewrite W_bind_run, Hcost. cbn [adapted pure].
  set (canonical := _canonical_observation (br_counter_provider b) current_input) in *.
  rewrite stored_nonces in Hc |- * by done. rewrite Hw, Hk, Ht.
  destruct (capture_user_event (nonces (w_tick w)) _ _ _ _ _ _ _ (w_db w)) as [[e'|] d1] eqn:E; cbn [fst snd stored_result] in Hc; [|done].
  injection Hc as -> <-. cbn [ticked w_db] in *. unfold capture_user_event in *.
  rewrite (capture_replay_is_noop _ (nonces (w_tick w')) _ _ _ _ _ _ _ _ _ _ _ (quiet_nonces Hq _) E). reflexivity.
Qed.

(** ** A request prepared again *)

Definition prepared_again (prepared : PreparedRequest) (request : BridgeRequest) (profile : RequestBudgetProfile) : PreparedRequest :=
  let turn := pr_turn prepared in
  {| pr_turn := {| tu_session_key := tu_session_key turn; tu_host_message_id := tu_host_message_id turn; tu_created_at := tu_created_at turn;
                   tu_request_identity := hq_identity request |};
     pr_current_input := pr_current_input prepared; pr_user_event := pr_user_event prepared; pr_view := pr_view prepared;
     pr_candidates := pr_candidates prepared; pr_trusted_token_usage := pr_trusted_token_usage prepared; pr_budget_profile := profile |}.
Lemma turn_identity_again event conversation i i' turn : extract_host_turn_identity event conversation i = Ok turn ->
  extract_host_turn_identity event conversation i'
  = Ok {| tu_session_key := tu_session_key turn; tu_host_message_id := tu_host_message_id turn; tu_created_at := tu_created_at turn; tu_request_identity := i' |}.
Proof.
  unfold extract_host_turn_identity. destruct (extract_host_session_key event conversation); [|done]. cbn [mbind result_bind].
  destruct (_required_text _); [|done]. destruct (_host_datetime _); [|done]. by intros [= <-].
Qed.
(** C8. Preparing a request is idempotent.  When the host delivers the same
    event again, with the same prompt and conversation but possibly another
    request object and another budget profile, and nobody else uses the store
    in between, the second preparation leaves every table as the first left it
    and gives the same captured event, view and candidates, as long as the tool
    loop of that view is complete. *)
Theorem prepare_request_again b event request request' profile profile' w prepared w1 : quiet ->
  prepare_request b event request profile w = (Ok (Some prepared), w1) ->
  hq_prompt request' = hq_prompt request -> hq_conversation request' = hq_conversation request ->
  exists w2, w_db w2 = w_db w1 /\ prepare_request b event request' profile' w1
    = (Ok (if eqb_of (ta_state (evaluate_tool_loop (rv_delta (pr_view prepared)))) STABLE then Some (prepared_again prepared request' profile') else None), w2).
Proof.
  intros Hq Hp Hprompt Hconv. unfold prepare_request in *. rewrite Hprompt, Hconv. unfold trusted_usage in *. rewrite Hconv.
  apply W_bind_ok in Hp as (turn & wa & [Hturn ->]%adapted_ok & Hp). rewrite W_bind_run, (turn_identity_again _ _ _ (hq_identity request') _ Hturn).
  cbn [adapted pure tu_session_key]. destruct (hq_prompt request) as [| |current_input| |]; try done.
  apply W_bind_ok in Hp as (initial & wb & [_ ->]%stored_read_ok & Hp); [|done].
  destruct (negb _); [done|]. apply W_bind_ok in Hp as (user_event & wc & Hc & Hp).
  apply W_bind_ok in Hp as (view & wd & [Hview ->]%stored_read_ok & Hp); [|done].
  apply W_bind_ok in Hp as (candidates & we & Hcand & Hp). unfold pure in Hcand. injection Hcand as Hcand <-. injection Hp as <- <-.
  cbn [pr_view ticked w_db] in *. rewrite W_bind_run, stored_read by done. cbn [ticked w_db]. rewrite Hview. cbn [stored_result].
  destruct (eqb_of (ta_state (evaluate_tool_loop (rv_delta view))) STABLE) eqn:Estable; cbn [negb].
  2:{ eexists. split; [|reflexivity]. done. }
  set (turn' := {| tu_session_key := tu_session_key turn; tu_host_message_id := _; tu_created_at := _; tu_request_identity := _ |}).
  rewrite W_bind_run, (capture_user_replayed b turn turn' current_input _ user_event wc _ Hq ltac:(done) Hc) by done.
  rewrite W_bind_run, stored_read by done. cbn [ticked w_db]. rewrite Hview. cbn [stored_result]. rewrite W_bind_run. unfold pure. rewrite Hcand.
  eexists. split; [|reflexivity]. done.
Qed.
End quiet.

(** ** The diagnostics *)

Section traces.
Context `{Sha256, Unicode, FloatSum, NumericLibraries}.
(** At most 256 sessions, each once, the last one evaluated at the end. *)
Definition traces_inv (b : AstrBotHookBridge) : Prop :=
  NoDup (map fst (br_context_traces b)) /\ len (br_context_traces b) <= _MAX_CONTEXT_TRACE_SESSIONS
  /\ br_last_context_trace b = snd <$> last (br_context_traces b).
Lemma remember_trace_inv b k trace : traces_inv b -> traces_inv (_remember_context_trace b k trace)
  /\ inspect_context_trace (_remember_context_trace b k trace) k = Some trace.
Proof.
  intros (Hn & Hl & _). unfold _remember_context_trace, traces_inv, inspect_context_trace. cbn [br_context_traces br_last_context_trace].
  set (kept := List.filter (fun p => p.1 !=? session_key_hash k) (br_context_traces b)).
  assert (Hkn : NoDup (map fst kept)) by by apply NoDup_map_filter.
  assert (Hk : session_key_hash k ∉ map fst kept).
  { intros (p & E & Hp)%list_elem_of_fmap. apply elem_of_filter_bool in Hp as [_ Hp]. rewrite <- E, (proj2 (py_eq_leibniz _ _) eq_refl) in Hp. done. }
  assert (Hlen : len kept <= _MAX_CONTEXT_TRACE_SESSIONS).
  { etrans; [|exact Hl]. unfold len, kept. apply inj_le, List.filter_length_le. }
  unfold evict_oldest. set (n := Z.to_nat _). assert (Hd : (n <= length kept)%nat) by (unfold n, len, _MAX_CONTEXT_TRACE_SESSIONS in *; rewrite length_app; cbn [length]; lia).
  rewrite drop_app_le by done. split; [split_and!|].
  - rewrite map_app, <- skipn_map. cbn. apply NoDup_app. split_and!; [|intros x Hx ->%list_elem_of_singleton; by apply Hk; eapply subseteq_drop|apply NoDup_singleton].
    eapply sublist_NoDup; [exact Hkn|apply sublist_drop].
  - unfold len in *. rewrite length_app, length_drop. cbn. unfold n. rewrite length_app. cbn [length]. unfold _MAX_CONTEXT_TRACE_SESSIONS in *. lia.
  - by rewrite last_snoc.
  - rewrite find_snoc; [reflexivity| |cbn; by apply py_eq_leibniz]. apply find_none_ext. intros p Hp%(subseteq_drop n).
    apply elem_of_filter_bool in Hp as [_ Hp]. by apply negb_true_iff in Hp.
Qed.
(** The run whose outcome lets the request be changed left a trace. *)
Lemma run_leaves_trace mode w counter profile o : run_with (live_assembly_runner mode) w counter profile = Ok o ->
  ro_mutation_allowed o = true -> is_some (run_trace mode w counter profile) = true.
Proof.
  unfold run_with, run_trace. intros (s & Hs & Hr0)%result_bind_ok Hm. rewrite Hs. cbn [mbind result_bind]. unfold _run_once in Hr0.
  assert (Hout : forall s pressure assembly code, request_outcome s pressure assembly code = Ok o -> is_some assembly = true).
  { intros s' pr assembly code. unfold request_outcome. intros [_ [= <-]]%raise_if_ok. exact Hm. }
  destruct (effective_input_budget (rw_profile w) <? 1); [by apply Hout in Hr0|].
  apply result_bind_ok in Hr0 as (costs & Hcosts & Hr0). rewrite Hcosts. cbn [mbind result_bind].
  destruct costs as [[[[host_cost opaque_cost] fixed_cost] current_cost] s']. cbn [snd] in *.
  apply result_bind_ok in Hr0 as (config & _ & Hr0). apply result_bind_ok in Hr0 as (pressure & _ & Hr0).
  destruct (pd_should_project pressure); [|by apply Hout in Hr0].
  apply result_bind_ok in Hr0 as (projected & Hp & Hr0). destruct projected as [assembly|]; [|by apply Hout in Hr0].
  unfold request_projection in Hp. apply result_bind_ok in Hp as ([counts s2] & Hcounted & Hp). rewrite Hcounted. cbn [mbind result_bind fst snd] in *.
  destruct (BudgetConfig_new _) as [config'|]; [|done]. unfold live_assembly_runner in Hp.
  destruct (traced_runner _ _ _ _ _ _ _ _ _) as [[a trace]|[[]| | | |]]; done.
Qed.
Lemma is_some_Some {A} (o : option A) : is_some o = true -> exists a, o = Some a.
Proof. destruct o; [by eauto|done]. Qed.
Lemma run_not_discarded mode w counter profile o : run_with (live_assembly_runner mode) w counter profile = Ok o -> ro_primary_result_discarded o = false.
Proof.
  unfold run_with. intros (s & Hs & Hr0)%result_bind_ok. unfold _run_once in Hr0.
  assert (Hout : forall s pressure assembly code, request_outcome s pressure assembly code = Ok o -> ro_primary_result_discarded o = false).
  { intros s' pr assembly code. unfold request_outcome. by intros [_ [= <-]]%raise_if_ok. }
  destruct (effective_input_budget (rw_profile w) <? 1); [by apply Hout in Hr0|].
  apply result_bind_ok in Hr0 as (costs & Hcosts & Hr0). destruct costs as [[[[host_cost opaque_cost] fixed_cost] current_cost] s'].
  apply result_bind_ok in Hr0 as (config & _ & Hr0). apply result_bind_ok in Hr0 as (pressure & _ & Hr0).
  destruct (pd_should_project pressure); [|by apply Hout in Hr0].
  apply result_bind_ok in Hr0 as (projected & Hp & Hr0). by destruct projected; apply Hout in Hr0.
Qed.
(** The bridge's diagnostics: evaluating a prepared request keeps at most
    256 sessions, each once and the latest last; a request that may be changed
    leaves its trace as the session's and as the last one, whichever of the two
    counters the run used, and any other outcome, an exception included, leaves
    the diagnostics alone. *)
Theorem evaluate_prepared_traces b prepared host : traces_inv b ->
  let (r, b') := evaluate_prepared b prepared host in
  traces_inv b' /\ br_counter_provider b' = br_counter_provider b /\ br_context_engine_mode b' = br_context_engine_mode b
  /\ br_retrieval_config b' = br_retrieval_config b
  /\ match r with
     | Ok o =>
         if ro_mutation_allowed o
         then exists trace, br_last_context_trace b' = Some trace /\ inspect_context_trace b' (tu_session_key (pr_turn prepared)) = Some trace
         else b' = b
     | Err _ => b' = b
     end.
Proof.
  intros Hb. unfold evaluate_prepared. destruct (negb _); [by split_and!|].
  set (w := prepared_workload prepared host). set (mode := br_context_engine_mode b). set (primary := _LazyTokenCounter _ _). set (fallback := _LazyTokenCounter _ _).
  destruct (run_request_budget _ w primary fallback) as [o|e] eqn:Hrun; [|by split_and!].
  assert (Htrace : ro_mutation_allowed o = true -> is_some (if ro_primary_result_discarded o then run_trace mode w fallback BYTE_FALLBACK
    else run_trace mode w primary (rb_tokenizer_profile (rw_profile w))) = true).
  { unfold run_request_budget in Hrun. apply result_bind_ok in Hrun as (u & _ & Hrun). intros Hm.
    destruct (run_with _ w primary _) as [o'|e] eqn:E.
    - injection Hrun as ->. rewrite (run_not_discarded _ _ _ _ _ E). by eapply run_leaves_trace.
    - destruct (tokenizer_failure e); [|done]. apply result_bind_ok in Hrun as (o' & E' & [= <-]). cbn in Hm |- *. by eapply run_leaves_trace. }
  destruct (ro_mutation_allowed o) eqn:Hm.
  - destruct (is_some_Some _ (Htrace eq_refl)) as (trace & ->). destruct (remember_trace_inv b (tu_session_key (pr_turn prepared)) trace Hb) as [Hi Hl].
    split_and!; [exact Hi|done..|]. exists trace. by split.
  - assert (Hsame : match (if ro_primary_result_discarded o then run_trace mode w fallback BYTE_FALLBACK else run_trace mode w primary (rb_tokenizer_profile (rw_profile w)))
      with Some _ => b | None => b end = b) by by destruct (if ro_primary_result_discarded o then _ else _).
    rewrite Hsame. by split_and!.
Qed.
End traces.

(** ** A concrete bridge *)

Section bridge_witnesses.
#[local] Existing Instance toy_sha256.
#[local] Existing Instance toy_storage.
#[local] Existing Instance toy_environment.
#[local] Existing Instance toy_storage_laws.
#[local] Instance toy_float_digits : FloatRepr := fun _ => [].
#[local] Instance quiet_outside : Outside :=
  { clock := fun _ => Aware 20; others := fun _ d => d; trouble := fun _ => None; nonces := fun _ => toy_nonces; beats := fun _ => 0%nat;
    heartbeat_ended := fun _ => None }.
#[local] Existing Instance ascii_unicode.
Lemma toy_quiet : quiet.
Proof. split; intros; [reflexivity|reflexivity|exact toy_nonces_ok]. Qed.
Definition toy_bridge : AstrBotHookBridge := AstrBotHookBridge_new None (fun _ => ProviderRaised) MODE_OFF.
Definition toy_event : HostEvent :=
  {| he_platform_id := HostText "p"; he_sender_id := HostText "u"; he_group_id := HostNone; he_message_type := HostEnum "m";
     he_session_id := HostText "s"; he_message_id := HostText "message-1"; he_timestamp := TimeInt 5 |}.
Definition toy_host_request (identity : Z) : BridgeRequest :=
  {| hq_identity := identity; hq_prompt := HostText "hello";
     hq_conversation := {| hc_cid := HostText "c"; hc_persona_id := HostNone; hc_token_usage := Some 90 |} |}.
Definition toy_profile : RequestBudgetProfile := rw_profile toy_request.
Definition toy_world : World := {| w_db := empty_db; w_tick := 0 |}.
Definition toy_preparation : option PreparedRequest * World := Eval vm_compute in
  match prepare_request toy_bridge toy_event (toy_host_request 1) toy_profile toy_world with
  | (Ok prepared, w) => (prepared, w)
  | (Err _, w) => (None, w)
  end.
(** The first delivery captures one event; the view that follows holds it. *)
Example first_preparation :
  (prepared ← toy_preparation.1; Some (len (rv_delta (pr_view prepared)), len (pr_candidates prepared), pr_trusted_token_usage prepared),
   len (journal_events (w_db toy_preparation.2)))
  = (Some (1, 0, Some 90), 1).
Proof. vm_compute. reflexivity. Qed.
Lemma prepare_request_again_witness : exists prepared w2,
  toy_preparation = (Some prepared, toy_preparation.2) /\ w_db w2 = w_db toy_preparation.2
  /\ prepare_request toy_bridge toy_event (toy_host_request 2) toy_profile toy_preparation.2
     = (Ok (Some (prepared_again prepared (toy_host_request 2) toy_profile)), w2).
Proof.
  destruct toy_preparation.1 as [prepared|] eqn:E; [|discriminate E]. exists prepared.
  destruct (prepare_request_again toy_bridge toy_event (toy_host_request 1) (toy_host_request 2) toy_profile toy_profile toy_world prepared toy_preparation.2
    toy_quiet) as (w2 & Hdb & Hrun).
  - injection E as <-. vm_compute. reflexivity.
  - reflexivity.
  - reflexivity.
  - exists w2. split; [|split; [exact Hdb|]].
    + injection E as <-. reflexivity.
    + rewrite Hrun. injection E as <-. reflexivity.
Defined.

(** A provider that cannot construct its tokenizer: the bytes are counted. *)
Definition toy_prepared : PreparedRequest :=
  {| pr_turn := {| tu_session_key := example_key; tu_host_message_id := "m"; tu_created_at := 5; tu_request_identity := 1 |};
     pr_current_input := "hi"; pr_user_event := toy_event1; pr_view := pb_view (rw_prepared toy_request);
     pr_candidates := pb_candidates (rw_prepared toy_request); pr_trusted_token_usage := None; pr_budget_profile := toy_profile |}.
Definition toy_evaluation : result bridge_error RequestBudgetOutcome * AstrBotHookBridge :=
  evaluate_prepared (H1 := plain_sum) (H2 := toy_gauss_numpy) toy_bridge toy_prepared (rw_host toy_request).
Example toy_evaluation_projects :
  match toy_evaluation with (Ok o, b) => Some (ro_mutation_allowed o, ro_fallback_code o, len (br_context_traces b)) | _ => None end
  = Some (true, _TOKENIZER_BYTE_FALLBACK, 1).
Proof. vm_compute. reflexivity. Qed.
Lemma evaluate_prepared_traces_witness : traces_inv toy_evaluation.2.
Proof.
  unfold toy_evaluation.
  assert (Hb : traces_inv toy_bridge) by (split; [constructor|split; [vm_compute; discriminate|reflexivity]]).
  pose proof (evaluate_prepared_traces (H1 := plain_sum) (H2 := toy_gauss_numpy) toy_bridge toy_prepared (rw_host toy_request) Hb) as Ht.
  destruct (evaluate_prepared toy_bridge toy_prepared (rw_host toy_request)) as [r b]. exact (proj1 Ht).
Defined.
End bridge_witnesses.
