(* ===== verification/Thinking.v ===== *)
(** The egress compatibility of [adapters/provider_thinking.py]: the
    request-local projection of assistant messages into a protocol-neutral
    shape, the recognition of target models, and the rewriting of one provider
    call.  The wrappers that apply it are in [Wrapping.v].

    Host values are what Python code can see of them: texts, lists, mappings,
    and objects that answer or refuse attribute reads and two methods.  An
    enumeration member with a textual value reads as its text. *)
From S2P Require Import Prelude PyString PyFloat Domain PyJson.
From Stdlib Require Import Ascii.
From Stdlib Require String.
Open Scope string_scope.
Open Scope list_scope.
Open Scope Z_scope.

(** ** Host values *)

(** The keys of a mapping are texts, or something else ([None]). *)
Inductive host_value :=
| HvNone | HvBool (b : bool) | HvOther                    (* a number or another hashable value *)
| HvText (s : string)
| HvList (items : list host_value)
| HvMap (entries : list (option string * host_value))
| HvObject (attributes : list (string * host_value)) (model_dump to_openai_messages : method_answer)
with method_answer := NotCallable | MethodRaises | MethodReturns (v : host_value).
Definition entries_of := list (option string * host_value).
(** [ThinkingCompatibilityBlockedError], or the [TypeError] of an unhashable value *)
Inductive thinking_error := Blocked (code : string) | UnhashableTypeError.
Abbreviation thinking := (result thinking_error).

(** [mapping.get(key)], [key in mapping] *)
Definition map_entry (m : entries_of) (key : string) : option host_value := snd <$> List.find (fun p => eqb_of p.1 (Some key)) m.
Definition get (m : entries_of) (key : string) : host_value := default HvNone (map_entry m key).
Definition has_key (m : entries_of) (key : string) : bool := is_some (map_entry m key).
(** [all(key in allowed for key in mapping)] *)
Definition keys_within (allowed : list string) (m : entries_of) : bool :=
  forallb (fun p => match p.1 with Some key => py_in key allowed | None => false end) m.
Definition record_of (fields : list (string * host_value)) : host_value := HvMap (map (fun p => (Some p.1, p.2)) fields).
Definition attribute (attributes : list (string * host_value)) (name : string) : option host_value :=
  snd <$> List.find (fun p => p.1 ==? name) attributes.
Definition text_of (v : option host_value) : option string := match v with Some (HvText s) => Some s | _ => None end.
Definition unhashable (v : option host_value) : bool := match v with Some (HvList _) | Some (HvMap _) => true | _ => false end.

Definition _SAFE_ASSISTANT_FIELDS : list string := ["role"; "content"; "tool_calls"; "tool_call_id"].
Definition _NATIVE_ASSISTANT_METADATA_FIELDS : list string := ["reasoning_content"; "reasoning"; "reasoning_signature"; "signature"; "encrypted"].
Definition _NATIVE_PART_METADATA_FIELDS : list string := ["signature"; "encrypted"].
Definition _THINKING_PART_TYPES : list string := ["think"; "thinking"; "redacted_thinking"].
Definition _PLAIN_PART_TYPES : list string := ["text"; "image_url"; "audio_url"].
Definition _REASONING_TEXT_PREFIX : string := "[assistant reasoning]" +:+ newline.
Definition _REDACTED_REASONING_TEXT : string := "[assistant reasoning redacted]".
(** [_reasoning_text], [_plain_text] *)
Definition _reasoning_text (value : string) : string := _REASONING_TEXT_PREFIX +:+ value.
Definition _plain_text (v : option host_value) : option string := text_of v.

(** ** Content parts *)

(** [_part_value]; [None] is [_MISSING]. *)
Definition _part_value (part : host_value) (key : string) : option host_value :=
  match part with
  | HvMap m => Some (get m key)
  | HvObject attributes _ _ => attribute attributes key
  | _ => None
  end.
(** [_safe_media_value] *)
Definition _safe_media_value (v : option host_value) : thinking host_value :=
  match v with
  | Some (HvText s) => Ok (HvText s)
  | Some (HvMap m) =>
      raise (Blocked "MEDIA_PART_UNSAFE") when negb (keys_within ("url" :: "id" :: _NATIVE_PART_METADATA_FIELDS) m);;
      match get m "url" with
      | HvText url =>
          Ok (record_of (("url", HvText url) :: match get m "id" with HvText media_id => [("id", HvText media_id)] | _ => [] end))
      | _ => Err (Blocked "MEDIA_PART_INVALID")
      end
  | _ => Err (Blocked "MEDIA_PART_INVALID")
  end.
Definition text_part (text : string) : host_value := record_of [("type", HvText "text"); ("text", HvText text)].
(** [require_allowed] *)
Definition require_allowed (part : host_value) (allowed : list string) : thinking unit :=
  match part with
  | HvMap m => raise (Blocked "CONTENT_PART_UNSAFE") when negb (keys_within (allowed ++ _NATIVE_PART_METADATA_FIELDS) m);; Ok tt
  | _ => Ok tt
  end.
Definition thinking_note (text : option string) : thinking (option host_value * option string) :=
  match text with Some text => Ok (None, Some (_reasoning_text text)) | None => Err (Blocked "THINKING_TEXT_UNAVAILABLE") end.
(** [_safe_content_part] *)
Definition _safe_content_part (part : host_value) : thinking (option host_value * option string) :=
  match _part_value part "type" with
  | Some (HvText part_type) =>
      if part_type ==? "text" then
        _ ← require_allowed part ["type"; "text"];
        match _plain_text (_part_value part "text") with
        | None => Err (Blocked "TEXT_PART_INVALID")
        | Some text => Ok (Some (text_part text), None)
        end
      else if part_type ==? "think" then
        _ ← require_allowed part ["type"; "think"]; thinking_note (_plain_text (_part_value part "think"))
      else if part_type ==? "thinking" then
        _ ← require_allowed part ["type"; "thinking"; "text"];
        thinking_note (match _plain_text (_part_value part "thinking") with Some text => Some text | None => _plain_text (_part_value part "text") end)
      else if part_type ==? "redacted_thinking" then
        _ ← require_allowed part ["type"; "data"]; Ok (None, Some _REDACTED_REASONING_TEXT)
      else if py_in part_type ["image_url"; "audio_url"] then
        _ ← require_allowed part ["type"; part_type];
        value ← _safe_media_value (_part_value part part_type);
        Ok (Some (record_of [("type", HvText part_type); (part_type, value)]), None)
      else Err (Blocked "CONTENT_PART_UNSUPPORTED")
  | _ => Err (Blocked "CONTENT_PART_TYPE_INVALID")
  end.

(** ** Assistant messages *)

Definition dumped_mapping (answer : method_answer) (unavailable failed invalid : string) : thinking entries_of :=
  match answer with
  | NotCallable => Err (Blocked unavailable)
  | MethodRaises => Err (Blocked failed)
  | MethodReturns (HvMap m) => Ok m
  | MethodReturns _ => Err (Blocked invalid)
  end.
Definition dump_method (v : host_value) : method_answer := match v with HvObject _ model_dump _ => model_dump | _ => NotCallable end.
(** [_assistant_message_mapping] *)
Definition _assistant_message_mapping (message : host_value) : thinking entries_of :=
  payload ← match message with
            | HvMap m => Ok m
            | message => dumped_mapping (dump_method message) "ASSISTANT_SERIALIZATION_UNAVAILABLE" "ASSISTANT_SERIALIZATION_FAILED"
                                        "ASSISTANT_SERIALIZATION_INVALID"
            end;
  raise (Blocked "ASSISTANT_ROLE_INVALID") when negb (eqb_of (text_of (Some (get payload "role"))) (Some "assistant"));; Ok payload.
(** [_tool_call_mapping] *)
Definition _tool_call_mapping (tool_call : host_value) : thinking entries_of :=
  match tool_call with
  | HvMap m => Ok m
  | v => dumped_mapping (dump_method v) "TOOL_CALL_SERIALIZATION_UNAVAILABLE" "TOOL_CALL_SERIALIZATION_FAILED" "TOOL_CALL_SERIALIZATION_INVALID"
  end.
(** [_tool_calls_need_projection], its loop and its result *)
Fixpoint sidecar_in (calls : list host_value) : thinking bool :=
  match calls with
  | [] => Ok false
  | tool_call :: rest =>
      raw ← _tool_call_mapping tool_call;
      if negb (keys_within ["id"; "type"; "function"] raw) then Ok true else
      match get raw "function" with
      | HvMap function => if negb (keys_within ["name"; "arguments"] function) then Ok true else sidecar_in rest
      | _ => Ok true
      end
  end.
Definition _tool_calls_need_projection (value : host_value) : thinking bool :=
  match value with
  | HvList calls => found ← sidecar_in calls; Ok (found || nonempty calls)
  | _ => Err (Blocked "TOOL_CALLS_INVALID")
  end.
(** One part in the loop of [_assistant_needs_normalization]: whether it decides. *)
Definition part_needs (part : host_value) : thinking bool :=
  let part_type := _part_value part "type" in
  raise UnhashableTypeError when unhashable part_type;;
  match text_of part_type with
  | Some part_type =>
      if py_in part_type _THINKING_PART_TYPES then Ok true else
      raise (Blocked "CONTENT_PART_UNSUPPORTED") when negb (py_in part_type _PLAIN_PART_TYPES);;
      let media_needs :=
        if part_type ==? "text" then Ok false else
        let media_value := _part_value part part_type in
        _ ← _safe_media_value media_value;
        Ok match media_value with Some (HvMap m) => existsb (has_key m) _NATIVE_PART_METADATA_FIELDS | _ => false end in
      match part with
      | HvMap m =>
          raise (Blocked "CONTENT_PART_UNSAFE") when negb (keys_within ("type" :: part_type :: _NATIVE_PART_METADATA_FIELDS) m);;
          if existsb (has_key m) _NATIVE_PART_METADATA_FIELDS then Ok true else media_needs
      | _ => media_needs
      end
  | None => Err (Blocked "CONTENT_PART_UNSUPPORTED")
  end.
Fixpoint parts_need (parts : list host_value) : thinking bool :=
  match parts with
  | [] => Ok false
  | part :: rest => decided ← part_needs part; if decided : bool then Ok true else parts_need rest
  end.
(** [_assistant_needs_normalization] *)
Definition _assistant_needs_normalization (payload : entries_of) : thinking bool :=
  raise (Blocked "ASSISTANT_FIELDS_UNSAFE") when negb (keys_within (_SAFE_ASSISTANT_FIELDS ++ _NATIVE_ASSISTANT_METADATA_FIELDS) payload);;
  if existsb (has_key payload) _NATIVE_ASSISTANT_METADATA_FIELDS then Ok true else
  calls ← match map_entry payload "tool_calls" with Some value => _tool_calls_need_projection value | None => Ok false end;
  if calls : bool then Ok true else
  match get payload "content" with
  | HvNone | HvText _ => Ok false
  | HvList parts => parts_need parts
  | _ => Err (Blocked "ASSISTANT_CONTENT_INVALID")
  end.

(** The local variables of the loop over the parts. *)
Record Projected := { pj_parts : list host_value; pj_notes : list string; pj_boundary : option nat }.
Definition project_part (state : Projected) (part : host_value) : thinking Projected :=
  safe ← _safe_content_part part;
  match safe with
  | (_, Some note) =>
      let parts := pj_parts state ++ [text_part note] in
      Ok {| pj_parts := parts; pj_notes := note :: pj_notes state; pj_boundary := Some (length parts) |}
  | (Some visible, None) => Ok {| pj_parts := pj_parts state ++ [visible]; pj_notes := pj_notes state; pj_boundary := pj_boundary state |}
  | (None, None) => Ok state
  end.
(** One of the two mirrored fields *)
Definition mirror_note (payload : entries_of) (state : list string * list string) (field : string) : list string * list string :=
  match _plain_text (Some (get payload field)) with
  | Some plaintext =>
      let note := _reasoning_text plaintext in
      if py_in note state.1 then state else (note :: state.1, state.2 ++ [note])
  | None => state
  end.
Definition mirror_notes (payload : entries_of) (seen : list string) : list string :=
  (fold_left (mirror_note payload) ["reasoning_content"; "reasoning"] (seen, [])).2.
Definition no_parts : Projected := {| pj_parts := []; pj_notes := []; pj_boundary := None |}.
(** [_projected_content_and_reasoning_notes] *)
Definition _projected_content_and_reasoning_notes (payload : entries_of) (content : host_value) : thinking (list host_value * list string) :=
  state ← match content with
          | HvList parts => fold_result project_part parts no_parts
          | _ => Ok no_parts
          end;
  let note_texts := mirror_notes payload (pj_notes state) in
  match content with
  | HvList _ =>
      let insertion := default O (pj_boundary state) in
      Ok (take insertion (pj_parts state) ++ map text_part note_texts ++ drop insertion (pj_parts state), [])
  | _ => Ok (pj_parts state, note_texts)
  end.
(** [_safe_tool_calls] *)
Definition safe_tool_call (tool_call : host_value) : thinking host_value :=
  raw ← _tool_call_mapping tool_call;
  match get raw "id", text_of (Some (get raw "type")) with
  | HvText tool_id, Some "function" =>
      function ← match get raw "function" with
                 | HvMap m => Ok m
                 | v => dumped_mapping (dump_method v) "TOOL_FUNCTION_INVALID" "TOOL_FUNCTION_INVALID" "TOOL_FUNCTION_INVALID"
                 end;
      match get function "name", get function "arguments" with
      | HvText name, HvNone => Ok (record_of [("id", HvText tool_id); ("type", HvText "function");
                                              ("function", record_of [("name", HvText name); ("arguments", HvNone)])])
      | HvText name, HvText arguments => Ok (record_of [("id", HvText tool_id); ("type", HvText "function");
                                              ("function", record_of [("name", HvText name); ("arguments", HvText arguments)])])
      | _, _ => Err (Blocked "TOOL_FUNCTION_INVALID")
      end
  | _, _ => Err (Blocked "TOOL_CALL_INVALID")
  end.
Definition _safe_tool_calls (value : host_value) : thinking (list host_value) :=
  match value with HvList calls => map_result safe_tool_call calls | _ => Err (Blocked "TOOL_CALLS_INVALID") end.
(** The content of a projected message *)
Definition projected_content (content : host_value) (projected_parts : list host_value) (note_texts : list string) (has_calls : bool)
    : thinking host_value :=
  match content with
  | HvText text => Ok (HvText (py_join blank_line (note_texts ++ [text])))
  | HvList _ =>
      match projected_parts with
      | [] => raise (Blocked "ASSISTANT_CONTENT_EMPTY") when negb has_calls;; Ok HvNone
      | parts => Ok (HvList parts)
      end
  | HvNone =>
      match note_texts with
      | [] => raise (Blocked "ASSISTANT_CONTENT_UNAVAILABLE") when negb has_calls;; Ok HvNone
      | notes => Ok (HvList (map text_part notes))
      end
  | _ => Err (Blocked "ASSISTANT_CONTENT_INVALID")
  end.
(** [_normalized_assistant_message]; [None] is the message itself. *)
Definition _normalized_assistant_message (message : host_value) : thinking (option host_value) :=
  payload ← _assistant_message_mapping message;
  needed ← _assistant_needs_normalization payload;
  if negb needed then Ok None else
  let content := get payload "content" in
  projected ← _projected_content_and_reasoning_notes payload content;
  tool_calls ← match map_entry payload "tool_calls" with
               | Some value => calls ← _safe_tool_calls value; Ok [("tool_calls", HvList calls)]
               | None => Ok []
               end;
  tool_call_id ← match map_entry payload "tool_call_id" with
                 | Some (HvText s) => Ok [("tool_call_id", HvText s)]
                 | Some _ => Err (Blocked "TOOL_CALL_ID_INVALID")
                 | None => Ok []
                 end;
  content ← projected_content content projected.1 projected.2 (nonempty tool_calls);
  Ok (Some (record_of ([("role", HvText "assistant")] ++ tool_calls ++ tool_call_id ++ [("content", content)]))).

(** ** Contexts *)

(** The role of a message, [None] where reading it raises. *)
Definition message_role (message : host_value) : option host_value :=
  match message with HvMap m => Some (get m "role") | HvObject attributes _ _ => attribute attributes "role" | _ => None end.
(** One message in the loop: what stands for it, and whether that is another object. *)
Definition normalize_message (message : host_value) : thinking (host_value * bool) :=
  match message_role message with
  | None => Err (Blocked "MESSAGE_ROLE_UNAVAILABLE")
  | Some role =>
      if negb (eqb_of (text_of (Some role)) (Some "assistant")) then Ok (message, false) else
      replacement ← _normalized_assistant_message message;
      Ok match replacement with Some projected => (projected, true) | None => (message, false) end
  end.
(** [_normalize_openai_claude_contexts]; [None] is the given list itself. *)
Definition _normalize_openai_claude_contexts (contexts : list host_value) : thinking (option (list host_value)) :=
  normalized ← map_result normalize_message contexts;
  Ok (if existsb snd normalized then Some (map fst normalized) else None).
(** [_tool_calls_result_messages] *)
Definition result_messages (value : host_value) : thinking (list host_value) :=
  match (match value with HvObject _ _ to_openai_messages => to_openai_messages | _ => NotCallable end) with
  | NotCallable => Err (Blocked "TOOL_CALLS_RESULT_UNAVAILABLE")
  | MethodRaises => Err (Blocked "TOOL_CALLS_RESULT_FAILED")
  | MethodReturns (HvList converted) => Ok converted
  | MethodReturns _ => Err (Blocked "TOOL_CALLS_RESULT_NOT_A_LIST")
  end.
Definition _tool_calls_result_messages (value : host_value) : thinking (list host_value) :=
  messages ← map_result result_messages (match value with HvList results => results | value => [value] end); Ok (concat messages).
(** The rewritten contexts: the given object, or another list. *)
Inductive Rewritten := SameContexts | NewContexts (contexts : list host_value).
Definition rewritten_to (r : option (list host_value)) : Rewritten := match r with Some contexts => NewContexts contexts | None => SameContexts end.
(** [_rewrite_call_contexts]; an argument that is not given is [None]. *)
Definition _rewrite_call_contexts (contexts tool_calls_result : option host_value) : thinking (Rewritten * bool) :=
  context_list ← match contexts with
                 | None | Some HvNone => Ok None
                 | Some (HvList items) => Ok (Some items)
                 | Some _ => Err (Blocked "CONTEXTS_NOT_A_LIST")
                 end;
  let normalized := match context_list with
                    | None => Ok SameContexts
                    | Some items => r ← _normalize_openai_claude_contexts items; Ok (rewritten_to r)
                    end in
  match tool_calls_result with
  | None | Some HvNone => r ← normalized; Ok (r, false)
  | Some value =>
      tool_messages ← _tool_calls_result_messages value;
      match tool_messages with
      | [] => r ← normalized; Ok (r, true)
      | _ =>
          let combined := default [] context_list ++ tool_messages in
          r ← _normalize_openai_claude_contexts combined; Ok (NewContexts (default combined r), true)
      end
  end.

(** ** Target models *)

(** [[a-z0-9]] under [re.IGNORECASE]: besides ASCII, U+0130, U+0131, U+017F and U+212A. *)
Definition decimal (c : N) : bool := ((48 <=? c) && (c <=? 57))%N.
Definition folded_alnum (c : N) : bool :=
  decimal c || ((65 <=? c) && (c <=? 90))%N || ((97 <=? c) && (c <=? 122))%N || bool_decide (c ∈ [304; 305; 383; 8490]%N).
Definition lower (c : N) : N := if ((65 <=? c) && (c <=? 90))%N then (c + 32)%N else c.
(** The rest after a word, whatever its case *)
Fixpoint after_word (word s : list N) : option (list N) :=
  match word, s with
  | [], s => Some s
  | w :: word, c :: s => if (lower c =? w)%N then after_word word s else None
  | _ :: _, [] => None
  end.
Fixpoint skip_decimals (s : list N) : list N := match s with c :: rest => if decimal c then skip_decimals rest else s | [] => [] end.
Definition no_alnum_next (s : list N) : bool := match s with c :: _ => negb (folded_alnum c) | [] => true end.
(** [_CLAUDE_MODEL_PATTERN.search]; giving digits back cannot help, what follows would be one. *)
Fixpoint claude_from (after_alnum : bool) (s : list N) : bool :=
  match s with
  | [] => false
  | c :: rest =>
      negb after_alnum && match after_word (code_points "claude") s with Some rest => no_alnum_next (skip_decimals rest) | None => false end
      || claude_from (folded_alnum c) rest
  end.
Definition is_claude_model (model : string) : bool := claude_from false (code_points model).
Example claude_models : map is_claude_model ["claude-3-opus"; "anthropic/Claude3"; "claudette"; "my-claude35x"; "xclaude"] = [true; true; false; false; false].
Proof. vm_compute. reflexivity. Qed.

Definition _OPENAI_COMPAT_PROVIDER_TYPES : list string :=
  ["openai_chat_completion"; "groq_chat_completion"; "longcat_chat_completion"; "aihubmix_chat_completion"; "openrouter_chat_completion";
   "xai_chat_completion"; "xiaomi_chat_completion"; "zhipu_chat_completion"].
Definition _NATIVE_THINKING_PROVIDER_TYPES : list string :=
  ["anthropic_chat_completion"; "googlegenai_chat_completion"; "kimi_code_chat_completion"; "minimax_token_plan"; "xiaomi_token_plan"].
(** What [_provider_descriptor] gives: the provider's type and id. *)
Definition Descriptor : Type := string * string.
(** [_provider_descriptor], from what [provider.meta()] answers *)
Definition _provider_descriptor (meta : method_answer) : option Descriptor :=
  match meta with
  | MethodReturns (HvObject attributes _ _) =>
      match attribute attributes "type", attribute attributes "id" with
      | Some (HvText provider_type), Some (HvText provider_id) => Some (provider_type, provider_id)
      | _, _ => None
      end
  | _ => None
  end.
(** [_configured_provider_ids] *)
Definition configured_ids (ids : list string) : list string := map py_strip (List.filter (fun s => negb (is_blank s)) ids).
(** [_is_openai_compatible_descriptor] *)
Definition _is_openai_compatible_descriptor (configured : list string) (d : Descriptor) : bool :=
  if py_in d.1 _NATIVE_THINKING_PROVIDER_TYPES then false
  else py_in d.1 _OPENAI_COMPAT_PROVIDER_TYPES || py_in d.2 configured.
(** [_effective_model_identity] *)
Definition nonblank_text (v : option host_value) : option string :=
  match v with Some (HvText s) => if is_blank s then None else Some s | _ => None end.
Definition _effective_model_identity (get_model : method_answer) (explicit_model : option host_value) : option string :=
  match nonblank_text explicit_model with
  | Some model => Some model
  | None => match get_model with MethodReturns v => nonblank_text (Some v) | _ => None end
  end.

(** ** Calls *)

(** The parameters of a provider's method, as [inspect.signature] lists them:
    none is positional-only. *)
Inductive parameter_kind := POSITIONAL_OR_KEYWORD | VAR_POSITIONAL | KEYWORD_ONLY | VAR_KEYWORD.
#[export] Instance parameter_kind_eq_dec : EqDecision parameter_kind.
Proof. solve_decision. Defined.
Definition Signature := list (string * parameter_kind).
Definition Keywords := list (string * host_value).
Inductive bound_value := BoundOne (v : host_value) | BoundArgs (values : list host_value) | BoundKeywords (values : Keywords).
Definition BoundArguments := list (string * bound_value).
Definition bound_at (arguments : BoundArguments) (name : string) : option bound_value := snd <$> List.find (fun p => p.1 ==? name) arguments.
(** [arguments[name] = value] *)
Definition set_item {V} (name : string) (value : V) (items : list (string * V)) : list (string * V) :=
  if existsb (fun p => p.1 ==? name) items then map (fun p => if p.1 ==? name then (name, value) else p) items else items ++ [(name, value)].
Definition in_keywords (name : string) (kwargs : Keywords) : bool := existsb (fun p => p.1 ==? name) kwargs.
(** [signature.bind_partial]: the positional arguments, with the parameters left; [None] is its [TypeError]. *)
Fixpoint bind_positional (parameters : Signature) (args : list host_value) (kwargs : Keywords) : option (BoundArguments * Signature) :=
  match args, parameters with
  | [], (_, VAR_POSITIONAL) :: rest => Some ([], rest)
  | [], parameters => Some ([], parameters)
  | _ :: _, [] | _ :: _, (_, VAR_KEYWORD) :: _ | _ :: _, (_, KEYWORD_ONLY) :: _ => None
  | args, (name, VAR_POSITIONAL) :: rest => Some ([(name, BoundArgs args)], rest)
  | arg :: args, (name, POSITIONAL_OR_KEYWORD) :: rest =>
      if in_keywords name kwargs then None else
      '(bound, remaining) ← bind_positional rest args kwargs; Some ((name, BoundOne arg) :: bound, remaining)
  end.
(** ... and the keywords *)
Fixpoint bind_keywords (parameters : Signature) (kwargs : Keywords) : BoundArguments * Keywords :=
  match parameters with
  | [] => ([], kwargs)
  | (name, VAR_KEYWORD) :: rest | (name, VAR_POSITIONAL) :: rest => bind_keywords rest kwargs
  | (name, _) :: rest =>
      match attribute kwargs name with
      | Some value =>
          let (bound, remaining) := bind_keywords rest (List.filter (fun p => p.1 !=? name) kwargs) in ((name, BoundOne value) :: bound, remaining)
      | None => bind_keywords rest kwargs
      end
  end.
Definition var_keyword (parameters : Signature) : option string :=
  fst <$> List.find (fun p => eqb_of p.2 VAR_KEYWORD) parameters.
Definition bind_partial (signature : Signature) (args : list host_value) (kwargs : Keywords) : option BoundArguments :=
  '(positional, parameters) ← bind_positional signature args kwargs;
  let (keywords, remaining) := bind_keywords parameters kwargs in
  match remaining, var_keyword parameters with
  | [], _ => Some (positional ++ keywords)
  | remaining, Some name => Some (positional ++ keywords ++ [(name, BoundKeywords remaining)])
  | _, None => None
  end.
(** [bound.args] *)
Fixpoint bound_args (signature : Signature) (arguments : BoundArguments) : list host_value :=
  match signature with
  | [] | (_, VAR_KEYWORD) :: _ | (_, KEYWORD_ONLY) :: _ => []
  | (name, _) :: rest =>
      match bound_at arguments name with
      | Some (BoundArgs values) => values ++ bound_args rest arguments
      | Some (BoundOne value) => value :: bound_args rest arguments
      | Some (BoundKeywords _) | None => []
      end
  end.
(** [bound.kwargs] *)
Definition keywords_of (p : string * parameter_kind) (arguments : BoundArguments) (kwargs : Keywords) : Keywords :=
  match bound_at arguments p.1 with
  | Some (BoundKeywords values) => fold_left (fun kwargs q => set_item q.1 q.2 kwargs) values kwargs
  | Some (BoundOne value) => set_item p.1 value kwargs
  | Some (BoundArgs values) => set_item p.1 HvOther kwargs   (* a tuple; no target call has one here *)
  | None => kwargs
  end.
Fixpoint bound_kwargs (started : bool) (signature : Signature) (arguments : BoundArguments) (kwargs : Keywords) : Keywords :=
  match signature with
  | [] => kwargs
  | (name, kind) :: rest =>
      if started || eqb_of kind VAR_KEYWORD || eqb_of kind KEYWORD_ONLY
      then bound_kwargs true rest arguments (keywords_of (name, kind) arguments kwargs)
      else bound_kwargs (is_none (bound_at arguments name)) rest arguments kwargs
  end.
(** [_bound_call_value]; [None] is [_MISSING]. *)
Definition seen_value (b : bound_value) : host_value :=
  match b with BoundOne v => v | BoundArgs values => HvOther | BoundKeywords values => record_of values end.
Definition _bound_call_value (signature : Signature) (bound : BoundArguments) (name : string) : option host_value :=
  match (if existsb (fun p => p.1 ==? name) signature then bound_at bound name else None) with
  | Some value => Some (seen_value value)
  | None =>
      match var_keyword signature with
      | Some keywords => match bound_at bound keywords with Some (BoundKeywords values) => attribute values name | _ => None end
      | None => None
      end
  end.
(** What a wrapper sees of its provider during a call. *)
Record ProviderAnswers := { pa_meta : method_answer; pa_get_model : method_answer }.
Definition Call : Type := list host_value * Keywords.
(** [_rewrite_keyword_only_call] *)
Definition _rewrite_keyword_only_call (provider : ProviderAnswers) (args : list host_value) (kwargs : Keywords) : thinking Call :=
  match _effective_model_identity (pa_get_model provider) (attribute kwargs "model") with
  | None => Ok (args, kwargs)
  | Some model =>
      if negb (is_claude_model model) then Ok (args, kwargs) else
      raise (Blocked "CALL_SIGNATURE_UNAVAILABLE") when nonempty args;;
      rewritten ← _rewrite_call_contexts (attribute kwargs "contexts") (attribute kwargs "tool_calls_result");
      let kwargs := match rewritten.1 with NewContexts contexts => set_item "contexts" (HvList contexts) kwargs | SameContexts => kwargs end in
      Ok (args, if rewritten.2 : bool then set_item "tool_calls_result" HvNone kwargs else kwargs)
  end.
(** Giving a name its new value: as a parameter, or among the keywords. *)
Definition rebind (signature : Signature) (name : string) (value : host_value) (state : BoundArguments * option Keywords)
    : thinking (BoundArguments * option Keywords) :=
  let (bound, keyword_values) := state in
  if existsb (fun p => p.1 ==? name) signature then Ok (set_item name (BoundOne value) bound, keyword_values) else
  match keyword_values with
  | Some values => Ok (bound, Some (set_item name value values))
  | None => Err (Blocked "CALL_SIGNATURE_UNAVAILABLE")
  end.
(** The rewriting of a call that was bound *)
Definition rewrite_bound (signature : Signature) (bound : BoundArguments) (args : list host_value) (kwargs : Keywords) : thinking Call :=
  let contexts := _bound_call_value signature bound "contexts" in
  rewritten ← _rewrite_call_contexts contexts (_bound_call_value signature bound "tool_calls_result");
  match rewritten with
  | (SameContexts, false) => Ok (args, kwargs)
  | (new_contexts, consume) =>
      let keyword_values := match var_keyword signature with
                            | Some name => Some (match bound_at bound name with Some (BoundKeywords values) => values | _ => [] end)
                            | None => None
                            end in
      state ← match new_contexts, contexts with
              | NewContexts items, _ => rebind signature "contexts" (HvList items) (bound, keyword_values)
              | SameContexts, Some same => rebind signature "contexts" same (bound, keyword_values)
              | SameContexts, None => Ok (bound, keyword_values)
              end;
      state ← (if consume : bool then rebind signature "tool_calls_result" HvNone state else Ok state);
      let arguments := match var_keyword signature, state.2 with
                       | Some name, Some values => set_item name (BoundKeywords values) state.1
                       | _, _ => state.1
                       end in
      Ok (bound_args signature arguments, bound_kwargs false signature arguments [])
  end.
(** [_rewrite_call] of an active binding; [None] is a method without a signature. *)
Definition _rewrite_call (configured : list string) (provider : ProviderAnswers) (signature : option Signature) (args : list host_value)
    (kwargs : Keywords) : thinking Call :=
  match _provider_descriptor (pa_meta provider) with
  | None => Ok (args, kwargs)
  | Some descriptor =>
      if negb (_is_openai_compatible_descriptor configured descriptor) then Ok (args, kwargs) else
      match (signature ← signature; bound ← bind_partial signature args kwargs; Some (signature, bound)) with
      | None => _rewrite_keyword_only_call provider args kwargs
      | Some (signature, bound) =>
          match _effective_model_identity (pa_get_model provider) (_bound_call_value signature bound "model") with
          | None => Ok (args, kwargs)
          | Some model =>
              if negb (is_claude_model model) then Ok (args, kwargs) else
              raise (Blocked "CALL_SIGNATURE_UNAVAILABLE") when
                existsb (fun p => eqb_of p.2 VAR_POSITIONAL && match bound_at bound p.1 with Some (BoundArgs (_ :: _)) => true | _ => false end) signature;;
              rewrite_bound signature bound args kwargs
          end
      end
  end.
