(* ===== verification/ThinkingProperties.v ===== *)
(** What leaves for a target provider: assistant messages without reasoning
    fields, signatures or opaque sidecars, every visible part and every reasoning
    text still there, other messages untouched, and the projection stable. *)
From S2P Require Import Prelude PyString PyFloat Domain PyJson Thinking.
From Stdlib Require String.
Open Scope string_scope.
Open Scope list_scope.
Open Scope Z_scope.

(** ** The neutral shape *)

Inductive neutral_media : host_value -> Prop :=
| media_text s : neutral_media (HvText s)
| media_url url : neutral_media (record_of [("url", HvText url)])
| media_url_id url id : neutral_media (record_of [("url", HvText url); ("id", HvText id)]).
Inductive neutral_part : host_value -> Prop :=
| part_text s : neutral_part (text_part s)
| part_image v : neutral_media v -> neutral_part (record_of [("type", HvText "image_url"); ("image_url", v)])
| part_audio v : neutral_media v -> neutral_part (record_of [("type", HvText "audio_url"); ("audio_url", v)]).
Inductive neutral_content : host_value -> Prop :=
| content_none : neutral_content HvNone
| content_text s : neutral_content (HvText s)
| content_parts parts : parts <> [] -> Forall neutral_part parts -> neutral_content (HvList parts).
Inductive neutral_arguments : host_value -> Prop :=
| arguments_none : neutral_arguments HvNone
| arguments_text s : neutral_arguments (HvText s).
Inductive neutral_call : host_value -> Prop :=
| call_function id name arguments : neutral_arguments arguments ->
    neutral_call (record_of [("id", HvText id); ("type", HvText "function"); ("function", record_of [("name", HvText name); ("arguments", arguments)])]).
Definition optional_field (name : string) (v : option host_value) : list (string * host_value) := match v with Some v => [(name, v)] | None => [] end.
(** A projected assistant message, with its calls, the call it answers and its content *)
Definition assistant_record (calls : option (list host_value)) (tool_call_id : option string) (content : host_value) : host_value :=
  record_of ([("role", HvText "assistant")] ++ optional_field "tool_calls" (HvList <$> calls) ++ optional_field "tool_call_id" (HvText <$> tool_call_id)
             ++ [("content", content)]).

(** ** What stands for a part or a call *)

(** Said without the code's own projection.  Reading a field of a mapping, where
    a missing one is [None], or an attribute of an object. *)
Inductive reads : host_value -> string -> host_value -> Prop :=
| reads_entry m key v : map_entry m key = Some v -> reads (HvMap m) key v
| reads_missing m key : map_entry m key = None -> reads (HvMap m) key HvNone
| reads_attribute attributes dump convert key v : attribute attributes key = Some v -> reads (HvObject attributes dump convert) key v.
(** A mapping, or an object through its [model_dump] *)
Inductive mapping_of : host_value -> entries_of -> Prop :=
| mapping_itself m : mapping_of (HvMap m) m
| mapping_dumped attributes convert m : mapping_of (HvObject attributes (MethodReturns (HvMap m)) convert) m.
Definition only_keys (allowed : list string) (m : entries_of) : Prop := forall k v, (k, v) ∈ m -> exists key, k = Some key /\ key ∈ allowed.
(** Nothing but a signature or an encrypted blob is left behind. *)
Definition fields_covered (part : host_value) (fields : list string) : Prop :=
  forall m, part = HvMap m -> only_keys (fields ++ ["signature"; "encrypted"]) m.
Definition part_typed (part : host_value) (part_type : string) : Prop := reads part "type" (HvText part_type).
(** The same link, the same identifier *)
Inductive media_kept : host_value -> host_value -> Prop :=
| same_text s : media_kept (HvText s) (HvText s)
| same_url m url : map_entry m "url" = Some (HvText url) -> (forall id, map_entry m "id" <> Some (HvText id)) ->
    only_keys ["url"; "id"; "signature"; "encrypted"] m -> media_kept (HvMap m) (record_of [("url", HvText url)])
| same_url_id m url id : map_entry m "url" = Some (HvText url) -> map_entry m "id" = Some (HvText id) ->
    only_keys ["url"; "id"; "signature"; "encrypted"] m -> media_kept (HvMap m) (record_of [("url", HvText url); ("id", HvText id)]).
Definition reasoning_note (text : string) : string := "[assistant reasoning]" +:+ newline +:+ text.
Definition visible_text (text : string) : host_value := record_of [("type", HvText "text"); ("text", HvText text)].
Inductive part_kept : host_value -> host_value -> Prop :=
| text_kept part s : part_typed part "text" -> reads part "text" (HvText s) -> fields_covered part ["type"; "text"] ->
    part_kept part (visible_text s)
| think_kept part s : part_typed part "think" -> reads part "think" (HvText s) -> fields_covered part ["type"; "think"] ->
    part_kept part (visible_text (reasoning_note s))
| thinking_kept part s : part_typed part "thinking" -> reads part "thinking" (HvText s) ->
    fields_covered part ["type"; "thinking"; "text"] -> part_kept part (visible_text (reasoning_note s))
| thinking_text_kept part s : part_typed part "thinking" -> (forall t, ~ reads part "thinking" (HvText t)) -> reads part "text" (HvText s) ->
    fields_covered part ["type"; "thinking"; "text"] -> part_kept part (visible_text (reasoning_note s))
| redacted_kept part : part_typed part "redacted_thinking" -> fields_covered part ["type"; "data"] ->
    part_kept part (visible_text "[assistant reasoning redacted]")
| image_kept part v v' : part_typed part "image_url" -> reads part "image_url" v -> media_kept v v' -> fields_covered part ["type"; "image_url"] ->
    part_kept part (record_of [("type", HvText "image_url"); ("image_url", v')])
| audio_kept part v v' : part_typed part "audio_url" -> reads part "audio_url" v -> media_kept v v' -> fields_covered part ["type"; "audio_url"] ->
    part_kept part (record_of [("type", HvText "audio_url"); ("audio_url", v')]).
Definition thinking_part (part : host_value) : Prop :=
  exists part_type, part_typed part part_type /\ part_type ∈ ["think"; "thinking"; "redacted_thinking"].
(** A call of the same id, function name and arguments *)
Inductive call_kept : host_value -> host_value -> Prop :=
| same_call call raw fn function id name arguments :
    mapping_of call raw -> map_entry raw "id" = Some (HvText id) -> map_entry raw "type" = Some (HvText "function") ->
    map_entry raw "function" = Some fn -> mapping_of fn function ->
    map_entry function "name" = Some (HvText name) -> reads (HvMap function) "arguments" arguments -> neutral_arguments arguments ->
    call_kept call (record_of [("id", HvText id); ("type", HvText "function"); ("function", record_of [("name", HvText name); ("arguments", arguments)])]).

Lemma keys_within_only allowed m : keys_within allowed m = true -> only_keys allowed m.
Proof.
  unfold keys_within. rewrite forallb_forall. intros Hk k v Hin. specialize (Hk (k, v)). rewrite <- list_elem_of_In in Hk. specialize (Hk Hin).
  cbn [fst] in Hk. destruct k as [key|]; [|done]. exists key. split; [done|]. by apply py_in_spec.
Qed.
Lemma get_entry m key v : get m key = v -> v <> HvNone -> map_entry m key = Some v.
Proof. unfold get. destruct (map_entry m key); cbn; congruence. Qed.
Lemma get_reads m key : reads (HvMap m) key (get m key).
Proof. unfold get. destruct (map_entry m key) eqn:E; cbn; by constructor. Qed.
Lemma part_value_reads part key v : _part_value part key = Some v <-> reads part key v.
Proof.
  split.
  - destruct part; try done; [intros [= <-]; apply get_reads|intros E; by constructor].
  - intros Hr. destruct Hr as [m key v E|m key E|attributes dump convert key v E]; cbn [_part_value]; unfold get; by rewrite E.
Qed.
Lemma reads_text part key s : _plain_text (_part_value part key) = Some s -> reads part key (HvText s).
Proof. intros E. apply part_value_reads. unfold _plain_text in E. destruct (_part_value part key) as [[]|]; cbn in E; congruence. Qed.
Lemma reads_no_text part key : _plain_text (_part_value part key) = None -> forall s, ~ reads part key (HvText s).
Proof. intros E s Hr%part_value_reads. by rewrite Hr in E. Qed.
Lemma typed_once part t t' : part_typed part t -> part_typed part t' -> t = t'.
Proof. unfold part_typed. rewrite <- !part_value_reads. congruence. Qed.
Lemma require_covered part fields u : require_allowed part fields = Ok u -> fields_covered part fields.
Proof. intros E m ->. cbn [require_allowed] in E. apply raise_if_ok in E as [E%negb_false_iff _]. by apply keys_within_only. Qed.
Lemma media_value_kept v media : _safe_media_value (Some v) = Ok media -> media_kept v media.
Proof.
  destruct v as [| | |s| |m|]; try done; cbn [_safe_media_value]; [intros [= <-]; constructor|].
  intros [Hk%negb_false_iff%keys_within_only E]%raise_if_ok. destruct (get m "url") as [| | |url| | |] eqn:Eu; try done.
  apply get_entry in Eu; [|done]. injection E as <-. destruct (get m "id") as [| | |id| | |] eqn:Ei.
  4: { apply get_entry in Ei; [|done]. by constructor. }
  all: constructor; [done| |done]; intros id Hid; unfold get in Ei; rewrite Hid in Ei; done.
Qed.
(** What the code's branch for a part's type gives is what stands for it. *)
Lemma safe_part_kept part visible note : _safe_content_part part = Ok (visible, note) ->
  match note with
  | Some text => visible = None /\ thinking_part part /\ part_kept part (visible_text text)
  | None => ~ thinking_part part /\ exists v, visible = Some v /\ part_kept part v
  end.
Proof.
  unfold _safe_content_part, thinking_note. destruct (_part_value part "type") as [[| | |part_type| | |]|] eqn:Et; try done.
  apply part_value_reads in Et. fold (part_typed part part_type) in Et.
  assert (Hnot : forall t, part_type = t -> t ∉ ["think"; "thinking"; "redacted_thinking"] -> ~ thinking_part part).
  { intros t <- Hn (t' & Ht' & Hin). by rewrite (typed_once _ _ _ Et Ht') in Hn. }
  assert (Hyes : forall t, part_type = t -> t ∈ ["think"; "thinking"; "redacted_thinking"] -> thinking_part part) by (intros t <- Hin; by exists part_type).
  destruct (part_type ==? "text") eqn:E1; [apply py_eq_leibniz in E1|].
  { intros (u & Hu%require_covered & E)%result_bind_ok. destruct (_plain_text _) as [s|] eqn:Es; [|done]. apply reads_text in Es. injection E as <- <-.
    split; [by eapply Hnot; [done|]; set_solver|]. eexists. split; [reflexivity|]. subst. by apply text_kept. }
  destruct (part_type ==? "think") eqn:E2; [apply py_eq_leibniz in E2|].
  { intros (u & Hu%require_covered & E)%result_bind_ok. destruct (_plain_text _) as [s|] eqn:Es; [|done]. apply reads_text in Es. injection E as <- <-.
    split_and!; [done|by eapply Hyes; [done|]; set_solver|]. subst. by apply think_kept. }
  destruct (part_type ==? "thinking") eqn:E3; [apply py_eq_leibniz in E3|].
  { intros (u & Hu%require_covered & E)%result_bind_ok. subst part_type. destruct (_plain_text (_part_value part "thinking")) as [s|] eqn:Es.
    - apply reads_text in Es. injection E as <- <-. split_and!; [done|by eapply Hyes; [done|]; set_solver|]. by apply thinking_kept.
    - destruct (_plain_text (_part_value part "text")) as [s|] eqn:Et'; [|done]. apply reads_text in Et'. injection E as <- <-.
      split_and!; [done|by eapply Hyes; [done|]; set_solver|]. apply thinking_text_kept; [done|by apply reads_no_text|done|done]. }
  destruct (part_type ==? "redacted_thinking") eqn:E4; [apply py_eq_leibniz in E4|].
  { intros (u & Hu%require_covered & E)%result_bind_ok. injection E as <- <-. subst. split_and!; [done|by eapply Hyes; [done|]; set_solver|]. by apply redacted_kept. }
  destruct (py_in part_type ["image_url"; "audio_url"]) eqn:Ep; [|done]. intros (u & Hu%require_covered & (v & Hv & E)%result_bind_ok)%result_bind_ok.
  injection E as <- <-. destruct (_part_value part part_type) as [media|] eqn:Em; [|done]. apply part_value_reads in Em. apply media_value_kept in Hv.
  apply py_in_spec in Ep. apply elem_of_cons in Ep as [->|Ep]; [|apply list_elem_of_singleton in Ep as ->].
  - split; [by eapply Hnot; [done|]; set_solver|]. eexists. split; [reflexivity|]. by eapply image_kept.
  - split; [by eapply Hnot; [done|]; set_solver|]. eexists. split; [reflexivity|]. by eapply audio_kept.
Qed.
Lemma dumped_mapping_of v a b c m : match v with HvMap m => Ok m | v => dumped_mapping (dump_method v) a b c end = Ok m -> mapping_of v m.
Proof.
  destruct v as [| | | | |m'|attributes dump convert]; try done; [intros [= <-]; constructor|].
  cbn [dump_method dumped_mapping]. destruct dump as [| |[]]; try done. intros [= <-]. constructor.
Qed.
Lemma safe_call_kept call out : safe_tool_call call = Ok out -> call_kept call out.
Proof.
  unfold safe_tool_call, _tool_call_mapping. intros (raw & Hraw%dumped_mapping_of & E)%result_bind_ok.
  destruct (get raw "id") as [| | |id| | |] eqn:Eid; try done. apply get_entry in Eid; [|done].
  destruct (text_of (Some (get raw "type"))) as [type|] eqn:Etype; [|done].
  destruct (decide (type = "function")) as [->|Hne]; [|exfalso; revert E Hne; clear; intros E Hne; repeat (destruct type as [|[[] [] [] [] [] [] [] []] type]; try done)].
  assert (get raw "type" = HvText "function") as Ety by (destruct (get raw "type"); cbn in Etype; congruence). apply get_entry in Ety; [|done].
  apply result_bind_ok in E as (function & Hf & E).
  assert (mapping_of (get raw "function") function) as Hfn.
  { eapply dumped_mapping_of. by destruct (get raw "function"). }
  assert (map_entry raw "function" = Some (get raw "function")) as Efn by (apply get_entry; [done|]; intros En; rewrite En in Hfn; by inversion Hfn).
  destruct (get function "name") as [| | |name| | |] eqn:En; try done. apply get_entry in En; [|done].
  pose proof (get_reads function "arguments") as Ha.
  destruct (get function "arguments") as [| | |s| | |]; try done; injection E as <-; econstructor; try done; constructor.
Qed.

Lemma media_neutral v media : _safe_media_value v = Ok media -> neutral_media media.
Proof.
  unfold _safe_media_value. destruct v as [[| | |s|l|m|]|]; try done; [by intros [= <-]; constructor|]. intros [_ E]%raise_if_ok.
  destruct (get m "url"); try done. injection E as <-. destruct (get m "id"); constructor.
Qed.
Lemma safe_part_neutral part visible note : _safe_content_part part = Ok (visible, note) ->
  (exists v, visible = Some v /\ neutral_part v /\ note = None) \/ (exists s, note = Some s /\ visible = None).
Proof.
  unfold _safe_content_part, thinking_note. destruct (_part_value part "type") as [[| | |part_type| | |]|]; try done.
  destruct (part_type ==? "text").
  { intros (u & _ & E)%result_bind_ok. destruct (_plain_text _); [|done]. injection E as <- <-. left. eexists. split; [reflexivity|]. split; [constructor|done]. }
  destruct (part_type ==? "think"); [intros (u & _ & E)%result_bind_ok; destruct (_plain_text _); [|done]; injection E as <- <-; right; by eexists|].
  destruct (part_type ==? "thinking").
  { intros (u & _ & E)%result_bind_ok. destruct (match _plain_text _ with Some _ => _ | None => _ end); [|done]. injection E as <- <-. right. by eexists. }
  destruct (part_type ==? "redacted_thinking"); [intros (u & _ & E)%result_bind_ok; injection E as <- <-; right; by eexists|].
  destruct (py_in part_type ["image_url"; "audio_url"]) eqn:Ep; [|done]. intros (u & _ & (v & Hv%media_neutral & E)%result_bind_ok)%result_bind_ok.
  injection E as <- <-. left. eexists. split; [reflexivity|]. split; [|done].
  apply py_in_spec in Ep. apply elem_of_cons in Ep as [->|Ep]; [by constructor|]. apply list_elem_of_singleton in Ep as ->. by constructor.
Qed.
(** What stands for one part of a content list *)
Definition part_projection (part : host_value) : host_value :=
  match _safe_content_part part with Ok (_, Some note) => text_part note | Ok (Some visible, None) => visible | _ => HvNone end.
Lemma project_parts parts : forall state state', fold_result project_part parts state = Ok state' ->
  pj_parts state' = pj_parts state ++ map part_projection parts /\ Forall neutral_part (map part_projection parts)
  /\ (default O (pj_boundary state) <= length (pj_parts state) -> default O (pj_boundary state') <= length (pj_parts state'))%nat.
Proof.
  induction parts as [|part parts IH]; intros state state'; cbn [fold_result map]; [intros [= <-]; rewrite app_nil_r; by split_and!; [|constructor|]|].
  intros (mid & Hmid & Hrest)%result_bind_ok. destruct (IH _ _ Hrest) as (E & Hn & Hb). rewrite E in Hb |- *. clear IH E Hrest.
  unfold project_part in Hmid. apply result_bind_ok in Hmid as ([visible note] & Hs & Hmid).
  destruct (safe_part_neutral _ _ _ Hs) as [(v & -> & Hv & ->)|(s & -> & ->)]; injection Hmid as <-; cbn [pj_parts pj_boundary] in *; rewrite <- app_assoc in Hb |- *.
  - assert (part_projection part = v) as -> by (unfold part_projection; by rewrite Hs). split_and!; [done|by constructor|].
    intros Hle. apply Hb. rewrite length_app. cbn. lia.
  - assert (part_projection part = text_part s) as -> by (unfold part_projection; by rewrite Hs). split_and!; [done|by constructor; [constructor|]|].
    intros Hle. apply Hb. cbn. lia.
Qed.

Lemma part_projection_kept part visible note : _safe_content_part part = Ok (visible, note) ->
  part_kept part (part_projection part)
  /\ match note with Some text => thinking_part part /\ part_projection part = visible_text text | None => ~ thinking_part part end.
Proof.
  intros Hs. pose proof (safe_part_kept _ _ _ Hs) as Hk. unfold part_projection. rewrite Hs. destruct note as [text|].
  - by destruct Hk as (-> & ? & ?).
  - by destruct Hk as (? & v & -> & ?).
Qed.
Lemma project_part_step state part state' : project_part state part = Ok state' -> part_kept part (part_projection part) /\
  ((thinking_part part /\ exists text, part_projection part = visible_text text
     /\ pj_notes state' = text :: pj_notes state /\ pj_boundary state' = Some (S (length (pj_parts state))))
   \/ (~ thinking_part part /\ pj_notes state' = pj_notes state /\ pj_boundary state' = pj_boundary state))
  /\ length (pj_parts state') = S (length (pj_parts state)).
Proof.
  unfold project_part. intros ([visible note] & Hs & E)%result_bind_ok. destruct (part_projection_kept _ _ _ Hs) as [Hk Hn].
  pose proof (safe_part_kept _ _ _ Hs) as Hv. split; [done|]. destruct note as [text|].
  - destruct Hn as [Ht Hp], Hv as [-> _]. injection E as <-. cbn [pj_parts pj_notes pj_boundary]. rewrite length_app, Nat.add_1_r.
    split; [|done]. left. split; [done|]. by exists text.
  - destruct Hv as (_ & v & -> & _). injection E as <-. cbn [pj_parts pj_notes pj_boundary]. rewrite length_app, Nat.add_1_r. split; [|done]. by right.
Qed.
(** Where the notes of the loop come from, and where it stops counting. *)
Lemma project_parts_kept parts : forall state state', fold_result project_part parts state = Ok state' ->
  Forall2 part_kept parts (map part_projection parts)
  /\ (forall note, note ∈ pj_notes state' <-> note ∈ pj_notes state \/ exists part, part ∈ parts /\ thinking_part part /\ part_projection part = visible_text note)
  /\ ((pj_boundary state' = pj_boundary state /\ (forall part, part ∈ parts -> ~ thinking_part part))
      \/ exists n part, pj_boundary state' = Some (length (pj_parts state) + S n)%nat /\ parts !! n = Some part /\ thinking_part part
           /\ forall part', part' ∈ drop (S n) parts -> ~ thinking_part part').
Proof.
  induction parts as [|part parts IH]; intros state state'; cbn [fold_result map].
  { intros [= <-]. split; [constructor|]. split; [|left; split; [done|by intros part ?%elem_of_nil]].
    intros note. split; [by left|]. by intros [?|(part & ?%elem_of_nil & _)]. }
  intros (mid & Hmid & Hrest)%result_bind_ok. destruct (IH _ _ Hrest) as (Hk & Hn & Hb). clear IH Hrest.
  destruct (project_part_step _ _ _ Hmid) as (Hkp & Hstep & Hlen). split; [by constructor|]. split.
  - intros note. rewrite Hn. destruct Hstep as [(Ht & text & Hp & -> & _)|(Ht & -> & _)].
    + rewrite elem_of_cons. split.
      * intros [[->|?]|(q & ? & ? & ?)]; [right; exists part; split_and!; [left|done|done]|by left|right; exists q; split_and!; [by right|done|done]].
      * intros [?|(q & [->|?]%elem_of_cons & ? & Hq)]; [by auto| |right; by exists q]. rewrite Hp in Hq. injection Hq as ->. by auto.
    + split.
      * intros [?|(q & ? & ? & ?)]; [by left|right; exists q; split_and!; [by right|done|done]].
      * intros [?|(q & [->|?]%elem_of_cons & ? & Hq)]; [by left|done|right; by exists q].
  - destruct Hb as [[Eb Hnone]|(n & q & Eb & Hq & Htq & Hafter)].
    + destruct Hstep as [(Ht & text & Hp & _ & Hbm)|(Ht & _ & Hbm)].
      * right. exists 0%nat, part. rewrite Eb, Hbm, Nat.add_1_r. split_and!; [done|done|done|]. by intros part' Hin; apply Hnone.
      * left. split; [congruence|]. by intros part' [->|Hin]%elem_of_cons; [|apply Hnone].
    + right. exists (S n), q. rewrite Eb, Hlen. split_and!; [f_equal; lia|done|done|done].
Qed.

(** ** One message *)

Lemma safe_calls_neutral v calls : _safe_tool_calls v = Ok calls -> Forall neutral_call calls.
Proof.
  unfold _safe_tool_calls. destruct v as [| | | |items| |]; try done. intros E%map_result_ok. apply Forall_forall. intros call Hc.
  apply (Forall2_elem_r _ _ _ _ E) in Hc as (item & _ & Hi). unfold safe_tool_call in Hi. apply result_bind_ok in Hi as (raw & _ & Hi).
  destruct (get raw "id") as [| | |id| | |]; try done. destruct (text_of _) as [type|]; [|done].
  destruct (decide (type = "function")) as [->|Hne]; [|exfalso; revert Hi Hne; clear; intros Hi Hne; repeat (destruct type as [|[[] [] [] [] [] [] [] []] type]; try done)].
  apply result_bind_ok in Hi as (function & _ & Hi). destruct (get function "name") as [| | |name| | |]; try done.
  destruct (get function "arguments") as [| | |s| | |]; try done; injection Hi as <-; repeat constructor.
Qed.
Lemma safe_calls_kept v calls : _safe_tool_calls v = Ok calls -> exists given, v = HvList given /\ Forall2 call_kept given calls.
Proof.
  unfold _safe_tool_calls. destruct v as [| | | |items| |]; try done. intros E%map_result_ok. exists items. split; [done|].
  eapply Forall2_impl; [exact E|]. intros call out. apply safe_call_kept.
Qed.
Lemma neutral_notes notes : Forall neutral_part (map text_part notes).
Proof. apply Forall_map, Forall_forall. intros. constructor. Qed.
(** The notes among the parts *)
Definition content_notes (content : host_value) : list string :=
  match content with HvList parts => match fold_result project_part parts no_parts with Ok state => pj_notes state | Err _ => [] end | _ => [] end.
(** How the projection of a message comes about. *)
Lemma normalized_message_ok message m' : _normalized_assistant_message message = Ok (Some m') ->
  exists payload calls tool_call_id content base extra,
    _assistant_message_mapping message = Ok payload /\ m' = assistant_record calls tool_call_id content
    /\ (forall cs, calls = Some cs -> Forall neutral_call cs /\ exists v, map_entry payload "tool_calls" = Some v /\ _safe_tool_calls v = Ok cs)
    /\ (map_entry payload "tool_calls" = None <-> calls = None) /\ HvText <$> tool_call_id = map_entry payload "tool_call_id"
    /\ neutral_content content /\ (content = HvNone -> is_some calls = true)
    /\ match get payload "content" with
       | HvText s => content = HvText (py_join blank_line (extra ++ [s]))
       | HvList parts => base = map part_projection parts
           /\ exists state, fold_result project_part parts no_parts = Ok state
           /\ match content with
             | HvList out => let n := default 0%nat (pj_boundary state) in out = take n base ++ map text_part extra ++ drop n base
             | HvNone => base = [] /\ extra = [] | _ => False end
       | HvNone => match content with HvList out => out = map text_part extra | HvNone => extra = [] | _ => False end
       | _ => False
       end
    /\ extra = mirror_notes payload (content_notes (get payload "content")).
Proof.
  unfold _normalized_assistant_message. intros (payload & Hp & E)%result_bind_ok. apply result_bind_ok in E as (needed & _ & E).
  destruct needed; [|done]. cbn [negb] in E. apply result_bind_ok in E as ([parts notes] & Hproj & E).
  apply result_bind_ok in E as (call_fields & Hcalls & E). apply result_bind_ok in E as (id_fields & Hid & E).
  apply result_bind_ok in E as (content & Hcontent & [= <-]). cbn [fst snd] in *.
  assert (Hcf : exists calls, call_fields = optional_field "tool_calls" (HvList <$> calls)
    /\ (forall cs, calls = Some cs -> Forall neutral_call cs /\ exists v, map_entry payload "tool_calls" = Some v /\ _safe_tool_calls v = Ok cs)
    /\ (map_entry payload "tool_calls" = None <-> calls = None)).
  { destruct (map_entry payload "tool_calls") as [v|] eqn:Ev.
    - apply result_bind_ok in Hcalls as (calls & Hc & [= <-]). exists (Some calls). split_and!; [done| |by split]. intros cs [= <-]. split; [by eapply safe_calls_neutral|eauto].
    - injection Hcalls as <-. by exists None. }
  destruct Hcf as (calls & -> & Hcs & Hcn).
  assert (Hidf : exists tool_call_id, id_fields = optional_field "tool_call_id" (HvText <$> tool_call_id) /\ HvText <$> tool_call_id = map_entry payload "tool_call_id").
  { destruct (map_entry payload "tool_call_id") as [[| | |s| | |]|]; try done; injection Hid as <-; [by exists (Some s)|by exists None]. }
  destruct Hidf as (tool_call_id & -> & Hide).
  assert (Hhas : nonempty (optional_field "tool_calls" (HvList <$> calls)) = is_some calls) by by destruct calls.
  rewrite Hhas in Hcontent. unfold _projected_content_and_reasoning_notes in Hproj.
  apply result_bind_ok in Hproj as (state & Hstate & Hproj).
  destruct (get payload "content") as [| | |s|items| |] eqn:Ec; try done; cbn [projected_content] in Hcontent.
  - injection Hstate as <-. injection Hproj as <- <-. cbn [no_parts pj_notes pj_parts] in *.
    set (extra := mirror_notes payload []) in *.
    exists payload, calls, tool_call_id, content, [], extra.
    destruct extra as [|note extra'] eqn:Ee.
    + apply raise_if_ok in Hcontent as [Hh [= <-]]. apply negb_false_iff in Hh. rewrite Ec. split_and!; try done. constructor.
    + injection Hcontent as <-. rewrite Ec. split_and!; try done. constructor; [done|]. apply (neutral_notes (note :: extra')).
  - injection Hstate as <-. injection Hproj as <- <-. cbn [no_parts pj_notes pj_parts] in *. injection Hcontent as <-.
    eexists payload, calls, tool_call_id, _, [], _. rewrite Ec. split_and!; try done. constructor.
  - injection Hproj as <- <-. destruct (project_parts _ _ _ Hstate) as (Eparts & Hn & _). cbn [no_parts pj_parts app] in Eparts. rewrite Eparts in Hcontent.
    set (extra := mirror_notes payload (pj_notes state)) in *. set (n := default 0%nat (pj_boundary state)) in *.
    exists payload, calls, tool_call_id, content, (map part_projection items), extra. rewrite Ec. unfold content_notes. rewrite Hstate.
    assert (Hall : Forall neutral_part (take n (map part_projection items) ++ map text_part extra ++ drop n (map part_projection items))).
    { apply Forall_app. split; [by apply Forall_take|]. apply Forall_app. split; [|by apply Forall_drop]. apply neutral_notes. }
    destruct (take n _ ++ _) as [|part out] eqn:Eout.
    + apply raise_if_ok in Hcontent as [Hh [= <-]]. apply negb_false_iff in Hh.
      apply app_nil in Eout as [E1 [E2 E3]%app_nil]. assert (map part_projection items = []) by (by rewrite <- (take_drop n (map part_projection items)), E1, E3).
      assert (extra = []) by (by destruct extra). split_and!; try done; [constructor|]. by exists state.
    + injection Hcontent as <-. split_and!; try done; [by constructor|]. by exists state.
Qed.

(** ** Messages that need nothing *)

(** A part without metadata: its type, its one field, and a plain media value.
    Of an object only these two attributes are looked at. *)
Record plain_part (part : host_value) (part_type : string) : Prop := {
  plain_type : part_typed part part_type /\ part_type ∈ ["text"; "image_url"; "audio_url"];
  plain_fields m : part = HvMap m -> only_keys ["type"; part_type] m;
  plain_media m : part_type <> "text" -> reads part part_type (HvMap m) -> only_keys ["url"; "id"] m;
}.
Record plain_payload (payload : entries_of) : Prop := {
  plain_keys : only_keys ["role"; "content"; "tool_calls"; "tool_call_id"] payload;
  plain_calls v : map_entry payload "tool_calls" = Some v -> v = HvList [];
  plain_content content : reads (HvMap payload) "content" content ->
    match content with
    | HvNone | HvText _ => True
    | HvList parts => forall part, part ∈ parts -> exists part_type, plain_part part part_type
    | _ => False
    end;
}.
Lemma keys_without allowed metadata m : keys_within (allowed ++ metadata) m = true -> existsb (has_key m) metadata = false -> keys_within allowed m = true.
Proof.
  unfold keys_within. rewrite !forallb_forall. intros Hk Hm p Hp. specialize (Hk p Hp). destruct p as [[key|] v]; [|done]. cbn [fst] in *.
  apply py_in_spec. apply py_in_spec, elem_of_app in Hk as [Hk|Hk]; [done|]. exfalso. rewrite <- not_true_iff_false, existsb_exists in Hm. apply Hm.
  exists key. split; [by apply list_elem_of_In|]. unfold has_key, map_entry. destruct (List.find _ m) eqn:E; [done|].
  apply (find_none_ext _ m) with (x := (Some key, v)) in E; [|by apply list_elem_of_In]. cbn in E. by rewrite eqb_of_refl in E.
Qed.
Lemma part_needs_plain part : part_needs part = Ok false -> exists part_type, plain_part part part_type.
Proof.
  unfold part_needs. intros [_ Hr]%raise_if_ok. destruct (_part_value part "type") as [[| | |part_type| | |]|] eqn:Et; try done. cbn [text_of] in Hr.
  apply part_value_reads in Et.
  destruct (py_in part_type _THINKING_PART_TYPES); [done|]. apply raise_if_ok in Hr as [Hplain Hr]. apply negb_false_iff, py_in_spec in Hplain.
  assert (Hmedia : forall needs, needs = Ok false -> needs = (if part_type ==? "text" then Ok false else
      _ ← _safe_media_value (_part_value part part_type);
      Ok match _part_value part part_type with Some (HvMap m) => existsb (has_key m) _NATIVE_PART_METADATA_FIELDS | _ => false end) ->
      forall m, part_type <> "text" -> reads part part_type (HvMap m) -> only_keys ["url"; "id"] m).
  { intros needs -> E m Hne Hm%part_value_reads. rewrite Hm in E. destruct (part_type ==? "text") eqn:Eq; [by apply py_eq_leibniz in Eq|].
    symmetry in E. apply result_bind_ok in E as (v & Hv & [= E]). cbn [_safe_media_value] in Hv. apply raise_if_ok in Hv as [Hk _]. apply negb_false_iff in Hk.
    by apply keys_within_only, (keys_without ["url"; "id"] _NATIVE_PART_METADATA_FIELDS). }
  exists part_type. destruct part as [| | | | |m|].
  all: try (split; [by split|by intros|exact (Hmedia _ Hr eq_refl)]).
  apply raise_if_ok in Hr as [Hk Hr]. apply negb_false_iff in Hk. destruct (existsb _ _) eqn:Ex; [done|].
  split; [by split| |exact (Hmedia _ Hr eq_refl)]. intros m' [= <-].
  by apply keys_within_only, (keys_without ["type"; part_type] _NATIVE_PART_METADATA_FIELDS).
Qed.
Lemma parts_need_plain parts : parts_need parts = Ok false -> forall part, part ∈ parts -> exists part_type, plain_part part part_type.
Proof.
  induction parts as [|p parts IH]; [by intros _ part ?%elem_of_nil|]. cbn [parts_need]. intros (decided & Hd & Hr)%result_bind_ok.
  destruct decided; [done|]. intros part [->|Hin]%elem_of_cons; [by apply part_needs_plain|by apply IH].
Qed.
Lemma unneeded_plain payload : _assistant_needs_normalization payload = Ok false -> plain_payload payload.
Proof.
  unfold _assistant_needs_normalization. intros [Hk Hr]%raise_if_ok. apply negb_false_iff in Hk. destruct (existsb _ _) eqn:Ex; [done|].
  apply result_bind_ok in Hr as (calls & Hcalls & Hr). destruct calls; [done|]. split.
  - by apply keys_within_only, (keys_without _ _NATIVE_ASSISTANT_METADATA_FIELDS).
  - intros v Hv. rewrite Hv in Hcalls. unfold _tool_calls_need_projection in Hcalls. destruct v as [| | | |items| |]; try done.
    apply result_bind_ok in Hcalls as (found & _ & [= E]). apply orb_false_iff in E as [_ E]. by destruct items.
  - intros content Hc%part_value_reads. cbn [_part_value] in Hc. injection Hc as <-.
    destruct (get payload "content"); try done. by apply parts_need_plain.
Qed.

(** ** What leaves *)

(** The parts with the notes of the two mirrored fields put in: behind the last
    reasoning part, or at the head when there is none. *)
Definition notes_placed (parts kept : list host_value) (extra : list string) (out : list host_value) : Prop :=
  exists n, out = take n kept ++ map (fun note => visible_text note) extra ++ drop n kept
    /\ (n = 0%nat \/ exists m part, n = S m /\ parts !! m = Some part /\ thinking_part part)
    /\ forall part, part ∈ drop n parts -> ~ thinking_part part.
(** Every part is there in its place; a note is a part of its own, or at the
    head of a text. *)
Definition kept_content (content out : host_value) (kept : list host_value) (extra : list string) : Prop :=
  match content, out with
  | HvText s, HvText t => kept = [] /\ t = py_join blank_line (extra ++ [s])
  | HvList parts, HvList out => Forall2 part_kept parts kept /\ notes_placed parts kept extra out
  | HvList parts, HvNone => parts = [] /\ kept = [] /\ extra = []
  | HvNone, HvList out => kept = [] /\ out = map (fun note => visible_text note) extra
  | HvNone, HvNone => kept = [] /\ extra = []
  | _, _ => False
  end.
Definition reasoning_field (payload : entries_of) (note : string) : Prop :=
  exists field reasoning, field ∈ ["reasoning_content"; "reasoning"] /\ map_entry payload field = Some (HvText reasoning) /\ note = reasoning_note reasoning.
(** A note that a reasoning part left among the parts *)
Definition part_note (content : host_value) (kept : list host_value) (note : string) : Prop :=
  exists parts i part, content = HvList parts /\ parts !! i = Some part /\ thinking_part part /\ kept !! i = Some (visible_text note).
(** The extra notes are the reasoning fields' texts that no reasoning part says
    already, each once. *)
Definition reasoning_kept (payload : entries_of) (content : host_value) (kept : list host_value) (extra : list string) : Prop :=
  NoDup extra /\ forall note, note ∈ extra <-> reasoning_field payload note /\ ~ part_note content kept note.
Definition projected_message (payload : entries_of) (m' : host_value) : Prop :=
  exists calls tool_call_id content content' kept extra,
    m' = assistant_record calls tool_call_id content' /\ neutral_content content'
    /\ reads (HvMap payload) "content" content
    /\ match calls with
       | Some cs => exists given, map_entry payload "tool_calls" = Some (HvList given) /\ Forall2 call_kept given cs
       | None => map_entry payload "tool_calls" = None
       end
    /\ HvText <$> tool_call_id = map_entry payload "tool_call_id"
    /\ kept_content content content' kept extra /\ reasoning_kept payload content kept extra.
(** What stands for a message in the contexts that leave *)
Definition assistant_mapping (m : host_value) (payload : entries_of) : Prop :=
  mapping_of m payload /\ map_entry payload "role" = Some (HvText "assistant").
Definition sent_for (m m' : host_value) : Prop := exists role, reads m "role" role
  /\ (role <> HvText "assistant" -> m' = m)
  /\ (role = HvText "assistant" ->
      exists payload, assistant_mapping m payload /\ ((m' = m /\ plain_payload payload) \/ projected_message payload m')).

Lemma mirrored payload field reasoning :
  text_of (Some (get payload field)) = Some reasoning <-> map_entry payload field = Some (HvText reasoning).
Proof. unfold get. destruct (map_entry payload field) as [[]|]; cbn; split; congruence. Qed.
Lemma mirror_notes_spec payload seen :
  NoDup (mirror_notes payload seen) /\ forall note, note ∈ mirror_notes payload seen <-> reasoning_field payload note /\ note ∉ seen.
Proof.
  assert (Hfield : forall note, reasoning_field payload note <->
    (exists r, text_of (Some (get payload "reasoning_content")) = Some r /\ note = reasoning_note r)
    \/ exists r, text_of (Some (get payload "reasoning")) = Some r /\ note = reasoning_note r).
  { intros note. split.
    - intros (field & r & Hf & Hr%mirrored & ->). apply elem_of_cons in Hf as [->|Hf]; [left; by exists r|].
      apply list_elem_of_singleton in Hf as ->. right. by exists r.
    - intros [(r & Hr%mirrored & ->)|(r & Hr%mirrored & ->)]; [exists "reasoning_content", r|exists "reasoning", r]; (split_and!; [set_solver|done|done]). }
  unfold mirror_notes. cbn [fold_left]. unfold mirror_note at 2 4. cbn [fst snd]. unfold mirror_note, _plain_text.
  change _reasoning_text with reasoning_note.
  assert (Hin : forall (note : string) l, py_in note l = bool_decide (note ∈ l)).
  { intros note l. apply Bool.eq_iff_eq_true. by rewrite py_in_spec, bool_decide_eq_true. }
  setoid_rewrite Hfield. destruct (text_of (Some (get payload "reasoning_content"))) as [a|], (text_of (Some (get payload "reasoning"))) as [b|]; cbn iota.
  all: rewrite ?Hin; repeat (case_bool_decide; cbn [fst snd app] in *; rewrite ?Hin).
  all: split; [repeat constructor; set_solver|]; intros note; split; [set_solver|].
  all: intros [[(r & [= <-] & ->)|(r & [= <-] & ->)] Hs]; set_solver.
Qed.
Lemma parts_placed parts state extra out : fold_result project_part parts no_parts = Ok state ->
  let kept := map part_projection parts in let n := default 0%nat (pj_boundary state) in
  out = take n kept ++ map text_part extra ++ drop n kept -> Forall2 part_kept parts kept /\ notes_placed parts kept extra out.
Proof.
  intros Hs kept n ->. destruct (project_parts_kept _ _ _ Hs) as (Hk & _ & Hb). split; [done|]. exists n. split; [done|].
  subst n. destruct Hb as [[-> Hnone]|(m & part & -> & Hm & Ht & Hafter)].
  - split; [by left|]. intros part Hin. by apply Hnone.
  - split; [right; by exists m, part|done].
Qed.
Lemma content_note content kept note :
  match content with HvList parts => exists state, fold_result project_part parts no_parts = Ok state /\ kept = map part_projection parts | _ => True end ->
  note ∈ content_notes content <-> part_note content kept note.
Proof.
  intros Hc. unfold content_notes, part_note. destruct content as [| | | |parts| |].
  5: { destruct Hc as (state & Hs & ->). rewrite Hs. destruct (project_parts_kept _ _ _ Hs) as (_ & Hn & _). rewrite Hn. split.
    - intros [Hin|(part & Hin & Ht & Hp)]; [by apply elem_of_nil in Hin|]. apply list_elem_of_lookup in Hin as [i Hi].
      exists parts, i, part. split_and!; [done..|]. rewrite <- Hp. change (map part_projection parts) with (part_projection <$> parts).
      by rewrite list_lookup_fmap, Hi.
    - intros (parts' & i & part & [= <-] & Hi & Ht & Hp). right. exists part. split_and!; [by eapply list_elem_of_lookup_2|done|].
      change (map part_projection parts) with (part_projection <$> parts) in Hp. rewrite list_lookup_fmap, Hi in Hp. by injection Hp. }
  all: split; [by intros ?%elem_of_nil|by intros (? & ? & ? & ? & _)].
Qed.
Lemma normalized_projected message m' : _normalized_assistant_message message = Ok (Some m') ->
  exists payload, _assistant_message_mapping message = Ok payload /\ projected_message payload m'.
Proof.
  intros (payload & calls & tool_call_id & content & base & extra & Hp & -> & Hcs & Hcn & Hid & Hneutral & Hnone & Hc & Hextra)%normalized_message_ok.
  exists payload. split; [done|].
  exists calls, tool_call_id, (get payload "content"), content, (match get payload "content" with HvList parts => map part_projection parts | _ => [] end), extra.
  split_and!; [done|done|apply get_reads| |done| |].
  - destruct calls as [cs|].
    + destruct (Hcs cs eq_refl) as (_ & v & -> & Hv). apply safe_calls_kept in Hv as (given & -> & Hv). by exists given.
    + by apply Hcn.
  - destruct (get payload "content") as [| | |s|parts| |]; try done; [by destruct content|by rewrite Hc|].
    destruct Hc as (-> & state & Hs & Hc). destruct content as [| | | |out| |]; try done.
    + destruct Hc as [Hnil ->]. rewrite Hnil. by destruct parts.
    + by apply (parts_placed parts state).
  - destruct (mirror_notes_spec payload (content_notes (get payload "content"))) as [Hn Hin]. rewrite <- Hextra in Hn, Hin.
    split; [done|]. intros note. rewrite Hin, content_note; [done|]. destruct (get payload "content"); try done.
    destruct Hc as (_ & state & Hs & _). by exists state.
Qed.
Lemma assistant_mapping_ok m payload : _assistant_message_mapping m = Ok payload -> assistant_mapping m payload.
Proof.
  unfold _assistant_message_mapping. intros (p & Hp%dumped_mapping_of & E)%result_bind_ok. apply raise_if_ok in E as [Hr [= <-]].
  split; [done|]. apply negb_false_iff, bool_decide_eq_true, mirrored in Hr. done.
Qed.
Lemma message_role_reads m role : message_role m = Some role -> reads m "role" role.
Proof. destruct m; try done; [intros [= <-]; apply get_reads|intros E; by constructor]. Qed.
Lemma normalize_message_sent m m' changed : normalize_message m = Ok (m', changed) -> sent_for m m' /\ (changed = false -> m' = m).
Proof.
  unfold normalize_message, sent_for. destruct (message_role m) as [role|] eqn:Hrole; [|done]. apply message_role_reads in Hrole.
  destruct (eqb_of _ _) eqn:Er; cbn [negb].
  - apply bool_decide_eq_true in Er. assert (role = HvText "assistant") as -> by (destruct role; cbn in Er; congruence).
    intros (replacement & Hr & [= E])%result_bind_ok. destruct replacement as [projected|]; injection E as <- <-.
    + split; [|done]. exists (HvText "assistant"). split_and!; [done|done|]. intros _.
      destruct (normalized_projected _ _ Hr) as (payload & Hp%assistant_mapping_ok & Hm). exists payload. split; [done|]. by right.
    + split; [|done]. exists (HvText "assistant"). split_and!; [done|done|]. intros _. unfold _normalized_assistant_message in Hr.
      apply result_bind_ok in Hr as (payload & Hp%assistant_mapping_ok & Hr).
      exists payload. split; [done|]. left. split; [done|]. apply unneeded_plain. apply result_bind_ok in Hr as (needed & Hn & Hr).
      destruct needed; [|done]. cbn [negb] in Hr. by repeat (apply result_bind_ok in Hr as (? & _ & Hr)).
  - intros [= <- <-]. split; [|done]. exists role. split_and!; [done|done|]. intros ->. discriminate.
Qed.
Lemma same_messages contexts normalized : Forall2 (fun m p => normalize_message m = Ok p) contexts normalized -> existsb snd normalized = false ->
  map fst normalized = contexts.
Proof.
  induction 1 as [|m [m' changed] contexts normalized Hm _ IH]; [done|]. cbn. intros [Hc Hr]%orb_false_iff. cbn in Hc.
  rewrite IH by done. by rewrite (proj2 (normalize_message_sent _ _ _ Hm) Hc).
Qed.
Lemma normalized_contexts contexts r : _normalize_openai_claude_contexts contexts = Ok r ->
  exists normalized, Forall2 (fun m p => normalize_message m = Ok p) contexts normalized /\ default contexts r = map fst normalized.
Proof.
  intros (normalized & Hn%map_result_ok & [= <-])%result_bind_ok. exists normalized. split; [done|].
  destruct (existsb snd normalized) eqn:E; [done|]. cbn. by rewrite (same_messages _ _ Hn E).
Qed.

(** ** Projecting again *)

Lemma neutral_safe part : neutral_part part -> _safe_content_part part = Ok (Some part, None).
Proof. by intros [s|v [s|url|url id]|v [s|url|url id]]. Qed.
Lemma neutral_needs part : neutral_part part -> part_needs part = Ok false.
Proof. by intros [s|v [s|url|url id]|v [s|url|url id]]. Qed.
Lemma neutral_parts_need parts : Forall neutral_part parts -> parts_need parts = Ok false.
Proof. induction 1 as [|part parts Hp _ IH]; [done|]. cbn [parts_need]. by rewrite (neutral_needs _ Hp). Qed.
Lemma neutral_project parts : Forall neutral_part parts -> forall state,
  fold_result project_part parts state = Ok {| pj_parts := pj_parts state ++ parts; pj_notes := pj_notes state; pj_boundary := pj_boundary state |}.
Proof.
  induction 1 as [|part parts Hp _ IH]; intros state; cbn [fold_result]; [rewrite app_nil_r; by destruct state|].
  assert (project_part state part = Ok {| pj_parts := pj_parts state ++ [part]; pj_notes := pj_notes state; pj_boundary := pj_boundary state |}) as ->
    by (unfold project_part; by rewrite (neutral_safe _ Hp)).
  cbn [mbind result_bind]. rewrite IH. cbn [pj_parts pj_notes pj_boundary]. by rewrite <- app_assoc.
Qed.
Lemma neutral_sidecar calls : Forall neutral_call calls -> sidecar_in calls = Ok false.
Proof. induction 1 as [|call calls [id name arguments _] _ IH]; [done|exact IH]. Qed.
Lemma neutral_calls calls : Forall neutral_call calls -> map_result safe_tool_call calls = Ok calls.
Proof. intros Hc. apply map_result_ok. induction Hc as [|call calls [id name arguments [|s]] _ IH]; constructor; done. Qed.
(** A projected record is projected to itself, or left as it is. *)
Lemma assistant_record_stable calls tool_call_id content : neutral_content content -> (content = HvNone -> is_some calls = true) ->
  (forall cs, calls = Some cs -> Forall neutral_call cs) ->
  exists changed, normalize_message (assistant_record calls tool_call_id content) = Ok (assistant_record calls tool_call_id content, changed).
Proof.
  intros Hneutral Hnone Hcalls. set (m := assistant_record calls tool_call_id content).
  assert (Hrole : message_role m = Some (HvText "assistant")) by done.
  set (payload := match m with HvMap entries => entries | _ => [] end).
  assert (Hp : _assistant_message_mapping m = Ok payload) by done.
  assert (Hc : get payload "content" = content) by by destruct calls, tool_call_id.
  assert (Hk : keys_within (_SAFE_ASSISTANT_FIELDS ++ _NATIVE_ASSISTANT_METADATA_FIELDS) payload = true) by by destruct calls, tool_call_id.
  assert (Hx : existsb (has_key payload) _NATIVE_ASSISTANT_METADATA_FIELDS = false) by by destruct calls, tool_call_id.
  assert (Htc : map_entry payload "tool_calls" = HvList <$> calls) by by destruct calls, tool_call_id.
  assert (Hid : map_entry payload "tool_call_id" = HvText <$> tool_call_id) by by destruct calls, tool_call_id.
  assert (Hmirror : mirror_notes payload [] = []) by by destruct calls, tool_call_id.
  assert (Hneeds : _assistant_needs_normalization payload = Ok (match calls with Some cs => nonempty cs | None => false end)).
  { unfold _assistant_needs_normalization. rewrite Hk, Hx, Htc, Hc. cbn [negb raise_if].
    assert (match HvList <$> calls with Some value => _tool_calls_need_projection value | None => Ok false end
      = Ok (match calls with Some cs => nonempty cs | None => false end)) as ->.
    { destruct calls as [cs|]; [|done]. cbn [fmap option_fmap option_map _tool_calls_need_projection]. by rewrite (neutral_sidecar cs) by by apply Hcalls. }
    cbn [mbind result_bind]. destruct (match calls with Some cs => _ | None => _ end); [done|]. destruct Hneutral; [done|done|by apply neutral_parts_need]. }
  unfold normalize_message. rewrite Hrole. cbn [text_of]. change (negb (eqb_of (Some "assistant") (Some "assistant"))) with false. cbn iota.
  unfold _normalized_assistant_message. rewrite Hp. cbn [mbind result_bind]. rewrite Hneeds. cbn [mbind result_bind].
  destruct (match calls with Some cs => _ | None => _ end) eqn:En; cbn [negb]; [|by exists false].
  destruct calls as [cs|]; [|done]. rewrite Hc.
  assert (Hproj : _projected_content_and_reasoning_notes payload content
    = Ok (match content with HvList parts => parts | _ => [] end, [])).
  { unfold _projected_content_and_reasoning_notes. destruct Hneutral as [|s|parts Hne Hparts]; cbn [mbind result_bind no_parts pj_notes pj_parts].
    - by rewrite Hmirror.
    - by rewrite Hmirror.
    - rewrite neutral_project by done. cbn [mbind result_bind no_parts pj_notes pj_parts pj_boundary app]. by rewrite Hmirror. }
  rewrite Hproj, Htc. cbn [mbind result_bind fmap option_fmap option_map _safe_tool_calls]. rewrite neutral_calls by by apply Hcalls. cbn [mbind result_bind].
  rewrite Hid. assert (match HvText <$> tool_call_id with Some (HvText s) => Ok [("tool_call_id", HvText s)] | Some _ => Err (Blocked "TOOL_CALL_ID_INVALID") | None => Ok [] end
    = (Ok (optional_field "tool_call_id" (HvText <$> tool_call_id)) : thinking _)) as -> by by destruct tool_call_id.
  cbn [mbind result_bind fst snd nonempty].
  assert (projected_content content (match content with HvList parts => parts | _ => [] end) [] true = Ok content) as ->.
  { destruct Hneutral as [|s|parts Hne Hparts]; [done|done|]. by destruct parts. }
  cbn [mbind result_bind]. by exists true.
Qed.
(** The projection is stable: what it lets through, it lets through again,
    message for message, so that a call that passes two wrappers is the same as
    one that passes one. *)
Theorem egress_projection_stable contexts r : _normalize_openai_claude_contexts contexts = Ok r ->
  exists r', _normalize_openai_claude_contexts (default contexts r) = Ok r' /\ default (default contexts r) r' = default contexts r.
Proof.
  intros (normalized & Hn & ->)%normalized_contexts.
  assert (exists again, map_result normalize_message (map fst normalized) = Ok again /\ map fst again = map fst normalized) as (again & Ha & Hf).
  { clear r. induction Hn as [|m [m' changed] contexts normalized Hm _ (again & Ha & Hf)]; [by exists []|]. cbn [map fst].
    assert (exists changed', normalize_message m' = Ok (m', changed')) as (changed' & Hm').
    { destruct changed.
      - unfold normalize_message in Hm. destruct (message_role m); [|done]. destruct (negb _); [done|]. apply result_bind_ok in Hm as (replacement & Hr & [= E]).
        destruct replacement as [projected|]; [|done]. injection E as ->.
        apply normalized_message_ok in Hr as (payload & calls & id & content & base & extra & _ & -> & Hcs & _ & _ & Hneutral & Hnone & _).
        apply assistant_record_stable; [done|done|]. intros cs Hc. by destruct (Hcs cs Hc).
      - pose proof (proj2 (normalize_message_sent _ _ _ Hm) eq_refl) as ->. exists false. exact Hm. }
    exists ((m', changed') :: again). cbn [map_result map fst]. rewrite Hm'. cbn [mbind result_bind]. rewrite Ha, Hf. done. }
  unfold _normalize_openai_claude_contexts. rewrite Ha. cbn [mbind result_bind]. eexists. split; [reflexivity|]. by destruct (existsb snd again).
Qed.

(** ** Concrete contexts *)

Definition toy_contexts : list host_value :=
  [record_of [("role", HvText "user"); ("content", HvText "hi")];
   record_of [("role", HvText "assistant"); ("reasoning_content", HvText "because"); ("signature", HvText "opaque");
              ("content", HvList [record_of [("type", HvText "thinking"); ("thinking", HvText "hm"); ("signature", HvText "opaque")];
                                  record_of [("type", HvText "text"); ("text", HvText "hello")]]);
              ("tool_calls", HvList [record_of [("id", HvText "1"); ("type", HvText "function"); ("sidecar", HvOther);
                                                ("function", record_of [("name", HvText "f"); ("arguments", HvNone)])]])]].
Definition toy_projected : list host_value :=
  [record_of [("role", HvText "user"); ("content", HvText "hi")];
   assistant_record (Some [record_of [("id", HvText "1"); ("type", HvText "function");
                                      ("function", record_of [("name", HvText "f"); ("arguments", HvNone)])]]) None
     (HvList [text_part (_reasoning_text "hm"); text_part (_reasoning_text "because"); text_part "hello"])].
Lemma toy_contexts_projected : _normalize_openai_claude_contexts toy_contexts = Ok (Some toy_projected).
Proof. vm_compute. reflexivity. Qed.
Lemma egress_projection_stable_witness : exists r', _normalize_openai_claude_contexts toy_projected = Ok r' /\ default toy_projected r' = toy_projected.
Proof. exact (egress_projection_stable toy_contexts (Some toy_projected) toy_contexts_projected). Defined.
(** The fields that make a mapping opaque are not looked for in an object: a
    text part that is an object leaves with its signature. *)
Example object_signature_leaves :
  let part := HvObject [("type", HvText "text"); ("text", HvText "hello"); ("signature", HvText "opaque")] NotCallable NotCallable in
  let mapping := record_of [("type", HvText "text"); ("text", HvText "hello"); ("signature", HvText "opaque")] in
  let message part := record_of [("role", HvText "assistant"); ("content", HvList [part])] in
  _normalize_openai_claude_contexts [message part] = Ok None
  /\ _normalize_openai_claude_contexts [message mapping] = Ok (Some [assistant_record None None (HvList [text_part "hello"])]).
Proof. split; vm_compute; reflexivity. Qed.
(** A part whose type is a mapping is not hashable: the [TypeError] is not the
    error that the module documents. *)
Example unhashable_type_escapes :
  _normalize_openai_claude_contexts
    [record_of [("role", HvText "assistant"); ("content", HvList [record_of [("type", record_of [])]])]] = Err UnhashableTypeError.
Proof. vm_compute. reflexivity. Qed.
(** A call with keywords only reaches the provider with the tool messages merged into its contexts. *)
Example keyword_call_rewritten :
  _rewrite_call ["my-provider"]
    {| pa_meta := MethodReturns (HvObject [("type", HvText "custom"); ("id", HvText "my-provider")] NotCallable NotCallable);
       pa_get_model := MethodReturns (HvText "claude-3") |}
    (Some [("prompt", POSITIONAL_OR_KEYWORD); ("contexts", POSITIONAL_OR_KEYWORD); ("kwargs", VAR_KEYWORD)])
    [HvText "go"]
    [("tool_calls_result", HvObject [] NotCallable (MethodReturns (HvList [record_of [("role", HvText "tool")]])))]
  = Ok ([HvText "go"; HvList [record_of [("role", HvText "tool")]]], [("tool_calls_result", HvNone)]).
Proof. vm_compute. reflexivity. Qed.
