(* ===== verification/Wrapping.v ===== *)
(** The wrappers of [adapters/provider_thinking.py]:
    [ProviderThinkingCompatibility] puts a watcher in front of the two methods
    of every compatible live provider and takes it away again.  Providers are
    attribute stores of their own, functions are compared by identity, and a
    binding stays alive inside its watchers after it was dropped. *)
From S2P Require Import Prelude PyString Domain Thinking.
Open Scope string_scope.
Open Scope list_scope.
Open Scope Z_scope.

(** ** Providers *)

Inductive Method := TextChat | TextChatStream.
#[export] Instance Method_eq_dec : EqDecision Method.
Proof. solve_decision. Defined.
(** What an attribute holds: a function of the host, a value that cannot be
    called, or the watcher of a binding. *)
Inductive attr_value := HostFunction (function : Z) | HostConstant | Watcher (binding : Z) (method : Method).
#[export] Instance attr_value_eq_dec : EqDecision attr_value.
Proof. solve_decision. Defined.
(** One attribute of an instance: what its class gives, what the instance holds,
    and which accesses succeed. *)
Record Slot := {
  sl_inherited : option attr_value; sl_own : option attr_value; sl_readable : bool; sl_settable : bool; sl_deletable : bool;
}.
Record Provider := { pv_text_chat : Slot; pv_text_chat_stream : Slot; pv_has_vars : bool }.
Definition slot (m : Method) (p : Provider) : Slot := match m with TextChat => pv_text_chat p | TextChatStream => pv_text_chat_stream p end.
Definition with_own (own : option attr_value) (s : Slot) : Slot :=
  {| sl_inherited := sl_inherited s; sl_own := own; sl_readable := sl_readable s; sl_settable := sl_settable s; sl_deletable := sl_deletable s |}.
Definition with_slot (m : Method) (s : Slot) (p : Provider) : Provider :=
  match m with
  | TextChat => {| pv_text_chat := s; pv_text_chat_stream := pv_text_chat_stream p; pv_has_vars := pv_has_vars p |}
  | TextChatStream => {| pv_text_chat := pv_text_chat p; pv_text_chat_stream := s; pv_has_vars := pv_has_vars p |}
  end.
(** [getattr(provider, name)] *)
Definition read_slot (s : Slot) : option attr_value :=
  if sl_readable s then match sl_own s with Some v => Some v | None => sl_inherited s end else None.
(** [setattr], [delattr]; [None] is their exception. *)
Definition set_slot (v : attr_value) (s : Slot) : option Slot := if sl_settable s then Some (with_own (Some v) s) else None.
Definition delete_slot (s : Slot) : option Slot := if sl_deletable s && is_some (sl_own s) then Some (with_own None s) else None.
(** [_instance_has_attribute] *)
Definition _instance_has_attribute (p : Provider) (m : Method) : bool := pv_has_vars p && is_some (sl_own (slot m p)).
Definition callable (v : attr_value) : bool := match v with HostConstant => false | _ => true end.

(** ** Bindings *)

Record Binding := {
  bd_provider : Z; bd_original : Method -> attr_value; bd_was_instance_attribute : Method -> bool; bd_active : bool;
}.
(** The object: its configuration, [_bindings] in insertion order, every binding
    that a watcher may still hold, and the providers as they are now. *)
Record Compatibility := {
  cm_configured : list string; cm_bindings : list (Z * Z); cm_store : gmap Z Binding; cm_next : Z; cm_providers : gmap Z Provider;
}.
(** [__init__] *)
Definition Compatibility_new (openai_compatible_provider_ids : list string) (providers : gmap Z Provider) : Compatibility :=
  {| cm_configured := configured_ids openai_compatible_provider_ids; cm_bindings := []; cm_store := ∅; cm_next := 0; cm_providers := providers |}.
Definition with_providers (providers : gmap Z Provider) (c : Compatibility) : Compatibility :=
  {| cm_configured := cm_configured c; cm_bindings := cm_bindings c; cm_store := cm_store c; cm_next := cm_next c; cm_providers := providers |}.
Definition with_bindings (bindings : list (Z * Z)) (store : gmap Z Binding) (c : Compatibility) : Compatibility :=
  {| cm_configured := cm_configured c; cm_bindings := bindings; cm_store := store; cm_next := cm_next c; cm_providers := cm_providers c |}.
Definition binding_of (c : Compatibility) (provider : Z) : option Z := snd <$> List.find (fun p => p.1 =? provider) (cm_bindings c).
Definition inactive (b : Binding) : Binding :=
  {| bd_provider := bd_provider b; bd_original := bd_original b; bd_was_instance_attribute := bd_was_instance_attribute b; bd_active := false |}.

(** [_restore] of one method, on the provider itself *)
Definition restored (id : Z) (b : Binding) (m : Method) (p : Provider) : Provider :=
  let s := slot m p in
  if negb (eqb_of (read_slot s) (Some (Watcher id m))) then p else
  match (if bd_was_instance_attribute b m then set_slot (bd_original b m) s else delete_slot s) with
  | Some s => with_slot m s p
  | None => p
  end.
(** Both methods, after [binding.active = False] *)
Definition release (id : Z) (b : Binding) (c : Compatibility) : Compatibility :=
  with_providers (alter (fun p => restored id b TextChatStream (restored id b TextChat p)) (bd_provider b) (cm_providers c))
    (with_bindings (cm_bindings c) (<[id := inactive b]> (cm_store c)) c).
(** [_disable_existing_binding] *)
Definition _disable_existing_binding (provider : Z) (c : Compatibility) : Compatibility :=
  match binding_of c provider with
  | None => c
  | Some id =>
      let c := with_bindings (List.filter (fun p => negb (p.1 =? provider)) (cm_bindings c)) (cm_store c) c in
      match cm_store c !! id with Some b => release id b c | None => c end
  end.
(** [_has_active_wrapper] *)
Definition _has_active_wrapper (provider : Z) (c : Compatibility) : bool :=
  match binding_of c provider, cm_providers c !! provider with
  | Some id, Some p =>
      match cm_store c !! id with
      | Some b => bd_active b && eqb_of (read_slot (slot TextChat p)) (Some (Watcher id TextChat))
                  && eqb_of (read_slot (slot TextChatStream p)) (Some (Watcher id TextChatStream))
      | None => false
      end
  | _, _ => false
  end.
Definition watched (id : Z) (m : Method) (p : Provider) : option Provider :=
  s ← set_slot (Watcher id m) (slot m p); Some (with_slot m s p).
(** [_install] *)
Definition _install (provider : Z) (c : Compatibility) : Compatibility * bool :=
  let c := _disable_existing_binding provider c in
  match cm_providers c !! provider with
  | None => (c, false)
  | Some p =>
      match read_slot (slot TextChat p), read_slot (slot TextChatStream p) with
      | Some original_text_chat, Some original_text_chat_stream =>
          if negb (callable original_text_chat) || negb (callable original_text_chat_stream) then (c, false) else
          let id := cm_next c in
          let b := {| bd_provider := provider;
                      bd_original := fun m => match m with TextChat => original_text_chat | TextChatStream => original_text_chat_stream end;
                      bd_was_instance_attribute := _instance_has_attribute p; bd_active := true |} in
          let c := {| cm_configured := cm_configured c; cm_bindings := cm_bindings c; cm_store := <[id := b]> (cm_store c); cm_next := id + 1;
                      cm_providers := cm_providers c |} in
          let failed p := (release id b (with_providers (<[provider := p]> (cm_providers c)) c), false) in
          match watched id TextChat p with
          | None => failed p
          | Some p =>
              match watched id TextChatStream p with
              | None => failed p
              | Some p => (with_providers (<[provider := p]> (cm_providers c)) (with_bindings (cm_bindings c ++ [(provider, id)]) (cm_store c) c), true)
              end
          end
      | _, _ => (c, false)
      end
  end.
(** The bindings of providers that are no longer live *)
Definition drop_dead (live : list Z) (c : Compatibility) : Compatibility :=
  fold_left (fun c p => if bool_decide (p.1 ∈ live) then c else _disable_existing_binding p.1 c) (cm_bindings c) c.
Section ensure.
Variable descriptor : Z -> option Descriptor.                (* what each provider's [meta()] answers *)
Definition ensure_provider (state : Compatibility * Z) (provider : Z) : Compatibility * Z :=
  let (c, wrapped) := state in
  match descriptor provider with
  | None => (_disable_existing_binding provider c, wrapped)
  | Some d =>
      if negb (_is_openai_compatible_descriptor (cm_configured c) d) then (_disable_existing_binding provider c, wrapped)
      else if _has_active_wrapper provider c then (c, wrapped)
      else let (c, installed) := _install provider c in (c, if installed : bool then wrapped + 1 else wrapped)
  end.
(** [ensure], of the providers the context lists; [None] is a context that lists none. *)
Definition ensure (providers : option (list Z)) (c : Compatibility) : Compatibility * Z :=
  match providers with
  | None => (c, 0)
  | Some providers => fold_left ensure_provider providers (drop_dead providers c, 0)
  end.
End ensure.
(** [terminate] *)
Definition terminate (c : Compatibility) : Compatibility :=
  fold_left (fun c p => match cm_store c !! p.2 with Some b => release p.2 b c | None => c end) (cm_bindings c) (with_bindings [] (cm_store c) c).
(** What a call through an attribute reaches: the host's function, and whether
    some active binding rewrote the call on its way. *)
Fixpoint call_reaches (fuel : nat) (c : Compatibility) (v : attr_value) : option (Z * bool) :=
  match fuel, v with
  | _, HostFunction function => Some (function, false)
  | S fuel, Watcher id m =>
      b ← cm_store c !! id;
      '(function, rewritten) ← call_reaches fuel c (bd_original b m);
      Some (function, bd_active b || rewritten)
  | _, _ => None
  end.
