(* ===== verification/WrappingProperties.v ===== *)
(** The wrappers are reversible: as long as the host leaves the two methods
    alone, every refresh wraps exactly the compatible live providers, and taking
    the wrappers away leaves every provider as it was found. *)
From S2P Require Import Prelude PyString Domain Thinking Wrapping.
Open Scope string_scope.
Open Scope list_scope.
Open Scope Z_scope.

(** ** One provider *)

(** What is set can be deleted, what an instance holds shows in [vars], and no
    watcher is there yet. *)
Record cooperative (p : Provider) : Prop := {
  co_deletable m : sl_settable (slot m p) = true -> sl_deletable (slot m p) = true;
  co_vars m : is_some (sl_own (slot m p)) = true -> pv_has_vars p = true;
  co_fresh m id m' : read_slot (slot m p) <> Some (Watcher id m');
}.
(** Both methods can be read, called and replaced. *)
Definition wrappable (p : Provider) : bool :=
  forallb (fun m => sl_settable (slot m p) && match read_slot (slot m p) with Some v => callable v | None => false end) [TextChat; TextChatStream].
Definition wrapped_by (id : Z) (p : Provider) : Provider :=
  {| pv_text_chat := with_own (Some (Watcher id TextChat)) (pv_text_chat p);
     pv_text_chat_stream := with_own (Some (Watcher id TextChatStream)) (pv_text_chat_stream p); pv_has_vars := pv_has_vars p |}.
(** The binding remembers what the provider was. *)
Definition remembers (b : Binding) (p : Provider) : Prop := forall m,
  read_slot (slot m p) = Some (bd_original b m) /\ bd_was_instance_attribute b m = _instance_has_attribute p m.

Lemma slot_with_same m s p : slot m (with_slot m s p) = s.
Proof. by destruct m. Qed.
Lemma slot_with_other m m' s p : m <> m' -> slot m (with_slot m' s p) = slot m p.
Proof. by destruct m, m'. Qed.
Lemma with_slot_id m p : with_slot m (slot m p) p = p.
Proof. by destruct m, p. Qed.
Lemma with_slot_twice m s s' p : with_slot m s (with_slot m s' p) = with_slot m s p.
Proof. by destruct m. Qed.
Lemma with_own_id s : with_own (sl_own s) s = s.
Proof. by destruct s. Qed.
Lemma slot_ext p q : (forall m, slot m p = slot m q) -> pv_has_vars p = pv_has_vars q -> p = q.
Proof. intros Hs Hv. pose proof (Hs TextChat) as H1. pose proof (Hs TextChatStream) as H2. destruct p, q. cbn in *. by subst. Qed.
Lemma restored_vars id b m p : pv_has_vars (restored id b m p) = pv_has_vars p.
Proof. unfold restored. destruct (negb _); [done|]. destruct (if bd_was_instance_attribute b m then _ else _); [|done]. by destruct m. Qed.
Lemma restored_other id b m m' p : m' <> m -> slot m' (restored id b m p) = slot m' p.
Proof. intros Hm. unfold restored. destruct (negb _); [done|]. destruct (if bd_was_instance_attribute b m then _ else _); [|done]. by apply slot_with_other. Qed.
(** Restoring gives the slot back, whether the watcher is in it or not. *)
Lemma restored_slot id b m p p0 : cooperative p0 -> remembers b p0 -> sl_settable (slot m p0) = true ->
  slot m p = with_own (Some (Watcher id m)) (slot m p0) -> slot m (restored id b m p) = slot m p0.
Proof.
  intros Hc Hr Hs E. destruct (Hr m) as [Ho Hw]. unfold restored. rewrite E.
  assert (Hrd : sl_readable (slot m p0) = true) by (unfold read_slot in Ho; by destruct (sl_readable _)).
  unfold read_slot. cbn [with_own sl_readable sl_own]. rewrite Hrd. cbn [negb].
  assert (negb (eqb_of (Some (Watcher id m)) (Some (Watcher id m))) = false) as -> by by rewrite eqb_of_refl.
  rewrite Hw. unfold _instance_has_attribute, read_slot in *. rewrite Hrd in Ho. destruct (sl_own (slot m p0)) as [v|] eqn:Eown.
  - rewrite (co_vars _ Hc m) by by rewrite Eown. cbn [andb is_some is_none negb]. unfold set_slot. cbn [with_own sl_settable]. rewrite Hs, slot_with_same.
    injection Ho as <-. unfold with_own. cbn. rewrite <- Eown. by destruct (slot m p0).
  - rewrite andb_false_r. unfold delete_slot. cbn [with_own sl_deletable sl_own is_some is_none negb]. rewrite (co_deletable _ Hc m Hs). cbn [andb].
    rewrite slot_with_same. unfold with_own. cbn. rewrite <- Eown. by destruct (slot m p0).
Qed.
Lemma restored_untouched id b m p p0 : cooperative p0 -> slot m p = slot m p0 -> restored id b m p = p.
Proof.
  intros Hc E. unfold restored. rewrite E. destruct (eqb_of _ _) eqn:Ee; [|done]. unfold eqb_of in Ee. apply bool_decide_eq_true in Ee.
  by apply (co_fresh _ Hc) in Ee.
Qed.
Lemma wrappable_spec p m : wrappable p = true -> sl_settable (slot m p) = true /\ exists v, read_slot (slot m p) = Some v /\ callable v = true.
Proof.
  unfold wrappable. rewrite forallb_forall. intros Hw. specialize (Hw m). rewrite andb_true_iff in Hw. destruct Hw as [Hs Hv]; [by destruct m; [left|right; left]|].
  split; [done|]. destruct (read_slot _) as [v|]; [by eauto|done].
Qed.
(** Both methods given back *)
Definition given_back (id : Z) (b : Binding) (p : Provider) : Provider := restored id b TextChatStream (restored id b TextChat p).
Lemma given_back_wrapped id b p0 : cooperative p0 -> remembers b p0 -> wrappable p0 = true -> given_back id b (wrapped_by id p0) = p0.
Proof.
  intros Hc Hr Hw. unfold given_back. apply slot_ext; [|by rewrite !restored_vars]. intros [].
  - rewrite restored_other by done. eapply restored_slot; [done|done|by apply wrappable_spec|done].
  - eapply restored_slot; [done|done|by apply wrappable_spec|]. by rewrite restored_other.
Qed.
Lemma given_back_untouched id b p0 : cooperative p0 -> given_back id b p0 = p0.
Proof. intros Hc. unfold given_back. rewrite (restored_untouched id b TextChat p0 p0) by done. by apply (restored_untouched id b TextChatStream p0 p0). Qed.
Lemma given_back_half id b p0 : cooperative p0 -> remembers b p0 -> sl_settable (slot TextChat p0) = true ->
  given_back id b (with_slot TextChat (with_own (Some (Watcher id TextChat)) (slot TextChat p0)) p0) = p0.
Proof.
  intros Hc Hr Hs. unfold given_back. set (p := with_slot _ _ p0).
  assert (E : restored id b TextChat p = p0).
  { apply slot_ext; [|by rewrite restored_vars]. intros []; [by eapply restored_slot|by rewrite restored_other]. }
  rewrite E. by apply (restored_untouched id b TextChatStream p0 p0).
Qed.

(** ** The invariant *)

Section invariant.
(** The providers as the host made them *)
Variable host : gmap Z Provider.
Hypothesis host_cooperative : forall provider p, host !! provider = Some p -> cooperative p.

Definition bound (c : Compatibility) : list Z := map fst (cm_bindings c).
Record compat_inv (c : Compatibility) : Prop := {
  ci_once : NoDup (bound c);
  ci_ids : NoDup (map snd (cm_bindings c));
  ci_bound provider id : (provider, id) ∈ cm_bindings c -> exists p0 b,
    host !! provider = Some p0 /\ wrappable p0 = true /\ cm_store c !! id = Some b /\ bd_provider b = provider /\ bd_active b = true /\ remembers b p0
    /\ cm_providers c !! provider = Some (wrapped_by id p0);
  ci_free provider : provider ∉ bound c -> cm_providers c !! provider = host !! provider;
  ci_active id b : cm_store c !! id = Some b -> bd_active b = true -> id ∈ map snd (cm_bindings c);
  ci_next id b : cm_store c !! id = Some b -> id < cm_next c;
}.
Lemma compat_new ids : compat_inv (Compatibility_new ids host).
Proof. split; cbn; try by (constructor || intros; try done). all: by intros ?? ?%elem_of_nil. Qed.
Lemma binding_of_spec c provider id : NoDup (bound c) -> binding_of c provider = Some id <-> (provider, id) ∈ cm_bindings c.
Proof.
  unfold binding_of, bound. induction (cm_bindings c) as [|[q i] l IH]; cbn [List.find map fst snd]; [by rewrite elem_of_nil|].
  intros [Hq Hl]%NoDup_cons. rewrite elem_of_cons. destruct (Z.eqb_spec q provider) as [->|Hne].
  - cbn. split; [intros [= ->]; by left|]. intros [[= ->]|Hin]; [done|]. exfalso. apply Hq, list_elem_of_fmap. by exists (provider, id).
  - rewrite IH by done. split; [by right|]. by intros [[= -> ->]|Hin].
Qed.
Lemma binding_of_none c provider : binding_of c provider = None <-> provider ∉ bound c.
Proof.
  unfold binding_of, bound. induction (cm_bindings c) as [|[q i] l IH]; cbn [List.find map fst snd]; [split; [intros _ ?%elem_of_nil; done|done]|].
  rewrite not_elem_of_cons. destruct (Z.eqb_spec q provider) as [->|Hne]; [by split; [|intros []]|]. rewrite IH. split; [by intros ?; split|by intros []].
Qed.
Lemma release_providers id b c : cm_providers (release id b c) = alter (given_back id b) (bd_provider b) (cm_providers c).
Proof. done. Qed.
(** What an unbound provider's binding leaves behind *)
Lemma disable_inv provider c : compat_inv c -> let c' := _disable_existing_binding provider c in
  compat_inv c' /\ cm_configured c' = cm_configured c /\ cm_bindings c' = List.filter (fun p => negb (p.1 =? provider)) (cm_bindings c).
Proof.
  intros Hc. unfold _disable_existing_binding. destruct (binding_of c provider) as [id|] eqn:Eb.
  2:{ cbv zeta. split_and!; [done..|]. symmetry. apply filter_all. intros [q i] Hin. apply binding_of_none in Eb. cbn.
      apply negb_true_iff, Z.eqb_neq. intros ->. apply Eb, list_elem_of_fmap. by exists (provider, i). }
  apply binding_of_spec in Eb; [|by apply Hc]. destruct (ci_bound _ Hc _ _ Eb) as (p0 & b & Hh & Hw & Hs & Hbp & Ha & Hr & Hp).
  cbn [with_bindings cm_store cm_bindings]. rewrite Hs. cbv zeta. split; [|by split].
  set (kept := List.filter (fun p => negb (p.1 =? provider)) (cm_bindings c)).
  assert (Hkept : forall q i, (q, i) ∈ kept <-> (q, i) ∈ cm_bindings c /\ q <> provider).
  { intros q i. unfold kept. rewrite elem_of_filter_bool. cbn. by rewrite negb_true_iff, Z.eqb_neq. }
  assert (Hid : forall q i, (q, i) ∈ kept -> i <> id).
  { intros q i [Hin Hne]%Hkept ->. apply Hne.
    by pose proof (NoDup_map_unique snd _ (q, id) (provider, id) (ci_ids _ Hc) Hin Eb eq_refl) as [= ->]. }
  assert (Hfree : provider ∉ map fst kept).
  { intros ([q i] & -> & Hin)%list_elem_of_fmap. apply Hkept in Hin as [_ Hne]. done. }
  split; cbn [release with_providers with_bindings cm_store cm_bindings cm_providers cm_next cm_configured]; unfold bound; cbn [cm_bindings].
  - apply NoDup_map_filter, Hc.
  - apply NoDup_map_filter, Hc.
  - intros q i Hin. destruct (proj1 (Hkept q i) Hin) as [Hin' Hne]. destruct (ci_bound _ Hc _ _ Hin') as (q0 & bq & H1 & H2 & H3 & H4 & H5 & H6 & H7).
    exists q0, bq. rewrite lookup_insert_ne by (intros E; by apply (Hid q i)). rewrite lookup_alter_ne by congruence. by split_and!.
  - intros q Hq. destruct (decide (q = provider)) as [->|Hne].
    + rewrite Hbp, lookup_alter, decide_True, Hp by done. cbn [fmap option_fmap option_map]. rewrite Hh. f_equal. by apply given_back_wrapped; [eapply host_cooperative|..].
    + rewrite lookup_alter_ne by congruence. apply (ci_free _ Hc). intros ([q' i] & -> & Hin)%list_elem_of_fmap. apply Hq, list_elem_of_fmap.
      exists (q', i). split; [done|]. apply Hkept. by split.
  - intros i bi Hi Hai. apply lookup_insert_Some in Hi as [[<- <-]|[Hne Hi]]; [done|]. apply (ci_active _ Hc) in Hi; [|done].
    apply list_elem_of_fmap in Hi as ([q i'] & -> & Hin). apply list_elem_of_fmap. exists (q, i'). split; [done|]. apply Hkept. split; [done|].
    intros ->. by pose proof (NoDup_map_unique fst _ (provider, i') (provider, id) (ci_once _ Hc) Hin Eb eq_refl) as [= ->].
  - intros i bi Hi. apply lookup_insert_Some in Hi as [[<- <-]|[Hne Hi]]; [|by eapply ci_next]. by eapply (ci_next _ Hc).
Qed.
Lemma disable_free provider c : compat_inv c -> provider ∉ bound (_disable_existing_binding provider c).
Proof.
  intros Hc. destruct (disable_inv provider c Hc) as (_ & _ & E). unfold bound. rewrite E. intros ([q i] & -> & Hin)%list_elem_of_fmap.
  apply elem_of_filter_bool in Hin as [_ Hne]. by rewrite Z.eqb_refl in Hne.
Qed.
Lemma disable_others provider c q : compat_inv c -> q <> provider -> q ∈ bound (_disable_existing_binding provider c) <-> q ∈ bound c.
Proof.
  intros Hc Hne. destruct (disable_inv provider c Hc) as (_ & _ & E). unfold bound. rewrite E, !list_elem_of_fmap. split.
  - intros (p & -> & [Hin _]%elem_of_filter_bool). by exists p.
  - intros (p & -> & Hin). exists p. split; [done|]. apply elem_of_filter_bool. split; [done|]. by apply negb_true_iff, Z.eqb_neq.
Qed.
(** A new binding whose installation failed half-way is given back at once. *)
Lemma failed_inv provider c p0 p b : compat_inv c -> provider ∉ bound c -> host !! provider = Some p0 ->
  bd_provider b = provider -> given_back (cm_next c) b p = p0 ->
  compat_inv (release (cm_next c) b (with_providers (<[provider := p]> (cm_providers c))
    {| cm_configured := cm_configured c; cm_bindings := cm_bindings c; cm_store := <[cm_next c := b]> (cm_store c); cm_next := cm_next c + 1;
       cm_providers := cm_providers c |})).
Proof.
  intros Hc Hfree Hh Hb Hr.
  split; cbn [release with_providers with_bindings cm_store cm_bindings cm_providers cm_next cm_configured]; unfold bound; cbn [cm_bindings]; try apply Hc.
  - intros q i Hin. destruct (ci_bound _ Hc _ _ Hin) as (q0 & bq & H1 & H2 & H3 & H4 & H5 & H6 & H7). exists q0, bq.
    assert (i < cm_next c) by by eapply ci_next. assert (q <> provider) by (intros ->; apply Hfree, list_elem_of_fmap; by exists (provider, i)).
    rewrite !lookup_insert_ne, Hb, lookup_alter_ne, lookup_insert_ne by (lia || congruence). by split_and!.
  - intros q Hq. rewrite Hb. destruct (decide (q = provider)) as [->|Hne].
    + rewrite lookup_alter, decide_True, lookup_insert, decide_True by done. cbn [fmap option_fmap option_map]. rewrite Hh. f_equal. exact Hr.
    + rewrite lookup_alter_ne, lookup_insert_ne by congruence. by apply (ci_free _ Hc).
  - intros i bi Hi Ha. apply lookup_insert_Some in Hi as [[<- <-]|[Hne Hi]]; [done|].
    apply lookup_insert_Some in Hi as [[<- <-]|[_ Hi]]; [done|]. by eapply ci_active.
  - intros i bi Hi. apply lookup_insert_Some in Hi as [[<- <-]|[Hne Hi]]; [lia|].
    apply lookup_insert_Some in Hi as [[<- <-]|[_ Hi]]; [lia|]. enough (i < cm_next c) by lia. by eapply ci_next.
Qed.
Lemma installed_inv provider c p0 b : compat_inv c -> provider ∉ bound c -> host !! provider = Some p0 -> wrappable p0 = true ->
  bd_provider b = provider -> bd_active b = true -> remembers b p0 ->
  compat_inv (with_providers (<[provider := wrapped_by (cm_next c) p0]> (cm_providers c)) (with_bindings (cm_bindings c ++ [(provider, cm_next c)])
    (<[cm_next c := b]> (cm_store c))
    {| cm_configured := cm_configured c; cm_bindings := cm_bindings c; cm_store := <[cm_next c := b]> (cm_store c); cm_next := cm_next c + 1;
       cm_providers := cm_providers c |})).
Proof.
  intros Hc Hfree Hh Hw Hb Ha Hr.
  assert (Hnew : forall q i, (q, i) ∈ cm_bindings c -> i < cm_next c).
  { intros q i Hin. destruct (ci_bound _ Hc _ _ Hin) as (q0 & bq & _ & _ & H3 & _). by eapply ci_next. }
  split; unfold bound; cbn [with_providers with_bindings cm_store cm_bindings cm_providers cm_next cm_configured].
  - rewrite map_app. apply NoDup_app. split_and!; [apply Hc| |apply NoDup_singleton]. intros q Hq Hq'%list_elem_of_singleton. by subst q.
  - rewrite map_app. apply NoDup_app. split_and!; [apply Hc| |apply NoDup_singleton].
    intros i ([q i'] & -> & Hin)%list_elem_of_fmap Hi%list_elem_of_singleton. cbn in Hi. apply Hnew in Hin. lia.
  - intros q i [Hin|Hin%list_elem_of_singleton]%elem_of_app.
    + destruct (ci_bound _ Hc _ _ Hin) as (q0 & bq & H1 & H2 & H3 & H4 & H5 & H6 & H7). exists q0, bq. pose proof (Hnew _ _ Hin).
      assert (q <> provider) by (intros ->; apply Hfree, list_elem_of_fmap; by exists (provider, i)).
      rewrite !lookup_insert_ne by (lia || congruence). by split_and!.
    + injection Hin as -> ->. exists p0, b. rewrite !lookup_insert, !decide_True by done. by split_and!.
  - intros q Hq. rewrite map_app, not_elem_of_app in Hq. destruct Hq as [Hq Hq']. rewrite lookup_insert_ne; [by apply (ci_free _ Hc)|].
    intros ->. apply Hq'. by apply list_elem_of_singleton.
  - intros i bi Hi Hai. rewrite map_app. apply elem_of_app. apply lookup_insert_Some in Hi as [[<- <-]|[_ Hi]]; [right; by apply list_elem_of_singleton|left; by eapply ci_active].
  - intros i bi Hi. apply lookup_insert_Some in Hi as [[<- <-]|[_ Hi]]; [lia|]. enough (i < cm_next c) by lia. by eapply ci_next.
Qed.
(** [_install] binds exactly what can be wrapped and touches nothing else. *)
Lemma install_inv provider c : compat_inv c -> let (c', installed) := _install provider c in
  compat_inv c' /\ cm_configured c' = cm_configured c
  /\ installed = match host !! provider with Some p => wrappable p | None => false end
  /\ (provider ∈ bound c' <-> installed = true) /\ forall q, q <> provider -> q ∈ bound c' <-> q ∈ bound c.
Proof.
  intros Hc0. unfold _install. destruct (disable_inv provider c Hc0) as (Hc & Hconf & _). pose proof (disable_free provider c Hc0) as Hfree.
  pose proof (fun q => disable_others provider c q Hc0) as Hothers. rewrite <- Hconf. clear Hconf. revert Hc Hfree Hothers.
  generalize (_disable_existing_binding provider c) as d. intros d Hc Hfree Hothers. rewrite (ci_free _ Hc _ Hfree).
  assert (Hfail : forall c', compat_inv c' -> cm_configured c' = cm_configured d -> cm_bindings c' = cm_bindings d ->
    compat_inv c' /\ cm_configured c' = cm_configured d /\ (provider ∈ bound c' <-> false = true) /\ (forall q, q <> provider -> q ∈ bound c' <-> q ∈ bound c)).
  { intros c' H1 H2 H3. unfold bound in *. rewrite H3. split_and!; try done. }
  destruct (host !! provider) as [p0|] eqn:Hh; [|destruct (Hfail d Hc eq_refl eq_refl) as (?&?&?&?); by split_and!].
  pose proof (host_cooperative _ _ Hh) as Hco.
  unfold wrappable. cbn [forallb]. rewrite andb_true_r.
  destruct (read_slot (slot TextChat p0)) as [chat|] eqn:Echat; [|rewrite andb_false_r; destruct (Hfail d Hc eq_refl eq_refl) as (?&?&?&?); by split_and!].
  destruct (read_slot (slot TextChatStream p0)) as [stream|] eqn:Estream; [|rewrite !andb_false_r; destruct (Hfail d Hc eq_refl eq_refl) as (?&?&?&?); by split_and!].
  destruct (callable chat) eqn:Cchat, (callable stream) eqn:Cstream; cbn [negb orb]; rewrite ?andb_false_r, ?andb_true_r; cbn [andb];
    try by destruct (Hfail d Hc eq_refl eq_refl) as (?&?&?&?); split_and!.
  set (b := {| bd_provider := provider; bd_original := _; bd_was_instance_attribute := _; bd_active := true |}).
  assert (Hr : remembers b p0) by by intros [].
  unfold watched at 1, set_slot at 1. destruct (sl_settable (slot TextChat p0)) eqn:Schat; cbn [mbind option_bind andb].
  2:{ destruct (Hfail (release (cm_next d) b (with_providers (<[provider := p0]> (cm_providers d))
        {| cm_configured := cm_configured d; cm_bindings := cm_bindings d; cm_store := <[cm_next d := b]> (cm_store d); cm_next := cm_next d + 1;
           cm_providers := cm_providers d |}))) as (?&?&?&?); [|done..|by split_and!].
      apply (failed_inv provider d p0 p0 b); try done. by apply given_back_untouched. }
  unfold watched at 1, set_slot at 1. rewrite slot_with_other by done. destruct (sl_settable (slot TextChatStream p0)) eqn:Sstream; cbn [mbind option_bind].
  2:{ destruct (Hfail (release (cm_next d) b (with_providers
          (<[provider := with_slot TextChat (with_own (Some (Watcher (cm_next d) TextChat)) (slot TextChat p0)) p0]> (cm_providers d))
        {| cm_configured := cm_configured d; cm_bindings := cm_bindings d; cm_store := <[cm_next d := b]> (cm_store d); cm_next := cm_next d + 1;
           cm_providers := cm_providers d |}))) as (?&?&?&?); [|done..|by split_and!].
      apply (failed_inv provider d p0); try done. by apply given_back_half. }
  assert (E : with_slot TextChatStream (with_own (Some (Watcher (cm_next d) TextChatStream)) (slot TextChatStream p0))
    (with_slot TextChat (with_own (Some (Watcher (cm_next d) TextChat)) (slot TextChat p0)) p0) = wrapped_by (cm_next d) p0) by done.
  rewrite E. cbv zeta. split_and!; [|done|done| |].
  - apply (installed_inv provider d p0 b); try done. unfold wrappable. cbn [forallb]. by rewrite Schat, Sstream, Echat, Estream, Cchat, Cstream.
  - split; [done|]. intros _. unfold bound. cbn. rewrite map_app. apply elem_of_app. right. by apply list_elem_of_singleton.
  - intros q Hne. rewrite <- Hothers by done. unfold bound. cbn. rewrite map_app, elem_of_app. cbn [map fst]. rewrite list_elem_of_singleton. tauto.
Qed.
Lemma active_wrapper_bound provider c : compat_inv c -> _has_active_wrapper provider c = true <-> provider ∈ bound c.
Proof.
  intros Hc. unfold _has_active_wrapper. destruct (binding_of c provider) as [id|] eqn:Eb.
  - apply binding_of_spec in Eb; [|by apply Hc]. destruct (ci_bound _ Hc _ _ Eb) as (p0 & b & Hh & Hw & Hs & Hbp & Ha & Hr & Hp).
    rewrite Hp, Hs, Ha. split; [intros _; apply list_elem_of_fmap; by exists (provider, id)|intros _].
    assert (Hread : forall m, read_slot (slot m (wrapped_by id p0)) = Some (Watcher id m)).
    { intros m. destruct (Hr m) as [Ho _]. unfold read_slot in *. destruct m; cbn in *; by destruct (sl_readable _). }
    by rewrite !Hread, !eqb_of_refl.
  - apply binding_of_none in Eb. split; [done|]. by intros ?%Eb.
Qed.

(** ** Refreshing and ending *)

Lemma drop_dead_inv (live : list Z) (l : list (Z * Z)) : forall c, compat_inv c ->
  let c' := fold_left (fun c (p : Z * Z) => if bool_decide (p.1 ∈ live) then c else _disable_existing_binding p.1 c) l c in
  compat_inv c' /\ cm_configured c' = cm_configured c /\ forall q, q ∈ bound c' <-> q ∈ bound c /\ (q ∈ live \/ q ∉ map fst l).
Proof.
  induction l as [|[p i] l IH]; intros c Hc; cbn [fold_left]; [split_and!; [done..|]; intros q; cbn [map]; rewrite elem_of_nil; tauto|].
  cbn [fst]. case_bool_decide as Hlive.
  - destruct (IH c Hc) as (H1 & H2 & H3). split_and!; [done..|]. intros q. rewrite H3. cbn [map fst]. rewrite not_elem_of_cons.
    destruct (decide (q = p)) as [->|]; tauto.
  - destruct (disable_inv p c Hc) as (Hd & Hconf & _). destruct (IH _ Hd) as (H1 & H2 & H3). split_and!; [done|congruence|]. intros q. rewrite H3.
    cbn [map fst]. rewrite not_elem_of_cons. destruct (decide (q = p)) as [->|Hne].
    + pose proof (disable_free p c Hc). tauto.
    + rewrite disable_others by done. tauto.
Qed.
Section ensuring.
Variable descriptor : Z -> option Descriptor.
(** The providers that a refresh wraps *)
Definition wraps (configured : list string) (provider : Z) : bool :=
  match descriptor provider with Some d => _is_openai_compatible_descriptor configured d | None => false end
  && match host !! provider with Some p => wrappable p | None => false end.
Lemma ensure_provider_inv c n provider : compat_inv c -> let c' := (ensure_provider descriptor (c, n) provider).1 in
  compat_inv c' /\ cm_configured c' = cm_configured c /\ (provider ∈ bound c' <-> wraps (cm_configured c) provider = true)
  /\ forall q, q <> provider -> q ∈ bound c' <-> q ∈ bound c.
Proof.
  intros Hc. pose proof (disable_inv provider c Hc) as (Hd & Hconf & _). pose proof (disable_free provider c Hc) as Hfree.
  pose proof (fun q => disable_others provider c q Hc) as Hothers. unfold ensure_provider, wraps.
  destruct (descriptor provider) as [d|]; [|by split_and!]. destruct (_is_openai_compatible_descriptor _ d); cbn [negb andb]; [|by split_and!].
  destruct (_has_active_wrapper provider c) eqn:Ea; cbn [fst].
  - apply active_wrapper_bound in Ea; [|done]. split_and!; [done..| |done]. split; [intros _|by intros].
    apply list_elem_of_fmap in Ea as ([q i] & -> & Hin). destruct (ci_bound _ Hc _ _ Hin) as (p0 & b & Hh & Hw & _). cbn [fst]. by rewrite Hh.
  - pose proof (install_inv provider c Hc) as Hi. destruct (_install provider c) as [c' installed]. destruct Hi as (H1 & H2 & H3 & H4 & H5). cbn [fst].
    split_and!; [done..| |done]. by rewrite H4, H3.
Qed.
Lemma ensure_fold providers : forall c n, compat_inv c -> let c' := (fold_left (ensure_provider descriptor) providers (c, n)).1 in
  compat_inv c' /\ cm_configured c' = cm_configured c
  /\ forall q, q ∈ bound c' <-> if bool_decide (q ∈ providers) then wraps (cm_configured c) q = true else q ∈ bound c.
Proof.
  induction providers as [|p providers IH]; intros c n Hc; [by split_and!|]. cbn [fold_left].
  pose proof (ensure_provider_inv c n p Hc) as (H1 & H2 & H3 & H4). destruct (ensure_provider descriptor (c, n) p) as [c1 n1]. cbn [fst] in *.
  destruct (IH c1 n1 H1) as (I1 & I2 & I3). split_and!; [done|congruence|]. intros q. rewrite I3, H2. destruct (decide (q = p)) as [->|Hne].
  - rewrite (bool_decide_eq_true_2 (p ∈ p :: providers)) by left. by case_bool_decide.
  - rewrite (bool_decide_ext (q ∈ p :: providers) (q ∈ providers)) by (rewrite elem_of_cons; tauto). case_bool_decide; [done|]. by apply H4.
Qed.
Lemma ensure_inv providers c : compat_inv c -> let c' := (ensure descriptor providers c).1 in
  compat_inv c' /\ cm_configured c' = cm_configured c
  /\ forall live, providers = Some live -> forall q, q ∈ bound c' <-> q ∈ live /\ wraps (cm_configured c) q = true.
Proof.
  intros Hc. destruct providers as [live|]; [|by split_and!]. cbn [ensure]. destruct (drop_dead_inv live (cm_bindings c) c Hc) as (H1 & H2 & H3).
  destruct (ensure_fold live _ 0 H1) as (I1 & I2 & I3). unfold drop_dead in *. split_and!; [done|congruence|]. intros l [= <-] q. rewrite I3.
  case_bool_decide; rewrite ?H2, ?H3; unfold bound; tauto.
Qed.
End ensuring.
Lemma terminate_fold l : forall c, compat_inv (with_bindings l (cm_store c) c) ->
  compat_inv (with_bindings [] (cm_store (fold_left (fun c (p : Z * Z) => match cm_store c !! p.2 with Some b => release p.2 b c | None => c end) l c))
    (fold_left (fun c (p : Z * Z) => match cm_store c !! p.2 with Some b => release p.2 b c | None => c end) l c)).
Proof.
  induction l as [|[q i] l IH]; intros c Hc; [done|]. cbn [fold_left snd].
  destruct (ci_bound _ Hc q i) as (p0 & b & _ & _ & Hs & Hbq & _); [by left|]. cbn [with_bindings cm_store] in Hs. rewrite Hs. apply IH.
  destruct (disable_inv q _ Hc) as (Hd & _ & _). unfold _disable_existing_binding in Hd.
  assert (binding_of (with_bindings ((q, i) :: l) (cm_store c) c) q = Some i) as E by (unfold binding_of; cbn; by rewrite Z.eqb_refl).
  rewrite E in Hd. cbn [with_bindings cm_store cm_bindings List.filter fst] in Hd. rewrite Z.eqb_refl, Hs in Hd. cbn [negb] in Hd.
  assert (Hl : List.filter (fun p => negb (p.1 =? q)) l = l).
  { apply filter_all. intros [q' i'] Hin. apply negb_true_iff, Z.eqb_neq. cbn. intros ->. pose proof (ci_once _ Hc) as Hn. cbn in Hn. apply NoDup_cons in Hn as [Hn _].
    apply Hn, list_elem_of_fmap. by exists (q, i'). }
  rewrite Hl in Hd. exact Hd.
Qed.
Lemma terminate_restores c : compat_inv c -> cm_providers (terminate c) = host /\ forall id b, cm_store (terminate c) !! id = Some b -> bd_active b = false.
Proof.
  intros Hc. assert (H0 : compat_inv (with_bindings (cm_bindings c) (cm_store (with_bindings [] (cm_store c) c)) (with_bindings [] (cm_store c) c))) by by destruct Hc; split.
  apply terminate_fold in H0. fold (terminate c) in H0. split.
  - apply map_eq. intros q. apply (ci_free _ H0). by intros ?%elem_of_nil.
  - intros id b Hb. destruct (bd_active b) eqn:Ea; [|done]. apply (ci_active _ H0) in Hb; [|done]. by apply elem_of_nil in Hb.
Qed.
End invariant.

(** ** The property *)

(** A run of refreshes, each with what the context lists and what the providers answer *)
Definition refreshed (runs : list (option (list Z) * (Z -> option Descriptor))) (c : Compatibility) : Compatibility :=
  fold_left (fun c run => (ensure run.2 run.1 c).1) runs c.
Lemma refreshed_inv host runs : (forall provider p, host !! provider = Some p -> cooperative p) -> forall c, compat_inv host c ->
  compat_inv host (refreshed runs c) /\ cm_configured (refreshed runs c) = cm_configured c.
Proof.
  intros Hco. induction runs as [|run runs IH]; intros c Hc; [done|]. cbn [refreshed fold_left].
  destruct (ensure_inv host Hco run.2 run.1 c Hc) as (H1 & H2 & _). destruct (IH _ H1) as [H3 H4]. split; [done|]. by rewrite <- H2.
Qed.
Lemma terminate_bindings c : cm_bindings (terminate c) = [].
Proof.
  unfold terminate. assert (H0 : cm_bindings (with_bindings [] (cm_store c) c) = []) by done. revert H0. generalize (with_bindings [] (cm_store c) c) as d.
  induction (cm_bindings c) as [|p l IH]; intros d Hd; [done|]. cbn [fold_left]. apply IH. by destruct (cm_store d !! p.2).
Qed.
(** C13. The egress wrappers are reversible and exact.  Whatever contexts are
    refreshed in whatever order, as long as the host leaves the two methods of
    its providers alone: after a refresh exactly the listed providers that are
    compatible, callable and settable carry the watchers, a call through one
    reaches the provider's own function and is rewritten once, and every other
    provider is as the host made it; and ending restores every provider, with no
    binding left active. *)
Theorem wrappers_reversible ids host runs listed descriptor : (forall provider p, host !! provider = Some p -> cooperative p) ->
  let c := refreshed runs (Compatibility_new ids host) in
  let refresh := (ensure descriptor (Some listed) c).1 in
  (forall provider p, host !! provider = Some p ->
     if bool_decide (provider ∈ listed) && wraps host descriptor (configured_ids ids) provider
     then exists id, cm_providers refresh !! provider = Some (wrapped_by id p)
       /\ forall m, exists f, read_slot (slot m p) = Some (HostFunction f) /\ call_reaches 2 refresh (Watcher id m) = Some (f, true)
     else cm_providers refresh !! provider = Some p)
  /\ cm_providers (terminate refresh) = host /\ cm_bindings (terminate refresh) = []
  /\ forall id b, cm_store (terminate refresh) !! id = Some b -> bd_active b = false.
Proof.
  intros Hco c refresh. destruct (refreshed_inv host runs Hco _ (compat_new host ids)) as [Hc Hconf]. fold c in Hc, Hconf. cbn [Compatibility_new cm_configured] in Hconf.
  destruct (ensure_inv host Hco descriptor (Some listed) c Hc) as (Hi & _ & Hbound). specialize (Hbound listed eq_refl). fold refresh in Hi, Hbound.
  split; [|destruct (terminate_restores host Hco _ Hi); split_and!; [done|apply terminate_bindings|done]].
  intros provider p Hh. rewrite Hconf in Hbound. destruct (bool_decide (provider ∈ listed) && _) eqn:Ew.
  - apply andb_true_iff in Ew as [Hl%bool_decide_eq_true Hw]. assert (Hin : provider ∈ bound refresh) by by apply Hbound.
    apply list_elem_of_fmap in Hin as ([q id] & -> & Hin). cbn [fst] in *.
    destruct (ci_bound _ _ Hi _ _ Hin) as (p0 & b & Hh' & Hwr & Hs & _ & Ha & Hr & Hp). assert (p0 = p) as -> by congruence. exists id. split; [done|].
    intros m. destruct (Hr m) as [Ho _]. destruct (wrappable_spec _ m Hwr) as (_ & v & Hv & Hcall). rewrite Ho in Hv. injection Hv as Hv.
    destruct v as [f| |id' m'] eqn:Ev; [|done|exfalso; eapply (co_fresh _ (Hco _ _ Hh) m); rewrite Ho, Hv; reflexivity].
    exists f. split; [congruence|]. cbn [call_reaches]. rewrite Hs. cbn [mbind option_bind]. rewrite Hv, Ha. reflexivity.
  - rewrite (ci_free _ _ Hi); [done|]. rewrite Hbound. intros [Hl Hw]. rewrite Hw, bool_decide_eq_true_2 in Ew by done. done.
Qed.

(** ** Concrete providers *)

Definition plain_slot (f : Z) : Slot := {| sl_inherited := Some (HostFunction f); sl_own := None; sl_readable := true; sl_settable := true; sl_deletable := true |}.
Definition toy_provider (f : Z) : Provider := {| pv_text_chat := plain_slot f; pv_text_chat_stream := plain_slot (f + 1); pv_has_vars := true |}.
Definition toy_host : gmap Z Provider := {[ 1 := toy_provider 10; 2 := toy_provider 20 ]}.
Definition toy_descriptors (provider : Z) : option Descriptor :=
  if provider =? 1 then Some ("openai_chat_completion", "a") else Some ("anthropic_chat_completion", "b").
Lemma toy_cooperative provider p : toy_host !! provider = Some p -> cooperative p.
Proof.
  intros H0. assert (p = toy_provider 10 \/ p = toy_provider 20) as [->| ->].
  { unfold toy_host in H0. apply lookup_insert_Some in H0 as [[_ <-]|[_ H0]]; [by left|]. apply lookup_singleton_Some in H0 as [_ <-]. by right. }
  all: split; [by intros []|by intros []|by intros [] ??].
Qed.
Lemma wrappers_reversible_witness :
  let refresh := (ensure toy_descriptors (Some [1; 2]) (Compatibility_new [] toy_host)).1 in
  cm_bindings refresh = [(1, 0)] /\ cm_providers refresh !! 2 = Some (toy_provider 20) /\ cm_providers (terminate refresh) = toy_host.
Proof.
  destruct (wrappers_reversible [] toy_host [] [1; 2] toy_descriptors toy_cooperative) as (Hp & Ht & _).
  split; [vm_compute; reflexivity|]. split; [exact (Hp 2 (toy_provider 20) eq_refl)|exact Ht].
Defined.
(** Another plugin that wraps the watcher keeps it in its chain: after the end
    the call passes through it unchanged. *)
Definition taken_over (c : Compatibility) : Compatibility :=
  with_providers (alter (fun p => with_slot TextChat (with_own (Some (HostFunction 99)) (slot TextChat p)) p) 1 (cm_providers c)) c.
Example takeover_survives :
  let c := terminate (taken_over (ensure toy_descriptors (Some [1]) (Compatibility_new [] toy_host)).1) in
  (read_slot ∘ slot TextChat <$> cm_providers c !! 1, call_reaches 2 c (Watcher 0 TextChat)) = (Some (Some (HostFunction 99)), Some (10, false)).
Proof. vm_compute. reflexivity. Qed.
