(* ===== verification/RetrievalProperties.v ===== *)
(** The candidate selection against a reference: the nine bounded loops of
    [select_candidates] compute a prefix of one list of blocks, in which the
    required sources come first, so optional material never displaces them. *)
From S2P Require Import Prelude PyString PyFloat Domain PyJson Records Views Segmenter Runtime Closure Budget BudgetProperties ToolLoop Retrieval.
From S2P Require Import GraphTypes GraphBuild GraphBuildProperties.
Open Scope string_scope.
Open Scope list_scope.
Open Scope Z_scope.

Section reference.
Context `{Unicode} `{FloatRepr}.
Variables (config : RetrievalConfig) (query : string).

(** ** The reference: every block the view has, in the order of the loops *)

Definition claim_blocks (capsule : ContextCapsuleEnvelope) : list CandidateBlock :=
  omap (goal_block config query capsule) (bounded_items config (cap_goals capsule))
  ++ omap (constraint_block config query capsule) (bounded_items config (cap_constraints capsule)).
Definition anchor_blocks (capsule : ContextCapsuleEnvelope) : list CandidateBlock :=
  omap (anchor_block config query capsule) (bounded_items config (cap_exact_anchors capsule)).
Definition evidence_blocks (capsule : ContextCapsuleEnvelope) : list CandidateBlock :=
  omap (decision_block config query capsule) (bounded_items config (cap_decisions capsule))
  ++ omap (entity_block config query capsule) (bounded_items config (cap_entities capsule))
  ++ omap (dependency_block config query capsule) (bounded_items config (cap_dependencies capsule)).
Definition bounded_capsules (view : RequestView) : list ContextCapsuleEnvelope :=
  map ms_capsule (take_z (rc_max_capsules config) (rv_memberships view)).
Definition bounded_units (view : RequestView) : list (list EventEnvelope) :=
  match durable_event_units (rv_delta view) with
  | Some units => _bounded_raw_units units (rc_max_delta_events config)
  | None => []
  end.
Definition required_blocks (view : RequestView) : list CandidateBlock :=
  flat_map claim_blocks (bounded_capsules view) ++ omap (raw_block config query) (bounded_units view)
  ++ flat_map anchor_blocks (bounded_capsules view).
Definition optional_blocks (view : RequestView) : list CandidateBlock :=
  omap (task_block config query) (bounded_capsules view) ++ flat_map evidence_blocks (bounded_capsules view)
  ++ omap (background_block config query) (bounded_capsules view).

(** ** The loops *)

Definition capacity : nat := Z.to_nat (rc_max_candidates config).
(** A stretch of the selection adds [xs] after whatever was added before, as far
    as the capacity goes, or meets a block the constructor refuses. *)
Definition valid_blocks (l : list CandidateBlock) : Prop := Forall (fun b => CandidateBlock_valid b = true) l.
Definition adds (m : list CandidateBlock -> result retrieval_error (list CandidateBlock)) (xs : list CandidateBlock) : Prop :=
  forall before, valid_blocks (take capacity before) ->
  match m (take capacity before) with
  | Ok selected => selected = take capacity (before ++ xs) /\ valid_blocks selected
  | Err _ => exists b, b ∈ xs /\ CandidateBlock_valid b = false
  end.

Lemma adds_seq m1 m2 xs1 xs2 : adds m1 xs1 -> adds m2 xs2 -> adds (fun s => s ← m1 s; m2 s) (xs1 ++ xs2).
Proof.
  intros H1 H2 before Hv. specialize (H1 before Hv). destruct (m1 _) as [s|e]; cbn [mbind result_bind].
  - destruct H1 as [-> Hv1]. specialize (H2 (before ++ xs1) Hv1). destruct (m2 _); [by rewrite app_assoc|].
    destruct H2 as (b & ? & ?). exists b. split; [|done]. apply elem_of_app. by right.
  - destruct H1 as (b & ? & ?). exists b. split; [|done]. apply elem_of_app. by left.
Qed.
Lemma adds_each {A} (build : A -> option CandidateBlock) items : adds (add_each config build items) (omap build items).
Proof.
  induction items as [|item items IH]; intros before Hv; [cbn; by rewrite app_nil_r|].
  cbn [add_each omap list_omap]. destruct (build item) as [b|]; [|by apply IH].
  unfold candidate, raise_if. destruct (CandidateBlock_valid b) eqn:Hb; cbn [negb mbind result_bind].
  2:{ exists b. split; [left|done]. }
  destruct (rc_max_candidates config <=? len (take capacity before)) eqn:Hfull; bool_hyps.
  - assert (capacity <= length before)%nat by (unfold len, capacity in *; rewrite length_take in Hfull; lia).
    by rewrite take_app_le by done.
  - unfold len in Hfull. rewrite length_take in Hfull. assert (length before < capacity)%nat by (unfold capacity in *; lia).
    rewrite (take_ge before) in Hv |- * by lia. specialize (IH (before ++ [b])).
    rewrite (take_ge (before ++ [b])) in IH by (rewrite length_app; cbn; lia).
    assert (valid_blocks (before ++ [b])) as Hvb by (apply Forall_app; split; [done|by repeat constructor]). specialize (IH Hvb).
    destruct (add_each _ _ _ _); [by rewrite <- app_assoc in IH|]. destruct IH as (c & ? & ?). exists c. split; [by right|done].
Qed.
Lemma adds_fold {A} (step : list CandidateBlock -> A -> result retrieval_error (list CandidateBlock)) (blocks : A -> list CandidateBlock) items :
  (forall x, adds (fun s => step s x) (blocks x)) -> adds (fun s => fold_result step items s) (flat_map blocks items).
Proof.
  intros Hstep. induction items as [|x items IH]; [intros before Hv; cbn; by rewrite app_nil_r|].
  cbn [fold_result flat_map]. by apply adds_seq.
Qed.
Lemma adds_claims capsule : adds (fun s => add_claims config query s capsule) (claim_blocks capsule).
Proof. apply adds_seq; apply adds_each. Qed.
Lemma adds_evidence capsule : adds (fun s => add_evidence config query s capsule) (evidence_blocks capsule).
Proof. apply adds_seq; [apply adds_each|]. apply (adds_seq (add_each config _ _) (add_each config _ _)); apply adds_each. Qed.
Lemma gathers view : adds (fun before => 
  selected ← fold_result (add_claims config query) (bounded_capsules view) before;
  selected ← add_each config (raw_block config query) (bounded_units view) selected;
  selected ← fold_result (add_anchors config query) (bounded_capsules view) selected;
  selected ← add_each config (task_block config query) (bounded_capsules view) selected;
  selected ← fold_result (add_evidence config query) (bounded_capsules view) selected;
  add_each config (background_block config query) (bounded_capsules view) selected)
  (required_blocks view ++ optional_blocks view).
Proof.
  unfold required_blocks, optional_blocks. rewrite <- !app_assoc.
  refine (adds_seq _ _ _ _ (adds_fold _ _ _ adds_claims) _). refine (adds_seq _ _ _ _ (adds_each _ _) _).
  refine (adds_seq _ _ _ _ (adds_fold _ _ _ (fun c => adds_each _ _)) _). refine (adds_seq _ _ _ _ (adds_each _ _) _).
  refine (adds_seq _ _ _ _ (adds_fold _ _ _ adds_evidence) _). apply adds_each.
Qed.
Lemma gathered view : match gather_candidates view query config with
  | Ok selected => selected = take capacity (required_blocks view ++ optional_blocks view)
      /\ valid_blocks selected
  | Err _ => exists b, b ∈ required_blocks view ++ optional_blocks view /\ CandidateBlock_valid b = false
  end.
Proof.
  pose proof (gathers view []) as Hg. rewrite take_nil in Hg. exact (Hg (Forall_nil_2 _)).
Qed.

(** [required_candidates_complete] only looks at ids, kinds and events. *)
Lemma complete_perm view l l' satisfied : l ≡ₚ l' ->
  required_candidates_complete view l satisfied = required_candidates_complete view l' satisfied.
Proof.
  intros Hl. unfold required_candidates_complete, block_ids. f_equal; apply eq_iff_eq_true; rewrite !subset_of_spec;
    (split; intros Hs x Hx; specialize (Hs x Hx); revert Hs).
  1,2: rewrite !list_elem_of_fmap; setoid_rewrite Hl; done.
  all: rewrite !list_elem_of_In, !in_flat_map; setoid_rewrite filter_In; setoid_rewrite <- list_elem_of_In; setoid_rewrite Hl; done.
Qed.
Lemma candidate_marked l : valid_blocks l ->
  map_result (fun c => candidate (mark_incomplete c)) l = Ok (map mark_incomplete l).
Proof.
  unfold valid_blocks. rewrite Forall_forall. intros Hl. apply map_result_run. intros b Hb. unfold candidate, raise_if.
  by change (CandidateBlock_valid (mark_incomplete b)) with (CandidateBlock_valid b); rewrite (Hl b Hb).
Qed.

(** ** Nothing required is left out of a view within the bounds *)

(** A view within the configured bounds. *)
Record fits_capacity (view : RequestView) : Prop := {
  fits_capsules : len (rv_memberships view) <= rc_max_capsules config;
  fits_items m : m ∈ rv_memberships view -> len (cap_goals (ms_capsule m)) <= rc_max_items_per_field config
    /\ len (cap_constraints (ms_capsule m)) <= rc_max_items_per_field config
    /\ len (cap_exact_anchors (ms_capsule m)) <= rc_max_items_per_field config;
  fits_delta : is_some (durable_event_units (rv_delta view)) = true /\ len (rv_delta view) <= rc_max_delta_events config;
  fits_candidates : len (required_blocks view) <= rc_max_candidates config;
}.
Lemma take_units_all units : forall selected count limit, count + len (concat units) <= limit ->
  take_units units selected count limit = selected ++ units.
Proof.
  induction units as [|u units IH]; intros selected count limit Hl; [cbn; by rewrite app_nil_r|].
  cbn [take_units concat] in *. rewrite len_app in Hl. assert (0 <= len (concat units)) by apply len_nonneg.
  rewrite (proj2 (Z.ltb_ge limit (count + len u))), andb_false_r by lia. rewrite IH by lia. by rewrite <- app_assoc.
Qed.
Lemma len_concat_rev {A} (l : list (list A)) : len (concat (rev l)) = len (concat l).
Proof.
  induction l as [|x l IH]; [done|]. cbn [rev concat]. rewrite concat_app, !len_app, IH. cbn. rewrite app_nil_r. lia.
Qed.
Lemma bounded_units_all view : fits_capacity view -> concat (bounded_units view) = rv_delta view.
Proof.
  intros [_ _ [Hd Hl] _]. unfold bounded_units. destruct (durable_event_units _) as [units|] eqn:Hu; [|done].
  apply durable_units_sound in Hu as (_ & Hu & _). unfold _bounded_raw_units. destruct (_ <? 1) eqn:Hone; bool_hyps.
  - destruct (rv_delta view); [done|]. unfold len in Hl. cbn in Hl. lia.
  - rewrite take_units_all by (rewrite len_concat_rev, Hu; lia). cbn [app]. by rewrite rev_involutive.
Qed.
Lemma elem_of_omap_build {A} (build : A -> option CandidateBlock) (items : list A) x b : x ∈ items -> build x = Some b -> b ∈ omap build items.
Proof. intros Hx Hb. apply list_elem_of_omap. eauto. Qed.
Lemma elem_of_flat {A B} (f : A -> list B) l y : y ∈ flat_map f l <-> exists x, x ∈ l /\ y ∈ f x.
Proof. rewrite list_elem_of_In, in_flat_map. by setoid_rewrite list_elem_of_In. Qed.

Lemma required_ids_present view id : fits_capacity view -> id ∈ flat_map (fun m => capsule_required_ids (ms_capsule m)) (rv_memberships view) ->
  id ∈ block_ids (required_blocks view).
Proof.
  intros [Hc Hi _ _] (m & Hm & Hid)%elem_of_flat. destruct (Hi m Hm) as (Hg & Hk & Ha).
  assert (ms_capsule m ∈ bounded_capsules view) as Hcap.
  { unfold bounded_capsules. rewrite take_z_all by done. apply list_elem_of_fmap. by exists m. }
  unfold capsule_required_ids in Hid. unfold block_ids, required_blocks. apply list_elem_of_fmap.
  assert (forall b, cb_block_id b = id -> b ∈ claim_blocks (ms_capsule m) \/ b ∈ anchor_blocks (ms_capsule m) ->
    exists b, id = cb_block_id b /\ b ∈ required_blocks view) as Hfound.
  { intros b <- Hb. exists b. split; [done|]. unfold required_blocks. rewrite !elem_of_app, !elem_of_flat.
    destruct Hb; [left|right; right]; by exists (ms_capsule m). }
  unfold claim_blocks, anchor_blocks, bounded_items in Hfound. rewrite !take_z_all in Hfound by done.
  rewrite !elem_of_app, !list_elem_of_fmap in Hid.
  destruct Hid as [(c & -> & [Hin Hs]%elem_of_filter_bool)|[(c & -> & [Hin Hs]%elem_of_filter_bool)|(c & -> & [Hin Hs]%elem_of_filter_bool)]].
  - eapply Hfound; [|left; apply elem_of_app; left; eapply elem_of_omap_build; [exact Hin|]; unfold goal_block; rewrite Hs; reflexivity]. done.
  - eapply Hfound; [|left; apply elem_of_app; right; eapply elem_of_omap_build; [exact Hin|]; unfold constraint_block; rewrite Hs; reflexivity]. done.
  - eapply Hfound; [|right; eapply elem_of_omap_build; [exact Hin|]; unfold anchor_block; rewrite Hs; reflexivity]. done.
Qed.
Lemma required_events_present view event : fits_capacity view -> event ∈ rv_delta view ->
  exists b, b ∈ required_blocks view /\ cb_kind b = RAW_EVENT /\ ev_event_id event ∈ cb_source_event_ids b.
Proof.
  intros Hf He. rewrite <- (bounded_units_all view Hf) in He. apply list_elem_of_In, in_concat in He as (unit & Hu & He).
  apply list_elem_of_In in Hu, He. destruct unit as [|item rest]; [by apply elem_of_nil in He|].
  eexists. split; [|split].
  - unfold required_blocks. rewrite !elem_of_app. right; left. eapply elem_of_omap_build; [exact Hu|]. reflexivity.
  - reflexivity.
  - cbn [cb_source_event_ids]. apply (list_elem_of_fmap_2 ev_event_id _ _ He).
Qed.
Lemma fits_complete view : fits_capacity view ->
  required_candidates_complete view (take capacity (required_blocks view ++ optional_blocks view)) [] = true.
Proof.
  intros Hf. pose proof Hf as [_ _ _ Hn]. rewrite take_app, take_ge by (unfold len, capacity in *; lia).
  unfold required_candidates_complete. apply andb_true_iff. split; apply subset_of_spec; intros id Hid.
  - unfold block_ids. rewrite map_app. apply elem_of_app. left. by apply required_ids_present.
  - apply elem_of_filter_bool in Hid as [Hid _]. apply list_elem_of_fmap in Hid as (event & -> & He).
    destruct (required_events_present view event Hf He) as (b & Hb & Hk & Hin). apply elem_of_flat. exists b. split; [|done].
    apply elem_of_filter_bool. split; [apply elem_of_app; by left|]. unfold eqb_of. by apply bool_decide_eq_true.
Qed.
End reference.

(** C24. The selection against its reference.  The nine bounded loops return, in
    the retrieval order, the first [max_candidates] blocks of one list that has
    every required source (goals, constraints, Delta units, anchors) before any
    optional one; when that leaves out a required source of the view, every
    block returned is marked incomplete, so the truncation is never silent.  A
    view within the bounds, with a durable Delta and no more required blocks
    than candidates are allowed, loses no required source.  The selection fails
    only on a block its constructor refuses. *)
Theorem select_candidates_exact `{Unicode} `{FloatRepr} (view : RequestView) (query : string) (config : RetrievalConfig) :
  let normalized := _normalized_query config query in
  let every_block := required_blocks config normalized view ++ optional_blocks config normalized view in
  let kept := take (Z.to_nat (rc_max_candidates config)) every_block in
  match select_candidates view query config with
  | Ok blocks => blocks = (if required_candidates_complete view kept [] then py_sorted retrieval_lt kept
                           else map mark_incomplete (py_sorted retrieval_lt kept))
      /\ valid_blocks blocks
  | Err _ => exists b, b ∈ every_block /\ CandidateBlock_valid b = false
  end
  /\ (fits_capacity config normalized view -> required_candidates_complete view kept [] = true).
Proof.
  intros normalized every_block kept. split; [|apply fits_complete].
  unfold select_candidates. fold normalized. pose proof (gathered config normalized view) as Hg.
  destruct (gather_candidates view normalized config) as [selected|]; cbn [mbind result_bind]; [|exact Hg].
  destruct Hg as [-> Hv]. change (take _ _) with kept in Hv |- *. rewrite (complete_perm view _ _ [] (py_sorted_perm retrieval_lt kept)).
  assert (valid_blocks (py_sorted retrieval_lt kept)) as Hs by by unfold valid_blocks; rewrite py_sorted_perm.
  destruct (required_candidates_complete view kept []); cbn [negb]; [done|].
  rewrite candidate_marked by done. split; [done|]. unfold valid_blocks. by rewrite Forall_map.
Qed.

(** A capsule with a goal and an event that follows it. *)
Definition toy_retrieval_view : RequestView :=
  {| rv_session_key := example_key; rv_snapshot := None;
     rv_memberships := [{| ms_ordinal := 0; ms_slot := "task"; ms_capsule := example_capsule "capsule-1" 1 |}];
     rv_pointer_version := 1; rv_covered_event_end := 1; rv_high_water_mark := 2; rv_delta := [example_event 2] |}.
#[local] Instance toy_float_repr : FloatRepr := fun _ => [].
Lemma toy_view_fits : fits_capacity (H := ascii_unicode) default_retrieval_config "" toy_retrieval_view.
Proof.
  split.
  - vm_compute. discriminate.
  - intros m ->%list_elem_of_singleton. vm_compute. split_and!; discriminate.
  - vm_compute. split; [reflexivity|discriminate].
  - vm_compute. discriminate.
Qed.
Lemma select_candidates_exact_witness :
  required_candidates_complete toy_retrieval_view
    (take (Z.to_nat (rc_max_candidates default_retrieval_config))
       (required_blocks (H := ascii_unicode) default_retrieval_config "" toy_retrieval_view
        ++ optional_blocks (H := ascii_unicode) default_retrieval_config "" toy_retrieval_view)) [] = true.
Proof. exact (proj2 (select_candidates_exact (H := ascii_unicode) toy_retrieval_view "" default_retrieval_config) toy_view_fits). Defined.
(** Two required sources, one place: the block returned is marked. *)
Example truncation_marked :
  match select_candidates (H := ascii_unicode) toy_retrieval_view ""
          {| rc_max_query_characters := 8; rc_max_capsules := 1; rc_max_delta_events := 1; rc_max_candidates := 1;
             rc_max_items_per_field := 4; rc_max_lexical_characters_per_candidate := 8; rc_goal_weight := f_one;
             rc_constraint_weight := f_one; rc_raw_delta_weight := f_one; rc_exact_anchor_weight := f_one; rc_task_weight := f_one;
             rc_decision_weight := f_one; rc_entity_weight := f_one; rc_dependency_weight := f_one; rc_background_weight := f_one;
             rc_lexical_weight := f_one |} with
  | Ok blocks => map (fun b => (cb_block_id b, cb_required_selection_complete b)) blocks
  | Err _ => []
  end = [("goal:capsule-1:goal-1", false)].
Proof. vm_compute. reflexivity. Qed.
