(* ===== verification/Repository.v ===== *)
(** The repository as a transition system: one step per operation, the invariant
    of every store the operations can build, and how a store may evolve. *)
From S2P Require Import Prelude PyString PyFloat Domain Validation PyJson Crypto Store Records.
From S2P Require Import Instances TokenMetrics Journal Jobs JobProperties Views Publish.
From S2P Require Import PublishLemmas Backfill.
Open Scope string_scope.
Open Scope list_scope.
Open Scope Z_scope.

(** ** Steps *)

Section steps_of_the_repository.
Context `{Sha256, StorageCodec, Environment}.

(** One call of an operation, whatever it returns.  The arguments are values
    pydantic and the dataclasses accept; reads are not steps, since they run
    on read-only connections. *)
Inductive repo_step (d : db) : db -> Prop :=
| step_capture ns id k ty c ik tc canon t r d' : nonces_ok ns -> SessionKey_valid k = true ->
    _capture_event ns id k ty c ik tc canon t d = (r, d') -> repo_step d d'
| step_intent id k target t r d' :
    raise_compaction_intent id k target t d = (r, d') -> repo_step d d'
| step_claim worker t lease r d' : claim_job worker t lease d = (r, d') -> repo_step d d'
| step_transition id owner epoch to t cand r d' :
    transition_job id owner epoch to t cand d = (r, d') -> repo_step d d'
| step_renew id owner epoch t lease r d' :
    renew_job_lease id owner epoch t lease d = (r, d') -> repo_step d d'
| step_fail id owner epoch t s c m retry preserve r d' :
    fail_job id owner epoch t s c m retry preserve d = (r, d') -> repo_step d d'
| step_recover t r d' : recover_expired_leases t d = (r, d') -> repo_step d d'
| step_publish ns id owner epoch cand ms metrics records ceiling t r d' : nonces_ok ns ->
    (forall m, m ∈ ms -> ContextCapsuleEnvelope_valid (ms_capsule m) = true) ->
    publish_snapshot ns id owner epoch cand ms metrics records ceiling t d = (r, d') -> repo_step d d'
| step_backfill ns k metrics t r d' :
    write_metric_backfill_batch ns k metrics t d = (r, d') -> repo_step d d'.

(** A store built from an empty database. *)
Inductive reachable : db -> Prop :=
| reachable_empty : reachable empty_db
| reachable_step d d' : reachable d -> repo_step d d' -> reachable d'.
(** A store some steps later. *)
Inductive later (d : db) : db -> Prop :=
| later_refl : later d d
| later_step d1 d2 : later d d1 -> repo_step d1 d2 -> later d d2.
End steps_of_the_repository.

(** ** Job changes *)

(** A Job's intent lies in its session's Journal, and its base is a Snapshot of
    its session that covers less than its target. *)
Definition job_grounded (d : db) (r : JobRow) : Prop :=
  (exists srow, srow ∈ sessions d /\ se_hash srow = jr_session r
                /\ jr_intent r < se_next_event_sequence srow)
  /\ (forall b, jr_base r = Some b -> exists row, row ∈ snapshots d /\ nr_snapshot_id row = b
                /\ nr_session row = jr_session r /\ nr_covered_event_end row < jr_target r).
Definition jobs_grounded (d : db) : Prop := forall r, r ∈ compaction_jobs d -> job_grounded d r.

Definition job_change (d : db) (r r' : JobRow) : Prop :=
  job_advance r r' /\ (job_grounded d r -> job_grounded d r').
(** The Job table is rewritten row by row; no other table changes. *)
Definition jobs_map (d d' : db) : Prop := exists g, d' = set_jobs (map g (compaction_jobs d)) d
  /\ forall r, r ∈ compaction_jobs d -> job_change d r (g r).
Definition jobs_step (d d' : db) : Prop :=
  schema_ok d = true -> schema_ok d' = true /\ jobs_map d d'.

Lemma set_jobs_same d : set_jobs (compaction_jobs d) d = d.
Proof. by destruct d. Qed.
Lemma jobs_map_refl d : jobs_map d d.
Proof. exists id. rewrite map_id, set_jobs_same. split; [done|]. intros r _. by split. Qed.

#[export] Instance jobs_step_preorder : PreOrder jobs_step.
Proof.
  split.
  - intros d Hd. split; [done|]. apply jobs_map_refl.
  - intros a b c Hab Hbc Ha. destruct (Hab Ha) as [Hb (g & -> & Hg)].
    destruct (Hbc Hb) as [Hc (h & -> & Hh)]. split; [done|]. exists (h ∘ g).
    cbn [compaction_jobs set_jobs] in *. split; [by rewrite map_map|].
    intros r Hr. destruct (Hg r Hr) as [A1 A2].
    destruct (Hh (g r)) as [B1 B2]; [apply list_elem_of_fmap; eauto|].
    split; [by etransitivity|]. intros Hgr. by apply B2, A2.
Qed.

Lemma jobs_map_advance d d' : jobs_map d d' -> jobs_advance d d'.
Proof. intros (g & -> & Hg). apply jobs_advance_map. intros r Hr. by apply Hg. Qed.
Lemma jobs_map_grounded d d' : jobs_map d d' -> jobs_grounded d -> jobs_grounded d'.
Proof.
  intros (g & -> & Hg) Hgr x Hx. cbn [compaction_jobs set_jobs] in Hx.
  apply list_elem_of_fmap in Hx as (r & -> & Hr). apply (proj2 (Hg r Hr)). by apply Hgr.
Qed.

Lemma same_place_grounded d r r' : jr_session r' = jr_session r -> jr_base r' = jr_base r ->
  jr_target r' = jr_target r -> jr_intent r' = jr_intent r -> job_grounded d r -> job_grounded d r'.
Proof. unfold job_grounded. by intros -> -> -> ->. Qed.

(** An update of working rows that keeps their place. *)
Lemma jobs_step_update p f :
  (forall d r, schema_ok d = true -> r ∈ compaction_jobs d -> p r = true ->
     working (jr_state r) = true) ->
  (forall r, working (jr_state r) = true -> job_advance r (f r)) ->
  (forall r, jr_base (f r) = jr_base r /\ jr_target (f r) = jr_target r
             /\ jr_intent (f r) = jr_intent r) ->
  steps_by jobs_step (update_jobs p f).
Proof.
  intros Hp Ha Hk d n d' E Hd. split; [by eapply schema_update_jobs|].
  apply update_rows_ok in E as (_ & _ & ->). exists (fun r => if p r then f r else r).
  split; [done|]. intros r Hr. destruct (p r) eqn:Ep; [|by split].
  pose proof (Ha r (Hp d r Hd Hr Ep)) as Hadv. split; [done|].
  destruct (Hk r) as (? & ? & ?). apply same_place_grounded; try done. apply Hadv.
Qed.

Lemma leased_working d r : schema_ok d = true -> r ∈ compaction_jobs d ->
  jr_lease_owner r <> None -> working (jr_state r) = true.
Proof.
  intros Hd Hr Ho. destruct (job_rows_ok d r Hd Hr) as ((_ & _ & (_ & _ & L & _))%job_row_ok_parts & _).
  destruct (working (jr_state r)); [done|]. by destruct (L eq_refl).
Qed.
Lemma fenced_working id owner epoch now d r : schema_ok d = true -> r ∈ compaction_jobs d ->
  fenced id owner epoch now r = true -> working (jr_state r) = true.
Proof.
  intros Hd Hr Hf. unfold fenced in Hf. rewrite !andb_true_iff in Hf.
  destruct Hf as [[[_ Ho%bool_decide_eq_true] _] _]. eapply leased_working; [done..|]. by rewrite Ho.
Qed.

Section job_steps.
Context `{Sha256, StorageCodecLaws, !Environment, !EnvironmentLaws}.

Lemma steps_job_by_id id : steps_by jobs_step (_job_by_id id).
Proof. unfold _job_by_id, job_row_by_id, session_by_hash. steps_by_tac. Qed.
Lemma steps_require_fence id owner epoch now : steps_by jobs_step (_require_live_fence id owner epoch now).
Proof. unfold _require_live_fence, job_row_by_id. steps_by_tac. Qed.

(** A failed transaction leaves the database as it was. *)
Lemma transaction_step {A} (m : tx A) d r d' : steps_by jobs_step m ->
  transaction m d = (r, d') -> jobs_step d d'.
Proof.
  intros Hm E. destruct r as [a|e]; [apply transaction_ok in E; by eapply Hm|].
  apply transaction_err in E as [_ ->]. reflexivity.
Qed.

Lemma transition_step id owner epoch to t cand d r d' :
  transition_job id owner epoch to t cand d = (r, d') -> jobs_step d d'.
Proof.
  unfold transition_job. destruct (normalize_datetime t) as [now|]; [|by intros [= _ ->]].
  apply transaction_step. steps_by_tac; try apply steps_require_fence; try apply steps_job_by_id.
  all: apply jobs_step_update; [intros; by eapply fenced_working|apply transition_advance|done].
Qed.
Lemma renew_step id owner epoch t lease d r d' :
  renew_job_lease id owner epoch t lease d = (r, d') -> jobs_step d d'.
Proof.
  unfold renew_job_lease. destruct (normalize_datetime t) as [now|], (normalize_datetime lease) as [l|];
    try by intros [= _ ->].
  destruct (l <=? now); [by intros [= _ ->]|].
  apply transaction_step. steps_by_tac; try apply steps_require_fence; try apply steps_job_by_id.
  all: apply jobs_step_update; [intros; by eapply fenced_working|apply renew_advance|done].
Qed.
Lemma fail_step id owner epoch t s c m retry preserve d r d' :
  fail_job id owner epoch t s c m retry preserve d = (r, d') -> jobs_step d d'.
Proof.
  unfold fail_job. destruct (fail_arguments_bad _ _ _ _ _); [by intros [= _ ->]|].
  destruct (normalize_datetime t) as [now|]; [|by intros [= _ ->]].
  match goal with |- match ?x with _ => _ end = _ -> _ => destruct x as [[next rt]|] end;
    [|by intros [= _ ->]].
  apply transaction_step. steps_by_tac; try apply steps_require_fence; try apply steps_job_by_id.
  all: apply jobs_step_update; [intros; by eapply fenced_working|apply fail_advance|done].
Qed.
Lemma recover_step t d r d' : recover_expired_leases t d = (r, d') -> jobs_step d d'.
Proof.
  unfold recover_expired_leases. destruct (normalize_datetime t) as [now|]; [|by intros [= _ ->]].
  assert (Hrows : forall ids, steps_by jobs_step (recover_rows ids now)).
  { induction ids as [|i ids IH]; cbn [recover_rows]; steps_by_tac; try exact IH.
    apply jobs_step_update; [|apply recover_advance|done].
    intros d0 x _ _ Hx. rewrite !andb_true_iff in Hx. tauto. }
  assert (Hjobs : forall ids, steps_by jobs_step (jobs_by_ids ids)).
  { induction ids as [|i ids IH]; cbn [jobs_by_ids]; steps_by_tac; [apply steps_job_by_id|exact IH]. }
  apply transaction_step. steps_by_tac; [apply Hrows|apply Hjobs].
Qed.

Lemma claim_step_change d now lease worker winner r r' : schema_ok d = true ->
  r ∈ compaction_jobs d -> claim_step d now winner r r' ->
  (forall w w', winner = Some (w, w') -> eligible now w = true /\ exists b v c,
     active_base d (jr_session w) = Ok (b, v, c) /\ c < jr_intent w
     /\ w' = claim_row b v worker lease now w) ->
  job_change d r r'.
Proof.
  intros Hd Hr [[-> _]|[(He & _ & ->)| ->]] Hw.
  - by split.
  - split; [by apply cancel_advance|]. by apply same_place_grounded.
  - destruct (Hw _ _ eq_refl) as (He & b & v & c & Hb & Hlt & ->). split; [by apply claim_advance|].
    intros [Hs _]. split; [exact Hs|]. intros b' Hb'. cbn in Hb'. subst b.
    destruct (active_base_valid d _ _ _ _ Hd Hb) as (_ & _ & [(? & _)|(_ & _ & _ & a & s & _ & _ & Hs' & Es & _ & _ & -> & Hns)]);
      [done|]. injection Es as ->. exists s. split_and!; done.
Qed.

Lemma claim_job_step worker t lease d r d' : sessions_decode d ->
  claim_job worker t lease d = (r, d') -> jobs_step d d'.
Proof.
  intros Hs E Hd. destruct r as [o|e]; cycle 1.
  { assert (d' = d) as ->; [|split; [done|apply jobs_map_refl]].
    unfold claim_job in E. destruct (is_blank worker); [by injection E|].
    destruct (normalize_datetime t), (normalize_datetime lease); try by injection E.
    destruct (_ <=? _); [by injection E|]. by apply transaction_err in E as [_ ->]. }
  unfold claim_job in E. destruct (is_blank worker) eqn:Hw; [by injection E|].
  destruct (normalize_datetime t) as [now|], (normalize_datetime lease) as [l|]; try by injection E.
  destruct (_ <=? _); [by injection E|].
  pose proof (claim_loop_spec (S (length (compaction_jobs d))) worker now l Hw d Hd Hs) as Hloop.
  specialize (Hloop ltac:(pose proof (filter_length_le (eligible now) (compaction_jobs d)); lia)).
  apply transaction_ok, tx_bind_ok in E as (o' & d1 & E1 & E2). rewrite E1 in Hloop.
  destruct o' as [o'|]; [|done]. apply tx_ret_ok in E2 as [-> ->].
  destruct Hloop as [(g & winner & -> & Hg & Ho) Hd']. split; [done|]. exists g. split; [done|].
  intros x Hx. apply (claim_step_change d now l worker winner); try done; [by apply Hg|].
  intros w w' ->. destruct o as [job|]; [|by destruct Ho].
  destruct Ho as (y & b & v & c & k & _ & He & Hb & Hlt & [= <- ->] & _). split; [done|]. by exists b, v, c.
Qed.
End job_steps.

(** ** How a store evolves *)

(** Rows of the table are only ever appended. *)
Definition extends {A} (l l' : list A) : Prop := exists new, l' = l ++ new.
#[export] Instance extends_preorder {A} : PreOrder (@extends A).
Proof.
  split.
  - intros l. exists []. by rewrite app_nil_r.
  - intros a b c [n ->] [n' ->]. exists (n ++ n'). by rewrite app_assoc.
Qed.
Lemma extends_eq {A} (l l' : list A) : l' = l -> extends l l'.
Proof. intros ->. reflexivity. Qed.

(** The coverage of a stored Snapshot. *)
Definition coverage_of (d : db) (id : string) : option Z :=
  nr_covered_event_end <$> List.find (fun r => nr_snapshot_id r ==? id) (snapshots d).
Lemma coverage_extends d d' id c : extends (snapshots d) (snapshots d') ->
  coverage_of d id = Some c -> coverage_of d' id = Some c.
Proof.
  intros [new E]. unfold coverage_of. rewrite E, find_app. by destruct (List.find _ (snapshots d)).
Qed.

(** A pointer stays, or moves to a later version that covers more. *)
Definition pointer_advance (d' : db) (a a' : ActiveRow) : Prop :=
  ar_session a' = ar_session a
  /\ (a' = a \/ ar_pointer_version a < ar_pointer_version a'
      /\ exists c c', coverage_of d' (ar_snapshot_id a) = Some c
                      /\ coverage_of d' (ar_snapshot_id a') = Some c' /\ c < c').

(** Memberships are appended, and only for Snapshots that are new. *)
Definition memberships_advance (d d' : db) : Prop := exists new,
  snapshot_capsules d' = snapshot_capsules d ++ new
  /\ forall m row, m ∈ new -> row ∈ snapshots d -> nr_snapshot_id row <> mr_snapshot_id m.
Lemma memberships_advance_eq d d' : snapshot_capsules d' = snapshot_capsules d -> memberships_advance d d'.
Proof. intros E. exists []. rewrite E, app_nil_r. split; [done|]. intros m row Hm. by apply elem_of_nil in Hm. Qed.
Lemma memberships_advance_trans a b c : extends (snapshots a) (snapshots b) ->
  memberships_advance a b -> memberships_advance b c -> memberships_advance a c.
Proof.
  intros [s Es] (n1 & E1 & F1) (n2 & E2 & F2). exists (n1 ++ n2). split; [by rewrite E2, E1, app_assoc|].
  intros m row [Hm|Hm]%elem_of_app Hrow; [by apply F1|]. apply F2; [done|]. rewrite Es. apply elem_of_app. by left.
Qed.

Record store_advance (d d' : db) : Prop := {
  sa_jobs : jobs_advance d d';
  sa_events : extends (journal_events d) (journal_events d');
  sa_capsules : extends (capsules d) (capsules d');
  sa_snapshots : extends (snapshots d) (snapshots d');
  sa_memberships : memberships_advance d d';
  sa_ledger : extends (reorganization_records d) (reorganization_records d');
  sa_sessions : forall row, row ∈ sessions d -> exists row', row' ∈ sessions d'
    /\ se_hash row' = se_hash row /\ se_canonical row' = se_canonical row
    /\ se_next_event_sequence row <= se_next_event_sequence row';
  sa_pointers : forall a, a ∈ active_snapshots d -> exists a', a' ∈ active_snapshots d'
    /\ pointer_advance d' a a' }.

#[export] Instance store_advance_preorder : PreOrder store_advance.
Proof.
  split.
  - intros d. split; try reflexivity.
    + by apply memberships_advance_eq.
    + intros row Hrow. exists row. split_and!; [done..|lia].
    + intros a Ha. exists a. split; [done|]. split; [done|]. by left.
  - intros a b c [A1 A2 A3 A4 A5 A6 A7 A8] [B1 B2 B3 B4 B5 B6 B7 B8]. split; try (etransitivity; done).
    + by eapply memberships_advance_trans.
    + intros row Hrow. destruct (A7 row Hrow) as (r1 & Hr1 & E1 & E2 & E3).
      destruct (B7 r1 Hr1) as (r2 & Hr2 & F1 & F2 & F3). exists r2. split_and!; [done|congruence..|lia].
    + intros x Hx. destruct (A8 x Hx) as (y & Hy & E1 & HA). destruct (B8 y Hy) as (z & Hz & F1 & HB).
      exists z. split; [done|]. split; [congruence|]. destruct HA as [->|(V1 & c1 & c2 & C1 & C2 & Hlt)]; [done|].
      apply (coverage_extends b c _ _ B4) in C1, C2. right.
      destruct HB as [->|(V2 & c3 & c4 & C3 & C4 & Hlt')].
      * split; [done|]. by exists c1, c2.
      * split; [lia|]. exists c1, c4. split_and!; try done. rewrite C2 in C3. injection C3 as ->. lia.
Qed.

(** A step that touches none of the append-only tables. *)
Lemma store_advance_jobs d d' : jobs_advance d d' ->
  journal_events d' = journal_events d -> capsules d' = capsules d -> snapshots d' = snapshots d ->
  snapshot_capsules d' = snapshot_capsules d -> reorganization_records d' = reorganization_records d ->
  sessions d' = sessions d -> active_snapshots d' = active_snapshots d -> store_advance d d'.
Proof.
  intros Hj E1 E2 E3 E4 E5 E6 E7. split; try done; try by apply extends_eq.
  - by apply memberships_advance_eq.
  - intros row Hrow. exists row. rewrite E6. split_and!; [done..|lia].
  - intros a Ha. exists a. rewrite E7. split; [done|]. split; [done|]. by left.
Qed.
Lemma store_advance_set_jobs d rows : jobs_advance d (set_jobs rows d) -> store_advance d (set_jobs rows d).
Proof. intros Hj. by apply store_advance_jobs. Qed.
Lemma jobs_map_store_advance d d' : jobs_map d d' -> store_advance d d'.
Proof.
  intros Hm. pose proof (jobs_map_advance _ _ Hm). destruct Hm as (g & -> & _).
  by apply store_advance_set_jobs.
Qed.

(** ** The invariant *)

Section invariant.
Context `{Sha256, StorageCodecLaws, !Environment, !EnvironmentLaws}.

(** Every event reads back under any key of its session. *)
Definition events_decode (d : db) : Prop := forall row k, row ∈ journal_events d ->
  SessionKey_valid k = true -> session_key_hash k = er_session row ->
  exists e, _event_from_row k row = Ok e.
(** The stored key of a session hash. *)
Definition stored_key (d : db) (h : string) (k : SessionKey) : Prop :=
  exists srow, srow ∈ sessions d /\ se_hash srow = h
               /\ _session_key_from_storage h (se_canonical srow) = Ok k.
(** Every Snapshot reads back with its Capsules under its session's key. *)
Definition bundles_decode (d : db) : Prop := forall row, row ∈ snapshots d ->
  exists k s ms, stored_key d (nr_session row) k /\ snapshot_bundle k row d = Ok ((s, ms), d).
(** An active pointer names a Snapshot of its session. *)
Definition pointers_owned (d : db) : Prop := forall a, a ∈ active_snapshots d ->
  exists row, row ∈ snapshots d /\ nr_snapshot_id row = ar_snapshot_id a
              /\ nr_session row = ar_session a.
(** A Snapshot covers only captured events. *)
Definition coverage_captured (d : db) : Prop := forall row, row ∈ snapshots d ->
  exists srow, srow ∈ sessions d /\ se_hash srow = nr_session row
               /\ nr_covered_event_end row < se_next_event_sequence srow.

Record store_inv (d : db) : Prop := {
  si_schema : schema_ok d = true;
  si_sessions : sessions_decode d;
  si_journal : journal_contiguous d;
  si_exact : snapshots_exact d;
  si_events : events_decode d;
  si_bundles : bundles_decode d;
  si_pointers : pointers_owned d;
  si_covered : coverage_captured d;
  si_jobs : jobs_grounded d }.

Lemma store_inv_empty : store_inv empty_db.
Proof.
  split; try (intros x Hx; by apply elem_of_nil in Hx); [reflexivity|].
  intros row k Hx. by apply elem_of_nil in Hx.
Qed.

(** Job operations touch nothing else. *)
Lemma jobs_step_inv d d' : store_inv d -> jobs_step d d' -> store_inv d'.
Proof.
  intros [H1' H2' H3' H4' H5' H6' H7' H8' H9'] Hstep. destruct (Hstep H1') as [Hd' Hmap].
  assert (Hg := jobs_map_grounded _ _ Hmap H9'). destruct Hmap as (g & -> & _). split; try done.
  intros row Hrow. destruct (H6' row Hrow) as (k & s & ms & Hk & Hb). exists k, s, ms. split; [done|].
  eapply bundle_frame; [|exact Hb]. reflexivity.
Qed.

Lemma same_session_row d r s : schema_ok d = true -> r ∈ sessions d -> s ∈ sessions d ->
  se_hash r = se_hash s -> r = s.
Proof. intros Hd Hr Hs E. exact (same_hash_same_row d r s Hd Hr Hs E). Qed.

Lemma active_base_grounded d h b v c target : schema_ok d = true -> 
  active_base d h = Ok (b, v, c) -> c < target ->
  forall x, b = Some x -> exists row, row ∈ snapshots d /\ nr_snapshot_id row = x
    /\ nr_session row = h /\ nr_covered_event_end row < target.
Proof.
  intros Hd Hb Hlt x ->.
  destruct (active_base_valid d _ _ _ _ Hd Hb)
    as (_ & _ & [(? & _)|(_ & _ & _ & a & s & _ & _ & Hs' & Es & _ & _ & -> & Hns)]); [done|].
  injection Es as ->. by exists s.
Qed.

Lemma intent_inv d id k target t r d' : store_inv d ->
  raise_compaction_intent id k target t d = (r, d') -> store_inv d' /\ jobs_advance d d'.
Proof.
  intros Hinv E. destruct r as [o|e]; cycle 1.
  { assert (d' = d) as ->; [|split; [done|reflexivity]]. unfold raise_compaction_intent in E.
    destruct (is_blank id); [by injection E|]. destruct (target <? 1); [by injection E|].
    destruct (normalize_datetime t); [|by injection E]. by apply transaction_err in E as [_ ->]. }
  assert (Hd := si_schema d Hinv).
  destruct (intent_ok d id k target t o d' Hd E) as [Hd' (inst & _ & Hsess & b & v & c & Hb & Ho)].
  destruct o as [job|]; [|destruct Ho as [_ ->]; split; [done|reflexivity]].
  destruct Ho as [Hlt (r & kk & _ & Hr & Hrs & Hri & [(r0 & Hr0 & Hnt & Hs0 & [(_ & _ & ->)|(Hi & -> & ->)])|(Hnone & -> & ->)])].
  - split; [done|reflexivity].
  - assert (Hstep : jobs_advance d (set_jobs (replaced (jr_job_id r0) (fold_row target inst) (compaction_jobs d)) d)).
    { apply jobs_advance_replaced; try done. by apply fold_advance. }
    split; [|done]. destruct Hinv as [H1' H2' H3' H4' H5' H6' H7' H8' H9']. split; try done.
    + intros row Hrow. destruct (H6' row Hrow) as (k' & s & ms & Hk & Hbu). exists k', s, ms. split; [done|].
      eapply bundle_frame; [|exact Hbu]. reflexivity.
    + intros x (y & Hy & ->)%elem_of_replaced. specialize (H9' y Hy).
      destruct (jr_job_id y ==? jr_job_id r0) eqn:Ey; [|done].
      apply (py_eq_leibniz (A:=string)) in Ey.
      assert (y = r0) as -> by (by apply (key_unique jr_job_id _ _ _ (job_ids_unique d Hd))).
      split; [|exact (proj2 H9')]. cbn [jr_session jr_intent fold_row]. rewrite Hs0.
      destruct Hsess as (srow & ? & ? & ?). by exists srow.
  - split; [|apply jobs_advance_snoc]. destruct Hinv as [H1' H2' H3' H4' H5' H6' H7' H8' H9']. split; try done.
    + intros row Hrow. destruct (H6' row Hrow) as (k' & s & ms & Hk & Hbu). exists k', s, ms. split; [done|].
      eapply bundle_frame; [|exact Hbu]. reflexivity.
    + intros x [Hx| ->%list_elem_of_singleton]%elem_of_app; [by apply H9'|]. split.
      * destruct Hsess as (srow & ? & ? & ?). by exists srow.
      * cbn [jr_base pending_row jr_session jr_target]. intros x Ex. exact (active_base_grounded d _ _ _ _ _ Hd Hb Hlt x Ex).
Qed.

(** *** Captures *)

(** What a capture of session [k] may do to a store. *)
Record CaptureFrame (k : SessionKey) (d d' : db) : Prop := {
  cf_capsules : capsules d' = capsules d;
  cf_snapshots : snapshots d' = snapshots d;
  cf_memberships : snapshot_capsules d' = snapshot_capsules d;
  cf_actives : active_snapshots d' = active_snapshots d;
  cf_jobs : compaction_jobs d' = compaction_jobs d;
  cf_ledger : reorganization_records d' = reorganization_records d;
  cf_events : exists new, journal_events d' = journal_events d ++ new
    /\ forall row, row ∈ new -> exists e, _event_from_row k row = Ok e;
  cf_forward : forall row, row ∈ sessions d -> exists row', row' ∈ sessions d'
    /\ se_hash row' = se_hash row /\ se_canonical row' = se_canonical row
    /\ se_next_event_sequence row <= se_next_event_sequence row';
  cf_backward : forall row', row' ∈ sessions d' ->
    (exists row, row ∈ sessions d /\ se_hash row' = se_hash row /\ se_canonical row' = se_canonical row)
    \/ _session_key_from_storage (se_hash row') (se_canonical row') = Ok k }.

Lemma capture_frame_refl k d : CaptureFrame k d d.
Proof.
  split; try done.
  - exists []. split; [by rewrite app_nil_r|]. intros row Hrow. by apply elem_of_nil in Hrow.
  - intros row Hrow. exists row. split_and!; [done..|lia].
  - intros row Hrow. left. by exists row.
Qed.
Lemma capture_frame_trans k a b c : CaptureFrame k a b -> CaptureFrame k b c -> CaptureFrame k a c.
Proof.
  intros [A1 A2 A3 A4 A5 A6 (n1 & A7 & A7') A8 A9] [B1 B2 B3 B4 B5 B6 (n2 & B7 & B7') B8 B9].
  split; try congruence.
  - exists (n1 ++ n2). split; [by rewrite B7, A7, app_assoc|].
    intros row [Hr|Hr]%elem_of_app; auto.
  - intros row Hrow. destruct (A8 row Hrow) as (r1 & Hr1 & E1 & E2 & E3).
    destruct (B8 r1 Hr1) as (r2 & Hr2 & F1 & F2 & F3). exists r2. split_and!; [done|congruence..|lia].
  - intros row Hrow. destruct (B9 row Hrow) as [(r1 & Hr1 & E1 & E2)|]; [|by right].
    destruct (A9 r1 Hr1) as [(r0 & Hr0 & F1 & F2)|Hk]; [left; exists r0; split_and!; congruence|right].
    by rewrite E1, E2.
Qed.

Lemma metric_frame_capture k d d' : metric_frame d d' -> CaptureFrame k d d'.
Proof.
  intros [E _]. destruct d' as [s1 s2 s3 s4 s5 s6 s7 s8 s9 s10]. cbn in E. injection E as -> -> -> -> -> -> -> ->.
  split; cbn; try done.
  - exists []. split; [by rewrite app_nil_r|]. intros row Hrow. by apply elem_of_nil in Hrow.
  - intros row Hrow. exists row. split_and!; [done..|lia].
  - intros row Hrow. left. by exists row.
Qed.

Lemma ensure_session_frame ns k t d u d' : _ensure_session ns k t d = Ok (u, d') -> CaptureFrame k d d'.
Proof.
  intros E. destruct (ensure_session_ok _ _ _ _ _ _ E) as [(srow & Hf & Hk) [->|(row & Hh & _ & Hn & _ & ->)]];
    [apply capture_frame_refl|].
  split; try done.
  - exists []. split; [by rewrite app_nil_r|]. intros x Hx. by apply elem_of_nil in Hx.
  - intros x Hx. exists x. split_and!; [|done..|lia]. apply elem_of_app. by left.
  - intros x [Hx| ->%list_elem_of_singleton]%elem_of_app; [left; by exists x|right].
    cbn [sessions set_sessions] in Hf. rewrite find_snoc in Hf; [|done|by apply (py_eq_leibniz (A:=string))].
    injection Hf as <-. by rewrite Hh.
Qed.

Lemma append_event_frame ns id k ty c ik tc t d e d' : nonces_ok ns ->
  append_event ns id k ty c ik tc t d = Ok (e, d') -> CaptureFrame k d d'.
Proof.
  intros Hns E. destruct (append_event_ok _ _ _ _ _ _ _ _ _ _ _ Hns E)
    as (srow & row & Hs & _ & Hrow & _ & _ & ->).
  set (g := fun r => if (se_hash r ==? session_key_hash k)
      && (se_next_event_sequence r =? se_next_event_sequence srow) then bump_sequence t r else r).
  assert (Hg : forall r, se_hash (g r) = se_hash r /\ se_canonical (g r) = se_canonical r
            /\ se_next_event_sequence r <= se_next_event_sequence (g r)).
  { intros r. unfold g. destruct (_ && _); cbn; split_and!; done || lia. }
  split; try done; cbn [journal_events sessions set_events set_sessions].
  - exists [row]. split; [done|]. intros x ->%list_elem_of_singleton. by exists e.
  - intros x Hx. exists (g x). destruct (Hg x) as (? & ? & ?). split_and!; try done.
    unfold allocated. apply list_elem_of_fmap. eauto.
  - intros x (y & -> & Hy)%list_elem_of_fmap. left. exists y. destruct (Hg y) as (? & ? & ?). done.
Qed.

Lemma capture_frame ns id k ty c ik tc canon t d e d' : nonces_ok ns ->
  _capture_event ns id k ty c ik tc canon t d = (Ok e, d') -> CaptureFrame k d d'.
Proof.
  intros Hns. unfold _capture_event. destruct (normalize_datetime t) as [inst|]; [|by intros [=]].
  destruct (model_result _) as [requested|]; [|by intros [=]]. intros E%transaction_ok.
  apply tx_bind_ok in E as (u & d2 & Hens%ensure_session_frame & E).
  apply (capture_frame_trans k d d2); [done|].
  apply tx_bind_ok in E as (u1 & d3 & [_ <-]%inject_ok & E).
  apply tx_bind_ok in E as (o & d3 & [-> _]%find_idempotent_ok & E). destruct o as [ex|].
  - apply tx_bind_ok in E as (u2 & d3 & [_ <-]%guard_ok & E).
    apply tx_bind_ok in E as (u3 & d3 & Hrec%record_frame & E).
    apply tx_bind_ok in E as (u4 & d4 & [_ <-]%inject_ok & [_ <-]%tx_ret_ok).
    by apply metric_frame_capture.
  - apply tx_bind_ok in E as (ev & d3 & Happ & E). apply append_event_frame in Happ; [|done].
    apply tx_bind_ok in E as (u2 & d4 & [_ <-]%inject_ok & E).
    apply tx_bind_ok in E as (u3 & d4 & Hrec%record_frame & E).
    apply tx_bind_ok in E as (u4 & d5 & [_ <-]%inject_ok & [_ <-]%tx_ret_ok).
    apply (capture_frame_trans k d2 d3); [done|]. by apply metric_frame_capture.
Qed.

(** An event reads back under every key of the same hash. *)
Lemma event_from_row_key k k' row e : _event_from_row k row = Ok e -> SessionKey_valid k' = true ->
  session_key_hash k' = er_session row -> exists e', _event_from_row k' row = Ok e'.
Proof.
  unfold _event_from_row. intros [_ (c & Hc & (n & Hn & E)%result_bind_ok)%result_bind_ok]%raise_if_ok Hv Hh.
  rewrite Hc, Hn. cbn [mbind result_bind].
  destruct (construct _ _) as [e1|] eqn:E1; [|done]. apply construct_ok in E1 as [Hok _].
  assert (Hv' : EventEnvelope_valid {| ev_event_id := er_event_id row; ev_session_key := k';
       ev_sequence := er_sequence row; ev_event_type := er_event_type row;
       ev_role := er_role row; ev_content := c; ev_source_hook := er_source_hook row;
       ev_idempotency_key := er_idempotency_key row; ev_token_count := n;
       ev_created_at := er_created_at row |} = true).
  { unfold EventEnvelope_valid in *. cbn [ev_event_id ev_session_key ev_sequence ev_idempotency_key
      ev_token_count] in *. rewrite !andb_true_iff in *. rewrite Hv. tauto. }
  match type of Hv' with EventEnvelope_valid ?x = true => exists x end.
  apply raise_if_ok. split; [by apply negb_py_eq_false|]. cbn [mbind result_bind].
  match goal with |- match ?c with _ => _ end = Ok ?x => assert (c = Ok x) as -> end; [|done].
  by apply construct_ok.
Qed.

Lemma stored_key_frame k0 d d' h k : CaptureFrame k0 d d' -> stored_key d h k -> stored_key d' h k.
Proof.
  intros Hf (srow & Hs & Hh & Hk). destruct (cf_forward _ _ _ Hf srow Hs) as (s' & Hs' & E1 & E2 & _).
  exists s'. rewrite E1, E2. done.
Qed.

Lemma capture_frame_inv k d d' : SessionKey_valid k = true -> store_inv d -> journal_inv d' ->
  CaptureFrame k d d' -> store_inv d'.
Proof.
  intros Hk Hinv [Hd' Hj'] Hf. destruct Hinv as [H1' H2' H3' H4' H5' H6' H7' H8' H9'].
  destruct Hf as [F1 F2 F3 F4 F5 F6 (new & F7 & F7') F8 F9] eqn:Ef. clear Ef. split; try done.
  - intros row Hrow. destruct (F9 row Hrow) as [(r0 & Hr0 & E1 & E2)|Hdec]; [|by exists k].
    rewrite E1, E2. by apply H2'.
  - unfold snapshots_exact. rewrite F2. exact H4'.
  - intros row k' Hrow Hv Hh. rewrite F7 in Hrow. apply elem_of_app in Hrow as [Hrow|Hrow]; [by eapply H5'|].
    destruct (F7' row Hrow) as [e He]. by eapply event_from_row_key.
  - intros row Hrow. rewrite F2 in Hrow. destruct (H6' row Hrow) as (k' & s & ms & Hsk & Hb).
    exists k', s, ms. split; [by eapply stored_key_frame|]. eapply bundle_frame; [|exact Hb].
    unfold membership_rows. by rewrite F1, F3.
  - intros a Ha. rewrite F4 in Ha. rewrite F2. by apply H7'.
  - intros row Hrow. rewrite F2 in Hrow. destruct (H8' row Hrow) as (srow & Hs & E & Hlt).
    destruct (F8 srow Hs) as (s' & Hs' & E1 & E2 & Hle). exists s'. split_and!; [done|congruence|lia].
  - intros r Hr. rewrite F5 in Hr. destruct (H9' r Hr) as [(srow & Hs & E & Hlt) Hb]. split.
    + destruct (F8 srow Hs) as (s' & Hs' & E1 & E2 & Hle). exists s'. split_and!; [done|congruence|lia].
    + rewrite F2. exact Hb.
Qed.

(** *** Publications *)

Lemma snapshot_ids_unique d : schema_ok d = true -> NoDup (map nr_snapshot_id (snapshots d)).
Proof.
  intros Hd. apply schema_ok_spec in Hd as (_ & _ & _ & Hd & _). unfold snapshots_ok in Hd.
  apply andb_true_iff in Hd as [[_ Hu]%andb_true_iff _]. by apply bool_decide_eq_true in Hu.
Qed.
Lemma membership_references d m : schema_ok d = true -> m ∈ snapshot_capsules d ->
  (exists row, row ∈ snapshots d /\ nr_snapshot_id row = mr_snapshot_id m)
  /\ exists c, List.find (fun c => cr_capsule_id c ==? mr_capsule_id m) (capsules d) = Some c.
Proof.
  intros Hd Hm. apply schema_ok_spec in Hd as (_ & _ & _ & _ & Hd & _). unfold memberships_ok in Hd.
  apply andb_true_iff in Hd as [[Hd _]%andb_true_iff _]. rewrite forallb_true_iff in Hd.
  specialize (Hd m Hm). apply andb_true_iff in Hd as [[_ Hs%references_spec]%andb_true_iff Hc%references_spec].
  split; [done|]. destruct Hc as (c & Hc & E).
  destruct (List.find _ _) as [x|] eqn:Ef; [by exists x|]. rewrite find_none_ext in Ef.
  specialize (Ef c Hc). rewrite E, (py_eq_true_refl (mr_capsule_id m)) in Ef. done.
Qed.

(** Membership rows of other Snapshots leave those of a Snapshot alone. *)
Lemma membership_rows_frame d d' newc newm id : schema_ok d = true ->
  capsules d' = capsules d ++ newc -> snapshot_capsules d' = snapshot_capsules d ++ newm ->
  (forall m, m ∈ newm -> mr_snapshot_id m <> id) -> membership_rows id d' = membership_rows id d.
Proof.
  intros Hd Hc Hm Hne. unfold membership_rows. f_equal. rewrite Hm, List.filter_app.
  rewrite (proj2 (filter_nil_iff _ newm)), app_nil_r.
  2:{ intros m Hin. apply not_true_iff_false. intros E%(py_eq_leibniz (A:=string)). by apply (Hne m). }
  assert (Hin : forall m, m ∈ List.filter (fun m => mr_snapshot_id m ==? id) (snapshot_capsules d) ->
    m ∈ snapshot_capsules d) by (intros m Hin; by apply elem_of_filter_bool in Hin as [? _]).
  revert Hin. generalize (List.filter (fun m => mr_snapshot_id m ==? id) (snapshot_capsules d)).
  intros l Hl. rewrite Hc. induction l as [|m l IH]; [done|]. cbn [omap list_omap].
  destruct (membership_references d m Hd (Hl m (list_elem_of_here _ _))) as (_ & c & Hf).
  rewrite find_app, Hf. cbn. f_equal. apply IH. intros x Hx. apply Hl. by right.
Qed.
(** The new membership rows leave those of every older Snapshot alone. *)
Lemma membership_rows_old d d' sid new ms id : schema_ok d = true ->
  capsules d' = capsules d ++ new ->
  snapshot_capsules d' = snapshot_capsules d ++ map (membership_row sid) ms ->
  id <> sid -> membership_rows id d' = membership_rows id d.
Proof.
  intros Hd Hc Hm Hne. eapply membership_rows_frame; [done..|].
  intros m (y & -> & _)%list_elem_of_fmap. by apply not_eq_sym.
Qed.

Lemma enumerate_decodes k sid ms crs i : map ms_ordinal ms = py_range i (i + len ms) ->
  Forall2 (fun m c => _capsule_from_row k c = Ok (ms_capsule m)) ms crs ->
  Forall2 (fun x y => _membership_from_row k x = Ok y)
    (enumerate_from i (zip (map (membership_row sid) ms) crs)) ms.
Proof.
  intros Hord Hall. revert i Hord. induction Hall as [|m c ms crs Hc Hall IH]; intros i Hord; [constructor|].
  cbn [map] in Hord. rewrite len_cons in Hord. pose proof (len_nonneg ms).
  rewrite py_range_cons in Hord by lia. injection Hord as Ho Hord.
  cbn [map zip zip_with enumerate_from]. constructor.
  - unfold _membership_from_row. rewrite Hc. cbn [mbind result_bind].
    cbn [membership_row mr_ordinal mr_slot]. rewrite Ho, Z.eqb_refl. cbn. rewrite <- Ho. by destruct m.
  - apply IH. rewrite Hord. f_equal. lia.
Qed.

(** The rows of the new Snapshot decode to the published memberships. *)
Lemma membership_rows_new d' sid ms k :
  (forall m, m ∈ ms -> capsule_stored d' (ms_capsule m) /\ cap_session_key (ms_capsule m) = k) ->
  List.filter (fun m => mr_snapshot_id m ==? sid) (snapshot_capsules d') = map (membership_row sid) ms ->
  map ms_ordinal ms = py_range 0 (len ms) ->
  map_result (_membership_from_row k) (enumerate (membership_rows sid d')) = Ok ms.
Proof.
  intros Hst Hrows Hord.
  assert (Hpairs : exists crs, omap (fun m => capsule ← List.find (fun c => cr_capsule_id c ==? mr_capsule_id m) (capsules d');
                    Some (m, capsule)) (map (membership_row sid) ms) = zip (map (membership_row sid) ms) crs
    /\ Forall2 (fun m c => _capsule_from_row k c = Ok (ms_capsule m)) ms crs).
  { clear Hrows Hord. induction ms as [|m ms IH]; [by exists []|].
    destruct IH as (crs & E & Hall); [intros x Hx; apply Hst; by right|].
    destruct (Hst m (list_elem_of_here _ _)) as [(c & Hf & Hread) <-].
    exists (c :: crs). cbn [map omap list_omap].
    change (mr_capsule_id (membership_row sid m)) with (cap_capsule_id (ms_capsule m)).
    rewrite Hf. cbn [mbind option_bind]. split; [|by constructor]. cbn [zip zip_with]. by rewrite E. }
  destruct Hpairs as (crs & Hpairs & Hall). unfold membership_rows. rewrite Hrows, Hpairs.
  assert (Hlen : length ms = length crs) by (by eapply Forall2_length).
  assert (Hz : map (fun p => mr_ordinal p.1) (zip (map (membership_row sid) ms) crs) = map ms_ordinal ms).
  { clear -Hlen. revert crs Hlen. induction ms as [|m ms IH]; intros [|c crs] Hlen; cbn in *; try done.
    f_equal. apply IH. lia. }
  rewrite order_by_sorted; [|rewrite Hz, Hord; apply sorted_py_range]. apply map_result_ok.
  by apply (enumerate_decodes k sid ms crs 0).
Qed.

(** The facts of the gate about a checked candidate. *)
Lemma checked_core d id owner epoch cand ms records ceiling now r k :
  PublishChecked d id owner epoch cand ms records ceiling now r k ->
  ms <> [] /\ map ms_ordinal ms = py_range 0 (len ms)
  /\ sn_capsule_ids cand = map ms_capsule_id ms
  /\ sn_exact_anchor_ids cand = map an_anchor_id (active_anchors (map ms_capsule ms))
  /\ (forall m, m ∈ ms -> cap_session_key (ms_capsule m) = k)
  /\ sn_covered_event_end cand = jr_target r /\ sn_source_high_water_mark cand = jr_target r
  /\ sn_base_snapshot_id cand = jr_base r
  /\ exists previous previous_memberships, base_bundle d r k previous previous_memberships
     /\ base_coverage_of previous < jr_target r.
Proof.
  intros Hpc. destruct (pc_gate _ _ _ _ _ _ _ _ _ _ _ Hpc) as (ps & pms & evs & report & Hb & _ & Hval & Hp).
  destruct (passed_core _ _ _ _ _ _ _ _ Hval Hp) as (_ & G2 & G3 & G4 & G5 & _ & _ & G8 & G9 & _).
  pose proof (pc_memberships _ _ _ _ _ _ _ _ _ _ _ Hpc) as (M1 & M2 & _ & _ & M5)%candidate_memberships_ok.
  split_and!; try done.
  - intros m Hm. rewrite G9 by (apply list_elem_of_fmap; eauto).
    apply (pc_key _ _ _ _ _ _ _ _ _ _ _ Hpc).
  - rewrite G2. unfold base_bundle in Hb. destruct (jr_base r).
    + destruct Hb as (s0 & -> & <- & _). done.
    + by destruct Hb as [-> _].
  - by exists ps, pms.
Qed.

Lemma published_new_bundle d d' id owner epoch cand ms records ceiling now r k row : schema_ok d = true ->
  schema_ok d' = true ->
  PublishChecked d id owner epoch cand ms records ceiling now r k ->
  Published d (job_envelope k r) (committed now cand) ms records now d' ->
  snapshots d' = snapshots d ++ [row] ->
  nr_snapshot_id row = sn_snapshot_id cand ->
  _snapshot_from_row k (sn_capsule_ids cand) row = Ok (committed now cand) ->
  snapshot_bundle k row d' = Ok ((committed now cand, ms), d').
Proof.
  intros Hd Hd' Hpc Hpu Hsn Hid Hread.
  destruct (checked_core _ _ _ _ _ _ _ _ _ _ _ Hpc) as (M1 & M2 & M5 & G8 & G9 & _).
  assert (Hfresh : forall m, m ∈ snapshot_capsules d -> mr_snapshot_id m <> sn_snapshot_id cand).
  { intros m Hm E. destruct (membership_references d m Hd Hm) as [(x & Hx & Ex) _].
    pose proof (snapshot_ids_unique d' Hd') as Hu. rewrite Hsn, map_app in Hu.
    apply NoDup_app in Hu as (_ & Hu & _). apply (Hu (nr_snapshot_id x)).
    - apply list_elem_of_fmap. eauto.
    - cbn. rewrite Hid, Ex, E. by left. }
  apply snapshot_bundle_iff. split; [done|]. rewrite Hid. split_and!.
  - apply membership_rows_new; [|clear M1|done].
    + intros m Hm. split; [by apply (pu_stored _ _ _ _ _ _ _ Hpu)|by apply G9].
    + rewrite (pu_memberships _ _ _ _ _ _ _ Hpu), List.filter_app. cbn [sn_snapshot_id committed].
      rewrite (proj2 (filter_nil_iff _ _)); cycle 1.
      { intros m Hm. apply not_true_iff_false. intros E%(py_eq_leibniz (A:=string)). by apply (Hfresh m Hm). }
      cbn [app]. clear. induction ms as [|m ms IH]; [done|]. cbn.
      rewrite (py_eq_true_refl (sn_snapshot_id cand)). by rewrite IH.
  - rewrite <- M5. exact Hread.
  - unfold _validate_snapshot_memberships. cbn [sn_capsule_ids sn_exact_anchor_ids committed].
    rewrite M5, G8. rewrite !(py_eq_true_refl (A:=list string)). by destruct ms.
Qed.

Lemma published_inv d d' id owner epoch cand ms records ceiling now r k : store_inv d ->
  PublishChecked d id owner epoch cand ms records ceiling now r k ->
  Published d (job_envelope k r) (committed now cand) ms records now d' -> schema_ok d' = true ->
  store_inv d'.
Proof.
  intros Hinv Hpc Hpu Hd'. assert (Hd := si_schema d Hinv).
  destruct (checked_core _ _ _ _ _ _ _ _ _ _ _ Hpc) as (_ & _ & _ & _ & _ & G3 & G4 & G2 & _).
  destruct (pu_snapshot _ _ _ _ _ _ _ Hpu) as (row & Hsn & R1 & R2 & R3 & R4 & R5 & R6).
  cbn [sn_snapshot_id sn_session_key sn_base_snapshot_id sn_covered_event_end
    sn_source_high_water_mark sn_capsule_ids committed] in R1, R2, R3, R4, R5, R6.
  pose proof (pc_key _ _ _ _ _ _ _ _ _ _ _ Hpc) as Hkey. rewrite Hkey in R2, R6.
  pose proof (pc_session _ _ _ _ _ _ _ _ _ _ _ Hpc) as Hsess.
  destruct (pu_capsules _ _ _ _ _ _ _ Hpu) as [new Hcaps].
  assert (Hold : forall x, x ∈ snapshots d -> x ∈ snapshots d')
    by (intros x Hx; rewrite Hsn; apply elem_of_app; by left).
  assert (Hnew : row ∈ snapshots d') by (rewrite Hsn; apply elem_of_app; right; by left).
  destruct Hinv as [H1' H2' H3' H4' H5' H6' H7' H8' H9'].
  assert (Hsd : sessions d' = sessions d) by apply (pu_sessions _ _ _ _ _ _ _ Hpu).
  assert (Hr := pc_row _ _ _ _ _ _ _ _ _ _ _ Hpc).
  split; try done.
  - intros x Hx. rewrite Hsd in Hx. by apply H2'.
  - intros x Hx. rewrite Hsd in Hx. unfold events_of. rewrite (pu_events _ _ _ _ _ _ _ Hpu). by apply H3'.
  - intros x Hx. rewrite Hsn in Hx. apply elem_of_app in Hx as [Hx| ->%list_elem_of_singleton]; [by apply H4'|].
    congruence.
  - intros x k' Hx. rewrite (pu_events _ _ _ _ _ _ _ Hpu) in Hx. by apply H5'.
  - intros x Hx. rewrite Hsn in Hx. apply elem_of_app in Hx as [Hx| ->%list_elem_of_singleton].
    + destruct (H6' x Hx) as (k' & s & bms & Hk' & Hb). exists k', s, bms. split.
      { unfold stored_key in *. by rewrite Hsd. }
      eapply bundle_frame; [|exact Hb]. eapply membership_rows_old; [done|exact Hcaps| |].
      { exact (pu_memberships _ _ _ _ _ _ _ Hpu). }
      intros E. cbn [sn_snapshot_id committed] in E. pose proof (snapshot_ids_unique d' Hd') as Hu.
      rewrite Hsn, map_app in Hu. apply NoDup_app in Hu as (_ & Hu & _). apply (Hu (nr_snapshot_id x)).
      { apply list_elem_of_fmap. eauto. }
      cbn. rewrite R1, E. by left.
    + exists k, (committed now cand), ms. split.
      * unfold stored_key. rewrite Hsd, R2, Hsess. apply (pc_stored _ _ _ _ _ _ _ _ _ _ _ Hpc).
      * by eapply published_new_bundle.
  - assert (Hpt := pu_pointer _ _ _ _ _ _ _ Hpu). cbv zeta in Hpt.
    cbn [job_base_snapshot_id job_session_key job_envelope sn_snapshot_id committed] in Hpt.
    intros a Ha. destruct (jr_base r).
    + destruct Hpt as (a0 & _ & _ & _ & _ & E). rewrite E in Ha.
      apply list_elem_of_fmap in Ha as (a1 & -> & Ha1). destruct (ar_session a1 ==? _) eqn:Es.
      * exists row. split_and!; [done|done|]. cbn. apply (py_eq_leibniz (A:=string)) in Es. congruence.
      * destruct (H7' a1 Ha1) as (x & Hx & Ex). exists x. split; [by apply Hold|done].
    + destruct Hpt as [_ E]. rewrite E in Ha. apply elem_of_app in Ha as [Ha| ->%list_elem_of_singleton].
      * destruct (H7' a Ha) as (x & Hx & Ex). exists x. split; [by apply Hold|done].
      * exists row. by split_and!.
  - intros x Hx. rewrite Hsn in Hx. rewrite Hsd. apply elem_of_app in Hx as [Hx| ->%list_elem_of_singleton];
      [by apply H8'|].
    destruct (H9' r Hr) as [(srow & Hs & Es & Hlt) _]. exists srow. split_and!; [done|congruence|].
    destruct (job_rows_ok d r Hd Hr) as ((Htgt & _)%job_row_ok_parts & _). lia.
  - intros x Hx. rewrite (pu_jobs _ _ _ _ _ _ _ Hpu) in Hx. destruct (H9' x Hx) as [Hs Hb]. split.
    + by rewrite Hsd.
    + intros b Eb. destruct (Hb b Eb) as (y & Hy & Ey). exists y. split; [by apply Hold|done].
Qed.

Lemma jobs_map_inv d d' : store_inv d -> schema_ok d' = true -> jobs_map d d' -> store_inv d'.
Proof. intros Hinv Hd' Hmap. apply (jobs_step_inv d); [done|]. by intros _. Qed.

Lemma replaced_map d r f : schema_ok d = true -> r ∈ compaction_jobs d -> job_change d r (f r) ->
  jobs_map d (set_jobs (replaced (jr_job_id r) f (compaction_jobs d)) d).
Proof.
  intros Hd Hr Hf. exists (fun x => if jr_job_id x ==? jr_job_id r then f x else x). split; [done|].
  intros x Hx. destruct (jr_job_id x ==? jr_job_id r) eqn:E; [|by split].
  apply (py_eq_leibniz (A:=string)) in E.
  assert (x = r) as -> by (by apply (key_unique jr_job_id _ _ _ (job_ids_unique d Hd))). done.
Qed.

Lemma terminal_change d state t now r : working (jr_state r) = true ->
  job_change d r (terminal_row state t now r).
Proof. intros Hw. split; [by apply terminal_advance|]. by apply same_place_grounded. Qed.

Lemma follow_up_inv d hash intent winner pv now d' : store_inv d -> schema_ok d' = true ->
  (exists srow, srow ∈ sessions d /\ se_hash srow = hash /\ intent < se_next_event_sequence srow) ->
  (exists row, row ∈ snapshots d /\ nr_snapshot_id row = sn_snapshot_id winner
     /\ nr_session row = hash /\ nr_covered_event_end row = sn_covered_event_end winner) ->
  follow_up_post d hash intent winner pv now d' -> store_inv d'.
Proof.
  intros Hinv Hd' (srow & Hs & Hh & Hi) (row & Hrow & Hid & Hrs & Hc)
    [[_ ->]|[Hcov [(r & Hr & Hrh & Hn & [[_ ->]|[Hlt ->]])|(id & Hnone & ->)]]]; try done.
  - apply (jobs_map_inv d); try done. apply replaced_map; [apply Hinv|done|].
    split; [by apply fold_advance|]. intros [_ Hb]. split; [|exact Hb]. cbn. rewrite Hrh. by exists srow.
  - destruct Hinv as [H1' H2' H3' H4' H5' H6' H7' H8' H9']. split; try done.
    + intros x Hx. destruct (H6' x Hx) as (k' & s & ms & Hk & Hbu). exists k', s, ms. split; [done|].
      eapply bundle_frame; [|exact Hbu]. reflexivity.
    + intros x [Hx| ->%list_elem_of_singleton]%elem_of_app; [by apply H9'|]. split.
      * by exists srow.
      * cbn [jr_base pending_row jr_session jr_target]. intros x [= <-]. exists row. split_and!; try done. lia.
Qed.

(** *** Every step *)

Definition step_good (d d' : db) : Prop := store_inv d' /\ store_advance d d'.
Lemma step_good_refl d : store_inv d -> step_good d d.
Proof. intros Hd. split; [done|reflexivity]. Qed.

Lemma jobs_step_good d d' : store_inv d -> jobs_step d d' -> step_good d d'.
Proof.
  intros Hinv Hs. split; [by eapply jobs_step_inv|]. apply jobs_map_store_advance.
  exact (proj2 (Hs (si_schema d Hinv))).
Qed.

Lemma intent_good d id k target t r d' : store_inv d ->
  raise_compaction_intent id k target t d = (r, d') -> step_good d d'.
Proof.
  intros Hinv E. destruct (intent_inv _ _ _ _ _ _ _ Hinv E) as [Hi Hj]. split; [done|].
  destruct r as [o|e].
  - destruct (intent_ok d id k target t o d' (si_schema d Hinv) E) as [_ (inst & _ & _ & b & v & c & _ & Ho)].
    destruct o as [job|]; [|by destruct Ho as [_ ->]].
    destruct Ho as [_ (x & kk & _ & _ & _ & _ & [(r0 & _ & _ & _ & [(_ & _ & ->)|(_ & _ & ->)])|(_ & _ & ->)])];
      [reflexivity|by apply store_advance_set_jobs..].
  - assert (d' = d) as ->; [|reflexivity]. unfold raise_compaction_intent in E.
    destruct (is_blank id); [by injection E|]. destruct (target <? 1); [by injection E|].
    destruct (normalize_datetime t); [|by injection E]. by apply transaction_err in E as [_ ->].
Qed.

Lemma capture_good ns id k ty c ik tc canon t d r d' : store_inv d -> nonces_ok ns ->
  SessionKey_valid k = true -> _capture_event ns id k ty c ik tc canon t d = (r, d') -> step_good d d'.
Proof.
  intros Hinv Hns Hk E. destruct r as [e|err]; cycle 1.
  { assert (d' = d) as ->; [|by apply step_good_refl]. unfold _capture_event in E.
    destruct (normalize_datetime t); [|by injection E]. destruct (model_result _); [|by injection E].
    by apply transaction_err in E as [_ ->]. }
  assert (Hj : journal_inv d').
  { eapply capture_inv; [exact Hns| |exact E]. split; apply Hinv. }
  apply capture_frame in E; [|done]. split; [by eapply capture_frame_inv|].
  destruct E as [F1 F2 F3 F4 F5 F6 (new & F7 & _) F8 _].
  split; try done; try by apply extends_eq.
  - by apply jobs_advance_same.
  - by exists new.
  - by apply memberships_advance_eq.
  - intros a Ha. exists a. rewrite F4. split; [done|]. split; [done|]. by left.
Qed.

Lemma same_core_good d d' : store_inv d -> schema_ok d' = true -> same_core d d' -> step_good d d'.
Proof.
  intros Hinv Hd' (K1 & K2 & K3 & K4 & K5 & K6 & K7 & K8). split; [|by apply store_advance_jobs; try apply jobs_advance_same].
  destruct Hinv as [H1' H2' H3' H4' H5' H6' H7' H8' H9']. split; try done.
  - unfold sessions_decode. by rewrite K1.
  - unfold journal_contiguous, events_of. by rewrite K1, K2.
  - unfold snapshots_exact. by rewrite K4.
  - unfold events_decode. by rewrite K2.
  - intros row Hrow. rewrite K4 in Hrow. destruct (H6' row Hrow) as (k & s & ms & Hk & Hb).
    exists k, s, ms. split; [unfold stored_key in *; by rewrite K1|]. eapply bundle_frame; [|exact Hb].
    unfold membership_rows. by rewrite K3, K5.
  - unfold pointers_owned. by rewrite K4, K6.
  - unfold coverage_captured. by rewrite K1, K4.
  - unfold jobs_grounded, job_grounded. by rewrite K1, K4, K7.
Qed.

Lemma backfill_good ns k metrics t d r d' : store_inv d ->
  write_metric_backfill_batch ns k metrics t d = (r, d') -> step_good d d'.
Proof.
  intros Hinv E. unfold write_metric_backfill_batch in E.
  destruct (_ <? _); [injection E as _ <-; by apply step_good_refl|].
  destruct (normalize_datetime t) as [now|]; [|injection E as _ <-; by apply step_good_refl].
  destruct r as [x|e]; [apply transaction_ok in E|apply transaction_err in E as [_ ->]; by apply step_good_refl].
  match type of E with ?m d = _ => assert (steps_by schema_kept m /\ steps_by same_core m) as [Hs Hc] end.
  { split; (steps_by_tac; [unfold _require_session_identity, session_by_hash; steps_by_tac|]).
    - apply steps_for_each; [exact _|]. intros m. unfold write_backfill_metric, artifact_owner,
        put_in_transaction, get_in_transaction. steps_by_tac; auto with ac.
    - apply steps_for_each; [exact _|]. intros m. unfold write_backfill_metric, artifact_owner,
        put_in_transaction, get_in_transaction.
      steps_by_tac; try apply core_insert_metric; apply core_delete_intents. }
  apply same_core_good; [done| |by eapply Hc]. eapply Hs; [exact E|]. apply Hinv.
Qed.

Lemma find_snapshot d row : schema_ok d = true -> row ∈ snapshots d ->
  List.find (fun r => nr_snapshot_id r ==? nr_snapshot_id row) (snapshots d) = Some row.
Proof.
  intros Hd Hr. apply (find_key nr_snapshot_id); [by apply snapshot_ids_unique|done| |].
  - by apply (py_eq_leibniz (A:=string)).
  - intros y Hy. by apply (py_eq_leibniz (A:=string)) in Hy.
Qed.
Lemma coverage_row d row : schema_ok d = true -> row ∈ snapshots d ->
  coverage_of d (nr_snapshot_id row) = Some (nr_covered_event_end row).
Proof. intros Hd Hr. unfold coverage_of. by rewrite find_snapshot. Qed.

(** The savepoint of a winning publication. *)
Lemma published_advance d d' id owner epoch cand ms records ceiling now r k : store_inv d ->
  PublishChecked d id owner epoch cand ms records ceiling now r k ->
  Published d (job_envelope k r) (committed now cand) ms records now d' -> schema_ok d' = true ->
  store_advance d d'.
Proof.
  intros Hinv Hpc Hpu Hd'. assert (Hd := si_schema d Hinv).
  destruct (checked_core _ _ _ _ _ _ _ _ _ _ _ Hpc) as (_ & _ & _ & _ & _ & G3 & _ & _ & ps & pms & Hbase & Hlt).
  destruct (pu_snapshot _ _ _ _ _ _ _ Hpu) as (row & Hsn & R1 & _ & _ & R4 & _).
  cbn [sn_snapshot_id sn_covered_event_end committed] in R1, R4.
  assert (Hext : extends (snapshots d) (snapshots d')) by (by exists [row]).
  split; try done.
  - apply jobs_advance_same, Hpu.
  - apply extends_eq, Hpu.
  - apply (pu_capsules _ _ _ _ _ _ _ Hpu).
  - exists (map (membership_row (sn_snapshot_id cand)) ms). split; [apply (pu_memberships _ _ _ _ _ _ _ Hpu)|].
    intros m x (y & -> & _)%list_elem_of_fmap Hx E. pose proof (snapshot_ids_unique d' Hd') as Hu.
    rewrite Hsn, map_app in Hu. apply NoDup_app in Hu as (_ & Hu & _). apply (Hu (nr_snapshot_id x)).
    { apply list_elem_of_fmap. eauto. }
    cbn in E |- *. rewrite R1, E. by left.
  - eexists. apply (pu_ledger _ _ _ _ _ _ _ Hpu).
  - intros srow Hs. exists srow. rewrite (pu_sessions _ _ _ _ _ _ _ Hpu). split_and!; [done..|lia].
  - assert (Hpt := pu_pointer _ _ _ _ _ _ _ Hpu). cbv zeta in Hpt.
    cbn [job_base_snapshot_id job_session_key job_envelope sn_snapshot_id committed] in Hpt.
    intros a Ha. unfold base_bundle in Hbase. destruct (jr_base r) as [b|].
    + destruct Hpt as (a0 & Ha0 & Hs0 & Hb0 & _ & E). rewrite E.
      destruct (ar_session a ==? session_key_hash k) eqn:Es.
      * exists (advance_pointer_row (sn_snapshot_id cand) now a). split.
        { apply list_elem_of_fmap. exists a. by rewrite Es. }
        split; [done|]. right. cbn. split; [lia|].
        apply (py_eq_leibniz (A:=string)) in Es.
        assert (a = a0) as ->.
        { apply schema_ok_spec in Hd as (_ & _ & _ & _ & _ & Hac & _). unfold actives_ok in Hac.
          apply andb_true_iff in Hac as [[_ Hu]%andb_true_iff _]. unfold unique_by in Hu.
          apply bool_decide_eq_true in Hu. eapply key_unique; [exact Hu|done|done|congruence]. }
        destruct Hbase as (s & -> & _ & Hb). apply snapshot_bundle_by_id_ok in Hb as (_ & brow & Hbr & Hbid & Hb).
        apply snapshot_bundle_ok in Hb as (_ & _ & (_ & _ & _ & _ & Hc & _)%snapshot_from_row_ok & _).
        cbn [base_coverage_of] in Hlt. exists (nr_covered_event_end brow), (nr_covered_event_end row).
        split_and!.
        { rewrite Hb0, <- Hbid. eapply coverage_extends; [done|]. by apply coverage_row. }
        { rewrite <- R1. apply coverage_row; [done|]. rewrite Hsn. apply elem_of_app. right. by left. }
        { lia. }
      * exists a. split; [|split; [done|by left]]. apply list_elem_of_fmap. exists a. by rewrite Es.
    + destruct Hpt as [_ E]. exists a. split; [rewrite E; apply elem_of_app; by left|]. split; [done|by left].
Qed.

Lemma publish_good ns id owner epoch cand ms metrics records ceiling t d r d' : store_inv d -> nonces_ok ns ->
  (forall m, m ∈ ms -> ContextCapsuleEnvelope_valid (ms_capsule m) = true) ->
  publish_snapshot ns id owner epoch cand ms metrics records ceiling t d = (r, d') -> step_good d d'.
Proof.
  intros Hinv Hns Hcv E. destruct r as [res|e]; cycle 1.
  { assert (d' = d) as ->; [|by apply step_good_refl]. unfold publish_snapshot in E.
    destruct (ceiling <? 0); [by injection E|]. destruct (normalize_datetime t); [|by injection E].
    by apply transaction_err in E as [_ ->]. }
  assert (Hd := si_schema d Hinv).
  destruct (publish_ok _ _ _ _ _ _ _ _ _ _ _ _ _ Hns Hd Hcv E) as (Hd' & inst & x & k & _ & Hpc & Ho).
  assert (Hx := pc_row _ _ _ _ _ _ _ _ _ _ _ Hpc).
  assert (Hw : working (jr_state x) = true) by (by rewrite (pc_ready _ _ _ _ _ _ _ _ _ _ _ Hpc)).
  destruct (si_jobs d Hinv x Hx) as [(srow & Hs & Hsh & Hi) _].
  destruct (pr_outcome res).
  - destruct (pw_database _ _ _ _ _ _ _ _ _ Ho) as (dp & Hpu & Hdp & Hmid & Hfu).
    assert (Hip := published_inv _ _ _ _ _ _ _ _ _ _ _ _ Hinv Hpc Hpu Hdp).
    assert (Hap := published_advance _ _ _ _ _ _ _ _ _ _ _ _ Hinv Hpc Hpu Hdp).
    assert (Hxp : x ∈ compaction_jobs dp) by (by rewrite (pu_jobs _ _ _ _ _ _ _ Hpu)).
    assert (Hmm := replaced_map dp x (committed_job_row inst) Hdp Hxp (terminal_change dp _ _ _ x Hw)).
    assert (Him := jobs_map_inv _ _ Hip Hmid Hmm).
    destruct (pu_snapshot _ _ _ _ _ _ _ Hpu) as (row & Hsn & R1 & R2 & _ & R4 & _).
    split.
    + eapply follow_up_inv; [exact Him|exact Hd'| | |exact Hfu].
      * exists srow. cbn [sessions set_jobs]. rewrite (pu_sessions _ _ _ _ _ _ _ Hpu). done.
      * exists row. cbn [snapshots set_jobs]. split; [rewrite Hsn; apply elem_of_app; right; by left|].
        split; [done|]. split; [|done]. rewrite R2. cbn [sn_session_key committed].
        rewrite (pc_key _ _ _ _ _ _ _ _ _ _ _ Hpc). apply (pc_session _ _ _ _ _ _ _ _ _ _ _ Hpc).
    + etransitivity; [exact Hap|]. etransitivity; [by apply jobs_map_store_advance|].
      assert (Hja := follow_up_advance _ _ _ _ _ _ _ Hmid Hfu).
      destruct Hfu as [[_ ->]|[_ [(y & _ & _ & _ & [[_ ->]|[_ ->]])|(i & _ & ->)]]];
        [reflexivity|reflexivity|by apply store_advance_set_jobs..].
  - destruct (pl_winner _ _ _ _ _ _ Ho) as (a & row & wms & Ha & Has & _ & Hrow & Hrid & Hwid & Hwc & Hwk & Hb).
    assert (Hfu := pl_database _ _ _ _ _ _ Ho). assert (Hmid := pl_schema _ _ _ _ _ _ Ho).
    assert (Hmm := replaced_map d x (superseded_job_row inst) Hd Hx (terminal_change d _ _ _ x Hw)).
    assert (Him := jobs_map_inv _ _ Hinv Hmid Hmm). split.
    + eapply follow_up_inv; [exact Him|exact Hd'| | |exact Hfu]; [by exists srow|].
      exists row. split; [done|]. split; [congruence|]. split; [|done].
      destruct (si_pointers d Hinv a Ha) as (row' & Hrow' & Hid' & Hse').
      assert (row' = row) as -> by (apply (key_unique nr_snapshot_id (snapshots d));
        [by apply snapshot_ids_unique|done|done|congruence]). congruence.
    + etransitivity; [by apply jobs_map_store_advance|].
      assert (Hja := follow_up_advance _ _ _ _ _ _ _ Hmid Hfu).
      destruct Hfu as [[_ ->]|[_ [(y & _ & _ & _ & [[_ ->]|[_ ->]])|(i & _ & ->)]]];
        [reflexivity|reflexivity|by apply store_advance_set_jobs..].
Qed.

Lemma repo_step_good d d' : store_inv d -> repo_step d d' -> step_good d d'.
Proof.
  intros Hinv []; [by eapply capture_good|by eapply intent_good|apply jobs_step_good; [done|]..
    |by eapply publish_good|by eapply backfill_good].
  - eapply claim_job_step; [|done]. apply Hinv.
  - by eapply transition_step.
  - by eapply renew_step.
  - by eapply fail_step.
  - by eapply recover_step.
Qed.

Lemma reachable_inv d : reachable d -> store_inv d.
Proof. induction 1 as [|d d' _ IH Hs]; [apply store_inv_empty|by apply (repo_step_good d d' IH)]. Qed.
Lemma later_good d d' : store_inv d -> later d d' -> step_good d d'.
Proof.
  intros Hinv. induction 1 as [|d1 d2 _ [Hi Ha] Hs]; [by apply step_good_refl|].
  destruct (repo_step_good d1 d2 Hi Hs) as [Hi2 Ha2]. split; [done|]. by etransitivity.
Qed.
End invariant.
