(* ===== verification/RepositoryProperties.v ===== *)
(** What the repository as a whole promises: reachable stores are well formed and
    readable, committed data is immutable, fences are single-owner, and a
    publication is atomic and reads back exactly. *)
From S2P Require Import Prelude PyString PyFloat Domain Validation PyJson Crypto Store Records.
From S2P Require Import Instances TokenMetrics Journal Jobs JobProperties Views Publish.
From S2P Require Import PublishLemmas Backfill Repository.
Open Scope string_scope.
Open Scope list_scope.
Open Scope Z_scope.

(** ** Lemmas: reading intervals *)

Lemma map_filter_key {A} (key : A -> Z) (p : Z -> bool) l :
  map key (List.filter (fun x => p (key x)) l) = List.filter p (map key l).
Proof. induction l as [|x l IH]; [done|]. cbn. destruct (p (key x)); cbn; by rewrite IH. Qed.
Lemma filter_py_range lo hi a b : lo <= a + 1 -> a <= b -> b < hi ->
  List.filter (fun x => (a <? x) && (x <=? b)) (py_range lo hi) = py_range (a + 1) (b + 1).
Proof.
  intros Hlo Hab Hhi. rewrite <- (py_range_app lo (a + 1) hi), <- (py_range_app (a + 1) (b + 1) hi) by lia.
  rewrite !List.filter_app.
  rewrite (proj2 (filter_nil_iff _ (py_range lo (a + 1)))); cycle 1.
  { intros x Hx%elem_of_py_range. apply andb_false_iff. left. apply Z.ltb_ge. lia. }
  rewrite (proj2 (filter_nil_iff _ (py_range (b + 1) hi))); cycle 1.
  { intros x Hx%elem_of_py_range. apply andb_false_iff. right. apply Z.leb_gt. lia. }
  rewrite app_nil_r. cbn [app]. apply filter_all. intros x Hx%elem_of_py_range.
  rewrite (proj2 (Z.ltb_lt _ _)), (proj2 (Z.leb_le _ _)) by lia. done.
Qed.

Section reading.
Context `{Sha256, StorageCodecLaws, !Environment, !EnvironmentLaws}.

(** Every interval of a session's Journal reads back, complete and in order. *)
Lemma events_between_total d k srow a b : store_inv d -> SessionKey_valid k = true ->
  srow ∈ sessions d -> se_hash srow = session_key_hash k ->
  0 <= a <= b -> b < se_next_event_sequence srow ->
  exists es, _events_between k a b d = Ok (es, d) /\ map ev_sequence es = py_range (a + 1) (b + 1).
Proof.
  intros Hinv Hk Hs Hh Hab Hb. set (rows := event_rows_between (session_key_hash k) a b d).
  assert (Hseq : map er_sequence rows = py_range (a + 1) (b + 1)).
  { assert (Hf : map er_sequence (List.filter (fun r => (er_session r ==? session_key_hash k)
        && (a <? er_sequence r) && (er_sequence r <=? b)) (journal_events d)) = py_range (a + 1) (b + 1)).
    { rewrite (List.filter_ext _ (fun r => (er_session r ==? session_key_hash k)
        && ((a <? er_sequence r) && (er_sequence r <=? b)))) by (intros r; by rewrite andb_assoc).
      rewrite (filter_filter_and (fun r => er_session r ==? session_key_hash k)
                 (fun r => (a <? er_sequence r) && (er_sequence r <=? b))).
      rewrite (map_filter_key er_sequence (fun x => (a <? x) && (x <=? b))).
      pose proof (si_journal d Hinv srow Hs) as Hc. unfold events_of in Hc. rewrite Hh in Hc.
      rewrite Hc. apply filter_py_range; lia. }
    unfold rows, event_rows_between. rewrite order_by_sorted; [done|]. rewrite Hf. apply sorted_py_range. }
  assert (Hdec : forall r, r ∈ rows -> exists e, _event_from_row k r = Ok e /\ ev_sequence e = er_sequence r).
  { intros r Hr. unfold rows, event_rows_between in Hr. apply elem_of_order_by, elem_of_filter_bool in Hr as [Hr Hp].
    rewrite !andb_true_iff in Hp. destruct Hp as [[Hp%(py_eq_leibniz (A:=string)) _] _].
    destruct (si_events d Hinv r k Hr Hk (eq_sym Hp)) as [e He]. exists e. split; [done|].
    by apply event_from_row_fields in He as (_ & _ & _ & _ & ? & _). }
  assert (Hes : exists es, map_result (_event_from_row k) rows = Ok es /\ map ev_sequence es = map er_sequence rows).
  { clear Hseq. induction rows as [|r rows IH]; [by exists []|].
    destruct (Hdec r (list_elem_of_here _ _)) as (e & He & Hse).
    destruct IH as (es & Hes & Hm); [intros x Hx; apply Hdec; by right|].
    exists (e :: es). cbn. rewrite He, Hes. split; [done|]. by rewrite Hse, Hm. }
  destruct Hes as (es & Hes & Hm). exists es. split; [|congruence].
  unfold _events_between, select, lift, mbind, tx_bind. fold rows. by rewrite Hes.
Qed.

(** The Snapshots of a session read back under its key. *)
Lemma bundle_total d k srow row : store_inv d -> srow ∈ sessions d -> se_hash srow = nr_session row ->
  _session_key_from_storage (nr_session row) (se_canonical srow) = Ok k -> row ∈ snapshots d ->
  exists s ms, snapshot_bundle k row d = Ok ((s, ms), d)
    /\ sn_covered_event_end s = nr_covered_event_end row /\ sn_snapshot_id s = nr_snapshot_id row
    /\ sn_state s = SNAPSHOT_COMMITTED.
Proof.
  intros Hinv Hs Hh Hk Hr. destruct (si_bundles d Hinv row Hr) as (k' & s & ms & (s' & Hs' & Hh' & Hk') & Hb).
  assert (s' = srow) as -> by (apply (same_session_row d); [apply Hinv|done|done|congruence]).
  assert (k' = k) as -> by congruence. exists s, ms. split; [done|].
  apply snapshot_bundle_ok in Hb as (_ & _ & Hsr & _).
  apply snapshot_from_row_ok in Hsr as (_ & H1' & _ & _ & H2' & _ & _ & H3' & _).
  split_and!; try done. rewrite H3'. by apply (committed_row d row); [apply Hinv|done].
Qed.

Lemma bundle_by_id_total d k srow row : store_inv d -> srow ∈ sessions d -> se_hash srow = nr_session row ->
  _session_key_from_storage (nr_session row) (se_canonical srow) = Ok k -> row ∈ snapshots d ->
  exists s ms, _snapshot_bundle_by_id (nr_snapshot_id row) k d = Ok ((s, ms), d)
    /\ sn_covered_event_end s = nr_covered_event_end row /\ sn_state s = SNAPSHOT_COMMITTED.
Proof.
  intros Hinv Hs Hh Hk Hr. destruct (bundle_total d k srow row Hinv Hs Hh Hk Hr) as (s & ms & Hb & Hc & _ & Hst).
  exists s, ms. split; [|done]. apply bundle_by_id_iff. split; [done|]. exists row, srow.
  split; [by apply find_snapshot; [apply Hinv|]|]. split; [|done].
  apply (find_key se_hash); [|done|by apply (py_eq_leibniz (A:=string))|].
  - pose proof (si_schema d Hinv) as Hd. apply schema_ok_spec in Hd as [Hd _]. unfold sessions_ok in Hd.
    apply andb_true_iff in Hd as [[_ Hu]%andb_true_iff _]. by apply bool_decide_eq_true in Hu.
  - intros y Hy. apply (py_eq_leibniz (A:=string)) in Hy. congruence.
Qed.

(** The active row of a session, when it has one. *)
Lemma active_row_total d h : store_inv d ->
  (exists a row, active_row h d = Ok (Some (a, row), d) /\ row ∈ snapshots d /\ nr_session row = h
     /\ a ∈ active_snapshots d /\ ar_session a = h /\ nr_snapshot_id row = ar_snapshot_id a)
  \/ active_row h d = Ok (None, d).
Proof.
  intros Hinv. unfold active_row, fetchone, select, mbind, tx_bind.
  destruct (List.find _ (active_snapshots d)) as [a|] eqn:Ea; [left|by right].
  apply find_some_elem in Ea as [Ha Has]. apply (py_eq_leibniz (A:=string)) in Has.
  destruct (si_pointers d Hinv a Ha) as (row & Hrow & Hrid & Hrs). exists a, row.
  rewrite <- Hrid, find_snapshot by (try done; apply Hinv). split_and!; try done. congruence.
Qed.

Lemma request_view_run d k srow : store_inv d -> SessionKey_valid k = true ->
  fault_injector "read.after_high_water" = false -> fault_injector "read.after_pointer" = false ->
  List.find (fun r => se_hash r ==? session_key_hash k) (sessions d) = Some srow ->
  _session_key_from_storage (session_key_hash k) (se_canonical srow) = Ok k ->
  exists v, read_request_view k d = Ok v.
Proof.
  intros Hinv Hk Hf1 Hf2 Hf Hdec. assert (Hd := si_schema d Hinv).
  assert (Hs := Hf). apply find_some_elem in Hs as [Hs Hh]. apply (py_eq_leibniz (A:=string)) in Hh.
  unfold read_request_view, read_only, _read_request_view, session_by_hash.
  unfold fetchone at 1, select at 1, mbind at 1, tx_bind at 1. rewrite Hf.
  unfold lift at 1, mbind at 1, tx_bind at 1. rewrite Hdec.
  rewrite (tx_bind_run _ _ _ _ _ (guard_run _ _ d (proj2 (negb_session_eq_false k k) eq_refl))).
  rewrite (tx_bind_run _ _ _ _ _ (inject_run _ d Hf1)).
  pose proof (next_sequence_positive d srow Hd Hs) as Hpos.
  destruct (active_row_total d (session_key_hash k) Hinv) as [(av & row & Ha & Hrow & Hrs & _)|Ha];
    rewrite (tx_bind_run _ _ _ _ _ Ha), (tx_bind_run _ _ _ _ _ (inject_run _ d Hf2)).
  - destruct (bundle_total d k srow row Hinv Hs ltac:(congruence) ltac:(by rewrite Hrs) Hrow)
      as (s & ms & Hb & Hc & _ & _).
    destruct (si_covered d Hinv row Hrow) as (s' & Hs' & Hh' & Hlt).
    assert (s' = srow) as -> by (apply (same_session_row d); [done..|congruence]).
    destruct (committed_row d row Hd Hrow) as [_ Hcpos].
    destruct (events_between_total d k srow (sn_covered_event_end s) (se_next_event_sequence srow - 1)
      Hinv Hk Hs Hh ltac:(lia) ltac:(lia)) as (es & Hes & Hm).
    assert (Hbundle : (b ← snapshot_bundle k row; let '(snapshot, memberships) := b in
      mret (Some snapshot, memberships, ar_pointer_version av, sn_covered_event_end snapshot)) d
      = Ok ((Some s, ms, ar_pointer_version av, sn_covered_event_end s), d))
      by (by rewrite (tx_bind_run _ _ _ _ _ Hb)).
    rewrite (tx_bind_run _ _ _ _ _ Hbundle).
    rewrite (tx_bind_run _ _ _ _ _ (guard_run _ _ d (proj2 (Z.ltb_ge (se_next_event_sequence srow - 1)
      (sn_covered_event_end s)) ltac:(lia)))).
    rewrite (tx_bind_run _ _ _ _ _ Hes).
    rewrite (tx_bind_run _ _ _ _ _ (guard_run _ _ d (proj2 (negb_py_eq_false _ _) Hm))).
    eexists. reflexivity.
  - destruct (events_between_total d k srow 0 (se_next_event_sequence srow - 1)
      Hinv Hk Hs Hh ltac:(lia) ltac:(lia)) as (es & Hes & Hm).
    rewrite (tx_bind_run _ _ _ _ _ (eq_refl : (mret (None, [], 0, 0) : tx (option SnapshotEnvelope *
      list SnapshotCapsuleMembership * Z * Z)) d = Ok ((None, [], 0, 0), d))).
    rewrite (tx_bind_run _ _ _ _ _ (guard_run _ _ d (proj2 (Z.ltb_ge (se_next_event_sequence srow - 1) 0)
      ltac:(lia)))).
    rewrite (tx_bind_run _ _ _ _ _ Hes).
    rewrite (tx_bind_run _ _ _ _ _ (guard_run _ _ d (proj2 (negb_py_eq_false _ _) Hm))).
    eexists. reflexivity.
Qed.
(** A worker's view reads back whole. *)
Lemma compaction_view_run d r owner epoch now : store_inv d -> r ∈ compaction_jobs d ->
  fence_ok owner epoch now r = true ->
  eqb_of (jr_state r) COMPILING || eqb_of (jr_state r) AUDITING = true ->
  exists v, read_compaction_view (jr_job_id r) owner epoch (Aware now) d = Ok v.
Proof.
  intros Hinv Hr Hf Hst. assert (Hd := si_schema d Hinv).
  destruct (job_by_id_run d r Hd (si_sessions d Hinv) Hr) as (k & Hk & Hjob).
  assert (Hjob' := Hjob). apply job_by_id_ok in Hjob' as (_ & x & k' & Hx & Hxid & E & _ & Hkv & _ & _ & srow & Hs & Hh & Hkey).
  assert (x = r) as -> by (by apply (key_unique jr_job_id _ _ _ (job_ids_unique d Hd))).
  injection E as <-. destruct (si_jobs d Hinv r Hr) as [(s' & Hs' & Hh' & Hi) Hbase].
  assert (s' = srow) as -> by (apply (same_session_row d); [done..|congruence]).
  destruct (job_rows_ok d r Hd Hr) as (((_ & Htgt & _ & Hbv & _ & _ & Hb0) & _)%job_row_ok_parts & _ & _).
  unfold read_compaction_view, read_only. cbn [normalize_datetime mbind result_bind].
  rewrite (tx_bind_run _ _ _ _ _ (require_live_fence_run d r owner epoch now Hd Hr Hf)).
  rewrite (tx_bind_run _ _ _ _ _ (guard_run _ _ d (proj2 (negb_false_iff _) Hst))).
  rewrite (tx_bind_run _ _ _ _ _ Hjob).
  cbn [job_base_snapshot_id job_envelope job_session_key job_target_high_water_mark
      job_base_pointer_version].
  destruct (jr_base r) as [b|] eqn:Eb.
  - destruct (Hbase b eq_refl) as (row & Hrow & Hrid & Hrs & Hlt).
    destruct (bundle_by_id_total d k srow row Hinv Hs ltac:(congruence) ltac:(by rewrite Hrs) Hrow)
      as (s & ms & Hb & Hc & Hstate).
    destruct (committed_row d row Hd Hrow) as [_ Hcpos].
    destruct (events_between_total d k srow (sn_covered_event_end s) (jr_target r) Hinv Hkv Hs
      ltac:(congruence) ltac:(lia) ltac:(lia)) as (es & Hes & Hm).
    assert (Hbundle : (b' ← _snapshot_bundle_by_id b k; let '(snapshot, memberships) := b' in
      guard (negb (eqb_of (sn_state snapshot) SNAPSHOT_COMMITTED)) RepositoryInvariantError;;
      mret (Some snapshot, memberships, sn_covered_event_end snapshot)) d
      = Ok ((Some s, ms, sn_covered_event_end s), d)).
    { rewrite <- Hrid, (tx_bind_run _ _ _ _ _ Hb). cbv beta iota.
      assert (negb (eqb_of (sn_state s) SNAPSHOT_COMMITTED) = false) as Hcm
        by (unfold eqb_of; by rewrite bool_decide_eq_true_2).
      by rewrite (tx_bind_run _ _ _ _ _ (guard_run _ _ d Hcm)). }
    rewrite (tx_bind_run _ _ _ _ _ Hbundle).
    rewrite (tx_bind_run _ _ _ _ _ (guard_run _ _ d (proj2 (Z.ltb_ge (jr_target r)
        (sn_covered_event_end s)) ltac:(lia)))).
    rewrite (tx_bind_run _ _ _ _ _ Hes).
    rewrite (tx_bind_run _ _ _ _ _ (guard_run _ _ d (proj2 (negb_py_eq_false _ _) Hm))).
    eexists. reflexivity.
  - assert (jr_base_pointer_version r = 0) as Hv0 by (destruct Hb0 as [[_ ?]|[? _]]; done).
    destruct (events_between_total d k srow 0 (jr_target r) Hinv Hkv Hs
      ltac:(congruence) ltac:(lia) ltac:(lia)) as (es & Hes & Hm).
    assert (Hbundle : (guard (negb (jr_base_pointer_version r =? 0)) RepositoryInvariantError;;
      mret (None, [], 0)) d = Ok ((None : option SnapshotEnvelope, [] : list SnapshotCapsuleMembership, 0), d)).
    { by rewrite Hv0. }
    rewrite (tx_bind_run _ _ _ _ _ Hbundle).
    rewrite (tx_bind_run _ _ _ _ _ (guard_run _ _ d (proj2 (Z.ltb_ge (jr_target r) 0) ltac:(lia)))).
    rewrite (tx_bind_run _ _ _ _ _ Hes).
    rewrite (tx_bind_run _ _ _ _ _ (guard_run _ _ d (proj2 (negb_py_eq_false _ _) Hm))).
    eexists. reflexivity.
Qed.
End reading.

(** ** Lemmas: reading a publication back *)

Section read_back.
Context `{Sha256, StorageCodecLaws, !Environment, !EnvironmentLaws}.

Lemma request_view_content d k srow a row s ms v :
  List.find (fun r => se_hash r ==? session_key_hash k) (sessions d) = Some srow ->
  active_row (session_key_hash k) d = Ok (Some (a, row), d) ->
  snapshot_bundle k row d = Ok ((s, ms), d) -> read_request_view k d = Ok v ->
  rv_snapshot v = Some s /\ rv_memberships v = ms /\ rv_pointer_version v = ar_pointer_version a
  /\ rv_covered_event_end v = sn_covered_event_end s
  /\ rv_high_water_mark v = se_next_event_sequence srow - 1.
Proof.
  intros Hf Ha Hb. unfold read_request_view, read_only.
  destruct (_read_request_view k d) as [[v' d']|] eqn:E; [|done]. intros [= ->].
  unfold _read_request_view, session_by_hash in E.
  apply tx_bind_ok in E as (o & d1 & [<- <-]%fetchone_ok & E). rewrite Hf in E.
  apply tx_bind_ok in E as (k' & d1 & [_ <-]%lift_ok & E).
  apply tx_bind_ok in E as (u1 & d1 & [_ <-]%guard_ok & E).
  apply tx_bind_ok in E as (u2 & d1 & [_ <-]%inject_ok & E).
  rewrite (tx_bind_run _ _ _ _ _ Ha) in E.
  apply tx_bind_ok in E as (u3 & d1 & [_ <-]%inject_ok & E).
  rewrite (tx_bind_run _ _ d (Some s, ms, ar_pointer_version a, sn_covered_event_end s) d) in E
    by (by rewrite (tx_bind_run _ _ _ _ _ Hb)).
  apply tx_bind_ok in E as (u4 & d1 & [_ <-]%guard_ok & E).
  apply tx_bind_ok in E as (delta & d1 & (-> & _ & _)%events_between_ok & E).
  apply tx_bind_ok in E as (u5 & d1 & [_ <-]%guard_ok & E).
  by apply tx_ret_ok in E as [<- _].
Qed.

Lemma records_of_rows sid i records :
  map_result record_of_row (map (fun p => ledger_row sid p.1 p.2) (enumerate_from i records)) = Ok records.
Proof.
  revert i. induction records as [|x records IH]; intros i; [done|].
  cbn [enumerate_from map map_result]. rewrite IH. unfold record_of_row, ledger_row.
  cbn [lr_required lr_kind lr_item_id lr_source_capsule_id lr_status lr_before_tokens lr_after_tokens fst snd].
  destruct x as [? ? ? ? ? ? []]; reflexivity.
Qed.

Lemma ledger_reads d d' sid records row : schema_ok d = true ->
  (forall x, x ∈ snapshots d -> nr_snapshot_id x <> sid) ->
  List.find (fun r => nr_snapshot_id r ==? sid) (snapshots d') = Some row -> nr_state row = SNAPSHOT_COMMITTED ->
  reorganization_records d' = reorganization_records d
    ++ map (fun p => ledger_row sid p.1 p.2) (enumerate records) ->
  forallb record_ok records = true -> NoDup (map source_item_key records) ->
  read_snapshot_reorganization_records sid d' = Ok records.
Proof.
  intros Hd Hfresh Hf Hst Hl Hok Hnd.
  assert (Hrows : ledger_rows sid d' = map (fun p => ledger_row sid p.1 p.2) (enumerate records)).
  { unfold ledger_rows. rewrite Hl, List.filter_app.
    rewrite (proj2 (filter_nil_iff _ (reorganization_records d))); cycle 1.
    { intros x Hx. apply not_true_iff_false. intros E%(py_eq_leibniz (A:=string)).
      apply schema_ok_spec in Hd as (_ & _ & _ & _ & _ & _ & _ & _ & _ & Hd). unfold ledger_ok in Hd.
      apply andb_true_iff in Hd as [[Hd _]%andb_true_iff _]. rewrite forallb_true_iff in Hd.
      specialize (Hd x Hx). apply andb_true_iff in Hd as [_ (y & Hy & Ey)%references_spec].
      apply (Hfresh y Hy). congruence. }
    cbn [app]. rewrite filter_all.
    - apply order_by_sorted. rewrite map_map. cbn [ledger_row lr_ordinal]. unfold enumerate.
      rewrite enumerate_from_fst. apply sorted_py_range.
    - intros x (p & -> & _)%list_elem_of_fmap. apply (py_eq_true_refl sid). }
  unfold read_snapshot_reorganization_records, read_only.
  rewrite (tx_bind_run _ _ _ _ _ (proj2 (fetchone_ok _ _ _ _ _) (conj Hf eq_refl))).
  cbv beta iota. rewrite Hst.
  assert (negb (eqb_of SNAPSHOT_COMMITTED SNAPSHOT_COMMITTED) = false) as Hcommitted
    by (unfold eqb_of; by rewrite bool_decide_eq_true_2).
  rewrite (tx_bind_run _ _ _ _ _ (guard_run _ _ d' Hcommitted)).
  rewrite (tx_bind_run _ _ _ _ _ (proj2 (select_ok _ _ _ _) (conj Hrows eq_refl))).
  rewrite (tx_bind_run _ _ _ _ _ (proj2 (lift_ok _ _ _ _) (conj (records_of_rows sid 0 records) eq_refl))).
  assert (canonicalize_reorganization_records records = Ok records) as Hc by (by apply canonicalize_ok).
  unfold lift. by rewrite Hc.
Qed.

Lemma active_row_find d h a row : schema_ok d = true -> a ∈ active_snapshots d -> ar_session a = h ->
  row ∈ snapshots d -> nr_snapshot_id row = ar_snapshot_id a -> active_row h d = Ok (Some (a, row), d).
Proof.
  intros Hd Ha Hs Hr Hid. unfold active_row, fetchone, select, mbind, tx_bind.
  rewrite (find_key ar_session (fun r => ar_session r ==? h) _ a); [|
    |done|by apply (py_eq_leibniz (A:=string))|
    intros y Hy; apply (py_eq_leibniz (A:=string)) in Hy; congruence].
  - rewrite <- Hid. by rewrite find_snapshot.
  - apply schema_ok_spec in Hd as (_ & _ & _ & _ & _ & Hac & _). unfold actives_ok in Hac.
    apply andb_true_iff in Hac as [[_ Hu]%andb_true_iff _]. unfold unique_by in Hu.
    by apply bool_decide_eq_true in Hu.
Qed.

(** The follow-up changes nothing but Jobs. *)
Lemma follow_up_jobs_only d hash intent winner pv now d' :
  follow_up_post d hash intent winner pv now d' -> exists rows, d' = set_jobs rows d.
Proof.
  intros [[_ ->]|[_ [(r & _ & _ & _ & [[_ ->]|[_ ->]])|(id & _ & ->)]]];
    [exists (compaction_jobs d)|exists (compaction_jobs d)|by eexists|by eexists]; by rewrite set_jobs_same.
Qed.

(** The active row a winning publication leaves. *)
Lemma published_active d dp r k s ms records now : schema_ok d = true ->
  Published d (job_envelope k r) s ms records now dp ->
  exists a, a ∈ active_snapshots dp /\ ar_session a = session_key_hash k
    /\ ar_snapshot_id a = sn_snapshot_id s
    /\ ((jr_base r = None /\ ar_pointer_version a = 1
         /\ forall x, x ∈ active_snapshots d -> ar_session x <> session_key_hash k)
        \/ exists a0, a0 ∈ active_snapshots d /\ ar_session a0 = session_key_hash k
           /\ jr_base r = Some (ar_snapshot_id a0) /\ ar_pointer_version a0 = jr_base_pointer_version r
           /\ ar_pointer_version a = jr_base_pointer_version r + 1).
Proof.
  intros Hd Hpu. assert (Hpt := pu_pointer _ _ _ _ _ _ _ Hpu). cbv zeta in Hpt.
  cbn [job_base_snapshot_id job_session_key job_envelope job_base_pointer_version] in Hpt.
  destruct (jr_base r) as [b|].
  - destruct Hpt as (a0 & Ha0 & Hs0 & Hb0 & Hv0 & E).
    exists (advance_pointer_row (sn_snapshot_id s) now a0). split.
    { rewrite E. apply list_elem_of_fmap. exists a0. split; [|done].
      by rewrite Hs0, (py_eq_true_refl (session_key_hash k)). }
    split_and!; try done. right. exists a0. split_and!; try done; [congruence|]. cbn. lia.
  - destruct Hpt as [Hnone E].
    match type of E with _ = _ ++ [?x] => exists x end. split.
    { rewrite E. apply elem_of_app. right. by left. }
    split_and!; try done. by left.
Qed.
End read_back.

(** ** A concrete publication for the witnesses *)

Definition toy_transition (id owner : string) (to : CompactionJobState) (t : Z) (cand : option string)
    (d : db) : result repo_error CompactionJobEnvelope * db :=
  @transition_job toy_sha256 toy_storage toy_environment id owner 1 to (Aware t) cand d.
(** The claimed Job compiling, and ready to commit its candidate.  The stores are
    kept as values. *)
Definition toy_db4 : db := Eval vm_compute in (toy_transition "job-1" "worker-1" COMPILING 12 None toy_db3).2.
Definition toy_db5 : db :=
  Eval vm_compute in (toy_transition "job-1" "worker-1" READY_TO_COMMIT 14 (Some "snapshot-1") toy_db4).2.
Definition toy_membership (id : string) (last : Z) : SnapshotCapsuleMembership :=
  {| ms_ordinal := 0; ms_slot := "context"; ms_capsule := example_capsule id last |}.
Definition toy_candidate : SnapshotEnvelope := example_snapshot "snapshot-1" None 1 ["capsule-1"].
Definition toy_record : ReorganizationRecord :=
  {| ro_kind := "claim"; ro_item_id := "goal-1"; ro_source_capsule_id := "capsule-1";
     ro_status := RETAINED; ro_before_tokens := 3; ro_after_tokens := 3; ro_required := true |}.
Definition toy_publish (id owner : string) (cand : SnapshotEnvelope) (m : SnapshotCapsuleMembership)
    (t : Z) (d : db) : result repo_error PublishResult * db :=
  @publish_snapshot toy_sha256 toy_storage toy_environment toy_nonces id owner 1 cand
    [m] None [toy_record] 100 (Aware t) d.
Definition toy_publish1 : db -> result repo_error PublishResult * db :=
  toy_publish "job-1" "worker-1" toy_candidate (toy_membership "capsule-1" 1) 15.
(** The store with its first Snapshot published. *)
Definition toy_db6 : db := Eval vm_compute in (toy_publish1 toy_db5).2.
Definition toy_won : PublishResult :=
  {| pr_outcome := OUTCOME_COMMITTED;
     pr_job := {| job_job_id := "job-1"; job_session_key := example_key; job_state := JOB_COMMITTED;
       job_target_high_water_mark := 1; job_intent_target_high_water_mark := 1;
       job_base_snapshot_id := None; job_base_pointer_version := 0;
       job_candidate_snapshot_id := Some "snapshot-1"; job_attempt_count := 1; job_lease_owner := None;
       job_lease_epoch := 1; job_lease_expires_at := None; job_next_retry_at := None;
       job_error_stage := None; job_error_code := None; job_error_message := None;
       job_created_at := 6; job_updated_at := 15; job_committed_at := Some 15 |};
     pr_winner := committed 15 toy_candidate; pr_pointer_version := 1 |}.
(** The same publication with the metrics of its Capsule and Snapshot. *)
Definition toy_measure (kind : ArtifactKind) (id : string) : TokenMetric :=
  {| tm_artifact_kind := kind; tm_artifact_id := id; tm_tokenizer_profile_id := "profile"; tm_token_count := 3 |}.
Definition toy_measures : list TokenMetric :=
  [toy_measure ARTIFACT_SNAPSHOT "snapshot-1"; toy_measure ARTIFACT_CAPSULE "capsule-1"].
Definition toy_publish_measured (d : db) : result repo_error PublishResult * db :=
  @publish_snapshot toy_sha256 toy_storage toy_environment toy_nonces "job-1" "worker-1" 1 toy_candidate
    [toy_membership "capsule-1" 1] (Some toy_measures) [toy_record] 100 (Aware 15) d.
Definition toy_db6m : db := Eval vm_compute in (toy_publish_measured toy_db5).2.
Lemma toy_measured_won : toy_publish_measured toy_db5 = (Ok toy_won, toy_db6m).
Proof. vm_compute. reflexivity. Qed.
Lemma toy_measures_valid :
  forall l, Some toy_measures = Some l -> Forall (fun t => TokenMetric_valid t = true) l.
Proof. intros l [= <-]. by repeat constructor. Qed.

Lemma toy_publish_won : toy_publish1 toy_db5 = (Ok toy_won, toy_db6).
Proof. vm_compute. reflexivity. Qed.

(** A second round: one more event, a second Job on the first Snapshot.  Its
    publication wins with a new Capsule, and loses when it redefines the first
    Snapshot's Capsule. *)
Definition toy_capture2 : db -> result repo_error EventEnvelope * db :=
  toy_capture "event-2" "again" "key-2" 16.
Definition toy_intent2 (d : db) : result repo_error (option CompactionJobEnvelope) * db :=
  @raise_compaction_intent toy_sha256 toy_storage toy_environment "job-2" example_key 2 (Aware 17) d.
Definition toy_claim2 (d : db) : result repo_error (option CompactionJobEnvelope) * db :=
  @claim_job toy_sha256 toy_storage toy_environment "worker-2" (Aware 18) (Aware 40) d.
Definition toy_db6a : db := Eval vm_compute in (toy_capture2 toy_db6).2.
Definition toy_db6b : db := Eval vm_compute in (toy_intent2 toy_db6a).2.
Definition toy_db6c : db := Eval vm_compute in (toy_claim2 toy_db6b).2.
Definition toy_db6d : db :=
  Eval vm_compute in (toy_transition "job-2" "worker-2" COMPILING 19 None toy_db6c).2.
Definition toy_db7 : db :=
  Eval vm_compute in (toy_transition "job-2" "worker-2" READY_TO_COMMIT 21 (Some "snapshot-2") toy_db6d).2.
Definition toy_publish2 (capsule_id : string) : db -> result repo_error PublishResult * db :=
  toy_publish "job-2" "worker-2" (example_snapshot "snapshot-2" (Some "snapshot-1") 2 [capsule_id])
    (toy_membership capsule_id 2) 25.
Definition toy_db8 : db := Eval vm_compute in (toy_publish2 "capsule-2" toy_db7).2.
Definition toy_db9 : db := Eval vm_compute in (toy_publish2 "capsule-1" toy_db7).2.
Definition toy_result2 (outcome : PublishOutcome) (committed_at : option Z) (winner : SnapshotEnvelope)
    (version : Z) : PublishResult :=
  {| pr_outcome := outcome;
     pr_job := {| job_job_id := "job-2"; job_session_key := example_key; job_state := outcome_state outcome;
       job_target_high_water_mark := 2; job_intent_target_high_water_mark := 2;
       job_base_snapshot_id := Some "snapshot-1"; job_base_pointer_version := 1;
       job_candidate_snapshot_id := Some "snapshot-2"; job_attempt_count := 1; job_lease_owner := None;
       job_lease_epoch := 1; job_lease_expires_at := None; job_next_retry_at := None;
       job_error_stage := None; job_error_code := None; job_error_message := None;
       job_created_at := 17; job_updated_at := 25; job_committed_at := committed_at |};
     pr_winner := winner; pr_pointer_version := version |}.
Definition toy_won2 : PublishResult := toy_result2 OUTCOME_COMMITTED (Some 25)
  (committed 25 (example_snapshot "snapshot-2" (Some "snapshot-1") 2 ["capsule-2"])) 2.
Definition toy_lost2 : PublishResult :=
  toy_result2 OUTCOME_SUPERSEDED None (committed 15 toy_candidate) 1.
Lemma toy_publish_won2 : toy_publish2 "capsule-2" toy_db7 = (Ok toy_won2, toy_db8).
Proof. vm_compute. reflexivity. Qed.
Lemma toy_publish_lost2 : toy_publish2 "capsule-1" toy_db7 = (Ok toy_lost2, toy_db9).
Proof. vm_compute. reflexivity. Qed.

Definition toy_reachable : db -> Prop := @reachable toy_sha256 toy_storage toy_environment.
Definition toy_later : db -> db -> Prop := @later toy_sha256 toy_storage toy_environment.

(** The steps, over any store. *)
Section toy_steps.
#[local] Existing Instance toy_sha256.
#[local] Existing Instance toy_environment.
#[local] Existing Instance toy_storage.
Lemma toy_step_capture id c ik t d : repo_step d (toy_capture id c ik t d).2.
Proof. eapply step_capture; [| |apply surjective_pairing]; [apply toy_nonces_ok|reflexivity]. Qed.
Lemma toy_step_intent id target t d : repo_step d
  (raise_compaction_intent id example_key target (Aware t) d).2.
Proof. eapply step_intent, surjective_pairing. Qed.
Lemma toy_step_claim worker t lease d : repo_step d (claim_job worker (Aware t) (Aware lease) d).2.
Proof. eapply step_claim, surjective_pairing. Qed.
Lemma toy_step_transition id owner to t cand d : repo_step d (toy_transition id owner to t cand d).2.
Proof. eapply step_transition, surjective_pairing. Qed.
Lemma toy_capsules_valid id last : ContextCapsuleEnvelope_valid (example_capsule id last) = true ->
  forall m, m ∈ [toy_membership id last] -> ContextCapsuleEnvelope_valid (ms_capsule m) = true.
Proof. intros Hv m ->%list_elem_of_singleton. exact Hv. Qed.
Lemma toy_step_publish id owner cand cap last t d :
  ContextCapsuleEnvelope_valid (example_capsule cap last) = true ->
  repo_step d (toy_publish id owner cand (toy_membership cap last) t d).2.
Proof.
  intros Hv. eapply step_publish; [| |apply surjective_pairing]; [apply toy_nonces_ok|].
  by apply toy_capsules_valid.
Qed.
Lemma later_to d d1 d2 d2' : d2 = d2' -> later d d1 -> repo_step d1 d2' -> later d d2.
Proof. intros ->. apply later_step. Qed.
End toy_steps.

Lemma reachable_later `{Sha256, StorageCodec, Environment} d d' : reachable d -> later d d' -> reachable d'.
Proof. intros Hd. induction 1; [done|by eapply reachable_step]. Qed.

Lemma toy_reachable_intent : toy_reachable toy_db2.
Proof.
  refine (reachable_step toy_db1 _ _ (toy_step_intent _ _ _ toy_db1)).
  exact (reachable_step empty_db _ reachable_empty (toy_step_capture _ _ _ _ empty_db)).
Qed.
Lemma toy_reachable_claimed : toy_reachable toy_db3.
Proof. exact (reachable_step toy_db2 _ toy_reachable_intent (toy_step_claim _ _ _ toy_db2)). Qed.
Ltac toy_evaluates := vm_compute; reflexivity.
Lemma toy_later_compiling : toy_later toy_db3 toy_db4.
Proof.
  refine (later_to _ _ _ _ _ (later_refl toy_db3) (toy_step_transition "job-1" "worker-1" COMPILING 12 None _)).
  toy_evaluates.
Qed.
Lemma toy_reachable_compiling : toy_reachable toy_db4.
Proof. exact (reachable_later _ _ toy_reachable_claimed toy_later_compiling). Qed.
Lemma toy_reachable_ready : toy_reachable toy_db5.
Proof.
  refine (reachable_later _ _ toy_reachable_compiling (later_to _ _ _ _ _ (later_refl _)
    (toy_step_transition "job-1" "worker-1" READY_TO_COMMIT 14 (Some "snapshot-1") _))).
  toy_evaluates.
Qed.
Lemma toy_reachable_published : toy_reachable toy_db6.
Proof.
  refine (reachable_later _ _ toy_reachable_ready (later_to _ _ _ _ _ (later_refl _)
    (toy_step_publish "job-1" "worker-1" toy_candidate "capsule-1" 1 15 _ eq_refl))).
  exact (eq_sym (f_equal snd toy_publish_won)).
Qed.
Lemma toy_later_second : toy_later toy_db6 toy_db7.
Proof.
  refine (later_to _ toy_db6d _ _ _ (later_to _ toy_db6c _ _ _ (later_to _ toy_db6b _ _ _
    (later_to _ toy_db6a _ _ _ (later_to _ toy_db6 _ _ _ (later_refl _)
      (toy_step_capture "event-2" "again" "key-2" 16 _))
      (toy_step_intent "job-2" 2 17 _)) (toy_step_claim "worker-2" 18 40 _))
      (toy_step_transition "job-2" "worker-2" COMPILING 19 None _))
      (toy_step_transition "job-2" "worker-2" READY_TO_COMMIT 21 (Some "snapshot-2") _)); toy_evaluates.
Qed.
Lemma toy_reachable_second : toy_reachable toy_db7.
Proof. exact (reachable_later _ _ toy_reachable_published toy_later_second). Qed.

(** ** Lemmas: fences over time *)

Section fences.
Context `{Sha256, StorageCodecLaws, !Environment, !EnvironmentLaws}.

Lemma later_advance d d' : reachable d -> later d d' -> store_advance d d'.
Proof. intros Hd Hl. by apply (later_good d d' (reachable_inv d Hd) Hl). Qed.

(** The row of a Job at a later time. *)
Lemma later_job d d' r : reachable d -> later d d' -> r ∈ compaction_jobs d ->
  schema_ok d' = true /\ forall r', r' ∈ compaction_jobs d' -> jr_job_id r' = jr_job_id r -> job_advance r r'.
Proof.
  intros Hd Hl Hr. destruct (later_good d d' (reachable_inv d Hd) Hl) as [Hinv' Ha].
  assert (Hd' := si_schema d' Hinv'). split; [done|]. intros r' Hr' Hid.
  destruct (sa_jobs _ _ Ha r Hr) as (x & Hx & Hadv).
  assert (x = r') as <-; [|done].
  apply (key_unique jr_job_id _ _ _ (job_ids_unique d' Hd') Hx Hr'). by rewrite (adv_id _ _ Hadv).
Qed.

Lemma older_epoch_lost d r id owner epoch now : schema_ok d = true -> r ∈ compaction_jobs d ->
  jr_job_id r = id -> epoch < jr_lease_epoch r -> fence_lost d id owner epoch now.
Proof.
  intros Hd Hr Hid He x Hx Hxid.
  assert (x = r) as -> by (apply (key_unique jr_job_id _ _ _ (job_ids_unique d Hd) Hx Hr); congruence).
  destruct (fence_ok owner epoch now r) eqn:E; [|done]. apply fence_ok_parts in E as (_ & _ & ? & _). lia.
Qed.

(** The argument checks that come before the fence: an instant that must be
    aware and later than now. *)
Definition admitted_after (now : Z) (t : py_datetime) : bool :=
  match t with Naive => false | Aware t => now <? t end.
Definition admitted_retry (now : Z) (retry_at : option py_datetime) : bool :=
  match retry_at with None => true | Some t => admitted_after now t end.
(** What a refused call does: an error, the store as it was; [StaleLeaseError]
    unless the arguments were already refused. *)
Definition refused {A} (admitted : bool) (d : db) : result repo_error A * db :=
  (Err (if admitted then StaleLeaseError else ValueError), d).

(** Every operation a worker performs under its lease asks for the fence first,
    whatever its other arguments are. *)
Definition refuses_stale (d : db) (id owner : string) (epoch now : Z) : Prop :=
  (forall to cand, transition_job id owner epoch to (Aware now) cand d = refused true d)
  /\ (forall lease, renew_job_lease id owner epoch (Aware now) lease d
                    = refused (admitted_after now lease) d)
  /\ (forall s c m retry_at preserve,
        fail_job id owner epoch (Aware now) s c m retry_at preserve d
        = refused (negb (fail_arguments_bad s c m (is_some retry_at) preserve)
                   && admitted_retry now retry_at) d)
  /\ (forall ns cand ms metrics records ceiling,
        publish_snapshot ns id owner epoch cand ms metrics records ceiling (Aware now) d
        = refused (0 <=? ceiling) d)
  /\ read_compaction_view id owner epoch (Aware now) d = Err StaleLeaseError.

Lemma lost_fails d id owner epoch now s c m retry_at preserve : fence_lost d id owner epoch now ->
  fail_job id owner epoch (Aware now) s c m retry_at preserve d
  = refused (negb (fail_arguments_bad s c m (is_some retry_at) preserve)
             && admitted_retry now retry_at) d.
Proof.
  intros Hl. pose proof (require_live_fence_stale id owner epoch now d Hl) as Hf.
  unfold fail_job, refused. destruct (fail_arguments_bad _ _ _ _ _); [done|]. cbn [normalize_datetime].
  destruct retry_at as [[|t]|]; cbn [admitted_retry admitted_after normalize_datetime mbind result_bind];
    [done| |apply transaction_err; split; [by apply tx_bind_err|done]].
  destruct (Z.leb_spec t now) as [Ht|Ht]; cbn [raise_if mbind result_bind].
  - by rewrite (proj2 (Z.ltb_ge now t) Ht).
  - rewrite (proj2 (Z.ltb_lt now t) Ht). apply transaction_err. split; [by apply tx_bind_err|done].
Qed.

Lemma lost_refuses d id owner epoch now : fence_lost d id owner epoch now ->
  refuses_stale d id owner epoch now.
Proof.
  intros Hl. pose proof (require_live_fence_stale id owner epoch now d Hl) as Hf. split_and!.
  - intros to cand. unfold transition_job. cbn [normalize_datetime]. apply transaction_err.
    split; [|done]. by apply tx_bind_err.
  - intros [|t]; [done|]. unfold renew_job_lease, refused. cbn [normalize_datetime admitted_after].
    rewrite Z.leb_antisym. destruct (now <? t); [|done].
    apply transaction_err. split; [|done]. by apply tx_bind_err.
  - intros s c m retry_at preserve. by apply lost_fails.
  - intros ns cand ms metrics records ceiling. unfold publish_snapshot, refused.
    rewrite Z.leb_antisym. destruct (ceiling <? 0); [done|]. cbn [normalize_datetime]. apply transaction_err.
    split; [|done]. unfold publish_checks. by apply tx_bind_err, tx_bind_err.
  - unfold read_compaction_view, read_only. cbn [normalize_datetime mbind result_bind].
    by rewrite (tx_bind_err _ _ _ _ Hf).
Qed.
End fences.

(** ** Lemmas: after a publication *)

Section after_publication.
Context `{Sha256, StorageCodecLaws, !Environment, !EnvironmentLaws}.

Lemma follow_up_parts d hash intent winner pv now d' : follow_up_post d hash intent winner pv now d' ->
  exists rows, d' = set_jobs rows d
  /\ (sn_covered_event_end winner < intent -> exists r, r ∈ rows
      /\ jr_session r = hash /\ job_nonterminal r = true /\ intent <= jr_intent r).
Proof.
  intros [[Hle ->]|[_ [(r & Hr & Hs & Hn & [[Hi ->]|[Hi ->]])|(id & _ & ->)]]].
  - exists (compaction_jobs d). rewrite set_jobs_same. split; [done|]. lia.
  - exists (compaction_jobs d). rewrite set_jobs_same. split; [done|]. intros _. by exists r.
  - eexists. split; [done|]. intros _. exists (fold_row intent now r).
    split; [|split; [done|split; [done|cbn; lia]]].
    apply elem_of_replaced. exists r. split; [done|]. by rewrite (py_eq_true_refl (jr_job_id r)).
  - eexists. split; [done|]. intros _.
    exists (pending_row id hash intent (Some (sn_snapshot_id winner)) pv now).
    split; [|done]. apply elem_of_app. right. by left.
Qed.

Lemma won_database d r k s ms records now result d' : PublishWon d r k s ms records now result d' ->
  exists dp rows, Published d (job_envelope k r) s ms records now dp /\ schema_ok dp = true
    /\ d' = set_jobs rows dp.
Proof.
  intros Ho. destruct (pw_database _ _ _ _ _ _ _ _ _ Ho) as (dp & Hpu & Hdp & _ & Hfu).
  apply follow_up_parts in Hfu as (rows & -> & _). by exists dp, rows.
Qed.

Lemma stored_key_find d h k : store_inv d -> stored_key d h k ->
  exists srow, List.find (fun r => se_hash r ==? h) (sessions d) = Some srow
    /\ srow ∈ sessions d /\ se_hash srow = h /\ _session_key_from_storage h (se_canonical srow) = Ok k.
Proof.
  intros Hinv (srow & Hs & Hh & Hk). exists srow. split_and!; try done.
  apply (find_key se_hash); [|done|by apply (py_eq_leibniz (A:=string))|].
  - pose proof (si_schema d Hinv) as Hd. apply schema_ok_spec in Hd as [Hd _]. unfold sessions_ok in Hd.
    apply andb_true_iff in Hd as [[_ Hu]%andb_true_iff _]. by apply bool_decide_eq_true in Hu.
  - intros y Hy. apply (py_eq_leibniz (A:=string)) in Hy. congruence.
Qed.

(** The bundle a winning publication leaves. *)
Lemma won_bundle d dp id owner epoch cand ms records ceiling now r k : schema_ok d = true ->
  PublishChecked d id owner epoch cand ms records ceiling now r k ->
  Published d (job_envelope k r) (committed now cand) ms records now dp -> schema_ok dp = true ->
  exists row, snapshots dp = snapshots d ++ [row] /\ nr_snapshot_id row = sn_snapshot_id cand
    /\ snapshot_bundle k row dp = Ok ((committed now cand, ms), dp).
Proof.
  intros Hd Hpc Hpu Hdp. destruct (pu_snapshot _ _ _ _ _ _ _ Hpu) as (row & Hsn & R1 & _ & _ & _ & _ & R6).
  cbn [sn_snapshot_id sn_session_key sn_capsule_ids committed] in R1, R6.
  rewrite (pc_key _ _ _ _ _ _ _ _ _ _ _ Hpc) in R6. exists row. split; [done|]. split; [done|].
  exact (published_new_bundle _ _ _ _ _ _ _ _ _ _ _ _ _ Hd Hdp Hpc Hpu Hsn R1 R6).
Qed.

Lemma pointer_unique d a b : schema_ok d = true -> a ∈ active_snapshots d -> b ∈ active_snapshots d ->
  ar_session a = ar_session b -> a = b.
Proof.
  intros Hd Ha Hb. apply (key_unique ar_session (active_snapshots d)); [|done|done].
  apply schema_ok_spec in Hd as (_ & _ & _ & _ & _ & Hac & _). unfold actives_ok in Hac.
  apply andb_true_iff in Hac as [[_ Hu]%andb_true_iff _]. unfold unique_by in Hu.
  by apply bool_decide_eq_true in Hu.
Qed.
End after_publication.

(** ** Properties *)

Section repository_properties.
Context `{Sha256, StorageCodecLaws, !Environment, !EnvironmentLaws}.

(** C9. Every store the operations can build from the empty one satisfies the
    invariant: the schema's constraints hold, every session, event, Snapshot
    and Capsule decrypts and reads back, each session's Journal is numbered
    1, 2, 3, ... without gap, every active pointer names a Snapshot of its own
    session, every Snapshot covers exactly its source interval and only captured
    events, and every Job's base is a Snapshot of its session behind its target. *)
Theorem reachable_store_inv d : reachable d -> store_inv d.
Proof. apply reachable_inv. Qed.

(** C2. Whatever operations run, committed data is never lost or rewritten:
    events, Capsules, Snapshots, memberships and ledger records are only
    appended, session counters never go back, Jobs only advance (a terminal Job
    never changes again, a lease keeps its target and base), an existing
    Snapshot gets no further membership, and a session's active pointer either
    stays or moves to a strictly later version that covers strictly more. *)
Theorem committed_data_append_only d d' : reachable d -> later d d' -> store_advance d d'.
Proof. apply later_advance. Qed.

(** C5. A fencing token that was overtaken is refused for ever: once a Job has
    been claimed under a later epoch, then at any later time a transition, a
    renewal, a failure report (final or retrying, at any retry time), a
    publication and a compaction read under the old epoch are all refused and
    leave the store as it was, whatever their other arguments: with
    [StaleLeaseError], or [ValueError] where the arguments were not admitted in
    the first place. *)
Theorem stale_worker_refused d d' r owner epoch now : reachable d -> later d d' ->
  r ∈ compaction_jobs d -> epoch < jr_lease_epoch r ->
  refuses_stale d' (jr_job_id r) owner epoch now.
Proof.
  intros Hd Hl Hr He. apply lost_refuses. intros x Hx Hid.
  destruct (later_job d d' r Hd Hl Hr) as [Hd' Hadv].
  apply (older_epoch_lost d' x (jr_job_id r)); try done.
  pose proof (adv_epoch _ _ (Hadv x Hx Hid)). lia.
Qed.

(** A fencing epoch has one owner: whoever holds a live fence of a Job
    under some epoch, at any two moments, is the same worker. *)
Theorem lease_epoch_single_owner d d' id o1 o2 epoch t1 t2 r1 r2 : reachable d -> later d d' ->
  holds_fence d id o1 epoch t1 r1 -> holds_fence d' id o2 epoch t2 r2 -> o1 = o2.
Proof.
  intros Hd Hl (Hr1 & Hi1 & Hf1) (Hr2 & Hi2 & Hf2).
  destruct (later_job d d' r1 Hd Hl Hr1) as [_ Hadv].
  specialize (Hadv r2 Hr2 ltac:(congruence)).
  apply fence_ok_parts in Hf1 as (_ & Ho1 & He1 & _). apply fence_ok_parts in Hf2 as (_ & Ho2 & He2 & _).
  destruct (adv_owner _ _ Hadv ltac:(congruence)); congruence.
Qed.

(** C7. Reading is always possible: on a reachable store the request view of a
    valid session key is returned, it is consistent (its own session, the
    committed Snapshot with its Capsules, and exactly the events after its
    coverage up to the high-water mark), and the runtime's validation accepts
    it; the only error is [SessionIdentityConflict], and then another valid key
    has the same SHA-256 digest. *)
Theorem request_view_available d k : reachable d -> SessionKey_valid k = true ->
  fault_injector "read.after_high_water" = false -> fault_injector "read.after_pointer" = false ->
  match read_request_view k d with
  | Ok v => ViewConsistent v k /\ validated_request_view (fun key => read_request_view key d) k = Ok v
  | Err e => e = SessionIdentityConflict
      /\ exists k', k' <> k /\ SessionKey_valid k' = true /\ session_key_hash k' = session_key_hash k
  end.
Proof.
  intros Hd%reachable_inv Hk Hf1 Hf2.
  assert (Hok : forall v, read_request_view k d = Ok v -> ViewConsistent v k
    /\ validated_request_view (fun key => read_request_view key d) k = Ok v).
  { intros v Hv. assert (ViewConsistent v k) as Hc by (by eapply request_view_consistent; [apply Hd..|]).
    split; [done|]. by apply validated_iff. }
  destruct (List.find (fun r => se_hash r ==? session_key_hash k) (sessions d)) as [srow|] eqn:Ef; cycle 1.
  { assert (read_request_view k d = Ok (empty_view k)) as E.
    { unfold read_request_view, read_only, _read_request_view, session_by_hash.
      by rewrite (tx_bind_run _ _ d None d (proj2 (fetchone_ok _ _ _ _ _) (conj Ef eq_refl))). }
    rewrite E. by apply Hok. }
  assert (Hs := Ef). apply find_some_elem in Hs as [Hs Hh]. apply (py_eq_leibniz (A:=string)) in Hh.
  destruct (si_sessions d Hd srow Hs) as [k' Hk']. rewrite Hh in Hk'.
  destruct (decide (k' = k)) as [->|Hne].
  { destruct (request_view_run d k srow Hd Hk Hf1 Hf2 Ef Hk') as [v Hv]. rewrite Hv. by apply Hok. }
  assert (read_request_view k d = Err SessionIdentityConflict) as ->.
  { unfold read_request_view, read_only, _read_request_view, session_by_hash.
    rewrite (tx_bind_run _ _ d _ d (proj2 (fetchone_ok _ _ _ _ _) (conj Ef eq_refl))). cbv beta iota.
    rewrite (tx_bind_run _ _ d _ d (proj2 (lift_ok _ _ _ _) (conj Hk' eq_refl))).
    rewrite (tx_bind_err _ _ d SessionIdentityConflict); [done|]. apply guard_run_true.
    apply not_false_iff_true. intros E. by apply negb_session_eq_false in E. }
  split; [done|]. exists k'. split; [done|].
  by apply session_key_from_storage_ok in Hk'.
Qed.

(** A worker's view is frozen to its lease, and decided: without a live
    fence reading it is a [StaleLeaseError]; while the Job is neither COMPILING
    nor AUDITING a [JobTransitionError]; otherwise, on a reachable store, the
    view is always returned, consistent, ending at the Job's target, on the
    Job's base Snapshot and base pointer version, whatever has been captured or
    published since. *)
Theorem compaction_view_frozen_to_lease d id owner epoch now : reachable d ->
  (fence_lost d id owner epoch now ->
     read_compaction_view id owner epoch (Aware now) d = Err StaleLeaseError)
  /\ forall r, holds_fence d id owner epoch now r ->
     if eqb_of (jr_state r) COMPILING || eqb_of (jr_state r) AUDITING
     then exists v, read_compaction_view id owner epoch (Aware now) d = Ok v
       /\ ViewConsistent v (rv_session_key v) /\ session_key_hash (rv_session_key v) = jr_session r
       /\ rv_high_water_mark v = jr_target r /\ rv_pointer_version v = jr_base_pointer_version r
       /\ sn_snapshot_id <$> rv_snapshot v = jr_base r
     else read_compaction_view id owner epoch (Aware now) d = Err JobTransitionError.
Proof.
  intros Hinv%reachable_inv. assert (Hd := si_schema d Hinv).
  split; [intros Hl; by apply (lost_refuses d id owner epoch now Hl)|].
  intros r (Hr & <- & Hf).
  pose proof (require_live_fence_run d r owner epoch now Hd Hr Hf) as Hfence.
  destruct (eqb_of (jr_state r) COMPILING || eqb_of (jr_state r) AUDITING) eqn:Hst; cycle 1.
  { unfold read_compaction_view, read_only. cbn [normalize_datetime mbind result_bind].
    rewrite (tx_bind_run _ _ _ _ _ Hfence).
    rewrite (tx_bind_err _ _ d JobTransitionError); [done|]. apply guard_run_true. by rewrite Hst. }
  destruct (compaction_view_run d r owner epoch now Hinv Hr Hf Hst) as [v Hv]. exists v. split; [done|].
  destruct (compaction_view_consistent d _ owner epoch (Aware now) v Hd (si_exact d Hinv) Hv)
    as (Hc & inst & x & _ & Hx & Hxid & _ & _ & H1' & H2' & H3' & H4').
  assert (x = r) as -> by (by apply (key_unique jr_job_id _ _ _ (job_ids_unique d Hd))).
  by split_and!.
Qed.

(** C4. Publication is all or nothing, on every branch: an error leaves the
    store exactly as it was; otherwise the live fence, the READY_TO_COMMIT state,
    the candidate's identity and memberships, the ledger records, the token metrics
    (one per Capsule and one for the Snapshot, under one profile) and the
    permanent gate all held, and the outcome is either COMMITTED - the Capsules,
    Snapshot, memberships, ledger and pointer all written, every metric reading
    back, no other metric touched, exactly the backfill intents they answer gone,
    the Job COMMITTED - or SUPERSEDED, naming the session's active Snapshot and
    changing no metric and no intent. *)
Theorem publish_snapshot_atomic ns id owner epoch cand ms metrics records ceiling now d r d' :
  reachable d -> nonces_ok ns ->
  (forall m, m ∈ ms -> ContextCapsuleEnvelope_valid (ms_capsule m) = true) ->
  (forall l, metrics = Some l -> Forall (fun t => TokenMetric_valid t = true) l) ->
  publish_snapshot ns id owner epoch cand ms metrics records ceiling now d = (r, d') ->
  match r with
  | Err _ => d' = d
  | Ok result => exists inst row k, now = Aware inst
      /\ PublishChecked d id owner epoch cand ms records ceiling inst row k
      /\ metrics_accepted cand ms metrics
      /\ match pr_outcome result with
         | OUTCOME_COMMITTED => PublishWon d row k (committed inst cand) ms records inst result d'
             /\ metrics_written (default [] metrics) d d'
         | OUTCOME_SUPERSEDED => PublishLost d row k inst result d' /\ same_metrics d d'
         end
  end.
Proof.
  intros Hinv%reachable_inv Hns Hcv Hmv E. destruct r as [result|e].
  - assert (Hd := si_schema d Hinv).
    destruct (publish_metrics_ok _ _ _ _ _ _ _ _ _ _ _ _ _ Hns Hd Hmv E) as [Hacc Hw].
    destruct (publish_ok _ _ _ _ _ _ _ _ _ _ _ _ _ Hns Hd Hcv E) as (_ & inst & row & k & ? & ? & Hout).
    exists inst, row, k. split_and!; [done..|].
    destruct (pr_outcome result), metrics as [l|]; split; try done.
    apply (same_metrics_written [] d d d d'); [reflexivity|exact Hw|apply metrics_written_nil].
  - unfold publish_snapshot in E. destruct (ceiling <? 0); [by injection E|].
    destruct (normalize_datetime now); [|by injection E]. by apply transaction_err in E as [_ ->].
Qed.

(** C1. What was published reads back exactly: after a COMMITTED publication
    the session's request view carries the committed Snapshot, the very
    memberships and Capsules handed in, and the returned pointer version, and
    the Snapshot's ledger is the list of records handed in, in order. *)
Theorem published_snapshot_reads_back ns id owner epoch cand ms metrics records ceiling now d result d' :
  reachable d -> nonces_ok ns ->
  (forall m, m ∈ ms -> ContextCapsuleEnvelope_valid (ms_capsule m) = true) ->
  fault_injector "read.after_high_water" = false -> fault_injector "read.after_pointer" = false ->
  publish_snapshot ns id owner epoch cand ms metrics records ceiling now d = (Ok result, d') ->
  pr_outcome result = OUTCOME_COMMITTED ->
  exists inst v, now = Aware inst /\ pr_winner result = committed inst cand
  /\ read_request_view (sn_session_key cand) d' = Ok v
  /\ rv_snapshot v = Some (committed inst cand) /\ rv_memberships v = ms
  /\ rv_pointer_version v = pr_pointer_version result
  /\ read_snapshot_reorganization_records (sn_snapshot_id cand) d' = Ok records.
Proof.
  intros Hreach Hns Hcv Hf1 Hf2 E Ho. assert (Hinv := reachable_inv d Hreach). assert (Hd := si_schema d Hinv).
  assert (Hinv' : store_inv d') by (apply (publish_good _ _ _ _ _ _ _ _ _ _ _ _ _ Hinv Hns Hcv E)).
  destruct (publish_ok _ _ _ _ _ _ _ _ _ _ _ _ _ Hns Hd Hcv E) as (Hd' & inst & r & k & -> & Hpc & Hwon).
  rewrite Ho in Hwon. destruct (won_database _ _ _ _ _ _ _ _ _ Hwon) as (dp & rows & Hpu & Hdp & ->).
  destruct (won_bundle _ _ _ _ _ _ _ _ _ _ _ _ Hd Hpc Hpu Hdp) as (row & Hsn & Hrid & Hb).
  destruct (published_active _ _ _ _ _ _ _ _ Hd Hpu) as (a & Ha & Has & Haid & Hav).
  assert (Hrow : row ∈ snapshots dp) by (rewrite Hsn; apply elem_of_app; right; by left).
  assert (Hact : active_row (session_key_hash k) (set_jobs rows dp) = Ok (Some (a, row), set_jobs rows dp)).
  { apply active_row_find; try done. cbn [sn_snapshot_id committed] in Haid. congruence. }
  assert (Hb' : snapshot_bundle k row (set_jobs rows dp) = Ok ((committed inst cand, ms), set_jobs rows dp))
    by (eapply bundle_frame; [|exact Hb]; reflexivity).
  destruct (stored_key_find (set_jobs rows dp) (session_key_hash k) k Hinv') as (srow & Hf & Hs & Hh & Hkey).
  { unfold stored_key. cbn [sessions set_jobs]. rewrite (pu_sessions _ _ _ _ _ _ _ Hpu).
    rewrite (pc_session _ _ _ _ _ _ _ _ _ _ _ Hpc). apply (pc_stored _ _ _ _ _ _ _ _ _ _ _ Hpc). }
  destruct (request_view_run _ k srow Hinv' (pc_key_valid _ _ _ _ _ _ _ _ _ _ _ Hpc) Hf1 Hf2 Hf Hkey) as [v Hv].
  destruct (request_view_content _ k srow a row _ ms v Hf Hact Hb' Hv) as (V1 & V2 & V3 & _ & _).
  exists inst, v. split; [done|]. split; [apply (pw_winner _ _ _ _ _ _ _ _ _ Hwon)|].
  rewrite (pc_key _ _ _ _ _ _ _ _ _ _ _ Hpc). split; [done|]. split; [done|]. split; [done|]. split.
  - rewrite V3, (pw_version _ _ _ _ _ _ _ _ _ Hwon).
    destruct Hav as [(Hb0 & -> & _)|(a0 & _ & _ & _ & _ & ->)]; [|done].
    destruct (job_rows_ok d r Hd (pc_row _ _ _ _ _ _ _ _ _ _ _ Hpc))
      as (((_ & _ & _ & _ & _ & _ & [[_ ?]|[Hb1 _]]) & _)%job_row_ok_parts & _ & _); [lia|by rewrite Hb0 in Hb1].
  - destruct (pc_records _ _ _ _ _ _ _ _ _ _ _ Hpc) as [Hrok Hrnd].
    apply (ledger_reads d (set_jobs rows dp) (sn_snapshot_id cand) records row); try done.
    + intros x Hx Ex. pose proof (snapshot_ids_unique dp Hdp) as Hu.
      rewrite Hsn, map_app in Hu. apply NoDup_app in Hu as (_ & Hu & _). apply (Hu (nr_snapshot_id x)).
      { apply list_elem_of_fmap. eauto. }
      cbn. rewrite Hrid, Ex. by left.
    + rewrite <- Hrid. by apply find_snapshot.
    + by apply (committed_row dp row).
    + apply (pu_ledger _ _ _ _ _ _ _ Hpu).
Qed.

(** A losing publication publishes nothing: when the outcome is SUPERSEDED
    every table but the Job table is untouched, and the returned winner is the
    Snapshot the session's active pointer names, with the pointer's version. *)
Theorem superseded_publishes_nothing ns id owner epoch cand ms metrics records ceiling now d result d' :
  reachable d -> nonces_ok ns ->
  (forall m, m ∈ ms -> ContextCapsuleEnvelope_valid (ms_capsule m) = true) ->
  publish_snapshot ns id owner epoch cand ms metrics records ceiling now d = (Ok result, d') ->
  pr_outcome result = OUTCOME_SUPERSEDED ->
  (exists rows, d' = set_jobs rows d)
  /\ exists a, a ∈ active_snapshots d' /\ ar_session a = session_key_hash (sn_session_key cand)
     /\ sn_snapshot_id (pr_winner result) = ar_snapshot_id a
     /\ pr_pointer_version result = ar_pointer_version a.
Proof.
  intros Hreach Hns Hcv E Ho. assert (Hd := si_schema d (reachable_inv d Hreach)).
  destruct (publish_ok _ _ _ _ _ _ _ _ _ _ _ _ _ Hns Hd Hcv E) as (Hd' & inst & r & k & -> & Hpc & Hlost).
  rewrite Ho in Hlost. pose proof (pl_database _ _ _ _ _ _ Hlost) as (rows & -> & _)%follow_up_parts.
  destruct (pl_winner _ _ _ _ _ _ Hlost) as (a & row & wms & Ha & Has & Hv & _ & _ & Hid & _).
  split; [by exists rows|]. exists a. split; [done|]. split; [|done].
  rewrite (pc_key _ _ _ _ _ _ _ _ _ _ _ Hpc). rewrite Has. symmetry. apply (pc_session _ _ _ _ _ _ _ _ _ _ _ Hpc).
Qed.

(** C3. One winner per pointer version: of two COMMITTED publications of the
    same session the later one has the strictly greater pointer version, so no
    two publications win from the same base. *)
Theorem one_winner_per_version ns id owner epoch cand ms metrics records ceiling now d1 d2 result
    ns' id' owner' epoch' cand' ms' metrics' records' ceiling' now' d3 d4 result' :
  reachable d1 -> nonces_ok ns -> nonces_ok ns' ->
  (forall m, m ∈ ms -> ContextCapsuleEnvelope_valid (ms_capsule m) = true) ->
  (forall m, m ∈ ms' -> ContextCapsuleEnvelope_valid (ms_capsule m) = true) ->
  publish_snapshot ns id owner epoch cand ms metrics records ceiling now d1 = (Ok result, d2) ->
  pr_outcome result = OUTCOME_COMMITTED -> later d2 d3 ->
  publish_snapshot ns' id' owner' epoch' cand' ms' metrics' records' ceiling' now' d3 = (Ok result', d4) ->
  pr_outcome result' = OUTCOME_COMMITTED ->
  session_key_hash (sn_session_key cand') = session_key_hash (sn_session_key cand) ->
  pr_pointer_version result < pr_pointer_version result'.
Proof.
  intros Hreach Hns Hns' Hcv Hcv' E Ho Hlater E' Ho' Hsame.
  assert (Hd := si_schema d1 (reachable_inv d1 Hreach)).
  assert (Hr2 : reachable d2) by (refine (reachable_step d1 d2 Hreach _); exact (step_publish _ _ _ _ _ _ _ _ _ _ _ _ _ Hns Hcv E)).
  assert (Hr3 : reachable d3) by (by eapply reachable_later).
  assert (Hd3 := si_schema d3 (reachable_inv d3 Hr3)).
  destruct (publish_ok _ _ _ _ _ _ _ _ _ _ _ _ _ Hns Hd Hcv E) as (_ & inst & r & k & _ & Hpc & Hwon).
  destruct (publish_ok _ _ _ _ _ _ _ _ _ _ _ _ _ Hns' Hd3 Hcv' E') as (_ & inst' & r' & k' & _ & Hpc' & Hwon').
  rewrite Ho in Hwon. rewrite Ho' in Hwon'.
  assert (session_key_hash k' = session_key_hash k) as Hsame'
    by (rewrite <- (pc_key _ _ _ _ _ _ _ _ _ _ _ Hpc), <- (pc_key _ _ _ _ _ _ _ _ _ _ _ Hpc'); exact Hsame).
  destruct (won_database _ _ _ _ _ _ _ _ _ Hwon) as (dp & rows & Hpu & Hdp & ->).
  destruct (won_database _ _ _ _ _ _ _ _ _ Hwon') as (dp' & rows' & Hpu' & _ & _).
  destruct (published_active _ _ _ _ _ _ _ _ Hd Hpu) as (a & Ha & Has & _ & Hav).
  destruct (published_active _ _ _ _ _ _ _ _ Hd3 Hpu') as (a' & _ & _ & _ & Hav').
  rewrite (pw_version _ _ _ _ _ _ _ _ _ Hwon), (pw_version _ _ _ _ _ _ _ _ _ Hwon').
  destruct (sa_pointers _ _ (later_advance _ d3 Hr2 Hlater) a Ha) as (b & Hb & Hbs & Hadv).
  assert (jr_base_pointer_version r + 1 <= ar_pointer_version b) as Hge.
  { assert (ar_pointer_version a = jr_base_pointer_version r + 1) as Hva.
    { destruct Hav as [(Hb0 & -> & _)|(a0 & _ & _ & _ & _ & ->)]; [|done].
      destruct (job_rows_ok d1 r Hd (pc_row _ _ _ _ _ _ _ _ _ _ _ Hpc))
        as (((_ & _ & _ & _ & _ & _ & [[_ ?]|[Hb1 _]]) & _)%job_row_ok_parts & _ & _); [lia|by rewrite Hb0 in Hb1]. }
    destruct Hadv as [->|[? _]]; lia. }
  destruct Hav' as [(_ & _ & Hnone)|(a0 & Ha0 & Hs0 & _ & Hv0 & _)].
  - exfalso. apply (Hnone b Hb). rewrite Hbs, Has. cbn. by rewrite Hsame'.
  - assert (b = a0) as -> by (apply (pointer_unique d3); [done..|congruence]). lia.
Qed.

(** C6. No intent is lost by publishing: whichever the outcome, if the
    finished Job was asked to cover more than the winning Snapshot does, the
    store it leaves has a nonterminal Job of that session that is asked to
    cover at least as much. *)
Theorem follow_up_intent_preserved ns id owner epoch cand ms metrics records ceiling now d result d' :
  reachable d -> nonces_ok ns ->
  (forall m, m ∈ ms -> ContextCapsuleEnvelope_valid (ms_capsule m) = true) ->
  publish_snapshot ns id owner epoch cand ms metrics records ceiling now d = (Ok result, d') ->
  let job := pr_job result in
  sn_covered_event_end (pr_winner result) < job_intent_target_high_water_mark job ->
  exists r, r ∈ compaction_jobs d' /\ jr_session r = session_key_hash (job_session_key job)
    /\ job_nonterminal r = true /\ job_intent_target_high_water_mark job <= jr_intent r.
Proof.
  intros Hreach Hns Hcv E job Hlt. assert (Hd := si_schema d (reachable_inv d Hreach)).
  destruct (publish_ok _ _ _ _ _ _ _ _ _ _ _ _ _ Hns Hd Hcv E) as (_ & inst & r & k & _ & Hpc & Ho).
  unfold job in *. clear job. destruct (pr_outcome result).
  - destruct (pw_job _ _ _ _ _ _ _ _ _ Ho) as (k' & Ej & Hk'). rewrite Ej in Hlt |- *.
    cbn [job_session_key job_envelope job_intent_target_high_water_mark committed_job_row terminal_row jr_intent] in *.
    destruct (pw_database _ _ _ _ _ _ _ _ _ Ho) as (dp & _ & _ & _ & Hfu).
    rewrite (pw_winner _ _ _ _ _ _ _ _ _ Ho) in Hlt.
    apply follow_up_parts in Hfu as (rows & -> & Hfu). rewrite Hk'. by apply Hfu.
  - destruct (pl_job _ _ _ _ _ _ Ho) as (k' & Ej & Hk'). rewrite Ej in Hlt |- *.
    cbn [job_session_key job_envelope job_intent_target_high_water_mark superseded_job_row terminal_row jr_intent] in *.
    pose proof (pl_database _ _ _ _ _ _ Ho) as (rows & -> & Hfu)%follow_up_parts.
    rewrite Hk'. by apply Hfu.
Qed.
End repository_properties.

(** ** Witnesses *)

Section repository_witnesses.
(* The wrappers unfold before the operations they wrap. *)
Strategy expand [toy_publish_measured toy_publish toy_publish1 toy_publish2 toy_reachable toy_later].
#[local] Existing Instance toy_sha256.
#[local] Existing Instance toy_storage.
#[local] Existing Instance toy_environment.
#[local] Existing Instance toy_storage_laws.
#[local] Existing Instance toy_environment_laws.

Lemma reachable_store_inv_witness : store_inv toy_db6.
Proof. exact (reachable_store_inv toy_db6 toy_reachable_published). Defined.

Lemma committed_data_append_only_witness : store_advance toy_db6 toy_db7.
Proof. exact (committed_data_append_only toy_db6 toy_db7 toy_reachable_published toy_later_second). Defined.

(** The claim was epoch 1, so epoch 0 is refused ever after. *)
Lemma stale_worker_refused_witness : refuses_stale toy_db4 "job-1" "worker-0" 0 11.
Proof.
  refine (stale_worker_refused toy_db3 toy_db4 toy_row3 "worker-0" 0 11
    toy_reachable_claimed toy_later_compiling _ eq_refl).
  rewrite toy_row3_in. by left.
Defined.

Lemma toy_held4 : holds_fence toy_db4 "job-1" "worker-1" 1 13 (transition_row COMPILING None 12 toy_row3).
Proof.
  assert (compaction_jobs toy_db4 = [transition_row COMPILING None 12 toy_row3]) as E
    by (vm_compute; reflexivity).
  unfold holds_fence. rewrite E. split_and!; [by left|reflexivity|reflexivity].
Qed.
Lemma lease_epoch_single_owner_witness : "worker-1" = "worker-1".
Proof.
  exact (lease_epoch_single_owner toy_db3 toy_db4 "job-1" _ _ 1 12 13 _ _
    toy_reachable_claimed toy_later_compiling toy_held toy_held4).
Defined.

Lemma request_view_available_witness :
  exists v, read_request_view example_key toy_db7 = Ok v /\ ViewConsistent v example_key.
Proof.
  pose proof (request_view_available toy_db7 example_key toy_reachable_second eq_refl eq_refl eq_refl) as Hv.
  assert (match read_request_view example_key toy_db7 with Ok _ => true | Err _ => false end = true) as E
    by (vm_compute; reflexivity).
  revert Hv E. generalize (read_request_view example_key toy_db7). intros [v|e] Hv E; [|discriminate E].
  exists v. exact (conj eq_refl (proj1 Hv)).
Defined.

Lemma compaction_view_frozen_to_lease_witness :
  exists v, read_compaction_view "job-1" "worker-1" 1 (Aware 13) toy_db4 = Ok v /\ rv_high_water_mark v = 1.
Proof.
  destruct (proj2 (compaction_view_frozen_to_lease toy_db4 "job-1" "worker-1" 1 13 toy_reachable_compiling)
    _ toy_held4) as (v & E & _ & _ & Hh & _). exists v. exact (conj E Hh).
Defined.

Lemma toy_valid1 : forall m, m ∈ [toy_membership "capsule-1" 1] ->
  ContextCapsuleEnvelope_valid (ms_capsule m) = true.
Proof. by apply toy_capsules_valid. Qed.
Lemma toy_valid2 id : ContextCapsuleEnvelope_valid (example_capsule id 2) = true ->
  forall m, m ∈ [toy_membership id 2] -> ContextCapsuleEnvelope_valid (ms_capsule m) = true.
Proof. by apply toy_capsules_valid. Qed.

Lemma publish_snapshot_atomic_witness : exists row,
  PublishWon toy_db5 row example_key (committed 15 toy_candidate) [toy_membership "capsule-1" 1]
    [toy_record] 15 toy_won toy_db6m
  /\ metric_at toy_db6m ARTIFACT_SNAPSHOT "snapshot-1" "profile"
     = Ok (Some (toy_measure ARTIFACT_SNAPSHOT "snapshot-1")).
Proof.
  destruct (publish_snapshot_atomic _ _ _ _ _ _ _ _ _ _ _ _ _ toy_reachable_ready toy_nonces_ok toy_valid1
    toy_measures_valid toy_measured_won) as (inst & row & k & Einst & Hpc & _ & Hwon & Hmet).
  injection Einst as <-. pose proof (pc_key _ _ _ _ _ _ _ _ _ _ _ Hpc) as Hk.
  change (example_key = k) in Hk. subst k. exists row. split; [exact Hwon|].
  refine (mw_read _ _ _ Hmet (toy_measure ARTIFACT_SNAPSHOT "snapshot-1") _). apply elem_of_cons. left. reflexivity.
Defined.

Lemma published_snapshot_reads_back_witness : exists v,
  read_request_view example_key toy_db6 = Ok v /\ rv_snapshot v = Some (committed 15 toy_candidate)
  /\ rv_memberships v = [toy_membership "capsule-1" 1]
  /\ read_snapshot_reorganization_records "snapshot-1" toy_db6 = Ok [toy_record].
Proof.
  destruct (published_snapshot_reads_back _ _ _ _ _ _ _ _ _ _ _ _ _ toy_reachable_ready toy_nonces_ok toy_valid1
    eq_refl eq_refl toy_publish_won eq_refl) as (inst & v & Einst & _ & Hv & Hs & Hm & _ & Hl).
  injection Einst as <-. exists v. exact (conj Hv (conj Hs (conj Hm Hl))).
Defined.

Lemma superseded_publishes_nothing_witness : exists rows, toy_db9 = set_jobs rows toy_db7.
Proof.
  exact (proj1 (superseded_publishes_nothing _ _ _ _ _ _ _ _ _ _ _ _ _ toy_reachable_second toy_nonces_ok
    (toy_valid2 "capsule-1" eq_refl) toy_publish_lost2 eq_refl)).
Defined.

Lemma one_winner_per_version_witness : pr_pointer_version toy_won < pr_pointer_version toy_won2.
Proof.
  exact (one_winner_per_version _ _ _ _ _ _ _ _ _ _ _ _ _ _ _ _ _ _ _ _ _ _ _ _ _ _
    toy_reachable_ready toy_nonces_ok toy_nonces_ok toy_valid1 (toy_valid2 "capsule-2" eq_refl)
    toy_publish_won eq_refl toy_later_second toy_publish_won2 eq_refl eq_refl).
Defined.

Lemma follow_up_intent_preserved_witness : exists r, r ∈ compaction_jobs toy_db9
  /\ jr_session r = session_key_hash example_key /\ job_nonterminal r = true /\ 2 <= jr_intent r.
Proof.
  exact (follow_up_intent_preserved _ _ _ _ _ _ _ _ _ _ _ _ _ toy_reachable_second toy_nonces_ok
    (toy_valid2 "capsule-1" eq_refl) toy_publish_lost2 eq_refl).
Defined.
End repository_witnesses.
