(* ===== verification/WorkerLogic.v ===== *)
(** A weakest-precondition calculus for the workers of [Worker.v]: every
    computation moves the store onward by steps of the repository, whatever
    others do in between, and ends in a value or an exception that satisfies
    its postcondition. *)
From S2P Require Import Prelude PyString PyFloat Domain Validation PyJson Crypto Store Records.
From S2P Require Import TokenMetrics Journal Jobs JobProperties Views Publish PublishLemmas Backfill Refusals.
From S2P Require Import Segmenter Budget Compiler Auditor Worker Repository RepositoryProperties.
Open Scope string_scope.
Open Scope list_scope.
Open Scope Z_scope.

(** What others do to a store are steps of the repository too. *)
Class OutsideLaws `{Sha256, StorageCodec, Environment, Outside} := {
  others_later : forall n d, reachable d -> later d (others n d);
  nonces_fit : forall n, nonces_ok (nonces n);
}.

Section logic.
Context `{Sha256, StorageCodecLaws, !Environment, !EnvironmentLaws, !Outside, !OutsideLaws}.

Lemma later_trans a b c : later a b -> later b c -> later a c.
Proof. intros Hab Hbc. induction Hbc as [|x y Hx IH Hs]; [done|]. by eapply later_step. Qed.

(** The store has only been worked on, and the clock has only been read more often. *)
Definition onward (w w' : World) : Prop := later (w_db w) (w_db w') /\ (w_tick w <= w_tick w')%nat.
#[export] Instance onward_preorder : PreOrder onward.
Proof.
  split; [intros w; split; [constructor|done]|].
  intros a b c [H1' T1] [H2' T2]. split; [by eapply later_trans|lia].
Qed.

Definition wp {E A} (m : W E A) (Post : A -> World -> Prop) (Exc : E -> World -> Prop) (w : World) : Prop :=
  reachable (w_db w) -> let (r, w') := m w in
  onward w w' /\ match r with Ok a => Post a w' | Err e => Exc e w' end.

Lemma wp_mono {E A} (m : W E A) (P Q : A -> World -> Prop) (X Y : E -> World -> Prop) w :
  wp m P X w -> (forall a w', onward w w' -> reachable (w_db w') -> P a w' -> Q a w') ->
  (forall e w', onward w w' -> reachable (w_db w') -> X e w' -> Y e w') -> wp m Q Y w.
Proof.
  unfold wp. intros Hm HP HX Hw. specialize (Hm Hw). destruct (m w) as [[a|e] w1]; destruct Hm as [Ho Hr];
    (split; [done|]); pose proof (reachable_later _ _ Hw (proj1 Ho)); auto.
Qed.
Lemma wp_and {E A} (m : W E A) (P Q : A -> World -> Prop) (X Y : E -> World -> Prop) w :
  wp m P X w -> wp m Q Y w -> wp m (fun a w' => P a w' /\ Q a w') (fun e w' => X e w' /\ Y e w') w.
Proof.
  unfold wp. intros HP HQ Hw. specialize (HP Hw). specialize (HQ Hw). destruct (m w) as [[a|e] w1];
    destruct HP as [? ?], HQ as [_ ?]; by split.
Qed.
Lemma wp_ret {E A} (a : A) (P : A -> World -> Prop) (X : E -> World -> Prop) w : P a w -> wp (mret a) P X w.
Proof. intros HP _. by split. Qed.
Lemma wp_raises {E A} (e : E) (P : A -> World -> Prop) (X : E -> World -> Prop) w : X e w -> wp (raises e) P X w.
Proof. intros HX _. by split. Qed.
Lemma wp_pure {E A} (r : result E A) (P : A -> World -> Prop) (X : E -> World -> Prop) w :
  match r with Ok a => P a w | Err e => X e w end -> wp (pure r) P X w.
Proof. intros HP _. by split. Qed.
Lemma wp_bind {E A B} (m : W E A) (f : A -> W E B) P X w :
  wp m (fun a w1 => wp (f a) P X w1) X w -> wp (m ≫= f) P X w.
Proof.
  unfold wp, mbind, W_bind. intros Hm Hw. specialize (Hm Hw). destruct (m w) as [[a|e] w1]; [|done].
  destruct Hm as [Ho Hm]. specialize (Hm (reachable_later _ _ Hw (proj1 Ho))).
  destruct (f a w1) as [r w2]. destruct Hm as [Ho2 Hm]. split; [by transitivity w1|done].
Qed.
Lemma wp_catch {E E' A} (m : W E A) (h : E -> W E' A) P X w :
  wp m P (fun e w1 => wp (h e) P X w1) w -> wp (catch m h) P X w.
Proof.
  unfold wp, catch. intros Hm Hw. specialize (Hm Hw). destruct (m w) as [[a|e] w1]; [done|].
  destruct Hm as [Ho Hm]. specialize (Hm (reachable_later _ _ Hw (proj1 Ho))).
  destruct (h e w1) as [r w2]. destruct Hm as [Ho2 Hm]. split; [by transitivity w1|done].
Qed.
Lemma wp_during {S E A} (s : S) (m : W E A) P (X : S * E -> World -> Prop) w :
  wp m P (fun e w1 => X (s, e) w1) w -> wp (during s m) P X w.
Proof. unfold wp, during. intros Hm Hw. specialize (Hm Hw). by destruct (m w) as [[a|e] w1]. Qed.
Lemma wp_clock {E} (P : py_datetime -> World -> Prop) (X : E -> World -> Prop) w :
  P (clock (w_tick w)) {| w_db := w_db w; w_tick := S (w_tick w) |} -> wp read_clock P X w.
Proof. intros HP _. split; [|done]. split; [constructor|cbn; lia]. Qed.

(** A call: others first, then the database may be unavailable, then the operation. *)
Lemma wp_call {A} (op : db -> result repo_error A * db) (P : A -> World -> Prop) X w :
  let next d := {| w_db := d; w_tick := S (w_tick w) |} in
  (forall d, reachable d -> X OperationalError (next d)) ->
  (forall d code, reachable d -> X (FromRepository (StorageSecurityError code)) (next d)) ->
  (forall d r d', reachable d -> later (w_db w) d -> op d = (r, d') ->
     (d' = d \/ repo_step d d') /\ match r with Ok a => P a (next d') | Err e => X (FromRepository e) (next d') end) ->
  wp (call op) P X w.
Proof.
  intros next HL HS Hop Hw. pose proof (others_later (w_tick w) _ Hw) as Hl.
  pose proof (reachable_later _ _ Hw Hl) as Hr.
  assert (Ho : forall d', later (others (w_tick w) (w_db w)) d' -> onward w (next d')).
  { intros d' Hd'. split; [by eapply later_trans|cbn; lia]. }
  unfold call. destruct (trouble (w_tick w)) as [[|code]|].
  - split; [apply Ho; constructor|by apply HL].
  - split; [apply Ho; constructor|by apply HS].
  - destruct (op (others (w_tick w) (w_db w))) as [r d'] eqn:E. destruct (Hop _ _ _ Hr Hl E) as [Hstep Hr'].
    split; [|by destruct r]. apply Ho. destruct Hstep as [->|Hs]; [constructor|].
    eapply later_step; [constructor|exact Hs].
Qed.
Lemma wp_nonces {A} (op : Nonces -> db -> result repo_error A * db) (P : A -> World -> Prop) X w :
  wp (call (op (nonces (w_tick w)))) P X w -> wp (call_nonces op) P X w.
Proof. done. Qed.
(** [OperationalError] means that the database was locked. *)
Definition locked_since (n0 : nat) (w : World) : Prop :=
  exists n, (n0 <= n < w_tick w)%nat /\ trouble n = Some DatabaseLocked.
Lemma call_locked {A} (op : db -> result repo_error A * db) n0 w : (n0 <= w_tick w)%nat ->
  (forall d r d', op d = (r, d') -> repo_step d d') ->
  wp (call op) (fun _ _ => True) (fun e w' => e = OperationalError -> locked_since n0 w') w.
Proof.
  intros Hn Hop Hw. assert (wp (call op) (fun _ _ => True) (fun _ _ => True) w) as Hc.
  { apply wp_call; try done. intros d r d' _ _ E. split; [right; by eapply Hop|by destruct r]. }
  specialize (Hc Hw). unfold call in *. destruct (trouble (w_tick w)) as [[|code]|] eqn:Et.
  - split; [apply Hc|]. intros _. exists (w_tick w). cbn. split; [lia|done].
  - split; [apply Hc|done].
  - destruct (op _) as [[a|e] d']; (split; [apply Hc|done]).
Qed.
(** A read. *)
Lemma wp_call_read {A} (op : db -> result repo_error A) (P : A -> World -> Prop) X w :
  let next d := {| w_db := d; w_tick := S (w_tick w) |} in
  (forall d, reachable d -> X OperationalError (next d)) ->
  (forall d code, reachable d -> X (FromRepository (StorageSecurityError code)) (next d)) ->
  (forall d, reachable d -> later (w_db w) d ->
     match op d with Ok a => P a (next d) | Err e => X (FromRepository e) (next d) end) ->
  wp (call_read op) P X w.
Proof.
  intros next HL HS Hop. apply wp_call; try done. intros d r d' Hr Hl [= <- <-]. split; [by left|]. by apply Hop.
Qed.
End logic.
