(* ===== verification/FrozenViews.v ===== *)
(** What a worker reads under its lease stays readable and the same: the rows of
    its base Snapshot, the events up to its target and its session's key, in
    every later store. *)
From S2P Require Import Prelude PyString PyFloat Domain Validation PyJson Crypto Store Records.
From S2P Require Import Instances TokenMetrics Journal Jobs JobProperties Views Publish.
From S2P Require Import PublishLemmas Repository RepositoryProperties.
Open Scope string_scope.
Open Scope list_scope.
Open Scope Z_scope.

Section frozen.
Context `{Sha256, StorageCodecLaws, !Environment, !EnvironmentLaws}.

Lemma membership_rows_later d d' row : store_inv d -> store_advance d d' -> row ∈ snapshots d ->
  membership_rows (nr_snapshot_id row) d' = membership_rows (nr_snapshot_id row) d.
Proof.
  intros Hinv Ha Hrow. destruct (sa_capsules _ _ Ha) as [nc Hc]. destruct (sa_memberships _ _ Ha) as (nm & Hm & Hn).
  eapply membership_rows_frame; [apply Hinv|exact Hc|exact Hm|].
  intros m Hin E. by apply (Hn m row Hin Hrow).
Qed.

Lemma stored_session_later d d' srow : store_inv d' -> store_advance d d' -> srow ∈ sessions d ->
  exists srow', List.find (fun r => se_hash r ==? se_hash srow) (sessions d') = Some srow'
    /\ srow' ∈ sessions d' /\ se_hash srow' = se_hash srow
    /\ se_canonical srow' = se_canonical srow /\ se_next_event_sequence srow <= se_next_event_sequence srow'.
Proof.
  intros Hinv' Ha Hs. destruct (sa_sessions _ _ Ha srow Hs) as (s' & Hs' & Hh & Hc & Hn). exists s'.
  split_and!; try done. destruct (List.find _ (sessions d')) as [x|] eqn:Ef.
  - apply find_some_elem in Ef as [Hx Ex]. apply (py_eq_leibniz (A:=string)) in Ex. f_equal.
    apply (same_session_row d'); [apply Hinv'|done..|congruence].
  - rewrite find_none_ext in Ef. specialize (Ef s' Hs'). rewrite Hh, (py_eq_true_refl (se_hash srow)) in Ef. done.
Qed.

Lemma bundle_by_id_later d d' id k s ms : store_inv d -> store_inv d' -> store_advance d d' ->
  _snapshot_bundle_by_id id k d = Ok ((s, ms), d) -> _snapshot_bundle_by_id id k d' = Ok ((s, ms), d').
Proof.
  intros Hinv Hinv' Ha. rewrite !bundle_by_id_iff. intros (_ & row & session & Hf & Hsf & Hk & Hb). split; [done|].
  pose proof Hf as [Hrow _]%find_some_elem. pose proof Hsf as [Hs Hh]%find_some_elem.
  apply (py_eq_leibniz (A:=string)) in Hh.
  destruct (stored_session_later d d' session Hinv' Ha Hs) as (s' & Hf' & _ & Hh' & Hc & _).
  exists row, s'. split_and!.
  - destruct (sa_snapshots _ _ Ha) as [new ->]. by rewrite find_app, Hf.
  - by rewrite <- Hh.
  - by rewrite Hc.
  - eapply bundle_frame; [|exact Hb]. by apply membership_rows_later.
Qed.

Lemma event_rows_later d d' srow a b : store_inv d -> store_inv d' -> store_advance d d' ->
  srow ∈ sessions d -> b < se_next_event_sequence srow ->
  event_rows_between (se_hash srow) a b d' = event_rows_between (se_hash srow) a b d.
Proof.
  intros Hinv Hinv' Ha Hs Hb. destruct (sa_events _ _ Ha) as [new He].
  destruct (stored_session_later d d' srow Hinv' Ha Hs) as (s' & _ & Hs' & Hh & _ & Hn).
  pose proof (si_journal d Hinv srow Hs) as Hj. pose proof (si_journal d' Hinv' s' Hs') as Hj'.
  unfold events_of in Hj, Hj'. rewrite Hh, He, List.filter_app, map_app, Hj in Hj'.
  assert (1 <= se_next_event_sequence srow) as Hone.
  { apply si_schema, schema_ok_spec in Hinv as (Hd & _). unfold sessions_ok in Hd.
    apply andb_true_iff in Hd as [[Hd _]%andb_true_iff _]. rewrite forallb_true_iff in Hd. specialize (Hd srow Hs).
    unfold session_row_ok in Hd. apply andb_true_iff in Hd as [_ Hd%Z.leb_le]. lia. }
  rewrite <- (py_range_app 1 (se_next_event_sequence srow) (se_next_event_sequence s')) in Hj' by lia. apply app_inv_head in Hj'.
  unfold event_rows_between. f_equal. rewrite He, List.filter_app.
  rewrite (proj2 (filter_nil_iff _ new)); [apply app_nil_r|]. intros r Hr.
  apply andb_false_iff. destruct (er_session r ==? se_hash srow) eqn:Es; [|by left]. right.
  assert (er_sequence r ∈ py_range (se_next_event_sequence srow) (se_next_event_sequence s')) as Hin.
  { rewrite <- Hj'. apply list_elem_of_fmap. exists r. split; [done|]. by apply elem_of_filter_bool. }
  apply elem_of_py_range in Hin. apply Z.leb_gt. lia.
Qed.

Lemma events_between_later d d' srow k a b es : store_inv d -> store_inv d' -> store_advance d d' ->
  srow ∈ sessions d -> se_hash srow = session_key_hash k -> b < se_next_event_sequence srow ->
  _events_between k a b d = Ok (es, d) -> _events_between k a b d' = Ok (es, d').
Proof.
  intros Hinv Hinv' Ha Hs Hh Hb. unfold _events_between.
  intros (rows & d1 & [<- <-]%select_ok & [E _]%lift_ok)%tx_bind_ok.
  rewrite (tx_bind_run _ _ d' _ d' (proj2 (select_ok _ _ _ _) (conj eq_refl eq_refl))).
  apply lift_ok. split; [|done]. rewrite <- Hh, (event_rows_later d d' srow) by done. by rewrite Hh.
Qed.

(** The content of a worker's view. *)
Definition view_of (d : db) (r : JobRow) (k : SessionKey) (v : RequestView) : Prop :=
  rv_session_key v = k /\ base_bundle d r k (rv_snapshot v) (rv_memberships v)
  /\ rv_covered_event_end v = base_coverage_of (rv_snapshot v)
  /\ rv_high_water_mark v = jr_target r /\ rv_pointer_version v = jr_base_pointer_version r
  /\ _events_between k (base_coverage_of (rv_snapshot v)) (jr_target r) d = Ok (rv_delta v, d).

Lemma compaction_view_content d id owner epoch now v : schema_ok d = true ->
  read_compaction_view id owner epoch now d = Ok v ->
  exists inst r k, now = Aware inst /\ holds_fence d id owner epoch inst r
    /\ (exists srow, srow ∈ sessions d /\ se_hash srow = jr_session r
        /\ _session_key_from_storage (jr_session r) (se_canonical srow) = Ok k)
    /\ session_key_hash k = jr_session r /\ SessionKey_valid k = true /\ view_of d r k v.
Proof.
  intros Hd. unfold read_compaction_view, read_only.
  destruct now as [|inst]; [done|]. cbn [normalize_datetime mbind result_bind].
  match goal with |- match ?m with _ => _ end = _ -> _ => destruct m as [[v' d']|] eqn:E end; [|done].
  intros [= ->].
  apply tx_bind_ok in E as (r & d1 & (-> & Hr & <- & Hf)%require_live_fence_ok & E).
  apply tx_bind_ok in E as (u1 & d1 & [_ <-]%guard_ok & E).
  apply tx_bind_ok in E as (job & d1 & Hjob & E).
  apply job_by_id_ok in Hjob as (-> & x & k & Hxin & Hxid & -> & Hk & Hkv & _ & _ & Hstored).
  assert (x = r) as -> by (by apply (key_unique jr_job_id _ _ _ (job_ids_unique d Hd))).
  cbn [job_base_snapshot_id job_envelope job_session_key job_target_high_water_mark
    job_base_pointer_version] in E.
  apply tx_bind_ok in E as ([[snap ms] c] & d1 & Hb & E).
  apply tx_bind_ok in E as (u4 & d2 & [_ <-]%guard_ok & E).
  apply tx_bind_ok in E as (delta & d2 & Hes & E).
  pose proof Hes as (-> & _ & _)%events_between_ok.
  apply tx_bind_ok in E as (u5 & d2 & [_ <-]%guard_ok & [<- <-]%tx_ret_ok).
  exists inst, r, k. unfold holds_fence. split_and!; try done. unfold view_of.
  cbn [rv_session_key rv_snapshot rv_memberships rv_covered_event_end rv_high_water_mark rv_pointer_version rv_delta].
  assert (d1 = d /\ base_bundle d r k snap ms /\ c = base_coverage_of snap) as (-> & Hbase & ->).
  { unfold base_bundle. destruct (jr_base r) as [bid|].
    - apply tx_bind_ok in Hb as ([s ms'] & d2 & Hb & E2). pose proof Hb as (-> & _)%snapshot_bundle_by_id_ok.
      apply tx_bind_ok in E2 as (u6 & d2 & [_ <-]%guard_ok & [[= <- <- <-] <-]%tx_ret_ok).
      split; [done|]. split; [|done]. exists s. split_and!; try done. apply snapshot_bundle_by_id_ok in Hb as (_ & row & _ & <- & Hb).
      by apply snapshot_bundle_ok in Hb as (_ & _ & (_ & -> & _)%snapshot_from_row_ok & _).
    - apply tx_bind_ok in Hb as (u6 & d2 & [_ <-]%guard_ok & [[= <- <- <-] <-]%tx_ret_ok). done. }
  by split_and!.
Qed.

(** The same content at every later time at which the lease's Job is still under
    the same epoch. *)
Lemma view_of_later d d' r r' k v : store_inv d -> store_inv d' -> store_advance d d' ->
  r ∈ compaction_jobs d -> job_advance r r' -> jr_lease_epoch r' = jr_lease_epoch r ->
  (exists srow, srow ∈ sessions d /\ se_hash srow = jr_session r
     /\ _session_key_from_storage (jr_session r) (se_canonical srow) = Ok k) ->
  session_key_hash k = jr_session r -> view_of d r k v -> view_of d' r' k v.
Proof.
  intros Hinv Hinv' Ha Hr Hadv He (srow & Hs & Hh & _) Hk (V1 & V2 & V3 & V4 & V5 & V6).
  destruct (adv_lease _ _ Hadv He) as (Et & Eb & Ev).
  destruct (si_jobs d Hinv r Hr) as [(s0 & Hs0 & Hh0 & Hi) _].
  assert (s0 = srow) as -> by (apply (same_session_row d); [apply Hinv|done..|congruence]).
  destruct (job_rows_ok d r (si_schema d Hinv) Hr) as ((Htgt & _)%job_row_ok_parts & _).
  unfold view_of. split_and!; try done; try congruence.
  - unfold base_bundle in *. rewrite Eb. destruct (jr_base r) as [b|]; [|done].
    destruct V2 as (s & Es & Eid & Hb). exists s. split_and!; [done|congruence|]. exact (bundle_by_id_later d d' b k s _ Hinv Hinv' Ha Hb).
  - rewrite Et. eapply (events_between_later d d' srow); try done; [congruence|]. lia.
Qed.
End frozen.
