(* ===== verification/CompactionProperties.v ===== *)
(** What the compaction pipeline promises: a compiled candidate has passed the
    permanent gate with a perfect report, the audit decides on it and nothing
    else, and what was compiled from a worker's frozen view passes every check
    of its publication, however the store has moved on. *)
From S2P Require Import Prelude PyString PyFloat Domain Validation PyJson Crypto Store Records.
From S2P Require Import Instances TokenMetrics ToolLoop Segmenter Journal Jobs JobProperties Views Publish.
From S2P Require Import PublishLemmas Budget Compiler Auditor Repository RepositoryProperties FrozenViews.
Open Scope string_scope.
Open Scope list_scope.
Open Scope Z_scope.

(** ** Lemmas: passing reports *)

(** A passing report says nothing but full marks. *)
Definition perfect (r : PermanentValidationReport) : Prop :=
  rp_passed r = true /\ rp_failure_codes r = [] /\ rp_source_coverage r = f_one
  /\ rp_anchor_recall r = f_one /\ rp_coverage_gap r = 0 /\ rp_unsupported_critical_claims r = 0.

Lemma passed_perfect ps pc snap cc evs target ceiling r :
  validate_permanent ps pc snap cc evs target ceiling = Ok r -> rp_passed r = true -> perfect r.
Proof.
  unfold validate_permanent. intros [Hv <-]%construct_ok Hp. cbn [rp_passed] in Hp.
  unfold PermanentValidationReport_valid, UnitFloat, NonNegativeInt in Hv.
  cbn [rp_source_coverage rp_anchor_recall rp_coverage_gap rp_unsupported_critical_claims] in Hv.
  rewrite !andb_true_iff, !Z.leb_le in Hv. destruct Hv as [[[Hs Ha] Hg] Hu].
  apply passed_iff in Hp as E. rewrite !add_if_nil, interval_condition, !zero_condition in E.
  decompose [and] E. unfold perfect. cbn [rp_passed rp_failure_codes rp_source_coverage
    rp_anchor_recall rp_coverage_gap rp_unsupported_critical_claims].
  split_and!; try done.
  - by apply in_enum_order_nil, passed_iff.
  - by apply f_le_antisym_one.
  - by apply f_le_antisym_one.
  - match goal with H : map ev_sequence evs = _ |- _ => rewrite H end.
    assert (forall X : gset Z, X ∖ X = ∅) as -> by set_solver. rewrite size_empty. lia.
Qed.

Lemma perfect_float : (f_one ==? f_one) = true.
Proof. reflexivity. Qed.

(** The gate looks at an audit outcome only for its mechanical flag. *)
Lemma validate_with_audit outcome ps pc snap cc evs target ceiling :
  ao_mechanical_passed outcome = ao_mechanical_passed (sn_audit_outcome snap) ->
  validate_permanent ps pc (with_audit_outcome outcome snap) cc evs target ceiling
  = validate_permanent ps pc snap cc evs target ceiling.
Proof.
  intros E. unfold validate_permanent, with_audit_outcome.
  cbn [sn_snapshot_id sn_session_key sn_base_snapshot_id sn_covered_event_end sn_source_high_water_mark
    sn_capsule_ids sn_exact_anchor_ids sn_token_cost sn_audit_outcome].
  rewrite E. reflexivity.
Qed.

(** ** Lemmas: compilation *)

Section compile_lemmas.
Context `{Sha256, FloatRepr, ModelDump}.

Lemma memory_memberships_capsules cs : map ms_capsule (memory_memberships cs) = cs.
Proof.
  unfold memory_memberships, enumerate. rewrite map_map. cbn. generalize 0 as i.
  induction cs as [|c cs IH]; intros i; [done|]. cbn. by rewrite IH.
Qed.
Lemma memory_memberships_ids cs : map ms_capsule_id (memory_memberships cs) = map cap_capsule_id cs.
Proof. unfold ms_capsule_id. rewrite <- (map_map ms_capsule cap_capsule_id). by rewrite memory_memberships_capsules. Qed.
Lemma enumerate_firsts {A} (l : list A) : forall i, map fst (enumerate_from i l) = py_range i (i + len l).
Proof.
  induction l as [|x l IH]; intros i; [rewrite py_range_nil; [done|unfold len; cbn; lia]|].
  cbn. rewrite IH, len_cons. pose proof (len_nonneg l). rewrite (py_range_cons i) by lia. f_equal. f_equal. lia.
Qed.
Lemma memory_memberships_ordinals cs : map ms_ordinal (memory_memberships cs) = py_range 0 (len cs).
Proof. unfold memory_memberships. rewrite map_map. apply (enumerate_firsts cs 0). Qed.
Lemma memory_memberships_slots cs m : m ∈ memory_memberships cs -> ms_slot m = _MEMORY_MEMBERSHIP_SLOT.
Proof. unfold memory_memberships. by intros (p & -> & _)%list_elem_of_fmap. Qed.

Lemma events_py_eq (l m : list EventEnvelope) : (l ==? m) = true <-> l = m.
Proof.
  revert m. induction l as [|x l IH]; intros [|y m]; try (split; done).
  change ((x :: l) ==? (y :: m)) with ((x ==? y) && (l ==? m)). rewrite andb_true_iff, IH.
  unfold py_eq, EventEnvelope_py_eq, eqb_of. rewrite bool_decide_eq_true. split; [by intros [-> ->]|by intros [= -> ->]].
Qed.

(** What every compiled candidate is. *)
Record compiled_from (base : option SnapshotEnvelope) (base_capsules : list ContextCapsuleEnvelope)
    (events : list EventEnvelope) (target ceiling now : Z) (c : CompilationCandidate) : Prop := {
  cf_snapshot : exists id k cs text cost, cc_snapshot c = candidate_envelope id k base target cs text cost now
    /\ cc_memberships c = memory_memberships cs;
  cf_valid : SnapshotEnvelope_valid (cc_snapshot c) = true;
  cf_session : exists e, e ∈ events /\ ev_session_key e = sn_session_key (cc_snapshot c);
  cf_segments : segment_events (cc_segments c) = events;
  cf_gate : validate_permanent base base_capsules (cc_snapshot c) (map ms_capsule (cc_memberships c))
              events target ceiling = Ok (cc_permanent_report c);
  cf_perfect : perfect (cc_permanent_report c);
}.

Lemma compile_ok base bcs events counts target ceiling backend now config pref counter pb pbc c :
  compile_candidate base bcs events counts target ceiling backend now config pref counter pb pbc = Ok c ->
  exists instant, now = Aware instant /\ compiled_from base bcs events target ceiling instant c.
Proof.
  unfold compile_candidate. intros (k & Hk & E)%result_bind_ok.
  apply result_bind_ok in E as (segs & _ & E). apply result_bind_ok in E as (q & _ & E).
  apply result_bind_ok in E as (out & _ & E).
  apply result_bind_ok in E as ([[[cs text] fitted] fit] & Hout & E).
  apply result_bind_ok in E as (cost & _ & E). apply result_bind_ok in E as (snap & Hsnap & E).
  apply result_bind_ok in E as (report & Hrep & E). apply raise_if_ok in E as [Hp%negb_false_iff E].
  injection E as <-.
  assert (exists i, now = Aware i) as [i ->].
  { unfold _validate_inputs in Hk. apply raise_if_ok in Hk as [_ Hk]. apply raise_if_ok in Hk as [_ Hk].
    apply raise_if_ok in Hk as [Hn _]. destruct now as [|i]; [done|]. by exists i. }
  exists i. split; [done|].
  destruct (_build_snapshot_id _ _ _ _ _ _ _) as [id|]; [|done].
  destruct (construct _ _) as [s|] eqn:Ec; [|done]. injection Hsnap as ->. apply construct_ok in Ec as [Hv <-].
  unfold validate_candidate in Hrep. destruct (validate_permanent _ _ _ _ _ _ _) as [r|] eqn:Er; [|done].
  injection Hrep as ->.
  unfold _validate_backend_output in Hout. apply raise_if_ok in Hout as [_ Hout].
  apply raise_if_ok in Hout as [Hseg Hout]. injection Hout as <- <- <- <-.
  apply orb_false_iff in Hseg as [_ Hseg]. apply negb_false_iff in Hseg.
  split; cbn [cc_snapshot cc_memberships cc_segments cc_permanent_report].
  - by eexists id, k, _, _, cost.
  - exact Hv.
  - unfold _validate_inputs in Hk. do 3 apply raise_if_ok in Hk as [_ Hk].
    destruct events as [|e events]; [done|]. apply result_bind_ok in Hk as ([b k'] & _ & Hk).
    apply raise_if_ok in Hk as [Hs Hk]. apply raise_if_ok in Hk as [_ [= ->]].
    rewrite existsb_false_iff in Hs. exists e. split; [by left|]. cbn.
    apply negb_session_eq_false, Hs. by left.
  - by apply events_py_eq.
  - by rewrite memory_memberships_capsules.
  - by eapply passed_perfect.
Qed.

Lemma compiled_eligible base bcs events target ceiling now c :
  compiled_from base bcs events target ceiling now c -> _is_mechanically_eligible c = true.
Proof.
  intros [(id & k & cs & text & cost & Es & _) _ _ _ _ (P1 & P2 & P3 & P4 & P5 & P6)].
  unfold _is_mechanically_eligible. rewrite Es, P1, P2, P3, P4, P5, P6. reflexivity.
Qed.

(** The memberships always match the Snapshot. *)
Lemma compiled_memberships base bcs events target ceiling now c outcome :
  compiled_from base bcs events target ceiling now c ->
  _validate_candidate_memberships (with_audit_outcome outcome (cc_snapshot c)) (cc_memberships c) = Ok ().
Proof.
  intros [(id & k & cs & text & cost & Es & ->) Hv _ _ _ _]. rewrite Es in *.
  unfold SnapshotEnvelope_valid in Hv. rewrite !andb_true_iff in Hv.
  cbn [candidate_envelope sn_capsule_ids] in Hv. decompose [and] Hv.
  assert (cs <> []) as Hne by (by destruct cs).
  unfold _validate_candidate_memberships.
  rewrite raise_if_false by (by destruct cs).
  rewrite memory_memberships_ordinals, raise_if_false.
  2:{ apply negb_py_eq_false. unfold len, memory_memberships, enumerate. by rewrite length_map, enumerate_from_length. }
  rewrite raise_if_false.
  2:{ apply existsb_false_iff. intros m Hm. by rewrite (memory_memberships_slots cs m Hm). }
  rewrite memory_memberships_ids.
  match goal with H : ensure_unique (map cap_capsule_id cs) = true |- _ =>
    apply (ensure_unique_spec (A:=string)) in H; rename H into Hu end.
  rewrite raise_if_false by (apply negb_false_iff; by apply bool_decide_eq_true_2).
  rewrite raise_if_false by (by apply negb_py_eq_false). done.
Qed.
End compile_lemmas.

(** ** Lemmas: the audit *)

(** What an audit may do to a candidate: only its outcome changes, and never to
    a failed one. *)
Definition audited_from (c : CompilationCandidate) (a : AuditedCandidate) : Prop :=
  exists outcome, ac_snapshot a = with_audit_outcome outcome (cc_snapshot c)
  /\ ac_memberships a = cc_memberships c /\ ac_segments a = cc_segments c
  /\ ac_permanent_report a = cc_permanent_report c
  /\ ao_mechanical_passed outcome = true /\ ao_failure_codes outcome = []
  /\ ao_semantic_status outcome <> AUDIT_FAILED.

Lemma with_own_outcome s : with_audit_outcome (sn_audit_outcome s) s = s.
Proof. by destruct s. Qed.

Lemma eligible_outcome c : _is_mechanically_eligible c = true ->
  ao_mechanical_passed (sn_audit_outcome (cc_snapshot c)) = true
  /\ ao_failure_codes (sn_audit_outcome (cc_snapshot c)) = []
  /\ ao_semantic_status (sn_audit_outcome (cc_snapshot c)) = AUDIT_NOT_RUN
  /\ sn_state (cc_snapshot c) = CANDIDATE.
Proof.
  unfold _is_mechanically_eligible, eqb_of. intros E. bool_hyps. by split_and!.
Qed.

Lemma audit_ok c strict backend a : audit_semantic c strict backend = Ok a -> audited_from c a.
Proof.
  unfold audit_semantic. intros [He%negb_false_iff E]%raise_if_ok.
  destruct (eligible_outcome c He) as (O1 & O2 & O3 & _). destruct strict; cbn [negb] in E.
  - destruct backend as [backend|]; [|done]. destruct (backend _) as [report| |]; [|done..].
    apply raise_if_ok in E as [_ E]. destruct (sa_passed report).
    + apply result_bind_ok in E as (s & Es & [= <-]). rewrite semantic_result_run in Es by done.
      injection Es as <-. eexists. by split_and!.
    + by apply result_bind_ok in E as (s & _ & E).
  - injection E as <-. exists (sn_audit_outcome (cc_snapshot c)). cbn. rewrite with_own_outcome, O3.
    by split_and!.
Qed.

Lemma committed_valid c a base bcs events target ceiling now t :
  compiled_from base bcs events target ceiling now c -> audited_from c a ->
  SnapshotEnvelope_valid (committed t (ac_snapshot a)) = true.
Proof.
  intros [(id & k & cs & text & cost & Es & _) Hv _ _ _ _] (o & -> & _ & _ & _ & O1 & O2 & O3).
  rewrite Es in *. unfold SnapshotEnvelope_valid in *. rewrite !andb_true_iff in *.
  cbn [committed with_audit_outcome candidate_envelope sn_snapshot_id sn_session_key sn_base_snapshot_id
    sn_covered_event_end sn_source_high_water_mark sn_capsule_ids sn_exact_anchor_ids sn_rendered_context
    sn_token_cost sn_audit_outcome] in *.
  assert (SnapshotAuditOutcome_valid o = true) as Ho by (unfold SnapshotAuditOutcome_valid; by rewrite O2).
  assert (forall s, sn_state s = SNAPSHOT_COMMITTED -> sn_audit_outcome s = o -> sn_committed_at s = Some t ->
    validate_state s = true) as Hstate.
  { intros s E1 E2 E3. unfold validate_state. rewrite E1, E2, E3, O1, O2.
    unfold eqb_of at 2. by rewrite bool_decide_eq_false_2. }
  decompose [and] Hv. rewrite Ho, Hstate by done. by split_and!.
Qed.

(** ** Lemmas: publishing what was compiled *)

Section publishing.
Context `{Sha256, StorageCodecLaws, !Environment, !EnvironmentLaws, FloatRepr, ModelDump}.

(** The Job of a row reads back under the session's stored key. *)
Lemma job_by_id_key d r k : store_inv d -> r ∈ compaction_jobs d -> stored_key d (jr_session r) k ->
  _job_by_id (jr_job_id r) d = Ok (job_envelope k r, d).
Proof.
  intros Hinv Hr (srow & Hs & Hh & Hk). assert (Hd := si_schema d Hinv).
  destruct (job_by_id_run d r Hd (si_sessions d Hinv) Hr) as (k' & _ & E). rewrite E.
  apply job_by_id_ok in E as (_ & x & k2 & Hx & Hid & E & _ & _ & _ & _ & s2 & Hs2 & Hh2 & Hk2).
  assert (x = r) as -> by (by apply (key_unique jr_job_id _ _ _ (job_ids_unique d Hd))).
  injection E as <-. assert (s2 = srow) as -> by (apply (same_session_row d); congruence).
  rewrite Hk in Hk2. by injection Hk2 as ->.
Qed.
Lemma stored_key_later d d' h k : store_inv d' -> store_advance d d' -> stored_key d h k -> stored_key d' h k.
Proof.
  intros Hinv' Ha (srow & Hs & <- & Hk). destruct (stored_session_later d d' srow Hinv' Ha Hs) as (s' & _ & ? & E & Ec & _).
  exists s'. by rewrite E, Ec.
Qed.

Lemma checks_run d r k owner epoch now t0 v ceiling c a metrics :
  store_inv d -> holds_fence d (jr_job_id r) owner epoch now r -> jr_state r = READY_TO_COMMIT ->
  jr_candidate r = Some (sn_snapshot_id (ac_snapshot a)) ->
  stored_key d (jr_session r) k -> view_of d r k v ->
  compiled_from (rv_snapshot v) (rv_capsules v) (rv_delta v) (rv_high_water_mark v) ceiling t0 c ->
  audited_from c a ->
  match metrics with
  | None => True
  | Some metrics => _validate_candidate_metrics (ac_snapshot a) (ac_memberships a) metrics = Ok ()
  end ->
  publish_checks (jr_job_id r) owner epoch (ac_snapshot a) (ac_memberships a) metrics [] ceiling now d
  = Ok ((job_envelope k r, committed now (ac_snapshot a), []), d).
Proof.
  intros Hinv (Hr & _ & Hf) Hready Hcand Hk (V1 & V2 & V3 & V4 & V5 & V6) Hc Ha Hm.
  assert (Hd := si_schema d Hinv). pose proof (committed_valid _ _ _ _ _ _ _ _ now Hc Ha) as Hvalid.
  assert (sn_state (cc_snapshot c) = CANDIDATE) as Hstate
    by (destruct (cf_snapshot _ _ _ _ _ _ _ Hc) as (? & ? & ? & ? & ? & -> & _); done).
  assert (sn_session_key (cc_snapshot c) = k) as Hkey.
  { destruct (cf_session _ _ _ _ _ _ _ Hc) as (e & He & <-). apply events_between_ok in V6 as (_ & _ & V6).
    by apply V6. }
  pose proof (compiled_memberships _ _ _ _ _ _ _ (sn_audit_outcome (ac_snapshot a)) Hc) as Hms.
  pose proof (cf_gate _ _ _ _ _ _ _ Hc) as Hgate. pose proof (proj1 (cf_perfect _ _ _ _ _ _ _ Hc)) as Hpass.
  destruct Ha as (o & Es & Em & _ & _ & O1 & _ & _). rewrite Es, Em in *.
  assert (ao_mechanical_passed o = ao_mechanical_passed (sn_audit_outcome (cc_snapshot c))) as Ho
    by (destruct (cf_snapshot _ _ _ _ _ _ _ Hc) as (? & ? & ? & ? & ? & -> & _); by rewrite O1).
  unfold publish_checks.
  rewrite (tx_bind_run _ _ _ _ _ (require_live_fence_run d r owner epoch now Hd Hr Hf)).
  rewrite (tx_bind_run _ _ d () d) by (apply guard_run; rewrite Hready; reflexivity).
  rewrite (tx_bind_run _ _ d () d) by (apply guard_run, negb_py_eq_false; exact Hcand).
  rewrite (tx_bind_run _ _ d () d) by (apply guard_run; cbn [with_audit_outcome sn_state]; rewrite Hstate; reflexivity).
  rewrite (tx_bind_run _ _ _ _ _ (job_by_id_key d r k Hinv Hr Hk)).
  cbn [job_session_key job_envelope job_base_snapshot_id job_target_high_water_mark].
  rewrite (tx_bind_run _ _ d () d) by (apply guard_run, negb_session_eq_false; exact Hkey).
  rewrite (tx_bind_run _ _ d () d) by (apply lift_ok; split; [exact Hms|reflexivity]).
  rewrite (tx_bind_run _ _ d [] d) by (apply lift_ok; split; reflexivity).
  rewrite (tx_bind_run _ _ d () d) by (destruct metrics; [apply lift_ok; split; [exact Hm|reflexivity]|reflexivity]).
  rewrite (tx_bind_run _ _ d (rv_snapshot v, rv_memberships v) d).
  2:{ unfold base_bundle in V2. destruct (jr_base r) as [b|].
      - destruct V2 as (s & -> & _ & Hb). rewrite (tx_bind_run _ _ _ _ _ Hb). reflexivity.
      - destruct V2 as [-> ->]. reflexivity. }
  cbv beta iota. rewrite (tx_bind_run _ _ _ _ _ V6).
  rewrite V4 in Hgate. unfold rv_capsules in Hgate.
  rewrite (tx_bind_run _ _ d (cc_permanent_report c) d).
  2:{ apply lift_ok. split; [|reflexivity]. rewrite validate_with_audit by exact Ho. unfold model_result.
      rewrite Hgate. reflexivity. }
  rewrite (tx_bind_run _ _ d (cc_permanent_report c) d) by (apply lift_ok; split; reflexivity).
  rewrite (tx_bind_run _ _ d () d) by (apply guard_run; rewrite Hpass; reflexivity).
  rewrite (tx_bind_run _ _ d (committed now (with_audit_outcome o (cc_snapshot c))) d); [reflexivity|].
  apply lift_ok. split; [|reflexivity]. unfold model_result, construct. rewrite Hvalid. reflexivity.
Qed.
End publishing.

(** ** Lemmas: a worker's view as the compiler's input *)

Section compiling.
Context `{Sha256, StorageCodecLaws, !Environment, !EnvironmentLaws, FloatRepr, ModelDump}.






End compiling.

(** ** Properties *)

Section compaction_properties.
Context `{Sha256, StorageCodecLaws, !Environment, !EnvironmentLaws, FloatRepr, ModelDump}.

(** ** What may go wrong when a worker compiles its own view *)

Section defects.
Variables (v : RequestView) (ceiling instant : Z) (counter : TokenCounter).

End defects.







(** C33. What a worker compiled and audited is never turned down: from a view read
    under its lease, whatever other workers, captures and publications have done
    to the store since, as long as the lease lives and the Job names the
    candidate, every check of the publication transaction passes - fence, state,
    identity, memberships, metrics and the permanent gate, run again on the
    store as it is then. *)
Theorem compiled_candidate_passes_publication d d' id owner epoch now v counts ceiling backend cnow config
    preferred counter binding captured c strict audit_backend a metrics now' r
    (Hreach : reachable d) (Hview : read_compaction_view id owner epoch now d = Ok v)
    (Hcompile : compile_candidate (rv_snapshot v) (rv_capsules v) (rv_delta v) counts (rv_high_water_mark v) ceiling
       backend cnow config preferred counter binding captured = Ok c)
    (Haudit : audit_semantic c strict audit_backend = Ok a)
    (Hlater : later d d') (Hfence : holds_fence d' id owner epoch now' r)
    (Hready : jr_state r = READY_TO_COMMIT) (Hcandidate : jr_candidate r = Some (sn_snapshot_id (ac_snapshot a)))
    (Hmetrics : _validate_candidate_metrics (ac_snapshot a) (ac_memberships a) metrics = Ok ()) :
  publish_checks id owner epoch (ac_snapshot a) (ac_memberships a) (Some metrics) [] ceiling now' d'
  = Ok ((job_envelope (rv_session_key v) r, committed now' (ac_snapshot a), []), d').
Proof.
  apply reachable_inv in Hreach as Hinv. destruct (later_good d d' Hinv Hlater) as [Hinv' Hadv].
  destruct (compaction_view_content d id owner epoch now v (si_schema d Hinv) Hview)
    as (inst & r0 & k & _ & (Hr0 & Hid0 & Hf0) & Hstored & Hk & _ & Hv).
  destruct Hfence as (Hr & Hid & Hf).
  assert (job_advance r0 r) as Hja.
  { destruct (later_job d d' r0 Hreach Hlater Hr0) as [_ Hj]. apply Hj; [done|congruence]. }
  apply fence_ok_parts in Hf0 as (_ & _ & He0 & _). pose proof Hf as (_ & _ & He & _)%fence_ok_parts.
  assert (view_of d' r k v) as Hv' by (eapply (view_of_later d d' r0); try done; congruence).
  apply compile_ok in Hcompile as (i & -> & Hc). subst id.
  assert (rv_session_key v = k) as -> by apply Hv. eapply checks_run; try done.
  - rewrite (adv_session _ _ Hja). eapply stored_key_later; [done|exact Hadv|].
    destruct Hstored as (srow & ? & ? & ?). by exists srow.
  - by eapply audit_ok.
Qed.

(** The audit decides a compiled candidate, and only the audit's outcome
    changes: without strict auditing it is passed on as it is; with it, it is
    passed on as audited exactly when the backend answers with a well-formed
    passing report, a rejected one is handed out only as a Snapshot that can
    never be committed, and every other answer is an error; a compiled
    candidate is never mechanically ineligible. *)
Theorem audit_semantic_decided base bcs events target ceiling t0 c strict backend
    (Hcompiled : compiled_from base bcs events target ceiling t0 c) :
  match audit_semantic c strict backend with
  | Ok a => audited_from c a /\ (forall t, SnapshotEnvelope_valid (committed t (ac_snapshot a)) = true)
      /\ if strict then exists audit q report, backend = Some audit /\ audit q = Reported report
                          /\ _is_valid_backend_report report = true /\ sa_passed report = true
                          /\ ao_semantic_status (sn_audit_outcome (ac_snapshot a)) = AUDIT_PASSED
         else ac_snapshot a = cc_snapshot c /\ ac_semantic_report a = None
  | Err (SemanticAuditInvariantError code failed) => strict = true /\
      match code with
      | BACKEND_REQUIRED => backend = None
      | AUDIT_BACKEND_FAILURE => exists audit q, backend = Some audit /\ audit q = AuditRaised
      | AUDIT_BACKEND_OUTPUT_INVALID => exists audit q, backend = Some audit
          /\ forall report, audit q = Reported report -> _is_valid_backend_report report = false
      | SEMANTIC_REJECTED => exists f, failed = Some f
          /\ forall t, SnapshotEnvelope_valid (committed t (ac_snapshot f)) = false
      | MECHANICAL_INVALID | STRICT_AUDIT_INVALID => False
      end
  | Err AuditModelError => False
  end.
Proof.
  pose proof (compiled_eligible _ _ _ _ _ _ _ Hcompiled) as He.
  destruct (audit_semantic c strict backend) as [a|e] eqn:E.
  - pose proof (audit_ok c strict backend a E) as Ha. split; [done|].
    split; [intros t; exact (committed_valid _ _ _ _ _ _ _ _ t Hcompiled Ha)|].
    unfold audit_semantic in E. rewrite He in E. cbn [negb raise_if] in E.
    destruct strict; cbn [negb] in E; [|by injection E as <-].
    destruct backend as [backend|]; [|done].
    match type of E with context [backend ?q] => destruct (backend q) as [report| |] eqn:Eb; [|done..]; exists backend, q, report end.
    apply raise_if_ok in E as [Hv%negb_false_iff E]. destruct (sa_passed report).
    + rewrite semantic_result_run in E by done. cbn in E. injection E as <-. by split_and!.
    + by apply result_bind_ok in E as (s & _ & E).
  - unfold audit_semantic in E. rewrite He in E. cbn [negb raise_if] in E.
    destruct strict; cbn [negb] in E; [|done].
    destruct backend as [backend|]; [|injection E as <-; by cbn].
    match type of E with context [backend ?q] => destruct (backend q) as [report| |] eqn:Eb end; cycle 1.
    { injection E as <-. cbn. split; [done|]. eexists _, _. split; [done|]. by rewrite Eb. }
    { injection E as <-. cbn. split; [done|]. by eexists _, _. }
    unfold raise_if in E. destruct (_is_valid_backend_report report) eqn:Ev; cbn [negb] in E; cycle 1.
    { injection E as <-. cbn. split; [done|]. eexists _, _. split; [done|]. rewrite Eb. by intros ? [= <-]. }
    destruct (sa_passed report) eqn:Ep; [by rewrite semantic_result_run in E by done|].
    unfold _is_valid_backend_report in Ev. rewrite !andb_true_iff in Ev. destruct Ev as [[_ Hn] Hm].
    rewrite semantic_result_run in E by done. cbn [mbind result_bind] in E. injection E as <-.
    split; [done|]. eexists. split; [done|]. intros t. unfold SnapshotEnvelope_valid.
    assert (forall s, sn_state s = SNAPSHOT_COMMITTED -> ao_semantic_status (sn_audit_outcome s) = AUDIT_FAILED ->
      validate_state s = false) as Hstate.
    { intros s E1 E2. unfold validate_state. rewrite E1, E2. cbn. by rewrite andb_false_r. }
    rewrite (Hstate (committed t _)) by done. apply andb_false_r.
Qed.
End compaction_properties.

(** ** A concrete compaction *)

#[local] Existing Instance toy_sha256.
#[local] Existing Instance toy_storage.
#[local] Existing Instance toy_environment.
#[local] Existing Instance toy_storage_laws.
#[local] Existing Instance toy_environment_laws.
#[local] Instance toy_float_repr : FloatRepr := fun _ => [].
#[local] Instance toy_model_dump : ModelDump := fun c => [("capsule_id", JStr (cap_capsule_id c))].
Definition toy_backend (q : CompilationRequest) : backend_outcome :=
  Compiled {| co_capsules := [example_capsule "capsule-1" 1]; co_rendered_context := "goals"; co_fitted_segments := None;
              co_fit_provenance := None |}.
Definition toy_compile (v : RequestView) : result compiler_error CompilationCandidate :=
  @compile_candidate toy_sha256 toy_float_repr toy_model_dump (rv_snapshot v) (rv_capsules v) (rv_delta v)
    {["event-1" := 3]} (rv_high_water_mark v) 100 toy_backend (Aware 13) demo_config [] Utf8ByteTokenCounter None false.
Definition toy_read (d : db) : result repo_error RequestView :=
  @read_compaction_view toy_sha256 toy_storage toy_environment "job-1" "worker-1" 1 (Aware 13) d.
Definition toy_view : RequestView :=
  Eval vm_compute in match toy_read toy_db4 with Ok v => v | Err _ => empty_view example_key end.
Lemma toy_view_read : toy_read toy_db4 = Ok toy_view.
Proof. vm_compute. reflexivity. Qed.
Definition toy_compiled : CompilationCandidate := Eval vm_compute in
  match toy_compile toy_view with
  | Ok c => c
  | Err _ => {| cc_snapshot := toy_candidate; cc_memberships := []; cc_segments := [];
                cc_permanent_report := {| rp_passed := false; rp_failure_codes := []; rp_source_coverage := f_zero;
                  rp_anchor_recall := f_zero; rp_coverage_gap := 0; rp_unsupported_critical_claims := 0 |};
                cc_fit_provenance := None |}
  end.
Lemma toy_view_compiled : toy_compile toy_view = Ok toy_compiled.
Proof. vm_compute. reflexivity. Qed.
Definition toy_audited : AuditedCandidate := _build_audited_candidate toy_compiled (cc_snapshot toy_compiled) None.
Definition toy_snapshot_id : string := Eval vm_compute in sn_snapshot_id (cc_snapshot toy_compiled).
(** The store in which the Job names the compiled candidate. *)
Definition toy_db5c : db :=
  Eval vm_compute in (toy_transition "job-1" "worker-1" READY_TO_COMMIT 14 (Some toy_snapshot_id) toy_db4).2.
Lemma toy_later_ready : toy_later toy_db4 toy_db5c.
Proof.
  refine (later_to _ _ _ _ _ (later_refl toy_db4)
    (toy_step_transition "job-1" "worker-1" READY_TO_COMMIT 14 (Some toy_snapshot_id) _)).
  toy_evaluates.
Qed.
Definition toy_row5 : JobRow := Eval vm_compute in
  transition_row READY_TO_COMMIT (Some toy_snapshot_id) 14 (transition_row COMPILING None 12 toy_row3).
Lemma toy_held5 : holds_fence toy_db5c "job-1" "worker-1" 1 15 toy_row5.
Proof.
  unfold holds_fence. split_and!; [|reflexivity|reflexivity].
  assert (compaction_jobs toy_db5c = [toy_row5]) as -> by (vm_compute; reflexivity). by left.
Qed.
Definition toy_metric (k : ArtifactKind) (id : string) : TokenMetric :=
  {| tm_artifact_kind := k; tm_artifact_id := id; tm_tokenizer_profile_id := "profile"; tm_token_count := 3 |}.
Definition toy_metrics : list TokenMetric :=
  [toy_metric ARTIFACT_CAPSULE "capsule-1"; toy_metric ARTIFACT_SNAPSHOT toy_snapshot_id].



Lemma compiled_candidate_passes_publication_witness :
  @publish_checks toy_sha256 toy_storage toy_environment "job-1" "worker-1" 1 (ac_snapshot toy_audited)
    (ac_memberships toy_audited) (Some toy_metrics) [] 100 15 toy_db5c
  = Ok ((job_envelope (rv_session_key toy_view) toy_row5, committed 15 (ac_snapshot toy_audited), []), toy_db5c).
Proof.
  refine (compiled_candidate_passes_publication toy_db4 toy_db5c "job-1" "worker-1" 1 (Aware 13) toy_view
    {["event-1" := 3]} 100 toy_backend (Aware 13) demo_config [] Utf8ByteTokenCounter None false toy_compiled
    false None toy_audited toy_metrics 15 toy_row5 toy_reachable_compiling toy_view_read toy_view_compiled
    _ toy_later_ready toy_held5 eq_refl eq_refl _).
  - vm_compute. reflexivity.
  - vm_compute. reflexivity.
Defined.

Lemma audit_semantic_decided_witness :
  audit_semantic toy_compiled true None = Err (SemanticAuditInvariantError BACKEND_REQUIRED None)
  /\ audited_from toy_compiled toy_audited.
Proof.
  pose proof toy_view_compiled as Er. unfold toy_compile in Er.
  destruct (compile_ok _ _ _ _ _ _ _ _ _ _ _ _ _ _ Er) as (i & _ & Hc).
  split; [vm_compute; reflexivity|].
  pose proof (audit_semantic_decided _ _ _ _ _ _ _ false None Hc) as Ha.
  assert (audit_semantic toy_compiled false None = Ok toy_audited) as E by (vm_compute; reflexivity).
  rewrite E in Ha. exact (proj1 Ha).
Defined.
