(* ===== verification/CandidateVerification.v ===== *)
(** Background verification of an audited candidate
    ([context_graph/candidate_verification.py]): the extractive blocks of the
    candidate, three fixed probes of the context engine on the reduced and on
    the full system, and the single rejection every failure becomes. *)
From S2P Require Import Prelude PyString PyFloat Domain PyJson Records Views Segmenter Runtime Closure Budget BudgetProperties ToolLoop GraphTypes Matrix Backends Constraints Solver Engine GraphBuild Retrieval Live Auditor.
Open Scope string_scope.
Open Scope list_scope.
Open Scope Z_scope.

(** [CandidateVerificationErrorCode], the one code of a [CandidateVerificationError]. *)
Inductive CandidateVerificationErrorCode := REJECTED.
Definition rejection_code_value (c : CandidateVerificationErrorCode) : string :=
  match c with REJECTED => "CANDIDATE_GRAPH_VERIFICATION_FAILED" end.
Record CandidateVerificationReport := {
  vr_passed : bool; vr_candidate_count : Z; vr_relation_count : Z; vr_constraint_count : Z; vr_probe_count : Z;
  vr_probe_ids : list string;
}.
(** The exceptions inside the verification, before they are redacted. *)
Inductive verification_error :=
| MembershipOrderMismatch | MembershipSessionMismatch | BlocksInvalid | BlockCapacityInvalid | RequiredSelectionIncomplete
| MembershipProvenanceInvalid | CandidateProvenanceInvalid | GraphInvalid | ActivationInvalid | EngineRaised
| NumericalVerificationFailed | ProbeEquivalenceFailed | ClosureRaised | DependencyClosureFailed.

Definition _PROBES : list (string * list CandidateKind) :=
  [("required", [GOAL; CONSTRAINT; EXACT_ANCHOR_KIND; TASK_CONTEXT]); ("evidence", [DECISION; DEPENDENCY; ENTITY]); ("recent", [RAW_EVENT])].

(** ** The candidate's own sources *)

(** [_source_events]: the segments' events, the first of each id. *)
Fixpoint first_of_each_id (seen : list string) (events : list EventEnvelope) : list EventEnvelope :=
  match events with
  | [] => []
  | event :: events =>
      if bool_decide (ev_event_id event ∈ seen) then first_of_each_id seen events
      else event :: first_of_each_id (seen ++ [ev_event_id event]) events
  end.
Definition segment_events (candidate : AuditedCandidate) : list EventEnvelope := flat_map es_events (ac_segments candidate).
Definition _source_events (candidate : AuditedCandidate) : list EventEnvelope := first_of_each_id [] (segment_events candidate).
(** The members of [_known_provenance]. *)
Definition _known_provenance (candidate : AuditedCandidate) : list string :=
  map ev_event_id (segment_events candidate)
  ++ flat_map (fun m => cap_source_event_ids (ms_capsule m)) (ac_memberships candidate).
(** The source lists of the items of [_PROVENANCE_FIELDS]. *)
Definition provenance_fields (capsule : ContextCapsuleEnvelope) : list (list string) :=
  map cl_source_event_ids (cap_goals capsule) ++ map cl_source_event_ids (cap_constraints capsule)
  ++ map de_source_event_ids (cap_decisions capsule) ++ map cl_source_event_ids (cap_progress capsule)
  ++ map cl_source_event_ids (cap_open_loops capsule) ++ map cl_source_event_ids (cap_preferences capsule)
  ++ map en_source_event_ids (cap_entities capsule) ++ map cl_source_event_ids (cap_emotional_context capsule)
  ++ map an_source_event_ids (cap_exact_anchors capsule) ++ map dp_source_event_ids (cap_dependencies capsule).
(** [_membership_provenance_valid] *)
Definition _membership_provenance_valid (candidate : AuditedCandidate) : bool :=
  forallb (fun m => forallb (fun ids => subset_of ids (cap_source_event_ids (ms_capsule m))) (provenance_fields (ms_capsule m)))
    (ac_memberships candidate).

(** ** Blocks *)

(** The candidate as the view a request would have, with the given delta. *)
Definition candidate_view (candidate : AuditedCandidate) (delta : list EventEnvelope) : RequestView :=
  let snapshot := ac_snapshot candidate in
  {| rv_session_key := sn_session_key snapshot; rv_snapshot := Some snapshot; rv_memberships := ac_memberships candidate;
     rv_pointer_version := 0; rv_covered_event_end := sn_covered_event_end snapshot;
     rv_high_water_mark := sn_source_high_water_mark snapshot; rv_delta := delta |}.
Definition background_kind (b : CandidateBlock) : bool :=
  eqb_of (cb_kind b) EPISODE_BACKGROUND_KIND || eqb_of (cb_kind b) GLOBAL_BACKGROUND_KIND.
(** [build_candidate_blocks] *)
Definition build_candidate_blocks `{Unicode} `{FloatRepr} (candidate : AuditedCandidate) (config : RetrievalConfig)
    : result verification_error (list CandidateBlock) :=
  let snapshot := ac_snapshot candidate in
  raise MembershipOrderMismatch when negb (eqb_of (map ms_capsule_id (ac_memberships candidate)) (sn_capsule_ids snapshot));;
  raise MembershipSessionMismatch when
    existsb (fun m => negb (eqb_of (cap_session_key (ms_capsule m)) (sn_session_key snapshot))) (ac_memberships candidate);;
  let view := candidate_view candidate (_source_events candidate) in
  match select_candidates view "" config with
  | Err _ => Err BlocksInvalid
  | Ok blocks =>
      let filtered := List.filter (fun b => negb (background_kind b)) blocks in
      if negb (required_candidates_complete view filtered []) then
        match map_result (fun b => Retrieval.candidate (mark_incomplete b)) filtered with
        | Ok marked => Ok marked
        | Err _ => Err BlocksInvalid
        end
      else Ok filtered
  end.

(** ** Probes *)

Definition f_four : float := Eval vm_compute in f_of_Z 4.
(** [_activation], with [retain_all=False] *)
Definition _activation (g : ContextGraph) (probe_id : string) (probe_kinds : list CandidateKind) (provenance : list string)
    : result graph_error QueryActivation :=
  let probed c := bool_decide (cb_kind (co_candidate c) ∈ probe_kinds) in
  make QueryActivation_valid
    {| qa_query_id := "candidate-probe:" +:+ probe_id;
       qa_scores := map (fun c => (co_coordinate_id c, if probed c then f_four else f_zero)) (gr_coordinates g);
       qa_retained_coordinate_ids :=
         map co_coordinate_id (List.filter (fun c => cb_required (co_candidate c) || probed c) (gr_coordinates g));
       qa_provenance_event_ids := provenance |}.
(** [replace(activation, retained_coordinate_ids=...)] with every coordinate *)
Definition retain_every (g : ContextGraph) (a : QueryActivation) : result graph_error QueryActivation :=
  make QueryActivation_valid
    {| qa_query_id := qa_query_id a; qa_scores := qa_scores a; qa_retained_coordinate_ids := coordinate_ids_of g;
       qa_provenance_event_ids := qa_provenance_event_ids a |}.
(** [_result_verified] *)
Definition _result_verified (r : EngineResult) (required_ids provenance : list string) : bool :=
  eqb_of (er_outcome r) OUTCOME_ACTIVE
  && match er_certificate r with
     | Some c => ec_passed c && ec_required_blocks_passed c && ec_provenance_passed c
     | None => false
     end
  && subset_of required_ids (block_ids (er_selected_blocks r))
  && forallb (fun b => subset_of (cb_source_event_ids b) provenance) (er_selected_blocks r).
(** [dict(result.activation_scores)] *)
Definition scores_dict (r : EngineResult) : gmap string float := list_to_map (rev (er_activation_scores r)).
(** [_probe_equivalent] *)
Definition _probe_equivalent (reduced full : EngineResult) (tolerance : float) : bool :=
  if negb (eqb_of (block_ids (er_selected_blocks reduced)) (block_ids (er_selected_blocks full))) then false else
  let reduced_scores := scores_dict reduced in
  let full_scores := scores_dict full in
  bool_decide (dom reduced_scores =@{gset string} dom full_scores)
  && forallb (fun '(id, score) =>
       match full_scores !! id with
       | Some score' => f_le (f_abs (f_sub score score')) tolerance
       | None => false
       end) (map_to_list reduced_scores).

Section verify.
Context `{Unicode} `{FloatRepr}.
Variables (config : ContextGraphConfig) (engine : ContextEngineSolver).
Definition solve_active (g : ContextGraph) (a : QueryActivation) : result verification_error EngineResult :=
  match es_solve engine g a MODE_ACTIVE with Some r => Ok r | None => Err EngineRaised end.
Definition activation {A} (r : result graph_error A) : result verification_error A :=
  match r with Ok a => Ok a | Err _ => Err ActivationInvalid end.
Definition probe_tolerance : float := f_max (gc_direct_backward_error_limit config) (gc_iterative_backward_error_limit config).
(** One turn of the loop over the probes. *)
Definition run_probe (g : ContextGraph) (blocks : list CandidateBlock) (required_ids provenance : list string)
    (probe : string * list CandidateKind) : result verification_error unit :=
  reduced_activation ← activation (_activation g probe.1 probe.2 provenance);
  full_activation ← activation (retain_every g reduced_activation);
  reduced ← solve_active g reduced_activation;
  full ← solve_active g full_activation;
  raise NumericalVerificationFailed when
    negb (_result_verified reduced required_ids provenance) || negb (_result_verified full required_ids provenance);;
  raise ProbeEquivalenceFailed when negb (_probe_equivalent reduced full probe_tolerance);;
  match close_dependency_closure (er_selected_blocks reduced) blocks (gc_max_coordinates config) with
  | Err _ => Err ClosureRaised
  | Ok closure =>
      raise DependencyClosureFailed when
        negb (validate_dependency_closure closure blocks (gc_max_coordinates config))
        || existsb (fun b => negb (subset_of (cb_source_event_ids b) provenance)) closure;;
      Ok tt
  end.
(** [_verify_candidate] *)
Definition _verify_candidate (candidate : AuditedCandidate) : result verification_error CandidateVerificationReport :=
  blocks ← build_candidate_blocks candidate default_retrieval_config;
  raise BlockCapacityInvalid when negb (nonempty blocks) || (gc_max_coordinates config <? len blocks);;
  raise RequiredSelectionIncomplete when existsb (fun b => negb (cb_required_selection_complete b)) blocks;;
  raise MembershipProvenanceInvalid when negb (_membership_provenance_valid candidate);;
  raise CandidateProvenanceInvalid when
    existsb (fun b => negb (subset_of (cb_source_event_ids b) (_known_provenance candidate))) blocks;;
  let provenance := fromkeys (flat_map cb_source_event_ids blocks) in
  match build_context_graph (candidate_view candidate []) blocks "" config with
  | Err _ => Err GraphInvalid
  | Ok built =>
      let required_ids := block_ids (List.filter cb_required blocks) in
      _ ← map_result (run_probe (bg_graph built) blocks required_ids provenance) _PROBES;
      Ok {| vr_passed := true; vr_candidate_count := len blocks; vr_relation_count := len (gr_relations (bg_graph built));
            vr_constraint_count := len (gr_constraints (bg_graph built)); vr_probe_count := len _PROBES;
            vr_probe_ids := map fst _PROBES |}
  end.
(** [verify_candidate] *)
Definition verify_candidate (candidate : AuditedCandidate) : result CandidateVerificationErrorCode CandidateVerificationReport :=
  match _verify_candidate candidate with Ok report => Ok report | Err _ => Err REJECTED end.
End verify.
