(* ===== verification/VerificationProperties.v ===== *)
(** What an accepted candidate has proved: every source it must keep has a
    block, its provenance is closed, and each probe answers alike on the
    reduced and on the full system. *)
From S2P Require Import Prelude PyString PyFloat Domain PyJson Records Views Segmenter Runtime Closure Budget BudgetProperties ToolLoop GraphTypes Matrix Backends Constraints Solver Engine EngineTotality GraphBuild GraphBuildProperties Retrieval RetrievalProperties Live Auditor CompactionProperties CandidateVerification.
Open Scope string_scope.
Open Scope list_scope.
Open Scope Z_scope.

(** The candidate's blocks cover what it must keep and invent no source. *)
Record sources_covered (candidate : AuditedCandidate) (blocks : list CandidateBlock) : Prop := {
  covered_claims m id : m ∈ ac_memberships candidate -> id ∈ capsule_required_ids (ms_capsule m) -> id ∈ block_ids blocks;
  covered_events event : event ∈ segment_events candidate ->
    exists b, b ∈ blocks /\ cb_kind b = RAW_EVENT /\ ev_event_id event ∈ cb_source_event_ids b;
  known_sources b e : b ∈ blocks -> e ∈ cb_source_event_ids b ->
    (exists event, event ∈ segment_events candidate /\ ev_event_id event = e)
    \/ (exists m, m ∈ ac_memberships candidate /\ e ∈ cap_source_event_ids (ms_capsule m));
  item_sources m ids : m ∈ ac_memberships candidate -> ids ∈ provenance_fields (ms_capsule m) ->
    ids ⊆ cap_source_event_ids (ms_capsule m);
  no_background b : b ∈ blocks -> cb_kind b <> EPISODE_BACKGROUND_KIND /\ cb_kind b <> GLOBAL_BACKGROUND_KIND;
}.
(** A result a probe may rely on. *)
Record probe_answer (blocks : list CandidateBlock) (r : EngineResult) : Prop := {
  answer_active : er_outcome r = OUTCOME_ACTIVE;
  answer_certificate : exists c, er_certificate r = Some c /\ ec_passed c = true /\ ec_required_blocks_passed c = true
    /\ ec_provenance_passed c = true;
  answer_required b : b ∈ blocks -> cb_required b = true -> cb_block_id b ∈ block_ids (er_selected_blocks r);
  answer_provenance b e : b ∈ er_selected_blocks r -> e ∈ cb_source_event_ids b ->
    exists c, c ∈ blocks /\ e ∈ cb_source_event_ids c;
}.
(** The two systems agree: the same blocks, the same coordinates, close scores. *)
Record same_answer (tolerance : float) (reduced full : EngineResult) : Prop := {
  same_blocks : block_ids (er_selected_blocks reduced) = block_ids (er_selected_blocks full);
  same_coordinates id : is_Some (scores_dict reduced !! id) <-> is_Some (scores_dict full !! id);
  close_scores id s s' : scores_dict reduced !! id = Some s -> scores_dict full !! id = Some s' ->
    f_le (f_abs (f_sub s s')) tolerance = true;
}.

(** ** The candidate's blocks *)

Lemma first_of_each_id_covers events : forall seen event, event ∈ events -> ev_event_id event ∈ seen \/
  exists first, first ∈ first_of_each_id seen events /\ ev_event_id first = ev_event_id event.
Proof.
  induction events as [|x events IH]; intros seen event; [by intros ?%elem_of_nil|]. cbn [first_of_each_id].
  intros [->|He]%elem_of_cons.
  - case_bool_decide; [by left|]. right. exists x. split; [left|done].
  - case_bool_decide; [by apply IH|]. destruct (IH (seen ++ [ev_event_id x]) event He) as [[?| ->%list_elem_of_singleton]%elem_of_app|(f & ? & ?)].
    + by left.
    + right. exists x. split; [left|done].
    + right. exists f. split; [by right|done].
Qed.
Section accepted.
Context `{Unicode} `{FloatRepr}.
Variables (config : ContextGraphConfig) (engine : ContextEngineSolver).

Lemma marked_incomplete l l' : map_result (fun b => Retrieval.candidate (mark_incomplete b)) l = Ok l' -> l' <> [] ->
  existsb (fun b => negb (cb_required_selection_complete b)) l' = true.
Proof.
  destruct l as [|b l]; cbn [map_result]; [intros [= <-] Hn; by destruct Hn|].
  destruct (Retrieval.candidate (mark_incomplete b)) as [marked|] eqn:Hb; cbn [mbind result_bind]; [|done].
  destruct (map_result _ l); [|done]. apply raise_if_ok in Hb as [_ [= <-]]. by intros [= <-] _.
Qed.
(** Complete blocks come from the branch in which nothing is missing. *)
Lemma candidate_blocks_complete candidate rc blocks : build_candidate_blocks candidate rc = Ok blocks -> blocks <> [] ->
  existsb (fun b => negb (cb_required_selection_complete b)) blocks = false ->
  required_candidates_complete (candidate_view candidate (_source_events candidate)) blocks [] = true
  /\ Forall (fun b => background_kind b = false) blocks.
Proof.
  unfold build_candidate_blocks. intros [_ Hb]%raise_if_ok Hne Hc. apply raise_if_ok in Hb as [_ Hb].
  destruct (select_candidates _ _ _) as [all|]; [|done]. destruct (required_candidates_complete _ _ _) eqn:Hcomplete; cbn [negb] in Hb.
  - injection Hb as <-. split; [done|]. apply Forall_forall. intros b [_ Hk]%elem_of_filter_bool. by apply negb_true_iff in Hk.
  - destruct (map_result _ _) as [marked|] eqn:Hm; [|done]. injection Hb as ->. apply marked_incomplete in Hm; [|done]. congruence.
Qed.
Lemma complete_blocks_cover candidate blocks :
  required_candidates_complete (candidate_view candidate (_source_events candidate)) blocks [] = true ->
  (forall m id, m ∈ ac_memberships candidate -> id ∈ capsule_required_ids (ms_capsule m) -> id ∈ block_ids blocks)
  /\ forall event, event ∈ segment_events candidate ->
     exists b, b ∈ blocks /\ cb_kind b = RAW_EVENT /\ ev_event_id event ∈ cb_source_event_ids b.
Proof.
  unfold required_candidates_complete. intros [Hids Hevents]%andb_true_iff. split.
  - intros m id Hm Hid. apply (proj1 (subset_of_spec _ _) Hids), elem_of_flat. by exists m.
  - intros event He. destruct (first_of_each_id_covers (segment_events candidate) [] event He) as [[]%elem_of_nil|(f & Hf & Hfe)].
    pose proof (proj1 (subset_of_spec _ _) Hevents (ev_event_id f)) as Hin. rewrite Hfe in Hin.
    assert (ev_event_id event ∈ flat_map cb_source_event_ids (List.filter (fun c => eqb_of (cb_kind c) RAW_EVENT) blocks)) as Hraw.
    { apply Hin, elem_of_filter_bool. split; [rewrite <- Hfe; by apply (list_elem_of_fmap_2 ev_event_id)|].
      by apply negb_true_iff, bool_decide_eq_false, not_elem_of_nil. }
    apply elem_of_flat in Hraw as (b & [Hb Hk]%elem_of_filter_bool & Hs). unfold eqb_of in Hk. bool_hyps. by exists b.
Qed.

(** ** The probes *)

Lemma result_verified_answer blocks provenance r :
  (forall e, e ∈ provenance -> exists c, c ∈ blocks /\ e ∈ cb_source_event_ids c) ->
  _result_verified r (block_ids (List.filter cb_required blocks)) provenance = true -> probe_answer blocks r.
Proof.
  intros Hp. unfold _result_verified. rewrite !andb_true_iff. intros [[[Ho Hc] Hr] Hs]. unfold eqb_of in Ho. bool_hyps. split.
  - done.
  - destruct (er_certificate r) as [c|]; [|done]. rewrite !andb_true_iff in Hc. exists c. tauto.
  - intros b Hb Hreq. apply (proj1 (subset_of_spec _ _) Hr), list_elem_of_fmap. exists b. split; [done|]. by apply elem_of_filter_bool.
  - intros b e Hb He. apply Hp. rewrite forallb_true_iff in Hs. exact (proj1 (subset_of_spec _ _) (Hs b Hb) e He).
Qed.
Lemma probe_equivalent_same tolerance reduced full : _probe_equivalent reduced full tolerance = true -> same_answer tolerance reduced full.
Proof.
  unfold _probe_equivalent, eqb_of. destruct (bool_decide (block_ids _ = _)) eqn:Hb; cbn [negb]; [|done].
  intros [Hd Hs]%andb_true_iff. bool_hyps. split; [done|..].
  - intros id. rewrite <- !elem_of_dom. by rewrite Hd.
  - intros id s s' Hr Hf. rewrite forallb_true_iff in Hs. specialize (Hs (id, s)). rewrite elem_of_map_to_list in Hs.
    specialize (Hs Hr). cbn beta iota in Hs. by rewrite Hf in Hs.
Qed.
(** What one probe leaves. *)
Definition probe_passed (g : ContextGraph) (blocks : list CandidateBlock) (provenance : list string)
    (probe : string * list CandidateKind) : Prop :=
  exists a retained reduced full closure,
    _activation g probe.1 probe.2 provenance = Ok a /\ retain_every g a = Ok retained
    /\ es_solve engine g a MODE_ACTIVE = Some reduced /\ es_solve engine g retained MODE_ACTIVE = Some full
    /\ probe_answer blocks reduced /\ probe_answer blocks full /\ same_answer (probe_tolerance config) reduced full
    /\ closure = active_blocks blocks (ids_of closure) /\ closed_under blocks (ids_of closure)
    /\ (forall b, b ∈ er_selected_blocks reduced -> cb_block_id b ∈ ids_of closure)
    /\ len closure <= gc_max_coordinates config.
Lemma run_probe_passed g blocks provenance probe :
  (forall e, e ∈ provenance -> exists c, c ∈ blocks /\ e ∈ cb_source_event_ids c) ->
  run_probe config engine g blocks (block_ids (List.filter cb_required blocks)) provenance probe = Ok tt ->
  probe_passed g blocks provenance probe.
Proof.
  intros Hp. unfold run_probe, activation, solve_active. destruct (_activation _ _ _ _) as [a|] eqn:Ha; [|done]. cbn [mbind result_bind].
  destruct (retain_every g a) as [retained|] eqn:Hr; [|done]. cbn [mbind result_bind].
  destruct (es_solve engine g a MODE_ACTIVE) as [reduced|] eqn:Hred; [|done]. cbn [mbind result_bind].
  destruct (es_solve engine g retained MODE_ACTIVE) as [full|] eqn:Hfull; [|done]. cbn [mbind result_bind].
  intros [[Hv1 Hv2]%orb_false_iff H1]%raise_if_ok. apply raise_if_ok in H1 as [He H1]. apply negb_false_iff in Hv1, Hv2, He.
  pose proof (close_ids_spec (er_selected_blocks reduced) blocks (gc_max_coordinates config)) as Hspec.
  destruct (close_dependency_closure _ _ _) as [closure|]; [|done].
  destruct Hspec as (s & Hclosure & _ & Hnd & _ & Hs & Hc & [Hst _] & Hl & _).
  assert (ids_of closure = s) as Hids by (rewrite Hclosure; by apply ids_of_active).
  exists a, retained, reduced, full, closure. rewrite Hids. split_and!; try done.
  - by eapply result_verified_answer.
  - by eapply result_verified_answer.
  - by apply probe_equivalent_same.
  - rewrite Hclosure. by rewrite active_len.
Qed.

(** C21. A candidate is accepted only with its proof: its blocks cover every
    active goal, constraint and anchor of its Capsules and every event of its
    segments, name only events of the segments or sources of the Capsules, and
    each item of a Capsule has its sources among the Capsule's; the blocks fit
    the engine; and for each of the three probes the engine's answers on the
    reduced and on the full system are both certified, hold every required
    block and no foreign provenance, and agree - the same blocks, the same
    coordinates, scores within the larger error limit - and the selection
    closes over its dependencies within the capacity.  Whatever goes wrong is
    the one content-free rejection. *)
Theorem verify_candidate_accepts_proved candidate :
  match verify_candidate config engine candidate with
  | Ok report => exists blocks built,
      sources_covered candidate blocks /\ 1 <= len blocks <= gc_max_coordinates config
      /\ build_context_graph (candidate_view candidate []) blocks "" config = Ok built
      /\ Forall (probe_passed (bg_graph built) blocks (fromkeys (flat_map cb_source_event_ids blocks))) _PROBES
      /\ report = {| vr_passed := true; vr_candidate_count := len blocks; vr_relation_count := len (gr_relations (bg_graph built));
                     vr_constraint_count := len (gr_constraints (bg_graph built)); vr_probe_count := 3;
                     vr_probe_ids := ["required"; "evidence"; "recent"] |}
  | Err code => rejection_code_value code = "CANDIDATE_GRAPH_VERIFICATION_FAILED" /\ is_ok (_verify_candidate config engine candidate) = false
  end.
Proof.
  unfold verify_candidate. destruct (_verify_candidate config engine candidate) as [report|] eqn:Hv; [|done]. unfold _verify_candidate in Hv.
  apply result_bind_ok in Hv as (blocks & Hb & Hv). apply raise_if_ok in Hv as [[Hne Hcap]%orb_false_iff Hv].
  apply raise_if_ok in Hv as [Hcomplete Hv]. apply raise_if_ok in Hv as [Hitems Hv]. apply raise_if_ok in Hv as [Hknown Hv].
  destruct (build_context_graph _ _ _ _) as [built|] eqn:Hg; [|done]. apply result_bind_ok in Hv as (probes & Hp & Hv).
  injection Hv as <-. exists blocks, built. assert (blocks <> []) as Hne' by (by intros ->). bool_hyps.
  destruct (candidate_blocks_complete _ _ _ Hb Hne' Hcomplete) as [Hc Hk]. destruct (complete_blocks_cover _ _ Hc) as [Hclaims Hevents].
  split_and!; try done.
  - split; [done|done|..].
    + intros b e Hbl He. rewrite existsb_false_iff in Hknown. specialize (Hknown b Hbl). cbn beta in Hknown. apply negb_false_iff in Hknown.
      pose proof (proj1 (subset_of_spec _ _) Hknown e He) as Hin. unfold _known_provenance in Hin.
      apply elem_of_app in Hin as [(ev & -> & Hev)%list_elem_of_fmap|(m & ? & ?)%elem_of_flat]; [left; by exists ev|right; by exists m].
    + intros m ids Hm Hids. unfold _membership_provenance_valid in Hitems. rewrite forallb_true_iff in Hitems.
      specialize (Hitems m Hm). cbn beta in Hitems. rewrite forallb_true_iff in Hitems. exact (proj1 (subset_of_spec _ _) (Hitems ids Hids)).
    + intros b Hbl. rewrite Forall_forall in Hk. specialize (Hk b Hbl). unfold background_kind, eqb_of in Hk. bool_hyps. done.
  - destruct blocks; [done|]. rewrite len_cons. pose proof (len_nonneg blocks). lia.
  - apply map_result_ok in Hp. clear -Hp. induction Hp as [|probe u l k Hrun _ IH]; [constructor|]. constructor; [|exact IH].
    destruct u. apply run_probe_passed; [|exact Hrun]. intros e He. by apply (proj1 (elem_of_fromkeys _ _)), elem_of_flat in He.
Qed.
End accepted.

(** The compacted candidate of the concrete run, under the sparse engine and
    under one that degrades. *)
Definition toy_verified (engine : ContextEngineSolver) : option (Z * list string) :=
  match verify_candidate (H := ascii_unicode) (H0 := fun _ => []) default_graph_config engine toy_audited with
  | Ok report => Some (vr_candidate_count report, vr_probe_ids report)
  | Err _ => None
  end.
Example verification_runs :
  [toy_verified (sparse_engine (H0 := plain_sum) (H1 := toy_gauss_numpy) default_graph_config);
   toy_verified {| es_config := None; es_solve := fun _ _ _ => None |}]
  = [Some (3, ["required"; "evidence"; "recent"]); None].
Proof. vm_compute. reflexivity. Qed.
