(* ===== verification/WorkerProperties.v ===== *)
(** What an iteration of the runtime worker leaves behind: a settled Job, a
    store built by repository steps, and the deferral it cannot record. *)
From S2P Require Import Prelude PyString PyFloat Domain Validation PyJson Crypto Store Records Instances.
From S2P Require Import TokenMetrics Journal Jobs JobProperties Views Publish PublishLemmas Backfill Refusals.
From S2P Require Import ToolLoop Segmenter Budget Compiler Auditor Worker Repository RepositoryProperties WorkerLogic.
From S2P Require Import CompactionProperties.
From Stdlib Require Import SpecFloat.
Open Scope string_scope.
Open Scope list_scope.
Open Scope Z_scope.


Section calls.
Context `{Sha256, StorageCodecLaws, !Environment, !EnvironmentLaws, FloatRepr, ModelDump, !Outside, !OutsideLaws}.














(** ** Claims *)


(** ** Recorded failures *)





End calls.

(** ** Recording a deferral *)

Section deferrals.
Context `{Sha256, StorageCodecLaws, !Environment, !EnvironmentLaws, FloatRepr, ModelDump, !Outside, !OutsideLaws}.

Lemma deferral_arguments stage code : let preserve := bool_decide (code ∈ _PRESERVED_DEFERRALS) in
  fail_arguments_bad stage code code true preserve
  = fail_arguments_bad stage code code true false || preserve && (stage !=? "COMPILING").
Proof.
  intros preserve. unfold fail_arguments_bad. cbn [negb orb]. rewrite andb_false_l, orb_false_r.
  rewrite <- !orb_assoc. do 3 f_equal. unfold preserve. case_bool_decide as Hc; [|by rewrite !andb_false_l, orb_false_r].
  assert (preservable_code code = true) as ->; [|by rewrite orb_false_r].
  unfold preservable_code, py_in. apply existsb_exists. exists code. split; [|by apply (py_eq_leibniz (A:=string))].
  by apply list_elem_of_In.
Qed.

(** What becomes of a deferral: with the database at hand and the retry
    time ahead, a deferral raised under [stage] sends the held Job to
    RETRY_WAIT until the base delay has passed, giving the attempt back for the
    three preserved codes, and is dropped when the fence is lost.  But a
    preserved deferral raised after the COMPILING stage - a canonical counter
    that fails on the finished candidate - is refused by [fail_job] with a
    [ValueError], which leaves the iteration: nothing is recorded, and the Job
    stays leased until its lease expires. *)
Theorem deferral_decided self leased stage code w base now retry : reachable (w_db w) ->
  timedelta_seconds (rc_retry_base_seconds (rw_config self)) = Ok base ->
  clock (w_tick w) = Aware now -> clock (S (w_tick w)) = Aware retry -> now < retry + base ->
  trouble (S (S (w_tick w))) = None -> fault_injector "failure.after_update" = false ->
  let d := others (S (S (w_tick w))) (w_db w) in
  let next d' := {| w_db := d'; w_tick := S (S (S (w_tick w))) |} in
  let preserve := bool_decide (code ∈ _PRESERVED_DEFERRALS) in
  if fail_arguments_bad stage code code true false || preserve && (stage !=? "COMPILING")
  then _persist_deferred self leased stage code w = (Err (FromRepository ValueError), next d)
  else (fence_lost d (job_job_id leased) (rw_worker_id self) (job_lease_epoch leased) now ->
          _persist_deferred self leased stage code w = (Ok (), next d))
    /\ (forall r, holds_fence d (job_job_id leased) (rw_worker_id self) (job_lease_epoch leased) now r ->
          _persist_deferred self leased stage code w
          = (Ok (), next (set_jobs (replaced (job_job_id leased)
               (fail_row RETRY_WAIT preserve (Some (retry + base)) stage code code now) (compaction_jobs d)) d))).
Proof.
  intros Hw Hbase Hnow Hretry Hlt Htr Hfault d next preserve. rewrite <- deferral_arguments. fold preserve.
  assert (Hd : reachable d) by (eapply reachable_later; [exact Hw|by apply others_later]).
  assert (Hrun : forall r d', fail_job (job_job_id leased) (rw_worker_id self) (job_lease_epoch leased) (Aware now)
      stage code code (Some (Aware (retry + base))) preserve d = (r, d') ->
    _persist_deferred self leased stage code w
    = (match r with Ok _ | Err StaleLeaseError => Ok () | Err e => Err (FromRepository e) end, next d')).
  { intros r d' E. unfold _persist_deferred, mbind, W_bind, read_clock. cbn [w_tick w_db]. unfold pure.
    rewrite Hbase, Hnow, Hretry. cbn [dt_add]. fold preserve. unfold unless_stale, catch, mbind, W_bind, call.
    cbn [w_tick w_db]. rewrite Htr. fold d. rewrite E. destruct r as [j|[]]; reflexivity. }
  destruct (fail_arguments_bad stage code code true preserve) eqn:Ebad.
  - apply (Hrun (Err ValueError) d). unfold fail_job. change (is_some (Some (Aware (retry + base)))) with true. by rewrite Ebad.
  - split.
    + intros Hl. apply (Hrun (Err StaleLeaseError) d). unfold fail_job. change (is_some (Some (Aware (retry + base)))) with true. rewrite Ebad.
      cbn [normalize_datetime mbind result_bind]. rewrite raise_if_false by (apply Z.leb_gt; lia).
      apply transaction_err. split; [|done]. apply tx_bind_err. by apply require_live_fence_stale.
    + intros r (Hr & Hid & Hf). pose proof (reachable_inv d Hd) as Hinv.
      destruct (fail_run d r _ _ now stage code code (Some (Aware (retry + base))) preserve RETRY_WAIT (Some (retry + base))
        (si_schema d Hinv) (si_sessions d Hinv) Hr Hf Hfault Ebad) as (k & _ & E); [right; by exists (retry + base)|].
      rewrite <- Hid in *. exact (Hrun _ _ E).
Qed.
End deferrals.

(** ** The iteration *)

Section iteration.
Context `{Sha256, StorageCodecLaws, !Environment, !EnvironmentLaws, FloatRepr, ModelDump, !Outside, !OutsideLaws}.
Context (verify : AuditedCandidate -> bool) (self : _RuntimeCompactionWorker).





End iteration.

(** ** The fenced lane *)

Section fenced_lane.
Context `{Sha256, StorageCodecLaws, !Environment, !EnvironmentLaws, FloatRepr, ModelDump, !Outside, !OutsideLaws}.
Context (self : _FencedCompactionWorker).

(** A later state of the Job under the same lease. *)
Definition same_lease (job job' : CompactionJobEnvelope) : Prop :=
  job_job_id job' = job_job_id job /\ job_lease_epoch job' = job_lease_epoch job.
#[local] Instance same_lease_preorder : PreOrder same_lease.
Proof. split; [done|]. unfold same_lease. intros a b c [? ?] [? ?]. split; congruence. Qed.













End fenced_lane.

(** ** Both lanes *)

Section lanes.
Context `{Sha256, StorageCodecLaws, !Environment, !EnvironmentLaws, FloatRepr, ModelDump, !Outside, !OutsideLaws}.
Context (verify : AuditedCandidate -> bool).


End lanes.

(** ** A concrete worker *)

Section worker_witnesses.
#[local] Existing Instance toy_sha256.
#[local] Existing Instance toy_storage.
#[local] Existing Instance toy_environment.
#[local] Existing Instance toy_storage_laws.
#[local] Existing Instance toy_environment_laws.
#[local] Existing Instance toy_float_repr.
#[local] Existing Instance toy_model_dump.

(** A clock that ticks once per reading, and nobody else at work. *)
#[local] Instance toy_outside : Outside :=
  { clock := fun n => Aware (20 + Z.of_nat n); others := fun _ d => d; trouble := fun _ => None;
    nonces := fun _ => toy_nonces; beats := fun _ => 1%nat; heartbeat_ended := fun _ => None }.
#[local] Instance toy_outside_laws : OutsideLaws.
Proof. split; [intros; constructor|intros; exact toy_nonces_ok]. Qed.

Definition toy_config : _RuntimeCompactionWorkerConfig :=
  {| rc_token_ceiling := 100; rc_lease_seconds := f_of_Z 300; rc_poll_interval_seconds := f_one;
     rc_retry_base_seconds := f_of_Z 5; rc_retry_max_seconds := f_of_Z 300; rc_max_attempts := 3;
     rc_strict_audit := false; rc_metric_backfill_limit := 32; rc_segmenter_config := demo_config |}.
Definition toy_worker (canonical : TokenCounter) : _RuntimeCompactionWorker :=
  {| rw_backend := toy_backend; rw_compatibility_counter := Utf8ByteTokenCounter; rw_canonical_counter := Some canonical;
     rw_canonical_profile_id := "profile"; rw_worker_id := "worker-1"; rw_config := toy_config;
     rw_semantic_backend := None; rw_provider_bindings := None |}.
Definition toy_iteration (canonical : TokenCounter) : result worker_error bool * World :=
  run_iteration (fun _ => true) (toy_worker canonical) {| w_db := toy_db2; w_tick := 0 |}.
(** A counter that fails on the candidate's texts only. *)
Definition late_counter : TokenCounter := fun text =>
  if text ==? "hello" then Counted 1 else RaisedOther.


(** The run with the failing counter ends in an exception, the Job still leased. *)
Definition toy_late : World := Eval vm_compute in (toy_iteration late_counter).2.
Example late_deferral_escapes : toy_iteration late_counter = (Err (FromRepository ValueError), toy_late)
  /\ map (fun r => (jr_state r, jr_lease_owner r, jr_error_code r)) (compaction_jobs (w_db toy_late))
     = [(COMPILING, Some "worker-1", None)].
Proof. split; vm_compute; reflexivity. Qed.
Definition toy_leased : CompactionJobEnvelope := job_envelope example_key toy_row3.
Definition toy_compiling : World := {| w_db := toy_db4; w_tick := 0 |}.
Lemma deferral_decided_witness :
  _persist_deferred (toy_worker late_counter) toy_leased "VERIFYING" "TOKEN_METRIC_UNAVAILABLE" toy_compiling
  = (Err (FromRepository ValueError), {| w_db := toy_db4; w_tick := 3 |}).
Proof.
  exact (deferral_decided (toy_worker late_counter) toy_leased "VERIFYING" "TOKEN_METRIC_UNAVAILABLE" toy_compiling
    5000000 20 21 toy_reachable_compiling ltac:(vm_compute; reflexivity) eq_refl eq_refl ltac:(lia) eq_refl eq_refl).
Defined.
End worker_witnesses.

(** ** Configurations and deferrals, read closely *)

(** The fenced lane has no place for a deferral: it ends the Job for good. *)
Lemma fenced_deferral_is_final code : _failure_for (deferred code) = unexpected_failure.
Proof. reflexivity. Qed.
(** A NaN passes for a positive duration, and every lease then fails. *)
Lemma nan_duration_accepted c : RuntimeConfig_new c = Ok c ->
  let c' := {| rc_token_ceiling := rc_token_ceiling c; rc_lease_seconds := S754_nan;
     rc_poll_interval_seconds := rc_poll_interval_seconds c; rc_retry_base_seconds := rc_retry_base_seconds c;
     rc_retry_max_seconds := rc_retry_max_seconds c; rc_max_attempts := rc_max_attempts c;
     rc_strict_audit := rc_strict_audit c; rc_metric_backfill_limit := rc_metric_backfill_limit c;
     rc_segmenter_config := rc_segmenter_config c |} in
  RuntimeConfig_new c' = Ok c' /\ timedelta_seconds (_lease_horizon_seconds c') = Err OtherValueError.
Proof.
  unfold RuntimeConfig_new, raise_if. cbn. destruct (rc_token_ceiling c <? 1); [done|].
  destruct (f_le (rc_lease_seconds c) f_zero); [done|]. cbn [orb].
  destruct (f_le (rc_poll_interval_seconds c) f_zero || _); [done|].
  destruct (f_lt _ _); [done|]. destruct (rc_max_attempts c <? 1); [done|]. by destruct (negb _).
Qed.
