(* ===== verification/ReorganizeProperties.v ===== *)
(** Correctness of [reorganize_capsules] ([Reorganize]): every item of every
    input is kept, shortened or released, and what was done with it is written
    down once; exact anchors and dependencies are kept in full; the result is
    within the budget; the search for an approximation ends and, where fitting
    is monotone in the length, finds the longest. *)
From S2P Require Import Prelude PyString PyFloat Domain Validation PyJson Crypto Store Records.
From S2P Require Import ToolLoop Segmenter Budget BudgetProperties Compiler Reorganize.
Open Scope string_scope.
Open Scope list_scope.
Open Scope Z_scope.

(** ** Items *)

(** An item of the model its field holds. *)
Definition item_fits (field : Field) (item : Item) : bool :=
  match field, item with
  | (GOALS | CONSTRAINTS | PROGRESS | OPEN_LOOPS | PREFERENCES | EMOTIONAL_CONTEXT), ItemClaim _
  | DECISIONS, ItemDecision _ | ENTITIES, ItemEntity _ | EXACT_ANCHORS, ItemAnchor _ | DEPENDENCIES, ItemDependency _ => true
  | _, _ => false
  end.
Lemma field_items_fit c f i : i ∈ field_items c f -> item_fits f i = true.
Proof. destruct f; intros (x & -> & _)%list_elem_of_fmap; done. Qed.
Lemma approximate_shape f i n a : _approximate_item i n = Some a ->
  item_fits f a = item_fits f i /\ _item_id a = _item_id i /\ item_source_event_ids a = item_source_event_ids i
  /\ _MIN_APPROXIMATE_CHARS <= n.
Proof.
  unfold _approximate_item. destruct (_ <? _) eqn:E; [done|]. bool_hyps.
  destruct i; intros [= <-]; by destruct f.
Qed.
Lemma field_kind_inj f g : field_kind f = field_kind g -> f = g.
Proof. by destruct f, g. Qed.
(** The fields of the capsule that is built are the selected items. *)
Lemma field_items_capsule_of id first rest selected records n :
  (forall f i, i ∈ selected f -> item_fits f i = true) ->
  forall f, field_items (with_token_cost n (capsule_of id first rest selected records)) f = selected f.
Proof.
  intros Hfit f. specialize (Hfit f).
  assert (forall B (to : Item -> option B) (from : B -> Item),
    (forall i, item_fits f i = true -> exists b, to i = Some b /\ from b = i) ->
    map from (omap to (selected f)) = selected f) as back.
  { intros B to from Hto. induction (selected f) as [|i l IH]; [done|]. cbn.
    destruct (Hto i) as (b & -> & Hb); [apply Hfit; left|]. cbn. rewrite Hb, IH; [done|].
    intros j Hj. apply Hfit. by right. }
  destruct f; cbn; apply back; intros []; try discriminate; cbn; eauto.
Qed.

Lemma items_of_elem fields capsules c f i : (c, f, i) ∈ items_of fields capsules <->
  c ∈ capsules /\ f ∈ fields /\ i ∈ field_items c f.
Proof.
  unfold items_of. rewrite list_elem_of_In, in_flat_map. split.
  - intros (c' & Hc & (f' & Hf & (i' & [= -> -> ->] & Hi)%in_map_iff)%in_flat_map).
    by rewrite !list_elem_of_In.
  - rewrite !list_elem_of_In. intros (Hc & Hf & Hi). exists c. split; [done|]. apply in_flat_map.
    exists f. split; [done|]. by apply in_map.
Qed.

(** ** What the counting steps raise *)

Definition only_value_error {A} (m : result reorganize_error A) : Prop := forall e, m = Err e -> e = ReorganizeValueError.
Lemma value_error_ok {A} (a : A) : only_value_error (Ok a).
Proof. by intros e. Qed.
Lemma value_error_err {A} : only_value_error (A := A) (Err ReorganizeValueError).
Proof. by intros e [= <-]. Qed.
Lemma value_error_bind {A B} (m : result reorganize_error A) (k : A -> result reorganize_error B) :
  only_value_error m -> (forall a, only_value_error (k a)) -> only_value_error (m ≫= k).
Proof. intros Hm Hk. destruct m as [a|e]; [apply Hk|]. intros e' [= <-]. by apply Hm. Qed.
Lemma value_error_raise {A} b (m : result reorganize_error A) :
  only_value_error m -> only_value_error (raise ReorganizeValueError when b;; m).
Proof. destruct b; [intros _; apply value_error_err|done]. Qed.
Lemma value_error_map {A B} (f : A -> result reorganize_error B) l :
  (forall a, only_value_error (f a)) -> only_value_error (map_result f l).
Proof.
  intros Hf. induction l as [|x l IH]; cbn; [apply value_error_ok|].
  apply value_error_bind; [done|]. intros y. apply value_error_bind; [done|]. intros ys. apply value_error_ok.
Qed.
#[local] Hint Resolve value_error_ok value_error_err value_error_bind value_error_raise value_error_map : ac.
(** Walk a computation whose every [raise] is a [ValueError]. *)
Ltac value_errors :=
  repeat first
    [ apply value_error_ok | apply value_error_err | apply value_error_raise | apply value_error_map; intros ?
    | apply value_error_bind; [|intros ?] | solve [eauto with ac]
    | match goal with |- only_value_error (match ?x with _ => _ end) => destruct x end ].
Section errors.
Context `{Sha256, FloatRepr, ModelDump, ItemDump}.
Lemma reorg_count_errors counter text : only_value_error (reorg_count counter text).
Proof. unfold reorg_count. value_errors. Qed.
Lemma reorg_json_errors j : only_value_error (reorg_json j).
Proof. unfold reorg_json. value_errors. Qed.
#[local] Hint Resolve reorg_count_errors reorg_json_errors : ac.
Lemma item_tokens_errors counter i : only_value_error (_item_tokens counter i).
Proof. unfold _item_tokens. value_errors. Qed.
Lemma count_surface_errors counter c : only_value_error (count_surface counter c).
Proof. unfold count_surface, _capsule_surface. value_errors. Qed.
Lemma build_errors capsules selected records b : only_value_error (_build_capsule capsules selected records b).
Proof.
  unfold _build_capsule. destruct capsules; [apply value_error_err|]. unfold _new_capsule_id, record_text. value_errors.
Qed.
Lemma provisional_errors capsules selected records b counter :
  only_value_error (_provisional_after_tokens capsules selected records b counter).
Proof.
  unfold _provisional_after_tokens. apply value_error_bind; [apply build_errors|]. intros c.
  apply count_surface_errors.
Qed.
Lemma candidate_fits_errors item field selected records capsules b counter id a t :
  only_value_error (candidate_fits item field selected records capsules b counter id a t).
Proof.
  unfold candidate_fits. apply value_error_bind; [apply item_tokens_errors|]. intros before.
  apply value_error_bind; [apply provisional_errors|]. intros n. apply value_error_ok.
Qed.
End errors.

(** ** The search for an approximation *)

Section search.
Context `{FloatRepr, ItemDump}.
Variables (try_fit : Item -> Z -> result reorganize_error bool) (item : Item) (counter : TokenCounter).

(** What one turn of the loop learns about a length: the approximation of that
    length and its cost, if it fits. *)
Definition probe (n : Z) : result reorganize_error (option (Item * Z)) :=
  match _approximate_item item n with
  | None => Ok None
  | Some candidate =>
      if candidate ==? item then Ok None else
      after_tokens ← _item_tokens counter candidate;
      fits ← try_fit candidate after_tokens;
      Ok (if (fits : bool) then Some (candidate, after_tokens) else None)
  end.
Lemma fit_loop_turn fuel low high best : fit_loop (S fuel) try_fit item counter low high best =
  if high <? low then Some (Ok best) else
  match probe ((low + high) / 2) with
  | Err e => Some (Err e)
  | Ok (Some a) => fit_loop fuel try_fit item counter ((low + high) / 2 + 1) high (Some a)
  | Ok None => fit_loop fuel try_fit item counter low ((low + high) / 2 - 1) best
  end.
Proof.
  cbn [fit_loop]. unfold probe. destruct (high <? low); [done|]. destruct (_approximate_item _ _) as [a|]; [|done].
  destruct (a ==? item); [done|]. destruct (_item_tokens _ _) as [n|]; [|done]. cbn.
  by destruct (try_fit _ _) as [[]|].
Qed.

(** The loop ends within its fuel, with the best it was given or with an
    approximation it probed. *)
Lemma fit_loop_found fuel : forall low high best, (Z.to_nat (high - low + 1) < fuel)%nat ->
  exists r, fit_loop fuel try_fit item counter low high best = Some r /\
  match r with
  | Err e => exists n, low <= n <= high /\ probe n = Err e
  | Ok found => found = best \/ exists n a, low <= n <= high /\ probe n = Ok (Some a) /\ found = Some a
  end.
Proof.
  induction fuel as [|fuel IH]; intros low high best Hf; [lia|]. rewrite fit_loop_turn.
  destruct (high <? low) eqn:Hlt; bool_hyps; [by exists (Ok best); auto|].
  assert (low <= (low + high) / 2 <= high) as Hmid by zdiv.
  destruct (probe _) as [[a|]|e] eqn:Hp; [..|exists (Err e); by eauto].
  - destruct (IH ((low + high) / 2 + 1) high (Some a)) as (r & -> & Hr); [lia|]. exists r. split; [done|].
    destruct r as [found|e]; [right|].
    + destruct Hr as [->|(n & b & Hn & ? & ?)]; eauto. exists n, b. split; [lia|done].
    + destruct Hr as (n & Hn & ?). exists n. split; [lia|done].
  - destruct (IH low ((low + high) / 2 - 1) best) as (r & -> & Hr); [lia|]. exists r. split; [done|].
    destruct r as [found|e].
    + destruct Hr as [->|(n & b & Hn & ? & ?)]; [by left|right]. exists n, b. split; [lia|done].
    + destruct Hr as (n & Hn & ?). exists n. split; [lia|done].
Qed.

(** Whatever the probes say, the loop stops at an edge: it keeps what it was
    given only where the shortest length does not fit, and the length one above
    its answer does not fit either. *)
Lemma fit_loop_edge fuel : forall low high best found,
  fit_loop fuel try_fit item counter low high best = Some (Ok found) ->
  (found = best /\ (high < low \/ probe low = Ok None))
  \/ exists n a, low <= n <= high /\ probe n = Ok (Some a) /\ found = Some a
       /\ (n = high \/ probe (n + 1) = Ok None).
Proof.
  induction fuel as [|fuel IH]; intros low high best found; [done|]. rewrite fit_loop_turn.
  destruct (high <? low) eqn:Hlt; bool_hyps; [intros [= ->]; by auto|].
  set (mid := (low + high) / 2). assert (low <= mid <= high) as Hmid by (subst mid; zdiv).
  destruct (probe mid) as [[a|]|e] eqn:Hp; [| |done].
  - intros [[-> Hedge]|(n & b & Hn & ? & ? & ?)]%IH; right; [|exists n, b; split_and!; [lia..|done|done|done]].
    exists mid, a. split_and!; [lia..|done|done|]. destruct Hedge as [?|?]; [left; lia|by right].
  - intros [[-> Hedge]|(n & b & Hn & ? & ? & Hedge)]%IH; [left|right].
    + split; [done|]. destruct Hedge as [?|?]; [|by auto]. right. by replace low with mid by lia.
    + exists n, b. split_and!; [lia..|done|done|]. right.
      destruct Hedge as [->|?]; [|done]. by replace (mid - 1 + 1) with mid by lia.
Qed.

(** Where whatever is shorter than a fit fits, the loop finds the longest fit. *)
Lemma fit_loop_longest fuel : forall low high best, (Z.to_nat (high - low + 1) < fuel)%nat ->
  (forall n, low <= n <= high -> is_ok (probe n) = true) ->
  (forall n m a, low <= n <= m -> m <= high -> probe m = Ok (Some a) -> probe n <> Ok None) ->
  exists found, fit_loop fuel try_fit item counter low high best = Some (Ok found) /\
  ((found = best /\ forall n, low <= n <= high -> probe n = Ok None)
   \/ exists n a, low <= n <= high /\ probe n = Ok (Some a) /\ found = Some a
        /\ forall m, n < m <= high -> probe m = Ok None).
Proof.
  induction fuel as [|fuel IH]; intros low high best Hf Hok Hmono; [lia|]. rewrite fit_loop_turn.
  destruct (high <? low) eqn:Hlt; bool_hyps.
  { exists best. split; [done|]. left. split; [done|]. intros n Hn. lia. }
  set (mid := (low + high) / 2). assert (low <= mid <= high) as Hmid by (subst mid; zdiv).
  pose proof (Hok mid Hmid) as Hmok. destruct (probe mid) as [[a|]|e] eqn:Hp; [..|done].
  - destruct (IH (mid + 1) high (Some a)) as (found & -> & Hr); [lia| | |].
    { intros n Hn. apply Hok. lia. }
    { intros n m b Hn Hm. apply Hmono; lia. }
    exists found. split; [done|]. right. destruct Hr as [[-> Hnone]|(n & b & Hn & ? & ? & ?)].
    + exists mid, a. split_and!; [lia..|done|done|]. intros m Hm. apply Hnone. lia.
    + exists n, b. split_and!; [lia..|done|done|done].
  - assert (forall m, mid <= m <= high -> probe m = Ok None) as Habove.
    { intros m Hm. pose proof (Hok m ltac:(lia)) as Ho. destruct (probe m) as [[b|]|] eqn:Hpm; [|done..].
      exfalso. apply (Hmono mid m b); [lia..|done|done]. }
    destruct (IH low (mid - 1) best) as (found & -> & Hr); [lia| | |].
    { intros n Hn. apply Hok. lia. }
    { intros n m b Hn Hm. apply Hmono; lia. }
    exists found. split; [done|]. destruct Hr as [[-> Hnone]|(n & b & Hn & ? & ? & Hn')]; [left|right].
    + split; [done|]. intros n Hn. destruct (decide (n < mid)); [apply Hnone; lia|apply Habove; lia].
    + exists n, b. split_and!; [lia..|done|done|]. intros m Hm.
      destruct (decide (m < mid)); [apply Hn'; lia|apply Habove; lia].
Qed.
Lemma probe_errors n : (forall a t, only_value_error (try_fit a t)) -> only_value_error (probe n).
Proof.
  intros Htry. unfold probe. destruct (_approximate_item item n) as [b|]; [|apply value_error_ok].
  destruct (b ==? item); [apply value_error_ok|].
  apply value_error_bind; [apply item_tokens_errors|]. intros t.
  apply value_error_bind; [apply Htry|]. intros fits. apply value_error_ok.
Qed.
End search.

(** ** What is done with an item *)

(** One item of one field, the capsule it was first met in, what became of it,
    its cost before and after, and what the result holds for it. *)
Record Disposition := {
  di_field : Field; di_item : Item; di_capsule : ContextCapsuleEnvelope; di_status : ReorganizationStatus;
  di_before : Z; di_after : Z; di_resident : option Item;
}.
Definition di_key (d : Disposition) : Field * string := (di_field d, _item_id (di_item d)).
Definition di_record (d : Disposition) : ReorganizationRecord :=
  item_record (di_field d) (di_item d) (cap_capsule_id (di_capsule d)) (di_status d) (di_before d) (di_after d)
    (bool_decide (di_field d ∈ core_fields)).
(** What the result holds of one field. *)
Definition resident_of (f : Field) (d : Disposition) : option Item :=
  if bool_decide (di_field d = f) then di_resident d else None.
Definition residents (f : Field) (ds : list Disposition) : list Item := omap (resident_of f) ds.
Definition di_seen (d : Disposition) : string * string * Item :=
  (field_kind (di_field d), _item_id (di_item d), di_item d).
(** The item is among those that were disposed of: itself, or one [==] to it. *)
Definition disposed (ds : list Disposition) (f : Field) (i : Item) : Prop :=
  exists d, d ∈ ds /\ di_key d = (f, _item_id i) /\ (di_item d = i \/ (di_item d ==? i) = true).

Lemma residents_app f ds es : residents f (ds ++ es) = residents f ds ++ residents f es.
Proof. apply omap_app. Qed.
Lemma disposed_app ds es f i : disposed ds f i -> disposed (ds ++ es) f i.
Proof. intros (d & Hd & ?). exists d. split; [|done]. apply elem_of_app. by left. Qed.

Section reorganize.
Context `{Sha256, FloatRepr, ModelDump, ItemDump}.
Variables (capsules : list ContextCapsuleEnvelope) (counter : TokenCounter).

(** What a disposition may be: kept as it is, shortened, or released; an exact
    anchor or a dependency only the first. *)
Definition sound (d : Disposition) : Prop :=
  di_capsule d ∈ capsules /\ di_item d ∈ field_items (di_capsule d) (di_field d)
  /\ _item_tokens counter (di_item d) = Ok (di_before d)
  /\ match di_status d with
     | RETAINED => (di_resident d = Some (di_item d) /\ di_after d = di_before d)
     | APPROXIMATE => ((di_field d ∉ core_fields) /\ exists n a,
         _MIN_APPROXIMATE_CHARS <= n < approximate_length (di_item d) /\ _approximate_item (di_item d) n = Some a
         /\ (a ==? di_item d) = false /\ _item_tokens counter a = Ok (di_after d) /\ di_resident d = Some a)
     | RELEASED => ((di_field d ∉ core_fields) /\ di_resident d = None /\ di_after d = 0)
     end.

(** A plan is what the dispositions so far say it is. *)
Record planned (ds : list Disposition) (met : list (ContextCapsuleEnvelope * Field * Item)) (plan : Planning) : Prop := {
  planned_seen : pl_seen plan = map di_seen ds;
  planned_keys : NoDup (map di_key ds);
  planned_sound : Forall sound ds;
  planned_selected : forall f, pl_selected plan f = residents f ds;
  planned_met : forall c f i, (c, f, i) ∈ met -> disposed ds f i;
}.
Lemma planned_nothing : planned [] [] no_plan.
Proof. split; [done|constructor|constructor|done|]. by intros c f i ?%elem_of_nil. Qed.

Lemma seen_item_spec ds met plan f i : planned ds met plan ->
  match seen_item (field_kind f) (_item_id i) plan with
  | Some known => exists d, d ∈ ds /\ di_key d = (f, _item_id i) /\ di_item d = known
  | None => (f, _item_id i) ∉ map di_key ds
  end.
Proof.
  intros [Hs _ _ _ _]. unfold seen_item. rewrite Hs. destruct (List.find _ _) as [e|] eqn:E; cbn.
  - apply find_some_elem in E as [(d & -> & Hd)%list_elem_of_fmap Hk]. cbn in Hk.
    apply andb_true_iff in Hk as [Hf%py_eq_leibniz%field_kind_inj Hi%py_eq_leibniz].
    exists d. split_and!; [done| |done]. unfold di_key. congruence.
  - intros (d & Hk & Hd)%list_elem_of_fmap. unfold di_key in Hk. injection Hk as -> Hi.
    assert (di_seen d ∈ map di_seen ds) as Hin by (apply list_elem_of_fmap; eauto).
    apply list_elem_of_In in Hin. eapply List.find_none in E; [|done]. cbn in E.
    rewrite Hi in E. by rewrite !(proj2 (py_eq_leibniz _ _)) in E.
Qed.

(** Meeting an item: it is disposed of already, it is new, or it contradicts
    what was disposed of. *)
Lemma meet_spec ds met plan c f i : planned ds met plan ->
  match meet f i plan with
  | Ok None => planned ds (met ++ [(c, f, i)]) plan
  | Ok (Some plan') => ((f, _item_id i) ∉ map di_key ds) /\ pl_selected plan' = pl_selected plan
      /\ pl_records plan' = pl_records plan
      /\ forall d r, di_field d = f -> di_item d = i -> sound d ->
         planned (ds ++ [d]) (met ++ [(c, f, i)]) (plan_with f (di_resident d) r plan')
  | Err e => e = ReorganizationConflict
      /\ exists d, d ∈ ds /\ di_key d = (f, _item_id i) /\ (di_item d ==? i) = false
  end.
Proof.
  intros Hp. pose proof (seen_item_spec _ _ _ f i Hp) as Hseen. unfold meet.
  destruct (seen_item _ _ _) as [known|] eqn:E.
  - destruct Hseen as (d & Hd & Hk & <-). destruct (di_item d ==? i) eqn:Eq; cbn; [|eauto].
    split; try apply Hp. intros c' f' i' [Hm|Hm%list_elem_of_singleton]%elem_of_app; [by apply Hp in Hm|].
    injection Hm as -> -> ->. exists d. auto.
  - cbn. split_and!; [done..|]. intros d r <- <- Hsound. split; cbn.
    + by rewrite map_app, (planned_seen _ _ _ Hp).
    + rewrite map_app. apply NoDup_app. split_and!; [apply Hp| |apply NoDup_singleton].
      by intros k Hk ->%list_elem_of_singleton.
    + apply Forall_app. split; [apply Hp|by constructor].
    + intros f'. rewrite residents_app, <- (planned_selected _ _ _ Hp). unfold residents. cbn.
      unfold resident_of, select_item. destruct (di_resident d); cbn.
      * destruct (decide (f' = di_field d)) as [->|]; [by rewrite !bool_decide_true|].
        rewrite !bool_decide_false by congruence. by rewrite app_nil_r.
      * destruct (bool_decide _); by rewrite app_nil_r.
    + intros c' f' i' [Hm|Hm%list_elem_of_singleton]%elem_of_app; [by eapply disposed_app, planned_met|].
      injection Hm as -> -> ->. exists d. split_and!; [apply elem_of_app; right; left|done|by left].
Qed.

(** ** The steps *)

(** What a step may do to a plan: dispose of its item, unless that is done
    already, and record it; or fail on an uncountable text or a conflict. *)
Definition stepped (ds : list Disposition) (met : list (ContextCapsuleEnvelope * Field * Item)) (plan : Planning)
    (c : ContextCapsuleEnvelope) (f : Field) (i : Item) (out : result reorganize_error Planning) : Prop :=
  match out with
  | Ok plan' => exists new, planned (ds ++ new) (met ++ [(c, f, i)]) plan'
      /\ pl_records plan' = pl_records plan ++ map di_record new /\ Forall (fun d => di_field d = f) new
  | Err e => e = ReorganizeValueError
      \/ (e = ReorganizationConflict /\ exists d, d ∈ ds /\ di_key d = (f, _item_id i) /\ (di_item d ==? i) = false)
  end.
(** The shape the two steps share. *)
Definition meet_then (f : Field) (i : Item) (plan : Planning) (go : Planning -> result reorganize_error Planning)
    : result reorganize_error Planning :=
  met ← meet f i plan; match met with None => Ok plan | Some plan => go plan end.
Lemma meet_then_stepped ds met plan c f i go : planned ds met plan ->
  (forall plan', pl_selected plan' = pl_selected plan -> pl_records plan' = pl_records plan ->
   match go plan' with
   | Ok p => exists d, di_field d = f /\ di_item d = i /\ sound d /\ p = plan_with f (di_resident d) (di_record d) plan'
   | Err e => e = ReorganizeValueError
   end) ->
  stepped ds met plan c f i (meet_then f i plan go).
Proof.
  intros Hp Hgo. pose proof (meet_spec _ _ _ c f i Hp) as Hm. unfold meet_then, stepped.
  destruct (meet f i plan) as [[plan'|]|e]; cbn.
  - destruct Hm as (_ & Hs & Hr & Hnew). specialize (Hgo plan' Hs Hr). destruct (go plan') as [p|e]; [|by left].
    destruct Hgo as (d & Hf & Hi & Hd & ->). exists [d]. split_and!; [by apply Hnew| |by constructor].
    cbn. by rewrite Hr.
  - exists []. rewrite !app_nil_r. done.
  - right. done.
Qed.
Lemma meet_then_eq f i plan go : meet_then f i plan go
  = (met ← meet f i plan; match met with None => Ok plan | Some plan => go plan end).
Proof. done. Qed.

Section step.
Variables (c : ContextCapsuleEnvelope) (f : Field) (i : Item).
Hypotheses (c_in : c ∈ capsules) (i_in : i ∈ field_items c f).

Lemma core_step_stepped ds met plan : planned ds met plan -> f ∈ core_fields ->
  stepped ds met plan c f i (core_step counter plan (c, f, i)).
Proof.
  intros Hp Hf. apply meet_then_stepped; [done|]. intros plan' _ _.
  destruct (_item_tokens counter i) as [n|e] eqn:E; cbn; [|by eapply item_tokens_errors].
  exists {| di_field := f; di_item := i; di_capsule := c; di_status := RETAINED; di_before := n; di_after := n;
            di_resident := Some i |}. split_and!; [done..| |].
  - done.
  - unfold di_record. cbn. by rewrite bool_decide_true.
Qed.

Lemma source_capsule_found : exists id, source_capsule capsules f (_item_id i) = Some id.
Proof.
  unfold source_capsule. destruct (List.find _ _) as [x|] eqn:E; cbn; [eauto|].
  apply list_elem_of_In in c_in. eapply List.find_none in E; [|exact c_in].
  rewrite existsb_false_iff in E. specialize (E i i_in). unfold py_eq, py_eq_string in E. bool_hyps. done.
Qed.

Lemma fit_approximate_ok selected records token_budget :
  match _fit_approximate_item i f selected records capsules token_budget counter with
  | Ok (Some (a, after)) => exists n, _MIN_APPROXIMATE_CHARS <= n < approximate_length i
      /\ _approximate_item i n = Some a /\ (a ==? i) = false /\ _item_tokens counter a = Ok after
  | Ok None => True
  | Err e => e = ReorganizeValueError
  end.
Proof.
  unfold _fit_approximate_item. destruct source_capsule_found as [id ->].
  set (try_fit := candidate_fits i f selected records capsules token_budget counter id). set (high := approximate_length i - 1).
  destruct (fit_loop_found try_fit i counter (S (Z.to_nat (high - _MIN_APPROXIMATE_CHARS + 1)))
              _MIN_APPROXIMATE_CHARS high None) as (r & -> & Hr); [lia|].
  destruct r as [found|e].
  - destruct Hr as [->|(n & [a after] & Hn & Hprobe & ->)]; [done|]. unfold probe in Hprobe.
    destruct (_approximate_item i n) as [b|] eqn:Ha; [|done]. destruct (b ==? i) eqn:Hb; [done|].
    apply result_bind_ok in Hprobe as (t & Ht & (fits & _ & [= Hsome])%result_bind_ok).
    destruct fits; [|done]. injection Hsome as -> ->. exists n. split_and!; [lia..|done|done|done].
  - destruct Hr as (n & _ & Hprobe). eapply probe_errors; [|exact Hprobe]. apply candidate_fits_errors.
Qed.

Lemma optional_step_stepped token_budget ds met plan : planned ds met plan -> f ∉ core_fields ->
  stepped ds met plan c f i (optional_step capsules token_budget counter plan (c, f, i)).
Proof.
  intros Hp Hf. apply meet_then_stepped; [done|]. intros plan' _ _.
  destruct (_item_tokens counter i) as [n|e] eqn:E; cbn; [|by eapply item_tokens_errors].
  destruct (_provisional_after_tokens _ _ _ _ _) as [t|e] eqn:Ep; cbn; [|by eapply provisional_errors].
  assert (forall s after r, sound {| di_field := f; di_item := i; di_capsule := c; di_status := s; di_before := n;
            di_after := after; di_resident := r |} ->
    exists d, di_field d = f /\ di_item d = i /\ sound d
      /\ plan_with f r (item_record f i (cap_capsule_id c) s n after false) plan'
         = plan_with f (di_resident d) (di_record d) plan') as done_as.
  { intros s after r Hsound. eexists. split_and!; [..|exact Hsound|]; [done..|].
    unfold di_record. cbn. by rewrite bool_decide_false. }
  destruct (t <=? token_budget); [by apply done_as|].
  pose proof (fit_approximate_ok (pl_selected plan') (pl_records plan') token_budget) as Hfit.
  destruct (_fit_approximate_item _ _ _ _ _ _ _) as [[[a after]|]|e]; cbn; [..|done].
  - destruct Hfit as (k & ? & ? & ? & ?). apply done_as. split_and!; try done. cbn. eauto 10.
  - by apply done_as.
Qed.
End step.

(** ** The loops *)

(** The state of a loop over the items of some fields, after the ones it has met. *)
Definition looped (ds : list Disposition) (fields : list Field) (records : list ReorganizationRecord)
    (met : list (ContextCapsuleEnvelope * Field * Item)) (plan : Planning) : Prop :=
  exists new, planned (ds ++ new) met plan /\ pl_records plan = records ++ map di_record new
    /\ Forall (fun d => di_field d ∈ fields) new.
(** Two items met under one identity that are not equal. *)
Definition in_conflict : Prop := exists c1 c2 f i j, c1 ∈ capsules /\ c2 ∈ capsules /\ i ∈ field_items c1 f
  /\ j ∈ field_items c2 f /\ _item_id i = _item_id j /\ (i ==? j) = false.
Definition loop_error (e : reorganize_error) : Prop :=
  e = ReorganizeValueError \/ (e = ReorganizationConflict /\ in_conflict).

Lemma item_loop (fields : list Field) step ds before plan :
  (forall ds met plan c f i, c ∈ capsules -> f ∈ fields -> i ∈ field_items c f -> planned ds met plan ->
   stepped ds met plan c f i (step plan (c, f, i))) ->
  planned ds before plan ->
  match fold_result step (items_of fields capsules) plan with
  | Ok plan' => looped ds fields (pl_records plan) (before ++ items_of fields capsules) plan'
  | Err e => loop_error e
  end.
Proof.
  intros Hstep Hp.
  assert (looped ds fields (pl_records plan) before plan) as Hstart by (exists []; by rewrite !app_nil_r).
  assert (forall met x s s', x ∈ items_of fields capsules -> looped ds fields (pl_records plan) met s ->
    step s x = Ok s' -> looped ds fields (pl_records plan) (met ++ [x]) s') as Hkeep.
  { intros met [[c f] i] s s' (Hc & Hf & Hi)%items_of_elem (new & Hs & Hr & Hall) Hok.
    pose proof (Hstep _ _ _ c f i Hc Hf Hi Hs) as Hx. rewrite Hok in Hx. destruct Hx as (d & Hd & Hr' & Hf').
    exists (new ++ d). split_and!; [by rewrite app_assoc| |].
    - by rewrite Hr', Hr, map_app, app_assoc.
    - apply Forall_app. split; [done|]. eapply Forall_impl; [exact Hf'|]. by intros x ->. }
  pose proof (fold_result_inv step (looped ds fields (pl_records plan)) _ _ _ Hstart Hkeep) as Hloop.
  destruct (fold_result _ _ _) as [plan'|e]; [exact Hloop|].
  destruct Hloop as (met & [[c f] i] & s & (Hc & Hf & Hi)%items_of_elem & (new & Hs & _) & Hok).
  pose proof (Hstep _ _ _ c f i Hc Hf Hi Hs) as Hx. rewrite Hok in Hx.
  destruct Hx as [->|(-> & d & Hd & Hk & Hne)]; [by left|]. right. split; [done|].
    destruct Hs as [_ _ Hsound _ _]. eapply Forall_forall in Hsound as (Hdc & Hdi & _); [|exact Hd].
    injection Hk as Hdf Hid. rewrite Hdf in Hdi. exists (di_capsule d), c, f, (di_item d), i. done.
Qed.

(** The row of a summary: released, at the cost of its text. *)
Definition is_summary_row (c : ContextCapsuleEnvelope) (r : ReorganizationRecord) : Prop :=
  exists text n, reorg_json (JObj [("narrative_summary", JStr (cap_narrative_summary c))]) = Ok text
    /\ reorg_count counter text = Ok n
    /\ r = {| ro_kind := "narrative_summary"; ro_item_id := cap_capsule_id c +:+ ":narrative_summary";
              ro_source_capsule_id := cap_capsule_id c; ro_status := RELEASED; ro_before_tokens := n;
              ro_after_tokens := 0; ro_required := false |}.
Lemma summary_loop plan :
  match fold_result (summary_step counter) capsules plan with
  | Ok plan' => pl_selected plan' = pl_selected plan /\ pl_seen plan' = pl_seen plan
      /\ exists rows, pl_records plan' = pl_records plan ++ rows /\ Forall2 is_summary_row capsules rows
  | Err e => e = ReorganizeValueError
  end.
Proof.
  set (P := fun (before : list ContextCapsuleEnvelope) plan' =>
    pl_selected plan' = pl_selected plan /\ pl_seen plan' = pl_seen plan
    /\ exists rows, pl_records plan' = pl_records plan ++ rows /\ Forall2 is_summary_row before rows).
  assert (P [] plan) as Hstart by (split_and!; [done..|]; exists []; by rewrite app_nil_r).
  assert (forall before c s s', c ∈ capsules -> P before s -> summary_step counter s c = Ok s' -> P (before ++ [c]) s') as Hkeep.
  { intros before c s s' _ (Hs & Hn & rows & Hr & Hall) (text & Ht & (n & Hc & <-%Ok_inj)%result_bind_ok)%result_bind_ok.
    split_and!; [done..|]. eexists (rows ++ [_]). cbn. split; [by rewrite Hr, app_assoc|].
    apply Forall2_app; [done|]. constructor; [|done]. exists text, n. done. }
  pose proof (fold_result_inv (summary_step counter) P _ _ _ Hstart Hkeep) as Hloop.
  destruct (fold_result _ _ _) as [plan'|e]; [exact Hloop|]. destruct Hloop as (_ & c & s & _ & _ & Hok). revert e Hok.
  apply value_error_bind; [apply reorg_json_errors|]. intros text.
  apply value_error_bind; [apply reorg_count_errors|]. intros n. apply value_error_ok.
Qed.
Lemma planned_with_records ds met plan plan' : planned ds met plan ->
  pl_selected plan' = pl_selected plan -> pl_seen plan' = pl_seen plan -> planned ds met plan'.
Proof.
  intros [] Hs Hn. split; [by rewrite Hn|done|done| |done]. intros f. by rewrite Hs.
Qed.

(** The plan of the core: every core item kept, every summary released, within the budget. *)
Lemma core_plan_spec token_budget :
  match core_plan capsules token_budget counter with
  | Ok plan => exists core rows, planned core (items_of core_fields capsules) plan
      /\ Forall (fun d => di_field d ∈ core_fields) core /\ Forall2 is_summary_row capsules rows
      /\ pl_records plan = map di_record core ++ rows
  | Err e => loop_error e \/ exists n, e = ReorganizationBudgetError n token_budget /\ token_budget < n
  end.
Proof.
  unfold core_plan.
  pose proof (item_loop core_fields (core_step counter) [] [] no_plan) as Hcore.
  destruct (fold_result (core_step counter) _ _) as [plan|e]; cbn [mbind result_bind].
  2: { left. apply Hcore; [|apply planned_nothing]. intros. by apply core_step_stepped. }
  destruct Hcore as (core & Hplan & Hr & Hcore); [|apply planned_nothing|].
  { intros. by apply core_step_stepped. }
  pose proof (summary_loop plan) as Hsum.
  destruct (fold_result (summary_step counter) _ _) as [plan'|e]; cbn [mbind result_bind]; [|left; by left].
  destruct Hsum as (Hs & Hn & rows & Hrows & Hall).
  destruct (_provisional_after_tokens _ _ _ _ _) as [t|e] eqn:Et; cbn [mbind result_bind].
  2: { left. left. by eapply provisional_errors. }
  destruct (token_budget <? t) eqn:Hlt; cbn; bool_hyps; [by eauto|].
  exists core, rows. split_and!; [by eapply planned_with_records|done|done|]. by rewrite Hrows, Hr.
Qed.
End reorganize.

(** ** The result *)

Section result.
Context `{Sha256, FloatRepr, ModelDump, ItemDump}.

Lemma ordered_elem capsules c : c ∈ ordered_capsules capsules <-> c ∈ capsules.
Proof. unfold ordered_capsules. by rewrite py_sorted_perm. Qed.
Lemma sound_ordered capsules counter d : sound (ordered_capsules capsules) counter d -> sound capsules counter d.
Proof. intros (Hc & Hrest). split; [by apply ordered_elem|exact Hrest]. Qed.
Lemma loop_error_ordered capsules e : loop_error (ordered_capsules capsules) e -> loop_error capsules e.
Proof.
  intros [->|(-> & c1 & c2 & f & i & j & Hc1 & Hc2 & Hrest)]; [by left|]. right. split; [done|].
  exists c1, c2, f, i, j. rewrite ordered_elem in Hc1, Hc2. done.
Qed.

(** What a result says: the dispositions of the core and of the optional items,
    the rows that record them, what the capsule holds, and what it costs. *)
Record reorganization_accounted (capsules : list ContextCapsuleEnvelope) (token_budget : Z) (counter : TokenCounter)
    (r : ReorganizationResult) (core optional : list Disposition) : Prop := {
  ac_core : Forall (fun d => di_field d ∈ core_fields) core;
  ac_optional : Forall (fun d => di_field d ∈ optional_fields) optional;
  ac_sound : Forall (sound capsules counter) (core ++ optional);
  ac_once : NoDup (map di_key (core ++ optional));
  ac_every : forall c f i, c ∈ capsules -> i ∈ field_items c f -> disposed (core ++ optional) f i;
  ac_records : exists rows, Forall2 (is_summary_row counter) (ordered_capsules capsules) rows
    /\ rr_records r = map di_record core ++ rows ++ map di_record optional;
  ac_holds : forall f, field_items (rr_capsule r) f = residents f (core ++ optional);
  ac_cost : count_surface counter (with_token_cost 0 (rr_capsule r)) = Ok (rr_after_tokens r)
    /\ cap_token_cost (rr_capsule r) = rr_after_tokens r;
  ac_budget : 0 <= rr_after_tokens r <= token_budget;
  ac_before : exists before, map_result (count_surface counter) (ordered_capsules capsules) = Ok before
    /\ rr_before_tokens r = sumZ id before;
  ac_losses : rr_loss_count r = len (rr_records r) - retained_count r
    /\ rr_release_count r = rr_loss_count r - approximate_count r;
}.

Lemma residents_fit capsules counter ds f i : Forall (sound capsules counter) ds ->
  i ∈ residents f ds -> item_fits f i = true.
Proof.
  intros Hall (d & Hd & Hi)%list_elem_of_omap. eapply Forall_forall in Hall as (_ & Hin & _ & Hs); [|exact Hd].
  unfold resident_of in Hi. case_bool_decide; [subst f|done]. apply field_items_fit in Hin.
  destruct (di_status d).
  - destruct Hs as [Hr _]. rewrite Hr in Hi. by injection Hi as <-.
  - destruct Hs as (_ & n & a & _ & Ha & _ & _ & Hr). rewrite Hr in Hi. injection Hi as <-.
    apply (approximate_shape (di_field d)) in Ha as [-> _]. done.
  - destruct Hs as (_ & Hr & _). by rewrite Hr in Hi.
Qed.
Lemma all_fields_split f : f ∈ core_fields \/ f ∈ optional_fields.
Proof. destruct f; ((left; by apply (bool_decide_unpack _)) || (right; by apply (bool_decide_unpack _))). Qed.
Lemma optional_not_core f : f ∈ optional_fields -> f ∉ core_fields.
Proof. destruct f; by apply (bool_decide_unpack _). Qed.
Lemma loss_counts (records : list ReorganizationRecord) :
  let having s := len (List.filter (fun r => eqb_of (ro_status r) s) records) in
  len (List.filter (fun r => negb (eqb_of (ro_status r) RETAINED)) records) = len records - having RETAINED
  /\ having RELEASED = len (List.filter (fun r => negb (eqb_of (ro_status r) RETAINED)) records) - having APPROXIMATE.
Proof.
  cbn zeta beta. induction records as [|r records [IH1 IH2]]; [done|]. cbn [List.filter].
  destruct (ro_status r).
  all: repeat match goal with |- context [eqb_of ?a ?b] =>
    first [change (eqb_of a b) with true | change (eqb_of a b) with false] end.
  all: cbn [negb]; rewrite ?len_cons; lia.
Qed.

(** Every way the operation can end: with an account of every input item, or
    with one of its three errors. *)
Lemma reorganize_ends capsules token_budget counter :
  match reorganize_capsules capsules token_budget counter with
  | Ok r => exists core optional, reorganization_accounted capsules token_budget (default Utf8ByteTokenCounter counter) r core optional
  | Err e => loop_error capsules e \/ exists n, e = ReorganizationBudgetError n token_budget /\ token_budget < n
  end.
Proof.
  unfold reorganize_capsules. destruct (negb _); cbn [raise_if]; [left; by left|].
  set (tokens := default _ counter). set (ordered := ordered_capsules capsules).
  match goal with |- context [raise_if ?b] => destruct b end; cbn [raise_if]; [left; by left|].
  destruct (map_result _ _) as [before|e] eqn:Hbefore; cbn [mbind result_bind].
  2: { left. left. revert e Hbefore. apply value_error_map. intros c. apply count_surface_errors. }
  pose proof (core_plan_spec ordered tokens token_budget) as Hcore.
  destruct (core_plan _ _ _) as [plan|e]; cbn [mbind result_bind].
  2: { destruct Hcore as [?|?]; [left; by apply loop_error_ordered|by right]. }
  destruct Hcore as (core & rows & Hplan & Hcf & Hrows & Hrec).
  pose proof (item_loop ordered tokens optional_fields (optional_step ordered token_budget tokens) core
    (items_of core_fields ordered) plan) as Hloop.
  destruct (fold_result _ _ _) as [plan'|e]; cbn [mbind result_bind].
  2: { left. apply loop_error_ordered, Hloop; [|done]. intros. apply optional_step_stepped; try done. by apply optional_not_core. }
  destruct Hloop as (optional & Hplan' & Hrec' & Hof); [|done|].
  { intros. apply optional_step_stepped; try done. by apply optional_not_core. }
  destruct (_build_capsule _ _ _ _) as [built|e] eqn:Hbuilt; cbn [mbind result_bind].
  2: { left. left. by eapply build_errors. }
  destruct (count_surface _ built) as [used|e] eqn:Hused; cbn [mbind result_bind].
  2: { left. left. by eapply count_surface_errors. }
  destruct (token_budget <? used) eqn:Hlt; cbn [raise_if]; bool_hyps; [right; by eauto|].
  exists core, optional. destruct Hplan' as [_ Hkeys Hsound Hsel Hmet].
  unfold _build_capsule in Hbuilt. destruct ordered as [|first rest] eqn:Hord; [done|].
  apply result_bind_ok in Hbuilt as (id & _ & [_ <-%Ok_inj]%raise_if_ok).
  split; cbn [rr_records rr_capsule rr_after_tokens rr_before_tokens rr_loss_count rr_release_count].
  - done.
  - done.
  - eapply Forall_impl; [exact Hsound|]. intros d Hd. apply sound_ordered. fold ordered. by rewrite Hord.
  - done.
  - intros c f i Hc Hi. rewrite <- ordered_elem in Hc. fold ordered in Hc. rewrite Hord in Hc.
    apply (Hmet c f i), elem_of_app. rewrite !items_of_elem. destruct (all_fields_split f); [by left|by right].
  - exists rows. fold ordered. rewrite Hord. split; [done|]. by rewrite Hrec', Hrec, app_assoc.
  - intros f. rewrite field_items_capsule_of; [apply Hsel|]. intros g i. rewrite Hsel. by eapply residents_fit.
  - done.
  - split; [|done]. apply result_bind_ok in Hused as (text & _ & Hcount). unfold reorg_count in Hcount.
    destruct (tokens text) as [n| | |]; try done. apply raise_if_ok in Hcount as [Hn [= <-]]. by bool_hyps.
  - exists before. fold ordered. by rewrite Hord.
  - unfold retained_count, approximate_count. cbn. apply loss_counts.
Qed.
End result.

(** ** The rows are canonical *)

(** What follows the name of a summary's row is not white space, whatever the
    capsule's id is: a character takes at most three of its bytes. *)
Definition all_space (bs : list N) : bool := forallb py_isspace (utf8_decode bs).
Lemma decode_step b0 r0 : r0 <> [] -> drop 1 r0 <> [] -> drop 2 r0 <> [] ->
  exists c r, utf8_decode (b0 :: r0) = c :: utf8_decode r /\ r ∈ [r0; drop 1 r0; drop 2 r0; drop 3 r0].
Proof.
  destruct r0 as [|b1 [|b2 [|b3 r]]]; [done..|]. intros _ _ _.
  destruct (b0 <? 128)%N eqn:H1; [|destruct (b0 <? 224)%N eqn:H2; [|destruct (b0 <? 240)%N eqn:H3]].
  - eexists _, (b1 :: b2 :: b3 :: r). split; [cbn [utf8_decode]; by rewrite H1|set_solver].
  - eexists _, (b2 :: b3 :: r). split; [cbn [utf8_decode]; by rewrite H1, H2|set_solver].
  - eexists _, (b3 :: r). split; [cbn [utf8_decode]; by rewrite H1, H2, H3|set_solver].
  - eexists _, r. split; [cbn [utf8_decode]; by rewrite H1, H2, H3|set_solver].
Qed.
Lemma all_space_step b0 r0 : (forall r, r ∈ [r0; drop 1 r0; drop 2 r0; drop 3 r0] -> all_space r = false) ->
  r0 <> [] -> drop 1 r0 <> [] -> drop 2 r0 <> [] -> all_space (b0 :: r0) = false.
Proof.
  intros Hr H1 H2 H3. destruct (decode_step b0 r0 H1 H2 H3) as (c & r & E & Hin).
  unfold all_space. rewrite E. cbn [forallb]. unfold all_space in Hr. rewrite (Hr r Hin). apply andb_false_r.
Qed.
Lemma summary_suffix_kept x : all_space (x ++ bytes_of ":narrative_summary") = false.
Proof.
  set (suffix := bytes_of ":narrative_summary").
  assert (forall k, (k <= 3)%nat -> all_space (drop k suffix) = false) as Hs.
  { intros [|[|[|[|k]]]] Hk; [vm_compute; reflexivity..|lia]. }
  enough (forall n x, (length x <= n)%nat -> all_space (x ++ suffix) = false) as Hall by by eapply Hall.
  clear x. induction n as [|n IH]; intros [|b0 x] Hx; cbn in Hx; [exact (Hs 0%nat ltac:(lia))|lia|exact (Hs 0%nat ltac:(lia))|].
  assert (forall k, (k <= 3)%nat -> all_space (drop k (x ++ suffix)) = false /\ (k <= 2 -> drop k (x ++ suffix) <> [])%nat) as Hd.
  { intros k Hk. destruct (decide (k <= length x)%nat).
    - rewrite drop_app_le by done. split; [apply IH; rewrite length_drop; lia|].
      intros _ E%(f_equal length). rewrite length_app in E. cbn in E. lia.
    - rewrite drop_app_ge by lia. split; [apply Hs; lia|].
      intros Hk2 E%(f_equal length). rewrite length_drop in E. cbn in E. lia. }
  cbn [app]. apply all_space_step; [|apply (Hd 0%nat); lia|apply (Hd 1%nat); lia|apply (Hd 2%nat); lia].
  intros r [->|[->|[->|[->|[]%elem_of_nil]%elem_of_cons]%elem_of_cons]%elem_of_cons]%elem_of_cons;
    [apply (Hd 0%nat)|apply (Hd 1%nat)|apply (Hd 2%nat)|apply (Hd 3%nat)]; lia.
Qed.
Lemma summary_id_not_blank id : is_blank (id +:+ ":narrative_summary") = false.
Proof.
  unfold is_blank, code_points, bytes_of. rewrite list_ascii_of_string_app, map_app. apply summary_suffix_kept.
Qed.
Lemma NoDup_map_finer {A B C} (f : A -> B) (g : A -> C) l :
  (forall x y, f x = f y -> g x = g y) -> NoDup (map g l) -> NoDup (map f l).
Proof.
  intros Hfg. induction l as [|x l IH]; cbn; [constructor|]. intros [Hx Hl]%NoDup_cons. constructor; [|by apply IH].
  intros (y & E & Hy)%list_elem_of_fmap. apply Hx, list_elem_of_fmap. exists y. by rewrite (Hfg x y).
Qed.

Section rows.
Context `{Sha256, FloatRepr, ModelDump, ItemDump}.
Lemma reorg_count_nonneg counter text n : reorg_count counter text = Ok n -> 0 <= n.
Proof. unfold reorg_count. destruct (counter text); try done. intros [Hn [= <-]]%raise_if_ok. by bool_hyps. Qed.
Lemma item_tokens_nonneg counter i n : _item_tokens counter i = Ok n -> 0 <= n.
Proof. intros (text & _ & Hn)%result_bind_ok. by apply reorg_count_nonneg in Hn. Qed.
Lemma disposition_record_ok capsules counter d : sound capsules counter d ->
  is_blank (_item_id (di_item d)) = false -> is_blank (cap_capsule_id (di_capsule d)) = false ->
  record_ok (di_record d) = true.
Proof.
  intros (_ & _ & Hb%item_tokens_nonneg & Hs) Hi Hc. unfold record_ok, di_record, item_record.
  cbn [ro_kind ro_item_id ro_source_capsule_id ro_status ro_before_tokens ro_after_tokens ro_required]. rewrite Hi, Hc.
  replace (is_blank (field_kind (di_field d))) with false by by destruct (di_field d). cbn [negb andb].
  assert (0 <= di_after d /\ (di_status d = RETAINED \/ di_field d ∉ core_fields)) as [Ha Hcore].
  { destruct (di_status d).
    - destruct Hs as [_ ->]. auto.
    - destruct Hs as (? & n & a & _ & _ & _ & Ha%item_tokens_nonneg & _). auto.
    - destruct Hs as (? & _ & ->). split; [lia|auto]. }
  rewrite !(proj2 (Z.leb_le _ _)) by done. cbn.
  destruct Hcore as [->|Hf]; [apply orb_true_r|]. by rewrite bool_decide_false.
Qed.
Lemma summary_row_ok counter c row : is_summary_row counter c row -> is_blank (cap_capsule_id c) = false ->
  record_ok row = true.
Proof.
  intros (text & n & _ & Hn%reorg_count_nonneg & ->) Hc. unfold record_ok.
  lazy beta iota delta [ro_kind ro_item_id ro_source_capsule_id ro_status ro_before_tokens ro_after_tokens ro_required].
  rewrite (summary_id_not_blank (cap_capsule_id c)), Hc, (proj2 (Z.leb_le 0 n) Hn). reflexivity.
Qed.
Lemma summary_rows_keys counter capsules rows : Forall2 (is_summary_row counter) capsules rows ->
  map source_item_key rows
  = map (fun c => (cap_capsule_id c, "narrative_summary", cap_capsule_id c +:+ ":narrative_summary")) capsules.
Proof. induction 1 as [|c row cs rows (text & n & _ & _ & ->) _ IH]; cbn; [done|]. by rewrite IH. Qed.
End rows.

(** ** The properties *)

Section properties.
Context `{Sha256, FloatRepr, ModelDump, ItemDump}.

(** C34. A reorganization accounts for everything it was given.  Whatever it
    returns, there is a list of dispositions, first of the exact anchors and
    dependencies and then of the other items, such that every item of every
    input capsule is disposed of exactly once under its kind and id; each
    disposition keeps the item as it is, replaces it by a truncation of the item
    that differs from it (never for an anchor or a dependency), or releases it,
    with its true costs; the rows of the result are the rows of the dispositions
    and of the summaries, in order; the fields of the capsule are exactly what
    the dispositions leave resident; the recorded cost is the counted cost of
    the capsule without its cost field, and is within the budget; and the loss
    and release counts are those of the rows. *)
Theorem reorganize_accounts capsules token_budget counter r :
  reorganize_capsules capsules token_budget counter = Ok r ->
  exists core optional, reorganization_accounted capsules token_budget (default Utf8ByteTokenCounter counter) r core optional.
Proof. intros Hr. pose proof (reorganize_ends capsules token_budget counter) as He. by rewrite Hr in He. Qed.

(** C35. Core edges are never lost: for every exact anchor and dependency of
    every input capsule the result holds an equal one under the same id, and a
    required row that says it was retained at an unchanged cost. *)
Theorem reorganize_keeps_core capsules token_budget counter r c f i :
  reorganize_capsules capsules token_budget counter = Ok r ->
  c ∈ capsules -> f ∈ core_fields -> i ∈ field_items c f ->
  exists j row, j ∈ field_items (rr_capsule r) f /\ _item_id j = _item_id i /\ (j = i \/ (j ==? i) = true)
    /\ row ∈ rr_records r /\ ro_kind row = field_kind f /\ ro_item_id row = _item_id i
    /\ ro_status row = RETAINED /\ ro_required row = true /\ ro_after_tokens row = ro_before_tokens row.
Proof.
  intros Hr Hc Hf Hi. pose proof (reorganize_ends capsules token_budget counter) as He. rewrite Hr in He.
  destruct He as (core & optional & [_ Hof Hsound _ Hevery (rows & _ & Hrows) Hholds _ _ _ _]).
  destruct (Hevery c f i Hc Hi) as (d & Hd & [= Hdf Hid] & Heq).
  pose proof (proj1 (Forall_forall _ _) Hsound d Hd) as (_ & _ & _ & Hs).
  assert (di_status d = RETAINED /\ di_resident d = Some (di_item d) /\ di_after d = di_before d) as (Hst & Hres & Haft).
  { destruct (di_status d); [done|destruct Hs as [Hn _]; by rewrite Hdf in Hn..]. }
  exists (di_item d), (di_record d). rewrite Hholds. split_and!.
  - apply list_elem_of_omap. exists d. split; [done|]. unfold resident_of. by rewrite bool_decide_true.
  - done.
  - done.
  - rewrite Hrows, !elem_of_app. apply elem_of_app in Hd as [Hd|Hd]; [left|right; right]; by apply list_elem_of_fmap_2.
  - cbn. by rewrite Hdf.
  - done.
  - done.
  - cbn. rewrite Hdf. by apply bool_decide_true.
  - done.
Qed.

(** The operation fails only for a reason it names: an unusable argument
    or an uncountable text ([ValueError]), two unequal items of one kind and id
    among the inputs, or a cost above the budget, which the error reports.  It
    never runs out of search, and never finds an item without a source. *)
Theorem reorganize_fails_only capsules token_budget counter e :
  reorganize_capsules capsules token_budget counter = Err e ->
  e = ReorganizeValueError
  \/ (e = ReorganizationConflict /\ in_conflict capsules)
  \/ exists n, e = ReorganizationBudgetError n token_budget /\ token_budget < n.
Proof.
  intros He. pose proof (reorganize_ends capsules token_budget counter) as Hends. rewrite He in Hends.
  destruct Hends as [[?|?]|?]; auto.
Qed.

(** C36. The search for an approximation always ends, and what it returns is
    decided. Whatever the probes of the single lengths say, it ends with an
    error only when the probe of some length it may try is that [ValueError],
    with nothing only when there is no length to try or the shortest one, eight,
    does not fit, and otherwise with the approximation of a length that fits
    while one character more is too long or does not fit. When no probe errs and
    a length below a fitting one fits too, it is the longest of all that fit, and
    nothing only when none does. *)
Theorem approximation_longest item field selected records capsules token_budget counter id :
  let fits := probe (candidate_fits item field selected records capsules token_budget counter id) item counter in
  let tried n := _MIN_APPROXIMATE_CHARS <= n < approximate_length item in
  let found := _fit_approximate_item item field selected records capsules token_budget counter in
  source_capsule capsules field (_item_id item) = Some id ->
  match found with
  | Err e => e = ReorganizeValueError /\ exists n, tried n /\ fits n = Err e
  | Ok None => approximate_length item <= _MIN_APPROXIMATE_CHARS \/ fits _MIN_APPROXIMATE_CHARS = Ok None
  | Ok (Some a) => exists n, tried n /\ fits n = Ok (Some a)
      /\ (n + 1 = approximate_length item \/ fits (n + 1) = Ok None)
  end
  /\ ((forall n, tried n -> is_ok (fits n) = true) ->
      (forall n m a, tried n -> tried m -> n <= m -> fits m = Ok (Some a) -> fits n <> Ok None) ->
      match found with
      | Err _ => False
      | Ok None => forall n, tried n -> fits n = Ok None
      | Ok (Some a) => exists n, tried n /\ fits n = Ok (Some a) /\ forall m, tried m -> n < m -> fits m = Ok None
      end).
Proof.
  cbn zeta beta. intros Hid. unfold _fit_approximate_item. rewrite Hid. cbn zeta.
  set (high := approximate_length item - 1).
  set (try_fit := candidate_fits item field selected records capsules token_budget counter id).
  set (fuel := S (Z.to_nat (high - _MIN_APPROXIMATE_CHARS + 1))).
  split.
  - destruct (fit_loop_found try_fit item counter fuel _MIN_APPROXIMATE_CHARS high None) as (r & E & Hr); [lia|].
    rewrite E. destruct r as [found|e].
    + apply fit_loop_edge in E as [[-> Hedge]|(n & a & Hn & Ha & -> & Hedge)].
      * destruct Hedge as [?|?]; [left; lia|by right].
      * exists n. split_and!; [lia..|done|]. destruct Hedge as [?|?]; [left; lia|by right].
    + destruct Hr as (n & Hn & Hprobe). split; [by eapply probe_errors; [|exact Hprobe]; apply candidate_fits_errors|].
      exists n. split; [lia|done].
  - intros Hok Hmono. destruct (fit_loop_longest try_fit item counter fuel _MIN_APPROXIMATE_CHARS high None)
      as (found & -> & Hfound); [lia| | |].
    + intros n Hn. apply Hok. lia.
    + intros n m a Hn Hm. apply Hmono; lia.
    + destruct Hfound as [[-> Hnone]|(n & a & Hn & Ha & -> & Hlongest)].
      * intros n Hn. apply Hnone. lia.
      * exists n. split_and!; [lia..|done|]. intros m Hm Hlt. apply Hlongest. lia.
Qed.

(** The rows of a reorganization are canonical: when the input capsules
    have distinct ids and neither those nor their items' ids are blank, the
    audit of a publication accepts the rows as they are, so every row is well
    formed and no item of no capsule is named twice. *)
Theorem reorganize_records_canonical capsules token_budget counter r :
  reorganize_capsules capsules token_budget counter = Ok r ->
  NoDup (map cap_capsule_id capsules) ->
  (forall c, c ∈ capsules -> is_blank (cap_capsule_id c) = false) ->
  (forall c f i, c ∈ capsules -> i ∈ field_items c f -> is_blank (_item_id i) = false) ->
  canonicalize_reorganization_records (rr_records r) = Ok (rr_records r).
Proof.
  intros Hr Hids Hc Hi. pose proof (reorganize_ends capsules token_budget counter) as He. rewrite Hr in He.
  destruct He as (core & optional & [_ _ Hsound Honce _ (rows & Hsum & ->) _ _ _ _ _]).
  apply canonicalize_ok. split; [done|].
  assert (map di_record core ++ rows ++ map di_record optional ≡ₚ map di_record (core ++ optional) ++ rows) as Hperm.
  { rewrite map_app. solve_Permutation. }
  split.
  - apply forallb_forall. intros x Hx%list_elem_of_In. rewrite Hperm in Hx.
    apply elem_of_app in Hx as [(d & -> & Hd)%list_elem_of_fmap|Hx].
    + eapply Forall_forall in Hsound; [|exact Hd]. pose proof Hsound as (Hdc & Hdi & _).
      eapply disposition_record_ok; [exact Hsound|by eapply Hi|by apply Hc].
    + destruct (Forall2_elem_r _ _ _ _ Hsum Hx) as (c & Hcin & Hrow).
      eapply summary_row_ok; [exact Hrow|]. apply Hc. by apply ordered_elem.
  - rewrite Hperm, map_app. apply NoDup_app. split_and!.
    + rewrite map_map. eapply NoDup_map_finer; [|exact Honce]. intros d e [= _ Hk He].
      unfold di_key. apply field_kind_inj in Hk. congruence.
    + intros k (x & -> & (d & -> & _)%list_elem_of_fmap)%list_elem_of_fmap.
      erewrite summary_rows_keys by exact Hsum. intros (c & [= _ Hk _] & _)%list_elem_of_fmap.
      by destruct (di_field d).
    + erewrite summary_rows_keys by exact Hsum. apply (NoDup_map_finer _ cap_capsule_id).
      * by intros x y [= ->].
      * unfold ordered_capsules. by rewrite py_sorted_perm.
Qed.
End properties.

(** ** Concrete runs *)

#[local] Existing Instance toy_sha256.
#[local] Instance toy_float_repr : FloatRepr := fun _ => [].
(** The parts of a dump that decide a run: the items' texts, the coverage gap and the cost. *)
Definition item_text (i : Item) : string :=
  match i with
  | ItemClaim c => cl_text c | ItemDecision d => py_join "," (de_text d :: de_alternatives d)
  | ItemEntity e => en_canonical_name e | ItemAnchor a => an_exact_text a | ItemDependency d => dp_target_id d
  end.
#[local] Instance toy_model_dump : ModelDump := fun c =>
  [("gap", JInt (q_coverage_gap (cap_quality c)));
   ("items", JArr (map (fun i => JStr (item_text i)) (flat_map (field_items c) all_fields)));
   ("token_cost", JInt (cap_token_cost c))].
#[local] Instance toy_item_dump : ItemDump := fun i => [("text", JStr (item_text i))].

Definition toy_goal (id text : string) : CapsuleClaim :=
  {| cl_claim_id := id; cl_text := text; cl_status := SEM_ACTIVE; cl_confidence := f_one;
     cl_source_event_ids := ["event-1"] |}.
Definition toy_source (id : string) (goals : list CapsuleClaim) (decisions : list Decision_) : ContextCapsuleEnvelope :=
  {| cap_capsule_id := id; cap_schema_version := "1"; cap_level := LEVEL_MICRO;
     cap_session_key := example_key; cap_covered_event_start := 1; cap_covered_event_end := 1;
     cap_source_event_ids := ["event-1"]; cap_goals := goals;
     cap_constraints := []; cap_decisions := decisions; cap_progress := []; cap_open_loops := [];
     cap_preferences := []; cap_entities := []; cap_emotional_context := [];
     cap_exact_anchors := [example_anchor]; cap_dependencies := [];
     cap_narrative_summary := "copy"; cap_token_cost := 10;
     cap_quality := example_quality; cap_created_at := 0 |}.
(** One goal is kept, one is cut and one is released; the anchor of both capsules is kept once. *)
Definition toy_capsules : list ContextCapsuleEnvelope :=
  [toy_source "capsule-2" [toy_goal "goal-2" "copy the other data"; toy_goal "goal-3" "verify"] [];
   toy_source "capsule-1" [toy_goal "goal-1" "copy it"] []].
Definition toy_reorganized : ReorganizationResult :=
  Eval vm_compute in match reorganize_capsules toy_capsules 56 None with
                     | Ok r => r | Err _ => Build_ReorganizationResult (toy_source "" [] []) [] 0 0 0 0 end.
Lemma toy_run : reorganize_capsules toy_capsules 56 None = Ok toy_reorganized.
Proof. vm_compute. reflexivity. Qed.

Lemma reorganize_accounts_witness : rr_loss_count toy_reorganized = 4 /\ exists core optional,
  reorganization_accounted toy_capsules 56 Utf8ByteTokenCounter toy_reorganized core optional.
Proof. split; [reflexivity|]. exact (reorganize_accounts toy_capsules 56 None toy_reorganized toy_run). Defined.
Lemma reorganize_keeps_core_witness : exists j row,
  j ∈ field_items (rr_capsule toy_reorganized) EXACT_ANCHORS /\ _item_id j = "anchor-1"
  /\ (j = ItemAnchor example_anchor \/ (j ==? ItemAnchor example_anchor) = true)
  /\ row ∈ rr_records toy_reorganized /\ ro_kind row = "exact_anchor" /\ ro_item_id row = "anchor-1"
  /\ ro_status row = RETAINED /\ ro_required row = true /\ ro_after_tokens row = ro_before_tokens row.
Proof.
  exact (reorganize_keeps_core toy_capsules 56 None toy_reorganized
           (toy_source "capsule-1" [toy_goal "goal-1" "copy it"] []) EXACT_ANCHORS (ItemAnchor example_anchor) toy_run
           ltac:(right; left) ltac:(left) ltac:(left)).
Defined.
Lemma reorganize_records_canonical_witness :
  canonicalize_reorganization_records (rr_records toy_reorganized) = Ok (rr_records toy_reorganized).
Proof.
  apply (reorganize_records_canonical toy_capsules 56 None toy_reorganized toy_run).
  - apply (bool_decide_unpack _). vm_compute. exact I.
  - apply Forall_forall. repeat constructor.
  - intros c f i Hc Hi.
    assert (Forall (fun c => forall f, Forall (fun i => is_blank (_item_id i) = false) (field_items c f)) toy_capsules) as Hall
      by (repeat constructor; intros []; repeat constructor).
    eapply Forall_forall in Hall; [|exact Hc]. specialize (Hall f). eapply Forall_forall in Hall; [exact Hall|exact Hi].
Defined.
Lemma toy_refused : reorganize_capsules toy_capsules 20 None = Err (ReorganizationBudgetError 31 20).
Proof. vm_compute. reflexivity. Qed.
(** A budget below the cost of the anchor is refused. *)
Lemma reorganize_fails_only_witness : exists n,
  reorganize_capsules toy_capsules 20 None = Err (ReorganizationBudgetError n 20) /\ 20 < n.
Proof.
  exists 31. split; [exact toy_refused|].
  destruct (reorganize_fails_only toy_capsules 20 None _ toy_refused) as [E|[[E _]|(n & [= <-] & Hlt)]];
    [discriminate E|discriminate E|exact Hlt].
Defined.

(** The search of the run above, for the goal that was cut. *)
Definition toy_selected : Selected :=
  select_item GOALS (ItemClaim (toy_goal "goal-1" "copy it")) (select_item EXACT_ANCHORS (ItemAnchor example_anchor) select_nothing).
Definition toy_item : Item := ItemClaim (toy_goal "goal-2" "copy the other data").
Definition toy_fits : Z -> result reorganize_error (option (Item * Z)) :=
  probe (candidate_fits toy_item GOALS toy_selected [] (ordered_capsules toy_capsules) 56 Utf8ByteTokenCounter "capsule-2")
    toy_item Utf8ByteTokenCounter.
Definition toy_fitting (n : Z) : bool := match toy_fits n with Ok (Some _) => true | _ => false end.
Lemma toy_tried (P : Z -> Prop) : Forall P (py_range 8 19) -> forall n, 8 <= n < 19 -> P n.
Proof. intros Hall n Hn. eapply Forall_forall; [exact Hall|]. by apply elem_of_py_range. Qed.
Lemma approximation_longest_witness :
  match _fit_approximate_item toy_item GOALS toy_selected [] (ordered_capsules toy_capsules) 56 Utf8ByteTokenCounter with
  | Err _ => False
  | Ok None => forall n, 8 <= n < 19 -> toy_fits n = Ok None
  | Ok (Some a) => exists n, 8 <= n < 19 /\ toy_fits n = Ok (Some a) /\ forall m, 8 <= m < 19 -> n < m -> toy_fits m = Ok None
  end.
Proof.
  apply (approximation_longest toy_item GOALS toy_selected [] (ordered_capsules toy_capsules) 56 Utf8ByteTokenCounter "capsule-2").
  - vm_compute. reflexivity.
  - apply (toy_tried (fun n => is_ok (toy_fits n) = true)). repeat constructor.
  - intros n m a Hn Hm Hle Hfit Hnone.
    assert (forallb (fun n => forallb (fun m => implb ((n <=? m) && toy_fitting m) (toy_fitting n)) (py_range 8 19))
              (py_range 8 19) = true) as Hall by (vm_compute; reflexivity).
    rewrite forallb_forall in Hall. specialize (Hall n). rewrite <- list_elem_of_In, elem_of_py_range in Hall.
    specialize (Hall Hn). rewrite forallb_forall in Hall. specialize (Hall m).
    rewrite <- list_elem_of_In, elem_of_py_range in Hall. specialize (Hall Hm). unfold toy_fitting in Hall.
    fold toy_fits in Hfit, Hnone. rewrite Hfit, Hnone, (proj2 (Z.leb_le n m) Hle) in Hall. discriminate Hall.
Defined.

(** The last check is not only about the core: the cost of the core is taken
    when nothing is released yet, and the tenth release makes the coverage gap
    a digit longer.  At the exact cost of the core nine goals can be released,
    but not ten. *)
Definition toy_goals (n : nat) : list CapsuleClaim :=
  map (fun k => toy_goal ("goal-" +:+ show_Z (Z.of_nat k)) ("todo " +:+ show_Z (Z.of_nat k))) (seq 0 n).
Example tenth_release_refused :
  is_ok (reorganize_capsules [toy_source "capsule-1" (toy_goals 9) []] 31 None) = true
  /\ reorganize_capsules [toy_source "capsule-1" (toy_goals 10) []] 31 None = Err (ReorganizationBudgetError 32 31).
Proof. split; vm_compute; reflexivity. Qed.

(** Truncation does not keep the values of a list apart: a Decision whose
    alternatives share their first characters is shortened to one its own
    validator refuses, and the result holds it. *)
Definition toy_decision : Decision_ :=
  {| de_decision_id := "decision-1"; de_text := "copy the data"; de_status := SEM_ACTIVE; de_confidence := f_one;
     de_source_event_ids := ["event-1"]; de_rationale := ""; de_alternatives := ["move the old data"; "move the old disk"];
     de_supersedes := []; de_rejected_because := "" |}.
Example shortened_decision_invalid :
  let source := toy_source "capsule-1" [] [toy_decision] in
  ContextCapsuleEnvelope_valid source = true
  /\ match reorganize_capsules [source] 75 None with
     | Ok r => ContextCapsuleEnvelope_valid (rr_capsule r)
     | Err _ => true
     end = false.
Proof. split; vm_compute; reflexivity. Qed.
